(* ===== verification/_CoqProject ===== *)
-Q . S2P
Prelude.v
GoString.v
Utf8.v
Json.v
Options.v
Window.v
Release.v
Version.v
Phased.v
Update.v
Service.v
Systemd.v
Supervise.v
UpdateSync.v
Payload.v
Tx.v
Settings.v
SettingsProps.v
PolicyEngine.v
PolicyPlan.v
PolicyRuns.v
PolicyUndo.v
PolicySettle.v
RegistryHandler.v
UpdateHandler.v
PolicyExamples.v
AgentStore.v
Scripts.v
ScriptRuns.v
Apps.v
AppSync.v
AppLife.v
AgentExamples.v
Throttle.v
Secrets.v
AuthStore.v
Credentials.v
Auth.v
Sso.v
AuthLife.v
AuthInv.v
SignIn.v
Sessions.v
SsoProps.v
Access.v
AuthExamples.v
FleetStore.v
Effective.v
Rollout.v
RolloutSpec.v
RolloutLife.v
CommandStore.v
Commands.v
CommandProps.v
CommandLife.v
LapsLife.v
Compliance.v
RuleLexer.v
RuleParser.v
RuleGrammar.v
RuleCompile.v
GroupService.v
Library.v
ScriptLibrary.v
ProfileLibrary.v
AppLibrary.v
AdminRequests.v
Admin.v
AdminFrames.v
LibraryLife.v
Approvals.v
Reach.v
AdminExamples.v
Devices.v
Enroll.v
EnrollLife.v
Builds.v
AgentApi.v
ComplianceService.v
EntryExamples.v
