(* ===== verification/Prelude.v ===== *)
(** * Retune: a verified model of the server and the agent

    Retune manages Windows (and Linux) machines: a server holds devices,
    groups, items assigned to groups, and commands; an agent on every device
    checks in, is told what is assigned to it and what to run, keeps the machine
    matching, and replaces itself when a new build is assigned. This library
    models the parts of the Go program whose logic decides what happens to a
    machine, as executable definitions that read like the code, and proves what
    makes each part correct.

    ** The parts, and the files that model them

    Common ground.
    - [Prelude]: Go's results and errors, 64-bit integers with their wrap-around,
      instants and durations, generic lemmas. [GoString]: what the program uses of
      [strings], [strconv], [fmt] and [path/filepath]. [Utf8]: [unicode/utf8].
      [Json]: decoding values into structs. [Tx]: transactions over
      tables ([Store.InTx]), the store's errors, the audit log.

    What travels between server and agent ([internal/protocol], [release],
    [opsign]).
    - [Options]: the options of script, app and agent assignments. [Window]:
      maintenance windows ([window.go]). [Payload]: command payloads
      ([commands.go] and the normalising part of [server/commands]). [Settings],
      [SettingsProps]: configuration profiles ([profile.go], [network.go],
      [certificate.go]). [Release]: signed builds, scripts and orders. [Version]:
      version order ([release/manifest.go]). [Phased]: phased rollouts
      ([store/rollout.go]).

    The agent replaces itself ([internal/agent/selfupdate]).
    - [Update]: [decide.go] and [record.go]. [Service]: the interface of a service
      manager, a class with laws; [Systemd] implements it ([systemd.go]) and
      [Supervise] ([supervise.go]) is proved against the class alone.
      [UpdateSync]: [syncer.go] over all of these.

    The agent keeps the machine matching ([internal/agent/policy] and the buckets
    of [agent/state] it uses).
    - [PolicyEngine]: [engine.go], [reconcile.go], [sync.go]. [PolicyPlan]: the
      plan against a reference definition. [PolicyRuns]: statuses, what a cycle
      may ask for, signatures. [PolicyUndo]: histories and undoing, and
      [PolicySettle]: coming to rest, for the sort of settings whose handlers
      keep to a few laws.
    - [RegistryHandler]: the handler of registry values
      ([handler_registry_windows.go]) over the registry package, proved to keep
      those laws for values of the machine, and what follows for profiles of
      them. [UpdateHandler]: Windows Update ([handler_update.go]), by way of it.
      [PolicyExamples]: a registry that satisfies the hypotheses, and the
      histories that show defects.

    The agent runs scripts and installs apps ([internal/agent/scripts], [apps],
    and the buckets of [agent/state] they use).
    - [AgentStore]: the buckets, the clock, captured output ([executor/capped.go]).
      [Scripts]: [scheduler.go] and [runner.go]; [ScriptRuns]: signatures, the
      verdict of a run, and any number of check-ins.
    - [Apps]: app versions and their manifest ([protocol/app.go],
      [apppackage.go], [signing.go]), winget and uploaded packages. [AppSync]:
      [scheduler.go] and [syncer.go]; [AppLife]: what every step keeps, apps that
      fail, are settled, are missing, and what the manifest decides.
      [AgentExamples]: small machines for both.

    The server decides what a device is given ([internal/server/store],
    [releasefeed], [groups], [compliance], [adminapi]).
    - [FleetStore]: groups, assignments, agent builds, rollouts, approvals and
      statuses as tables. [Effective]: what is in effect for a device. [Rollout]:
      all of [releasefeed/rollout.go]; [RolloutSpec]: the abstract machine it
      refines; [RolloutLife]: histories. [RuleLexer], [RuleParser], [RuleCompile]:
      the rule language of dynamic groups and its compilation to SQL;
      [RuleGrammar]: the grammar it is proved against. [Compliance]: compliance
      rules, their validation, storage and evaluation.
    - [Throttle]: failed sign-ins in the database and in memory, against one
      specification. [Secrets]: encodings and the server's key.
      [AuthStore]: accounts, sessions, API tokens and device scopes as tables.
      [Credentials], [Auth]: [auth/password.go], [totp.go], [service.go],
      [apitokens.go]. [Sso]: [oidc.go]. [Access]: every route of the admin API
      and the guard in front of it ([adminapi/handler.go], [resources.go]).
      [AuthLife] is the alphabet of requests, [AuthInv] what each keeps;
      [SignIn], [Sessions], [SsoProps] the theorems; [AuthExamples] a small
      office.
    - [CommandStore], [Commands]: the command queue and the escrow of
      administrator passwords; [CommandProps], [CommandLife], [LapsLife]: single
      operations and histories.

    Administrators change the fleet ([internal/server/groups], [scripts],
    [profiles], [apps], [store] and [adminapi]).
    - [GroupService]: groups, their members and their rules.
      [Library]: items and their versions, written once against the interface
      [Kind] that [ScriptLibrary], [ProfileLibrary] and [AppLibrary] implement.
    - [AdminRequests], [Admin]: the bodies and the handlers that change groups,
      assignments, commands and the library, what waits for a second
      administrator ([approvals.go], [approvalholds.go]) and what approving does.
      [AdminFrames]: what each request leaves alone. [LibraryLife], [Approvals],
      [Reach] are the theorems, [AdminExamples] an office to try them on.

    Machines come in, and ask ([internal/server/enroll], [ca], [devices],
    [agentversions], [artifacts], [bitlocker], [agentapi] and [compliance]).
    - [Devices]: the rows of devices, enrollment tokens and registrations.
      [Enroll]: enrolling and renewing, the certificates signed for devices
      ([SignClientCSR]), reading them off a request ([clientcert.go]), being a
      device ([requireDevice]), importing registrations. A device's request is
      a row of steps - being let in, clearing what its certificate replaced,
      renewing - that those of others may come between ([entered]).
      [EnrollLife]: its theorems.
    - [Builds]: agent builds, uploaded or imported, and which one a device gets.
    - [AgentApi]: what a device may ask for ([handler.go]) and the recovery keys
      of BitLocker, over the state of all the services ([hub]).
    - [ComplianceService]: policies, the verdicts on devices, passes over them
      and the overview ([compliance/service.go], [store/compliance.go]).
      [EntryExamples]: one server and the machines that come to it.

    The parts meet where the code's do. An assignment decided by [Effective] and
    [Rollout] becomes an item of a check-in, which [UpdateSync] and [PolicyEngine]
    act on: [AgentApi.checkin] is that answer, over [Effective], [Builds] and the
    library, and [AgentApi.agent_serve] puts the certificates of [Enroll] in
    front of it. What agents report is counted by [FleetStore.AgentBuildHealth], on which
    a rollout waits. [Release] is used by the updater, the command queue and the
    policy engine and the schedulers alike. [Window] gates the updater and them.

    ** How the code is represented

    - A Go function that returns an error is a function to [result]; one that may
      also panic or run out of fuel, to [outcome], or a transaction whose error is
      the panic. Error texts are kept where the program stores, sends or compares
      them; elsewhere an error is a constructor.
    - State is passed explicitly. On the server it is a record of tables and every
      statement commits on its own unless the code says [InTx]; on the agent it is
      the machine, the network and the files, where any access may fail, according
      to a list of faults or an oracle.
    - Integers are [Z]; where the program could overflow, [wrap64] or the
      saturation of [time.Sub] is written out, and theorems say when it does not
      happen. Instants are integers of nanoseconds.
    - JSON is a tree: the text is the business of [encoding/json]. Where a text
      is hashed or signed, the writer is an argument.
    - Strings are bytes. Case mapping is ASCII's; [TrimSpace] knows Unicode.
    - Go's [map] iteration is an argument wherever its order could matter, with
      the hypothesis that it lists the map.
    - Code outside the repository is a class or an argument with laws that state
      what it documents: [Crypto], [Certificates], [JsonTime], the service
      manager, the registry ([Registry], [RegistryLaws]), the servers and
      clients. The policy engine takes its handlers as an argument, as the code
      does; where a theorem is about what a handler does, the handler is the
      registry's, and any others are listed after it. Each theorem with
      such a hypothesis has a witness at a concrete instance.

    Loops whose end is not structural have fuel: the lexer and the parsers are
    given the length of their input and proved never to run out
    ([RuleGrammar.parse_total]); reading PEM likewise
    ([SettingsProps.certificate_check_finishes]); supervision is given the polls to
    come and proved to end at the deadline ([Supervise.supervise_terminates]).

    ** What the theorems show

    - Nothing unsigned runs: [UpdateSync.only_verified_builds_run],
      [PolicyRuns.only_signed_settings_apply], [ScriptRuns.only_signed_scripts_run],
      [AppLife.only_signed_apps_act], [CommandProps.queued_orders_are_authorised],
      [Builds.served_builds_are_signed]; [AppLife] says what a signature covers.
    - Scripts and apps are tried in measure: [ScriptRuns], [AppLife].
    - A machine gets in by invitation and speaks with its own certificate, and
      what it is answered and may report is its own ([EnrollLife], [AgentApi]);
      what it is offered can be fetched, and the key it escrowed is the one
      revealed. What the steps of requests that overlap cannot do is proved;
      what they can is shown in [EntryExamples].
    - No one administrator reaches far alone: [Approvals], [Reach]; what a version
      of the library says never changes: [LibraryLife].
    - A broken build does not stay: [Supervise] (endings, rollback, termination),
      [UpdateSync.pending_record_has_supervisor], [settled_versions_left_alone].
    - Only who should gets in, and no further: [SignIn] says exactly when a
      password sign-in works, how many wrong ones are looked at and that a code is
      used once, [SsoProps] what the provider decides, [Sessions] when sessions
      and tokens end, [Access] who reaches which handler, [AuthInv] that somebody
      can manage the fleet.
    - A fleet moves in order: [RolloutSpec.rollouts_follow_their_machine] is a
      refinement of an abstract machine, from which [RolloutLife] derives what
      every history keeps; [Effective] and [Phased] say who is given what.
    - A machine matches its profiles, and can be given back: [PolicyPlan] and
      [PolicyRuns] for settings of every kind; for registry values of the
      machine, [RegistryHandler] proves that removal restores the original and
      that a settled machine is left alone. Not every kind can be undone, and a
      Windows Update setting may contradict a registry value unseen
      ([PolicyExamples]). [SettingsProps] characterises the profiles that are
      accepted.
    - Commands run once and in order, secrets are not lost: [CommandLife],
      [LapsLife].
    - Rules mean what they say and cannot inject SQL: [RuleGrammar] relates the
      parser to the documented grammar, whose limit of levels the parser keeps
      for parentheses and not for [NOT]; [RuleCompile];
      compliance states follow from the rules: [Compliance], and devices and the
      dashboard show them: [ComplianceService].
    - What is written can be read back: the round trips of [Systemd], [Options],
      [Payload], [Compliance], [Release] and [SettingsProps].

    Examples that end in a concrete evaluation show where the program does not do
    what its comments say: two agent builds after a halted rollout, a rollout
    resumed backwards ([RolloutLife]), two versions each newer than the other
    ([Version]), settings that are never undone ([PolicyExamples]), one identity
    for two registry values ([SettingsProps]), a new app version that inherits
    the failures of the old one, a field of an app version that is obeyed though
    it is not signed ([AgentExamples]), a last administrator the identity
    provider takes away, an address typed as a name ([AuthExamples]), small
    groups that add up, a token that doubles an allowance ([AdminExamples]), an
    overtaken renewal that revives a certificate, a late clearing that locks a
    device out, a version that is handed out though it waits, a lifetime below
    nothing that never ends, an orphaned file that takes a name
    ([EntryExamples]); and in [PolicyExamples] a value of the wrong type that is
    never put right, a number that is accepted and cannot be set, two settings
    that take turns.

    ** What is not modelled

    Operating-system glue (the bodies of the setting handlers other than the
    registry's and Windows Update's, process creation,
    Windows services, inventory collection, the remote shell), the text of HTTP
    and its routing, the agent's client, the console, configuration and wiring.
    PostgreSQL is represented by what the queries say, one tenant, transactions
    one after the other, so interleavings inside a transaction and isolation
    anomalies are out of scope; a database or a disk answers. Mutexes are
    represented by the atomicity of what they guard. Of the agent API, remote
    sessions, waiting, files of commands, inventory uploads and compliance
    statements are left out; of the admin API, what only lists. Alerts, reports,
    the audit stream, the release feed's polling, server
    updates and key rotation are not modelled: they send, export or store what
    the modelled parts decide. The authority's own key, X.509, PEM, CSV and TLS
    belong to the standard library and are arguments. *)
From stdpp Require Export base tactics option list gmap strings numbers.
From Stdlib Require Export ZArith Lia.

#[export] Set Default Goal Selector "!".

Declare Scope go_scope.
Delimit Scope go_scope with go.

(** ** Results: a Go function returning [(T, error)] *)

Inductive result (E A : Type) : Type :=
| Ok (a : A)
| Err (e : E).
Arguments Ok {E A} a.
Arguments Err {E A} e.

Definition rbind {E A B} (m : result E A) (f : A -> result E B) : result E B :=
  match m with
  | Ok a => f a
  | Err e => Err e
  end.

Definition is_ok {E A} (r : result E A) : bool :=
  match r with Ok _ => true | Err _ => false end.

Notation "'let!' x ':=' e 'in' k" := (rbind e (fun x => k))
  (at level 10, x pattern, e at level 100, k at level 200) : go_scope.
Notation "'check!' e ';' k" := (rbind e (fun _ => k))
  (at level 10, e at level 100, k at level 200) : go_scope.

(** [ensure c e] is [if !c { return ..., e }]. *)
Definition ensure {E} (c : bool) (e : E) : result E unit := if c then Ok tt else Err e.

Lemma rbind_Ok {E A B} (m : result E A) (f : A -> result E B) b :
  rbind m f = Ok b <-> exists a, m = Ok a /\ f a = Ok b.
Proof. destruct m as [a|e]; simpl; split; naive_solver. Qed.

Lemma rbind_assoc {E A B C} (m : result E A) (f : A -> result E B) (g : B -> result E C) :
  rbind (rbind m f) g = rbind m (fun a => rbind (f a) g).
Proof. by destruct m. Qed.

Lemma ensure_Ok {E} c (e : E) u : ensure c e = Ok u <-> c = true.
Proof. destruct u, c; simpl; split; congruence. Qed.

(** Map an effectful function over a slice, stopping at the first error. *)
Fixpoint rmap {E A B} (f : A -> result E B) (l : list A) : result E (list B) :=
  match l with
  | [] => Ok []
  | x :: r => rbind (f x) (fun y => rbind (rmap f r) (fun ys => Ok (y :: ys)))
  end.

Lemma rmap_Ok {E A B} (f : A -> result E B) l ys :
  rmap f l = Ok ys <-> Forall2 (fun x y => f x = Ok y) l ys.
Proof.
  revert ys; induction l as [|x l IH]; intros ys; simpl.
  - split; [intros [= <-]; constructor | by inversion 1].
  - rewrite rbind_Ok. split.
    + intros (y & Hy & H). rewrite rbind_Ok in H. destruct H as (zs & Hz & [= <-]).
      constructor; [done | by apply IH].
    + inversion 1; subst. eexists; split; [done|]. apply rbind_Ok.
      eexists; split; [by apply IH | done].
Qed.

(** ** Outcomes: a Go call that may also panic, modelled with fuel

    [Panic] is a run-time panic such as an index out of range, [OutOfFuel] a
    model that stopped before the code did. Theorems rule both out. *)

Inductive outcome (E A : Type) : Type :=
| Ret (a : A)
| Fail (e : E)
| Panic
| OutOfFuel.
Arguments Ret {E A} a.
Arguments Fail {E A} e.
Arguments Panic {E A}.
Arguments OutOfFuel {E A}.

Definition obind {E A B} (m : outcome E A) (f : A -> outcome E B) : outcome E B :=
  match m with
  | Ret a => f a
  | Fail e => Fail e
  | Panic => Panic
  | OutOfFuel => OutOfFuel
  end.

(** The code finished: it returned a value or an error. *)
Definition finished {E A} (m : outcome E A) : bool :=
  match m with Ret _ | Fail _ => true | _ => false end.

(** ** Machine integers *)

(** Go's [int] and [int64] on the 64-bit platforms the program is built for. *)
Definition MaxInt64 : Z := 2 ^ 63 - 1.
Definition MinInt64 : Z := - 2 ^ 63.
Definition wrap64 (z : Z) : Z := (z + 2 ^ 63) mod 2 ^ 64 - 2 ^ 63.
Definition sat64 (z : Z) : Z := Z.max MinInt64 (Z.min MaxInt64 z).
Definition in_int64 (z : Z) : bool := (MinInt64 <=? z)%Z && (z <=? MaxInt64)%Z.

Lemma wrap64_id z : in_int64 z = true -> wrap64 z = z.
Proof.
  unfold in_int64, wrap64, MinInt64, MaxInt64. intros H.
  apply andb_true_iff in H as [H1%Z.leb_le H2%Z.leb_le].
  rewrite Z.mod_small; lia.
Qed.

Lemma wrap64_range z : in_int64 (wrap64 z) = true.
Proof.
  unfold in_int64, wrap64, MinInt64, MaxInt64.
  pose proof (Z.mod_pos_bound (z + 2 ^ 63) (2 ^ 64) ltac:(lia)).
  apply andb_true_iff; split; apply Z.leb_le; lia.
Qed.

Lemma sat64_id z : in_int64 z = true -> sat64 z = z.
Proof.
  unfold in_int64, sat64, MinInt64, MaxInt64. intros H.
  apply andb_true_iff in H as [H1%Z.leb_le H2%Z.leb_le]. lia.
Qed.

(** Saturation never crosses a bound that is strictly inside int64. *)
Lemma sat64_ge z d : (MinInt64 < d <= MaxInt64)%Z -> (d <=? sat64 z)%Z = (d <=? z)%Z.
Proof.
  unfold sat64, MinInt64, MaxInt64. intros H.
  apply eq_bool_prop_intro. rewrite !Is_true_true, !Z.leb_le. lia.
Qed.

Lemma sat64_gt z d : (MinInt64 <= d < MaxInt64)%Z -> (sat64 z >? d)%Z = (z >? d)%Z.
Proof.
  unfold sat64, MinInt64, MaxInt64. intros H.
  apply eq_bool_prop_intro. rewrite !Is_true_true, !Z.gtb_lt. lia.
Qed.

(** ** Time *)

(** A [time.Time] instant is the number of nanoseconds since January 1, year 1,
    00:00 UTC, so that the zero [time.Time] is 0. A [time.Duration] is a number
    of nanoseconds held in an int64. *)
Abbreviation time := Z (only parsing).
Abbreviation duration := Z (only parsing).

Definition Nanosecond : duration := 1.
Definition Second : duration := 1000000000.
Definition Minute : duration := 60 * Second.
Definition Hour : duration := 60 * Minute.

Definition IsZero (t : time) : bool := (t =? 0)%Z.
Definition Before (t u : time) : bool := (t <? u)%Z.
Definition After (t u : time) : bool := (t >? u)%Z.
(** [t.Sub(u)] saturates instead of overflowing. *)
Definition Sub (t u : time) : duration := sat64 (t - u).
Definition Add (t : time) (d : duration) : time := (t + d)%Z.
(** [time.Duration(n) * unit] wraps like any int64 multiplication. *)
Definition dmul (n : Z) (unit : duration) : duration := wrap64 (n * unit).

Lemma Sub_ge t u d : (MinInt64 < d <= MaxInt64)%Z -> (Sub t u >=? d)%Z = (t - u >=? d)%Z.
Proof. intros H. unfold Sub. rewrite !Z.geb_leb. by apply sat64_ge. Qed.

Lemma Sub_gt t u d : (MinInt64 <= d < MaxInt64)%Z -> (Sub t u >? d)%Z = (t - u >? d)%Z.
Proof. intros H. unfold Sub. by apply sat64_gt. Qed.

(** ** Lists *)

Definition any {A} (p : A -> bool) (l : list A) : bool := existsb p l.

Lemma existsb_False {A} (p : A -> bool) l :
  existsb p l = false <-> Forall (fun x => p x = false) l.
Proof.
  induction l as [|x l IH]; simpl; [split; [constructor | done]|].
  rewrite orb_false_iff, IH. split; [by intros []; constructor | by inversion 1].
Qed.

Lemma existsb_True {A} (p : A -> bool) (l : list A) :
  existsb p l = true <-> exists x, x ∈ l /\ p x = true.
Proof.
  rewrite existsb_exists. split; intros (x & Hx & Hp); exists x; (split; [|done]);
    by apply list_elem_of_In.
Qed.

(** ** Automation *)

(** Split a boolean hypothesis or goal into its conjuncts. *)
Ltac bools :=
  repeat match goal with
  | H : _ && _ = true |- _ => apply andb_true_iff in H; destruct H
  | H : _ || _ = false |- _ => apply orb_false_iff in H; destruct H
  | H : negb _ = true |- _ => apply negb_true_iff in H
  | H : negb _ = false |- _ => apply negb_false_iff in H
  | H : (_ <=? _)%Z = true |- _ => apply Z.leb_le in H
  | H : (_ <=? _)%Z = false |- _ => apply Z.leb_gt in H
  | H : (_ <? _)%Z = true |- _ => apply Z.ltb_lt in H
  | H : (_ <? _)%Z = false |- _ => apply Z.ltb_ge in H
  | H : (_ =? _)%Z = true |- _ => apply Z.eqb_eq in H
  | H : (_ =? _)%Z = false |- _ => apply Z.eqb_neq in H
  | H : String.eqb _ _ = true |- _ => apply String.eqb_eq in H
  | H : String.eqb _ _ = false |- _ => apply String.eqb_neq in H
  | H : bool_decide _ = true |- _ => apply bool_decide_eq_true in H
  | H : bool_decide _ = false |- _ => apply bool_decide_eq_false in H
  end.

(** Case on every test the goal or a hypothesis is stuck on. *)
Ltac split_ifs :=
  repeat match goal with
  | H : context [if ?b then _ else _] |- _ => destruct b eqn:?; try discriminate H
  | |- context [if ?b then _ else _] => destruct b eqn:?
  end.

(** Invert every successful step of a [result] computation in the context. *)
Ltac oks :=
  repeat match goal with
  | H : rbind _ _ = Ok _ |- _ => apply rbind_Ok in H; destruct H as (? & ? & ?)
  | H : ensure _ _ = Ok _ |- _ => apply ensure_Ok in H
  | H : Ok _ = Ok _ |- _ => injection H as H; subst
  | H : Err _ = Ok _ |- _ => discriminate H
  | H : Ok _ = Err _ |- _ => discriminate H
  end.

Create HintDb go.
#[export] Hint Resolve wrap64_range : go.
