(* ===== verification/GoString.v ===== *)
(** * Go strings

    A Go string is a sequence of bytes; the model uses the Standard Library's
    [string], whose characters are bytes. This file holds the parts of the Go
    packages [strings], [unicode] and [strconv] the modelled code uses.

    Case mapping ([ToLower], [ToUpper], [EqualFold]) is the ASCII one. Each use
    in the library says why that is enough there, or takes the mapping as a
    parameter instead. [TrimSpace] knows every Unicode white-space character in
    its UTF-8 encoding. *)
From S2P Require Export Prelude.
From Stdlib Require Export Ascii String.
From stdpp Require Export pretty.

Open Scope Z_scope.

(** [len(s)]. *)
Definition slen (s : string) : Z := Z.of_nat (String.length s).

(** The double quote character. *)
Definition DQuote : ascii := "034".

(** The line feed. *)
Definition LF : ascii := "010".
Definition newline : string := String LF EmptyString.

Definition code (c : ascii) : Z := Z.of_nat (nat_of_ascii c).
Definition in_range (lo hi c : ascii) : bool := (code lo <=? code c) && (code c <=? code hi).

Definition is_digit (c : ascii) : bool := in_range "0" "9" c.
Definition is_lower (c : ascii) : bool := in_range "a" "z" c.
Definition is_upper (c : ascii) : bool := in_range "A" "Z" c.
Definition digit_value (c : ascii) : Z := code c - code "0".

Definition lower_ascii (c : ascii) : ascii :=
  if is_upper c then ascii_of_nat (nat_of_ascii c + 32) else c.
Definition upper_ascii (c : ascii) : ascii :=
  if is_lower c then ascii_of_nat (nat_of_ascii c - 32) else c.

Fixpoint smap (f : ascii -> ascii) (s : string) : string :=
  match s with
  | EmptyString => EmptyString
  | String c r => String (f c) (smap f r)
  end.

Definition ToLower : string -> string := smap lower_ascii.
Definition ToUpper : string -> string := smap upper_ascii.
Definition EqualFold (a b : string) : bool := String.eqb (ToLower a) (ToLower b).

Fixpoint sall (p : ascii -> bool) (s : string) : bool :=
  match s with
  | EmptyString => true
  | String c r => p c && sall p r
  end.

Fixpoint sany (p : ascii -> bool) (s : string) : bool :=
  match s with
  | EmptyString => false
  | String c r => p c || sany p r
  end.

(** ** White space *)

(** [unicode.IsSpace(rune(c))] for a byte [c]: the Latin-1 part of the table. *)
Definition is_space_byte (c : ascii) : bool :=
  (9 <=? code c) && (code c <=? 13) || (code c =? 32) || (code c =? 133) || (code c =? 160).

Definition bytes (l : list Z) : string :=
  fold_right (fun z s => String (ascii_of_nat (Z.to_nat z)) s) EmptyString l.

(** The UTF-8 encodings of the runes [unicode.IsSpace] accepts. *)
Definition space_encodings : list string :=
  map bytes
    ([[9]; [10]; [11]; [12]; [13]; [32]; [194; 133]; [194; 160]; [225; 154; 128]]
     ++ map (fun b => [226; 128; b]) [128; 129; 130; 131; 132; 133; 134; 135; 136; 137; 138; 168; 169; 175]
     ++ [[226; 129; 159]; [227; 128; 128]]).

(** [strings.CutPrefix]: what follows [p], when [s] starts with it. *)
Fixpoint CutPrefix (p s : string) : option string :=
  match p, s with
  | EmptyString, _ => Some s
  | String a p', String b s' => if Ascii.eqb a b then CutPrefix p' s' else None
  | String _ _, EmptyString => None
  end.

Definition HasPrefix (s p : string) : bool :=
  match CutPrefix p s with Some _ => true | None => false end.

Fixpoint first_cut (ps : list string) (s : string) : option string :=
  match ps with
  | [] => None
  | p :: ps' => match CutPrefix p s with Some r => Some r | None => first_cut ps' s end
  end.

(** Strip any of [ps] from the front, as long as one is there. *)
Fixpoint trim_left_fuel (fuel : nat) (ps : list string) (s : string) : string :=
  match fuel with
  | O => s
  | S f => match first_cut ps s with Some r => trim_left_fuel f ps r | None => s end
  end.

Definition trim_left (ps : list string) (s : string) : string :=
  trim_left_fuel (String.length s) ps s.

Fixpoint srev_append (s acc : string) : string :=
  match s with
  | EmptyString => acc
  | String c r => srev_append r (String c acc)
  end.
Definition srev (s : string) : string := srev_append s EmptyString.

Definition trim_both (ps : list string) (s : string) : string :=
  srev (trim_left (map srev ps) (srev (trim_left ps s))).

Definition TrimSpace (s : string) : string := trim_both space_encodings s.
(** [strings.Trim(s, c)] for a one-character cutset. *)
Definition TrimChar (c : ascii) (s : string) : string := trim_both [String c EmptyString] s.

Definition TrimSuffix (s p : string) : string :=
  match CutPrefix (srev p) (srev s) with Some r => srev r | None => s end.

(** ** Searching, splitting and joining *)

(** [strings.Contains(s, sub)]. *)
Fixpoint Contains (s sub : string) : bool :=
  HasPrefix s sub || match s with EmptyString => false | String _ r => Contains r sub end.

(** [strings.Split(s, sep)] for a one-byte separator: never empty. *)
Fixpoint Split (sep : ascii) (s : string) : list string :=
  match s with
  | EmptyString => [EmptyString]
  | String c r =>
      if Ascii.eqb c sep then EmptyString :: Split sep r
      else match Split sep r with
           | [] => [String c EmptyString]
           | p :: ps => String c p :: ps
           end
  end.

(** [strings.Join]. *)
Fixpoint Join (sep : string) (l : list string) : string :=
  match l with
  | [] => EmptyString
  | [x] => x
  | x :: r => x ++ sep ++ Join sep r
  end%string.

(** [strings.ReplaceAll] of one byte by another. *)
Definition ReplaceByte (a b : ascii) : string -> string :=
  smap (fun c => if Ascii.eqb c a then b else c).

(** [strings.ReplaceAll(s, p, t)] for a non-empty [p]. *)
Fixpoint ReplaceAll_fuel (fuel : nat) (p t s : string) : string :=
  match fuel with
  | O => s
  | S f =>
      match s with
      | EmptyString => EmptyString
      | String c r =>
          match CutPrefix p s with
          | Some rest => (t ++ ReplaceAll_fuel f p t rest)%string
          | None => String c (ReplaceAll_fuel f p t r)
          end
      end
  end.
Definition ReplaceAll (s p t : string) : string := ReplaceAll_fuel (String.length s) p t s.

(** ** Numbers *)

(** The value of a string of decimal digits, read from the left. *)
Fixpoint digits_value (acc : Z) (s : string) : option Z :=
  match s with
  | EmptyString => Some acc
  | String c r => if is_digit c then digits_value (acc * 10 + digit_value c) r else None
  end.

(** [strconv.Atoi], which is [ParseInt(s, 10, 64)]: an optional sign, at least
    one digit, and a value in range. *)
Definition Atoi (s : string) : option Z :=
  let '(neg, d) :=
    match s with
    | String c r => if Ascii.eqb c "-" then (true, r) else if Ascii.eqb c "+" then (false, r) else (false, s)
    | EmptyString => (false, s)
    end in
  match d with
  | EmptyString => None
  | _ => match digits_value 0 d with
         | Some v => let z := if neg : bool then - v else v in
                     if in_int64 z then Some z else None
         | None => None
         end
  end.

(** [strconv.Itoa]. *)
Definition Itoa (n : Z) : string := pretty n.

Definition hex_digit (n : Z) : ascii :=
  ascii_of_nat (Z.to_nat (if n <? 10 then 48 + n else 87 + n)).

(** [strconv.Quote], for text of printable characters and ASCII controls. *)
Definition quote_char (c : ascii) : string :=
  let esc (d : ascii) := String "\" (String d EmptyString) in
  if Ascii.eqb c DQuote then esc DQuote
  else if Ascii.eqb c "\" then esc "\"%char
  else if code c =? 7 then esc "a"%char else if code c =? 8 then esc "b"%char
  else if code c =? 12 then esc "f"%char else if code c =? 10 then esc "n"%char
  else if code c =? 13 then esc "r"%char else if code c =? 9 then esc "t"%char
  else if code c =? 11 then esc "v"%char
  else if (code c <? 32) || (code c =? 127)
  then String "\" (String "x" (String (hex_digit (code c / 16)) (String (hex_digit (code c mod 16)) EmptyString)))
  else String c EmptyString.

Fixpoint quote_body (s : string) : string :=
  match s with EmptyString => EmptyString | String c r => (quote_char c ++ quote_body r)%string end.

Definition Quoted (s : string) : string := String DQuote (quote_body s ++ String DQuote EmptyString)%string.

(** ** Facts *)

Lemma slen_nonneg s : 0 <= slen s.
Proof. unfold slen. lia. Qed.

Lemma slen_String c s : slen (String c s) = slen s + 1.
Proof. unfold slen. simpl. lia. Qed.

Lemma String_app c a b : (String c a ++ b)%string = String c (a ++ b).
Proof. done. Qed.

Lemma sapp_assoc a b c : ((a ++ b) ++ c)%string = (a ++ (b ++ c))%string.
Proof. induction a as [|x a IH]; [done|]. by rewrite !String_app, IH. Qed.

Lemma sapp_nil_l b : (EmptyString ++ b)%string = b.
Proof. done. Qed.

Lemma slen_app a b : slen (a ++ b)%string = slen a + slen b.
Proof. induction a as [|c a IH]; [done|]. rewrite String_app, !slen_String. lia. Qed.

Lemma CutPrefix_Some p s r : CutPrefix p s = Some r <-> s = (p ++ r)%string.
Proof.
  revert s; induction p as [|a p IH]; intros s; simpl; [naive_solver|].
  destruct s as [|b s]; [naive_solver|]. destruct (Ascii.eqb_spec a b) as [->|Hne].
  - rewrite IH. split; [by intros -> | by intros [= ->]].
  - split; [done | by intros [= -> ->]].
Qed.

Lemma HasPrefix_app s p : HasPrefix s p = true <-> exists r, s = (p ++ r)%string.
Proof.
  unfold HasPrefix. destruct (CutPrefix p s) as [r|] eqn:H.
  - split; [|done]. exists r. by apply CutPrefix_Some.
  - split; [done|]. intros (r & Hr). apply CutPrefix_Some in Hr. congruence.
Qed.

Lemma digits_value_nonneg s acc v :
  0 <= acc -> digits_value acc s = Some v -> acc <= v.
Proof.
  revert acc; induction s as [|c s IH]; intros acc Hacc; simpl; [by intros [= ->]|].
  destruct (is_digit c) eqn:Hc; [|done]. unfold is_digit, in_range in Hc. bools.
  unfold digit_value. intros Hv. apply IH in Hv; lia.
Qed.

Lemma Atoi_range s v : Atoi s = Some v -> in_int64 v = true.
Proof.
  unfold Atoi. destruct (match s with EmptyString => _ | _ => _ end) as [neg d].
  destruct d; [done|]. destruct (digits_value _ _); [|done].
  cbv zeta. destruct (in_int64 _) eqn:E; [|done]. by intros [= <-].
Qed.

Lemma Split_not_nil sep s : Split sep s <> [].
Proof. destruct s as [|c s]; simpl; [done|]. case_match; [done|]. by destruct (Split sep s). Qed.

Lemma Join_cons sep x r : r <> [] -> Join sep (x :: r) = (x ++ sep ++ Join sep r)%string.
Proof. by destruct r. Qed.

(** Joining what [Split] returned gives the string back. *)
Lemma Join_Split sep s : Join (String sep EmptyString) (Split sep s) = s.
Proof.
  induction s as [|c s IH]; [done|]. simpl Split.
  pose proof (Split_not_nil sep s) as Hne.
  destruct (Ascii.eqb_spec c sep) as [->|].
  - by rewrite Join_cons, IH.
  - destruct (Split sep s) as [|p [|q ps]]; [done | |].
    + simpl in *. by rewrite IH.
    + rewrite Join_cons in * by done. by rewrite <- IH.
Qed.

(** ** Decimal rendering and reading are inverse *)

Lemma pretty_N_char_digit (d : N) :
  (d < 10)%N -> is_digit (pretty_N_char d) = true /\ digit_value (pretty_N_char d) = Z.of_N d.
Proof.
  intros Hd. assert (d = 0 \/ d = 1 \/ d = 2 \/ d = 3 \/ d = 4 \/ d = 5 \/ d = 6 \/ d = 7 \/
    d = 8 \/ d = 9)%N by lia.
  destruct_or!; subst; by split.
Qed.

Lemma digits_value_digit (d : N) acc s :
  (d < 10)%N -> digits_value acc (String (pretty_N_char d) s) = digits_value (acc * 10 + Z.of_N d) s.
Proof. intros [H1 H2]%pretty_N_char_digit. simpl. by rewrite H1, H2. Qed.

Lemma digits_value_go (x : N) s :
  digits_value 0 (pretty_N_go x s) = digits_value (Z.of_N x) s.
Proof.
  revert s. induction (N.lt_wf_0 x) as [x _ IH]; intros s.
  destruct (decide (0 < x)%N) as [Hx|Hx].
  - rewrite pretty_N_go_step by done. rewrite IH by (apply N.div_lt; lia).
    rewrite digits_value_digit by (apply N.mod_lt; lia).
    f_equal. pose proof (N.div_mod x 10 ltac:(lia)). lia.
  - assert (x = 0%N) as -> by lia. by rewrite pretty_N_go_0.
Qed.

Lemma pretty_N_go_pos (x : N) s :
  (0 < x)%N -> exists d r, pretty_N_go x s = String d r /\ is_digit d = true.
Proof.
  revert s. induction (N.lt_wf_0 x) as [x _ IH]; intros s Hx.
  rewrite pretty_N_go_step by done. destruct (decide (0 < x / 10)%N) as [Hq|Hq].
  - apply IH; [apply N.div_lt; lia | done].
  - assert (x `div` 10 = 0)%N as -> by (by apply N.le_0_r, N.nlt_ge). rewrite pretty_N_go_0.
    eexists _, _. split; [done|]. apply pretty_N_char_digit, N.mod_lt. lia.
Qed.

Lemma Itoa_pos n : 0 < n ->
  exists d r, Itoa n = String d r /\ is_digit d = true /\ digits_value 0 (String d r) = Some n.
Proof.
  intros Hn. unfold Itoa. destruct n as [|p|p]; try lia.
  change (pretty (Zpos p)) with (pretty_N_go (Npos p) "").
  destruct (pretty_N_go_pos (Npos p) "") as (d & r & Hd & Hdig); [lia|].
  exists d, r. rewrite <- Hd, digits_value_go. split_and!; done.
Qed.

(** Reading back what [Itoa] printed gives the number. *)
Lemma Atoi_Itoa n : in_int64 n = true -> Atoi (Itoa n) = Some n.
Proof.
  intros Hn. destruct (Z.lt_trichotomy n 0) as [Hneg|[->|Hpos]]; [|reflexivity|].
  - destruct (Itoa_pos (- n)) as (d & r & Hd & Hdig & Hv); [lia|].
    assert (Itoa n = String "-" (Itoa (- n))) as ->.
    { unfold Itoa. by destruct n as [|p|p]; try lia. }
    rewrite Hd. unfold Atoi. simpl Ascii.eqb. cbv iota beta. rewrite Hv. cbv zeta iota.
    by rewrite Z.opp_involutive, Hn.
  - destruct (Itoa_pos n) as (d & r & -> & Hdig & Hv); [done|]. unfold Atoi.
    destruct (Ascii.eqb_spec d "-") as [->|]; [done|].
    destruct (Ascii.eqb_spec d "+") as [->|]; [done|].
    rewrite Hv. cbv zeta iota. by rewrite Hn.
Qed.

(** ** Reversal, trimming and splitting *)

Lemma srev_append_app s acc : srev_append s acc = (srev s ++ acc)%string.
Proof.
  unfold srev. revert acc; induction s as [|c s IH]; intros acc; [done|]. simpl.
  rewrite IH, (IH (String c EmptyString)), sapp_assoc. done.
Qed.

Lemma srev_String c s : srev (String c s) = (srev s ++ String c EmptyString)%string.
Proof. unfold srev at 1. simpl. apply srev_append_app. Qed.

Lemma sapp_nil_r s : (s ++ EmptyString)%string = s.
Proof. induction s as [|c s IH]; [done|]. by rewrite String_app, IH. Qed.

Lemma srev_app a b : srev (a ++ b)%string = (srev b ++ srev a)%string.
Proof.
  induction a as [|c a IH]; [by rewrite sapp_nil_r|].
  by rewrite String_app, !srev_String, IH, sapp_assoc.
Qed.

Lemma srev_involutive s : srev (srev s) = s.
Proof. induction s as [|c s IH]; [done|]. by rewrite srev_String, srev_app, IH. Qed.

Lemma sall_app p a b : sall p (a ++ b)%string = sall p a && sall p b.
Proof. induction a as [|c a IH]; [done|]. rewrite String_app. simpl. by rewrite IH, andb_assoc. Qed.

Lemma sall_srev p s : sall p (srev s) = sall p s.
Proof.
  induction s as [|c s IH]; [done|]. rewrite srev_String, sall_app, IH. simpl.
  by rewrite andb_true_r, andb_comm.
Qed.

Lemma sall_impl (p q : ascii -> bool) s :
  (forall c, p c = true -> q c = true) -> sall p s = true -> sall q s = true.
Proof. intros H. induction s; simpl; [done|]. intros ?; bools. apply andb_true_iff. auto. Qed.

Lemma sany_sall p s : sany p s = false <-> sall (fun c => negb (p c)) s = true.
Proof.
  induction s as [|c s IH]; simpl; [done|]. rewrite orb_false_iff, andb_true_iff, negb_true_iff.
  by rewrite IH.
Qed.

(** The printable ASCII characters other than the space. *)
Definition plain (c : ascii) : bool := (33 <=? code c) && (code c <=? 126).

(** No string of [ps] starts with [c]. *)
Definition not_a_head (ps : list string) (c : ascii) : bool :=
  forallb (fun p => match p with String a _ => negb (Ascii.eqb a c) | EmptyString => false end) ps.

Lemma first_cut_head ps c r : not_a_head ps c = true -> first_cut ps (String c r) = None.
Proof.
  induction ps as [|p ps IH]; simpl; [done|]. intros [Hp Hps]%andb_true_iff.
  destruct p as [|a p]; [done|]. apply negb_true_iff in Hp. simpl. rewrite Hp. by apply IH.
Qed.

Lemma plain_not_a_head c :
  implb (plain c) (not_a_head space_encodings c && not_a_head (map srev space_encodings) c) = true.
Proof. destruct c as [[] [] [] [] [] [] [] []]; vm_compute; reflexivity. Qed.

Lemma first_cut_plain c r :
  plain c = true ->
  first_cut space_encodings (String c r) = None /\ first_cut (map srev space_encodings) (String c r) = None.
Proof.
  intros Hc. pose proof (plain_not_a_head c) as H. rewrite Hc in H. apply andb_true_iff in H as [H1 H2].
  split; by apply first_cut_head.
Qed.

Lemma trim_left_None ps s : first_cut ps s = None -> trim_left ps s = s.
Proof. intros H. unfold trim_left. destruct (String.length s); [done|]. simpl. by rewrite H. Qed.

(** [TrimSpace] changes nothing in a string without spaces. *)
Lemma TrimSpace_plain s : sall plain s = true -> TrimSpace s = s.
Proof.
  intros Hs. unfold TrimSpace, trim_both.
  assert (forall s, sall plain s = true -> trim_left space_encodings s = s) as H1.
  { intros [|c r]; [done|]. simpl sall. intros [Hc _]%andb_true_iff.
    apply trim_left_None. exact (proj1 (first_cut_plain c r Hc)). }
  assert (forall s, sall plain s = true -> trim_left (map srev space_encodings) s = s) as H2.
  { intros [|c r]; [done|]. simpl sall. intros [Hc _]%andb_true_iff.
    apply trim_left_None. exact (proj2 (first_cut_plain c r Hc)). }
  rewrite H1 by done. rewrite H2 by (by rewrite sall_srev). apply srev_involutive.
Qed.

Lemma Split_none sep s : sany (fun c => Ascii.eqb c sep) s = false -> Split sep s = [s].
Proof.
  induction s as [|c s IH]; simpl; [done|]. intros ?; bools. by rewrite H, IH.
Qed.

Lemma Split_app sep a b :
  sany (fun c => Ascii.eqb c sep) a = false -> Split sep (a ++ String sep b)%string = a :: Split sep b.
Proof.
  induction a as [|c a IH]; simpl sany; intros ?; bools; [|rewrite String_app]; simpl.
  - by rewrite Ascii.eqb_refl.
  - by rewrite H, IH.
Qed.

(** Splitting undoes joining, when no part holds the separator. *)
Lemma Split_Join sep l :
  l <> [] -> Forall (fun s => sany (fun c => Ascii.eqb c sep) s = false) l ->
  Split sep (Join (String sep EmptyString) l) = l.
Proof.
  intros Hne Hl. induction Hl as [|a l Ha Hl IH]; [done|].
  destruct l as [|b l]; [by apply Split_none|].
  rewrite Join_cons by done. change (String sep "" ++ ?x)%string with (String sep x).
  rewrite Split_app by done. by rewrite IH.
Qed.

(** The string starts with a printable character other than the space. *)
Definition headp (s : string) : bool := match s with String c _ => plain c | EmptyString => false end.

Lemma headp_app a b : headp a = true -> headp (a ++ b)%string = true.
Proof. by destruct a. Qed.

Lemma headp_srev_app a b : headp (srev b) = true -> headp (srev (a ++ b)%string) = true.
Proof. intros H. rewrite srev_app. by apply headp_app. Qed.

(** [TrimSpace] changes nothing between two such characters. *)
Lemma TrimSpace_edges s : headp s = true -> headp (srev s) = true -> TrimSpace s = s.
Proof.
  intros H1 H2. unfold TrimSpace, trim_both. rewrite (trim_left_None space_encodings s).
  - rewrite trim_left_None; [apply srev_involutive|].
    destruct (srev s) as [|c r]; [done|]. exact (proj2 (first_cut_plain c r H2)).
  - destruct s as [|c r]; [done|]. exact (proj1 (first_cut_plain c r H1)).
Qed.

Lemma sany_app p a b : sany p (a ++ b)%string = sany p a || sany p b.
Proof. induction a as [|c a IH]; [done|]. rewrite String_app. simpl. by rewrite IH, orb_assoc. Qed.

Lemma Split_app_gen sep a b : Split sep (a ++ String sep b)%string = Split sep a ++ Split sep b.
Proof.
  induction a as [|c a IH].
  - rewrite sapp_nil_l. simpl. by rewrite Ascii.eqb_refl.
  - rewrite String_app. simpl. rewrite IH. destruct (Ascii.eqb c sep); [done|].
    pose proof (Split_not_nil sep a). by destruct (Split sep a).
Qed.

Lemma CutPrefix_app p s : CutPrefix p (p ++ s)%string = Some s.
Proof. by apply CutPrefix_Some. Qed.

(** *** [TrimSpace] leaves nothing to trim *)

Lemma CutPrefix_shorter p s r : CutPrefix p s = Some r -> (String.length r + String.length p = String.length s)%nat.
Proof.
  revert s; induction p as [|a p IH]; intros [|b s]; simpl; try done; try (intros [= <-]; simpl; lia).
  destruct (Ascii.eqb a b); [|done]. intros H%IH. lia.
Qed.

Lemma first_cut_nonempty ps s r :
  Forall (fun p => p <> EmptyString) ps -> first_cut ps s = Some r -> (String.length r < String.length s)%nat.
Proof.
  induction 1 as [|p ps Hp Hps IH]; simpl; [done|]. destruct (CutPrefix p s) eqn:E; [|done].
  intros [= <-]. apply CutPrefix_shorter in E. destruct p; [done|]. simpl in E. lia.
Qed.

Lemma trim_left_fuel_done ps n s :
  Forall (fun p => p <> EmptyString) ps -> (String.length s <= n)%nat ->
  first_cut ps (trim_left_fuel n ps s) = None.
Proof.
  intros Hps. revert s; induction n as [|n IH]; intros s Hn; simpl.
  - destruct (first_cut ps s) eqn:E; [|done]. apply first_cut_nonempty in E; [lia|done].
  - destruct (first_cut ps s) eqn:E; [|done]. apply IH. apply first_cut_nonempty in E; [lia|done].
Qed.

Lemma trim_left_fuel_suffix ps n s : exists p, s = (p ++ trim_left_fuel n ps s)%string.
Proof.
  revert s; induction n as [|n IH]; intros s; simpl; [by exists EmptyString|].
  destruct (first_cut ps s) as [r|] eqn:E; [|by exists EmptyString].
  assert (exists p, s = (p ++ r)%string) as [p ->].
  { clear IH. induction ps as [|q ps IH]; simpl in E; [done|]. destruct (CutPrefix q s) eqn:Eq; [|by apply IH].
    injection E as <-. exists q. by apply CutPrefix_Some. }
  destruct (IH r) as [p' Hr]. exists (p ++ p')%string. by rewrite sapp_assoc, <- Hr.
Qed.

Lemma first_cut_prefix ps a b : first_cut ps (a ++ b)%string = None -> first_cut ps a = None.
Proof.
  induction ps as [|q ps IH]; simpl; [done|]. destruct (CutPrefix q (a ++ b)) eqn:E; [done|].
  intros H%IH. destruct (CutPrefix q a) as [r|] eqn:Ea; [|done].
  apply CutPrefix_Some in Ea as ->. by rewrite sapp_assoc, CutPrefix_app in E.
Qed.

Lemma TrimSpace_idem s : TrimSpace (TrimSpace s) = TrimSpace s.
Proof.
  assert (Forall (fun p => p <> EmptyString) space_encodings /\
          Forall (fun p => p <> EmptyString) (map srev space_encodings)) as [Hne Hne']
    by (split; repeat (apply Forall_cons_2; [vm_compute; discriminate|]); apply Forall_nil_2).
  unfold TrimSpace, trim_both. set (l := trim_left space_encodings s).
  set (r := trim_left (map srev space_encodings) (srev l)).
  assert (first_cut space_encodings l = None) as Hl by (by apply trim_left_fuel_done).
  assert (first_cut (map srev space_encodings) r = None) as Hr by (by apply trim_left_fuel_done).
  destruct (trim_left_fuel_suffix (map srev space_encodings) (String.length (srev l)) (srev l)) as [p Hp].
  change (srev l = (p ++ r)%string) in Hp.
  assert (l = (srev r ++ srev p)%string) as Hlr by (by rewrite <- srev_app, <- Hp, srev_involutive).
  rewrite (trim_left_None space_encodings (srev r)) by (apply (first_cut_prefix _ _ (srev p)); by rewrite <- Hlr).
  by rewrite srev_involutive, trim_left_None.
Qed.

(** ** File paths

    What the code uses of [path/filepath], with Unix separators. *)

Definition slash : string := "/".

(** One component applied to the cleaned components so far, last one first. *)
Definition clean_step (rooted : bool) (stack : list string) (c : string) : list string :=
  if String.eqb c "" || String.eqb c "." then stack
  else if String.eqb c ".." then
    match stack with
    | top :: rest => if String.eqb top ".." then c :: stack else rest
    | [] => if rooted then [] else [c]
    end
  else c :: stack.

Definition clean_stack (path : string) : list string :=
  fold_left (clean_step (HasPrefix path "/")) (Split "/" path) [].

(** [filepath.Clean]. *)
Definition Clean (path : string) : string :=
  let body := Join "/" (rev (clean_stack path)) in
  if HasPrefix path "/" then (slash ++ body)%string
  else if String.eqb body "" then "."%string else body.

(** [filepath.Join]: leading empty elements are ignored. *)
Fixpoint JoinPath (elem : list string) : string :=
  match elem with
  | [] => EmptyString
  | e :: r => if String.eqb e "" then JoinPath r else Clean (Join "/" (e :: r))
  end.

(** A component that is one name: it has no separator and is not special. *)
Definition plain_name (v : string) : Prop :=
  sany (fun c => Ascii.eqb c "/") v = false /\ v <> EmptyString /\ v <> "."%string /\ v <> ".."%string.

Lemma clean_step_plain rooted stack v : plain_name v -> clean_step rooted stack v = v :: stack.
Proof.
  intros (_ & H1 & H2 & H3). unfold clean_step.
  by rewrite (proj2 (String.eqb_neq _ _) H1), (proj2 (String.eqb_neq _ _) H2),
    (proj2 (String.eqb_neq _ _) H3).
Qed.

Lemma Join_snoc sep l x :
  l <> [] -> Join sep (l ++ [x]) = (Join sep l ++ sep ++ x)%string.
Proof.
  induction l as [|a l IH]; [done|]. intros _. destruct l as [|b l]; [done|].
  change ((a :: b :: l) ++ [x]) with (a :: ((b :: l) ++ [x])).
  rewrite !Join_cons by done. rewrite IH by done. by rewrite !sapp_assoc.
Qed.

Lemma clean_stack_snoc dir v :
  dir <> EmptyString -> plain_name v ->
  clean_stack (dir ++ String "/" v)%string = v :: clean_stack dir /\
  HasPrefix (dir ++ String "/" v)%string "/" = HasPrefix dir "/".
Proof.
  intros Hd Hv. assert (HasPrefix (dir ++ String "/" v)%string "/" = HasPrefix dir "/") as Hp.
  { destruct dir as [|c dir]; [done|]. rewrite String_app. unfold HasPrefix. simpl.
    by destruct (match c with Ascii _ _ _ _ _ _ _ _ => _ end). }
  split; [|done]. unfold clean_stack. rewrite Hp, Split_app_gen, fold_left_app.
  rewrite (Split_none "/" v) by apply Hv. simpl. by apply clean_step_plain.
Qed.

(** Adding a plain name to an absolute directory other than the root adds
    exactly that component. *)
Lemma Clean_snoc dir v :
  HasPrefix dir "/" = true -> clean_stack dir <> [] -> plain_name v ->
  Clean (dir ++ String "/" v)%string = (Clean dir ++ String "/" v)%string /\
  HasPrefix (dir ++ String "/" v)%string "/" = true /\
  clean_stack (dir ++ String "/" v)%string <> [].
Proof.
  intros Hd Hs Hv. destruct (clean_stack_snoc dir v) as [H1 H2]; [by destruct dir | done |].
  rewrite H1, H2. split; [|done]. unfold Clean. rewrite H1, H2, Hd. simpl rev.
  assert (rev (clean_stack dir) <> []) as Hr.
  { intros E. apply (f_equal (@rev string)) in E. by rewrite rev_involutive in E. }
  rewrite Join_snoc by done. change ("/" ++ v)%string with (String "/" v).
  by rewrite sapp_assoc.
Qed.

(** Joining two plain names to a clean absolute directory. *)
Lemma JoinPath_two dir a b :
  HasPrefix dir "/" = true -> Clean dir = dir -> dir <> slash -> plain_name a -> plain_name b ->
  JoinPath [dir; a; b] = (dir ++ "/" ++ a ++ "/" ++ b)%string.
Proof.
  intros Hd Hc Hr Ha Hb. assert (clean_stack dir <> []) as Hs.
  { intros E. apply Hr. rewrite <- Hc. unfold Clean. by rewrite E, Hd. }
  simpl. destruct (String.eqb_spec dir "") as [->|_]; [done|].
  change ("/" ++ a ++ "/" ++ b)%string with (String "/" a ++ String "/" b)%string.
  rewrite <- sapp_assoc.
  destruct (Clean_snoc dir a Hd Hs Ha) as (H1 & H2 & H3).
  destruct (Clean_snoc _ b H2 H3 Hb) as (H4 & _). by rewrite H4, H1, Hc.
Qed.
