(* ===== verification/Utf8.v ===== *)
(** * UTF-8

    What the program uses of [unicode/utf8] and of [strings.ToValidUTF8]: how
    many bytes the rune at the head of a byte string takes, how many runes a
    string has, and the replacement of ill-formed bytes. The byte ranges are
    those of the [first] and [acceptRanges] tables of the package. *)
From S2P Require Export GoString.

(** The bytes [lo..hi] at offset [n]. *)
Definition byte_in (lo hi : Z) (s : string) (n : nat) : bool :=
  match String.get n s with
  | Some c => (lo <=? code c)%Z && (code c <=? hi)%Z
  | None => false
  end.

Definition cont (s : string) (n : nat) : bool := byte_in 128 191 s n.

(** The width of the well-formed rune at the head; [None] where
    [utf8.DecodeRuneInString] gives [RuneError] with width one. *)
Definition rune_width (s : string) : option nat :=
  match s with
  | EmptyString => None
  | String c _ =>
      let b := code c in
      if (b <? 128)%Z then Some 1%nat
      else if (b <? 194)%Z then None
      else if (b <? 224)%Z then if cont s 1 then Some 2%nat else None
      else if (b <? 240)%Z then
        let lo := if (b =? 224)%Z then 160 else 128 in
        let hi := if (b =? 237)%Z then 159 else 191 in
        if byte_in lo hi s 1 && cont s 2 then Some 3%nat else None
      else if (b <? 245)%Z then
        let lo := if (b =? 240)%Z then 144 else 128 in
        let hi := if (b =? 244)%Z then 143 else 191 in
        if byte_in lo hi s 1 && cont s 2 && cont s 3 then Some 4%nat else None
      else None
  end.

(** [s[:n]] and [s[n:]], for [n] no more than the length. *)
Fixpoint take_str (n : nat) (s : string) : string :=
  match n, s with
  | S n, String c r => String c (take_str n r)
  | _, _ => EmptyString
  end.

Fixpoint drop_str (n : nat) (s : string) : string :=
  match n, s with
  | S n, String _ r => drop_str n r
  | _, _ => s
  end.

(** U+FFFD, the replacement character. *)
Definition RuneError : string := bytes [239; 191; 189].

Fixpoint ToValidUTF8_fuel (fuel : nat) (invalid : bool) (replacement s : string) : string :=
  match fuel, s with
  | S fuel, String c r =>
      match rune_width s with
      | Some w => (take_str w s ++ ToValidUTF8_fuel fuel false replacement (drop_str w s))%string
      | None =>
          if invalid then ToValidUTF8_fuel fuel true replacement r
          else (replacement ++ ToValidUTF8_fuel fuel true replacement r)%string
      end
  | _, _ => EmptyString
  end.

Definition ToValidUTF8 (s replacement : string) : string :=
  ToValidUTF8_fuel (String.length s) false replacement s.

Fixpoint rune_count_fuel (fuel : nat) (s : string) : Z :=
  match fuel, s with
  | S fuel, String c r =>
      1 + match rune_width s with
          | Some w => rune_count_fuel fuel (drop_str w s)
          | None => rune_count_fuel fuel r
          end
  | _, _ => 0
  end.

(** [utf8.ValidString]. *)
Fixpoint valid_fuel (fuel : nat) (s : string) : bool :=
  match fuel with
  | O => true
  | S f => match s with
           | EmptyString => true
           | _ => match rune_width s with Some n => valid_fuel f (drop_str n s) | None => false end
           end
  end.
Definition ValidString (s : string) : bool := valid_fuel (String.length s) s.

(** [utf8.RuneCountInString]: an ill-formed byte counts as one rune. *)
Definition RuneCountInString (s : string) : Z := rune_count_fuel (String.length s) s.

(** [utf8.ValidString], as a relation: a sequence of well-formed runes. *)
Inductive valid_utf8 : string -> Prop :=
| valid_nil : valid_utf8 EmptyString
| valid_rune s w : rune_width s = Some w -> valid_utf8 (drop_str w s) -> valid_utf8 s.

(** ** Lemmas *)

Lemma take_drop_str n s : (take_str n s ++ drop_str n s)%string = s.
Proof. revert s; induction n as [|n IH]; intros [|c s]; simpl; try done. by rewrite String_app, IH. Qed.

Lemma get_app n a b : (n < String.length a)%nat -> String.get n (a ++ b)%string = String.get n a.
Proof.
  revert n; induction a as [|c a IH]; intros n Hn; simpl in Hn; [lia|].
  rewrite String_app. destruct n as [|n]; simpl; [done|]. apply IH. lia.
Qed.

Lemma byte_in_get lo hi s n : byte_in lo hi s n = true -> (n < String.length s)%nat.
Proof.
  unfold byte_in. revert n; induction s as [|c s IH]; intros n; simpl; [by destruct n|].
  destruct n as [|n]; [lia|]. intros H%IH. lia.
Qed.

Lemma rune_width_bounds s w : rune_width s = Some w -> (1 <= w <= 4 /\ w <= String.length s)%nat.
Proof.
  destruct s as [|c r]; simpl; [done|]. unfold cont.
  repeat case_match; try done; intros [= <-];
    repeat match goal with
    | H : _ && _ = true |- _ => apply andb_true_iff in H as [? ?]
    | H : byte_in _ _ _ _ = true |- _ => apply byte_in_get in H
    end; simpl in *; lia.
Qed.

Lemma rune_width_local s t w :
  (forall n, (n < w)%nat -> String.get n t = String.get n s) ->
  rune_width s = Some w -> rune_width t = Some w.
Proof.
  intros Hget Hw. pose proof (rune_width_bounds _ _ Hw) as [[Hpos _] _].
  destruct s as [|c r]; [done|].
  destruct t as [|c' r']; [by specialize (Hget 0%nat ltac:(lia))|].
  pose proof (Hget 0%nat ltac:(lia)) as H0. injection H0 as ->.
  assert (forall lo hi n, (n < w)%nat -> byte_in lo hi (String c r') n = byte_in lo hi (String c r) n) as Hb
    by (intros lo hi n Hn; unfold byte_in; by rewrite Hget).
  revert Hw; unfold rune_width, cont. cbv zeta.
  repeat match goal with |- (if ?b then _ else _) = _ -> _ =>
    match b with context [byte_in] => fail 1 | _ => destruct b end end; try done;
  (destruct (_ && _) eqn:E || destruct (byte_in _ _ _ _) eqn:E); try done;
  intros [= <-]; repeat rewrite Hb by lia; by rewrite E.
Qed.

Lemma get_take_str n w s : (n < w)%nat -> String.get n (take_str w s) = String.get n s.
Proof.
  revert w s; induction n as [|n IH]; intros [|w] [|c s] Hn; simpl; try done; [lia..|]. apply IH. lia.
Qed.

Lemma length_take_str n s : String.length (take_str n s) = Nat.min n (String.length s).
Proof. revert s; induction n as [|n IH]; intros [|c s]; simpl; try done. by rewrite IH. Qed.

Lemma length_drop_str n s : String.length (drop_str n s) = (String.length s - n)%nat.
Proof. revert s; induction n as [|n IH]; intros [|c s]; simpl; try done; try lia. Qed.

Lemma length_sapp a b : String.length (a ++ b)%string = (String.length a + String.length b)%nat.
Proof. induction a as [|c a IH]; [done|]. rewrite String_app. simpl. by rewrite IH. Qed.

Lemma drop_str_app a b : drop_str (String.length a) (a ++ b)%string = b.
Proof. induction a as [|c a IH]; [done|]. by rewrite String_app. Qed.

(** A well-formed rune in front of well-formed text is well-formed text. *)
Lemma valid_utf8_cons s w t :
  rune_width s = Some w -> valid_utf8 t -> valid_utf8 (take_str w s ++ t)%string.
Proof.
  intros Hw Ht. pose proof (rune_width_bounds _ _ Hw) as [_ Hlen].
  assert (String.length (take_str w s) = w) as Hl by (rewrite length_take_str; lia).
  apply (valid_rune _ w).
  - apply (rune_width_local s); [|done]. intros n Hn.
    rewrite get_app by lia. by apply get_take_str.
  - rewrite <- Hl at 1. by rewrite drop_str_app.
Qed.

Lemma ToValidUTF8_fuel_valid fuel inv s : valid_utf8 (ToValidUTF8_fuel fuel inv RuneError s).
Proof.
  revert inv s; induction fuel as [|fuel IH]; intros inv [|c r]; try apply valid_nil.
  change (valid_utf8 match rune_width (String c r) with
    | Some w => (take_str w (String c r) ++ ToValidUTF8_fuel fuel false RuneError (drop_str w (String c r)))%string
    | None => if inv then ToValidUTF8_fuel fuel true RuneError r
              else (RuneError ++ ToValidUTF8_fuel fuel true RuneError r)%string end).
  destruct (rune_width _) as [w|] eqn:Hw; [by apply valid_utf8_cons|].
  destruct inv; [done|]. by apply (valid_utf8_cons RuneError 3).
Qed.

Lemma ToValidUTF8_valid s : valid_utf8 (ToValidUTF8 s RuneError).
Proof. apply ToValidUTF8_fuel_valid. Qed.

Lemma ToValidUTF8_fuel_S fuel inv t c r :
  ToValidUTF8_fuel (S fuel) inv t (String c r) =
  match rune_width (String c r) with
  | Some w => (take_str w (String c r) ++ ToValidUTF8_fuel fuel false t (drop_str w (String c r)))%string
  | None => if inv then ToValidUTF8_fuel fuel true t r
            else (t ++ ToValidUTF8_fuel fuel true t r)%string
  end.
Proof. done. Qed.

Lemma ToValidUTF8_fuel_length fuel inv s :
  (String.length (ToValidUTF8_fuel fuel inv RuneError s)
   <= 2 * String.length s + (if inv then 0 else 1))%nat.
Proof.
  revert inv s; induction fuel as [|fuel IH]; intros inv [|c r]; try (simpl; lia).
  rewrite ToValidUTF8_fuel_S. destruct (rune_width _) as [w|] eqn:Hw.
  - pose proof (rune_width_bounds _ _ Hw) as [Hb Hl]. rewrite length_sapp, length_take_str.
    pose proof (IH false (drop_str w (String c r))) as H. rewrite length_drop_str in H.
    cbn iota in H. destruct inv; cbn iota; lia.
  - pose proof (IH true r) as H. cbn iota in H.
    destruct inv; [|rewrite length_sapp]; simpl; lia.
Qed.

(** Replacing ill-formed runs at most doubles a string, and adds one byte. *)
Lemma ToValidUTF8_length s : slen (ToValidUTF8 s RuneError) <= 2 * slen s + 1.
Proof.
  unfold slen, ToValidUTF8. pose proof (ToValidUTF8_fuel_length (String.length s) false s) as H.
  cbn iota in H. lia.
Qed.

Lemma sall_take_str p n s : sall p s = true -> sall p (take_str n s) = true.
Proof.
  revert s; induction n as [|n IH]; intros [|c s]; simpl; try done.
  intros [-> H]%andb_true_iff. by apply IH.
Qed.

Lemma sall_drop_str p n s : sall p s = true -> sall p (drop_str n s) = true.
Proof.
  revert s; induction n as [|n IH]; intros [|c s]; simpl; try done.
  intros [_ H]%andb_true_iff. by apply IH.
Qed.

Lemma ToValidUTF8_fuel_sall p fuel inv t s :
  sall p t = true -> sall p s = true -> sall p (ToValidUTF8_fuel fuel inv t s) = true.
Proof.
  intros Ht. revert inv s; induction fuel as [|fuel IH]; intros inv [|c r] Hs; try done.
  rewrite ToValidUTF8_fuel_S. destruct (rune_width _) as [w|].
  - rewrite sall_app, sall_take_str by done. apply IH. by apply sall_drop_str.
  - simpl in Hs. apply andb_true_iff in Hs as [_ Hr].
    destruct inv; [by apply IH|]. rewrite sall_app, Ht. by apply IH.
Qed.

Lemma valid_utf8_fixed fuel inv t s :
  valid_utf8 s -> (String.length s <= fuel)%nat -> ToValidUTF8_fuel fuel inv t s = s.
Proof.
  intros Hv. revert fuel inv; induction Hv as [|s w Hw Hv IH]; intros fuel inv Hf; [by destruct fuel|].
  pose proof (rune_width_bounds _ _ Hw) as [Hb Hl].
  destruct s as [|c r]; [done|]. destruct fuel as [|fuel]; [simpl in Hf; lia|].
  rewrite ToValidUTF8_fuel_S, Hw, IH by (rewrite length_drop_str; simpl in *; lia).
  apply take_drop_str.
Qed.

(** Well-formed text is left alone. *)
Lemma ToValidUTF8_id s t : valid_utf8 s -> ToValidUTF8 s t = s.
Proof. intros. by apply valid_utf8_fixed. Qed.

(** *** Text cut in the middle of a rune *)

Lemma rune_width_head c r r' w w' :
  rune_width (String c r) = Some w -> rune_width (String c r') = Some w' -> w' = w.
Proof. unfold rune_width. repeat case_match; congruence. Qed.

Lemma rune_width_cont s w k :
  rune_width s = Some w -> (1 <= k < w)%nat -> cont s k = true.
Proof.
  destruct s as [|c r]; [done|]. unfold rune_width, cont.
  assert (forall lo hi, (128 <= lo)%Z -> (hi <= 191)%Z ->
    byte_in lo hi (String c r) 1 = true -> byte_in 128 191 (String c r) 1 = true) as Hsub.
  { intros lo hi ??. unfold byte_in. destruct (String.get _ _); [|done]. rewrite !andb_true_iff. lia. }
  repeat match goal with |- (if ?b then _ else _) = _ -> _ =>
    match b with context [byte_in] => fail 1 | _ => destruct b end end; try done;
  try (cbv zeta; match goal with |- (if ?b then _ else _) = _ -> _ => destruct b eqn:E end; [|done]);
  intros [= <-] Hk; repeat (apply andb_true_iff in E as [E ?]);
  destruct k as [|[|[|[|k]]]]; try lia; try done; revert E; apply Hsub; by repeat case_match.
Qed.

Lemma get_drop_str n k s : String.get n (drop_str k s) = String.get (k + n) s.
Proof. revert s; induction k as [|k IH]; intros [|c s]; simpl; done. Qed.

Lemma cont_head_ill s : cont s 0 = true -> rune_width s = None.
Proof.
  destruct s as [|c r]; [done|]. unfold cont, byte_in, rune_width. simpl.
  intros [H1%Z.leb_le H2%Z.leb_le]%andb_true_iff.
  destruct (Z.ltb_spec (code c) 128); [lia|]. by destruct (Z.ltb_spec (code c) 194); [|lia].
Qed.

Lemma cut_rune_ill s w n k :
  rune_width s = Some w -> (k < n < w)%nat -> rune_width (drop_str k (take_str n s)) = None.
Proof.
  intros Hw Hn. destruct k as [|k].
  - destruct s as [|c r], n as [|n]; simpl; try done.
    destruct (rune_width (String c (take_str n r))) as [w'|] eqn:Hw'; [|done].
    pose proof (rune_width_head _ _ _ _ _ Hw Hw') as ->.
    apply rune_width_bounds in Hw' as [_ Hl]. simpl in Hl. rewrite length_take_str in Hl. lia.
  - apply cont_head_ill. unfold cont, byte_in. rewrite get_drop_str, get_take_str by lia.
    replace (S k + 0)%nat with (S k) by lia. apply (rune_width_cont s w); [done|lia].
Qed.

Lemma all_ill_fuel fuel t s :
  (forall k, (k < String.length s)%nat -> rune_width (drop_str k s) = None) ->
  ToValidUTF8_fuel fuel true t s = EmptyString.
Proof.
  revert s; induction fuel as [|fuel IH]; intros [|c r] H; try done.
  pose proof (H 0%nat ltac:(simpl; lia)) as H0. change (rune_width (String c r) = None) in H0.
  rewrite ToValidUTF8_fuel_S, H0.
  apply IH. intros k Hk. apply (H (S k)). simpl. lia.
Qed.

(** Cutting well-formed text and mending the cut adds at most two bytes. *)
Lemma ToValidUTF8_cut fuel s n :
  valid_utf8 s ->
  (String.length (ToValidUTF8_fuel fuel false RuneError (take_str n s)) <= n + 2)%nat.
Proof.
  intros Hv. revert fuel n; induction Hv as [|s w Hw Hv IH]; intros fuel n.
  { destruct n, fuel; simpl; lia. }
  pose proof (rune_width_bounds _ _ Hw) as [Hb Hl].
  destruct fuel as [|fuel]; [simpl; lia|]. destruct n as [|n]; [simpl; lia|].
  destruct s as [|c r]; [done|]. change (take_str (S n) (String c r)) with (String c (take_str n r)).
  rewrite ToValidUTF8_fuel_S. change (String c (take_str n r)) with (take_str (S n) (String c r)).
  destruct (decide (w <= S n)%nat) as [Hle|Hgt].
  - rewrite (rune_width_local (String c r) _ w); [|intros; apply get_take_str; lia|done].
    rewrite length_sapp, !length_take_str.
    assert (drop_str w (take_str (S n) (String c r)) = take_str (S n - w) (drop_str w (String c r))) as ->.
    { generalize (S n) (String c r) Hle. clear. intros n s. revert n s.
      induction w as [|w IH]; intros [|n] [|c s] Hle; simpl; try done; try lia.
      - by destruct (n - w)%nat.
      - apply IH. lia. }
    specialize (IH fuel (S n - w)%nat). lia.
  - pose proof (cut_rune_ill _ w (S n) 0 Hw ltac:(lia)) as H0.
    change (rune_width (take_str (S n) (String c r)) = None) in H0. rewrite H0.
    rewrite length_sapp, all_ill_fuel; [simpl; lia|].
    intros k Hk. rewrite length_take_str in Hk. apply (cut_rune_ill _ w (S n) (S k) Hw). lia.
Qed.
