(* ===== verification/Json.v ===== *)
(** * Decoding JSON values into Go structs

    What the program uses of [encoding/json], on values whose text has already
    been split into tokens: the text-level grammar is the package's business.
    A number keeps its literal, because Go reads an [int] field from the
    literal's digits. Field names match exactly or, failing that, regardless of
    ASCII case; [null] leaves a field as it was; the first error wins. *)
From S2P Require Export GoString.

Inductive json : Type :=
| JNull
| JBool (b : bool)
| JNum (literal : string)
| JStr (s : string)
| JArr (elems : list json)
| JObj (members : list (string * json)).

Inductive json_error : Type :=
| TypeMismatch          (* json: cannot unmarshal ... into Go value *)
| UnknownField (key : string).

(** A struct field: its name and how a value is stored into it. *)
Definition field (S : Type) : Type := string * (json -> S -> result json_error S).

Definition int_field {S} (name : string) (set : Z -> S -> S) : field S :=
  (name, fun v s => match v with
    | JNull => Ok s
    | JNum lit => match Atoi lit with Some n => Ok (set n s) | None => Err TypeMismatch end
    | _ => Err TypeMismatch
    end).

Definition string_field {S} (name : string) (set : string -> S -> S) : field S :=
  (name, fun v s => match v with
    | JNull => Ok s
    | JStr t => Ok (set t s)
    | _ => Err TypeMismatch
    end).

Definition bool_field {S} (name : string) (set : bool -> S -> S) : field S :=
  (name, fun v s => match v with
    | JNull => Ok s
    | JBool b => Ok (set b s)
    | _ => Err TypeMismatch
    end).

Definition string_elem (v : json) : result json_error string :=
  match v with JNull => Ok EmptyString | JStr t => Ok t | _ => Err TypeMismatch end.

Definition strings_field {S} (name : string) (set : list string -> S -> S) : field S :=
  (name, fun v s => match v with
    | JNull => Ok (set [] s)
    | JArr l => match rmap string_elem l with Ok ts => Ok (set ts s) | Err e => Err e end
    | _ => Err TypeMismatch
    end).

(** The field a key names: an exact match first, then one ignoring case. *)
Definition find_field {S} (fs : list (field S)) (key : string) : option (field S) :=
  match find (fun f => String.eqb (fst f) key) fs with
  | Some f => Some f
  | None => find (fun f => EqualFold (fst f) key) fs
  end.

Definition decode_member {S} (disallow : bool) (fs : list (field S))
    (kv : string * json) (s : S) : result json_error S :=
  match find_field fs (fst kv) with
  | Some f => snd f (snd kv) s
  | None => if disallow then Err (UnknownField (fst kv)) else Ok s
  end.

Fixpoint decode_members {S} (disallow : bool) (fs : list (field S))
    (l : list (string * json)) (s : S) : result json_error S :=
  match l with
  | [] => Ok s
  | kv :: r => rbind (decode_member disallow fs kv s) (decode_members disallow fs r)
  end.

(** Decode a value into a struct that already holds its defaults. [disallow]
    is [Decoder.DisallowUnknownFields]. *)
Definition decode_struct {S} (disallow : bool) (fs : list (field S)) (v : json) (s : S)
    : result json_error S :=
  match v with
  | JNull => Ok s
  | JObj l => decode_members disallow fs l s
  | _ => Err TypeMismatch
  end.

(** [json.Marshal] of an int. *)
Definition jint (n : Z) : json := JNum (Itoa n).

Lemma jint_field {S} name (set : Z -> S -> S) n s :
  in_int64 n = true -> snd (int_field name set) (jint n) s = Ok (set n s).
Proof. intros H. simpl. by rewrite Atoi_Itoa. Qed.

(** An invariant every field's decoder keeps is kept by the whole decoding. *)
Lemma decode_struct_inv {S} (I : S -> Prop) disallow fs v s s' :
  Forall (fun f => forall v s s', I s -> snd f v s = Ok s' -> I s') fs ->
  I s -> decode_struct disallow fs v s = Ok s' -> I s'.
Proof.
  intros Hfs HI. assert (forall key f, find_field fs key = Some f -> f ∈ fs) as Hfind.
  { intros key f. unfold find_field. destruct (find _ fs) eqn:E.
    - intros [= <-]. apply find_some in E as [E _]. by apply list_elem_of_In.
    - intros [E' _]%find_some. by apply list_elem_of_In. }
  destruct v as [| | | | |l]; simpl; try done; [by intros [= <-]|].
  revert s HI; induction l as [|kv l IH]; intros s HI; simpl; [by intros [= <-]|].
  intros (s1 & Hs & Hl)%rbind_Ok. apply (IH s1); [|done].
  revert Hs. unfold decode_member. destruct (find_field fs (fst kv)) as [f|] eqn:Hf.
  - rewrite Forall_forall in Hfs. apply (Hfs f); [by apply (Hfind (fst kv)) | done].
  - destruct disallow; [done|]. by intros [= <-].
Qed.

(** ** Equality of values *)

Fixpoint json_eqb (a b : json) {struct a} : bool :=
  match a, b with
  | JNull, JNull => true
  | JBool x, JBool y => Bool.eqb x y
  | JNum x, JNum y => String.eqb x y
  | JStr x, JStr y => String.eqb x y
  | JArr x, JArr y =>
      (fix go x y := match x, y with
                     | [], [] => true
                     | a :: x, b :: y => json_eqb a b && go x y
                     | _, _ => false
                     end) x y
  | JObj x, JObj y =>
      (fix go x y := match x, y with
                     | [], [] => true
                     | (k, a) :: x, (k', b) :: y => String.eqb k k' && json_eqb a b && go x y
                     | _, _ => false
                     end) x y
  | _, _ => false
  end.

(** Induction through arrays and objects. *)
Section JsonInd.
Context (P : json -> Prop).
Context (HNull : P JNull) (HBool : forall b, P (JBool b)) (HNum : forall s, P (JNum s)) (HStr : forall s, P (JStr s)).
Context (HArr : forall l, Forall P l -> P (JArr l)) (HObj : forall l, Forall (fun kv => P kv.2) l -> P (JObj l)).

Fixpoint json_induct (v : json) : P v :=
  match v with
  | JNull => HNull
  | JBool b => HBool b
  | JNum s => HNum s
  | JStr s => HStr s
  | JArr l => HArr l ((fix go l : Forall P l :=
      match l with [] => Forall_nil_2 _ | x :: r => Forall_cons_2 _ x r (json_induct x) (go r) end) l)
  | JObj l => HObj l ((fix go l : Forall (fun kv => P kv.2) l :=
      match l with [] => Forall_nil_2 _ | x :: r => Forall_cons_2 _ x r (json_induct x.2) (go r) end) l)
  end.
End JsonInd.

Lemma json_eqb_eq a b : json_eqb a b = true <-> a = b.
Proof.
  revert b. induction a as [| | | |l IH|l IH] using json_induct; intros [| | | |l'|l']; cbn [json_eqb]; try (split; congruence).
  - rewrite Bool.eqb_true_iff. split; congruence.
  - rewrite String.eqb_eq. split; congruence.
  - rewrite String.eqb_eq. split; congruence.
  - revert l'. induction IH as [|x l Hx Hl IHl]; intros [|y l']; try (split; congruence).
    rewrite andb_true_iff, Hx, IHl. split; [intros [-> [= ->]]; done|intros [= -> ->]; done].
  - revert l'. induction IH as [|[k x] l Hx Hl IHl]; intros [|[k' y] l']; try (split; congruence). simpl in Hx.
    rewrite !andb_true_iff, String.eqb_eq, Hx, IHl. split; [intros [[-> ->] [= ->]]; done|intros [= -> -> ->]; done].
Qed.
