(* ===== verification/Options.v ===== *)
(** * Assignment options

    [internal/protocol/deployment.go], [app.go] and [agentversion.go]: the
    options of script, app and agent-build assignments, their defaults, their
    validation and their canonical form. *)
From S2P Require Export Json.
Open Scope go_scope.

(** The raw bytes of an item's options: blank, text that is not JSON, or text
    whose first value is given. *)
Inductive raw_options := RawBlank | RawBad | RawValue (v : json).

(** [ErrBadOptions], wrapping each message. *)
Inductive options_error : Type :=
| BadSyntax
| BadDecode (e : json_error)
| BadFrequency (got : string)
| BadRunAs (got : string)
| BadIntervalHours
| BadTimeout
| BadRetries
| BadIntent (got : string)
| BadDeadline.

(** The shared head of the three parsers: nothing, or [null], keeps the
    defaults; anything else is decoded over them, refusing unknown fields. *)
Definition decode_options {S} (fs : list (field S)) (raw : raw_options) (defaults : S)
    : result options_error S :=
  match raw with
  | RawBlank => Ok defaults
  | RawBad => Err BadSyntax
  | RawValue v => match decode_struct true fs v defaults with
                  | Ok s => Ok s
                  | Err e => Err (BadDecode e)
                  end
  end.

(** ** Script deployments *)

Definition FrequencyOnce : string := "once".
Definition FrequencyRecurring : string := "recurring".
Definition RunAsSystem : string := "system".
Definition RunAsUser : string := "logged_in_user".
Definition MinTimeoutSeconds : Z := 1.
Definition MaxTimeoutSeconds : Z := 86400.
Definition MaxRetriesLimit : Z := 10.

Record DeploymentOptions := mkDeploymentOptions {
  do_Frequency : string;
  do_IntervalHours : Z;
  do_RunAs : string;
  do_TimeoutSeconds : Z;
  do_MaxRetries : Z;
  do_RerunOnNewVersion : bool }.

Definition DefaultDeploymentOptions : DeploymentOptions :=
  mkDeploymentOptions FrequencyOnce 24 RunAsSystem 600 2 true.

Definition DeploymentTimeout (o : DeploymentOptions) : duration := dmul (do_TimeoutSeconds o) Second.
Definition Interval (o : DeploymentOptions) : duration := dmul (do_IntervalHours o) Hour.
Definition NeedsUserSession (o : DeploymentOptions) : bool := String.eqb (do_RunAs o) RunAsUser.

Definition deployment_fields : list (field DeploymentOptions) := [
  string_field "frequency" (fun v o => mkDeploymentOptions v (do_IntervalHours o) (do_RunAs o)
    (do_TimeoutSeconds o) (do_MaxRetries o) (do_RerunOnNewVersion o));
  int_field "interval_hours" (fun v o => mkDeploymentOptions (do_Frequency o) v (do_RunAs o)
    (do_TimeoutSeconds o) (do_MaxRetries o) (do_RerunOnNewVersion o));
  string_field "run_as" (fun v o => mkDeploymentOptions (do_Frequency o) (do_IntervalHours o) v
    (do_TimeoutSeconds o) (do_MaxRetries o) (do_RerunOnNewVersion o));
  int_field "timeout_seconds" (fun v o => mkDeploymentOptions (do_Frequency o) (do_IntervalHours o)
    (do_RunAs o) v (do_MaxRetries o) (do_RerunOnNewVersion o));
  int_field "max_retries" (fun v o => mkDeploymentOptions (do_Frequency o) (do_IntervalHours o)
    (do_RunAs o) (do_TimeoutSeconds o) v (do_RerunOnNewVersion o));
  bool_field "rerun_on_new_version" (fun v o => mkDeploymentOptions (do_Frequency o)
    (do_IntervalHours o) (do_RunAs o) (do_TimeoutSeconds o) (do_MaxRetries o) v)].

Definition validate_deployment (o : DeploymentOptions) : result options_error unit :=
  check! ensure (String.eqb (do_Frequency o) FrequencyOnce || String.eqb (do_Frequency o) FrequencyRecurring)
               (BadFrequency (do_Frequency o));
  check! ensure (String.eqb (do_RunAs o) RunAsSystem || String.eqb (do_RunAs o) RunAsUser)
               (BadRunAs (do_RunAs o));
  check! ensure (negb (String.eqb (do_Frequency o) FrequencyRecurring && (do_IntervalHours o <? 1)))
               BadIntervalHours;
  check! ensure (negb ((do_TimeoutSeconds o <? MinTimeoutSeconds) || (do_TimeoutSeconds o >? MaxTimeoutSeconds)))
               BadTimeout;
  ensure (negb ((do_MaxRetries o <? 0) || (do_MaxRetries o >? MaxRetriesLimit))) BadRetries.

Definition ParseDeploymentOptions (raw : raw_options) : result options_error DeploymentOptions :=
  let! o := decode_options deployment_fields raw DefaultDeploymentOptions in
  check! validate_deployment o;
  Ok o.

Definition MarshalDeployment (o : DeploymentOptions) : json :=
  JObj [("frequency", JStr (do_Frequency o)); ("interval_hours", jint (do_IntervalHours o));
        ("run_as", JStr (do_RunAs o)); ("timeout_seconds", jint (do_TimeoutSeconds o));
        ("max_retries", jint (do_MaxRetries o));
        ("rerun_on_new_version", JBool (do_RerunOnNewVersion o))]%string.

(** ** App deployments *)

Definition IntentInstall : string := "install".
Definition IntentUninstall : string := "uninstall".
Definition MinAppTimeoutSeconds : Z := 60.
Definition MaxAppTimeoutSeconds : Z := 14400.

Record AppOptions := mkAppOptions { ao_Intent : string; ao_TimeoutSeconds : Z }.

Definition DefaultAppOptions : AppOptions := mkAppOptions IntentInstall 900.

Definition AppTimeout (o : AppOptions) : duration := dmul (ao_TimeoutSeconds o) Second.

Definition app_fields : list (field AppOptions) := [
  string_field "intent" (fun v o => mkAppOptions v (ao_TimeoutSeconds o));
  int_field "timeout_seconds" (fun v o => mkAppOptions (ao_Intent o) v)].

Definition validate_app (o : AppOptions) : result options_error unit :=
  check! ensure (String.eqb (ao_Intent o) IntentInstall || String.eqb (ao_Intent o) IntentUninstall)
               (BadIntent (ao_Intent o));
  ensure (negb ((ao_TimeoutSeconds o <? MinAppTimeoutSeconds) || (ao_TimeoutSeconds o >? MaxAppTimeoutSeconds)))
        BadTimeout.

Definition ParseAppOptions (raw : raw_options) : result options_error AppOptions :=
  let! o := decode_options app_fields raw DefaultAppOptions in
  check! validate_app o;
  Ok o.

Definition MarshalApp (o : AppOptions) : json :=
  JObj [("intent", JStr (ao_Intent o)); ("timeout_seconds", jint (ao_TimeoutSeconds o))]%string.

(** ** Agent updates *)

Definition MinUpdateDeadlineSeconds : Z := 60.
Definition MaxUpdateDeadlineSeconds : Z := 3600.

Definition ItemKindAgent : string := "agent".

Record AgentOptions := mkAgentOptions { go_DeadlineSeconds : Z }.

Definition DefaultAgentOptions : AgentOptions := mkAgentOptions 600.

Definition Deadline (o : AgentOptions) : duration := dmul (go_DeadlineSeconds o) Second.

Definition agent_fields : list (field AgentOptions) := [
  int_field "deadline_seconds" (fun v _ => mkAgentOptions v)].

Definition validate_agent (o : AgentOptions) : result options_error unit :=
  ensure (negb ((go_DeadlineSeconds o <? MinUpdateDeadlineSeconds) || (go_DeadlineSeconds o >? MaxUpdateDeadlineSeconds)))
        BadDeadline.

Definition ParseAgentOptions (raw : raw_options) : result options_error AgentOptions :=
  let! o := decode_options agent_fields raw DefaultAgentOptions in
  check! validate_agent o;
  Ok o.

Definition MarshalAgent (o : AgentOptions) : json :=
  JObj [("deadline_seconds", jint (go_DeadlineSeconds o))]%string.

(** ** Theorems *)

(** What validation accepts, as a specification. *)
Definition deployment_ok (o : DeploymentOptions) : Prop :=
  (do_Frequency o = FrequencyOnce \/ do_Frequency o = FrequencyRecurring /\ 1 <= do_IntervalHours o) /\
  (do_RunAs o = RunAsSystem \/ do_RunAs o = RunAsUser) /\
  MinTimeoutSeconds <= do_TimeoutSeconds o <= MaxTimeoutSeconds /\
  0 <= do_MaxRetries o <= MaxRetriesLimit.

Lemma validate_deployment_spec o : validate_deployment o = Ok tt <-> deployment_ok o.
Proof.
  unfold validate_deployment, deployment_ok. setoid_rewrite rbind_Ok. split.
  - intros (_ & H1%ensure_Ok & H). oks. bools. split_and!; try lia.
    + apply orb_true_iff in H1 as [->%String.eqb_eq|E%String.eqb_eq]; [by left|].
      right. split; [done|]. rewrite E in *. simpl in *. lia.
    + apply orb_true_iff in H as [?%String.eqb_eq|?%String.eqb_eq]; auto.
  - intros (Hf & Hr & Ht & Hm).
    assert (forall b (e : options_error), b = true -> ensure b e = Ok tt) as G by (by intros b e ->).
    eexists. split; [apply G | apply rbind_Ok; eexists; split; [apply G|]].
    + destruct Hf as [->|[-> _]]; done.
    + destruct Hr as [->| ->]; done.
    + apply rbind_Ok. eexists. split; [apply G|apply rbind_Ok; eexists; split; [apply G|apply G]];
        apply negb_true_iff.
      * destruct Hf as [->|[-> ?]]; [done|]. simpl. lia.
      * lia.
      * lia.
Qed.

Lemma validate_app_spec o :
  validate_app o = Ok tt <->
  (ao_Intent o = IntentInstall \/ ao_Intent o = IntentUninstall) /\
  MinAppTimeoutSeconds <= ao_TimeoutSeconds o <= MaxAppTimeoutSeconds.
Proof.
  unfold validate_app. rewrite rbind_Ok. setoid_rewrite ensure_Ok. split.
  - intros (_ & H%orb_true_iff & Ht). bools. split; [|lia].
    by destruct H as [?%String.eqb_eq|?%String.eqb_eq]; [left|right].
  - intros [Hi Ht]. exists tt. split; [by destruct Hi as [->| ->]|]. apply negb_true_iff. lia.
Qed.

Lemma validate_agent_spec o :
  validate_agent o = Ok tt <->
  MinUpdateDeadlineSeconds <= go_DeadlineSeconds o <= MaxUpdateDeadlineSeconds.
Proof. unfold validate_agent. rewrite ensure_Ok. split; intros; bools; [lia | apply negb_true_iff; lia]. Qed.

(** Every literal the console stores is read back by the agent: the canonical
    form of valid options parses to those options. *)
Lemma deployment_roundtrip o :
  deployment_ok o -> in_int64 (do_IntervalHours o) = true ->
  ParseDeploymentOptions (RawValue (MarshalDeployment o)) = Ok o.
Proof.
  intros Hok Hi. pose proof Hok as (_ & _ & Ht & Hm).
  unfold MinTimeoutSeconds, MaxTimeoutSeconds, MaxRetriesLimit in *.
  assert (in_int64 (do_TimeoutSeconds o) = true /\ in_int64 (do_MaxRetries o) = true) as [Hti Hmi]
    by (unfold in_int64, MinInt64, MaxInt64; split; apply andb_true_iff; split; lia).
  apply validate_deployment_spec in Hok.
  unfold ParseDeploymentOptions, decode_options, MarshalDeployment, jint.
  cbn -[Atoi Itoa validate_deployment]. rewrite !Atoi_Itoa by done.
  cbn -[Atoi Itoa validate_deployment]. destruct o. cbn -[validate_deployment] in *. by rewrite Hok.
Qed.

Lemma app_roundtrip o :
  validate_app o = Ok tt -> ParseAppOptions (RawValue (MarshalApp o)) = Ok o.
Proof.
  intros Hok. pose proof (proj2 (proj1 (validate_app_spec o) Hok)) as Ht.
  unfold MinAppTimeoutSeconds, MaxAppTimeoutSeconds in *.
  assert (in_int64 (ao_TimeoutSeconds o) = true)
    by (unfold in_int64, MinInt64, MaxInt64; apply andb_true_iff; split; lia).
  unfold ParseAppOptions, decode_options, MarshalApp, jint.
  cbn -[Atoi Itoa validate_app]. rewrite Atoi_Itoa by done.
  cbn -[validate_app]. destruct o. cbn -[validate_app] in *. by rewrite Hok.
Qed.

Lemma agent_roundtrip o :
  validate_agent o = Ok tt -> ParseAgentOptions (RawValue (MarshalAgent o)) = Ok o.
Proof.
  intros Hok. pose proof (proj1 (validate_agent_spec o) Hok) as Ht.
  unfold MinUpdateDeadlineSeconds, MaxUpdateDeadlineSeconds in *.
  assert (in_int64 (go_DeadlineSeconds o) = true)
    by (unfold in_int64, MinInt64, MaxInt64; apply andb_true_iff; split; lia).
  unfold ParseAgentOptions, decode_options, MarshalAgent, jint.
  cbn -[Atoi Itoa validate_agent]. rewrite Atoi_Itoa by done.
  cbn -[validate_agent]. destruct o. cbn -[validate_agent] in *. by rewrite Hok.
Qed.

(** What any of the parsers accepts is valid. *)
Lemma parsed_deployment_ok raw o : ParseDeploymentOptions raw = Ok o -> deployment_ok o.
Proof. unfold ParseDeploymentOptions. intros H. oks. destruct x0. by apply validate_deployment_spec. Qed.

Lemma parsed_agent_ok raw o :
  ParseAgentOptions raw = Ok o ->
  MinUpdateDeadlineSeconds <= go_DeadlineSeconds o <= MaxUpdateDeadlineSeconds.
Proof. unfold ParseAgentOptions. intros H. oks. destruct x0. by apply validate_agent_spec. Qed.

Lemma parsed_app_ok raw o : ParseAppOptions raw = Ok o -> validate_app o = Ok tt.
Proof. unfold ParseAppOptions. intros H. oks. by destruct x0. Qed.

(** The hours a JSON number gives fit a Go [int]. *)
Lemma parsed_interval_int64 raw o :
  ParseDeploymentOptions raw = Ok o -> in_int64 (do_IntervalHours o) = true.
Proof.
  unfold ParseDeploymentOptions. intros (o' & Hd & H)%rbind_Ok. oks.
  destruct raw as [| |v]; simpl in Hd; [by injection Hd as <- | done |].
  destruct (decode_struct _ _ v _) as [o1|] eqn:E; [|done]. injection Hd as ->.
  refine (decode_struct_inv (fun o => in_int64 (do_IntervalHours o) = true) _ _ _ _ _ _ _ E);
    [|reflexivity].
  unfold deployment_fields. repeat apply Forall_cons_2; [..|apply Forall_nil_2];
    intros w s s' Hs; destruct w; simpl; try done; try (by intros [= <-]);
    destruct (Atoi literal) eqn:Ha; try done; intros [= <-]; simpl; [|done..].
  by eapply Atoi_range.
Qed.

(** The options an administrator's request is parsed into are stored in
    their canonical form; the agent that parses that form gets the same
    options, and they are within the documented limits. *)
Theorem options_survive_storage raw :
  (forall o, ParseDeploymentOptions raw = Ok o ->
     deployment_ok o /\ ParseDeploymentOptions (RawValue (MarshalDeployment o)) = Ok o) /\
  (forall o, ParseAppOptions raw = Ok o ->
     MinAppTimeoutSeconds <= ao_TimeoutSeconds o <= MaxAppTimeoutSeconds /\
     ParseAppOptions (RawValue (MarshalApp o)) = Ok o) /\
  (forall o, ParseAgentOptions raw = Ok o ->
     MinUpdateDeadlineSeconds <= go_DeadlineSeconds o <= MaxUpdateDeadlineSeconds /\
     ParseAgentOptions (RawValue (MarshalAgent o)) = Ok o).
Proof.
  split_and!; intros o H.
  - pose proof (parsed_deployment_ok _ _ H). split; [done|].
    apply deployment_roundtrip; [done | by eapply parsed_interval_int64].
  - apply parsed_app_ok in H. split; [by apply validate_app_spec | by apply app_roundtrip].
  - apply parsed_agent_ok in H. split; [done | by apply agent_roundtrip, validate_agent_spec].
Qed.

Definition sample_options : raw_options :=
  RawValue (JObj [("Frequency", JStr "recurring"); ("interval_hours", JNum "6"); ("run_as", JNull)])%string.

Lemma options_survive_storage_witness :
  exists o, ParseDeploymentOptions sample_options = Ok o /\ do_IntervalHours o = 6 /\
    deployment_ok o /\ ParseDeploymentOptions (RawValue (MarshalDeployment o)) = Ok o.
Proof.
  eexists. split; [vm_compute; reflexivity|]. split; [reflexivity|].
  exact (proj1 (options_survive_storage sample_options) _ eq_refl).
Defined.

(** Nothing bounds [interval_hours] from above, and [Interval] multiplies in an
    int64: options that validate can have a negative interval. *)
Theorem interval_can_overflow :
  exists o, ParseDeploymentOptions
      (RawValue (JObj [("frequency", JStr "recurring"); ("interval_hours", JNum "2562048")]%string)) = Ok o /\
    Interval o < 0.
Proof. eexists. split; [vm_compute; reflexivity | reflexivity]. Qed.

(** The agent's deadline is exact: no accepted value overflows. *)
Lemma parsed_deadline raw o :
  ParseAgentOptions raw = Ok o ->
  Deadline o = go_DeadlineSeconds o * Second /\ 60 * Second <= Deadline o <= Hour.
Proof.
  intros H%parsed_agent_ok. unfold MinUpdateDeadlineSeconds, MaxUpdateDeadlineSeconds in H.
  unfold Deadline, dmul. rewrite wrap64_id.
  - unfold Hour, Minute, Second. lia.
  - unfold in_int64, MinInt64, MaxInt64, Second. apply andb_true_iff; split; lia.
Qed.
