(* ===== verification/Window.v ===== *)
(** * Maintenance windows

    [internal/protocol/window.go]: when changes may be made to a device, in the
    device's own local time. A date is its day number, counted from Monday,
    January 1 of year 1; the proleptic Gregorian calendar is a bijection
    between the two, so the code's year, month and day are one number here.

    A [Location] is the zone table Go looks instants up in, as a function from
    seconds (since year 1) to the zone in force and the interval it covers. *)
From S2P Require Export Options.
Open Scope go_scope.

Definition ItemKindWindow : string := "window".

Definition weekdays : list string := ["sun"; "mon"; "tue"; "wed"; "thu"; "fri"; "sat"]%string.

Record Window := mkWindow { w_Days : list string; w_Start : string; w_DurationMinutes : Z }.

(** Every message wraps [ErrBadOptions]. *)
Inductive window_error := BadDuration | BadDay (d : string) | BadStart.

(** ** [time.Parse("15:04", s)] *)

(** [getnum]: one or two digits; two when [fixed]. *)
Definition getnum (s : string) (fixed : bool) : option (Z * string) :=
  match s with
  | String c r =>
      if negb (is_digit c) then None else
      match r with
      | String d r' => if is_digit d then Some (digit_value c * 10 + digit_value d, r')
                       else if fixed then None else Some (digit_value c, r)
      | EmptyString => if fixed then None else Some (digit_value c, r)
      end
  | EmptyString => None
  end.

Definition parse_clock (s : string) : option (Z * Z) :=
  match getnum s false with
  | Some (hour, rest) =>
      if (hour <? 0) || (24 <=? hour) then None else
      match CutPrefix ":" rest with
      | Some rest =>
          match getnum rest true with
          | Some (minute, rest) =>
              if (minute <? 0) || (60 <=? minute) then None
              else if String.eqb rest "" then Some (hour, minute) else None
          | None => None
          end
      | None => None
      end
  | None => None
  end.

Definition startClock (w : Window) : result window_error (Z * Z) :=
  match parse_clock (w_Start w) with Some c => Ok c | None => Err BadStart end.

(** ** Validation *)

(** [strings.ToLower], exact on every string whose lower case is ASCII: two
    characters outside ASCII, U+0130 and U+212A, have an ASCII lower case. *)
Definition ToLowerName (s : string) : string :=
  ToLower (ReplaceAll (ReplaceAll s (bytes [196; 176]) "i") (bytes [226; 132; 170]) "k").

Fixpoint normalise_days (days seen : list string) : result window_error (list string) :=
  match days with
  | [] => Ok seen
  | d :: r =>
      let d := ToLowerName (TrimSpace d) in
      if bool_decide (d ∈ weekdays)
      then normalise_days r (if bool_decide (d ∈ seen) then seen else seen ++ [d])
      else Err (BadDay d)
  end.

Definition Validate (w : Window) : result window_error Window :=
  check! startClock w;
  check! ensure (negb ((w_DurationMinutes w <? 1) || (w_DurationMinutes w >? 24 * 60))) BadDuration;
  let! days := normalise_days (w_Days w) [] in
  Ok (mkWindow days (w_Start w) (w_DurationMinutes w)).

(** ** Local time *)

Record zone := mkZone { z_offset : Z; z_start : Z; z_end : Z }.

(** [Location.lookup]: the zone in force at a UTC second. *)
Definition Location : Type := Z -> zone.

Definition day_seconds : Z := 86400.

(** [t]'s wall clock, in seconds. *)
Definition wall (loc : Location) (t : time) : Z := t `div` Second + z_offset (loc (t `div` Second)).

(** [time.Date]: the instant of a wall-clock time. The offset is first looked
    up as if the wall clock were UTC, and again if that lands outside the zone
    it found. *)
Definition Date (loc : Location) (day secs nsec : Z) : time :=
  let unix := day * day_seconds + secs in
  let z := loc unix in
  let offset :=
    if z_offset z =? 0 then 0
    else let utc := unix - z_offset z in
         if (utc <? z_start z) || (utc >=? z_end z) then z_offset (loc utc) else z_offset z in
  (unix - offset) * Second + nsec.

Definition day_of (loc : Location) (t : time) : Z := wall loc t `div` day_seconds.

(** [t.AddDate(0, 0, days)]. *)
Definition AddDays (loc : Location) (t : time) (days : Z) : time :=
  Date loc (day_of loc t + days) (wall loc t `mod` day_seconds) (t `mod` Second).

(** [t.Weekday()]: Sunday is 0. *)
Definition Weekday (loc : Location) (t : time) : Z := (day_of loc t + 1) `mod` 7.

Definition onDay (w : Window) (d : Z) : bool :=
  match w_Days w with
  | [] => true
  | days => bool_decide (nth (Z.to_nat d) weekdays EmptyString ∈ days)
  end.

Definition Contains (loc : Location) (w : Window) (t : time) : bool :=
  match startClock w with
  | Err _ => false
  | Ok (hour, minute) =>
      if w_DurationMinutes w <? 1 then false else
      let length := dmul (w_DurationMinutes w) Minute in
      existsb (fun back =>
        let day := AddDays loc t back in
        let start := Date loc (day_of loc day) (hour * 3600 + minute * 60) 0 in
        onDay w (Weekday loc start) && negb (Before t start) && Before t (Prelude.Add start length)) [0; -1]
  end.

(** ** The windows of a check-in *)

Record Item := mkItem { it_Kind : string; it_ID : string; it_Version : Z; it_Options : raw_options }.

Record Windows := mkWindows { ws_Assigned : bool; ws_Valid : list Window }.

Definition window_fields : list (field Window) := [
  strings_field "days" (fun v w => mkWindow v (w_Start w) (w_DurationMinutes w));
  string_field "start" (fun v w => mkWindow (w_Days w) v (w_DurationMinutes w));
  int_field "duration_minutes" (fun v w => mkWindow (w_Days w) (w_Start w) v)].

(** [json.Unmarshal] into a [Window], then [Validate]. *)
Definition read_window (raw : raw_options) : option Window :=
  match raw with
  | RawValue v =>
      match decode_struct false window_fields v (mkWindow [] EmptyString 0) with
      | Ok w => match Validate w with Ok w' => Some w' | Err _ => None end
      | Err _ => None
      end
  | _ => None
  end.

Definition add_window (ws : Windows) (it : Item) : Windows :=
  if negb (String.eqb (it_Kind it) ItemKindWindow) then ws
  else mkWindows true (ws_Valid ws ++ match read_window (it_Options it) with Some w => [w] | None => [] end).

Definition WindowsFrom (items : list Item) : Windows := fold_left add_window items (mkWindows false []).

Definition Open (loc : Location) (ws : Windows) (t : time) : bool :=
  if negb (ws_Assigned ws) then true else existsb (fun w => Contains loc w t) (ws_Valid ws).

(** ** Theorems *)

(** *** Validation *)

Definition day_name (d : string) : string := ToLowerName (TrimSpace d).

Lemma normalise_days_spec days seen out :
  normalise_days days seen = Ok out ->
  (NoDup seen -> NoDup out) /\
  (forall d, d ∈ out <-> d ∈ seen \/ exists d0, d0 ∈ days /\ d = day_name d0) /\
  Forall (fun d0 => day_name d0 ∈ weekdays) days.
Proof.
  revert seen; induction days as [|d days IH]; intros seen; simpl.
  { intros [= <-]. split_and!; [done | set_solver | constructor]. }
  fold (day_name d). case_bool_decide as Hd; [|done]. intros H.
  apply IH in H as (Hnd & Hmem & Hall). split_and!; [| |by constructor].
  - intros Hs. apply Hnd. case_bool_decide as Hin; [done|].
    apply NoDup_app. split_and!; [done | set_solver | apply NoDup_singleton].
  - intros e. rewrite Hmem. setoid_rewrite elem_of_cons.
    case_bool_decide as Hin; [|rewrite elem_of_app, list_elem_of_singleton]; naive_solver.
Qed.

Lemma day_name_weekday d : d ∈ weekdays -> day_name d = d.
Proof.
  intros Hd. assert (Forall (fun d => day_name d = d) weekdays) as H.
  { repeat constructor. }
  rewrite Forall_forall in H. by apply H.
Qed.

(** Days that are normalised already are kept, in their order. *)
Lemma normalise_days_fixed days seen :
  Forall (fun d => d ∈ weekdays) days -> NoDup (seen ++ days) ->
  normalise_days days seen = Ok (seen ++ days).
Proof.
  intros Hw; revert seen; induction Hw as [|d days Hd Hw IH]; intros seen Hnd; simpl.
  { by rewrite app_nil_r. }
  fold (day_name d). rewrite day_name_weekday by done. rewrite bool_decide_true by done.
  rewrite (bool_decide_false (d ∈ seen)).
  - rewrite IH; rewrite <- app_assoc; done.
  - apply NoDup_app in Hnd as (_ & Hnd & _). intros Hin. apply (Hnd d Hin). by left.
Qed.

(** [Validate] accepts only a readable start, a duration of 1 to 1440
    minutes and the seven day names; it leaves each named day once, and
    validating again changes nothing. *)
Theorem validate_normalises w w' :
  Validate w = Ok w' ->
  1 <= w_DurationMinutes w' <= 1440 /\ is_ok (startClock w') = true /\
  NoDup (w_Days w') /\ Forall (fun d => d ∈ weekdays) (w_Days w') /\
  (forall d, d ∈ w_Days w' <-> exists d0, d0 ∈ w_Days w /\ d = day_name d0) /\
  Validate w' = Ok w'.
Proof.
  unfold Validate. intros H. oks. bools. destruct (normalise_days_spec _ _ _ H1) as (Hnd & Hmem & Hall).
  specialize (Hnd (NoDup_nil_2)). simpl.
  assert (Forall (fun d => d ∈ weekdays) x1) as Hw.
  { apply Forall_forall. intros d Hd. apply Hmem in Hd as [Hd|(d0 & Hd0 & ->)]; [by apply not_elem_of_nil in Hd|].
    rewrite Forall_forall in Hall. by apply Hall. }
  unfold startClock in *. simpl. destruct (parse_clock (w_Start w)); [|done].
  split_and!; try done; try lia.
  - intros d. rewrite Hmem. split; [|by right]. by intros [Hd%not_elem_of_nil|Hd].
  - simpl. rewrite (normalise_days_fixed x1 []) by done.
    replace (w_DurationMinutes w <? 1) with false by (symmetry; lia).
    by replace (w_DurationMinutes w >? 24 * 60) with false by (symmetry; lia).
Qed.

Lemma validate_normalises_witness :
  exists w', Validate (mkWindow [" Sun"; "MON"; "sun"]%string "9:30" 60) = Ok w' /\
    w_Days w' = ["sun"; "mon"]%string /\ Validate w' = Ok w'.
Proof.
  eexists. split; [vm_compute; reflexivity|]. split; [reflexivity|].
  exact (proj2 (proj2 (proj2 (proj2 (proj2 (validate_normalises
    (mkWindow [" Sun"; "MON"; "sun"]%string "9:30" 60) _ eq_refl)))))).
Defined.

(** *** When a window is open *)

(** A location whose offset never changes. *)
Definition fixed (offset : Z) : Location := fun _ => mkZone offset MinInt64 MaxInt64.

Lemma Date_fixed o day secs nsec :
  Date (fixed o) day secs nsec = (day * day_seconds + secs - o) * Second + nsec.
Proof. unfold Date, fixed. simpl. destruct (Z.eqb_spec o 0) as [->|]; [done|]. by split_ifs. Qed.

Lemma day_of_Date_fixed o day secs nsec :
  0 <= secs < day_seconds -> 0 <= nsec < Second -> day_of (fixed o) (Date (fixed o) day secs nsec) = day.
Proof.
  intros Hs Hn. rewrite Date_fixed. unfold day_of, wall. cbn [z_offset fixed].
  unfold day_seconds, Second in *.
  rewrite Z.div_add_l, (Z.div_small nsec) by lia.
  replace (day * 86400 + secs - o + 0 + o) with (day * 86400 + secs) by lia.
  rewrite Z.div_add_l, (Z.div_small secs) by lia. lia.
Qed.

Lemma day_of_AddDays_fixed o t d : day_of (fixed o) (AddDays (fixed o) t d) = day_of (fixed o) t + d.
Proof.
  unfold AddDays. apply day_of_Date_fixed; apply Z.mod_pos_bound; unfold day_seconds, Second; lia.
Qed.

Lemma parse_clock_range s h m : parse_clock s = Some (h, m) -> 0 <= h < 24 /\ 0 <= m < 60.
Proof.
  unfold parse_clock. destruct (getnum s false) as [[h' r]|]; [|done].
  destruct ((h' <? 0) || (24 <=? h')) eqn:Eh; [done|].
  destruct (CutPrefix ":" r); [|done]. destruct (getnum s0 true) as [[m' r']|]; [|done].
  destruct ((m' <? 0) || (60 <=? m')) eqn:Em; [done|]. destruct (String.eqb r' ""); [|done].
  intros [= -> ->]. bools. lia.
Qed.

(** When day [day]'s window starts, in a zone that is [o] seconds ahead of UTC. *)
Definition opening (o hour minute day : Z) : time :=
  (day * day_seconds + hour * 3600 + minute * 60 - o) * Second.

(** In a zone with a fixed offset, a valid window contains an instant
    exactly when some day it names has its opening at or before that instant,
    and less than its duration before it: looking at today and yesterday is
    enough, whatever the length and however it runs past midnight. *)
Theorem window_contains_spec o w t hour minute :
  startClock w = Ok (hour, minute) -> 1 <= w_DurationMinutes w <= 1440 ->
  (Contains (fixed o) w t = true <->
   exists day, onDay w ((day + 1) mod 7) = true /\
     opening o hour minute day <= t < opening o hour minute day + w_DurationMinutes w * Minute).
Proof.
  intros Hc Hd. assert (0 <= hour < 24 /\ 0 <= minute < 60) as Hr.
  { unfold startClock in Hc. destruct (parse_clock (w_Start w)) as [[]|] eqn:E; [|done].
    injection Hc as <- <-. by eapply parse_clock_range. }
  unfold Contains. rewrite Hc. destruct (Z.ltb_spec (w_DurationMinutes w) 1); [lia|].
  assert (dmul (w_DurationMinutes w) Minute = w_DurationMinutes w * Minute) as ->.
  { apply wrap64_id. unfold in_int64, MinInt64, MaxInt64, Minute, Second. apply andb_true_iff; split; lia. }
  assert (forall day, Date (fixed o) day (hour * 3600 + minute * 60) 0 = opening o hour minute day) as Ho.
  { intros day. rewrite Date_fixed. unfold opening, day_seconds. lia. }
  assert (forall day, Weekday (fixed o) (opening o hour minute day) = (day + 1) mod 7) as Hwd.
  { intros day. unfold Weekday. rewrite <- Ho, day_of_Date_fixed; unfold day_seconds, Second; [done|lia|lia]. }
  cbv zeta. rewrite existsb_True. unfold Before, Prelude.Add. split.
  - intros (back & _ & Hb). rewrite day_of_AddDays_fixed, Ho, Hwd in Hb. bools.
    eexists. split; [done|]. lia.
  - intros (day & Hon & Ht). exists (day - day_of (fixed o) t).
    rewrite day_of_AddDays_fixed, Ho, Hwd.
    replace (day_of (fixed o) t + (day - day_of (fixed o) t)) with day by lia.
    rewrite Hon. split; [|simpl; apply andb_true_iff; split; [apply negb_true_iff|]; lia].
    assert (day = day_of (fixed o) t \/ day = day_of (fixed o) t - 1) as [->| ->];
      [|replace (_ - _) with 0 by lia; by left | replace (_ - 1 - _) with (-1) by lia; by right; left].
    unfold day_of, wall, opening, day_seconds, Minute, Second in *. cbn [z_offset fixed].
    pose proof (Z.div_mod t 1000000000 ltac:(lia)).
    pose proof (Z.mod_pos_bound t 1000000000 ltac:(lia)).
    pose proof (Z.div_mod (t `div` 1000000000 + o) 86400 ltac:(lia)).
    pose proof (Z.mod_pos_bound (t `div` 1000000000 + o) 86400 ltac:(lia)). nia.
Qed.

(** A Sunday-night window, two hours ahead of UTC, is still open an hour into
    Monday. *)
Lemma window_contains_spec_witness :
  let w := mkWindow ["sun"]%string "23:30" 120 in
  let t := (7 * day_seconds - 3600) * Second in
  startClock w = Ok (23, 30) /\ 1 <= w_DurationMinutes w <= 1440 /\
  day_of (fixed 7200) t = 7 /\ Weekday (fixed 7200) t = 1 /\ Contains (fixed 7200) w t = true.
Proof.
  assert (1 <= 120 <= 1440) as Hd by lia.
  split; [reflexivity|]. split; [exact Hd|]. split; [reflexivity|]. split; [reflexivity|].
  apply (window_contains_spec 7200 (mkWindow ["sun"]%string "23:30" 120)
    ((7 * day_seconds - 3600) * Second) 23 30 eq_refl Hd).
  exists 6. split; [reflexivity|]. unfold opening, Minute, day_seconds, Second. simpl. lia.
Defined.

(** *** The windows of a check-in *)

Definition is_window (it : Item) : bool := String.eqb (it_Kind it) ItemKindWindow.

Lemma fold_add_window items ws :
  fold_left add_window items ws =
  mkWindows (ws_Assigned ws || existsb is_window items)
    (ws_Valid ws ++ omap (fun it => if is_window it then read_window (it_Options it) else None) items).
Proof.
  revert ws; induction items as [|it items IH]; intros ws; simpl.
  { destruct ws. simpl. by rewrite orb_false_r, app_nil_r. }
  rewrite IH. unfold add_window, is_window. destruct (String.eqb _ _); simpl; [|done].
  rewrite orb_true_r. f_equal. by destruct (read_window (it_Options it)); rewrite <- app_assoc.
Qed.

(** Changes may be made when no window is assigned, or when a readable,
    valid window contains the instant. A window the agent cannot read is
    assigned and never open: misunderstanding one holds changes back. *)
Theorem windows_open_iff loc items t :
  Open loc (WindowsFrom items) t = true <->
  (forall it, it ∈ items -> it_Kind it <> ItemKindWindow) \/
  exists it w, it ∈ items /\ it_Kind it = ItemKindWindow /\
    read_window (it_Options it) = Some w /\ Contains loc w t = true.
Proof.
  unfold Open, WindowsFrom. rewrite fold_add_window. simpl. split.
  - destruct (existsb is_window items) eqn:E; simpl; intros H.
    + right. apply existsb_True in H as (w & Hw & Hc). apply list_elem_of_omap in Hw as (it & Hit & Hr).
      unfold is_window in Hr. destruct (String.eqb_spec (it_Kind it) ItemKindWindow); [|done].
      by exists it, w.
    + left. intros it Hit. apply existsb_False in E. rewrite Forall_forall in E.
      by apply String.eqb_neq, E.
  - intros [Hn|(it & w & Hit & Hk & Hr & Hc)].
    + destruct (existsb is_window items) eqn:E; [|done]. apply existsb_True in E as (it & Hit & Hk).
      apply String.eqb_eq in Hk. by destruct (Hn it Hit).
    + destruct (existsb is_window items); [simpl|done]. apply existsb_True. exists w. split; [|done].
      apply list_elem_of_omap. exists it. split; [done|]. unfold is_window. by rewrite Hk.
Qed.
