(* ===== verification/Release.v ===== *)
(** * Signed builds, scripts and orders

    [internal/release/release.go] and [internal/opsign/opsign.go]: what is
    signed, which keys are trusted, and what a signature has to say to be
    accepted. The primitives of Go's [crypto] and [encoding] packages are the
    operations of the class [Crypto]; bytes are strings. *)
From S2P Require Export GoString.
Open Scope go_scope.

(** Ed25519, SHA-256, base64 and the RFC 3339 rendering of an instant. *)
Class Crypto := {
  sha256_hex : string -> string;
  key_digest : string -> string;               (* the first 8 bytes of a key's SHA-256, in hex *)
  ed25519_public : string -> string;
  ed25519_from_seed : string -> string;
  ed25519_seed : string -> string;
  ed25519_sign : string -> string -> string;
  ed25519_verify : string -> string -> string -> bool;
  base64_encode : string -> string;
  base64_decode : string -> option string;
  rfc3339 : time -> string
}.

(** What the packages document about them. *)
Class CryptoLaws `{Crypto} : Prop := {
  base64_decode_encode s : base64_decode (base64_encode s) = Some s;
  base64_plain s : TrimSpace (base64_encode s) = base64_encode s /\
                   sany (fun c => Ascii.eqb c ",") (base64_encode s) = false;
  base64_nonempty s : s <> EmptyString -> base64_encode s <> EmptyString;
  ed25519_sound priv msg : ed25519_verify (ed25519_public priv) msg (ed25519_sign priv msg) = true
}.

(** ** [internal/release] *)

Inductive release_error : Type :=
| ErrNoTrustedKeys
| ErrUntrustedKey (key : string)
| ErrManifestMismatch
| ErrBadSignature.

Inductive key_error : Type :=
| NotBase64
| WrongLength (n : Z).

Record PublicKey := mkPublicKey { pk_Raw : string }.
Record PrivateKey := mkPrivateKey { sk_Raw : string }.

Record Manifest := mkManifest { m_Version : string; m_SHA256 : string }.

Record Signature := mkSignature {
  sig_Version : string; sig_SHA256 : string; sig_KeyID : string; sig_Signature : string }.

Definition SeedSize : Z := 32.
Definition PublicKeySize : Z := 32.

Section Release.
Context `{Crypto}.

Definition ID (k : PublicKey) : string := key_digest (pk_Raw k).
Definition Encode (k : PublicKey) : string := base64_encode (pk_Raw k).
Definition Public (k : PrivateKey) : PublicKey := mkPublicKey (ed25519_public (sk_Raw k)).
Definition EncodePrivate (k : PrivateKey) : string := base64_encode (ed25519_seed (sk_Raw k)).

Definition DecodePrivateKey (s : string) : result key_error PrivateKey :=
  match base64_decode (TrimSpace s) with
  | None => Err NotBase64
  | Some seed =>
      check! ensure (slen seed =? SeedSize) (WrongLength (slen seed));
      Ok (mkPrivateKey (ed25519_from_seed seed))
  end.

Definition DecodePublicKey (s : string) : result key_error PublicKey :=
  match base64_decode (TrimSpace s) with
  | None => Err NotBase64
  | Some raw =>
      check! ensure (slen raw =? PublicKeySize) (WrongLength (slen raw));
      Ok (mkPublicKey raw)
  end.

(** One unreadable entry fails the list; the error names the entry. *)
Fixpoint parse_entries (parts : list string) : result (string * key_error) (list PublicKey) :=
  match parts with
  | [] => Ok []
  | part :: r =>
      let part := TrimSpace part in
      if String.eqb part "" then parse_entries r
      else match DecodePublicKey part with
           | Err e => Err (part, e)
           | Ok k => let! ks := parse_entries r in Ok (k :: ks)
           end
  end.

Definition ParseTrustList (s : string) : result (string * key_error) (list PublicKey) :=
  parse_entries (Split "," s).

Definition EncodeTrustList (keys : list PublicKey) : string := Join "," (map Encode keys).

(** The exact text signed. *)
Definition Bytes (m : Manifest) : string :=
  ("retune-agent-manifest/v1" ++ newline ++ "version=" ++ m_Version m ++ newline ++ "sha256="
   ++ ToLower (m_SHA256 m) ++ newline)%string.

Definition Sign (priv : PrivateKey) (m : Manifest) : Signature :=
  mkSignature (m_Version m) (ToLower (m_SHA256 m)) (ID (Public priv))
    (ed25519_sign (sk_Raw priv) (Bytes m)).

(** The first trusted key with the signature's id decides. *)
Fixpoint verify_with (trusted : list PublicKey) (id msg sig : string) : result release_error unit :=
  match trusted with
  | [] => Err (ErrUntrustedKey id)
  | k :: r => if negb (String.eqb (ID k) id) then verify_with r id msg sig
              else if ed25519_verify (pk_Raw k) msg sig then Ok tt
              else Err ErrBadSignature
  end.

Definition Verify (trusted : list PublicKey) (m : Manifest) (sig : Signature) : result release_error unit :=
  match trusted with
  | [] => Err ErrNoTrustedKeys
  | _ =>
      if negb (String.eqb (sig_Version sig) (m_Version m)) || negb (EqualFold (sig_SHA256 sig) (m_SHA256 m))
      then Err ErrManifestMismatch
      else verify_with trusted (sig_KeyID sig) (Bytes m) (sig_Signature sig)
  end.
End Release.

(** ** [internal/opsign] *)

Inductive opsign_error : Type :=
| ErrUnsigned
| ErrOpBadSignature
| ErrOpUntrustedKey (key : string)
| ErrExpired
| ErrNoKeys.

(** What each error says. *)
Definition opsign_message (e : opsign_error) : string :=
  match e with
  | ErrUnsigned => "this is not signed by an operations key"
  | ErrOpBadSignature => "the operations signature doesn't match"
  | ErrOpUntrustedKey k => "signed by a key that isn't a trusted operations key (key " ++ k ++ ")"
  | ErrExpired => "the signed order has expired"
  | ErrNoKeys => "no operations key is trusted, so nothing signed can be accepted"
  end.

Record OpSignature := mkOpSignature { op_KeyID : string; op_Signature : string }.

Record Policy := mkPolicy { po_Enforced : bool; po_Keys : list PublicKey }.

Definition MaxWipeValidity : duration := 24 * Hour.

Section Opsign.
Context `{Crypto}.

Definition script_hash (s : string) : string :=
  if String.eqb s "" then EmptyString
  else sha256_hex (ReplaceAll s (String "013" newline) newline).

Definition ScriptManifest (body detection : string) : string :=
  ("retune-script-manifest/v1" ++ newline ++ "body=" ++ script_hash body ++ newline
   ++ "detection=" ++ script_hash detection ++ newline)%string.

Definition FormatBool (b : bool) : string := if b then "true" else "false".

Definition WipeManifest (deviceID : string) (protected : bool) (expires : time) : string :=
  ("retune-command-manifest/v1" ++ newline ++ "type=wipe" ++ newline ++ "device=" ++ ToLower deviceID
   ++ newline ++ "protected=" ++ FormatBool protected ++ newline ++ "expires=" ++ rfc3339 expires
   ++ newline)%string.

Definition SignOp (priv : PrivateKey) (manifest : string) : OpSignature :=
  mkOpSignature (ID (Public priv)) (base64_encode (ed25519_sign (sk_Raw priv) manifest)).

Fixpoint verify_op_with (trusted : list PublicKey) (id msg raw : string) : result opsign_error unit :=
  match trusted with
  | [] => Err (ErrOpUntrustedKey id)
  | k :: r => if negb (String.eqb (ID k) id) then verify_op_with r id msg raw
              else if ed25519_verify (pk_Raw k) msg raw then Ok tt
              else Err ErrOpBadSignature
  end.

Definition VerifyOp (trusted : list PublicKey) (manifest : string) (sig : option OpSignature)
    : result opsign_error unit :=
  match trusted with
  | [] => Err ErrNoKeys
  | _ =>
      match sig with
      | None => Err ErrUnsigned
      | Some sig =>
          if String.eqb (op_Signature sig) "" then Err ErrUnsigned else
          match base64_decode (op_Signature sig) with
          | None => Err ErrOpBadSignature
          | Some raw => verify_op_with trusted (op_KeyID sig) manifest raw
          end
      end
  end.

Definition VerifyWipe (trusted : list PublicKey) (deviceID : string) (protected : bool)
    (expires now : time) (sig : option OpSignature) : result opsign_error unit :=
  if IsZero expires then Err ErrUnsigned else
  check! VerifyOp trusted (WipeManifest deviceID protected expires) sig;
  if negb (Before now expires) then Err ErrExpired else Ok tt.

Definition ParsePolicy (raw : string) : Policy :=
  if String.eqb (TrimSpace raw) "" then mkPolicy false []
  else match ParseTrustList raw with
       | Err _ => mkPolicy true []
       | Ok keys => mkPolicy true keys
       end.
End Opsign.

(** ** Theorems *)

Section Theorems.
Context `{Crypto}.

(** [k] is the first of [trusted] with the id [id]. *)
Definition first_with_id (trusted : list PublicKey) (id : string) (k : PublicKey) : Prop :=
  exists pre post, trusted = pre ++ k :: post /\ ID k = id /\ Forall (fun k' => ID k' <> id) pre.

Lemma first_with_id_cons k0 r id k :
  first_with_id (k0 :: r) id k <->
  (ID k0 = id /\ k = k0) \/ (ID k0 <> id /\ first_with_id r id k).
Proof.
  split.
  - intros ([|p pre] & post & Heq & Hid & Hpre); injection Heq as -> ->; [by left|].
    inversion Hpre; subst. right. split; [done|]. by exists pre, post.
  - intros [[Hid ->]|[Hne (pre & post & -> & Hid & Hpre)]].
    + by exists [], r.
    + exists (k0 :: pre), post. split_and!; [done..|]. by constructor.
Qed.

Lemma verify_with_Ok trusted id msg sig :
  verify_with trusted id msg sig = Ok tt <->
  exists k, first_with_id trusted id k /\ ed25519_verify (pk_Raw k) msg sig = true.
Proof.
  induction trusted as [|k0 r IH]; simpl.
  { split; [done|]. by intros (k & (pre & post & Heq & _) & _); destruct pre. }
  setoid_rewrite first_with_id_cons. destruct (String.eqb_spec (ID k0) id) as [Hid|Hid]; simpl.
  - destruct (ed25519_verify (pk_Raw k0) msg sig) eqn:E.
    + split; [|done]. intros _. exists k0. auto.
    + split; [done|]. intros (k & [[_ ->]|[? _]] & ?); congruence.
  - rewrite IH. split; intros (k & Hk & ?); exists k; (split; [|done]); [auto|].
    by destruct Hk as [[]|[]].
Qed.

Lemma verify_op_with_Ok trusted id msg raw :
  verify_op_with trusted id msg raw = Ok tt <-> verify_with trusted id msg raw = Ok tt.
Proof.
  induction trusted as [|k0 r IH]; simpl; [done|].
  destruct (String.eqb _ _); simpl; [|done]. by destruct (ed25519_verify _ _ _).
Qed.

(** A build is accepted exactly when its signature names this version
    and these bytes, and the first trusted key with the signature's key id
    verifies the signature over the manifest text. *)
Theorem verify_iff trusted m sig :
  Verify trusted m sig = Ok tt <->
  sig_Version sig = m_Version m /\ EqualFold (sig_SHA256 sig) (m_SHA256 m) = true /\
  exists k, first_with_id trusted (sig_KeyID sig) k /\
    ed25519_verify (pk_Raw k) (Bytes m) (sig_Signature sig) = true.
Proof.
  unfold Verify. rewrite <- verify_with_Ok. destruct trusted as [|k0 r]; [naive_solver|].
  destruct (String.eqb_spec (sig_Version sig) (m_Version m)); simpl; [|naive_solver].
  destruct (EqualFold _ _); simpl; naive_solver.
Qed.

Lemma EqualFold_lower s : EqualFold (ToLower s) s = true.
Proof.
  unfold EqualFold. apply String.eqb_eq. unfold ToLower.
  induction s as [|c s IH]; simpl; [done|]. f_equal; [|done].
  by destruct c as [[] [] [] [] [] [] [] []].
Qed.

Definition no_newline (s : string) : Prop := sany (fun c => Ascii.eqb c "010") s = false.

(** A string without the separator is the part before its first occurrence. *)
Lemma cut_at_newline a b x y :
  no_newline a -> no_newline b -> (a ++ String "010" x)%string = (b ++ String "010" y)%string ->
  a = b /\ x = y.
Proof.
  unfold no_newline. revert b. induction a as [|c a IH]; intros [|d b];
    rewrite ?String_app, ?sapp_nil_l; simpl sany; intros Ha Hb; bools.
  - by intros [= ->].
  - intros [= <- _]. simplify_eq.
  - intros [= -> _]. simplify_eq.
  - intros [= -> E]. apply IH in E as [-> ->]; auto.
Qed.

Lemma sapp_inv_r a b c : (a ++ c)%string = (b ++ c)%string -> a = b.
Proof.
  intros E. apply (f_equal srev) in E. rewrite !srev_app in E.
  enough (forall p x y, (p ++ x)%string = (p ++ y)%string -> x = y) as Hinj.
  { apply Hinj in E. by rewrite <- (srev_involutive a), E, srev_involutive. }
  clear. induction p as [|d p IH]; intros x y; [done|]. rewrite !String_app. intros [= E]. by apply IH.
Qed.

(** A manifest's text binds the version and the hash together: two
    manifests with one-line versions and the same text have the same version
    and, up to case, the same hash. *)
Theorem manifest_binds m1 m2 :
  no_newline (m_Version m1) -> no_newline (m_Version m2) -> Bytes m1 = Bytes m2 ->
  m_Version m1 = m_Version m2 /\ ToLower (m_SHA256 m1) = ToLower (m_SHA256 m2).
Proof.
  intros H1 H2. unfold Bytes, newline. rewrite !String_app, !sapp_nil_l. intros [= E].
  apply cut_at_newline in E as [Hv E]; [|done|done]. injection E as E. split; [done|].
  by apply sapp_inv_r in E.
Qed.

Lemma verify_op_Ok trusted manifest sig :
  VerifyOp trusted manifest sig = Ok tt <->
  exists s raw k, sig = Some s /\ op_Signature s <> EmptyString /\
    base64_decode (op_Signature s) = Some raw /\ first_with_id trusted (op_KeyID s) k /\
    ed25519_verify (pk_Raw k) manifest raw = true.
Proof.
  assert (forall id k, ~ first_with_id [] id k) as Hnil.
  { intros id k (pre & post & Heq & _). by destruct pre. }
  destruct trusted as [|k0 r]; [simpl; naive_solver|]. unfold VerifyOp.
  destruct sig as [s|]; [|naive_solver].
  destruct (String.eqb_spec (op_Signature s) ""); [naive_solver|].
  destruct (base64_decode (op_Signature s)) as [raw|] eqn:Hraw; [|naive_solver].
  rewrite verify_op_with_Ok, verify_with_Ok. naive_solver.
Qed.

(** A wipe order is obeyed exactly when it has an expiry that has not
    passed, and the first trusted key with the signature's id verifies the
    signature over this device, this protection and this expiry. With no
    trusted key, nothing is. *)
Theorem wipe_order_iff trusted device protected expires now sig :
  VerifyWipe trusted device protected expires now sig = Ok tt <->
  expires <> 0 /\ now < expires /\
  exists s raw k, sig = Some s /\ op_Signature s <> EmptyString /\
    base64_decode (op_Signature s) = Some raw /\ first_with_id trusted (op_KeyID s) k /\
    ed25519_verify (pk_Raw k) (WipeManifest device protected expires) raw = true.
Proof.
  rewrite <- verify_op_Ok. unfold VerifyWipe, IsZero, Before.
  destruct (Z.eqb_spec expires 0); [naive_solver|]. rewrite rbind_Ok.
  destruct (Z.ltb_spec now expires); simpl.
  - split; [|naive_solver]. by intros ([] & ? & _).
  - split; [naive_solver|]. intros (_ & ? & _). lia.
Qed.

(** A stamped trust list that is not blank always enforces signatures;
    when it does not parse, no manifest with any signature is accepted. *)
Theorem malformed_policy_refuses_everything raw e :
  TrimSpace raw <> EmptyString -> ParseTrustList raw = Err e ->
  po_Enforced (ParsePolicy raw) = true /\
  forall manifest sig, VerifyOp (po_Keys (ParsePolicy raw)) manifest sig = Err ErrNoKeys.
Proof.
  intros Hne He. unfold ParsePolicy. rewrite He.
  by destruct (String.eqb_spec (TrimSpace raw) "").
Qed.

Context `{!CryptoLaws}.

Lemma DecodePublicKey_Encode k :
  slen (pk_Raw k) = PublicKeySize -> DecodePublicKey (Encode k) = Ok k.
Proof.
  intros Hk. unfold DecodePublicKey, Encode. rewrite (proj1 (base64_plain _)), base64_decode_encode.
  rewrite Hk. by destruct k.
Qed.

(** The trust list a build is stamped with reads back as the keys it was
    made from, in their order. *)
Theorem trust_list_roundtrip keys :
  Forall (fun k => slen (pk_Raw k) = PublicKeySize) keys ->
  ParseTrustList (EncodeTrustList keys) = Ok keys.
Proof.
  intros Hk. unfold ParseTrustList, EncodeTrustList. destruct keys as [|k0 ks]; [done|].
  rewrite Split_Join; [|done|].
  - induction Hk as [|k ks' Hlen Hk IH]; [done|]. simpl.
    change (TrimSpace (Encode k)) with (TrimSpace (base64_encode (pk_Raw k))).
    rewrite (proj1 (base64_plain _)). fold (Encode k).
    destruct (String.eqb_spec (Encode k) "") as [E|_].
    + apply base64_nonempty in E; [done|]. intros E0. by rewrite E0 in Hlen.
    + rewrite DecodePublicKey_Encode by done. simpl. by rewrite IH.
  - apply Forall_map, Forall_true. intros k. apply base64_plain.
Qed.

(** What [Sign] makes, [Verify] accepts, under any trust list whose first
    key with the signer's id is the signer's. *)
Theorem signed_build_verifies trusted priv m :
  first_with_id trusted (ID (Public priv)) (Public priv) ->
  Verify trusted m (Sign priv m) = Ok tt.
Proof.
  intros Hf. apply verify_iff. simpl. split_and!; [done | apply EqualFold_lower|].
  eexists. split; [exact Hf | apply ed25519_sound].
Qed.
End Theorems.

(** ** A concrete instance

    Stand-ins with the documented laws: base64 as two letters a byte, and a
    signature that names its key and text. *)
Module Toy.
Definition nibble (n : Z) : ascii := ascii_of_nat (Z.to_nat (97 + n)).
Fixpoint encode (s : string) : string :=
  match s with
  | EmptyString => EmptyString
  | String c r => String (nibble (code c / 16)) (String (nibble (code c mod 16)) (encode r))
  end.
Fixpoint decode (s : string) : option string :=
  match s with
  | EmptyString => Some EmptyString
  | String a (String b r) =>
      match decode r with
      | Some t => Some (String (ascii_of_nat (Z.to_nat ((code a - 97) * 16 + (code b - 97)))) t)
      | None => None
      end
  | _ => None
  end.
#[export] Instance toy_crypto : Crypto := {|
  sha256_hex s := s;
  key_digest k := substring 0 4 k;
  ed25519_public k := k;
  ed25519_from_seed s := s;
  ed25519_seed k := k;
  ed25519_sign k m := (k ++ "|" ++ m)%string;
  ed25519_verify k m s := String.eqb s (k ++ "|" ++ m)%string;
  base64_encode := encode;
  base64_decode := decode;
  rfc3339 t := Itoa t
|}.

Lemma encode_char c :
  nat_of_ascii (ascii_of_nat (Z.to_nat ((code (nibble (code c / 16)) - 97) * 16
                                        + (code (nibble (code c mod 16)) - 97)))) = nat_of_ascii c /\
  plain (nibble (code c / 16)) && plain (nibble (code c mod 16))
    && negb (Ascii.eqb (nibble (code c / 16)) ",") && negb (Ascii.eqb (nibble (code c mod 16)) ",") = true.
Proof. destruct c as [[] [] [] [] [] [] [] []]; vm_compute; split; reflexivity. Qed.

Lemma encode_plain s :
  sall plain (encode s) = true /\ sany (fun c => Ascii.eqb c ",") (encode s) = false.
Proof.
  induction s as [|c s [IH1 IH2]]; [done|]. pose proof (proj2 (encode_char c)) as H. bools.
  cbn [encode sall sany]. rewrite IH1, IH2. repeat match goal with H : _ = _ |- _ => rewrite H; clear H end.
  done.
Qed.

#[export] Instance toy_laws : CryptoLaws.
Proof.
  split.
  - intros s. cbn [base64_decode base64_encode toy_crypto]. induction s as [|c s IH]; [done|].
    cbn [encode decode]. rewrite IH. do 2 f_equal.
    rewrite <- (ascii_nat_embedding c). rewrite <- (proj1 (encode_char c)) at 3.
    by rewrite !ascii_nat_embedding.
  - intros s. split; [apply TrimSpace_plain|]; apply encode_plain.
  - by intros [|c s].
  - intros priv msg. apply String.eqb_refl.
Qed.

Definition key (c : ascii) : string := Join EmptyString (repeat (String c EmptyString) 32).
Definition keyA := mkPublicKey (key "A").
Definition keyB := mkPublicKey (key "B").
End Toy.

#[local] Existing Instance Toy.toy_crypto.
#[local] Existing Instance Toy.toy_laws.

Lemma manifest_binds_witness :
  exists m1 m2, m1 <> m2 /\ no_newline (m_Version m1) /\ no_newline (m_Version m2) /\
    Bytes m1 = Bytes m2 /\ ToLower (m_SHA256 m1) = ToLower (m_SHA256 m2).
Proof.
  exists (mkManifest "1.2.3" "AB"), (mkManifest "1.2.3" "ab"). split; [done|].
  split; [reflexivity|]. split; [reflexivity|]. split; [reflexivity|].
  exact (proj2 (manifest_binds (mkManifest "1.2.3" "AB") (mkManifest "1.2.3" "ab") eq_refl eq_refl eq_refl)).
Defined.

Lemma malformed_policy_refuses_everything_witness :
  TrimSpace "xyz" <> EmptyString /\
  exists e, ParseTrustList "xyz" = Err e /\
    forall manifest sig, VerifyOp (po_Keys (ParsePolicy "xyz")) manifest sig = Err ErrNoKeys.
Proof.
  assert (TrimSpace "xyz" <> EmptyString) as Hne by (vm_compute; discriminate).
  split; [exact Hne|]. eexists. split; [vm_compute; reflexivity|].
  refine (proj2 (malformed_policy_refuses_everything "xyz" _ Hne _)). vm_compute. reflexivity.
Defined.

Lemma trust_list_roundtrip_witness :
  ParseTrustList (EncodeTrustList [Toy.keyA; Toy.keyB]) = Ok [Toy.keyA; Toy.keyB].
Proof. apply (trust_list_roundtrip [Toy.keyA; Toy.keyB]). repeat constructor. Defined.

Lemma signed_build_verifies_witness :
  Verify [Toy.keyA; Toy.keyB] (mkManifest "1.2.3" "AB")
    (Sign (mkPrivateKey (Toy.key "B")) (mkManifest "1.2.3" "AB")) = Ok tt.
Proof.
  apply (signed_build_verifies [Toy.keyA; Toy.keyB] (mkPrivateKey (Toy.key "B"))).
  exists [Toy.keyA], []. split; [reflexivity|]. split; [reflexivity|].
  repeat constructor. vm_compute. discriminate.
Defined.
