(* ===== verification/Version.v ===== *)
(** * Version numbers of agent builds

    [ParseVersion], [Version.Compare] and [Newer] of
    [internal/release/manifest.go]: the order in which an automatic rollout may
    move a fleet. [version_order] says when it is an order, and
    [leading_zeros_compare_both_ways] when it is not. *)
From S2P Require Export GoString.
From Stdlib Require Import OrderedTypeEx.
Open Scope Z_scope.
Open Scope go_scope.

Record Version := mkVersion { Major : Z; Minor : Z; Patch : Z; Pre : string }.

(** [strings.Cut] at one byte: what is before it, and what is after. *)
Fixpoint Cut (sep : ascii) (s : string) : string * string :=
  match s with
  | EmptyString => (EmptyString, EmptyString)
  | String c r => if Ascii.eqb c sep then (EmptyString, r)
                  else let '(a, b) := Cut sep r in (String c a, b)
  end.

Definition TrimPrefix (s p : string) : string :=
  match CutPrefix p s with Some r => r | None => s end.

(** One of the three numbers: [strconv.Atoi], no sign below zero, no leading zero. *)
Definition version_number (p : string) : option Z :=
  match Atoi p with
  | Some v => if (v <? 0) || ((1 <? slen p) && HasPrefix p "0") then None else Some v
  | None => None
  end.

Definition ParseVersion (s : string) : option Version :=
  let '(core, pre) := Cut "-" (TrimPrefix (TrimSpace s) "v") in
  match Split "." core with
  | [a; b; c] =>
      match version_number a, version_number b, version_number c with
      | Some x, Some y, Some z => Some (mkVersion x y z pre)
      | _, _, _ => None
      end
  | _ => None
  end.

(** Two prerelease identifiers that differ. *)
Definition compare_ident (a b : string) : Z :=
  match Atoi a, Atoi b with
  | Some ai, Some bi => if ai <? bi then -1 else 1
  | Some _, None => -1
  | None, Some _ => 1
  | None, None => if String.ltb a b then -1 else 1
  end.

Fixpoint compare_pre (a b : list string) : Z :=
  match a, b with
  | [], [] => 0
  | [], _ :: _ => -1
  | _ :: _, [] => 1
  | x :: a, y :: b => if String.eqb x y then compare_pre a b else compare_ident x y
  end.

(** [vs] are the pairs of numbers still to compare. *)
Fixpoint compare_numbers (vs : list (Z * Z)) (rest : Z) : Z :=
  match vs with
  | [] => rest
  | (d0, d1) :: vs => if d0 =? d1 then compare_numbers vs rest else if d0 <? d1 then -1 else 1
  end.

Definition Compare (v o : Version) : Z :=
  compare_numbers [(Major v, Major o); (Minor v, Minor o); (Patch v, Patch o)]
    (if String.eqb (Pre v) (Pre o) then 0
     else if String.eqb (Pre v) EmptyString then 1
     else if String.eqb (Pre o) EmptyString then -1
     else compare_pre (Split "." (Pre v)) (Split "." (Pre o))).

Definition Newer (a b : string) : bool :=
  match ParseVersion a with
  | None => false
  | Some va => match ParseVersion b with
               | None => true
               | Some vb => 0 <? Compare va vb
               end
  end.

Example newer_release : Newer "v1.10.0" "1.9.3" = true. Proof. reflexivity. Qed.
Example newer_prerelease : Newer "1.2.0" "1.2.0-rc.1" = true. Proof. reflexivity. Qed.
Example newer_rc : Newer "1.2.0-rc.10" "1.2.0-rc.9" = true. Proof. reflexivity. Qed.
Example newer_garbage : Newer "1.2" "0.0.1" = false. Proof. reflexivity. Qed.

(** ** The order *)

(** Identifiers that are written as a number is: no sign, no leading zero. *)
Definition canonical_ident (x : string) : bool :=
  match Atoi x with Some n => String.eqb x (Itoa n) | None => true end.

Definition canonical (v : Version) : bool := forallb canonical_ident (Split "." (Pre v)).

(** A version text that does not parse has no identifiers to be written badly. *)
Definition canonical_text (s : string) : bool :=
  match ParseVersion s with Some v => canonical v | None => true end.

(** An order on [A] given as Go's three results. *)
Record orders {A} (cmp : A -> A -> Z) (P : A -> Prop) : Prop := {
  ord_range x y : cmp x y = -1 \/ cmp x y = 0 \/ cmp x y = 1;
  ord_eq x y : P x -> P y -> cmp x y = 0 <-> x = y;
  ord_flip x y : P x -> P y -> cmp y x = - cmp x y;
  ord_trans x y z : P x -> P y -> P z -> cmp x y = 1 -> cmp y z = 1 -> cmp x z = 1 }.

Lemma ltb_lt a b : String.ltb a b = true <-> String_as_OT.lt a b.
Proof.
  unfold String.ltb. rewrite <- String_as_OT.cmp_lt. unfold String_as_OT.cmp.
  destruct (String.compare a b); split; done.
Qed.

Lemma ltb_irrefl a : String.ltb a a = false.
Proof. apply not_true_iff_false. rewrite ltb_lt. intros H. by eapply String_as_OT.lt_not_eq. Qed.

Lemma ltb_trans a b c : String.ltb a b = true -> String.ltb b c = true -> String.ltb a c = true.
Proof. rewrite !ltb_lt. apply String_as_OT.lt_trans. Qed.

Lemma ltb_total a b : String.ltb a b = false -> a <> b -> String.ltb b a = true.
Proof.
  rewrite ltb_lt. rewrite <- not_true_iff_false, ltb_lt. intros H Hn.
  destruct (String_as_OT.compare a b) as [?|?|?]; [done|congruence|done].
Qed.

Definition cmp_ident (x y : string) : Z := if String.eqb x y then 0 else compare_ident x y.

Lemma compare_ident_range x y : compare_ident x y = -1 \/ compare_ident x y = 1.
Proof.
  unfold compare_ident. destruct (Atoi x), (Atoi y); [destruct (_ <? _) | | | destruct (String.ltb _ _)]; auto.
Qed.

Lemma canonical_inj x y n : canonical_ident x = true -> canonical_ident y = true ->
  Atoi x = Some n -> Atoi y = Some n -> x = y.
Proof.
  unfold canonical_ident. intros Hx Hy Ex Ey. rewrite Ex in Hx. rewrite Ey in Hy. bools. congruence.
Qed.

Lemma ident_flip x y : canonical_ident x = true -> canonical_ident y = true -> x <> y ->
  compare_ident y x = - compare_ident x y.
Proof.
  intros Hx Hy Hn. unfold compare_ident.
  destruct (Atoi x) as [n|] eqn:Ex, (Atoi y) as [m|] eqn:Ey; try done.
  - assert (n <> m) by (intros ->; apply Hn; by eapply canonical_inj).
    destruct (Z.ltb_spec n m), (Z.ltb_spec m n); lia.
  - destruct (String.ltb x y) eqn:E.
    + destruct (String.ltb y x) eqn:E'; [|done].
      pose proof (ltb_trans _ _ _ E E') as H. by rewrite ltb_irrefl in H.
    + rewrite (ltb_total _ _ E) by done. done.
Qed.

Lemma ident_trans x y z : compare_ident x y = 1 -> compare_ident y z = 1 ->
  canonical_ident x = true -> canonical_ident y = true -> canonical_ident z = true ->
  x <> y -> y <> z -> compare_ident x z = 1 /\ x <> z.
Proof.
  intros H1 H2 Hx Hy Hz N1 N2. split.
  - unfold compare_ident in *.
    destruct (Atoi x) as [a|] eqn:Ex, (Atoi y) as [b|] eqn:Ey, (Atoi z) as [c|] eqn:Ez; try done.
    + destruct (Z.ltb_spec a b), (Z.ltb_spec b c), (Z.ltb_spec a c); try done; lia.
    + destruct (String.ltb x z) eqn:E; [|done].
      destruct (String.ltb x y) eqn:E1; [done|]. destruct (String.ltb y z) eqn:E2; [done|].
      apply ltb_total in E1; [|done]. apply ltb_total in E2; [|done].
      pose proof (ltb_trans _ _ _ (ltb_trans _ _ _ E2 E1) E) as H. by rewrite ltb_irrefl in H.
  - intros <-. rewrite (ident_flip x y) in H2 by done. lia.
Qed.

Lemma compare_pre_cons x y a b :
  compare_pre (x :: a) (y :: b) = if String.eqb x y then compare_pre a b else compare_ident x y.
Proof. done. Qed.

Lemma compare_pre_orders : orders compare_pre (fun l => forallb canonical_ident l = true).
Proof.
  split.
  - induction x as [|x a IH]; intros [|y b]; simpl; auto. destruct (String.eqb_spec x y); [apply IH|].
    destruct (compare_ident_range x y); auto.
  - induction x as [|x a IH]; intros [|y b]; simpl; try done. intros [Hx Ha]%andb_true_iff [Hy Hb]%andb_true_iff.
    destruct (String.eqb_spec x y) as [->|]; [rewrite IH by done; split; congruence|].
    split; [|congruence]. destruct (compare_ident_range x y); lia.
  - induction x as [|x a IH]; intros [|y b]; simpl; try done. intros [Hx Ha]%andb_true_iff [Hy Hb]%andb_true_iff.
    rewrite (String.eqb_sym y x). destruct (String.eqb_spec x y) as [->|]; [by apply IH|]. by apply ident_flip.
  - induction x as [|x a IH]; intros [|y b] [|z c]; try done. rewrite !compare_pre_cons. simpl.
    intros [Hx Ha]%andb_true_iff [Hy Hb]%andb_true_iff [Hz Hc]%andb_true_iff.
    destruct (String.eqb_spec x y) as [->|N1], (String.eqb_spec y z) as [->|N2]; intros H1 H2.
    + rewrite ?String.eqb_refl. by apply (IH b c).
    + by rewrite ?(proj2 (String.eqb_neq y z)).
    + by rewrite ?(proj2 (String.eqb_neq x z)).
    + destruct (ident_trans x y z) as [H N]; try done. by rewrite (proj2 (String.eqb_neq x z)).
Qed.

(** Comparing two numbers first keeps an order. *)
Definition lex_cmp {A} (cmp : A -> A -> Z) (x y : Z * A) : Z :=
  if x.1 =? y.1 then cmp x.2 y.2 else if x.1 <? y.1 then -1 else 1.

Lemma lex_orders {A} (cmp : A -> A -> Z) P : orders cmp P -> orders (lex_cmp cmp) (fun x => P x.2).
Proof.
  intros [Hr He Hf Ht]. unfold lex_cmp. split.
  - intros [n x] [m y]; simpl. destruct (n =? m); [apply Hr|]. destruct (n <? m); auto.
  - intros [n x] [m y]; simpl. intros Hx Hy. destruct (Z.eqb_spec n m) as [->|].
    + rewrite He by done. split; congruence.
    + destruct (n <? m); split; congruence.
  - intros [n x] [m y]; simpl. intros Hx Hy. rewrite (Z.eqb_sym m n).
    destruct (Z.eqb_spec n m); [by apply Hf|]. destruct (Z.ltb_spec n m), (Z.ltb_spec m n); lia.
  - intros [n x] [m y] [k z]; simpl. intros Hx Hy Hz.
    destruct (Z.eqb_spec n m) as [->|], (Z.eqb_spec m k) as [->|]; intros H1 H2.
    + rewrite ?Z.eqb_refl. by apply (Ht x y z).
    + by rewrite ?(proj2 (Z.eqb_neq m k)).
    + by rewrite ?(proj2 (Z.eqb_neq n k)).
    + destruct (Z.ltb_spec n m), (Z.ltb_spec m k); try done.
      rewrite (proj2 (Z.eqb_neq n k)) by lia. by rewrite (proj2 (Z.ltb_ge n k)) by lia.
Qed.

(** A release outranks its own prereleases. *)
Definition cmp_release (a b : string) : Z :=
  if String.eqb a b then 0 else if String.eqb a EmptyString then 1
  else if String.eqb b EmptyString then -1 else compare_pre (Split "." a) (Split "." b).

Lemma Split_inj a b : Split "." a = Split "." b -> a = b.
Proof. intros H. rewrite <- (Join_Split "." a), <- (Join_Split "." b). by rewrite H. Qed.

Lemma release_orders : orders cmp_release (fun s => forallb canonical_ident (Split "." s) = true).
Proof.
  destruct compare_pre_orders as [Hr He Hf Ht]. unfold cmp_release. split.
  - intros x y. destruct (String.eqb x y); auto. destruct (String.eqb x _); auto. destruct (String.eqb y _); auto.
  - intros x y Hx Hy. destruct (String.eqb_spec x y) as [->|N]; [done|].
    destruct (String.eqb_spec x EmptyString) as [->|]; [split; congruence|].
    destruct (String.eqb_spec y EmptyString) as [->|]; [split; congruence|].
    rewrite He by done. split; [apply Split_inj | congruence].
  - intros x y Hx Hy. rewrite (String.eqb_sym y x). destruct (String.eqb_spec x y) as [->|N]; [done|].
    destruct (String.eqb_spec x EmptyString) as [->|], (String.eqb_spec y EmptyString) as [->|]; try done.
    by apply Hf.
  - intros x y z Hx Hy Hz. destruct (String.eqb_spec x y) as [->|N1]; [done|].
    destruct (String.eqb_spec y z) as [->|N2]; [done|].
    destruct (String.eqb_spec x EmptyString) as [->|N3], (String.eqb_spec y EmptyString) as [->|N4]; try done.
    + destruct (String.eqb_spec z EmptyString) as [->|N5]; [done|].
      by rewrite (proj2 (String.eqb_neq EmptyString z)).
    + destruct (String.eqb_spec z EmptyString) as [->|N5]; [done|].
      intros H1 H2. destruct (String.eqb_spec x z) as [->|]; [|by apply (Ht (Split "." x) (Split "." y))].
      rewrite (Hf (Split "." z) (Split "." y)) in H2 by done. lia.
Qed.

Lemma Compare_orders : orders Compare (fun v => canonical v = true).
Proof.
  pose proof (lex_orders _ _ (lex_orders _ _ (lex_orders _ _ release_orders))) as [Hr He Hf Ht].
  set (key v := (Major v, (Minor v, (Patch v, Pre v)))).
  assert (HC : forall v o, Compare v o = lex_cmp (lex_cmp (lex_cmp cmp_release)) (key v) (key o)) by done.
  assert (Hk : forall v o, key v = key o <-> v = o).
  { intros [] []. unfold key. simpl. split; congruence. }
  split; setoid_rewrite HC.
  - intros v o. apply Hr.
  - intros v o Hv Ho. rewrite He by done. apply Hk.
  - intros v o Hv Ho. by apply Hf.
  - intros x y z Hx Hy Hz. by apply Ht.
Qed.

(** [Newer] is a strict order on version texts whose prerelease identifiers
    are written as numbers are, total on those that parse: no text is newer
    than itself; of two that name different versions exactly one is newer; and
    what is newer than a newer one is newer. *)
Theorem version_order :
  (forall s, Newer s s = false)
  /\ (forall s t v w, canonical_text s = true -> canonical_text t = true ->
        ParseVersion s = Some v -> ParseVersion t = Some w ->
        (v = w <-> Newer s t = false /\ Newer t s = false) /\ (Newer s t = true -> Newer t s = false))
  /\ (forall s t u, canonical_text s = true -> canonical_text t = true -> canonical_text u = true ->
        Newer s t = true -> Newer t u = true -> Newer s u = true)
  /\ (forall s t, ParseVersion s = None -> Newer s t = false).
Proof.
  destruct Compare_orders as [Hr He Hf Ht]. split; [|split; [|split]].
  - intros s. unfold Newer. destruct (ParseVersion s) as [v|]; [|done]. unfold Compare. simpl.
    by rewrite !Z.eqb_refl, String.eqb_refl.
  - intros s t v w Hs Htt Ev Ew. unfold canonical_text, Newer in *. rewrite Ev in *. rewrite Ew in *.
    pose proof (Hf v w Hs Htt). pose proof (He v w Hs Htt) as E. pose proof (Hr v w).
    split; [|rewrite Z.ltb_lt, Z.ltb_ge; lia]. rewrite <- E, !Z.ltb_ge. lia.
  - intros s t u Hs Htt Hu. unfold canonical_text, Newer in *.
    destruct (ParseVersion s) as [x|]; [|done]. destruct (ParseVersion t) as [y|]; [|done].
    destruct (ParseVersion u) as [z|]; [|done]. rewrite !Z.ltb_lt. intros H1 H2.
    pose proof (Hr x y). pose proof (Hr y z). rewrite (Ht x y z) by (done || lia). lia.
  - intros s t E. unfold Newer. by rewrite E.
Qed.

(** Two prereleases that differ in a leading zero are each newer than the other. *)
Example leading_zeros_compare_both_ways :
  Newer "1.0.0-rc.01" "1.0.0-rc.1" = true /\ Newer "1.0.0-rc.1" "1.0.0-rc.01" = true.
Proof. split; reflexivity. Qed.
