(* ===== verification/Phased.v ===== *)
(** * Phased assignments

    [internal/server/store/rollout.go]: how much of its group an include
    reaches as time passes, and which devices are reached; with the bounds the
    admin API puts on one ([parseRollout] of
    [internal/server/adminapi/groups.go]). *)
From S2P Require Export GoString.
Open Scope Z_scope.
Open Scope go_scope.

Record Rollout := mkRollout { Percent : Z; StepPercent : Z; StepHours : Z }.

Definition zero_rollout : Rollout := mkRollout 0 0 0.

Definition Phased (r : Rollout) : bool := (0 <? Percent r) && (Percent r <? 100).

(** [None] is the run-time panic of a division by zero. *)
Definition Current (r : Rollout) (since now : time) : option Z :=
  if negb (Phased r) then Some 100
  else if (0 <? StepPercent r) && (0 <? StepHours r) && After now since then
    let d := dmul (StepHours r) Hour in
    if d =? 0 then None
    else let steps := wrap64 (Z.quot (Sub now since) d) in
         Some (Z.min (wrap64 (Percent r + wrap64 (steps * StepPercent r))) 100)
  else Some (Z.min (Percent r) 100).

(** The zero time is a rollout that never reaches the whole group. *)
Definition FullAt (r : Rollout) (since : time) : time :=
  if negb (Phased r) then since
  else if (StepPercent r <=? 0) || (StepHours r <=? 0) then 0
  else let steps := wrap64 (Z.quot (wrap64 (wrap64 (wrap64 (100 - Percent r) + StepPercent r) - 1)) (StepPercent r)) in
       Prelude.Add since (dmul (wrap64 (steps * StepHours r)) Hour).

(** [hash/fnv]'s 64-bit FNV-1a. *)
Definition fnv_offset : Z := 14695981039346656037.
Definition fnv_prime : Z := 1099511628211.
Definition fnv64a (bs : list Z) : Z :=
  fold_left (fun h b => (Z.lxor h b * fnv_prime) mod 2 ^ 64) bs fnv_offset.

Section Bucket.
(** The sixteen bytes of an id. *)
Context (uuid_bytes : string -> list Z).

Definition RolloutBucket (itemID deviceID : string) : Z :=
  fnv64a (uuid_bytes itemID ++ uuid_bytes deviceID) mod 100.

Definition RolloutAdmits (itemID deviceID : string) (percent : Z) : bool :=
  (100 <=? percent) || (RolloutBucket itemID deviceID <? percent).

Lemma RolloutBucket_range i d : 0 <= RolloutBucket i d < 100.
Proof. unfold RolloutBucket. apply Z.mod_pos_bound. lia. Qed.

Lemma RolloutAdmits_mono i d p q : p <= q -> RolloutAdmits i d p = true -> RolloutAdmits i d q = true.
Proof. unfold RolloutAdmits. rewrite !orb_true_iff, !Z.leb_le, !Z.ltb_lt. lia. Qed.

End Bucket.

(** What a request may ask for; [None] is one that asks for no phases. *)
Inductive rollout_problem := OnlyIncludes | BadPercent | BadStep | StepsGoTogether.

Definition parseRollout (mode_include phasable : bool) (r : option Rollout) : result rollout_problem Rollout :=
  match r with
  | None => Ok zero_rollout
  | Some r =>
      if (Percent r =? 100) && (StepPercent r =? 0) && (StepHours r =? 0) then Ok zero_rollout
      else check! ensure (mode_include && phasable) OnlyIncludes;
           check! ensure (negb ((Percent r <? 1) || (100 <? Percent r))) BadPercent;
           check! ensure (negb ((StepPercent r <? 0) || (100 <? StepPercent r) || (StepHours r <? 0) || (720 <? StepHours r))) BadStep;
           check! ensure (Bool.eqb (StepPercent r =? 0) (StepHours r =? 0)) StepsGoTogether;
           Ok r
  end.

Example current_half : Current (mkRollout 10 20 24) 1000 (1000 + 48 * Hour) = Some 50. Proof. reflexivity. Qed.
Example full_at : FullAt (mkRollout 10 20 24) 1000 = 1000 + 120 * Hour. Proof. reflexivity. Qed.
Example fnv_empty : fnv64a [97] = 12638187200555641996. Proof. reflexivity. Qed.

(** ** What the phases do *)

Record stored_rollout (r : Rollout) : Prop := {
  sr_percent : 0 <= Percent r <= 100;
  sr_step : 0 <= StepPercent r <= 100;
  sr_hours : 0 <= StepHours r <= 720 }.

Lemma parseRollout_stored inc ph req r : parseRollout inc ph req = Ok r -> stored_rollout r.
Proof.
  unfold parseRollout. destruct req as [q|]; [|intros [= <-]; split; simpl; lia].
  destruct (_ && _ && _); [intros [= <-]; split; simpl; lia|].
  intros H. oks. bools. by split; lia.
Qed.

(** A value plainly inside an int64. *)
Ltac in64 := unfold in_int64, MinInt64, MaxInt64; apply andb_true_iff; split; apply Z.leb_le; lia.

(** The number of whole steps between two moments. *)
Definition steps_between (r : Rollout) (since now : time) : Z :=
  Z.quot (Sub now since) (StepHours r * Hour).

Lemma hours_small h : 0 <= h <= 720 -> dmul h Hour = h * Hour.
Proof.
  intros H. unfold dmul. apply wrap64_id. unfold Hour, Minute, Second. in64.
Qed.

Lemma Sub_nonneg now since : since < now -> 0 <= Sub now since <= 9223372036854775807.
Proof. intros H. unfold Sub, sat64, MinInt64, MaxInt64. lia. Qed.

Lemma steps_bounds r since now : stored_rollout r -> 0 < StepHours r -> since < now ->
  0 <= steps_between r since now <= 2562048.
Proof.
  intros [? ? ?] Hh Hn. pose proof (Sub_nonneg _ _ Hn) as Hs. unfold steps_between.
  assert (HH : 3600000000000 <= StepHours r * Hour) by (unfold Hour, Minute, Second; lia).
  split; [apply Z.quot_pos; lia|]. rewrite Z.quot_div_nonneg by lia.
  transitivity (9223372036854775807 / 3600000000000); [|by vm_compute].
  transitivity (9223372036854775807 / (StepHours r * Hour)); [apply Z.div_le_mono; lia|].
  apply Z.div_le_compat_l; lia.
Qed.

(** With the bounds an assignment is stored with nothing wraps or panics. *)
Lemma Current_steps r since now : stored_rollout r -> Phased r = true ->
  Current r since now = Some (
    if (0 <? StepPercent r) && (0 <? StepHours r) && (since <? now)
    then Z.min (Percent r + steps_between r since now * StepPercent r) 100
    else Percent r).
Proof.
  intros Hr Hp. unfold Current. rewrite Hp. simpl. unfold After. rewrite Z.gtb_ltb.
  apply andb_true_iff in Hp as [Hp1%Z.ltb_lt Hp2%Z.ltb_lt].
  destruct ((0 <? StepPercent r) && (0 <? StepHours r) && (since <? now)) eqn:E; [|f_equal; lia].
  bools. pose proof (steps_bounds r since now Hr ltac:(done) ltac:(done)) as Hs.
  destruct Hr. rewrite hours_small by lia. fold (steps_between r since now).
  rewrite (proj2 (Z.eqb_neq _ _)) by (unfold Hour, Minute, Second; lia).
  assert (0 <= steps_between r since now * StepPercent r <= 2562048 * 100) by nia.
  rewrite (wrap64_id (steps_between r since now)) by in64.
  rewrite (wrap64_id (_ * _)) by in64. by rewrite wrap64_id by in64.
Qed.

Lemma steps_mono r since n1 n2 : 0 < StepHours r -> since < n1 -> n1 <= n2 ->
  steps_between r since n1 <= steps_between r since n2.
Proof.
  intros Hh H1 H2. unfold steps_between.
  pose proof (Sub_nonneg _ _ H1). pose proof (Sub_nonneg n2 since ltac:(lia)).
  assert (0 < StepHours r * Hour) by (unfold Hour, Minute, Second; lia).
  rewrite !Z.quot_div_nonneg by lia. apply Z.div_le_mono; [lia|]. unfold Sub, sat64, MinInt64, MaxInt64. lia.
Qed.

Definition steps_needed (r : Rollout) : Z := (100 - Percent r + StepPercent r - 1) / StepPercent r.

Lemma FullAt_steps r since : stored_rollout r -> Phased r = true -> 0 < StepPercent r -> 0 < StepHours r ->
  FullAt r since = since + steps_needed r * (StepHours r * Hour) /\ 0 < steps_needed r <= 99.
Proof.
  intros [? ? ?] Hp Hs Hh. unfold FullAt. rewrite Hp. simpl.
  rewrite (proj2 (Z.leb_gt _ _) Hs), (proj2 (Z.leb_gt _ _) Hh). simpl.
  apply andb_true_iff in Hp as [Hp1%Z.ltb_lt Hp2%Z.ltb_lt].
  assert (Hn : 0 < steps_needed r <= 99).
  { unfold steps_needed. split; [apply Z.div_str_pos; lia|]. apply Z.div_le_upper_bound; nia. }
  split; [|done].
  rewrite !(wrap64_id (100 - Percent r)), !(wrap64_id (100 - Percent r + _)), !(wrap64_id (_ - 1))
    by in64.
  rewrite Z.quot_div_nonneg by lia. fold (steps_needed r).
  rewrite (wrap64_id (steps_needed r)) by in64.
  assert (0 <= steps_needed r * StepHours r <= 99 * 720) by nia.
  rewrite (wrap64_id (_ * StepHours r)) by in64.
  unfold Prelude.Add, dmul. rewrite wrap64_id; [lia|].
  unfold Hour, Minute, Second. in64.
Qed.

Lemma steps_reach r since now k : 0 < StepHours r <= 720 -> 0 < k <= 99 -> since < now ->
  k <= steps_between r since now <-> since + k * (StepHours r * Hour) <= now.
Proof.
  intros Hh Hk Hn. unfold steps_between. pose proof (Sub_nonneg _ _ Hn).
  assert (3600000000000 <= StepHours r * Hour <= 2592000000000000) by (unfold Hour, Minute, Second; lia).
  rewrite Z.quot_div_nonneg by lia.
  assert (Sub now since = Z.min (now - since) 9223372036854775807) as -> by (unfold Sub, sat64, MinInt64, MaxInt64; lia).
  remember (StepHours r * Hour) as w.
  assert (k * w <= 99 * 2592000000000000) by nia.
  split.
  - intros Hd. assert (k * w <= Z.min (now - since) 9223372036854775807); [|lia].
    transitivity (w * (Z.min (now - since) 9223372036854775807 / w)); [nia|]. apply Z.mul_div_le. lia.
  - intros Hd. apply Z.div_le_lower_bound; [lia|]. lia.
Qed.

Lemma enough_steps r n : 0 < StepPercent r -> 100 <= Percent r + n * StepPercent r <-> steps_needed r <= n.
Proof.
  intros Hs. unfold steps_needed. split; intros H.
  - apply Z.lt_succ_r. apply Z.div_lt_upper_bound; [lia|]. nia.
  - pose proof (Z.div_mod (100 - Percent r + StepPercent r - 1) (StepPercent r) ltac:(lia)).
    pose proof (Z.mod_pos_bound (100 - Percent r + StepPercent r - 1) (StepPercent r) ltac:(lia)). nia.
Qed.

(** A stored rollout starts at its percentage, only ever widens, and covers the
    whole group exactly from the moment [FullAt] names - never, if it names
    none; no step of the arithmetic panics or wraps, and a device once reached
    stays reached. *)
Theorem phased_rollout_widens r since :
  stored_rollout r -> 0 < since ->
  exists reach : time -> Z,
    (forall now, Current r since now = Some (reach now))
    /\ (forall now, now <= since -> reach now = if Phased r then Percent r else 100)
    /\ (forall n1 n2, n1 <= n2 -> reach n1 <= reach n2 <= 100)
    /\ (forall now, Phased r = true -> reach now = 100 <-> FullAt r since <> 0 /\ FullAt r since <= now)
    /\ (forall uuid_bytes i d n1 n2, n1 <= n2 ->
          RolloutAdmits uuid_bytes i d (reach n1) = true -> RolloutAdmits uuid_bytes i d (reach n2) = true).
Proof.
  intros Hr H0.
  exists (fun now => if negb (Phased r) then 100 else
    if (0 <? StepPercent r) && (0 <? StepHours r) && (since <? now)
    then Z.min (Percent r + steps_between r since now * StepPercent r) 100 else Percent r).
  destruct (Phased r) eqn:Hp; simpl; cycle 1.
  { split; [|split; [|split; [|split]]]; try done. intros now. unfold Current. by rewrite Hp. }
  assert (0 < Percent r < 100) by (unfold Phased in Hp; bools; lia).
  assert (Hmono : forall n1 n2, n1 <= n2 ->
    (if (0 <? StepPercent r) && (0 <? StepHours r) && (since <? n1)
     then Z.min (Percent r + steps_between r since n1 * StepPercent r) 100 else Percent r)
    <= (if (0 <? StepPercent r) && (0 <? StepHours r) && (since <? n2)
     then Z.min (Percent r + steps_between r since n2 * StepPercent r) 100 else Percent r) <= 100).
  { intros n1 n2 Hle. destruct (0 <? StepPercent r) eqn:E1, (0 <? StepHours r) eqn:E2; simpl; try lia. bools.
    destruct (Z.ltb_spec since n1), (Z.ltb_spec since n2); try lia.
    - pose proof (steps_mono r since n1 n2 ltac:(done) ltac:(done) Hle). nia.
    - pose proof (steps_bounds r since n2 Hr ltac:(done) ltac:(done)). nia. }
  split; [|split; [|split; [done|split]]].
  - intros now. by apply Current_steps.
  - intros now Hn. rewrite (proj2 (Z.ltb_ge since now)) by done. by rewrite andb_false_r.
  - intros now _. destruct Hr as [? Hs Hh].
    destruct (Z.ltb_spec 0 (StepPercent r)) as [S1|S1], (Z.ltb_spec 0 (StepHours r)) as [S2|S2]; simpl.
    + destruct (FullAt_steps r since) as [-> Hk]; [by split|done..|].
      assert (0 < StepHours r * Hour) by (unfold Hour, Minute, Second; lia).
      destruct (Z.ltb_spec since now) as [Hn|Hn]; [|split; [lia|nia]].
      rewrite <- steps_reach by lia. rewrite <- enough_steps by done. split; [split; [nia|lia]|lia].
    + unfold FullAt. rewrite Hp. simpl. rewrite (proj2 (Z.leb_le (StepHours r) 0)), orb_true_r by lia. lia.
    + unfold FullAt. rewrite Hp. simpl. rewrite (proj2 (Z.leb_le (StepPercent r) 0)) by lia. simpl. lia.
    + unfold FullAt. rewrite Hp. simpl. rewrite (proj2 (Z.leb_le (StepPercent r) 0)) by lia. simpl. lia.
  - intros u i d n1 n2 Hle. apply RolloutAdmits_mono. apply (Hmono n1 n2 Hle).
Qed.

Lemma phased_rollout_widens_witness :
  exists reach, (forall now, Current (mkRollout 10 20 24) 1000 now = Some (reach now)) /\ reach 1000 = 10
    /\ reach (1000 + 120 * Hour) = 100.
Proof.
  destruct (phased_rollout_widens (mkRollout 10 20 24) 1000) as (reach & HC & H1 & _ & H4 & _);
    [by split; simpl; lia | lia |].
  exists reach. split; [done|]. split; [by apply H1|].
  apply H4; [done|]. split; [by vm_compute | by vm_compute].
Defined.
