(* ===== verification/Update.v ===== *)
(** * Deciding on a self-update

    [internal/agent/selfupdate/decide.go], the record of [record.go] and the
    version rule of [syncer.go]: pure functions of the running version, the
    assigned one and the record of the last attempt. *)
From S2P Require Export GoString Options.
Open Scope go_scope.

(** ** The record of an attempt *)

Definition StatusPending : string := "pending".
Definition StatusSucceeded : string := "succeeded".
Definition StatusRolledBack : string := "rolled_back".
Definition StatusRefused : string := "refused".

Record UpdateRecord := mkRecord {
  r_ItemID : string;
  r_FromVersion : string;
  r_FromBinPath : string;
  r_FromArgs : list string;
  r_ToVersion : string;
  r_ToBinPath : string;
  r_StartedAt : time;
  r_Deadline : time;
  r_Status : string;
  r_Detail : string;
  r_Reported : bool }.

(** The zero [Record], which [ReadRecord] returns when there is none. *)
Definition zero_record : UpdateRecord :=
  mkRecord EmptyString EmptyString EmptyString [] EmptyString EmptyString 0 0 EmptyString EmptyString false.

Definition with_status (rec : UpdateRecord) (status : string) : UpdateRecord :=
  mkRecord (r_ItemID rec) (r_FromVersion rec) (r_FromBinPath rec) (r_FromArgs rec) (r_ToVersion rec)
    (r_ToBinPath rec) (r_StartedAt rec) (r_Deadline rec) status (r_Detail rec) (r_Reported rec).

Definition with_detail (rec : UpdateRecord) (detail : string) : UpdateRecord :=
  mkRecord (r_ItemID rec) (r_FromVersion rec) (r_FromBinPath rec) (r_FromArgs rec) (r_ToVersion rec)
    (r_ToBinPath rec) (r_StartedAt rec) (r_Deadline rec) (r_Status rec) detail (r_Reported rec).

Definition with_reported (rec : UpdateRecord) (reported : bool) : UpdateRecord :=
  mkRecord (r_ItemID rec) (r_FromVersion rec) (r_FromBinPath rec) (r_FromArgs rec) (r_ToVersion rec)
    (r_ToBinPath rec) (r_StartedAt rec) (r_Deadline rec) (r_Status rec) (r_Detail rec) reported.

(** ** Decide *)

Inductive Action := ActionNone | ActionUpdate.

Record Decision := mkDecision { d_Action : Action; d_Reason : string; d_Report : bool }.

Definition refuse (reason : string) (report : bool) : Decision := mkDecision ActionNone reason report.

(** What an earlier attempt at the assigned version says; nothing, unless it
    was rolled back or is under way. *)
Definition earlier_attempt (attempted : UpdateRecord) (assigned : string) : option Decision :=
  if String.eqb (r_ToVersion attempted) assigned then
    if String.eqb (r_Status attempted) StatusRolledBack
    then Some (refuse "this version was already tried here and rolled back" false)
    else if String.eqb (r_Status attempted) StatusPending
    then Some (refuse "an update to this version is already under way" false)
    else None
  else None.

Definition Decide (running assigned : string) (injected : bool) (trusted : Z) (attempted : UpdateRecord)
    : Decision :=
  if negb injected then refuse "this build has no injected version, so it will not self-update" true
  else if String.eqb assigned "" then refuse "the assigned build has no version" false
  else if String.eqb running assigned
  then refuse "this device is already running the assigned version" false
  else if trusted =? 0
  then refuse "this build has no trusted release keys, so it will not self-update" true
  else match earlier_attempt attempted assigned with
       | Some d => d
       | None => mkDecision ActionUpdate EmptyString false
       end.

Definition AlreadyRefused (rec : UpdateRecord) (found : bool) (itemID : string) : bool :=
  found && String.eqb (r_Status rec) StatusRefused && String.eqb (r_ItemID rec) itemID.

Inductive ReconcileAction := ReconcileNone | ReconcileReport | ReconcileAbandon.

Definition Reconcile (rec : UpdateRecord) (found : bool) (running : string) (now : time) : ReconcileAction :=
  if negb found then ReconcileNone
  else if String.eqb (r_Status rec) StatusRolledBack then
    if r_Reported rec then ReconcileNone else ReconcileReport
  else if String.eqb (r_Status rec) StatusPending then
    if String.eqb (r_ToVersion rec) running then ReconcileNone
    else if negb (Before now (r_Deadline rec)) then ReconcileAbandon
    else ReconcileNone
  else ReconcileNone.

(** ** Versions as folder names *)

Definition version_char (c : ascii) : bool :=
  is_upper c || is_lower c || is_digit c || bool_decide (c ∈ ["."; "_"; "+"; "-"]%char).

(** [^[A-Za-z0-9._+-]{1,64}$], and neither [.] nor [..]. *)
Definition validVersion (v : string) : bool :=
  negb (String.eqb v ".") && negb (String.eqb v "..")
  && (sall version_char v && (1 <=? slen v) && (slen v <=? 64)).

(** ** Theorems *)

(** An agent replaces itself exactly when its build is stamped and has
    keys to trust, the assigned version is a different one, and that version
    is neither under way here nor already rolled back here. *)
Theorem decide_update_iff running assigned injected trusted attempted :
  d_Action (Decide running assigned injected trusted attempted) = ActionUpdate <->
  injected = true /\ assigned <> EmptyString /\ running <> assigned /\ trusted <> 0 /\
  (r_ToVersion attempted = assigned ->
   r_Status attempted <> StatusRolledBack /\ r_Status attempted <> StatusPending).
Proof.
  unfold Decide, earlier_attempt, refuse. destruct injected; simpl; [|naive_solver].
  destruct (String.eqb_spec assigned ""); simpl; [naive_solver|].
  destruct (String.eqb_spec running assigned); simpl; [naive_solver|].
  destruct (Z.eqb_spec trusted 0); simpl; [naive_solver|].
  destruct (String.eqb_spec (r_ToVersion attempted) assigned); simpl; [|naive_solver].
  destruct (String.eqb_spec (r_Status attempted) StatusRolledBack); simpl; [naive_solver|].
  destruct (String.eqb_spec (r_Status attempted) StatusPending); simpl; naive_solver.
Qed.

(** A starting agent reports a rollback only the first time, gives up a
    pending attempt only when it is not that attempt's build and the deadline
    has passed, and leaves every other record alone. *)
Theorem reconcile_spec rec found running now :
  match Reconcile rec found running now with
  | ReconcileReport => found = true /\ r_Status rec = StatusRolledBack /\ r_Reported rec = false
  | ReconcileAbandon =>
      found = true /\ r_Status rec = StatusPending /\ r_ToVersion rec <> running /\ r_Deadline rec <= now
  | ReconcileNone =>
      found = false \/ (r_Status rec = StatusRolledBack /\ r_Reported rec = true) \/
      (r_Status rec = StatusPending /\ (r_ToVersion rec = running \/ now < r_Deadline rec)) \/
      (r_Status rec <> StatusRolledBack /\ r_Status rec <> StatusPending)
  end.
Proof.
  unfold Reconcile, Before. destruct found; simpl; [|by left].
  destruct (String.eqb_spec (r_Status rec) StatusRolledBack).
  { destruct (r_Reported rec) eqn:?; [right; left | split_and!]; done. }
  destruct (String.eqb_spec (r_Status rec) StatusPending); [|right; right; right; done].
  destruct (String.eqb_spec (r_ToVersion rec) running); [right; right; left; by split; [|left]|].
  destruct (Z.ltb_spec now (r_Deadline rec)); simpl; [right; right; left; by split; [|right]|done].
Qed.

Lemma version_char_not_slash c : version_char c = true -> negb (Ascii.eqb c "/") && negb (Ascii.eqb c "\") = true.
Proof. by destruct (Ascii.eqb_spec c "/") as [->|]; [|destruct (Ascii.eqb_spec c "\") as [->|]]. Qed.

Lemma validVersion_plain v : validVersion v = true -> plain_name v.
Proof.
  unfold validVersion. intros H. bools. split_and!; [| |done|done].
  - apply sany_sall. eapply sall_impl; [|eassumption]. intros c Hc%version_char_not_slash. by bools; apply negb_true_iff.
  - by intros ->.
Qed.

(** A version that passes the agent's own check names a folder of [bin]
    and nothing else: the path a build is staged under is the data directory,
    [bin] and the version, whatever the server sent. *)
Theorem staged_under_bin dir v :
  HasPrefix dir "/" = true -> Clean dir = dir -> dir <> slash -> validVersion v = true ->
  JoinPath [dir; "bin"%string; v] = (dir ++ "/bin/" ++ v)%string /\
  sany (fun c => Ascii.eqb c "/" || Ascii.eqb c "\") v = false.
Proof.
  intros Hd Hc Hr Hv. split.
  - change ("/bin/" ++ v)%string with ("/" ++ "bin" ++ "/" ++ v)%string.
    apply JoinPath_two; [done..| | by apply validVersion_plain]. by split_and!.
  - unfold validVersion in Hv. bools. apply sany_sall. eapply sall_impl; [|eassumption].
    intros c Hch%version_char_not_slash. by rewrite negb_orb.
Qed.

Lemma staged_under_bin_witness :
  HasPrefix "/var/lib/retune" "/" = true /\ validVersion "1.2.3-rc.1" = true /\
  validVersion "../../etc" = false /\ validVersion ".." = false /\
  JoinPath ["/var/lib/retune"; "bin"; "1.2.3-rc.1"]%string = "/var/lib/retune/bin/1.2.3-rc.1"%string.
Proof.
  split; [reflexivity|]. split; [reflexivity|]. split; [reflexivity|]. split; [reflexivity|].
  refine (proj1 (staged_under_bin "/var/lib/retune" "1.2.3-rc.1" eq_refl _ _ eq_refl)).
  - vm_compute. reflexivity.
  - discriminate.
Defined.
