(* ===== verification/Service.v ===== *)
(** * The service controller

    [internal/agent/selfupdate/controller.go]: the interface through which an
    update drives the service manager, as a class over the state [W] of the
    machine, and what its comments promise, as laws. Errors are their messages.
    A context is not state: a [Stop] that times out is one that returns an
    error. *)
From S2P Require Export GoString.

(** Effects on a machine state [W]. *)
Definition M (W A : Type) : Type := W -> A * W.

(** A Go [error]: absent, or its message. *)
Definition gerror : Type := option string.

Class ServiceController (W : Type) := {
  Config : M W (result string (string * list string));
  SetBinPath : string -> list string -> M W gerror;
  SetRecoveryActions : M W gerror;
  Stop : M W gerror;
  Start : M W gerror
}.

(** [wired w] is the command line the service manager will run, and [active w]
    whether the service runs it now. [expressible] are the command lines the
    manager can hold. *)
Class ServiceLaws (W : Type) `{ServiceController W} := {
  wired : W -> option (string * list string);
  active : W -> bool;
  expressible : string -> list string -> Prop;
  Config_wired w r w' :
    Config w = (r, w') -> wired w' = wired w /\ forall c, r = Ok c -> wired w = Some c;
  SetBinPath_ok bin args w w' :
    expressible bin args -> SetBinPath bin args w = (None, w') -> wired w' = Some (bin, args);
  SetBinPath_error bin args w e w' :
    expressible bin args -> SetBinPath bin args w = (Some e, w') ->
    wired w' = wired w \/ wired w' = Some (bin, args);
  SetRecoveryActions_wired w r w' : SetRecoveryActions w = (r, w') -> wired w' = wired w;
  Stop_wired w r w' : Stop w = (r, w') -> wired w' = wired w;
  Start_wired w r w' : Start w = (r, w') -> wired w' = wired w;
  Start_active w w' : Start w = (None, w') -> active w' = true
}.
