(* ===== verification/Systemd.v ===== *)
(** * The systemd service controller

    [internal/agent/selfupdate/systemd.go]: the unit is repointed with a drop-in
    file that resets [ExecStart]. The state holds that file, what systemd has
    loaded, whether the unit is active, and the outcomes of the coming file and
    [systemctl] operations, [None] for success. *)
From S2P Require Export Service.
Open Scope go_scope.

(** ** Quoting *)

Definition Quote : string := String DQuote EmptyString.

(** The characters [systemdQuote] has to quote. *)
Definition special (c : ascii) : bool :=
  bool_decide (c ∈ [" "; "009"; DQuote; "'"; "\"; "$"; "%"; ";"]%char).

(** [strings.NewReplacer] over single bytes. *)
Definition escape_char (c : ascii) : string :=
  if Ascii.eqb c "\" then "\\"
  else if Ascii.eqb c DQuote then String "\" Quote
  else if Ascii.eqb c "$" then "$$"
  else if Ascii.eqb c "%" then "%%"
  else String c EmptyString.

Fixpoint escape (s : string) : string :=
  match s with EmptyString => EmptyString | String c r => (escape_char c ++ escape r)%string end.

Definition systemdQuote (s : string) : string :=
  if negb (String.eqb s "") && negb (sany special s) then s
  else (Quote ++ escape s ++ Quote)%string.

Fixpoint split_go (s cur : string) (inWord quoted : bool) (words : list string)
    : result string (list string) :=
  match s with
  | EmptyString =>
      if quoted then Err "an unterminated quote"%string
      else Ok (if inWord then words ++ [cur] else words)
  | String ch r =>
      let write c := (cur ++ String c EmptyString)%string in
      if quoted then
        match r with
        | String d r' =>
            if Ascii.eqb ch "\" then split_go r' (write d) inWord true words
            else if Ascii.eqb ch DQuote then split_go r cur inWord false words
            else if (Ascii.eqb ch "$" || Ascii.eqb ch "%") && Ascii.eqb d ch
            then split_go r' (write ch) inWord true words
            else split_go r (write ch) inWord true words
        | EmptyString =>
            if Ascii.eqb ch DQuote then split_go r cur inWord false words
            else split_go r (write ch) inWord true words
        end
      else if Ascii.eqb ch DQuote then split_go r cur true true words
      else if Ascii.eqb ch " " || Ascii.eqb ch "009" then
        if inWord then split_go r EmptyString false false (words ++ [cur])
        else split_go r cur inWord false words
      else split_go r (write ch) true false words
  end.

Definition systemdSplit (s : string) : result string (list string) := split_go s EmptyString false false [].

(** ** Reading unit files *)

(** [strings.Cut]. *)
Fixpoint Cut (s sep : string) : option (string * string) :=
  match CutPrefix sep s with
  | Some r => Some (EmptyString, r)
  | None => match s with
            | EmptyString => None
            | String c r => match Cut r sep with Some (a, b) => Some (String c a, b) | None => None end
            end
  end.

(** [strings.Fields]. *)
Fixpoint fields_go (fuel : nat) (s cur : string) : list string :=
  let flush rest := if String.eqb cur "" then rest else cur :: rest in
  match fuel with
  | O => flush []
  | S f =>
      match first_cut space_encodings s with
      | Some r => flush (fields_go f r EmptyString)
      | None => match s with
                | EmptyString => flush []
                | String c r => fields_go f r (cur ++ String c EmptyString)%string
                end
      end
  end.
Definition Fields (s : string) : list string := fields_go (String.length s) s EmptyString.

Definition parseShowExecStart (out : string) : result string (list string) :=
  match Cut out "argv[]=" with
  | None => Err "no ExecStart command line"%string
  | Some (_, rest) =>
      let line := match Cut rest " ;" with Some (a, _) => a | None => rest end in
      match Fields line with
      | [] => Err "an empty ExecStart"%string
      | argv => Ok argv
      end
  end.

(** The longest line [bufio.Scanner] reads; it stops at a longer one. *)
Definition MaxScanTokenSize : Z := 65536.

Fixpoint scan_lines (lines : list string) (argv : list string) : result string (list string) :=
  match lines with
  | [] => Ok argv
  | l :: rest =>
      if slen l >=? MaxScanTokenSize then Ok argv else
      match CutPrefix "ExecStart=" (TrimSpace l) with
      | None => scan_lines rest argv
      | Some v => if String.eqb (TrimSpace v) "" then scan_lines rest argv
                  else let! words := systemdSplit v in scan_lines rest words
      end
  end.

Definition lastExecStart (unit_text : string) : result string (list string) :=
  let! argv := scan_lines (Split "010" unit_text) [] in
  match argv with [] => Err "no ExecStart command line"%string | _ => Ok argv end.

(** ** The controller *)

Record systemd := mkSystemd {
  sd_dropin : option string;         (* the drop-in self-update owns *)
  sd_loaded : option string;         (* the drop-in systemd last loaded *)
  sd_show : string;                  (* systemctl show, for the unit itself *)
  sd_active : bool;
  sd_outcomes : list gerror }.

Definition op (w : systemd) : gerror * systemd :=
  match sd_outcomes w with
  | [] => (None, w)
  | e :: r => (e, mkSystemd (sd_dropin w) (sd_loaded w) (sd_show w) (sd_active w) r)
  end.

Definition set_dropin (text : string) (w : systemd) : systemd :=
  mkSystemd (Some text) (sd_loaded w) (sd_show w) (sd_active w) (sd_outcomes w).
Definition reload (w : systemd) : systemd :=
  mkSystemd (sd_dropin w) (sd_dropin w) (sd_show w) (sd_active w) (sd_outcomes w).
Definition set_active (b : bool) (w : systemd) : systemd :=
  mkSystemd (sd_dropin w) (sd_loaded w) (sd_show w) b (sd_outcomes w).

Definition as_command (r : result string (list string)) : result string (string * list string) :=
  match r with
  | Err e => Err e
  | Ok [] => Err EmptyString
  | Ok (bin :: args) => Ok (bin, args)
  end.

Definition dropin_text (argv : list string) : string :=
  ("# Written by the Retune agent's self-update. Delete this file to run the" ++ newline
   ++ "# binary the unit itself names again." ++ newline
   ++ "[Service]" ++ newline ++ "ExecStart=" ++ newline ++ "ExecStart="
   ++ Join " " (map systemdQuote argv) ++ newline)%string.

Definition sd_Config : M systemd (result string (string * list string)) := fun w =>
  let '(e, w) := op w in
  match e with
  | Some m => (Err m, w)
  | None =>
      match sd_dropin w with
      | Some text => (as_command (lastExecStart text), w)
      | None =>
          let '(e, w) := op w in
          match e with
          | Some m => (Err m, w)
          | None => (as_command (parseShowExecStart (sd_show w)), w)
          end
      end
  end.

(** Directory, temporary file, rename and reload; a failed rename leaves the
    drop-in as it was. *)
Definition sd_SetBinPath (binPath : string) (args : list string) : M systemd gerror := fun w =>
  let '(e, w) := op w in
  match e with Some _ => (e, w) | None =>
  let '(e, w) := op w in
  match e with Some _ => (e, w) | None =>
  let '(e, w) := op w in
  match e with Some _ => (e, w) | None =>
  let w := set_dropin (dropin_text (binPath :: args)) w in
  let '(e, w) := op w in
  match e with Some _ => (e, w) | None => (None, reload w) end end end end.

Definition sd_Stop : M systemd gerror := fun w =>
  let '(e, w) := op w in match e with Some _ => (e, w) | None => (None, set_active false w) end.
Definition sd_Start : M systemd gerror := fun w =>
  let '(e, w) := op w in match e with Some _ => (e, w) | None => (None, set_active true w) end.

#[export] Instance SystemdController : ServiceController systemd := {|
  Config := sd_Config;
  SetBinPath := sd_SetBinPath;
  SetRecoveryActions := fun w => (None, w);
  Stop := sd_Stop;
  Start := sd_Start
|}.

(** ** Theorems *)

Lemma special_spec c :
  special c = false ->
  Ascii.eqb c DQuote = false /\ Ascii.eqb c " " = false /\ Ascii.eqb c "009" = false /\ Ascii.eqb c "\" = false.
Proof.
  intros Hc. split_and!; apply Ascii.eqb_neq; intros ->; by vm_compute in Hc.
Qed.

Lemma split_bare_char c r cur inWord words :
  special c = false ->
  split_go (String c r) cur inWord false words = split_go r (cur ++ String c EmptyString)%string true false words.
Proof. intros (H0 & H1 & H2 & _)%special_spec. cbn [split_go]. by rewrite H0, H1, H2. Qed.

Lemma split_bare a rest cur words :
  sany special a = false ->
  split_go (a ++ rest)%string cur true false words = split_go rest (cur ++ a)%string true false words.
Proof.
  revert cur; induction a as [|c a IH]; intros cur Hs; [by rewrite sapp_nil_l, sapp_nil_r|].
  simpl in Hs. apply orb_false_iff in Hs as [Hc Hs].
  rewrite String_app, split_bare_char, IH by done. by rewrite sapp_assoc.
Qed.

(** Inside quotes, an escaped text is read back up to the closing quote. *)
Lemma split_quoted a rest cur words :
  split_go (escape a ++ String DQuote rest)%string cur true true words
  = split_go rest (cur ++ a)%string true false words.
Proof.
  revert cur; induction a as [|c a IH]; intros cur.
  - rewrite sapp_nil_r, sapp_nil_l. destruct rest; reflexivity.
  - cbn [escape]. rewrite sapp_assoc.
    replace (cur ++ String c a)%string with ((cur ++ String c EmptyString) ++ a)%string
      by (by rewrite sapp_assoc).
    rewrite <- IH. unfold escape_char.
    destruct (Ascii.eqb_spec c "\") as [->|H1]; [reflexivity|].
    destruct (Ascii.eqb_spec c DQuote) as [->|H2]; [reflexivity|].
    destruct (Ascii.eqb_spec c "$") as [->|H3]; [reflexivity|].
    destruct (Ascii.eqb_spec c "%") as [->|H4]; [reflexivity|].
    apply Ascii.eqb_neq in H1, H2, H3, H4. rewrite String_app, sapp_nil_l.
    assert (exists d r, (escape a ++ String DQuote rest)%string = String d r) as (d & r & ->).
    { destruct (escape a); eauto. }
    cbn [split_go]. by rewrite H1, H2, H3, H4.
Qed.

(** One quoted argument is read back, whatever it holds. *)
Lemma split_one a rest words :
  split_go (systemdQuote a ++ rest)%string EmptyString false false words
  = split_go rest a true false words.
Proof.
  unfold systemdQuote. destruct (String.eqb_spec a "") as [->|Hne].
  { destruct rest; reflexivity. }
  destruct (sany special a) eqn:Hs; simpl.
  - unfold Quote. rewrite !sapp_assoc, String_app, sapp_nil_l.
    change (String DQuote "" ++ rest)%string with (String DQuote rest).
    etrans; [|apply (split_quoted a rest EmptyString)]. destruct (escape a); reflexivity.
  - destruct a as [|c a]; [done|]. simpl in Hs. apply orb_false_iff in Hs as [Hc Hs].
    rewrite String_app, split_bare_char by done. by rewrite split_bare.
Qed.

Lemma split_words argv words :
  split_go (Join " " (map systemdQuote argv)) EmptyString false false words = Ok (words ++ argv).
Proof.
  revert words; induction argv as [|a argv IH]; intros words; [by rewrite app_nil_r|].
  destruct argv as [|b argv].
  - simpl Join. rewrite <- (sapp_nil_r (systemdQuote a)), split_one. done.
  - change (map systemdQuote (a :: b :: argv)) with (systemdQuote a :: map systemdQuote (b :: argv)).
    rewrite Join_cons by done. rewrite split_one.
    change (" " ++ ?x)%string with (String " " x). cbn [split_go]. simpl Ascii.eqb. cbv iota.
    rewrite IH. by rewrite <- app_assoc.
Qed.

Lemma systemdSplit_words argv : systemdSplit (Join " " (map systemdQuote argv)) = Ok argv.
Proof. unfold systemdSplit. by rewrite split_words. Qed.

(** *** The drop-in *)

(** An argument of printable ASCII characters and spaces. *)
Definition ok_arg (a : string) : bool := sall (fun c => plain c || Ascii.eqb c " ") a.

Definition no_LF (s : string) : bool := negb (sany (fun c => Ascii.eqb c LF) s).

Lemma no_LF_app a b : no_LF (a ++ b)%string = no_LF a && no_LF b.
Proof. unfold no_LF. by rewrite sany_app, negb_orb. Qed.

Lemma ok_char_no_LF c : plain c || Ascii.eqb c " " = true -> Ascii.eqb c LF = false.
Proof. intros H. apply Ascii.eqb_neq. intros ->. by vm_compute in H. Qed.

Lemma ok_arg_no_LF a : ok_arg a = true -> no_LF a = true.
Proof.
  unfold no_LF. intros H. apply negb_true_iff, sany_sall. eapply sall_impl; [|exact H].
  intros c Hc%ok_char_no_LF. by rewrite Hc.
Qed.

Lemma escape_no_LF a : no_LF a = true -> no_LF (escape a) = true.
Proof.
  induction a as [|c a IH]; [done|]. unfold no_LF at 1. simpl sany. intros H. bools. cbn [escape].
  rewrite no_LF_app. apply andb_true_iff. split; [|apply IH; unfold no_LF; by apply negb_true_iff].
  unfold escape_char. split_ifs; try done. unfold no_LF. simpl. by rewrite H.
Qed.

(** A quoted argument starts and ends with a printable character, on one line. *)
Lemma systemdQuote_shape a :
  ok_arg a = true ->
  headp (systemdQuote a) = true /\ headp (srev (systemdQuote a)) = true /\ no_LF (systemdQuote a) = true.
Proof.
  intros Ha. unfold systemdQuote. destruct (String.eqb_spec a "") as [->|Hne]; [done|].
  destruct (sany special a) eqn:Hs; simpl.
  - split_and!; [done | |].
    + rewrite !srev_app. by apply headp_app.
    + rewrite !no_LF_app, escape_no_LF by (by apply ok_arg_no_LF). done.
  - assert (forall s, s <> EmptyString -> ok_arg s = true -> sany special s = false -> headp s = true) as Hh.
    { intros [|c s]; [done|]. intros _ Hok Hsp. unfold ok_arg in Hok. simpl in Hok, Hsp. bools. simpl.
      destruct (plain c); [done|]. simpl in *. apply Ascii.eqb_eq in H as ->. by vm_compute in H1. }
    split_and!; [by apply Hh | | by apply ok_arg_no_LF].
    apply Hh.
    + intros E. apply Hne. by rewrite <- (srev_involutive a), E.
    + unfold ok_arg. by rewrite sall_srev.
    + apply sany_sall. rewrite sall_srev. by apply sany_sall.
Qed.

Lemma command_line_shape argv :
  argv <> [] -> Forall (fun a => ok_arg a = true) argv ->
  let line := Join " " (map systemdQuote argv) in
  headp line = true /\ headp (srev line) = true /\ no_LF line = true.
Proof.
  intros Hne Hok. induction Hok as [|a argv Ha Hok IH]; [done|]. cbv zeta.
  destruct (systemdQuote_shape a Ha) as (H1 & H2 & H3).
  destruct argv as [|b argv]; [done|].
  change (map systemdQuote (a :: b :: argv)) with (systemdQuote a :: map systemdQuote (b :: argv)).
  rewrite Join_cons by done. destruct IH as (H4 & H5 & H6); [done|]. split_and!.
  - by apply headp_app.
  - by apply headp_srev_app, headp_srev_app.
  - by rewrite !no_LF_app, H3, H6.
Qed.

(** A line that is not an [ExecStart] with a value is skipped. *)
Definition skips (l : string) : bool :=
  (slen l <? MaxScanTokenSize) &&
  match CutPrefix "ExecStart=" (TrimSpace l) with
  | None => true
  | Some v => String.eqb (TrimSpace v) ""
  end.

Lemma scan_skips l rest argv : skips l = true -> scan_lines (l :: rest) argv = scan_lines rest argv.
Proof.
  unfold skips. intros [Hl Hv]%andb_true_iff. bools. cbn [scan_lines].
  destruct (Z.geb_spec (slen l) MaxScanTokenSize); [lia|].
  destruct (CutPrefix "ExecStart=" (TrimSpace l)); [by rewrite Hv | done].
Qed.

(** The command line [SetBinPath] writes is the one [Config] reads. *)
Lemma lastExecStart_dropin argv :
  argv <> [] -> Forall (fun a => ok_arg a = true) argv ->
  slen ("ExecStart=" ++ Join " " (map systemdQuote argv)) < MaxScanTokenSize ->
  lastExecStart (dropin_text argv) = Ok argv.
Proof.
  intros Hne Hok Hlen. destruct (command_line_shape argv Hne Hok) as (H1 & H2 & H3).
  set (line := Join " " (map systemdQuote argv)) in *.
  assert (Split LF (dropin_text argv) =
    ["# Written by the Retune agent's self-update. Delete this file to run the";
     "# binary the unit itself names again."; "[Service]"; "ExecStart="; "ExecStart=" ++ line; ""]%string) as Hsplit.
  { unfold dropin_text, newline. fold line.
    repeat (change (String LF "" ++ ?x)%string with (String LF x); rewrite Split_app_gen).
    rewrite <- sapp_assoc. rewrite (Split_app_gen LF _ EmptyString).
    rewrite (Split_none LF ("ExecStart=" ++ line)%string); [reflexivity|].
    rewrite sany_app. unfold no_LF in H3. apply negb_true_iff in H3. by rewrite H3. }
  unfold lastExecStart. change "010"%char with LF. rewrite Hsplit.
  do 4 (rewrite scan_skips by (vm_compute; reflexivity)). cbn [scan_lines].
  destruct (Z.geb_spec (slen ("ExecStart=" ++ line)%string) MaxScanTokenSize); [lia|].
  rewrite TrimSpace_edges by (done || by apply headp_srev_app). rewrite CutPrefix_app.
  rewrite (TrimSpace_edges line) by done.
  destruct (String.eqb_spec line "") as [E|_]; [by rewrite E in H1|].
  unfold line. rewrite systemdSplit_words. simpl. by destruct argv.
Qed.

(** Whatever arguments a service is repointed with, empty ones, spaces,
    quotes, backslashes, dollars and percents included, reading the quoted
    command line gives the same arguments back; and for a printable command
    line of less than 64 KiB, so does reading the whole drop-in. *)
Theorem systemd_argv_roundtrip argv :
  systemdSplit (Join " " (map systemdQuote argv)) = Ok argv /\
  (argv <> [] -> Forall (fun a => ok_arg a = true) argv ->
   slen ("ExecStart=" ++ Join " " (map systemdQuote argv)) < MaxScanTokenSize ->
   lastExecStart (dropin_text argv) = Ok argv).
Proof. split; [apply systemdSplit_words | apply lastExecStart_dropin]. Qed.

Lemma systemd_argv_roundtrip_witness :
  let argv := ["/opt/re tune/agent"; "run"; "--data-dir"; "C:\$x%"; ""]%string in
  lastExecStart (dropin_text argv) = Ok argv.
Proof.
  refine (proj2 (systemd_argv_roundtrip ["/opt/re tune/agent"; "run"; "--data-dir"; "C:\$x%"; ""]%string) _ _ _).
  - discriminate.
  - repeat constructor.
  - vm_compute. reflexivity.
Defined.

(** *** The controller's promises *)

Definition sd_wired (w : systemd) : option (string * list string) :=
  match as_command (match sd_dropin w with
                    | Some text => lastExecStart text
                    | None => parseShowExecStart (sd_show w)
                    end) with
  | Ok c => Some c
  | Err _ => None
  end.

Definition sd_expressible (bin : string) (args : list string) : Prop :=
  Forall (fun a => ok_arg a = true) (bin :: args) /\
  slen ("ExecStart=" ++ Join " " (map systemdQuote (bin :: args))) < MaxScanTokenSize.

Lemma op_state w e w' :
  op w = (e, w') ->
  sd_dropin w' = sd_dropin w /\ sd_show w' = sd_show w /\ sd_loaded w' = sd_loaded w.
Proof. unfold op. by destruct (sd_outcomes w); intros [= <- <-]. Qed.

Lemma sd_wired_same w w' :
  sd_dropin w' = sd_dropin w -> sd_show w' = sd_show w -> sd_wired w' = sd_wired w.
Proof. intros H1 H2. unfold sd_wired. by rewrite H1, H2. Qed.

Lemma op_wired w e w' : op w = (e, w') -> sd_wired w' = sd_wired w.
Proof. intros (H1 & H2 & _)%op_state. by apply sd_wired_same. Qed.

Lemma sd_wired_dropin bin args w :
  sd_expressible bin args -> sd_dropin w = Some (dropin_text (bin :: args)) -> sd_wired w = Some (bin, args).
Proof. intros [Hok Hlen] Hd. unfold sd_wired. by rewrite Hd, lastExecStart_dropin. Qed.

(** What [SetBinPath] leaves behind, whichever step fails. *)
Lemma sd_SetBinPath_wired bin args w e w' :
  sd_expressible bin args -> sd_SetBinPath bin args w = (e, w') ->
  sd_wired w' = Some (bin, args) \/ (is_Some e /\ sd_wired w' = sd_wired w).
Proof.
  intros Hx. unfold sd_SetBinPath.
  destruct (op w) as [[m|] w1] eqn:E1; apply op_wired in E1.
  { intros [= <- <-]. right. eauto. }
  destruct (op w1) as [[m|] w2] eqn:E2; apply op_wired in E2.
  { intros [= <- <-]. right. split; [eauto | congruence]. }
  destruct (op w2) as [[m|] w3] eqn:E3; apply op_wired in E3.
  { intros [= <- <-]. right. split; [eauto | congruence]. }
  destruct (op (set_dropin (dropin_text (bin :: args)) w3)) as [m w4] eqn:E4.
  apply op_state in E4 as (Hd & _).
  assert (sd_wired w4 = Some (bin, args)) as Hw by (by apply sd_wired_dropin).
  destruct m; intros [= <- <-]; left; done.
Qed.

#[export] Instance SystemdLaws : ServiceLaws systemd.
Proof.
  refine {| wired := sd_wired; active := sd_active; expressible := sd_expressible |}.
  - intros w r w'. simpl. unfold sd_Config. destruct (op w) as [[m|] w1] eqn:E1.
    { intros [= <- <-]. apply op_wired in E1. done. }
    pose proof (op_state _ _ _ E1) as (Hd & Hs & _). destruct (sd_dropin w1) as [text|] eqn:Ht.
    + intros [= <- <-]. split; [by eapply op_wired|]. intros c Hc. unfold sd_wired. by rewrite <- Hd, Hc.
    + destruct (op w1) as [[m|] w2] eqn:E2.
      * intros [= <- <-]. apply op_wired in E1, E2. split; [congruence|done].
      * pose proof (op_state _ _ _ E2) as (Hd2 & Hs2 & _). intros [= <- <-].
        apply op_wired in E1, E2. split; [congruence|]. intros c Hc. unfold sd_wired.
        by rewrite <- Hd, <- Hs, <- Hs2, Hc.
  - intros bin args w w' Hx H. apply sd_SetBinPath_wired in H; [|done]. by destruct H as [|[[] _]].
  - intros bin args w e w' Hx H. apply sd_SetBinPath_wired in H; [|done]. by destruct H as [|[_ ?]]; [right|left].
  - by intros w r w' [= <- <-].
  - intros w r w'. simpl. unfold sd_Stop. destruct (op w) as [[m|] w1] eqn:E; intros [= <- <-];
      apply op_wired in E; [done|]. rewrite <- E. by apply sd_wired_same.
  - intros w r w'. simpl. unfold sd_Start. destruct (op w) as [[m|] w1] eqn:E; intros [= <- <-];
      apply op_wired in E; [done|]. rewrite <- E. by apply sd_wired_same.
  - intros w w'. simpl. unfold sd_Start. destruct (op w) as [[m|] w1]; by intros [= <-].
Defined.
