(* ===== verification/Supervise.v ===== *)
(** * The update supervisor

    [internal/agent/selfupdate/supervise.go] with the file operations of
    [record.go]: the detached process that repoints the service at a new build
    and puts the previous one back if the new one never checks in.

    The world holds the service manager's state, the record file, the staged
    builds and the outcomes of the coming file operations ([None], or none left,
    is success). Between two polls anything may happen: a tick carries an
    arbitrary change to the world, the time and whether the supervisor was
    cancelled. *)
From S2P Require Export Update Service.
From S2P Require Import Systemd.
Open Scope go_scope.

(** ** The world *)

Inductive record_file :=
| NoFile
| BadFile (why : string)          (* not readable as JSON *)
| HasRecord (rec : UpdateRecord).

Record dir_entry := mkEntry { e_Name : string; e_IsDir : bool }.

Record world (W : Type) := mkWorld {
  svc : W;
  file : record_file;
  staged : list dir_entry;        (* the entries of the bin directory *)
  io : list gerror }.
Arguments mkWorld {W} svc file staged io.
Arguments svc {W} _. Arguments file {W} _. Arguments staged {W} _. Arguments io {W} _.

Section Files.
Context {W : Type}.
Implicit Types w : world W.

Definition set_file (f : record_file) w : world W := mkWorld (svc w) f (staged w) (io w).
Definition set_staged (s : list dir_entry) w : world W := mkWorld (svc w) (file w) s (io w).

(** The outcome of one file operation. *)
Definition file_op : M (world W) gerror := fun w =>
  match io w with
  | [] => (None, w)
  | e :: r => (e, mkWorld (svc w) (file w) (staged w) r)
  end.

(** [ReadRecord]: the record and whether there is one. *)
Definition ReadRecord : M (world W) (result string (UpdateRecord * bool)) := fun w =>
  let '(e, w) := file_op w in
  match e with
  | Some m => (Err m, w)
  | None => match file w with
            | NoFile => (Ok (zero_record, false), w)
            | BadFile m => (Err m, w)
            | HasRecord rec => (Ok (rec, true), w)
            end
  end.

(** [renameRetrying]: up to [attempts] renames, each refused while another
    process has the file open. *)
Fixpoint rename_retrying (attempts : nat) (rec : UpdateRecord) (last : gerror) : M (world W) gerror :=
  fun w => match attempts with
  | O => (last, w)
  | S n => let '(e, w) := file_op w in
           match e with
           | None => (None, set_file (HasRecord rec) w)
           | Some m => rename_retrying n rec (Some m) w
           end
  end.

Definition rename_attempts : nat := 40.

Definition WriteRecord (rec : UpdateRecord) : M (world W) gerror := fun w =>
  let '(e, w) := file_op w in
  match e with
  | Some m => (Some m, w)
  | None => rename_retrying rename_attempts rec None w
  end.

Definition RemoveRecord : M (world W) gerror := fun w =>
  let '(e, w) := file_op w in
  match e with Some m => (Some m, w) | None => (None, set_file NoFile w) end.
End Files.

(** ** The supervisor *)

Inductive sup_error :=
| ReadingRecord (e : string)
| StoppingService (e : string)
| RemovingSettled (e : string)
| RestoringAfterCancel (e : string)
| RemovingAfterCancel (e : string)
| Cancelled
| RestoringPrevious (e : string)
| RestoringAndRecording (e werr : string)
| WritingRollback (e : string).

(** [Waiting] is a supervisor still polling when the ticks given ran out. *)
Inductive sup_outcome := Waiting | Nil | Failed (e : sup_error).

Record tick (W : Type) := mkTick {
  t_env : world W -> world W;
  t_now : time;
  t_cancelled : bool }.
Arguments mkTick {W} t_env t_now t_cancelled.
Arguments t_env {W} _. Arguments t_now {W} _. Arguments t_cancelled {W} _.

Section Supervise.
Context {W : Type} `{ServiceController W}.
Implicit Types w : world W.

(** A call on the service controller. *)
Definition control {A} (f : M W A) : M (world W) A := fun w =>
  let '(a, s) := f (svc w) in (a, mkWorld s (file w) (staged w) (io w)).

Fixpoint remove_old (rec : UpdateRecord) (entries : list dir_entry) : M (world W) unit := fun w =>
  match entries with
  | [] => (tt, w)
  | e :: r =>
      if negb (e_IsDir e) || String.eqb (e_Name e) (r_ToVersion rec) || String.eqb (e_Name e) (r_FromVersion rec)
      then remove_old rec r w
      else
        let '(err, w) := file_op w in
        match err with
        | Some _ => remove_old rec r w
        | None => remove_old rec r
            (set_staged (List.filter (fun x => negb (String.eqb (e_Name x) (e_Name e))) (staged w)) w)
        end
  end.

Definition pruneOldBuilds (rec : UpdateRecord) : M (world W) unit := fun w =>
  let '(e, w) := file_op w in
  match e with Some _ => (tt, w) | None => remove_old rec (staged w) w end.

Definition stillOnNewBuild (rec : UpdateRecord) : M (world W) bool := fun w =>
  let '(r, w) := control Config w in
  match r with
  | Err _ => (false, w)
  | Ok (binPath, _) => (EqualFold (Clean binPath) (Clean (r_ToBinPath rec)), w)
  end.

Definition restoreBuild (rec : UpdateRecord) : M (world W) gerror := fun w =>
  let '(e, w) := control Stop w in
  match e with Some m => (Some ("stopping new build: " ++ m)%string, w) | None =>
  let '(e, w) := control (SetBinPath (r_FromBinPath rec) (r_FromArgs rec)) w in
  match e with Some m => (Some ("setting bin path back to previous build: " ++ m)%string, w) | None =>
  let '(e, w) := control Start w in
  match e with Some m => (Some ("starting previous build: " ++ m)%string, w) | None =>
  (None, w) end end end.

Definition rollback (rec : UpdateRecord) (detail : string) : M (world W) sup_outcome := fun w =>
  let rolled := with_status rec StatusRolledBack in
  let '(e, w) := restoreBuild rec w in
  match e with
  | Some m =>
      let rolled := with_detail rolled
        (detail ++ "; restoring the previous build also failed: " ++ m)%string in
      let '(still, w) := stillOnNewBuild rec w in
      let rolled :=
        if still then with_detail (with_status rolled StatusPending)
          (detail ++ "; restoring the previous build failed: " ++ m
           ++ "; the service is still wired to the new build")%string
        else rolled in
      let '(werr, w) := WriteRecord rolled w in
      match werr with
      | Some we => (Failed (RestoringAndRecording m we), w)
      | None => (Failed (RestoringPrevious m), w)
      end
  | None =>
      let rolled := with_detail rolled detail in
      let '(werr, w) := WriteRecord rolled w in
      match werr with
      | Some we => (Failed (WritingRollback we), w)
      | None => (Nil, w)
      end
  end.

(** Step 6: poll the record for proof of life. *)
Fixpoint poll_loop (rec : UpdateRecord) (ticks : list (tick W)) : M (world W) sup_outcome := fun w =>
  match ticks with
  | [] => (Waiting, w)
  | tk :: rest =>
      let '(r, w) := ReadRecord (t_env tk w) in
      let succeeded :=
        match r with
        | Ok (cur, found) => found && String.eqb (r_Status cur) StatusSucceeded
        | Err _ => false
        end in
      if succeeded then
        let '(e, w) := RemoveRecord w in
        match e with
        | Some m => (Failed (RemovingSettled m), w)
        | None => let '(_, w) := pruneOldBuilds rec w in (Nil, w)
        end
      else if negb (Before (t_now tk) (r_Deadline rec))
      then rollback rec "the new build never checked in before the deadline" w
      else if t_cancelled tk then
        let '(e, w) := restoreBuild rec w in
        match e with
        | Some m => (Failed (RestoringAfterCancel m), w)
        | None =>
            let '(e, w) := RemoveRecord w in
            match e with
            | Some m => (Failed (RemovingAfterCancel m), w)
            | None => (Failed Cancelled, w)
            end
        end
      else poll_loop rec rest w
  end.

Definition Supervise (ticks : list (tick W)) : M (world W) sup_outcome := fun w =>
  let '(r, w) := ReadRecord w in
  match r with
  | Err m => (Failed (ReadingRecord m), w)
  | Ok (rec, found) =>
      if negb found || negb (String.eqb (r_Status rec) StatusPending) then (Nil, w) else
      let '(e, w) := control Stop w in
      match e with
      | Some m =>
          let rolled := with_detail (with_status rec StatusRolledBack)
            ("the service would not stop: " ++ m)%string in
          let '(_, w) := WriteRecord rolled w in
          (Failed (StoppingService m), w)
      | None =>
          let '(e, w) := control (SetBinPath (r_ToBinPath rec) (r_FromArgs rec)) w in
          match e with
          | Some m => rollback rec ("repointing the service at the new build failed: " ++ m)%string w
          | None =>
              let '(e, w) := control SetRecoveryActions w in
              match e with
              | Some m => rollback rec ("setting recovery actions failed: " ++ m)%string w
              | None =>
                  let '(e, w) := control Start w in
                  match e with
                  | Some m => rollback rec ("starting the new build failed: " ++ m)%string w
                  | None => poll_loop rec ticks w
                  end
              end
          end
      end
  end.
End Supervise.

(** ** Theorems *)

(** *** File operations *)

Section FileLemmas.
Context {W : Type}.
Implicit Types w : world W.

(** [w'] differs from [w] only in its record file and coming outcomes. *)
Definition only_file w w' : Prop := svc w' = svc w /\ staged w' = staged w.

(** No file operation will fail. *)
Definition quiet w : Prop := Forall (fun e => e = None) (io w).

Lemma file_op_spec w e w' :
  file_op w = (e, w') ->
  svc w' = svc w /\ file w' = file w /\ staged w' = staged w /\ (quiet w -> e = None /\ quiet w').
Proof.
  unfold file_op, quiet. destruct (io w) as [|e0 r] eqn:E; intros [= <- <-]; simpl.
  - rewrite E. auto.
  - split_and!; try done. intros Hq. by inversion Hq.
Qed.

Lemma ReadRecord_spec w r w' :
  ReadRecord w = (r, w') ->
  svc w' = svc w /\ file w' = file w /\ staged w' = staged w /\ (quiet w -> quiet w') /\
  (forall rec b, r = Ok (rec, b) -> file w = if b : bool then HasRecord rec else NoFile) /\
  (quiet w -> forall rec, file w = HasRecord rec -> r = Ok (rec, true)).
Proof.
  unfold ReadRecord. destruct (file_op w) as [e w1] eqn:E. apply file_op_spec in E as (H1 & H2 & H3 & H4).
  destruct e as [m|]; [|rewrite H2; destruct (file w) eqn:Hf]; intros [= <- <-]; split_and!;
    naive_solver.
Qed.

Lemma rename_retrying_spec n rec last w e w' :
  rename_retrying n rec last w = (e, w') ->
  svc w' = svc w /\ staged w' = staged w /\
  (e = None -> file w' = HasRecord rec \/ (n = O /\ last = None)) /\
  (e <> None -> file w' = file w) /\
  (quiet w -> quiet w' /\ (n <> O -> e = None)).
Proof.
  revert last w; induction n as [|n IH]; intros last w; simpl.
  { intros [= <- <-]. split_and!; auto. naive_solver. }
  destruct (file_op w) as [e1 w1] eqn:E. apply file_op_spec in E as (H1 & H2 & H3 & H4).
  destruct e1 as [m|].
  - intros H. apply IH in H as (G1 & G2 & G3 & G4 & G5). rewrite <- H1, <- H2, <- H3.
    split_and!; [done..| | done |]; naive_solver.
  - intros [= <- <-]. simpl. split_and!; [done|done|naive_solver|done|naive_solver].
Qed.

Lemma WriteRecord_spec rec w e w' :
  WriteRecord rec w = (e, w') ->
  svc w' = svc w /\ staged w' = staged w /\
  (e = None -> file w' = HasRecord rec) /\ (e <> None -> file w' = file w) /\
  (quiet w -> e = None /\ quiet w').
Proof.
  unfold WriteRecord. destruct (file_op w) as [e1 w1] eqn:E. apply file_op_spec in E as (H1 & H2 & H3 & H4).
  destruct e1 as [m|].
  - intros [= <- <-]. naive_solver.
  - intros H. apply rename_retrying_spec in H as (G1 & G2 & G3 & G4 & G5).
    rewrite <- H1, <- H2, <- H3. split_and!; [done|done| |done|]; naive_solver.
Qed.

Lemma RemoveRecord_spec w e w' :
  RemoveRecord w = (e, w') ->
  svc w' = svc w /\ staged w' = staged w /\
  (e = None -> file w' = NoFile) /\ (e <> None -> file w' = file w) /\
  (quiet w -> e = None /\ quiet w').
Proof.
  unfold RemoveRecord. destruct (file_op w) as [e1 w1] eqn:E. apply file_op_spec in E as (H1 & H2 & H3 & H4).
  destruct e1 as [m|]; intros [= <- <-]; simpl; naive_solver.
Qed.
End FileLemmas.

(** *** Supervision *)

Section Theorems.
Context {W : Type} `{ServiceController W} {Laws : ServiceLaws W}.
Implicit Types w : world W.

Definition wired_to w (bin : string) (args : list string) : Prop := wired (svc w) = Some (bin, args).

Lemma control_spec {A} (f : M W A) w a w' :
  control f w = (a, w') ->
  f (svc w) = (a, svc w') /\ file w' = file w /\ staged w' = staged w /\ io w' = io w.
Proof. unfold control. destruct (f (svc w)) as [b s]. by intros [= <- <-]. Qed.

Lemma remove_old_spec rec entries w u w' :
  remove_old rec entries w = (u, w') -> svc w' = svc w /\ file w' = file w /\ (quiet w -> quiet w').
Proof.
  revert w; induction entries as [|e r IH]; intros w; simpl; [by intros [= _ <-]|].
  destruct (negb (e_IsDir e) || _ || _); [apply IH|].
  destruct (file_op w) as [e1 w1] eqn:E. apply file_op_spec in E as (H1 & H2 & H3 & H4).
  destruct e1; intros Hr; apply IH in Hr as (G1 & G2 & G3); rewrite G1, G2; simpl;
    (split; [done|]; split; [done|]); intros Hq; apply G3; unfold quiet in *; simpl; naive_solver.
Qed.

Lemma prune_spec rec w u w' :
  pruneOldBuilds rec w = (u, w') -> svc w' = svc w /\ file w' = file w /\ (quiet w -> quiet w').
Proof.
  unfold pruneOldBuilds. destruct (file_op w) as [e1 w1] eqn:E.
  apply file_op_spec in E as (H1 & H2 & H3 & H4). destruct e1.
  - intros [= _ <-]. naive_solver.
  - intros Hr. apply remove_old_spec in Hr as (G1 & G2 & G3). naive_solver congruence.
Qed.

(** The previous build is back: wired in, with its arguments, and running. *)
Definition restored rec w : Prop :=
  wired_to w (r_FromBinPath rec) (r_FromArgs rec) /\ active (svc w) = true.

(** The service is wired to the new build's binary. *)
Definition on_new_build rec w : Prop :=
  exists bin args, wired_to w bin args /\ EqualFold (Clean bin) (Clean (r_ToBinPath rec)) = true.

Definition can_restore rec : Prop := expressible (r_FromBinPath rec) (r_FromArgs rec).

Lemma restoreBuild_spec rec w e w' :
  can_restore rec -> restoreBuild rec w = (e, w') ->
  file w' = file w /\ io w' = io w /\ (e = None -> restored rec w').
Proof.
  intros Hx. unfold restoreBuild.
  destruct (control Stop w) as [e1 w1] eqn:E1. apply control_spec in E1 as (_ & F1 & _ & I1).
  destruct e1; [intros [= <- <-]; by split_and!|].
  destruct (control (SetBinPath _ _) w1) as [e2 w2] eqn:E2. apply control_spec in E2 as (S2 & F2 & _ & I2).
  destruct e2; [intros [= <- <-]; split_and!; congruence|]. apply SetBinPath_ok in S2; [|done].
  destruct (control Start w2) as [e3 w3] eqn:E3. apply control_spec in E3 as (S3 & F3 & _ & I3).
  destruct e3; intros [= <- <-]; (split_and!; [congruence..|]); [done|]. intros _.
  pose proof (Start_active _ _ S3). apply Start_wired in S3. split; [|done].
  unfold wired_to. congruence.
Qed.

Lemma stillOnNewBuild_spec rec w b w' :
  stillOnNewBuild rec w = (b, w') ->
  file w' = file w /\ io w' = io w /\ (b = true -> on_new_build rec w').
Proof.
  unfold stillOnNewBuild. destruct (control Config w) as [r w1] eqn:E.
  apply control_spec in E as (S & F & _ & I). apply Config_wired in S as [Hw Hc].
  destruct r as [[bin args]|]; intros [= <- <-]; (split_and!; [done|done|]); [|done].
  intros Hb. exists bin, args. split; [|done]. unfold wired_to. rewrite Hw. by apply Hc.
Qed.

(** What a rollback leaves behind. *)
Definition rolled_back rec w : Prop :=
  exists d, file w = HasRecord (with_detail (with_status rec StatusRolledBack) d).

Definition undecided rec w : Prop :=
  (exists d, file w = HasRecord (with_detail (with_status rec StatusPending) d)) /\ on_new_build rec w.

Lemma rollback_spec rec d w o w' :
  can_restore rec -> rollback rec d w = (o, w') ->
  match o with
  | Nil => restored rec w' /\ rolled_back rec w'
  | Failed (WritingRollback _) => restored rec w' /\ ~ quiet w
  | Failed (RestoringPrevious _) => rolled_back rec w' \/ undecided rec w'
  | Failed (RestoringAndRecording _ _) => ~ quiet w
  | _ => False
  end.
Proof.
  intros Hx. unfold rollback. destruct (restoreBuild rec w) as [e w1] eqn:E1.
  apply restoreBuild_spec in E1 as (F1 & I1 & R1); [|done]. unfold quiet. rewrite <- I1. destruct e as [m|].
  - destruct (stillOnNewBuild rec w1) as [b w2] eqn:E2.
    apply stillOnNewBuild_spec in E2 as (F2 & I2 & R2). rewrite <- I2.
    destruct (WriteRecord _ w2) as [we w3] eqn:E3. apply WriteRecord_spec in E3 as (G1 & _ & G2 & _ & G3).
    destruct we; intros [= <- <-]; [by intros Hq; apply G3 in Hq as []|].
    specialize (G2 eq_refl). destruct b.
    + right. split; [by eexists|]. destruct (R2 eq_refl) as (bin & args & Hw & Hb).
      exists bin, args. unfold wired_to in *. by rewrite G1.
    + left. by eexists.
  - destruct (WriteRecord _ w1) as [we w3] eqn:E3. apply WriteRecord_spec in E3 as (G1 & _ & G2 & _ & G3).
    assert (restored rec w3) as Hr.
    { destruct (R1 eq_refl) as [Ha Hb]. unfold restored, wired_to in *. by rewrite G1. }
    destruct we; intros [= <- <-].
    + split; [done|]. by intros Hq; apply G3 in Hq as [].
    + split; [done|]. eexists. by apply G2.
Qed.

(** The new build's check-in is on disk. *)
Definition settled w : Prop := exists cur, file w = HasRecord cur /\ r_Status cur = StatusSucceeded.

Definition never_checks_in (ticks : list (tick W)) : Prop :=
  Forall (fun tk => forall w, ~ settled w -> ~ settled (t_env tk w)) ticks.

(** What each way of ending leaves behind. *)
Definition ends_well rec (o : sup_outcome) w : Prop :=
  match o with
  | Waiting => True
  | Nil => file w = NoFile \/ (restored rec w /\ rolled_back rec w)
  | Failed Cancelled => restored rec w /\ file w = NoFile
  | Failed (RemovingAfterCancel _) | Failed (WritingRollback _) => restored rec w
  | Failed (RestoringPrevious _) => rolled_back rec w \/ undecided rec w
  | Failed (RestoringAndRecording _ _) | Failed (RemovingSettled _) | Failed (RestoringAfterCancel _) => True
  | Failed (ReadingRecord _) | Failed (StoppingService _) => False
  end.

Lemma rollback_ends_well rec d w o w' :
  can_restore rec -> rollback rec d w = (o, w') -> ends_well rec o w'.
Proof. intros Hx Hr. apply rollback_spec in Hr; [|done]. destruct o as [| |[]]; simpl; naive_solver. Qed.

Lemma poll_loop_ends rec ticks w o w' :
  can_restore rec -> poll_loop rec ticks w = (o, w') ->
  ends_well rec o w' /\
  (never_checks_in ticks -> ~ settled w -> o = Nil -> restored rec w' /\ rolled_back rec w').
Proof.
  intros Hx. revert w; induction ticks as [|tk rest IH]; intros w; cbn [poll_loop].
  { intros [= <- <-]. by split. }
  destruct (ReadRecord (t_env tk w)) as [r w1] eqn:E1.
  apply ReadRecord_spec in E1 as (_ & F1 & _ & _ & R1 & _). cbv zeta.
  destruct (match r with Ok _ => _ | Err _ => _ end) eqn:Hs.
  { assert (settled w1) as Hset.
    { destruct r as [[cur []]|]; [|done..]. simpl in Hs. apply String.eqb_eq in Hs.
      exists cur. rewrite F1. split; [exact (R1 _ _ eq_refl) | done]. }
    assert (never_checks_in (tk :: rest) -> ~ settled w -> False) as Hno.
    { intros [Hn _]%Forall_cons Hw. apply (Hn w Hw). unfold settled in *. by rewrite <- F1. }
    destruct (RemoveRecord w1) as [e w2] eqn:E2. apply RemoveRecord_spec in E2 as (_ & _ & G2 & _).
    destruct e as [m|]; [intros [= <- <-]; split; [done | naive_solver]|].
    destruct (pruneOldBuilds rec w2) as [u w3] eqn:E3. apply prune_spec in E3 as (_ & F3 & _).
    intros [= <- <-]. split; [|naive_solver]. left. rewrite F3. by apply G2. }
  destruct (negb (Before (t_now tk) (r_Deadline rec))).
  { intros Hr. split; [by eapply rollback_ends_well|]. intros _ _ ->.
    by apply rollback_spec in Hr. }
  destruct (t_cancelled tk).
  - destruct (restoreBuild rec w1) as [e w2] eqn:E2. apply restoreBuild_spec in E2 as (F2 & _ & R2); [|done].
    destruct e as [m|]; [intros [= <- <-]; by split|]. specialize (R2 eq_refl).
    destruct (RemoveRecord w2) as [e w3] eqn:E3. apply RemoveRecord_spec in E3 as (S3 & _ & G3 & _).
    assert (restored rec w3) by (unfold restored, wired_to in *; by rewrite S3).
    destruct e as [m|]; intros [= <- <-]; (split; [|done]); [done|]. split; [done | by apply G3].
  - intros Hl. apply IH in Hl as [H1 H2]. split; [done|]. intros [Hn Hrest]%Forall_cons Hw.
    apply H2; [done|]. unfold settled in *. rewrite F1. by apply Hn.
Qed.

(** What [Supervise] does with a pending record: the stop, then one of the
    branches. *)
Lemma supervise_cases ticks w o w' rec :
  file w = HasRecord rec -> r_Status rec = StatusPending -> can_restore rec ->
  Supervise ticks w = (o, w') ->
  (exists m, o = Failed (ReadingRecord m) /\ svc w' = svc w /\ file w' = file w) \/
  (exists m, o = Failed (StoppingService m) /\ wired (svc w') = wired (svc w) /\
     (quiet w -> file w' = HasRecord (with_detail (with_status rec StatusRolledBack)
        ("the service would not stop: " ++ m)%string))) \/
  (ends_well rec o w' /\
   (never_checks_in ticks -> o = Nil -> restored rec w' /\ rolled_back rec w')).
Proof.
  intros Hf Hp Hx. unfold Supervise.
  destruct (ReadRecord w) as [r w0] eqn:E0. apply ReadRecord_spec in E0 as (S0 & F0 & _ & Q0 & R0 & _).
  destruct r as [[rec' found]|m]; [|intros [= <- <-]; left; eauto].
  specialize (R0 _ _ eq_refl). destruct found; [|congruence].
  assert (rec' = rec) as -> by congruence. rewrite Hp. cbn [negb orb].
  destruct (control Stop w0) as [e w1] eqn:E1. apply control_spec in E1 as (S1 & F1 & _ & I1).
  destruct e as [m|].
  { destruct (WriteRecord _ w1) as [we w2] eqn:E2. apply WriteRecord_spec in E2 as (S2 & _ & G2 & _ & Q2).
    intros [= <- <-]. right; left. exists m. split; [done|]. split.
    - rewrite S2. rewrite (Stop_wired _ _ _ S1). by rewrite S0.
    - intros Hq. apply G2, Q2. unfold quiet in *. rewrite I1. by apply Q0. }
  intros Hrun. right; right. revert Hrun.
  assert (forall w, file w = file w1 -> ~ settled w) as Hns.
  { intros w2 Hw2 (cur & Hc & Hs). rewrite Hw2, F1, F0, Hf in Hc. injection Hc as <-. by rewrite Hp in Hs. }
  assert (forall d w2 , rollback rec d w2 = (o, w') ->
    ends_well rec o w' /\ (never_checks_in ticks -> o = Nil -> restored rec w' /\ rolled_back rec w')) as Hroll.
  { intros d w2 Hr. split; [by eapply rollback_ends_well|]. intros _ ->. by apply rollback_spec in Hr. }
  destruct (control (SetBinPath _ _) w1) as [e w2] eqn:E2. apply control_spec in E2 as (_ & F2 & _).
  destruct e; [apply Hroll|].
  destruct (control SetRecoveryActions w2) as [e w3] eqn:E3. apply control_spec in E3 as (_ & F3 & _).
  destruct e; [apply Hroll|].
  destruct (control Start w3) as [e w4] eqn:E4. apply control_spec in E4 as (_ & F4 & _).
  destruct e; [apply Hroll|]. intros Hl. apply poll_loop_ends in Hl as [H1 H2]; [|done].
  split; [done|]. intros Hn Ho. apply H2; [done| |done]. apply Hns. congruence.
Qed.

(** C22. Unless the new build's check-in reaches the record, an update is
    never kept: whatever the service manager, the disk and the other processes
    do between the polls, a supervisor that reports success has put the
    previous build back, with its own arguments and running, and the record
    says that the version was rolled back. *)
Theorem unproven_build_is_never_kept ticks w w' rec :
  file w = HasRecord rec -> r_Status rec = StatusPending -> can_restore rec ->
  never_checks_in ticks -> Supervise ticks w = (Nil, w') ->
  restored rec w' /\ rolled_back rec w'.
Proof.
  intros Hf Hp Hx Hn Hs. destruct (supervise_cases _ _ _ _ _ Hf Hp Hx Hs) as [(m & ? & _)|[(m & ? & _)|[_ H1]]];
    [done..|]. by apply H1.
Qed.

(** Every other ending: an update that was not even begun leaves the
    service as it was; a cancelled one restores the previous build and leaves
    no verdict on the new one; a rollback that could not restore says
    [rolled_back] or, only while the service is still wired to the new
    build, [pending]. *)
Theorem supervise_endings ticks w o w' rec :
  file w = HasRecord rec -> r_Status rec = StatusPending -> can_restore rec ->
  Supervise ticks w = (o, w') ->
  match o with
  | Waiting | Failed (RemovingSettled _) | Failed (RestoringAfterCancel _) => True
  | Nil => file w' = NoFile \/ (restored rec w' /\ rolled_back rec w')
  | Failed (ReadingRecord _) => svc w' = svc w /\ file w' = file w
  | Failed (StoppingService _) => wired (svc w') = wired (svc w) /\ (quiet w -> rolled_back rec w')
  | Failed Cancelled => restored rec w' /\ file w' = NoFile
  | Failed (RemovingAfterCancel _) | Failed (WritingRollback _) => restored rec w'
  | Failed (RestoringPrevious _) => rolled_back rec w' \/ undecided rec w'
  | Failed (RestoringAndRecording _ _) => True
  end.
Proof.
  intros Hf Hp Hx Hs.
  destruct (supervise_cases _ _ _ _ _ Hf Hp Hx Hs) as [(m & -> & ?)|[(m & -> & Hw & Hq)|[He _]]]; [done| |].
  - split; [done|]. intros Hqq. eexists. by apply Hq.
  - by destruct o as [| |[]].
Qed.

(** C40. Supervision ends: once a poll happens at or after the deadline, it has
    returned, whatever else happened. *)
Theorem supervise_terminates ticks w :
  (forall rec, file w = HasRecord rec -> r_Status rec = StatusPending ->
     Exists (fun tk => r_Deadline rec <= t_now tk) ticks) ->
  fst (Supervise ticks w) <> Waiting.
Proof.
  intros Hd. assert (forall rec d w, fst (rollback rec d w) <> Waiting) as Hroll.
  { intros rec d w0. unfold rollback. destruct (restoreBuild rec w0) as [[m|] w1].
    - destruct (stillOnNewBuild rec w1) as [b w2]. by destruct (WriteRecord _ w2) as [[] ?].
    - by destruct (WriteRecord _ w1) as [[] ?]. }
  assert (forall rec, Exists (fun tk => r_Deadline rec <= t_now tk) ticks ->
    forall w, fst (poll_loop rec ticks w) <> Waiting) as Hloop.
  { intros rec. clear Hd. induction 1 as [tk rest Hle|tk rest _ IH]; intros w0; cbn [poll_loop];
      destruct (ReadRecord (t_env tk w0)) as [r w1]; cbv zeta;
      (destruct (match r with Ok _ => _ | Err _ => _ end);
        [destruct (RemoveRecord w1) as [[] w2]; [done | by destruct (pruneOldBuilds rec w2)]|]).
    - unfold Before. destruct (Z.ltb_spec (t_now tk) (r_Deadline rec)); [lia|]. apply Hroll.
    - destruct (negb _); [apply Hroll|]. destruct (t_cancelled tk); [|apply IH].
      destruct (restoreBuild rec w1) as [[] w2]; [done|]. by destruct (RemoveRecord w2) as [[] ?]. }
  unfold Supervise. destruct (ReadRecord w) as [r w0] eqn:E0.
  apply ReadRecord_spec in E0 as (_ & _ & _ & _ & R0 & _).
  destruct r as [[rec []]|m]; [|done..]. specialize (R0 _ _ eq_refl). cbn [negb orb].
  destruct (String.eqb_spec (r_Status rec) StatusPending) as [Hp|]; [|done]. specialize (Hd _ R0 Hp).
  simpl negb. cbv iota. destruct (control Stop w0) as [[] w1]; [by destruct (WriteRecord _ w1)|].
  destruct (control (SetBinPath _ _) w1) as [[] w2]; [apply Hroll|].
  destruct (control SetRecoveryActions w2) as [[] w3]; [apply Hroll|].
  destruct (control Start w3) as [[] w4]; [apply Hroll|]. by apply Hloop.
Qed.

(** *** Devices are not wedged *)

Definition quiet_env (ticks : list (tick W)) : Prop :=
  Forall (fun tk => forall w, quiet w -> quiet (t_env tk w)) ticks.

(** The endings a failed file operation causes. *)
Definition io_failed (o : sup_outcome) : bool :=
  match o with
  | Failed (ReadingRecord _) | Failed (RemovingSettled _) | Failed (RemovingAfterCancel _)
  | Failed (RestoringAndRecording _ _) | Failed (WritingRollback _) => true
  | _ => false
  end.

Lemma rollback_quiet rec d w o w' :
  can_restore rec -> quiet w -> rollback rec d w = (o, w') -> io_failed o = false.
Proof. intros Hx Hq Hr. apply rollback_spec in Hr; [|done]. destruct o as [| |[]]; naive_solver. Qed.

Lemma poll_loop_quiet rec ticks w o w' :
  can_restore rec -> quiet_env ticks -> quiet w -> poll_loop rec ticks w = (o, w') -> io_failed o = false.
Proof.
  intros Hx Hqe. revert w; induction Hqe as [|tk rest Htk _ IH]; intros w Hq; cbn [poll_loop].
  { by intros [= <- <-]. }
  destruct (ReadRecord (t_env tk w)) as [r w1] eqn:E1. apply ReadRecord_spec in E1 as (_ & _ & _ & Q1 & _).
  specialize (Q1 (Htk w Hq)). cbv zeta. destruct (match r with Ok _ => _ | Err _ => _ end).
  { destruct (RemoveRecord w1) as [e w2] eqn:E2. apply RemoveRecord_spec in E2 as (_ & _ & _ & _ & Q2).
    destruct (Q2 Q1) as [-> _]. destruct (pruneOldBuilds rec w2). by intros [= <- <-]. }
  destruct (negb _); [by apply rollback_quiet|]. destruct (t_cancelled tk); [|by apply IH].
  destruct (restoreBuild rec w1) as [e w2] eqn:E2. apply restoreBuild_spec in E2 as (_ & I2 & _); [|done].
  destruct e; [by intros [= <- <-]|].
  destruct (RemoveRecord w2) as [e w3] eqn:E3. apply RemoveRecord_spec in E3 as (_ & _ & _ & _ & Q3).
  destruct Q3 as [-> _]; [unfold quiet in *; by rewrite I2 | by intros [= <- <-]].
Qed.

Lemma supervise_quiet ticks w o w' rec :
  file w = HasRecord rec -> can_restore rec -> quiet_env ticks -> quiet w ->
  Supervise ticks w = (o, w') -> io_failed o = false.
Proof.
  intros Hf Hx Hqe Hq. unfold Supervise. destruct (ReadRecord w) as [r w0] eqn:E0.
  apply ReadRecord_spec in E0 as (_ & _ & _ & Q0 & _ & R0). rewrite (R0 Hq rec Hf). specialize (Q0 Hq).
  destruct (negb true || _); [by intros [= <- <-]|].
  assert (forall A (f : M W A) w a w', control f w = (a, w') -> quiet w -> quiet w') as Hc.
  { intros A f w1 a w2 (_ & _ & _ & I)%control_spec. unfold quiet. by rewrite I. }
  destruct (control Stop w0) as [e w1] eqn:E1. apply Hc in E1; [|done].
  destruct e; [destruct (WriteRecord _ w1); by intros [= <- <-]|].
  destruct (control (SetBinPath _ _) w1) as [e w2] eqn:E2. apply Hc in E2; [|done].
  destruct e; [by apply rollback_quiet|].
  destruct (control SetRecoveryActions w2) as [e w3] eqn:E3. apply Hc in E3; [|done].
  destruct e; [by apply rollback_quiet|].
  destruct (control Start w3) as [e w4] eqn:E4. apply Hc in E4; [|done].
  destruct e; [by apply rollback_quiet | by apply poll_loop_quiet].
Qed.

(** When no file operation fails, a supervisor that has returned leaves
    no pending record behind, with two exceptions: the service is still wired
    to the new build, or it was cancelled and could not restore. *)
Theorem supervise_leaves_no_pending ticks w o w' rec r :
  file w = HasRecord rec -> r_Status rec = StatusPending -> can_restore rec ->
  quiet w -> quiet_env ticks -> Supervise ticks w = (o, w') -> o <> Waiting ->
  file w' = HasRecord r -> r_Status r = StatusPending ->
  on_new_build rec w' \/ exists m, o = Failed (RestoringAfterCancel m).
Proof.
  intros Hf Hp Hx Hq Hqe Hs Hw Hr Hrp. pose proof (supervise_quiet _ _ _ _ _ Hf Hx Hqe Hq Hs) as Hio.
  assert (~ rolled_back rec w') as Hnr.
  { intros (d & Hd). rewrite Hd in Hr. injection Hr as <-. by simpl in Hrp. }
  destruct (supervise_cases _ _ _ _ _ Hf Hp Hx Hs) as [(m & -> & _)|[(m & -> & _ & Hroll)|[He _]]]; [done| |].
  - destruct Hnr. eexists. by apply Hroll.
  - destruct o as [| |[]]; simpl in He, Hio; try done.
    + by destruct He as [He|[_ He]]; [rewrite He in Hr|].
    + right. eauto.
    + by rewrite (proj2 He) in Hr.
    + destruct He as [|[_ ?]]; [done|]. by left.
Qed.
End Theorems.

(** *** Witnesses, on the systemd controller *)

Module Sample.
Definition unit_show : string := "{ path=/opt/agent ; argv[]=/opt/agent run --data-dir /d ; ignore_errors=no }".
Definition sd : systemd := mkSystemd None None unit_show true [].
Definition rec : UpdateRecord :=
  mkRecord "i" "1.0" "/opt/agent" ["run"; "--data-dir"; "/d"]%string "2.0" "/d/bin/2.0/agent" 0 50
    StatusPending EmptyString false.
Definition w0 : world systemd := mkWorld sd (HasRecord rec) [] [].
Definition wait (now : time) : tick systemd := mkTick (fun w => w) now false.
Definition cancel (now : time) : tick systemd := mkTick (fun w => w) now true.

Lemma restorable : can_restore rec.
Proof. split; [repeat constructor | vm_compute; reflexivity]. Qed.
End Sample.

Lemma unproven_build_is_never_kept_witness :
  exists w', Supervise [Sample.wait 10; Sample.wait 60] Sample.w0 = (Nil, w') /\
    sd_wired (svc w') = Some ("/opt/agent", ["run"; "--data-dir"; "/d"])%string /\
    restored Sample.rec w' /\ rolled_back Sample.rec w'.
Proof.
  eexists. split; [vm_compute; reflexivity|]. split; [vm_compute; reflexivity|].
  apply (unproven_build_is_never_kept [Sample.wait 10; Sample.wait 60] Sample.w0 _ Sample.rec
    eq_refl eq_refl Sample.restorable); [|vm_compute; reflexivity].
  repeat constructor; auto.
Defined.

Lemma supervise_endings_witness :
  exists w', Supervise [Sample.wait 10; Sample.cancel 20] Sample.w0 = (Failed Cancelled, w') /\
    restored Sample.rec w' /\ file w' = NoFile.
Proof.
  eexists. split; [vm_compute; reflexivity|].
  refine (supervise_endings [Sample.wait 10; Sample.cancel 20] Sample.w0 (Failed Cancelled) _ Sample.rec
    eq_refl eq_refl Sample.restorable _). vm_compute. reflexivity.
Defined.

Lemma supervise_terminates_witness :
  fst (Supervise [Sample.wait 10; Sample.wait 50] Sample.w0) <> Waiting.
Proof.
  apply (supervise_terminates [Sample.wait 10; Sample.wait 50] Sample.w0).
  intros rec [= <-] _. apply Exists_cons_tl, Exists_cons_hd. simpl. lia.
Defined.

(** The service cannot be stopped a second time: it stays on the new build, and
    the record stays pending. *)
Lemma supervise_leaves_no_pending_witness :
  let w := mkWorld (mkSystemd None None Sample.unit_show true
    [None; None; None; None; None; None; Some "timeout"%string]) (HasRecord Sample.rec) [] [] in
  exists o w' r, Supervise [Sample.wait 60] w = (o, w') /\ o <> Waiting /\
    file w' = HasRecord r /\ r_Status r = StatusPending /\
    (on_new_build Sample.rec w' \/ exists m, o = Failed (RestoringAfterCancel m)).
Proof.
  eexists _, _, _. split; [vm_compute; reflexivity|]. split; [discriminate|].
  split; [vm_compute; reflexivity|]. split; [reflexivity|].
  refine (supervise_leaves_no_pending [Sample.wait 60]
    (mkWorld (mkSystemd None None Sample.unit_show true
      [None; None; None; None; None; None; Some "timeout"%string]) (HasRecord Sample.rec) [] [])
    _ _ Sample.rec _ eq_refl eq_refl Sample.restorable _ _ _ _ _ _);
    [constructor | repeat constructor; auto | vm_compute; reflexivity | discriminate
    | vm_compute; reflexivity | reflexivity].
Defined.
