(* ===== verification/UpdateSync.v ===== *)
(** * The agent-build syncer

    [internal/agent/selfupdate/syncer.go]: what an agent does about an assigned
    build at each check-in. It reports rollbacks, decides, verifies, downloads,
    stages, records and hands off to the supervisor.

    The server connection is the class [Client] over a network state. The state
    of the syncer adds to the supervisor's world that network, the [Rollback]
    field, the coming readings of the clock, the outcomes of coming spawns, and
    a trace of the calls that leave the process, which only the theorems read. *)
From S2P Require Export Supervise Release Window.
From S2P Require Import Systemd.
Open Scope go_scope.

(** ** The server connection *)

(** An error of the client: a non-2xx response, or anything else. *)
Inductive client_error :=
| HTTPError (status : Z) (message : string)
| TransportError (message : string).

Definition client_message (e : client_error) : string :=
  match e with HTTPError _ m => m | TransportError m => m end.

Record AgentVersionResponse := mkResponse {
  av_Version : string; av_SHA256 : string; av_KeyID : string; av_Signature : string }.

Record AgentUpdateResult := mkResult {
  ur_Version : string; ur_Status : string; ur_RolledBackFrom : string; ur_Detail : string;
  ur_ReportedAt : time }.

Definition ResultFailed : string := "failed".

Class Client (N : Type) := {
  FetchAgentVersion : string -> M N (result client_error AgentVersionResponse);
  DownloadAgentBinary : string -> string -> M N (option client_error);
  ReportAgentUpdate : string -> AgentUpdateResult -> M N (option client_error)
}.

Inductive event :=
| EvFetch (id : string)
| EvDownload (id sha256 : string)
| EvReport (id : string) (r : AgentUpdateResult)
| EvSpawn (path : string).

Record sworld (W N : Type) := mkSworld {
  local : world W;
  net : N;
  Rollback : option UpdateRecord;
  clock : list time;
  spawns : list gerror;
  trace : list event }.
Arguments mkSworld {W N} local net Rollback clock spawns trace.
Arguments local {W N} _. Arguments net {W N} _. Arguments Rollback {W N} _.
Arguments clock {W N} _. Arguments spawns {W N} _. Arguments trace {W N} _.

(** The fields of a [Syncer] that do not change. [s_CheckExecutable] is the
    check of a staged build, when there is one. *)
Record Syncer := mkSyncer {
  s_Dir : string;
  s_Control : bool;                   (* Control is not nil *)
  s_Running : string;
  s_Injected : bool;
  s_Trusted : list PublicKey;
  s_Unavailable : option string;
  s_CheckExecutable : option (string -> gerror);
  s_Spawn : bool }.                   (* Spawn is not nil *)

Definition BinName : string := "retune-agent".
Definition supervisorName : string := "supervisor".
Definition ErrWindowsOnly : string :=
  "self-update needs a Windows service, a launchd daemon or a systemd unit".

Definition isGone (e : client_error) : bool :=
  match e with HTTPError status _ => status =? 404 | TransportError _ => false end.

Definition release_message (e : release_error) : string :=
  match e with
  | ErrNoTrustedKeys => "no trusted release keys"
  | ErrUntrustedKey key => "signature is from a key that is not trusted (key " ++ key ++ ")"
  | ErrManifestMismatch => "signature is for a different version or different bytes"
  | ErrBadSignature => "signature did not verify"
  end%string.

Definition base64_message : string := "illegal base64 data".

Section Syncer.
Context {W N : Type} {SC : ServiceController W} {CL : Client N} {CR : Crypto}.
Context (s : Syncer).
Abbreviation S := (sworld W N).

Definition on_local {A} (f : M (world W) A) : M S A := fun w =>
  let '(a, l) := f (local w) in (a, mkSworld l (net w) (Rollback w) (clock w) (spawns w) (trace w)).
Definition on_net {A} (f : M N A) : M S A := fun w =>
  let '(a, n) := f (net w) in (a, mkSworld (local w) n (Rollback w) (clock w) (spawns w) (trace w)).
Definition emit (e : event) : M S unit := fun w =>
  (tt, mkSworld (local w) (net w) (Rollback w) (clock w) (spawns w) (trace w ++ [e])).
Definition set_rollback (r : option UpdateRecord) : M S unit := fun w =>
  (tt, mkSworld (local w) (net w) r (clock w) (spawns w) (trace w)).
Definition now : M S time := fun w =>
  match clock w with
  | [] => (0, w)
  | t :: r => (t, mkSworld (local w) (net w) (Rollback w) r (spawns w) (trace w))
  end.
Definition call_spawn (path : string) : M S gerror := fun w =>
  let '(_, w) := emit (EvSpawn path) w in
  match spawns w with
  | [] => (None, w)
  | e :: r => (e, mkSworld (local w) (net w) (Rollback w) (clock w) r (trace w))
  end.

(** *** Reports *)

Definition report (id version status rolledBackFrom detail : string) : M S (option client_error) := fun w =>
  let '(t, w) := now w in
  let r := mkResult version status rolledBackFrom detail t in
  let '(_, w) := emit (EvReport id r) w in
  on_net (ReportAgentUpdate id r) w.

(** [report], with a failure only logged. *)
Definition report_failed (id version detail : string) : M S unit := fun w =>
  let '(_, w) := report id version ResultFailed EmptyString detail w in (tt, w).

Definition markReported (rec : UpdateRecord) : M S unit := fun w =>
  let '(r, w) := on_local ReadRecord w in
  match r with
  | Err _ => (tt, w)
  | Ok (cur, found) =>
      if negb found || negb (String.eqb (r_ToVersion cur) (r_ToVersion rec))
         || negb (String.eqb (r_Status cur) (r_Status rec))
      then (tt, w)
      else let '(_, w) := on_local (WriteRecord (with_reported cur true)) w in (tt, w)
  end.

Definition CheckedIn : M S gerror := fun w =>
  let '(r, w) := on_local ReadRecord w in
  match r with
  | Err m => (Some ("read record: " ++ m)%string, w)
  | Ok (rec, found) =>
      if negb found || negb (String.eqb (r_Status rec) StatusPending)
         || negb (String.eqb (r_ToVersion rec) (s_Running s))
      then (None, w)
      else
        let '(e, w) := on_local (WriteRecord (with_status rec StatusSucceeded)) w in
        match e with Some m => (Some ("write record: " ++ m)%string, w) | None => (None, w) end
  end.

(** *** Staging *)

Definition rememberRefusal (itemID version detail : string) : M S unit := fun w =>
  let '(t, w) := now w in
  let rec := mkRecord itemID (s_Running s) EmptyString [] version EmptyString t 0 StatusRefused detail true in
  let '(_, w) := on_local (WriteRecord rec) w in (tt, w).

Definition versionDir (version : string) : string := JoinPath [s_Dir s; "bin"%string; version].

Definition MkdirVersion (version : string) : M S gerror := on_local (fun w =>
  let '(e, w) := file_op w in
  match e with
  | Some m => (Some m, w)
  | None => (None, if existsb (fun x => String.eqb (e_Name x) version) (staged w) then w
                   else set_staged (staged w ++ [mkEntry version true]) w)
  end).

(** [os.RemoveAll(versionDir)], with a failure only logged. *)
Definition RemoveVersion (version : string) : M S unit := on_local (fun w =>
  let '(e, w) := file_op w in
  match e with
  | Some _ => (tt, w)
  | None => (tt, set_staged (List.filter (fun x => negb (String.eqb (e_Name x) version)) (staged w)) w)
  end).

(** A file operation that changes neither the record nor the staged builds. *)
Definition other_file_op : M S gerror := on_local file_op.

Definition download (id sha256 : string) : M S gerror := fun w =>
  let '(e, w) := other_file_op w in
  match e with
  | Some m => (Some ("create part file: " ++ m)%string, w)
  | None =>
      let '(_, w) := emit (EvDownload id sha256) w in
      let '(e, w) := on_net (DownloadAgentBinary id sha256) w in
      (option_map client_message e, w)
  end.

(** [copyRunningExecutable]: its steps in order, with the words each failure
    is wrapped in. The last, the rename, is not wrapped. *)
Definition copy_steps : list (option string) :=
  [Some "locate running executable: "; Some "open running executable: "; Some "create supervisor copy: ";
   Some "copy running executable: "; Some "close supervisor copy: "; None]%string.

Fixpoint run_steps (steps : list (option string)) : M S gerror := fun w =>
  match steps with
  | [] => (None, w)
  | words :: rest =>
      let '(e, w) := other_file_op w in
      match e with
      | Some m => (Some (match words with Some p => p ++ m | None => m end)%string, w)
      | None => run_steps rest w
      end
  end.

Definition copyRunningExecutable : M S gerror := run_steps copy_steps.

Definition abandon (id version detail : string) (cause : gerror) : M S gerror := fun w =>
  let '(_, w) := on_local RemoveRecord w in
  let '(_, w) := RemoveVersion version w in
  let '(_, w) := report_failed id version detail w in
  (Some (match cause with Some c => detail ++ ": " ++ c | None => detail end)%string, w).

(** Undo a build that was staged and say why: the steps every failure between
    the download and the hand-off shares. *)
Definition unstage (id version detail err : string) : M S gerror := fun w =>
  let '(_, w) := RemoveVersion version w in
  let '(_, w) := report_failed id version detail w in
  (Some err, w).

(** The signature of a build, checked before anything touches the disk: [None]
    when it verifies, or what to say and what to return. *)
Definition signature_problem (def : AgentVersionResponse) : option (string * string) :=
  match base64_decode (av_Signature def) with
  | None => Some ("the build's signature is not valid base64: " ++ base64_message,
                  "verify signature: " ++ base64_message)%string
  | Some sig =>
      match Verify (s_Trusted s) (mkManifest (av_Version def) (av_SHA256 def))
              (mkSignature (av_Version def) (av_SHA256 def) (av_KeyID def) sig) with
      | Ok _ => None
      | Err e => Some ("signature did not verify against any trusted release key: " ++ release_message e,
                       "verify signature: " ++ release_message e)%string
      end
  end.

(** Steps after the record is written: copy the supervisor and spawn it. *)
Definition hand_off (id version : string) : M S gerror := fun w =>
  let '(e, w) := copyRunningExecutable w in
  match e with
  | Some m => abandon id version ("copying the supervisor: " ++ m)%string (Some m) w
  | None =>
      if negb (s_Spawn s) then abandon id version "no Spawn function was configured" None w else
      let '(e, w) := call_spawn (JoinPath [s_Dir s; supervisorName]) w in
      match e with
      | Some m => abandon id version ("spawning the supervisor: " ++ m)%string (Some m) w
      | None => (None, w)
      end
  end.

(** Steps once the build is on disk: read the service's command line, record
    the attempt and hand off. *)
Definition record_and_hand_off (item : Item) (opts : AgentOptions) (def : AgentVersionResponse)
    : M S gerror := fun w =>
  let id := it_ID item in
  let v := av_Version def in
  let '(r, w) := on_local (control Config) w in
  match r with
  | Err m => unstage id v m ("read service config: " ++ m)%string w
  | Ok (fromBinPath, fromArgs) =>
      let '(t, w) := now w in
      let rec := mkRecord id (s_Running s) fromBinPath fromArgs v
        (JoinPath [versionDir v; BinName]) t (Prelude.Add t (Deadline opts)) StatusPending EmptyString false in
      let '(e, w) := on_local (WriteRecord rec) w in
      match e with
      | Some m => unstage id v m ("write record: " ++ m)%string w
      | None => hand_off id v w
      end
  end.

Definition stage (item : Item) (opts : AgentOptions) (def : AgentVersionResponse) : M S gerror := fun w =>
  let id := it_ID item in
  let v := av_Version def in
  if negb (s_Control s) then
    let reason := match s_Unavailable s with Some r => r | None => ErrWindowsOnly end in
    let '(e, w) := report id v ResultFailed EmptyString reason w in
    (option_map (fun e => "report refusal: " ++ client_message e)%string e, w)
  else if negb (validVersion v) then
    let detail := ("the build's version " ++ Quoted v ++ " is not a valid version")%string in
    let '(_, w) := report_failed id v detail w in
    (Some detail, w)
  else match signature_problem def with
  | Some (detail, err) =>
      let '(_, w) := report_failed id v detail w in
      let '(_, w) := rememberRefusal id v detail w in
      (Some err, w)
  | None =>
      let '(e, w) := MkdirVersion v w in
      match e with Some m => (Some ("create version dir: " ++ m)%string, w) | None =>
      let '(e, w) := download id (av_SHA256 def) w in
      match e with Some m => unstage id v m ("download: " ++ m)%string w | None =>
      let '(e, w) := other_file_op w in       (* the rename *)
      match e with Some m => unstage id v m ("stage binary: " ++ m)%string w | None =>
      let '(e, w) := other_file_op w in       (* the chmod *)
      match e with Some m => unstage id v m ("mark the build executable: " ++ m)%string w | None =>
      match s_CheckExecutable s with
      | None => record_and_hand_off item opts def w
      | Some check =>
          match check (JoinPath [versionDir v; BinName]) with
          | None => record_and_hand_off item opts def w
          | Some m =>
              let detail := ("the build cannot run here: " ++ m)%string in
              let '(_, w) := RemoveVersion v w in
              let '(_, w) := report_failed id v detail w in
              let '(_, w) := rememberRefusal id v detail w in
              (Some detail, w)
          end
      end end end end end
  end.

Definition syncOne (item : Item) : M S gerror := fun w =>
  match ParseAgentOptions (it_Options item) with
  | Err _ => (Some "options"%string, w)
  | Ok opts =>
      let '(r, w) := on_local ReadRecord w in
      match r with
      | Err m => (Some ("read record: " ++ m)%string, w)
      | Ok (rec, found) =>
          if AlreadyRefused rec found (it_ID item) then (None, w) else
          let '(_, w) := emit (EvFetch (it_ID item)) w in
          let '(r, w) := on_net (FetchAgentVersion (it_ID item)) w in
          match r with
          | Err e => (Some ("fetch agent version: " ++ client_message e)%string, w)
          | Ok def =>
              let decision := Decide (s_Running s) (av_Version def) (s_Injected s)
                (Z.of_nat (length (s_Trusted s))) rec in
              match d_Action decision with
              | ActionNone =>
                  if d_Report decision then
                    let '(e, w) := report (it_ID item) (av_Version def) ResultFailed EmptyString
                      (d_Reason decision) w in
                    (option_map (fun e => "report refusal: " ++ client_message e)%string e, w)
                  else (None, w)
              | ActionUpdate => stage item opts def w
              end
          end
      end
  end.

(** *** Sync *)

(** Adopt an unreported rollback found on disk. *)
Definition adopt_rollback : M S unit := fun w =>
  match Rollback w with
  | Some _ => (tt, w)
  | None =>
      let '(r, w) := on_local ReadRecord w in
      match r with
      | Err _ => (tt, w)
      | Ok (rec, found) =>
          if found && String.eqb (r_Status rec) StatusRolledBack && negb (r_Reported rec)
          then set_rollback (Some rec) w else (tt, w)
      end
  end.

Definition report_rollback : M S unit := fun w =>
  match Rollback w with
  | None => (tt, w)
  | Some rec =>
      let '(e, w) := report (r_ItemID rec) (r_FromVersion rec) ResultFailed (r_ToVersion rec) (r_Detail rec) w in
      let done_with w := let '(_, w) := markReported rec w in set_rollback None w in
      match e with
      | None => done_with w
      | Some err => if isGone err then done_with w else (tt, w)
      end
  end.

(** The items in order; [ctx] holds what [ctx.Err()] says before each agent
    build. A failed item does not stop the rest. *)
Fixpoint sync_items (ctx : list gerror) (items : list Item) : M S gerror := fun w =>
  match items with
  | [] => (None, w)
  | item :: rest =>
      if negb (String.eqb (it_Kind item) ItemKindAgent) then sync_items ctx rest w else
      match ctx with
      | Some e :: _ => (Some e, w)
      | _ => let '(_, w) := syncOne item w in sync_items (tail ctx) rest w
      end
  end.

Definition Sync (loc : Location) (ctx : list gerror) (items : list Item) : M S gerror := fun w =>
  let '(_, w) := adopt_rollback w in
  let '(_, w) := report_rollback w in
  let '(t, w) := now w in
  if negb (Open loc (WindowsFrom items) t) then (None, w)
  else sync_items ctx items w.
End Syncer.

(** ** Theorems *)

Section Theorems.
Context {W N : Type} {SC : ServiceController W} {Laws : ServiceLaws W} {CL : Client N} {CR : Crypto}.
Context (s : Syncer).
Implicit Types w : sworld W N.

(** The calls made between two states, all satisfying [P]. *)
Definition calls (P : event -> Prop) w w' : Prop :=
  exists evs, trace w' = trace w ++ evs /\ Forall P evs.

Lemma calls_refl P w w' : trace w' = trace w -> calls P w w'.
Proof. intros E. exists []. by rewrite app_nil_r. Qed.

Lemma calls_trans P w1 w2 w3 : calls P w1 w2 -> calls P w2 w3 -> calls P w1 w3.
Proof.
  intros (a & Ha & Pa) (b & Hb & Pb). exists (a ++ b). rewrite Hb, Ha, app_assoc.
  split; [done | by apply Forall_app].
Qed.

Lemma calls_impl (P Q : event -> Prop) w w' : (forall e, P e -> Q e) -> calls P w w' -> calls Q w w'.
Proof. intros HPQ (evs & ? & ?). exists evs. split; [done|]. by eapply Forall_impl. Qed.

Lemma on_local_spec {A} (f : M (world W) A) w a w' :
  on_local f w = (a, w') -> f (local w) = (a, local w') /\ trace w' = trace w /\ Rollback w' = Rollback w.
Proof. unfold on_local. destruct (f (local w)). by intros [= <- <-]. Qed.

Lemma on_net_spec {A} (f : M N A) w a w' :
  on_net f w = (a, w') -> local w' = local w /\ trace w' = trace w /\ Rollback w' = Rollback w /\
  exists n n', f n = (a, n').
Proof.
  unfold on_net. destruct (f (net w)) as [b n] eqn:E. intros [= <- <-]. simpl.
  split_and!; try done. eauto.
Qed.

Lemma now_spec w t w' : now w = (t, w') -> local w' = local w /\ trace w' = trace w /\ Rollback w' = Rollback w.
Proof. unfold now. by destruct (clock w); intros [= <- <-]. Qed.

(** One report goes out, and nothing else changes. *)
Lemma report_spec id version status from detail w e w' :
  report id version status from detail w = (e, w') ->
  local w' = local w /\ Rollback w' = Rollback w /\
  exists t, trace w' = trace w ++ [EvReport id (mkResult version status from detail t)].
Proof.
  unfold report. destruct (now w) as [t w1] eqn:E1. apply now_spec in E1 as (L1 & T1 & R1).
  unfold emit. intros E2. apply on_net_spec in E2 as (L2 & T2 & R2 & _). simpl in *.
  split_and!; [congruence | congruence|]. exists t. by rewrite T2, T1.
Qed.

Definition is_report (id : string) (e : event) : Prop :=
  match e with EvReport i r => i = id /\ ur_Status r = ResultFailed | _ => False end.

Lemma report_calls id version from detail w e w' :
  report id version ResultFailed from detail w = (e, w') -> local w' = local w /\ calls (is_report id) w w'.
Proof.
  intros (L & _ & t & T)%report_spec. split; [done|]. eexists. split; [exact T|]. by repeat constructor.
Qed.

Lemma report_failed_calls id version detail w u w' :
  report_failed id version detail w = (u, w') -> local w' = local w /\ calls (is_report id) w w'.
Proof.
  unfold report_failed. destruct (report _ _ _ _ _ w) as [e w1] eqn:E. intros [= _ <-].
  by eapply report_calls.
Qed.

(** Steps on the machine that leave the record and the service alone. *)
Definition keeps_record w w' : Prop :=
  file (local w') = file (local w) /\ svc (local w') = svc (local w) /\ (quiet (local w) -> quiet (local w')).

Lemma keeps_refl w w' : local w' = local w -> keeps_record w w'.
Proof. unfold keeps_record. by intros ->. Qed.

Lemma keeps_trans w1 w2 w3 : keeps_record w1 w2 -> keeps_record w2 w3 -> keeps_record w1 w3.
Proof. unfold keeps_record. intros (H1 & S1 & Q1) (H2 & S2 & Q2). split_and!; [congruence | congruence | auto]. Qed.

Lemma other_file_op_spec w e w' :
  other_file_op w = (e, w') -> trace w' = trace w /\ keeps_record w w' /\ (quiet (local w) -> e = None).
Proof.
  intros (Hf & Ht & _)%on_local_spec. apply file_op_spec in Hf as (S & F & _ & Q).
  split_and!; [done| |naive_solver]. split_and!; [done | done | naive_solver].
Qed.

Lemma MkdirVersion_spec v w e w' :
  MkdirVersion v w = (e, w') -> trace w' = trace w /\ keeps_record w w' /\ (quiet (local w) -> e = None).
Proof.
  unfold MkdirVersion. intros (Hf & Ht & _)%on_local_spec. split; [done|]. unfold keeps_record.
  destruct (file_op (local w)) as [e1 l1] eqn:E. apply file_op_spec in E as (S & F & _ & Q).
  destruct e1; injection Hf as <- <-; [naive_solver|].
  destruct (existsb _ _); simpl; (split; [|done]); (split; [done|]); (split; [done|]); intros Hq; by apply Q.
Qed.

Lemma RemoveVersion_spec v w u w' :
  RemoveVersion v w = (u, w') -> trace w' = trace w /\ keeps_record w w'.
Proof.
  unfold RemoveVersion. intros (Hf & Ht & _)%on_local_spec. split; [done|]. unfold keeps_record.
  destruct (file_op (local w)) as [e1 l1] eqn:E. apply file_op_spec in E as (S & F & _ & Q).
  destruct e1; injection Hf as <- <-; (split; [done|]); (split; [done|]); intros Hq; by apply Q.
Qed.

Lemma unstage_spec id v detail err w e w' :
  unstage id v detail err w = (e, w') -> e = Some err /\ keeps_record w w' /\ calls (is_report id) w w'.
Proof.
  unfold unstage. destruct (RemoveVersion v w) as [u w1] eqn:E1. apply RemoveVersion_spec in E1 as (T1 & K1).
  destruct (report_failed id v detail w1) as [u2 w2] eqn:E2. apply report_failed_calls in E2 as (L2 & C2).
  intros [= <- <-]. split_and!; [done| |].
  - eapply keeps_trans; [exact K1 | by apply keeps_refl].
  - eapply calls_trans; [by apply calls_refl | exact C2].
Qed.

(** *** Hand-off *)

Lemma abandon_spec id v detail cause w e w' :
  abandon id v detail cause w = (e, w') ->
  e <> None /\ calls (is_report id) w w' /\ (quiet (local w) -> file (local w') = NoFile).
Proof.
  unfold abandon. destruct (on_local RemoveRecord w) as [e1 w1] eqn:E1. apply on_local_spec in E1 as (F1 & T1 & _).
  apply RemoveRecord_spec in F1 as (_ & _ & N1 & _ & Q1).
  destruct (RemoveVersion v w1) as [u2 w2] eqn:E2. apply RemoveVersion_spec in E2 as (T2 & K2 & _).
  destruct (report_failed id v detail w2) as [u3 w3] eqn:E3. apply report_failed_calls in E3 as (L3 & C3).
  intros [= <- <-]. split_and!; [done| |].
  - eapply calls_trans; [|exact C3]. apply calls_refl; congruence.
  - intros Hq. rewrite L3, K2. by apply N1, Q1.
Qed.

Lemma run_steps_spec steps w e w' :
  run_steps steps w = (e, w') -> trace w' = trace w /\ keeps_record w w' /\ (quiet (local w) -> e = None).
Proof.
  revert w; induction steps as [|words rest IH]; intros w; simpl.
  { intros [= <- <-]. split_and!; [done | by apply keeps_refl | done]. }
  destruct (other_file_op w) as [e1 w1] eqn:E1. apply other_file_op_spec in E1 as (T1 & K1 & Q1).
  destruct e1; [intros [= <- <-]; split_and!; [done | done | intros Hq; by apply Q1 in Hq]|].
  intros Hr. apply IH in Hr as (T2 & K2 & Q2). split_and!; [congruence | by eapply keeps_trans |].
  intros Hq. apply Q2. by apply K1.
Qed.

Definition supervisor_path : string := JoinPath [s_Dir s; supervisorName].

Definition report_or_spawn (id : string) (e : event) : Prop :=
  is_report id e \/ (e = EvSpawn supervisor_path /\ s_Spawn s = true).

Lemma hand_off_spec id v w e w' :
  hand_off s id v w = (e, w') ->
  calls (report_or_spawn id) w w' /\
  (e = None -> keeps_record w w' /\ trace w' = trace w ++ [EvSpawn supervisor_path]) /\
  (e <> None -> quiet (local w) -> file (local w') = NoFile).
Proof.
  unfold hand_off. destruct (copyRunningExecutable w) as [e1 w1] eqn:E1.
  apply run_steps_spec in E1 as (T1 & K1 & Q1). destruct e1.
  { intros Ha. apply abandon_spec in Ha as (He & Hc & Hq). split_and!; [|done|].
    - eapply calls_trans; [by apply calls_refl|]. eapply calls_impl; [|exact Hc]. by left.
    - intros _ Hqq. by apply Hq, K1. }
  destruct (s_Spawn s) eqn:Hs; simpl negb; cbv iota.
  2: { intros Ha. apply abandon_spec in Ha as (He & Hc & Hq). split_and!; [|done|].
    - eapply calls_trans; [by apply calls_refl|]. eapply calls_impl; [|exact Hc]. by left.
    - intros _ Hqq. by apply Hq, K1. }
  destruct (call_spawn _ w1) as [e2 w2] eqn:E2.
  assert (local w2 = local w1 /\ trace w2 = trace w1 ++ [EvSpawn supervisor_path]) as [L2 T2].
  { unfold call_spawn, emit in E2. simpl in E2. by destruct (spawns w1); injection E2 as <- <-. }
  assert (calls (report_or_spawn id) w w2) as C2.
  { exists [EvSpawn supervisor_path]. split; [congruence|]. apply Forall_singleton. by right. }
  destruct e2.
  - intros Ha. apply abandon_spec in Ha as (He & Hc & Hq). split_and!; [|done|].
    + eapply calls_trans; [exact C2|]. eapply calls_impl; [|exact Hc]. by left.
    + intros _ Hqq. apply Hq. rewrite L2. by apply K1.
  - intros [= <- <-]. split_and!; [done| |done]. intros _. split; [|congruence].
    eapply keeps_trans; [exact K1 | by apply keeps_refl].
Qed.

(** The attempt is on record, with the command line to go back to, and the
    last call started the supervisor. *)
Definition handed_off (item : Item) (opts : AgentOptions) (def : AgentVersionResponse) w w' : Prop :=
  exists bin args t pre,
    wired (svc (local w)) = Some (bin, args) /\
    file (local w') = HasRecord (mkRecord (it_ID item) (s_Running s) bin args (av_Version def)
      (JoinPath [versionDir s (av_Version def); BinName]) t (t + Deadline opts) StatusPending EmptyString false) /\
    trace w' = pre ++ [EvSpawn supervisor_path].

Lemma record_and_hand_off_spec item opts def w e w' :
  record_and_hand_off s item opts def w = (e, w') ->
  calls (report_or_spawn (it_ID item)) w w' /\
  (e = None -> handed_off item opts def w w') /\
  (e <> None -> quiet (local w) -> file (local w') = file (local w) \/ file (local w') = NoFile).
Proof.
  unfold record_and_hand_off. destruct (on_local (control Config) w) as [r w1] eqn:E1.
  apply on_local_spec in E1 as (C1 & T1 & _). apply control_spec in C1 as (C1 & F1 & _ & I1).
  apply Config_wired in C1 as [_ C1].
  assert (forall w2 id m1 m2, keeps_record w1 w2 -> trace w2 = trace w1 ->
    unstage id (av_Version def) m1 m2 w2 = (e, w') -> id = it_ID item ->
    calls (report_or_spawn (it_ID item)) w w' /\ (e = None -> handed_off item opts def w w') /\
    (e <> None -> quiet (local w) -> file (local w') = file (local w) \/ file (local w') = NoFile)) as Hun.
  { intros w2 id m1 m2 K2 T2 Hu ->. apply unstage_spec in Hu as (-> & K3 & C3). split_and!; [|done|].
    - eapply calls_trans; [|eapply calls_impl; [|exact C3]; by left]. apply calls_refl; congruence.
    - intros _ _. left. destruct K2 as [K2 _], K3 as [K3 _]. congruence. }
  destruct r as [[bin args]|m].
  2: { intros Hu. by eapply Hun; [apply keeps_refl| |exact Hu|]. }
  specialize (C1 _ eq_refl). destruct (now w1) as [t w2] eqn:E2. apply now_spec in E2 as (L2 & T2 & _).
  destruct (on_local (WriteRecord _) w2) as [e3 w3] eqn:E3. apply on_local_spec in E3 as (W3 & T3 & _).
  apply WriteRecord_spec in W3 as (S3 & _ & W3 & X3 & Q3). rewrite L2 in *.
  destruct e3 as [m|].
  { intros Hu. eapply Hun; [|by rewrite T3, T2|exact Hu|done]. unfold keeps_record.
    split_and!; [by apply X3 | done | intros Hq; by apply Q3 in Hq as []]. }
  specialize (W3 eq_refl). intros Hh. apply hand_off_spec in Hh as (C4 & K4 & N4). split_and!.
  - eapply calls_trans; [|exact C4]. apply calls_refl; congruence.
  - intros He. destruct (K4 He) as [K T4]. exists bin, args, t, (trace w3). split_and!; [done| |done].
    rewrite (proj1 K). exact W3.
  - intros He Hq. right. apply N4; [done|]. apply Q3. unfold quiet in *. by rewrite I1.
Qed.

(** *** Staging *)

(** The build's version is a plain name, and a trusted key signed this version
    and this hash. *)
Definition verified (def : AgentVersionResponse) : Prop :=
  validVersion (av_Version def) = true /\
  exists sig, base64_decode (av_Signature def) = Some sig /\
    Verify (s_Trusted s) (mkManifest (av_Version def) (av_SHA256 def))
      (mkSignature (av_Version def) (av_SHA256 def) (av_KeyID def) sig) = Ok tt.

(** What [stage] may do: report, and only for a verified build download and
    spawn. *)
Definition stage_call (item : Item) (def : AgentVersionResponse) (e : event) : Prop :=
  match e with
  | EvFetch _ => False
  | EvDownload id sha => id = it_ID item /\ sha = av_SHA256 def /\ verified def
  | EvReport id r => id = it_ID item /\ ur_Status r = ResultFailed
  | EvSpawn path => path = supervisor_path /\ verified def
  end.

Definition refused_record (id version : string) (rec : UpdateRecord) : Prop :=
  r_Status rec = StatusRefused /\ r_ItemID rec = id /\ r_ToVersion rec = version /\ r_Reported rec = true.

Lemma rememberRefusal_spec id v detail w u w' :
  rememberRefusal s id v detail w = (u, w') ->
  trace w' = trace w /\ svc (local w') = svc (local w) /\
  (quiet (local w) -> quiet (local w') /\ exists rec, file (local w') = HasRecord rec /\ refused_record id v rec).
Proof.
  unfold rememberRefusal. destruct (now w) as [t w1] eqn:E1. apply now_spec in E1 as (L1 & T1 & _).
  destruct (on_local (WriteRecord _) w1) as [e w2] eqn:E2. apply on_local_spec in E2 as (W2 & T2 & _).
  apply WriteRecord_spec in W2 as (S2 & _ & F2 & _ & Q2). rewrite L1 in *. intros [= _ <-].
  split_and!; [congruence | done |]. intros Hq. destruct (Q2 Hq) as [He Hq2]. split; [done|].
  eexists. split; [by apply F2 | done].
Qed.

Lemma signature_problem_None def :
  signature_problem s def = None -> validVersion (av_Version def) = true -> verified def.
Proof.
  unfold signature_problem, verified. destruct (base64_decode (av_Signature def)) as [sig|]; [|done].
  intros Hv Hver. split; [done|]. exists sig. split; [done|]. by destruct (Verify _ _ _) as [[]|].
Qed.

(** How an attempt that was not handed off leaves the record. *)
Definition given_up (id version : string) w w' : Prop :=
  file (local w') = file (local w) \/ file (local w') = NoFile \/
  exists rec, file (local w') = HasRecord rec /\ refused_record id version rec.

Definition stage_result item opts def w (e : gerror) w' : Prop :=
  calls (stage_call item def) w w' /\
  (e = None -> s_Control s = true -> handed_off item opts def w w') /\
  (e <> None -> quiet (local w) -> given_up (it_ID item) (av_Version def) w w').

Lemma report_then item def e id : is_report id e -> id = it_ID item -> stage_call item def e.
Proof. by destruct e; simpl; [|..]; intros; destruct_and?; subst. Qed.

(** Continue after steps that left the record alone. *)
Lemma stage_result_after item opts def w w1 e w' :
  calls (stage_call item def) w w1 -> keeps_record w w1 -> stage_result item opts def w1 e w' ->
  stage_result item opts def w e w'.
Proof.
  intros C1 (F1 & S1 & Q1) (C2 & H2 & G2). split_and!.
  - by eapply calls_trans.
  - intros He Hc. destruct (H2 He Hc) as (bin & args & t & pre & Hw & Hf & Ht).
    exists bin, args, t, pre. by rewrite <- S1.
  - intros He Hq. unfold given_up in *. rewrite <- F1. auto.
Qed.

Lemma unstage_result item opts def detail err w e w' :
  unstage (it_ID item) (av_Version def) detail err w = (e, w') -> stage_result item opts def w e w'.
Proof.
  intros (-> & K & C)%unstage_spec. split_and!; [|done|].
  - eapply calls_impl; [|exact C]. intros ev Hev. by eapply report_then.
  - intros _ _. left. apply K.
Qed.

Lemma record_result item opts def w e w' :
  verified def -> record_and_hand_off s item opts def w = (e, w') -> stage_result item opts def w e w'.
Proof.
  intros Hv (C & Hh & Hg)%record_and_hand_off_spec. split_and!.
  - eapply calls_impl; [|exact C]. intros ev [Hev|[-> _]]; [by eapply report_then|]. done.
  - auto.
  - intros He Hq. destruct (Hg He Hq); [left | right; left]; done.
Qed.

(** Report a refusal and remember it. *)
Lemma refuse_result item opts def detail err w e w' :
  (let '(_, w) := report_failed (it_ID item) (av_Version def) detail w in
   let '(_, w) := rememberRefusal s (it_ID item) (av_Version def) detail w in (Some err, w)) = (e, w') ->
  stage_result item opts def w e w'.
Proof.
  destruct (report_failed _ _ _ w) as [u w1] eqn:E1. apply report_failed_calls in E1 as (L1 & C1).
  destruct (rememberRefusal _ _ _ _ w1) as [u2 w2] eqn:E2. apply rememberRefusal_spec in E2 as (T2 & _ & Q2).
  intros [= <- <-]. split_and!; [|done|].
  - eapply calls_trans; [|by apply calls_refl]. eapply calls_impl; [|exact C1].
    intros ev Hev. by eapply report_then.
  - intros _ Hq. right; right. apply Q2. by rewrite L1.
Qed.

Lemma download_spec id sha w e w' :
  download id sha w = (e, w') ->
  keeps_record w w' /\ calls (fun ev => ev = EvDownload id sha) w w'.
Proof.
  unfold download. destruct (other_file_op w) as [e1 w1] eqn:E1. apply other_file_op_spec in E1 as (T1 & K1 & _).
  destruct e1; [intros [= <- <-]; split; [done | by apply calls_refl]|].
  unfold emit. destruct (on_net _ _) as [e2 w2] eqn:E2. apply on_net_spec in E2 as (L2 & T2 & _).
  intros [= <- <-]. simpl in *. split; [eapply keeps_trans; [exact K1 | by apply keeps_refl]|].
  exists [EvDownload id sha]. split; [congruence | by apply Forall_singleton].
Qed.

Lemma stage_spec item opts def w e w' :
  stage s item opts def w = (e, w') -> stage_result item opts def w e w'.
Proof.
  unfold stage. destruct (s_Control s) eqn:Hc; simpl negb; cbv iota.
  2: { destruct (report _ _ _ _ _ w) as [e1 w1] eqn:E1. apply report_calls in E1 as (L1 & C1).
    intros [= <- <-]. split_and!; [|congruence|].
    - eapply calls_impl; [|exact C1]. intros ev Hev. by eapply report_then.
    - intros _ _. left. by rewrite L1. }
  destruct (validVersion (av_Version def)) eqn:Hv; simpl negb; cbv iota.
  2: { destruct (report_failed _ _ _ w) as [u w1] eqn:E1. apply report_failed_calls in E1 as (L1 & C1).
    intros [= <- <-]. split_and!; [|done|].
    - eapply calls_impl; [|exact C1]. intros ev Hev. by eapply report_then.
    - intros _ _. left. by rewrite L1. }
  destruct (signature_problem s def) as [[detail err]|] eqn:Hsig; [by apply refuse_result|].
  apply signature_problem_None in Hsig; [|done].
  destruct (MkdirVersion _ w) as [e1 w1] eqn:E1. apply MkdirVersion_spec in E1 as (T1 & K1 & Q1).
  destruct e1 as [m|].
  { intros [= <- <-]. split_and!; [by apply calls_refl | done |]. intros _ _. left. apply K1. }
  intros Hr. eapply stage_result_after; [by apply calls_refl | exact K1 |]. revert Hr.
  destruct (download _ _ w1) as [e2 w2] eqn:E2. apply download_spec in E2 as (K2 & C2).
  intros Hr. eapply stage_result_after; [|exact K2|].
  { eapply calls_impl; [|exact C2]. intros ev ->. done. }
  revert Hr. destruct e2; [apply unstage_result|].
  destruct (other_file_op w2) as [e3 w3] eqn:E3. apply other_file_op_spec in E3 as (T3 & K3 & _).
  intros Hr. eapply stage_result_after; [by apply calls_refl | exact K3 |]. revert Hr.
  destruct e3; [apply unstage_result|].
  destruct (other_file_op w3) as [e4 w4] eqn:E4. apply other_file_op_spec in E4 as (T4 & K4 & _).
  intros Hr. eapply stage_result_after; [by apply calls_refl | exact K4 |]. revert Hr.
  destruct e4; [apply unstage_result|].
  destruct (s_CheckExecutable s) as [check|]; [|by apply record_result].
  destruct (check _); [|by apply record_result].
  destruct (RemoveVersion _ w4) as [u5 w5] eqn:E5. apply RemoveVersion_spec in E5 as (T5 & K5).
  intros Hr. eapply stage_result_after; [by apply calls_refl | exact K5 |]. by eapply refuse_result.
Qed.

(** *** One item, and a whole cycle *)

(** What a cycle over [items] may do: report failures, ask about an assigned
    agent build, and download or run only one whose answer verified, whose
    version is another than the running one, on a stamped build. *)
Definition wanted (items : list Item) (id : string) : Prop :=
  exists item, item ∈ items /\ it_Kind item = ItemKindAgent /\ it_ID item = id.

Definition offered (id : string) (def : AgentVersionResponse) : Prop :=
  (exists n n', FetchAgentVersion id n = (Ok def, n')) /\
  verified def /\ s_Injected s = true /\ av_Version def <> s_Running s.

Definition cycle_call (items : list Item) (e : event) : Prop :=
  match e with
  | EvFetch id => wanted items id
  | EvDownload id sha => wanted items id /\ exists def, offered id def /\ sha = av_SHA256 def
  | EvSpawn path => path = supervisor_path /\ exists id def, wanted items id /\ offered id def
  | EvReport _ r => ur_Status r = ResultFailed
  end.

Lemma ReadRecord_on_local w r w1 :
  on_local ReadRecord w = (r, w1) ->
  trace w1 = trace w /\ keeps_record w w1 /\ Rollback w1 = Rollback w /\
  (forall rec b, r = Ok (rec, b) -> file (local w) = if b : bool then HasRecord rec else NoFile) /\
  (quiet (local w) -> forall rec, file (local w) = HasRecord rec -> r = Ok (rec, true)).
Proof.
  intros (HR & T & RB)%on_local_spec. apply ReadRecord_spec in HR as (S & F & _ & Q & R1 & R2).
  by split_and!.
Qed.

(** The cases of [syncOne]. *)
Lemma syncOne_cases item w e w' :
  syncOne s item w = (e, w') ->
  (trace w' = trace w /\ keeps_record w w') \/
  (exists rec b w1, file (local w) = (if b : bool then HasRecord rec else NoFile) /\
     AlreadyRefused rec b (it_ID item) = false /\
     trace w1 = trace w ++ [EvFetch (it_ID item)] /\ keeps_record w w1 /\
     (w1 = w' \/ exists def n n' opts, FetchAgentVersion (it_ID item) n = (Ok def, n') /\
        let d := Decide (s_Running s) (av_Version def) (s_Injected s) (Z.of_nat (length (s_Trusted s))) rec in
        (d_Action d = ActionNone /\ local w' = local w1 /\ calls (is_report (it_ID item)) w1 w') \/
        (d_Action d = ActionUpdate /\ stage s item opts def w1 = (e, w')))).
Proof.
  unfold syncOne. destruct (ParseAgentOptions (it_Options item)) as [opts|].
  2: { intros [= <- <-]. left. split; [done | by apply keeps_refl]. }
  destruct (on_local ReadRecord w) as [r w1] eqn:E1.
  apply ReadRecord_on_local in E1 as (T1 & K1 & _ & R1 & _).
  destruct r as [[rec b]|m]; [|intros [= <- <-]; by left].
  specialize (R1 _ _ eq_refl). destruct (AlreadyRefused rec b (it_ID item)) eqn:Ha.
  { intros [= <- <-]. by left. }
  unfold emit. destruct (on_net _ _) as [r2 w2] eqn:E2. apply on_net_spec in E2 as (L2 & T2 & _ & n & n' & Hn).
  simpl in L2, T2. intros Hrun. right. exists rec, b, w2. split_and!; try done; [congruence| |].
  { eapply keeps_trans; [exact K1 | by apply keeps_refl]. }
  destruct r2 as [def|er]; [|injection Hrun as _ <-; by left].
  right. exists def, n, n', opts. split; [done|]. cbv zeta.
  destruct (d_Action (Decide _ _ _ _ rec)); [left | by right]. split; [done|].
  destruct (d_Report _).
  - destruct (report _ _ _ _ _ w2) as [e3 w3] eqn:E3. apply report_calls in E3 as [L3 C3].
    by injection Hrun as _ <-.
  - injection Hrun as _ <-. split; [done | by apply calls_refl].
Qed.

Lemma syncOne_calls items item w e w' :
  item ∈ items -> it_Kind item = ItemKindAgent -> syncOne s item w = (e, w') -> calls (cycle_call items) w w'.
Proof.
  intros Hin Hk Hs. assert (wanted items (it_ID item)) as Hw by (by exists item).
  apply syncOne_cases in Hs as [[T _]|(rec & b & w1 & Hf & _ & T1 & _ & Hs)]; [by apply calls_refl|].
  assert (calls (cycle_call items) w w1) as C1 by (eexists; split; [exact T1 | by apply Forall_singleton]).
  destruct Hs as [->|(def & n & n' & opts & Hn & Hs)]; [done|]. eapply calls_trans; [exact C1|].
  destruct Hs as [(_ & _ & C)|[Hd Hst]].
  - eapply calls_impl; [|exact C]. intros [] He; simpl in *; try done. by destruct He.
  - apply stage_spec in Hst as (C & _). eapply calls_impl; [|exact C].
    unfold Decide in Hd. destruct (s_Injected s) eqn:Hi; [|done]. simpl in Hd.
    destruct (String.eqb (av_Version def) ""); [done|].
    destruct (String.eqb_spec (s_Running s) (av_Version def)) as [|Hne]; [done|].
    assert (verified def -> offered (it_ID item) def) as Ho.
    { intros Hv. split; [eauto|]. split; [exact Hv|]. split; [done | congruence]. }
    intros [] He; simpl in *; try done.
    + destruct He as (-> & -> & Hv). eauto.
    + by destruct He.
    + destruct He as (-> & Hv). eauto 6.
Qed.

Lemma sync_items_calls items ctx l w e w' :
  (forall i, i ∈ l -> i ∈ items) -> sync_items s ctx l w = (e, w') -> calls (cycle_call items) w w'.
Proof.
  revert ctx w; induction l as [|item l IH]; intros ctx w Hl; simpl.
  { intros [= _ <-]. by apply calls_refl. }
  assert (forall i, i ∈ l -> i ∈ items) as Hl' by (intros i Hi; apply Hl; by right).
  destruct (String.eqb_spec (it_Kind item) ItemKindAgent) as [Hk|]; simpl; [|by apply IH].
  assert (forall rest, (let '(_, w0) := syncOne s item w in sync_items s rest l w0) = (e, w') ->
    calls (cycle_call items) w w') as Hone.
  { intros rest. destruct (syncOne s item w) as [e1 w1] eqn:E1. intros Hr.
    eapply calls_trans; [eapply syncOne_calls; [|exact Hk|exact E1]; apply Hl; by left | by eapply IH]. }
  destruct ctx as [|[c|] ctx]; [apply Hone | | apply Hone]. intros [= _ <-]. by apply calls_refl.
Qed.

Lemma markReported_spec rec w u w' :
  markReported rec w = (u, w') ->
  trace w' = trace w /\
  (file (local w') = file (local w) \/
   exists cur, file (local w) = HasRecord cur /\ r_ToVersion cur = r_ToVersion rec /\
     r_Status cur = r_Status rec /\ file (local w') = HasRecord (with_reported cur true)).
Proof.
  unfold markReported. destruct (on_local ReadRecord w) as [r w1] eqn:E1.
  apply ReadRecord_on_local in E1 as (T1 & (F1 & _) & _ & R1 & _).
  destruct r as [[cur b]|m]; [|intros [= _ <-]; by split; [|left]]. specialize (R1 _ _ eq_refl).
  destruct b; simpl; [|intros [= _ <-]; by split; [|left]].
  destruct (String.eqb_spec (r_ToVersion cur) (r_ToVersion rec)); simpl; [|intros [= _ <-]; by split; [|left]].
  destruct (String.eqb_spec (r_Status cur) (r_Status rec)); simpl; [|intros [= _ <-]; by split; [|left]].
  destruct (on_local (WriteRecord _) w1) as [e2 w2] eqn:E2. apply on_local_spec in E2 as (W2 & T2 & _).
  apply WriteRecord_spec in W2 as (_ & _ & W2 & X2 & _). intros [= _ <-]. split; [congruence|].
  destruct e2; [left; rewrite <- F1; by apply X2 | right; exists cur; split_and!; auto].
Qed.

Lemma adopt_rollback_spec w u w' :
  adopt_rollback w = (u, w') -> trace w' = trace w /\ keeps_record w w'.
Proof.
  unfold adopt_rollback. destruct (Rollback w); [intros [= _ <-]; split; [done | by apply keeps_refl]|].
  destruct (on_local ReadRecord w) as [r w1] eqn:E1. apply ReadRecord_on_local in E1 as (T1 & K1 & _).
  destruct r as [[rec b]|]; [|by intros [= _ <-]].
  by destruct (b && _ && _); intros [= _ <-].
Qed.

Lemma report_rollback_spec w u w' :
  report_rollback w = (u, w') ->
  (exists evs, trace w' = trace w ++ evs /\ (length evs <= 1)%nat /\
     Forall (fun ev => exists rec t, Rollback w = Some rec /\
       ev = EvReport (r_ItemID rec) (mkResult (r_FromVersion rec) ResultFailed (r_ToVersion rec) (r_Detail rec) t)) evs).
Proof.
  unfold report_rollback. destruct (Rollback w) as [rec|].
  2: { intros [= _ <-]. exists []. rewrite app_nil_r. split_and!; [done | simpl; lia | constructor]. }
  destruct (report _ _ _ _ _ w) as [e w1] eqn:E1. apply report_spec in E1 as (L1 & RB1 & t & T1).
  intros Hd. exists [EvReport (r_ItemID rec) (mkResult (r_FromVersion rec) ResultFailed (r_ToVersion rec) (r_Detail rec) t)].
  split_and!; [|simpl; lia | apply Forall_singleton; eauto]. rewrite <- T1.
  destruct (markReported rec w1) as [u2 w2] eqn:E2. apply markReported_spec in E2 as (T2 & _).
  destruct e as [err|]; [destruct (isGone err)|]; injection Hd as _ <-; simpl; done.
Qed.

(** C1. In a whole cycle, every download and every start of the supervisor
    concerns an assigned agent build whose version and hash a trusted release
    key signed, on a stamped build running another version; and nothing but
    failures is reported. The server cannot make the fleet run anything else. *)
Theorem only_verified_builds_run loc ctx items w :
  calls (cycle_call items) w (snd (Sync s loc ctx items w)).
Proof.
  unfold Sync. destruct (adopt_rollback w) as [u1 w1] eqn:E1. apply adopt_rollback_spec in E1 as (T1 & _).
  destruct (report_rollback w1) as [u2 w2] eqn:E2. apply report_rollback_spec in E2 as (evs & T2 & _ & P2).
  assert (calls (cycle_call items) w w2) as C2.
  { exists evs. rewrite T2, T1. split; [done|]. eapply Forall_impl; [exact P2|]. by intros ev (rec & t & _ & ->). }
  destruct (now w2) as [t w3] eqn:E3. apply now_spec in E3 as (_ & T3 & _).
  eapply calls_trans; [exact C2|]. destruct (negb _); [by apply calls_refl|].
  eapply calls_trans; [by apply calls_refl|]. destruct (sync_items s ctx items w3) as [e w4] eqn:E4.
  by eapply sync_items_calls.
Qed.

(** Outside every maintenance window, a cycle makes at most one call,
    which reports a rollback: no build is asked about, fetched or run. *)
Theorem updates_wait_for_a_window loc ctx items w e w' :
  (forall t, Open loc (WindowsFrom items) t = false) -> Sync s loc ctx items w = (e, w') ->
  e = None /\ exists evs, trace w' = trace w ++ evs /\ (length evs <= 1)%nat /\
    Forall (fun ev => exists id r, ev = EvReport id r /\ ur_Status r = ResultFailed) evs.
Proof.
  intros Ho. unfold Sync. destruct (adopt_rollback w) as [u1 w1] eqn:E1. apply adopt_rollback_spec in E1 as (T1 & _).
  destruct (report_rollback w1) as [u2 w2] eqn:E2. apply report_rollback_spec in E2 as (evs & T2 & L2 & P2).
  destruct (now w2) as [t w3] eqn:E3. apply now_spec in E3 as (_ & T3 & _).
  rewrite Ho. intros [= <- <-]. split; [done|]. exists evs. split_and!; [congruence | done |].
  eapply Forall_impl; [exact P2|]. intros ev (rec & t' & _ & ->). eauto.
Qed.

(** When no file operation fails, the record changes in exactly three
    ways while one item is processed: to a pending attempt whose supervisor
    has just been started and which holds the service's own command line; to
    a remembered refusal; or it is removed, with an error. No pending record
    is left without a supervisor. *)
Theorem pending_record_has_supervisor item w e w' :
  quiet (local w) -> syncOne s item w = (e, w') -> file (local w') <> file (local w) ->
  (e = None /\ exists opts def, verified def /\ handed_off item opts def w w') \/
  (e <> None /\ exists def, given_up (it_ID item) (av_Version def) w w').
Proof.
  intros Hq Hs Hne.
  apply syncOne_cases in Hs as [[_ [K _]]|(rec & b & w1 & Hf & _ & T1 & (F1 & S1 & Q1) & Hs)]; [done|].
  destruct Hs as [->|(def & n & n' & opts & Hn & [(_ & L & _)|[_ Hst]])]; [done|congruence|].
  destruct (s_Control s) eqn:Hc.
  2: { unfold stage in Hst. rewrite Hc in Hst. simpl in Hst.
    destruct (report _ _ _ _ _ w1) as [e2 w2] eqn:E2. apply report_spec in E2 as (L2 & _).
    injection Hst as _ <-. congruence. }
  pose proof (stage_spec _ _ _ _ _ _ Hst) as (C & H & G). destruct e as [m|].
  - right. split; [done|]. exists def. unfold given_up in *. rewrite <- F1. apply G; auto.
  - left. split; [done|]. exists opts, def. destruct (H eq_refl Hc) as (bin & args & t & pre & Hw & Hfile & Ht).
    split; [|exists bin, args, t, pre; by rewrite <- S1].
    destruct C as (evs & Hevs & HP). destruct evs as [|ev evs _] using rev_ind.
    + (* nothing was called, so the spawn is not the last call *)
      exfalso. rewrite app_nil_r, T1 in Hevs. rewrite Hevs in Ht.
      apply app_inj_tail in Ht as [_ Ht]. done.
    + rewrite Hevs, app_assoc in Ht. apply app_inj_tail in Ht as [_ ->].
      apply Forall_app in HP as [_ HP]. rewrite Forall_singleton in HP. apply HP.
Qed.

(** A version recorded as rolled back or under way on this device is not
    downloaded or run again while it stays assigned, and a build refused once
    is not even asked about; the record stays as it is. *)
Theorem settled_versions_left_alone item rec w e w' :
  quiet (local w) -> file (local w) = HasRecord rec -> syncOne s item w = (e, w') ->
  (r_Status rec = StatusRefused -> r_ItemID rec = it_ID item ->
     trace w' = trace w /\ file (local w') = HasRecord rec) /\
  (r_Status rec = StatusRolledBack \/ r_Status rec = StatusPending ->
   (forall n def n', FetchAgentVersion (it_ID item) n = (Ok def, n') -> av_Version def = r_ToVersion rec) ->
     calls (fun ev => match ev with EvDownload _ _ | EvSpawn _ => False | _ => True end) w w' /\
     file (local w') = HasRecord rec).
Proof.
  intros Hq Hf Hs.
  apply syncOne_cases in Hs as [[T [F _]]|(rec' & b & w1 & Hf' & Ha & T1 & (F1 & _) & Hs)].
  { rewrite F. split; [done|]. intros _ _. split; [by apply calls_refl | done]. }
  destruct b; [|congruence]. assert (rec' = rec) as -> by congruence. split.
  { intros H1 H2. unfold AlreadyRefused in Ha. by rewrite H1, H2, !String.eqb_refl in Ha. }
  intros Hst Hver.
  assert (calls (fun ev => match ev with EvDownload _ _ | EvSpawn _ => False | _ => True end) w w1) as C1
    by (eexists; split; [exact T1 | by apply Forall_singleton]).
  destruct Hs as [->|(def & n & n' & opts & Hn & Hs)]; [by rewrite F1|].
  destruct Hs as [(_ & L & C)|[Hd _]].
  - split; [|rewrite L; congruence]. eapply calls_trans; [exact C1|].
    eapply calls_impl; [|exact C]. by intros [].
  - exfalso. apply Hver in Hn. revert Hd. unfold Decide, earlier_attempt. rewrite Hn, String.eqb_refl.
    destruct (negb _); [done|]. destruct (String.eqb (r_ToVersion rec) ""); [done|].
    destruct (String.eqb (s_Running s) (r_ToVersion rec)); [done|]. destruct (_ =? 0); [done|].
    by destruct Hst as [->| ->].
Qed.

(** What the check-in path and the report path may do to the record,
    whatever it holds by then: [CheckedIn] only turns a pending attempt at the
    running version into a success, and [markReported] only sets the flag of
    a record for the same version and status. *)
Theorem record_updates_are_guarded w :
  (file (local (snd (CheckedIn s w))) = file (local w) \/
   exists rec, file (local w) = HasRecord rec /\ r_Status rec = StatusPending /\
     r_ToVersion rec = s_Running s /\
     file (local (snd (CheckedIn s w))) = HasRecord (with_status rec StatusSucceeded)) /\
  forall rec, file (local (snd (markReported rec w))) = file (local w) \/
    exists cur, file (local w) = HasRecord cur /\ r_ToVersion cur = r_ToVersion rec /\
      r_Status cur = r_Status rec /\
      file (local (snd (markReported rec w))) = HasRecord (with_reported cur true).
Proof.
  split.
  - unfold CheckedIn. destruct (on_local ReadRecord w) as [r w1] eqn:E1.
    apply ReadRecord_on_local in E1 as (T1 & (F1 & _) & _ & R1 & _).
    destruct r as [[cur b]|m]; [|by left]. specialize (R1 _ _ eq_refl).
    destruct b; simpl; [|by left].
    destruct (String.eqb_spec (r_Status cur) StatusPending) as [Hp|]; simpl; [|by left].
    destruct (String.eqb_spec (r_ToVersion cur) (s_Running s)) as [Hv|]; simpl; [|by left].
    destruct (on_local (WriteRecord _) w1) as [e2 w2] eqn:E2. apply on_local_spec in E2 as (W2 & _).
    apply WriteRecord_spec in W2 as (_ & _ & W2 & X2 & _).
    destruct e2; simpl; [left; rewrite <- F1; by apply X2 | right; exists cur; split_and!; auto].
  - intros rec. destruct (markReported rec w) as [u w'] eqn:E. apply markReported_spec in E as [_ E]. exact E.
Qed.

(** A check-in of the build that was staged is the proof the supervisor
    waits for: the record then says the update succeeded. *)
Theorem checked_in_proves_life rec w :
  quiet (local w) -> file (local w) = HasRecord rec -> r_Status rec = StatusPending ->
  r_ToVersion rec = s_Running s ->
  fst (CheckedIn s w) = None /\ settled (local (snd (CheckedIn s w))).
Proof.
  intros Hq Hf Hp Hv. unfold CheckedIn. destruct (on_local ReadRecord w) as [r w1] eqn:E1.
  apply ReadRecord_on_local in E1 as (_ & (_ & _ & Q1) & _ & _ & R1). rewrite (R1 Hq _ Hf).
  rewrite Hp, Hv, String.eqb_refl. cbn [negb orb String.eqb]. simpl.
  destruct (on_local (WriteRecord _) w1) as [e2 w2] eqn:E2. apply on_local_spec in E2 as (W2 & _).
  apply WriteRecord_spec in W2 as (_ & _ & W2 & _ & Q2). destruct (Q2 (Q1 Hq)) as [-> _].
  rewrite String.eqb_refl. split; [done|]. exists (with_status rec StatusSucceeded). split; [by apply W2 | done].
Qed.
End Theorems.

(** *** Witnesses: a toy server and the systemd controller *)

Module SampleSync.
#[export] Existing Instance Toy.toy_crypto.

Definition agent : Syncer :=
  mkSyncer "/d" true "1.0" true [Toy.keyA] None (Some (fun _ => None)) true.

Definition signed (version : string) : AgentVersionResponse :=
  let sig := Sign (mkPrivateKey (Toy.key "A")) (mkManifest version "ab") in
  mkResponse version "ab" (sig_KeyID sig) (base64_encode (sig_Signature sig)).

(** A server that offers version 2.0, signed, to everyone. *)
#[export] Instance server : Client unit := {|
  FetchAgentVersion id n := (Ok (signed "2.0"), n);
  DownloadAgentBinary id sha n := (None, n);
  ReportAgentUpdate id r n := (None, n)
|}.

Definition item : Item := mkItem ItemKindAgent "i" 1 RawBlank.

Definition start (f : record_file) : sworld systemd unit :=
  mkSworld (mkWorld Sample.sd f [] []) tt None [100; 200; 300] [] [].

Definition utc : Location := fun _ => mkZone 0 MinInt64 MaxInt64.

(** A window that is unreadable, so never open. *)
Definition closed : Item := mkItem ItemKindWindow "w" 1 RawBad.
End SampleSync.
Import SampleSync.

Lemma updates_wait_for_a_window_witness :
  exists w', Sync agent utc [] [closed; item] (start NoFile) = (None, w') /\
    exists evs, trace w' = trace (start NoFile) ++ evs /\ (length evs <= 1)%nat.
Proof.
  eexists. split; [vm_compute; reflexivity|].
  destruct (updates_wait_for_a_window agent utc [] [closed; item] (start NoFile) _ _
    (fun t => eq_refl) eq_refl) as (_ & evs & T & L & _).
  exact (ex_intro _ evs (conj T L)).
Defined.

Lemma pending_record_has_supervisor_witness :
  exists w', syncOne agent item (start NoFile) = (None, w') /\
    trace w' = [EvFetch "i"; EvDownload "i" "ab"; EvSpawn "/d/supervisor"]%string /\
    exists opts def, verified agent def /\ handed_off agent item opts def (start NoFile) w'.
Proof.
  eexists. split; [vm_compute; reflexivity|]. split; [vm_compute; reflexivity|].
  destruct (pending_record_has_supervisor agent item (start NoFile) None
    (snd (syncOne agent item (start NoFile))) ltac:(constructor)
    ltac:(vm_compute; reflexivity) ltac:(vm_compute; discriminate)) as [[_ Hh]|[He _]].
  - exact Hh.
  - destruct (He eq_refl).
Defined.

Lemma settled_versions_left_alone_witness :
  let rec := with_status Sample.rec StatusRolledBack in
  let w := start (HasRecord rec) in
  calls (fun ev => match ev with EvDownload _ _ | EvSpawn _ => False | _ => True end)
    w (snd (syncOne agent item w)) /\
  file (local (snd (syncOne agent item w))) = HasRecord rec.
Proof.
  refine (proj2 (settled_versions_left_alone agent item (with_status Sample.rec StatusRolledBack)
    (start (HasRecord (with_status Sample.rec StatusRolledBack))) _ _ _ eq_refl _) _ _).
  - constructor.
  - vm_compute. reflexivity.
  - left. reflexivity.
  - intros n def n' [= <- _]. reflexivity.
Defined.

Lemma checked_in_proves_life_witness :
  let agent2 := mkSyncer "/d" true "2.0" true [Toy.keyA] None None true in
  let w := start (HasRecord Sample.rec) in
  fst (CheckedIn agent2 w) = None /\ settled (local (snd (CheckedIn agent2 w))).
Proof.
  apply (checked_in_proves_life (mkSyncer "/d" true "2.0" true [Toy.keyA] None None true) Sample.rec
    (start (HasRecord Sample.rec))); [constructor | reflexivity..].
Defined.
