(* ===== verification/Payload.v ===== *)
(** * Command payloads

    [internal/protocol/commands.go] and [normalizePayload] of
    [internal/server/commands/service.go]: what each command type may carry,
    the defaults filled in, the bounds enforced, and the canonical JSON that is
    stored. Instants in JSON are text; [JsonTime] stands for the package
    [time]'s reading and writing of it. *)
From S2P Require Export Json Release.
Open Scope go_scope.

(** [time.Time]'s [MarshalJSON] and [UnmarshalJSON]. *)
Class JsonTime := {
  time_text : time -> string;
  parse_time : string -> option time
}.

(** An instant that was read (its year is one RFC 3339 can write) is written so
    that it reads back the same. *)
Class JsonTimeLaws `{JsonTime} : Prop := {
  parse_time_text s t : parse_time s = Some t -> parse_time (time_text t) = Some t
}.

(** ** Types *)

Definition CommandRunPowerShell : string := "run_powershell".
Definition CommandRestart : string := "restart".
Definition CommandRefreshInventory : string := "refresh_inventory".
Definition CommandLock : string := "lock".
Definition CommandCollectLogs : string := "collect_logs".
Definition CommandWipe : string := "wipe".
Definition CommandRotateAdminPassword : string := "rotate_local_admin_password".
Definition CommandRenameComputer : string := "rename_computer".
Definition CommandInstallUpdates : string := "install_updates".
Definition CommandRemoteShell : string := "remote_shell".

Definition UpdatesSecurity : string := "security".
Definition UpdatesAll : string := "all".
Definition UpdateRestartNever : string := "never".
Definition UpdateRestartIfRequired : string := "if_required".

Definition MaxOutputBytes : Z := 2 ^ 20.

Definition ResultSucceeded : string := "succeeded".
Definition ResultFailed : string := "failed".
Definition ResultTimedOut : string := "timed_out".

Definition MinAdminPasswordLength : Z := 20.
Definition MaxAdminPasswordLength : Z := 64.
Definition DefaultAdminPasswordLength : Z := 24.
Definition MinLogHours : Z := 1.
Definition MaxLogHours : Z := 168.
Definition DefaultLogHours : Z := 24.

Definition DefaultScriptTimeout : duration := 10 * Minute.
Definition MaxScriptTimeout : duration := 24 * Hour.
Definition maxRestartMessage : Z := 512.

Record RunPowerShellPayload := mkRunPowerShell {
  rp_Script : string; rp_TimeoutSeconds : Z; rp_Signature : option OpSignature }.
Record RestartPayload := mkRestart { rs_DelaySeconds : Z; rs_Message : string }.
Record CollectLogsPayload := mkCollectLogs { cl_Hours : Z }.
Record WipePayload := mkWipe {
  wp_Protected : bool; wp_Expires : option time; wp_Signature : option OpSignature }.
Record InstallUpdatesPayload := mkInstallUpdates { iu_Scope : string; iu_Restart : string }.
Record RenameComputerPayload := mkRename { rn_Name : string; rn_Restart : bool }.
Record RotateAdminPasswordPayload := mkRotate { ra_Account : string; ra_Length : Z }.

(** 1 to 15 letters, digits and hyphens, not all digits, no hyphen at an end. *)
Fixpoint computer_name_chars (digits : bool) (s : string) : bool :=
  match s with
  | EmptyString => negb digits
  | String c r =>
      if is_digit c then computer_name_chars digits r
      else if is_lower c || is_upper c || Ascii.eqb c "-" then computer_name_chars false r
      else false
  end.

Definition ValidComputerName (name : string) : bool :=
  if (slen name =? 0) || (slen name >? 15) || HasPrefix name "-" || HasPrefix (srev name) "-"
  then false
  else computer_name_chars true name.

(** ** JSON *)

Section Payload.
Context `{JT : JsonTime}.

(** A pointer to a struct: [null] clears it, anything else is decoded into the
    struct it points to, or a new one. *)
Definition pointer_field {S T} (name : string) (fs : list (field T)) (zero : T)
    (get : S -> option T) (set : option T -> S -> S) : field S :=
  (name, fun v s => match v with
    | JNull => Ok (set None s)
    | _ => rbind (decode_struct false fs v (default zero (get s))) (fun t => Ok (set (Some t) s))
    end).

(** [UnmarshalJSON] of a [*time.Time]. *)
Definition time_field {S} (name : string) (set : option time -> S -> S) : field S :=
  (name, fun v s => match v with
    | JNull => Ok (set None s)
    | JStr t => match parse_time t with Some i => Ok (set (Some i) s) | None => Err TypeMismatch end
    | _ => Err TypeMismatch
    end).

Definition op_signature_fields : list (field OpSignature) := [
  string_field "key_id" (fun v g => mkOpSignature v (op_Signature g));
  string_field "signature" (fun v g => mkOpSignature (op_KeyID g) v)].

Definition no_signature : OpSignature := mkOpSignature EmptyString EmptyString.

Definition signature_json (g : OpSignature) : json :=
  JObj [("key_id", JStr (op_KeyID g)); ("signature", JStr (op_Signature g))]%string.

(** [omitempty] of a pointer. *)
Definition omit_none {A} (key : string) (f : A -> json) (o : option A) : list (string * json) :=
  match o with Some a => [(key, f a)] | None => [] end.

Definition run_powershell_fields : list (field RunPowerShellPayload) := [
  string_field "script" (fun v p => mkRunPowerShell v (rp_TimeoutSeconds p) (rp_Signature p));
  int_field "timeout_seconds" (fun v p => mkRunPowerShell (rp_Script p) v (rp_Signature p));
  pointer_field "signature" op_signature_fields no_signature rp_Signature
    (fun v p => mkRunPowerShell (rp_Script p) (rp_TimeoutSeconds p) v)].

Definition run_powershell_json (p : RunPowerShellPayload) : json :=
  JObj ([("script", JStr (rp_Script p)); ("timeout_seconds", jint (rp_TimeoutSeconds p))]%string
        ++ omit_none "signature" signature_json (rp_Signature p)).

Definition restart_fields : list (field RestartPayload) := [
  int_field "delay_seconds" (fun v p => mkRestart v (rs_Message p));
  string_field "message" (fun v p => mkRestart (rs_DelaySeconds p) v)].

Definition restart_json (p : RestartPayload) : json :=
  JObj [("delay_seconds", jint (rs_DelaySeconds p)); ("message", JStr (rs_Message p))]%string.

Definition collect_logs_fields : list (field CollectLogsPayload) := [
  int_field "hours" (fun v p => mkCollectLogs v)].

Definition collect_logs_json (p : CollectLogsPayload) : json := JObj [("hours", jint (cl_Hours p))]%string.

Definition wipe_fields : list (field WipePayload) := [
  bool_field "protected" (fun v p => mkWipe v (wp_Expires p) (wp_Signature p));
  time_field "expires" (fun v p => mkWipe (wp_Protected p) v (wp_Signature p));
  pointer_field "signature" op_signature_fields no_signature wp_Signature
    (fun v p => mkWipe (wp_Protected p) (wp_Expires p) v)].

Definition wipe_json (p : WipePayload) : json :=
  JObj ([("protected", JBool (wp_Protected p))]%string
        ++ omit_none "expires" (fun t => JStr (time_text t)) (wp_Expires p)
        ++ omit_none "signature" signature_json (wp_Signature p)).

Definition install_updates_fields : list (field InstallUpdatesPayload) := [
  string_field "scope" (fun v p => mkInstallUpdates v (iu_Restart p));
  string_field "restart" (fun v p => mkInstallUpdates (iu_Scope p) v)].

Definition install_updates_json (p : InstallUpdatesPayload) : json :=
  JObj [("scope", JStr (iu_Scope p)); ("restart", JStr (iu_Restart p))]%string.

Definition rename_fields : list (field RenameComputerPayload) := [
  string_field "name" (fun v p => mkRename v (rn_Restart p));
  bool_field "restart" (fun v p => mkRename (rn_Name p) v)].

Definition rename_json (p : RenameComputerPayload) : json :=
  JObj ([("name", JStr (rn_Name p))]%string
        ++ (if rn_Restart p then [("restart", JBool true)]%string else [])).

Definition rotate_fields : list (field RotateAdminPasswordPayload) := [
  string_field "account" (fun v p => mkRotate v (ra_Length p));
  int_field "length" (fun v p => mkRotate (ra_Account p) v)].

Definition rotate_json (p : RotateAdminPasswordPayload) : json :=
  JObj ((if String.eqb (ra_Account p) "" then [] else [("account", JStr (ra_Account p))]%string)
        ++ [("length", jint (ra_Length p))]%string).

(** ** [normalizePayload] *)

(** The bytes of a [json.RawMessage]: none, text that is not one JSON value, or
    the value. *)
Inductive raw_payload := NoPayload | BadPayload | Payload (v : json).

(** [ErrBadRequest], by the message it wraps. *)
Inductive bad_request : Type :=
| NotJSON
| CannotDecode (e : json_error)
| ScriptRequired
| TimeoutOutOfRange
| DelayOutOfRange
| MessageTooLong
| HoursOutOfRange
| BadScope
| BadRestartPolicy
| BadName
| BadAccount
| LengthOutOfRange
| UnsupportedType (typ : string)
| NeedsReason
| ReasonTooLong
| SignatureRefused (e : opsign_error)
| NeedsSignedOrder
| OrderTooLong
| WrongHostname (hostname : string)
| UnsupportedResult (status : string)
| AccountRequired
| PasswordLength.

Definition decodePayload {S} (fs : list (field S)) (raw : raw_payload) (zero : S)
    : result bad_request S :=
  match raw with
  | NoPayload => Ok zero
  | BadPayload => Err NotJSON
  | Payload v => match decode_struct false fs v zero with
                 | Ok p => Ok p
                 | Err e => Err (CannotDecode e)
                 end
  end.

Definition zero_run_powershell := mkRunPowerShell EmptyString 0 None.
Definition zero_restart := mkRestart 0 EmptyString.
Definition zero_collect_logs := mkCollectLogs 0.
Definition zero_wipe := mkWipe false None None.
Definition zero_install_updates := mkInstallUpdates EmptyString EmptyString.
Definition zero_rename := mkRename EmptyString false.
Definition zero_rotate := mkRotate EmptyString 0.

Definition DefaultTimeoutSeconds : Z := DefaultScriptTimeout / Second.
Definition MaxTimeoutSecs : Z := MaxScriptTimeout / Second.

(** The characters [strings.ContainsAny(p.Account, ...)] looks for. *)
Definition account_forbidden (c : ascii) : bool :=
  Ascii.eqb c DQuote ||
  existsb (Ascii.eqb c) (list_ascii_of_string "/\[]:;|=,+*?<>@"%string).

Definition normalize_run_powershell (raw : raw_payload) : result bad_request json :=
  let! p := decodePayload run_powershell_fields raw zero_run_powershell in
  check! ensure (negb (String.eqb (TrimSpace (rp_Script p)) "")) ScriptRequired;
  let t := rp_TimeoutSeconds p in
  if t =? 0
  then Ok (run_powershell_json (mkRunPowerShell (rp_Script p) DefaultTimeoutSeconds (rp_Signature p)))
  else if (t <? 0) || (t >? MaxTimeoutSecs) then Err TimeoutOutOfRange
  else Ok (run_powershell_json p).

Definition normalize_restart (raw : raw_payload) : result bad_request json :=
  let! p := decodePayload restart_fields raw zero_restart in
  check! ensure (negb ((rs_DelaySeconds p <? 0) || (rs_DelaySeconds p >? 86400))) DelayOutOfRange;
  check! ensure (negb (slen (rs_Message p) >? maxRestartMessage)) MessageTooLong;
  Ok (restart_json p).

Definition normalize_collect_logs (raw : raw_payload) : result bad_request json :=
  let! p := decodePayload collect_logs_fields raw zero_collect_logs in
  let h := if cl_Hours p =? 0 then DefaultLogHours else cl_Hours p in
  check! ensure (negb ((h <? MinLogHours) || (h >? MaxLogHours))) HoursOutOfRange;
  Ok (collect_logs_json (mkCollectLogs h)).

Definition normalize_wipe (raw : raw_payload) : result bad_request json :=
  let! p := decodePayload wipe_fields raw zero_wipe in
  Ok (wipe_json p).

Definition normalize_install_updates (raw : raw_payload) : result bad_request json :=
  let! p := decodePayload install_updates_fields raw zero_install_updates in
  let scope := if String.eqb (iu_Scope p) "" then UpdatesSecurity else iu_Scope p in
  let restart := if String.eqb (iu_Restart p) "" then UpdateRestartNever else iu_Restart p in
  check! ensure (String.eqb scope UpdatesSecurity || String.eqb scope UpdatesAll) BadScope;
  check! ensure (String.eqb restart UpdateRestartNever || String.eqb restart UpdateRestartIfRequired)
               BadRestartPolicy;
  Ok (install_updates_json (mkInstallUpdates scope restart)).

Definition normalize_rename (raw : raw_payload) : result bad_request json :=
  let! p := decodePayload rename_fields raw zero_rename in
  let name := TrimSpace (rn_Name p) in
  check! ensure (ValidComputerName name) BadName;
  Ok (rename_json (mkRename name (rn_Restart p))).

Definition normalize_rotate (raw : raw_payload) : result bad_request json :=
  let! p := decodePayload rotate_fields raw zero_rotate in
  let account := TrimSpace (ra_Account p) in
  check! ensure (negb ((slen account >? 20) || sany account_forbidden account)) BadAccount;
  let n := if ra_Length p =? 0 then DefaultAdminPasswordLength else ra_Length p in
  check! ensure (negb ((n <? MinAdminPasswordLength) || (n >? MaxAdminPasswordLength))) LengthOutOfRange;
  Ok (rotate_json (mkRotate account n)).

Definition normalizePayload (typ : string) (raw : raw_payload) : result bad_request json :=
  if String.eqb typ CommandRunPowerShell then normalize_run_powershell raw
  else if String.eqb typ CommandRestart then normalize_restart raw
  else if String.eqb typ CommandRefreshInventory || String.eqb typ CommandLock then Ok (JObj [])
  else if String.eqb typ CommandCollectLogs then normalize_collect_logs raw
  else if String.eqb typ CommandWipe then normalize_wipe raw
  else if String.eqb typ CommandInstallUpdates then normalize_install_updates raw
  else if String.eqb typ CommandRenameComputer then normalize_rename raw
  else if String.eqb typ CommandRotateAdminPassword then normalize_rotate raw
  else Err (UnsupportedType typ).
End Payload.

(** ** Canonical payloads *)

(** What a stored payload looks like, by command type. *)
Section Canonical.
Context `{JT : JsonTime, JL : !JsonTimeLaws}.

Definition canonical_payload (typ : string) (j : json) : Prop :=
  (typ = CommandRunPowerShell /\ exists p, j = run_powershell_json p /\
     TrimSpace (rp_Script p) <> EmptyString /\ 1 <= rp_TimeoutSeconds p <= 86400) \/
  (typ = CommandRestart /\ exists p, j = restart_json p /\
     0 <= rs_DelaySeconds p <= 86400 /\ slen (rs_Message p) <= 512) \/
  ((typ = CommandRefreshInventory \/ typ = CommandLock) /\ j = JObj []) \/
  (typ = CommandCollectLogs /\ exists p, j = collect_logs_json p /\ 1 <= cl_Hours p <= 168) \/
  (typ = CommandWipe /\ exists p, j = wipe_json p /\
     forall t, wp_Expires p = Some t -> exists s, parse_time s = Some t) \/
  (typ = CommandInstallUpdates /\ exists p, j = install_updates_json p /\
     (iu_Scope p = UpdatesSecurity \/ iu_Scope p = UpdatesAll) /\
     (iu_Restart p = UpdateRestartNever \/ iu_Restart p = UpdateRestartIfRequired)) \/
  (typ = CommandRenameComputer /\ exists p, j = rename_json p /\
     TrimSpace (rn_Name p) = rn_Name p /\ ValidComputerName (rn_Name p) = true) \/
  (typ = CommandRotateAdminPassword /\ exists p, j = rotate_json p /\
     TrimSpace (ra_Account p) = ra_Account p /\ slen (ra_Account p) <= 20 /\
     sany account_forbidden (ra_Account p) = false /\ 20 <= ra_Length p <= 64).

Lemma payload_int64 n : -1000000 <= n <= 1000000 -> in_int64 n = true.
Proof. unfold in_int64, MinInt64, MaxInt64. intros. apply andb_true_iff; split; lia. Qed.

(** What [json.Marshal] writes, [json.Unmarshal] reads back. *)
Lemma run_powershell_decode p :
  in_int64 (rp_TimeoutSeconds p) = true ->
  decodePayload run_powershell_fields (Payload (run_powershell_json p)) zero_run_powershell = Ok p.
Proof.
  intros Ht. destruct p as [s t [[kid g]|]]; unfold decodePayload, run_powershell_json, jint;
    cbn -[Atoi Itoa] in *; by rewrite Atoi_Itoa.
Qed.

Lemma restart_decode p :
  in_int64 (rs_DelaySeconds p) = true ->
  decodePayload restart_fields (Payload (restart_json p)) zero_restart = Ok p.
Proof.
  intros Ht. destruct p; unfold decodePayload, restart_json, jint; cbn -[Atoi Itoa] in *.
  by rewrite Atoi_Itoa.
Qed.

Lemma collect_logs_decode p :
  in_int64 (cl_Hours p) = true ->
  decodePayload collect_logs_fields (Payload (collect_logs_json p)) zero_collect_logs = Ok p.
Proof.
  intros Ht. destruct p; unfold decodePayload, collect_logs_json, jint; cbn -[Atoi Itoa] in *.
  by rewrite Atoi_Itoa.
Qed.

Definition readable_expiry (p : WipePayload) : Prop :=
  forall t, wp_Expires p = Some t -> exists s, parse_time s = Some t.

Lemma wipe_decode p :
  readable_expiry p -> decodePayload wipe_fields (Payload (wipe_json p)) zero_wipe = Ok p.
Proof.
  destruct p as [pr [t|] [[kid g]|]]; unfold decodePayload, wipe_json, readable_expiry; cbn; try done;
    intros Ht; destruct (Ht t eq_refl) as [s Hs]; by rewrite (parse_time_text s t).
Qed.

Lemma wipe_readable raw p : decodePayload wipe_fields raw zero_wipe = Ok p -> readable_expiry p.
Proof.
  destruct raw as [| |v]; simpl; [by intros [= <-]|done|].
  destruct (decode_struct _ _ _ _) as [q|] eqn:E; [|done]. intros [= <-].
  refine (decode_struct_inv readable_expiry _ _ _ _ _ _ _ E); [|done].
  unfold wipe_fields. repeat apply Forall_cons_2; [..|apply Forall_nil_2];
    intros w s s' Hs; destruct w; simpl; try done;
    try (by intros [= <-]); try (by intros (? & ? & [= <-])%rbind_Ok).
  destruct (parse_time s0) eqn:Ep; [|done]. intros [= <-] t [= <-]. by exists s0.
Qed.

Lemma install_updates_decode p :
  decodePayload install_updates_fields (Payload (install_updates_json p)) zero_install_updates = Ok p.
Proof. by destruct p. Qed.

Lemma rename_decode p : decodePayload rename_fields (Payload (rename_json p)) zero_rename = Ok p.
Proof. by destruct p as [n []]. Qed.

Lemma rotate_decode p :
  in_int64 (ra_Length p) = true ->
  decodePayload rotate_fields (Payload (rotate_json p)) zero_rotate = Ok p.
Proof.
  intros Ht. destruct p as [a n]; unfold decodePayload, rotate_json, jint; cbn -[Atoi Itoa String.eqb] in *.
  destruct (String.eqb_spec a "") as [->|]; cbn -[Atoi Itoa]; by rewrite Atoi_Itoa.
Qed.

(** The integers of a decoded payload fit a Go [int]. *)
Lemma decoded_int64 {S} (get : S -> Z) fs raw zero p :
  Forall (fun f => forall v s s', in_int64 (get s) = true -> snd f v s = Ok s' -> in_int64 (get s') = true) fs ->
  in_int64 (get zero) = true -> decodePayload fs raw zero = Ok p -> in_int64 (get p) = true.
Proof.
  intros Hfs Hz. destruct raw as [| |v]; simpl; [by intros [= <-]|done|].
  destruct (decode_struct _ _ _ _) as [q|] eqn:E; [|done]. intros [= <-].
  by refine (decode_struct_inv (fun s => in_int64 (get s) = true) _ _ _ _ _ Hfs Hz E).
Qed.

Lemma timeout_window t :
  (t <? 0) || (t >? MaxTimeoutSecs) = false -> (t =? 0) = false -> 1 <= t <= 86400.
Proof. change MaxTimeoutSecs with 86400. intros [? ?]%orb_false_iff ?. lia. Qed.

Lemma normalize_run_powershell_canonical raw j :
  normalize_run_powershell raw = Ok j -> canonical_payload CommandRunPowerShell j.
Proof.
  unfold normalize_run_powershell. intros (p & _ & (u & Hs & H)%rbind_Ok)%rbind_Ok.
  apply ensure_Ok, negb_true_iff in Hs. apply String.eqb_neq in Hs. left. split; [done|].
  destruct (rp_TimeoutSeconds p =? 0) eqn:E0.
  - injection H as <-. eexists. split; [done|]. simpl. split; [done|].
    change DefaultTimeoutSeconds with 600. lia.
  - destruct (_ || _) eqn:E; [done|]. injection H as <-. exists p. split; [done|]. split; [done|].
    by apply timeout_window.
Qed.

(** Every payload that is queued is canonical, ... *)
Lemma normalized_is_canonical typ raw j :
  normalizePayload typ raw = Ok j -> canonical_payload typ j.
Proof.
  unfold normalizePayload, canonical_payload.
  destruct (String.eqb_spec typ CommandRunPowerShell) as [->|_].
  { apply normalize_run_powershell_canonical. }
  destruct (String.eqb_spec typ CommandRestart) as [->|_].
  { intros H. unfold normalize_restart in H. oks. right. left. split; [done|].
    eexists. split; [reflexivity|]. bools. unfold maxRestartMessage in *. lia. }
  destruct (String.eqb_spec typ CommandRefreshInventory) as [->|_].
  { intros [= <-]. right. right. left. auto. }
  destruct (String.eqb_spec typ CommandLock) as [->|_].
  { intros [= <-]. right. right. left. auto. }
  cbn [orb]. destruct (String.eqb_spec typ CommandCollectLogs) as [->|_].
  { intros H. unfold normalize_collect_logs in H. oks. do 3 right. left. split; [done|].
    eexists. split; [reflexivity|]. cbn [cl_Hours]. unfold MinLogHours, MaxLogHours in *. bools. lia. }
  destruct (String.eqb_spec typ CommandWipe) as [->|_].
  { intros H. unfold normalize_wipe in H. oks. do 4 right. left. split; [done|].
    eexists. split; [reflexivity|]. by eapply wipe_readable. }
  destruct (String.eqb_spec typ CommandInstallUpdates) as [->|_].
  { intros H. unfold normalize_install_updates in H. oks. do 5 right. left. split; [done|].
    eexists. split; [reflexivity|]. cbn [iu_Scope iu_Restart].
    rewrite !orb_true_iff, !String.eqb_eq in *. done. }
  destruct (String.eqb_spec typ CommandRenameComputer) as [->|_].
  { intros H. unfold normalize_rename in H. oks. do 6 right. left. split; [done|].
    eexists. split; [reflexivity|]. simpl. split; [apply TrimSpace_idem|done]. }
  destruct (String.eqb_spec typ CommandRotateAdminPassword) as [->|_]; [|done].
  intros H. unfold normalize_rotate in H. oks. do 7 right. split; [done|].
  eexists. split; [reflexivity|]. cbn [ra_Account ra_Length].
  unfold MinAdminPasswordLength, MaxAdminPasswordLength in *.
  rewrite !negb_true_iff, !orb_false_iff in *. split; [apply TrimSpace_idem|].
  split; [lia|]. split; [tauto|lia].
Qed.
(** ... and a canonical payload is stored as it is. *)
Lemma canonical_is_stable typ j :
  canonical_payload typ j -> normalizePayload typ (Payload j) = Ok j.
Proof.
  intros [(-> & p & -> & Hs & Ht)|[(-> & p & -> & Hd & Hm)|[([-> | ->] & ->)|[(-> & p & -> & Hh)|
    [(-> & p & -> & He)|[(-> & p & -> & Hsc & Hr)|[(-> & p & -> & Htr & Hv)|(-> & p & -> & Htr & Hl & Hf & Hn)]]]]]]].
  - change (normalize_run_powershell (Payload (run_powershell_json p)) = Ok (run_powershell_json p)).
    unfold normalize_run_powershell. rewrite run_powershell_decode by (apply payload_int64; lia).
    cbn [rbind]. rewrite (proj2 (String.eqb_neq _ _) Hs). cbn [ensure negb rbind].
    change MaxTimeoutSecs with 86400. rewrite (proj2 (Z.eqb_neq _ 0)) by lia.
    rewrite (proj2 (Z.ltb_ge _ 0)) by lia. by destruct (Z.gtb_spec (rp_TimeoutSeconds p) 86400); [lia|].
  - change (normalize_restart (Payload (restart_json p)) = Ok (restart_json p)).
    unfold normalize_restart, maxRestartMessage. rewrite restart_decode by (apply payload_int64; lia).
    cbn [rbind]. rewrite (proj2 (Z.ltb_ge _ 0)) by lia.
    destruct (Z.gtb_spec (rs_DelaySeconds p) 86400); [lia|].
    by destruct (Z.gtb_spec (slen (rs_Message p)) 512); [lia|].
  - done.
  - done.
  - change (normalize_collect_logs (Payload (collect_logs_json p)) = Ok (collect_logs_json p)).
    unfold normalize_collect_logs, MinLogHours, MaxLogHours.
    rewrite collect_logs_decode by (apply payload_int64; lia). cbn [rbind].
    rewrite (proj2 (Z.eqb_neq _ 0)), (proj2 (Z.ltb_ge _ 1)) by lia.
    destruct (Z.gtb_spec (cl_Hours p) 168); [lia|]. by destruct p.
  - change (normalize_wipe (Payload (wipe_json p)) = Ok (wipe_json p)).
    unfold normalize_wipe. by rewrite wipe_decode.
  - change (normalize_install_updates (Payload (install_updates_json p)) = Ok (install_updates_json p)).
    unfold normalize_install_updates. rewrite install_updates_decode.
    destruct p as [sc r]. simpl in Hsc, Hr. by destruct Hsc as [-> | ->], Hr as [-> | ->].
  - change (normalize_rename (Payload (rename_json p)) = Ok (rename_json p)).
    unfold normalize_rename. rewrite rename_decode. cbn [rbind]. rewrite Htr, Hv. by destruct p.
  - change (normalize_rotate (Payload (rotate_json p)) = Ok (rotate_json p)).
    unfold normalize_rotate, MinAdminPasswordLength, MaxAdminPasswordLength.
    rewrite rotate_decode by (apply payload_int64; lia). cbn [rbind]. rewrite Htr, Hf, orb_false_r.
    destruct (Z.gtb_spec (slen (ra_Account p)) 20); [lia|]. cbn [negb ensure rbind].
    rewrite (proj2 (Z.eqb_neq _ 0)), (proj2 (Z.ltb_ge _ 20)) by lia.
    destruct (Z.gtb_spec (ra_Length p) 64); [lia|]. by destruct p.
Qed.

(** The payload stored for a command is canonical: it decodes to values
    within the documented bounds with every default filled in, and it is what
    storing it again would give. *)
Theorem stored_payloads_are_canonical typ raw j :
  normalizePayload typ raw = Ok j ->
  canonical_payload typ j /\ normalizePayload typ (Payload j) = Ok j.
Proof. intros H%normalized_is_canonical. split; [done | by apply canonical_is_stable]. Qed.
End Canonical.

(** *** A concrete clock text *)

#[local] Instance toy_time : JsonTime := {| time_text := Itoa; parse_time := Atoi |}.

#[local] Instance toy_time_laws : JsonTimeLaws.
Proof. constructor. intros s t H. apply Atoi_Itoa. by eapply Atoi_range. Qed.

Lemma stored_payloads_are_canonical_witness :
  let raw := Payload (JObj [("Script", JStr "Get-Date"); ("signature", JNull)])%string in
  let j := run_powershell_json (mkRunPowerShell "Get-Date" 600 None) in
  normalizePayload CommandRunPowerShell raw = Ok j /\
  canonical_payload CommandRunPowerShell j /\ normalizePayload CommandRunPowerShell (Payload j) = Ok j.
Proof.
  intros raw j. split; [vm_compute; reflexivity|].
  apply (stored_payloads_are_canonical CommandRunPowerShell raw j). vm_compute. reflexivity.
Defined.
