(* ===== verification/Tx.v ===== *)
(** * Tables and transactions

    What the store's components share: a transaction over a state [D] of
    tables, [Store.InTx], the SQL idioms ([UPDATE ... WHERE], [ORDER BY]), the
    store's errors and the audit log's rows. A statement outside [InTx]
    commits on its own, so a handler that fails half way keeps what it did. *)
From S2P Require Export Json.
From Stdlib Require Export Sorted.
Open Scope go_scope.

(** An audit entry; its id and its time are the database's. *)
Record AuditEntry := mkAudit {
  a_Actor : string; a_Action : string; a_TargetKind : string; a_TargetID : string;
  a_Details : list (string * json) }.

Inductive store_error := ErrNotFound | ErrDuplicate | ErrForeignKey.

(** A transaction: [Commit] or the rollback its error causes. *)
Definition txn (D E A : Type) : Type := D -> result E A * D.

Definition tret {D E A} (a : A) : txn D E A := fun d => (Ok a, d).
Definition tfail {D E A} (e : E) : txn D E A := fun d => (Err e, d).
Definition tbind {D E A B} (m : txn D E A) (f : A -> txn D E B) : txn D E B :=
  fun d => match m d with
           | (Ok a, d') => f a d'
           | (Err e, d') => (Err e, d')
           end.
Definition tmap_err {D E F A} (g : E -> F) (m : txn D E A) : txn D F A :=
  fun d => match m d with
           | (Ok a, d') => (Ok a, d')
           | (Err e, d') => (Err (g e), d')
           end.
Definition tensure {D E} (c : bool) (e : E) : txn D E unit := if c then tret tt else tfail e.

Notation "'let*' x ':=' m 'in' k" := (tbind m (fun x => k))
  (at level 10, x pattern, m at level 100, k at level 200) : go_scope.
Notation "'do*' m ';' k" := (tbind m (fun _ => k))
  (at level 10, m at level 100, k at level 200) : go_scope.

(** A Go call whose error the caller looks at. *)
Definition tattempt {D E F A} (m : txn D E A) : txn D F (result E A) :=
  fun d => match m d with (r, d') => (Ok r, d') end.

(** A part of a larger state: where it is and how to put it back. *)
Record lens (D F : Type) := mkLens { look : D -> F; put : F -> D -> D }.
Arguments mkLens {D F} _ _.
Arguments look {D F} _ _.
Arguments put {D F} _ _ _.

Definition zoom {D F E A} (p : lens D F) (m : txn F E A) : txn D E A :=
  fun d => let (r, f) := m (look p d) in (r, put p f d).

Definition lift_result {D E A} (r : result E A) : txn D E A := match r with Ok a => tret a | Err e => tfail e end.

(** [Store.InTx]. *)
Definition InTx {D E A} (m : txn D E A) : txn D E A :=
  fun d => match m d with
           | (Ok a, d') => (Ok a, d')
           | (Err e, _) => (Err e, d)
           end.

(** [UPDATE ... WHERE]: the rows that match, changed; how many there were. *)
Definition update_where {A} (p : A -> bool) (f : A -> A) (l : list A) : list A :=
  map (fun x => if p x then f x else x) l.

Definition count_where {A} (p : A -> bool) (l : list A) : Z := Z.of_nat (length (List.filter p l)).

Fixpoint insert_by {A} (le : A -> A -> bool) (x : A) (l : list A) : list A :=
  match l with
  | [] => [x]
  | y :: r => if le x y then x :: y :: r else y :: insert_by le x r
  end.

Fixpoint order_by {A} (le : A -> A -> bool) (l : list A) : list A :=
  match l with
  | [] => []
  | x :: r => insert_by le x (order_by le r)
  end.

(** ** Lemmas *)

Lemma tbind_Ok {D E A B} (m : txn D E A) (f : A -> txn D E B) d b d' :
  tbind m f d = (Ok b, d') <-> exists a d1, m d = (Ok a, d1) /\ f a d1 = (Ok b, d').
Proof. unfold tbind. destruct (m d) as [[a|e] d1]; naive_solver. Qed.

Lemma tmap_err_Ok {D E F A} (g : E -> F) (m : txn D E A) d a d' :
  tmap_err g m d = (Ok a, d') <-> m d = (Ok a, d').
Proof. unfold tmap_err. destruct (m d) as [[|] d1]; naive_solver. Qed.

Lemma tensure_Ok {D E} c (e : E) (d : D) u d' : tensure c e d = (Ok u, d') <-> c = true /\ d' = d.
Proof. destruct u, c; unfold tensure, tret, tfail; naive_solver. Qed.

Lemma InTx_Ok {D E A} (m : txn D E A) d a d' : InTx m d = (Ok a, d') <-> m d = (Ok a, d').
Proof. unfold InTx. destruct (m d) as [[|] d1]; naive_solver. Qed.

(** A failed transaction leaves no trace. *)
Lemma InTx_Err {D E A} (m : txn D E A) d e d' : InTx m d = (Err e, d') -> d' = d.
Proof. unfold InTx. destruct (m d) as [[|] d1]; naive_solver. Qed.

(** Invert every successful step of a transaction in the context. *)
Ltac txs :=
  repeat match goal with
  | H : tbind _ _ _ = (Ok _, _) |- _ => apply (proj1 (tbind_Ok _ _ _ _ _)) in H; destruct H as (? & ? & ? & ?)
  | H : tmap_err _ _ _ = (Ok _, _) |- _ => apply (proj1 (tmap_err_Ok _ _ _ _ _)) in H
  | H : tensure _ _ _ = (Ok _, _) |- _ => apply (proj1 (tensure_Ok _ _ _ _ _)) in H; destruct H as [? ->]
  | H : InTx _ _ = (Ok _, _) |- _ => apply (proj1 (InTx_Ok _ _ _ _)) in H
  | H : tret _ _ = (Ok _, _) |- _ => unfold tret in H; injection H as <- <-
  | H : tfail _ _ = (Ok _, _) |- _ => discriminate H
  end.

(** *** What holds after a transaction, whether it succeeds or not *)

Definition twp {D E A} (m : txn D E A) (d : D) (Q : result E A -> D -> Prop) : Prop := Q (m d).1 (m d).2.

Lemma twp_mono {D E A} (m : txn D E A) d (Q Q' : result E A -> D -> Prop) :
  twp m d Q -> (forall x d', Q x d' -> Q' x d') -> twp m d Q'.
Proof. unfold twp. auto. Qed.

Lemma twp_bind {D E A B} (m : txn D E A) (f : A -> txn D E B) d Q :
  twp m d (fun x d' => match x with Ok a => twp (f a) d' Q | Err e => Q (Err e) d' end) -> twp (tbind m f) d Q.
Proof. unfold twp, tbind. by destruct (m d) as [[a|e] d']. Qed.

(** A relation every operation of a kind keeps, composed along a transaction. *)
Definition tkeeps {D E A} (R : D -> D -> Prop) (m : txn D E A) : Prop := forall d, R d (m d).2.

Section Keeps.
Context {D : Type} (R : D -> D -> Prop) `{!PreOrder R}.

Lemma keeps_ret {E A} (a : A) : tkeeps R (tret a : txn D E A).
Proof. intros d. simpl. reflexivity. Qed.

Lemma keeps_fail {E A} (e : E) : tkeeps R (tfail e : txn D E A).
Proof. intros d. simpl. reflexivity. Qed.

Lemma keeps_bind {E A B} (m : txn D E A) (f : A -> txn D E B) :
  tkeeps R m -> (forall a, tkeeps R (f a)) -> tkeeps R (tbind m f).
Proof.
  intros Hm Hf d. unfold tbind. specialize (Hm d). destruct (m d) as [[a|e] d1]; simpl in *; [|done].
  etrans; [done|]. apply Hf.
Qed.

(** Knowing what the first step answers. *)
Lemma keeps_bind_with {E A B} (P : A -> Prop) (m : txn D E A) (f : A -> txn D E B) :
  tkeeps R m -> (forall d a d', m d = (Ok a, d') -> P a) -> (forall a, P a -> tkeeps R (f a)) -> tkeeps R (tbind m f).
Proof.
  intros Hm HP Hf d. unfold tbind. specialize (Hm d). destruct (m d) as [[a|e] d1] eqn:E1; simpl in *; [|done].
  etrans; [done|]. eapply Hf, HP, E1.
Qed.

Lemma keeps_map_err {E F A} (g : E -> F) (m : txn D E A) : tkeeps R m -> tkeeps R (tmap_err g m).
Proof. intros Hm d. unfold tmap_err. specialize (Hm d). by destruct (m d) as [[a|e] d1]. Qed.

Lemma keeps_InTx {E A} (m : txn D E A) : tkeeps R m -> tkeeps R (InTx m).
Proof. intros Hm d. unfold InTx. specialize (Hm d). destruct (m d) as [[a|e] d1]; simpl in *; [done|reflexivity]. Qed.

Lemma twp_keeps_bind {E A B} (m : txn D E A) (f : A -> txn D E B) d Q :
  tkeeps R m ->
  (forall a d', m d = (Ok a, d') -> R d d' -> twp (f a) d' Q) ->
  (forall e d', R d d' -> Q (Err e) d') -> twp (tbind m f) d Q.
Proof.
  intros Hm HQ He. apply twp_bind. unfold twp at 1. specialize (Hm d).
  destruct (m d) as [[a|e] d1]; simpl in *; auto.
Qed.

Lemma keeps_attempt {E F A} (m : txn D E A) : tkeeps R m -> tkeeps R (tattempt m : txn D F _).
Proof. intros Hm d. unfold tattempt. specialize (Hm d). by destruct (m d). Qed.

Lemma keeps_lift {E A} (x : result E A) : tkeeps R (lift_result x : txn D E A).
Proof. destruct x; [apply keeps_ret|apply keeps_fail]. Qed.

Lemma keeps_tensure {E} c (e : E) : tkeeps R (tensure c e).
Proof. destruct c; [apply keeps_ret|apply keeps_fail]. Qed.
End Keeps.

(** What is read of a state and stays as it was. *)
Definition same {D X} (p : D -> X) : relation D := fun d d' => p d' = p d.

#[export] Instance same_preorder {D X} (p : D -> X) : PreOrder (same p).
Proof. split; [by intros d|]. unfold same. intros a b c Hab Hbc. congruence. Qed.

Lemma keeps_zoom {D F E A} (l : lens D F) (R : relation D) (Q : relation F) (m : txn F E A) :
  (forall d f, Q (look l d) f -> R d (put l f d)) -> tkeeps Q m -> tkeeps R (zoom l m).
Proof. intros H Hm d. unfold zoom. specialize (Hm (look l d)). destruct (m (look l d)) as [r f]. by apply H. Qed.

Create HintDb frames.
#[export] Hint Extern 0 (PreOrder _) => typeclasses eauto : frames.
#[export] Hint Resolve keeps_ret keeps_fail keeps_lift keeps_tensure : frames.

(** Every step of a transaction keeps the relation: go through them, and close
    the single ones by what is known or by computation. *)
Ltac frames :=
  intros; unfold tensure, lift_result;
  repeat match goal with
  | |- tkeeps _ (tbind _ _) => eapply keeps_bind; [typeclasses eauto| |let x := fresh "x" in intros x; try destruct x]
  | |- tkeeps _ (InTx _) => eapply keeps_InTx; [typeclasses eauto|]
  | |- tkeeps _ (tmap_err _ _) => apply keeps_map_err
  | |- tkeeps _ (tattempt _) => apply keeps_attempt
  | |- tkeeps _ (tret _) => eapply keeps_ret; typeclasses eauto
  | |- tkeeps _ (tfail _) => eapply keeps_fail; typeclasses eauto
  | |- tkeeps _ (match ?x with _ => _ end) => destruct x
  | |- tkeeps _ (if ?x then _ else _) => destruct x
  | |- tkeeps _ (let _ := _ in _) => cbv zeta
  | _ => progress eauto with frames
  end.

Lemma update_where_map {A B} (g : A -> B) p f (l : list A) :
  (forall x, g (f x) = g x) -> map g (update_where p f l) = map g l.
Proof. intros Hg. unfold update_where. induction l as [|x l IH]; simpl; [done|]. rewrite IH. destruct (p x); [by rewrite Hg|done]. Qed.

Lemma elem_of_update_where {A} p (f : A -> A) l y :
  y ∈ update_where p f l <-> exists x, x ∈ l /\ y = if p x then f x else x.
Proof. unfold update_where. rewrite list_elem_of_fmap. naive_solver. Qed.

Lemma update_where_in {A} (p : A -> bool) (f : A -> A) l x : x ∈ l -> (if p x then f x else x) ∈ update_where p f l.
Proof. intros H. apply elem_of_update_where. eauto. Qed.

Lemma update_where_none {A} p (f : A -> A) l : (forall x, x ∈ l -> p x = false) -> update_where p f l = l.
Proof.
  induction l as [|x l IH]; intros H; simpl; [done|]. rewrite (H x) by set_solver.
  f_equal. apply IH. set_solver.
Qed.

Lemma count_where_pos {A} p (l : list A) : (0 <? count_where p l)%Z = true <-> exists x, x ∈ l /\ p x = true.
Proof.
  unfold count_where. rewrite Z.ltb_lt. split.
  - destruct (List.filter p l) as [|x r] eqn:E; simpl; [lia|]. intros _. exists x.
    assert (In x (List.filter p l)) as [Hx Hp]%filter_In by (rewrite E; by left).
    split; [by apply list_elem_of_In | done].
  - intros (x & Hx%list_elem_of_In & Hp).
    assert (In x (List.filter p l)) as H by (by apply filter_In). destruct (List.filter p l); [done|simpl; lia].
Qed.

Lemma NoDup_map_inj {A B} (g : A -> B) l x y : NoDup (map g l) -> x ∈ l -> y ∈ l -> g x = g y -> x = y.
Proof.
  induction l as [|z l IH]; simpl; [by intros _ ?%elem_of_nil|]. intros [Hz Hl]%NoDup_cons.
  rewrite !elem_of_cons. intros [->|Hx] [->|Hy] He; [done|..|by apply IH].
  - exfalso. apply Hz. rewrite He. apply list_elem_of_fmap. eauto.
  - exfalso. apply Hz. rewrite <- He. apply list_elem_of_fmap. eauto.
Qed.

Lemma NoDup_map_by {A B C} (g : A -> B) (f : A -> C) l :
  NoDup (map g l) -> (forall x y, x ∈ l -> y ∈ l -> f x = f y -> g x = g y) -> NoDup (map f l).
Proof.
  induction l as [|x l IH]; simpl; intros Hn Hf; [constructor|]. apply NoDup_cons in Hn as [Hx Hn]. constructor.
  - intros (y & He & Hy)%list_elem_of_fmap. apply Hx. apply list_elem_of_fmap. exists y. split; [|done]. apply Hf; set_solver.
  - apply IH; [done|]. intros a b Ha Hb. apply Hf; set_solver.
Qed.

Lemma NoDup_map_filter {A B} (g : A -> B) (p : A -> bool) l : NoDup (map g l) -> NoDup (map g (List.filter p l)).
Proof.
  induction l as [|x l IH]; simpl; [done|]. intros [Hx Hn]%NoDup_cons. destruct (p x); simpl; [|by apply IH].
  constructor; [|by apply IH]. intros (y & He & Hy)%list_elem_of_fmap. apply Hx, list_elem_of_fmap. exists y. split; [done|].
  rewrite list_elem_of_In in *. by apply filter_In in Hy as [? _].
Qed.

Lemma elem_of_filterb {A} p (l : list A) x : x ∈ List.filter p l <-> x ∈ l /\ p x = true.
Proof. rewrite !list_elem_of_In. apply filter_In. Qed.

Lemma existsb_elem {A} (p : A -> bool) l : existsb p l = true <-> exists x, x ∈ l /\ p x = true.
Proof. rewrite existsb_exists. setoid_rewrite list_elem_of_In. done. Qed.

Lemma existsb_none {A} (p : A -> bool) l : existsb p l = false <-> forall x, x ∈ l -> p x = false.
Proof.
  rewrite <- not_true_iff_false, existsb_elem. split.
  - intros H x Hx. destruct (p x) eqn:E; [|done]. exfalso. eauto.
  - intros H (x & Hx & Hp). rewrite H in Hp; done.
Qed.

Lemma existsb_eq_elem s l : existsb (String.eqb s) l = true <-> s ∈ l.
Proof.
  rewrite existsb_elem. split.
  - by intros (x & Hx & ->%String.eqb_eq).
  - intros H. exists s. split; [done | apply String.eqb_refl].
Qed.

(** *** [ORDER BY] *)

Lemma insert_by_perm {A} le (x : A) l : Permutation (insert_by le x l) (x :: l).
Proof.
  induction l as [|y l IH]; simpl; [done|]. destruct (le x y); [done|].
  rewrite IH. apply Permutation_swap.
Qed.

Lemma order_by_perm {A} le (l : list A) : Permutation (order_by le l) l.
Proof. induction l as [|x l IH]; simpl; [done|]. by rewrite insert_by_perm, IH. Qed.

Lemma elem_of_order_by {A} le (l : list A) x : x ∈ order_by le l <-> x ∈ l.
Proof. by rewrite (order_by_perm le l). Qed.

Lemma order_by_sorted {A} (le : A -> A -> bool) l :
  (forall a b, le a b = false -> le b a = true) -> Sorted (fun a b => le a b = true) (order_by le l).
Proof.
  intros Htot. induction l as [|x l IH]; simpl; [constructor|].
  induction IH as [|y r Hs IHr Hd]; simpl; [by repeat constructor|].
  destruct (le x y) eqn:E; [by repeat constructor|]. constructor; [done|].
  destruct r as [|z r]; simpl; [by constructor; apply Htot|].
  destruct (le x z); constructor; [by apply Htot|]. by inversion Hd.
Qed.

