(* ===== verification/Settings.v ===== *)
(** * Settings

    [internal/protocol/profile.go], [network.go] and [certificate.go]: what a
    configuration profile states about a machine, its JSON, the identity two
    settings share when they are about the same thing, and what is accepted.
    Reading PEM and X.509, and the SHA-1 of a certificate, are arguments; the
    JSON of a setting is a tree. *)
From S2P Require Export GoString Tx Utf8.
Open Scope Z_scope.
Open Scope go_scope.

Record SealedSecret_ := mkSealedSecret { ss_Ciphertext : string; ss_Nonce : string; ss_MAC : string }.

Record Setting := mkSetting {
  se_Kind : string;
  se_Hive : string;
  se_Key : string;
  se_Type : string;
  se_Name : string;
  se_Data : string;
  se_Startup : string;
  se_State : string;
  se_Group : string;
  se_Members : list string;
  se_Mode : string;
  se_Path : string;
  se_ContentBase64 : string;
  se_Ensure : string;
  se_Profile : string;
  se_Direction : string;
  se_Action : string;
  se_Protocol : string;
  se_LocalPort : string;
  se_Program : string;
  se_QualityDeferralDays : option Z;
  se_FeatureDeferralDays : option Z;
  se_ActiveHoursStart : option Z;
  se_ActiveHoursEnd : option Z;
  se_AutoRestart : option bool;
  se_QualityDeadlineDays : option Z;
  se_FeatureDeadlineDays : option Z;
  se_DeadlineGraceDays : option Z;
  se_PauseQualityFrom : string;
  se_PauseFeatureFrom : string;
  se_TargetProduct : string;
  se_TargetVersion : string;
  se_RequireEncryption : bool;
  se_Method : string;
  se_EscrowRecoveryKey : bool;
  se_RealtimeMonitoring : option bool;
  se_CloudProtection : string;
  se_SampleSubmission : string;
  se_PUAProtection : string;
  se_CloudBlockLevel : string;
  se_Store : string;
  se_CertificatePEM : string;
  se_SSID : string;
  se_Security : string;
  se_Passphrase : string;
  se_SealedSecret : option SealedSecret_;
  se_SecretSet : bool;
  se_AutoConnect : option bool;
  se_Hidden : bool;
  se_EAPMethod : string;
  se_ServerNames : list string;
  se_TrustedRootThumbprints : list string;
  se_AuthMode : string;
  se_Server : string;
  se_Tunnel : string;
  se_Authentication : string;
  se_SplitTunneling : bool;
  se_DNSSuffix : string }.

Definition zero_setting : Setting :=
  mkSetting EmptyString EmptyString EmptyString EmptyString EmptyString EmptyString EmptyString EmptyString EmptyString [] EmptyString EmptyString EmptyString EmptyString EmptyString EmptyString EmptyString EmptyString EmptyString EmptyString None None None None None None None None EmptyString EmptyString EmptyString EmptyString false EmptyString false None EmptyString EmptyString EmptyString EmptyString EmptyString EmptyString EmptyString EmptyString EmptyString None false None false EmptyString [] [] EmptyString EmptyString EmptyString EmptyString false EmptyString.

(** Storing into one field. *)
Definition set_Kind (x : string) (s : Setting) : Setting :=
  mkSetting x (se_Hive s) (se_Key s) (se_Type s) (se_Name s) (se_Data s)
    (se_Startup s) (se_State s) (se_Group s) (se_Members s) (se_Mode s) (se_Path s)
    (se_ContentBase64 s) (se_Ensure s) (se_Profile s) (se_Direction s) (se_Action s) (se_Protocol s)
    (se_LocalPort s) (se_Program s) (se_QualityDeferralDays s) (se_FeatureDeferralDays s) (se_ActiveHoursStart s) (se_ActiveHoursEnd s)
    (se_AutoRestart s) (se_QualityDeadlineDays s) (se_FeatureDeadlineDays s) (se_DeadlineGraceDays s) (se_PauseQualityFrom s) (se_PauseFeatureFrom s)
    (se_TargetProduct s) (se_TargetVersion s) (se_RequireEncryption s) (se_Method s) (se_EscrowRecoveryKey s) (se_RealtimeMonitoring s)
    (se_CloudProtection s) (se_SampleSubmission s) (se_PUAProtection s) (se_CloudBlockLevel s) (se_Store s) (se_CertificatePEM s)
    (se_SSID s) (se_Security s) (se_Passphrase s) (se_SealedSecret s) (se_SecretSet s) (se_AutoConnect s)
    (se_Hidden s) (se_EAPMethod s) (se_ServerNames s) (se_TrustedRootThumbprints s) (se_AuthMode s) (se_Server s)
    (se_Tunnel s) (se_Authentication s) (se_SplitTunneling s) (se_DNSSuffix s).
Definition set_Hive (x : string) (s : Setting) : Setting :=
  mkSetting (se_Kind s) x (se_Key s) (se_Type s) (se_Name s) (se_Data s)
    (se_Startup s) (se_State s) (se_Group s) (se_Members s) (se_Mode s) (se_Path s)
    (se_ContentBase64 s) (se_Ensure s) (se_Profile s) (se_Direction s) (se_Action s) (se_Protocol s)
    (se_LocalPort s) (se_Program s) (se_QualityDeferralDays s) (se_FeatureDeferralDays s) (se_ActiveHoursStart s) (se_ActiveHoursEnd s)
    (se_AutoRestart s) (se_QualityDeadlineDays s) (se_FeatureDeadlineDays s) (se_DeadlineGraceDays s) (se_PauseQualityFrom s) (se_PauseFeatureFrom s)
    (se_TargetProduct s) (se_TargetVersion s) (se_RequireEncryption s) (se_Method s) (se_EscrowRecoveryKey s) (se_RealtimeMonitoring s)
    (se_CloudProtection s) (se_SampleSubmission s) (se_PUAProtection s) (se_CloudBlockLevel s) (se_Store s) (se_CertificatePEM s)
    (se_SSID s) (se_Security s) (se_Passphrase s) (se_SealedSecret s) (se_SecretSet s) (se_AutoConnect s)
    (se_Hidden s) (se_EAPMethod s) (se_ServerNames s) (se_TrustedRootThumbprints s) (se_AuthMode s) (se_Server s)
    (se_Tunnel s) (se_Authentication s) (se_SplitTunneling s) (se_DNSSuffix s).
Definition set_Key (x : string) (s : Setting) : Setting :=
  mkSetting (se_Kind s) (se_Hive s) x (se_Type s) (se_Name s) (se_Data s)
    (se_Startup s) (se_State s) (se_Group s) (se_Members s) (se_Mode s) (se_Path s)
    (se_ContentBase64 s) (se_Ensure s) (se_Profile s) (se_Direction s) (se_Action s) (se_Protocol s)
    (se_LocalPort s) (se_Program s) (se_QualityDeferralDays s) (se_FeatureDeferralDays s) (se_ActiveHoursStart s) (se_ActiveHoursEnd s)
    (se_AutoRestart s) (se_QualityDeadlineDays s) (se_FeatureDeadlineDays s) (se_DeadlineGraceDays s) (se_PauseQualityFrom s) (se_PauseFeatureFrom s)
    (se_TargetProduct s) (se_TargetVersion s) (se_RequireEncryption s) (se_Method s) (se_EscrowRecoveryKey s) (se_RealtimeMonitoring s)
    (se_CloudProtection s) (se_SampleSubmission s) (se_PUAProtection s) (se_CloudBlockLevel s) (se_Store s) (se_CertificatePEM s)
    (se_SSID s) (se_Security s) (se_Passphrase s) (se_SealedSecret s) (se_SecretSet s) (se_AutoConnect s)
    (se_Hidden s) (se_EAPMethod s) (se_ServerNames s) (se_TrustedRootThumbprints s) (se_AuthMode s) (se_Server s)
    (se_Tunnel s) (se_Authentication s) (se_SplitTunneling s) (se_DNSSuffix s).
Definition set_Type (x : string) (s : Setting) : Setting :=
  mkSetting (se_Kind s) (se_Hive s) (se_Key s) x (se_Name s) (se_Data s)
    (se_Startup s) (se_State s) (se_Group s) (se_Members s) (se_Mode s) (se_Path s)
    (se_ContentBase64 s) (se_Ensure s) (se_Profile s) (se_Direction s) (se_Action s) (se_Protocol s)
    (se_LocalPort s) (se_Program s) (se_QualityDeferralDays s) (se_FeatureDeferralDays s) (se_ActiveHoursStart s) (se_ActiveHoursEnd s)
    (se_AutoRestart s) (se_QualityDeadlineDays s) (se_FeatureDeadlineDays s) (se_DeadlineGraceDays s) (se_PauseQualityFrom s) (se_PauseFeatureFrom s)
    (se_TargetProduct s) (se_TargetVersion s) (se_RequireEncryption s) (se_Method s) (se_EscrowRecoveryKey s) (se_RealtimeMonitoring s)
    (se_CloudProtection s) (se_SampleSubmission s) (se_PUAProtection s) (se_CloudBlockLevel s) (se_Store s) (se_CertificatePEM s)
    (se_SSID s) (se_Security s) (se_Passphrase s) (se_SealedSecret s) (se_SecretSet s) (se_AutoConnect s)
    (se_Hidden s) (se_EAPMethod s) (se_ServerNames s) (se_TrustedRootThumbprints s) (se_AuthMode s) (se_Server s)
    (se_Tunnel s) (se_Authentication s) (se_SplitTunneling s) (se_DNSSuffix s).
Definition set_Name (x : string) (s : Setting) : Setting :=
  mkSetting (se_Kind s) (se_Hive s) (se_Key s) (se_Type s) x (se_Data s)
    (se_Startup s) (se_State s) (se_Group s) (se_Members s) (se_Mode s) (se_Path s)
    (se_ContentBase64 s) (se_Ensure s) (se_Profile s) (se_Direction s) (se_Action s) (se_Protocol s)
    (se_LocalPort s) (se_Program s) (se_QualityDeferralDays s) (se_FeatureDeferralDays s) (se_ActiveHoursStart s) (se_ActiveHoursEnd s)
    (se_AutoRestart s) (se_QualityDeadlineDays s) (se_FeatureDeadlineDays s) (se_DeadlineGraceDays s) (se_PauseQualityFrom s) (se_PauseFeatureFrom s)
    (se_TargetProduct s) (se_TargetVersion s) (se_RequireEncryption s) (se_Method s) (se_EscrowRecoveryKey s) (se_RealtimeMonitoring s)
    (se_CloudProtection s) (se_SampleSubmission s) (se_PUAProtection s) (se_CloudBlockLevel s) (se_Store s) (se_CertificatePEM s)
    (se_SSID s) (se_Security s) (se_Passphrase s) (se_SealedSecret s) (se_SecretSet s) (se_AutoConnect s)
    (se_Hidden s) (se_EAPMethod s) (se_ServerNames s) (se_TrustedRootThumbprints s) (se_AuthMode s) (se_Server s)
    (se_Tunnel s) (se_Authentication s) (se_SplitTunneling s) (se_DNSSuffix s).
Definition set_Data (x : string) (s : Setting) : Setting :=
  mkSetting (se_Kind s) (se_Hive s) (se_Key s) (se_Type s) (se_Name s) x
    (se_Startup s) (se_State s) (se_Group s) (se_Members s) (se_Mode s) (se_Path s)
    (se_ContentBase64 s) (se_Ensure s) (se_Profile s) (se_Direction s) (se_Action s) (se_Protocol s)
    (se_LocalPort s) (se_Program s) (se_QualityDeferralDays s) (se_FeatureDeferralDays s) (se_ActiveHoursStart s) (se_ActiveHoursEnd s)
    (se_AutoRestart s) (se_QualityDeadlineDays s) (se_FeatureDeadlineDays s) (se_DeadlineGraceDays s) (se_PauseQualityFrom s) (se_PauseFeatureFrom s)
    (se_TargetProduct s) (se_TargetVersion s) (se_RequireEncryption s) (se_Method s) (se_EscrowRecoveryKey s) (se_RealtimeMonitoring s)
    (se_CloudProtection s) (se_SampleSubmission s) (se_PUAProtection s) (se_CloudBlockLevel s) (se_Store s) (se_CertificatePEM s)
    (se_SSID s) (se_Security s) (se_Passphrase s) (se_SealedSecret s) (se_SecretSet s) (se_AutoConnect s)
    (se_Hidden s) (se_EAPMethod s) (se_ServerNames s) (se_TrustedRootThumbprints s) (se_AuthMode s) (se_Server s)
    (se_Tunnel s) (se_Authentication s) (se_SplitTunneling s) (se_DNSSuffix s).
Definition set_Startup (x : string) (s : Setting) : Setting :=
  mkSetting (se_Kind s) (se_Hive s) (se_Key s) (se_Type s) (se_Name s) (se_Data s)
    x (se_State s) (se_Group s) (se_Members s) (se_Mode s) (se_Path s)
    (se_ContentBase64 s) (se_Ensure s) (se_Profile s) (se_Direction s) (se_Action s) (se_Protocol s)
    (se_LocalPort s) (se_Program s) (se_QualityDeferralDays s) (se_FeatureDeferralDays s) (se_ActiveHoursStart s) (se_ActiveHoursEnd s)
    (se_AutoRestart s) (se_QualityDeadlineDays s) (se_FeatureDeadlineDays s) (se_DeadlineGraceDays s) (se_PauseQualityFrom s) (se_PauseFeatureFrom s)
    (se_TargetProduct s) (se_TargetVersion s) (se_RequireEncryption s) (se_Method s) (se_EscrowRecoveryKey s) (se_RealtimeMonitoring s)
    (se_CloudProtection s) (se_SampleSubmission s) (se_PUAProtection s) (se_CloudBlockLevel s) (se_Store s) (se_CertificatePEM s)
    (se_SSID s) (se_Security s) (se_Passphrase s) (se_SealedSecret s) (se_SecretSet s) (se_AutoConnect s)
    (se_Hidden s) (se_EAPMethod s) (se_ServerNames s) (se_TrustedRootThumbprints s) (se_AuthMode s) (se_Server s)
    (se_Tunnel s) (se_Authentication s) (se_SplitTunneling s) (se_DNSSuffix s).
Definition set_State (x : string) (s : Setting) : Setting :=
  mkSetting (se_Kind s) (se_Hive s) (se_Key s) (se_Type s) (se_Name s) (se_Data s)
    (se_Startup s) x (se_Group s) (se_Members s) (se_Mode s) (se_Path s)
    (se_ContentBase64 s) (se_Ensure s) (se_Profile s) (se_Direction s) (se_Action s) (se_Protocol s)
    (se_LocalPort s) (se_Program s) (se_QualityDeferralDays s) (se_FeatureDeferralDays s) (se_ActiveHoursStart s) (se_ActiveHoursEnd s)
    (se_AutoRestart s) (se_QualityDeadlineDays s) (se_FeatureDeadlineDays s) (se_DeadlineGraceDays s) (se_PauseQualityFrom s) (se_PauseFeatureFrom s)
    (se_TargetProduct s) (se_TargetVersion s) (se_RequireEncryption s) (se_Method s) (se_EscrowRecoveryKey s) (se_RealtimeMonitoring s)
    (se_CloudProtection s) (se_SampleSubmission s) (se_PUAProtection s) (se_CloudBlockLevel s) (se_Store s) (se_CertificatePEM s)
    (se_SSID s) (se_Security s) (se_Passphrase s) (se_SealedSecret s) (se_SecretSet s) (se_AutoConnect s)
    (se_Hidden s) (se_EAPMethod s) (se_ServerNames s) (se_TrustedRootThumbprints s) (se_AuthMode s) (se_Server s)
    (se_Tunnel s) (se_Authentication s) (se_SplitTunneling s) (se_DNSSuffix s).
Definition set_Group (x : string) (s : Setting) : Setting :=
  mkSetting (se_Kind s) (se_Hive s) (se_Key s) (se_Type s) (se_Name s) (se_Data s)
    (se_Startup s) (se_State s) x (se_Members s) (se_Mode s) (se_Path s)
    (se_ContentBase64 s) (se_Ensure s) (se_Profile s) (se_Direction s) (se_Action s) (se_Protocol s)
    (se_LocalPort s) (se_Program s) (se_QualityDeferralDays s) (se_FeatureDeferralDays s) (se_ActiveHoursStart s) (se_ActiveHoursEnd s)
    (se_AutoRestart s) (se_QualityDeadlineDays s) (se_FeatureDeadlineDays s) (se_DeadlineGraceDays s) (se_PauseQualityFrom s) (se_PauseFeatureFrom s)
    (se_TargetProduct s) (se_TargetVersion s) (se_RequireEncryption s) (se_Method s) (se_EscrowRecoveryKey s) (se_RealtimeMonitoring s)
    (se_CloudProtection s) (se_SampleSubmission s) (se_PUAProtection s) (se_CloudBlockLevel s) (se_Store s) (se_CertificatePEM s)
    (se_SSID s) (se_Security s) (se_Passphrase s) (se_SealedSecret s) (se_SecretSet s) (se_AutoConnect s)
    (se_Hidden s) (se_EAPMethod s) (se_ServerNames s) (se_TrustedRootThumbprints s) (se_AuthMode s) (se_Server s)
    (se_Tunnel s) (se_Authentication s) (se_SplitTunneling s) (se_DNSSuffix s).
Definition set_Members (x : list string) (s : Setting) : Setting :=
  mkSetting (se_Kind s) (se_Hive s) (se_Key s) (se_Type s) (se_Name s) (se_Data s)
    (se_Startup s) (se_State s) (se_Group s) x (se_Mode s) (se_Path s)
    (se_ContentBase64 s) (se_Ensure s) (se_Profile s) (se_Direction s) (se_Action s) (se_Protocol s)
    (se_LocalPort s) (se_Program s) (se_QualityDeferralDays s) (se_FeatureDeferralDays s) (se_ActiveHoursStart s) (se_ActiveHoursEnd s)
    (se_AutoRestart s) (se_QualityDeadlineDays s) (se_FeatureDeadlineDays s) (se_DeadlineGraceDays s) (se_PauseQualityFrom s) (se_PauseFeatureFrom s)
    (se_TargetProduct s) (se_TargetVersion s) (se_RequireEncryption s) (se_Method s) (se_EscrowRecoveryKey s) (se_RealtimeMonitoring s)
    (se_CloudProtection s) (se_SampleSubmission s) (se_PUAProtection s) (se_CloudBlockLevel s) (se_Store s) (se_CertificatePEM s)
    (se_SSID s) (se_Security s) (se_Passphrase s) (se_SealedSecret s) (se_SecretSet s) (se_AutoConnect s)
    (se_Hidden s) (se_EAPMethod s) (se_ServerNames s) (se_TrustedRootThumbprints s) (se_AuthMode s) (se_Server s)
    (se_Tunnel s) (se_Authentication s) (se_SplitTunneling s) (se_DNSSuffix s).
Definition set_Mode (x : string) (s : Setting) : Setting :=
  mkSetting (se_Kind s) (se_Hive s) (se_Key s) (se_Type s) (se_Name s) (se_Data s)
    (se_Startup s) (se_State s) (se_Group s) (se_Members s) x (se_Path s)
    (se_ContentBase64 s) (se_Ensure s) (se_Profile s) (se_Direction s) (se_Action s) (se_Protocol s)
    (se_LocalPort s) (se_Program s) (se_QualityDeferralDays s) (se_FeatureDeferralDays s) (se_ActiveHoursStart s) (se_ActiveHoursEnd s)
    (se_AutoRestart s) (se_QualityDeadlineDays s) (se_FeatureDeadlineDays s) (se_DeadlineGraceDays s) (se_PauseQualityFrom s) (se_PauseFeatureFrom s)
    (se_TargetProduct s) (se_TargetVersion s) (se_RequireEncryption s) (se_Method s) (se_EscrowRecoveryKey s) (se_RealtimeMonitoring s)
    (se_CloudProtection s) (se_SampleSubmission s) (se_PUAProtection s) (se_CloudBlockLevel s) (se_Store s) (se_CertificatePEM s)
    (se_SSID s) (se_Security s) (se_Passphrase s) (se_SealedSecret s) (se_SecretSet s) (se_AutoConnect s)
    (se_Hidden s) (se_EAPMethod s) (se_ServerNames s) (se_TrustedRootThumbprints s) (se_AuthMode s) (se_Server s)
    (se_Tunnel s) (se_Authentication s) (se_SplitTunneling s) (se_DNSSuffix s).
Definition set_Path (x : string) (s : Setting) : Setting :=
  mkSetting (se_Kind s) (se_Hive s) (se_Key s) (se_Type s) (se_Name s) (se_Data s)
    (se_Startup s) (se_State s) (se_Group s) (se_Members s) (se_Mode s) x
    (se_ContentBase64 s) (se_Ensure s) (se_Profile s) (se_Direction s) (se_Action s) (se_Protocol s)
    (se_LocalPort s) (se_Program s) (se_QualityDeferralDays s) (se_FeatureDeferralDays s) (se_ActiveHoursStart s) (se_ActiveHoursEnd s)
    (se_AutoRestart s) (se_QualityDeadlineDays s) (se_FeatureDeadlineDays s) (se_DeadlineGraceDays s) (se_PauseQualityFrom s) (se_PauseFeatureFrom s)
    (se_TargetProduct s) (se_TargetVersion s) (se_RequireEncryption s) (se_Method s) (se_EscrowRecoveryKey s) (se_RealtimeMonitoring s)
    (se_CloudProtection s) (se_SampleSubmission s) (se_PUAProtection s) (se_CloudBlockLevel s) (se_Store s) (se_CertificatePEM s)
    (se_SSID s) (se_Security s) (se_Passphrase s) (se_SealedSecret s) (se_SecretSet s) (se_AutoConnect s)
    (se_Hidden s) (se_EAPMethod s) (se_ServerNames s) (se_TrustedRootThumbprints s) (se_AuthMode s) (se_Server s)
    (se_Tunnel s) (se_Authentication s) (se_SplitTunneling s) (se_DNSSuffix s).
Definition set_ContentBase64 (x : string) (s : Setting) : Setting :=
  mkSetting (se_Kind s) (se_Hive s) (se_Key s) (se_Type s) (se_Name s) (se_Data s)
    (se_Startup s) (se_State s) (se_Group s) (se_Members s) (se_Mode s) (se_Path s)
    x (se_Ensure s) (se_Profile s) (se_Direction s) (se_Action s) (se_Protocol s)
    (se_LocalPort s) (se_Program s) (se_QualityDeferralDays s) (se_FeatureDeferralDays s) (se_ActiveHoursStart s) (se_ActiveHoursEnd s)
    (se_AutoRestart s) (se_QualityDeadlineDays s) (se_FeatureDeadlineDays s) (se_DeadlineGraceDays s) (se_PauseQualityFrom s) (se_PauseFeatureFrom s)
    (se_TargetProduct s) (se_TargetVersion s) (se_RequireEncryption s) (se_Method s) (se_EscrowRecoveryKey s) (se_RealtimeMonitoring s)
    (se_CloudProtection s) (se_SampleSubmission s) (se_PUAProtection s) (se_CloudBlockLevel s) (se_Store s) (se_CertificatePEM s)
    (se_SSID s) (se_Security s) (se_Passphrase s) (se_SealedSecret s) (se_SecretSet s) (se_AutoConnect s)
    (se_Hidden s) (se_EAPMethod s) (se_ServerNames s) (se_TrustedRootThumbprints s) (se_AuthMode s) (se_Server s)
    (se_Tunnel s) (se_Authentication s) (se_SplitTunneling s) (se_DNSSuffix s).
Definition set_Ensure (x : string) (s : Setting) : Setting :=
  mkSetting (se_Kind s) (se_Hive s) (se_Key s) (se_Type s) (se_Name s) (se_Data s)
    (se_Startup s) (se_State s) (se_Group s) (se_Members s) (se_Mode s) (se_Path s)
    (se_ContentBase64 s) x (se_Profile s) (se_Direction s) (se_Action s) (se_Protocol s)
    (se_LocalPort s) (se_Program s) (se_QualityDeferralDays s) (se_FeatureDeferralDays s) (se_ActiveHoursStart s) (se_ActiveHoursEnd s)
    (se_AutoRestart s) (se_QualityDeadlineDays s) (se_FeatureDeadlineDays s) (se_DeadlineGraceDays s) (se_PauseQualityFrom s) (se_PauseFeatureFrom s)
    (se_TargetProduct s) (se_TargetVersion s) (se_RequireEncryption s) (se_Method s) (se_EscrowRecoveryKey s) (se_RealtimeMonitoring s)
    (se_CloudProtection s) (se_SampleSubmission s) (se_PUAProtection s) (se_CloudBlockLevel s) (se_Store s) (se_CertificatePEM s)
    (se_SSID s) (se_Security s) (se_Passphrase s) (se_SealedSecret s) (se_SecretSet s) (se_AutoConnect s)
    (se_Hidden s) (se_EAPMethod s) (se_ServerNames s) (se_TrustedRootThumbprints s) (se_AuthMode s) (se_Server s)
    (se_Tunnel s) (se_Authentication s) (se_SplitTunneling s) (se_DNSSuffix s).
Definition set_Profile (x : string) (s : Setting) : Setting :=
  mkSetting (se_Kind s) (se_Hive s) (se_Key s) (se_Type s) (se_Name s) (se_Data s)
    (se_Startup s) (se_State s) (se_Group s) (se_Members s) (se_Mode s) (se_Path s)
    (se_ContentBase64 s) (se_Ensure s) x (se_Direction s) (se_Action s) (se_Protocol s)
    (se_LocalPort s) (se_Program s) (se_QualityDeferralDays s) (se_FeatureDeferralDays s) (se_ActiveHoursStart s) (se_ActiveHoursEnd s)
    (se_AutoRestart s) (se_QualityDeadlineDays s) (se_FeatureDeadlineDays s) (se_DeadlineGraceDays s) (se_PauseQualityFrom s) (se_PauseFeatureFrom s)
    (se_TargetProduct s) (se_TargetVersion s) (se_RequireEncryption s) (se_Method s) (se_EscrowRecoveryKey s) (se_RealtimeMonitoring s)
    (se_CloudProtection s) (se_SampleSubmission s) (se_PUAProtection s) (se_CloudBlockLevel s) (se_Store s) (se_CertificatePEM s)
    (se_SSID s) (se_Security s) (se_Passphrase s) (se_SealedSecret s) (se_SecretSet s) (se_AutoConnect s)
    (se_Hidden s) (se_EAPMethod s) (se_ServerNames s) (se_TrustedRootThumbprints s) (se_AuthMode s) (se_Server s)
    (se_Tunnel s) (se_Authentication s) (se_SplitTunneling s) (se_DNSSuffix s).
Definition set_Direction (x : string) (s : Setting) : Setting :=
  mkSetting (se_Kind s) (se_Hive s) (se_Key s) (se_Type s) (se_Name s) (se_Data s)
    (se_Startup s) (se_State s) (se_Group s) (se_Members s) (se_Mode s) (se_Path s)
    (se_ContentBase64 s) (se_Ensure s) (se_Profile s) x (se_Action s) (se_Protocol s)
    (se_LocalPort s) (se_Program s) (se_QualityDeferralDays s) (se_FeatureDeferralDays s) (se_ActiveHoursStart s) (se_ActiveHoursEnd s)
    (se_AutoRestart s) (se_QualityDeadlineDays s) (se_FeatureDeadlineDays s) (se_DeadlineGraceDays s) (se_PauseQualityFrom s) (se_PauseFeatureFrom s)
    (se_TargetProduct s) (se_TargetVersion s) (se_RequireEncryption s) (se_Method s) (se_EscrowRecoveryKey s) (se_RealtimeMonitoring s)
    (se_CloudProtection s) (se_SampleSubmission s) (se_PUAProtection s) (se_CloudBlockLevel s) (se_Store s) (se_CertificatePEM s)
    (se_SSID s) (se_Security s) (se_Passphrase s) (se_SealedSecret s) (se_SecretSet s) (se_AutoConnect s)
    (se_Hidden s) (se_EAPMethod s) (se_ServerNames s) (se_TrustedRootThumbprints s) (se_AuthMode s) (se_Server s)
    (se_Tunnel s) (se_Authentication s) (se_SplitTunneling s) (se_DNSSuffix s).
Definition set_Action (x : string) (s : Setting) : Setting :=
  mkSetting (se_Kind s) (se_Hive s) (se_Key s) (se_Type s) (se_Name s) (se_Data s)
    (se_Startup s) (se_State s) (se_Group s) (se_Members s) (se_Mode s) (se_Path s)
    (se_ContentBase64 s) (se_Ensure s) (se_Profile s) (se_Direction s) x (se_Protocol s)
    (se_LocalPort s) (se_Program s) (se_QualityDeferralDays s) (se_FeatureDeferralDays s) (se_ActiveHoursStart s) (se_ActiveHoursEnd s)
    (se_AutoRestart s) (se_QualityDeadlineDays s) (se_FeatureDeadlineDays s) (se_DeadlineGraceDays s) (se_PauseQualityFrom s) (se_PauseFeatureFrom s)
    (se_TargetProduct s) (se_TargetVersion s) (se_RequireEncryption s) (se_Method s) (se_EscrowRecoveryKey s) (se_RealtimeMonitoring s)
    (se_CloudProtection s) (se_SampleSubmission s) (se_PUAProtection s) (se_CloudBlockLevel s) (se_Store s) (se_CertificatePEM s)
    (se_SSID s) (se_Security s) (se_Passphrase s) (se_SealedSecret s) (se_SecretSet s) (se_AutoConnect s)
    (se_Hidden s) (se_EAPMethod s) (se_ServerNames s) (se_TrustedRootThumbprints s) (se_AuthMode s) (se_Server s)
    (se_Tunnel s) (se_Authentication s) (se_SplitTunneling s) (se_DNSSuffix s).
Definition set_Protocol (x : string) (s : Setting) : Setting :=
  mkSetting (se_Kind s) (se_Hive s) (se_Key s) (se_Type s) (se_Name s) (se_Data s)
    (se_Startup s) (se_State s) (se_Group s) (se_Members s) (se_Mode s) (se_Path s)
    (se_ContentBase64 s) (se_Ensure s) (se_Profile s) (se_Direction s) (se_Action s) x
    (se_LocalPort s) (se_Program s) (se_QualityDeferralDays s) (se_FeatureDeferralDays s) (se_ActiveHoursStart s) (se_ActiveHoursEnd s)
    (se_AutoRestart s) (se_QualityDeadlineDays s) (se_FeatureDeadlineDays s) (se_DeadlineGraceDays s) (se_PauseQualityFrom s) (se_PauseFeatureFrom s)
    (se_TargetProduct s) (se_TargetVersion s) (se_RequireEncryption s) (se_Method s) (se_EscrowRecoveryKey s) (se_RealtimeMonitoring s)
    (se_CloudProtection s) (se_SampleSubmission s) (se_PUAProtection s) (se_CloudBlockLevel s) (se_Store s) (se_CertificatePEM s)
    (se_SSID s) (se_Security s) (se_Passphrase s) (se_SealedSecret s) (se_SecretSet s) (se_AutoConnect s)
    (se_Hidden s) (se_EAPMethod s) (se_ServerNames s) (se_TrustedRootThumbprints s) (se_AuthMode s) (se_Server s)
    (se_Tunnel s) (se_Authentication s) (se_SplitTunneling s) (se_DNSSuffix s).
Definition set_LocalPort (x : string) (s : Setting) : Setting :=
  mkSetting (se_Kind s) (se_Hive s) (se_Key s) (se_Type s) (se_Name s) (se_Data s)
    (se_Startup s) (se_State s) (se_Group s) (se_Members s) (se_Mode s) (se_Path s)
    (se_ContentBase64 s) (se_Ensure s) (se_Profile s) (se_Direction s) (se_Action s) (se_Protocol s)
    x (se_Program s) (se_QualityDeferralDays s) (se_FeatureDeferralDays s) (se_ActiveHoursStart s) (se_ActiveHoursEnd s)
    (se_AutoRestart s) (se_QualityDeadlineDays s) (se_FeatureDeadlineDays s) (se_DeadlineGraceDays s) (se_PauseQualityFrom s) (se_PauseFeatureFrom s)
    (se_TargetProduct s) (se_TargetVersion s) (se_RequireEncryption s) (se_Method s) (se_EscrowRecoveryKey s) (se_RealtimeMonitoring s)
    (se_CloudProtection s) (se_SampleSubmission s) (se_PUAProtection s) (se_CloudBlockLevel s) (se_Store s) (se_CertificatePEM s)
    (se_SSID s) (se_Security s) (se_Passphrase s) (se_SealedSecret s) (se_SecretSet s) (se_AutoConnect s)
    (se_Hidden s) (se_EAPMethod s) (se_ServerNames s) (se_TrustedRootThumbprints s) (se_AuthMode s) (se_Server s)
    (se_Tunnel s) (se_Authentication s) (se_SplitTunneling s) (se_DNSSuffix s).
Definition set_Program (x : string) (s : Setting) : Setting :=
  mkSetting (se_Kind s) (se_Hive s) (se_Key s) (se_Type s) (se_Name s) (se_Data s)
    (se_Startup s) (se_State s) (se_Group s) (se_Members s) (se_Mode s) (se_Path s)
    (se_ContentBase64 s) (se_Ensure s) (se_Profile s) (se_Direction s) (se_Action s) (se_Protocol s)
    (se_LocalPort s) x (se_QualityDeferralDays s) (se_FeatureDeferralDays s) (se_ActiveHoursStart s) (se_ActiveHoursEnd s)
    (se_AutoRestart s) (se_QualityDeadlineDays s) (se_FeatureDeadlineDays s) (se_DeadlineGraceDays s) (se_PauseQualityFrom s) (se_PauseFeatureFrom s)
    (se_TargetProduct s) (se_TargetVersion s) (se_RequireEncryption s) (se_Method s) (se_EscrowRecoveryKey s) (se_RealtimeMonitoring s)
    (se_CloudProtection s) (se_SampleSubmission s) (se_PUAProtection s) (se_CloudBlockLevel s) (se_Store s) (se_CertificatePEM s)
    (se_SSID s) (se_Security s) (se_Passphrase s) (se_SealedSecret s) (se_SecretSet s) (se_AutoConnect s)
    (se_Hidden s) (se_EAPMethod s) (se_ServerNames s) (se_TrustedRootThumbprints s) (se_AuthMode s) (se_Server s)
    (se_Tunnel s) (se_Authentication s) (se_SplitTunneling s) (se_DNSSuffix s).
Definition set_QualityDeferralDays (x : option Z) (s : Setting) : Setting :=
  mkSetting (se_Kind s) (se_Hive s) (se_Key s) (se_Type s) (se_Name s) (se_Data s)
    (se_Startup s) (se_State s) (se_Group s) (se_Members s) (se_Mode s) (se_Path s)
    (se_ContentBase64 s) (se_Ensure s) (se_Profile s) (se_Direction s) (se_Action s) (se_Protocol s)
    (se_LocalPort s) (se_Program s) x (se_FeatureDeferralDays s) (se_ActiveHoursStart s) (se_ActiveHoursEnd s)
    (se_AutoRestart s) (se_QualityDeadlineDays s) (se_FeatureDeadlineDays s) (se_DeadlineGraceDays s) (se_PauseQualityFrom s) (se_PauseFeatureFrom s)
    (se_TargetProduct s) (se_TargetVersion s) (se_RequireEncryption s) (se_Method s) (se_EscrowRecoveryKey s) (se_RealtimeMonitoring s)
    (se_CloudProtection s) (se_SampleSubmission s) (se_PUAProtection s) (se_CloudBlockLevel s) (se_Store s) (se_CertificatePEM s)
    (se_SSID s) (se_Security s) (se_Passphrase s) (se_SealedSecret s) (se_SecretSet s) (se_AutoConnect s)
    (se_Hidden s) (se_EAPMethod s) (se_ServerNames s) (se_TrustedRootThumbprints s) (se_AuthMode s) (se_Server s)
    (se_Tunnel s) (se_Authentication s) (se_SplitTunneling s) (se_DNSSuffix s).
Definition set_FeatureDeferralDays (x : option Z) (s : Setting) : Setting :=
  mkSetting (se_Kind s) (se_Hive s) (se_Key s) (se_Type s) (se_Name s) (se_Data s)
    (se_Startup s) (se_State s) (se_Group s) (se_Members s) (se_Mode s) (se_Path s)
    (se_ContentBase64 s) (se_Ensure s) (se_Profile s) (se_Direction s) (se_Action s) (se_Protocol s)
    (se_LocalPort s) (se_Program s) (se_QualityDeferralDays s) x (se_ActiveHoursStart s) (se_ActiveHoursEnd s)
    (se_AutoRestart s) (se_QualityDeadlineDays s) (se_FeatureDeadlineDays s) (se_DeadlineGraceDays s) (se_PauseQualityFrom s) (se_PauseFeatureFrom s)
    (se_TargetProduct s) (se_TargetVersion s) (se_RequireEncryption s) (se_Method s) (se_EscrowRecoveryKey s) (se_RealtimeMonitoring s)
    (se_CloudProtection s) (se_SampleSubmission s) (se_PUAProtection s) (se_CloudBlockLevel s) (se_Store s) (se_CertificatePEM s)
    (se_SSID s) (se_Security s) (se_Passphrase s) (se_SealedSecret s) (se_SecretSet s) (se_AutoConnect s)
    (se_Hidden s) (se_EAPMethod s) (se_ServerNames s) (se_TrustedRootThumbprints s) (se_AuthMode s) (se_Server s)
    (se_Tunnel s) (se_Authentication s) (se_SplitTunneling s) (se_DNSSuffix s).
Definition set_ActiveHoursStart (x : option Z) (s : Setting) : Setting :=
  mkSetting (se_Kind s) (se_Hive s) (se_Key s) (se_Type s) (se_Name s) (se_Data s)
    (se_Startup s) (se_State s) (se_Group s) (se_Members s) (se_Mode s) (se_Path s)
    (se_ContentBase64 s) (se_Ensure s) (se_Profile s) (se_Direction s) (se_Action s) (se_Protocol s)
    (se_LocalPort s) (se_Program s) (se_QualityDeferralDays s) (se_FeatureDeferralDays s) x (se_ActiveHoursEnd s)
    (se_AutoRestart s) (se_QualityDeadlineDays s) (se_FeatureDeadlineDays s) (se_DeadlineGraceDays s) (se_PauseQualityFrom s) (se_PauseFeatureFrom s)
    (se_TargetProduct s) (se_TargetVersion s) (se_RequireEncryption s) (se_Method s) (se_EscrowRecoveryKey s) (se_RealtimeMonitoring s)
    (se_CloudProtection s) (se_SampleSubmission s) (se_PUAProtection s) (se_CloudBlockLevel s) (se_Store s) (se_CertificatePEM s)
    (se_SSID s) (se_Security s) (se_Passphrase s) (se_SealedSecret s) (se_SecretSet s) (se_AutoConnect s)
    (se_Hidden s) (se_EAPMethod s) (se_ServerNames s) (se_TrustedRootThumbprints s) (se_AuthMode s) (se_Server s)
    (se_Tunnel s) (se_Authentication s) (se_SplitTunneling s) (se_DNSSuffix s).
Definition set_ActiveHoursEnd (x : option Z) (s : Setting) : Setting :=
  mkSetting (se_Kind s) (se_Hive s) (se_Key s) (se_Type s) (se_Name s) (se_Data s)
    (se_Startup s) (se_State s) (se_Group s) (se_Members s) (se_Mode s) (se_Path s)
    (se_ContentBase64 s) (se_Ensure s) (se_Profile s) (se_Direction s) (se_Action s) (se_Protocol s)
    (se_LocalPort s) (se_Program s) (se_QualityDeferralDays s) (se_FeatureDeferralDays s) (se_ActiveHoursStart s) x
    (se_AutoRestart s) (se_QualityDeadlineDays s) (se_FeatureDeadlineDays s) (se_DeadlineGraceDays s) (se_PauseQualityFrom s) (se_PauseFeatureFrom s)
    (se_TargetProduct s) (se_TargetVersion s) (se_RequireEncryption s) (se_Method s) (se_EscrowRecoveryKey s) (se_RealtimeMonitoring s)
    (se_CloudProtection s) (se_SampleSubmission s) (se_PUAProtection s) (se_CloudBlockLevel s) (se_Store s) (se_CertificatePEM s)
    (se_SSID s) (se_Security s) (se_Passphrase s) (se_SealedSecret s) (se_SecretSet s) (se_AutoConnect s)
    (se_Hidden s) (se_EAPMethod s) (se_ServerNames s) (se_TrustedRootThumbprints s) (se_AuthMode s) (se_Server s)
    (se_Tunnel s) (se_Authentication s) (se_SplitTunneling s) (se_DNSSuffix s).
Definition set_AutoRestart (x : option bool) (s : Setting) : Setting :=
  mkSetting (se_Kind s) (se_Hive s) (se_Key s) (se_Type s) (se_Name s) (se_Data s)
    (se_Startup s) (se_State s) (se_Group s) (se_Members s) (se_Mode s) (se_Path s)
    (se_ContentBase64 s) (se_Ensure s) (se_Profile s) (se_Direction s) (se_Action s) (se_Protocol s)
    (se_LocalPort s) (se_Program s) (se_QualityDeferralDays s) (se_FeatureDeferralDays s) (se_ActiveHoursStart s) (se_ActiveHoursEnd s)
    x (se_QualityDeadlineDays s) (se_FeatureDeadlineDays s) (se_DeadlineGraceDays s) (se_PauseQualityFrom s) (se_PauseFeatureFrom s)
    (se_TargetProduct s) (se_TargetVersion s) (se_RequireEncryption s) (se_Method s) (se_EscrowRecoveryKey s) (se_RealtimeMonitoring s)
    (se_CloudProtection s) (se_SampleSubmission s) (se_PUAProtection s) (se_CloudBlockLevel s) (se_Store s) (se_CertificatePEM s)
    (se_SSID s) (se_Security s) (se_Passphrase s) (se_SealedSecret s) (se_SecretSet s) (se_AutoConnect s)
    (se_Hidden s) (se_EAPMethod s) (se_ServerNames s) (se_TrustedRootThumbprints s) (se_AuthMode s) (se_Server s)
    (se_Tunnel s) (se_Authentication s) (se_SplitTunneling s) (se_DNSSuffix s).
Definition set_QualityDeadlineDays (x : option Z) (s : Setting) : Setting :=
  mkSetting (se_Kind s) (se_Hive s) (se_Key s) (se_Type s) (se_Name s) (se_Data s)
    (se_Startup s) (se_State s) (se_Group s) (se_Members s) (se_Mode s) (se_Path s)
    (se_ContentBase64 s) (se_Ensure s) (se_Profile s) (se_Direction s) (se_Action s) (se_Protocol s)
    (se_LocalPort s) (se_Program s) (se_QualityDeferralDays s) (se_FeatureDeferralDays s) (se_ActiveHoursStart s) (se_ActiveHoursEnd s)
    (se_AutoRestart s) x (se_FeatureDeadlineDays s) (se_DeadlineGraceDays s) (se_PauseQualityFrom s) (se_PauseFeatureFrom s)
    (se_TargetProduct s) (se_TargetVersion s) (se_RequireEncryption s) (se_Method s) (se_EscrowRecoveryKey s) (se_RealtimeMonitoring s)
    (se_CloudProtection s) (se_SampleSubmission s) (se_PUAProtection s) (se_CloudBlockLevel s) (se_Store s) (se_CertificatePEM s)
    (se_SSID s) (se_Security s) (se_Passphrase s) (se_SealedSecret s) (se_SecretSet s) (se_AutoConnect s)
    (se_Hidden s) (se_EAPMethod s) (se_ServerNames s) (se_TrustedRootThumbprints s) (se_AuthMode s) (se_Server s)
    (se_Tunnel s) (se_Authentication s) (se_SplitTunneling s) (se_DNSSuffix s).
Definition set_FeatureDeadlineDays (x : option Z) (s : Setting) : Setting :=
  mkSetting (se_Kind s) (se_Hive s) (se_Key s) (se_Type s) (se_Name s) (se_Data s)
    (se_Startup s) (se_State s) (se_Group s) (se_Members s) (se_Mode s) (se_Path s)
    (se_ContentBase64 s) (se_Ensure s) (se_Profile s) (se_Direction s) (se_Action s) (se_Protocol s)
    (se_LocalPort s) (se_Program s) (se_QualityDeferralDays s) (se_FeatureDeferralDays s) (se_ActiveHoursStart s) (se_ActiveHoursEnd s)
    (se_AutoRestart s) (se_QualityDeadlineDays s) x (se_DeadlineGraceDays s) (se_PauseQualityFrom s) (se_PauseFeatureFrom s)
    (se_TargetProduct s) (se_TargetVersion s) (se_RequireEncryption s) (se_Method s) (se_EscrowRecoveryKey s) (se_RealtimeMonitoring s)
    (se_CloudProtection s) (se_SampleSubmission s) (se_PUAProtection s) (se_CloudBlockLevel s) (se_Store s) (se_CertificatePEM s)
    (se_SSID s) (se_Security s) (se_Passphrase s) (se_SealedSecret s) (se_SecretSet s) (se_AutoConnect s)
    (se_Hidden s) (se_EAPMethod s) (se_ServerNames s) (se_TrustedRootThumbprints s) (se_AuthMode s) (se_Server s)
    (se_Tunnel s) (se_Authentication s) (se_SplitTunneling s) (se_DNSSuffix s).
Definition set_DeadlineGraceDays (x : option Z) (s : Setting) : Setting :=
  mkSetting (se_Kind s) (se_Hive s) (se_Key s) (se_Type s) (se_Name s) (se_Data s)
    (se_Startup s) (se_State s) (se_Group s) (se_Members s) (se_Mode s) (se_Path s)
    (se_ContentBase64 s) (se_Ensure s) (se_Profile s) (se_Direction s) (se_Action s) (se_Protocol s)
    (se_LocalPort s) (se_Program s) (se_QualityDeferralDays s) (se_FeatureDeferralDays s) (se_ActiveHoursStart s) (se_ActiveHoursEnd s)
    (se_AutoRestart s) (se_QualityDeadlineDays s) (se_FeatureDeadlineDays s) x (se_PauseQualityFrom s) (se_PauseFeatureFrom s)
    (se_TargetProduct s) (se_TargetVersion s) (se_RequireEncryption s) (se_Method s) (se_EscrowRecoveryKey s) (se_RealtimeMonitoring s)
    (se_CloudProtection s) (se_SampleSubmission s) (se_PUAProtection s) (se_CloudBlockLevel s) (se_Store s) (se_CertificatePEM s)
    (se_SSID s) (se_Security s) (se_Passphrase s) (se_SealedSecret s) (se_SecretSet s) (se_AutoConnect s)
    (se_Hidden s) (se_EAPMethod s) (se_ServerNames s) (se_TrustedRootThumbprints s) (se_AuthMode s) (se_Server s)
    (se_Tunnel s) (se_Authentication s) (se_SplitTunneling s) (se_DNSSuffix s).
Definition set_PauseQualityFrom (x : string) (s : Setting) : Setting :=
  mkSetting (se_Kind s) (se_Hive s) (se_Key s) (se_Type s) (se_Name s) (se_Data s)
    (se_Startup s) (se_State s) (se_Group s) (se_Members s) (se_Mode s) (se_Path s)
    (se_ContentBase64 s) (se_Ensure s) (se_Profile s) (se_Direction s) (se_Action s) (se_Protocol s)
    (se_LocalPort s) (se_Program s) (se_QualityDeferralDays s) (se_FeatureDeferralDays s) (se_ActiveHoursStart s) (se_ActiveHoursEnd s)
    (se_AutoRestart s) (se_QualityDeadlineDays s) (se_FeatureDeadlineDays s) (se_DeadlineGraceDays s) x (se_PauseFeatureFrom s)
    (se_TargetProduct s) (se_TargetVersion s) (se_RequireEncryption s) (se_Method s) (se_EscrowRecoveryKey s) (se_RealtimeMonitoring s)
    (se_CloudProtection s) (se_SampleSubmission s) (se_PUAProtection s) (se_CloudBlockLevel s) (se_Store s) (se_CertificatePEM s)
    (se_SSID s) (se_Security s) (se_Passphrase s) (se_SealedSecret s) (se_SecretSet s) (se_AutoConnect s)
    (se_Hidden s) (se_EAPMethod s) (se_ServerNames s) (se_TrustedRootThumbprints s) (se_AuthMode s) (se_Server s)
    (se_Tunnel s) (se_Authentication s) (se_SplitTunneling s) (se_DNSSuffix s).
Definition set_PauseFeatureFrom (x : string) (s : Setting) : Setting :=
  mkSetting (se_Kind s) (se_Hive s) (se_Key s) (se_Type s) (se_Name s) (se_Data s)
    (se_Startup s) (se_State s) (se_Group s) (se_Members s) (se_Mode s) (se_Path s)
    (se_ContentBase64 s) (se_Ensure s) (se_Profile s) (se_Direction s) (se_Action s) (se_Protocol s)
    (se_LocalPort s) (se_Program s) (se_QualityDeferralDays s) (se_FeatureDeferralDays s) (se_ActiveHoursStart s) (se_ActiveHoursEnd s)
    (se_AutoRestart s) (se_QualityDeadlineDays s) (se_FeatureDeadlineDays s) (se_DeadlineGraceDays s) (se_PauseQualityFrom s) x
    (se_TargetProduct s) (se_TargetVersion s) (se_RequireEncryption s) (se_Method s) (se_EscrowRecoveryKey s) (se_RealtimeMonitoring s)
    (se_CloudProtection s) (se_SampleSubmission s) (se_PUAProtection s) (se_CloudBlockLevel s) (se_Store s) (se_CertificatePEM s)
    (se_SSID s) (se_Security s) (se_Passphrase s) (se_SealedSecret s) (se_SecretSet s) (se_AutoConnect s)
    (se_Hidden s) (se_EAPMethod s) (se_ServerNames s) (se_TrustedRootThumbprints s) (se_AuthMode s) (se_Server s)
    (se_Tunnel s) (se_Authentication s) (se_SplitTunneling s) (se_DNSSuffix s).
Definition set_TargetProduct (x : string) (s : Setting) : Setting :=
  mkSetting (se_Kind s) (se_Hive s) (se_Key s) (se_Type s) (se_Name s) (se_Data s)
    (se_Startup s) (se_State s) (se_Group s) (se_Members s) (se_Mode s) (se_Path s)
    (se_ContentBase64 s) (se_Ensure s) (se_Profile s) (se_Direction s) (se_Action s) (se_Protocol s)
    (se_LocalPort s) (se_Program s) (se_QualityDeferralDays s) (se_FeatureDeferralDays s) (se_ActiveHoursStart s) (se_ActiveHoursEnd s)
    (se_AutoRestart s) (se_QualityDeadlineDays s) (se_FeatureDeadlineDays s) (se_DeadlineGraceDays s) (se_PauseQualityFrom s) (se_PauseFeatureFrom s)
    x (se_TargetVersion s) (se_RequireEncryption s) (se_Method s) (se_EscrowRecoveryKey s) (se_RealtimeMonitoring s)
    (se_CloudProtection s) (se_SampleSubmission s) (se_PUAProtection s) (se_CloudBlockLevel s) (se_Store s) (se_CertificatePEM s)
    (se_SSID s) (se_Security s) (se_Passphrase s) (se_SealedSecret s) (se_SecretSet s) (se_AutoConnect s)
    (se_Hidden s) (se_EAPMethod s) (se_ServerNames s) (se_TrustedRootThumbprints s) (se_AuthMode s) (se_Server s)
    (se_Tunnel s) (se_Authentication s) (se_SplitTunneling s) (se_DNSSuffix s).
Definition set_TargetVersion (x : string) (s : Setting) : Setting :=
  mkSetting (se_Kind s) (se_Hive s) (se_Key s) (se_Type s) (se_Name s) (se_Data s)
    (se_Startup s) (se_State s) (se_Group s) (se_Members s) (se_Mode s) (se_Path s)
    (se_ContentBase64 s) (se_Ensure s) (se_Profile s) (se_Direction s) (se_Action s) (se_Protocol s)
    (se_LocalPort s) (se_Program s) (se_QualityDeferralDays s) (se_FeatureDeferralDays s) (se_ActiveHoursStart s) (se_ActiveHoursEnd s)
    (se_AutoRestart s) (se_QualityDeadlineDays s) (se_FeatureDeadlineDays s) (se_DeadlineGraceDays s) (se_PauseQualityFrom s) (se_PauseFeatureFrom s)
    (se_TargetProduct s) x (se_RequireEncryption s) (se_Method s) (se_EscrowRecoveryKey s) (se_RealtimeMonitoring s)
    (se_CloudProtection s) (se_SampleSubmission s) (se_PUAProtection s) (se_CloudBlockLevel s) (se_Store s) (se_CertificatePEM s)
    (se_SSID s) (se_Security s) (se_Passphrase s) (se_SealedSecret s) (se_SecretSet s) (se_AutoConnect s)
    (se_Hidden s) (se_EAPMethod s) (se_ServerNames s) (se_TrustedRootThumbprints s) (se_AuthMode s) (se_Server s)
    (se_Tunnel s) (se_Authentication s) (se_SplitTunneling s) (se_DNSSuffix s).
Definition set_RequireEncryption (x : bool) (s : Setting) : Setting :=
  mkSetting (se_Kind s) (se_Hive s) (se_Key s) (se_Type s) (se_Name s) (se_Data s)
    (se_Startup s) (se_State s) (se_Group s) (se_Members s) (se_Mode s) (se_Path s)
    (se_ContentBase64 s) (se_Ensure s) (se_Profile s) (se_Direction s) (se_Action s) (se_Protocol s)
    (se_LocalPort s) (se_Program s) (se_QualityDeferralDays s) (se_FeatureDeferralDays s) (se_ActiveHoursStart s) (se_ActiveHoursEnd s)
    (se_AutoRestart s) (se_QualityDeadlineDays s) (se_FeatureDeadlineDays s) (se_DeadlineGraceDays s) (se_PauseQualityFrom s) (se_PauseFeatureFrom s)
    (se_TargetProduct s) (se_TargetVersion s) x (se_Method s) (se_EscrowRecoveryKey s) (se_RealtimeMonitoring s)
    (se_CloudProtection s) (se_SampleSubmission s) (se_PUAProtection s) (se_CloudBlockLevel s) (se_Store s) (se_CertificatePEM s)
    (se_SSID s) (se_Security s) (se_Passphrase s) (se_SealedSecret s) (se_SecretSet s) (se_AutoConnect s)
    (se_Hidden s) (se_EAPMethod s) (se_ServerNames s) (se_TrustedRootThumbprints s) (se_AuthMode s) (se_Server s)
    (se_Tunnel s) (se_Authentication s) (se_SplitTunneling s) (se_DNSSuffix s).
Definition set_Method (x : string) (s : Setting) : Setting :=
  mkSetting (se_Kind s) (se_Hive s) (se_Key s) (se_Type s) (se_Name s) (se_Data s)
    (se_Startup s) (se_State s) (se_Group s) (se_Members s) (se_Mode s) (se_Path s)
    (se_ContentBase64 s) (se_Ensure s) (se_Profile s) (se_Direction s) (se_Action s) (se_Protocol s)
    (se_LocalPort s) (se_Program s) (se_QualityDeferralDays s) (se_FeatureDeferralDays s) (se_ActiveHoursStart s) (se_ActiveHoursEnd s)
    (se_AutoRestart s) (se_QualityDeadlineDays s) (se_FeatureDeadlineDays s) (se_DeadlineGraceDays s) (se_PauseQualityFrom s) (se_PauseFeatureFrom s)
    (se_TargetProduct s) (se_TargetVersion s) (se_RequireEncryption s) x (se_EscrowRecoveryKey s) (se_RealtimeMonitoring s)
    (se_CloudProtection s) (se_SampleSubmission s) (se_PUAProtection s) (se_CloudBlockLevel s) (se_Store s) (se_CertificatePEM s)
    (se_SSID s) (se_Security s) (se_Passphrase s) (se_SealedSecret s) (se_SecretSet s) (se_AutoConnect s)
    (se_Hidden s) (se_EAPMethod s) (se_ServerNames s) (se_TrustedRootThumbprints s) (se_AuthMode s) (se_Server s)
    (se_Tunnel s) (se_Authentication s) (se_SplitTunneling s) (se_DNSSuffix s).
Definition set_EscrowRecoveryKey (x : bool) (s : Setting) : Setting :=
  mkSetting (se_Kind s) (se_Hive s) (se_Key s) (se_Type s) (se_Name s) (se_Data s)
    (se_Startup s) (se_State s) (se_Group s) (se_Members s) (se_Mode s) (se_Path s)
    (se_ContentBase64 s) (se_Ensure s) (se_Profile s) (se_Direction s) (se_Action s) (se_Protocol s)
    (se_LocalPort s) (se_Program s) (se_QualityDeferralDays s) (se_FeatureDeferralDays s) (se_ActiveHoursStart s) (se_ActiveHoursEnd s)
    (se_AutoRestart s) (se_QualityDeadlineDays s) (se_FeatureDeadlineDays s) (se_DeadlineGraceDays s) (se_PauseQualityFrom s) (se_PauseFeatureFrom s)
    (se_TargetProduct s) (se_TargetVersion s) (se_RequireEncryption s) (se_Method s) x (se_RealtimeMonitoring s)
    (se_CloudProtection s) (se_SampleSubmission s) (se_PUAProtection s) (se_CloudBlockLevel s) (se_Store s) (se_CertificatePEM s)
    (se_SSID s) (se_Security s) (se_Passphrase s) (se_SealedSecret s) (se_SecretSet s) (se_AutoConnect s)
    (se_Hidden s) (se_EAPMethod s) (se_ServerNames s) (se_TrustedRootThumbprints s) (se_AuthMode s) (se_Server s)
    (se_Tunnel s) (se_Authentication s) (se_SplitTunneling s) (se_DNSSuffix s).
Definition set_RealtimeMonitoring (x : option bool) (s : Setting) : Setting :=
  mkSetting (se_Kind s) (se_Hive s) (se_Key s) (se_Type s) (se_Name s) (se_Data s)
    (se_Startup s) (se_State s) (se_Group s) (se_Members s) (se_Mode s) (se_Path s)
    (se_ContentBase64 s) (se_Ensure s) (se_Profile s) (se_Direction s) (se_Action s) (se_Protocol s)
    (se_LocalPort s) (se_Program s) (se_QualityDeferralDays s) (se_FeatureDeferralDays s) (se_ActiveHoursStart s) (se_ActiveHoursEnd s)
    (se_AutoRestart s) (se_QualityDeadlineDays s) (se_FeatureDeadlineDays s) (se_DeadlineGraceDays s) (se_PauseQualityFrom s) (se_PauseFeatureFrom s)
    (se_TargetProduct s) (se_TargetVersion s) (se_RequireEncryption s) (se_Method s) (se_EscrowRecoveryKey s) x
    (se_CloudProtection s) (se_SampleSubmission s) (se_PUAProtection s) (se_CloudBlockLevel s) (se_Store s) (se_CertificatePEM s)
    (se_SSID s) (se_Security s) (se_Passphrase s) (se_SealedSecret s) (se_SecretSet s) (se_AutoConnect s)
    (se_Hidden s) (se_EAPMethod s) (se_ServerNames s) (se_TrustedRootThumbprints s) (se_AuthMode s) (se_Server s)
    (se_Tunnel s) (se_Authentication s) (se_SplitTunneling s) (se_DNSSuffix s).
Definition set_CloudProtection (x : string) (s : Setting) : Setting :=
  mkSetting (se_Kind s) (se_Hive s) (se_Key s) (se_Type s) (se_Name s) (se_Data s)
    (se_Startup s) (se_State s) (se_Group s) (se_Members s) (se_Mode s) (se_Path s)
    (se_ContentBase64 s) (se_Ensure s) (se_Profile s) (se_Direction s) (se_Action s) (se_Protocol s)
    (se_LocalPort s) (se_Program s) (se_QualityDeferralDays s) (se_FeatureDeferralDays s) (se_ActiveHoursStart s) (se_ActiveHoursEnd s)
    (se_AutoRestart s) (se_QualityDeadlineDays s) (se_FeatureDeadlineDays s) (se_DeadlineGraceDays s) (se_PauseQualityFrom s) (se_PauseFeatureFrom s)
    (se_TargetProduct s) (se_TargetVersion s) (se_RequireEncryption s) (se_Method s) (se_EscrowRecoveryKey s) (se_RealtimeMonitoring s)
    x (se_SampleSubmission s) (se_PUAProtection s) (se_CloudBlockLevel s) (se_Store s) (se_CertificatePEM s)
    (se_SSID s) (se_Security s) (se_Passphrase s) (se_SealedSecret s) (se_SecretSet s) (se_AutoConnect s)
    (se_Hidden s) (se_EAPMethod s) (se_ServerNames s) (se_TrustedRootThumbprints s) (se_AuthMode s) (se_Server s)
    (se_Tunnel s) (se_Authentication s) (se_SplitTunneling s) (se_DNSSuffix s).
Definition set_SampleSubmission (x : string) (s : Setting) : Setting :=
  mkSetting (se_Kind s) (se_Hive s) (se_Key s) (se_Type s) (se_Name s) (se_Data s)
    (se_Startup s) (se_State s) (se_Group s) (se_Members s) (se_Mode s) (se_Path s)
    (se_ContentBase64 s) (se_Ensure s) (se_Profile s) (se_Direction s) (se_Action s) (se_Protocol s)
    (se_LocalPort s) (se_Program s) (se_QualityDeferralDays s) (se_FeatureDeferralDays s) (se_ActiveHoursStart s) (se_ActiveHoursEnd s)
    (se_AutoRestart s) (se_QualityDeadlineDays s) (se_FeatureDeadlineDays s) (se_DeadlineGraceDays s) (se_PauseQualityFrom s) (se_PauseFeatureFrom s)
    (se_TargetProduct s) (se_TargetVersion s) (se_RequireEncryption s) (se_Method s) (se_EscrowRecoveryKey s) (se_RealtimeMonitoring s)
    (se_CloudProtection s) x (se_PUAProtection s) (se_CloudBlockLevel s) (se_Store s) (se_CertificatePEM s)
    (se_SSID s) (se_Security s) (se_Passphrase s) (se_SealedSecret s) (se_SecretSet s) (se_AutoConnect s)
    (se_Hidden s) (se_EAPMethod s) (se_ServerNames s) (se_TrustedRootThumbprints s) (se_AuthMode s) (se_Server s)
    (se_Tunnel s) (se_Authentication s) (se_SplitTunneling s) (se_DNSSuffix s).
Definition set_PUAProtection (x : string) (s : Setting) : Setting :=
  mkSetting (se_Kind s) (se_Hive s) (se_Key s) (se_Type s) (se_Name s) (se_Data s)
    (se_Startup s) (se_State s) (se_Group s) (se_Members s) (se_Mode s) (se_Path s)
    (se_ContentBase64 s) (se_Ensure s) (se_Profile s) (se_Direction s) (se_Action s) (se_Protocol s)
    (se_LocalPort s) (se_Program s) (se_QualityDeferralDays s) (se_FeatureDeferralDays s) (se_ActiveHoursStart s) (se_ActiveHoursEnd s)
    (se_AutoRestart s) (se_QualityDeadlineDays s) (se_FeatureDeadlineDays s) (se_DeadlineGraceDays s) (se_PauseQualityFrom s) (se_PauseFeatureFrom s)
    (se_TargetProduct s) (se_TargetVersion s) (se_RequireEncryption s) (se_Method s) (se_EscrowRecoveryKey s) (se_RealtimeMonitoring s)
    (se_CloudProtection s) (se_SampleSubmission s) x (se_CloudBlockLevel s) (se_Store s) (se_CertificatePEM s)
    (se_SSID s) (se_Security s) (se_Passphrase s) (se_SealedSecret s) (se_SecretSet s) (se_AutoConnect s)
    (se_Hidden s) (se_EAPMethod s) (se_ServerNames s) (se_TrustedRootThumbprints s) (se_AuthMode s) (se_Server s)
    (se_Tunnel s) (se_Authentication s) (se_SplitTunneling s) (se_DNSSuffix s).
Definition set_CloudBlockLevel (x : string) (s : Setting) : Setting :=
  mkSetting (se_Kind s) (se_Hive s) (se_Key s) (se_Type s) (se_Name s) (se_Data s)
    (se_Startup s) (se_State s) (se_Group s) (se_Members s) (se_Mode s) (se_Path s)
    (se_ContentBase64 s) (se_Ensure s) (se_Profile s) (se_Direction s) (se_Action s) (se_Protocol s)
    (se_LocalPort s) (se_Program s) (se_QualityDeferralDays s) (se_FeatureDeferralDays s) (se_ActiveHoursStart s) (se_ActiveHoursEnd s)
    (se_AutoRestart s) (se_QualityDeadlineDays s) (se_FeatureDeadlineDays s) (se_DeadlineGraceDays s) (se_PauseQualityFrom s) (se_PauseFeatureFrom s)
    (se_TargetProduct s) (se_TargetVersion s) (se_RequireEncryption s) (se_Method s) (se_EscrowRecoveryKey s) (se_RealtimeMonitoring s)
    (se_CloudProtection s) (se_SampleSubmission s) (se_PUAProtection s) x (se_Store s) (se_CertificatePEM s)
    (se_SSID s) (se_Security s) (se_Passphrase s) (se_SealedSecret s) (se_SecretSet s) (se_AutoConnect s)
    (se_Hidden s) (se_EAPMethod s) (se_ServerNames s) (se_TrustedRootThumbprints s) (se_AuthMode s) (se_Server s)
    (se_Tunnel s) (se_Authentication s) (se_SplitTunneling s) (se_DNSSuffix s).
Definition set_Store (x : string) (s : Setting) : Setting :=
  mkSetting (se_Kind s) (se_Hive s) (se_Key s) (se_Type s) (se_Name s) (se_Data s)
    (se_Startup s) (se_State s) (se_Group s) (se_Members s) (se_Mode s) (se_Path s)
    (se_ContentBase64 s) (se_Ensure s) (se_Profile s) (se_Direction s) (se_Action s) (se_Protocol s)
    (se_LocalPort s) (se_Program s) (se_QualityDeferralDays s) (se_FeatureDeferralDays s) (se_ActiveHoursStart s) (se_ActiveHoursEnd s)
    (se_AutoRestart s) (se_QualityDeadlineDays s) (se_FeatureDeadlineDays s) (se_DeadlineGraceDays s) (se_PauseQualityFrom s) (se_PauseFeatureFrom s)
    (se_TargetProduct s) (se_TargetVersion s) (se_RequireEncryption s) (se_Method s) (se_EscrowRecoveryKey s) (se_RealtimeMonitoring s)
    (se_CloudProtection s) (se_SampleSubmission s) (se_PUAProtection s) (se_CloudBlockLevel s) x (se_CertificatePEM s)
    (se_SSID s) (se_Security s) (se_Passphrase s) (se_SealedSecret s) (se_SecretSet s) (se_AutoConnect s)
    (se_Hidden s) (se_EAPMethod s) (se_ServerNames s) (se_TrustedRootThumbprints s) (se_AuthMode s) (se_Server s)
    (se_Tunnel s) (se_Authentication s) (se_SplitTunneling s) (se_DNSSuffix s).
Definition set_CertificatePEM (x : string) (s : Setting) : Setting :=
  mkSetting (se_Kind s) (se_Hive s) (se_Key s) (se_Type s) (se_Name s) (se_Data s)
    (se_Startup s) (se_State s) (se_Group s) (se_Members s) (se_Mode s) (se_Path s)
    (se_ContentBase64 s) (se_Ensure s) (se_Profile s) (se_Direction s) (se_Action s) (se_Protocol s)
    (se_LocalPort s) (se_Program s) (se_QualityDeferralDays s) (se_FeatureDeferralDays s) (se_ActiveHoursStart s) (se_ActiveHoursEnd s)
    (se_AutoRestart s) (se_QualityDeadlineDays s) (se_FeatureDeadlineDays s) (se_DeadlineGraceDays s) (se_PauseQualityFrom s) (se_PauseFeatureFrom s)
    (se_TargetProduct s) (se_TargetVersion s) (se_RequireEncryption s) (se_Method s) (se_EscrowRecoveryKey s) (se_RealtimeMonitoring s)
    (se_CloudProtection s) (se_SampleSubmission s) (se_PUAProtection s) (se_CloudBlockLevel s) (se_Store s) x
    (se_SSID s) (se_Security s) (se_Passphrase s) (se_SealedSecret s) (se_SecretSet s) (se_AutoConnect s)
    (se_Hidden s) (se_EAPMethod s) (se_ServerNames s) (se_TrustedRootThumbprints s) (se_AuthMode s) (se_Server s)
    (se_Tunnel s) (se_Authentication s) (se_SplitTunneling s) (se_DNSSuffix s).
Definition set_SSID (x : string) (s : Setting) : Setting :=
  mkSetting (se_Kind s) (se_Hive s) (se_Key s) (se_Type s) (se_Name s) (se_Data s)
    (se_Startup s) (se_State s) (se_Group s) (se_Members s) (se_Mode s) (se_Path s)
    (se_ContentBase64 s) (se_Ensure s) (se_Profile s) (se_Direction s) (se_Action s) (se_Protocol s)
    (se_LocalPort s) (se_Program s) (se_QualityDeferralDays s) (se_FeatureDeferralDays s) (se_ActiveHoursStart s) (se_ActiveHoursEnd s)
    (se_AutoRestart s) (se_QualityDeadlineDays s) (se_FeatureDeadlineDays s) (se_DeadlineGraceDays s) (se_PauseQualityFrom s) (se_PauseFeatureFrom s)
    (se_TargetProduct s) (se_TargetVersion s) (se_RequireEncryption s) (se_Method s) (se_EscrowRecoveryKey s) (se_RealtimeMonitoring s)
    (se_CloudProtection s) (se_SampleSubmission s) (se_PUAProtection s) (se_CloudBlockLevel s) (se_Store s) (se_CertificatePEM s)
    x (se_Security s) (se_Passphrase s) (se_SealedSecret s) (se_SecretSet s) (se_AutoConnect s)
    (se_Hidden s) (se_EAPMethod s) (se_ServerNames s) (se_TrustedRootThumbprints s) (se_AuthMode s) (se_Server s)
    (se_Tunnel s) (se_Authentication s) (se_SplitTunneling s) (se_DNSSuffix s).
Definition set_Security (x : string) (s : Setting) : Setting :=
  mkSetting (se_Kind s) (se_Hive s) (se_Key s) (se_Type s) (se_Name s) (se_Data s)
    (se_Startup s) (se_State s) (se_Group s) (se_Members s) (se_Mode s) (se_Path s)
    (se_ContentBase64 s) (se_Ensure s) (se_Profile s) (se_Direction s) (se_Action s) (se_Protocol s)
    (se_LocalPort s) (se_Program s) (se_QualityDeferralDays s) (se_FeatureDeferralDays s) (se_ActiveHoursStart s) (se_ActiveHoursEnd s)
    (se_AutoRestart s) (se_QualityDeadlineDays s) (se_FeatureDeadlineDays s) (se_DeadlineGraceDays s) (se_PauseQualityFrom s) (se_PauseFeatureFrom s)
    (se_TargetProduct s) (se_TargetVersion s) (se_RequireEncryption s) (se_Method s) (se_EscrowRecoveryKey s) (se_RealtimeMonitoring s)
    (se_CloudProtection s) (se_SampleSubmission s) (se_PUAProtection s) (se_CloudBlockLevel s) (se_Store s) (se_CertificatePEM s)
    (se_SSID s) x (se_Passphrase s) (se_SealedSecret s) (se_SecretSet s) (se_AutoConnect s)
    (se_Hidden s) (se_EAPMethod s) (se_ServerNames s) (se_TrustedRootThumbprints s) (se_AuthMode s) (se_Server s)
    (se_Tunnel s) (se_Authentication s) (se_SplitTunneling s) (se_DNSSuffix s).
Definition set_Passphrase (x : string) (s : Setting) : Setting :=
  mkSetting (se_Kind s) (se_Hive s) (se_Key s) (se_Type s) (se_Name s) (se_Data s)
    (se_Startup s) (se_State s) (se_Group s) (se_Members s) (se_Mode s) (se_Path s)
    (se_ContentBase64 s) (se_Ensure s) (se_Profile s) (se_Direction s) (se_Action s) (se_Protocol s)
    (se_LocalPort s) (se_Program s) (se_QualityDeferralDays s) (se_FeatureDeferralDays s) (se_ActiveHoursStart s) (se_ActiveHoursEnd s)
    (se_AutoRestart s) (se_QualityDeadlineDays s) (se_FeatureDeadlineDays s) (se_DeadlineGraceDays s) (se_PauseQualityFrom s) (se_PauseFeatureFrom s)
    (se_TargetProduct s) (se_TargetVersion s) (se_RequireEncryption s) (se_Method s) (se_EscrowRecoveryKey s) (se_RealtimeMonitoring s)
    (se_CloudProtection s) (se_SampleSubmission s) (se_PUAProtection s) (se_CloudBlockLevel s) (se_Store s) (se_CertificatePEM s)
    (se_SSID s) (se_Security s) x (se_SealedSecret s) (se_SecretSet s) (se_AutoConnect s)
    (se_Hidden s) (se_EAPMethod s) (se_ServerNames s) (se_TrustedRootThumbprints s) (se_AuthMode s) (se_Server s)
    (se_Tunnel s) (se_Authentication s) (se_SplitTunneling s) (se_DNSSuffix s).
Definition set_SealedSecret (x : option SealedSecret_) (s : Setting) : Setting :=
  mkSetting (se_Kind s) (se_Hive s) (se_Key s) (se_Type s) (se_Name s) (se_Data s)
    (se_Startup s) (se_State s) (se_Group s) (se_Members s) (se_Mode s) (se_Path s)
    (se_ContentBase64 s) (se_Ensure s) (se_Profile s) (se_Direction s) (se_Action s) (se_Protocol s)
    (se_LocalPort s) (se_Program s) (se_QualityDeferralDays s) (se_FeatureDeferralDays s) (se_ActiveHoursStart s) (se_ActiveHoursEnd s)
    (se_AutoRestart s) (se_QualityDeadlineDays s) (se_FeatureDeadlineDays s) (se_DeadlineGraceDays s) (se_PauseQualityFrom s) (se_PauseFeatureFrom s)
    (se_TargetProduct s) (se_TargetVersion s) (se_RequireEncryption s) (se_Method s) (se_EscrowRecoveryKey s) (se_RealtimeMonitoring s)
    (se_CloudProtection s) (se_SampleSubmission s) (se_PUAProtection s) (se_CloudBlockLevel s) (se_Store s) (se_CertificatePEM s)
    (se_SSID s) (se_Security s) (se_Passphrase s) x (se_SecretSet s) (se_AutoConnect s)
    (se_Hidden s) (se_EAPMethod s) (se_ServerNames s) (se_TrustedRootThumbprints s) (se_AuthMode s) (se_Server s)
    (se_Tunnel s) (se_Authentication s) (se_SplitTunneling s) (se_DNSSuffix s).
Definition set_SecretSet (x : bool) (s : Setting) : Setting :=
  mkSetting (se_Kind s) (se_Hive s) (se_Key s) (se_Type s) (se_Name s) (se_Data s)
    (se_Startup s) (se_State s) (se_Group s) (se_Members s) (se_Mode s) (se_Path s)
    (se_ContentBase64 s) (se_Ensure s) (se_Profile s) (se_Direction s) (se_Action s) (se_Protocol s)
    (se_LocalPort s) (se_Program s) (se_QualityDeferralDays s) (se_FeatureDeferralDays s) (se_ActiveHoursStart s) (se_ActiveHoursEnd s)
    (se_AutoRestart s) (se_QualityDeadlineDays s) (se_FeatureDeadlineDays s) (se_DeadlineGraceDays s) (se_PauseQualityFrom s) (se_PauseFeatureFrom s)
    (se_TargetProduct s) (se_TargetVersion s) (se_RequireEncryption s) (se_Method s) (se_EscrowRecoveryKey s) (se_RealtimeMonitoring s)
    (se_CloudProtection s) (se_SampleSubmission s) (se_PUAProtection s) (se_CloudBlockLevel s) (se_Store s) (se_CertificatePEM s)
    (se_SSID s) (se_Security s) (se_Passphrase s) (se_SealedSecret s) x (se_AutoConnect s)
    (se_Hidden s) (se_EAPMethod s) (se_ServerNames s) (se_TrustedRootThumbprints s) (se_AuthMode s) (se_Server s)
    (se_Tunnel s) (se_Authentication s) (se_SplitTunneling s) (se_DNSSuffix s).
Definition set_AutoConnect (x : option bool) (s : Setting) : Setting :=
  mkSetting (se_Kind s) (se_Hive s) (se_Key s) (se_Type s) (se_Name s) (se_Data s)
    (se_Startup s) (se_State s) (se_Group s) (se_Members s) (se_Mode s) (se_Path s)
    (se_ContentBase64 s) (se_Ensure s) (se_Profile s) (se_Direction s) (se_Action s) (se_Protocol s)
    (se_LocalPort s) (se_Program s) (se_QualityDeferralDays s) (se_FeatureDeferralDays s) (se_ActiveHoursStart s) (se_ActiveHoursEnd s)
    (se_AutoRestart s) (se_QualityDeadlineDays s) (se_FeatureDeadlineDays s) (se_DeadlineGraceDays s) (se_PauseQualityFrom s) (se_PauseFeatureFrom s)
    (se_TargetProduct s) (se_TargetVersion s) (se_RequireEncryption s) (se_Method s) (se_EscrowRecoveryKey s) (se_RealtimeMonitoring s)
    (se_CloudProtection s) (se_SampleSubmission s) (se_PUAProtection s) (se_CloudBlockLevel s) (se_Store s) (se_CertificatePEM s)
    (se_SSID s) (se_Security s) (se_Passphrase s) (se_SealedSecret s) (se_SecretSet s) x
    (se_Hidden s) (se_EAPMethod s) (se_ServerNames s) (se_TrustedRootThumbprints s) (se_AuthMode s) (se_Server s)
    (se_Tunnel s) (se_Authentication s) (se_SplitTunneling s) (se_DNSSuffix s).
Definition set_Hidden (x : bool) (s : Setting) : Setting :=
  mkSetting (se_Kind s) (se_Hive s) (se_Key s) (se_Type s) (se_Name s) (se_Data s)
    (se_Startup s) (se_State s) (se_Group s) (se_Members s) (se_Mode s) (se_Path s)
    (se_ContentBase64 s) (se_Ensure s) (se_Profile s) (se_Direction s) (se_Action s) (se_Protocol s)
    (se_LocalPort s) (se_Program s) (se_QualityDeferralDays s) (se_FeatureDeferralDays s) (se_ActiveHoursStart s) (se_ActiveHoursEnd s)
    (se_AutoRestart s) (se_QualityDeadlineDays s) (se_FeatureDeadlineDays s) (se_DeadlineGraceDays s) (se_PauseQualityFrom s) (se_PauseFeatureFrom s)
    (se_TargetProduct s) (se_TargetVersion s) (se_RequireEncryption s) (se_Method s) (se_EscrowRecoveryKey s) (se_RealtimeMonitoring s)
    (se_CloudProtection s) (se_SampleSubmission s) (se_PUAProtection s) (se_CloudBlockLevel s) (se_Store s) (se_CertificatePEM s)
    (se_SSID s) (se_Security s) (se_Passphrase s) (se_SealedSecret s) (se_SecretSet s) (se_AutoConnect s)
    x (se_EAPMethod s) (se_ServerNames s) (se_TrustedRootThumbprints s) (se_AuthMode s) (se_Server s)
    (se_Tunnel s) (se_Authentication s) (se_SplitTunneling s) (se_DNSSuffix s).
Definition set_EAPMethod (x : string) (s : Setting) : Setting :=
  mkSetting (se_Kind s) (se_Hive s) (se_Key s) (se_Type s) (se_Name s) (se_Data s)
    (se_Startup s) (se_State s) (se_Group s) (se_Members s) (se_Mode s) (se_Path s)
    (se_ContentBase64 s) (se_Ensure s) (se_Profile s) (se_Direction s) (se_Action s) (se_Protocol s)
    (se_LocalPort s) (se_Program s) (se_QualityDeferralDays s) (se_FeatureDeferralDays s) (se_ActiveHoursStart s) (se_ActiveHoursEnd s)
    (se_AutoRestart s) (se_QualityDeadlineDays s) (se_FeatureDeadlineDays s) (se_DeadlineGraceDays s) (se_PauseQualityFrom s) (se_PauseFeatureFrom s)
    (se_TargetProduct s) (se_TargetVersion s) (se_RequireEncryption s) (se_Method s) (se_EscrowRecoveryKey s) (se_RealtimeMonitoring s)
    (se_CloudProtection s) (se_SampleSubmission s) (se_PUAProtection s) (se_CloudBlockLevel s) (se_Store s) (se_CertificatePEM s)
    (se_SSID s) (se_Security s) (se_Passphrase s) (se_SealedSecret s) (se_SecretSet s) (se_AutoConnect s)
    (se_Hidden s) x (se_ServerNames s) (se_TrustedRootThumbprints s) (se_AuthMode s) (se_Server s)
    (se_Tunnel s) (se_Authentication s) (se_SplitTunneling s) (se_DNSSuffix s).
Definition set_ServerNames (x : list string) (s : Setting) : Setting :=
  mkSetting (se_Kind s) (se_Hive s) (se_Key s) (se_Type s) (se_Name s) (se_Data s)
    (se_Startup s) (se_State s) (se_Group s) (se_Members s) (se_Mode s) (se_Path s)
    (se_ContentBase64 s) (se_Ensure s) (se_Profile s) (se_Direction s) (se_Action s) (se_Protocol s)
    (se_LocalPort s) (se_Program s) (se_QualityDeferralDays s) (se_FeatureDeferralDays s) (se_ActiveHoursStart s) (se_ActiveHoursEnd s)
    (se_AutoRestart s) (se_QualityDeadlineDays s) (se_FeatureDeadlineDays s) (se_DeadlineGraceDays s) (se_PauseQualityFrom s) (se_PauseFeatureFrom s)
    (se_TargetProduct s) (se_TargetVersion s) (se_RequireEncryption s) (se_Method s) (se_EscrowRecoveryKey s) (se_RealtimeMonitoring s)
    (se_CloudProtection s) (se_SampleSubmission s) (se_PUAProtection s) (se_CloudBlockLevel s) (se_Store s) (se_CertificatePEM s)
    (se_SSID s) (se_Security s) (se_Passphrase s) (se_SealedSecret s) (se_SecretSet s) (se_AutoConnect s)
    (se_Hidden s) (se_EAPMethod s) x (se_TrustedRootThumbprints s) (se_AuthMode s) (se_Server s)
    (se_Tunnel s) (se_Authentication s) (se_SplitTunneling s) (se_DNSSuffix s).
Definition set_TrustedRootThumbprints (x : list string) (s : Setting) : Setting :=
  mkSetting (se_Kind s) (se_Hive s) (se_Key s) (se_Type s) (se_Name s) (se_Data s)
    (se_Startup s) (se_State s) (se_Group s) (se_Members s) (se_Mode s) (se_Path s)
    (se_ContentBase64 s) (se_Ensure s) (se_Profile s) (se_Direction s) (se_Action s) (se_Protocol s)
    (se_LocalPort s) (se_Program s) (se_QualityDeferralDays s) (se_FeatureDeferralDays s) (se_ActiveHoursStart s) (se_ActiveHoursEnd s)
    (se_AutoRestart s) (se_QualityDeadlineDays s) (se_FeatureDeadlineDays s) (se_DeadlineGraceDays s) (se_PauseQualityFrom s) (se_PauseFeatureFrom s)
    (se_TargetProduct s) (se_TargetVersion s) (se_RequireEncryption s) (se_Method s) (se_EscrowRecoveryKey s) (se_RealtimeMonitoring s)
    (se_CloudProtection s) (se_SampleSubmission s) (se_PUAProtection s) (se_CloudBlockLevel s) (se_Store s) (se_CertificatePEM s)
    (se_SSID s) (se_Security s) (se_Passphrase s) (se_SealedSecret s) (se_SecretSet s) (se_AutoConnect s)
    (se_Hidden s) (se_EAPMethod s) (se_ServerNames s) x (se_AuthMode s) (se_Server s)
    (se_Tunnel s) (se_Authentication s) (se_SplitTunneling s) (se_DNSSuffix s).
Definition set_AuthMode (x : string) (s : Setting) : Setting :=
  mkSetting (se_Kind s) (se_Hive s) (se_Key s) (se_Type s) (se_Name s) (se_Data s)
    (se_Startup s) (se_State s) (se_Group s) (se_Members s) (se_Mode s) (se_Path s)
    (se_ContentBase64 s) (se_Ensure s) (se_Profile s) (se_Direction s) (se_Action s) (se_Protocol s)
    (se_LocalPort s) (se_Program s) (se_QualityDeferralDays s) (se_FeatureDeferralDays s) (se_ActiveHoursStart s) (se_ActiveHoursEnd s)
    (se_AutoRestart s) (se_QualityDeadlineDays s) (se_FeatureDeadlineDays s) (se_DeadlineGraceDays s) (se_PauseQualityFrom s) (se_PauseFeatureFrom s)
    (se_TargetProduct s) (se_TargetVersion s) (se_RequireEncryption s) (se_Method s) (se_EscrowRecoveryKey s) (se_RealtimeMonitoring s)
    (se_CloudProtection s) (se_SampleSubmission s) (se_PUAProtection s) (se_CloudBlockLevel s) (se_Store s) (se_CertificatePEM s)
    (se_SSID s) (se_Security s) (se_Passphrase s) (se_SealedSecret s) (se_SecretSet s) (se_AutoConnect s)
    (se_Hidden s) (se_EAPMethod s) (se_ServerNames s) (se_TrustedRootThumbprints s) x (se_Server s)
    (se_Tunnel s) (se_Authentication s) (se_SplitTunneling s) (se_DNSSuffix s).
Definition set_Server (x : string) (s : Setting) : Setting :=
  mkSetting (se_Kind s) (se_Hive s) (se_Key s) (se_Type s) (se_Name s) (se_Data s)
    (se_Startup s) (se_State s) (se_Group s) (se_Members s) (se_Mode s) (se_Path s)
    (se_ContentBase64 s) (se_Ensure s) (se_Profile s) (se_Direction s) (se_Action s) (se_Protocol s)
    (se_LocalPort s) (se_Program s) (se_QualityDeferralDays s) (se_FeatureDeferralDays s) (se_ActiveHoursStart s) (se_ActiveHoursEnd s)
    (se_AutoRestart s) (se_QualityDeadlineDays s) (se_FeatureDeadlineDays s) (se_DeadlineGraceDays s) (se_PauseQualityFrom s) (se_PauseFeatureFrom s)
    (se_TargetProduct s) (se_TargetVersion s) (se_RequireEncryption s) (se_Method s) (se_EscrowRecoveryKey s) (se_RealtimeMonitoring s)
    (se_CloudProtection s) (se_SampleSubmission s) (se_PUAProtection s) (se_CloudBlockLevel s) (se_Store s) (se_CertificatePEM s)
    (se_SSID s) (se_Security s) (se_Passphrase s) (se_SealedSecret s) (se_SecretSet s) (se_AutoConnect s)
    (se_Hidden s) (se_EAPMethod s) (se_ServerNames s) (se_TrustedRootThumbprints s) (se_AuthMode s) x
    (se_Tunnel s) (se_Authentication s) (se_SplitTunneling s) (se_DNSSuffix s).
Definition set_Tunnel (x : string) (s : Setting) : Setting :=
  mkSetting (se_Kind s) (se_Hive s) (se_Key s) (se_Type s) (se_Name s) (se_Data s)
    (se_Startup s) (se_State s) (se_Group s) (se_Members s) (se_Mode s) (se_Path s)
    (se_ContentBase64 s) (se_Ensure s) (se_Profile s) (se_Direction s) (se_Action s) (se_Protocol s)
    (se_LocalPort s) (se_Program s) (se_QualityDeferralDays s) (se_FeatureDeferralDays s) (se_ActiveHoursStart s) (se_ActiveHoursEnd s)
    (se_AutoRestart s) (se_QualityDeadlineDays s) (se_FeatureDeadlineDays s) (se_DeadlineGraceDays s) (se_PauseQualityFrom s) (se_PauseFeatureFrom s)
    (se_TargetProduct s) (se_TargetVersion s) (se_RequireEncryption s) (se_Method s) (se_EscrowRecoveryKey s) (se_RealtimeMonitoring s)
    (se_CloudProtection s) (se_SampleSubmission s) (se_PUAProtection s) (se_CloudBlockLevel s) (se_Store s) (se_CertificatePEM s)
    (se_SSID s) (se_Security s) (se_Passphrase s) (se_SealedSecret s) (se_SecretSet s) (se_AutoConnect s)
    (se_Hidden s) (se_EAPMethod s) (se_ServerNames s) (se_TrustedRootThumbprints s) (se_AuthMode s) (se_Server s)
    x (se_Authentication s) (se_SplitTunneling s) (se_DNSSuffix s).
Definition set_Authentication (x : string) (s : Setting) : Setting :=
  mkSetting (se_Kind s) (se_Hive s) (se_Key s) (se_Type s) (se_Name s) (se_Data s)
    (se_Startup s) (se_State s) (se_Group s) (se_Members s) (se_Mode s) (se_Path s)
    (se_ContentBase64 s) (se_Ensure s) (se_Profile s) (se_Direction s) (se_Action s) (se_Protocol s)
    (se_LocalPort s) (se_Program s) (se_QualityDeferralDays s) (se_FeatureDeferralDays s) (se_ActiveHoursStart s) (se_ActiveHoursEnd s)
    (se_AutoRestart s) (se_QualityDeadlineDays s) (se_FeatureDeadlineDays s) (se_DeadlineGraceDays s) (se_PauseQualityFrom s) (se_PauseFeatureFrom s)
    (se_TargetProduct s) (se_TargetVersion s) (se_RequireEncryption s) (se_Method s) (se_EscrowRecoveryKey s) (se_RealtimeMonitoring s)
    (se_CloudProtection s) (se_SampleSubmission s) (se_PUAProtection s) (se_CloudBlockLevel s) (se_Store s) (se_CertificatePEM s)
    (se_SSID s) (se_Security s) (se_Passphrase s) (se_SealedSecret s) (se_SecretSet s) (se_AutoConnect s)
    (se_Hidden s) (se_EAPMethod s) (se_ServerNames s) (se_TrustedRootThumbprints s) (se_AuthMode s) (se_Server s)
    (se_Tunnel s) x (se_SplitTunneling s) (se_DNSSuffix s).
Definition set_SplitTunneling (x : bool) (s : Setting) : Setting :=
  mkSetting (se_Kind s) (se_Hive s) (se_Key s) (se_Type s) (se_Name s) (se_Data s)
    (se_Startup s) (se_State s) (se_Group s) (se_Members s) (se_Mode s) (se_Path s)
    (se_ContentBase64 s) (se_Ensure s) (se_Profile s) (se_Direction s) (se_Action s) (se_Protocol s)
    (se_LocalPort s) (se_Program s) (se_QualityDeferralDays s) (se_FeatureDeferralDays s) (se_ActiveHoursStart s) (se_ActiveHoursEnd s)
    (se_AutoRestart s) (se_QualityDeadlineDays s) (se_FeatureDeadlineDays s) (se_DeadlineGraceDays s) (se_PauseQualityFrom s) (se_PauseFeatureFrom s)
    (se_TargetProduct s) (se_TargetVersion s) (se_RequireEncryption s) (se_Method s) (se_EscrowRecoveryKey s) (se_RealtimeMonitoring s)
    (se_CloudProtection s) (se_SampleSubmission s) (se_PUAProtection s) (se_CloudBlockLevel s) (se_Store s) (se_CertificatePEM s)
    (se_SSID s) (se_Security s) (se_Passphrase s) (se_SealedSecret s) (se_SecretSet s) (se_AutoConnect s)
    (se_Hidden s) (se_EAPMethod s) (se_ServerNames s) (se_TrustedRootThumbprints s) (se_AuthMode s) (se_Server s)
    (se_Tunnel s) (se_Authentication s) x (se_DNSSuffix s).
Definition set_DNSSuffix (x : string) (s : Setting) : Setting :=
  mkSetting (se_Kind s) (se_Hive s) (se_Key s) (se_Type s) (se_Name s) (se_Data s)
    (se_Startup s) (se_State s) (se_Group s) (se_Members s) (se_Mode s) (se_Path s)
    (se_ContentBase64 s) (se_Ensure s) (se_Profile s) (se_Direction s) (se_Action s) (se_Protocol s)
    (se_LocalPort s) (se_Program s) (se_QualityDeferralDays s) (se_FeatureDeferralDays s) (se_ActiveHoursStart s) (se_ActiveHoursEnd s)
    (se_AutoRestart s) (se_QualityDeadlineDays s) (se_FeatureDeadlineDays s) (se_DeadlineGraceDays s) (se_PauseQualityFrom s) (se_PauseFeatureFrom s)
    (se_TargetProduct s) (se_TargetVersion s) (se_RequireEncryption s) (se_Method s) (se_EscrowRecoveryKey s) (se_RealtimeMonitoring s)
    (se_CloudProtection s) (se_SampleSubmission s) (se_PUAProtection s) (se_CloudBlockLevel s) (se_Store s) (se_CertificatePEM s)
    (se_SSID s) (se_Security s) (se_Passphrase s) (se_SealedSecret s) (se_SecretSet s) (se_AutoConnect s)
    (se_Hidden s) (se_EAPMethod s) (se_ServerNames s) (se_TrustedRootThumbprints s) (se_AuthMode s) (se_Server s)
    (se_Tunnel s) (se_Authentication s) (se_SplitTunneling s) x.

(** ** JSON *)

(** What [omitempty] leaves out. *)
Definition omit_str (k s : string) : list (string * json) := if String.eqb s EmptyString then [] else [(k, JStr s)].
Definition omit_strs (k : string) (l : list string) : list (string * json) :=
  match l with [] => [] | _ => [(k, JArr (map JStr l))] end.
Definition omit_pint (k : string) (o : option Z) : list (string * json) :=
  match o with Some n => [(k, jint n)] | None => [] end.
Definition omit_pbool (k : string) (o : option bool) : list (string * json) :=
  match o with Some b => [(k, JBool b)] | None => [] end.
Definition omit_bool (k : string) (b : bool) : list (string * json) := if b then [(k, JBool true)] else [].

Definition sealed_json (x : SealedSecret_) : json :=
  JObj [("ciphertext", JStr (ss_Ciphertext x)); ("nonce", JStr (ss_Nonce x)); ("mac", JStr (ss_MAC x))]%string.
Definition omit_sealed (k : string) (o : option SealedSecret_) : list (string * json) :=
  match o with Some x => [(k, sealed_json x)] | None => [] end.

(** Fields that are pointers: [null] makes them nil. *)
Definition pint_field {S} (name : string) (set : option Z -> S -> S) : field S :=
  (name, fun v s => match v with
    | JNull => Ok (set None s)
    | JNum lit => match Atoi lit with Some n => Ok (set (Some n) s) | None => Err TypeMismatch end
    | _ => Err TypeMismatch
    end).
Definition pbool_field {S} (name : string) (set : option bool -> S -> S) : field S :=
  (name, fun v s => match v with
    | JNull => Ok (set None s)
    | JBool b => Ok (set (Some b) s)
    | _ => Err TypeMismatch
    end).

Definition sealed_fields : list (field SealedSecret_) := [
  string_field "ciphertext" (fun v x => mkSealedSecret v (ss_Nonce x) (ss_MAC x));
  string_field "nonce" (fun v x => mkSealedSecret (ss_Ciphertext x) v (ss_MAC x));
  string_field "mac" (fun v x => mkSealedSecret (ss_Ciphertext x) (ss_Nonce x) v)].

Definition sealed_field (name : string) (set : option SealedSecret_ -> Setting -> Setting) : field Setting :=
  (name, fun v s => match v with
    | JNull => Ok (set None s)
    | _ => match decode_struct false sealed_fields v (default (mkSealedSecret EmptyString EmptyString EmptyString) (se_SealedSecret s)) with
           | Ok x => Ok (set (Some x) s)
           | Err e => Err e
           end
    end).

Definition setting_fields : list (field Setting) := [
  string_field "kind" set_Kind;
  string_field "hive" set_Hive;
  string_field "key" set_Key;
  string_field "type" set_Type;
  string_field "name" set_Name;
  string_field "data" set_Data;
  string_field "startup" set_Startup;
  string_field "state" set_State;
  string_field "group" set_Group;
  strings_field "members" set_Members;
  string_field "mode" set_Mode;
  string_field "path" set_Path;
  string_field "content_base64" set_ContentBase64;
  string_field "ensure" set_Ensure;
  string_field "profile" set_Profile;
  string_field "direction" set_Direction;
  string_field "action" set_Action;
  string_field "protocol" set_Protocol;
  string_field "local_port" set_LocalPort;
  string_field "program" set_Program;
  pint_field "quality_deferral_days" set_QualityDeferralDays;
  pint_field "feature_deferral_days" set_FeatureDeferralDays;
  pint_field "active_hours_start" set_ActiveHoursStart;
  pint_field "active_hours_end" set_ActiveHoursEnd;
  pbool_field "auto_restart" set_AutoRestart;
  pint_field "quality_deadline_days" set_QualityDeadlineDays;
  pint_field "feature_deadline_days" set_FeatureDeadlineDays;
  pint_field "deadline_grace_days" set_DeadlineGraceDays;
  string_field "pause_quality_from" set_PauseQualityFrom;
  string_field "pause_feature_from" set_PauseFeatureFrom;
  string_field "target_product" set_TargetProduct;
  string_field "target_version" set_TargetVersion;
  bool_field "require_encryption" set_RequireEncryption;
  string_field "method" set_Method;
  bool_field "escrow_recovery_key" set_EscrowRecoveryKey;
  pbool_field "realtime_monitoring" set_RealtimeMonitoring;
  string_field "cloud_protection" set_CloudProtection;
  string_field "sample_submission" set_SampleSubmission;
  string_field "pua_protection" set_PUAProtection;
  string_field "cloud_block_level" set_CloudBlockLevel;
  string_field "store" set_Store;
  string_field "certificate_pem" set_CertificatePEM;
  string_field "ssid" set_SSID;
  string_field "security" set_Security;
  string_field "passphrase" set_Passphrase;
  sealed_field "sealed_secret" set_SealedSecret;
  bool_field "secret_set" set_SecretSet;
  pbool_field "auto_connect" set_AutoConnect;
  bool_field "hidden" set_Hidden;
  string_field "eap_method" set_EAPMethod;
  strings_field "server_names" set_ServerNames;
  strings_field "trusted_root_thumbprints" set_TrustedRootThumbprints;
  string_field "auth_mode" set_AuthMode;
  string_field "server" set_Server;
  string_field "tunnel" set_Tunnel;
  string_field "authentication" set_Authentication;
  bool_field "split_tunneling" set_SplitTunneling;
  string_field "dns_suffix" set_DNSSuffix].

(** [json.Marshal] of a setting. *)
Definition setting_members (s : Setting) : list (string * json) :=
  ("kind"%string, JStr (se_Kind s)) ::
  omit_str "hive" (se_Hive s) ++
  omit_str "key" (se_Key s) ++
  omit_str "type" (se_Type s) ++
  omit_str "name" (se_Name s) ++
  omit_str "data" (se_Data s) ++
  omit_str "startup" (se_Startup s) ++
  omit_str "state" (se_State s) ++
  omit_str "group" (se_Group s) ++
  omit_strs "members" (se_Members s) ++
  omit_str "mode" (se_Mode s) ++
  omit_str "path" (se_Path s) ++
  omit_str "content_base64" (se_ContentBase64 s) ++
  omit_str "ensure" (se_Ensure s) ++
  omit_str "profile" (se_Profile s) ++
  omit_str "direction" (se_Direction s) ++
  omit_str "action" (se_Action s) ++
  omit_str "protocol" (se_Protocol s) ++
  omit_str "local_port" (se_LocalPort s) ++
  omit_str "program" (se_Program s) ++
  omit_pint "quality_deferral_days" (se_QualityDeferralDays s) ++
  omit_pint "feature_deferral_days" (se_FeatureDeferralDays s) ++
  omit_pint "active_hours_start" (se_ActiveHoursStart s) ++
  omit_pint "active_hours_end" (se_ActiveHoursEnd s) ++
  omit_pbool "auto_restart" (se_AutoRestart s) ++
  omit_pint "quality_deadline_days" (se_QualityDeadlineDays s) ++
  omit_pint "feature_deadline_days" (se_FeatureDeadlineDays s) ++
  omit_pint "deadline_grace_days" (se_DeadlineGraceDays s) ++
  omit_str "pause_quality_from" (se_PauseQualityFrom s) ++
  omit_str "pause_feature_from" (se_PauseFeatureFrom s) ++
  omit_str "target_product" (se_TargetProduct s) ++
  omit_str "target_version" (se_TargetVersion s) ++
  omit_bool "require_encryption" (se_RequireEncryption s) ++
  omit_str "method" (se_Method s) ++
  omit_bool "escrow_recovery_key" (se_EscrowRecoveryKey s) ++
  omit_pbool "realtime_monitoring" (se_RealtimeMonitoring s) ++
  omit_str "cloud_protection" (se_CloudProtection s) ++
  omit_str "sample_submission" (se_SampleSubmission s) ++
  omit_str "pua_protection" (se_PUAProtection s) ++
  omit_str "cloud_block_level" (se_CloudBlockLevel s) ++
  omit_str "store" (se_Store s) ++
  omit_str "certificate_pem" (se_CertificatePEM s) ++
  omit_str "ssid" (se_SSID s) ++
  omit_str "security" (se_Security s) ++
  omit_str "passphrase" (se_Passphrase s) ++
  omit_sealed "sealed_secret" (se_SealedSecret s) ++
  omit_bool "secret_set" (se_SecretSet s) ++
  omit_pbool "auto_connect" (se_AutoConnect s) ++
  omit_bool "hidden" (se_Hidden s) ++
  omit_str "eap_method" (se_EAPMethod s) ++
  omit_strs "server_names" (se_ServerNames s) ++
  omit_strs "trusted_root_thumbprints" (se_TrustedRootThumbprints s) ++
  omit_str "auth_mode" (se_AuthMode s) ++
  omit_str "server" (se_Server s) ++
  omit_str "tunnel" (se_Tunnel s) ++
  omit_str "authentication" (se_Authentication s) ++
  omit_bool "split_tunneling" (se_SplitTunneling s) ++
  omit_str "dns_suffix" (se_DNSSuffix s).

Definition setting_json (s : Setting) : json := JObj (setting_members s).

(** [json.Unmarshal] into a new setting. *)
Definition decode_setting (v : json) : result json_error Setting := decode_struct false setting_fields v zero_setting.

(** ** Kinds and words *)

Definition ItemKindProfile : string := "profile".
Definition KindRegistry : string := "registry".
Definition KindService : string := "service".
Definition KindGroup : string := "local_group_members".
Definition KindFile : string := "file".
Definition KindFirewallProfile : string := "firewall_profile".
Definition KindFirewallRule : string := "firewall_rule".
Definition KindWindowsUpdate : string := "windows_update".
Definition KindBitLocker : string := "bitlocker".
Definition KindDefender : string := "defender".
Definition KindCertificate : string := "certificate".
Definition KindWiFi : string := "wifi".
Definition KindVPN : string := "vpn".

Definition EnsurePresent : string := "present".
Definition EnsureAbsent : string := "absent".
Definition MaxFileBytes : Z := 1048576.
Definition MaxCertificatePEMBytes : Z := 16384.
Definition passphraseMinimum : Z := 8.
Definition passphraseMaximum : Z := 63.
Definition maxOneXEntries : Z := 8.

Record DefenderPreference := mkPreference { dp_Field : string; dp_Parameter : string; dp_Values : list (string * Z) }.

Definition DefenderPreferences : list DefenderPreference := [
  mkPreference "cloud_protection" "MAPSReporting" [("off", 0); ("basic", 1); ("advanced", 2)];
  mkPreference "sample_submission" "SubmitSamplesConsent" [("prompt", 0); ("safe", 1); ("never", 2); ("all", 3)];
  mkPreference "pua_protection" "PUAProtection" [("off", 0); ("on", 1); ("audit", 2)];
  mkPreference "cloud_block_level" "CloudBlockLevel" [("default", 0); ("moderate", 1); ("high", 2); ("high_plus", 4); ("zero_tolerance", 6)]]%string.

Definition DefenderValue (s : Setting) (field : string) : string :=
  if String.eqb field "cloud_protection" then se_CloudProtection s
  else if String.eqb field "sample_submission" then se_SampleSubmission s
  else if String.eqb field "pua_protection" then se_PUAProtection s
  else if String.eqb field "cloud_block_level" then se_CloudBlockLevel s
  else EmptyString.

Definition CertificateStores : list (string * string) :=
  [("root", "Root"); ("ca", "CA"); ("trusted_publisher", "TrustedPublisher")]%string.

(** ** Spellings *)

Definition NormalizePath (p : string) : string := Clean (ReplaceByte "\" "/" (TrimSpace p)).
Definition normalizeKey (k : string) : string := TrimChar "\" (ReplaceByte "/" "\" (TrimSpace k)).

Definition MultiSZ (s : Setting) : list string :=
  List.filter (fun line => negb (String.eqb line EmptyString))
    (Split LF (ReplaceAll (se_Data s) (String "013" newline) newline)).

(** The replacer of [NormalizeThumbprint]: spaces, colons, dashes and U+200E go. *)
Definition noise : list string := [" "; ":"; "-"; bytes [226; 128; 142]]%string.
Fixpoint drop_noise_fuel (fuel : nat) (s : string) : string :=
  match fuel with
  | O => EmptyString
  | S f => match first_cut noise s, s with
           | Some r, _ => drop_noise_fuel f r
           | None, String c r => String c (drop_noise_fuel f r)
           | None, EmptyString => EmptyString
           end
  end.
Definition NormalizeThumbprint (s : string) : string :=
  ToLower (let t := TrimSpace s in drop_noise_fuel (String.length t) t).

(** *** Patterns *)

Definition is_alnum (c : ascii) : bool := is_digit c || is_lower c || is_upper c.
Definition is_hex_lower (c : ascii) : bool := is_digit c || in_range "a" "f" c.
Definition last_char (s : string) : option ascii := match srev s with String c _ => Some c | EmptyString => None end.

(** A host name's label: 1 to 63 letters, digits and dashes, no dash at either end. *)
Definition host_label (l : string) : bool :=
  (1 <=? slen l) && (slen l <=? 63) && sall (fun c => is_alnum c || Ascii.eqb c "-") l
  && match l, last_char l with String c _, Some d => is_alnum c && is_alnum d | _, _ => false end.
Definition hostnamePattern (s : string) : bool := forallb host_label (Split "." s).
Definition serverNamePattern (s : string) : bool :=
  hostnamePattern (match CutPrefix "*." s with Some r => r | None => s end).
Definition thumbprintPattern (s : string) : bool := (slen s =? 40) && sall is_hex_lower s.
Definition vpnNamePattern (s : string) : bool :=
  (1 <=? slen s) && (slen s <=? 64)
  && sall (fun c => is_alnum c || Ascii.eqb c " " || Ascii.eqb c "." || Ascii.eqb c "_" || Ascii.eqb c "-") s.
Definition releasePattern (s : string) : bool :=
  match s with
  | String a (String b (String h (String n EmptyString))) =>
      is_digit a && is_digit b && Ascii.eqb h "H" && (Ascii.eqb n "1" || Ascii.eqb n "2")
  | _ => false
  end.

(** [time.Parse(time.DateOnly, s)]: does it read? *)
Definition is_leap (y : Z) : bool := (y mod 4 =? 0) && (negb (y mod 100 =? 0) || (y mod 400 =? 0)).
Definition daysIn (y m : Z) : Z :=
  if m =? 2 then (if is_leap y then 29 else 28)
  else if (m =? 4) || (m =? 6) || (m =? 9) || (m =? 11) then 30 else 31.
Definition ParsesAsDate (s : string) : bool :=
  match s with
  | String a (String b (String c (String d (String h1 (String e (String f (String h2 (String g (String i EmptyString))))))))) =>
      if sall is_digit (String a (String b (String c (String d (String e (String f (String g (String i EmptyString))))))))
         && Ascii.eqb h1 "-" && Ascii.eqb h2 "-" then
        let two x y := digit_value x * 10 + digit_value y in
        let y := two a b * 100 + two c d in
        let m := two e f in
        (1 <=? m) && (m <=? 12) && (1 <=? two g i) && (two g i <=? daysIn y m)
      else false
  | _ => false
  end.

(** [strconv.ParseUint(s, 10, 64)]: does it read? *)
Definition ParsesAsUint (s : string) : bool :=
  match s with
  | EmptyString => false
  | _ => match digits_value 0 s with Some v => v <? 2 ^ 64 | None => false end
  end.

(** [base64.StdEncoding.DecodeString]: the number of bytes it gives. Line
    ends are skipped; padding ends the text. *)
Definition is_base64 (c : ascii) : bool := is_alnum c || Ascii.eqb c "+" || Ascii.eqb c "/".
Fixpoint base64_length (s : string) : option Z :=
  match s with
  | EmptyString => Some 0
  | String a (String b (String c (String d r))) =>
      if is_base64 a && is_base64 b then
        if is_base64 c then
          if is_base64 d then match base64_length r with Some n => Some (3 + n) | None => None end
          else if Ascii.eqb d "=" && String.eqb r EmptyString then Some 2 else None
        else if Ascii.eqb c "=" && Ascii.eqb d "=" && String.eqb r EmptyString then Some 1 else None
      else None
  | _ => None
  end.
Fixpoint drop_line_ends (s : string) : string :=
  match s with
  | EmptyString => EmptyString
  | String c r => if Ascii.eqb c LF || Ascii.eqb c "013" then drop_line_ends r else String c (drop_line_ends r)
  end.
(** The length of what [Content] decodes. *)
Definition content_length (s : Setting) : option Z := base64_length (drop_line_ends (se_ContentBase64 s)).

Definition isPrintableASCII (s : string) : bool := sall (fun c => (32 <=? code c) && (code c <=? 126)) s.

Definition ContainsAny (s chars : string) : bool := sany (fun c => sany (Ascii.eqb c) chars) s.

(** [net.ParseIP]: does it read? Dotted quads without leading zeros, and IPv6
    with at most one [::] and perhaps a dotted quad at the end; no zone. *)
Definition ipv4_field (f : string) : bool :=
  match f with
  | EmptyString => false
  | String c r => sall is_digit f && (slen f <=? 3)
      && (String.eqb r EmptyString || negb (Ascii.eqb c "0"))
      && match digits_value 0 f with Some v => v <=? 255 | None => false end
  end.
Definition is_ipv4 (s : string) : bool :=
  match Split "." s with [a; b; c; d] => forallb ipv4_field [a; b; c; d] | _ => false end.
Definition ipv6_group (f : string) : bool :=
  (1 <=? slen f) && (slen f <=? 4) && sall (fun c => is_hex_lower (lower_ascii c)) f.
(** The sixteen-bit groups a list of fields stands for; a dotted quad, two of
    them, may only come last. *)
Fixpoint ipv6_groups (fields : list string) : option Z :=
  match fields with
  | [] => Some 0
  | [f] => if ipv6_group f then Some 1 else if is_ipv4 f then Some 2 else None
  | f :: r => if ipv6_group f then match ipv6_groups r with Some n => Some (1 + n) | None => None end else None
  end.
Definition colon_fields (s : string) : list string := if String.eqb s EmptyString then [] else Split ":" s.
(** What comes before the first [::], and after. *)
Fixpoint cut_ellipsis (s : string) : option (string * string) :=
  match CutPrefix "::" s with
  | Some r => Some (EmptyString, r)
  | None => match s with
            | EmptyString => None
            | String c r => match cut_ellipsis r with Some (a, b) => Some (String c a, b) | None => None end
            end
  end.
Definition is_ipv6 (s : string) : bool :=
  match cut_ellipsis s with
  | Some (a, b) =>
      forallb ipv6_group (colon_fields a)
      && match ipv6_groups (colon_fields a ++ colon_fields b) with Some n => n <=? 7 | None => false end
  | None => match ipv6_groups (colon_fields s) with Some n => n =? 8 | None => false end
  end.
Definition ParsesAsIP (s : string) : bool := is_ipv4 s || is_ipv6 s.

Example ip_examples :
  map ParsesAsIP ["10.0.0.1"; "10.0.0.01"; "fe80::1"; "::"; "::ffff:1.2.3.4"; "1:2:3:4:5:6:7:8"; "1:2:3:4:5:6:7"; "1::2::3"; ":1::"]%string
  = [true; false; true; true; true; true; false; false; false].
Proof. vm_compute. done. Qed.

(** ** Certificates *)

(** [encoding/pem] and [crypto/x509], and the SHA-1 of bytes in upper-case hex:
    a block is its type, its bytes and the text after it. *)
Class Certificates := {
  pem_Decode : string -> option (string * string * string);
  x509_parses : string -> bool;
  sha1_hex : string -> string }.

(** A decoded block takes some of the text. *)
Class CertificatesLaws `{Certificates} : Prop :=
  pem_shorter s t b rest : pem_Decode s = Some (t, b, rest) -> (String.length rest < String.length s)%nat.

Inductive pem_error := PemTooLong | PemPrivateKey | PemNotPEM | PemWrongBlock (type : string) | PemMoreThanOne
  | PemEmpty | PemDoesNotParse.

Definition pem_message (e : pem_error) : string :=
  match e with
  | PemTooLong => "a certificate can be at most 16 KiB of PEM"
  | PemPrivateKey => "the PEM contains a private key; paste only the certificate"
  | PemNotPEM => "certificate_pem is not PEM (it should start -----BEGIN CERTIFICATE-----)"
  | PemWrongBlock t => "certificate_pem has a " ++ t ++ " block; only CERTIFICATE is taken"
  | PemMoreThanOne => "certificate_pem has more than one certificate; use one setting each"
  | PemEmpty => "certificate_pem is empty"
  | PemDoesNotParse => "the certificate doesn't parse"
  end.

Section Cert.
Context `{Certificates}.

(** The loop over blocks; [None] is out of fuel, which the length of the text
    never is ([pem_loop_done]). *)
Fixpoint pem_loop (fuel : nat) (rest : string) (der : option string) : option (result pem_error (option string)) :=
  if String.eqb rest EmptyString then Some (Ok der)
  else match fuel with
  | O => None
  | S f =>
      match pem_Decode rest with
      | None => Some (Err PemNotPEM)
      | Some (type, b, next) =>
          if negb (String.eqb type "CERTIFICATE") then Some (Err (PemWrongBlock type))
          else match der with
               | Some _ => Some (Err PemMoreThanOne)
               | None => pem_loop f (TrimSpace next) (Some b)
               end
      end
  end.

Definition ParseCertificatePEM (text : string) : option (result pem_error string) :=
  if MaxCertificatePEMBytes <? slen text then Some (Err PemTooLong)
  else if Contains text "PRIVATE KEY" then Some (Err PemPrivateKey)
  else match pem_loop (S (String.length text)) (TrimSpace text) None with
       | None => None
       | Some (Err e) => Some (Err e)
       | Some (Ok None) => Some (Err PemEmpty)
       | Some (Ok (Some der)) => Some (if x509_parses der then Ok der else Err PemDoesNotParse)
       end.

Definition CertificateThumbprint (s : Setting) : string :=
  match ParseCertificatePEM (se_CertificatePEM s) with Some (Ok der) => sha1_hex der | _ => EmptyString end.

(** ** Identity *)

Definition Identity (s : Setting) : string :=
  let k := se_Kind s in
  if String.eqb k KindRegistry then
    "registry:" ++ ToUpper (se_Hive s) ++ "\" ++ ToLower (normalizeKey (se_Key s)) ++ "!" ++ ToLower (se_Name s)
  else if String.eqb k KindService then "service:" ++ ToLower (se_Name s)
  else if String.eqb k KindGroup then "local_group_members:" ++ ToLower (se_Group s)
  else if String.eqb k KindFile then "file:" ++ ToLower (NormalizePath (se_Path s))
  else if String.eqb k KindFirewallProfile then "firewall_profile:" ++ ToLower (se_Profile s)
  else if String.eqb k KindFirewallRule then "firewall_rule:" ++ ToLower (TrimSpace (se_Name s))
  else if String.eqb k KindWindowsUpdate then "windows_update:policy"
  else if String.eqb k KindBitLocker then "bitlocker:os"
  else if String.eqb k KindDefender then "defender:preferences"
  else if String.eqb k KindCertificate then "certificate:" ++ se_Store s ++ ":" ++ CertificateThumbprint s
  else if String.eqb k KindWiFi then "wifi:" ++ se_SSID s
  else if String.eqb k KindVPN then "vpn:" ++ ToLower (se_Name s)
  else k ++ ":".

(** ** Validation *)

Definition bad {A} (why : string) : result string A := Err ("invalid setting: " ++ why)%string.
Definition demand (c : bool) (why : string) : result string unit := if c then Ok tt else bad why.

Definition one_of (s : string) (l : list string) : bool := existsb (String.eqb s) l.

Definition validateRegistry (s : Setting) : result string unit :=
  check! demand (one_of (ToUpper (se_Hive s)) ["HKLM"; "HKCU"]) ("hive must be HKLM, not " ++ Quoted (se_Hive s));
  check! demand (negb (String.eqb (normalizeKey (se_Key s)) "")) "a registry setting needs a key";
  check! demand (negb (String.eqb (se_Name s) "")) "a registry setting needs a value name";
  if String.eqb (se_Ensure s) EnsureAbsent then Ok tt
  else
    check! demand (one_of (se_Ensure s) [""; EnsurePresent]) ("ensure must be " ++ Quoted EnsurePresent ++ " or " ++ Quoted EnsureAbsent);
    if one_of (se_Type s) ["REG_SZ"; "REG_EXPAND_SZ"; "REG_MULTI_SZ"] then Ok tt
    else if one_of (se_Type s) ["REG_DWORD"; "REG_QWORD"] then
      demand (ParsesAsUint (TrimSpace (se_Data s))) (se_Type s ++ " data must be a whole number, got " ++ Quoted (se_Data s))
    else if String.eqb (se_Type s) "" then bad "a registry setting needs a type"
    else bad ("unsupported registry type " ++ Quoted (se_Type s)).

Definition validateService (s : Setting) : result string unit :=
  check! demand (negb (String.eqb (TrimSpace (se_Name s)) "")) "a service setting needs a name";
  check! demand (one_of (se_Startup s) ["automatic"; "manual"; "disabled"; ""])
    ("startup must be automatic, manual or disabled, not " ++ Quoted (se_Startup s));
  check! demand (one_of (se_State s) ["running"; "stopped"; ""]) ("state must be running or stopped, not " ++ Quoted (se_State s));
  check! demand (negb (String.eqb (se_Startup s) "" && String.eqb (se_State s) ""))
    "a service setting needs a startup type, a state, or both";
  demand (negb (String.eqb (se_Startup s) "disabled" && String.eqb (se_State s) "running"))
    "a disabled service cannot also be required to run".

Definition validateGroup (s : Setting) : result string unit :=
  check! demand (negb (String.eqb (TrimSpace (se_Group s)) "")) "a group setting needs a group name";
  check! demand (negb (String.eqb (se_Mode s) "")) "a group setting needs a mode of additive or exact";
  check! demand (one_of (se_Mode s) ["additive"; "exact"]) ("mode must be additive or exact, not " ++ Quoted (se_Mode s));
  check! demand (negb ((length (se_Members s) =? 0)%nat && String.eqb (se_Mode s) "additive"))
    "an additive group setting with no members does nothing";
  demand (forallb (fun m => negb (String.eqb (TrimSpace m) "")) (se_Members s)) "a group member cannot be blank".

Definition validateFile (s : Setting) : result string unit :=
  check! demand (negb (String.eqb (NormalizePath (se_Path s)) "." || String.eqb (TrimSpace (se_Path s)) ""))
    "a file setting needs a path";
  if String.eqb (se_Ensure s) EnsureAbsent then
    demand (String.eqb (se_ContentBase64 s) "") "a file being removed cannot also have contents"
  else
    check! demand (one_of (se_Ensure s) [EnsurePresent; ""]) ("ensure must be " ++ Quoted EnsurePresent ++ " or " ++ Quoted EnsureAbsent);
    match content_length s with
    | None => bad "file contents must be base64"
    | Some n => demand (n <=? MaxFileBytes) "a file may be at most 1048576 bytes"
    end.

Definition validateFirewallProfile (s : Setting) : result string unit :=
  check! demand (one_of (se_Profile s) ["domain"; "private"; "public"])
    ("profile must be domain, private or public, not " ++ Quoted (se_Profile s));
  demand (one_of (se_State s) ["on"; "off"]) ("a firewall profile must be on or off, not " ++ Quoted (se_State s)).

Definition port_part (part : string) : bool :=
  match Atoi (TrimSpace part) with Some n => (1 <=? n) && (n <=? 65535) | None => false end.

Definition validatePort (port : string) : result string unit :=
  if String.eqb (TrimSpace port) "" then Ok tt
  else demand (forallb port_part (Split "-" port)) (Quoted port ++ " is not a port or port range").

Definition validateFirewallRule (s : Setting) : result string unit :=
  check! demand (negb (String.eqb (TrimSpace (se_Name s)) "")) "a firewall rule needs a name";
  check! demand (negb (ContainsAny (se_Name s) "*?[]`")) "a firewall rule's name cannot contain * ? [ ] or `";
  if String.eqb (se_Ensure s) EnsureAbsent then Ok tt
  else
    check! demand (one_of (se_Ensure s) [""; EnsurePresent]) ("ensure must be " ++ Quoted EnsurePresent ++ " or " ++ Quoted EnsureAbsent);
    check! demand (one_of (se_Direction s) ["inbound"; "outbound"]) ("direction must be inbound or outbound, not " ++ Quoted (se_Direction s));
    check! demand (one_of (se_Action s) ["allow"; "block"]) ("action must be allow or block, not " ++ Quoted (se_Action s));
    check! demand (one_of (se_Protocol s) ["tcp"; "udp"; "any"; ""]) ("protocol must be tcp, udp or any, not " ++ Quoted (se_Protocol s));
    check! demand (negb (negb (String.eqb (se_LocalPort s) "") && String.eqb (se_Protocol s) "any"))
      "a port only means something with tcp or udp";
    validatePort (se_LocalPort s).

Definition inRange (field : string) (value : option Z) (low high : Z) : result string unit :=
  match value with
  | None => Ok tt
  | Some v => demand (negb ((v <? low) || (high <? v)))
                (field ++ " must be between " ++ Itoa low ++ " and " ++ Itoa high)
  end.

Definition is_nil {A} (o : option A) : bool := match o with None => true | Some _ => false end.

(** The two pause dates are looked at in the order of a Go map; here one fixed. *)
Definition validateWindowsUpdate (s : Setting) : result string unit :=
  check! inRange "quality_deferral_days" (se_QualityDeferralDays s) 0 30;
  check! inRange "feature_deferral_days" (se_FeatureDeferralDays s) 0 365;
  check! inRange "active_hours_start" (se_ActiveHoursStart s) 0 23;
  check! inRange "active_hours_end" (se_ActiveHoursEnd s) 0 23;
  check! demand (Bool.eqb (is_nil (se_ActiveHoursStart s)) (is_nil (se_ActiveHoursEnd s))) "active hours need both a start and an end";
  check! demand (match se_ActiveHoursStart s, se_ActiveHoursEnd s with Some a, Some b => negb (a =? b) | _, _ => true end)
    "active hours cannot start and end at the same hour";
  check! inRange "quality_deadline_days" (se_QualityDeadlineDays s) 0 30;
  check! inRange "feature_deadline_days" (se_FeatureDeadlineDays s) 0 30;
  check! inRange "deadline_grace_days" (se_DeadlineGraceDays s) 0 7;
  check! demand (negb (negb (is_nil (se_DeadlineGraceDays s)) && is_nil (se_QualityDeadlineDays s) && is_nil (se_FeatureDeadlineDays s)))
    "a deadline grace period needs a deadline";
  check! demand (String.eqb (se_PauseQualityFrom s) "" || ParsesAsDate (se_PauseQualityFrom s)) "pause_quality_from must be a date, YYYY-MM-DD";
  check! demand (String.eqb (se_PauseFeatureFrom s) "" || ParsesAsDate (se_PauseFeatureFrom s)) "pause_feature_from must be a date, YYYY-MM-DD";
  check! demand (Bool.eqb (String.eqb (se_TargetProduct s) "") (String.eqb (se_TargetVersion s) ""))
    "a target release needs both a product and a version";
  check! (if negb (String.eqb (se_TargetProduct s) "") then
            check! demand (one_of (se_TargetProduct s) ["Windows 10"; "Windows 11"])
              ("target_product must be " ++ Quoted "Windows 10" ++ " or " ++ Quoted "Windows 11");
            demand (releasePattern (se_TargetVersion s)) "target_version must be a release such as 24H2"
          else Ok tt);
  demand (negb (is_nil (se_QualityDeferralDays s) && is_nil (se_FeatureDeferralDays s) && is_nil (se_ActiveHoursStart s)
                && is_nil (se_AutoRestart s) && is_nil (se_QualityDeadlineDays s) && is_nil (se_FeatureDeadlineDays s)
                && String.eqb (se_PauseQualityFrom s) "" && String.eqb (se_PauseFeatureFrom s) "" && String.eqb (se_TargetProduct s) ""))
    "a windows_update setting with nothing set does nothing".

Definition validateBitLocker (s : Setting) : result string unit :=
  check! demand (one_of (se_Method s) ["XtsAes128"; "XtsAes256"; ""]) ("method must be XtsAes128 or XtsAes256, not " ++ Quoted (se_Method s));
  check! demand (negb (negb (se_RequireEncryption s) && se_EscrowRecoveryKey s)) "a recovery key can only be escrowed when encryption is required";
  check! demand (negb (negb (se_RequireEncryption s) && negb (String.eqb (se_Method s) "")))
    "an encryption method only means something when encryption is required";
  demand (se_RequireEncryption s) "a bitlocker setting that requires nothing does nothing".

Definition sortedWords (values : list (string * Z)) : list string :=
  map fst (order_by (fun a b => a.2 <=? b.2) values).

(** The preferences in order: has one been named, and is each a word of its own? *)
Fixpoint defender_loop (s : Setting) (named : bool) (ps : list DefenderPreference) : result string bool :=
  match ps with
  | [] => Ok named
  | p :: ps =>
      let v := DefenderValue s (dp_Field p) in
      if String.eqb v "" then defender_loop s named ps
      else
        check! demand (one_of v (map fst (dp_Values p)))
          (dp_Field p ++ " must be one of " ++ Join ", " (sortedWords (dp_Values p)) ++ ", not " ++ Quoted v);
        defender_loop s true ps
  end.

Definition validateDefender (s : Setting) : result string unit :=
  let! named := defender_loop s (negb (is_nil (se_RealtimeMonitoring s))) DefenderPreferences in
  demand named "a defender setting with nothing set does nothing".

Definition validateCertificate (s : Setting) : result string unit :=
  check! demand (one_of (se_Store s) (map fst CertificateStores)) "store must be root, ca or trusted_publisher";
  match ParseCertificatePEM (se_CertificatePEM s) with
  | Some (Ok _) => Ok tt
  | Some (Err e) => bad (pem_message e)
  | None => bad "out of fuel"
  end.

Definition validateSSID (ssid : string) : result string unit :=
  check! demand (negb ((slen ssid =? 0) || (32 <? slen ssid))) "ssid must be 1 to 32 bytes";
  demand (ValidString ssid && negb (ContainsAny ssid (bytes [34; 0; 13; 10; 9]))) "ssid can't contain quotes or control characters".

Definition validateOneX (s : Setting) : result string unit :=
  check! demand (String.eqb (se_Passphrase s) "" && is_nil (se_SealedSecret s))
    "an enterprise network has no passphrase; devices sign in with their own credentials";
  check! demand (one_of (se_EAPMethod s) ["peap"; "tls"]) "eap_method must be peap or tls";
  check! demand (one_of (se_AuthMode s) [""; "machine_or_user"; "machine"; "user"]) "auth_mode must be machine_or_user, machine or user";
  let listed {A} (l : list A) := negb ((length l =? 0)%nat || (maxOneXEntries <? Z.of_nat (length l))) in
  check! demand (listed (se_ServerNames s)) "server_names must list 1 to 8 RADIUS server names, so devices check who they are talking to";
  check! rmap (fun n => demand (negb ((253 <? slen n) || negb (serverNamePattern n))) (Quoted n ++ " is not a server name")) (se_ServerNames s);
  check! demand (listed (se_TrustedRootThumbprints s))
    "trusted_root_thumbprints must list 1 to 8 thumbprints of the CA that issued the RADIUS server's certificate";
  check! rmap (fun t => demand (thumbprintPattern (NormalizeThumbprint t)) (Quoted t ++ " is not a SHA-1 certificate thumbprint (40 hex digits)"))
    (se_TrustedRootThumbprints s);
  Ok tt.

Definition not_enterprise (s : Setting) : result string unit :=
  demand (negb (negb (String.eqb (se_EAPMethod s) "") || negb (length (se_ServerNames s) =? 0)%nat
                || negb (length (se_TrustedRootThumbprints s) =? 0)%nat || negb (String.eqb (se_AuthMode s) "")))
    "eap_method, server_names, trusted_root_thumbprints and auth_mode are for wpa2_enterprise".

Definition validateWiFi (s : Setting) : result string unit :=
  check! validateSSID (se_SSID s);
  if String.eqb (se_Security s) "open" then
    check! demand (String.eqb (se_Passphrase s) "" && is_nil (se_SealedSecret s)) "an open network has no passphrase";
    not_enterprise s
  else if String.eqb (se_Security s) "wpa2_enterprise" then validateOneX s
  else if one_of (se_Security s) ["wpa2_personal"; "wpa3_personal"] then
    check! demand (negb (String.eqb (se_Passphrase s) "" && is_nil (se_SealedSecret s))) ("a " ++ se_Security s ++ " network needs a passphrase");
    check! (if negb (String.eqb (se_Passphrase s) "") then
              let n := RuneCountInString (se_Passphrase s) in
              demand (negb ((n <? passphraseMinimum) || (passphraseMaximum <? n) || negb (isPrintableASCII (se_Passphrase s))))
                "a passphrase is 8 to 63 printable ASCII characters"
            else Ok tt);
    not_enterprise s
  else bad "security must be open, wpa2_personal, wpa3_personal or wpa2_enterprise".

Definition validateVPN (s : Setting) : result string unit :=
  check! demand (vpnNamePattern (se_Name s)) "a VPN's name is 1 to 64 letters, digits, spaces, dots, dashes or underscores";
  check! demand (ParsesAsIP (se_Server s) || negb ((253 <? slen (se_Server s)) || negb (hostnamePattern (se_Server s))))
    "server must be a host name or IP address";
  check! demand (one_of (se_Tunnel s) ["ikev2"; "sstp"]) "tunnel must be ikev2 or sstp";
  check! demand (one_of (se_Authentication s) ["eap"; "machine_certificate"; "mschapv2"]) "authentication must be eap, machine_certificate or mschapv2";
  check! demand (negb (String.eqb (se_Tunnel s) "sstp" && String.eqb (se_Authentication s) "machine_certificate"))
    "SSTP can't authenticate with a machine certificate; use IKEv2";
  demand (String.eqb (se_DNSSuffix s) "" || hostnamePattern (se_DNSSuffix s)) "dns_suffix must be a domain name".

Definition Validate (s : Setting) : result string unit :=
  let k := se_Kind s in
  if String.eqb k KindRegistry then validateRegistry s
  else if String.eqb k KindService then validateService s
  else if String.eqb k KindGroup then validateGroup s
  else if String.eqb k KindFile then validateFile s
  else if String.eqb k KindFirewallProfile then validateFirewallProfile s
  else if String.eqb k KindFirewallRule then validateFirewallRule s
  else if String.eqb k KindWindowsUpdate then validateWindowsUpdate s
  else if String.eqb k KindBitLocker then validateBitLocker s
  else if String.eqb k KindDefender then validateDefender s
  else if String.eqb k KindCertificate then validateCertificate s
  else if String.eqb k KindWiFi then validateWiFi s
  else if String.eqb k KindVPN then validateVPN s
  else if String.eqb k "" then bad "every setting needs a kind"
  else bad ("unsupported kind " ++ Quoted k).

(** The loop of [ValidateSettings]: [seen] holds the identities so far, the
    position of each. *)
Fixpoint validate_from (i : Z) (seen : gmap string Z) (settings : list Setting) : result string unit :=
  match settings with
  | [] => Ok tt
  | s :: rest =>
      match Validate s with
      | Err e => Err ("setting " ++ Itoa (i + 1) ++ ": " ++ e)%string
      | Ok _ =>
          let id := Identity s in
          match seen !! id with
          | Some first => bad ("settings " ++ Itoa (first + 1) ++ " and " ++ Itoa (i + 1) ++ " both configure " ++ id)
          | None => validate_from (i + 1) (<[id := i]> seen) rest
          end
      end
  end.

Definition ValidateSettings (settings : list Setting) : result string unit :=
  match settings with
  | [] => bad "a profile needs at least one setting"
  | _ => validate_from 0 ∅ settings
  end.
End Cert.
