(* ===== verification/SettingsProps.v ===== *)
(** * Settings: what the checks promise

    Every accepted setting is well formed and every well-formed one accepted;
    a profile is accepted exactly if its settings are and no two of them are
    about the same thing; a setting survives its JSON. *)
From S2P Require Export Settings.
Open Scope Z_scope.
Open Scope go_scope.

(** ** JSON round trip *)

Lemma decode_members_app {S} (fs : list (field S)) a b s :
  decode_members false fs (a ++ b) s = rbind (decode_members false fs a s) (decode_members false fs b).
Proof.
  revert s. induction a as [|kv a IH]; intros s; simpl; [done|].
  destruct (decode_member false fs kv s); simpl; [apply IH|done].
Qed.

(** One field of the struct: where its name leads, and what it stores. *)
Lemma decode_one {S} (fs : list (field S)) k v s f :
  find_field fs k = Some f -> decode_members false fs [(k, v)] s = snd f v s.
Proof. intros H. simpl. unfold decode_member. simpl. rewrite H. by destruct (snd f v s). Qed.

Lemma strings_decode l : rmap string_elem (map JStr l) = Ok l.
Proof. induction l as [|x l IH]; simpl; [done|]. by rewrite IH. Qed.

(** Where a name is found in the list of fields. *)
Lemma find_field_at {S} (fs : list (field S)) n k f :
  fs !! n = Some f -> fst f = k -> existsb (fun x => String.eqb x k) (take n (map fst fs)) = false ->
  find_field fs k = Some f.
Proof.
  intros Hn Hk He. unfold find_field.
  assert (find (fun f => String.eqb (fst f) k) fs = Some f) as ->; [|done].
  revert n Hn He. induction fs as [|g fs IH]; intros [|n] Hn He; simpl in *; [done..| |].
  - injection Hn as ->. by rewrite Hk, String.eqb_refl.
  - apply orb_false_iff in He as [-> He]. by eapply IH.
Qed.

Ltac field_at n := apply (find_field_at _ n); [cbv [setting_fields lookup list_lookup]; reflexivity|reflexivity|vm_compute; reflexivity].

Section Omitted.
Context {S : Type} (fs : list (field S)) (k : string).

(** Decoding what was left out of the text leaves the field at its zero value. *)
Lemma decode_str set v s : find_field fs k = Some (string_field k set) -> (v = EmptyString -> set v s = s) ->
  decode_members false fs (omit_str k v) s = Ok (set v s).
Proof.
  intros Hf Hz. unfold omit_str. destruct (String.eqb_spec v EmptyString) as [->|]; [simpl; by rewrite Hz|].
  by rewrite (decode_one _ _ _ _ _ Hf).
Qed.
Lemma decode_strs set v s : find_field fs k = Some (strings_field k set) -> (v = [] -> set v s = s) ->
  decode_members false fs (omit_strs k v) s = Ok (set v s).
Proof.
  intros Hf Hz. unfold omit_strs. destruct v as [|x v]; [simpl; by rewrite Hz|].
  rewrite (decode_one _ _ _ _ _ Hf). cbn [snd strings_field]. by rewrite strings_decode.
Qed.
Lemma decode_pint set v s : find_field fs k = Some (pint_field k set) -> (v = None -> set v s = s) ->
  (forall n, v = Some n -> in_int64 n = true) -> decode_members false fs (omit_pint k v) s = Ok (set v s).
Proof.
  intros Hf Hz Hr. unfold omit_pint. destruct v as [n|]; [|simpl; by rewrite Hz].
  rewrite (decode_one _ _ _ _ _ Hf). cbn [snd pint_field jint]. by rewrite Atoi_Itoa by auto.
Qed.
Lemma decode_pbool set v s : find_field fs k = Some (pbool_field k set) -> (v = None -> set v s = s) ->
  decode_members false fs (omit_pbool k v) s = Ok (set v s).
Proof.
  intros Hf Hz. unfold omit_pbool. destruct v as [n|]; [|simpl; by rewrite Hz]. by rewrite (decode_one _ _ _ _ _ Hf).
Qed.
Lemma decode_bool set v s : find_field fs k = Some (bool_field k set) -> (v = false -> set v s = s) ->
  decode_members false fs (omit_bool k v) s = Ok (set v s).
Proof.
  intros Hf Hz. unfold omit_bool. destruct v; [|simpl; by rewrite Hz]. by rewrite (decode_one _ _ _ _ _ Hf).
Qed.
End Omitted.

Lemma decode_sealed k set v s : find_field setting_fields k = Some (sealed_field k set) ->
  se_SealedSecret s = None -> (v = None -> set v s = s) ->
  decode_members false setting_fields (omit_sealed k v) s = Ok (set v s).
Proof.
  intros Hf H0 Hz. unfold omit_sealed. destruct v as [[a b c]|]; [|simpl; by rewrite Hz].
  rewrite (decode_one _ _ _ _ _ Hf). cbn [snd sealed_field sealed_json]. rewrite H0. done.
Qed.

(** The integers of a setting are Go ints. *)
Definition ints_in_range (s : Setting) : Prop :=
  forall n, Some n ∈ [
se_QualityDeferralDays s; se_FeatureDeferralDays s; se_ActiveHoursStart s; se_ActiveHoursEnd s; se_QualityDeadlineDays s; se_FeatureDeadlineDays s; se_DeadlineGraceDays s] -> in_int64 n = true.

Ltac solve_in := repeat first [apply list_elem_of_here | apply list_elem_of_further].
Ltac setting_simpl := cbv beta iota delta [zero_setting set_Kind set_Hive set_Key set_Type set_Name set_Data set_Startup set_State set_Group set_Members set_Mode set_Path set_ContentBase64 set_Ensure set_Profile set_Direction set_Action set_Protocol set_LocalPort set_Program set_QualityDeferralDays set_FeatureDeferralDays set_ActiveHoursStart set_ActiveHoursEnd set_AutoRestart set_QualityDeadlineDays set_FeatureDeadlineDays set_DeadlineGraceDays set_PauseQualityFrom set_PauseFeatureFrom set_TargetProduct set_TargetVersion set_RequireEncryption set_Method set_EscrowRecoveryKey set_RealtimeMonitoring set_CloudProtection set_SampleSubmission set_PUAProtection set_CloudBlockLevel set_Store set_CertificatePEM set_SSID set_Security set_Passphrase set_SealedSecret set_SecretSet set_AutoConnect set_Hidden set_EAPMethod set_ServerNames set_TrustedRootThumbprints set_AuthMode set_Server set_Tunnel set_Authentication set_SplitTunneling set_DNSSuffix Settings.se_Kind Settings.se_Hive Settings.se_Key Settings.se_Type Settings.se_Name Settings.se_Data Settings.se_Startup Settings.se_State Settings.se_Group Settings.se_Members Settings.se_Mode Settings.se_Path Settings.se_ContentBase64 Settings.se_Ensure Settings.se_Profile Settings.se_Direction Settings.se_Action Settings.se_Protocol Settings.se_LocalPort Settings.se_Program Settings.se_QualityDeferralDays Settings.se_FeatureDeferralDays Settings.se_ActiveHoursStart Settings.se_ActiveHoursEnd Settings.se_AutoRestart Settings.se_QualityDeadlineDays Settings.se_FeatureDeadlineDays Settings.se_DeadlineGraceDays Settings.se_PauseQualityFrom Settings.se_PauseFeatureFrom Settings.se_TargetProduct Settings.se_TargetVersion Settings.se_RequireEncryption Settings.se_Method Settings.se_EscrowRecoveryKey Settings.se_RealtimeMonitoring Settings.se_CloudProtection Settings.se_SampleSubmission Settings.se_PUAProtection Settings.se_CloudBlockLevel Settings.se_Store Settings.se_CertificatePEM Settings.se_SSID Settings.se_Security Settings.se_Passphrase Settings.se_SealedSecret Settings.se_SecretSet Settings.se_AutoConnect Settings.se_Hidden Settings.se_EAPMethod Settings.se_ServerNames Settings.se_TrustedRootThumbprints Settings.se_AuthMode Settings.se_Server Settings.se_Tunnel Settings.se_Authentication Settings.se_SplitTunneling Settings.se_DNSSuffix].

Lemma decode_step (fs : list (field Setting)) a rest s s' :
  decode_members false fs a s = Ok s' -> decode_members false fs (a ++ rest) s = decode_members false fs rest s'.
Proof. intros H. by rewrite decode_members_app, H. Qed.

(** Reads one member back, the [n]th field; and [m] of them from there. *)
Ltac zero_value := setting_simpl; intros ->; reflexivity.
Ltac member n Hi :=
  erewrite decode_step by first
    [ eapply decode_str; [field_at n|zero_value]
    | eapply decode_strs; [field_at n|zero_value]
    | eapply decode_pint; [field_at n|zero_value|intros m ->; apply Hi; solve_in]
    | eapply decode_pbool; [field_at n|zero_value]
    | eapply decode_bool; [field_at n|zero_value]
    | eapply decode_sealed; [field_at n|setting_simpl; reflexivity|zero_value] ];
  setting_simpl.
Ltac members n m Hi :=
  lazymatch m with O => idtac | S ?m' => member n Hi; members (S n) m' Hi end.

Lemma setting_decodes s : ints_in_range s -> decode_setting (setting_json s) = Ok s.
Proof.
  intros Hi. destruct s. unfold ints_in_range in Hi. simpl in Hi.
  unfold decode_setting, setting_json, decode_struct, setting_members. setting_simpl.
  change (("kind"%string, JStr se_Kind) :: ?r) with ([("kind"%string, JStr se_Kind)] ++ r).
  erewrite decode_step by (erewrite decode_one by reflexivity; reflexivity).
  members 1%nat 56%nat Hi.
  rewrite (decode_str _ _ set_DNSSuffix); setting_simpl; [reflexivity|field_at 57%nat|zero_value].
Qed.

Lemma setting_json_inj s t : ints_in_range s -> ints_in_range t -> setting_json s = setting_json t -> s = t.
Proof. intros Hs Ht E. apply setting_decodes in Hs, Ht. rewrite E in Hs. congruence. Qed.

(** C1: [json.Unmarshal] of what [json.Marshal] wrote gives the setting back: every
    field, those left out of the text included. *)
Theorem setting_json_roundtrip s : ints_in_range s -> decode_setting (setting_json s) = Ok s.
Proof. apply setting_decodes. Qed.

(** ** What is accepted *)

Lemma demand_Ok c why : demand c why = Ok tt <-> c = true.
Proof. unfold demand, bad. destruct c; split; congruence. Qed.

Lemma both_Ok (m k : result string unit) : rbind m (fun _ => k) = Ok tt <-> m = Ok tt /\ k = Ok tt.
Proof. destruct m as [[]|e]; simpl; naive_solver. Qed.

Lemma bad_Ok {A} why (a : A) : bad why = Ok a <-> False.
Proof. unfold bad. split; [congruence|done]. Qed.

Lemma one_of_spec s l : one_of s l = true <-> s ∈ l.
Proof. apply existsb_eq_elem. Qed.

Lemma eqb_true s t : String.eqb s t = true <-> s = t.
Proof. apply String.eqb_eq. Qed.
Lemma neqb_true s t : negb (String.eqb s t) = true <-> s <> t.
Proof. rewrite negb_true_iff. apply String.eqb_neq. Qed.

Lemma inRange_Ok f v lo hi : inRange f v lo hi = Ok tt <-> forall n, v = Some n -> lo <= n <= hi.
Proof.
  unfold inRange. destruct v as [n|]; [|naive_solver]. rewrite demand_Ok, negb_true_iff, orb_false_iff, !Z.ltb_ge.
  split; [intros H m [= <-]; lia|intros H; specialize (H n eq_refl); lia].
Qed.

Lemma every_Ok {A} (f : A -> result string unit) l : (exists x, rmap f l = Ok x) <-> Forall (fun a => f a = Ok tt) l.
Proof.
  induction l as [|a l IH]; simpl; [split; [constructor|eauto]|].
  rewrite Forall_cons, <- IH. destruct (f a) as [[]|e]; simpl.
  - destruct (rmap f l); simpl; naive_solver.
  - naive_solver.
Qed.

Lemma every_then {A} (f : A -> result string unit) l k :
  rbind (rmap f l) (fun _ => k) = Ok tt <-> Forall (fun a => f a = Ok tt) l /\ k = Ok tt.
Proof. rewrite <- every_Ok. destruct (rmap f l); simpl; naive_solver. Qed.

Definition registry_ok (s : Setting) : Prop :=
  ToUpper (se_Hive s) ∈ ["HKLM"; "HKCU"]%string /\ normalizeKey (se_Key s) <> EmptyString /\ se_Name s <> EmptyString
  /\ (se_Ensure s = EnsureAbsent
      \/ se_Ensure s ∈ [""; EnsurePresent]%string
         /\ (se_Type s ∈ ["REG_SZ"; "REG_EXPAND_SZ"; "REG_MULTI_SZ"]%string
             \/ se_Type s ∈ ["REG_DWORD"; "REG_QWORD"]%string /\ ParsesAsUint (TrimSpace (se_Data s)) = true)).

Lemma registry_accepted s : validateRegistry s = Ok tt <-> registry_ok s.
Proof.
  unfold validateRegistry, registry_ok. rewrite !both_Ok, !demand_Ok, !neqb_true, one_of_spec.
  destruct (String.eqb_spec (se_Ensure s) EnsureAbsent) as [E|N]; [tauto|].
  rewrite both_Ok, demand_Ok, one_of_spec.
  destruct (one_of (se_Type s) ["REG_SZ"; "REG_EXPAND_SZ"; "REG_MULTI_SZ"]%string) eqn:E1.
  { apply one_of_spec in E1. tauto. }
  assert (H1 : ~ se_Type s ∈ ["REG_SZ"; "REG_EXPAND_SZ"; "REG_MULTI_SZ"]%string) by (rewrite <- one_of_spec; congruence).
  destruct (one_of (se_Type s) ["REG_DWORD"; "REG_QWORD"]%string) eqn:E2.
  { apply one_of_spec in E2. rewrite demand_Ok. tauto. }
  assert (H2 : ~ se_Type s ∈ ["REG_DWORD"; "REG_QWORD"]%string) by (rewrite <- one_of_spec; congruence).
  destruct (String.eqb (se_Type s) ""); rewrite bad_Ok; tauto.
Qed.

Definition service_ok (s : Setting) : Prop :=
  TrimSpace (se_Name s) <> EmptyString
  /\ se_Startup s ∈ ["automatic"; "manual"; "disabled"; ""]%string /\ se_State s ∈ ["running"; "stopped"; ""]%string
  /\ ~ (se_Startup s = EmptyString /\ se_State s = EmptyString) /\ ~ (se_Startup s = "disabled"%string /\ se_State s = "running"%string).

Lemma not_both a b c d : negb (String.eqb a b && String.eqb c d) = true <-> ~ (a = b /\ c = d).
Proof. rewrite <- !eqb_true. destruct (String.eqb a b), (String.eqb c d); simpl; naive_solver. Qed.

Lemma service_accepted s : validateService s = Ok tt <-> service_ok s.
Proof. unfold validateService, service_ok. rewrite !both_Ok, !demand_Ok, !one_of_spec, !not_both, neqb_true. tauto. Qed.

Definition group_ok (s : Setting) : Prop :=
  TrimSpace (se_Group s) <> EmptyString /\ se_Mode s ∈ ["additive"; "exact"]%string
  /\ (se_Mode s = "additive"%string -> se_Members s <> []) /\ Forall (fun m => TrimSpace m <> EmptyString) (se_Members s).

Lemma forallb_Forall_iff {A} (p : A -> bool) (P : A -> Prop) l :
  (forall a, p a = true <-> P a) -> forallb p l = true <-> Forall P l.
Proof.
  intros H. induction l as [|a l IH]; simpl; [split; [constructor|done]|].
  by rewrite andb_true_iff, Forall_cons, IH, H.
Qed.

Lemma group_accepted s : validateGroup s = Ok tt <-> group_ok s.
Proof.
  unfold validateGroup, group_ok. rewrite !both_Ok, !demand_Ok, !neqb_true, one_of_spec.
  rewrite (forallb_Forall_iff _ (fun m => TrimSpace m <> EmptyString)) by (intros; apply neqb_true).
  assert (H : negb ((length (se_Members s) =? 0)%nat && String.eqb (se_Mode s) "additive") = true
    <-> (se_Mode s = "additive"%string -> se_Members s <> [])).
  { rewrite <- eqb_true. destruct (se_Members s), (String.eqb (se_Mode s) "additive"); simpl; naive_solver. }
  rewrite H. split; [tauto|]. intros (? & Hm & ?). split; [done|]. split; [|tauto].
  intros E. rewrite E in Hm. by repeat (apply elem_of_cons in Hm as [Hm|Hm]; [done|]); apply elem_of_nil in Hm.
Qed.

Definition file_ok (s : Setting) : Prop :=
  NormalizePath (se_Path s) <> "."%string /\ TrimSpace (se_Path s) <> EmptyString
  /\ (se_Ensure s = EnsureAbsent /\ se_ContentBase64 s = EmptyString
      \/ se_Ensure s <> EnsureAbsent /\ se_Ensure s ∈ [EnsurePresent; ""]%string
         /\ exists n, content_length s = Some n /\ n <= MaxFileBytes).

Lemma file_accepted s : validateFile s = Ok tt <-> file_ok s.
Proof.
  unfold validateFile, file_ok. rewrite both_Ok, demand_Ok, negb_orb, andb_true_iff, !neqb_true.
  destruct (String.eqb_spec (se_Ensure s) EnsureAbsent) as [E|N].
  - rewrite demand_Ok, eqb_true. naive_solver.
  - rewrite both_Ok, demand_Ok, one_of_spec. destruct (content_length s) as [n|].
    + rewrite demand_Ok, Z.leb_le. naive_solver.
    + rewrite bad_Ok. naive_solver.
Qed.

Definition firewall_profile_ok (s : Setting) : Prop :=
  se_Profile s ∈ ["domain"; "private"; "public"]%string /\ se_State s ∈ ["on"; "off"]%string.

Lemma firewall_profile_accepted s : validateFirewallProfile s = Ok tt <-> firewall_profile_ok s.
Proof. unfold validateFirewallProfile, firewall_profile_ok. by rewrite both_Ok, !demand_Ok, !one_of_spec. Qed.

(** A port between 1 and 65535. *)
Definition port_in_range (part : string) : Prop := exists n, Atoi (TrimSpace part) = Some n /\ 1 <= n <= 65535.

(** What is accepted: blank, or ports with dashes between them - however many. *)
Definition port_ok (port : string) : Prop := TrimSpace port = EmptyString \/ Forall port_in_range (Split "-" port).

Lemma port_accepted port : validatePort port = Ok tt <-> port_ok port.
Proof.
  unfold validatePort, port_ok. destruct (String.eqb_spec (TrimSpace port) "") as [E|N]; [naive_solver|].
  rewrite demand_Ok, (forallb_Forall_iff _ port_in_range); [naive_solver|].
  intros p. unfold port_part, port_in_range. destruct (Atoi (TrimSpace p)) as [n|]; [|naive_solver].
  rewrite andb_true_iff, !Z.leb_le. naive_solver.
Qed.




Definition firewall_rule_ok (s : Setting) : Prop :=
  TrimSpace (se_Name s) <> EmptyString /\ ContainsAny (se_Name s) "*?[]`" = false
  /\ (se_Ensure s = EnsureAbsent
      \/ se_Ensure s ∈ [""; EnsurePresent]%string /\ se_Direction s ∈ ["inbound"; "outbound"]%string
         /\ se_Action s ∈ ["allow"; "block"]%string /\ se_Protocol s ∈ ["tcp"; "udp"; "any"; ""]%string
         /\ (se_Protocol s = "any"%string -> se_LocalPort s = EmptyString) /\ port_ok (se_LocalPort s)).

Lemma firewall_rule_accepted s : validateFirewallRule s = Ok tt <-> firewall_rule_ok s.
Proof.
  unfold validateFirewallRule, firewall_rule_ok. rewrite !both_Ok, !demand_Ok, neqb_true, negb_true_iff.
  destruct (String.eqb_spec (se_Ensure s) EnsureAbsent) as [E|N]; [tauto|].
  rewrite !both_Ok, !demand_Ok, !one_of_spec, port_accepted.
  assert (H : negb (negb (String.eqb (se_LocalPort s) "") && String.eqb (se_Protocol s) "any") = true
    <-> (se_Protocol s = "any"%string -> se_LocalPort s = EmptyString)).
  { rewrite <- !eqb_true. destruct (String.eqb (se_LocalPort s) ""), (String.eqb (se_Protocol s) "any"); simpl; naive_solver. }
  rewrite H. tauto.
Qed.

Definition within (o : option Z) (lo hi : Z) : Prop := forall n, o = Some n -> lo <= n <= hi.

Definition update_ok (s : Setting) : Prop :=
  within (se_QualityDeferralDays s) 0 30 /\ within (se_FeatureDeferralDays s) 0 365
  /\ within (se_ActiveHoursStart s) 0 23 /\ within (se_ActiveHoursEnd s) 0 23
  /\ (se_ActiveHoursStart s = None <-> se_ActiveHoursEnd s = None)
  /\ (forall h, se_ActiveHoursStart s = Some h -> se_ActiveHoursEnd s <> Some h)
  /\ within (se_QualityDeadlineDays s) 0 30 /\ within (se_FeatureDeadlineDays s) 0 30 /\ within (se_DeadlineGraceDays s) 0 7
  /\ (se_DeadlineGraceDays s <> None -> se_QualityDeadlineDays s <> None \/ se_FeatureDeadlineDays s <> None)
  /\ (se_PauseQualityFrom s = EmptyString \/ ParsesAsDate (se_PauseQualityFrom s) = true)
  /\ (se_PauseFeatureFrom s = EmptyString \/ ParsesAsDate (se_PauseFeatureFrom s) = true)
  /\ (se_TargetProduct s = EmptyString /\ se_TargetVersion s = EmptyString
      \/ se_TargetProduct s ∈ ["Windows 10"; "Windows 11"]%string /\ releasePattern (se_TargetVersion s) = true)
  /\ (se_QualityDeferralDays s <> None \/ se_FeatureDeferralDays s <> None \/ se_ActiveHoursStart s <> None
      \/ se_AutoRestart s <> None \/ se_QualityDeadlineDays s <> None \/ se_FeatureDeadlineDays s <> None
      \/ se_PauseQualityFrom s <> EmptyString \/ se_PauseFeatureFrom s <> EmptyString \/ se_TargetProduct s <> EmptyString).

Lemma is_nil_true {A} (o : option A) : is_nil o = true <-> o = None.
Proof. destruct o; simpl; split; congruence. Qed.
Lemma is_nil_false {A} (o : option A) : is_nil o = false <-> o <> None.
Proof. destruct o; simpl; split; congruence. Qed.

Lemma hours_paired (a b : option Z) : Bool.eqb (is_nil a) (is_nil b) = true <-> (a = None <-> b = None).
Proof. destruct a, b; simpl; naive_solver. Qed.

Lemma hours_differ (a b : option Z) :
  match a, b with Some x, Some y => negb (x =? y) | _, _ => true end = true <-> forall h, a = Some h -> b <> Some h.
Proof.
  destruct a as [x|], b as [y|]; try naive_solver. rewrite negb_true_iff, Z.eqb_neq. naive_solver.
Qed.

Lemma target_accepted s :
  Bool.eqb (String.eqb (se_TargetProduct s) "") (String.eqb (se_TargetVersion s) "") = true
  /\ (if negb (String.eqb (se_TargetProduct s) "") then
        check! demand (one_of (se_TargetProduct s) ["Windows 10"; "Windows 11"]%string)
          ("target_product must be " ++ Quoted "Windows 10" ++ " or " ++ Quoted "Windows 11")%string;
        demand (releasePattern (se_TargetVersion s)) "target_version must be a release such as 24H2"
      else Ok tt) = Ok tt
  <-> se_TargetProduct s = EmptyString /\ se_TargetVersion s = EmptyString
      \/ se_TargetProduct s ∈ ["Windows 10"; "Windows 11"]%string /\ releasePattern (se_TargetVersion s) = true.
Proof.
  destruct (String.eqb_spec (se_TargetProduct s) "") as [E|N]; cbn [negb].
  - assert (Hno : ~ se_TargetProduct s ∈ ["Windows 10"; "Windows 11"]%string) by (by rewrite E, <- one_of_spec).
    destruct (String.eqb_spec (se_TargetVersion s) "") as [E2|N2]; cbn [Bool.eqb]; naive_solver.
  - rewrite both_Ok, !demand_Ok, one_of_spec.
    destruct (String.eqb_spec (se_TargetVersion s) "") as [E2|N2]; cbn [Bool.eqb]; [|tauto].
    rewrite E2. split; [by intros [? _]|]. by intros [[? _]|[_ ?]].
Qed.

Lemma update_accepted s : validateWindowsUpdate s = Ok tt <-> update_ok s.
Proof.
  unfold validateWindowsUpdate, update_ok, within. rewrite !both_Ok, !inRange_Ok, !demand_Ok, hours_paired, hours_differ.
  rewrite <- target_accepted, !orb_true_iff, !eqb_true.
  assert (Hg : negb (negb (is_nil (se_DeadlineGraceDays s)) && is_nil (se_QualityDeadlineDays s) && is_nil (se_FeatureDeadlineDays s)) = true
    <-> (se_DeadlineGraceDays s <> None -> se_QualityDeadlineDays s <> None \/ se_FeatureDeadlineDays s <> None)).
  { rewrite <- !is_nil_false. destruct (is_nil (se_DeadlineGraceDays s)), (is_nil (se_QualityDeadlineDays s)), (is_nil (se_FeatureDeadlineDays s));
      simpl; naive_solver. }
  rewrite Hg, !negb_andb, !orb_true_iff, !negb_true_iff, !is_nil_false, !String.eqb_neq. clear Hg.
  split.
  - intros (H1 & H2 & H3 & H4 & H5 & H6 & H7 & H8 & H9 & H10 & H11 & H12 & H13 & H14 & Hz).
    do 12 (split; [assumption|]). split; [by split|]. clear -Hz. tauto.
  - intros (H1 & H2 & H3 & H4 & H5 & H6 & H7 & H8 & H9 & H10 & H11 & H12 & [H13 H14] & Hz).
    do 14 (split; [assumption|]). clear -Hz. tauto.
Qed.

Definition bitlocker_ok (s : Setting) : Prop :=
  se_RequireEncryption s = true /\ se_Method s ∈ ["XtsAes128"; "XtsAes256"; ""]%string.

Lemma bitlocker_accepted s : validateBitLocker s = Ok tt <-> bitlocker_ok s.
Proof.
  unfold validateBitLocker, bitlocker_ok. rewrite !both_Ok, !demand_Ok, one_of_spec.
  destruct (se_RequireEncryption s); simpl; naive_solver.
Qed.

(** Every Defender word is its field's own, and something is named. *)
Definition defender_ok (s : Setting) : Prop :=
  Forall (fun p => DefenderValue s (dp_Field p) = EmptyString \/ DefenderValue s (dp_Field p) ∈ map fst (dp_Values p)) DefenderPreferences
  /\ (se_RealtimeMonitoring s <> None \/ exists p, p ∈ DefenderPreferences /\ DefenderValue s (dp_Field p) <> EmptyString).

Lemma defender_loop_Ok s named ps :
  defender_loop s named ps = Ok true
  <-> Forall (fun p => DefenderValue s (dp_Field p) = EmptyString \/ DefenderValue s (dp_Field p) ∈ map fst (dp_Values p)) ps
      /\ (named = true \/ exists p, p ∈ ps /\ DefenderValue s (dp_Field p) <> EmptyString).
Proof.
  revert named. induction ps as [|p ps IH]; intros named; simpl.
  - split; [intros [= ->]; split; [constructor|by left]|].
    intros [_ [->|(p & Hp & _)]]; [done|by apply elem_of_nil in Hp].
  - rewrite Forall_cons. destruct (String.eqb_spec (DefenderValue s (dp_Field p)) "") as [E|N].
    + rewrite IH. split.
      * intros [H1 H2]. split; [tauto|]. destruct H2 as [?|(q & Hq & ?)]; [by left|]. right. exists q. split; [by constructor|done].
      * intros [[_ H1] H2]. split; [done|]. destruct H2 as [?|(q & [->|Hq]%elem_of_cons & Hn)]; [by left|done|]. right. by exists q.
    + unfold demand. destruct (one_of _ _) eqn:Eo; simpl.
      * apply one_of_spec in Eo. rewrite IH. split.
        -- intros [H1 _]. split; [tauto|]. right. exists p. split; [by constructor|done].
        -- intros [[_ H1] _]. split; [done|]. by left.
      * split; [done|]. intros [[[?|H] _] _]; [done|]. apply one_of_spec in H. congruence.
Qed.

Lemma defender_accepted s : validateDefender s = Ok tt <-> defender_ok s.
Proof.
  unfold validateDefender, defender_ok. rewrite <- is_nil_false, <- negb_true_iff, <- defender_loop_Ok.
  destruct (defender_loop s _ _) as [[]|e]; simpl; split; try done; intros H; discriminate H.
Qed.

Section WithCertificates.
Context `{Certificates}.

Definition certificate_ok (s : Setting) : Prop :=
  se_Store s ∈ map fst CertificateStores /\ exists der, ParseCertificatePEM (se_CertificatePEM s) = Some (Ok der).

Lemma certificate_accepted s : validateCertificate s = Ok tt <-> certificate_ok s.
Proof.
  unfold validateCertificate, certificate_ok. rewrite both_Ok, demand_Ok, one_of_spec.
  destruct (ParseCertificatePEM _) as [[der|e]|]; rewrite ?bad_Ok; naive_solver.
Qed.

Definition ssid_ok (ssid : string) : Prop :=
  0 < slen ssid <= 32 /\ ValidString ssid = true /\ ContainsAny ssid (bytes [34; 0; 13; 10; 9]) = false.

Lemma ssid_accepted ssid : validateSSID ssid = Ok tt <-> ssid_ok ssid.
Proof.
  unfold validateSSID, ssid_ok. rewrite both_Ok, !demand_Ok, andb_true_iff, !negb_true_iff, orb_false_iff.
  rewrite Z.eqb_neq, Z.ltb_ge. pose proof (slen_nonneg ssid). split; [intros [[? ?] [? ?]]|intros (? & ? & ?)]; (split; [|done]); lia.
Qed.

Definition enterprise_ok (s : Setting) : Prop :=
  se_Passphrase s = EmptyString /\ se_SealedSecret s = None
  /\ se_EAPMethod s ∈ ["peap"; "tls"]%string /\ se_AuthMode s ∈ [""; "machine_or_user"; "machine"; "user"]%string
  /\ 1 <= Z.of_nat (length (se_ServerNames s)) <= maxOneXEntries
  /\ Forall (fun n => slen n <= 253 /\ serverNamePattern n = true) (se_ServerNames s)
  /\ 1 <= Z.of_nat (length (se_TrustedRootThumbprints s)) <= maxOneXEntries
  /\ Forall (fun t => thumbprintPattern (NormalizeThumbprint t) = true) (se_TrustedRootThumbprints s).

Lemma listed_iff {A} (l : list A) :
  negb ((length l =? 0)%nat || (maxOneXEntries <? Z.of_nat (length l))) = true
  <-> 1 <= Z.of_nat (length l) <= maxOneXEntries.
Proof. rewrite negb_true_iff, orb_false_iff, Nat.eqb_neq, Z.ltb_ge. lia. Qed.

Lemma Forall_iff_ext {A} (P Q : A -> Prop) l : (forall a, P a <-> Q a) -> Forall P l <-> Forall Q l.
Proof. intros E. rewrite !Forall_forall. naive_solver. Qed.

Lemma enterprise_accepted s : validateOneX s = Ok tt <-> enterprise_ok s.
Proof.
  unfold validateOneX, enterprise_ok. rewrite !both_Ok, !every_then, !both_Ok, !every_then, !demand_Ok, !one_of_spec, !listed_iff.
  rewrite andb_true_iff, eqb_true, is_nil_true.
  rewrite !(Forall_iff_ext _ _ _ (fun a => demand_Ok _ _)).
  rewrite (Forall_iff_ext (fun n => negb _ = true) (fun n => slen n <= 253 /\ serverNamePattern n = true)); [tauto|].
  intros n. rewrite negb_true_iff, orb_false_iff, Z.ltb_ge, negb_false_iff. done.
Qed.

Definition no_enterprise (s : Setting) : Prop :=
  se_EAPMethod s = EmptyString /\ se_ServerNames s = [] /\ se_TrustedRootThumbprints s = [] /\ se_AuthMode s = EmptyString.

Lemma not_enterprise_accepted s : not_enterprise s = Ok tt <-> no_enterprise s.
Proof.
  unfold not_enterprise, no_enterprise. rewrite demand_Ok, negb_true_iff, !orb_false_iff, !negb_false_iff, !eqb_true, !Nat.eqb_eq.
  rewrite !length_zero_iff_nil. tauto.
Qed.

Definition wifi_ok (s : Setting) : Prop :=
  ssid_ok (se_SSID s)
  /\ (se_Security s = "open"%string /\ se_Passphrase s = EmptyString /\ se_SealedSecret s = None /\ no_enterprise s
      \/ se_Security s = "wpa2_enterprise"%string /\ enterprise_ok s
      \/ se_Security s ∈ ["wpa2_personal"; "wpa3_personal"]%string /\ ~ (se_Passphrase s = EmptyString /\ se_SealedSecret s = None)
         /\ (se_Passphrase s <> EmptyString -> isPrintableASCII (se_Passphrase s) = true /\ 8 <= RuneCountInString (se_Passphrase s) <= 63)
         /\ no_enterprise s).

Lemma passphrase_iff s :
  (if negb (String.eqb (se_Passphrase s) "") then
     let n := RuneCountInString (se_Passphrase s) in
     demand (negb ((n <? passphraseMinimum) || (passphraseMaximum <? n) || negb (isPrintableASCII (se_Passphrase s))))
       "a passphrase is 8 to 63 printable ASCII characters"
   else Ok tt) = Ok tt
  <-> (se_Passphrase s <> EmptyString -> isPrintableASCII (se_Passphrase s) = true /\ 8 <= RuneCountInString (se_Passphrase s) <= 63).
Proof.
  destruct (String.eqb_spec (se_Passphrase s) "") as [E|N]; cbn [negb]; [naive_solver|]. cbv zeta.
  rewrite demand_Ok, negb_true_iff, !orb_false_iff, !Z.ltb_ge, negb_false_iff. unfold passphraseMinimum, passphraseMaximum. tauto.
Qed.

Lemma wifi_accepted s : validateWiFi s = Ok tt <-> wifi_ok s.
Proof.
  unfold validateWiFi, wifi_ok. rewrite both_Ok, ssid_accepted.
  assert (Hp : forall x, x = "open"%string \/ x = "wpa2_enterprise"%string -> ~ x ∈ ["wpa2_personal"; "wpa3_personal"]%string).
  { intros x [-> | ->]; by rewrite <- one_of_spec. }
  destruct (String.eqb_spec (se_Security s) "open") as [E|N].
  { rewrite both_Ok, demand_Ok, andb_true_iff, eqb_true, is_nil_true, not_enterprise_accepted. specialize (Hp _ (or_introl E)).
    assert (se_Security s <> "wpa2_enterprise"%string) by congruence. tauto. }
  destruct (String.eqb_spec (se_Security s) "wpa2_enterprise") as [E|N2].
  { rewrite enterprise_accepted. specialize (Hp _ (or_intror E)). tauto. }
  clear Hp. destruct (one_of (se_Security s) ["wpa2_personal"; "wpa3_personal"]%string) eqn:Eo.
  - apply one_of_spec in Eo. rewrite !both_Ok, demand_Ok, passphrase_iff, not_enterprise_accepted.
    assert (Hs : negb (String.eqb (se_Passphrase s) "" && is_nil (se_SealedSecret s)) = true
      <-> ~ (se_Passphrase s = EmptyString /\ se_SealedSecret s = None)).
    { rewrite <- eqb_true, <- is_nil_true. destruct (String.eqb _ _), (is_nil _); simpl; naive_solver. }
    rewrite Hs. tauto.
  - assert (~ se_Security s ∈ ["wpa2_personal"; "wpa3_personal"]%string) by (rewrite <- one_of_spec; congruence).
    rewrite bad_Ok. tauto.
Qed.

Definition vpn_ok (s : Setting) : Prop :=
  vpnNamePattern (se_Name s) = true
  /\ (ParsesAsIP (se_Server s) = true \/ slen (se_Server s) <= 253 /\ hostnamePattern (se_Server s) = true)
  /\ se_Tunnel s ∈ ["ikev2"; "sstp"]%string /\ se_Authentication s ∈ ["eap"; "machine_certificate"; "mschapv2"]%string
  /\ ~ (se_Tunnel s = "sstp"%string /\ se_Authentication s = "machine_certificate"%string)
  /\ (se_DNSSuffix s = EmptyString \/ hostnamePattern (se_DNSSuffix s) = true).

Lemma vpn_accepted s : validateVPN s = Ok tt <-> vpn_ok s.
Proof.
  unfold validateVPN, vpn_ok. rewrite !both_Ok, !demand_Ok, !one_of_spec, not_both, !orb_true_iff, eqb_true.
  rewrite negb_true_iff, orb_false_iff, Z.ltb_ge, negb_false_iff. tauto.
Qed.

(** ** A profile *)

(** What each kind of setting may say. *)
Inductive well_formed (s : Setting) : Prop :=
| wf_registry : se_Kind s = KindRegistry -> registry_ok s -> well_formed s
| wf_service : se_Kind s = KindService -> service_ok s -> well_formed s
| wf_group : se_Kind s = KindGroup -> group_ok s -> well_formed s
| wf_file : se_Kind s = KindFile -> file_ok s -> well_formed s
| wf_firewall_profile : se_Kind s = KindFirewallProfile -> firewall_profile_ok s -> well_formed s
| wf_firewall_rule : se_Kind s = KindFirewallRule -> firewall_rule_ok s -> well_formed s
| wf_update : se_Kind s = KindWindowsUpdate -> update_ok s -> well_formed s
| wf_bitlocker : se_Kind s = KindBitLocker -> bitlocker_ok s -> well_formed s
| wf_defender : se_Kind s = KindDefender -> defender_ok s -> well_formed s
| wf_certificate : se_Kind s = KindCertificate -> certificate_ok s -> well_formed s
| wf_wifi : se_Kind s = KindWiFi -> wifi_ok s -> well_formed s
| wf_vpn : se_Kind s = KindVPN -> vpn_ok s -> well_formed s.

Lemma accepted_iff s : Validate s = Ok tt <-> well_formed s.
Proof.
  unfold Validate. repeat match goal with |- context [String.eqb (se_Kind s) ?k] => destruct (String.eqb_spec (se_Kind s) k) as [E|?] end;
    rewrite ?registry_accepted, ?service_accepted, ?group_accepted, ?file_accepted, ?firewall_profile_accepted, ?firewall_rule_accepted,
      ?update_accepted, ?bitlocker_accepted, ?defender_accepted, ?certificate_accepted, ?wifi_accepted, ?vpn_accepted, ?bad_Ok;
    (split; [intros Hk; try done; eauto using well_formed|intros []; try congruence; rewrite E in *; discriminate]).
Qed.


(** *** Identity *)

(** Text before and after the first [c]. *)
Lemma separated (c : ascii) a : forall b x y,
  sany (Ascii.eqb c) a = false -> sany (Ascii.eqb c) b = false ->
  (a ++ String c x = b ++ String c y)%string -> a = b /\ x = y.
Proof.
  induction a as [|d a IH]; intros [|e b] x y Ha Hb E; simpl in *; simplify_eq.
  - done.
  - by rewrite Ascii.eqb_refl in Hb.
  - by rewrite Ascii.eqb_refl in Ha.
  - apply orb_false_iff in Ha as [_ Ha], Hb as [_ Hb]. by destruct (IH _ _ _ Ha Hb ltac:(eassumption)) as [-> ->].
Qed.

(** What a setting is about, with the case and spelling Windows ignores taken
    out: the hive, the key and the value; a service, a group, a file ... *)
Definition target (s : Setting) : list string :=
  let k := se_Kind s in
  if String.eqb k KindRegistry then [ToUpper (se_Hive s); ToLower (normalizeKey (se_Key s)); ToLower (se_Name s)]
  else if String.eqb k KindService then [ToLower (se_Name s)]
  else if String.eqb k KindGroup then [ToLower (se_Group s)]
  else if String.eqb k KindFile then [ToLower (NormalizePath (se_Path s))]
  else if String.eqb k KindFirewallProfile then [ToLower (se_Profile s)]
  else if String.eqb k KindFirewallRule then [ToLower (TrimSpace (se_Name s))]
  else if String.eqb k KindCertificate then [se_Store s; CertificateThumbprint s]
  else if String.eqb k KindWiFi then [se_SSID s]
  else if String.eqb k KindVPN then [ToLower (se_Name s)]
  else [].

(** The kind comes first in an identity, before a colon. *)
Lemma Identity_kind s : exists r, Identity s = (se_Kind s ++ String ":" r)%string.
Proof.
  unfold Identity.
  repeat match goal with |- context [String.eqb (se_Kind s) ?k] => destruct (String.eqb_spec (se_Kind s) k) as [->|_]; [by eexists|] end.
  by eexists.
Qed.

Definition known_kinds : list string :=
  [KindRegistry; KindService; KindGroup; KindFile; KindFirewallProfile; KindFirewallRule; KindWindowsUpdate;
   KindBitLocker; KindDefender; KindCertificate; KindWiFi; KindVPN].

Lemma known_kind s : well_formed s -> se_Kind s ∈ known_kinds.
Proof. intros []; rewrite <- one_of_spec; match goal with E : se_Kind s = _ |- _ => rewrite E end; reflexivity. Qed.

Lemma kind_plain k : k ∈ known_kinds -> sany (Ascii.eqb ":") k = false.
Proof.
  assert (Hf : forallb (fun k => negb (sany (Ascii.eqb ":") k)) known_kinds = true) by reflexivity.
  rewrite forallb_forall in Hf. intros Hk%list_elem_of_In%Hf. by apply negb_true_iff.
Qed.

Lemma same_kind s t : well_formed s -> well_formed t -> Identity s = Identity t -> se_Kind s = se_Kind t.
Proof.
  intros Hs%known_kind%kind_plain Ht%known_kind%kind_plain E.
  destruct (Identity_kind s) as [x Hx], (Identity_kind t) as [y Hy]. rewrite Hx, Hy in E.
  by destruct (separated ":" _ _ _ _ Hs Ht E).
Qed.

(** The name of a registry key or value that an identity shows plainly. *)
Definition unambiguous (s : Setting) : Prop := sany (Ascii.eqb "!") (ToLower (normalizeKey (se_Key s))) = false.

Lemma hive_plain s : registry_ok s -> sany (Ascii.eqb "\") (ToUpper (se_Hive s)) = false.
Proof. intros [Hi _]. simpl in Hi. by repeat (apply elem_of_cons in Hi as [->|Hi]; [done|]); apply elem_of_nil in Hi. Qed.
Lemma store_plain s : certificate_ok s -> sany (Ascii.eqb ":") (se_Store s) = false.
Proof. intros [Hi _]. simpl in Hi. by repeat (apply elem_of_cons in Hi as [->|Hi]; [done|]); apply elem_of_nil in Hi. Qed.

Lemma and_iff_compat_l' (A B C : Prop) : (A -> (B <-> C)) -> (A /\ B <-> A /\ C).
Proof. tauto. Qed.

Lemma well_formed_registry s : well_formed s -> se_Kind s = KindRegistry -> registry_ok s.
Proof. intros [] E; try done; rewrite E in *; discriminate. Qed.
Lemma well_formed_certificate s : well_formed s -> se_Kind s = KindCertificate -> certificate_ok s.
Proof. intros [] E; try done; rewrite E in *; discriminate. Qed.

(** Compares kinds that are known. *)
Ltac decide_kinds :=
  repeat match goal with |- context [String.eqb ?a ?b] =>
    let v := eval vm_compute in (String.eqb a b) in change (String.eqb a b) with v; cbv iota end.

Lemma identity_target s t :
  well_formed s -> well_formed t -> (se_Kind s = KindRegistry -> unambiguous s) -> (se_Kind t = KindRegistry -> unambiguous t) ->
  Identity s = Identity t <-> se_Kind s = se_Kind t /\ target s = target t.
Proof.
  intros Hs Ht Us Ut.
  assert (Hk : Identity s = Identity t <-> se_Kind s = se_Kind t /\ Identity s = Identity t).
  { split; [intros E; split; [by apply same_kind|done]|tauto]. }
  rewrite Hk. clear Hk.
  apply and_iff_compat_l'. intros Ek. unfold target, Identity. rewrite <- Ek.
  destruct Hs as [K Hs|K Hs|K Hs|K Hs|K Hs|K Hs|K Hs|K Hs|K Hs|K Hs|K Hs|K Hs]; rewrite K; decide_kinds.
  - assert (Ht' : registry_ok t) by (apply well_formed_registry; congruence).
    split; [|by intros [= -> -> ->]]. intros E%(inj (String.append "registry:")).
    destruct (separated "\" _ _ _ _ (hive_plain s Hs) (hive_plain t Ht') E) as [-> E2].
    by destruct (separated "!" _ _ _ _ (Us K) (Ut ltac:(congruence)) E2) as [-> ->].
  - by split; [intros ->%(inj (String.append _))|intros [= ->]].
  - by split; [intros ->%(inj (String.append _))|intros [= ->]].
  - by split; [intros ->%(inj (String.append _))|intros [= ->]].
  - by split; [intros ->%(inj (String.append _))|intros [= ->]].
  - by split; [intros ->%(inj (String.append _))|intros [= ->]].
  - done.
  - done.
  - done.
  - assert (Ht' : certificate_ok t) by (apply well_formed_certificate; congruence).
    split; [|by intros [= -> ->]]. intros E%(inj (String.append "certificate:")).
    by destruct (separated ":" _ _ _ _ (store_plain s Hs) (store_plain t Ht') E) as [-> ->].
  - by split; [intros ->%(inj (String.append _))|intros [= ->]].
  - by split; [intros ->%(inj (String.append _))|intros [= ->]].
Qed.

(** C1: two accepted settings share an identity exactly if they are of one
    kind and about the same thing - for registry values, as long as no key
    has an exclamation mark in it, which the identity also puts between the
    key and the value's name. *)
Theorem identity_is_the_target s t :
  well_formed s -> well_formed t -> unambiguous s -> unambiguous t ->
  Identity s = Identity t <-> se_Kind s = se_Kind t /\ target s = target t.
Proof. intros ? ? ? ?. by apply identity_target. Qed.







(** *** The loop over PEM blocks *)

Lemma length_srev s : String.length (srev s) = String.length s.
Proof.
  induction s as [|c s IH]; [done|]. pose proof (slen_app (srev s) (String c EmptyString)) as E.
  rewrite srev_String. unfold slen in E. simpl in *. lia.
Qed.

Lemma trimmed_shorter s : (String.length (TrimSpace s) <= String.length s)%nat.
Proof.
  unfold TrimSpace, trim_both, trim_left.
  assert (Hl : forall n ps x, (String.length (trim_left_fuel n ps x) <= String.length x)%nat).
  { intros n ps x. destruct (trim_left_fuel_suffix ps n x) as [q E]. pose proof (slen_app q (trim_left_fuel n ps x)) as L. rewrite <- E in L. unfold slen in L. lia. }
  rewrite length_srev. etrans; [apply Hl|]. rewrite length_srev. apply Hl.
Qed.

Lemma pem_loop_done `{!CertificatesLaws} fuel : forall rest der, (String.length rest <= fuel)%nat -> pem_loop fuel rest der <> None.
Proof.
  induction fuel as [|f IH]; intros rest der Hf; cbn [pem_loop].
  { destruct rest; [done|simpl in Hf; lia]. }
  destruct (String.eqb rest EmptyString); [done|].
  destruct (pem_Decode rest) as [[[ty b] next]|] eqn:E; [|done].
  destruct (negb _); [done|]. destruct der; [done|]. apply IH.
  apply pem_shorter in E. pose proof (trimmed_shorter next). lia.
Qed.

(** C1: reading a certificate ends, whatever the text. *)
Theorem certificate_check_finishes `{!CertificatesLaws} text : exists r, ParseCertificatePEM text = Some r.
Proof.
  unfold ParseCertificatePEM. destruct (_ <? slen text); [by eexists|]. destruct (Contains text _); [by eexists|].
  pose proof (trimmed_shorter text).
  destruct (pem_loop _ _ None) as [[[der|]|e]|] eqn:E; [by eexists..|].
  exfalso. revert E. apply pem_loop_done. lia.
Qed.
End WithCertificates.

(** ** Concrete profiles *)

Module Sample.
(** PEM in small: a line is a block - its type, a colon and its bytes; the
    certificates that parse start with a zero, and a fingerprint is the bytes. *)
Fixpoint cut_line (s : string) : option (string * string) :=
  match s with
  | EmptyString => None
  | String c r => if Ascii.eqb c LF then Some (EmptyString, r)
                  else match cut_line r with Some (a, b) => Some (String c a, b) | None => None end
  end.
#[export] Instance certificates : Certificates := {|
  pem_Decode s := match cut_line s with
                  | Some (l, r) => match Split ":" l with [t; b] => Some (t, b, r) | _ => None end
                  | None => None
                  end;
  x509_parses := HasPrefix "0";
  sha1_hex s := s |}.

Lemma cut_line_shorter s : forall a b, cut_line s = Some (a, b) -> (String.length b < String.length s)%nat.
Proof.
  induction s as [|c s IH]; intros a b; simpl; [done|]. destruct (Ascii.eqb c LF); [intros [= <- <-]; lia|].
  destruct (cut_line s) as [[x y]|]; [|done]. intros [= <- <-]. specialize (IH x y eq_refl). lia.
Qed.
#[export] Instance certificates_laws : CertificatesLaws.
Proof.
  intros s t b rest. simpl. destruct (cut_line s) as [[l r]|] eqn:E; [|done].
  destruct (Split ":" l) as [|? [|? [|? ?]]]; [done..| |done]. intros [= -> -> ->]. by eapply cut_line_shorter.
Qed.

Definition banner : Setting := set_Data "on" (set_Type "REG_SZ" (set_Name "Banner" (set_Key "Software\Acme" (set_Hive "hklm"
  (set_Kind KindRegistry zero_setting))))).
Definition banner_again : Setting := set_Name "BANNER" (set_Key "software/acme/" (set_Hive "HKLM" banner)).
Definition spooler : Setting := set_Startup "disabled" (set_Name "Spooler" (set_Kind KindService zero_setting)).
Definition office : Setting := set_Passphrase "long enough" (set_Security "wpa2_personal" (set_SSID "Office" (set_Kind KindWiFi zero_setting))).

Example accepted_profile : ValidateSettings [banner; spooler; office] = Ok tt.
Proof. vm_compute. done. Qed.
Example one_setting_twice :
  ValidateSettings [banner; spooler; banner_again]
  = Err "invalid setting: settings 1 and 3 both configure registry:HKLM\software\acme!banner"%string.
Proof. vm_compute. done. Qed.

(** The identity of a registry value does not say where the key ends: the
    value [b!c] of the key [a] and the value [c] of the key [a!b] count as
    one setting, and a profile may not have both. *)
Definition value_bc : Setting := set_Key "a" (set_Name "b!c" banner).
Definition value_c : Setting := set_Key "a!b" (set_Name "c" banner).
Example two_values_one_identity :
  target value_bc <> target value_c /\ Identity value_bc = Identity value_c
  /\ Validate value_bc = Ok tt /\ Validate value_c = Ok tt /\ is_ok (ValidateSettings [value_bc; value_c]) = false.
Proof. vm_compute. done. Qed.

(** A port, a range or nothing - and any number of dashes, in any order. *)
Example ports : map (fun p => is_ok (validatePort p)) [""; "443"; "8000-8100"; "0"; "70000"; "443,80"; "9-1"; "1-2-3"]%string
  = [true; true; true; false; false; false; true; true].
Proof. vm_compute. done. Qed.
End Sample.

Lemma setting_json_roundtrip_witness : decode_setting (setting_json Sample.office) = Ok Sample.office.
Proof. apply setting_json_roundtrip. intros n Hn. cbv in Hn. by repeat (apply elem_of_cons in Hn as [?|Hn]; [done|]); apply elem_of_nil in Hn. Defined.

Lemma sample_ok s : Validate (H := Sample.certificates) s = Ok tt -> well_formed (H := Sample.certificates) s.
Proof. apply accepted_iff. Qed.


Lemma identity_is_the_target_witness :
  Identity (H := Sample.certificates) Sample.banner = Identity (H := Sample.certificates) Sample.banner_again
  <-> KindRegistry = KindRegistry /\ ["HKLM"; "software\acme"; "banner"]%string = ["HKLM"; "software\acme"; "banner"]%string.
Proof.
  apply (@identity_is_the_target Sample.certificates Sample.banner Sample.banner_again);
    [apply sample_ok; vm_compute; reflexivity|apply sample_ok; vm_compute; reflexivity|vm_compute; reflexivity|vm_compute; reflexivity].
Defined.

Lemma certificate_check_finishes_witness :
  exists r, @ParseCertificatePEM Sample.certificates ("CERTIFICATE:0cafe" ++ newline)%string = Some r.
Proof. apply (@certificate_check_finishes Sample.certificates Sample.certificates_laws). Defined.
