(* ===== verification/PolicyEngine.v ===== *)
(** * The agent's policy engine

    [internal/agent/policy/engine.go], [reconcile.go] and [sync.go], and the
    tables of [internal/agent/state/state.go] they use: what the assigned
    profiles ask for, what is done about it, what is remembered so that it can
    be undone, and what is reported. The handlers of the kinds of setting are
    arguments - they are Windows - and so are the server and the text of a JSON
    value. A prior state is stored as its JSON. *)
From S2P Require Export Window Release Settings Service.
Open Scope Z_scope.
Open Scope go_scope.

(** ** Handlers *)

Record State := mkState { st_Exists : bool; st_Data : option json }.

(** An error a handler returns: its text, and whether it is [ErrNotApplicable]. *)
Record herror := mkHerror { he_Message : string; he_NotApplicable : bool }.

(** A handler works on a machine [W] and may panic; only some can undo. *)
Record Handler (W : Type) := mkHandler {
  h_Kind : string;
  h_Get : Setting -> txn W string (result herror State);
  h_Test : Setting -> txn W string (result herror bool);
  h_Set : Setting -> txn W string (option herror);
  h_Revert : option (Setting -> State -> txn W string (option herror)) }.
Arguments h_Kind {W}.
Arguments h_Get {W}.
Arguments h_Test {W}.
Arguments h_Set {W}.
Arguments h_Revert {W}.

(** ** What is asked for *)

Record Assigned := mkAssigned {
  as_ProfileID : string; as_Version : Z; as_Settings : list Setting; as_RevertOnRemoval : bool; as_Held : string }.

Record claim := mkClaim { cl_profileID : string; cl_setting : Setting }.

Record Action := mkAction {
  ac_Identity : string; ac_Setting : Setting; ac_Profiles : list string; ac_Conflict : bool; ac_Detail : string }.

(** [json.Marshal] of two settings read from JSON gives the same text exactly
    if the trees are the same; it never fails on a setting. *)
Definition allSame (cs : list claim) : bool :=
  match cs with
  | [] => true
  | c :: r => forallb (fun d => json_eqb (setting_json (cl_setting d)) (setting_json (cl_setting c))) r
  end.

(** Each name once, where it is first; then sorted; then [%v]. *)
Fixpoint unique_names (seen : list string) (l : list string) : list string :=
  match l with
  | [] => []
  | x :: r => if one_of x seen then unique_names seen r else x :: unique_names (x :: seen) r
  end.
Definition conflictDetail (profileIDs : list string) : string :=
  ("profiles disagree about this setting: [" ++ Join " " (order_by String.leb (unique_names [] profileIDs)) ++ "]")%string.

Section Plan.
Context `{Certificates}.

(** The two loops: the identities in the order they come up, and the claims on each. *)
Definition note_claim (p : string) (acc : list string * gmap string (list claim)) (s : Setting)
    : list string * gmap string (list claim) :=
  let '(order, claims) := acc in
  let id := Identity s in
  match claims !! id with
  | None => (order ++ [id], <[id := [mkClaim p s]]> claims)
  | Some cs => (order, <[id := cs ++ [mkClaim p s]]> claims)
  end.
Definition note_profile (acc : list string * gmap string (list claim)) (a : Assigned) :=
  foldl (note_claim (as_ProfileID a)) acc (as_Settings a).
Definition claims_of (assigned : list Assigned) : list string * gmap string (list claim) :=
  foldl note_profile ([], ∅) assigned.

Definition decide_action (id : string) (cs : list claim) : list Action :=
  match cs with
  | [] => []
  | c :: _ =>
      let profiles := map cl_profileID cs in
      let same := allSame cs in
      [mkAction id (cl_setting c) profiles (negb same) (if same then EmptyString else conflictDetail profiles)]
  end.

Definition Plan (assigned : list Assigned) : list Action :=
  let '(order, claims) := claims_of assigned in
  concat (map (fun id => decide_action id (default [] (claims !! id))) order).
End Plan.

(** ** What is remembered *)

Record ProfileRecord := mkProfileRecord { pr_Identities : list string; pr_RevertOnRemoval : bool; pr_Version : Z }.

Record ProfileVersionResponse := mkProfileVersion {
  pv_Version : Z; pv_Settings : list Setting; pv_Hash : string; pv_Signature : option OpSignature }.

Record SettingResult := mkSettingResult { sr_Identity : string; sr_Status : string; sr_Detail : string }.
Record ProfileStatus := mkProfileStatus { ps_Version : Z; ps_Settings : list SettingResult }.

Definition SettingCompliant : string := "compliant".
Definition SettingRemediated : string := "remediated".
Definition SettingError : string := "error".
Definition SettingConflict : string := "conflict".
Definition SettingNotApplicable : string := "not_applicable".

(** [priorRecord], and its JSON. *)
Record priorRecord := mkPrior { pi_Kind : string; pi_Setting : Setting; pi_State : State }.

Definition raw_field {S} (name : string) (set : json -> S -> S) : field S := (name, fun v s => Ok (set v s)).
Definition struct_field {S T} (name : string) (fs : list (field T)) (get : S -> T) (set : T -> S -> S) : field S :=
  (name, fun v s => match decode_struct false fs v (get s) with Ok t => Ok (set t s) | Err e => Err e end).

Definition state_fields : list (field State) := [
  bool_field "exists" (fun v s => mkState v (st_Data s));
  raw_field "data" (fun v s => mkState (st_Exists s) (Some v))].
Definition state_json (s : State) : json :=
  JObj (("exists"%string, JBool (st_Exists s)) :: match st_Data s with Some d => [("data"%string, d)] | None => [] end).

Definition prior_fields : list (field priorRecord) := [
  string_field "kind" (fun v p => mkPrior v (pi_Setting p) (pi_State p));
  struct_field "setting" setting_fields pi_Setting (fun v p => mkPrior (pi_Kind p) v (pi_State p));
  struct_field "state" state_fields pi_State (fun v p => mkPrior (pi_Kind p) (pi_Setting p) v)].
Definition prior_json (p : priorRecord) : json :=
  JObj [("kind", JStr (pi_Kind p)); ("setting", setting_json (pi_Setting p)); ("state", state_json (pi_State p))]%string.
Definition decode_prior (v : json) : result json_error priorRecord :=
  decode_struct false prior_fields v (mkPrior EmptyString zero_setting (mkState false None)).

(** What the engine asks of the machine and the server, in order. *)
Inductive event :=
| Tested (s : Setting)
| Looked (s : Setting)
| Changed (s : Setting)
| Undone (s : Setting) (prior : State)
| Reported (profileID : string) (status : ProfileStatus).

(** The server, as far as profiles go. *)
Class ProfileServer (N : Type) := {
  ReportProfileStatus : string -> ProfileStatus -> N -> gerror * N;
  FetchProfile : string -> Z -> N -> result string ProfileVersionResponse * N }.

(** The machine, the server, the agent's buckets, and what the coming accesses
    to the buckets run into ([None], or nothing left: they work). *)
Record pworld (W N : Type) := mkPworld {
  p_machine : W; p_net : N;
  p_prior : gmap string json; p_records : gmap string ProfileRecord; p_cache : gmap string ProfileVersionResponse;
  p_faults : list gerror; p_calls : list event }.
Arguments mkPworld {W N}.
Arguments p_machine {W N}.
Arguments p_net {W N}.
Arguments p_prior {W N}.
Arguments p_records {W N}.
Arguments p_cache {W N}.
Arguments p_faults {W N}.
Arguments p_calls {W N}.

Section World.
Context {W N : Type}.
Abbreviation P A := (txn (pworld W N) string A).

Definition emit (e : event) (w : pworld W N) : pworld W N :=
  mkPworld (p_machine w) (p_net w) (p_prior w) (p_records w) (p_cache w) (p_faults w) (p_calls w ++ [e]).
Definition with_machine (m : W) (w : pworld W N) : pworld W N :=
  mkPworld m (p_net w) (p_prior w) (p_records w) (p_cache w) (p_faults w) (p_calls w).
Definition with_net (n : N) (w : pworld W N) : pworld W N :=
  mkPworld (p_machine w) n (p_prior w) (p_records w) (p_cache w) (p_faults w) (p_calls w).
Definition with_prior (m : gmap string json) (w : pworld W N) : pworld W N :=
  mkPworld (p_machine w) (p_net w) m (p_records w) (p_cache w) (p_faults w) (p_calls w).
Definition with_records (m : gmap string ProfileRecord) (w : pworld W N) : pworld W N :=
  mkPworld (p_machine w) (p_net w) (p_prior w) m (p_cache w) (p_faults w) (p_calls w).
Definition with_cache (m : gmap string ProfileVersionResponse) (w : pworld W N) : pworld W N :=
  mkPworld (p_machine w) (p_net w) (p_prior w) (p_records w) m (p_faults w) (p_calls w).

(** A call of a handler. *)
Definition on_machine {A} (e : event) (f : txn W string A) : P A := fun w =>
  let w := emit e w in
  let '(r, m) := f (p_machine w) in (r, with_machine m w).

(** One access to a bucket: it fails, or reads or writes. *)
Definition access {A} (f : pworld W N -> A * pworld W N) : P (result string A) := fun w =>
  match p_faults w with
  | Some e :: r => (Ok (Err e), mkPworld (p_machine w) (p_net w) (p_prior w) (p_records w) (p_cache w) r (p_calls w))
  | fs => let '(a, w') := f (mkPworld (p_machine w) (p_net w) (p_prior w) (p_records w) (p_cache w) (tail fs) (p_calls w)) in
          (Ok (Ok a), w')
  end.

Definition PriorState (id : string) : P (result string (option json)) := access (fun w => (p_prior w !! id, w)).
Definition SetPriorState (id : string) (raw : json) : P (result string unit) :=
  access (fun w => (tt, with_prior (<[id := raw]> (p_prior w)) w)).
Definition DeletePriorState (id : string) : P (result string unit) :=
  access (fun w => (tt, with_prior (delete id (p_prior w)) w)).
Definition ProfileRecords : P (result string (gmap string ProfileRecord)) := access (fun w => (p_records w, w)).
Definition SetProfileRecord (id : string) (r : ProfileRecord) : P (result string unit) :=
  access (fun w => (tt, with_records (<[id := r]> (p_records w)) w)).
Definition DeleteProfileRecord (id : string) : P (result string unit) :=
  access (fun w => (tt, with_records (delete id (p_records w)) w)).

Definition profileKey (id : string) (version : Z) : string := ("profile:" ++ id ++ "@" ++ Itoa version)%string.
Definition CachedProfile (id : string) (version : Z) : P (result string (option ProfileVersionResponse)) :=
  access (fun w => (p_cache w !! profileKey id version, w)).
(** Other versions of the profile go. *)
Definition CacheProfile (id : string) (v : ProfileVersionResponse) : P (result string unit) :=
  access (fun w => (tt, with_cache (<[profileKey id (pv_Version v) := v]>
    (filter (fun kv => HasPrefix kv.1 ("profile:" ++ id ++ "@") = false) (p_cache w))) w)).
End World.

(** ** The reconciler *)

Section Reconciler.
Context {W N : Type} `{Certificates} `{ProfileServer N}.
Context (handlers : list (Handler W)).
(** The order in which Go walks the map of records. *)
Context (range : gmap string ProfileRecord -> list (string * ProfileRecord)).
Abbreviation P A := (txn (pworld W N) string A).

Definition handlerFor (kind : string) : option (Handler W) := find (fun h => String.eqb (h_Kind h) kind) handlers.

(** What goes wrong here is logged and otherwise ignored by the caller. *)
Definition rememberPrior (h : Handler W) (action : Action) : P unit :=
  let* found := PriorState (ac_Identity action) in
  match found with
  | Err _ | Ok (Some _) => tret tt
  | Ok None =>
      let* prior := on_machine (Looked (ac_Setting action)) (h_Get h (ac_Setting action)) in
      match prior with
      | Err _ => tret tt
      | Ok st => let* _ := SetPriorState (ac_Identity action)
                             (prior_json (mkPrior (se_Kind (ac_Setting action)) (ac_Setting action) st)) in tret tt
      end
  end.

(** The body of [apply]: a status and a detail. *)
Definition apply_body (action : Action) : P (string * string) :=
  if ac_Conflict action then tret (SettingConflict, ac_Detail action)
  else match handlerFor (se_Kind (ac_Setting action)) with
  | None => tret (SettingError, "this agent cannot apply " ++ Quoted (se_Kind (ac_Setting action)) ++ " settings")%string
  | Some h =>
      let s := ac_Setting action in
      let* first := on_machine (Tested s) (h_Test h s) in
      match first with
      | Err e => tret (if he_NotApplicable e then SettingNotApplicable else SettingError, he_Message e)
      | Ok true => tret (SettingCompliant, EmptyString)
      | Ok false =>
          do* rememberPrior h action;
          let* err := on_machine (Changed s) (h_Set h s) in
          match err with
          | Some e => tret (SettingError, he_Message e)
          | None =>
              let* second := on_machine (Tested s) (h_Test h s) in
              match second with
              | Err e => tret (SettingError, he_Message e)
              | Ok false => tret (SettingError, "the setting was applied but the machine still does not match it"%string)
              | Ok true => tret (SettingRemediated, EmptyString)
              end
          end
      end
  end.

(** A panic is an error of this one setting. *)
Definition apply (action : Action) : P (string * string) := fun w =>
  match apply_body action w with
  | (Err p, w') => (Ok (SettingError, "the handler panicked: " ++ p)%string, w')
  | r => r
  end.

Fixpoint revert (identities : list string) (stillClaimed : string -> bool) : P unit :=
  match identities with
  | [] => tret tt
  | id :: rest =>
      if stillClaimed id then revert rest stillClaimed
      else
        let* raw := PriorState id in
        match raw with
        | Err _ | Ok None => revert rest stillClaimed
        | Ok (Some raw) =>
            match decode_prior raw with
            | Err _ => revert rest stillClaimed
            | Ok prior =>
                match handlerFor (pi_Kind prior) with
                | Some h =>
                    match h_Revert h with
                    | None => revert rest stillClaimed
                    | Some undo =>
                        let* err := on_machine (Undone (pi_Setting prior) (pi_State prior)) (undo (pi_Setting prior) (pi_State prior)) in
                        match err with
                        | Some _ => revert rest stillClaimed
                        | None => let* _ := DeletePriorState id in revert rest stillClaimed
                        end
                    end
                | None => revert rest stillClaimed
                end
            end
        end
  end.

Definition identities_of (a : Assigned) : list string := map Identity (as_Settings a).

(** The loop over the records; a record that cannot be deleted ends it. *)
Fixpoint forget_loop (assigned : list Assigned) (records : list (string * ProfileRecord)) : P unit :=
  match records with
  | [] => tret tt
  | (id, rec) :: rest =>
      if one_of id (map as_ProfileID assigned) then forget_loop assigned rest
      else
        do* (if pr_RevertOnRemoval rec
             then revert (pr_Identities rec) (fun i => one_of i (concat (map identities_of assigned))) else tret tt);
        let* err := DeleteProfileRecord id in
        match err with
        | Err _ => tret tt
        | Ok _ => forget_loop assigned rest
        end
  end.

Definition forgetRemoved (assigned : list Assigned) : P unit :=
  let* records := ProfileRecords in
  match records with
  | Err _ => tret tt
  | Ok m => forget_loop assigned (range m)
  end.

Fixpoint record_profiles (active : list Assigned) : P unit :=
  match active with
  | [] => tret tt
  | a :: rest =>
      let* _ := SetProfileRecord (as_ProfileID a)
                  (mkProfileRecord (identities_of a) (as_RevertOnRemoval a) (as_Version a)) in
      record_profiles rest
  end.

(** The results so far, by profile; a missing profile has none. *)
Definition results_of (m : gmap string (list SettingResult)) (id : string) : list SettingResult := default [] (m !! id).
Definition add_result (r : SettingResult) (m : gmap string (list SettingResult)) (id : string) :=
  <[id := results_of m id ++ [r]]> m.

Definition held_results (a : Assigned) : list SettingResult :=
  if String.eqb (as_Held a) "" then []
  else map (fun s => mkSettingResult (Identity s) SettingError (as_Held a)) (as_Settings a).
Definition start_results (assigned : list Assigned) : gmap string (list SettingResult) :=
  foldl (fun m a => <[as_ProfileID a := held_results a]> m) ∅ assigned.

Fixpoint apply_all (actions : list Action) (results : gmap string (list SettingResult)) : P (gmap string (list SettingResult)) :=
  match actions with
  | [] => tret results
  | a :: rest =>
      let* sd := apply a in
      apply_all rest (foldl (add_result (mkSettingResult (ac_Identity a) sd.1 sd.2)) results (ac_Profiles a))
  end.

Definition report (id : string) (status : ProfileStatus) : P gerror := fun w =>
  let w := emit (Reported id status) w in
  let '(e, n) := ReportProfileStatus id status (p_net w) in (Ok e, with_net n w).

(** Every profile is reported; the first failure is returned. *)
Fixpoint report_all (results : gmap string (list SettingResult)) (assigned : list Assigned) (reportErr : gerror) : P gerror :=
  match assigned with
  | [] => tret reportErr
  | a :: rest =>
      let* err := report (as_ProfileID a) (mkProfileStatus (as_Version a) (results_of results (as_ProfileID a))) in
      report_all results rest (match reportErr with Some _ => reportErr | None => err end)
  end.

Definition active (assigned : list Assigned) : list Assigned :=
  List.filter (fun a => String.eqb (as_Held a) "") assigned.

Definition Reconcile (assigned : list Assigned) : P gerror :=
  let* results := apply_all (Plan (active assigned)) (start_results assigned) in
  do* forgetRemoved assigned;
  do* record_profiles (active assigned);
  report_all results assigned None.

(** ** The syncer *)

Record PolicySyncer := mkPolicySyncer { sy_Cached : bool; sy_Operations : Policy }.

(** [json.Unmarshal] into [ProfileOptions], error or not: a member of another
    type leaves the option as it was. *)
Definition revert_on_removal (raw : raw_options) : bool :=
  match raw with
  | RawValue (JObj l) =>
      foldl (fun b kv => match kv.2 with
                         | JBool v => if EqualFold kv.1 "revert_on_removal" then v else b
                         | _ => b
                         end) false l
  | _ => false
  end.

Section Sync.
Context `{Crypto} (json_text : json -> string) (sy : PolicySyncer).

Definition clean (s : Setting) : Setting := set_SecretSet false (set_SealedSecret None s).
Definition ProfileManifest (settings : list Setting) : string :=
  ("retune-profile-manifest/v1" ++ newline ++ "settings="
   ++ sha256_hex (json_text (JArr (map (fun s => setting_json (clean s)) settings))) ++ newline)%string.

Definition fetch (id : string) (version : Z) : P (result string ProfileVersionResponse) := fun w =>
  let '(r, n) := FetchProfile id version (p_net w) in (Ok r, with_net n w).

Definition cached (item : Item) : P (option ProfileVersionResponse) :=
  if sy_Cached sy then
    let* c := CachedProfile (it_ID item) (it_Version item) in
    tret (match c with Ok (Some v) => Some v | _ => None end)
  else tret None.

Definition settings (item : Item) : P (result string ProfileVersionResponse) :=
  let* c := cached item in
  match c with
  | Some v => tret (Ok v)
  | None =>
      let* f := fetch (it_ID item) (it_Version item) in
      match f with
      | Err e => tret (Err e)
      | Ok v =>
          if sy_Cached sy then
            let* e := CacheProfile (it_ID item) v in
            tret (match e with Err e => Err ("cache the profile: " ++ e)%string | Ok _ => Ok v end)
          else tret (Ok v)
      end
  end.

Definition held_because (v : ProfileVersionResponse) : string :=
  if po_Enforced (sy_Operations sy) then
    match VerifyOp (po_Keys (sy_Operations sy)) (ProfileManifest (pv_Settings v)) (pv_Signature v) with
    | Ok _ => EmptyString
    | Err e => "refused: " ++ opsign_message e
    end
  else EmptyString.

Fixpoint assigned_of (items : list Item) : P (list Assigned) :=
  match items with
  | [] => tret []
  | item :: rest =>
      if negb (String.eqb (it_Kind item) ItemKindProfile) then assigned_of rest
      else
        let* version := settings item in
        match version with
        | Err _ => assigned_of rest
        | Ok v =>
            let* more := assigned_of rest in
            tret (mkAssigned (it_ID item) (it_Version item) (pv_Settings v) (revert_on_removal (it_Options item)) (held_because v) :: more)
        end
  end.

Definition Sync (items : list Item) : P gerror :=
  let* assigned := assigned_of items in
  Reconcile assigned.
End Sync.
End Reconciler.
