(* ===== verification/PolicyPlan.v ===== *)
(** * The policy engine's plan, and what it says about a setting

    The plan of a cycle against a reference definition; the status of each
    setting against what was tested; what a cycle may do to the machine, and
    what a profile must be to be applied. *)
From S2P Require Export SettingsProps PolicyEngine.
Open Scope Z_scope.
Open Scope go_scope.

(** ** The plan *)

Section PlanProps.
Context `{Certificates}.

(** Every claim, in order; those on one identity. *)
Definition all_claims (assigned : list Assigned) : list claim :=
  concat (map (fun a => map (mkClaim (as_ProfileID a)) (as_Settings a)) assigned).
Definition claim_identity (c : claim) : string := Identity (cl_setting c).
Definition claims_on (id : string) (l : list claim) : list claim :=
  List.filter (fun c => String.eqb (claim_identity c) id) l.

Lemma unique_names_snoc l : forall seen x,
  unique_names seen (l ++ [x]) = unique_names seen l ++ (if one_of x (seen ++ l) then [] else [x]).
Proof.
  induction l as [|y l IH]; intros seen x; simpl.
  - rewrite app_nil_r. by destruct (one_of x seen).
  - assert (Hp : one_of x (seen ++ y :: l) = one_of x ((y :: seen) ++ l)).
    { apply eq_iff_eq_true. rewrite !one_of_spec, !elem_of_app, !elem_of_cons. naive_solver. }
    destruct (one_of y seen) eqn:E.
    + rewrite IH, Hp. cbn [app one_of existsb]. f_equal.
      assert (one_of x (seen ++ l) = String.eqb x y || existsb (String.eqb x) (seen ++ l)) as ->; [|done].
      destruct (String.eqb_spec x y) as [->|]; [|done]. apply one_of_spec. apply elem_of_app. left. by apply one_of_spec.
    + simpl. by rewrite IH, Hp.
Qed.

Lemma note_all (acc : list string * gmap string (list claim)) assigned :
  foldl note_profile acc assigned = foldl (fun acc c => note_claim (cl_profileID c) acc (cl_setting c)) acc (all_claims assigned).
Proof.
  revert acc. induction assigned as [|a l IH]; intros acc; [done|]. unfold all_claims. cbn [foldl map concat].
  rewrite foldl_app, IH. f_equal. unfold note_profile. generalize (as_Settings a) as ss. intros ss. revert acc.
  induction ss as [|s ss IHs]; intros acc; [done|]. cbn [foldl map]. by rewrite IHs.
Qed.

Definition some_claims (l : list claim) : option (list claim) := match l with [] => None | _ => Some l end.

Lemma claims_of_spec assigned :
  (claims_of assigned).1 = unique_names [] (map claim_identity (all_claims assigned))
  /\ forall id, (claims_of assigned).2 !! id = some_claims (claims_on id (all_claims assigned)).
Proof.
  unfold claims_of. rewrite note_all. induction (all_claims assigned) as [|c l IH] using rev_ind; [done|].
  rewrite foldl_snoc, map_app. cbn [map]. rewrite unique_names_snoc. destruct IH as [IH1 IH2].
  destruct (foldl _ _ l) as [order m]. simpl in IH1, IH2. unfold note_claim.
  assert (Hc : forall id, claims_on id (l ++ [c]) = claims_on id l ++ (if String.eqb (claim_identity c) id then [c] else [])).
  { intros id. unfold claims_on. rewrite List.filter_app. simpl. by destruct (String.eqb _ id). }
  assert (Hin : one_of (claim_identity c) ([] ++ map claim_identity l) = true <-> claims_on (claim_identity c) l <> []).
  { rewrite one_of_spec. simpl. rewrite list_elem_of_fmap. split.
    - intros (d & E & Hd). intros E0. assert (In d (claims_on (claim_identity c) l)) as Hi; [|by rewrite E0 in Hi].
      apply filter_In. split; [by apply list_elem_of_In|]. rewrite E. apply String.eqb_refl.
    - intros Hn. destruct (claims_on (claim_identity c) l) as [|d r] eqn:E; [done|]. exists d.
      assert (In d (claims_on (claim_identity c) l)) as Hi by (rewrite E; by left).
      apply filter_In in Hi as [Hi He]. apply String.eqb_eq in He. split; [done|]. by apply list_elem_of_In. }
  change (Identity (cl_setting c)) with (claim_identity c). rewrite (IH2 (claim_identity c)).
  destruct (claims_on (claim_identity c) l) as [|d r] eqn:E; cbn [some_claims].
  - assert (one_of (claim_identity c) ([] ++ map claim_identity l) = false) as ->.
    { apply not_true_iff_false. rewrite Hin. naive_solver. }
    split; [cbn [fst]; by rewrite IH1|]. intros id. rewrite Hc. destruct (String.eqb_spec (claim_identity c) id) as [<-|N].
    + cbn [snd]. rewrite lookup_insert_eq, E. by destruct c.
    + cbn [snd]. rewrite lookup_insert_ne by done. by rewrite IH2, app_nil_r.
  - assert (one_of (claim_identity c) ([] ++ map claim_identity l) = true) as -> by (rewrite Hin; naive_solver).
    split; [cbn [fst]; by rewrite app_nil_r, IH1|]. intros id. rewrite Hc. destruct (String.eqb_spec (claim_identity c) id) as [<-|N].
    + cbn [snd]. rewrite lookup_insert_eq, E. by destruct c.
    + cbn [snd]. rewrite lookup_insert_ne by done. by rewrite IH2, app_nil_r.
Qed.

(** The settings of a cycle hold Go ints. *)
Definition in_range_claims (assigned : list Assigned) : Prop :=
  Forall (fun a => Forall ints_in_range (as_Settings a)) assigned.

Lemma all_claims_in assigned c :
  c ∈ all_claims assigned <-> exists a, a ∈ assigned /\ cl_profileID c = as_ProfileID a /\ cl_setting c ∈ as_Settings a.
Proof.
  unfold all_claims. rewrite list_elem_of_In, in_concat. setoid_rewrite <- list_elem_of_In. setoid_rewrite list_elem_of_fmap. split.
  - intros (l & (a & -> & Ha) & Hc). apply list_elem_of_fmap in Hc as (s & -> & Hs). by exists a.
  - intros (a & Ha & E & Hs). eexists. split; [by exists a|]. apply list_elem_of_fmap. exists (cl_setting c).
    split; [|done]. destruct c. simpl in *. by subst.
Qed.

Lemma claims_on_in id l c : c ∈ claims_on id l <-> c ∈ l /\ claim_identity c = id.
Proof. unfold claims_on. by rewrite elem_of_filterb, String.eqb_eq. Qed.

Lemma in_range_claim assigned id c : in_range_claims assigned -> c ∈ claims_on id (all_claims assigned) -> ints_in_range (cl_setting c).
Proof.
  intros Hr [Hc _]%claims_on_in. apply all_claims_in in Hc as (a & Ha & _ & Hs).
  unfold in_range_claims in Hr. rewrite Forall_forall in Hr. specialize (Hr a Ha). rewrite Forall_forall in Hr. by apply Hr.
Qed.

Lemma allSame_iff c cs : Forall (fun c => ints_in_range (cl_setting c)) (c :: cs) ->
  allSame (c :: cs) = true <-> Forall (fun d => cl_setting d = cl_setting c) cs.
Proof.
  intros [Hc Hr]%Forall_cons. unfold allSame. rewrite forallb_forall. rewrite Forall_forall in Hr |- *.
  split; intros Ha d Hd.
  - apply setting_json_inj; [by apply Hr|done|]. apply json_eqb_eq, Ha. by apply list_elem_of_In.
  - apply json_eqb_eq. f_equal. apply Ha. by apply list_elem_of_In.
Qed.

Lemma forallb_false_elem {A} (p : A -> bool) l : forallb p l = false -> exists x, x ∈ l /\ p x = false.
Proof.
  induction l as [|x l IH]; simpl; [done|]. destruct (p x) eqn:E; simpl.
  - intros (y & Hy & ?)%IH. exists y. split; [by apply list_elem_of_further|done].
  - intros _. exists x. split; [apply list_elem_of_here|done].
Qed.

Lemma disagree_iff c cs : Forall (fun c => ints_in_range (cl_setting c)) (c :: cs) ->
  negb (allSame (c :: cs)) = true <-> exists d e, d ∈ c :: cs /\ e ∈ c :: cs /\ cl_setting d <> cl_setting e.
Proof.
  intros Hr. pose proof (allSame_iff c cs Hr) as Hs. rewrite negb_true_iff. split.
  - unfold allSame. intros Hn. destruct (forallb_false_elem _ _ Hn) as (d & Hd & Hne).
    exists d, c. split; [by apply list_elem_of_further|]. split; [apply list_elem_of_here|].
    intros E. rewrite E in Hne. apply not_true_iff_false in Hne. apply Hne. by apply json_eqb_eq.
  - intros (d & e & Hd & He & Hn). apply not_true_iff_false. intros Hf%Hs. rewrite Forall_forall in Hf. apply Hn.
    assert (Hall : forall x, x ∈ c :: cs -> cl_setting x = cl_setting c).
    { intros x [->|Hx]%elem_of_cons; [done|by apply Hf]. }
    by rewrite (Hall d Hd), (Hall e He).
Qed.

Lemma Plan_unfold assigned :
  Plan assigned = concat (map (fun id => decide_action id (claims_on id (all_claims assigned)))
                           (unique_names [] (map claim_identity (all_claims assigned)))).
Proof.
  unfold Plan. destruct (claims_of_spec assigned) as [H1 H2]. destruct (claims_of assigned) as [order m]. simpl in *. subst order.
  f_equal. apply map_ext. intros id. rewrite H2. by destruct (claims_on id _).
Qed.

Lemma unique_names_spec l : forall seen,
  NoDup (unique_names seen l) /\ forall x, x ∈ unique_names seen l <-> x ∈ l /\ x ∉ seen.
Proof.
  induction l as [|y l IH]; intros seen; simpl.
  { split; [constructor|]. intros x. split; [intros Hx; by apply elem_of_nil in Hx|intros [Hx _]; by apply elem_of_nil in Hx]. }
  destruct (one_of y seen) eqn:E.
  - apply one_of_spec in E. destruct (IH seen) as [Hd Hi]. split; [done|]. intros x. rewrite Hi, elem_of_cons. naive_solver.
  - assert (Hy : y ∉ seen) by (rewrite <- one_of_spec; congruence). destruct (IH (y :: seen)) as [Hd Hi]. split.
    + constructor; [|done]. rewrite Hi. intros [_ Hn]. apply Hn. apply list_elem_of_here.
    + intros x. rewrite !elem_of_cons, Hi, elem_of_cons. destruct (decide (x = y)); naive_solver.
Qed.

(** The action of an identity that is claimed. *)
Lemma decide_action_some id l c : c ∈ claims_on id l -> exists d r, claims_on id l = d :: r.
Proof. destruct (claims_on id l) as [|d r]; [intros Hc; by apply elem_of_nil in Hc|]. by exists d, r. Qed.

Lemma Plan_elem assigned a :
  a ∈ Plan assigned <->
  exists d r, claims_on (ac_Identity a) (all_claims assigned) = d :: r
    /\ a = mkAction (ac_Identity a) (cl_setting d) (map cl_profileID (d :: r)) (negb (allSame (d :: r)))
              (if allSame (d :: r) then EmptyString else conflictDetail (map cl_profileID (d :: r))).
Proof.
  rewrite Plan_unfold, list_elem_of_In, in_concat. setoid_rewrite <- list_elem_of_In. setoid_rewrite list_elem_of_fmap. split.
  - intros (l & (id & -> & Hid) & Ha). unfold decide_action in Ha. destruct (claims_on id (all_claims assigned)) as [|d r] eqn:E.
    { by apply elem_of_nil in Ha. }
    apply list_elem_of_singleton in Ha as ->. cbn [ac_Identity]. by exists d, r.
  - intros (d & r & E & Ha). eexists. split; [exists (ac_Identity a); split; [done|]|].
    + apply unique_names_spec. split; [|apply not_elem_of_nil]. apply list_elem_of_fmap. exists d.
      assert (d ∈ claims_on (ac_Identity a) (all_claims assigned)) as [Hd Hi]%claims_on_in by (rewrite E; apply list_elem_of_here).
      by split.
    + rewrite E. unfold decide_action. rewrite Ha at 1. apply list_elem_of_here.
Qed.

Lemma Plan_ids assigned :
  map ac_Identity (Plan assigned) = unique_names [] (map claim_identity (all_claims assigned)).
Proof.
  rewrite Plan_unfold.
  assert (Hall : Forall (fun id => id ∈ map claim_identity (all_claims assigned)) (unique_names [] (map claim_identity (all_claims assigned)))).
  { apply Forall_forall. intros x Hx. by apply unique_names_spec in Hx as [Hx _]. }
  induction Hall as [|id ids Hid _ IH]; [done|]. cbn [map concat]. rewrite map_app, IH.
  apply list_elem_of_fmap in Hid as (c & -> & Hc). unfold decide_action.
  destruct (decide_action_some (claim_identity c) (all_claims assigned) c) as (d & r & ->); [by apply claims_on_in|done].
Qed.

(** C1: the plan of a cycle has one action for every identity some profile
    claims, in the order in which they are first claimed; it is for the first
    claim, names every claimant in order, and is a conflict exactly if two of
    the claims ask for different things. *)
Theorem plan_is_fair assigned :
  in_range_claims assigned ->
  map ac_Identity (Plan assigned) = unique_names [] (map claim_identity (all_claims assigned))
  /\ NoDup (map ac_Identity (Plan assigned))
  /\ forall a, a ∈ Plan assigned ->
       let cs := claims_on (ac_Identity a) (all_claims assigned) in
       head (map cl_setting cs) = Some (ac_Setting a) /\ ac_Profiles a = map cl_profileID cs
       /\ (ac_Conflict a = true <-> exists d e, d ∈ cs /\ e ∈ cs /\ cl_setting d <> cl_setting e).
Proof.
  intros Hr.
  pose proof (Plan_ids assigned) as Hids.
  split; [done|]. split; [rewrite Hids; apply unique_names_spec|].
  intros a (d & r & E & Ha)%Plan_elem. cbv zeta. rewrite E. rewrite Ha. cbn [ac_Identity ac_Setting ac_Profiles ac_Conflict map head].
  split; [done|]. split; [done|]. apply disagree_iff. apply Forall_forall. intros c Hc. rewrite <- E in Hc. by eapply in_range_claim.
Qed.
End PlanProps.
