(* ===== verification/PolicyRuns.v ===== *)
(** * What a cycle of the policy engine does

    The status of a setting against what was tested; what a cycle may ask of
    the machine, whatever the handlers, the server and the buckets do; and
    that an agent built to require it changes nothing that is not signed. *)
From S2P Require Export PolicyPlan.
Open Scope Z_scope.
Open Scope go_scope.

(** ** Lists of calls *)

Section Calls.
Context {W N : Type}.
Implicit Types w : pworld W N.

(** Between two worlds, only calls of one sort were made. *)
Definition calls (R : event -> Prop) w w' : Prop := exists l, p_calls w' = p_calls w ++ l /\ Forall R l.

#[export] Instance calls_preorder R : PreOrder (calls R).
Proof.
  split.
  - intros w. exists []. by rewrite app_nil_r.
  - intros w1 w2 w3 (l1 & E1 & H1) (l2 & E2 & H2). exists (l1 ++ l2). rewrite E2, E1, app_assoc. split; [done|by apply Forall_app].
Qed.

Lemma calls_mono (R R' : event -> Prop) w w' : (forall e, R e -> R' e) -> calls R w w' -> calls R' w w'.
Proof. intros Hi (l & E & Hl). exists l. split; [done|]. by eapply Forall_impl. Qed.

Lemma calls_eq R w w' : p_calls w' = p_calls w -> calls R w w'.
Proof. intros E. exists []. by rewrite app_nil_r. Qed.

(** The two primitive steps. *)
Lemma on_machine_calls {A} e (f : txn W string A) w R : R e -> calls R w (on_machine e f w).2.
Proof. intros He. unfold on_machine. destruct (f _) as [r m] eqn:E. exists [e]. split; [done|]. by constructor. Qed.

Lemma on_machine_tables {A} e (f : txn W string A) w :
  p_prior (on_machine e f w).2 = p_prior w /\ p_records (on_machine e f w).2 = p_records w.
Proof. unfold on_machine. by destruct (f _) as [r m]. Qed.

Lemma access_ok {A} (f : pworld W N -> A * pworld W N) w (Q : result string (result string A) -> pworld W N -> Prop) :
  (forall e fs, Q (Ok (Err e)) (mkPworld (p_machine w) (p_net w) (p_prior w) (p_records w) (p_cache w) fs (p_calls w))) ->
  (forall fs, let '(a, w') := f (mkPworld (p_machine w) (p_net w) (p_prior w) (p_records w) (p_cache w) fs (p_calls w)) in Q (Ok (Ok a)) w') ->
  twp (access f) w Q.
Proof.
  intros He Ho. unfold twp, access. destruct (p_faults w) as [|[e|] fs].
  - specialize (Ho []). simpl. by destruct (f _) as [a w'].
  - apply He.
  - specialize (Ho fs). simpl. by destruct (f _) as [a w'].
Qed.
End Calls.

Lemma app_nil_l_inv {A} (l k : list A) : l = l ++ k -> k = [].
Proof. intros E. apply (app_inv_head l). by rewrite app_nil_r. Qed.

(** ** The status of one setting *)

Section Runs.
Context {W N : Type} `{Certificates} `{ProfileServer N}.
Context (handlers : list (Handler W)).
Abbreviation apply := (apply handlers).
Abbreviation handlerFor := (handlerFor handlers).
Implicit Types w : pworld W N.

(** Noting the prior state looks at the machine at most; it writes at most the
    setting's own entry. *)
Definition noted (s : Setting) (id : string) w w' : Prop :=
  calls (fun e => e = Looked s) w w' /\ p_records w' = p_records w /\ (forall i, i <> id -> p_prior w' !! i = p_prior w !! i).

#[export] Instance noted_preorder s id : PreOrder (noted s id).
Proof.
  split.
  - intros w. by split.
  - intros w1 w2 w3 (C1 & R1 & P1) (C2 & R2 & P2). split; [by etrans|]. split; [congruence|].
    intros i Hi. rewrite P2 by done. by apply P1.
Qed.

Lemma rememberPrior_noted h a : tkeeps (noted (ac_Setting a) (ac_Identity a)) (rememberPrior h a : txn (pworld W N) string unit).
Proof.
  unfold rememberPrior. apply keeps_bind; [apply _| |].
  { intros w. apply (access_ok _ w (fun _ w' => noted (ac_Setting a) (ac_Identity a) w w')); intros; (split; [by apply calls_eq|done]). }
  intros [[p|]|e]; [apply keeps_ret; apply _| |apply keeps_ret; apply _].
  apply keeps_bind; [apply _| |].
  { intros w. destruct (on_machine_tables (Looked (ac_Setting a)) (h_Get h (ac_Setting a)) w) as [E1 E2].
    split; [by apply on_machine_calls|]. split; [done|]. intros i _. by rewrite E1. }
  intros [st|e]; [|apply keeps_ret; apply _]. apply keeps_bind; [apply _| |intros _; apply keeps_ret; apply _].
  intros w. apply (access_ok _ w (fun _ w' => noted (ac_Setting a) (ac_Identity a) w w')); intros.
  - split; [by apply calls_eq|done].
  - split; [by apply calls_eq|]. split; [done|]. intros i Hi. cbn. by rewrite lookup_insert_ne.
Qed.

(** What a status says about what was done. *)
Definition earned (action : Action) w (st : string) w' : Prop :=
  let s := ac_Setting action in
  (st = SettingConflict <-> ac_Conflict action = true)
  /\ (st = SettingConflict -> w' = w)
  /\ (st = SettingCompliant -> exists h m,
        handlerFor (se_Kind s) = Some h /\ h_Test h s (p_machine w) = (Ok (Ok true), m) /\ w' = with_machine m (emit (Tested s) w))
  /\ (st = SettingRemediated -> exists h m,
        handlerFor (se_Kind s) = Some h /\ h_Test h s m = (Ok (Ok true), p_machine w')
        /\ exists l, p_calls w' = p_calls w ++ Tested s :: l ++ [Changed s; Tested s])
  /\ (forall l, p_calls w' = p_calls w ++ l -> Changed s ∈ l -> exists h m,
        handlerFor (se_Kind s) = Some h /\ h_Test h s (p_machine w) = (Ok (Ok false), m)).

(** Nothing but a test was asked for. *)
Lemma earned_untouched action w st w' l0 :
  p_calls w' = p_calls w ++ l0 -> Forall (fun e => e = Tested (ac_Setting action)) l0 ->
  (st = SettingConflict <-> ac_Conflict action = true) -> (st = SettingConflict -> w' = w) ->
  st <> SettingCompliant -> st <> SettingRemediated -> earned action w st w'.
Proof.
  intros E0 Hl0 H1 H2 H3 H4. unfold earned. repeat split; try done; try by apply H1.
  intros l E Hl. rewrite E0 in E. apply app_inv_head in E. subst l. rewrite Forall_forall in Hl0. by apply Hl0 in Hl.
Qed.

(** The first test did not hold. *)
Lemma earned_changed action w st w' h m :
  ac_Conflict action = false -> handlerFor (se_Kind (ac_Setting action)) = Some h ->
  h_Test h (ac_Setting action) (p_machine w) = (Ok (Ok false), m) ->
  st <> SettingConflict -> st <> SettingCompliant ->
  (st = SettingRemediated -> exists m, h_Test h (ac_Setting action) m = (Ok (Ok true), p_machine w')
     /\ exists l, p_calls w' = p_calls w ++ Tested (ac_Setting action) :: l ++ [Changed (ac_Setting action); Tested (ac_Setting action)]) ->
  earned action w st w'.
Proof.
  intros Hc Hh HT H1 H2 H3. unfold earned. rewrite Hc. repeat split; try done.
  - intros Hr%H3. destruct Hr as (m' & ? & ?). by exists h, m'.
  - intros l _ _. by exists h, m.
Qed.

Lemma apply_earned action w :
  exists st detail w', apply action w = (Ok (st, detail), w') /\ earned action w st w'.
Proof.
  unfold PolicyEngine.apply, apply_body. destruct (ac_Conflict action) eqn:Ec.
  { do 3 eexists. split; [reflexivity|]. apply (earned_untouched _ _ _ _ []); rewrite ?app_nil_r, ?Ec; done. }
  destruct (handlerFor _) as [h|] eqn:Eh.
  2: { do 3 eexists. split; [reflexivity|]. apply (earned_untouched _ _ _ _ []); rewrite ?app_nil_r, ?Ec; done. }
  unfold tbind at 1, on_machine at 1. cbn [p_machine emit].
  destruct (h_Test h (ac_Setting action) (p_machine w)) as [[[[]|e]|p] m] eqn:T1.
  - do 3 eexists. split; [reflexivity|]. unfold earned. rewrite Ec, Eh. repeat split; try done.
    + intros _. by exists h, m.
    + intros l E Hl. cbn in E. apply app_inv_head in E. subst l. apply elem_of_cons in Hl as [Hl|Hl]; [done|by apply elem_of_nil in Hl].
  - set (w1 := with_machine m (emit (Tested (ac_Setting action)) w)).
    pose proof (rememberPrior_noted h action w1) as [(l1 & El & _) _].
    unfold tbind at 1. destruct (rememberPrior h action w1) as [[u|p] w2];
      [|do 3 eexists; split; [reflexivity|]; by apply (earned_changed _ _ _ _ h m)].
    unfold tbind at 1, on_machine at 1. destruct (h_Set h (ac_Setting action) _) as [[[e|]|p] m2];
      [do 3 eexists; split; [reflexivity|]; by apply (earned_changed _ _ _ _ h m)|
       |do 3 eexists; split; [reflexivity|]; by apply (earned_changed _ _ _ _ h m)].
    unfold tbind, on_machine. cbn [p_machine emit with_machine].
    destruct (h_Test h (ac_Setting action) m2) as [[[[]|e]|p] m3] eqn:T2; do 3 eexists; (split; [reflexivity|]);
      apply (earned_changed _ _ _ _ h m); try done.
    intros _. exists m2. split; [done|]. exists l1. cbn. cbn in El. rewrite El. by rewrite <- !app_assoc.
  - do 3 eexists. split; [reflexivity|]. apply (earned_untouched _ _ _ _ [Tested (ac_Setting action)]);
      rewrite ?Ec; destruct (he_NotApplicable e); try done; by constructor.
  - do 3 eexists. split; [reflexivity|]. apply (earned_untouched _ _ _ _ [Tested (ac_Setting action)]); rewrite ?Ec; try done; by constructor.
Qed.

(** C1: working on one setting always gives a status, a panicking handler's
    too. A conflict touches nothing. "Compliant" means the handler's test held
    and nothing else was asked of the machine; "remediated" that the first test
    did not hold, the setting was applied, and the last thing done to the
    machine was a test that held; and a setting is never applied where the
    first test did not fail. *)
Theorem status_is_earned action w :
  exists st detail w', apply action w = (Ok (st, detail), w') /\ earned action w st w'.
Proof. apply apply_earned. Qed.

(** ** What one action touches *)

Definition about (s : Setting) (e : event) : Prop := e = Tested s \/ e = Looked s \/ e = Changed s.

(** Only this setting is asked about, and not at all in a conflict; of the
    prior states only its own may change. *)
Definition worked (a : Action) w w' : Prop :=
  calls (fun e => ac_Conflict a = false /\ about (ac_Setting a) e) w w' /\ p_records w' = p_records w
  /\ (forall i, i <> ac_Identity a -> p_prior w' !! i = p_prior w !! i).

#[export] Instance worked_preorder a : PreOrder (worked a).
Proof.
  split.
  - intros w. by split.
  - intros w1 w2 w3 (C1 & R1 & P1) (C2 & R2 & P2). split; [by etrans|]. split; [congruence|].
    intros i Hi. rewrite P2 by done. by apply P1.
Qed.

Lemma on_machine_worked {A} a e (f : txn W string A) :
  ac_Conflict a = false -> about (ac_Setting a) e -> tkeeps (worked a) (on_machine e f : txn (pworld W N) string A).
Proof.
  intros Hc He w. destruct (on_machine_tables e f w) as [E1 E2]. split; [by apply on_machine_calls|]. split; [done|].
  intros i _. by rewrite E1.
Qed.

Lemma apply_worked a w : worked a w (apply a w).2.
Proof.
  assert (Hb : tkeeps (worked a) (apply_body handlers a : txn (pworld W N) string _)).
  { unfold apply_body. destruct (ac_Conflict a) eqn:Ec; [apply keeps_ret; apply _|].
    destruct (handlerFor _) as [h|]; [|apply keeps_ret; apply _].
    apply keeps_bind; [apply _|apply on_machine_worked; [done|by left]|].
    intros [[]|e]; [apply keeps_ret; apply _| |apply keeps_ret; apply _].
    apply keeps_bind; [apply _| |intros _].
    { intros w0. destruct (rememberPrior_noted h a w0) as (C & R & P). split; [|by split].
      eapply calls_mono; [|exact C]. intros e ->. split; [done|]. right. by left. }
    apply keeps_bind; [apply _|apply on_machine_worked; [done|right; by right]|].
    intros [e|]; [apply keeps_ret; apply _|].
    apply keeps_bind; [apply _|apply on_machine_worked; [done|by left]|].
    intros [[]|e]; apply keeps_ret; apply _. }
  specialize (Hb w). unfold PolicyEngine.apply. by destruct (apply_body handlers a w) as [[x|p] w'].
Qed.

(** *** All of them *)

Definition agreed (assigned : list Assigned) (s : Setting) : Prop :=
  (exists c, c ∈ all_claims assigned /\ cl_setting c = s)
  /\ forall c, c ∈ all_claims assigned -> claim_identity c = Identity s -> cl_setting c = s.

Lemma Plan_agreed assigned a : in_range_claims assigned -> a ∈ Plan assigned -> ac_Conflict a = false ->
  agreed assigned (ac_Setting a) /\ Identity (ac_Setting a) = ac_Identity a.
Proof.
  intros Hr (d & r & E & Ha)%Plan_elem Hc. rewrite Ha in Hc. cbn [ac_Conflict] in Hc. apply negb_false_iff in Hc.
  assert (Hd : d ∈ claims_on (ac_Identity a) (all_claims assigned)) by (rewrite E; apply list_elem_of_here).
  apply claims_on_in in Hd as [Hd Hi].
  assert (Es : ac_Setting a = cl_setting d) by (by rewrite Ha).
  rewrite allSame_iff, Forall_forall in Hc.
  2: { rewrite <- E. apply Forall_forall. intros c Hx. by eapply in_range_claim. }
  rewrite Es. split; [|done]. split; [by exists d|]. intros c Hcl Ec.
  assert (Hin : c ∈ claims_on (ac_Identity a) (all_claims assigned)) by (apply claims_on_in; split; [done|]; rewrite Ec; done).
  rewrite E in Hin. apply elem_of_cons in Hin as [->|Hin]; [done|by apply Hc].
Qed.

Lemma Plan_claimed assigned a : a ∈ Plan assigned -> ac_Identity a ∈ concat (map identities_of assigned).
Proof.
  intros (d & r & E & _)%Plan_elem.
  assert (Hd : d ∈ claims_on (ac_Identity a) (all_claims assigned)) by (rewrite E; apply list_elem_of_here).
  apply claims_on_in in Hd as [(x & Hx & _ & Hs)%all_claims_in <-].
  apply list_elem_of_In, in_concat. exists (identities_of x). rewrite <- !list_elem_of_In. split.
  - apply list_elem_of_fmap. by exists x.
  - apply list_elem_of_fmap. by exists (cl_setting d).
Qed.

Definition claimed (assigned : list Assigned) : list string := concat (map identities_of assigned).

Lemma active_claimed assigned i : i ∈ claimed (active assigned) -> i ∈ claimed assigned.
Proof.
  unfold claimed. rewrite !list_elem_of_In, !in_concat. intros (l & Hl & Hi). exists l. split; [|done].
  revert Hl. rewrite <- !list_elem_of_In, !list_elem_of_fmap. intros (x & -> & Hx). exists x. split; [done|].
  unfold active in Hx. by apply elem_of_filterb in Hx as [Hx _].
Qed.

Definition all_worked (assigned : list Assigned) w w' : Prop :=
  calls (fun e => exists a, a ∈ Plan assigned /\ ac_Conflict a = false /\ about (ac_Setting a) e) w w' /\ p_records w' = p_records w
  /\ (forall i, i ∉ claimed assigned -> p_prior w' !! i = p_prior w !! i).

#[export] Instance all_worked_preorder l : PreOrder (all_worked l).
Proof.
  split.
  - intros w. by split.
  - intros w1 w2 w3 (C1 & R1 & P1) (C2 & R2 & P2). split; [by etrans|]. split; [congruence|].
    intros i Hi. rewrite P2 by done. by apply P1.
Qed.

Lemma apply_all_worked assigned actions : Forall (fun a => a ∈ Plan assigned) actions ->
  forall results, tkeeps (all_worked assigned) (apply_all handlers actions results : txn (pworld W N) string _).
Proof.
  induction 1 as [|a actions Ha _ IH]; intros results; cbn [apply_all]; [apply keeps_ret; apply _|].
  apply keeps_bind; [apply _| |intros sd; apply IH].
  intros w. destruct (apply_worked a w) as (C & R & P). split; [|split; [done|]].
  - eapply calls_mono; [|exact C]. intros e [Hc He]. by exists a.
  - intros i Hi. apply P. intros ->. by apply Hi, Plan_claimed.
Qed.

(** ** Undoing *)

Context (range : gmap string ProfileRecord -> list (string * ProfileRecord)).
Hypothesis range_lists : forall m, Permutation (range m) (map_to_list m).

(** What may be undone on account of a record: a setting of its profile that
    is not claimed, put back to the state noted for it. *)
Definition undoes (assigned : list Assigned) (prior : gmap string json) (rec : ProfileRecord) (e : event) : Prop :=
  exists i raw p, i ∈ pr_Identities rec /\ (i ∉ claimed assigned) /\ prior !! i = Some raw /\ decode_prior raw = Ok p
    /\ e = Undone (pi_Setting p) (pi_State p).

(** Calls of a sort are made and no prior state appears. *)
Definition shrinks (prior : gmap string json) (R : event -> Prop) w w' : Prop :=
  p_prior w ⊆ prior -> calls R w w' /\ p_prior w' ⊆ prior.

#[export] Instance shrinks_preorder prior R : PreOrder (shrinks prior R).
Proof.
  split.
  - intros w Hw. by split.
  - intros w1 w2 w3 H1 H2 Hw. destruct (H1 Hw) as [C1 P1], (H2 P1) as [C2 P2]. split; [by etrans|done].
Qed.

Lemma PriorState_read id w :
  p_prior (PriorState id w).2 = p_prior w /\ p_calls (PriorState id w).2 = p_calls w
  /\ forall o, (PriorState id w).1 = Ok (Ok o) -> o = p_prior w !! id.
Proof. apply (access_ok _ w (fun x w' => p_prior w' = p_prior w /\ p_calls w' = p_calls w /\ forall o, x = Ok (Ok o) -> o = p_prior w !! id));
  intros; repeat split; try done; by intros o [= <-]. Qed.

Lemma keeps_read {A B} (R : pworld W N -> pworld W N -> Prop) `{!PreOrder R} (m : txn (pworld W N) string A) (f : A -> txn (pworld W N) string B) w :
  R w (m w).2 -> (forall a, (m w).1 = Ok a -> R (m w).2 (f a (m w).2).2) -> R w (tbind m f w).2.
Proof. unfold tbind. destruct (m w) as [[a|e] w1]; simpl; intros H1 H2; [|done]. etrans; [done|]. by apply H2. Qed.

Lemma revert_undoes assigned prior rec ids : (forall i, i ∈ ids -> i ∈ pr_Identities rec) ->
  tkeeps (shrinks prior (undoes assigned prior rec)) (revert handlers ids (fun i => one_of i (claimed assigned)) : txn (pworld W N) string unit).
Proof.
  induction ids as [|id ids IH]; intros Hids; cbn [revert]; [apply keeps_ret; apply _|].
  assert (Hrec : tkeeps (shrinks prior (undoes assigned prior rec)) (revert handlers ids (fun i => one_of i (claimed assigned)) : txn (pworld W N) string unit)).
  { apply IH. intros i Hi. apply Hids. by apply list_elem_of_further. }
  destruct (one_of id (claimed assigned)) eqn:Ec; [done|].
  assert (Hc : id ∉ claimed assigned) by (rewrite <- one_of_spec; congruence).
  intros w Hw. destruct (PriorState_read id w) as (P1 & C1 & Hr).
  apply (keeps_read (shrinks prior (undoes assigned prior rec))); [|intros o Ho|done].
  { intros _. split; [by apply calls_eq|by rewrite P1]. }
  destruct o as [[raw|]|e]; [|apply Hrec|apply Hrec].
  specialize (Hr _ Ho). symmetry in Hr. destruct (decode_prior raw) as [pr|e] eqn:Ed; [|apply Hrec].
  destruct (handlerFor _) as [h|]; [|apply Hrec]. destruct (h_Revert h) as [undo|]; [|apply Hrec].
  apply keeps_bind; [apply _| |intros [e|]; [apply Hrec|]].
  - intros w0 Hw0. destruct (on_machine_tables (Undone (pi_Setting pr) (pi_State pr)) (undo (pi_Setting pr) (pi_State pr)) w0) as [E1 _].
    split; [|by rewrite E1]. apply on_machine_calls. exists id, raw, pr. split; [apply Hids, list_elem_of_here|].
    split; [done|]. split; [by eapply lookup_weaken|done].
  - apply keeps_bind; [apply _| |intros _; apply Hrec].
    intros w0. unfold DeletePriorState.
    apply (access_ok _ w0 (fun _ w' => shrinks prior (undoes assigned prior rec) w0 w')); intros.
    + intros Hw0. split; [by apply calls_eq|done].
    + intros Hw0. split; [by apply calls_eq|]. cbn. etrans; [apply delete_subseteq|done].
Qed.

(** A record of a profile that is no longer assigned and asked to be undone. *)
Definition forgets (assigned : list Assigned) (prior : gmap string json) (records : gmap string ProfileRecord) (e : event) : Prop :=
  exists id rec, records !! id = Some rec /\ (id ∉ map as_ProfileID assigned) /\ pr_RevertOnRemoval rec = true /\ undoes assigned prior rec e.

Lemma forget_loop_undoes assigned prior records l : (forall kv, kv ∈ l -> records !! kv.1 = Some kv.2) ->
  tkeeps (shrinks prior (forgets assigned prior records)) (forget_loop handlers assigned l : txn (pworld W N) string unit).
Proof.
  induction l as [|[id rec] l IH]; intros Hl; cbn [forget_loop]; [apply keeps_ret; apply _|].
  assert (Hrec : tkeeps (shrinks prior (forgets assigned prior records)) (forget_loop handlers assigned l : txn (pworld W N) string unit)).
  { apply IH. intros kv Hi. apply Hl. by apply list_elem_of_further. }
  destruct (one_of id (map as_ProfileID assigned)) eqn:Eid; [done|].
  assert (Hid : id ∉ map as_ProfileID assigned) by (rewrite <- one_of_spec; congruence).
  pose proof (Hl (id, rec) (list_elem_of_here _ _)) as Hr. cbn in Hr.
  apply keeps_bind; [apply _| |intros _].
  { destruct (pr_RevertOnRemoval rec) eqn:Er; [|apply keeps_ret; apply _].
    intros w Hw. destruct (revert_undoes assigned prior rec (pr_Identities rec) (fun i Hi => Hi) w Hw) as [C P].
    split; [|done]. eapply calls_mono; [|exact C]. intros e He. by exists id, rec. }
  apply keeps_bind; [apply _| |intros [u|e]; [apply Hrec|apply keeps_ret; apply _]].
  intros w0. unfold DeleteProfileRecord.
  apply (access_ok _ w0 (fun _ w' => shrinks prior (forgets assigned prior records) w0 w')); intros; intros Hw0; (split; [by apply calls_eq|done]).
Qed.

Lemma forgetRemoved_undoes assigned prior records w : p_records w = records -> p_prior w ⊆ prior ->
  calls (forgets assigned prior records) w (forgetRemoved handlers range assigned w).2.
Proof.
  intros <- Hw. unfold forgetRemoved.
  assert (Hk : shrinks prior (forgets assigned prior (p_records w)) w
    (tbind ProfileRecords (fun records => match records with Ok m => forget_loop handlers assigned (range m) | Err _ => tret tt end) w).2).
  2: { by destruct (Hk Hw). }
  assert (Hp : p_prior (ProfileRecords w).2 = p_prior w /\ p_calls (ProfileRecords w).2 = p_calls w
    /\ forall m, (ProfileRecords w).1 = Ok (Ok m) -> m = p_records w).
  { apply (access_ok _ w (fun x w' => p_prior w' = p_prior w /\ p_calls w' = p_calls w /\ forall m, x = Ok (Ok m) -> m = p_records w));
      intros; repeat split; try done; by intros m [= <-]. }
  destruct Hp as (P1 & C1 & Hm). apply (keeps_read (shrinks prior _)).
  { intros _. split; [by apply calls_eq|by rewrite P1]. }
  intros [m|e] Ho; [|apply keeps_ret; apply _]. apply forget_loop_undoes. intros kv Hkv.
  rewrite (range_lists m) in Hkv. rewrite <- (Hm m Ho). destruct kv. by apply elem_of_map_to_list.
Qed.

(** ** A cycle *)

(** What a cycle may ask for: settings of a good sort; undoing; and reports on
    the assigned profiles. *)
Definition allowed (good : Setting -> Prop) (assigned : list Assigned) (prior : gmap string json) (records : gmap string ProfileRecord)
    (e : event) : Prop :=
  match e with
  | Tested s | Looked s | Changed s => good s
  | Undone _ _ => forgets assigned prior records e
  | Reported id st => exists a, a ∈ assigned /\ as_ProfileID a = id /\ as_Version a = ps_Version st
  end.

Lemma record_profiles_calls R l : tkeeps (calls R) (record_profiles l : txn (pworld W N) string unit).
Proof.
  induction l as [|a l IH]; cbn [record_profiles]; [apply keeps_ret; apply _|].
  apply keeps_bind; [apply _| |intros _; exact IH]. intros w. unfold SetProfileRecord.
  apply (access_ok _ w (fun _ w' => calls R w w')); intros; by apply calls_eq.
Qed.

Lemma report_all_calls (R : event -> Prop) results l e : (forall a st, a ∈ l -> ps_Version st = as_Version a -> R (Reported (as_ProfileID a) st)) ->
  tkeeps (calls R) (report_all results l e : txn (pworld W N) string gerror).
Proof.
  revert e. induction l as [|a l IH]; intros e Hl; cbn [report_all]; [apply keeps_ret; apply _|].
  apply keeps_bind; [apply _| |intros x; apply IH; intros; apply Hl; [by apply list_elem_of_further|done]].
  intros w. unfold report. destruct (ReportProfileStatus _ _ _) as [x n]. eexists [_]. split; [reflexivity|].
  constructor; [|constructor]. by apply Hl; [apply list_elem_of_here|].
Qed.

Lemma undone_allowed good assigned prior records e : forgets assigned prior records e -> allowed good assigned prior records e.
Proof. intros He. assert (exists s st, e = Undone s st) as (s & st & ->) by (destruct He as (? & ? & _ & _ & _ & ? & ? & ? & _ & _ & _ & _ & ->); eauto). done. Qed.

Lemma about_allowed (good : Setting -> Prop) assigned prior records e s : good s -> about s e -> allowed good assigned prior records e.
Proof. by intros Hs [-> | [-> | ->]]. Qed.

Lemma forgets_prior assigned p1 p2 records e : (forall i, i ∉ claimed assigned -> p2 !! i = p1 !! i) ->
  forgets assigned p2 records e -> forgets assigned p1 records e.
Proof.
  intros Hp (id & rec & H1 & H2 & H3 & (i & raw & p & H4 & H5 & H6 & H7 & ->)). exists id, rec. split; [done|]. split; [done|].
  split; [done|]. exists i, raw, p. split; [done|]. split; [done|]. split; [by rewrite <- Hp|]. by split.
Qed.

Lemma Reconcile_allowed (good : Setting -> Prop) assigned w :
  (forall a, a ∈ Plan (active assigned) -> ac_Conflict a = false -> good (ac_Setting a)) ->
  calls (allowed good assigned (p_prior w) (p_records w)) w (Reconcile handlers range assigned w).2.
Proof.
  intros Hg. unfold Reconcile. set (R := allowed good assigned (p_prior w) (p_records w)).
  destruct (apply_all_worked (active assigned) (Plan (active assigned)) (proj2 (Forall_forall _ _) (fun a Ha => Ha)) (start_results assigned) w)
    as (C1 & R1 & P1).
  apply (keeps_read (calls R)).
  { eapply calls_mono; [|exact C1]. intros e (a & Ha & Hc & He). apply (about_allowed _ _ _ _ _ (ac_Setting a)); [by apply Hg|done]. }
  intros results _. set (w1 := (apply_all _ _ _ w).2) in *. apply (keeps_read (calls R)).
  { eapply calls_mono; [|by apply (forgetRemoved_undoes assigned (p_prior w1) (p_records w) w1)].
    intros e He. apply undone_allowed. eapply forgets_prior; [|exact He]. intros i Hi. apply P1. intros Ha. by apply Hi, active_claimed. }
  intros _ _. apply keeps_bind; [apply _|apply record_profiles_calls|]. intros _. apply report_all_calls.
  intros a st Ha Hv. exists a. by repeat split.
Qed.

(** C14. C1: whatever the handlers, the server and the buckets do, a cycle tests,
    looks at and changes only settings on which every profile that claims them
    and is not held agrees; it undoes only settings nobody claims, of profiles
    no longer assigned that asked for it, and puts back only what was noted
    for them; and it reports on the assigned profiles, at the versions
    assigned. *)
Theorem changes_are_agreed assigned w :
  in_range_claims (active assigned) ->
  calls (allowed (agreed (active assigned)) assigned (p_prior w) (p_records w)) w (Reconcile handlers range assigned w).2.
Proof. intros Hr. apply Reconcile_allowed. intros a Ha Hc. by apply Plan_agreed. Qed.

(** ** Signed profiles *)

Section Signed.
Context `{Crypto} (json_text : json -> string) (sy : PolicySyncer).

(** A version of a profile that the operations keys vouch for. *)
Definition vouched (s : Setting) : Prop :=
  exists v, s ∈ pv_Settings v
    /\ VerifyOp (po_Keys (sy_Operations sy)) (ProfileManifest json_text (pv_Settings v)) (pv_Signature v) = Ok tt.

Lemma access_calls {A} (f : pworld W N -> A * pworld W N) R : (forall w, p_calls (f w).2 = p_calls w) -> tkeeps (calls R) (access f).
Proof.
  intros Hf w. apply (access_ok f w (fun _ w' => calls R w w')); intros; [by apply calls_eq|].
  specialize (Hf (mkPworld (p_machine w) (p_net w) (p_prior w) (p_records w) (p_cache w) fs (p_calls w))).
  destruct (f _) as [a w']. by apply calls_eq.
Qed.

Lemma settings_calls R item : tkeeps (calls R) (settings sy item : txn (pworld W N) string _).
Proof.
  unfold settings, cached, fetch. apply keeps_bind; [apply _| |].
  { destruct (sy_Cached sy); [|apply keeps_ret; apply _]. apply keeps_bind; [apply _|by apply access_calls|].
    intros c. apply keeps_ret. apply _. }
  intros [v|]; [apply keeps_ret; apply _|]. apply keeps_bind; [apply _| |].
  { intros w. destruct (FetchProfile _ _ _) as [r n]. by apply calls_eq. }
  intros [v|e]; [|apply keeps_ret; apply _]. destruct (sy_Cached sy); [|apply keeps_ret; apply _].
  apply keeps_bind; [apply _|by apply access_calls|]. intros e. apply keeps_ret. apply _.
Qed.

(** What is assigned: nothing is asked of the machine to find out, and each
    profile is held unless its version is vouched for. *)
Lemma assigned_of_spec R items w : calls R w (assigned_of json_text sy items w).2
  /\ forall l, (assigned_of json_text sy items w).1 = Ok l ->
       Forall (fun a => exists v, as_Settings a = pv_Settings v /\ as_Held a = held_because json_text sy v) l.
Proof.
  revert w. induction items as [|item items IH]; intros w; cbn [assigned_of].
  { split; [by apply calls_eq|]. by intros l [= <-]. }
  destruct (negb _); [apply IH|]. unfold tbind at 1 3. pose proof (settings_calls R item w) as Hc.
  destruct (settings sy item w) as [[[v|e]|p] w1]; cbn [fst snd] in *.
  - unfold tbind, tret. destruct (IH w1) as [C2 Hl2]. destruct (assigned_of json_text sy items w1) as [[l|p] w2]; cbn [fst snd] in *.
    + split; [by etrans|]. intros l' [= <-]. constructor; [by exists v|by apply Hl2].
    + split; [by etrans|done].
  - destruct (IH w1) as [C2 Hl2]. split; [by etrans|done].
  - split; [done|done].
Qed.

(** C1: an agent built to require it tests and changes only settings of
    profile versions signed by a trusted operations key, whatever the server
    sends and whatever is in its cache. *)
Theorem only_signed_settings_apply items w :
  po_Enforced (sy_Operations sy) = true ->
  calls (fun e => match e with Tested s | Looked s | Changed s => vouched s | _ => True end)
    w (Sync handlers range json_text sy items w).2.
Proof.
  intros Hen. unfold Sync. set (R := fun e => _). destruct (assigned_of_spec R items w) as [C1 Ha1].
  unfold tbind. destruct (assigned_of json_text sy items w) as [[l|p] w1]; cbn [fst snd] in *; [|done].
  specialize (Ha1 l eq_refl). etrans; [done|]. eapply calls_mono; [|apply (Reconcile_allowed vouched)].
  - by intros [].
  - intros a (d & r & E & Ha)%Plan_elem _. rewrite Ha. cbn [ac_Setting].
    assert (Hd : d ∈ claims_on (ac_Identity a) (all_claims (active l))) by (rewrite E; apply list_elem_of_here).
    apply claims_on_in in Hd as [(x & Hx & _ & Hs)%all_claims_in _]. unfold active in Hx. apply elem_of_filterb in Hx as [Hx Hh].
    apply String.eqb_eq in Hh. rewrite Forall_forall in Ha1. destruct (Ha1 x Hx) as (v & Ev & Eh). exists v. split; [by rewrite <- Ev|].
    rewrite Hh in Eh. unfold held_because in Eh. rewrite Hen in Eh. destruct (VerifyOp _ _ _) as [[]|e]; [done|discriminate].
Qed.
End Signed.
End Runs.
