(* ===== verification/PolicyUndo.v ===== *)
(** * Undoing what profiles did

    What is noted before a setting is first changed survives any number of
    cycles, and putting it back gives the machine what it had - for handlers
    that keep to their own setting and whose undoing undoes. *)
From S2P Require Export PolicyRuns.
Open Scope Z_scope.
Open Scope go_scope.

(** ** A prior state's JSON *)

Lemma state_roundtrip s z : st_Data z = None -> decode_struct false state_fields (state_json s) z = Ok s.
Proof. destruct s as [e [d|]], z as [e' d']; simpl; intros ->; done. Qed.

Lemma prior_roundtrip p : ints_in_range (pi_Setting p) -> decode_prior (prior_json p) = Ok p.
Proof.
  intros Hi. destruct p as [k s st]. cbn [pi_Setting] in Hi. unfold decode_prior, prior_json, decode_struct.
  cbn [pi_Kind pi_Setting pi_State].
  change [("kind"%string, JStr k); ("setting"%string, setting_json s); ("state"%string, state_json st)]
    with ([("kind"%string, JStr k)] ++ [("setting"%string, setting_json s)] ++ [("state"%string, state_json st)]).
  rewrite decode_members_app, (decode_one prior_fields "kind" _ _ _ ltac:(reflexivity)). cbn [snd string_field rbind].
  rewrite decode_members_app, (decode_one prior_fields "setting" _ _ _ ltac:(reflexivity)). cbn [snd struct_field pi_Setting].
  change (decode_struct false setting_fields (setting_json s) zero_setting) with (decode_setting (setting_json s)).
  rewrite (setting_decodes s Hi). cbn [rbind].
  rewrite (decode_one prior_fields "state" _ _ _ ltac:(reflexivity)). cbn [snd struct_field pi_State].
  by rewrite state_roundtrip.
Qed.

(** ** Handlers that keep to their setting *)

(** The handler that is asked about a setting. *)
Definition handles `{Certificates} {W} (handlers : list (Handler W)) (P : Setting -> Prop) (h : Handler W) (s : Setting) : Prop :=
  handlerFor handlers (se_Kind s) = Some h /\ P s.

(** What a machine has under an identity, and how settings of a sort [P] are
    treated: tests and looks change nothing, and setting and undoing change the
    setting's own identity at most. *)
Class LocalHandlers `{Certificates} {W V : Type} (look : W -> string -> V) (handlers : list (Handler W)) (P : Setting -> Prop) : Prop := {
  test_looks h s m : handles handlers P h s -> (h_Test h s m).2 = m;
  get_looks h s m : handles handlers P h s -> (h_Get h s m).2 = m;
  set_local h s m i : handles handlers P h s -> i <> Identity s -> look (h_Set h s m).2 i = look m i;
  revert_local h undo s st m i : handles handlers P h s -> h_Revert h = Some undo -> i <> Identity s -> look (undo s st m).2 i = look m i }.

(** A handler that finds a difference can say what is there; it can undo, and
    undoing that works puts back what was said. *)
Class UndoingHandlers `{Certificates} {W V : Type} (look : W -> string -> V) (handlers : list (Handler W)) (P : Setting -> Prop) : Prop := {
  get_answers h s m : handles handlers P h s -> (h_Test h s m).1 = Ok (Ok false) -> exists st, (h_Get h s m).1 = Ok (Ok st);
  undo_returns h s : handles handlers P h s -> exists undo, h_Revert h = Some undo /\ forall st m, exists r, (undo s st m).1 = Ok r;
  revert_restores h undo s st m n : handles handlers P h s -> h_Revert h = Some undo ->
    (h_Get h s m).1 = Ok (Ok st) -> (undo s st n).1 = Ok None -> look (undo s st n).2 (Identity s) = look m (Identity s) }.

(** What a machine allows that no handler takes away. *)
Record steady `{Certificates} {W : Type} (handlers : list (Handler W)) (P : Setting -> Prop) (lets : W -> Prop) : Prop := {
  steady_set h s m : handles handlers P h s -> lets m -> lets (h_Set h s m).2;
  steady_undo h undo s st m : handles handlers P h s -> h_Revert h = Some undo -> lets m -> lets (undo s st m).2 }.
Arguments steady_set {_ W handlers P lets}.
Arguments steady_undo {_ W handlers P lets}.

(** All settings of some profiles. *)
Definition all_settings (P : Setting -> Prop) (assigned : list Assigned) : Prop := Forall (fun a => Forall P (as_Settings a)) assigned.

Section Undo.
Context {W N V : Type} `{Certificates} `{ProfileServer N} (look : W -> string -> V) (handlers : list (Handler W)) (P : Setting -> Prop).
Context `{!LocalHandlers look handlers P, !UndoingHandlers look handlers P}.
Context (range : gmap string ProfileRecord -> list (string * ProfileRecord)).
Hypothesis range_lists : forall m, Permutation (range m) (map_to_list m).
Implicit Types w : pworld W N.

(** *** The invariant, for an identity [i] that had [v] before anyone managed it *)

Context (i : string) (v : V) (lets : W -> Prop) (Hlets : steady handlers P lets).

(** An entry of the table of prior states can be read, is about its own
    identity, and says what a machine that had [v] said. *)
Definition entry_ok (j : string) (raw : json) : Prop :=
  exists p, decode_prior raw = Ok p /\ Identity (pi_Setting p) = j /\ P (pi_Setting p) /\ pi_Kind p = se_Kind (pi_Setting p) /\
    (j = i -> exists h m, handlerFor handlers (pi_Kind p) = Some h /\ (h_Get h (pi_Setting p) m).1 = Ok (Ok (pi_State p)) /\ look m i = v).

Definition sound w : Prop :=
  p_faults w = [] /\ (forall j raw, p_prior w !! j = Some raw -> entry_ok j raw)
  /\ (p_prior w !! i = None -> look (p_machine w) i = v) /\ lets (p_machine w).

Definition stays w w' : Prop := sound w -> sound w'.

#[local] Instance stays_preorder : PreOrder stays.
Proof. split; unfold stays; [intros w; exact (fun x => x)|intros w1 w2 w3; auto]. Qed.

(** The same entries, the same thing under [i]. *)
Lemma sound_frame w w' : p_faults w' = p_faults w -> p_prior w' = p_prior w -> p_machine w' = p_machine w -> stays w w'.
Proof. intros E1 E2 E3 (S1 & S2 & S3 & S4). unfold sound. rewrite E1, E2, E3. by repeat split. Qed.

Lemma on_machine_shape {A} e (f : txn W string A) w :
  p_faults (on_machine e f w).2 = p_faults w /\ p_prior (on_machine e f w).2 = p_prior w
  /\ p_machine (on_machine e f w).2 = (f (p_machine w)).2 /\ (on_machine e f w).1 = (f (p_machine w)).1.
Proof. unfold on_machine. cbn [p_machine emit]. by destruct (f (p_machine w)) as [r m]. Qed.

(** A call that leaves [i] alone, or happens when the original is noted. *)
Lemma on_machine_stays {A} e (f : txn W string A) w :
  (p_prior w !! i = None -> look (f (p_machine w)).2 i = look (p_machine w) i) -> (lets (p_machine w) -> lets (f (p_machine w)).2) ->
  stays w (on_machine e f w).2.
Proof.
  intros Hf Hm (S1 & S2 & S3 & S4). destruct (on_machine_shape e f w) as (E1 & E2 & E3 & _). unfold sound. rewrite E1, E2, E3.
  split; [done|]. split; [done|]. split; [|auto]. intros Hn. rewrite Hf by done. by apply S3.
Qed.

(** Buckets that work. *)
Lemma access_works {A} (f : pworld W N -> A * pworld W N) w : p_faults w = [] ->
  access f w = (Ok (Ok (f w).1), (f w).2).
Proof. intros E. unfold access. rewrite E. cbn [tail]. destruct w; cbn in *; subst. by destruct (f _). Qed.

Lemma sound_insert w id raw : entry_ok id raw -> stays w (with_prior (<[id := raw]> (p_prior w)) w).
Proof.
  intros He (S1 & S2 & S3 & S4). split; [done|]. cbn [p_prior p_machine with_prior]. split; [|split; [|done]].
  - intros j r. destruct (decide (j = id)) as [->|Hj]; [rewrite lookup_insert_eq; by intros [= <-]|rewrite lookup_insert_ne by done; apply S2].
  - intros Hn. apply S3. destruct (decide (i = id)) as [->|Hi]; [by rewrite lookup_insert_eq in Hn|by rewrite lookup_insert_ne in Hn by done].
Qed.

Lemma sound_delete w id : (id = i -> look (p_machine w) i = v) -> stays w (with_prior (delete id (p_prior w)) w).
Proof.
  intros He (S1 & S2 & S3 & S4). split; [done|]. cbn [p_prior p_machine with_prior]. split; [|split; [|done]].
  - intros j r. destruct (decide (j = id)) as [->|Hj]; [by rewrite lookup_delete_eq|rewrite lookup_delete_ne by done; apply S2].
  - intros Hn. destruct (decide (i = id)) as [->|Hi]; [by apply He|]. apply S3. by rewrite lookup_delete_ne in Hn by done.
Qed.

(** *** One action *)

(** When the first test found a difference, the original is noted. *)
Lemma rememberPrior_notes h a w m :
  handles handlers P h (ac_Setting a) -> ints_in_range (ac_Setting a) -> Identity (ac_Setting a) = ac_Identity a ->
  (h_Test h (ac_Setting a) m).1 = Ok (Ok false) -> p_machine w = (h_Test h (ac_Setting a) m).2 -> sound w ->
  exists w', rememberPrior h a w = (Ok tt, w') /\ sound w' /\ is_Some (p_prior w' !! ac_Identity a).
Proof.
  intros Hin Hi Hid HT Hm Hw. pose proof Hin as [Hh HP]. pose proof Hw as (S1 & S2 & S3 & S4).
  unfold rememberPrior, PriorState. unfold tbind at 1. rewrite access_works by done. cbn [fst snd].
  destruct (p_prior w !! ac_Identity a) as [raw|] eqn:Ep; [exists w; split; [done|]; split; [done|]; by rewrite Ep|].
  destruct (get_answers h (ac_Setting a) m Hin HT) as [st Hst]. rewrite test_looks in Hm by done. rewrite <- Hm in Hst.
  pose proof (on_machine_shape (Looked (ac_Setting a)) (h_Get h (ac_Setting a)) w) as (E1 & E2 & E3 & E4).
  assert (Hs1 : sound (on_machine (Looked (ac_Setting a)) (h_Get h (ac_Setting a)) w).2).
  { apply on_machine_stays; [| |done]; by rewrite get_looks. }
  unfold tbind at 1. destruct (on_machine _ _ w) as [r w1]. cbn [fst snd] in *. subst r. rewrite Hst.
  unfold SetPriorState. unfold tbind. rewrite access_works by congruence. cbn [fst snd].
  eexists. split; [reflexivity|]. split; [|cbn [p_prior with_prior]; by rewrite lookup_insert_eq].
  apply sound_insert; [|done]. eexists. split; [by apply prior_roundtrip|]. split; [done|].
  split; [done|]. split; [done|]. intros Ei. rewrite Ei in Ep. exists h, (p_machine w). split; [done|]. split; [done|]. by apply S3.
Qed.

(** What an action of the plan is like. *)
Definition proper (a : Action) : Prop := ints_in_range (ac_Setting a) /\ Identity (ac_Setting a) = ac_Identity a /\ P (ac_Setting a).

Lemma apply_stays a : proper a -> tkeeps stays (apply handlers a : txn (pworld W N) string _).
Proof.
  intros (Hi & Hid & HP) w Hw. assert (Hb : sound (apply_body handlers a w).2).
  2: { unfold apply. by destruct (apply_body handlers a w) as [[x|p] w']. }
  unfold apply_body. destruct (ac_Conflict a); [done|]. destruct (handlerFor _ _) as [h|] eqn:Hh; [|done].
  assert (Hin : handles handlers P h (ac_Setting a)) by done.
  pose proof (on_machine_shape (Tested (ac_Setting a)) (h_Test h (ac_Setting a)) w) as (_ & _ & E3 & E4).
  assert (Hs1 : sound (on_machine (Tested (ac_Setting a)) (h_Test h (ac_Setting a)) w).2).
  { apply on_machine_stays; [| |done]; by rewrite test_looks. }
  unfold tbind at 1. destruct (on_machine _ _ w) as [r w1]. cbn [fst snd] in *. destruct r as [[[]|e]|p]; [done| |done|done].
  destruct (rememberPrior_notes h a w1 (p_machine w) Hin Hi Hid (eq_sym E4) E3 Hs1) as (w2 & Er & Hs2 & Hn).
  unfold tbind at 1. rewrite Er. cbn [fst snd].
  assert (Hs3 : sound (on_machine (Changed (ac_Setting a)) (h_Set h (ac_Setting a)) w2).2).
  { apply on_machine_stays; [|by apply (steady_set Hlets)|done]. intros Hno. apply set_local; [done|]. rewrite Hid. intros ->.
    rewrite Hno in Hn. by apply is_Some_None in Hn. }
  unfold tbind at 1. destruct (on_machine _ _ w2) as [[[e|]|p] w3]; [done| |done]. cbn [fst snd] in Hs3.
  assert (Hs4 : sound (on_machine (Tested (ac_Setting a)) (h_Test h (ac_Setting a)) w3).2).
  { apply on_machine_stays; [| |done]; by rewrite test_looks. }
  unfold tbind. by destruct (on_machine _ _ w3) as [[[[]|e]|p] w4].
Qed.

Lemma apply_all_stays actions results :
  Forall proper actions -> tkeeps stays (apply_all handlers actions results : txn (pworld W N) string _).
Proof.
  intros Ha. revert results. induction Ha as [|a actions Hp _ IH]; intros results; cbn [apply_all]; [apply keeps_ret; apply _|].
  apply keeps_bind; [apply _|by apply apply_stays|]. intros sd. apply IH.
Qed.

Lemma Plan_sound assigned : in_range_claims assigned -> all_settings P assigned -> Forall proper (Plan assigned).
Proof.
  intros Hr HP. apply Forall_forall. intros a (d & r & E & Ha)%Plan_elem.
  assert (Hd : d ∈ claims_on (ac_Identity a) (all_claims assigned)) by (rewrite E; apply list_elem_of_here).
  unfold proper. assert (ac_Setting a = cl_setting d) as -> by (by rewrite Ha).
  split; [by eapply in_range_claim|]. apply claims_on_in in Hd as [Hd Hid]. split; [done|].
  apply all_claims_in in Hd as (x & Hx & _ & Hs). unfold all_settings in HP. rewrite Forall_forall in HP. specialize (HP x Hx).
  rewrite Forall_forall in HP. by apply HP.
Qed.

(** *** Undoing *)

Lemma Undone_stays h undo p raw w : sound w -> p_prior w !! Identity (pi_Setting p) = Some raw ->
  handles handlers P h (pi_Setting p) -> h_Revert h = Some undo ->
  sound (on_machine (Undone (pi_Setting p) (pi_State p)) (undo (pi_Setting p) (pi_State p)) w).2.
Proof.
  intros Hw Ep Hin Hu. apply on_machine_stays; [|by eapply (steady_undo Hlets)|done].
  intros Hno. eapply revert_local; [done|done|]. intros E. by rewrite E, Ep in Hno.
Qed.

(** What was noted is put back, when the undoing works. *)
Lemma undone_restores h undo p w w1 :
  (Identity (pi_Setting p) = i -> exists m, (h_Get h (pi_Setting p) m).1 = Ok (Ok (pi_State p)) /\ look m i = v) -> handles handlers P h (pi_Setting p) -> h_Revert h = Some undo ->
  on_machine (Undone (pi_Setting p) (pi_State p)) (undo (pi_Setting p) (pi_State p)) w = (Ok None, w1) -> sound w1 ->
  sound (with_prior (delete (Identity (pi_Setting p)) (p_prior w1)) w1).
Proof.
  intros Hv Hin Hu E Hs. apply sound_delete; [|done]. intros Ei.
  pose proof (on_machine_shape (Undone (pi_Setting p) (pi_State p)) (undo (pi_Setting p) (pi_State p)) w) as (_ & _ & E3 & E4).
  rewrite E in E3, E4. cbn [fst snd] in *. rewrite E3. destruct (Hv Ei) as (m & Hg & Hl).
  rewrite <- Hl, <- Ei. by eapply (revert_restores h).
Qed.

Lemma revert_stays ids keep : tkeeps stays (revert handlers ids keep : txn (pworld W N) string unit).
Proof.
  induction ids as [|id ids IH]; cbn [revert]; [apply keeps_ret; apply _|]. destruct (keep id); [done|].
  intros w Hw. pose proof Hw as (S1 & S2 & _). unfold PriorState. unfold tbind at 1. rewrite access_works by done. cbn [fst snd].
  destruct (p_prior w !! id) as [raw|] eqn:Ep; [|by apply IH]. destruct (S2 _ _ Ep) as (p & Ed & <- & HP & Hk & Hv). rewrite Ed.
  destruct (handlerFor _ _) as [h|] eqn:Hh; [|by apply IH]. destruct (h_Revert h) as [undo|] eqn:Hu; [|by apply IH].
  rewrite Hk in Hh. pose proof (Undone_stays h undo p raw w Hw Ep (conj Hh HP) Hu) as Hs1.
  unfold tbind at 1. destruct (on_machine _ _ w) as [r w1] eqn:E. cbn [snd] in *. destruct r as [[e|]|e]; [by apply IH| |done].
  unfold DeletePriorState. unfold tbind at 1. rewrite access_works by apply Hs1. cbn [fst snd]. apply IH.
  refine (undone_restores h undo p w w1 _ (conj Hh HP) Hu E Hs1). intros Ei. destruct (Hv Ei) as (h' & m & [= <-] & ?). by exists m.
Qed.

Lemma forget_loop_stays assigned l : tkeeps stays (forget_loop handlers assigned l : txn (pworld W N) string unit).
Proof.
  induction l as [|[id rec] l IH]; cbn [forget_loop]; [apply keeps_ret; apply _|]. destruct (one_of id _); [done|].
  apply keeps_bind; [apply _| |intros _].
  { destruct (pr_RevertOnRemoval rec); [apply revert_stays|apply keeps_ret; apply _]. }
  apply keeps_bind; [apply _| |intros [u|e]; [exact IH|apply keeps_ret; apply _]].
  intros w Hw. pose proof Hw as (S1 & _). unfold DeleteProfileRecord. rewrite access_works by done. by apply (sound_frame w).
Qed.

Lemma record_profiles_stays l : tkeeps stays (record_profiles l : txn (pworld W N) string unit).
Proof.
  induction l as [|a l IH]; cbn [record_profiles]; [apply keeps_ret; apply _|]. apply keeps_bind; [apply _| |by intros _].
  intros w Hw. pose proof Hw as (S1 & _). unfold SetProfileRecord. rewrite access_works by done. by apply (sound_frame w).
Qed.

Lemma report_all_stays results l e : tkeeps stays (report_all results l e : txn (pworld W N) string gerror).
Proof.
  revert e. induction l as [|a l IH]; intros e; cbn [report_all]; [apply keeps_ret; apply _|].
  apply keeps_bind; [apply _| |intros x; apply IH]. intros w. unfold report. destruct (ReportProfileStatus _ _ _) as [x n]. by apply sound_frame.
Qed.

Lemma forgetRemoved_stays assigned : tkeeps stays (forgetRemoved handlers range assigned : txn (pworld W N) string unit).
Proof.
  unfold forgetRemoved. apply keeps_bind; [apply _| |intros [m|e]; [apply forget_loop_stays|apply keeps_ret; apply _]].
  intros w Hw. pose proof Hw as (S1 & _). unfold ProfileRecords. by rewrite access_works.
Qed.

Lemma Reconcile_stays assigned : in_range_claims (active assigned) -> all_settings P (active assigned) -> tkeeps stays (Reconcile handlers range assigned : txn (pworld W N) string gerror).
Proof.
  intros Hr HP. unfold Reconcile. apply keeps_bind; [apply _|by apply apply_all_stays, Plan_sound|]. intros results.
  apply keeps_bind; [apply _|apply forgetRemoved_stays|]. intros _.
  apply keeps_bind; [apply _|apply record_profiles_stays|]. intros _. apply report_all_stays.
Qed.

(** *** Undoing is done *)

(** Undoing what was done to [i] works on a machine that allows it. *)
Definition undoing_works : Prop :=
  forall h undo s st m n, handles handlers P h s -> h_Revert h = Some undo -> Identity s = i -> (h_Get h s m).1 = Ok (Ok st) -> look m i = v ->
    lets n -> (undo s st n).1 = Ok None.

Lemma revert_done ids keep w : undoing_works -> sound w ->
  exists w', revert handlers ids keep w = (Ok tt, w') /\ sound w'
    /\ (p_prior w !! i = None \/ (i ∈ ids) /\ keep i = false -> p_prior w' !! i = None).
Proof.
  intros Hrv. revert w. induction ids as [|id ids IH]; intros w Hw; cbn [revert].
  { exists w. split; [done|]. split; [done|]. intros [?|[Hx _]]; [done|by apply elem_of_nil in Hx]. }
  assert (Hrest : forall w1, sound w1 -> (p_prior w !! i = None -> p_prior w1 !! i = None) -> (id = i -> keep i = false -> p_prior w1 !! i = None) ->
    exists w', revert handlers ids keep w1 = (Ok tt, w') /\ sound w'
      /\ (p_prior w !! i = None \/ (i ∈ id :: ids) /\ keep i = false -> p_prior w' !! i = None)).
  { intros w1 Hw1 H1 H2. destruct (IH w1 Hw1) as (w' & Er & Hs & Hn). exists w'. split; [done|]. split; [done|].
    intros [?|[[->|Hi]%elem_of_cons Hk]]; apply Hn; [left; auto|left; auto|by right]. }
  destruct (keep id) eqn:Ek; [apply (Hrest w Hw); [done|by intros -> Hk; rewrite Hk in Ek]|].
  pose proof Hw as (S1 & S2 & S3 & S4). unfold PriorState. unfold tbind at 1. rewrite access_works by done. cbn [fst snd].
  destruct (p_prior w !! id) as [raw|] eqn:Ep; [|apply (Hrest w Hw); [done|by intros <-]].
  destruct (S2 _ _ Ep) as (p & Ed & <- & HP & Hk & Hv). rewrite Ed. destruct (handlerFor _ _) as [h|] eqn:Hh.
  2: { apply (Hrest w Hw); [done|]. intros Ei _. destruct (Hv Ei) as (h' & m & Hh' & _). congruence. }
  pose proof Hh as Hh'. rewrite Hk in Hh'. pose proof (conj Hh' HP : handles handlers P h (pi_Setting p)) as Hin.
  assert (Hvm : Identity (pi_Setting p) = i -> exists m, (h_Get h (pi_Setting p) m).1 = Ok (Ok (pi_State p)) /\ look m i = v).
  { intros Ei. destruct (Hv Ei) as (h' & m & [= <-] & ?). by exists m. }
  destruct (undo_returns h _ Hin) as (undo & Hu & Hok). rewrite Hu.
  pose proof (Undone_stays h undo p raw w Hw Ep Hin Hu) as Hs1.
  pose proof (on_machine_shape (Undone (pi_Setting p) (pi_State p)) (undo (pi_Setting p) (pi_State p)) w) as (E1 & E2 & E3 & E4).
  unfold tbind at 1. destruct (on_machine _ _ w) as [r w1] eqn:E. cbn [fst snd] in *.
  destruct (Hok (pi_State p) (p_machine w)) as [x Hx]. rewrite Hx in E4. subst r. destruct x as [e|].
  - apply (Hrest w1 Hs1); [by rewrite E2|]. intros Ei _. destruct (Hvm Ei) as (m & Hg & Hl). by rewrite (Hrv h undo _ _ m (p_machine w) Hin Hu Ei Hg Hl S4) in Hx.
  - unfold DeletePriorState. unfold tbind at 1. rewrite access_works by apply Hs1. cbn [fst snd].
    apply (Hrest _ (undone_restores h undo p w w1 Hvm Hin Hu E Hs1)); cbn [p_prior with_prior].
    + intros Hno. by rewrite lookup_delete_None, E2, Hno; right.
    + intros <- _. apply lookup_delete_eq.
Qed.

(** A record whose profile is gone and wants [i] undone. *)
Definition wants_undo (assigned : list Assigned) (kv : string * ProfileRecord) : Prop :=
  (kv.1 ∉ map as_ProfileID assigned) /\ pr_RevertOnRemoval kv.2 = true /\ (i ∈ pr_Identities kv.2).

Lemma forget_loop_done assigned l w : undoing_works -> i ∉ claimed assigned -> sound w ->
  exists w', forget_loop handlers assigned l w = (Ok tt, w') /\ sound w'
    /\ (p_prior w !! i = None \/ (exists kv, kv ∈ l /\ wants_undo assigned kv) -> p_prior w' !! i = None).
Proof.
  intros Hrv Hi. revert w. induction l as [|[id rec] l IH]; intros w Hw; cbn [forget_loop].
  { exists w. split; [done|]. split; [done|]. intros [?|(kv & Hx & _)]; [done|by apply elem_of_nil in Hx]. }
  destruct (one_of id (map as_ProfileID assigned)) eqn:Eid.
  { destruct (IH w Hw) as (w' & Er & Hs & Hn). exists w'. split; [done|]. split; [done|]. intros [?|(kv & [->|Hx]%elem_of_cons & Hk)].
    - apply Hn. by left.
    - destruct Hk as [Hk _]. apply one_of_spec in Eid. done.
    - apply Hn. right. by exists kv. }
  assert (Hfirst : exists w1, (if pr_RevertOnRemoval rec then revert handlers (pr_Identities rec) (fun i => one_of i (concat (map identities_of assigned))) else tret tt) w
      = (Ok tt, w1) /\ sound w1 /\ (p_prior w !! i = None \/ pr_RevertOnRemoval rec = true /\ i ∈ pr_Identities rec -> p_prior w1 !! i = None)).
  { destruct (pr_RevertOnRemoval rec).
    - destruct (revert_done (pr_Identities rec) (fun i => one_of i (concat (map identities_of assigned))) w Hrv Hw) as (w1 & E & Hs & Hn).
      exists w1. split; [done|]. split; [done|]. intros [?|[_ ?]]; apply Hn; [by left|right; split; [done|]].
      apply not_true_iff_false. by rewrite one_of_spec.
    - exists w. split; [done|]. split; [done|]. by intros [?|[? _]]. }
  destruct Hfirst as (w1 & E1 & Hs1 & Hn1). unfold tbind at 1. rewrite E1. cbn [fst snd].
  pose proof Hs1 as (F1 & _). unfold DeleteProfileRecord. unfold tbind. rewrite access_works by done. cbn [fst snd].
  assert (Hs2 : sound (with_records (delete id (p_records w1)) w1)) by (by apply (sound_frame w1)).
  destruct (IH _ Hs2) as (w' & Er & Hs & Hn). exists w'. split; [done|]. split; [done|]. cbn [p_prior with_records] in Hn.
  intros [Hnone|(kv & [->|Hx]%elem_of_cons & Hk)]; apply Hn.
  - left. apply Hn1. by left.
  - left. apply Hn1. right. destruct Hk as (_ & ? & ?). by split.
  - right. by exists kv.
Qed.

Lemma apply_all_Ok actions results w : exists r w', apply_all handlers actions results w = (Ok r, w').
Proof.
  revert results w. induction actions as [|a actions IH]; intros results w; cbn [apply_all]; [by do 2 eexists|].
  unfold tbind. assert (exists sd w1, apply handlers a w = (Ok sd, w1)) as (sd & w1 & ->).
  { unfold apply. destruct (apply_body handlers a w) as [[x|p] w1]; by do 2 eexists. }
  apply IH.
Qed.

Definition same_prior w w' : Prop := p_prior w' = p_prior w.
#[local] Instance same_prior_preorder : PreOrder same_prior.
Proof. split; unfold same_prior; [done|congruence]. Qed.

Lemma record_profiles_prior l : tkeeps same_prior (record_profiles l : txn (pworld W N) string unit).
Proof.
  induction l as [|a l IH]; cbn [record_profiles]; [apply keeps_ret; apply _|]. apply keeps_bind; [apply _| |by intros _].
  intros w. unfold SetProfileRecord. by apply (access_ok _ w (fun _ w' => same_prior w w')).
Qed.

Lemma report_all_prior results l e : tkeeps same_prior (report_all results l e : txn (pworld W N) string gerror).
Proof.
  revert e. induction l as [|a l IH]; intros e; cbn [report_all]; [apply keeps_ret; apply _|].
  apply keeps_bind; [apply _| |intros x; apply IH]. intros w. unfold report. by destruct (ReportProfileStatus _ _ _) as [x n].
Qed.

Lemma forgetRemoved_works assigned w : p_faults w = [] ->
  forgetRemoved handlers range assigned w = forget_loop handlers assigned (range (p_records w)) w.
Proof. intros E. unfold forgetRemoved, ProfileRecords, tbind. by rewrite access_works. Qed.

Lemma Reconcile_done assigned w : undoing_works -> in_range_claims (active assigned) -> all_settings P (active assigned) -> i ∉ claimed assigned -> sound w ->
  (exists kv, p_records w !! kv.1 = Some kv.2 /\ wants_undo assigned kv) ->
  p_prior (Reconcile handlers range assigned w).2 !! i = None.
Proof.
  intros Hrv Hr HP Hi Hw (kv & Hkv & Hwant). unfold Reconcile.
  destruct (apply_all_Ok (Plan (active assigned)) (start_results assigned) w) as (r & w1 & E1).
  destruct (apply_all_worked handlers (active assigned) (Plan (active assigned)) (proj2 (Forall_forall _ _) (fun a Ha => Ha)) (start_results assigned) w)
    as (_ & R1 & _).
  pose proof (apply_all_stays _ (start_results assigned) (Plan_sound _ Hr HP) w Hw) as Hs1.
  rewrite E1 in R1, Hs1. cbn [snd] in R1, Hs1. unfold tbind at 1. rewrite E1.
  pose proof Hs1 as (F1 & _).
  destruct (forget_loop_done assigned (range (p_records w1)) w1 Hrv Hi Hs1) as (w2 & E2 & Hs2 & Hn2).
  unfold tbind at 1. rewrite forgetRemoved_works, E2 by done.
  assert (Hk : same_prior w2 (tbind (record_profiles (active assigned)) (fun _ => report_all r assigned None) w2).2).
  { apply keeps_bind; [apply _|apply record_profiles_prior|]. intros _. apply report_all_prior. }
  rewrite Hk. apply Hn2. right. exists kv. split; [|done]. rewrite (range_lists (p_records w1)), R1. destruct kv. by apply elem_of_map_to_list.
Qed.
End Undo.

(** ** Histories *)

Section Histories.
Context {W N V : Type} `{Certificates} `{ProfileServer N} (look : W -> string -> V) (handlers : list (Handler W)) (P : Setting -> Prop).
Context `{!LocalHandlers look handlers P, !UndoingHandlers look handlers P}.
Context (range : gmap string ProfileRecord -> list (string * ProfileRecord)).
Hypothesis range_lists : forall m, Permutation (range m) (map_to_list m).
Implicit Types w : pworld W N.

(** Cycles over profiles of such settings, the server and the machine changing
    in between - but what the machine has under [i] only once it is managed. *)
Inductive history (i : string) w : pworld W N -> Prop :=
| history_start : history i w w
| history_cycle w1 assigned : history i w w1 -> in_range_claims (active assigned) -> all_settings P (active assigned) ->
    history i w (Reconcile handlers range assigned w1).2
| history_drift w1 m n : history i w w1 -> (p_prior w1 !! i = None -> look m i = look (p_machine w1) i) ->
    history i w (with_net n (with_machine m w1)).

Lemma steady_nothing : steady handlers P (fun _ => True).
Proof. by split. Qed.

Lemma history_sound i v w w' : history i w w' ->
  sound look handlers P i v (fun _ => True) w -> sound look handlers P i v (fun _ => True) w'.
Proof.
  intros Hh Hw. induction Hh as [|w1 assigned _ IH Hr HP|w1 m n _ IH Hd]; [done|refine (Reconcile_stays look handlers P range i v _ steady_nothing _ Hr HP w1 IH)|].
  destruct IH as (S1 & S2 & S3 & _). split; [done|]. split; [done|]. cbn. split; [|done]. intros Hn. rewrite Hd by done. by apply S3.
Qed.

(** An agent that has just been enrolled. *)
Definition fresh w : Prop := p_faults w = [] /\ p_prior w = ∅.

(** However the setting was managed since, the first cycle in which nobody
    claims it and a remembered profile that asked to be undone is gone gives
    the machine back what it had, if the machine lets it. *)
Lemma history_undone (lets : W -> Prop) i w w' assigned id rec :
  fresh w -> history i w w' ->
  steady handlers P lets -> lets (p_machine w') -> undoing_works look handlers P i (look (p_machine w) i) lets ->
  in_range_claims (active assigned) -> all_settings P (active assigned) -> i ∉ claimed assigned ->
  p_records w' !! id = Some rec -> id ∉ map as_ProfileID assigned -> pr_RevertOnRemoval rec = true -> i ∈ pr_Identities rec ->
  let w2 := (Reconcile handlers range assigned w').2 in
  look (p_machine w2) i = look (p_machine w) i /\ p_prior w2 !! i = None.
Proof.
  intros [F Hp] Hh Hst Hl Hu Hr HP Hi Hrec Hid Hrev Hin. cbv zeta.
  assert (Hw : sound look handlers P i (look (p_machine w) i) (fun _ => True) w).
  { split; [done|]. split; [|done]. intros j raw. by rewrite Hp, lookup_empty. }
  destruct (history_sound i _ w w' Hh Hw) as (S1 & S2 & S3 & _).
  assert (Hw' : sound look handlers P i (look (p_machine w) i) lets w') by done.
  assert (Hn : p_prior (Reconcile handlers range assigned w').2 !! i = None).
  { eapply Reconcile_done; try done. by exists (id, rec). }
  split; [|done]. destruct (Reconcile_stays look handlers P range i _ lets Hst assigned Hr HP w' Hw') as (_ & _ & Ho & _). by apply Ho.
Qed.
End Histories.
