(* ===== verification/PolicySettle.v ===== *)
(** * The policy engine comes to rest

    When every setting of a cycle was found or made to match, the next cycle
    over the same profiles only tests. *)
From S2P Require Export PolicyUndo.
Open Scope Z_scope.
Open Scope go_scope.

(** A test depends on what is under the setting's identity alone. *)
Class TestedHandlers `{Certificates} {W V : Type} (look : W -> string -> V) (handlers : list (Handler W)) (P : Setting -> Prop) : Prop :=
  test_depends h s m n : handles handlers P h s -> look m (Identity s) = look n (Identity s) -> (h_Test h s m).1 = (h_Test h s n).1.

Section Settle.
Context {W N V : Type} `{Certificates} `{ProfileServer N} (look : W -> string -> V) (handlers : list (Handler W)) (P : Setting -> Prop).
Context `{!LocalHandlers look handlers P, !TestedHandlers look handlers P}.
Context (range : gmap string ProfileRecord -> list (string * ProfileRecord)).
Hypothesis range_lists : forall m, Permutation (range m) (map_to_list m).
Implicit Types w : pworld W N.

(** The machine matches the setting of an action. *)
Definition in_force (a : Action) (m : W) : Prop :=
  exists h, handlerFor handlers (se_Kind (ac_Setting a)) = Some h /\ (h_Test h (ac_Setting a) m).1 = Ok (Ok true).

Lemma in_force_look a m n : proper P a -> look m (ac_Identity a) = look n (ac_Identity a) ->
  in_force a m -> in_force a n.
Proof.
  intros (_ & Hid & HP) Hl (h & Hh & Ht). exists h. split; [done|]. rewrite <- Ht. symmetry.
  apply test_depends; [by split|by rewrite Hid].
Qed.

(** *** What a cycle leaves alone *)

(** The buckets work and the prior states are about their own identities. *)
Definition tidy w : Prop :=
  p_faults w = [] /\ forall j raw, p_prior w !! j = Some raw -> 
    exists p, decode_prior raw = Ok p /\ Identity (pi_Setting p) = j /\ P (pi_Setting p) /\ pi_Kind p = se_Kind (pi_Setting p).

(** Identities outside [K] keep what they have. *)
Definition spares (K : string -> Prop) w w' : Prop :=
  tidy w -> tidy w' /\ forall j, ~ K j -> look (p_machine w') j = look (p_machine w) j.

#[local] Instance spares_preorder K : PreOrder (spares K).
Proof.
  split.
  - intros w Hw. by split.
  - intros w1 w2 w3 H1 H2 Hw. destruct (H1 Hw) as [T1 L1], (H2 T1) as [T2 L2]. split; [done|]. intros j Hj. rewrite L2, L1; done.
Qed.

Lemma spares_mono (K K' : string -> Prop) w w' : (forall j, K j -> K' j) -> spares K w w' -> spares K' w w'.
Proof. intros HK Hs Hw. destruct (Hs Hw) as [T L]. split; [done|]. intros j Hj. apply L. auto. Qed.

Lemma on_machine_spares {A} (K : string -> Prop) e (f : txn W string A) w : (forall j, ~ K j -> look (f (p_machine w)).2 j = look (p_machine w) j) ->
  spares K w (on_machine e f w).2.
Proof.
  intros Hf [T1 T2]. destruct (on_machine_shape (N := N) e f w) as (E1 & E2 & E3 & _). unfold tidy. rewrite E1, E2, E3. by repeat split.
Qed.

Lemma apply_spares a : proper P a ->
  tkeeps (spares (fun j => j = ac_Identity a)) (apply handlers a : txn (pworld W N) string _).
Proof.
  intros (Hi & Hid & HP) w. assert (Hb : tkeeps (spares (fun j => j = ac_Identity a)) (apply_body handlers a : txn (pworld W N) string _)).
  2: { specialize (Hb w). unfold apply. by destruct (apply_body handlers a w) as [[x|p] w']. }
  clear w. unfold apply_body. destruct (ac_Conflict a); [apply keeps_ret; apply _|].
  destruct (handlerFor _ _) as [h|] eqn:Hh; [|apply keeps_ret; apply _]. pose proof (conj Hh HP) as Hin.
  assert (Ht : tkeeps (spares (fun j => j = ac_Identity a)) (on_machine (Tested (ac_Setting a)) (h_Test h (ac_Setting a)) : txn (pworld W N) string _)).
  { intros w. apply on_machine_spares. intros j _. by rewrite test_looks. }
  apply keeps_bind; [apply _|done|]. intros [[]|e]; [apply keeps_ret; apply _| |apply keeps_ret; apply _].
  apply keeps_bind; [apply _| |intros _].
  - unfold rememberPrior. apply keeps_bind; [apply _| |].
    { intros w Hw. pose proof Hw as [T1 _]. unfold PriorState. by rewrite access_works. }
    intros [[p|]|e]; [apply keeps_ret; apply _| |apply keeps_ret; apply _].
    apply keeps_bind; [apply _| |].
    { intros w. apply on_machine_spares. intros j _. by rewrite get_looks. }
    intros [st|e]; [|apply keeps_ret; apply _]. apply keeps_bind; [apply _| |intros _; apply keeps_ret; apply _].
    intros w [T1 T2]. unfold SetPriorState. rewrite access_works by done. split; [|done]. split; [done|]. cbn [p_prior with_prior].
    intros j raw. destruct (decide (j = ac_Identity a)) as [->|Hj]; [|cbn; rewrite lookup_insert_ne by done; apply T2].
    cbn. rewrite lookup_insert_eq. intros [= <-]. eexists. split; [by apply prior_roundtrip|by repeat split].
  - apply keeps_bind; [apply _| |].
    { intros w. apply on_machine_spares. intros j Hj. apply set_local; [done|]. by rewrite Hid. }
    intros [e|]; [apply keeps_ret; apply _|]. apply keeps_bind; [apply _|done|]. intros [[]|e]; apply keeps_ret; apply _.
Qed.

Lemma spares_tidy K w w' : (tidy w -> spares K w w') -> spares K w w'.
Proof. intros Hs Hw. by apply Hs. Qed.

Lemma revert_spares ids (keep : string -> bool) :
  tkeeps (spares (fun j => keep j = false)) (revert handlers ids keep : txn (pworld W N) string unit).
Proof.
  induction ids as [|id ids IH]; cbn [revert]; [apply keeps_ret; apply _|]. destruct (keep id) eqn:Ek; [done|].
  intros w. apply spares_tidy. intros (T1 & T2). unfold PriorState. unfold tbind at 1. rewrite access_works by done. cbn [fst snd].
  destruct (p_prior w !! id) as [raw|] eqn:Ep; [|apply IH]. destruct (T2 _ _ Ep) as (p & Ed & Hid & HP & Hk). rewrite Ed.
  destruct (handlerFor _ _) as [h|] eqn:Hh; [|apply IH]. destruct (h_Revert h) as [undo|] eqn:Hu; [|apply IH].
  revert w T1 T2 Ep. cut (tkeeps (spares (fun j => keep j = false))
    (tbind (on_machine (Undone (pi_Setting p) (pi_State p)) (undo (pi_Setting p) (pi_State p)))
       (fun err => match err with Some _ => revert handlers ids keep
                   | None => tbind (DeletePriorState id) (fun _ => revert handlers ids keep) end) : txn (pworld W N) string unit)).
  { intros Hall w _ _ _. apply Hall. }
  apply keeps_bind; [apply _| |intros [e|]; [done|]].
  - intros w. apply on_machine_spares. intros j Hj. eapply revert_local; [split; [by rewrite <- Hk|done]|done|]. rewrite Hid. congruence.
  - apply keeps_bind; [apply _| |done]. intros w [T1 T2]. unfold DeletePriorState. rewrite access_works by done.
    split; [|done]. split; [done|]. cbn. intros j r [_ Hr]%lookup_delete_Some. by apply T2.
Qed.

Lemma forget_loop_spares assigned l :
  tkeeps (spares (fun j => j ∉ claimed assigned)) (forget_loop handlers assigned l : txn (pworld W N) string unit).
Proof.
  induction l as [|[id rec] l IH]; cbn [forget_loop]; [apply keeps_ret; apply _|]. destruct (one_of id _); [done|].
  apply keeps_bind; [apply _| |intros _].
  { destruct (pr_RevertOnRemoval rec); [|apply keeps_ret; apply _]. intros w. eapply spares_mono; [|apply revert_spares].
    intros j Hj. cbv beta in Hj. rewrite <- one_of_spec. unfold claimed. by rewrite Hj. }
  apply keeps_bind; [apply _| |intros [u|e]; [exact IH|apply keeps_ret; apply _]].
  intros w. apply spares_tidy. intros [T1 _]. unfold DeleteProfileRecord. rewrite access_works by done. by intros [_ T2].
Qed.

(** Nothing of the machine, the prior states and the store's health. *)
Definition apart w w' : Prop := p_machine w' = p_machine w /\ p_prior w' = p_prior w /\ (p_faults w = [] -> p_faults w' = []).
#[local] Instance apart_preorder : PreOrder apart.
Proof. split; [done|]. intros w1 w2 w3 (A1 & B1 & C1) (A2 & B2 & C2). split; [congruence|]. split; [congruence|auto]. Qed.

Lemma record_profiles_apart l : tkeeps apart (record_profiles l : txn (pworld W N) string unit).
Proof.
  induction l as [|a l IH]; cbn [record_profiles]; [apply keeps_ret; apply _|]. apply keeps_bind; [apply _| |by intros _].
  intros w. unfold SetProfileRecord, access, apart. destruct (p_faults w) as [|[e|] fs]; by repeat split.
Qed.

Lemma report_all_apart results l e : tkeeps apart (report_all results l e : txn (pworld W N) string gerror).
Proof.
  revert e. induction l as [|a l IH]; intros e; cbn [report_all]; [apply keeps_ret; apply _|].
  apply keeps_bind; [apply _| |intros x; apply IH]. intros w. unfold report, apart. by destruct (ReportProfileStatus _ _ _) as [x n].
Qed.

(** *** From results to the machine *)

Lemma results_of_add x m p q : results_of (add_result x m p) q = if String.eqb p q then results_of m p ++ [x] else results_of m q.
Proof.
  unfold results_of, add_result. destruct (String.eqb_spec p q) as [<-|Hn]; [by rewrite lookup_insert_eq|by rewrite lookup_insert_ne].
Qed.

Lemma add_results x ps : forall m,
  (forall p y, y ∈ results_of m p -> y ∈ results_of (foldl (add_result x) m ps) p)
  /\ forall p, p ∈ ps -> x ∈ results_of (foldl (add_result x) m ps) p.
Proof.
  induction ps as [|q ps IH]; intros m; cbn [foldl].
  { split; [done|]. intros p Hp. by apply elem_of_nil in Hp. }
  destruct (IH (add_result x m q)) as [I1 I2]. split.
  - intros p y Hy. apply I1. rewrite results_of_add. destruct (String.eqb_spec q p) as [<-|]; [apply elem_of_app; by left|done].
  - intros p [->|Hp]%elem_of_cons; [|by apply I2]. apply I1. rewrite results_of_add, String.eqb_refl. apply elem_of_app. right. apply list_elem_of_here.
Qed.

Lemma apply_all_spares actions results : Forall (proper P) actions ->
  tkeeps (spares (fun j => j ∈ map ac_Identity actions)) (apply_all handlers actions results : txn (pworld W N) string _).
Proof.
  intros Ha. revert results. induction Ha as [|a actions Hp _ IH]; intros results; cbn [apply_all]; [apply keeps_ret; apply _|].
  apply keeps_bind; [apply _| |intros sd w; eapply spares_mono; [|apply IH]].
  - intros w. eapply spares_mono; [|by apply apply_spares]. intros j ->. apply list_elem_of_here.
  - intros j Hj. by apply list_elem_of_further.
Qed.

(** A good status is true of the machine. *)
Lemma earned_in_force a w st w' : proper P a -> earned handlers a w st w' -> st ∈ [SettingCompliant; SettingRemediated] -> in_force a (p_machine w').
Proof.
  intros (_ & Hid & HP) (_ & _ & Hc & Hr & _) Hst. apply elem_of_cons in Hst as [Hst|Hst].
  - destruct (Hc Hst) as (h & m & Hh & Ht & ->). exists h. split; [done|]. cbn [p_machine with_machine].
    pose proof (conj Hh HP) as Hin. rewrite (test_depends h _ m (p_machine w) Hin).
    + by rewrite Ht.
    + pose proof (test_looks h (ac_Setting a) (p_machine w) Hin) as Hl. rewrite Ht in Hl. by simpl in Hl; subst.
  - apply list_elem_of_singleton in Hst. destruct (Hr Hst) as (h & m & Hh & Ht & _). exists h. split; [done|].
    pose proof (conj Hh HP) as Hin. rewrite (test_depends h _ (p_machine w') m Hin); [by rewrite Ht|].
    pose proof (test_looks h (ac_Setting a) m Hin) as Hl. rewrite Ht in Hl. by simpl in Hl; subst.
Qed.

Lemma apply_all_results actions : Forall (proper P) actions -> NoDup (map ac_Identity actions) ->
  forall r0 w, tidy w -> exists r w', apply_all handlers actions r0 w = (Ok r, w')
  /\ (forall p x, x ∈ results_of r0 p -> x ∈ results_of r p)
  /\ forall a, a ∈ actions -> exists st d,
       (forall p, p ∈ ac_Profiles a -> mkSettingResult (ac_Identity a) st d ∈ results_of r p)
       /\ (st ∈ [SettingCompliant; SettingRemediated] -> in_force a (p_machine w')) /\ (st = SettingConflict -> ac_Conflict a = true).
Proof.
  induction 1 as [|a actions Hp Hps IH]; intros Hnd r0 w Hw; cbn [apply_all].
  { exists r0, w. split; [done|]. split; [done|]. intros a Ha. by apply elem_of_nil in Ha. }
  cbn [map] in Hnd. apply NoDup_cons in Hnd as [Hna Hnd]. 
  destruct (apply_earned handlers a w) as (st & d & w1 & E1 & He). pose proof (apply_spares a Hp w Hw) as [T1 _]. rewrite E1 in T1.
  unfold tbind. rewrite E1. cbn [fst snd] in *.
  destruct (add_results (mkSettingResult (ac_Identity a) st d) (ac_Profiles a) r0) as [A1 A2].
  destruct (IH Hnd (foldl (add_result (mkSettingResult (ac_Identity a) st d)) r0 (ac_Profiles a)) w1 T1) as (r & w' & E2 & M & R).
  exists r, w'. split; [done|]. split; [by intros p x Hx; apply M, A1|].
  pose proof (apply_all_spares actions (foldl (add_result (mkSettingResult (ac_Identity a) st d)) r0 (ac_Profiles a)) Hps w1 T1) as [_ L].
  rewrite E2 in L. intros b [->|Hb]%elem_of_cons; [|by apply R]. exists st, d. split; [by intros p Hpp; apply M, A2|]. split.
  - intros Hst. eapply in_force_look; [done| |by eapply earned_in_force]. symmetry. by apply L.
  - destruct He as ([Hc _] & _). exact Hc.
Qed.

Lemma report_all_reports results l e w a : a ∈ l ->
  exists k, p_calls (report_all results l e w).2 = p_calls w ++ k
    /\ Reported (as_ProfileID a) (mkProfileStatus (as_Version a) (results_of results (as_ProfileID a))) ∈ k.
Proof.
  revert e w. induction l as [|b l IH]; intros e w Ha; [by apply elem_of_nil in Ha|]. cbn [report_all]. unfold tbind, report.
  destruct (ReportProfileStatus _ _ _) as [x n]. set (w1 := with_net n _).
  apply elem_of_cons in Ha as [->|Ha].
  - destruct (report_all_calls (fun _ => True) results l (match e with Some _ => e | None => x end) (fun _ _ _ _ => I) w1) as (k & Ek & _).
    eexists (_ :: k). split; [rewrite Ek; cbn; by rewrite <- app_assoc|]. apply list_elem_of_here.
  - destruct (IH (match e with Some _ => e | None => x end) w1 Ha) as (k & Ek & Hk).
    eexists (_ :: k). split; [rewrite Ek; cbn; by rewrite <- app_assoc|]. by apply list_elem_of_further.
Qed.

(** *** What is remembered after a cycle *)

(** Only assigned profiles are remembered. *)
Definition remembered (assigned : list Assigned) w : Prop :=
  forall id, is_Some (p_records w !! id) -> id ∈ map as_ProfileID assigned.

(** Undoing leaves the records; the store keeps working. *)
Definition keeps_records w w' : Prop := p_records w' = p_records w /\ (p_faults w = [] -> p_faults w' = []).
#[local] Instance keeps_records_preorder : PreOrder keeps_records.
Proof. split; [done|]. intros w1 w2 w3 (A1 & C1) (A2 & C2). split; [congruence|auto]. Qed.

Lemma revert_records ids keep : tkeeps keeps_records (revert handlers ids keep : txn (pworld W N) string unit).
Proof.
  induction ids as [|id ids IH]; cbn [revert]; [apply keeps_ret; apply _|]. destruct (keep id); [done|].
  apply keeps_bind; [apply _| |].
  { intros w. unfold PriorState, access, keeps_records. destruct (p_faults w) as [|[e|] fs]; by split. }
  intros [[raw|]|e]; [|done..]. destruct (decode_prior raw); [|done]. destruct (handlerFor _ _) as [h|]; [|done].
  destruct (h_Revert h) as [undo|]; [|done]. apply keeps_bind; [apply _| |intros [e|]; [done|]].
  - intros w. unfold on_machine, keeps_records. by destruct (undo _ _ _).
  - apply keeps_bind; [apply _| |by intros _].
    intros w. unfold DeletePriorState, access, keeps_records. destruct (p_faults w) as [|[e|] fs]; by split.
Qed.

Lemma forget_loop_records assigned l w w' : p_faults w = [] -> forget_loop handlers assigned l w = (Ok tt, w') ->
  p_faults w' = [] /\ (forall id, is_Some (p_records w' !! id) -> is_Some (p_records w !! id) /\ (id ∈ map fst l -> id ∈ map as_ProfileID assigned)).
Proof.
  revert w. induction l as [|[id rec] l IH]; intros w Hw; cbn [forget_loop map fst].
  { intros [= <-]. split; [done|]. intros j Hj. split; [done|]. intros Hx. by apply elem_of_nil in Hx. }
  destruct (one_of id (map as_ProfileID assigned)) eqn:Eid.
  { intros E. destruct (IH w Hw E) as [F R]. split; [done|]. intros j Hj. destruct (R j Hj) as [R1 R2]. split; [done|].
    intros [->|Hx]%elem_of_cons; [by apply one_of_spec|by apply R2]. }
  assert (Hk : keeps_records w ((if pr_RevertOnRemoval rec then revert handlers (pr_Identities rec) (fun i => one_of i (concat (map identities_of assigned))) else tret tt) w).2).
  { destruct (pr_RevertOnRemoval rec); [apply revert_records|done]. }
  unfold tbind at 1. destruct (_ w) as [[u|e] w1] eqn:E1; [|done]. cbn [snd] in Hk. destruct Hk as [K1 K2].
  unfold DeleteProfileRecord. unfold tbind. rewrite access_works by auto. cbn [fst snd]. intros E.
  destruct (IH (with_records (delete id (p_records w1)) w1) (K2 Hw) E) as [F R]. split; [done|]. cbn [p_records with_records] in R. intros j Hj. destruct (R j Hj) as [R1 R2].
  rewrite K1 in R1. destruct (decide (j = id)) as [->|Hne]; [rewrite lookup_delete_eq in R1; by apply is_Some_None in R1|].
  rewrite lookup_delete_ne in R1 by done. split; [done|]. intros [?|Hx]%elem_of_cons; [done|by apply R2].
Qed.

Lemma record_profiles_records assigned l w : (forall a, a ∈ l -> as_ProfileID a ∈ map as_ProfileID assigned) ->
  remembered assigned w -> remembered assigned (record_profiles l w).2.
Proof.
  revert w. induction l as [|a l IH]; intros w Hl Hw; cbn [record_profiles]; [done|].
  assert (Ha : as_ProfileID a ∈ map as_ProfileID assigned) by (apply Hl, list_elem_of_here).
  unfold tbind, SetProfileRecord, access.
  assert (Hrest : forall w1, remembered assigned w1 -> remembered assigned (record_profiles l w1).2).
  { intros w1. apply IH. intros b Hb. apply Hl. by apply list_elem_of_further. }
  assert (Hins : forall rec fs, remembered assigned (with_records (<[as_ProfileID a := rec]> (p_records w))
      (mkPworld (p_machine w) (p_net w) (p_prior w) (p_records w) (p_cache w) fs (p_calls w)))).
  { intros rec fs id. cbn. destruct (decide (id = as_ProfileID a)) as [->|]; [done|rewrite lookup_insert_ne by done; apply Hw]. }
  destruct (p_faults w) as [|[e|] fs]; apply Hrest; [apply Hins| |apply Hins]. exact Hw.
Qed.

(** *** Settled *)

Definition settled (assigned : list Assigned) w : Prop :=
  tidy w /\ remembered assigned w /\ forall a, a ∈ Plan (active assigned) -> ac_Conflict a = true \/ in_force a (p_machine w).

(** Nothing is asked but tests and reports, and nothing changes. *)
Definition idle w w' : Prop :=
  calls (fun e => match e with Tested _ | Reported _ _ => True | _ => False end) w w'
  /\ p_machine w' = p_machine w /\ p_prior w' = p_prior w.

#[local] Instance idle_preorder : PreOrder idle.
Proof.
  split; [by intros w|]. intros w1 w2 w3 (A1 & B1 & C1) (A2 & B2 & C2). split; [by etrans|]. split; congruence.
Qed.

Lemma apply_settled a w : proper P a -> ac_Conflict a = true \/ in_force a (p_machine w) ->
  exists x w', apply handlers a w = (Ok x, w') /\ idle w w' /\ p_records w' = p_records w /\ p_faults w' = p_faults w.
Proof.
  intros (_ & Hid & HP) Hs. unfold apply, apply_body. destruct (ac_Conflict a) eqn:Ec.
  { do 2 eexists. split; [reflexivity|]. split; [reflexivity|done]. }
  destruct Hs as [?|(h & Hh & Ht)]; [done|]. rewrite Hh. pose proof (conj Hh HP) as Hin.
  pose proof (test_looks h (ac_Setting a) (p_machine w) Hin) as Hl. unfold tbind, on_machine. cbn [p_machine emit].
  destruct (h_Test h (ac_Setting a) (p_machine w)) as [r m]. cbn [fst snd] in *. subst r.
  do 2 eexists. split; [reflexivity|]. split; [|done]. split; [eexists [_]; split; [reflexivity|by constructor]|]. by split.
Qed.

Lemma idle_in_force a w w' : proper P a -> idle w w' -> ac_Conflict a = true \/ in_force a (p_machine w) ->
  ac_Conflict a = true \/ in_force a (p_machine w').
Proof. intros Hp (_ & Hl & _) [?|Hf]; [by left|right]. eapply in_force_look; [done| |done]. by rewrite Hl. Qed.

Lemma apply_all_settled actions : Forall (proper P) actions -> forall results w,
  (forall a, a ∈ actions -> ac_Conflict a = true \/ in_force a (p_machine w)) ->
  exists r w', apply_all handlers actions results w = (Ok r, w') /\ idle w w' /\ p_records w' = p_records w /\ p_faults w' = p_faults w.
Proof.
  induction 1 as [|a actions Hp Hps IH]; intros results w Hs; cbn [apply_all].
  { do 2 eexists. split; [reflexivity|]. split; [reflexivity|done]. }
  destruct (apply_settled a w Hp (Hs a (list_elem_of_here _ _))) as (x & w1 & E1 & I1 & R1 & F1). unfold tbind. rewrite E1.
  destruct (IH (foldl (add_result (mkSettingResult (ac_Identity a) x.1 x.2)) results (ac_Profiles a)) w1) as (r & w2 & E2 & I2 & R2 & F2).
  { intros b Hb. rewrite Forall_forall in Hps. eapply idle_in_force; [by apply Hps|done|].
    exact (Hs b (list_elem_of_further _ _ _ Hb)). }
  exists r, w2. split; [done|]. split; [by etrans|]. split; congruence.
Qed.

Lemma forget_loop_nothing assigned l w : (forall kv, kv ∈ l -> kv.1 ∈ map as_ProfileID assigned) -> forget_loop handlers assigned l w = (Ok tt, w).
Proof.
  induction l as [|[id rec] l IH]; intros Hl; cbn [forget_loop]; [done|].
  assert (one_of id (map as_ProfileID assigned) = true) as ->.
  { apply one_of_spec. apply (Hl (id, rec)). apply list_elem_of_here. }
  apply IH. intros kv Hkv. apply Hl. by apply list_elem_of_further.
Qed.

Lemma settled_idles assigned w : in_range_claims (active assigned) -> all_settings P (active assigned) -> settled assigned w -> idle w (Reconcile handlers range assigned w).2.
Proof.
  intros Hr HP ([F1 _] & Hm & Hs). unfold Reconcile.
  destruct (apply_all_settled (Plan (active assigned)) (Plan_sound P _ Hr HP) (start_results assigned) w Hs) as (r & w1 & E1 & I1 & R1 & F1').
  unfold tbind at 1. rewrite E1. unfold tbind at 1. rewrite (forgetRemoved_works handlers range assigned w1) by congruence.
  rewrite forget_loop_nothing.
  2: { intros [id rec] Hkv. rewrite (range_lists (p_records w1)), R1 in Hkv. apply elem_of_map_to_list in Hkv. apply Hm. by exists rec. }
  etrans; [exact I1|]. set (m := tbind _ _). assert (Ha : tkeeps apart m /\ tkeeps (calls (fun e => match e with Reported _ _ => True | _ => False end)) m).
  { split; (apply keeps_bind; [apply _| |intros _]).
    - apply record_profiles_apart.
    - apply report_all_apart.
    - apply record_profiles_calls.
    - by apply report_all_calls. }
  destruct Ha as [Ha Hc]. destruct (Ha w1) as (A1 & A2 & _). split; [eapply calls_mono; [|apply Hc]; by intros []|]. done.
Qed.

(** *** A cycle that finds or makes everything match *)

Lemma report_all_records results l e : tkeeps keeps_records (report_all results l e : txn (pworld W N) string gerror).
Proof.
  revert e. induction l as [|a l IH]; intros e; cbn [report_all]; [apply keeps_ret; apply _|].
  apply keeps_bind; [apply _| |intros x; apply IH]. intros w. unfold report. by destruct (ReportProfileStatus _ _ _) as [x n].
Qed.

(** The results reported between two worlds for the profiles applied. *)
Definition all_good (assigned : list Assigned) w w' : Prop :=
  forall k, p_calls w' = p_calls w ++ k -> forall id st r, Reported id st ∈ k -> id ∈ map as_ProfileID (active assigned) ->
    r ∈ ps_Settings st -> sr_Status r ∈ [SettingCompliant; SettingRemediated; SettingConflict].

Lemma active_in assigned a : a ∈ active assigned -> a ∈ assigned.
Proof. unfold active. by intros [Ha _]%elem_of_filterb. Qed.

Lemma forgetRemoved_remembers assigned w w' : tidy w -> forgetRemoved handlers range assigned w = (Ok tt, w') -> remembered assigned w'.
Proof.
  intros [F _] E id Hid. rewrite forgetRemoved_works in E by done. destruct (forget_loop_records _ _ _ _ F E) as [_ R].
  destruct (R id Hid) as [[rec Hrec] R2]. apply R2. apply list_elem_of_fmap. exists (id, rec). split; [done|].
  rewrite (range_lists (p_records w)). by apply elem_of_map_to_list.
Qed.

Lemma Plan_claimant assigned a : a ∈ Plan (active assigned) -> exists x, x ∈ active assigned /\ as_ProfileID x ∈ ac_Profiles a.
Proof.
  intros (d & r & E & Ha)%Plan_elem.
  assert (Hd : d ∈ claims_on (ac_Identity a) (all_claims (active assigned))) by (rewrite E; apply list_elem_of_here).
  apply claims_on_in in Hd as [(x & Hx & Ex & _)%all_claims_in _]. exists x. split; [done|]. rewrite <- Ex, Ha. cbn. apply list_elem_of_here.
Qed.

Lemma Plan_NoDup assigned : NoDup (map ac_Identity (Plan assigned)).
Proof. rewrite Plan_ids. apply unique_names_spec. Qed.

Lemma cycle_settles assigned w e w1 : in_range_claims (active assigned) -> all_settings P (active assigned) -> tidy w ->
  Reconcile handlers range assigned w = (Ok e, w1) -> all_good assigned w w1 -> settled assigned w1.
Proof.
  intros Hr HP Hw E Hgood. unfold Reconcile in E.
  pose proof (Plan_sound P _ Hr HP) as Hproper.
  destruct (apply_all_results _ Hproper (Plan_NoDup _) (start_results assigned) w Hw) as (r & wa & Ea & _ & Hres).
  pose proof (apply_all_spares _ (start_results assigned) Hproper w Hw) as [Ta _]. rewrite Ea in Ta. cbn [snd] in Ta.
  destruct (apply_all_worked handlers (active assigned) (Plan (active assigned)) (proj2 (Forall_forall _ _) (fun a Ha => Ha)) (start_results assigned) w)
    as ((k1 & C1 & _) & _ & _). rewrite Ea in C1. cbn [snd] in C1.
  unfold tbind at 1 in E. rewrite Ea in E. unfold tbind at 1 in E.
  destruct (forgetRemoved handlers range assigned wa) as [[[]|p] wb] eqn:Eb; [|done].
  pose proof (forgetRemoved_remembers _ _ _ Ta Eb) as Hmb.
  pose proof (forgetRemoved_works handlers range assigned wa (proj1 Ta)) as Ew. rewrite Eb in Ew.
  pose proof (forget_loop_spares assigned (range (p_records wa)) wa Ta) as [Tb Lb]. rewrite <- Ew in Tb, Lb. cbn [snd] in Tb, Lb.
  destruct (forgetRemoved_undoes handlers range range_lists assigned (p_prior wa) (p_records wa) wa eq_refl ltac:(done)) as (k2 & C2 & _).
  rewrite Eb in C2. cbn [snd] in C2. unfold tbind in E.
  destruct (record_profiles_apart (active assigned) wb) as (A1 & A2 & A3).
  assert (Hmc : remembered assigned (record_profiles (active assigned) wb).2).
  { apply record_profiles_records; [|done]. intros a Ha. apply list_elem_of_fmap. exists a. split; [done|]. by apply active_in. }
  destruct (record_profiles_calls (fun _ => True) (active assigned) wb) as (k3 & C3 & _).
  destruct (record_profiles (active assigned) wb) as [[[]|p] wc]; [|done]. cbn [snd] in *.
  destruct (report_all_apart r assigned None wc) as (B1 & B2 & B3). destruct (report_all_records r assigned None wc) as [B4 _].
  pose proof (fun a => report_all_reports r assigned None wc a) as Hrep. rewrite E in *. cbn [snd] in *.
  split; [|split].
  - destruct Tb as [F T]. split; [by auto|]. intros j raw. rewrite B2, A2. apply T.
  - intros id Hid. rewrite B4 in Hid. by apply Hmc.
  - intros a Ha. destruct (Hres a Ha) as (st & d & Hp & Hforce & Hconf). destruct (Plan_claimant _ _ Ha) as (x & Hx & Hxp).
    destruct (Hrep x (active_in _ _ Hx)) as (k4 & C4 & Hk4).
    assert (Hst : st ∈ [SettingCompliant; SettingRemediated; SettingConflict]).
    { assert (Hx' : as_ProfileID x ∈ map as_ProfileID (active assigned)) by (apply list_elem_of_fmap; by exists x).
      refine (Hgood (k1 ++ k2 ++ k3 ++ k4) _ (as_ProfileID x)
        (mkProfileStatus (as_Version x) (results_of r (as_ProfileID x))) (mkSettingResult (ac_Identity a) st d) _ Hx' (Hp _ Hxp)).
      - by rewrite C4, C3, C2, C1, !app_assoc.
      - rewrite !elem_of_app. right. right. right. exact Hk4. }
    apply elem_of_cons in Hst as [->|[->|[->|Hst]%elem_of_cons]%elem_of_cons]; [right|right|left; by apply Hconf|by apply elem_of_nil in Hst].
    all: eapply in_force_look; [by apply (proj1 (Forall_forall _ _) Hproper a Ha)| |apply Hforce].
    all: try (rewrite B1, A1; symmetry; apply Lb; intros Hn; apply Hn, active_claimed, Plan_claimed, Ha).
    + apply list_elem_of_here.
    + apply list_elem_of_further, list_elem_of_here.
Qed.

(** When every setting a cycle applied was reported compliant, remediated or in
    conflict, the next cycle over the same profiles idles. *)
Lemma cycle_then_idle assigned w e w1 :
  in_range_claims (active assigned) -> all_settings P (active assigned) -> tidy w ->
  Reconcile handlers range assigned w = (Ok e, w1) -> all_good assigned w w1 ->
  idle w1 (Reconcile handlers range assigned w1).2.
Proof. intros Hr HP Hw E Hg. apply settled_idles; [done|done|]. by eapply cycle_settles. Qed.
End Settle.
