(* ===== verification/RegistryHandler.v ===== *)
(** * The handler of registry values

    [internal/agent/policy/handler_registry_windows.go]: one value under a key,
    tested, looked at, set and put back. The package
    [golang.org/x/sys/windows/registry] and the hive of whoever is signed in
    are arguments; what the handler relies on of the package is stated as laws,
    and a registry that keeps them is given. *)
From S2P Require Export PolicySettle.
Open Scope Z_scope.
Open Scope go_scope.

(** ** The registry package *)

Inductive registry_hive := LOCAL_MACHINE | USERS.
Inductive registry_access := QUERY_VALUE | SET_VALUE.
Inductive registry_error := ErrNotExist | ErrUnexpectedType | Errno (text : string).

(** The types of values, as Windows numbers them. *)
Definition SZ : Z := 1.
Definition EXPAND_SZ : Z := 2.
Definition DWORD : Z := 4.
Definition MULTI_SZ : Z := 7.
Definition QWORD : Z := 11.

(** The methods of a key that change a value: [SetStringValue] and so on, and
    [DeleteValue]. *)
Inductive value_change :=
| SetStringValue (data : string)
| SetExpandStringValue (data : string)
| SetDWordValue (n : Z)
| SetQWordValue (n : Z)
| SetStringsValue (data : list string)
| DeleteValue.

(** Opening a key and reading values changes nothing. *)
Class Registry (W : Type) := {
  registry_Key : Type;
  OpenKey : registry_hive -> string -> registry_access -> W -> result registry_error registry_Key;
  CreateKey : registry_hive -> string -> registry_access -> W -> result registry_error registry_Key * W;
  GetValue : registry_Key -> string -> W -> result registry_error Z;
  GetStringValue : registry_Key -> string -> W -> result registry_error string;
  GetIntegerValue : registry_Key -> string -> W -> result registry_error Z;
  GetStringsValue : registry_Key -> string -> W -> result registry_error (list string);
  ChangeValue : registry_Key -> string -> value_change -> W -> option registry_error * W;
  registry_text : registry_error -> string }.

(** ** Numbers as text *)

(** [strconv.ParseUint] in base ten: the digits so far are [acc]. *)
Fixpoint parse_digits (bits acc : Z) (s : string) : result string Z :=
  match s with
  | EmptyString => Ok acc
  | String c r =>
      if is_digit c then
        let n := acc * 10 + digit_value c in if n <? 2 ^ bits then parse_digits bits n r else Err "value out of range"%string
      else Err "invalid syntax"%string
  end.
Definition ParseUint (s : string) (bits : Z) : result string Z :=
  match (match s with EmptyString => Err "invalid syntax"%string | _ => parse_digits bits 0 s end) with
  | Ok n => Ok n
  | Err why => Err ("strconv.ParseUint: parsing " ++ Quoted s ++ ": " ++ why)%string
  end.

Definition uint64_field {S} (name : string) (set : Z -> S -> S) : field S :=
  (name, fun v s => match v with
    | JNull => Ok s
    | JNum lit => match ParseUint lit 64 with Ok n => Ok (set n s) | Err _ => Err TypeMismatch end
    | _ => Err TypeMismatch
    end).

(** ** The handler *)

(** [registryState]: a value as it was found. *)
Record registryState := mkRegistryState { rs_Type : string; rs_String : string; rs_Number : Z; rs_Strings : list string; rs_KeyExists : bool }.

Definition registry_state_json (r : registryState) : json :=
  JObj ([("type"%string, JStr (rs_Type r))]
    ++ (if String.eqb (rs_String r) EmptyString then [] else [("string"%string, JStr (rs_String r))])
    ++ (if rs_Number r =? 0 then [] else [("number"%string, jint (rs_Number r))])
    ++ (match rs_Strings r with [] => [] | l => [("strings"%string, JArr (map JStr l))] end)
    ++ [("key_exists"%string, JBool (rs_KeyExists r))]).

Definition registry_state_fields : list (field registryState) := [
  string_field "type" (fun v r => mkRegistryState v (rs_String r) (rs_Number r) (rs_Strings r) (rs_KeyExists r));
  string_field "string" (fun v r => mkRegistryState (rs_Type r) v (rs_Number r) (rs_Strings r) (rs_KeyExists r));
  uint64_field "number" (fun v r => mkRegistryState (rs_Type r) (rs_String r) v (rs_Strings r) (rs_KeyExists r));
  strings_field "strings" (fun v r => mkRegistryState (rs_Type r) (rs_String r) (rs_Number r) v (rs_KeyExists r));
  bool_field "key_exists" (fun v r => mkRegistryState (rs_Type r) (rs_String r) (rs_Number r) (rs_Strings r) v)].
Definition no_registry_state : registryState := mkRegistryState EmptyString EmptyString 0 [] false.
Definition decode_registry_state (v : json) : result json_error registryState := decode_struct false registry_state_fields v no_registry_state.

Definition RegSZ : string := "REG_SZ".
Definition RegExpandSZ : string := "REG_EXPAND_SZ".
Definition RegDWord : string := "REG_DWORD".
Definition RegQWord : string := "REG_QWORD".
Definition RegMultiSZ : string := "REG_MULTI_SZ".

Definition typeName (t : Z) : string :=
  if t =? SZ then RegSZ else if t =? EXPAND_SZ then RegExpandSZ else if t =? DWORD then RegDWord
  else if t =? QWORD then RegQWord else if t =? MULTI_SZ then RegMultiSZ else EmptyString.

Definition plain_error (text : string) : herror := mkHerror text false.

Definition hiveOf (s : Setting) : result herror registry_hive :=
  let hive := ToUpper (se_Hive s) in
  if String.eqb hive "HKLM" then Ok LOCAL_MACHINE
  else if String.eqb hive "HKCU" then Ok USERS
  else Err (plain_error ("unsupported registry hive " ++ Quoted (se_Hive s))).

Fixpoint equalStrings (a b : list string) : bool :=
  match a, b with
  | [], [] => true
  | x :: a, y :: b => String.eqb x y && equalStrings a b
  | _, _ => false
  end.

Section Handler.
Context {W : Type} `{!Registry W} (userHive : W -> result string string) (json_message : json_error -> string).

Definition regerr (e : registry_error) : herror := plain_error (registry_text e).

Definition ignoreMissing (e : registry_error) : option herror := match e with ErrNotExist => None | e => Some (regerr e) end.

Definition keyPath (s : Setting) (m : W) : result herror string :=
  let path := TrimChar "\" (ReplaceByte "/" "\" (TrimSpace (se_Key s))) in
  if negb (EqualFold (se_Hive s) "HKCU") then Ok path
  else match userHive m with
       | Err e => Err (plain_error ("this setting applies to the signed-in user, but " ++ e))
       | Ok sid => Ok (sid ++ "\" ++ path)%string
       end.

(** [None] is a key that is not there. *)
Definition openKey (s : Setting) (access : registry_access) (m : W) : result herror (option registry_Key) :=
  let! hive := hiveOf s in
  let! path := keyPath s m in
  match OpenKey hive path access m with
  | Ok k => Ok (Some k)
  | Err ErrNotExist => Ok None
  | Err e => Err (regerr e)
  end.

Definition failing {A} (r : result registry_error A) : result herror A := match r with Ok a => Ok a | Err e => Err (regerr e) end.

Definition get_value (s : Setting) (m : W) : result herror State :=
  let! k := openKey s QUERY_VALUE m in
  match k with
  | None => Ok (mkState false None)
  | Some k =>
      match GetValue k (se_Name s) m with
      | Err ErrNotExist => Ok (mkState false (Some (registry_state_json (mkRegistryState EmptyString EmptyString 0 [] true))))
      | Err e => Err (regerr e)
      | Ok t =>
          let! was :=
            if (t =? SZ) || (t =? EXPAND_SZ) then
              let! v := failing (GetStringValue k (se_Name s) m) in Ok (mkRegistryState (typeName t) v 0 [] true)
            else if (t =? DWORD) || (t =? QWORD) then
              let! n := failing (GetIntegerValue k (se_Name s) m) in Ok (mkRegistryState (typeName t) EmptyString n [] true)
            else if t =? MULTI_SZ then
              let! l := failing (GetStringsValue k (se_Name s) m) in Ok (mkRegistryState (typeName t) EmptyString 0 l true)
            else Ok (mkRegistryState (typeName t) EmptyString 0 [] true) in
          Ok (mkState true (Some (registry_state_json was)))
      end
  end.

(** A read that gives a value, finds none, or fails. *)
Definition test_read {A} (r : result registry_error A) (same : A -> bool) : result herror bool :=
  match r with
  | Err ErrNotExist => Ok false
  | Ok v => Ok (same v)
  | Err e => match ignoreMissing e with Some h => Err h | None => Ok false end
  end.

Definition test_value (s : Setting) (m : W) : result herror bool :=
  let! k := openKey s QUERY_VALUE m in
  match k with
  | None => Ok (String.eqb (se_Ensure s) EnsureAbsent)
  | Some k =>
      if String.eqb (se_Ensure s) EnsureAbsent then
        match GetValue k (se_Name s) m with Err ErrNotExist => Ok true | _ => Ok false end
      else if one_of (se_Type s) [RegSZ; RegExpandSZ] then
        test_read (GetStringValue k (se_Name s) m) (fun got => String.eqb got (se_Data s))
      else if one_of (se_Type s) [RegDWord; RegQWord] then
        match GetIntegerValue k (se_Name s) m with
        | Err ErrNotExist => Ok false
        | got =>
            match ParseUint (TrimSpace (se_Data s)) 64 with
            | Err e => Err (plain_error e)
            | Ok want => test_read got (fun n => n =? want)
            end
        end
      else if String.eqb (se_Type s) RegMultiSZ then
        test_read (GetStringsValue k (se_Name s) m) (fun got => equalStrings got (MultiSZ s))
      else Err (plain_error ("unsupported registry type " ++ Quoted (se_Type s)))
  end.

(** A change to a value, as an error. *)
Definition apply_change (k : registry_Key) (name : string) (c : value_change) (m : W) : option herror * W :=
  let '(e, m) := ChangeValue k name c m in (option_map regerr e, m).

Definition writeValue (k : registry_Key) (name valueType data : string) (multi : list string) (m : W) : option herror * W :=
  if String.eqb valueType RegSZ then apply_change k name (SetStringValue data) m
  else if String.eqb valueType RegExpandSZ then apply_change k name (SetExpandStringValue data) m
  else if String.eqb valueType RegDWord then
    match ParseUint (TrimSpace data) 32 with Err e => (Some (plain_error e), m) | Ok n => apply_change k name (SetDWordValue n) m end
  else if String.eqb valueType RegQWord then
    match ParseUint (TrimSpace data) 64 with Err e => (Some (plain_error e), m) | Ok n => apply_change k name (SetQWordValue n) m end
  else if String.eqb valueType RegMultiSZ then apply_change k name (SetStringsValue multi) m
  else (Some (plain_error ("unsupported registry type " ++ Quoted valueType)), m).

(** What [Set] does for a value that is to be absent, and [Revert] for one that was. *)
Definition remove_value (s : Setting) (m : W) : option herror * W :=
  match openKey s SET_VALUE m with
  | Err e => (Some e, m)
  | Ok None => (None, m)
  | Ok (Some k) =>
      let '(e, m) := ChangeValue k (se_Name s) DeleteValue m in
      (match e with Some e => ignoreMissing e | None => None end, m)
  end.

(** The key is made if it is not there. *)
Definition in_key (hive : registry_hive) (s : Setting) (f : registry_Key -> W -> option herror * W) (m : W) : option herror * W :=
  match keyPath s m with
  | Err e => (Some e, m)
  | Ok path =>
      match CreateKey hive path SET_VALUE m with
      | (Err e, m) => (Some (regerr e), m)
      | (Ok k, m) => f k m
      end
  end.

Definition set_value (s : Setting) (m : W) : option herror * W :=
  match hiveOf s with
  | Err e => (Some e, m)
  | Ok hive =>
      if String.eqb (se_Ensure s) EnsureAbsent then remove_value s m
      else in_key hive s (fun k => writeValue k (se_Name s) (se_Type s) (se_Data s) (MultiSZ s)) m
  end.

Definition revert_value (s : Setting) (prior : State) (m : W) : option herror * W :=
  match hiveOf s with
  | Err e => (Some e, m)
  | Ok hive =>
      match (match st_Data prior with None => Ok no_registry_state | Some raw => decode_registry_state raw end) with
      | Err e => (Some (plain_error (json_message e)), m)
      | Ok was =>
          if negb (st_Exists prior) then remove_value s m
          else in_key hive s (fun k m =>
            if one_of (rs_Type was) [RegSZ; RegExpandSZ] then writeValue k (se_Name s) (rs_Type was) (rs_String was) [] m
            else if one_of (rs_Type was) [RegDWord; RegQWord] then writeValue k (se_Name s) (rs_Type was) (Itoa (rs_Number was)) [] m
            else if String.eqb (rs_Type was) RegMultiSZ then apply_change k (se_Name s) (SetStringsValue (rs_Strings was)) m
            else (Some (plain_error ("the previous value had an unsupported type " ++ Quoted (rs_Type was))), m)) m
      end
  end.

(** It never panics. *)
Definition RegistryHandler : Handler W := mkHandler W KindRegistry
  (fun s m => (Ok (get_value s m), m)) (fun s m => (Ok (test_value s m), m))
  (fun s m => let '(e, m) := set_value s m in (Ok e, m))
  (Some (fun s prior m => let '(e, m) := revert_value s prior m in (Ok e, m))).
End Handler.

(** ** What the package promises *)

(** A value as the package reads it. *)
Inductive reg_value :=
| RegString (expand : bool) (data : string)
| RegNumber (quad : bool) (n : Z)
| RegMulti (data : list string)
| RegOther (type : Z).

Definition number_bits (quad : bool) : Z := if quad then 64 else 32.

Definition value_type (v : reg_value) : Z :=
  match v with
  | RegString false _ => SZ
  | RegString true _ => EXPAND_SZ
  | RegNumber false _ => DWORD
  | RegNumber true _ => QWORD
  | RegMulti _ => MULTI_SZ
  | RegOther t => t
  end.

(** Reading a value as text, a number or a list. *)
Definition read_as {A} (f : reg_value -> option A) (v : option reg_value) : result registry_error A :=
  match v with
  | None => Err ErrNotExist
  | Some v => match f v with Some a => Ok a | None => Err ErrUnexpectedType end
  end.
Definition as_string (v : reg_value) : option string := match v with RegString _ s => Some s | _ => None end.
Definition as_integer (v : reg_value) : option Z := match v with RegNumber _ n => Some n | _ => None end.
Definition as_strings (v : reg_value) : option (list string) := match v with RegMulti l => Some l | _ => None end.

(** The change that writes a value. *)
Definition writing (v : reg_value) : option value_change :=
  match v with
  | RegString false s => Some (SetStringValue s)
  | RegString true s => Some (SetExpandStringValue s)
  | RegNumber false n => Some (SetDWordValue n)
  | RegNumber true n => Some (SetQWordValue n)
  | RegMulti l => Some (SetStringsValue l)
  | RegOther _ => None
  end.

Definition is_ascii (s : string) : Prop := sall (fun c => code c <? 128) s = true.

(** How the machine's hive is seen: the value under a path and a name, both in
    lower case; why a key cannot be read; the paths that lead to their key by no
    link or redirection; the keys that can be made and written; and the key
    that was opened or made for writing. *)
Class HiveView (W : Type) `{!Registry W} := {
  hive_value : W -> string -> string -> option reg_value;
  hive_denied : W -> string -> option registry_error;
  direct : string -> bool;
  writable : W -> string -> Prop;
  writes_to : registry_Key -> string -> Prop }.

(** Nothing else, and nobody's rights, change. *)
Definition spot_only `{HiveView W} (p n : string) (m m' : W) : Prop :=
  (forall p' n', direct p' -> (p', n') <> (p, n) -> hive_value m' p' n' = hive_value m p' n') /\
  (forall p', direct p' -> hive_denied m' p' = hive_denied m p') /\
  (forall p', direct p' -> writable m p' -> writable m' p').
Definition no_value_changed `{HiveView W} (m m' : W) : Prop := forall p n, spot_only p n m m'.

(** What the package and Windows document. Names that differ in case are the
    same name; a read answers with the value, or that there is none, or that it
    is of another type; making a key and changing a value changes nothing
    else; what could be read can be written; and changes fail only where the
    key is not writable, or where there is no value to delete. *)
Class RegistryLaws (W : Type) `{HiveView W} : Prop := {
  open_to_read p m : is_ascii p -> direct (ToLower p) ->
    match OpenKey LOCAL_MACHINE p QUERY_VALUE m with
    | Ok k => hive_denied m (ToLower p) = None /\ forall n, is_ascii n ->
        let v := hive_value m (ToLower p) (ToLower n) in
        GetValue k n m = read_as (Some ∘ value_type) v /\ GetStringValue k n m = read_as as_string v /\
        GetIntegerValue k n m = read_as as_integer v /\ GetStringsValue k n m = read_as as_strings v
    | Err ErrNotExist => hive_denied m (ToLower p) = None /\ forall n, hive_value m (ToLower p) n = None
    | Err e => hive_denied m (ToLower p) = Some e
    end;
  open_to_write p m : is_ascii p -> direct (ToLower p) ->
    match OpenKey LOCAL_MACHINE p SET_VALUE m with
    | Ok k => writes_to k (ToLower p)
    | Err ErrNotExist => forall n, hive_value m (ToLower p) n = None
    | Err _ => ~ writable m (ToLower p)
    end;
  create_to_write p m : is_ascii p -> direct (ToLower p) ->
    no_value_changed m (CreateKey LOCAL_MACHINE p SET_VALUE m).2 /\
    match (CreateKey LOCAL_MACHINE p SET_VALUE m).1 with Ok k => writes_to k (ToLower p) | Err _ => ~ writable m (ToLower p) end;
  change_one k p n c m : writes_to k p -> is_ascii n -> spot_only p (ToLower n) m (ChangeValue k n c m).2;
  delete_deletes k p n m : writes_to k p -> is_ascii n ->
    match (ChangeValue k n DeleteValue m).1 with
    | None | Some ErrNotExist => hive_value (ChangeValue k n DeleteValue m).2 p (ToLower n) = None
    | Some _ => ~ writable m p
    end;
  write_writes k p n c m m0 p0 n0 v : writes_to k p -> is_ascii n -> hive_value m0 p0 n0 = Some v -> writing v = Some c ->
    match (ChangeValue k n c m).1 with
    | None => hive_value (ChangeValue k n c m).2 p (ToLower n) = Some v
    | Some _ => ~ writable m p
    end;
  numbers_fit m p n q x : hive_value m p n = Some (RegNumber q x) -> 0 <= x < 2 ^ number_bits q;
  others_differ m p n t : hive_value m p n = Some (RegOther t) -> t ∉ [SZ; EXPAND_SZ; DWORD; QWORD; MULTI_SZ] }.

(** ** The handler keeps to its value *)

(** A setting of a machine value that the server accepts, of a key and a name
    whose case Windows ignores and whose identity is its own. *)
Record machine_value `{HiveView W} (s : Setting) : Prop := {
  mv_kind : se_Kind s = KindRegistry;
  mv_hive : ToUpper (se_Hive s) = "HKLM"%string;
  mv_ok : registry_ok s;
  mv_own : unambiguous s;
  mv_path : is_ascii (normalizeKey (se_Key s)) /\ direct (ToLower (normalizeKey (se_Key s)));
  mv_name : is_ascii (se_Name s) }.

(** Text before and after the first [c]. *)
Fixpoint cut_at (c : ascii) (s : string) : option (string * string) :=
  match s with
  | EmptyString => None
  | String d r => if Ascii.eqb c d then Some (EmptyString, r) else match cut_at c r with Some (a, b) => Some (String d a, b) | None => None end
  end.

(** The path and the name that an identity is made of. *)
Definition spot_of (identity : string) : option (string * string) :=
  match CutPrefix "registry:HKLM\" identity with Some r => cut_at "!" r | None => None end.

Lemma cut_at_app c a b : sany (Ascii.eqb c) a = false -> cut_at c (a ++ String c b)%string = Some (a, b).
Proof.
  induction a as [|d a IH]; simpl; [by rewrite Ascii.eqb_refl|]. intros [-> Ha]%orb_false_iff. by rewrite IH.
Qed.

Lemma cut_at_Some c s a b : cut_at c s = Some (a, b) -> s = (a ++ String c b)%string.
Proof.
  revert a. induction s as [|d s IH]; intros a; simpl; [done|]. destruct (Ascii.eqb_spec c d) as [->|Hd]; [by intros [= <- <-]|].
  destruct (cut_at c s) as [[x y]|]; [|done]. intros [= <- <-]. by rewrite (IH x eq_refl).
Qed.

(** *** Numbers and states that are read back *)

Lemma digits_value_grows s acc v : 0 <= acc -> digits_value acc s = Some v -> acc <= v.
Proof.
  revert acc. induction s as [|c s IH]; intros acc Ha; simpl; [by intros [= ->]|]. destruct (is_digit c) eqn:Ec; [|done].
  assert (0 <= digit_value c). { unfold is_digit, in_range in Ec. apply andb_prop in Ec as [Ec%Z.leb_le _]. unfold digit_value; lia. }
  intros Hv%IH; lia.
Qed.

Lemma parse_digits_value bits s acc v : 0 <= acc -> digits_value acc s = Some v -> v < 2 ^ bits -> parse_digits bits acc s = Ok v.
Proof.
  revert acc. induction s as [|c s IH]; intros acc Ha; simpl; [by intros [= ->]|]. destruct (is_digit c) eqn:Ec; [|done].
  assert (0 <= digit_value c). { unfold is_digit, in_range in Ec. apply andb_prop in Ec as [Ec%Z.leb_le _]. unfold digit_value; lia. }
  intros Hv Hb. assert (acc * 10 + digit_value c <= v) by (apply (digits_value_grows s); [lia|done]). destruct (Z.ltb_spec (acc * 10 + digit_value c) (2 ^ bits)); [|lia].
  apply IH; [lia|done..].
Qed.

Lemma digits_value_digits s acc v : digits_value acc s = Some v -> sall is_digit s = true.
Proof. revert acc. induction s as [|c s IH]; intros acc; simpl; [done|]. destruct (is_digit c); [apply IH|done]. Qed.

Lemma Itoa_digits n : 0 <= n -> exists c r, Itoa n = String c r /\ digits_value 0 (Itoa n) = Some n.
Proof.
  intros Hn. destruct (decide (n = 0)) as [->|Hz]; [by do 2 eexists|]. destruct (Itoa_pos n) as (c & r & E & _ & Hv); [lia|].
  exists c, r. by rewrite E.
Qed.

Lemma ParseUint_Itoa n bits : 0 <= n < 2 ^ bits -> ParseUint (Itoa n) bits = Ok n.
Proof.
  intros Hn. destruct (Itoa_digits n) as (c & r & E & Hv); [lia|]. unfold ParseUint. rewrite E in *.
  by rewrite (parse_digits_value bits (String c r) 0 n) by (done || lia).
Qed.

Lemma TrimSpace_Itoa n : 0 <= n -> TrimSpace (Itoa n) = Itoa n.
Proof.
  intros Hn. apply TrimSpace_plain. destruct (Itoa_digits n Hn) as (c & r & _ & Hv). apply digits_value_digits in Hv.
  eapply sall_impl; [|exact Hv]. intros d. unfold is_digit, in_range, plain. rewrite !andb_true_iff, !Z.leb_le. change (code "0") with 48. change (code "9") with 57. lia.
Qed.

Lemma registry_state_roundtrip r : 0 <= rs_Number r < 2 ^ 64 -> decode_registry_state (registry_state_json r) = Ok r.
Proof.
  destruct r as [t str n l k]. cbn [rs_Number]. intros Hn. unfold decode_registry_state, registry_state_json, decode_struct.
  cbn [rs_Type rs_String rs_Number rs_Strings rs_KeyExists]. rewrite decode_members_app.
  rewrite (decode_one registry_state_fields "type" _ _ _ ltac:(reflexivity)). cbn [snd string_field rbind]. rewrite decode_members_app.
  assert (forall r0, rs_String r0 = EmptyString -> decode_members false registry_state_fields (if String.eqb str EmptyString then [] else [("string"%string, JStr str)]) r0
    = Ok (mkRegistryState (rs_Type r0) str (rs_Number r0) (rs_Strings r0) (rs_KeyExists r0))) as Hstep; [|rewrite Hstep by done; clear Hstep].
  { intros r0 E. destruct (String.eqb_spec str EmptyString) as [->|_]; [destruct r0; simpl in *; by subst|].
    by rewrite (decode_one registry_state_fields "string" _ _ _ ltac:(reflexivity)). }
  cbn [rbind]. rewrite decode_members_app. assert (forall r0, rs_Number r0 = 0 -> decode_members false registry_state_fields (if n =? 0 then [] else [("number"%string, jint n)]) r0
    = Ok (mkRegistryState (rs_Type r0) (rs_String r0) n (rs_Strings r0) (rs_KeyExists r0))) as Hstep; [|rewrite Hstep by done; clear Hstep].
  { intros r0 E. destruct (Z.eqb_spec n 0) as [->|_]; [destruct r0; simpl in *; by subst|].
    rewrite (decode_one registry_state_fields "number" _ _ _ ltac:(reflexivity)). unfold jint. cbn [snd uint64_field]. by rewrite ParseUint_Itoa. }
  cbn [rbind]. rewrite decode_members_app. assert (forall r0, rs_Strings r0 = [] -> decode_members false registry_state_fields (match l with [] => [] | x :: l0 => [("strings"%string, JArr (map JStr (x :: l0)))] end) r0
    = Ok (mkRegistryState (rs_Type r0) (rs_String r0) (rs_Number r0) l (rs_KeyExists r0))) as Hstep; [|rewrite Hstep by done; clear Hstep].
  { intros r0 E. destruct l as [|x l]; [destruct r0; simpl in *; by subst|].
    rewrite (decode_one registry_state_fields "strings" _ _ _ ltac:(reflexivity)). cbn [snd strings_field]. by rewrite strings_decode. }
  reflexivity.
Qed.

Lemma lower_upper s : ToLower (ToUpper s) = ToLower s.
Proof.
  unfold ToLower, ToUpper. induction s as [|c s IH]; simpl; [done|]. rewrite IH. f_equal. by destruct c as [[] [] [] [] [] [] [] []].
Qed.

Section Laws.
Context {W : Type} `{RegistryLaws W} `{Certificates} (userHive : W -> result string string) (json_message : json_error -> string).

Definition path_of (s : Setting) : string := ToLower (normalizeKey (se_Key s)).
Definition name_of (s : Setting) : string := ToLower (se_Name s).

Lemma machine_identity s : machine_value s -> Identity s = ("registry:HKLM\" ++ (path_of s ++ String "!" (name_of s)))%string.
Proof. intros [Hk Hh _ _ _ _]. unfold Identity. rewrite Hk, Hh. reflexivity. Qed.

Lemma identity_spot s : machine_value s -> spot_of (Identity s) = Some (path_of s, name_of s).
Proof.
  intros Hs. unfold spot_of. rewrite machine_identity, CutPrefix_app by done. apply cut_at_app. apply Hs.
Qed.

Lemma other_spot s i p n : machine_value s -> i <> Identity s -> spot_of i = Some (p, n) -> (p, n) <> (path_of s, name_of s).
Proof.
  intros Hs Hi Hsp [= -> ->]. apply Hi. rewrite machine_identity by done. unfold spot_of in Hsp.
  destruct (CutPrefix _ i) as [r|] eqn:Er; [|done]. apply CutPrefix_Some in Er as ->. by rewrite (cut_at_Some _ _ _ _ Hsp).
Qed.

(** What the machine has under an identity, and whether that can be read. *)
Definition at_spot {A} (f : string -> string -> option A) (i : string) : option A :=
  match spot_of i with Some (p, n) => if direct p then f p n else None | None => None end.
Definition value_under (m : W) (i : string) : option reg_value := at_spot (hive_value m) i.
Definition view_under (m : W) (i : string) : option (option registry_error * option reg_value) :=
  at_spot (fun p n => Some (hive_denied m p, hive_value m p n)) i.

Lemma spot_only_under s i m m' : machine_value s -> spot_only (path_of s) (name_of s) m m' -> i <> Identity s ->
  value_under m' i = value_under m i /\ view_under m' i = view_under m i.
Proof.
  intros Hs (Hv & Hd & _) Hi. unfold value_under, view_under, at_spot. destruct (spot_of i) as [[p n]|] eqn:Ei; [|done].
  destruct (direct p) eqn:Ep; [|done]. rewrite Hv, Hd; [done|by rewrite Ep..|]. by apply (other_spot s i).
Qed.

Lemma under_identity s m : machine_value s ->
  value_under m (Identity s) = hive_value m (path_of s) (name_of s) /\
  view_under m (Identity s) = Some (hive_denied m (path_of s), hive_value m (path_of s) (name_of s)).
Proof.
  intros Hs. unfold value_under, view_under, at_spot. rewrite identity_spot by done. pose proof (mv_path _ Hs) as [_ Hd]. unfold path_of.
  by destruct (direct _).
Qed.

Instance spot_only_preorder p n : PreOrder (@spot_only W _ _ p n).
Proof.
  split; [by intros m|]. intros a b c (V1 & D1 & R1) (V2 & D2 & R2). split; [|split]; intros; [rewrite V2, V1; done|rewrite D2, D1; done|auto].
Qed.

(** *** What of the hive the operations come to *)

Lemma hiveOf_machine s : machine_value s -> hiveOf s = Ok LOCAL_MACHINE.
Proof. intros [_ Hh _ _ _ _]. unfold hiveOf. by rewrite Hh. Qed.

Lemma machine_hive s : machine_value s -> EqualFold (se_Hive s) "HKCU" = false.
Proof.
  intros [_ Hh _ _ _ _]. unfold EqualFold. by rewrite <- lower_upper, Hh.
Qed.

Lemma keyPath_machine s m : machine_value s -> keyPath userHive s m = Ok (normalizeKey (se_Key s)).
Proof. intros Hs. unfold keyPath. by rewrite machine_hive. Qed.

(** A test as a function of what the machine has. *)
Definition test_view (s : Setting) (d : option registry_error) (v : option reg_value) : result herror bool :=
  match d, v with
  | Some e, _ => Err (regerr e)
  | None, None => Ok (String.eqb (se_Ensure s) EnsureAbsent)
  | None, Some v =>
      if String.eqb (se_Ensure s) EnsureAbsent then Ok false
      else if one_of (se_Type s) [RegSZ; RegExpandSZ] then test_read (read_as as_string (Some v)) (fun got => String.eqb got (se_Data s))
      else if one_of (se_Type s) [RegDWord; RegQWord] then
        match ParseUint (TrimSpace (se_Data s)) 64 with
        | Err e => Err (plain_error e)
        | Ok want => test_read (read_as as_integer (Some v)) (fun n => n =? want)
        end
      else test_read (read_as as_strings (Some v)) (fun got => equalStrings got (MultiSZ s))
  end.

Lemma openKey_to_read s m : machine_value s ->
  match openKey userHive s QUERY_VALUE m with
  | Ok (Some k) => hive_denied m (path_of s) = None /\
      let v := hive_value m (path_of s) (name_of s) in
      GetValue k (se_Name s) m = read_as (Some ∘ value_type) v /\ GetStringValue k (se_Name s) m = read_as as_string v /\
      GetIntegerValue k (se_Name s) m = read_as as_integer v /\ GetStringsValue k (se_Name s) m = read_as as_strings v
  | Ok None => hive_denied m (path_of s) = None /\ hive_value m (path_of s) (name_of s) = None
  | Err e => exists x, hive_denied m (path_of s) = Some x /\ e = regerr x
  end.
Proof.
  intros Hs. unfold openKey. rewrite hiveOf_machine by done. cbn [rbind]. rewrite keyPath_machine by done. cbn [rbind].
  pose proof (mv_path _ Hs) as [Ha Hd]. pose proof (open_to_read (normalizeKey (se_Key s)) m Ha Hd) as Ho. fold (path_of s) in Ho.
  destruct (OpenKey _ _ _ m) as [k|[| |t]]; [destruct Ho as [? Ho]; split; [done|by apply Ho, mv_name]|destruct Ho; split; auto|by eexists..].
Qed.

(** What an accepted setting may ask for. *)
Lemma asked s : machine_value s -> se_Ensure s = EnsureAbsent \/ String.eqb (se_Ensure s) EnsureAbsent = false /\
  (one_of (se_Type s) [RegSZ; RegExpandSZ] = true \/ one_of (se_Type s) [RegSZ; RegExpandSZ] = false /\ one_of (se_Type s) [RegDWord; RegQWord] = true \/
   one_of (se_Type s) [RegSZ; RegExpandSZ] = false /\ one_of (se_Type s) [RegDWord; RegQWord] = false /\ String.eqb (se_Type s) RegMultiSZ = true).
Proof.
  intros Hs. destruct (mv_ok _ Hs) as (_ & _ & _ & [?|[He Ht]]); [by left|right]. split.
  - apply String.eqb_neq. intros E. rewrite E in He. apply elem_of_cons in He as [He|He%list_elem_of_singleton]; done.
  - destruct Ht as [Ht|[Ht _]]; repeat (apply elem_of_cons in Ht as [->|Ht]; [vm_compute; tauto|]); by apply elem_of_nil in Ht.
Qed.

Lemma test_value_view s m : machine_value s -> test_value userHive s m = test_view s (hive_denied m (path_of s)) (hive_value m (path_of s) (name_of s)).
Proof.
  intros Hs. unfold test_value. pose proof (openKey_to_read s m Hs) as Ho. destruct (openKey _ s QUERY_VALUE m) as [[k|]|e]; cbn [rbind].
  - destruct Ho as (-> & Hg & Hst & Hi & Hl). rewrite Hg, Hst, Hi, Hl. unfold test_view. destruct (hive_value _ _ _) as [v|]; cbn [read_as].
    + destruct (asked s Hs) as [->|[-> [->|[[-> ->]|(-> & -> & ->)]]]]; try done. by destruct (as_integer v).
    + destruct (asked s Hs) as [->|[-> [->|[[-> ->]|(-> & -> & ->)]]]]; done.
  - destruct Ho as [-> ->]. done.
  - destruct Ho as (x & -> & ->). done.
Qed.

(** What is noted of a value. *)
Definition state_of_value (v : reg_value) : registryState :=
  match v with
  | RegString _ d => mkRegistryState (typeName (value_type v)) d 0 [] true
  | RegNumber _ n => mkRegistryState (typeName (value_type v)) EmptyString n [] true
  | RegMulti l => mkRegistryState (typeName (value_type v)) EmptyString 0 l true
  | RegOther _ => mkRegistryState EmptyString EmptyString 0 [] true
  end.

Lemma get_value_noted s m : machine_value s -> hive_denied m (path_of s) = None ->
  exists st, get_value userHive s m = Ok st /\
    match hive_value m (path_of s) (name_of s) with
    | None => st_Exists st = false /\ (st_Data st = None \/ st_Data st = Some (registry_state_json (mkRegistryState EmptyString EmptyString 0 [] true)))
    | Some v => st = mkState true (Some (registry_state_json (state_of_value v)))
    end.
Proof.
  intros Hs Hd. unfold get_value. pose proof (openKey_to_read s m Hs) as Ho. destruct (openKey _ s QUERY_VALUE m) as [[k|]|e]; cbn [rbind].
  - destruct Ho as (_ & Hg & Hst & Hi & Hl). rewrite Hg, Hst, Hi, Hl. pose proof (others_differ m (path_of s) (name_of s)) as Hot.
    destruct (hive_value _ _ _) as [v|].
    + destruct v as [[] d|[] n|l|t]; try (eexists; split; [reflexivity|reflexivity]). specialize (Hot t eq_refl).
      rewrite !not_elem_of_cons in Hot. destruct Hot as (?%Z.eqb_neq & ?%Z.eqb_neq & ?%Z.eqb_neq & ?%Z.eqb_neq & ?%Z.eqb_neq & _).
      unfold read_as, compose, value_type, typeName. eexists. repeat match goal with E : (t =? _) = false |- _ => rewrite E; clear E end. split; reflexivity.
    + eexists. split; [reflexivity|]. split; [done|by right].
  - destruct Ho as [_ ->]. eexists. split; [reflexivity|]. split; [done|by left].
  - destruct Ho as (x & Hx & _). congruence.
Qed.

(** *** Changes *)

(** [f] touches the setting's own value at most. *)
Definition own_only (s : Setting) (f : W -> option herror * W) : Prop := forall m, spot_only (path_of s) (name_of s) m (f m).2.

Lemma change_own s k c : machine_value s -> writes_to k (path_of s) -> own_only s (apply_change k (se_Name s) c).
Proof.
  intros Hs Hk m. unfold apply_change. pose proof (change_one k (path_of s) (se_Name s) c m Hk (mv_name _ Hs)) as Hc. by destruct (ChangeValue _ _ _ m).
Qed.

Lemma writeValue_own s k t d l : machine_value s -> writes_to k (path_of s) -> own_only s (writeValue k (se_Name s) t d l).
Proof.
  intros Hs Hk m. unfold writeValue. repeat (case_match; try (by apply change_own)); reflexivity.
Qed.

Lemma openKey_to_write s m : machine_value s ->
  match openKey userHive s SET_VALUE m with
  | Ok (Some k) => writes_to k (path_of s)
  | Ok None => hive_value m (path_of s) (name_of s) = None
  | Err e => ~ writable m (path_of s)
  end.
Proof.
  intros Hs. unfold openKey. rewrite hiveOf_machine by done. cbn [rbind]. rewrite keyPath_machine by done. cbn [rbind].
  pose proof (mv_path _ Hs) as [Ha Hd]. pose proof (open_to_write (normalizeKey (se_Key s)) m Ha Hd) as Ho. fold (path_of s) in Ho.
  by destruct (OpenKey _ _ _ m) as [k|[| |t]].
Qed.

Lemma remove_value_spec s m : machine_value s ->
  let (e, m') := remove_value userHive s m in spot_only (path_of s) (name_of s) m m' /\
    match e with None => hive_value m' (path_of s) (name_of s) = None | Some _ => ~ writable m (path_of s) end.
Proof.
  intros Hs. unfold remove_value. pose proof (openKey_to_write s m Hs) as Ho. destruct (openKey _ s SET_VALUE m) as [[k|]|e]; [|done..].
  pose proof (change_one k _ (se_Name s) DeleteValue m Ho (mv_name _ Hs)) as Hc. pose proof (delete_deletes k _ (se_Name s) m Ho (mv_name _ Hs)) as Hd.
  destruct (ChangeValue _ _ _ m) as [e m']. split; [done|]. cbn [fst snd] in Hd. by destruct e as [[| |t]|].
Qed.

Lemma in_key_own s f : machine_value s -> (forall k, writes_to k (path_of s) -> own_only s (f k)) -> own_only s (in_key userHive LOCAL_MACHINE s f).
Proof.
  intros Hs Hf m. unfold in_key. rewrite keyPath_machine by done. pose proof (mv_path _ Hs) as [Ha Hd].
  destruct (create_to_write (normalizeKey (se_Key s)) m Ha Hd) as [Hq Hk]. destruct (CreateKey _ _ _ m) as [[k|e] m']; cbn [fst snd] in *; [|apply Hq].
  etrans; [apply Hq|]. by apply Hf.
Qed.

Lemma set_value_own s : machine_value s -> own_only s (set_value userHive s).
Proof.
  intros Hs m. unfold set_value. rewrite hiveOf_machine by done. destruct (String.eqb _ _).
  - pose proof (remove_value_spec s m Hs) as Hr. destruct (remove_value _ s m). apply Hr.
  - apply in_key_own; [done|]. intros k Hk. by apply writeValue_own.
Qed.

Lemma revert_value_own s st : machine_value s -> own_only s (revert_value userHive json_message s st).
Proof.
  intros Hs m. unfold revert_value. rewrite hiveOf_machine by done. destruct (match st_Data st with None => _ | Some _ => _ end) as [was|e]; [|reflexivity].
  destruct (negb _).
  - pose proof (remove_value_spec s m Hs) as Hr. destruct (remove_value _ s m). apply Hr.
  - apply in_key_own; [done|]. intros k Hk m'. repeat (case_match; try (by apply writeValue_own); try (by apply change_own)); reflexivity.
Qed.

(** Values of a type the handler knows how to write. *)
Definition known_type (v : option reg_value) : Prop := match v with Some (RegOther _) => False | _ => True end.

Lemma write_noted s k v m m0 p0 n0 c : machine_value s -> writes_to k (path_of s) -> hive_value m0 p0 n0 = Some v -> writing v = Some c ->
  let (e, m') := apply_change k (se_Name s) c m in
  match e with None => hive_value m' (path_of s) (name_of s) = Some v | Some _ => ~ writable m (path_of s) end.
Proof.
  intros Hs Hk Hv Hc. unfold apply_change. pose proof (write_writes k _ (se_Name s) c m m0 p0 n0 v Hk (mv_name _ Hs) Hv Hc) as Hw.
  destruct (ChangeValue _ _ _ m) as [[e|] m']; exact Hw.
Qed.

(** What was noted of a value, written back. *)
Lemma write_state s k v m m0 p0 n0 : machine_value s -> writes_to k (path_of s) -> hive_value m0 p0 n0 = Some v -> known_type (Some v) ->
  let was := state_of_value v in
  let (e, m') :=
    if one_of (rs_Type was) [RegSZ; RegExpandSZ] then writeValue k (se_Name s) (rs_Type was) (rs_String was) [] m
    else if one_of (rs_Type was) [RegDWord; RegQWord] then writeValue k (se_Name s) (rs_Type was) (Itoa (rs_Number was)) [] m
    else if String.eqb (rs_Type was) RegMultiSZ then apply_change k (se_Name s) (SetStringsValue (rs_Strings was)) m
    else (Some (plain_error ("the previous value had an unsupported type " ++ Quoted (rs_Type was))), m) in
  match e with None => hive_value m' (path_of s) (name_of s) = Some v | Some _ => ~ writable m (path_of s) end.
Proof.
  intros Hs Hk Hv Hty. pose proof (fun c => write_noted s k v m m0 p0 n0 c Hs Hk Hv) as Hw. cbv zeta.
  destruct v as [[] d|q n|l|t]; [by apply Hw..| |by apply Hw|done].
  pose proof (numbers_fit _ _ _ _ _ Hv) as Hn. destruct q; cbn [state_of_value rs_Type rs_String rs_Number rs_Strings value_type].
  - change (let (e, m') := match ParseUint (TrimSpace (Itoa n)) 64 with Err e => (Some (plain_error e), m) | Ok n => apply_change k (se_Name s) (SetQWordValue n) m end
      in match e with None => hive_value m' (path_of s) (name_of s) = Some (RegNumber true n) | Some _ => ~ writable m (path_of s) end).
    rewrite TrimSpace_Itoa, ParseUint_Itoa by (done || lia). by apply Hw.
  - change (let (e, m') := match ParseUint (TrimSpace (Itoa n)) 32 with Err e => (Some (plain_error e), m) | Ok n => apply_change k (se_Name s) (SetDWordValue n) m end
      in match e with None => hive_value m' (path_of s) (name_of s) = Some (RegNumber false n) | Some _ => ~ writable m (path_of s) end).
    rewrite TrimSpace_Itoa, ParseUint_Itoa by (done || lia). by apply Hw.
Qed.

(** Undoing puts back what was noted, of a value of a known type; and it only
    fails where the key is not writable. *)
Lemma revert_value_restores s m st n : machine_value s -> get_value userHive s m = Ok st -> known_type (hive_value m (path_of s) (name_of s)) ->
  let (e, n') := revert_value userHive json_message s st n in
  match e with None => hive_value n' (path_of s) (name_of s) = hive_value m (path_of s) (name_of s) | Some _ => ~ writable n (path_of s) end.
Proof.
  intros Hs Hg Hty. assert (hive_denied m (path_of s) = None) as Hd.
  { unfold get_value in Hg. pose proof (openKey_to_read s m Hs) as Ho. destruct (openKey _ s QUERY_VALUE m) as [[k|]|e]; [by destruct Ho..|done]. }
  destruct (get_value_noted s m Hs Hd) as (st' & Hg' & Hst). assert (st' = st) as -> by congruence. unfold revert_value. rewrite hiveOf_machine by done.
  destruct (hive_value m _ _) as [v|] eqn:Ev.
  - subst st. cbn [st_Data st_Exists]. rewrite registry_state_roundtrip.
    2: { destruct v as [e d|q x|l|t]; cbn; try lia. pose proof (numbers_fit _ _ _ _ _ Ev) as Hx. destruct q; cbn in Hx; lia. }
    cbn [negb]. unfold in_key. rewrite keyPath_machine by done. pose proof (mv_path _ Hs) as [Ha Hdi].
    destruct (create_to_write (normalizeKey (se_Key s)) n Ha Hdi) as [Hq Hk]. fold (path_of s) in Hk.
    destruct (CreateKey _ _ _ n) as [[k|e] n1]; cbn [fst snd] in *; [|done].
    pose proof (write_state s k v n1 m _ _ Hs Hk Ev Hty) as Hw. cbv zeta in Hw. destruct (if one_of _ _ then _ else _) as [[e|] n2]; [|done].
    intros Hwr. apply Hw. destruct (Hq EmptyString EmptyString) as (_ & _ & Hr). by apply Hr.
  - destruct Hst as [Hex Hdata].
    assert (exists was, (match st_Data st with None => Ok no_registry_state | Some raw => decode_registry_state raw end) = Ok was) as [was ->].
    { destruct Hdata as [->| ->]; [by eexists|]. rewrite registry_state_roundtrip by (cbn; lia). by eexists. }
    rewrite Hex. cbn [negb]. pose proof (remove_value_spec s n Hs) as Hr. destruct (remove_value _ s n) as [e n']. apply Hr.
Qed.

(** Nor is a value of another type written back. *)
Lemma revert_value_unknown s m st n t : machine_value s -> get_value userHive s m = Ok st -> hive_value m (path_of s) (name_of s) = Some (RegOther t) ->
  (revert_value userHive json_message s st n).1 <> None.
Proof.
  intros Hs Hg Ev. assert (hive_denied m (path_of s) = None) as Hd.
  { unfold get_value in Hg. pose proof (openKey_to_read s m Hs) as Ho. destruct (openKey _ s QUERY_VALUE m) as [[k|]|e]; [by destruct Ho..|done]. }
  destruct (get_value_noted s m Hs Hd) as (st' & Hg' & Hst). assert (st' = st) as -> by congruence. rewrite Ev in Hst. subst st.
  unfold revert_value. rewrite hiveOf_machine by done. cbn [st_Data st_Exists]. rewrite registry_state_roundtrip by (cbn; lia). cbn [negb].
  unfold in_key. rewrite keyPath_machine by done. by destruct (CreateKey _ _ _ n) as [[k|e] n1].
Qed.

(** ** Among the handlers *)

(** [Handlers]: this one first, and any others. *)
Definition Handlers (others : list (Handler W)) : list (Handler W) := RegistryHandler userHive json_message :: others.

Context (others : list (Handler W)).

Lemma handles_registry h s : handles (Handlers others) machine_value h s -> h = RegistryHandler userHive json_message /\ machine_value s.
Proof. intros [Hh Hs]. split; [|done]. unfold handlerFor in Hh. rewrite (mv_kind _ Hs) in Hh. by injection Hh. Qed.

(** Opens what a handler's state is after setting or undoing. *)
Ltac own Hs := match goal with
  | |- context [set_value ?u ?s ?m] => pose proof (set_value_own s Hs m); destruct (set_value u s m)
  | |- context [revert_value ?u ?j ?s ?st ?m] => pose proof (revert_value_own s st Hs m); destruct (revert_value u j s st m)
  end.

#[export] Instance registry_values_local : LocalHandlers value_under (Handlers others) machine_value.
Proof.
  split; intros h.
  - by intros s m [-> Hs]%handles_registry.
  - by intros s m [-> Hs]%handles_registry.
  - intros s m i [-> Hs]%handles_registry Hi. cbn. own Hs. by apply (spot_only_under s).
  - intros undo s st m i [-> Hs]%handles_registry [= <-] Hi. cbn. own Hs. by apply (spot_only_under s).
Qed.

#[export] Instance registry_views_local : LocalHandlers view_under (Handlers others) machine_value.
Proof.
  split; intros h.
  - by intros s m [-> Hs]%handles_registry.
  - by intros s m [-> Hs]%handles_registry.
  - intros s m i [-> Hs]%handles_registry Hi. cbn. own Hs. by apply (spot_only_under s).
  - intros undo s st m i [-> Hs]%handles_registry [= <-] Hi. cbn. own Hs. by apply (spot_only_under s).
Qed.

#[export] Instance registry_values_undone : UndoingHandlers value_under (Handlers others) machine_value.
Proof.
  split; intros h.
  - intros s m [-> Hs]%handles_registry. cbn. rewrite test_value_view by done. destruct (hive_denied _ _) as [e|] eqn:Ed; [done|]. intros _.
    destruct (get_value_noted s m Hs Ed) as (st & -> & _). by exists st.
  - intros s [-> Hs]%handles_registry. eexists. split; [reflexivity|]. intros st m. cbn. destruct (revert_value _ _ s st m). by eexists.
  - intros undo s st m n [-> Hs]%handles_registry [= <-]. cbn. intros [= Hg]. rewrite !(proj1 (under_identity s _ Hs)).
    pose proof (revert_value_restores s m st n Hs Hg) as Hr. pose proof (revert_value_unknown s m st n) as Hu.
    destruct (revert_value _ _ s st n) as [e n']. cbn in *. intros [= ->]. destruct (hive_value m _ _) as [[| | |t]|]; try by apply Hr. by destruct (Hu t).
Qed.

#[export] Instance registry_tests : TestedHandlers view_under (Handlers others) machine_value.
Proof.
  intros h s m n [-> Hs]%handles_registry. rewrite !(proj2 (under_identity s _ Hs)). intros [= Hd Hv]. cbn. by rewrite !test_value_view, Hd, Hv.
Qed.

Lemma writable_steady p : direct p = true -> steady (Handlers others) machine_value (fun m => writable m p).
Proof.
  intros Hp. split; intros h.
  - intros s m [-> Hs]%handles_registry. cbn. own Hs. apply H2. by rewrite Hp.
  - intros undo s st m [-> Hs]%handles_registry [= <-]. cbn. own Hs. apply H2. by rewrite Hp.
Qed.

(** *** What comes of it *)

Context {N : Type} `{ProfileServer N} (range : gmap string ProfileRecord -> list (string * ProfileRecord)).
Hypothesis range_lists : forall m, Permutation (range m) (map_to_list m).
Implicit Types w : pworld W N.

(** C16. C1: a registry value of the machine that profiles managed, however often,
    in however many versions and however the machine drifted meanwhile: the
    first cycle in which nobody claims it, and a remembered profile that asked
    to be undone is gone, gives the machine back what it had before the value
    was first changed - the same data of the same type, or no value - and
    forgets what was noted. The value was of a type the handler knows, the key
    can be written, and the agent's store works. The profiles are of such
    registry values alone; other kinds of setting need not be undone so. *)
Theorem removal_restores_the_original s w w' assigned id rec :
  machine_value s -> fresh w -> history value_under (Handlers others) machine_value range (Identity s) w w' ->
  known_type (value_under (p_machine w) (Identity s)) -> writable (p_machine w') (path_of s) ->
  in_range_claims (active assigned) -> all_settings machine_value (active assigned) -> Identity s ∉ claimed assigned ->
  p_records w' !! id = Some rec -> id ∉ map as_ProfileID assigned -> pr_RevertOnRemoval rec = true -> Identity s ∈ pr_Identities rec ->
  let w2 := (Reconcile (Handlers others) range assigned w').2 in
  hive_value (p_machine w2) (path_of s) (name_of s) = hive_value (p_machine w) (path_of s) (name_of s) /\ p_prior w2 !! Identity s = None.
Proof.
  intros Hs Hw Hh Hty Hwr Hr HP Hi Hrec Hid Hrev Hin. cbv zeta. rewrite <- !(proj1 (under_identity s _ Hs)).
  refine (history_undone value_under (Handlers others) machine_value range range_lists (fun m => writable m (path_of s)) (Identity s) w w' assigned id rec
    Hw Hh (writable_steady _ _) Hwr _ Hr HP Hi Hrec Hid Hrev Hin).
  - pose proof (mv_path _ Hs) as [_ Hd]. unfold path_of. by destruct (direct _).
  - intros h undo t st m n [-> Ht]%handles_registry [= <-] Ei. cbn. intros [= Hg] Hv Hl.
    assert (path_of t = path_of s /\ name_of t = name_of s) as [Ep En].
    { pose proof (identity_spot t Ht) as Hsp. rewrite Ei, (identity_spot s Hs) in Hsp. by injection Hsp. }
    rewrite (proj1 (under_identity s _ Hs)), <- Ep, <- En in Hv.
    pose proof (revert_value_restores t m st n Ht Hg) as Hrv. rewrite Hv in Hrv. specialize (Hrv Hty).
    destruct (revert_value _ _ t st n) as [[e|] n']; [|done]. rewrite Ep in Hrv. done.
Qed.

(** C31. C1: for profiles of registry values of the machine: when every value a
    cycle applied was reported compliant, remediated or in conflict, the
    machine has come to rest. The next cycle over the same profiles asks it for
    nothing but tests, and changes, undoes and notes nothing. *)
Theorem second_cycle_changes_nothing assigned w e w1 :
  in_range_claims (active assigned) -> all_settings machine_value (active assigned) -> tidy machine_value w ->
  Reconcile (Handlers others) range assigned w = (Ok e, w1) -> all_good assigned w w1 ->
  idle w1 (Reconcile (Handlers others) range assigned w1).2.
Proof. intros Hr HP Hw E Hg. exact (cycle_then_idle view_under (Handlers others) machine_value range range_lists assigned w e w1 Hr HP Hw E Hg). Qed.
End Laws.
