(* ===== verification/UpdateHandler.v ===== *)
(** * The handler of Windows Update settings

    [internal/agent/policy/handler_update.go]: one setting as the registry
    values Windows reads it from, each handled by the registry's handler. *)
From S2P Require Export RegistryHandler.
Open Scope Z_scope.
Open Scope go_scope.

Definition updatePolicyKey : string := "SOFTWARE\Policies\Microsoft\Windows\WindowsUpdate".

Definition update_value (name type data : string) : Setting :=
  set_Data data (set_Type type (set_Name name (set_Key updatePolicyKey (set_Hive "HKLM" (set_Kind KindRegistry zero_setting))))).
Definition update_dword (name : string) (v : Z) : Setting := update_value name RegDWord (Itoa v).
Definition update_text (name v : string) : Setting := update_value name RegSZ v.

(** The first of each name. *)
Fixpoint first_named (seen : list string) (l : list Setting) : list Setting :=
  match l with
  | [] => []
  | s :: r => if one_of (se_Name s) seen then first_named seen r else s :: first_named (se_Name s :: seen) r
  end.

Definition when {A} (b : bool) (l : list A) : list A := if b then l else [].
Definition for_given {A B} (o : option A) (f : A -> list B) : list B := match o with Some a => f a | None => [] end.
Definition is_given {A} (o : option A) : bool := match o with Some _ => true | None => false end.
Definition says (s : string) : bool := negb (String.eqb s EmptyString).

Definition UpdatePolicyValues (s : Setting) : list Setting :=
  first_named [] (
    when (is_given (se_QualityDeferralDays s) || says (se_PauseQualityFrom s))
      [update_dword "DeferQualityUpdates" 1; update_dword "DeferQualityUpdatesPeriodInDays" (default 0 (se_QualityDeferralDays s))]
    ++ when (says (se_PauseQualityFrom s)) [update_text "PauseQualityUpdatesStartTime" (se_PauseQualityFrom s)]
    ++ when (is_given (se_FeatureDeferralDays s) || says (se_PauseFeatureFrom s))
      [update_dword "DeferFeatureUpdates" 1; update_dword "DeferFeatureUpdatesPeriodInDays" (default 0 (se_FeatureDeferralDays s))]
    ++ when (says (se_PauseFeatureFrom s)) [update_text "PauseFeatureUpdatesStartTime" (se_PauseFeatureFrom s)]
    ++ for_given (se_ActiveHoursStart s) (fun a => for_given (se_ActiveHoursEnd s) (fun b =>
        [update_dword "SetActiveHours" 1; update_dword "ActiveHoursStart" a; update_dword "ActiveHoursEnd" b]))
    ++ for_given (se_AutoRestart s) (fun b => [update_dword "NoAutoRebootWithLoggedOnUsers" (if b : bool then 0 else 1)])
    ++ when (is_given (se_QualityDeadlineDays s) || is_given (se_FeatureDeadlineDays s)) (
        [update_dword "SetComplianceDeadline" 1]
        ++ for_given (se_QualityDeadlineDays s) (fun n => [update_dword "ConfigureDeadlineForQualityUpdates" n])
        ++ for_given (se_FeatureDeadlineDays s) (fun n => [update_dword "ConfigureDeadlineForFeatureUpdates" n])
        ++ for_given (se_DeadlineGraceDays s) (fun n =>
            [update_dword "ConfigureDeadlineGracePeriod" n; update_dword "ConfigureDeadlineGracePeriodForFeatureUpdates" n]))
    ++ when (says (se_TargetProduct s) && says (se_TargetVersion s))
      [update_dword "TargetReleaseVersion" 1; update_text "ProductVersion" (se_TargetProduct s); update_text "TargetReleaseVersionInfo" (se_TargetVersion s)]).

(** [updateState]: one state per value, by name; its JSON has the names in order. *)
Definition update_state_json (l : list (string * State)) : json :=
  JObj [("values"%string, JObj (map (fun x => (x.1, state_json x.2)) (order_by (fun a b => String.leb a.1 b.1) l)))].
Fixpoint decode_states (l : list (string * json)) (acc : gmap string State) : result json_error (gmap string State) :=
  match l with
  | [] => Ok acc
  | (k, v) :: r => let! st := decode_struct false state_fields v (mkState false None) in decode_states r (<[k := st]> acc)
  end.
Definition states_field : field (gmap string State) :=
  ("values"%string, fun v m => match v with JNull => Ok ∅ | JObj l => decode_states l m | _ => Err TypeMismatch end).
Definition decode_update_state (v : json) : result json_error (gmap string State) := decode_struct false [states_field] v ∅.

Section Update.
Context {W : Type} (registry : Handler W) (json_message : json_error -> string).

Fixpoint get_values (l : list Setting) : txn W string (result herror (list (string * State))) :=
  match l with
  | [] => tret (Ok [])
  | v :: rest =>
      let* prior := h_Get registry v in
      match prior with
      | Err e => tret (Err e)
      | Ok prior => let* more := get_values rest in tret (match more with Ok l => Ok ((se_Name v, prior) :: l) | Err e => Err e end)
      end
  end.

Fixpoint test_values (l : list Setting) : txn W string (result herror bool) :=
  match l with
  | [] => tret (Ok true)
  | v :: rest =>
      let* ok := h_Test registry v in
      match ok with
      | Ok true => test_values rest
      | r => tret r
      end
  end.

(** [fmt.Errorf] with [%w]: an error wrapped is still what it was. *)
Definition of_value (v : Setting) (e : herror) : herror := mkHerror (se_Name v ++ ": " ++ he_Message e) (he_NotApplicable e).

Fixpoint set_values (l : list Setting) : txn W string (option herror) :=
  match l with
  | [] => tret None
  | v :: rest =>
      let* e := h_Set registry v in
      match e with Some e => tret (Some (of_value v e)) | None => set_values rest end
  end.

Fixpoint revert_values (undo : Setting -> State -> txn W string (option herror)) (was : gmap string State) (l : list Setting)
    : txn W string (option herror) :=
  match l with
  | [] => tret None
  | v :: rest =>
      let* e := undo v (default (mkState false None) (was !! se_Name v)) in
      match e with Some e => tret (Some (of_value v e)) | None => revert_values undo was rest end
  end.

Definition get_update (s : Setting) : txn W string (result herror State) :=
  let* was := get_values (UpdatePolicyValues s) in
  tret (match was with
        | Err e => Err e
        | Ok was => Ok (mkState (existsb (fun x => st_Exists x.2) was) (Some (update_state_json was)))
        end).

Definition revert_update (s : Setting) (prior : State) : txn W string (option herror) :=
  match h_Revert registry with
  | None => tret (Some (plain_error "the registry handler cannot revert"))
  | Some undo =>
      match (match st_Data prior with None => Ok ∅ | Some raw => decode_update_state raw end) with
      | Err e => tret (Some (plain_error (json_message e)))
      | Ok was => revert_values undo was (UpdatePolicyValues s)
      end
  end.

Definition WindowsUpdateHandler : Handler W :=
  mkHandler W KindWindowsUpdate get_update (fun s => test_values (UpdatePolicyValues s)) (fun s => set_values (UpdatePolicyValues s)) (Some revert_update).
End Update.

(** The values of a setting are of one key, each of a name of its own. *)
Lemma first_named_names l : forall seen, NoDup (map se_Name (first_named seen l)) /\ (forall s, s ∈ first_named seen l -> (se_Name s ∉ seen) /\ s ∈ l).
Proof.
  induction l as [|x l IH]; intros seen; simpl; [split; [constructor|by intros s ?%elem_of_nil]|].
  destruct (one_of (se_Name x) seen) eqn:E.
  - destruct (IH seen) as [H1 H2]. split; [done|]. intros s [? ?]%H2. split; [done|by right].
  - destruct (IH (se_Name x :: seen)) as [H1 H2]. split.
    + constructor; [|done]. intros (s & Es & [Hs _]%H2)%list_elem_of_fmap. apply Hs. rewrite <- Es. left.
    + assert (se_Name x ∉ seen) by (rewrite <- one_of_spec, E; done).
      intros s [->|[Hs ?]%H2]%elem_of_cons; [split; [done|left]|]. split; [|by right]. intros Hin. apply Hs. by right.
Qed.

Lemma update_values_named s : NoDup (map se_Name (UpdatePolicyValues s)).
Proof. apply first_named_names. Qed.
