(* ===== verification/PolicyExamples.v ===== *)
(** * A small machine under the policy engine

    A registry that keeps to the laws of the package, with the handlers of
    registry values and of Windows Update: the hypotheses of the engine's
    theorems hold there, and a few histories show where the engine and its
    handlers do not do what they mean to. *)
From S2P Require Export UpdateHandler.
Open Scope Z_scope.
Open Scope go_scope.

Module Desk.
#[export] Existing Instance Sample.certificates.

(** The machine's hive: the keys, by path in lower case, with their values by
    name in lower case; and the keys nobody may write. *)
Record machine := mkMachine { mc_Keys : gmap string (gmap string reg_value); mc_Locked : list string }.
Definition set_keys (k : gmap string (gmap string reg_value)) (m : machine) : machine := mkMachine k (mc_Locked m).

Definition known_code (t : Z) : bool := existsb (Z.eqb t) [SZ; EXPAND_SZ; DWORD; QWORD; MULTI_SZ].

(** A value as it is read. *)
Definition as_read (v : reg_value) : reg_value :=
  match v with
  | RegNumber q n => RegNumber q (n mod 2 ^ number_bits q)
  | RegOther t => RegOther (if known_code t then 0 else t)
  | v => v
  end.
Definition value_at (m : machine) (p n : string) : option reg_value := as_read <$> (mc_Keys m !! p ≫= (.!! n)).
Definition locked (m : machine) (p : string) : bool := existsb (String.eqb p) (mc_Locked m).
Definition access_denied : registry_error := Errno "Access is denied.".

Definition written (c : value_change) : option reg_value :=
  match c with
  | SetStringValue s => Some (RegString false s)
  | SetExpandStringValue s => Some (RegString true s)
  | SetDWordValue n => Some (RegNumber false n)
  | SetQWordValue n => Some (RegNumber true n)
  | SetStringsValue l => Some (RegMulti l)
  | DeleteValue => None
  end.
Definition change_value (k n : string) (c : value_change) (m : machine) : option registry_error * machine :=
  let vs := default ∅ (mc_Keys m !! k) in
  match written c with
  | Some v => (None, set_keys (<[k := <[n := v]> vs]> (mc_Keys m)) m)
  | None => match vs !! n with None => (Some ErrNotExist, m) | Some _ => (None, set_keys (<[k := delete n vs]> (mc_Keys m)) m) end
  end.

(** Keys are opened in the machine's hive alone. *)
#[export] Instance registry_package : Registry machine := {|
  registry_Key := string;
  OpenKey h p a m := match h, a with
    | USERS, _ => Err ErrNotExist
    | LOCAL_MACHINE, QUERY_VALUE => match mc_Keys m !! ToLower p with Some _ => Ok (ToLower p) | None => Err ErrNotExist end
    | LOCAL_MACHINE, SET_VALUE => if locked m (ToLower p) then Err access_denied
        else match mc_Keys m !! ToLower p with Some _ => Ok (ToLower p) | None => Err ErrNotExist end
    end;
  CreateKey h p a m := match h with
    | USERS => (Err access_denied, m)
    | LOCAL_MACHINE => if locked m (ToLower p) then (Err access_denied, m)
        else (Ok (ToLower p), set_keys (<[ToLower p := default ∅ (mc_Keys m !! ToLower p)]> (mc_Keys m)) m)
    end;
  GetValue k n m := read_as (Some ∘ value_type) (value_at m k (ToLower n));
  GetStringValue k n m := read_as as_string (value_at m k (ToLower n));
  GetIntegerValue k n m := read_as as_integer (value_at m k (ToLower n));
  GetStringsValue k n m := read_as as_strings (value_at m k (ToLower n));
  ChangeValue k n c m := change_value k (ToLower n) c m;
  registry_text e := match e with
    | ErrNotExist => "The system cannot find the file specified."
    | ErrUnexpectedType => "unexpected key value type"
    | Errno t => t end%string |}.

#[export] Instance machine_hive_view : HiveView machine := {|
  hive_value := value_at;
  hive_denied _ _ := None;
  direct _ := true;
  writable m p := locked m p = false;
  writes_to k p := k = p |}.

#[local] Arguments set_keys : simpl never.

Lemma as_read_again v : as_read (as_read v) = as_read v.
Proof.
  destruct v as [|q n| |t]; unfold as_read; [done| |done|].
  - f_equal. apply Zmod_mod.
  - f_equal. destruct (known_code t) eqn:E; [done|]. by rewrite E.
Qed.

Lemma value_of_insert m k vs p n :
  value_at (set_keys (<[k := vs]> (mc_Keys m)) m) p n = if String.eqb p k then as_read <$> vs !! n else value_at m p n.
Proof.
  unfold value_at. simpl. destruct (String.eqb_spec p k) as [->|Hp]; [by rewrite lookup_insert_eq|by rewrite lookup_insert_ne].
Qed.

Lemma value_default m p n : as_read <$> default ∅ (mc_Keys m !! p) !! n = value_at m p n.
Proof. unfold value_at. destruct (mc_Keys m !! p); [done|]. simpl. by rewrite lookup_empty. Qed.

Lemma change_value_one k n c m : spot_only k n m (change_value k n c m).2.
Proof.
  assert (forall vs, (forall n', n' <> n -> as_read <$> vs !! n' = value_at m k n') -> spot_only k n m (set_keys (<[k := vs]> (mc_Keys m)) m)) as Hins.
  { intros vs Hvs. split; [|done]. intros p' n' _ Hne. cbn [hive_value machine_hive_view]. rewrite value_of_insert.
    destruct (String.eqb_spec p' k) as [->|]; [|done]. apply Hvs. congruence. }
  unfold change_value. destruct (written c) as [v|].
  - apply Hins. intros n' Hn. rewrite lookup_insert_ne by done. apply value_default.
  - destruct (_ !! n); [|by split; [|split]]. apply Hins. intros n' Hn. rewrite lookup_delete_ne by done. apply value_default.
Qed.

Lemma change_value_delete k n m :
  match (change_value k n DeleteValue m).1 with
  | None | Some ErrNotExist => value_at (change_value k n DeleteValue m).2 k n = None
  | Some _ => locked m k <> false
  end.
Proof.
  unfold change_value. cbn [written]. destruct (default ∅ (mc_Keys m !! k) !! n) eqn:E; cbn [fst snd].
  - by rewrite value_of_insert, String.eqb_refl, lookup_delete_eq.
  - by rewrite <- value_default, E.
Qed.

Lemma change_value_write k n c m m0 p0 n0 v : value_at m0 p0 n0 = Some v -> writing v = Some c ->
  match (change_value k n c m).1 with
  | None => value_at (change_value k n c m).2 k n = Some v
  | Some _ => locked m k <> false
  end.
Proof.
  intros Hv Hc. assert (as_read v = v) as Hr by (unfold value_at in Hv; apply fmap_Some in Hv as (x & _ & ->); apply as_read_again).
  assert (written c = Some v) as Hw by (destruct v as [[] ?|[] ?|?|?]; simpl in Hc; by simplify_eq). unfold change_value. rewrite Hw. cbn [fst snd].
  rewrite value_of_insert, String.eqb_refl, lookup_insert_eq. simpl. by rewrite Hr.
Qed.

#[export] Instance machine_laws : RegistryLaws machine.
Proof.
  split.
  - intros p m _ _. simpl. destruct (mc_Keys m !! ToLower p) eqn:E; [done|]. split; [done|]. intros n. unfold value_at. by rewrite E.
  - intros p m _ _. simpl. destruct (locked m (ToLower p)) eqn:El; simpl; [by try rewrite El|]. destruct (mc_Keys m !! ToLower p) eqn:E; [done|].
    intros n. unfold value_at. by rewrite E.
  - intros p m _ _. simpl. destruct (locked m (ToLower p)) eqn:El; simpl; [by try rewrite El|]. split; [|done]. intros p0 n0. split; [|done].
    intros p' n' _ _. simpl. rewrite value_of_insert. destruct (String.eqb_spec p' (ToLower p)) as [->|]; [apply value_default|done].
  - intros k p n c m <- _. apply change_value_one.
  - intros k p n m <- _. apply change_value_delete.
  - intros k p n c m m0 p0 n0 v <- _. apply change_value_write.
  - intros m p n q x. simpl. unfold value_at. intros (v & _ & E)%fmap_Some. destruct v; simplify_eq/=. apply Z.mod_pos_bound. by destruct quad.
  - intros m p n t. simpl. unfold value_at. intros (v & _ & E)%fmap_Some. destruct v as [| | |t']; simplify_eq/=. destruct (known_code t') eqn:Ek.
    + vm_compute. intros Hin. repeat (apply elem_of_cons in Hin as [?|Hin]; [done|]). by apply elem_of_nil in Hin.
    + intros Hin%list_elem_of_In. assert (known_code t' = true) as E'; [|congruence]. apply existsb_exists. exists t'. by rewrite Z.eqb_refl.
Qed.

Definition nobody (m : machine) : result string string := Err "nobody is signed in"%string.
Definition no_message (e : json_error) : string := "bad JSON".
Definition registry : Handler machine := RegistryHandler nobody no_message.
Definition updates : Handler machine := WindowsUpdateHandler registry no_message.
Definition handlers : list (Handler machine) := Handlers nobody no_message [updates].

(** A server that takes every report and gives out what a table says. *)
Definition table : Type := string -> Z -> result string ProfileVersionResponse.
#[export] Instance server : ProfileServer table := {|
  ReportProfileStatus _ _ n := (None, n);
  FetchProfile id v n := (n id v, n) |}.

Definition in_order (m : gmap string ProfileRecord) : list (string * ProfileRecord) := map_to_list m.
Lemma in_order_lists m : Permutation (in_order m) (map_to_list m).
Proof. done. Qed.

Definition nothing : table := fun _ _ => Err "no such profile"%string.
Definition start (m : machine) : pworld machine table := mkPworld m nothing ∅ ∅ ∅ [] [].
Definition cycle (assigned : list Assigned) (w : pworld machine table) : pworld machine table :=
  (Reconcile handlers in_order assigned w).2.

Definition value (name data : string) : Setting := set_Data data (set_Name name Sample.banner).
Definition profile (id : string) (version : Z) (settings : list Setting) : Assigned := mkAssigned id version settings true EmptyString.

Definition A : string := Identity (value "A" "").
Definition B : string := Identity (value "B" "").
Definition acme : string := "software\acme".
Definition original : machine := mkMachine {[ acme := {[ "a"%string := RegString true "original" ]} ]} [].
Definition has (name : string) (w : pworld machine table) : option reg_value := value_at (p_machine w) acme name.
Definition text_value (data : string) : option reg_value := Some (RegString false data).
Definition was_there : option reg_value := Some (RegString true "original").

Definition managed : pworld machine table := cycle [profile "p1" 1 [value "A" "managed"]] (start original).

Example a_profile_comes_and_goes : has "a" managed = text_value "managed" /\ has "a" (cycle [] managed) = was_there.
Proof. vm_compute. done. Qed.

(** Two spellings of one setting, wanting the same: a conflict. *)
Definition shout (s : Setting) : Setting := set_Hive "HKLM" s.
Example spelling_is_a_conflict :
  Identity (shout (value "A" "x")) = A
  /\ map ac_Conflict (Plan [profile "p1" 1 [value "A" "x"]; profile "p2" 1 [shout (value "A" "x")]]) = [true].
Proof. vm_compute. done. Qed.

(** A setting dropped from a profile stays for good, though the profile is
    later removed and asked to be undone: its record forgot the setting. *)
Example dropped_setting_stays :
  let w1 := cycle [profile "p1" 1 [value "A" "managed"; value "B" "managed"]] (start original) in
  let w2 := cycle [profile "p1" 2 [value "A" "managed"]] w1 in
  let w3 := cycle [] w2 in
  has "a" w3 = was_there /\ has "b" w3 = text_value "managed" /\ is_Some (p_prior w3 !! B) /\ p_records w3 = ∅.
Proof. vm_compute. repeat split; try done. by eexists. Qed.

(** Undoing that fails - the key is not writable for a moment - is not tried
    again: the record goes all the same. *)
Definition lock (l : list string) (w : pworld machine table) : pworld machine table := with_machine (mkMachine (mc_Keys (p_machine w)) l) w.
Example failed_undoing_is_forgotten :
  let w1 := cycle [] (lock [acme] managed) in
  let w2 := cycle [] (lock [] w1) in
  has "a" w2 = text_value "managed" /\ is_Some (p_prior w2 !! A) /\ p_records w2 = ∅.
Proof. vm_compute. repeat split; try done. by eexists. Qed.

(** What a cycle reported last. *)
Definition last_report (w : pworld machine table) : list (string * string) :=
  match last (p_calls w) with Some (Reported _ st) => map (fun r => (sr_Status r, sr_Detail r)) (ps_Settings st) | _ => [] end.

(** A number where there is to be text: the test is an error, and the value is
    never put right. *)
Definition wrong_type : machine := mkMachine {[ acme := {[ "a"%string := RegNumber false 1 ]} ]} [].
Example a_wrong_type_is_never_fixed :
  let w := cycle [profile "p1" 1 [value "A" "managed"]] (start wrong_type) in
  has "a" w = Some (RegNumber false 1) /\ last_report w = [(SettingError, "unexpected key value type"%string)].
Proof. vm_compute. done. Qed.

(** A number of more than 32 bits is accepted for a value of 32, and cannot be
    set. *)
Definition big : Setting := set_Type "REG_DWORD" (value "A" "4294967296").
Example a_long_dword_is_accepted :
  ValidateSettings [big] = Ok tt /\
  has "a" (cycle [profile "p1" 1 [big]] (start (mkMachine ∅ []))) = None /\
  map fst (last_report (cycle [profile "p1" 1 [big]] (start (mkMachine ∅ [])))) = [SettingError].
Proof. vm_compute. done. Qed.

(** Updates deferred by seven days, and the same value set to three as a
    registry value: two identities, so no conflict; both are reported
    remediated, in every cycle. *)
Definition deferred : Setting := set_QualityDeferralDays (Some 7) (set_Kind KindWindowsUpdate zero_setting).
Definition deferral : Setting := update_dword "DeferQualityUpdatesPeriodInDays" 3.
Example two_settings_take_turns :
  let profiles := [profile "p1" 1 [deferred]; profile "p2" 1 [deferral]] in
  let w1 := cycle profiles (start (mkMachine ∅ [])) in
  let w2 := cycle profiles w1 in
  ValidateSettings [deferred; deferral] = Ok tt /\ map ac_Conflict (Plan profiles) = [false; false] /\
  map (fun e => match e with Reported id st => Some (id, map sr_Status (ps_Settings st)) | _ => None end) (drop (length (p_calls w1)) (p_calls w2))
    = [None; None; None; None; None; None; Some ("p1", [SettingRemediated]); Some ("p2", [SettingRemediated])]%string.
Proof. vm_compute. done. Qed.

(** *** Through the syncer *)

#[local] Existing Instance Toy.toy_crypto.
Definition text (j : json) : string := match j with JArr l => Itoa (Z.of_nat (length l)) | _ => EmptyString end.
Definition item : Item := mkItem ItemKindProfile "p1" 1 (RawValue (JObj [("revert_on_removal"%string, JBool true)])).
Definition offers (settings : list Setting) (signature : option OpSignature) : table := fun id v =>
  Ok (mkProfileVersion v settings EmptyString signature).
Definition open_agent : PolicySyncer := mkPolicySyncer false (mkPolicy false []).
Definition sync (sy : PolicySyncer) (n : table) (w : pworld machine table) : pworld machine table :=
  (Sync handlers in_order text sy [item] (with_net n w)).2.

(** A profile that is still assigned but cannot be fetched is undone, and put
    back by the next cycle that can. *)
Example unreachable_profile_is_undone :
  let w1 := sync open_agent (offers [value "A" "managed"] None) (start original) in
  let w2 := sync open_agent nothing w1 in
  let w3 := sync open_agent (offers [value "A" "managed"] None) w2 in
  map (has "a") [w1; w2; w3] = [text_value "managed"; was_there; text_value "managed"].
Proof. vm_compute. done. Qed.

Definition strict_agent : PolicySyncer := mkPolicySyncer false (mkPolicy true [Toy.keyA]).
Example unsigned_profile_is_held :
  has "a" (sync strict_agent (offers [value "A" "managed"] None) (start original)) = was_there.
Proof. vm_compute. done. Qed.

(** ** Witnesses *)

Lemma desk_ints s : se_Kind s = KindRegistry -> s = set_Data (se_Data s) (set_Name (se_Name s) Sample.banner) -> ints_in_range s.
Proof.
  intros _ -> n Hn. cbv in Hn. by repeat (apply elem_of_cons in Hn as [?|Hn]; [done|]); apply elem_of_nil in Hn.
Qed.
Lemma value_ints name data : ints_in_range (value name data).
Proof. by apply desk_ints. Qed.

Definition apart_profiles : list Assigned := [profile "p1" 1 [value "A" "x"; value "B" "y"]; profile "p2" 1 [value "A" "z"]].
Lemma apart_ints : in_range_claims apart_profiles.
Proof. repeat constructor; apply value_ints. Qed.
Lemma one_ints name data : in_range_claims (active [profile "p1" 1 [value name data]]).
Proof. repeat constructor; apply value_ints. Qed.

Lemma plan_is_fair_witness : map ac_Identity (Plan apart_profiles) = [A; B].
Proof. exact (proj1 (plan_is_fair apart_profiles apart_ints)). Defined.

Lemma changes_are_agreed_witness :
  calls (allowed (agreed (active apart_profiles)) apart_profiles ∅ ∅) (start original) (cycle apart_profiles (start original)).
Proof. exact (changes_are_agreed handlers in_order in_order_lists apart_profiles (start original) apart_ints). Defined.

Lemma only_signed_settings_apply_witness :
  calls (fun e => match e with Tested s | Looked s | Changed s => vouched text strict_agent s | _ => True end)
    (with_net (offers [value "A" "managed"] None) (start original))
    (sync strict_agent (offers [value "A" "managed"] None) (start original)).
Proof. apply (only_signed_settings_apply handlers in_order in_order_lists text strict_agent [item]). reflexivity. Defined.

Lemma value_machine name data : name ∈ ["A"; "B"]%string -> machine_value (value name data).
Proof.
  intros Hn. repeat (apply elem_of_cons in Hn as [->|Hn]; [|]); [..|by apply elem_of_nil in Hn].
  all: split; [reflexivity|reflexivity| |reflexivity|split; reflexivity|reflexivity].
  all: apply registry_accepted; reflexivity.
Qed.

Lemma one_machine name data : name ∈ ["A"; "B"]%string -> all_settings machine_value (active [profile "p1" 1 [value name data]]).
Proof.
  intros Hn. change (active _) with [profile "p1" 1 [value name data]].
  exact (Forall_cons_2 _ (profile "p1" 1 [value name data]) _ (Forall_cons_2 _ _ _ (value_machine name data Hn) (Forall_nil_2 _)) (Forall_nil_2 _)).
Qed.

(** Managed, then changed by somebody, then removed. *)
Definition drifted : pworld machine table := with_net nothing (with_machine (mkMachine {[ acme := {[ "a"%string := RegMulti [] ]} ]} []) managed).

Lemma removal_restores_the_original_witness :
  has "a" drifted = Some (RegMulti []) /\ has "a" (cycle [] drifted) = was_there.
Proof.
  split; [vm_compute; reflexivity|].
  assert (machine_value (value "A" "managed")) as Hs by (apply value_machine; left).
  refine (proj1 (removal_restores_the_original nobody no_message [updates] in_order in_order_lists (value "A" "managed") (start original) drifted [] "p1"
    (mkProfileRecord [A] true 1) Hs ltac:(split; reflexivity) _ _ _ ltac:(constructor) ltac:(constructor) ltac:(apply not_elem_of_nil)
    ltac:(vm_compute; reflexivity) ltac:(apply not_elem_of_nil) eq_refl ltac:(apply list_elem_of_here))).
  - apply history_drift; [|intros Hn; vm_compute in Hn; discriminate Hn]. apply history_cycle; [apply history_start|apply one_ints|apply one_machine; left].
  - vm_compute. exact I.
  - vm_compute. reflexivity.
Defined.

Lemma managed_calls : p_calls managed =
  let s := value "A" "managed" in
  [Tested s; Looked s; Changed s; Tested s; Reported "p1" (mkProfileStatus 1 [mkSettingResult A SettingRemediated EmptyString])].
Proof. vm_compute. reflexivity. Qed.

Lemma managed_good : all_good [profile "p1" 1 [value "A" "managed"]] (start original) managed.
Proof.
  intros k Hk id st r Hin _ Hr. rewrite managed_calls in Hk. cbv zeta in Hk. change (p_calls (start original)) with (@nil event) in Hk.
  rewrite app_nil_l in Hk. rewrite <- Hk in Hin. clear Hk.
  repeat (apply elem_of_cons in Hin as [Hin|Hin]; [try discriminate Hin|]); [|by apply elem_of_nil in Hin].
  injection Hin as -> ->. cbn [ps_Settings] in Hr. apply list_elem_of_singleton in Hr as ->. apply list_elem_of_further, list_elem_of_here.
Qed.

Lemma second_cycle_changes_nothing_witness :
  idle managed (cycle [profile "p1" 1 [value "A" "managed"]] managed).
Proof.
  apply (second_cycle_changes_nothing nobody no_message [updates] in_order in_order_lists [profile "p1" 1 [value "A" "managed"]] (start original) None managed);
    [apply one_ints|apply one_machine; left|split; [reflexivity|]; intros j raw; cbn; by rewrite lookup_empty|vm_compute; reflexivity|apply managed_good].
Defined.
End Desk.
