(* ===== verification/AgentStore.v ===== *)
(** * The agent's store and clock

    The buckets of [internal/agent/state/state.go] that the script and the app
    scheduler use, over a server connection [N], the coming faults of the
    buckets, the readings of the clock, and a trace of calls [E] that only the
    theorems read. A Go function that returns an error is a transaction that
    fails with its text. *)
From S2P Require Export Tx Service Payload Window Options Utf8.
Open Scope Z_scope.
Open Scope go_scope.

Record ItemState := mkItemState { is_Version : Z; is_LastRunAt : time; is_LastStatus : string; is_Failures : Z }.
Definition zero_ItemState : ItemState := mkItemState 0 0 EmptyString 0.

Record AppState := mkAppState {
  ap_Version : Z; ap_Intent : string; ap_LastActedAt : time; ap_LastStatus : string; ap_LastSeenAt : time;
  ap_Installed : bool; ap_Failures : Z; ap_Settled : bool; ap_InstalledByAgent : Z }.
Definition zero_AppState : AppState := mkAppState 0 EmptyString 0 EmptyString 0 false 0 false 0.

Record ScriptVersionResponse := mkScriptVersion {
  sv_Version : Z; sv_Body : string; sv_DetectionBody : string; sv_Hash : string; sv_Signature : option OpSignature }.

Record agent (N E : Type) := mkAgent {
  ag_net : N; ag_items : gmap string ItemState; ag_apps : gmap string AppState; ag_scripts : gmap string ScriptVersionResponse;
  ag_faults : list gerror; ag_reads : nat; ag_calls : list E }.
Arguments mkAgent {N E}.
Arguments ag_net {N E}.
Arguments ag_items {N E}.
Arguments ag_apps {N E}.
Arguments ag_scripts {N E}.
Arguments ag_faults {N E}.
Arguments ag_reads {N E}.
Arguments ag_calls {N E}.

Section Agent.
Context {N E : Type} (clock : nat -> time).
Abbreviation G A := (txn (agent N E) string A).
Implicit Types w : agent N E.

Definition set_net (n : N) w : agent N E :=
  mkAgent n (ag_items w) (ag_apps w) (ag_scripts w) (ag_faults w) (ag_reads w) (ag_calls w).
Definition set_items (m : gmap string ItemState) w : agent N E :=
  mkAgent (ag_net w) m (ag_apps w) (ag_scripts w) (ag_faults w) (ag_reads w) (ag_calls w).
Definition set_apps (m : gmap string AppState) w : agent N E :=
  mkAgent (ag_net w) (ag_items w) m (ag_scripts w) (ag_faults w) (ag_reads w) (ag_calls w).
Definition set_scripts (m : gmap string ScriptVersionResponse) w : agent N E :=
  mkAgent (ag_net w) (ag_items w) (ag_apps w) m (ag_faults w) (ag_reads w) (ag_calls w).
Definition set_faults (l : list gerror) w : agent N E :=
  mkAgent (ag_net w) (ag_items w) (ag_apps w) (ag_scripts w) l (ag_reads w) (ag_calls w).

(** The next reading of the clock. *)
Definition read_clock : G time := fun w =>
  (Ok (clock (ag_reads w)), mkAgent (ag_net w) (ag_items w) (ag_apps w) (ag_scripts w) (ag_faults w) (S (ag_reads w)) (ag_calls w)).

Definition call (e : E) : G unit := fun w =>
  (Ok tt, mkAgent (ag_net w) (ag_items w) (ag_apps w) (ag_scripts w) (ag_faults w) (ag_reads w) (ag_calls w ++ [e])).

Definition net_call {A} (f : N -> A * N) : G A := fun w => let '(a, n) := f (ag_net w) in (Ok a, set_net n w).

(** One access to a bucket: it fails, or reads or writes. *)
Definition bucket {A} (f : agent N E -> A * agent N E) : G A := fun w =>
  match ag_faults w with
  | Some e :: r => (Err e, set_faults r w)
  | fs => let '(a, w') := f (set_faults (tail fs) w) in (Ok a, w')
  end.

Definition ItemState_ (id : string) : G ItemState := bucket (fun w => (default zero_ItemState (ag_items w !! id), w)).
Definition SetItemState (id : string) (st : ItemState) : G unit := bucket (fun w => (tt, set_items (<[id := st]> (ag_items w)) w)).
Definition AppState_ (id : string) : G AppState := bucket (fun w => (default zero_AppState (ag_apps w !! id), w)).
Definition SetAppState (id : string) (st : AppState) : G unit := bucket (fun w => (tt, set_apps (<[id := st]> (ag_apps w)) w)).

Definition scriptKey (id : string) (version : Z) : string := (id ++ "@" ++ Itoa version)%string.
Definition CachedScript (id : string) (version : Z) : G (option ScriptVersionResponse) :=
  bucket (fun w => (ag_scripts w !! scriptKey id version, w)).
(** Other versions of the script go. *)
Definition CacheScript (id : string) (v : ScriptVersionResponse) : G unit :=
  bucket (fun w => (tt, set_scripts (<[scriptKey id (sv_Version v) := v]>
    (filter (fun kv => HasPrefix kv.1 (id ++ "@") = false) (ag_scripts w))) w)).

(** Wrap the error of a call. *)
Definition named_error {A} (what : string) (m : G A) : G A := tmap_err (fun e => what ++ ": " ++ e)%string m.

(** A value that carries a Go error. *)
Definition or_fail {A} (r : result string A) : G A := match r with Ok a => tret a | Err e => tfail e end.
Definition fail_if (e : gerror) : G unit := match e with Some e => tfail e | None => tret tt end.

(** A call whose error is logged and forgotten. *)
Definition logged (m : G unit) : G unit := fun w => (Ok tt, (m w).2).
End Agent.

(** [Duration.String] of a whole number of seconds, which the timeouts of
    scripts and apps are. *)
Definition duration_text (d : duration) : string :=
  let s := d / Second in
  ((if (3600 <=? s)%Z then Itoa (s / 3600)%Z ++ "h" else EmptyString)
   ++ (if (60 <=? s)%Z then Itoa (s / 60 mod 60)%Z ++ "m" else EmptyString) ++ Itoa (s mod 60)%Z ++ "s")%string.

(** ** Bounded output *)

Record Capped := mkCapped { cp_buf : string; cp_limit : Z; cp_truncated : bool }.
Definition NewCapped (limit : Z) : Capped := mkCapped EmptyString limit false.
Definition Write (p : string) (c : Capped) : Capped :=
  let room := cp_limit c - slen (cp_buf c) in
  if room <=? 0 then mkCapped (cp_buf c) (cp_limit c) (cp_truncated c || (0 <? slen p))
  else if room <? slen p then mkCapped (cp_buf c ++ take_str (Z.to_nat room) p)%string (cp_limit c) true
  else mkCapped (cp_buf c ++ p)%string (cp_limit c) (cp_truncated c).
Definition Captured (c : Capped) : string := ToValidUTF8 (ReplaceAll (cp_buf c) (String "000" EmptyString) EmptyString) RuneError.
Definition WriteAll (writes : list string) (c : Capped) : Capped := foldl (fun c p => Write p c) c writes.

(** ** What the primitive steps keep *)

Section Keeps.
Context {N E : Type}.
Implicit Types w : agent N E.

(** Only calls of one sort were made. *)
Definition added (P : E -> Prop) w w' : Prop := exists l, ag_calls w' = ag_calls w ++ l /\ Forall P l.

#[export] Instance added_preorder P : PreOrder (added P).
Proof.
  split.
  - intros w. exists []. by rewrite app_nil_r.
  - intros w1 w2 w3 (l1 & E1 & H1) (l2 & E2 & H2). exists (l1 ++ l2). rewrite E2, E1, app_assoc. split; [done|by apply Forall_app].
Qed.

Lemma added_eq P w w' : ag_calls w' = ag_calls w -> added P w w'.
Proof. intros Ec. exists []. by rewrite app_nil_r. Qed.

Lemma added_mono (P Q : E -> Prop) w w' : (forall e, P e -> Q e) -> added P w w' -> added Q w w'.
Proof. intros HPQ (l & El & Hl). exists l. split; [done|]. by eapply Forall_impl. Qed.

(** A relation that the ghost of a call, the clock and the server do not
    matter to is kept by everything but the buckets. *)
Class Steady (R : agent N E -> agent N E -> Prop) : Prop := {
  #[global] steady_preorder :: PreOrder R;
  steady_clock clock w : R w (read_clock clock w).2;
  steady_net n w : R w (set_net n w);
  steady_faults fs w : R w (set_faults fs w) }.

#[export] Instance added_steady P : Steady (added P).
Proof. split; [apply _|intros clock w; by apply added_eq|intros n w; by apply added_eq|intros fs w; by apply added_eq]. Qed.

Context (R : agent N E -> agent N E -> Prop) `{!Steady R}.

Lemma keeps_clock clock : tkeeps R (read_clock clock).
Proof. intros w. apply steady_clock. Qed.
Lemma keeps_net {A} (f : N -> A * N) : tkeeps R (net_call f).
Proof. intros w. unfold net_call. destruct (f _) as [a n]. apply steady_net. Qed.
Lemma keeps_bucket {A} (f : agent N E -> A * agent N E) : (forall w, R w (f w).2) -> tkeeps R (bucket f).
Proof.
  intros Hf w. unfold bucket. destruct (ag_faults w) as [|[e|] r]; [| apply steady_faults |];
    match goal with |- context [f ?x] => specialize (Hf x); destruct (f x) as [a w'] end; simpl in *; (etrans; [apply steady_faults|exact Hf]).
Qed.
Lemma keeps_lookup {A} (g : agent N E -> A) : tkeeps R (bucket (fun w => (g w, w))).
Proof. apply keeps_bucket. intros w. simpl. reflexivity. Qed.
Lemma keeps_named {A} what (m : txn (agent N E) string A) : tkeeps R m -> tkeeps R (named_error what m).
Proof. apply keeps_map_err. Qed.
Lemma keeps_or_fail {A} (r : result string A) : tkeeps R (or_fail r).
Proof. destruct r; [apply keeps_ret|apply keeps_fail]; apply _. Qed.
Lemma keeps_fail_if e : tkeeps R (fail_if e).
Proof. destruct e; [apply keeps_fail|apply keeps_ret]; apply _. Qed.
Lemma keeps_logged (m : txn (agent N E) string unit) : tkeeps R m -> tkeeps R (logged m).
Proof. intros Hm w. apply Hm. Qed.
End Keeps.

Create HintDb agent.
#[export] Hint Extern 0 (Steady _) => apply _ : agent.
#[export] Hint Resolve keeps_clock keeps_net keeps_lookup keeps_named keeps_or_fail keeps_fail_if keeps_logged : agent.
#[export] Hint Extern 1 (tkeeps _ (tret _)) => apply keeps_ret; apply _ : agent.
#[export] Hint Extern 1 (tkeeps _ (tfail _)) => apply keeps_fail; apply _ : agent.
#[export] Hint Extern 1 (tkeeps _ (tbind _ _)) => apply keeps_bind; [apply _| |intros ?] : agent.

Lemma keeps_call {N E} (P : E -> Prop) (e : E) : P e -> tkeeps (added P) (call (N:=N) e).
Proof. intros He w. exists [e]. by repeat constructor. Qed.

Lemma keeps_write {N E A} (P : E -> Prop) (f : agent N E -> A * agent N E) :
  (forall w, ag_calls (f w).2 = ag_calls w) -> tkeeps (added P) (bucket f).
Proof. intros Hf. apply keeps_bucket; [apply _|]. intros w. by apply added_eq. Qed.

#[export] Hint Resolve keeps_call : agent.
#[export] Hint Extern 2 (tkeeps (added _) (bucket _)) => apply keeps_write; intros ?; reflexivity : agent.

(** ** What reading comes to *)

Lemma named_error_ok {N E A} what (m : txn (agent N E) string A) w a w' : named_error what m w = (Ok a, w') -> m w = (Ok a, w').
Proof. unfold named_error, tmap_err. destruct (m w) as [[b|e] d]; [done|discriminate]. Qed.

Lemma bucket_read {N E A} (g : agent N E -> A) w a w' :
  (forall fs, g (set_faults fs w) = g w) -> bucket (fun w => (g w, w)) w = (Ok a, w') -> a = g w.
Proof. intros Hg. unfold bucket. destruct (ag_faults w) as [|[e|] r]; intros [= <- _]; by rewrite ?Hg. Qed.

Lemma ItemState_ok {N E} id (w : agent N E) st w' : ItemState_ id w = (Ok st, w') -> st = default zero_ItemState (ag_items w !! id).
Proof. by apply (bucket_read (fun w => default zero_ItemState (ag_items w !! id))). Qed.

Lemma AppState_ok {N E} id (w : agent N E) st w' : AppState_ id w = (Ok st, w') -> st = default zero_AppState (ag_apps w !! id).
Proof. by apply (bucket_read (fun w => default zero_AppState (ag_apps w !! id))). Qed.

(** ** Steps that succeed *)

Section Equations.
Context {N E : Type}.
Implicit Types w : agent N E.

Definition with_call (e : E) w : agent N E :=
  mkAgent (ag_net w) (ag_items w) (ag_apps w) (ag_scripts w) (ag_faults w) (ag_reads w) (ag_calls w ++ [e]).
Definition ticked w : agent N E :=
  mkAgent (ag_net w) (ag_items w) (ag_apps w) (ag_scripts w) (ag_faults w) (S (ag_reads w)) (ag_calls w).

Lemma bind_ok {A B} (m : txn (agent N E) string A) (f : A -> txn (agent N E) string B) w a w' : m w = (Ok a, w') -> tbind m f w = f a w'.
Proof. unfold tbind. by intros ->. Qed.
Lemma call_eq e w : call e w = (Ok tt, with_call e w).
Proof. done. Qed.
Lemma read_clock_eq clock w : read_clock clock w = (Ok (clock (ag_reads w)), ticked w).
Proof. done. Qed.
Lemma net_call_eq {A} (f : N -> A * N) w : net_call f w = (Ok (f (ag_net w)).1, set_net (f (ag_net w)).2 w).
Proof. unfold net_call. by destruct (f _). Qed.
Lemma named_ok {A} what (m : txn (agent N E) string A) w a w' : m w = (Ok a, w') -> named_error what m w = (Ok a, w').
Proof. unfold named_error, tmap_err. by intros ->. Qed.

(** Without faults, a bucket answers. *)
Lemma bucket_eq {A} (f : agent N E -> A * agent N E) w : ag_faults w = [] -> bucket f w = (Ok (f w).1, (f w).2).
Proof.
  intros Hf. unfold bucket. rewrite Hf. replace (set_faults (tail []) w) with w; [by destruct (f w)|].
  destruct w. simpl in Hf. by subst.
Qed.

Lemma AppState_eq id w : ag_faults w = [] -> AppState_ id w = (Ok (default zero_AppState (ag_apps w !! id)), w).
Proof. apply bucket_eq. Qed.
Lemma SetAppState_eq id st w : ag_faults w = [] -> SetAppState id st w = (Ok tt, set_apps (<[id := st]> (ag_apps w)) w).
Proof. apply bucket_eq. Qed.
End Equations.
