(* ===== verification/Scripts.v ===== *)
(** * The script scheduler

    [internal/agent/scripts]: when an assigned script is due
    ([scheduler.go]), how it and its detection script are run, and what is
    remembered and reported ([runner.go]). The server, and the PowerShell of
    the machine or of the signed-in user, are the class [ScriptHost]. The trace
    has the calls that leave the process. *)
From S2P Require Export AgentStore.
Open Scope Z_scope.
Open Scope go_scope.

Definition ItemKindScript : string := "script".
Definition PhaseScript : string := "script".
Definition PhaseDetection : string := "detection".
Definition PhaseRemediation : string := "remediation".

Record ScriptRun := mkScriptRun {
  sr_Version : Z; sr_Status : string; sr_Phase : string; sr_Remediated : bool; sr_ExitCode : Z;
  sr_Stdout : string; sr_Stderr : string; sr_StdoutTruncated : bool; sr_StderrTruncated : bool;
  sr_Error : string; sr_StartedAt : time; sr_FinishedAt : time }.

(** What running PowerShell comes to: the exit code, what was written to each
    output, the error, and whether the time was up. *)
Record execution := mkExecution {
  ex_Code : Z; ex_Out : list string; ex_ErrOut : list string; ex_Err : gerror; ex_Deadline : bool }.

Class ScriptHost (N : Type) := {
  FetchScript : string -> Z -> N -> result string ScriptVersionResponse * N;
  ReportScriptRun : string -> ScriptRun -> N -> gerror * N;
  (** [true] runs in the session of the signed-in user. *)
  RunPowerShell : bool -> string -> duration -> N -> execution * N;
  (** Whether there is such a session, or why not. *)
  userSession : N -> gerror * N
}.

Inductive script_event :=
| Fetched (id : string) (version : Z)
| Ran (user : bool) (body : string)
| RunReported (id : string) (run : ScriptRun).

(** ** When a script is due *)

Record ScriptDecision := mkScriptDecision { sd_Run : bool; sd_Reason : string }.

(** [session] is the answer of [userSession], asked for only when needed. *)
Definition DecideScript (session : gerror) (version : Z) (opts : DeploymentOptions) (st : ItemState) (now : time) : ScriptDecision :=
  match (if NeedsUserSession opts then session else None) with
  | Some reason => mkScriptDecision false reason
  | None =>
      if IsZero (is_LastRunAt st) then mkScriptDecision true EmptyString else
      if negb (is_Version st =? version) then
        if do_RerunOnNewVersion opts then mkScriptDecision true EmptyString
        else mkScriptDecision false "a new version is available but rerun_on_new_version is off"
      else if (0 <? is_Failures st) && (do_MaxRetries opts <=? is_Failures st) then
        mkScriptDecision false "this version has failed too many times"
      else if String.eqb (do_Frequency opts) FrequencyRecurring then
        if Interval opts <=? Sub now (is_LastRunAt st) then mkScriptDecision true EmptyString
        else mkScriptDecision false "it is not due again yet"
      else mkScriptDecision false "it has already run"
  end.

(** ** One execution *)

Record outcome := mkOutcome {
  o_ExitCode : Z; o_Stdout : string; o_Stderr : string; o_OutCut : bool; o_ErrCut : bool;
  o_Err : gerror; o_TimedOut : bool }.

Definition report_of (o : outcome) (phase : string) (remediated : bool) (started finished : time) : ScriptRun :=
  let '(status, code, err) :=
    match o_Err o with
    | Some e => if o_TimedOut o then (ResultTimedOut, -1, e) else (ResultFailed, -1, e)
    | None => (if o_ExitCode o =? 0 then ResultSucceeded else ResultFailed, o_ExitCode o, EmptyString)
    end in
  mkScriptRun 0 status phase remediated code (o_Stdout o) (o_Stderr o) (o_OutCut o) (o_ErrCut o) err started finished.

Definition join (a b : string) : string :=
  if String.eqb a EmptyString then b else if String.eqb b EmptyString then a else (a ++ newline ++ b)%string.

Definition outcome_of (timeout : duration) (x : execution) : outcome :=
  let out := WriteAll (ex_Out x) (NewCapped MaxOutputBytes) in
  let err := WriteAll (ex_ErrOut x) (NewCapped MaxOutputBytes) in
  let '(e, late) := if ex_Deadline x then (Some ("timed out after " ++ duration_text timeout)%string, true) else (ex_Err x, false) in
  mkOutcome (ex_Code x) (Captured out) (Captured err) (cp_truncated out) (cp_truncated err) e late.

Section Scheduler.
Context `{Crypto} {N : Type} `{ScriptHost N} (clock : nat -> time) (ops : Policy).
Abbreviation S A := (txn (agent N script_event) string A).

Definition runOne (body : string) (opts : DeploymentOptions) : S outcome :=
  let user := NeedsUserSession opts in
  do* call (Ran user body);
  let* x := net_call (RunPowerShell user body (DeploymentTimeout opts)) in
  tret (outcome_of (DeploymentTimeout opts) x).

(** What a scheduler built to require signatures says of a script, if it says
    no. *)
Definition script_refusal (v : ScriptVersionResponse) : option outcome :=
  if po_Enforced ops then
    match VerifyOp (po_Keys ops) (ScriptManifest (sv_Body v) (sv_DetectionBody v)) (sv_Signature v) with
    | Ok _ => None
    | Err e => Some (mkOutcome (-1) EmptyString EmptyString false false (Some ("refused: " ++ opsign_message e)%string) false)
    end
  else None.

Definition finish_run (o : outcome) (phase : string) (remediated : bool) (started : time) : S ScriptRun :=
  let* finished := read_clock clock in
  tret (report_of o phase remediated started finished).

Definition remediate (v : ScriptVersionResponse) (opts : DeploymentOptions) (started : time) : S ScriptRun :=
  let* remediation := runOne (sv_Body v) opts in
  match o_Err remediation with
  | Some _ => finish_run remediation PhaseRemediation false started
  | None =>
      let* second := runOne (sv_DetectionBody v) opts in
      finish_run (mkOutcome (o_ExitCode second) (join (o_Stdout remediation) (o_Stdout second))
                (join (o_Stderr remediation) (o_Stderr second)) (o_OutCut second) (o_ErrCut second)
                (o_Err second) (o_TimedOut second))
        PhaseDetection (o_ExitCode second =? 0) started
  end.

Definition execute (v : ScriptVersionResponse) (opts : DeploymentOptions) : S ScriptRun :=
  let* started := read_clock clock in
  match script_refusal v with
  | Some refused => finish_run refused PhaseScript false started
  | None =>
      if String.eqb (TrimSpace (sv_DetectionBody v)) EmptyString then
        let* out := runOne (sv_Body v) opts in
        finish_run out PhaseScript false started
      else
        let* first := runOne (sv_DetectionBody v) opts in
        match o_Err first with
        | Some _ => finish_run first PhaseDetection false started
        | None => if o_ExitCode first =? 0 then finish_run first PhaseDetection false started else remediate v opts started
        end
  end.

(** ** One script, and all of them *)

Definition body (item : Item) : S ScriptVersionResponse :=
  let* cached := CachedScript (it_ID item) (it_Version item) in
  match cached with
  | Some v => tret v
  | None =>
      do* call (Fetched (it_ID item) (it_Version item));
      let* fetched := net_call (FetchScript (it_ID item) (it_Version item)) in
      let* v := or_fail fetched in
      do* CacheScript (it_ID item) v;
      tret v
  end.

Definition with_version (version : Z) (r : ScriptRun) : ScriptRun :=
  mkScriptRun version (sr_Status r) (sr_Phase r) (sr_Remediated r) (sr_ExitCode r) (sr_Stdout r) (sr_Stderr r)
    (sr_StdoutTruncated r) (sr_StderrTruncated r) (sr_Error r) (sr_StartedAt r) (sr_FinishedAt r).

Definition next_state (st : ItemState) (run : ScriptRun) : ItemState :=
  mkItemState (sr_Version run) (sr_FinishedAt run) (sr_Status run)
    (if negb (String.eqb (sr_Status run) ResultSucceeded)
     then if is_Version st =? sr_Version run then is_Failures st + 1 else 1 else 0).

Definition record_run (id : string) (st : ItemState) (run : ScriptRun) : S unit :=
  do* named_error "record local state" (SetItemState id (next_state st run));
  do* call (RunReported id run);
  let* e := net_call (ReportScriptRun id run) in
  named_error "report run" (fail_if e).

Definition script_options (item : Item) : S DeploymentOptions :=
  match ParseDeploymentOptions (it_Options item) with Ok o => tret o | Err _ => tfail "options"%string end.

Definition syncScript (item : Item) : S unit :=
  let* opts := script_options item in
  let* st := named_error "read local state" (ItemState_ (it_ID item)) in
  let* now := read_clock clock in
  let* session := if NeedsUserSession opts then net_call userSession else tret None in
  if negb (sd_Run (DecideScript session (it_Version item) opts st now)) then tret tt else
  let* version := named_error "fetch script" (body item) in
  let* run := execute version opts in
  record_run (it_ID item) st (with_version (it_Version item) run).

(** [ctx] is what the context says before each script. *)
Fixpoint sync_scripts (ctx : list gerror) (items : list Item) : S unit :=
  match items with
  | [] => tret tt
  | item :: rest =>
      if negb (String.eqb (it_Kind item) ItemKindScript) then sync_scripts ctx rest else
      match ctx with
      | Some e :: _ => tfail e
      | _ => do* logged (syncScript item); sync_scripts (tail ctx) rest
      end
  end.

Definition SyncScripts (loc : Location) (ctx : list gerror) (items : list Item) : S unit :=
  let* now := read_clock clock in
  if negb (Open loc (WindowsFrom items) now) then tret tt else sync_scripts ctx items.
End Scheduler.
