(* ===== verification/ScriptRuns.v ===== *)
(** * What the script scheduler does

    Only signed scripts run; the verdict of a run with a detection script; and
    over any number of check-ins, whatever fails: what is remembered of a
    script is the summary of the runs reported, how often it is tried again,
    and how far apart its runs are. *)
From S2P Require Export Scripts.

Open Scope Z_scope.
Open Scope go_scope.

(** ** Signatures *)

Section Scripts.
Context `{Crypto} {N : Type} `{ScriptHost N} (clock : nat -> time) (ops : Policy).
Implicit Types w : agent N script_event.

(** [b] is the body or the detection script of a signed version. *)
Definition signed (b : string) : Prop :=
  exists v, (b = sv_Body v \/ b = sv_DetectionBody v) /\
            VerifyOp (po_Keys ops) (ScriptManifest (sv_Body v) (sv_DetectionBody v)) (sv_Signature v) = Ok tt.

Definition runs_signed (e : script_event) : Prop := match e with Ran _ b => signed b | _ => True end.

(** What a relation must not mind for the steps below to keep it. *)
Section Steps.
Context (R : agent N script_event -> agent N script_event -> Prop) `{!Steady R} (P : script_event -> Prop).
Context (Rcall : forall e, P e -> tkeeps R (call e)) (Rscripts : forall m w, R w (set_scripts m w)).

Lemma runOne_keeps b opts : (forall u, P (Ran u b)) -> tkeeps R (runOne b opts).
Proof. intros Hb. unfold runOne. cbv zeta. auto 10 with agent. Qed.

Lemma finish_keeps o p r t : tkeeps R (finish_run clock o p r t).
Proof. unfold finish_run. auto with agent. Qed.

(** Executing a version runs its two scripts and nothing else, and nothing at
    all if it is refused. *)
Lemma execute_keeps v opts :
  (script_refusal ops v = None -> forall u, P (Ran u (sv_Body v)) /\ P (Ran u (sv_DetectionBody v))) ->
  tkeeps R (execute clock ops v opts).
Proof.
  intros Hp. unfold execute. apply keeps_bind; [apply _|auto with agent|]. intros t.
  destruct (script_refusal ops v) as [o|]; [apply finish_keeps|]. specialize (Hp eq_refl).
  assert (Hb : tkeeps R (runOne (N:=N) (sv_Body v) opts)) by (apply runOne_keeps; apply Hp).
  assert (Hd : tkeeps R (runOne (N:=N) (sv_DetectionBody v) opts)) by (apply runOne_keeps; apply Hp).
  destruct (String.eqb _ _).
  - apply keeps_bind; [apply _|done|]. intros o. apply finish_keeps.
  - apply keeps_bind; [apply _|done|]. intros o. destruct (o_Err o); [apply finish_keeps|].
    destruct (_ =? 0); [apply finish_keeps|]. unfold remediate. apply keeps_bind; [apply _|done|]. intros o2.
    destruct (o_Err o2); [apply finish_keeps|]. apply keeps_bind; [apply _|done|]. intros o3. apply finish_keeps.
Qed.

Lemma body_keeps item : (forall id v, P (Fetched id v)) -> tkeeps R (body item).
Proof.
  intros Hp. unfold body, CachedScript. apply keeps_bind; [apply _|auto with agent|]. intros [v|]; [auto with agent|].
  assert (Hc : forall v, tkeeps R (CacheScript (N:=N) (E:=script_event) (it_ID item) v)) by (intros v; apply (keeps_bucket R); intros w; apply Rscripts).
  auto 10 with agent.
Qed.
End Steps.

Lemma added_scripts P m w : added P w (set_scripts m w).
Proof. by apply added_eq. Qed.
#[local] Hint Resolve added_scripts : agent.

Lemma record_run_keeps (P : script_event -> Prop) id st run : P (RunReported id run) -> tkeeps (added P) (record_run id st run : txn (agent N _) _ _).
Proof. intros Hp. unfold record_run, SetItemState. auto 10 with agent. Qed.

Lemma script_refusal_signed v : po_Enforced ops = true -> script_refusal ops v = None ->
  VerifyOp (po_Keys ops) (ScriptManifest (sv_Body v) (sv_DetectionBody v)) (sv_Signature v) = Ok tt.
Proof. unfold script_refusal. intros ->. by destruct (VerifyOp _ _ _) as [[]|]. Qed.

Lemma syncScript_signed item : po_Enforced ops = true -> tkeeps (added runs_signed) (syncScript clock ops item : txn (agent N _) _ _).
Proof.
  intros Hen. unfold syncScript, script_options, ItemState_.
  apply keeps_bind; [apply _|destruct (ParseDeploymentOptions _); auto with agent|]. intros opts.
  apply keeps_bind; [apply _|auto with agent|]. intros st. apply keeps_bind; [apply _|auto with agent|]. intros now.
  apply keeps_bind; [apply _|destruct (NeedsUserSession opts); auto with agent|]. intros session.
  destruct (negb _); [auto with agent|]. apply keeps_bind; [apply _|apply keeps_named, (body_keeps _ runs_signed); by auto with agent|]. intros v.
  apply keeps_bind; [apply _| |intros run; by apply record_run_keeps].
  apply (execute_keeps _ runs_signed); [auto with agent|]. intros Hr u. split; exists v; auto using script_refusal_signed.
Qed.

(** What every script keeps, a check-in keeps. *)
Lemma SyncScripts_keeps R `{!Steady R} loc ctx items :
  (forall item, item ∈ items -> tkeeps R (syncScript clock ops item)) ->
  tkeeps R (SyncScripts clock ops loc ctx items : txn (agent N _) _ _).
Proof.
  intros Hone. unfold SyncScripts. apply keeps_bind; [apply _|auto with agent|]. intros now. destruct (negb _); [auto with agent|].
  clear now. revert ctx Hone. induction items as [|item items IH]; intros ctx Hone; simpl; [auto with agent|].
  assert (Hrest : forall ctx, tkeeps R (sync_scripts clock ops ctx items)) by (intros; apply IH; intros; apply Hone; by right).
  destruct (negb _); [done|]. destruct ctx as [|[e|] ctx]; [| auto with agent |];
    (apply keeps_bind; [apply _|apply keeps_logged, Hone; by left|intros _; apply Hrest]).
Qed.

(** C33. With signatures required, whatever the server sends and whatever
    is in the cache, the scheduler runs only the body and the detection script
    of versions signed, together, by a trusted operations key. *)
Theorem only_signed_scripts_run loc ctx items w :
  po_Enforced ops = true -> added runs_signed w (SyncScripts clock ops loc ctx items w).2.
Proof. intros Hen. apply SyncScripts_keeps; [apply _|]. intros item _. by apply syncScript_signed. Qed.

(** ** The verdict of a run *)

Definition completes (x : execution) : bool := negb (ex_Deadline x) && match ex_Err x with None => true | Some _ => false end.
Definition passes (x : execution) : bool := completes x && (ex_Code x =? 0).

Lemma outcome_completes t x : completes x = match o_Err (outcome_of t x) with None => true | Some _ => false end.
Proof. unfold completes, outcome_of. by destruct (ex_Deadline x), (ex_Err x). Qed.

Lemma outcome_code t x : o_ExitCode (outcome_of t x) = ex_Code x.
Proof. unfold outcome_of. by destruct (ex_Deadline x). Qed.

Lemma report_succeeded o p r t u :
  String.eqb (sr_Status (report_of o p r t u)) ResultSucceeded = match o_Err o with None => o_ExitCode o =? 0 | Some _ => false end.
Proof. unfold report_of. destruct (o_Err o) as [e|]; [by destruct (o_TimedOut o)|]. by destruct (_ =? 0). Qed.

Lemma report_remediated o p r t u : sr_Remediated (report_of o p r t u) = r.
Proof. unfold report_of. destruct (o_Err o); [|done]. by destruct (o_TimedOut o). Qed.

Lemma report_outcome t x p r a b : String.eqb (sr_Status (report_of (outcome_of t x) p r a b)) ResultSucceeded = passes x.
Proof.
  rewrite report_succeeded, outcome_code. unfold passes. rewrite (outcome_completes t). by destruct (o_Err _).
Qed.

(** One execution: its outcome, and the one call it makes. *)
Lemma runOne_eq b opts w :
  let x := RunPowerShell (NeedsUserSession opts) b (DeploymentTimeout opts) (ag_net w) in
  runOne b opts w = (Ok (outcome_of (DeploymentTimeout opts) x.1),
    set_net x.2 (mkAgent (ag_net w) (ag_items w) (ag_apps w) (ag_scripts w) (ag_faults w) (ag_reads w)
      (ag_calls w ++ [Ran (NeedsUserSession opts) b]))).
Proof. simpl. unfold runOne, tbind, call, net_call, tret. simpl. by destruct (RunPowerShell _ _ _ _). Qed.

(** What detection, remediation and detection again would come to. *)
Definition trials (v : ScriptVersionResponse) (opts : DeploymentOptions) (n : N) : execution * execution * execution :=
  let run b n := RunPowerShell (NeedsUserSession opts) b (DeploymentTimeout opts) n in
  let x1 := run (sv_DetectionBody v) n in
  let x2 := run (sv_Body v) x1.2 in
  (x1.1, x2.1, (run (sv_DetectionBody v) x2.2).1).

(** With a detection script, a run succeeds exactly if detection
    passes at once, or it ends, the body ends, and the second detection passes,
    whatever the exit code of the body. The body runs only after a detection
    that ended and did not pass, and only a second detection that exits with 0
    makes the run a remediation. *)
Theorem second_detection_decides v opts w :
  script_refusal ops v = None -> String.eqb (TrimSpace (sv_DetectionBody v)) EmptyString = false ->
  let '(x1, x2, x3) := trials v opts (ag_net w) in
  let due := completes x1 && negb (passes x1) in
  exists r w', execute clock ops v opts w = (Ok r, w') /\
    String.eqb (sr_Status r) ResultSucceeded = passes x1 || (due && completes x2 && passes x3) /\
    sr_Remediated r = due && completes x2 && (ex_Code x3 =? 0) /\
    ag_calls w' = ag_calls w ++ map (Ran (NeedsUserSession opts))
      (sv_DetectionBody v :: if due then sv_Body v :: (if completes x2 then [sv_DetectionBody v] else []) else []).
Proof.
  intros Hr Hd. unfold trials, execute, tbind at 1, read_clock. cbn [fst]. rewrite Hr, Hd. unfold tbind at 1.
  rewrite runOne_eq. cbn [fst snd ag_net].
  set (x1 := RunPowerShell _ _ _ (ag_net w)). rewrite outcome_code, (outcome_completes (DeploymentTimeout opts) x1.1).
  destruct (o_Err (outcome_of _ x1.1)) as [e|] eqn:E1.
  { eexists _, _. split; [reflexivity|]. rewrite report_outcome, report_remediated. split; [|done]. unfold passes.
    by rewrite (outcome_completes (DeploymentTimeout opts)), E1. }
  assert (Hp : passes x1.1 = (ex_Code x1.1 =? 0)) by (unfold passes; by rewrite (outcome_completes (DeploymentTimeout opts)), E1).
  rewrite Hp. destruct (ex_Code x1.1 =? 0) eqn:Ec.
  { eexists _, _. split; [reflexivity|]. rewrite report_outcome, report_remediated. by rewrite Hp. }
  unfold remediate, tbind at 1. rewrite runOne_eq. cbn [fst snd ag_net set_net]. set (x2 := RunPowerShell _ (sv_Body v) _ x1.2).
  rewrite (outcome_completes (DeploymentTimeout opts) x2.1).
  destruct (o_Err (outcome_of _ x2.1)) as [e|] eqn:E2; simpl.
  { eexists _, _. split; [reflexivity|]. rewrite report_succeeded, report_remediated, E2. simpl. by rewrite <- app_assoc. }
  unfold tbind at 1. rewrite runOne_eq. cbn [fst snd ag_net set_net]. set (x3 := RunPowerShell _ _ _ x2.2).
  eexists _, _. split; [reflexivity|]. rewrite report_succeeded. cbn [o_Err o_ExitCode]. rewrite outcome_code. split; [|split].
  - unfold passes. rewrite (outcome_completes (DeploymentTimeout opts) x3.1). by destruct (o_Err (outcome_of _ x3.1)).
  - by rewrite report_remediated.
  - unfold set_net. cbn [ag_calls fst snd ag_net map]. by rewrite <- !app_assoc.
Qed.
End Scripts.

(** ** The runs of a script over any number of check-ins

    What is remembered of a script is the summary of the runs reported, and
    each of them was due after those before it, whatever fails. So a version
    that keeps failing is given up, and a version that has run does not run
    again before its interval is over. *)

(** The runs of one script among the calls, the oldest first. *)
Definition runs_of (id : string) (l : list script_event) : list ScriptRun :=
  omap (fun e => match e with RunReported i r => if String.eqb i id then Some r else None | _ => None end) l.

Definition summary (runs : list ScriptRun) : ItemState := foldl next_state zero_ItemState runs.

Definition silent (e : script_event) : Prop := match e with RunReported _ _ => False | _ => True end.

Lemma runs_of_app id a b : runs_of id (a ++ b) = runs_of id a ++ runs_of id b.
Proof. unfold runs_of. apply omap_app. Qed.

Lemma runs_of_silent id l : Forall silent l -> runs_of id l = [].
Proof. induction 1 as [|e l He _ IH]; [done|]. by destruct e. Qed.

Lemma summary_app runs r : summary (runs ++ [r]) = next_state (summary runs) r.
Proof. unfold summary. by rewrite foldl_app. Qed.

Section History.
Context `{Crypto} {N : Type} `{ScriptHost N} (clock : nat -> time) (ops : Policy).
Implicit Types w : agent N script_event.

Definition item_state w (id : string) : ItemState := default zero_ItemState (ag_items w !! id).

Definition checkins (cs : list (Location * list gerror * list Item)) w : agent N script_event :=
  foldl (fun w c => (SyncScripts clock ops c.1.1 c.1.2 c.2 w).2) w cs.

(** Run [r] was due after the runs [pre]: at a time [clock i] before it began,
    for an item offered. *)
Definition due (offered : Item -> Prop) (id : string) (pre : list ScriptRun) (r : ScriptRun) : Prop :=
  exists item opts session i j k, offered item /\ it_ID item = id /\ it_Version item = sr_Version r /\
    ParseDeploymentOptions (it_Options item) = Ok opts /\
    sd_Run (DecideScript session (sr_Version r) opts (summary pre) (clock i)) = true /\
    sr_StartedAt r = clock j /\ sr_FinishedAt r = clock k /\ (i < j < k)%nat.

Definition faithful (offered : Item -> Prop) w : Prop :=
  (forall id, item_state w id = summary (runs_of id (ag_calls w))) /\
  forall id pre r post, runs_of id (ag_calls w) = pre ++ r :: post -> due offered id pre r.

(** Steps that neither report a run nor write what is remembered. *)
Definition calm w w' : Prop := ag_items w' = ag_items w /\ added silent w w' /\ (ag_reads w <= ag_reads w')%nat.

#[export] Instance calm_steady : Steady calm.
Proof.
  split.
  - split; [intros w; split_and!; [done|reflexivity|lia]|].
    intros w1 w2 w3 (I1 & A1 & R1) (I2 & A2 & R2). split_and!; [congruence|by etrans|lia].
  - intros c w. split_and!; [done|by apply added_eq|simpl; lia].
  - intros n w. split_and!; [done|by apply added_eq|simpl; lia].
  - intros fs w. split_and!; [done|by apply added_eq|simpl; lia].
Qed.

Lemma calm_call e : silent e -> tkeeps calm (call e).
Proof. intros He w. split_and!; [done|by apply keeps_call|simpl; lia]. Qed.

Lemma calm_scripts m w : calm w (set_scripts m w).
Proof. split_and!; [done|by apply added_eq|simpl; lia]. Qed.

Lemma calm_faithful offered w w' : calm w w' -> faithful offered w -> faithful offered w'.
Proof.
  intros (Hi & (l & El & Hl) & _) [Hs Hd].
  assert (E : forall id, runs_of id (ag_calls w') = runs_of id (ag_calls w))
    by (intros id; by rewrite El, runs_of_app, (runs_of_silent id l), app_nil_r).
  split; [intros id; unfold item_state; rewrite Hi, E; apply Hs|]. intros id pre r post. rewrite E. apply Hd.
Qed.

(** The times a run reports are readings of the clock taken while it ran. *)
Definition timed (i : nat) (started : time) (m : txn (agent N script_event) string ScriptRun) : Prop :=
  forall w, (i <= ag_reads w)%nat -> exists r w' k, m w = (Ok r, w') /\ sr_StartedAt r = started /\
    sr_FinishedAt r = clock k /\ (i <= k)%nat.

Lemma report_times o p r a b : sr_StartedAt (report_of o p r a b) = a /\ sr_FinishedAt (report_of o p r a b) = b.
Proof. unfold report_of. destruct (o_Err o); [|done]. by destruct (o_TimedOut o). Qed.

Lemma finish_timed i o p r t : timed i t (finish_run clock o p r t).
Proof.
  intros w Hi. eexists _, _, (ag_reads w). split; [reflexivity|]. destruct (report_times o p r t (clock (ag_reads w))). auto.
Qed.

Lemma runOne_timed i t b opts k : (forall o, timed i t (k o)) -> timed i t (tbind (runOne b opts) k).
Proof. intros Hk w Hi. unfold tbind. rewrite runOne_eq. by apply Hk. Qed.

Lemma execute_timed v opts w : exists r w' k,
  execute clock ops v opts w = (Ok r, w') /\ sr_StartedAt r = clock (ag_reads w) /\ sr_FinishedAt r = clock k /\ (ag_reads w < k)%nat.
Proof.
  unfold execute, tbind at 1, read_clock. cbv iota beta. destruct (script_refusal ops v) as [o|].
  { by apply (finish_timed (S (ag_reads w))). }
  destruct (String.eqb _ _).
  { apply (runOne_timed (S (ag_reads w))); [intros o; apply finish_timed|done]. }
  apply (runOne_timed (S (ag_reads w))); [|done]. intros o1. destruct (o_Err o1); [apply finish_timed|].
  destruct (_ =? 0); [apply finish_timed|]. unfold remediate. apply runOne_timed. intros o2.
  destruct (o_Err o2); [apply finish_timed|]. apply runOne_timed. intros o3. apply finish_timed.
Qed.

(** Recording and reporting a run that was due. *)
Lemma recorded_faithful offered id run w :
  due offered id (runs_of id (ag_calls w)) run -> faithful offered w ->
  let m := <[id := next_state (item_state w id) run]> (ag_items w) in
  forall fs, faithful offered (mkAgent (ag_net w) m (ag_apps w) (ag_scripts w) fs (ag_reads w) (ag_calls w ++ [RunReported id run])).
Proof.
  intros Hdue [Hs Hd] m fs. assert (E : forall i, runs_of i (ag_calls w ++ [RunReported id run])
    = runs_of i (ag_calls w) ++ if String.eqb id i then [run] else []).
  { intros i. rewrite runs_of_app. unfold runs_of at 2. simpl. by destruct (String.eqb id i). }
  split.
  - intros i. unfold item_state. simpl. rewrite E. subst m. destruct (String.eqb_spec id i) as [<-|Hi].
    + by rewrite lookup_insert_eq, summary_app, Hs.
    + rewrite lookup_insert_ne, app_nil_r by done. apply Hs.
  - intros i pre r post. simpl. rewrite E. destruct (String.eqb_spec id i) as [<-|Hi]; [|rewrite app_nil_r; apply Hd].
    destruct post as [|x post _] using rev_ind.
    + by intros [<- <-]%app_inj_tail.
    + rewrite app_comm_cons, app_assoc. intros [Hp _]%app_inj_tail. by apply (Hd _ _ _ post).
Qed.

Lemma record_run_faithful offered id run w :
  due offered id (runs_of id (ag_calls w)) run -> faithful offered w ->
  faithful offered (record_run id (item_state w id) run w).2.
Proof.
  intros Hdue Hf. pose proof (recorded_faithful offered id run w Hdue Hf) as Hr. cbv zeta in Hr.
  unfold record_run, SetItemState, named_error, tbind at 1, tmap_err at 1, bucket.
  destruct (ag_faults w) as [|[e|] fs] eqn:Ef;
    [| refine (calm_faithful offered w _ _ Hf); apply steady_faults |];
    (eapply calm_faithful; [|apply Hr];
     assert (Hn : tkeeps calm (tbind (net_call (E:=script_event) (ReportScriptRun id run)) (fun e => named_error "report run" (fail_if e))))
       by auto with agent; apply Hn).
Qed.

Lemma syncScript_faithful (offered : Item -> Prop) item w : offered item -> faithful offered w -> faithful offered (syncScript clock ops item w).2.
Proof.
  intros Hit Hf. pose (Q := fun (_ : result string unit) w' => faithful offered w').
  assert (Hc : forall w', calm w w' -> faithful offered w') by (intros w' Hc; by eapply calm_faithful).
  change (twp (syncScript clock ops item) w Q). unfold syncScript, script_options.
  destruct (ParseDeploymentOptions (it_Options item)) as [opts|e] eqn:Eo; [|by apply Hc].
  apply twp_bind. unfold twp at 1. cbn [tret].
  apply (twp_keeps_bind calm); [unfold ItemState_; auto with agent| |by auto]. intros st w1 E1 C1.
  assert (Hst : st = item_state w (it_ID item)).
  { by apply named_error_ok, ItemState_ok in E1. }
  apply (twp_keeps_bind calm); [auto with agent| |intros; apply Hc; by etrans]. intros t w2 E2 C2.
  assert (Ht : t = clock (ag_reads w1) /\ ag_reads w2 = S (ag_reads w1)) by (unfold read_clock in E2; by simplify_eq).
  destruct Ht as [-> Hreads].
  apply (twp_keeps_bind calm);
    [destruct (NeedsUserSession opts); auto with agent| |intros e w3 C3; apply Hc; by do 2 (etrans; [eassumption|])].
  intros session w3 _ C3. destruct (sd_Run _) eqn:Ed; cbn [negb]; [|apply Hc; by do 2 (etrans; [eassumption|])].
  apply (twp_keeps_bind calm);
    [apply keeps_named, (body_keeps calm silent); auto using calm_call, calm_scripts; done| |
     intros e w4 C4; apply Hc; by do 3 (etrans; [eassumption|])].
  intros v w4 _ C4. apply twp_bind. unfold twp at 1.
  assert (C : calm w w4) by (by do 3 (etrans; [eassumption|])).
  assert (C5 : tkeeps calm (execute clock ops v opts)) by (apply (execute_keeps clock ops calm silent); [auto using calm_call|done]).
  destruct (execute_timed v opts w4) as (r & w5 & k & E5 & Hj & Hk & Hlt). specialize (C5 w4). rewrite E5 in *. cbn [snd] in C5.
  assert (C' : calm w w5) by (by etrans). unfold twp, Q.
  assert (Hst' : st = item_state w5 (it_ID item)) by (unfold item_state; by rewrite (proj1 C')).
  rewrite Hst'. apply record_run_faithful; [|by apply Hc].
  exists item, opts, session, (ag_reads w1), (ag_reads w4), k. split_and!; try done.
  - cbn [with_version sr_Version]. destruct (calm_faithful offered w w5 C' Hf) as [<- _]. by rewrite <- Hst'.
  - destruct C3 as (_ & _ & ?), C4 as (_ & _ & ?). lia.
Qed.

Definition stays_faithful (offered : Item -> Prop) w w' : Prop := faithful offered w -> faithful offered w'.

#[export] Instance stays_faithful_steady offered : Steady (stays_faithful offered).
Proof.
  split.
  - split; [intros w Hf; exact Hf|]. intros w1 w2 w3 H1 H2 Hf. auto.
  - intros c w Hf. refine (calm_faithful offered w _ _ Hf). apply steady_clock.
  - intros n w Hf. refine (calm_faithful offered w _ _ Hf). apply steady_net.
  - intros fs w Hf. refine (calm_faithful offered w _ _ Hf). apply steady_faults.
Qed.

Lemma checkins_faithful (offered : Item -> Prop) cs w :
  (forall c item, c ∈ cs -> item ∈ c.2 -> offered item) -> faithful offered w -> faithful offered (checkins cs w).
Proof.
  unfold checkins. revert w. induction cs as [|c cs IH]; intros w Ho Hf; simpl; [done|]. apply IH; [set_solver|].
  revert Hf. apply (SyncScripts_keeps clock ops (stays_faithful offered)). intros item Hi w' Hf'. apply syncScript_faithful; set_solver.
Qed.

Lemma fresh_faithful offered w : ag_items w = ∅ -> ag_calls w = [] -> faithful offered w.
Proof.
  intros Hi Hc. split; [intros id; unfold item_state; by rewrite Hi, Hc, lookup_empty|].
  intros id pre r post. rewrite Hc. by destruct pre.
Qed.

Definition offered_in (cs : list (Location * list gerror * list Item)) (item : Item) : Prop := exists c, c ∈ cs /\ item ∈ c.2.

Lemma history_faithful cs w : ag_items w = ∅ -> ag_calls w = [] -> faithful (offered_in cs) (checkins cs w).
Proof. intros Hi Hc. apply checkins_faithful; [|by apply fresh_faithful]. intros c item Hcs Hitem. by exists c. Qed.

(** From an empty store, over any number of check-ins, whatever
    the buckets, the server and the machine do: what is remembered of a script
    is the summary of the runs reported of it, and each of those runs was due,
    for an item some check-in offered, after the ones before it. *)
Theorem runs_are_remembered_and_due cs w :
  ag_items w = ∅ -> ag_calls w = [] ->
  let w' := checkins cs w in
  (forall id, item_state w' id = summary (runs_of id (ag_calls w'))) /\
  forall id pre r post, runs_of id (ag_calls w') = pre ++ r :: post -> due (offered_in cs) id pre r.
Proof. apply history_faithful. Qed.

(** ** Retries and intervals *)

Context (clock_set : forall i, 0 < clock i).

(** A summary that has not run is of no run at all. *)
Lemma summary_never_run runs : (forall r, r ∈ runs -> 0 < sr_FinishedAt r) -> is_LastRunAt (summary runs) = 0 -> runs = [].
Proof.
  intros Hp. destruct runs as [|r runs _] using rev_ind; [done|]. rewrite summary_app. simpl. intros E.
  specialize (Hp r ltac:(set_solver)). lia.
Qed.

Definition allows_retries (offered : Item -> Prop) (id : string) (m : Z) : Prop :=
  forall item opts, offered item -> it_ID item = id -> ParseDeploymentOptions (it_Options item) = Ok opts -> do_MaxRetries opts <= m.

Lemma due_finished offered id pre r : due offered id pre r -> 0 < sr_FinishedAt r.
Proof. intros (item & opts & session & i & j & k & _ & _ & _ & _ & _ & _ & -> & _). apply clock_set. Qed.

Lemma due_failures offered id m pre r :
  allows_retries offered id m -> (forall x, x ∈ pre -> 0 < sr_FinishedAt x) ->
  0 <= is_Failures (summary pre) <= Z.max 1 m -> due offered id pre r -> 0 <= is_Failures (next_state (summary pre) r) <= Z.max 1 m.
Proof.
  intros Hm Hpos Hf (item & opts & session & i & j & k & Hit & Hid & Hv & Ho & Hdue & _). specialize (Hm item opts Hit Hid Ho).
  unfold next_state. cbn [is_Failures]. destruct (negb _); [|lia]. destruct (is_Version (summary pre) =? sr_Version r) eqn:Ev; [|lia].
  revert Hdue. unfold DecideScript. destruct (if NeedsUserSession opts then session else None); [done|].
  unfold IsZero. destruct (Z.eqb_spec (is_LastRunAt (summary pre)) 0) as [Hz|_].
  { intros _. apply summary_never_run in Hz as ->; [simpl; lia|done]. }
  rewrite Ev. cbn [negb]. destruct (_ && _) eqn:Eb; [done|]. intros _. apply andb_false_iff in Eb as [?%Z.ltb_ge|?%Z.leb_gt]; lia.
Qed.

(** However often it is offered, a version of a script that keeps
    failing is given up: the failures counted in a row never exceed the retries
    allowed, or one. *)
Theorem failing_scripts_are_given_up cs id m w :
  ag_items w = ∅ -> ag_calls w = [] -> allows_retries (offered_in cs) id m ->
  0 <= is_Failures (item_state (checkins cs w) id) <= Z.max 1 m.
Proof.
  intros Hi Hc Hm. destruct (history_faithful cs w Hi Hc) as [Hs Hd]. rewrite Hs. specialize (Hd id).
  induction (runs_of id _) as [|r runs IH] using rev_ind; [simpl; lia|]. rewrite summary_app.
  assert (Hpre : forall pre x post, runs = pre ++ x :: post -> due (offered_in cs) id pre x)
    by (intros pre x post ->; apply (Hd _ _ (post ++ [r])); by rewrite <- app_assoc).
  apply (due_failures (offered_in cs) id); [done| |by apply IH|by apply (Hd runs r [])].
  intros x (l1 & l2 & E)%list_elem_of_split. eapply due_finished, Hpre. exact E.
Qed.

(** Two runs of a script in a row are of different versions, the
    options allowing that, or the script is recurring and the second began no
    earlier than the interval after the first ended. So a script that is not
    recurring runs a version once. *)
Theorem runs_keep_their_distance cs id pre r1 r2 post w :
  ag_items w = ∅ -> ag_calls w = [] -> (forall i j, (i <= j)%nat -> clock i <= clock j) ->
  runs_of id (ag_calls (checkins cs w)) = pre ++ r1 :: r2 :: post ->
  exists item opts, offered_in cs item /\ it_ID item = id /\ it_Version item = sr_Version r2 /\
    ParseDeploymentOptions (it_Options item) = Ok opts /\
    (if sr_Version r1 =? sr_Version r2
     then do_Frequency opts = FrequencyRecurring /\ Interval opts <= Sub (sr_StartedAt r2) (sr_FinishedAt r1)
     else do_RerunOnNewVersion opts = true).
Proof.
  intros Hi Hc Hmono E. destruct (history_faithful cs w Hi Hc) as [_ Hd].
  assert (H2 : due (offered_in cs) id (pre ++ [r1]) r2) by (apply (Hd _ _ _ post); by rewrite E, <- app_assoc).
  apply Hd, due_finished in E as H1.
  destruct H2 as (item & opts & session & i & j & k & Hit & Hid & Hv & Ho & Hdue & -> & _ & Hij & _).
  exists item, opts. split_and!; try done. revert Hdue. rewrite summary_app. unfold DecideScript.
  destruct (if NeedsUserSession opts then session else None); [done|]. unfold next_state, IsZero. cbn [is_LastRunAt is_Version is_Failures].
  destruct (Z.eqb_spec (sr_FinishedAt r1) 0) as [|_]; [lia|]. destruct (sr_Version r1 =? sr_Version r2); cbn [negb].
  - destruct (_ && _); [done|]. destruct (String.eqb_spec (do_Frequency opts) FrequencyRecurring); [|done].
    destruct (Z.leb_spec (Interval opts) (Sub (clock i) (sr_FinishedAt r1))) as [Hle|]; [|done]. intros _. split; [done|].
    etrans; [exact Hle|]. specialize (Hmono i j ltac:(lia)). unfold Sub, sat64, MinInt64, MaxInt64. lia.
  - by destruct (do_RerunOnNewVersion opts).
Qed.
End History.
