(* ===== verification/Apps.v ===== *)
(** * App versions, winget and uploaded packages

    What an app version is and what a signature over it covers
    ([internal/protocol/app.go], [apppackage.go], [signing.go]); the two kinds
    of installer of [internal/agent/apps]: winget ([winget.go] and its Windows
    client) and uploaded MSI and EXE packages ([package.go], [detect.go]).
    Processes, downloads, the registry and the disk are the class [AppHost]. *)
From S2P Require Export AgentStore.
Open Scope Z_scope.
Open Scope go_scope.

Definition AppSourceWinget : string := "winget".
Definition AppSourcePackage : string := "package".
Definition InstallerMSI : string := "msi".
Definition InstallerEXE : string := "exe".
Definition DetectMSIProductCode : string := "msi_product_code".
Definition DetectRegistry : string := "registry".
Definition DetectFile : string := "file".
Definition ScopeMachine : string := "machine".
Definition DefaultSuccessExitCodes : list Z := [0; 3010; 1641].
Definition RebootExitCode (code : Z) : bool := (code =? 3010) || (code =? 1641).

(** ** Dotted versions *)

Definition AppVersion : Type := list Z.

Fixpoint version_parts (parts : list string) : option (list Z) :=
  match parts with
  | [] => Some []
  | p :: rest =>
      match Atoi p with
      | Some n => if n <? 0 then None else option_map (cons n) (version_parts rest)
      | None => None
      end
  end.

Definition ParseAppVersion (s : string) : option AppVersion :=
  let s := TrimSpace s in
  if String.eqb s EmptyString then None else
  let parts := Split "." s in
  if (4 <? length parts)%nat then None else version_parts parts.

Fixpoint CompareVersions (v o : AppVersion) : Z :=
  let next (a b : Z) (rest : Z) := if a <? b then -1 else if b <? a then 1 else rest in
  match v, o with
  | [], [] => 0
  | a :: v', [] => next a 0 (CompareVersions v' [])
  | [], _ => (fix zeros o := match o with [] => 0 | b :: o' => next 0 b (zeros o') end) o
  | a :: v', b :: o' => next a b (CompareVersions v' o')
  end.

(** ** Detection rules *)

Record DetectionRule := mkRule {
  dr_Type : string; dr_ProductCode : string; dr_Key : string; dr_Value : string; dr_Equals : string;
  dr_Path : string; dr_VersionAtLeast : string }.

Definition is_hex (c : ascii) : bool := is_digit c || in_range "a" "f" c || in_range "A" "F" c.
Definition hex_group (n : nat) (s : string) : bool := (String.length s =? n)%nat && sall is_hex s.

(** [productCodePattern]. *)
Definition productCodePattern (s : string) : bool :=
  match s with
  | String "{" r =>
      match srev r with
      | String "}" m =>
          match Split "-" (srev m) with
          | [a; b; c; d; e] => hex_group 8 a && hex_group 4 b && hex_group 4 c && hex_group 4 d && hex_group 12 e
          | _ => false
          end
      | _ => false
      end
  | _ => false
  end.

Inductive bad_detection :=
| BadMinimum | BadProductCode | ForeignFields (kind : string) | BadKey | HiveInKey | NothingToCompare | BothComparisons
| PathRequired | BadRuleType.

Definition is_set (s : string) : bool := negb (String.eqb s EmptyString).

Definition ValidateRule (d : DetectionRule) : result bad_detection unit :=
  check! ensure (negb (is_set (dr_VersionAtLeast d)) || match ParseAppVersion (dr_VersionAtLeast d) with Some _ => true | None => false end) BadMinimum;
  if String.eqb (dr_Type d) DetectMSIProductCode then
    check! ensure (productCodePattern (dr_ProductCode d)) BadProductCode;
    ensure (negb (is_set (dr_Key d) || is_set (dr_Value d) || is_set (dr_Equals d) || is_set (dr_Path d))) (ForeignFields DetectMSIProductCode)
  else if String.eqb (dr_Type d) DetectRegistry then
    let key := TrimChar "\" (dr_Key d) in
    check! ensure (is_set key && negb (Contains key "\\")) BadKey;
    check! ensure (negb (HasPrefix (ToUpper key) "HKEY_" || HasPrefix (ToUpper key) "HKLM")) HiveInKey;
    check! ensure (negb (negb (is_set (dr_Value d)) && (is_set (dr_Equals d) || is_set (dr_VersionAtLeast d)))) NothingToCompare;
    check! ensure (negb (is_set (dr_Equals d) && is_set (dr_VersionAtLeast d))) BothComparisons;
    ensure (negb (is_set (dr_ProductCode d) || is_set (dr_Path d))) (ForeignFields DetectRegistry)
  else if String.eqb (dr_Type d) DetectFile then
    check! ensure (is_set (TrimSpace (dr_Path d))) PathRequired;
    ensure (negb (is_set (dr_ProductCode d) || is_set (dr_Key d) || is_set (dr_Value d) || is_set (dr_Equals d))) (ForeignFields DetectFile)
  else Err BadRuleType.

(** ** App versions and what is signed *)

Record AppVersionResponse := mkApp {
  aw_Version : Z; aw_PackageID : string; aw_PinnedVersion : string; aw_Scope : string; aw_InstallArgs : string;
  aw_Hash : string; aw_Source : string; aw_InstallerType : string; aw_FileName : string; aw_FileSHA256 : string;
  aw_FileSize : Z; aw_UninstallCommand : string; aw_SuccessExitCodes : list Z; aw_Detection : option DetectionRule;
  aw_UninstallPrevious : bool; aw_Signature : option OpSignature }.

Definition IsPackage (v : AppVersionResponse) : bool := String.eqb (aw_Source v) AppSourcePackage.

Record AppDefinition := mkAppDefinition {
  ad_Source : string; ad_PackageID : string; ad_PinnedVersion : string; ad_Scope : string; ad_InstallArgs : string;
  ad_InstallerType : string; ad_FileName : string; ad_FileSHA256 : string; ad_UninstallCommand : string;
  ad_SuccessExitCodes : list Z; ad_Detection : option DetectionRule; ad_UninstallPrevious : bool }.

Definition AppDefinition_of (v : AppVersionResponse) : AppDefinition :=
  mkAppDefinition (aw_Source v) (aw_PackageID v) (aw_PinnedVersion v) (aw_Scope v) (aw_InstallArgs v) (aw_InstallerType v)
    (aw_FileName v) (aw_FileSHA256 v) (aw_UninstallCommand v) (aw_SuccessExitCodes v) (aw_Detection v) (aw_UninstallPrevious v).

Definition or_else (s d : string) : string := if String.eqb s EmptyString then d else s.

Definition normalized (d : AppDefinition) : AppDefinition :=
  let source := or_else (ad_Source d) AppSourceWinget in
  let scope := or_else (ad_Scope d) ScopeMachine in
  if String.eqb source AppSourceWinget then
    mkAppDefinition source (ad_PackageID d) (ad_PinnedVersion d) scope (ad_InstallArgs d) EmptyString EmptyString EmptyString EmptyString [] None false
  else
    mkAppDefinition source EmptyString EmptyString scope (ad_InstallArgs d) (ad_InstallerType d) (TrimSpace (ad_FileName d))
      (ToLower (TrimSpace (ad_FileSHA256 d))) (ad_UninstallCommand d)
      (match ad_SuccessExitCodes d with [] => DefaultSuccessExitCodes | l => l end) (ad_Detection d) (ad_UninstallPrevious d).

Definition omit (k s : string) : list (string * json) := if String.eqb s EmptyString then [] else [(k, JStr s)].

Definition rule_json (r : DetectionRule) : json :=
  JObj (("type"%string, JStr (dr_Type r)) :: omit "product_code" (dr_ProductCode r) ++ omit "key" (dr_Key r) ++ omit "value" (dr_Value r)
    ++ omit "equals" (dr_Equals r) ++ omit "path" (dr_Path r) ++ omit "version_at_least" (dr_VersionAtLeast r)).

(** No exit codes are a nil slice, which is written [null]. *)
Definition definition_json (d : AppDefinition) : json :=
  JObj [("source", JStr (ad_Source d)); ("package_id", JStr (ad_PackageID d)); ("pinned_version", JStr (ad_PinnedVersion d));
    ("scope", JStr (ad_Scope d)); ("install_args", JStr (ad_InstallArgs d)); ("installer_type", JStr (ad_InstallerType d));
    ("file_name", JStr (ad_FileName d)); ("file_sha256", JStr (ad_FileSHA256 d)); ("uninstall_command", JStr (ad_UninstallCommand d));
    ("success_exit_codes", match ad_SuccessExitCodes d with [] => JNull | l => JArr (map jint l) end);
    ("detection", match ad_Detection d with Some r => rule_json r | None => JNull end);
    ("uninstall_previous", JBool (ad_UninstallPrevious d))]%string.

Definition AppManifest (json_text : json -> string) (d : AppDefinition) : string :=
  ("retune-app-manifest/v1" ++ newline ++ json_text (definition_json (normalized d)))%string.

(** ** Processes *)

(** What a process comes to: what it wrote, whether the time was up, and the
    exit code or why it could not be run. *)
Record process := mkProcess { pr_Out : list string; pr_ErrOut : list string; pr_Deadline : bool; pr_End : result string Z }.

Record RunResult := mkAppRun {
  res_ExitCode : Z; res_Stdout : string; res_Stderr : string; res_OutCut : bool; res_ErrCut : bool; res_Err : gerror; res_TimedOut : bool }.

Definition failed_result (code : Z) (e : string) : RunResult := mkAppRun code EmptyString EmptyString false false (Some e) false.

(** [int32(uint32(code))]. *)
Definition normalizeExitCode (code : Z) : Z := let u := code mod 2 ^ 32 in if u <? 2 ^ 31 then u else u - 2 ^ 32.

Definition process_result (p : process) : RunResult :=
  let out := WriteAll (pr_Out p) (NewCapped MaxOutputBytes) in
  let err := WriteAll (pr_ErrOut p) (NewCapped MaxOutputBytes) in
  let '(code, e, late) :=
    if pr_Deadline p then (-1, Some "context deadline exceeded"%string, true)
    else match pr_End p with Ok code => (normalizeExitCode code, None, false) | Err e => (-1, Some e, false) end in
  mkAppRun code (Captured out) (Captured err) (cp_truncated out) (cp_truncated err) e late.

Record InstallCommand := mkInstallCommand { c_Path : string; c_CmdLine : string }.
Inductive file_step := RemoveAll (path : string) | MkdirAll (path : string) | CreateFile (path : string) | CloseFile (path : string) | Rename (from to : string).

(** The limit is [None] where the caller sets none. *)
Class AppHost (N : Type) := {
  RunWinget : option duration -> list string -> N -> process * N;
  RunCommand : option duration -> InstallCommand -> N -> process * N;
  DownloadAppPackage : string -> Z -> string -> N -> gerror * N;
  FileStep : file_step -> N -> gerror * N;
  Registry : string -> string -> N -> result string (option string) * N;
  FileVersion : string -> N -> result string (option string) * N;
  Expand : string -> N -> string * N;
  SystemRoot : N -> string * N
}.

(** ** winget *)

Definition NotInstalledExit : Z := -1978335212.
Definition RebootRequiredExit : Z := 3010.
Definition WingetRebootRequiredExit : Z := -1978334967.

Inductive Outcome := OutcomeSucceeded | OutcomeNotInstalled | OutcomeRebootRequired | OutcomeFailed.

Definition classify (code : Z) : Outcome :=
  let code := normalizeExitCode code in
  if code =? 0 then OutcomeSucceeded
  else if code =? NotInstalledExit then OutcomeNotInstalled
  else if (code =? RebootRequiredExit) || (code =? WingetRebootRequiredExit) then OutcomeRebootRequired
  else OutcomeFailed.

Definition detectResult (code : Z) : result string bool :=
  match classify code with
  | OutcomeSucceeded => Ok true
  | OutcomeNotInstalled => Ok false
  | _ => Err ("winget list failed with exit code " ++ Itoa (normalizeExitCode code))%string
  end.

Definition baseArgs : list string := ["--exact"; "--source"; "winget"; "--disable-interactivity"; "--accept-source-agreements"]%string.
Definition detectArgs (packageID : string) : list string := ["list"; "--id"; packageID]%string ++ baseArgs.

(** [strings.Fields]. *)
Fixpoint first_word (s : string) : string * string :=
  match s with
  | EmptyString => (EmptyString, EmptyString)
  | String c r => match first_cut space_encodings s with
                  | Some _ => (EmptyString, s)
                  | None => let '(a, b) := first_word r in (String c a, b)
                  end
  end.
Fixpoint Fields_fuel (fuel : nat) (s : string) : list string :=
  match fuel with
  | O => []
  | S f => match trim_left space_encodings s with
           | EmptyString => []
           | t => let '(a, b) := first_word t in a :: Fields_fuel f b
           end
  end.
Definition Fields (s : string) : list string := Fields_fuel (S (String.length s)) s.

Definition wingetInstallArgs (v : AppVersionResponse) : list string :=
  ["install"; "--id"; aw_PackageID v]%string ++ baseArgs
  ++ (if is_set (TrimSpace (aw_PinnedVersion v)) then ["--version"%string; aw_PinnedVersion v] else [])
  ++ ["--scope"; aw_Scope v; "--silent"; "--accept-package-agreements"]%string ++ Fields (aw_InstallArgs v).
Definition wingetUninstallArgs (packageID : string) : list string := ["uninstall"; "--id"; packageID; "--silent"]%string ++ baseArgs.

(** The field after the first [id] that has one. *)
Fixpoint after_field (id : string) (fields : list string) : option string :=
  match fields with
  | [] => None
  | f :: rest => match rest with
                 | [] => None
                 | g :: _ => if String.eqb f id then Some g else after_field id rest
                 end
  end.
Fixpoint version_in_lines (id : string) (lines : list string) : string :=
  match lines with
  | [] => EmptyString
  | l :: rest => match after_field id (Fields l) with Some v => v | None => version_in_lines id rest end
  end.
Definition installedVersion (stdout packageID : string) : string := version_in_lines packageID (Split LF stdout).

(** ** Detection *)

Definition uninstallKey : string := "SOFTWARE\Microsoft\Windows\CurrentVersion\Uninstall\".

Definition atLeast (have min : string) : bool :=
  if String.eqb min EmptyString then true else
  match ParseAppVersion min, ParseAppVersion have with
  | Some want, Some got => 0 <=? CompareVersions got want
  | _, _ => false
  end.

Record detection := mkDetection { de_Installed : bool; de_Version : string; de_Result : RunResult }.
Definition answer (installed : bool) (version : string) (e : gerror) : detection :=
  mkDetection installed version (mkAppRun 0 EmptyString EmptyString false false e false).

Section Installers.
Context {N : Type} `{AppHost N}.

(** [Detect] of [detect.go]. *)
Definition DetectRule (rule : DetectionRule) (n : N) : detection * N :=
  if String.eqb (dr_Type rule) DetectMSIProductCode then
    let key := (uninstallKey ++ dr_ProductCode rule)%string in
    let '(r, n) := Registry key EmptyString n in
    match r with
    | Err e => (answer false EmptyString (Some e), n)
    | Ok None => (answer false EmptyString None, n)
    | Ok (Some _) =>
        let '(r, n) := Registry key "DisplayVersion" n in
        match r with
        | Err e => (answer false EmptyString (Some e), n)
        | Ok v => let v := default EmptyString v in (answer (atLeast v (dr_VersionAtLeast rule)) v None, n)
        end
    end
  else if String.eqb (dr_Type rule) DetectRegistry then
    let '(r, n) := Registry (TrimChar "\" (dr_Key rule)) (dr_Value rule) n in
    match r with
    | Err e => (answer false EmptyString (Some e), n)
    | Ok None => (answer false EmptyString None, n)
    | Ok (Some data) =>
        if negb (is_set (dr_Value rule)) then (answer true EmptyString None, n)
        else if is_set (dr_Equals rule) && negb (String.eqb data (dr_Equals rule)) then (answer false data None, n)
        else (answer (atLeast data (dr_VersionAtLeast rule)) data None, n)
    end
  else if String.eqb (dr_Type rule) DetectFile then
    let '(path, n) := Expand (dr_Path rule) n in
    let '(r, n) := FileVersion path n in
    match r with
    | Err e => (answer false EmptyString (Some e), n)
    | Ok None => (answer false EmptyString None, n)
    | Ok (Some v) => (answer (atLeast v (dr_VersionAtLeast rule)) v None, n)
    end
  else (answer false EmptyString (Some ("unknown detection rule type " ++ Quoted (dr_Type rule))%string), n).

(** The Windows client of winget. *)
Definition wingetDetect (packageID : string) (n : N) : detection * N :=
  let '(p, n) := RunWinget None (detectArgs packageID) n in
  let r := process_result p in
  match detectResult (res_ExitCode r) with
  | Err e => (mkDetection false EmptyString
                (mkAppRun (res_ExitCode r) (res_Stdout r) (res_Stderr r) (res_OutCut r) (res_ErrCut r)
                   (match res_Err r with Some x => Some x | None => Some e end) (res_TimedOut r)), n)
  | Ok false => (mkDetection false EmptyString r, n)
  | Ok true => (mkDetection true (installedVersion (res_Stdout r) packageID) r, n)
  end.

(** ** Uploaded packages *)

Definition joinArgs (cmd extra : string) : string :=
  let extra := TrimSpace extra in if is_set extra then (cmd ++ " " ++ extra)%string else cmd.

(** What is before the first [c], if there is one. *)
Fixpoint before (c : ascii) (s : string) : option string :=
  match s with
  | EmptyString => None
  | String a r => if Ascii.eqb a c then Some EmptyString else option_map (String a) (before c r)
  end.

Definition program (line : string) : string :=
  let line := TrimSpace line in
  match line with
  | String a rest =>
      if Ascii.eqb a DQuote then match before DQuote rest with Some p => p | None => TrimChar DQuote line end
      else default line (before " " line)
  | EmptyString => line
  end.

Definition shaHex (s : string) : bool := (String.length s =? 64)%nat && sall (fun c => is_digit c || in_range "a" "f" c) s.

(** A nonempty name without separators or a colon is its own [filepath.Base]. *)
Definition plain_name (name : string) : bool :=
  is_set name && negb (sany (fun c => Ascii.eqb c "/" || Ascii.eqb c "\" || Ascii.eqb c ":") name).

(** [filepath.Join] of a clean directory and a plain name, on Windows, where
    packages are installed. *)
Definition join_name (parent dir name : string) : string :=
  if String.eqb name "." then dir else if String.eqb name ".." then parent else (dir ++ "\" ++ name)%string.

Definition fetch_package (Dir : string) (id : string) (v : AppVersionResponse) (n : N) : result string (string * string) * N :=
  let sha := ToLower (aw_FileSHA256 v) in
  let name := aw_FileName v in
  if negb (shaHex sha) then (Err ("the package hash " ++ Quoted (aw_FileSHA256 v) ++ " is malformed")%string, n)
  else if negb (plain_name name) then (Err ("the package file name " ++ Quoted name ++ " is not a plain file name")%string, n)
  else
    let dir := join_name Dir Dir sha in
    let '(_, n) := FileStep (RemoveAll dir) n in
    let '(e, n) := FileStep (MkdirAll dir) n in
    match e with Some e => (Err e, n) | None =>
    let part := join_name Dir dir (name ++ ".part") in
    let '(e, n) := FileStep (CreateFile part) n in
    match e with Some e => let '(_, n) := FileStep (RemoveAll dir) n in (Err e, n) | None =>
    let '(e, n) := DownloadAppPackage id (aw_Version v) sha n in
    let '(c, n) := FileStep (CloseFile part) n in
    match (match e with Some e => Some e | None => c end) with
    | Some e => let '(_, n) := FileStep (RemoveAll dir) n in (Err ("download the package: " ++ e)%string, n)
    | None =>
        let file := join_name Dir dir name in
        let '(e, n) := FileStep (Rename part file) n in
        match e with
        | Some e => let '(_, n) := FileStep (RemoveAll dir) n in (Err e, n)
        | None => (Ok (file, dir), n)
        end
    end end end.

(** [%SystemRoot%] is a clean path. *)
Definition msiexec (n : N) : string * N :=
  let '(root, n) := SystemRoot n in (or_else root "C:\Windows" ++ "\System32\msiexec.exe", n)%string.

Definition run_command (limit : option duration) (c : InstallCommand) (n : N) : RunResult * N :=
  let '(p, n) := RunCommand limit c n in (process_result p, n).

Definition quoted_path (file : string) : string := String DQuote (file ++ String DQuote EmptyString).

Definition packageInstall (Dir id : string) (limit : duration) (v : AppVersionResponse) (n : N) : RunResult * N :=
  let '(r, n) := fetch_package Dir id v n in
  match r with
  | Err e => (failed_result (-1) e, n)
  | Ok (file, dir) =>
      let '(r, n) :=
        if String.eqb (aw_InstallerType v) InstallerMSI then
          let '(exe, n) := msiexec n in
          run_command (Some limit) (mkInstallCommand exe (joinArgs ("msiexec.exe /i " ++ quoted_path file ++ " /qn /norestart") (aw_InstallArgs v))) n
        else if String.eqb (aw_InstallerType v) InstallerEXE then
          run_command (Some limit) (mkInstallCommand file (joinArgs (quoted_path file) (aw_InstallArgs v))) n
        else (failed_result (-1) ("unknown installer type " ++ Quoted (aw_InstallerType v))%string, n) in
      let '(_, n) := FileStep (RemoveAll dir) n in (r, n)
  end.

Definition packageUninstall (limit : duration) (v : AppVersionResponse) (n : N) : RunResult * N :=
  let cmd := TrimSpace (aw_UninstallCommand v) in
  if is_set cmd then
    let '(line, n) := Expand cmd n in run_command (Some limit) (mkInstallCommand (program line) line) n
  else match aw_Detection v with
  | Some d =>
      if String.eqb (aw_InstallerType v) InstallerMSI && String.eqb (dr_Type d) DetectMSIProductCode then
        let '(exe, n) := msiexec n in
        run_command (Some limit) (mkInstallCommand exe ("msiexec.exe /x " ++ dr_ProductCode d ++ " /qn /norestart")) n
      else (failed_result (-1) "this package has no uninstall command", n)
  | None => (failed_result (-1) "this package has no uninstall command", n)
  end.

Definition packageOutcome (v : AppVersionResponse) (code : Z) : Outcome :=
  let codes := match aw_SuccessExitCodes v with [] => DefaultSuccessExitCodes | l => l end in
  if existsb (Z.eqb code) codes then if RebootExitCode code then OutcomeRebootRequired else OutcomeSucceeded else OutcomeFailed.

(** ** Installers *)

(** [p.Dir], with the interface [Installer] as a sum. *)
Inductive Installer := wingetInstaller | packageInstaller (Dir : string).

Definition Detect (i : Installer) (v : AppVersionResponse) (n : N) : detection * N :=
  match i with
  | wingetInstaller => wingetDetect (aw_PackageID v) n
  | packageInstaller _ =>
      match aw_Detection v with
      | None => (answer false EmptyString (Some "this package has no detection rule"%string), n)
      | Some rule => DetectRule rule n
      end
  end.

Definition Install (i : Installer) (id : string) (limit : duration) (v : AppVersionResponse) (n : N) : RunResult * N :=
  match i with
  | wingetInstaller => let '(p, n) := RunWinget (Some limit) (wingetInstallArgs v) n in (process_result p, n)
  | packageInstaller dir => packageInstall dir id limit v n
  end.

Definition Uninstall (i : Installer) (limit : duration) (v : AppVersionResponse) (n : N) : RunResult * N :=
  match i with
  | wingetInstaller => let '(p, n) := RunWinget (Some limit) (wingetUninstallArgs (aw_PackageID v)) n in (process_result p, n)
  | packageInstaller _ => packageUninstall limit v n
  end.

Definition OutcomeOf (i : Installer) (v : AppVersionResponse) (code : Z) : Outcome :=
  match i with wingetInstaller => classify code | packageInstaller _ => packageOutcome v code end.
End Installers.
