(* ===== verification/AppSync.v ===== *)
(** * The app syncer

    [internal/agent/apps]: what is due for an assigned app ([scheduler.go]) and
    how it is detected, installed, removed, remembered and reported
    ([syncer.go]). The trace has the calls to the server and to the
    installers. *)
From S2P Require Export Apps.
Open Scope Z_scope.
Open Scope go_scope.

Definition ItemKindApp : string := "app".
Definition DetectEvery : duration := Hour.
Definition maxAttempts : Z := 3.

Inductive AppAction := AppNone | AppDetect | AppInstall | AppUninstall.
Record AppDecision := mkAppDecision { apd_Action : AppAction; apd_Reason : string }.

Definition DecideApp (version : Z) (opts : AppOptions) (st : AppState) (now : time) : AppDecision :=
  let fresh := negb (ap_Version st =? version) || negb (String.eqb (ap_Intent st) (ao_Intent opts)) in
  if fresh || IsZero (ap_LastSeenAt st) then mkAppDecision AppDetect EmptyString
  else if (0 <? ap_Failures st) && (maxAttempts <=? ap_Failures st) then
    mkAppDecision AppNone "this version has failed too many times"
  else
    let want := String.eqb (ao_Intent opts) IntentInstall in
    if negb (Bool.eqb (ap_Installed st) want) then mkAppDecision (if want then AppInstall else AppUninstall) EmptyString
    else if DetectEvery <=? Sub now (ap_LastSeenAt st) then mkAppDecision AppDetect EmptyString
    else mkAppDecision AppNone "it is already in the right state".

Record AppResult := mkAppResult {
  ar_Version : Z; ar_Intent : string; ar_Status : string; ar_InstalledVersion : string; ar_ExitCode : Z;
  ar_Stdout : string; ar_Stderr : string; ar_StdoutTruncated : bool; ar_StderrTruncated : bool; ar_Error : string;
  ar_Detail : string; ar_StartedAt : time; ar_FinishedAt : time }.

Class AppServer (N : Type) := {
  FetchApp : string -> Z -> N -> result string AppVersionResponse * N;
  ReportAppResult : string -> AppResult -> N -> gerror * N }.

Inductive app_event :=
| AppFetched (id : string) (version : Z)
| Detecting (v : AppVersionResponse)
| Installing (v : AppVersionResponse)
| Removing (v : AppVersionResponse)
| AppReported (id : string) (r : AppResult).

Record AppSyncer := mkAppSyncer {
  as_Winget : bool; as_Unavailable : gerror; as_Packages : option string; as_PackagesUnavailable : gerror; as_Operations : Policy }.

Definition ErrNoAppInstaller : string := "this machine has no App Installer, so winget cannot run".

Definition installerFor (s : AppSyncer) (v : AppVersionResponse) : result string Installer :=
  if IsPackage v then
    match as_PackagesUnavailable s, as_Packages s with
    | Some e, _ => Err e
    | None, None => Err "this agent can't install uploaded packages"%string
    | None, Some dir => Ok (packageInstaller dir)
    end
  else match as_Unavailable s with
       | Some e => Err e
       | None => if as_Winget s then Ok wingetInstaller else Err ErrNoAppInstaller
       end.

(** Changes of what is remembered. *)
Definition unavailable_state (st : AppState) (version : Z) (intent : string) (now : time) : AppState :=
  mkAppState version intent now ResultFailed (ap_LastSeenAt st) (ap_Installed st) (ap_Failures st) false (ap_InstalledByAgent st).

Definition seen_state (st : AppState) (version : Z) (intent : string) (installed : bool) (now : time) : AppState :=
  let fresh := negb (ap_Version st =? version) || negb (String.eqb (ap_Intent st) intent) in
  mkAppState version intent (ap_LastActedAt st) (ap_LastStatus st) now installed
    (if fresh then 0 else ap_Failures st) (Bool.eqb installed (String.eqb intent IntentInstall)) (ap_InstalledByAgent st).

Definition forget_install (st : AppState) : AppState :=
  mkAppState (ap_Version st) (ap_Intent st) (ap_LastActedAt st) (ap_LastStatus st) (ap_LastSeenAt st) (ap_Installed st)
    (ap_Failures st) (ap_Settled st) 0.

Definition acted_state (st : AppState) (version : Z) (wanted intent status : string) (finished : time) : AppState :=
  if String.eqb status ResultSucceeded then
    let installed := String.eqb intent IntentInstall in
    mkAppState version wanted finished status finished installed 0 true (if installed then version else 0)
  else
    mkAppState version wanted finished status (ap_LastSeenAt st) (ap_Installed st)
      (if (ap_Version st =? version) && String.eqb (ap_Intent st) wanted then ap_Failures st + 1 else 1) false (ap_InstalledByAgent st).

(** The report of an install or removal, without its version. *)
Definition result_status (r : RunResult) (outcome : Outcome) (limit : duration) : string * Z * string * string :=
  if res_TimedOut r then (ResultFailed, -1, ("timed out after " ++ duration_text limit)%string, EmptyString)
  else match res_Err r with
  | Some e => (ResultFailed, -1, e, EmptyString)
  | None =>
      match outcome with
      | OutcomeRebootRequired => (ResultSucceeded, res_ExitCode r, EmptyString, "a restart is needed to finish installing this app"%string)
      | OutcomeSucceeded => (ResultSucceeded, res_ExitCode r, EmptyString, EmptyString)
      | _ => (ResultFailed, res_ExitCode r, EmptyString, EmptyString)
      end
  end.

Section Syncer.
Context `{Crypto} {N : Type} `{AppHost N} `{AppServer N} (clock : nat -> time) (json_text : json -> string) (s : AppSyncer).
Abbreviation A T := (txn (agent N app_event) string T).

Definition app_refusal (v : AppVersionResponse) : gerror :=
  if po_Enforced (as_Operations s) then
    match VerifyOp (po_Keys (as_Operations s)) (AppManifest json_text (AppDefinition_of v)) (aw_Signature v) with
    | Ok _ => None
    | Err e => Some ("refused: " ++ opsign_message e)%string
    end
  else None.

Definition save_and_report (id : string) (st : AppState) (r : AppResult) : A unit :=
  do* named_error "record local state" (SetAppState id st);
  do* call (AppReported id r);
  let* e := net_call (ReportAppResult id r) in
  named_error "report result" (fail_if e).

Definition plain_result (version : Z) (intent status detail : string) (now : time) : AppResult :=
  mkAppResult version intent status EmptyString 0 EmptyString EmptyString false false EmptyString detail now now.

Definition reportUnavailable (item : Item) (opts : AppOptions) (st : AppState) (why : string) : A unit :=
  if (ap_Version st =? it_Version item) && String.eqb (ap_LastStatus st) ResultFailed then tret tt else
  let* now := read_clock clock in
  save_and_report (it_ID item) (unavailable_state st (it_Version item) (ao_Intent opts) now)
    (plain_result (it_Version item) (ao_Intent opts) ResultFailed why now).

Definition fetch_app (what id : string) (version : Z) : A AppVersionResponse :=
  do* call (AppFetched id version);
  let* r := net_call (FetchApp id version) in
  named_error what (or_fail r).

(** What acts on a version, or why this agent will not. *)
Definition may_act (v : AppVersionResponse) : result string Installer :=
  match app_refusal v with Some why => Err why | None => installerFor s v end.

Definition finish_app (item : Item) (opts : AppOptions) (st : AppState) (intent installedVersion : string) (r : RunResult)
    (outcome : Outcome) (started finished : time) : A unit :=
  let '(status, code, err, detail) := result_status r outcome (AppTimeout opts) in
  save_and_report (it_ID item) (acted_state st (it_Version item) (ao_Intent opts) intent status finished)
    (mkAppResult (it_Version item) intent status installedVersion code (res_Stdout r) (res_Stderr r) (res_OutCut r) (res_ErrCut r)
       err detail started finished).

(** Remove the version the agent installed before: [None] when the install may
    go on, or the result to finish with. *)
Definition remove_previous (item : Item) (opts : AppOptions) (st : AppState) (i : Installer) (prev : AppVersionResponse)
    : A (option (RunResult * time)) :=
  let* started := read_clock clock in
  do* call (Removing prev);
  let* r := net_call (Uninstall i (AppTimeout opts) prev) in
  let why := ("removing version " ++ Itoa (ap_InstalledByAgent st) ++ " first")%string in
  let err :=
    match res_Err r with
    | Some e => Some (why ++ ": " ++ e)%string
    | None => if negb (res_TimedOut r) && match OutcomeOf i prev (res_ExitCode r) with OutcomeFailed => true | _ => false end
              then Some (why ++ " failed with exit code " ++ Itoa (res_ExitCode r))%string else None
    end in
  let r := mkAppRun (res_ExitCode r) (res_Stdout r) (res_Stderr r) (res_OutCut r) (res_ErrCut r) err (res_TimedOut r) in
  tret (if match err with Some _ => true | None => res_TimedOut r end then Some (r, started) else None).

Definition install_now (item : Item) (opts : AppOptions) (st : AppState) (i : Installer) (v : AppVersionResponse) : A unit :=
  let* started := read_clock clock in
  do* call (Installing v);
  let* r := net_call (Install i (it_ID item) (AppTimeout opts) v) in
  let* finished := read_clock clock in
  let outcome := OutcomeOf i v (res_ExitCode r) in
  let worked := match res_Err r, outcome with None, (OutcomeSucceeded | OutcomeRebootRequired) => negb (res_TimedOut r) | _, _ => false end in
  let* version :=
    if worked then
      do* call (Detecting v);
      let* d := net_call (Detect i v) in
      tret (match res_Err (de_Result d) with None => de_Version d | Some _ => EmptyString end)
    else tret EmptyString in
  finish_app item opts st IntentInstall version r outcome started finished.

Definition install (item : Item) (opts : AppOptions) (st : AppState) : A unit :=
  let* v := fetch_app "fetch app" (it_ID item) (it_Version item) in
  match may_act v with
  | Err why => reportUnavailable item opts st why
  | Ok i =>
      let old := ap_InstalledByAgent st in
      if aw_UninstallPrevious v && negb (old =? 0) && negb (old =? it_Version item) then
        let* prev := fetch_app ("fetch version " ++ Itoa old ++ " to remove it") (it_ID item) old in
        match app_refusal prev with
        | Some why => reportUnavailable item opts st ("removing version " ++ Itoa old ++ " first: " ++ why)
        | None =>
            match installerFor s prev with
            | Err why => reportUnavailable item opts st why
            | Ok pi =>
                let* stop := remove_previous item opts st pi prev in
                match stop with
                | Some (r, started) =>
                    let* now := read_clock clock in
                    finish_app item opts st IntentInstall EmptyString r OutcomeFailed started now
                | None => install_now item opts (forget_install st) i v
                end
            end
        end
      else install_now item opts st i v
  end.

Definition uninstall (item : Item) (opts : AppOptions) (st : AppState) : A unit :=
  let* v := fetch_app "fetch app" (it_ID item) (it_Version item) in
  match may_act v with
  | Err why => reportUnavailable item opts st why
  | Ok i =>
      let* started := read_clock clock in
      do* call (Removing v);
      let* r := net_call (Uninstall i (AppTimeout opts) v) in
      let* finished := read_clock clock in
      finish_app item opts st IntentUninstall EmptyString r (OutcomeOf i v (res_ExitCode r)) started finished
  end.

(** [apply] with [allowDetect] false. *)
Definition apply_again (item : Item) (opts : AppOptions) (st : AppState) (d : AppDecision) : A unit :=
  match apd_Action d with
  | AppNone | AppDetect => tret tt
  | AppInstall => install item opts st
  | AppUninstall => uninstall item opts st
  end.

Definition detect (item : Item) (opts : AppOptions) (st : AppState) : A unit :=
  let* v := fetch_app "fetch app" (it_ID item) (it_Version item) in
  match may_act v with
  | Err why => reportUnavailable item opts st why
  | Ok i =>
      do* call (Detecting v);
      let* d := net_call (Detect i v) in
      match res_Err (de_Result d) with
      | Some _ => tret tt
      | None =>
          let* seen := read_clock clock in
          let next := seen_state st (it_Version item) (ao_Intent opts) (de_Installed d) seen in
          let fresh := negb (ap_Version st =? it_Version item) || negb (String.eqb (ap_Intent st) (ao_Intent opts)) in
          let news := ap_Settled next && (fresh || negb (ap_Settled st)) in
          do* named_error "record local state" (SetAppState (it_ID item) next);
          if news then
            let* now := read_clock clock in
            let r := plain_result (it_Version item) (ao_Intent opts) ResultSucceeded
              (if String.eqb (ao_Intent opts) IntentInstall then "already installed" else "already absent") now in
            do* call (AppReported (it_ID item) r);
            let* e := net_call (ReportAppResult (it_ID item) r) in
            named_error "report result" (fail_if e)
          else
            let* now := read_clock clock in
            apply_again item opts next (DecideApp (it_Version item) opts next now)
      end
  end.

(** [apply] with [allowDetect] true. *)
Definition apply_first (item : Item) (opts : AppOptions) (st : AppState) (d : AppDecision) : A unit :=
  match apd_Action d with
  | AppDetect => detect item opts st
  | _ => apply_again item opts st d
  end.

Definition app_options (item : Item) : A AppOptions :=
  match ParseAppOptions (it_Options item) with Ok o => tret o | Err _ => tfail "options"%string end.

Definition syncApp (item : Item) : A unit :=
  let* opts := app_options item in
  let* st := named_error "read local state" (AppState_ (it_ID item)) in
  let* now := read_clock clock in
  apply_first item opts st (DecideApp (it_Version item) opts st now).

Fixpoint sync_apps (ctx : list gerror) (items : list Item) : A unit :=
  match items with
  | [] => tret tt
  | item :: rest =>
      if negb (String.eqb (it_Kind item) ItemKindApp) then sync_apps ctx rest else
      match ctx with
      | Some e :: _ => tfail e
      | _ => do* logged (syncApp item); sync_apps (tail ctx) rest
      end
  end.

Definition SyncApps (loc : Location) (ctx : list gerror) (items : list Item) : A unit :=
  let* now := read_clock clock in
  if negb (Open loc (WindowsFrom items) now) then tret tt else sync_apps ctx items.
End Syncer.
