(* ===== verification/AppLife.v ===== *)
(** * Apps over check-ins

    How often a failing app is tried, what a check-in does about an app that is
    as it should be or is missing, and what the signature over an app version
    decides. *)
From S2P Require Export AppSync.

Open Scope Z_scope.
Open Scope go_scope.

(** ** What the app syncer does

    Only signed definitions are acted on, and a signature covers what an
    installer does; a version that keeps failing is left alone; an app in its
    right state is quiet; an app that is missing is installed. *)

Section Apps.
Context `{Crypto} {N : Type} `{AppHost N} `{AppServer N} (clock : nat -> time) (json_text : json -> string) (s : AppSyncer).
Implicit Types w : agent N app_event.

(** ** What every step keeps *)

Section Steps.
Context (R : agent N app_event -> agent N app_event -> Prop) `{!Steady R} (P : AppVersionResponse -> Prop) (Q : AppState -> Prop).
(** What is remembered after acting, if that was due, is allowed. *)
Definition ready (item : Item) (opts : AppOptions) (st : AppState) : Prop := forall intent status t,
  Q (acted_state st (it_Version item) (ao_Intent opts) intent status t) /\
  Q (acted_state (forget_install st) (it_Version item) (ao_Intent opts) intent status t).
Definition acts (d : AppDecision) : bool := match apd_Action d with AppInstall | AppUninstall => true | _ => false end.
Context (Rapps : forall id st, Q st -> tkeeps R (SetAppState id st)) (Rfetched : forall id v, tkeeps R (call (AppFetched id v)))
        (Rreported : forall id r, tkeeps R (call (AppReported id r)))
        (Rdetecting : forall v, P v -> tkeeps R (call (Detecting v))) (Rinstalling : forall v, P v -> tkeeps R (call (Installing v)))
        (Rremoving : forall v, P v -> tkeeps R (call (Removing v)))
        (vouched : forall v, app_refusal json_text s v = None -> P v)
        (Qunavailable : forall st v i t, Q st -> Q (unavailable_state st v i t)) (Qseen : forall st v i b t, Q st -> Q (seen_state st v i b t))
        (Qdue : forall item opts st now, Q st -> acts (DecideApp (it_Version item) opts st now) = true -> ready item opts st).

Lemma save_keeps id st r : Q st -> tkeeps R (save_and_report id st r).
Proof. intros Hst. unfold save_and_report. auto 10 with agent. Qed.
Hint Resolve save_keeps : agent.

Lemma unavailable_keeps item opts st why : Q st -> tkeeps R (reportUnavailable clock item opts st why).
Proof. intros Hst. unfold reportUnavailable. destruct (_ && _); auto with agent. Qed.
Hint Resolve unavailable_keeps : agent.

Lemma fetch_app_keeps what id v : tkeeps R (fetch_app what id v).
Proof. unfold fetch_app. auto 10 with agent. Qed.
Hint Resolve fetch_app_keeps : agent.

Lemma finish_app_keeps item opts st intent ver r o a b :
  (forall status t, Q (acted_state st (it_Version item) (ao_Intent opts) intent status t)) -> tkeeps R (finish_app item opts st intent ver r o a b).
Proof. intros Hst. unfold finish_app. destruct (result_status _ _ _) as [[[x y] z] u]. auto with agent. Qed.
Hint Resolve finish_app_keeps : agent.

Lemma may_act_vouched v i : may_act json_text s v = Ok i -> P v.
Proof. unfold may_act. destruct (app_refusal _ _ v) eqn:E; [done|]. auto. Qed.

Lemma install_now_keeps item opts st i v :
  P v -> (forall intent status t, Q (acted_state st (it_Version item) (ao_Intent opts) intent status t)) -> tkeeps R (install_now clock item opts st i v).
Proof.
  intros Hv Hst. unfold install_now. do 3 (apply keeps_bind; [apply _|auto with agent|]; intros ?).
  apply keeps_bind; [apply _|auto with agent|]. intros t. apply keeps_bind; [apply _| |auto with agent].
  destruct (match res_Err _ with None => _ | _ => _ end); auto 10 with agent.
Qed.

Lemma remove_previous_keeps item opts st i v : P v -> tkeeps R (remove_previous clock item opts st i v).
Proof. intros Hv. unfold remove_previous. do 2 (apply keeps_bind; [apply _|auto with agent|]; intros ?). apply keeps_bind; [apply _|auto with agent|]. intros r. apply keeps_ret, _. Qed.

Lemma install_keeps item opts st : Q st -> ready item opts st -> tkeeps R (install clock json_text s item opts st).
Proof.
  intros Hst Hr. unfold install. apply keeps_bind; [apply _|auto with agent|]. intros v.
  destruct (may_act _ _ v) as [i|why] eqn:E; [|auto with agent]. apply may_act_vouched in E.
  destruct (_ && _ && _); [|apply install_now_keeps; [done|intros; apply Hr]]. apply keeps_bind; [apply _|auto with agent|]. intros prev.
  destruct (app_refusal _ _ prev) as [why|] eqn:Er; [auto with agent|]. destruct (installerFor s prev) as [pi|why]; [|auto with agent].
  apply keeps_bind; [apply _|by apply remove_previous_keeps, vouched|]. intros [[r started]|];
    [|apply install_now_keeps; [done|intros; apply Hr]].
  apply keeps_bind; [apply _|auto with agent|]. intros t. apply finish_app_keeps. intros. apply Hr.
Qed.

Lemma uninstall_keeps item opts st : Q st -> ready item opts st -> tkeeps R (uninstall clock json_text s item opts st).
Proof.
  intros Hst Hr. unfold uninstall. apply keeps_bind; [apply _|auto with agent|]. intros v.
  destruct (may_act _ _ v) as [i|why] eqn:E; [|auto with agent]. apply may_act_vouched in E.
  do 4 (apply keeps_bind; [apply _|auto with agent|]; intros ?). apply finish_app_keeps. intros. apply Hr.
Qed.

Lemma again_keeps item opts st now :
  Q st -> tkeeps R (apply_again clock json_text s item opts st (DecideApp (it_Version item) opts st now)).
Proof.
  intros Hst. specialize (Qdue item opts st now Hst). unfold acts in Qdue. unfold apply_again.
  destruct (apd_Action _); auto using install_keeps, uninstall_keeps with agent.
Qed.

Lemma detect_keeps item opts st : Q st -> tkeeps R (detect clock json_text s item opts st).
Proof.
  intros Hst. unfold detect. apply keeps_bind; [apply _|auto with agent|]. intros v.
  destruct (may_act _ _ v) as [i|why] eqn:E; [|auto with agent]. apply may_act_vouched in E.
  do 2 (apply keeps_bind; [apply _|auto with agent|]; intros ?). destruct (res_Err _); [auto with agent|].
  do 2 (apply keeps_bind; [apply _|auto with agent|]; intros ?). destruct (_ && _); [auto 10 with agent|].
  apply keeps_bind; [apply _|auto with agent|]. intros t. by apply again_keeps, Qseen.
Qed.

Lemma first_keeps item opts st now :
  Q st -> tkeeps R (apply_first clock json_text s item opts st (DecideApp (it_Version item) opts st now)).
Proof.
  intros Hst. unfold apply_first. pose proof (again_keeps item opts st now Hst). destruct (apd_Action _) eqn:E; auto using detect_keeps.
Qed.

(** The state that was read is allowed when every state is, or when every
    remembered state is. *)
Lemma syncApp_keeps item w : (forall id, Q (default zero_AppState (ag_apps w !! id))) -> R w (syncApp clock json_text s item w).2.
Proof.
  intros Hq. change (twp (syncApp clock json_text s item) w (fun _ w' => R w w')). unfold syncApp, app_options.
  destruct (ParseAppOptions _) as [opts|e]; [|unfold twp; simpl; reflexivity]. apply twp_bind. unfold twp at 1. cbn [tret].
  apply (twp_keeps_bind R); [unfold AppState_; auto with agent| |done]. intros st w1 E1 R1.
  apply named_error_ok, AppState_ok in E1 as ->.
  apply (twp_keeps_bind R); [auto with agent| |intros; by etrans]. intros t w2 _ R2. unfold twp.
  do 2 (etrans; [eassumption|]). apply first_keeps, Hq.
Qed.
End Steps.

(** What every app keeps, a check-in keeps. *)
Lemma SyncApps_keeps R `{!Steady R} loc ctx items :
  (forall item, item ∈ items -> tkeeps R (syncApp clock json_text s item)) -> tkeeps R (SyncApps clock json_text s loc ctx items).
Proof.
  intros Hone. unfold SyncApps. apply keeps_bind; [apply _|auto with agent|]. intros now. destruct (negb _); [auto with agent|].
  clear now. revert ctx Hone. induction items as [|item items IH]; intros ctx Hone; simpl; [auto with agent|].
  assert (Hrest : forall ctx, tkeeps R (sync_apps clock json_text s ctx items)) by (intros; apply IH; intros; apply Hone; by right).
  destruct (negb _); [done|]. destruct ctx as [|[e|] ctx]; [| auto with agent |];
    (apply keeps_bind; [apply _|apply keeps_logged, Hone; by left|intros _; apply Hrest]).
Qed.

(** ** Signatures *)

Definition app_signed (v : AppVersionResponse) : Prop :=
  VerifyOp (po_Keys (as_Operations s)) (AppManifest json_text (AppDefinition_of v)) (aw_Signature v) = Ok tt.

Definition acts_on (P : AppVersionResponse -> Prop) (e : app_event) : Prop :=
  match e with Detecting v | Installing v | Removing v => P v | _ => True end.

(** C32. With signatures required, the syncer detects, installs and
    removes only versions whose definition a trusted operations key signed,
    whatever the server sends; the version removed before an upgrade too. *)
Theorem only_signed_apps_act loc ctx items w :
  po_Enforced (as_Operations s) = true -> added (acts_on app_signed) w (SyncApps clock json_text s loc ctx items w).2.
Proof.
  intros Hen. apply (SyncApps_keeps (added (acts_on app_signed))). intros item _ w'. apply (syncApp_keeps (added (acts_on app_signed)) app_signed (fun _ => True)); try done; intros.
  1: unfold SetAppState; auto with agent. 1-5: apply keeps_call; simpl; auto.
  revert H2. unfold app_refusal, app_signed. rewrite Hen. by destruct (VerifyOp _ _ _) as [[]|e].
Qed.
End Apps.

Section Life.
Context `{Crypto} {N : Type} `{AppHost N} `{AppServer N} (clock : nat -> time) (json_text : json -> string) (s : AppSyncer).
Implicit Types w : agent N app_event.
Abbreviation syncApp := (syncApp clock json_text s).

Definition app_state w (id : string) : AppState := default zero_AppState (ag_apps w !! id).

(** ** Retries *)

Definition few_failures (st : AppState) : Prop := 0 <= ap_Failures st <= maxAttempts.
Definition bounded w : Prop := forall id, few_failures (app_state w id).
Definition stays_bounded w w' : Prop := bounded w -> bounded w'.

#[export] Instance stays_bounded_steady : Steady stays_bounded.
Proof. split; [split; [intros w Hb; exact Hb|intros w1 w2 w3 H12 H23 Hb; auto]|by intros ? w Hb..]. Qed.

Lemma SetAppState_bounded id st : few_failures st -> tkeeps stays_bounded (SetAppState id st : txn (agent N app_event) _ _).
Proof.
  intros Hst. apply keeps_bucket; [apply _|]. intros w Hb i. unfold app_state. simpl.
  destruct (decide (id = i)) as [<-|Hi]; [by rewrite lookup_insert_eq|rewrite lookup_insert_ne by done; apply Hb].
Qed.

Lemma acting_is_bounded item opts st now :
  few_failures st -> acts (DecideApp (it_Version item) opts st now) = true -> ready few_failures item opts st.
Proof.
  unfold few_failures, maxAttempts, DecideApp. intros Hf. destruct (_ || IsZero _); [done|].
  destruct (_ && _) eqn:E; [done|]. intros _ intent status t. apply andb_false_iff in E as [E%Z.ltb_ge|E%Z.leb_gt];
    unfold few_failures, acted_state, forget_install; destruct (String.eqb status _); simpl;
    repeat match goal with |- context [if ?b then _ else _] => destruct b end; unfold maxAttempts in *; lia.
Qed.

Lemma syncApp_bounded item : tkeeps stays_bounded (syncApp item).
Proof.
  assert (Hcall : forall e, tkeeps stays_bounded (call e)) by (intros e w Hb; exact Hb).
  intros w Hb. apply (syncApp_keeps clock json_text s stays_bounded (fun _ => True) few_failures); auto.
  - apply SetAppState_bounded.
  - intros st v i b t Hst. unfold few_failures, seen_state in *. simpl. destruct (_ || _); [unfold maxAttempts in *; lia|done].
  - apply acting_is_bounded.
Qed.

Definition app_checkins (cs : list (Location * list gerror * list Item)) w : agent N app_event :=
  foldl (fun w c => (SyncApps clock json_text s c.1.1 c.1.2 c.2 w).2) w cs.

Lemma checkins_bounded cs w : bounded w -> bounded (app_checkins cs w).
Proof.
  unfold app_checkins. revert w. induction cs as [|c cs IH]; intros w Hb; simpl; [done|]. apply IH.
  revert Hb. apply (SyncApps_keeps clock json_text s stays_bounded). intros item _. apply syncApp_bounded.
Qed.

(** The first steps of one app. *)
Lemma syncApp_start item opts w :
  ParseAppOptions (it_Options item) = Ok opts -> ag_faults w = [] ->
  syncApp item w = apply_first clock json_text s item opts (app_state w (it_ID item))
    (DecideApp (it_Version item) opts (app_state w (it_ID item)) (clock (ag_reads w))) (ticked w).
Proof.
  intros Ho Hf. unfold syncApp, app_options. rewrite Ho. rewrite (bind_ok _ _ w opts w) by done.
  rewrite (bind_ok _ _ _ _ _ (named_ok "read local state" _ _ _ _ (AppState_eq _ w Hf))). by rewrite (bind_ok _ _ _ _ _ (read_clock_eq clock _)).
Qed.

Definition assigned_as (item : Item) (opts : AppOptions) (st : AppState) : Prop :=
  ap_Version st = it_Version item /\ ap_Intent st = ao_Intent opts /\ ap_LastSeenAt st <> 0.

Lemma assigned_decision item opts st now :
  assigned_as item opts st ->
  DecideApp (it_Version item) opts st now =
    if (0 <? ap_Failures st) && (maxAttempts <=? ap_Failures st) then mkAppDecision AppNone "this version has failed too many times"
    else let want := String.eqb (ao_Intent opts) IntentInstall in
    if negb (Bool.eqb (ap_Installed st) want) then mkAppDecision (if want then AppInstall else AppUninstall) EmptyString
    else if DetectEvery <=? Sub now (ap_LastSeenAt st) then mkAppDecision AppDetect EmptyString
    else mkAppDecision AppNone "it is already in the right state".
Proof.
  intros (Hv & Hi & Hs). unfold DecideApp, IsZero. rewrite Hv, Hi, Z.eqb_refl, String.eqb_refl. by destruct (Z.eqb_spec (ap_LastSeenAt st) 0).
Qed.

(** From an empty store, over any number of check-ins and whatever
    fails, no more than three failures of an app are counted in a row; and a
    version of an app with three of them, seen at least once, is left alone:
    a check-in makes no call about it. *)
Theorem failing_apps_are_given_up cs item opts w :
  ag_apps w = ∅ -> ParseAppOptions (it_Options item) = Ok opts ->
  let w' := app_checkins cs w in
  let st := app_state w' (it_ID item) in
  0 <= ap_Failures st <= maxAttempts /\
  (assigned_as item opts st -> ap_Failures st = maxAttempts -> ag_calls (syncApp item w').2 = ag_calls w').
Proof.
  intros Ha Ho w' st. split.
  - apply checkins_bounded. intros id. unfold app_state. rewrite Ha, lookup_empty. unfold few_failures, maxAttempts. simpl. lia.
  - intros Has Hf. clearbody w'. unfold syncApp, app_options. rewrite Ho. unfold tbind at 1, tret.
    unfold tbind at 1. destruct (named_error _ (AppState_ _) w') as [[x|e] w1] eqn:E.
    2:{ unfold named_error, tmap_err, AppState_, bucket in E. by destruct (ag_faults w') as [|[e'|] fs]; injection E as _ <-. }
    assert (Hc : ag_calls w1 = ag_calls w').
    { unfold named_error, tmap_err, AppState_, bucket in E. by destruct (ag_faults w') as [|[e'|] fs]; injection E as _ <-. }
    apply named_error_ok, AppState_ok in E as ->. unfold tbind, read_clock. cbv iota beta. fold (app_state w' (it_ID item)). fold st.
    unfold apply_first. rewrite (assigned_decision item opts st _ Has), Hf. by simpl.
Qed.

(** ** An app in its right state *)

Definition wants (opts : AppOptions) : bool := String.eqb (ao_Intent opts) IntentInstall.

Definition settled (item : Item) (opts : AppOptions) (st : AppState) : Prop :=
  assigned_as item opts st /\ ap_Failures st = 0 /\ ap_Installed st = wants opts /\ ap_Settled st = true.

Lemma settled_decision item opts st now :
  settled item opts st ->
  DecideApp (it_Version item) opts st now =
    if DetectEvery <=? Sub now (ap_LastSeenAt st) then mkAppDecision AppDetect EmptyString
    else mkAppDecision AppNone "it is already in the right state".
Proof. intros (Ha & Hf & Hi & _). rewrite (assigned_decision item opts st now Ha), Hf, Hi. simpl. by rewrite eqb_reflx. Qed.

Lemma settled_idle item opts st now w :
  settled item opts st -> apply_again clock json_text s item opts st (DecideApp (it_Version item) opts st now) w = (Ok tt, w).
Proof. intros Hs. unfold apply_again. rewrite (settled_decision item opts st now Hs). by destruct (_ <=? _). Qed.

Lemma assigned_not_fresh item opts st :
  assigned_as item opts st -> negb (ap_Version st =? it_Version item) || negb (String.eqb (ap_Intent st) (ao_Intent opts)) = false.
Proof. intros (-> & -> & _). by rewrite Z.eqb_refl, String.eqb_refl. Qed.

Lemma fetch_app_ok what id version v w :
  (FetchApp id version (ag_net w)).1 = Ok v ->
  fetch_app what id version w = (Ok v, set_net (FetchApp id version (ag_net w)).2 (with_call (AppFetched id version) w)).
Proof.
  intros Hv. unfold fetch_app. rewrite (bind_ok _ _ _ _ _ (call_eq _ _)), (bind_ok _ _ _ _ _ (net_call_eq _ _)). cbn [with_call ag_net].
  by rewrite Hv.
Qed.

(** An app in the state it should be in is quiet: within the hour a
    check-in makes no call about it, and after that it fetches the version and
    detects it once, reports nothing, and leaves it settled. *)
Theorem settled_app_is_quiet item opts v i w :
  let st := app_state w (it_ID item) in
  ParseAppOptions (it_Options item) = Ok opts -> ag_faults w = [] -> (forall k, 0 < clock k) -> settled item opts st ->
  let f := FetchApp (it_ID item) (it_Version item) (ag_net w) in
  f.1 = Ok v -> may_act json_text s v = Ok i ->
  let d := (Detect i v f.2).1 in
  res_Err (de_Result d) = None -> de_Installed d = wants opts ->
  let w' := (syncApp item w).2 in
  settled item opts (app_state w' (it_ID item)) /\
  ag_calls w' = ag_calls w ++
    (if DetectEvery <=? Sub (clock (ag_reads w)) (ap_LastSeenAt st) then [AppFetched (it_ID item) (it_Version item); Detecting v] else []).
Proof.
  intros st Ho Hfaults Hclock Hs f Hf Hact d He Hd w'. subst w'. rewrite (syncApp_start item opts w Ho Hfaults). fold st.
  unfold apply_first. rewrite (settled_decision item opts st _ Hs).
  destruct (DetectEvery <=? _); cbn [apd_Action]; [|by rewrite app_nil_r].
  unfold detect. rewrite (bind_ok _ _ _ _ _ (fetch_app_ok "fetch app" (it_ID item) (it_Version item) v (ticked w) Hf)), Hact.
  rewrite (bind_ok _ _ _ _ _ (call_eq _ _)), (bind_ok _ _ _ _ _ (net_call_eq _ _)). cbn [ag_net set_net with_call ticked].
  fold f d. rewrite He. rewrite (bind_ok _ _ _ _ _ (read_clock_eq _ _)).
  set (seen := clock _). set (next := seen_state _ _ _ _ _). destruct Hs as (Ha & Hfail & Hin & Hset).
  assert (Hnext : settled item opts next).
  { unfold next, seen_state. rewrite (assigned_not_fresh item opts st Ha). split_and!; simpl; try done.
    - split_and!; simpl; try done. specialize (Hclock _ : 0 < seen). lia.
    - rewrite Hd. apply eqb_reflx. }
  rewrite (assigned_not_fresh item opts st Ha), Hset, andb_false_r.
  erewrite bind_ok; [|apply named_ok, SetAppState_eq; exact Hfaults]. rewrite (bind_ok _ _ _ _ _ (read_clock_eq _ _)).
  rewrite settled_idle by done. unfold app_state. cbn [ag_apps ag_calls set_apps set_net with_call ticked fst snd].
  rewrite lookup_insert_eq. split; [done|].
  by rewrite <- app_assoc.
Qed.

(** ** An app that is missing *)

Lemma saved id st r w : ag_faults w = [] ->
  app_state (save_and_report id st r w).2 id = st /\ ag_calls (save_and_report id st r w).2 = ag_calls w ++ [AppReported id r].
Proof.
  intros Hf. unfold save_and_report. erewrite bind_ok; [|by apply named_ok, SetAppState_eq].
  rewrite (bind_ok _ _ _ _ _ (call_eq _ _)), (bind_ok _ _ _ _ _ (net_call_eq _ _)). cbn [ag_net with_call set_apps].
  unfold app_state. destruct (ReportAppResult id r (ag_net w)) as [[e|] n]; cbn; by rewrite lookup_insert_eq.
Qed.

Definition worked (i : Installer) (v : AppVersionResponse) (r : RunResult) : Prop :=
  res_Err r = None /\ res_TimedOut r = false /\ (OutcomeOf i v (res_ExitCode r) = OutcomeSucceeded \/ OutcomeOf i v (res_ExitCode r) = OutcomeRebootRequired).

Lemma worked_status i v r limit : worked i v r ->
  exists detail, result_status r (OutcomeOf i v (res_ExitCode r)) limit = (ResultSucceeded, res_ExitCode r, EmptyString, detail).
Proof. intros (He & Ht & Ho). unfold result_status. rewrite He, Ht. destruct Ho as [-> | ->]; eauto. Qed.

(** The install itself, when it works. *)
Lemma install_now_eq item opts st i v w :
  ag_faults w = [] -> worked i v (Install i (it_ID item) (AppTimeout opts) v (ag_net w)).1 ->
  exists k r w1, (install_now clock item opts st i v w).2 =
      (save_and_report (it_ID item) (acted_state st (it_Version item) (ao_Intent opts) IntentInstall ResultSucceeded (clock k)) r w1).2
    /\ ag_faults w1 = [] /\ ag_calls w1 = ag_calls w ++ [Installing v; Detecting v] /\ ar_Status r = ResultSucceeded /\ ar_Version r = it_Version item.
Proof.
  intros Hf Hw. unfold install_now. rewrite (bind_ok _ _ _ _ _ (read_clock_eq _ _)), (bind_ok _ _ _ _ _ (call_eq _ _)),
    (bind_ok _ _ _ _ _ (net_call_eq _ _)), (bind_ok _ _ _ _ _ (read_clock_eq _ _)). cbn [ag_net with_call ticked].
  set (r := (Install i _ _ v (ag_net w)).1) in *. destruct (worked_status i v r (AppTimeout opts) Hw) as [detail Hs].
  assert (Hworked : match res_Err r, OutcomeOf i v (res_ExitCode r) with None, (OutcomeSucceeded | OutcomeRebootRequired) => negb (res_TimedOut r) | _, _ => false end = true)
    by (destruct Hw as (-> & -> & [-> | ->]); done).
  rewrite Hworked. unfold tbind at 1. rewrite (bind_ok _ _ _ _ _ (call_eq _ _)), (bind_ok _ _ _ _ _ (net_call_eq _ _)). unfold tret, finish_app. rewrite Hs.
  eexists _, _, _. split; [reflexivity|]. cbn [ag_faults ag_calls set_net with_call ticked]. split_and!; try done. by rewrite <- !app_assoc.
Qed.

Lemma install_now_works item opts st i v w :
  ag_faults w = [] -> (forall k, 0 < clock k) -> ao_Intent opts = IntentInstall ->
  worked i v (Install i (it_ID item) (AppTimeout opts) v (ag_net w)).1 ->
  let w' := (install_now clock item opts st i v w).2 in
  settled item opts (app_state w' (it_ID item)) /\ ap_InstalledByAgent (app_state w' (it_ID item)) = it_Version item /\
  exists r, ag_calls w' = ag_calls w ++ [Installing v; Detecting v; AppReported (it_ID item) r] /\ ar_Status r = ResultSucceeded
    /\ ar_Version r = it_Version item.
Proof.
  intros Hf Hc Hi Hw w'. subst w'. destruct (install_now_eq item opts st i v w Hf Hw) as (k & r & w1 & -> & Hf1 & Hc1 & Hs & Hv).
  destruct (saved (it_ID item) (acted_state st (it_Version item) (ao_Intent opts) IntentInstall ResultSucceeded (clock k)) r w1 Hf1) as [-> ->].
  unfold acted_state. rewrite Hi, !String.eqb_refl. specialize (Hc k). split; [|split; [done|]].
  - split; [split_and!; simpl; [done|done|lia]|]. split_and!; [done|by unfold wants; rewrite Hi|done].
  - exists r. by rewrite Hc1, <- app_assoc.
Qed.

(** C36. A version that is new here, allowed and missing, and does not ask for
    the previous one to be removed, is installed in one check-in: detected,
    found absent, installed, and, the installer having worked, reported as
    succeeded once and settled from then on. *)
Theorem missing_app_is_installed item opts v i w :
  let st := app_state w (it_ID item) in
  ParseAppOptions (it_Options item) = Ok opts -> ag_faults w = [] -> (forall k, 0 < clock k) -> ao_Intent opts = IntentInstall ->
  ap_Version st <> it_Version item -> aw_UninstallPrevious v = false ->
  let f1 := FetchApp (it_ID item) (it_Version item) (ag_net w) in
  f1.1 = Ok v -> may_act json_text s v = Ok i ->
  let d := Detect i v f1.2 in
  res_Err (de_Result d.1) = None -> de_Installed d.1 = false ->
  let f2 := FetchApp (it_ID item) (it_Version item) d.2 in
  f2.1 = Ok v -> worked i v (Install i (it_ID item) (AppTimeout opts) v f2.2).1 ->
  let w' := (syncApp item w).2 in
  settled item opts (app_state w' (it_ID item)) /\ ap_InstalledByAgent (app_state w' (it_ID item)) = it_Version item /\
  exists r, ag_calls w' = ag_calls w ++ [AppFetched (it_ID item) (it_Version item); Detecting v; AppFetched (it_ID item) (it_Version item);
      Installing v; Detecting v; AppReported (it_ID item) r] /\ ar_Status r = ResultSucceeded /\ ar_Version r = it_Version item.
Proof.
  intros st Ho Hfaults Hclock Hint Hver Hprev f1 Hf1 Hact d He Hd f2 Hf2 Hw w'. subst w'. rewrite (syncApp_start item opts w Ho Hfaults). fold st.
  assert (Hfresh : negb (ap_Version st =? it_Version item) = true) by (by apply negb_true_iff, Z.eqb_neq).
  unfold apply_first, DecideApp. rewrite Hfresh. cbn [orb apd_Action].
  unfold detect. rewrite (bind_ok _ _ _ _ _ (fetch_app_ok "fetch app" (it_ID item) (it_Version item) v (ticked w) Hf1)), Hact.
  rewrite (bind_ok _ _ _ _ _ (call_eq _ _)), (bind_ok _ _ _ _ _ (net_call_eq _ _)). cbn [ag_net set_net with_call ticked].
  fold f1 d. rewrite He. rewrite (bind_ok _ _ _ _ _ (read_clock_eq _ _)).
  set (seen := clock _). set (next := seen_state _ _ _ _ _). assert (Hseen : 0 < seen) by apply Hclock.
  assert (Hnext : next = mkAppState (it_Version item) (ao_Intent opts) (ap_LastActedAt st) (ap_LastStatus st) seen false 0 false (ap_InstalledByAgent st))
    by (unfold next, seen_state; by rewrite Hfresh, Hd, Hint).
  assert (Hset : ap_Settled next = false) by (by rewrite Hnext). rewrite Hset. cbn [andb]. erewrite bind_ok; [|apply named_ok, SetAppState_eq; exact Hfaults].
  rewrite (bind_ok _ _ _ _ _ (read_clock_eq _ _)). unfold apply_again.
  assert (Hdec : forall t, DecideApp (it_Version item) opts next t = mkAppDecision AppInstall EmptyString).
  { intros t. rewrite Hnext. unfold DecideApp, IsZero. cbn [ap_Version ap_Intent ap_LastSeenAt ap_Failures ap_Installed].
    rewrite Z.eqb_refl, String.eqb_refl, Hint. by destruct (Z.eqb_spec seen 0) as [->|]. }
  rewrite Hdec. cbn [apd_Action]. unfold install.
  match goal with |- context [tbind _ _ ?x] => rewrite (bind_ok _ _ _ _ _ (fetch_app_ok "fetch app" (it_ID item) (it_Version item) v x Hf2)) end.
  rewrite Hact, Hprev. cbn [andb]. match goal with |- context [install_now _ _ _ _ _ _ ?x] => set (x' := x) end.
  destruct (install_now_works item opts next i v x' Hfaults Hclock Hint Hw) as (Hw1 & Hw2 & r & Hr & Hw3).
  split; [exact Hw1|]. split; [exact Hw2|]. exists r. split; [|exact Hw3]. rewrite Hr. subst x'.
  cbn [ag_calls set_net with_call set_apps ticked]. by rewrite <- !app_assoc.
Qed.
End Life.

(** ** What the signature over an app version covers, and exit codes

    Two versions with one manifest do the same on a device, as far as they are
    written the way the server stores them. The exit codes of Windows
    processes mean the same in either of their two forms, and dotted versions
    compare as if padded with zeros. *)

(** ** The manifest *)

(** A member of an object written with [omitempty]: empty if it is not there. *)
Definition member (k : string) (l : list (string * json)) : string :=
  match List.find (fun kv => String.eqb kv.1 k) l with Some (_, JStr s) => s | _ => EmptyString end.

Lemma member_omit k s l : List.find (fun kv => String.eqb kv.1 k) l = None -> member k (omit k s ++ l) = s.
Proof.
  intros Hl. unfold omit. destruct (String.eqb_spec s EmptyString) as [->|]; simpl; unfold member; [by rewrite Hl|].
  simpl. by rewrite String.eqb_refl.
Qed.

Lemma member_other k j s l : String.eqb j k = false -> member k (omit j s ++ l) = member k l.
Proof. intros Hj. unfold omit. destruct (String.eqb s _); [done|]. unfold member. simpl. by rewrite Hj. Qed.

Lemma find_omit k j s l : String.eqb j k = false -> List.find (fun kv => String.eqb kv.1 k) (omit j s ++ l) = List.find (fun kv => String.eqb kv.1 k) l.
Proof. intros Hj. unfold omit. destruct (String.eqb s _); [done|]. simpl. by rewrite Hj. Qed.

Definition rule_members (r : DetectionRule) : list (string * json) :=
  omit "product_code" (dr_ProductCode r) ++ omit "key" (dr_Key r) ++ omit "value" (dr_Value r)
    ++ omit "equals" (dr_Equals r) ++ omit "path" (dr_Path r) ++ omit "version_at_least" (dr_VersionAtLeast r) ++ [].

Lemma rule_json_members r : rule_json r = JObj (("type"%string, JStr (dr_Type r)) :: rule_members r).
Proof. unfold rule_json, rule_members. by rewrite app_nil_r. Qed.

Lemma rule_members_of r :
  member "product_code" (rule_members r) = dr_ProductCode r /\ member "key" (rule_members r) = dr_Key r /\
  member "value" (rule_members r) = dr_Value r /\ member "equals" (rule_members r) = dr_Equals r /\
  member "path" (rule_members r) = dr_Path r /\ member "version_at_least" (rule_members r) = dr_VersionAtLeast r.
Proof.
  unfold rule_members. split_and!; repeat (rewrite member_other by done); (rewrite member_omit; [done|]); by repeat (rewrite find_omit by done).
Qed.

Lemma rule_json_inj r r' : rule_json r = rule_json r' -> r = r'.
Proof.
  rewrite !rule_json_members. intros [= Ht Hm]. pose proof (rule_members_of r) as Hr. pose proof (rule_members_of r') as Hr'.
  rewrite Hm in Hr. destruct r as [t1 a1 b1 c1 d1 e1 f1], r' as [t2 a2 b2 c2 d2 e2 f2].
  cbn [dr_Type dr_ProductCode dr_Key dr_Value dr_Equals dr_Path dr_VersionAtLeast] in *. destruct Hr as (? & ? & ? & ? & ? & ?), Hr' as (? & ? & ? & ? & ? & ?). congruence.
Qed.

Lemma codes_json_inj (l l' : list Z) :
  match l with [] => JNull | z :: r => JArr (jint z :: map jint r) end = match l' with [] => JNull | z :: r => JArr (jint z :: map jint r) end -> l = l'.
Proof.
  assert (Hinj : Inj (=) (=) jint) by (intros a b [= E]; by apply (inj pretty)).
  destruct l as [|a l], l' as [|b l']; try done. intros [= Ea El]. apply (inj pretty) in Ea as ->. f_equal. revert El. apply (inj (fmap jint)).
Qed.

Lemma definition_json_inj d d' : definition_json d = definition_json d' -> d = d'.
Proof.
  destruct d as [a1 b1 c1 d1 e1 f1 g1 h1 i1 j1 k1 l1], d' as [a2 b2 c2 d2 e2 f2 g2 h2 i2 j2 k2 l2]. unfold definition_json.
  cbn [ad_Source ad_PackageID ad_PinnedVersion ad_Scope ad_InstallArgs ad_InstallerType ad_FileName ad_FileSHA256 ad_UninstallCommand
    ad_SuccessExitCodes ad_Detection ad_UninstallPrevious].
  intros [= -> -> -> -> -> -> -> -> -> Ej Ek ->]. apply codes_json_inj in Ej as ->. f_equal.
  destruct k1 as [r|], k2 as [r'|]; [by apply rule_json_inj in Ek as ->|by rewrite rule_json_members in Ek|by rewrite rule_json_members in Ek|done].
Qed.

Section Manifest.
Context {N : Type} `{AppHost N} (json_text : json -> string) (s : AppSyncer).
Context (text_inj : forall a b, json_text a = json_text b -> a = b).

(** Written as the server stores it. *)
Definition as_stored (v : AppVersionResponse) : Prop := normalized (AppDefinition_of v) = AppDefinition_of v.

Lemma manifest_inj d d' : AppManifest json_text d = AppManifest json_text d' -> normalized d = normalized d'.
Proof.
  unfold AppManifest. intros E. do 2 apply (inj (String.append _)) in E. by apply definition_json_inj, text_inj.
Qed.

(** C34. Two definitions with one version number and one manifest, each in the
    normal form a server stores, are handled by one installer, detected,
    installed and removed by the same steps, their exit codes mean the same,
    and neither or both remove the version before. The number has to agree
    because a package is fetched by it and the manifest does not contain it;
    the normal form because the manifest is written from it, so that a field
    it clears is not signed (see [AgentExamples]). *)
Theorem manifest_decides_what_is_done v1 v2 :
  AppManifest json_text (AppDefinition_of v1) = AppManifest json_text (AppDefinition_of v2) ->
  as_stored v1 -> as_stored v2 -> aw_Version v1 = aw_Version v2 ->
  installerFor s v1 = installerFor s v2 /\ aw_UninstallPrevious v1 = aw_UninstallPrevious v2 /\
  forall i, (forall n, Detect i v1 n = Detect i v2 n) /\ (forall id limit n, Install i id limit v1 n = Install i id limit v2 n) /\
    (forall limit n, Uninstall i limit v1 n = Uninstall i limit v2 n) /\ forall code, OutcomeOf i v1 code = OutcomeOf i v2 code.
Proof.
  intros Em%manifest_inj H1 H2 Hv. unfold as_stored in *. rewrite H1, H2 in Em. clear H1 H2.
  destruct v1, v2. unfold AppDefinition_of in Em. simpl in *. injection Em as -> -> -> -> -> -> -> -> -> -> -> ->. subst.
  split_and!; [done|done|]. intros []; done.
Qed.
End Manifest.

(** ** Exit codes *)

(** Whichever of its two forms Windows gives a process's exit code
    in, signed or unsigned, it is kept as the signed one, and it is classified
    and read as an answer of detection alike. *)
Theorem exit_codes_agree code code' :
  - 2 ^ 31 <= normalizeExitCode code < 2 ^ 31 /\ (normalizeExitCode code) mod 2 ^ 32 = code mod 2 ^ 32 /\
  (normalizeExitCode code = code <-> - 2 ^ 31 <= code < 2 ^ 31) /\
  (code mod 2 ^ 32 = code' mod 2 ^ 32 -> classify code = classify code' /\ detectResult code = detectResult code').
Proof.
  pose proof (Z.mod_pos_bound code (2 ^ 32) ltac:(lia)) as Hb.
  assert (Hr : - 2 ^ 31 <= normalizeExitCode code < 2 ^ 31) by (unfold normalizeExitCode; destruct (Z.ltb_spec (code mod 2 ^ 32) (2 ^ 31)); lia).
  assert (Hm : normalizeExitCode code mod 2 ^ 32 = code mod 2 ^ 32).
  { unfold normalizeExitCode. destruct (_ <? _); [by rewrite Z.mod_mod by lia|]. rewrite Zminus_mod, Z_mod_same_full, Z.sub_0_r, !Z.mod_mod by lia. done. }
  split; [done|]. split; [done|]. split.
  - split; [intros <-; done|]. intros Hc. unfold normalizeExitCode. destruct (Z_lt_le_dec code 0).
    + replace (code mod 2 ^ 32) with (code + 2 ^ 32) by (apply Z.mod_unique with (-1); lia). destruct (Z.ltb_spec (code + 2 ^ 32) (2 ^ 31)); lia.
    + rewrite Z.mod_small by lia. destruct (Z.ltb_spec code (2 ^ 31)); lia.
  - intros E. assert (En : normalizeExitCode code = normalizeExitCode code') by (unfold normalizeExitCode; by rewrite E).
    unfold detectResult, classify. by rewrite En.
Qed.

(** ** Dotted versions *)

Definition part (v : AppVersion) (i : nat) : Z := nth i v 0.

Lemma compare_step v o :
  CompareVersions v o = if part v 0 <? part o 0 then -1 else if part o 0 <? part v 0 then 1 else CompareVersions (tail v) (tail o).
Proof. destruct v as [|a v], o as [|b o]; try done. simpl. by destruct o. Qed.

(** How two versions compare, by their first parts that differ. *)
Definition first_difference (v o : AppVersion) (lt : Z -> Z -> Prop) : Prop :=
  exists i, (forall j, (j < i)%nat -> part v j = part o j) /\ lt (part v i) (part o i).

(** Versions compare as their parts do, the missing ones zero: equal
    if no part differs, and else as the first parts that differ. *)
Theorem versions_compare_as_if_padded v o :
  (CompareVersions v o = 0 /\ forall i, part v i = part o i) \/
  (CompareVersions v o = -1 /\ first_difference v o Z.lt) \/ (CompareVersions v o = 1 /\ first_difference v o Z.gt).
Proof.
  remember (length v + length o)%nat as k eqn:Hk. assert (Hle : (length v + length o <= k)%nat) by lia. clear Hk. revert v o Hle.
  induction k as [|k IH]; intros v o Hle.
  { destruct v, o; simpl in Hle; try lia. left. done. }
  assert (Hparts : forall u i, part u (S i) = part (tail u) i) by (intros [|x u] [|i]; done).
  rewrite compare_step. destruct (Z.ltb_spec (part v 0) (part o 0)) as [Hlt|Hge].
  { right. left. split; [done|]. exists 0%nat. split; [lia|done]. }
  destruct (Z.ltb_spec (part o 0) (part v 0)) as [Hgt|Hle'].
  { right. right. split; [done|]. exists 0%nat. split; [lia|lia]. }
  assert (H0 : part v 0 = part o 0) by lia. destruct v as [|a v], o as [|b o]; [left; done|..].
  all: match goal with |- context [CompareVersions (tail ?x) (tail ?y)] => destruct (IH (tail x) (tail y)) as [[-> He]|Hd]; [simpl in *; lia| |] end;
    [left; split; [done|]; intros [|i]; [done|]; rewrite !Hparts; apply He|right].
  all: destruct Hd as [[-> (i & Heq & Hi)]|[-> (i & Heq & Hi)]]; [left|right]; (split; [done|]); exists (S i); rewrite !Hparts;
    (split; [|done]); intros [|j] Hj; [done| |done|]; rewrite !Hparts; apply Heq; lia.
Qed.
