(* ===== verification/AgentExamples.v ===== *)
(** * Small machines under the script scheduler and the app syncer

    The hypotheses of their theorems hold on machines whose runs are a list,
    and two histories show where the app syncer does not do what it means to. *)
From S2P Require Export ScriptRuns AppLife.
Open Scope Z_scope.
Open Scope go_scope.

(** ** A text of JSON that says which JSON it is of *)

Module Text.
Fixpoint quoted (s : string) : string :=
  match s with EmptyString => "0" | String c r => String "1" (String c (quoted r)) end.

Fixpoint text (v : json) : string :=
  match v with
  | JNull => "n"
  | JBool b => if b then "t" else "f"
  | JNum s => String "#" (quoted s)
  | JStr s => String "'" (quoted s)
  | JArr l => String "[" ((fix go l := match l with [] => "]" | x :: r => String "," (text x ++ go r) end) l)
  | JObj l => String "{" ((fix go l := match l with [] => "}" | kv :: r => String "," (quoted kv.1 ++ text kv.2 ++ go r) end) l)
  end%string.

Lemma quoted_prefix s s' x y : (quoted s ++ x = quoted s' ++ y)%string -> s = s' /\ x = y.
Proof.
  revert s'. induction s as [|c s IH]; intros [|c' s']; simpl; intros E; injection E; try done.
  intros E' ->. by apply IH in E' as [-> ->].
Qed.

Lemma append_assoc (a b c : string) : ((a ++ b) ++ c = a ++ (b ++ c))%string.
Proof. induction a as [|x a IH]; [done|]. change (String x ((a ++ b) ++ c) = String x (a ++ (b ++ c)))%string. by rewrite IH. Qed.

Lemma text_prefix a b x y : (text a ++ x = text b ++ y)%string -> a = b /\ x = y.
Proof.
  revert b x y. induction a as [|b1|n|t|l IH|l IH] using json_induct; intros [|b2|n2|t2|l2|l2] x y; simpl;
    try (destruct b1); try (destruct b2); try (intros [=]; done).
  1-2: intros [= [-> ->]%quoted_prefix]; done.
  - intros [= E]. assert (l = l2 /\ x = y) as [-> ->]; [|done]. revert l2 x y E.
    induction IH as [|v l Hv _ IHl]; intros [|v2 l2] x y; simpl; intros E; injection E; try done.
    rewrite !append_assoc. intros [-> E']%Hv. by apply IHl in E' as [-> ->].
  - intros [= E]. assert (l = l2 /\ x = y) as [-> ->]; [|done]. revert l2 x y E.
    induction IH as [|[k v] l Hv _ IHl]; intros [|[k2 v2] l2] x y; simpl; intros E; injection E; try done.
    rewrite !append_assoc. intros [-> E']%quoted_prefix. cbn [fst snd] in *. apply Hv in E' as [-> E'].
    by apply IHl in E' as [-> ->].
Qed.

Lemma text_inj a b : text a = text b -> a = b.
Proof. intros E. apply (text_prefix a b EmptyString EmptyString). by rewrite E. Qed.
End Text.

(** ** Scripts *)

Module Bench.
Local Existing Instance Toy.toy_crypto.

(** One script on the server, and what its coming runs come to. *)
Record bench := mkBench { b_script : ScriptVersionResponse; b_runs : list execution }.
#[export] Instance host : ScriptHost bench := {|
  FetchScript _ _ n := (Ok (b_script n), n);
  ReportScriptRun _ _ n := (None, n);
  RunPowerShell _ _ _ n := match b_runs n with x :: r => (x, mkBench (b_script n) r) | [] => (mkExecution 0 [] [] None false, n) end;
  userSession n := (None, n) |}.

Definition clock (k : nat) : time := Z.of_nat (S k) * Hour.
Lemma clock_set k : 0 < clock k.
Proof. unfold clock. apply Z.mul_pos_pos; [lia|done]. Qed.
Lemma clock_rises i j : (i <= j)%nat -> clock i <= clock j.
Proof. unfold clock. intros Hij. apply Z.mul_le_mono_nonneg_r; [done|lia]. Qed.

Definition exits (code : Z) : execution := mkExecution code ["output"%string] [] None false.
Definition script (sig : option OpSignature) : ScriptVersionResponse := mkScriptVersion 1 "body" "detection" "" sig.
Definition signed_script : ScriptVersionResponse :=
  script (Some (SignOp (mkPrivateKey (pk_Raw Toy.keyA)) (ScriptManifest "body" "detection"))).
Definition start (v : ScriptVersionResponse) (runs : list execution) : agent bench script_event :=
  mkAgent (mkBench v runs) ∅ ∅ ∅ [] 0 [].

Definition hourly : DeploymentOptions := mkDeploymentOptions FrequencyRecurring 1 RunAsSystem 600 2 true.
Definition item : Item := mkItem ItemKindScript "s1" 1 (RawValue (MarshalDeployment hourly)).
Definition checkin : Location * list gerror * list Item := (fixed 0, [], [item]).
Definition strict : Policy := mkPolicy true [Toy.keyA].
Definition lax : Policy := mkPolicy false [].
Definition after (ops : Policy) (n : nat) (w : agent bench script_event) := checkins clock ops (repeat checkin n) w.

Example signed_script_is_remediated :
  map (fun r => (sr_Status r, sr_Phase r, sr_Remediated r, sr_Stdout r))
    (runs_of "s1" (ag_calls (after strict 1 (start signed_script [exits 1; exits 7; exits 0]))))
  = [(ResultSucceeded, PhaseDetection, true, "output" ++ newline ++ "output")]%string.
Proof. vm_compute. reflexivity. Qed.

Example unsigned_script_is_refused :
  let w := after strict 1 (start (script None) []) in
  map sr_Error (runs_of "s1" (ag_calls w)) = ["refused: this is not signed by an operations key"%string]
  /\ length (ag_calls w) = 2%nat.
Proof. vm_compute. done. Qed.

(** Two failures, and the third check-in leaves it alone. *)
Example script_is_given_up :
  length (runs_of "s1" (ag_calls (after lax 4 (start (script None) (repeat (mkExecution 1 [] [] (Some "broken"%string) false) 4))))) = 2%nat.
Proof. vm_compute. reflexivity. Qed.

(** A recurring script whose assignment says not to run new versions again
    never runs again after its version changes, however long ago it ran. *)
Definition stay : DeploymentOptions := mkDeploymentOptions FrequencyRecurring 1 RunAsSystem 600 2 false.
Example recurring_script_stops_at_a_new_version :
  sd_Run (DecideScript None 2 stay (mkItemState 1 Hour ResultSucceeded 0) (1000 * Hour)) = false
  /\ sd_Run (DecideScript None 1 stay (mkItemState 1 Hour ResultSucceeded 0) (1000 * Hour)) = true.
Proof. vm_compute. done. Qed.

Definition once_signed := start signed_script [exits 1; exits 7; exits 0].

Lemma only_signed_scripts_run_witness : added (runs_signed strict) once_signed (SyncScripts clock strict (fixed 0) [] [item] once_signed).2.
Proof. apply only_signed_scripts_run. reflexivity. Defined.

Lemma second_detection_decides_witness :
  exists r w', execute clock strict signed_script hourly once_signed = (Ok r, w') /\
    String.eqb (sr_Status r) ResultSucceeded = true /\ sr_Remediated r = true /\
    ag_calls w' = map (Ran false) ["detection"; "body"; "detection"]%string.
Proof.
  assert (Hr : script_refusal strict signed_script = None) by (vm_compute; reflexivity).
  assert (Hd : String.eqb (TrimSpace (sv_DetectionBody signed_script)) EmptyString = false) by (vm_compute; reflexivity).
  exact (second_detection_decides clock strict signed_script hourly once_signed Hr Hd).
Defined.

Lemma runs_are_remembered_and_due_witness :
  item_state (after strict 1 once_signed) "s1" = summary (runs_of "s1" (ag_calls (after strict 1 once_signed))).
Proof. apply (runs_are_remembered_and_due clock strict (repeat checkin 1) once_signed eq_refl eq_refl). Defined.

Lemma offered_item cs it : (forall c, c ∈ cs -> c = checkin) -> offered_in cs it -> it = item.
Proof. intros Hc (c & Hin & Hit). rewrite (Hc c Hin) in Hit. by apply list_elem_of_singleton in Hit. Qed.

Lemma four_checkins c : c ∈ repeat checkin 4 -> c = checkin.
Proof. intros Hc. simpl in Hc. set_solver. Qed.

Definition failing := start (script None) (repeat (mkExecution 1 [] [] (Some "broken"%string) false) 4).
Lemma failing_scripts_are_given_up_witness : 0 <= is_Failures (item_state (after lax 4 failing) "s1") <= 2.
Proof.
  apply (failing_scripts_are_given_up clock lax clock_set (repeat checkin 4) "s1" 2 failing eq_refl eq_refl).
  intros it opts ->%offered_item _ Ho; [|apply four_checkins].
  assert (E : ParseDeploymentOptions (it_Options item) = Ok hourly) by (vm_compute; reflexivity). rewrite E in Ho. injection Ho as <-. simpl. lia.
Defined.

Definition steady := start (script None) (repeat (exits 0) 2).
Lemma runs_keep_their_distance_witness :
  exists it opts, offered_in (repeat checkin 2) it /\ it_ID it = "s1"%string /\ it_Version it = 1 /\
    ParseDeploymentOptions (it_Options it) = Ok opts /\ do_Frequency opts = FrequencyRecurring /\ Interval opts <= 3 * Hour.
Proof.
  destruct (runs_of "s1" (ag_calls (after lax 2 steady))) as [|r1 [|r2 l]] eqn:E; [by vm_compute in E..|].
  assert (El : [r1; r2] ++ l = runs_of "s1" (ag_calls (after lax 2 steady))) by done. vm_compute in El. injection El as E1 E2 E3.
  destruct (runs_keep_their_distance clock lax clock_set (repeat checkin 2) "s1" [] r1 r2 l steady eq_refl eq_refl clock_rises E)
    as (it & opts & Ho & Hid & Hv & Hp & Hd).
  exists it, opts. subst r1 r2. cbn [sr_Version sr_StartedAt sr_FinishedAt] in Hd, Hv. vm_compute in Hv. rewrite Z.eqb_refl in Hd.
  destruct Hd as [Hf Hd]. split; [exact Ho|]. split; [exact Hid|]. split; [exact Hv|]. split; [exact Hp|]. split; [exact Hf|].
  etrans; [exact Hd|]. apply Z.leb_le. vm_compute. reflexivity.
Defined.
End Bench.

(** ** Apps *)

Module Shop.
Local Existing Instance Toy.toy_crypto.
Abbreviation text := Text.text.

(** What the server gives out, and what the coming runs of winget come to. *)
Record shop := mkShop { sh_versions : Z -> result string AppVersionResponse; sh_runs : list process }.
#[export] Instance host : AppHost shop := {|
  RunWinget _ _ n := match sh_runs n with x :: r => (x, mkShop (sh_versions n) r) | [] => (mkProcess [] [] false (Ok 0), n) end;
  RunCommand _ _ n := (mkProcess [] [] false (Ok 0), n);
  DownloadAppPackage _ _ _ n := (None, n);
  FileStep _ n := (None, n);
  Registry _ _ n := (Ok None, n);
  FileVersion _ n := (Ok None, n);
  Expand s n := (s, n);
  SystemRoot n := (EmptyString, n) |}.
#[export] Instance server : AppServer shop := {|
  FetchApp _ v n := (sh_versions n v, n);
  ReportAppResult _ _ n := (None, n) |}.

Definition absent : process := mkProcess [] [] false (Ok 2316632084).
Definition present : process := mkProcess ["Name Id Version" ++ newline ++ "7-Zip 7zip.7zip 24.09" ++ newline]%string [] false (Ok 0).
Definition works : process := mkProcess [] [] false (Ok 0).
Definition breaks : process := mkProcess [] [] false (Ok 1).

Definition zip (version : Z) (previous : bool) (sig : option OpSignature) : AppVersionResponse :=
  mkApp version "7zip.7zip" EmptyString ScopeMachine EmptyString EmptyString AppSourceWinget EmptyString EmptyString EmptyString 0
    EmptyString [] None previous sig.
Definition signed (version : Z) (previous : bool) : AppVersionResponse :=
  zip version previous (Some (SignOp (mkPrivateKey (pk_Raw Toy.keyA)) (AppManifest text (AppDefinition_of (zip version false None))))).
Definition item (version : Z) : Item := mkItem ItemKindApp "a1" version RawBlank.
Definition checkin (version : Z) : Location * list gerror * list Item := (fixed 0, [], [item version]).
Definition strict : AppSyncer := mkAppSyncer true None None None (mkPolicy true [Toy.keyA]).
Definition lax : AppSyncer := mkAppSyncer true None None None (mkPolicy false []).

Definition offers (v : AppVersionResponse) (runs : list process) : shop := mkShop (fun _ => Ok v) runs.
Definition start (n : shop) : agent shop app_event := mkAgent n ∅ ∅ ∅ [] 0 [].
Definition after (s : AppSyncer) (versions : list Z) (w : agent shop app_event) : agent shop app_event :=
  app_checkins Bench.clock text s (map checkin versions) w.
Definition statuses (w : agent shop app_event) : list (string * string) :=
  omap (fun e => match e with AppReported _ r => Some (ar_Status r, ar_InstalledVersion r) | _ => None end) (ag_calls w).

Example missing_app_arrives : statuses (after strict [1] (start (offers (signed 1 false) [absent; works; present]))) = [(ResultSucceeded, "24.09"%string)].
Proof. vm_compute. reflexivity. Qed.

(** Three failed installs, and then nothing. *)
Definition broken_runs : list process := [absent; breaks; breaks; breaks; absent; works; present].
Definition broken (s : AppSyncer) (v : AppVersionResponse) : agent shop app_event := after s [1; 1; 1; 1; 1] (start (offers v broken_runs)).
Example broken_app_is_given_up :
  map fst (statuses (broken lax (zip 1 false None))) = repeat ResultFailed 3 /\ ap_Failures (app_state (broken lax (zip 1 false None)) "a1") = 3.
Proof. vm_compute. done. Qed.

(** The next version is a fresh start, unless the first thing seen of it is
    that it is refused: that keeps the old failures under the new version,
    which is then never tried, signed or not. *)
Definition refused_then_signed : agent shop app_event :=
  let w := broken strict (signed 1 false) in
  let w := after strict [2] (set_net (offers (zip 2 false None) [absent; works; present]) w) in
  after strict [2; 2; 2] (set_net (offers (signed 2 false) [absent; works; present]) w).
Example refused_version_inherits_failures :
  map fst (statuses (after strict [2] (set_net (offers (signed 2 false) [absent; works; present]) (broken strict (signed 1 false)))))
    = repeat ResultFailed 3 ++ [ResultSucceeded]
  /\ map fst (statuses refused_then_signed) = repeat ResultFailed 4
  /\ ap_Failures (app_state refused_then_signed "a1") = 3 /\ sh_runs (ag_net refused_then_signed) = [absent; works; present].
Proof. vm_compute. done. Qed.

(** The signature over a winget version does not cover [uninstall_previous],
    which the syncer obeys all the same. *)
Definition removals (w : agent shop app_event) : list Z :=
  omap (fun e => match e with Removing v => Some (aw_Version v) | _ => None end) (ag_calls w).
Definition upgraded (previous : bool) : agent shop app_event :=
  after strict [1; 2] (start (mkShop (fun v => Ok (signed v (previous && (v =? 2)))) [absent; works; present; absent; works; present])).
Example uninstall_previous_is_not_signed :
  AppManifest text (AppDefinition_of (signed 2 true)) = AppManifest text (AppDefinition_of (signed 2 false))
  /\ removals (upgraded false) = [] /\ removals (upgraded true) = [1].
Proof. vm_compute. done. Qed.

(** *** Witnesses *)

Definition fresh : agent shop app_event := start (offers (signed 1 false) [absent; works; present]).

Lemma only_signed_apps_act_witness :
  added (acts_on (app_signed text strict)) fresh (SyncApps Bench.clock text strict (fixed 0) [] [item 1] fresh).2.
Proof. apply only_signed_apps_act. reflexivity. Defined.

Lemma failing_apps_are_given_up_witness :
  let w := broken lax (zip 1 false None) in ag_calls (syncApp Bench.clock text lax (item 1) w).2 = ag_calls w.
Proof.
  pose proof (failing_apps_are_given_up Bench.clock text lax (map checkin [1; 1; 1; 1; 1]) (item 1) DefaultAppOptions
    (start (offers (zip 1 false None) broken_runs)) eq_refl eq_refl) as [_ Hc].
  apply Hc; [|vm_compute; reflexivity]. split; [vm_compute; reflexivity|]. split; [vm_compute; reflexivity|]. by vm_compute.
Defined.

Lemma may_act_signed : may_act text strict (signed 1 false) = Ok wingetInstaller.
Proof. vm_compute. reflexivity. Qed.

Lemma missing_app_is_installed_witness :
  settled (item 1) DefaultAppOptions (app_state (syncApp Bench.clock text strict (item 1) fresh).2 "a1").
Proof.
  refine (proj1 (missing_app_is_installed Bench.clock text strict (item 1) DefaultAppOptions (signed 1 false) wingetInstaller fresh
    eq_refl eq_refl Bench.clock_set eq_refl _ eq_refl _ may_act_signed _ _ _ _)); try (vm_compute; reflexivity); [by vm_compute|].
  split; [vm_compute; reflexivity|]. split; [vm_compute; reflexivity|]. left. vm_compute. reflexivity.
Defined.

Definition installed : agent shop app_event :=
  set_net (offers (signed 1 false) [present]) (syncApp Bench.clock text strict (item 1) fresh).2.
Lemma settled_app_is_quiet_witness :
  settled (item 1) DefaultAppOptions (app_state (syncApp Bench.clock text strict (item 1) installed).2 "a1").
Proof.
  refine (proj1 (settled_app_is_quiet Bench.clock text strict (item 1) DefaultAppOptions (signed 1 false) wingetInstaller installed
    eq_refl _ Bench.clock_set _ _ may_act_signed _ _)); try (vm_compute; reflexivity).
  split; [split; [vm_compute; reflexivity|]; split; [vm_compute; reflexivity|by vm_compute]|]. repeat split; vm_compute; reflexivity.
Defined.

Lemma manifest_decides_what_is_done_witness :
  Install wingetInstaller "a1" Hour (signed 1 false) (offers (zip 1 false None) [works])
  = Install wingetInstaller "a1" Hour (zip 1 false None) (offers (zip 1 false None) [works]).
Proof.
  apply (manifest_decides_what_is_done text strict Text.text_inj (signed 1 false) (zip 1 false None) eq_refl eq_refl eq_refl eq_refl).
Defined.

Lemma exit_codes_agree_witness : classify 2316632084 = classify NotInstalledExit.
Proof. apply (exit_codes_agree 2316632084 NotInstalledExit). reflexivity. Defined.
End Shop.
