(* ===== verification/Throttle.v ===== *)
(** * Counting failed sign-ins

    [internal/server/auth/throttle.go], [ratelimit.go] and
    [store/loginfailures.go]: the count of failed sign-ins kept in the database
    and the one kept in memory, and the specification both meet: a key may try
    again when fewer than so many of its failures lie in the window. The
    readings of the clock that an operation makes are arguments. *)
From S2P Require Export Tx.
Open Scope Z_scope.
Open Scope go_scope.

(** ** In the database: [login_failures] *)

Definition login_failures : Type := list (string * time).

Definition CountLoginFailures (key : string) (since : time) (l : login_failures) : Z :=
  count_where (fun f => String.eqb f.1 key && (since <? f.2)) l.
Definition RecordLoginFailure (key : string) (at_ expired : time) (l : login_failures) : login_failures :=
  List.filter (fun f => negb (f.2 <=? expired)) l ++ [(key, at_)].
Definition ClearLoginFailures (key : string) (l : login_failures) : login_failures :=
  List.filter (fun f => negb (String.eqb f.1 key)) l.

Record StoreThrottle := mkStoreThrottle { st_Max : Z; st_Window : duration }.

Definition StoreAllowed (t : StoreThrottle) (key : string) (now : time) (l : login_failures) : bool :=
  CountLoginFailures key (now - st_Window t) l <? st_Max t.
Definition StoreFail (t : StoreThrottle) (key : string) (now : time) (l : login_failures) : login_failures :=
  RecordLoginFailure key now (now - st_Window t) l.
Definition StoreReset (key : string) (l : login_failures) : login_failures := ClearLoginFailures key l.

(** ** In memory *)

Definition maxLimiterKeys : Z := 100000.

Record Limiter := mkLimiter { l_max : Z; l_window : duration; l_failures : gmap string (list time) }.
Definition set_failures (m : gmap string (list time)) (l : Limiter) : Limiter := mkLimiter (l_max l) (l_window l) m.

Definition NewLimiter (max : Z) (window : duration) : Limiter := mkLimiter max window ∅.

(** [recent], at one reading of the clock. *)
Definition recent (key : string) (now : time) (l : Limiter) : list time * Limiter :=
  match l_failures l !! key with
  | None => ([], l)
  | Some entries =>
      match List.filter (fun a => now - l_window l <? a) entries with
      | [] => ([], set_failures (delete key (l_failures l)) l)
      | kept => (kept, set_failures (<[key := kept]> (l_failures l)) l)
      end
  end.

Definition size (l : Limiter) : Z := Z.of_nat (map_size (l_failures l)).

Definition LimiterAllowed (key : string) (now : time) (l : Limiter) : bool * Limiter :=
  let '(kept, l) := recent key now l in (Z.of_nat (length kept) <? l_max l, l).

(** [order] is the order in which the map is gone through, [clock] the readings. *)
Definition evict (order : gmap string (list time) -> list string) (clock : string -> time) (l : Limiter) : Limiter :=
  let l := foldl (fun l key => (recent key (clock key) l).2) l (order (l_failures l)) in
  if size l <? maxLimiterKeys then l
  else match order (l_failures l) with
       | [] => l
       | key :: _ => set_failures (delete key (l_failures l)) l
       end.

Definition LimiterFail (order : gmap string (list time) -> list string) (key : string) (looked : time) (clock : string -> time) (now : time)
    (l : Limiter) : Limiter :=
  let '(kept, l) := recent key looked l in
  let l := match kept with [] => if maxLimiterKeys <=? size l then evict order clock l else l | _ => l end in
  set_failures (<[key := kept ++ [now]]> (l_failures l)) l.

Definition LimiterReset (key : string) (l : Limiter) : Limiter := set_failures (delete key (l_failures l)) l.

(** ** What both do *)

(** An operation with the readings of the clock it makes, in order: the one
    for what is recent, those of an eviction, and the one that is recorded. *)
Inductive throttle_op :=
| Ask (key : string) (now : time)
| Failing (key : string) (looked : time) (evicting : string -> time) (now : time)
| Resetting (key : string).

Definition store_step (t : StoreThrottle) (o : throttle_op) (l : login_failures) : option bool * login_failures :=
  match o with
  | Ask key now => (Some (StoreAllowed t key now l), l)
  | Failing key _ _ now => (None, StoreFail t key now l)
  | Resetting key => (None, StoreReset key l)
  end.

Definition memory_step (order : gmap string (list time) -> list string) (o : throttle_op) (l : Limiter) : option bool * Limiter :=
  match o with
  | Ask key now => let '(b, l) := LimiterAllowed key now l in (Some b, l)
  | Failing key looked clock now => (None, LimiterFail order key looked clock now l)
  | Resetting key => (None, LimiterReset key l)
  end.

(** The specification: every failure is kept, but for those of a key that was
    reset. *)
Definition spec_step (max : Z) (window : duration) (o : throttle_op) (log : login_failures) : option bool * login_failures :=
  match o with
  | Ask key now => (Some (count_where (fun f => String.eqb f.1 key && (now - window <? f.2)) log <? max), log)
  | Failing key _ _ now => (None, log ++ [(key, now)])
  | Resetting key => (None, ClearLoginFailures key log)
  end.

Fixpoint answers {S} (step : throttle_op -> S -> option bool * S) (ops : list throttle_op) (s : S) : list (option bool) :=
  match ops with
  | [] => []
  | o :: ops => let '(a, s) := step o s in a :: answers step ops s
  end.

(** The clock does not go back: [t] bounds the readings before. *)
Fixpoint ordered (t : time) (ops : list throttle_op) : Prop :=
  match ops with
  | [] => True
  | Ask _ now :: ops => t <= now /\ ordered now ops
  | Failing _ looked clock now :: ops => t <= looked /\ (forall k, looked <= clock k <= now) /\ ordered now ops
  | Resetting _ :: ops => ordered t ops
  end.

(** How many failures each key has in the window, the same now and later. *)
Definition counted (key : string) (since : time) (log : login_failures) : Z :=
  count_where (fun f => String.eqb f.1 key && (since <? f.2)) log.

Definition agree_from (t : time) (window : duration) (a b : login_failures) : Prop :=
  forall key u, t <= u -> counted key (u - window) a = counted key (u - window) b.

(** A map as a list of failures. *)
Definition logged_map (m : gmap string (list time)) (key : string) (since : time) : Z :=
  Z.of_nat (length (List.filter (fun a => since <? a) (default [] (m !! key)))).

Lemma count_filter {A} (p q : A -> bool) l : count_where p (List.filter q l) = count_where (fun x => q x && p x) l.
Proof.
  unfold count_where. f_equal. induction l as [|x l IH]; simpl; [done|]. destruct (q x); simpl; [destruct (p x); simpl; lia|done].
Qed.
Lemma count_app {A} (p : A -> bool) l k : count_where p (l ++ k) = count_where p l + count_where p k.
Proof. unfold count_where. rewrite List.filter_app, length_app. lia. Qed.
Lemma count_ext {A} (p q : A -> bool) l : (forall x, p x = q x) -> count_where p l = count_where q l.
Proof. intros Hpq. unfold count_where. f_equal. f_equal. by apply List.filter_ext. Qed.

Lemma count_none {A} (p : A -> bool) l : (forall x, p x = false) -> count_where p l = 0.
Proof. intros Hp. unfold count_where. induction l as [|x l IH]; simpl; [done|]. by rewrite Hp. Qed.

(** *** The table *)

Lemma store_refines_step t o l log u :
  agree_from u (st_Window t) l log -> ordered u [o] ->
  (store_step t o l).1 = (spec_step (st_Max t) (st_Window t) o log).1 /\
  agree_from (match o with Ask _ now | Failing _ _ _ now => now | Resetting _ => u end) (st_Window t) (store_step t o l).2
    (spec_step (st_Max t) (st_Window t) o log).2.
Proof.
  intros Hag Ho. destruct o as [key now|key looked clock now|key]; simpl in *.
  - destruct Ho as [Hu _]. split; [|intros k v Hv; apply Hag; lia]. unfold StoreAllowed, CountLoginFailures.
    specialize (Hag key now Hu). unfold counted in Hag. by rewrite Hag.
  - destruct Ho as (Hu & Hc & _). specialize (Hc EmptyString). split; [done|]. intros k v Hv. unfold StoreFail, RecordLoginFailure, counted.
    rewrite !count_app, count_filter. f_equal. rewrite (count_ext _ (fun f => String.eqb f.1 k && (v - st_Window t <? f.2))); [apply Hag; lia|].
    intros f. destruct (Z.leb_spec f.2 (now - st_Window t)), (Z.ltb_spec (v - st_Window t) f.2); simpl; try lia; try done; by rewrite andb_false_r.
  - split; [done|]. intros k v Hv. unfold StoreReset, ClearLoginFailures, counted. rewrite !count_filter.
    destruct (String.eqb_spec k key) as [->|Hk].
    + rewrite (count_none _ l), (count_none _ log); [done| |]; intros f; destruct (String.eqb f.1 key); done.
    + rewrite (count_ext _ (fun f => String.eqb f.1 k && (v - st_Window t <? f.2))), (count_ext _ (fun f => String.eqb f.1 k && (v - st_Window t <? f.2)) log);
        [by apply Hag| |]; intros f; destruct (String.eqb_spec f.1 key), (String.eqb_spec f.1 k); try congruence; done.
Qed.

Lemma store_refines t ops : forall l log u,
  agree_from u (st_Window t) l log -> ordered u ops ->
  answers (store_step t) ops l = answers (spec_step (st_Max t) (st_Window t)) ops log.
Proof.
  induction ops as [|o ops IH]; intros l log u Hag Ho; simpl; [done|].
  destruct (store_refines_step t o l log u Hag) as [He Hag'].
  { destruct o; simpl in *; intuition. }
  destruct (store_step t o l) as [a l'], (spec_step _ _ o log) as [b log']. simpl in *. subst b. f_equal.
  eapply IH; [exact Hag'|]. destruct o; simpl in *; intuition.
Qed.

(** *** The map *)

(** The map holds every failure that counts from [t] on, and none that was not
    recorded. *)
Definition holds (t : time) (window : duration) (m : gmap string (list time)) (log : login_failures) : Prop :=
  (forall key u, t <= u -> logged_map m key (u - window) = counted key (u - window) log) /\
  (forall key entries a, m !! key = Some entries -> a ∈ entries -> (key, a) ∈ log).

Lemma filter_filter_le (c u : time) l :
  c <= u -> List.filter (fun a => u <? a) (List.filter (fun a => c <? a) l) = List.filter (fun a => u <? a) l.
Proof.
  intros Hcu. induction l as [|a l IH]; simpl; [done|].
  destruct (Z.ltb_spec c a); simpl; [by rewrite IH|]. destruct (Z.ltb_spec u a); [lia|done].
Qed.

Lemma recent_window key c l : l_window (recent key c l).2 = l_window l /\ l_max (recent key c l).2 = l_max l.
Proof. unfold recent. destruct (l_failures l !! key) as [es|]; [|done]. by destruct (List.filter _ es). Qed.

Lemma recent_other key c l k : k <> key -> l_failures (recent key c l).2 !! k = l_failures l !! k.
Proof.
  intros Hk. unfold recent. destruct (l_failures l !! key) as [es|] eqn:E; [|done].
  destruct (List.filter _ es); simpl; [by rewrite lookup_delete_ne | by rewrite lookup_insert_ne].
Qed.

Lemma recent_kept key c l :
  (recent key c l).1 = List.filter (fun a => c - l_window l <? a) (default [] (l_failures l !! key)).
Proof. unfold recent. destruct (l_failures l !! key) as [es|]; [|done]. by destruct (List.filter _ es) eqn:E; simpl; rewrite ?E. Qed.

Lemma recent_at key c l :
  default [] (l_failures (recent key c l).2 !! key) = (recent key c l).1 /\
  (l_failures (recent key c l).2 !! key = None \/ (recent key c l).1 <> []).
Proof.
  unfold recent. destruct (l_failures l !! key) as [es|] eqn:E; [|simpl; rewrite E; auto].
  destruct (List.filter _ es); simpl; [rewrite lookup_delete_eq; auto|rewrite lookup_insert_eq; auto].
Qed.

Lemma recent_sub key c l k es a :
  l_failures (recent key c l).2 !! k = Some es -> a ∈ es -> exists es0, l_failures l !! k = Some es0 /\ a ∈ es0.
Proof.
  destruct (String.eqb_spec k key) as [->|Hk]; [|rewrite recent_other by done; eauto].
  destruct (recent_at key c l) as [Hd _]. intros Hl Ha. rewrite Hl in Hd. simpl in Hd. subst es.
  rewrite recent_kept in Ha. apply elem_of_filterb in Ha as [Ha _].
  destruct (l_failures l !! key) as [es0|]; [by eauto | by apply elem_of_nil in Ha].
Qed.

Lemma recent_holds key c l t log :
  c <= t -> holds t (l_window l) (l_failures l) log -> holds t (l_window l) (l_failures (recent key c l).2) log.
Proof.
  intros Hc [Hn Hs]. split.
  - intros k u Hu. rewrite <- (Hn k u Hu). unfold logged_map. destruct (String.eqb_spec k key) as [->|Hk]; [|by rewrite recent_other].
    destruct (recent_at key c l) as [-> _]. rewrite recent_kept, filter_filter_le; [done|lia].
  - intros k es a Hl Ha. destruct (recent_sub _ _ _ _ _ _ Hl Ha) as (es0 & ? & ?). eauto.
Qed.

Lemma holds_later t t' w m log : t <= t' -> holds t w m log -> holds t' w m log.
Proof. intros Ht [Hn Hs]. split; [intros k u Hu; apply Hn; lia|done]. Qed.

(** *** Making room *)

Definition sweep (keys : list string) (clock : string -> time) (l : Limiter) : Limiter :=
  foldl (fun l key => (recent key (clock key) l).2) l keys.

Lemma sweep_holds keys clock t log : forall l,
  (forall k, clock k <= t) -> holds t (l_window l) (l_failures l) log ->
  l_window (sweep keys clock l) = l_window l /\ l_max (sweep keys clock l) = l_max l /\
  holds t (l_window l) (l_failures (sweep keys clock l)) log.
Proof.
  unfold sweep. induction keys as [|k keys IH]; intros l Hc Hh; simpl; [done|].
  destruct (recent_window k (clock k) l) as [Hw Hm].
  destruct (IH (recent k (clock k) l).2) as (-> & -> & H); [done|rewrite Hw; by apply recent_holds|].
  by rewrite Hw, Hm in *.
Qed.

Definition alive (clock : string -> time) (l : Limiter) (k : string) : Prop :=
  forall es, l_failures l !! k = Some es -> exists a, a ∈ es /\ clock k - l_window l < a.

Lemma recent_alive clock key l k : k = key \/ alive clock l k -> alive clock (recent key (clock key) l).2 k.
Proof.
  intros Hk es Hl. rewrite (proj1 (recent_window _ _ _)).
  destruct (String.eqb_spec k key) as [->|Hne].
  - destruct (recent_at key (clock key) l) as [Hd [Hn|Hn]]; [congruence|]. rewrite Hl in Hd. simpl in Hd. subst es.
    destruct (recent key (clock key) l).1 as [|a r] eqn:E; [done|]. exists a. split; [set_solver|].
    assert (a ∈ (recent key (clock key) l).1) as Ha by (rewrite E; set_solver).
    rewrite recent_kept in Ha. apply elem_of_filterb in Ha as [_ Ha]. lia.
  - rewrite recent_other in Hl by done. destruct Hk as [->|Ha]; [done|]. by apply Ha.
Qed.

Lemma sweep_alive keys clock : forall l k, (k ∈ keys) \/ alive clock l k -> alive clock (sweep keys clock l) k.
Proof.
  unfold sweep. induction keys as [|key keys IH]; intros l k Hk; simpl; [set_solver|].
  apply IH. destruct (decide (k ∈ keys)) as [|Hn]; [by left|]. right. apply recent_alive. set_solver.
Qed.

(** The keys with a failure since [since]. *)
Definition live_keys (since : time) (log : login_failures) : gset string :=
  list_to_set (map fst (List.filter (fun f => since <? f.2) log)).

(** What [order] may be: an order of the map's keys. *)
Definition lists_keys (order : gmap string (list time) -> list string) : Prop :=
  forall m k, is_Some (m !! k) -> k ∈ order m.

Lemma evict_holds order clock looked now l log :
  lists_keys order -> (forall k, looked <= clock k <= now) ->
  Z.of_nat (stdpp.base.size (live_keys (looked - l_window l) log)) < maxLimiterKeys ->
  holds now (l_window l) (l_failures l) log ->
  l_window (evict order clock l) = l_window l /\ l_max (evict order clock l) = l_max l /\
  holds now (l_window l) (l_failures (evict order clock l)) log.
Proof.
  intros Hord Hc Hlive Hh. unfold evict. fold (sweep (order (l_failures l)) clock l).
  destruct (sweep_holds (order (l_failures l)) clock now log l) as (Hw & Hm & Hh'); [intros k; apply Hc|done|].
  assert (size (sweep (order (l_failures l)) clock l) < maxLimiterKeys) as Hsz; [|by apply Z.ltb_lt in Hsz as ->].
  eapply Z.le_lt_trans; [|exact Hlive]. unfold size. apply Nat2Z.inj_le.
  change (map_size (l_failures (sweep (order (l_failures l)) clock l))) with (stdpp.base.size (l_failures (sweep (order (l_failures l)) clock l))).
  rewrite <- (size_dom (D := gset string)). apply subseteq_size. intros k [es Hes]%elem_of_dom.
  destruct (sweep_alive (order (l_failures l)) clock l k) with (es := es) as (a & Ha & Hlt); [|done|].
  { destruct (l_failures l !! k) as [es0|] eqn:E; [left; apply Hord; eauto|]. right. intros es0. congruence. }
  unfold live_keys. apply elem_of_list_to_set, list_elem_of_fmap. exists (k, a). split; [done|].
  apply elem_of_filterb. split; [by eapply (proj2 Hh')|]. simpl. rewrite Hw in Hlt. specialize (Hc k). lia.
Qed.

(** *** The memory throttle, step by step *)

Fixpoint uncrowded (window : duration) (ops : list throttle_op) (log : login_failures) : Prop :=
  match ops with
  | [] => True
  | o :: ops =>
      match o with
      | Failing _ looked _ _ => Z.of_nat (stdpp.base.size (live_keys (looked - window) log)) < maxLimiterKeys
      | _ => True
      end /\ uncrowded window ops (spec_step 0 window o log).2
  end.

Lemma spec_log max max' window o log : (spec_step max window o log).2 = (spec_step max' window o log).2.
Proof. by destruct o. Qed.

Lemma fail_holds order key looked clock now l log :
  lists_keys order -> (forall k, looked <= clock k <= now) ->
  Z.of_nat (stdpp.base.size (live_keys (looked - l_window l) log)) < maxLimiterKeys ->
  holds looked (l_window l) (l_failures l) log ->
  let l' := LimiterFail order key looked clock now l in
  l_window l' = l_window l /\ l_max l' = l_max l /\ holds now (l_window l) (l_failures l') (log ++ [(key, now)]).
Proof.
  intros Hord Hc Hlive Hh. assert (looked <= now) as Hln by (specialize (Hc key); lia). unfold LimiterFail.
  pose proof (recent_kept key looked l) as Hk. destruct (recent_window key looked l) as [Hw Hm].
  pose proof (holds_later _ now _ _ _ Hln (recent_holds key looked l looked log (Z.le_refl _) Hh)) as Hr.
  destruct (recent_at key looked l) as [Hd _].
  destruct (recent key looked l) as [kept l1]. simpl in *.
  set (l2 := match kept with [] => _ | _ => _ end).
  assert (l_window l2 = l_window l /\ l_max l2 = l_max l /\ holds now (l_window l) (l_failures l2) log) as (Hw2 & Hm2 & Hn & Hs).
  { subst l2. destruct kept; [|done]. destruct (_ <=? _); [|done].
    destruct (evict_holds order clock looked now l1 log) as (-> & -> & Hh'); rewrite ?Hw, ?Hm in *; done. }
  split_and!; [done|done|]. split.
  - intros k u Hu. unfold counted. rewrite count_app. fold (counted k (u - l_window l) log). rewrite <- (proj1 Hr) by lia.
    unfold logged_map, count_where. simpl. destruct (String.eqb_spec key k) as [->|Hne].
    + rewrite lookup_insert_eq, Hd. simpl. rewrite List.filter_app, length_app. simpl. destruct (_ <? now); simpl; lia.
    + rewrite lookup_insert_ne by done. simpl. pose proof (Hn k u Hu) as E. rewrite <- (proj1 Hr) in E by lia. unfold logged_map in E. lia.
  - intros k es a Hl Ha. simpl in Hl. destruct (String.eqb_spec key k) as [->|Hne].
    + rewrite lookup_insert_eq in Hl. injection Hl as <-. apply elem_of_app in Ha as [Ha|Ha]; [|set_solver].
      clear Hk. destruct (l_failures l1 !! k) as [es0|] eqn:E1; simpl in Hd; subst kept; [|by apply elem_of_nil in Ha].
      apply elem_of_app. left. by eapply (proj2 Hr).
    + rewrite lookup_insert_ne in Hl by done. apply elem_of_app. left. by eapply Hs.
Qed.

Lemma reset_holds key t l log :
  holds t (l_window l) (l_failures l) log -> holds t (l_window l) (l_failures (LimiterReset key l)) (ClearLoginFailures key log).
Proof.
  intros [Hn Hs]. split.
  - intros k u Hu. unfold counted, logged_map, ClearLoginFailures. rewrite count_filter. simpl. destruct (String.eqb_spec k key) as [->|Hk].
    + rewrite lookup_delete_eq, count_none; [done|]. intros f. by destruct (String.eqb f.1 key).
    + rewrite lookup_delete_ne by done. fold (logged_map (l_failures l) k (u - l_window l)). rewrite Hn by done. apply count_ext.
      intros f. destruct (String.eqb_spec f.1 key), (String.eqb_spec f.1 k); try congruence; done.
  - intros k es a Hl Ha. simpl in Hl. apply lookup_delete_Some in Hl as [Hk Hl]. apply elem_of_filterb. split; [by eapply Hs|].
    simpl. by destruct (String.eqb_spec k key).
Qed.

Lemma memory_refines order ops : forall l log u,
  lists_keys order -> holds u (l_window l) (l_failures l) log -> ordered u ops -> uncrowded (l_window l) ops log ->
  answers (memory_step order) ops l = answers (spec_step (l_max l) (l_window l)) ops log.
Proof.
  induction ops as [|o ops IH]; intros l log u Hord Hh Ho Hun; [done|]. destruct Hun as [Hun1 Hun2]. cbn [answers]. destruct o as [key now|key looked clock now|key].
  - destruct Ho as [Hu Ho]. cbn [memory_step spec_step]. unfold LimiterAllowed.
    pose proof (recent_kept key now l) as Hk. destruct (recent_window key now l) as [Hw Hm].
    pose proof (recent_holds key now l now log (Z.le_refl _) (holds_later _ _ _ _ _ Hu Hh)) as Hr.
    destruct (recent key now l) as [kept l1]. cbn [fst snd] in *.
    assert (Z.of_nat (length kept) = count_where (fun f => String.eqb f.1 key && (now - l_window l <? f.2)) log) as ->
      by (subst kept; apply (proj1 Hh key now Hu)).
    rewrite Hm. f_equal. rewrite <- Hw, <- Hm. rewrite <- Hw in Hr. eapply (IH _ _ now); [done|exact Hr|done|by rewrite Hw].
  - destruct Ho as (Hu & Hc & Ho). cbn [memory_step spec_step].
    destruct (fail_holds order key looked clock now l log Hord Hc Hun1 (holds_later _ _ _ _ _ Hu Hh)) as (Hw & Hm & Hr).
    f_equal. rewrite <- Hw, <- Hm. rewrite <- Hw in Hr. eapply (IH _ _ now); [done|exact Hr|done|by rewrite Hw].
  - cbn [memory_step spec_step]. f_equal.
    change (l_max l) with (l_max (LimiterReset key l)). change (l_window l) with (l_window (LimiterReset key l)).
    eapply (IH _ _ u); [done|by apply (reset_holds key u l log)|done|done].
Qed.

(** ** Both keep their promise *)

(** C21. In the database or in memory, over any sequence of questions, failures and
    resets with a clock that does not go back, a throttle answers as the
    specification does: a key may try while fewer than [max] of its failures
    since its last reset are younger than the window. The one in memory needs
    fewer than [maxLimiterKeys] keys to have failures in the window at once. *)
Theorem throttles_meet_their_specification order max window start ops :
  lists_keys order -> ordered start ops -> uncrowded window ops [] ->
  answers (store_step (mkStoreThrottle max window)) ops [] = answers (spec_step max window) ops [] /\
  answers (memory_step order) ops (NewLimiter max window) = answers (spec_step max window) ops [].
Proof.
  intros Hord Ho Hun. split.
  - by apply (store_refines (mkStoreThrottle max window) ops [] [] start).
  - apply (memory_refines order ops (NewLimiter max window) [] start); [done| |done|done].
    split; [done|]. intros k es a Hl. simpl in Hl. by rewrite lookup_empty in Hl.
Qed.

(** Ten guesses, a refusal, and the window's end. *)
Definition guesses : list throttle_op :=
  [Ask "ann@x.org" 10; Failing "ann@x.org" 11 (fun _ => 12) 13; Ask "ann@x.org" 14; Failing "ann@x.org" 15 (fun _ => 16) 17;
   Ask "ann@x.org" 18; Ask "bob@x.org" 19; Ask "ann@x.org" 113; Resetting "ann@x.org"; Ask "ann@x.org" 114].

Theorem throttles_meet_their_specification_witness :
  answers (spec_step 2 100) guesses [] = [Some true; None; Some true; None; Some false; Some true; Some true; None; Some true] /\
  answers (memory_step (fun m => (map_to_list m).*1)) guesses (NewLimiter 2 100) = answers (spec_step 2 100) guesses [].
Proof.
  split; [reflexivity|].
  apply (throttles_meet_their_specification (fun m => (map_to_list m).*1) 2 100 0 guesses).
  - intros m k [es Hes]. apply list_elem_of_fmap. exists (k, es). split; [done|]. by apply elem_of_map_to_list.
  - simpl. repeat split; intros; lia.
  - assert (forall (s : Z) (log : login_failures), (length (map fst (List.filter (fun f => (s <? f.2)%Z) log)) <= length log)%nat) as Hlen.
    { intros s log. rewrite length_map. induction log as [|f log IH]; simpl; [done|]. destruct (s <? f.2); simpl; lia. }
    cbn -[stdpp.base.size live_keys maxLimiterKeys]. repeat split;
      (eapply Z.le_lt_trans; [apply Nat2Z.inj_le, size_list_to_set_length|]; eapply Z.le_lt_trans; [apply Nat2Z.inj_le, Hlen|]; done).
Defined.
