(* ===== verification/Secrets.v ===== *)
(** * The server's key

    [internal/server/secrets/secrets.go]: the key that seals what is stored and
    must be readable again. AES-GCM, SHA-256 and HMAC are operations of
    [crypto]; hexadecimal is spelled out. *)
From S2P Require Export GoString.

Open Scope Z_scope.
Open Scope go_scope.

(** ** Base64 without padding

    What the program uses of [encoding/base64]: [RawStdEncoding] and
    [RawURLEncoding], which differ in two digits. A decoder skips line ends,
    does not mind the bits left over in the last digit, and refuses any other
    character. *)

Inductive alphabet := Std | URL.

Definition chr (z : Z) : ascii := ascii_of_nat (Z.to_nat z).

Definition last_digits (a : alphabet) : ascii * ascii := match a with Std => ("+", "/")%char | URL => ("-", "_")%char end.

Definition digit64 (a : alphabet) (v : Z) : ascii :=
  if v <? 26 then chr (65 + v)
  else if v <? 52 then chr (97 + (v - 26))
  else if v <? 62 then chr (48 + (v - 52))
  else if v =? 62 then (last_digits a).1 else (last_digits a).2.

Definition value64 (a : alphabet) (c : ascii) : option Z :=
  if is_upper c then Some (code c - 65)
  else if is_lower c then Some (code c - 97 + 26)
  else if is_digit c then Some (code c - 48 + 52)
  else if Ascii.eqb c (last_digits a).1 then Some 62
  else if Ascii.eqb c (last_digits a).2 then Some 63
  else None.

Fixpoint EncodeToString (a : alphabet) (s : string) : string :=
  match s with
  | EmptyString => EmptyString
  | String x EmptyString =>
      let v := code x * 16 in
      String (digit64 a (v / 64)) (String (digit64 a (v mod 64)) EmptyString)
  | String x (String y EmptyString) =>
      let v := (code x * 256 + code y) * 4 in
      String (digit64 a (v / 4096)) (String (digit64 a (v / 64 mod 64)) (String (digit64 a (v mod 64)) EmptyString))
  | String x (String y (String z r)) =>
      let v := code x * 65536 + code y * 256 + code z in
      String (digit64 a (v / 262144)) (String (digit64 a (v / 4096 mod 64))
        (String (digit64 a (v / 64 mod 64)) (String (digit64 a (v mod 64)) (EncodeToString a r))))
  end.

Definition line_end (c : ascii) : bool := (code c =? 10) || (code c =? 13).

Fixpoint digits64 (a : alphabet) (s : string) : option (list Z) :=
  match s with
  | EmptyString => Some []
  | String c r =>
      if line_end c then digits64 a r
      else match value64 a c, digits64 a r with Some v, Some l => Some (v :: l) | _, _ => None end
  end.

Fixpoint quanta (l : list Z) : option string :=
  match l with
  | [] => Some EmptyString
  | [_] => None
  | [p; q] => Some (String (chr ((p * 64 + q) / 16)) EmptyString)
  | [p; q; r] => let v := (p * 4096 + q * 64 + r) / 4 in Some (String (chr (v / 256)) (String (chr (v mod 256)) EmptyString))
  | p :: q :: r :: t :: l =>
      let v := p * 262144 + q * 4096 + r * 64 + t in
      match quanta l with
      | Some s => Some (String (chr (v / 65536)) (String (chr (v / 256 mod 256)) (String (chr (v mod 256)) s)))
      | None => None
      end
  end.

Definition DecodeString (a : alphabet) (s : string) : option string :=
  match digits64 a s with Some l => quanta l | None => None end.

(** ** Lemmas *)

Lemma code_range c : 0 <= code c < 256.
Proof. unfold code. pose proof (nat_ascii_bounded c). lia. Qed.

Lemma chr_code c : chr (code c) = c.
Proof. unfold chr, code. by rewrite Nat2Z.id, ascii_nat_embedding. Qed.

Definition is_digit64 (a : alphabet) (c : ascii) : bool := match value64 a c with Some _ => true | None => false end.

Lemma forall_below n (P : Z -> bool) :
  forallb (fun i => P (Z.of_nat i)) (seq 0 n) = true -> forall v, 0 <= v < Z.of_nat n -> P v = true.
Proof.
  intros H v Hv. rewrite forallb_forall in H. specialize (H (Z.to_nat v)). rewrite Z2Nat.id in H by lia.
  apply H, in_seq. lia.
Qed.

Lemma value64_digit a v : 0 <= v < 64 -> value64 a (digit64 a v) = Some v /\ line_end (digit64 a v) = false.
Proof.
  intros Hv.
  assert (bool_decide (value64 a (digit64 a v) = Some v) && negb (line_end (digit64 a v)) = true) as H.
  { revert v Hv. apply (forall_below 64 (fun v => bool_decide (value64 a (digit64 a v) = Some v) && negb (line_end (digit64 a v)))). by destruct a; vm_compute. }
  apply andb_true_iff in H as [H1%bool_decide_eq_true_1 H2]. split; [done|]. by destruct (line_end _).
Qed.

Lemma digits64_digit a v s :
  0 <= v < 64 -> digits64 a (String (digit64 a v) s) = match digits64 a s with Some l => Some (v :: l) | None => None end.
Proof. intros Hv. simpl. destruct (value64_digit a v Hv) as [-> ->]. done. Qed.

(** Three bytes at a time. *)
Lemma string_ind3 (P : string -> Prop) :
  P EmptyString -> (forall x, P (String x EmptyString)) -> (forall x y, P (String x (String y EmptyString))) ->
  (forall x y z r, P r -> P (String x (String y (String z r)))) -> forall s, P s.
Proof.
  intros H0 H1 H2 H3. assert (forall n s, (String.length s <= n)%nat -> P s) as H; [|intros s; by apply (H (String.length s))].
  induction n as [|n IH]; intros s Hs; destruct s as [|x [|y [|z r]]]; simpl in Hs; auto; try lia. apply H3, IH. lia.
Qed.

Lemma Z_split v n m : 0 < n -> 0 < m -> 0 <= v < n * m -> 0 <= v / n < m /\ 0 <= v mod n < n /\ v = n * (v / n) + v mod n.
Proof.
  intros Hn Hm Hv. pose proof (Z.mod_pos_bound v n Hn). pose proof (Z.div_mod v n ltac:(lia)).
  split; [|split; [done|done]]. split; [apply Z.div_pos; lia|]. apply Z.div_lt_upper_bound; lia.
Qed.

(** What was encoded decodes. *)
Lemma decode_encode a s : DecodeString a (EncodeToString a s) = Some s.
Proof.
  unfold DecodeString.
  assert (exists l, digits64 a (EncodeToString a s) = Some l /\ quanta l = Some s) as (l & -> & Hl); [|done].
  induction s as [|x|x y|x y z r (l & Hl & Hq)] using string_ind3; cbn [EncodeToString].
  - by exists [].
  - pose proof (code_range x). set (v := code x * 16). assert (0 <= v < 4096) by lia.
    destruct (Z_split v 64 64) as (Hd & Hm & E); [lia..|]. rewrite !digits64_digit by done. simpl. eexists. split; [done|]. simpl.
    replace ((v / 64 * 64 + v mod 64) / 16) with (code x); [by rewrite chr_code|].
    replace (v / 64 * 64 + v mod 64) with v by lia. unfold v. by rewrite Z.div_mul.
  - pose proof (code_range x). pose proof (code_range y). set (w := code x * 256 + code y). set (v := w * 4). assert (0 <= v < 262144) by lia.
    assert (v / 4096 = v / 64 / 64) as -> by (rewrite Z.div_div by lia; done).
    destruct (Z_split v 64 4096) as (Hd & Hm & E); [lia..|]. destruct (Z_split (v / 64) 64 64) as (Hd2 & Hm2 & E2); [lia..|].
    rewrite !digits64_digit by done. simpl. eexists. split; [done|]. simpl.
    replace (v / 64 / 64 * 4096 + (v / 64) mod 64 * 64 + v mod 64) with v by lia.
    replace (v / 4) with w by (unfold v; by rewrite Z.div_mul). unfold w.
    rewrite Z.add_comm, Z.div_add, Z.mod_add, Z.div_small, Z.mod_small by lia. by rewrite Z.add_0_l, !chr_code.
  - pose proof (code_range x). pose proof (code_range y). pose proof (code_range z).
    set (v := code x * 65536 + code y * 256 + code z). assert (0 <= v < 16777216) by lia.
    assert (v / 262144 = v / 64 / 64 / 64) as -> by (rewrite !Z.div_div by lia; done).
    assert (v / 4096 = v / 64 / 64) as -> by (rewrite !Z.div_div by lia; done).
    destruct (Z_split v 64 262144) as (Hd & Hm & E); [lia..|]. destruct (Z_split (v / 64) 64 4096) as (Hd2 & Hm2 & E2); [lia..|].
    destruct (Z_split (v / 64 / 64) 64 64) as (Hd3 & Hm3 & E3); [lia..|].
    rewrite !digits64_digit by done. rewrite Hl. eexists. split; [done|]. simpl. rewrite Hq.
    replace (v / 64 / 64 / 64 * 262144 + (v / 64 / 64) mod 64 * 4096 + (v / 64) mod 64 * 64 + v mod 64) with v by lia.
    assert (v / 256 = code x * 256 + code y) as Ey.
    { unfold v. replace (code x * 65536 + code y * 256 + code z) with (code z + (code x * 256 + code y) * 256) by lia.
      rewrite Z.div_add, Z.div_small by lia. lia. }
    assert (v / 65536 = code x) as ->.
    { change 65536 with (256 * 256). rewrite <- Z.div_div by lia. rewrite Ey, Z.add_comm, Z.div_add, Z.div_small by lia. lia. }
    assert (v mod 256 = code z) as -> by (rewrite Z.mod_eq by lia; rewrite Ey; unfold v; lia).
    assert ((v / 256) mod 256 = code y) as -> by (rewrite Ey, Z.add_comm, Z.mod_add, Z.mod_small by lia; done).
    by rewrite !chr_code.
Qed.

(** Encoded text holds nothing but digits. *)
Lemma encode_digits a s : sall (is_digit64 a) (EncodeToString a s) = true.
Proof.
  assert (forall v, 0 <= v < 64 -> is_digit64 a (digit64 a v) = true) as Hd.
  { intros v Hv. unfold is_digit64. by rewrite (proj1 (value64_digit a v Hv)). }
  assert (forall v n, 0 < n -> 0 <= v < n * 64 -> 0 <= v / n < 64) as Hdiv.
  { intros v n Hn Hv. split; [apply Z.div_pos; lia|apply Z.div_lt_upper_bound; lia]. }
  assert (forall v, 0 <= v mod 64 < 64) as Hmod by (intros v; apply Z.mod_pos_bound; lia).
  induction s as [|x|x y|x y z r IH] using string_ind3; cbn [EncodeToString sall]; rewrite ?IH, ?Hd; try done;
    apply Hdiv; try lia; pose proof (code_range x); try pose proof (code_range y); try pose proof (code_range z); lia.
Qed.

Lemma encode_without a c s : is_digit64 a c = false -> sany (fun d => Ascii.eqb d c) (EncodeToString a s) = false.
Proof.
  intros Hc. apply sany_sall. eapply sall_impl; [|apply encode_digits]. intros d Hd. simpl in *.
  destruct (Ascii.eqb_spec d c) as [->|]; [congruence|done].
Qed.

(** [cipher.AEAD]: how long a nonce is, and the two directions. *)
Record AEAD := mkAEAD {
  NonceSize : Z;
  aead_Seal : string -> string -> string -> string;          (* nonce, plaintext, context *)
  aead_Open : string -> string -> string -> option string }. (* nonce, ciphertext, context *)

(** What the package documents. *)
Definition aead_opens (a : AEAD) : Prop :=
  forall nonce plain ctx, slen nonce = NonceSize a -> aead_Open a nonce (aead_Seal a nonce plain ctx) ctx = Some plain.

Record Key := mkKey { k_aead : AEAD; k_mac : string }.

(** [rand] is what [rand.Read] filled in; a failing read gives fewer bytes. *)
Definition Seal (k : Key) (rand plain ctx : string) : option (string * string) :=
  if slen rand =? NonceSize (k_aead k) then Some (aead_Seal (k_aead k) rand plain ctx, rand) else None.

Definition Open_ (k : Key) (ct nonce ctx : string) : option string :=
  if negb (slen nonce =? NonceSize (k_aead k)) then None else aead_Open (k_aead k) nonce ct ctx.

(** What was sealed opens, under the context it was sealed for. *)
Definition key_opens (k : Key) : Prop :=
  forall rand plain ctx ct nonce, Seal k rand plain ctx = Some (ct, nonce) -> Open_ k ct nonce ctx = Some plain.

Lemma aead_key_opens k : aead_opens (k_aead k) -> key_opens k.
Proof.
  intros Hk rand plain ctx ct nonce. unfold Seal, Open_. destruct (Z.eqb_spec (slen rand) (NonceSize (k_aead k))); [|done].
  intros [= <- <-]. rewrite (proj2 (Z.eqb_eq _ _)) by done. by apply Hk.
Qed.

(** ** Reading a key *)

Definition hex_value (c : ascii) : option Z :=
  if is_digit c then Some (code c - 48)
  else if in_range "a" "f" c then Some (code c - 87)
  else if in_range "A" "F" c then Some (code c - 55)
  else None.

Fixpoint hex_decode (s : string) : option string :=
  match s with
  | EmptyString => Some EmptyString
  | String _ EmptyString => None
  | String a (String b r) =>
      match hex_value a, hex_value b, hex_decode r with
      | Some x, Some y, Some t => Some (String (ascii_of_nat (Z.to_nat (x * 16 + y))) t)
      | _, _, _ => None
      end
  end.

Fixpoint hex_encode (s : string) : string :=
  match s with
  | EmptyString => EmptyString
  | String c r => String (hex_digit (code c / 16)) (String (hex_digit (code c mod 16)) (hex_encode r))
  end.

Inductive secret_error := ErrNoKey | NotHex | WrongSize (n : Z) | NoCipher.

Definition KeySize : Z := 32.

Section Keys.
Variable NewCipher : string -> option AEAD.       (* aes.NewCipher and cipher.NewGCM *)
Variable sha256_sum : string -> string.
Variable hmac_sha256 : string -> string -> string.

Definition newKey (raw : string) : result secret_error Key :=
  if negb (slen raw =? KeySize) then Err (WrongSize (slen raw))
  else match NewCipher raw with
       | None => Err NoCipher
       | Some a => Ok (mkKey a (sha256_sum ("retune-mac-v1" ++ String "000" raw)%string))
       end.

Definition parse (value : string) : result secret_error Key :=
  match hex_decode value with None => Err NotHex | Some raw => newKey raw end.

Definition FromHex (value : string) : result secret_error Key :=
  if String.eqb (TrimSpace value) EmptyString then Err ErrNoKey else parse (TrimSpace value).

(** [Generate], given what [rand.Read] filled in. *)
Definition Generate (rand : string) : result secret_error (Key * string) :=
  let! k := newKey rand in Ok (k, hex_encode rand).

Definition MAC (k : Key) (data ctx : string) : string := hmac_sha256 (k_mac k) (ctx ++ String "000" data)%string.

Lemma hex_digit_ok n : 0 <= n < 16 -> hex_value (hex_digit n) = Some n /\ plain (hex_digit n) = true.
Proof.
  intros Hn. assert (bool_decide (hex_value (hex_digit n) = Some n) && plain (hex_digit n) = true) as H.
  { revert n Hn. by apply (forall_below 16 (fun n => bool_decide (hex_value (hex_digit n) = Some n) && plain (hex_digit n))). }
  apply andb_true_iff in H as [H1%bool_decide_eq_true_1 H2]. done.
Qed.

Lemma nibbles c : 0 <= code c / 16 < 16 /\ 0 <= code c mod 16 < 16.
Proof. pose proof (code_range c). split; [split; [apply Z.div_pos; lia|apply Z.div_lt_upper_bound; lia]|apply Z.mod_pos_bound; lia]. Qed.

Lemma hex_roundtrip s : hex_decode (hex_encode s) = Some s.
Proof.
  induction s as [|c s IH]; simpl; [done|]. destruct (nibbles c) as [H1 H2].
  rewrite (proj1 (hex_digit_ok _ H1)), (proj1 (hex_digit_ok _ H2)), IH.
  replace (code c / 16 * 16 + code c mod 16) with (code c) by (pose proof (Z.div_mod (code c) 16); lia).
  unfold code. by rewrite Nat2Z.id, ascii_nat_embedding.
Qed.

Lemma hex_plain s : sall plain (hex_encode s) = true.
Proof.
  induction s as [|c s IH]; simpl; [done|]. destruct (nibbles c) as [H1 H2].
  by rewrite IH, (proj2 (hex_digit_ok _ H1)), (proj2 (hex_digit_ok _ H2)).
Qed.

(** What [Generate] writes is the key it made, with or without white space
    around it; and such a key opens what it sealed. *)
Lemma generated_key_is_read_back rand k text :
  Generate rand = Ok (k, text) -> FromHex text = Ok k.
Proof.
  unfold Generate. intros H. apply rbind_Ok in H as (k' & Hk & [= -> <-]). unfold FromHex.
  rewrite (TrimSpace_plain _ (hex_plain rand)). unfold parse. rewrite hex_roundtrip.
  destruct rand as [|c r]; [|done]. unfold newKey in Hk. done.
Qed.
End Keys.
