(* ===== verification/AuthStore.v ===== *)
(** * The tables of sign-in

    [internal/server/store/admins.go], [apitokens.go], [scope.go] and
    [loginfailures.go]: each SQL statement as an operation on lists of rows,
    with the constraints of the migrations. One tenant, and a database that
    answers. *)
From S2P Require Export Throttle.
Open Scope Z_scope.
Open Scope go_scope.

(** ** Rows *)

Definition RoleAdmin : string := "admin".
Definition RoleHelpdesk : string := "helpdesk".
Definition RoleReadOnly : string := "read_only".

Definition RoleRank (role : string) : Z :=
  if String.eqb role RoleAdmin then 3
  else if String.eqb role RoleHelpdesk then 2
  else if String.eqb role RoleReadOnly then 1
  else 0.
Definition ValidRole (role : string) : bool := RoleRank role >? 0.

Definition AuthLocal : string := "local".
Definition AuthOIDC : string := "oidc".

Record Admin := mkAdmin {
  ad_ID : string; ad_Email : string; ad_PasswordHash : string; ad_TOTPSecret : string; ad_Role : string;
  ad_CreatedAt : time; ad_LastLoginAt : option time; ad_DisabledAt : option time;
  ad_AuthSource : string; ad_OIDCIssuer : string; ad_OIDCSubject : string; ad_Scoped : bool }.

(** A row of [admins]: what [scanAdmin] reads of it, and [totp_last_step]. *)
Record admin_row := mkRow { r_Admin : Admin; r_LastStep : Z }.

Record Session := mkSession {
  sn_TokenHash : string; sn_AdminID : string; sn_CSRFToken : string; sn_CreatedAt : time; sn_ExpiresAt : time;
  sn_LastSeenAt : time; sn_UserAgent : string; sn_IP : string }.

Record APIToken := mkAPIToken {
  tk_ID : string; tk_Name : string; tk_TokenHash : string; tk_Role : string; tk_CreatedByID : string; tk_CreatedBy : string;
  tk_CreatedAt : time; tk_ExpiresAt : time; tk_LastUsedAt : option time; tk_RevokedAt : option time }.

(** [None] is the whole fleet. *)
Definition DeviceScope : Type := option (list string).
Definition Unscoped : DeviceScope := None.
Definition Limited (s : DeviceScope) : bool := match s with Some _ => true | None => false end.

(** The tables, and the failures one server counts in its memory.
    [device_groups] is ids and names; [admin_scopes] pairs an admin and a group. *)
Record adb := mkAdb {
  t_admins : list admin_row;
  t_sessions : list Session;
  t_tokens : list APIToken;
  t_failures : login_failures;
  t_scopes : list (string * string);
  t_groups : list (string * string);
  t_audit : list AuditEntry;
  t_limiter : Limiter }.

Definition set_t_admins (x : list admin_row) (d : adb) : adb :=
  mkAdb x (t_sessions d) (t_tokens d) (t_failures d) (t_scopes d) (t_groups d) (t_audit d) (t_limiter d).
Definition set_t_sessions (x : list Session) (d : adb) : adb :=
  mkAdb (t_admins d) x (t_tokens d) (t_failures d) (t_scopes d) (t_groups d) (t_audit d) (t_limiter d).
Definition set_t_tokens (x : list APIToken) (d : adb) : adb :=
  mkAdb (t_admins d) (t_sessions d) x (t_failures d) (t_scopes d) (t_groups d) (t_audit d) (t_limiter d).
Definition set_t_failures (x : login_failures) (d : adb) : adb :=
  mkAdb (t_admins d) (t_sessions d) (t_tokens d) x (t_scopes d) (t_groups d) (t_audit d) (t_limiter d).
Definition set_t_scopes (x : list (string * string)) (d : adb) : adb :=
  mkAdb (t_admins d) (t_sessions d) (t_tokens d) (t_failures d) x (t_groups d) (t_audit d) (t_limiter d).
Definition set_t_groups (x : list (string * string)) (d : adb) : adb :=
  mkAdb (t_admins d) (t_sessions d) (t_tokens d) (t_failures d) (t_scopes d) x (t_audit d) (t_limiter d).
Definition set_t_audit (x : list AuditEntry) (d : adb) : adb :=
  mkAdb (t_admins d) (t_sessions d) (t_tokens d) (t_failures d) (t_scopes d) (t_groups d) x (t_limiter d).
Definition set_t_limiter (x : Limiter) (d : adb) : adb :=
  mkAdb (t_admins d) (t_sessions d) (t_tokens d) (t_failures d) (t_scopes d) (t_groups d) (t_audit d) x.

(** [ErrNotFound], [ErrDuplicate], and the error of a violated constraint that
    no code looks at. *)
Inductive db_error := NoRow | Duplicated | Violation.

Definition atx (E A : Type) : Type := txn adb E A.
Definition aget {E A} (f : adb -> A) : atx E A := fun d => (Ok (f d), d).
Definition aset {E} (f : adb -> adb) : atx E unit := fun d => (Ok tt, f d).
Definition row_or {E A} (e : E) (o : option A) : atx E A := match o with Some a => tret a | None => tfail e end.

Definition InsertAudit {E} (a : AuditEntry) : atx E unit := aset (fun d => set_t_audit (t_audit d ++ [a]) d).

(** ** [admins] *)

Definition is_admin (id : string) (r : admin_row) : bool := String.eqb (ad_ID (r_Admin r)) id.

(** [UPDATE admins SET ... WHERE id = ...]. *)
Definition update_admin {E} (id : string) (f : Admin -> Admin) : atx E unit :=
  aset (fun d => set_t_admins (update_where (is_admin id) (fun r => mkRow (f (r_Admin r)) (r_LastStep r)) (t_admins d)) d).

Definition has_email (email : string) (r : admin_row) : bool := String.eqb (ToLower (ad_Email (r_Admin r))) (ToLower email).
Definition has_identity (issuer subject : string) (r : admin_row) : bool :=
  negb (String.eqb (ad_OIDCSubject (r_Admin r)) EmptyString) && String.eqb (ad_OIDCIssuer (r_Admin r)) issuer &&
  String.eqb (ad_OIDCSubject (r_Admin r)) subject.

(** The checks on a single row: the role, and that an account of the provider
    has an identity there and another has none. *)
Definition row_allowed (a : Admin) : bool :=
  ValidRole (ad_Role a) &&
  (String.eqb (ad_AuthSource a) AuthOIDC && negb (String.eqb (ad_OIDCIssuer a) EmptyString) && negb (String.eqb (ad_OIDCSubject a) EmptyString)
   || String.eqb (ad_AuthSource a) AuthLocal && String.eqb (ad_OIDCIssuer a) EmptyString && String.eqb (ad_OIDCSubject a) EmptyString).

(** What the insert stores: the columns it does not name have their defaults. *)
Definition inserted (a : Admin) : Admin :=
  mkAdmin (ad_ID a) (ad_Email a) (ad_PasswordHash a) (ad_TOTPSecret a) (ad_Role a) (ad_CreatedAt a) None None
    (if String.eqb (ad_AuthSource a) EmptyString then AuthLocal else ad_AuthSource a) (ad_OIDCIssuer a) (ad_OIDCSubject a) false.

Definition CreateAdmin (a : Admin) : atx db_error unit := fun d =>
  let row := inserted a in
  if negb (row_allowed row)
     || existsb (fun r => is_admin (ad_ID a) r || has_email (ad_Email a) r || has_identity (ad_OIDCIssuer a) (ad_OIDCSubject a) r) (t_admins d)
  then (Err Violation, d)
  else (Ok tt, set_t_admins (t_admins d ++ [mkRow row 0]) d).

Definition GetAdminByOIDC (issuer subject : string) : atx db_error Admin := fun d =>
  row_or NoRow (option_map r_Admin (find (has_identity issuer subject) (t_admins d))) d.

Definition set_ad_identity (email role : string) (a : Admin) : Admin :=
  mkAdmin (ad_ID a) email (ad_PasswordHash a) (ad_TOTPSecret a) role (ad_CreatedAt a) (ad_LastLoginAt a) (ad_DisabledAt a)
    (ad_AuthSource a) (ad_OIDCIssuer a) (ad_OIDCSubject a) (ad_Scoped a).

Definition UpdateOIDCAdmin (id email role : string) : atx db_error unit := fun d =>
  let mine := fun r => is_admin id r && String.eqb (ad_AuthSource (r_Admin r)) AuthOIDC in
  if existsb mine (t_admins d) && (negb (ValidRole role) || existsb (fun r => negb (is_admin id r) && has_email email r) (t_admins d))
  then (Err Violation, d)
  else (Ok tt, set_t_admins (update_where mine (fun r => mkRow (set_ad_identity email role (r_Admin r)) (r_LastStep r)) (t_admins d)) d).

Definition GetAdmin (id : string) : atx db_error Admin := fun d =>
  row_or NoRow (option_map r_Admin (find (is_admin id) (t_admins d))) d.

Definition GetAdminByEmail (email : string) : atx db_error Admin := fun d =>
  row_or NoRow (option_map r_Admin (find (has_email email) (t_admins d))) d.

Definition admin_order (a b : Admin) : bool :=
  (ad_CreatedAt a <? ad_CreatedAt b) || (ad_CreatedAt a =? ad_CreatedAt b) && String.leb (ad_ID a) (ad_ID b).

Definition ListAdmins {E} : atx E (list Admin) := aget (fun d => order_by admin_order (map r_Admin (t_admins d))).

Definition CountAdmins {E} : atx E Z := aget (fun d => Z.of_nat (length (t_admins d))).

Definition set_ad_PasswordHash (x : string) (a : Admin) : Admin :=
  mkAdmin (ad_ID a) (ad_Email a) x (ad_TOTPSecret a) (ad_Role a) (ad_CreatedAt a) (ad_LastLoginAt a) (ad_DisabledAt a)
    (ad_AuthSource a) (ad_OIDCIssuer a) (ad_OIDCSubject a) (ad_Scoped a).
Definition UpdateAdminPassword {E} (id hash : string) : atx E unit := update_admin id (set_ad_PasswordHash hash).

Definition set_ad_TOTPSecret (x : string) (a : Admin) : Admin :=
  mkAdmin (ad_ID a) (ad_Email a) (ad_PasswordHash a) x (ad_Role a) (ad_CreatedAt a) (ad_LastLoginAt a) (ad_DisabledAt a)
    (ad_AuthSource a) (ad_OIDCIssuer a) (ad_OIDCSubject a) (ad_Scoped a).
Definition UpdateAdminTOTP {E} (id secret : string) : atx E unit :=
  aset (fun d => set_t_admins (update_where (is_admin id) (fun r => mkRow (set_ad_TOTPSecret secret (r_Admin r)) 0) (t_admins d)) d).

Definition ClaimTOTPStep {E} (id : string) (step : Z) : atx E bool := fun d =>
  let p := fun r => is_admin id r && (r_LastStep r <? step) in
  (Ok (count_where p (t_admins d) =? 1), set_t_admins (update_where p (fun r => mkRow (r_Admin r) step) (t_admins d)) d).

Definition is_plain_secret (r : admin_row) : bool :=
  negb (String.eqb (ad_TOTPSecret (r_Admin r)) EmptyString) && negb (HasPrefix (ad_TOTPSecret (r_Admin r)) "sealed:").
Definition ListPlainTOTPSecrets {E} : atx E (list (string * string)) :=
  aget (fun d => map (fun r => (ad_ID (r_Admin r), ad_TOTPSecret (r_Admin r))) (List.filter is_plain_secret (t_admins d))).

Definition ReplaceTOTPSecret {E} (id old sealed : string) : atx E unit :=
  aset (fun d => set_t_admins (update_where (fun r => is_admin id r && String.eqb (ad_TOTPSecret (r_Admin r)) old)
    (fun r => mkRow (set_ad_TOTPSecret sealed (r_Admin r)) (r_LastStep r)) (t_admins d)) d).

Definition set_ad_DisabledAt (x : option time) (a : Admin) : Admin :=
  mkAdmin (ad_ID a) (ad_Email a) (ad_PasswordHash a) (ad_TOTPSecret a) (ad_Role a) (ad_CreatedAt a) (ad_LastLoginAt a) x
    (ad_AuthSource a) (ad_OIDCIssuer a) (ad_OIDCSubject a) (ad_Scoped a).
Definition SetAdminDisabled {E} (id : string) (at_ : option time) : atx E unit := update_admin id (set_ad_DisabledAt at_).

Definition set_ad_LastLoginAt (x : time) (a : Admin) : Admin :=
  mkAdmin (ad_ID a) (ad_Email a) (ad_PasswordHash a) (ad_TOTPSecret a) (ad_Role a) (ad_CreatedAt a) (Some x) (ad_DisabledAt a)
    (ad_AuthSource a) (ad_OIDCIssuer a) (ad_OIDCSubject a) (ad_Scoped a).
Definition RecordAdminLogin {E} (id : string) (at_ : time) : atx E unit := update_admin id (set_ad_LastLoginAt at_).

(** ** [sessions] *)

Definition has_hash (hash : string) (s : Session) : bool := String.eqb (sn_TokenHash s) hash.

Definition CreateSession (s : Session) : atx db_error unit := fun d =>
  if existsb (has_hash (sn_TokenHash s)) (t_sessions d) || negb (existsb (is_admin (sn_AdminID s)) (t_admins d))
  then (Err Violation, d)
  else (Ok tt, set_t_sessions (t_sessions d ++ [s]) d).

Definition GetSessionWithAdmin (hash : string) : atx db_error (Session * Admin) := fun d =>
  match find (has_hash hash) (t_sessions d) with
  | None => (Err NoRow, d)
  | Some s =>
      match find (is_admin (sn_AdminID s)) (t_admins d) with
      | None => (Err NoRow, d)
      | Some r => (Ok (s, r_Admin r), d)
      end
  end.

Definition set_sn_seen (seen expires : time) (s : Session) : Session :=
  mkSession (sn_TokenHash s) (sn_AdminID s) (sn_CSRFToken s) (sn_CreatedAt s) expires seen (sn_UserAgent s) (sn_IP s).
Definition TouchSession {E} (hash : string) (seen expires : time) : atx E unit :=
  aset (fun d => set_t_sessions (update_where (has_hash hash) (set_sn_seen seen expires) (t_sessions d)) d).

Definition DeleteSession {E} (hash : string) : atx E unit :=
  aset (fun d => set_t_sessions (List.filter (fun s => negb (has_hash hash s)) (t_sessions d)) d).

Definition DeleteSessionsForAdmin {E} (id : string) : atx E unit :=
  aset (fun d => set_t_sessions (List.filter (fun s => negb (String.eqb (sn_AdminID s) id)) (t_sessions d)) d).

Definition DeleteExpiredSessions {E} (now : time) : atx E Z := fun d =>
  (Ok (count_where (fun s => sn_ExpiresAt s <=? now) (t_sessions d)),
   set_t_sessions (List.filter (fun s => negb (sn_ExpiresAt s <=? now)) (t_sessions d)) d).

(** ** [api_tokens] *)

Definition live_token (t : APIToken) : bool := match tk_RevokedAt t with None => true | Some _ => false end.

Definition CreateAPIToken (t : APIToken) : atx db_error unit := fun d =>
  if negb (ValidRole (tk_Role t)) then (Err Violation, d)
  else if existsb (fun u => String.eqb (tk_ID u) (tk_ID t) || String.eqb (tk_TokenHash u) (tk_TokenHash t)
                     || live_token u && String.eqb (ToLower (tk_Name u)) (ToLower (tk_Name t))) (t_tokens d)
  then (Err Duplicated, d)
  else if negb (existsb (is_admin (tk_CreatedByID t)) (t_admins d)) then (Err Violation, d)
  else (Ok tt, set_t_tokens (t_tokens d ++
         [mkAPIToken (tk_ID t) (tk_Name t) (tk_TokenHash t) (tk_Role t) (tk_CreatedByID t) (tk_CreatedBy t) (tk_CreatedAt t) (tk_ExpiresAt t) None None]) d).

Definition set_tk_Role (x : string) (t : APIToken) : APIToken :=
  mkAPIToken (tk_ID t) (tk_Name t) (tk_TokenHash t) x (tk_CreatedByID t) (tk_CreatedBy t) (tk_CreatedAt t) (tk_ExpiresAt t) (tk_LastUsedAt t) (tk_RevokedAt t).

(** The join, and the role capped at the maker's. *)
Definition GetUsableAPIToken (hash : string) (now : time) : atx db_error APIToken := fun d =>
  let usable := fun t => String.eqb (tk_TokenHash t) hash && live_token t && (now <? tk_ExpiresAt t) in
  match find usable (t_tokens d) with
  | None => (Err NoRow, d)
  | Some t =>
      match find (is_admin (tk_CreatedByID t)) (t_admins d) with
      | None => (Err NoRow, d)
      | Some r =>
          if bool_decide (ad_DisabledAt (r_Admin r) <> None) then (Err NoRow, d)
          else let creatorRole := ad_Role (r_Admin r) in
               if RoleRank creatorRole <? RoleRank (tk_Role t) then
                 if negb (ValidRole creatorRole) then (Err NoRow, d) else (Ok (set_tk_Role creatorRole t), d)
               else (Ok t, d)
      end
  end.

Definition is_token (id : string) (t : APIToken) : bool := String.eqb (tk_ID t) id.

Definition GetAPIToken (id : string) : atx db_error APIToken := fun d => row_or NoRow (find (is_token id) (t_tokens d)) d.

(** Live ones first, newest first. *)
Definition token_order (a b : APIToken) : bool :=
  if live_token a then
    if live_token b then (tk_CreatedAt b <? tk_CreatedAt a) || (tk_CreatedAt a =? tk_CreatedAt b) && String.leb (tk_ID b) (tk_ID a) else true
  else if live_token b then false
  else (tk_CreatedAt b <? tk_CreatedAt a) || (tk_CreatedAt a =? tk_CreatedAt b) && String.leb (tk_ID b) (tk_ID a).
Definition ListAPITokens {E} : atx E (list APIToken) := aget (fun d => order_by token_order (t_tokens d)).

Definition set_tk_RevokedAt (x : time) (t : APIToken) : APIToken :=
  mkAPIToken (tk_ID t) (tk_Name t) (tk_TokenHash t) (tk_Role t) (tk_CreatedByID t) (tk_CreatedBy t) (tk_CreatedAt t) (tk_ExpiresAt t) (tk_LastUsedAt t) (Some x).
Definition RevokeAPIToken {E} (id : string) (at_ : time) : atx E bool := fun d =>
  let p := fun t => is_token id t && live_token t in
  (Ok (0 <? count_where p (t_tokens d)), set_t_tokens (update_where p (set_tk_RevokedAt at_) (t_tokens d)) d).
Definition RevokeAPITokensForAdmin {E} (admin : string) (at_ : time) : atx E Z := fun d =>
  let p := fun t => String.eqb (tk_CreatedByID t) admin && live_token t in
  (Ok (count_where p (t_tokens d)), set_t_tokens (update_where p (set_tk_RevokedAt at_) (t_tokens d)) d).

Definition set_tk_LastUsedAt (x : time) (t : APIToken) : APIToken :=
  mkAPIToken (tk_ID t) (tk_Name t) (tk_TokenHash t) (tk_Role t) (tk_CreatedByID t) (tk_CreatedBy t) (tk_CreatedAt t) (tk_ExpiresAt t) (Some x) (tk_RevokedAt t).
Definition TouchAPIToken {E} (id : string) (at_ : time) : atx E unit :=
  aset (fun d => set_t_tokens (update_where (is_token id) (set_tk_LastUsedAt at_) (t_tokens d)) d).

(** ** [device_groups] and [admin_scopes] *)

Definition GetGroup (id : string) : atx db_error (string * string) := fun d =>
  row_or NoRow (find (fun g => String.eqb g.1 id) (t_groups d)) d.
Definition GetGroupByName (name : string) : atx db_error (string * string) := fun d =>
  row_or NoRow (find (fun g => String.eqb (ToLower g.2) (ToLower name)) (t_groups d)) d.

Definition AdminScope (id : string) : atx db_error DeviceScope := fun d =>
  match find (is_admin id) (t_admins d) with
  | None => (Err NoRow, d)
  | Some r =>
      if negb (ad_Scoped (r_Admin r)) then (Ok Unscoped, d)
      else (Ok (Some (order_by String.leb (map snd (List.filter (fun s => String.eqb s.1 id) (t_scopes d))))), d)
  end.

Definition set_ad_Scoped (x : bool) (a : Admin) : Admin :=
  mkAdmin (ad_ID a) (ad_Email a) (ad_PasswordHash a) (ad_TOTPSecret a) (ad_Role a) (ad_CreatedAt a) (ad_LastLoginAt a) (ad_DisabledAt a)
    (ad_AuthSource a) (ad_OIDCIssuer a) (ad_OIDCSubject a) x.

(** [INSERT INTO admin_scopes ... ON CONFLICT DO NOTHING]. *)
Definition insert_scope (id group : string) : atx db_error unit := fun d =>
  if negb (existsb (is_admin id) (t_admins d)) || negb (existsb (fun g => String.eqb g.1 group) (t_groups d)) then (Err Violation, d)
  else if existsb (fun s => String.eqb s.1 id && String.eqb s.2 group) (t_scopes d) then (Ok tt, d)
  else (Ok tt, set_t_scopes (t_scopes d ++ [(id, group)]) d).

Fixpoint insert_scopes (id : string) (groups : list string) : atx db_error unit :=
  match groups with
  | [] => tret tt
  | g :: groups => do* insert_scope id g; insert_scopes id groups
  end.

Definition SetAdminScope (id : string) (scope : DeviceScope) : atx db_error unit :=
  do* aset (fun d => set_t_scopes (List.filter (fun s => negb (String.eqb s.1 id)) (t_scopes d)) d);
  do* update_admin id (set_ad_Scoped (Limited scope));
  insert_scopes id (default [] scope).

(** [DELETE FROM device_groups]: the rows of [admin_scopes] go with it. *)
Definition DeleteGroup {E} (id : string) : atx E unit :=
  aset (fun d => set_t_scopes (List.filter (fun s => negb (String.eqb s.2 id)) (t_scopes d))
                   (set_t_groups (List.filter (fun g => negb (String.eqb g.1 id)) (t_groups d)) d)).
