(* ===== verification/Credentials.v ===== *)
(** * Passwords, authenticator codes and random tokens

    [internal/server/auth/password.go] and [totp.go]. Argon2id, the code of an
    authenticator at an instant, SHA-256 and random bytes are arguments: the
    first two are other packages', the last is the system's. Comparisons in
    constant time are comparisons. *)
From S2P Require Export Secrets.
Open Scope Z_scope.
Open Scope go_scope.

(** ** Scanning *)

(** The start of [fmt.Sscanf]'s [%d]: white space is skipped, but for the end
    of a line. *)
Fixpoint skip_space (fuel : nat) (s : string) : option string :=
  match s with
  | String "010" _ => None
  | _ => match fuel with
         | O => Some s
         | S f => match first_cut space_encodings s with Some r => skip_space f r | None => Some s end
         end
  end.

Fixpoint span_digits (s : string) : string * string :=
  match s with
  | String c r => if is_digit c then let '(a, b) := span_digits r in (String c a, b) else (EmptyString, s)
  | EmptyString => (EmptyString, EmptyString)
  end.

(** [%d] into an [int]: the number and what is left. *)
Definition scan_int (s : string) : option (Z * string) :=
  match skip_space (String.length s) s with
  | None => None
  | Some s =>
      let '(sign, r) := match s with
                        | String c r => if Ascii.eqb c "-" || Ascii.eqb c "+" then (String c EmptyString, r) else (EmptyString, s)
                        | EmptyString => (EmptyString, s)
                        end in
      let '(ds, rest) := span_digits r in
      match Atoi (sign ++ ds)%string with Some n => Some (n, rest) | None => None end
  end.

(** A format of literals, each followed by [%d]; what follows the last one is
    not looked at. *)
Fixpoint Sscanf (s : string) (literals : list string) : option (list Z) :=
  match literals with
  | [] => Some []
  | l :: literals =>
      match CutPrefix l s with
      | None => None
      | Some s =>
          match scan_int s with
          | None => None
          | Some (n, s) => match Sscanf s literals with Some ns => Some (n :: ns) | None => None end
          end
      end
  end.

(** ** [password.go] *)

Definition MinPasswordLength : Z := 12.
Definition maxPasswordLength : Z := 1024.
Definition argonMemory : Z := 64 * 1024.
Definition argonTime : Z := 3.
Definition argonLanes : Z := 4.
Definition argonKeyLen : Z := 32.

(** [argon2.Version]. *)
Definition argon2_Version : Z := 19.

Inductive password_error := TooShort | TooLong | NoRandom.

Section Passwords.
(** [argon2.IDKey]: password, salt, rounds, memory, lanes, length. *)
Variable IDKey : string -> string -> Z -> Z -> Z -> Z -> string.

(** [salt] is what [rand.Read] gave. *)
Definition HashPassword (salt : option string) (password : string) : result password_error string :=
  if slen password <? MinPasswordLength then Err TooShort
  else if slen password >? maxPasswordLength then Err TooLong
  else match salt with
       | None => Err NoRandom
       | Some salt =>
           let key := IDKey password salt argonTime argonMemory argonLanes argonKeyLen in
           Ok ("$argon2id$v=" ++ Itoa argon2_Version ++ "$m=" ++ Itoa argonMemory ++ ",t=" ++ Itoa argonTime ++ ",p=" ++ Itoa argonLanes
               ++ "$" ++ EncodeToString Std salt ++ "$" ++ EncodeToString Std key)%string
       end.

Definition VerifyPassword (encoded password : string) : bool :=
  match Split "$" encoded with
  | [_; p1; p2; p3; p4; p5] =>
      if negb (String.eqb p1 "argon2id") then false
      else match Sscanf p2 ["v="%string] with
      | Some [version] =>
          if negb (version =? argon2_Version) then false
          else match Sscanf p3 ["m="%string; ",t="%string; ",p="%string] with
          | Some [memory; iterations; lanes] =>
              match DecodeString Std p4, DecodeString Std p5 with
              | Some salt, Some want =>
                  if String.eqb want EmptyString then false
                  else String.eqb (IDKey password salt (iterations mod 2 ^ 32) (memory mod 2 ^ 32) (lanes mod 2 ^ 8) (slen want mod 2 ^ 32)) want
              | _, _ => false
              end
          | _ => false
          end
      | _ => false
      end
  | _ => false
  end.
End Passwords.

(** [GeneratePassword], from fifteen random bytes. *)
Definition GeneratePassword (rand : option string) : result password_error string :=
  match rand with None => Err NoRandom | Some b => Ok (EncodeToString URL b) end.

(** ** [totp.go] *)

Definition totpPeriod : Z := 30.

(** Seconds from the first of January of year 1 to the Unix epoch. *)
Definition unixEpoch : Z := 62135596800.
Definition Unix (t : time) : Z := t / Second - unixEpoch.
Definition FromUnix (s : Z) : time := (s + unixEpoch) * Second.

Section Codes.
(** [totp.GenerateCodeCustom] with the options of the code: the secret and the
    instant. *)
Variable GenerateCode : string -> time -> option string.

Definition code_matches (secret code : string) (s : Z) : bool :=
  match GenerateCode secret (FromUnix (s * totpPeriod)) with Some want => String.eqb want code | None => false end.

Definition matchTOTP (secret code : string) (now : time) : option Z :=
  if String.eqb secret EmptyString || negb (slen code =? 6) then None
  else let step := Z.quot (Unix now) totpPeriod in find (code_matches secret code) [step - 1; step; step + 1].

Definition ValidateTOTP (secret code : string) (now : time) : bool :=
  match matchTOTP secret code now with Some _ => true | None => false end.
End Codes.

Inductive seal_error := ErrNoSecretKey | SealFailed | NotSealed | Malformed | BadNonce | BadCiphertext | CannotOpen.

(** The prefix of a sealed secret. *)
Definition sealedPrefix : string := "sealed:".

Definition totpContext (adminID : string) : string := ("admin-totp:" ++ adminID)%string.

Definition sealTOTP (key : option Key) (rand adminID secret : string) : result seal_error string :=
  match key with
  | None => Err ErrNoSecretKey
  | Some k =>
      match Seal k rand secret (totpContext adminID) with
      | None => Err SealFailed
      | Some (ct, nonce) => Ok (sealedPrefix ++ EncodeToString Std nonce ++ "." ++ EncodeToString Std ct)%string
      end
  end.

(** [strings.Cut(s, ".")]. *)
Fixpoint Cut (sep : ascii) (s : string) : option (string * string) :=
  match s with
  | EmptyString => None
  | String c r =>
      if Ascii.eqb c sep then Some (EmptyString, r)
      else match Cut sep r with Some (a, b) => Some (String c a, b) | None => None end
  end.

Definition openTOTP (key : option Key) (adminID stored : string) : result seal_error string :=
  match key with
  | None => Err ErrNoSecretKey
  | Some k =>
      match CutPrefix sealedPrefix stored with
      | None => Err NotSealed
      | Some body =>
          match Cut "." body with
          | None => Err Malformed
          | Some (n, c) =>
              match DecodeString Std n, DecodeString Std c with
              | None, _ => Err BadNonce
              | _, None => Err BadCiphertext
              | Some nonce, Some ct => match Open_ k ct nonce (totpContext adminID) with Some plain => Ok plain | None => Err CannotOpen end
              end
          end
      end
  end.

Definition ResealTOTP (from to : option Key) (rand adminID stored : string) : result seal_error string :=
  let! plain := openTOTP from adminID stored in sealTOTP to rand adminID plain.

Definition IsSealedTOTP (stored : string) : bool := HasPrefix stored sealedPrefix.

(** ** Lemmas *)

Lemma span_digits_app a b : sall is_digit a = true -> (match b with String c _ => is_digit c = false | EmptyString => True end) -> span_digits (a ++ b)%string = (a, b).
Proof.
  intros Ha Hb. induction a as [|c a IH]; simpl in *.
  - destruct b as [|c b]; simpl; [done|]. by rewrite Hb.
  - apply andb_true_iff in Ha as [Hc Ha]. by rewrite Hc, IH.
Qed.

Lemma Cut_app sep a b : sany (fun c => Ascii.eqb c sep) a = false -> Cut sep (a ++ String sep b)%string = Some (a, b).
Proof.
  induction a as [|c a IH]; simpl; [by rewrite Ascii.eqb_refl|]. intros [Hc Ha]%orb_false_iff. by rewrite Hc, IH.
Qed.

(** A secret that was sealed for an account opens for it. *)
Lemma open_sealed k rand id secret sealed :
  key_opens k -> sealTOTP (Some k) rand id secret = Ok sealed -> openTOTP (Some k) id sealed = Ok secret.
Proof.
  intros Hk. unfold sealTOTP, openTOTP. destruct (Seal k rand secret (totpContext id)) as [[ct nonce]|] eqn:E; [|done].
  intros [= <-]. rewrite CutPrefix_app. change ("." ++ EncodeToString Std ct)%string with (String "." (EncodeToString Std ct)).
  rewrite Cut_app by (by apply encode_without). rewrite !decode_encode. by rewrite (Hk _ _ _ _ _ E).
Qed.

Lemma sealed_is_sealed k rand id secret sealed : sealTOTP k rand id secret = Ok sealed -> IsSealedTOTP sealed = true /\ sealed <> EmptyString.
Proof.
  unfold sealTOTP. destruct k as [k|]; [|done]. destruct (Seal k rand secret (totpContext id)) as [[ct nonce]|]; [|done].
  intros [= <-]. split; [|done]. unfold IsSealedTOTP. apply HasPrefix_app. by eexists.
Qed.

Section Verify.
Variable IDKey : string -> string -> Z -> Z -> Z -> Z -> string.

(** A hash verifies a password exactly if Argon2id gives both the same key. *)
Lemma verify_hashed salt p encoded q :
  (forall p salt t m l n, 0 <= n -> slen (IDKey p salt t m l n) = n) -> HashPassword IDKey (Some salt) p = Ok encoded ->
  VerifyPassword IDKey encoded q =
    String.eqb (IDKey q salt argonTime argonMemory argonLanes argonKeyLen) (IDKey p salt argonTime argonMemory argonLanes argonKeyLen).
Proof.
  intros Hlen. unfold HashPassword. destruct (_ <? _); [done|]. destruct (_ >? _); [done|]. intros [= <-].
  set (key := IDKey p salt _ _ _ _). unfold VerifyPassword.
  assert (forall s, sany (fun c => Ascii.eqb c "$") (EncodeToString Std s) = false) as Hd by (intros s; by apply encode_without).
  change (Split "$" _) with (["" ; "argon2id"; "v=19"; "m=65536,t=3,p=4"]%string ++ Split "$" (EncodeToString Std salt ++ String "$" (EncodeToString Std key))%string).
  rewrite Split_app by done. rewrite (Split_none _ _ (Hd key)). cbn [app]. change (negb (String.eqb "argon2id" "argon2id")) with false. cbv iota.
  change (Sscanf "v=19" ["v="%string]) with (Some [19]). cbv iota. change (negb (19 =? argon2_Version)) with false. cbv iota.
  change (Sscanf "m=65536,t=3,p=4" _) with (Some [65536; 3; 4]). cbv iota. rewrite !decode_encode. cbv iota.
  assert (slen key = 32) as Hk by (by apply Hlen). destruct (String.eqb_spec key EmptyString) as [He|_]; [by rewrite He in Hk|].
  rewrite Hk. done.
Qed.
End Verify.

Lemma generated_password_is_accepted b pw : String.length b = 15%nat -> GeneratePassword (Some b) = Ok pw ->
  MinPasswordLength <= slen pw <= maxPasswordLength.
Proof.
  intros Hb [= <-]. unfold MinPasswordLength, maxPasswordLength, slen.
  assert (forall s, (4 * String.length s <= 3 * String.length (EncodeToString URL s) <= 4 * String.length s + 4)%nat) as H; [|specialize (H b); lia].
  induction s as [|x|x y|x y z r IH] using string_ind3; cbn [EncodeToString String.length]; lia.
Qed.
