(* ===== verification/Auth.v ===== *)
(** * Signing in and staying signed in

    [internal/server/auth/service.go] and [apitokens.go]. Argon2id, the
    authenticator's codes and SHA-256 are arguments; so are what the system
    draws at random, each reading of the clock, and whether a slot for checking
    a password came free. *)
From S2P Require Export AuthStore Credentials.
Open Scope Z_scope.
Open Scope go_scope.

Inductive auth_error :=
| ErrInvalidCredentials | ErrTOTPRequired | ErrTOTPInvalid | ErrAccountDisabled | ErrTooManyAttempts
| ErrInvalidSession | ErrNotFound | ErrBadRequest (why : string) | ErrLastAdmin | ErrLocalLoginDisabled
| ErrInvalidToken | ErrDuplicateToken
| ErrPassword (e : password_error) | ErrSecret (e : seal_error) | ErrRandom | ErrCancelled | ErrDatabase (e : db_error).

(** The [Throttle] interface. *)
Record Throttle := mkThrottle {
  Allowed : string -> time -> adb -> bool * adb;
  Fail_ : string -> time -> adb -> adb;
  Reset_ : string -> adb -> adb }.

Definition storeThrottle (t : StoreThrottle) : Throttle :=
  mkThrottle (fun key now d => (StoreAllowed t key now (t_failures d), d))
             (fun key now d => set_t_failures (StoreFail t key now (t_failures d)) d)
             (fun key d => set_t_failures (StoreReset key (t_failures d)) d).

(** [memoryThrottle]; the readings inside one call are one. *)
Definition memoryThrottle (order : gmap string (list time) -> list string) : Throttle :=
  mkThrottle (fun key now d => let '(ok, l) := LimiterAllowed key now (t_limiter d) in (ok, set_t_limiter l d))
             (fun key now d => set_t_limiter (LimiterFail order key now (fun _ => now) now (t_limiter d)) d)
             (fun key d => set_t_limiter (LimiterReset key (t_limiter d)) d).

Record Service := mkService {
  s_SessionTTL : duration; s_MaxSessionLifetime : duration; s_Limiter : option Throttle; s_Issuer : string;
  s_Throttle : option Throttle; s_IPThrottle : option Throttle;
  s_LocalLoginDisabled : bool; s_SSOScopesManaged : bool; s_Key : option Key }.

Definition touchInterval : duration := Minute.
Definition maxEmailLength : Z := 320.
Definition ssoOwned : string := "this account signs in through SSO; its password and MFA belong to the identity provider".

(** [if errors.Is(err, store.ErrNotFound)]: no row is an answer. *)
Definition lookup_row {A} (m : atx db_error A) : atx auth_error (option A) := fun d =>
  match m d with
  | (Ok a, d') => (Ok (Some a), d')
  | (Err NoRow, d') => (Ok None, d')
  | (Err e, d') => (Err (ErrDatabase e), d')
  end.
Definition db {A} (m : atx db_error A) : atx auth_error A := tmap_err ErrDatabase m.
Definition needed {A} (e : auth_error) (o : option A) : atx auth_error A := row_or e o.

(** The readings of the clock of one sign-in. *)
Record readings := mkReadings {
  at_asked : time; at_asked_ip : time; at_code : time; at_failed : time; at_failed_ip : time; at_login : time }.

(** What waiting for a slot gave: a slot, or the error it ends in. *)
Inductive hash_slot := Slot | SlotTimeout | SlotCancelled.

Definition throttle (s : Service) : option Throttle := match s_Throttle s with Some t => Some t | None => s_Limiter s end.

(** An address's key has a space in it. *)
Definition ipKey (ip : string) : string := ("ip " ++ ip)%string.

Definition fail (s : Service) (w : readings) (key ip : string) : atx auth_error unit :=
  do* aset (fun d => match throttle s with Some t => Fail_ t key (at_failed w) d | None => d end);
  aset (fun d => match s_IPThrottle s with
                 | Some t => if String.eqb ip EmptyString then d else Fail_ t (ipKey ip) (at_failed_ip w) d
                 | None => d
                 end).

Definition failing {A} (s : Service) (w : readings) (key ip : string) (e : auth_error) : atx auth_error A :=
  do* fail s w key ip; tfail e.

(** [if !allowed { return ErrTooManyAttempts }]. *)
Definition ask (t : Throttle) (key : string) (now : time) : atx auth_error unit := fun d =>
  let '(ok, d) := Allowed t key now d in if ok : bool then (Ok tt, d) else (Err ErrTooManyAttempts, d).

Definition ask_account (s : Service) (key : string) (now : time) : atx auth_error unit :=
  match throttle s with Some t => ask t key now | None => tret tt end.
Definition ask_address (s : Service) (ip : string) (now : time) : atx auth_error unit :=
  match s_IPThrottle s with
  | Some t => if String.eqb ip EmptyString then tret tt else ask t (ipKey ip) now
  | None => tret tt
  end.

(** [capped]. *)
Definition capped (s : Service) (createdAt expires : time) : time :=
  if s_MaxSessionLifetime s <=? 0 then expires
  else let limit := Prelude.Add createdAt (s_MaxSessionLifetime s) in if After expires limit then limit else expires.

Definition trim (s : string) (max : nat) : string := String.substring 0 max s.

Record SessionInfo := mkSessionInfo { i_Token : string; i_CSRFToken : string; i_ExpiresAt : time }.

(** [randomToken], from the bytes drawn. *)
Definition randomToken (rand : option string) : atx auth_error string :=
  match rand with None => tfail ErrRandom | Some b => tret (EncodeToString URL b) end.

Definition isFleetAdmin (a : Admin) : bool :=
  String.eqb (ad_Role a) RoleAdmin && bool_decide (ad_DisabledAt a = None) && negb (ad_Scoped a).

Definition fleetAdminsBesides (admins : list Admin) (id : string) : Z :=
  count_where (fun a => negb (String.eqb (ad_ID a) id) && isFleetAdmin a) admins.

Fixpoint IndexByte (c : ascii) (s : string) : Z :=
  match s with
  | EmptyString => -1
  | String d r => if Ascii.eqb d c then 0 else let i := IndexByte c r in if i <? 0 then -1 else i + 1
  end.
Fixpoint CountByte (c : ascii) (s : string) : Z :=
  match s with EmptyString => 0 | String d r => (if Ascii.eqb d c then 1 else 0) + CountByte c r end.

Definition validEmail (email : string) : bool :=
  let at_ := IndexByte "@" email in
  (at_ >? 0) && (at_ <? slen email - 1) && (slen email <=? 320) &&
  negb (sany (fun c => existsb (Ascii.eqb c) [" "; "009"; "013"; "010"]%char) email) && (CountByte "@" email =? 1).

Definition login_audit (admin : Admin) (method : string) : AuditEntry :=
  mkAudit (ad_Email admin) "admin.login" "admin" (ad_ID admin) [("method"%string, JStr method)].

Definition admin_audit (actor action id : string) (details : list (string * json)) : AuditEntry := mkAudit actor action "admin" id details.

Section Auth.
Variable IDKey : string -> string -> Z -> Z -> Z -> Z -> string.
Variable GenerateCode : string -> time -> option string.
Variable hashToken : string -> string.
Variable json_time : time -> string.
(** [dummyHash]: made once, from a salt of its own. *)
Variable dummyHash : string.

Definition verifyPassword (slot : hash_slot) (encoded password : string) : atx auth_error bool :=
  match slot with
  | Slot => tret (VerifyPassword IDKey encoded password)
  | SlotTimeout => tfail ErrTooManyAttempts
  | SlotCancelled => tfail ErrCancelled
  end.

(** The authenticator's part of a sign-in. *)
Definition check_code (s : Service) (w : readings) (key ip : string) (admin : Admin) (totpCode : string) : atx auth_error unit :=
  if String.eqb (ad_TOTPSecret admin) EmptyString then tret tt
  else if String.eqb totpCode EmptyString then tfail ErrTOTPRequired
  else match openTOTP (s_Key s) (ad_ID admin) (ad_TOTPSecret admin) with
       | Err e => tfail (ErrSecret e)
       | Ok secret =>
           match matchTOTP GenerateCode secret totpCode (at_code w) with
           | None => failing s w key ip ErrTOTPInvalid
           | Some step =>
               let* fresh := ClaimTOTPStep (ad_ID admin) step in
               if negb fresh then failing s w key ip ErrTOTPInvalid else tret tt
           end
       end.

(** After the checks: the account's failures are forgotten, and the sign-in is
    recorded. *)
Definition signed_in (s : Service) (w : readings) (key : string) (admin : Admin) : atx auth_error Admin :=
  do* aset (fun d => match throttle s with Some t => Reset_ t key d | None => d end);
  do* InTx (do* RecordAdminLogin (ad_ID admin) (at_login w); InsertAudit (login_audit admin AuthLocal));
  tret (set_ad_LastLoginAt (at_login w) admin).

Definition AuthenticateFrom (s : Service) (w : readings) (slot : hash_slot) (ip email password totpCode : string) : atx auth_error Admin :=
  if s_LocalLoginDisabled s then tfail ErrLocalLoginDisabled
  else
    let key := ToLower (TrimSpace email) in
    if (slen key >? maxEmailLength) || (slen password >? maxPasswordLength) then tfail ErrInvalidCredentials
    else
      do* ask_account s key (at_asked w);
      do* ask_address s ip (at_asked_ip w);
      let* found := lookup_row (GetAdminByEmail key) in
      match found with
      | None =>
          do* verifyPassword slot dummyHash password;
          failing s w key ip ErrInvalidCredentials
      | Some admin =>
          if String.eqb (ad_AuthSource admin) AuthOIDC then
            do* verifyPassword slot dummyHash password;
            failing s w key ip ErrInvalidCredentials
          else
            let* ok := verifyPassword slot (ad_PasswordHash admin) password in
            if negb ok then failing s w key ip ErrInvalidCredentials
            else if bool_decide (ad_DisabledAt admin <> None) then tfail ErrAccountDisabled
            else
              do* check_code s w key ip admin totpCode;
              signed_in s w key admin
      end.

Definition Authenticate (s : Service) (w : readings) (slot : hash_slot) (email password totpCode : string) : atx auth_error Admin :=
  AuthenticateFrom s w slot EmptyString email password totpCode.

(** ** Sessions *)

Definition CreateSession (s : Service) (rand1 rand2 : option string) (now : time) (adminID userAgent ip : string) : atx auth_error SessionInfo :=
  let* token := randomToken rand1 in
  let* csrf := randomToken rand2 in
  let expires := capped s now (Prelude.Add now (s_SessionTTL s)) in
  do* db (AuthStore.CreateSession (mkSession (hashToken token) adminID csrf now expires now (trim userAgent 256) (trim ip 64)));
  tret (mkSessionInfo token csrf expires).

Definition ValidateSession (s : Service) (now : time) (token : string) : atx auth_error (Admin * Session) :=
  let hash := hashToken token in
  let* found := lookup_row (GetSessionWithAdmin hash) in
  match found with
  | None => tfail ErrInvalidSession
  | Some (session, admin) =>
      if negb (Before now (sn_ExpiresAt session)) then do* AuthStore.DeleteSession hash; tfail ErrInvalidSession
      else if bool_decide (ad_DisabledAt admin <> None) then do* DeleteSessionsForAdmin (ad_ID admin); tfail ErrAccountDisabled
      else if Sub now (sn_LastSeenAt session) >=? touchInterval then
        let expires := capped s (sn_CreatedAt session) (Prelude.Add now (s_SessionTTL s)) in
        do* TouchSession hash now expires;
        tret (admin, set_sn_seen now expires session)
      else tret (admin, session)
  end.

Definition DeleteSession (token : string) : atx auth_error unit := AuthStore.DeleteSession (hashToken token).

(** ** Accounts *)

Fixpoint group_names (groups : list string) : atx auth_error (list string) :=
  match groups with
  | [] => tret []
  | g :: groups =>
      let* group := lookup_row (GetGroup g) in
      match group with
      | None => tfail (ErrBadRequest ("there is no group " ++ g)%string)
      | Some group => let* names := group_names groups in tret (group.2 :: names)
      end
  end.

Definition SetScope (s : Service) (id : string) (groups : DeviceScope) (actor : string) : atx auth_error unit := InTx (
  let* found := lookup_row (GetAdmin id) in
  let* admin := needed ErrNotFound found in
  do* tensure (negb (s_SSOScopesManaged s && String.eqb (ad_AuthSource admin) AuthOIDC))
        (ErrBadRequest "this account's devices come from its groups in the identity provider");
  do* (if Limited groups && isFleetAdmin admin then let* all := ListAdmins in tensure (negb (fleetAdminsBesides all id =? 0)) ErrLastAdmin else tret tt);
  let* names := group_names (default [] groups) in
  do* db (SetAdminScope id groups);
  InsertAudit (admin_audit actor "admin.scope_changed" id
    ([("email"%string, JStr (ad_Email admin)); ("scoped"%string, JBool (Limited groups))]
     ++ (if Limited groups then [("groups"%string, JArr (map JStr names))] else [])))).

Record CreateAdminOptions := mkCreateAdminOptions { o_Email : string; o_Password : string; o_Role : string; o_Actor : string }.

Definition CreateAdmin (salt new_id : option string) (now : time) (o : CreateAdminOptions) : atx auth_error Admin :=
  let email := TrimSpace (o_Email o) in
  if negb (validEmail email) then tfail (ErrBadRequest "not a valid email address")
  else if negb (ValidRole (o_Role o)) then tfail (ErrBadRequest "role")
  else match HashPassword IDKey salt (o_Password o) with
  | Err e => tfail (ErrPassword e)
  | Ok hash =>
      let* id := needed ErrRandom new_id in
      let admin := mkAdmin id email hash EmptyString (o_Role o) now None None EmptyString EmptyString EmptyString false in
      do* InTx (do* db (AuthStore.CreateAdmin admin);
                InsertAudit (admin_audit (o_Actor o) "admin.created" id [("email"%string, JStr email); ("role"%string, JStr (o_Role o))]));
      tret admin
  end.

Definition not_sso (admin : Admin) : atx auth_error unit := tensure (negb (String.eqb (ad_AuthSource admin) AuthOIDC)) (ErrBadRequest ssoOwned).

Definition SetPassword (salt : option string) (id password actor : string) : atx auth_error unit :=
  match HashPassword IDKey salt password with
  | Err e => tfail (ErrPassword e)
  | Ok hash => InTx (
      let* found := lookup_row (GetAdmin id) in
      let* admin := needed ErrNotFound found in
      do* not_sso admin;
      do* UpdateAdminPassword id hash;
      do* DeleteSessionsForAdmin id;
      InsertAudit (admin_audit actor "admin.password_changed" id [("email"%string, JStr (ad_Email admin))]))
  end.

(** [generated] is what [NewTOTPSecret] made: a secret and its address. *)
Definition EnableTOTP (s : Service) (generated : string -> string -> option (string * string)) (rand id actor : string) : atx auth_error (string * string) := InTx (
  let* found := lookup_row (GetAdmin id) in
  let* admin := needed ErrNotFound found in
  do* not_sso admin;
  let* made := needed ErrRandom (generated (s_Issuer s) (ad_Email admin)) in
  match sealTOTP (s_Key s) rand id made.1 with
  | Err e => tfail (ErrSecret e)
  | Ok sealed =>
      do* UpdateAdminTOTP id sealed;
      do* InsertAudit (admin_audit actor "admin.totp_enabled" id []);
      tret made
  end).

(** The loop of [SealTOTPSecrets]: how many were sealed, and the error it
    stopped at. [rand] is drawn anew for each. *)
Fixpoint seal_secrets (key : option Key) (rand : nat -> string) (n : nat) (secrets : list (string * string)) (d : adb) : (Z * option seal_error) * adb :=
  match secrets with
  | [] => ((Z.of_nat n, None), d)
  | (id, secret) :: secrets =>
      match sealTOTP key (rand n) id secret with
      | Err e => ((Z.of_nat n, Some e), d)
      | Ok sealed => seal_secrets key rand (S n) secrets (@ReplaceTOTPSecret auth_error id secret sealed d).2
      end
  end.
Definition SealTOTPSecrets (s : Service) (rand : nat -> string) (d : adb) : (Z * option seal_error) * adb :=
  seal_secrets (s_Key s) rand 0 (map (fun r => (ad_ID (r_Admin r), ad_TOTPSecret (r_Admin r))) (List.filter is_plain_secret (t_admins d))) d.

Definition DisableTOTP (id actor : string) : atx auth_error unit := InTx (
  let* found := lookup_row (GetAdmin id) in
  let* admin := needed ErrNotFound found in
  do* not_sso admin;
  do* UpdateAdminTOTP id EmptyString;
  InsertAudit (admin_audit actor "admin.totp_disabled" id [])).

Definition SetDisabled (now : time) (id : string) (disabled : bool) (actor : string) : atx auth_error unit := InTx (
  let* found := lookup_row (GetAdmin id) in
  let* admin := needed ErrNotFound found in
  do* (if disabled then let* others := ListAdmins in tensure (negb (isFleetAdmin admin && (fleetAdminsBesides others id =? 0))) ErrLastAdmin else tret tt);
  do* SetAdminDisabled id (if disabled then Some now else None);
  do* (if disabled then DeleteSessionsForAdmin id else tret tt);
  InsertAudit (admin_audit actor (if disabled then "admin.disabled" else "admin.enabled")%string id [("email"%string, JStr (ad_Email admin))])).

Definition HasAdmins : atx auth_error bool := let* n := CountAdmins in tret (n >? 0).

(** ** API tokens *)

Definition APITokenPrefix : string := "rtk_".
Definition DefaultAPITokenDays : Z := 90.
Definition MaxAPITokenDays : Z := 365.
Definition maxAPITokenName : Z := 100.

Record NewAPIToken := mkNewAPIToken { n_Name : string; n_Role : string; n_Days : Z; n_Creator : Admin }.

(** The days a token is to live. *)
Definition token_days (n : NewAPIToken) : Z := if n_Days n =? 0 then DefaultAPITokenDays else n_Days n.

Definition token_checks (n : NewAPIToken) : result auth_error string :=
  let name := TrimSpace (n_Name n) in
  check! ensure (negb (String.eqb name EmptyString || (slen name >? maxAPITokenName))) (ErrBadRequest "a token needs a name");
  check! ensure (ValidRole (n_Role n)) (ErrBadRequest "role");
  check! ensure (negb (RoleRank (n_Role n) >? RoleRank (ad_Role (n_Creator n)))) (ErrBadRequest "a token cannot have more access than the admin who makes it");
  check! ensure (negb ((token_days n <? 1) || (token_days n >? MaxAPITokenDays))) (ErrBadRequest "a token must expire");
  Ok name.

Definition CreateAPIToken (rand new_id : option string) (now : time) (n : NewAPIToken) : atx auth_error (string * APIToken) :=
  match token_checks n with
  | Err e => tfail e
  | Ok name =>
      let* secret := randomToken rand in
      let plain := (APITokenPrefix ++ secret)%string in
      let* id := needed ErrRandom new_id in
      let tok := mkAPIToken id name (hashToken plain) (n_Role n) (ad_ID (n_Creator n)) (ad_Email (n_Creator n)) now
                   (Prelude.Add now (dmul (token_days n) (24 * Hour))) None None in
      do* tmap_err (fun e => match e with ErrDatabase Duplicated => ErrDuplicateToken | e => e end)
            (InTx (do* db (AuthStore.CreateAPIToken tok);
                   InsertAudit (mkAudit (ad_Email (n_Creator n)) "api_token.created" "api_token" id
                     [("name"%string, JStr name); ("role"%string, JStr (n_Role n)); ("expires_at"%string, JStr (json_time (tk_ExpiresAt tok)))])));
      tret (plain, tok)
  end.

Definition AuthenticateAPIToken (now : time) (plain : string) : atx auth_error APIToken :=
  if negb (HasPrefix plain APITokenPrefix) then tfail ErrInvalidToken
  else
    let* found := lookup_row (GetUsableAPIToken (hashToken plain) now) in
    let* tok := needed ErrInvalidToken found in
    if match tk_LastUsedAt tok with None => true | Some last => Sub now last >=? touchInterval end
    then do* TouchAPIToken (tk_ID tok) now; tret (set_tk_LastUsedAt now tok)
    else tret tok.

Definition RevokeAPIToken (now : time) (id actor : string) : atx auth_error unit := InTx (
  let* found := lookup_row (GetAPIToken id) in
  let* tok := needed ErrNotFound found in
  let* revoked := AuthStore.RevokeAPIToken id now in
  if negb revoked then tret tt
  else InsertAudit (mkAudit actor "api_token.revoked" "api_token" id [("name"%string, JStr (tk_Name tok))])).
End Auth.
