(* ===== verification/Sso.v ===== *)
(** * Signing in through an identity provider

    [internal/server/auth/oidc.go] and the parts of [config/server.go] it reads.
    The provider and the packages that talk to it and verify its tokens are
    arguments, and so is the text of a JSON value. *)
From S2P Require Export Auth.
Open Scope Z_scope.
Open Scope go_scope.

(** ** Configuration *)

Record OIDCConfig := mkOIDCConfig {
  oc_GroupsClaim : string; oc_AdminGroups : list string; oc_HelpdeskGroups : list string; oc_ReadOnlyGroups : list string;
  oc_ScopeGroups : gmap string (list string); oc_FleetGroups : list string }.

Definition ManagesScopes (c : OIDCConfig) : bool := negb (bool_decide (oc_ScopeGroups c = ∅)).

(** [parseScopeGroups]: pairs separated by semicolons. *)
Fixpoint scope_pairs (pairs : list string) (out : gmap string (list string)) : result string (gmap string (list string)) :=
  match pairs with
  | [] => Ok out
  | p :: ps =>
      if String.eqb (TrimSpace p) EmptyString then scope_pairs ps out
      else match Cut "=" p with
           | None => Err (TrimSpace p)
           | Some (idp, group) =>
               let idp := TrimSpace idp in
               let group := TrimSpace group in
               if String.eqb idp EmptyString || String.eqb group EmptyString then Err (TrimSpace p)
               else scope_pairs ps (<[idp := default [] (out !! idp) ++ [group]]> out)
           end
  end.
Definition parseScopeGroups (s : string) : result string (gmap string (list string)) :=
  if String.eqb (TrimSpace s) EmptyString then Ok ∅ else scope_pairs (Split ";" s) ∅.

(** ** Refusals *)

Definition SSOUnavailable : string := "unavailable".
Definition SSOBadState : string := "state".
Definition SSOExchange : string := "exchange".
Definition SSOBadToken : string := "token".
Definition SSONoEmail : string := "no_email".
Definition SSOUnverified : string := "email_unverified".
Definition SSOUnauthorized : string := "unauthorized".
Definition SSOEmailTaken : string := "email_taken".
Definition SSODisabled : string := "disabled".
Definition SSOProvider : string := "provider_error".

Inductive sso_error := SSOError (code : string) | OtherError (e : auth_error).

Definition LoginTTL : duration := 10 * Minute.
Definition sealContext : string := "oidc-login".

(** ** Who a token's groups make of somebody *)

Definition contains (l : list string) (s : string) : bool := existsb (String.eqb s) l.

Definition role (c : OIDCConfig) (groups : list string) : string :=
  if existsb (contains (oc_AdminGroups c)) groups then RoleAdmin
  else if existsb (contains (oc_HelpdeskGroups c)) groups then RoleHelpdesk
  else if existsb (contains (oc_ReadOnlyGroups c)) groups then RoleReadOnly
  else EmptyString.

Record ssoScope := mkSsoScope { sc_managed : bool; sc_fleet : bool; sc_groups : list string }.

(** The names not seen before, up to case. *)
Fixpoint unseen (seen : list string) (names : list string) : list string :=
  match names with
  | [] => []
  | n :: names => if contains seen (ToLower n) then unseen seen names else n :: unseen (ToLower n :: seen) names
  end.

Definition scope (c : OIDCConfig) (groups : list string) : ssoScope :=
  if negb (ManagesScopes c) then mkSsoScope false false []
  else if existsb (contains (oc_FleetGroups c)) groups then mkSsoScope true true []
  else mkSsoScope true false (order_by String.leb (unseen [] (concat (map (fun g => default [] (oc_ScopeGroups c !! g)) groups)))).

Definition stringClaim (claims : gmap string json) (name : string) : string :=
  match claims !! name with Some (JStr s) => TrimSpace s | _ => EmptyString end.

Definition listClaim (claims : gmap string json) (name : string) : list string :=
  match claims !! name with
  | Some (JStr s) => [s]
  | Some (JArr l) => omap (fun v => match v with JStr s => Some s | _ => None end) l
  | _ => []
  end.

Definition sameScope (a b : DeviceScope) : bool :=
  match a, b with
  | None, None => true
  | Some a, Some b => (length a =? length b)%nat && forallb (contains a) b
  | _, _ => false
  end.

(** The groups there are, by name, and the names there is none for. *)
Fixpoint named_groups (names : list string) : atx auth_error (list (string * string) * list string) :=
  match names with
  | [] => tret ([], [])
  | name :: names =>
      let* g := lookup_row (GetGroupByName name) in
      let* rest := named_groups names in
      tret (match g with Some g => (g :: rest.1, rest.2) | None => (rest.1, name :: rest.2) end)
  end.

Definition applySSOScope (admin : Admin) (sc : ssoScope) (actor : string) : atx auth_error unit :=
  let* found := (if sc_fleet sc then tret ([], []) else named_groups (sc_groups sc)) in
  let want := if sc_fleet sc then Unscoped else Some (map fst found.1) in
  let* have := db (AdminScope (ad_ID admin)) in
  if sameScope have want then tret tt
  else
    do* db (SetAdminScope (ad_ID admin) want);
    InsertAudit (admin_audit actor "admin.scope_changed" (ad_ID admin)
      ([("email"%string, JStr (ad_Email admin)); ("scoped"%string, JBool (Limited want)); ("method"%string, JStr AuthOIDC)]
       ++ (if Limited want then [("groups"%string, JArr (map JStr (map snd found.1)))] else [])
       ++ (match found.2 with [] => [] | missing => [("unknown_groups"%string, JArr (map JStr missing))] end))).

(** ** The account *)

(** The transaction's value: a refusal's code, or who is signed in. *)
Definition refusal : Type := string + Admin.

Definition refused (email subject target code reason : string) : atx auth_error refusal :=
  do* InsertAudit (admin_audit email "admin.login_refused" target
        [("method"%string, JStr AuthOIDC); ("reason"%string, JStr reason); ("subject"%string, JStr subject)]);
  tret (inl code).

(** Their sessions and tokens go too. *)
Definition cutOff (now : time) (email : string) (existing : option Admin) : atx auth_error unit :=
  match existing with
  | None => tret tt
  | Some a =>
      do* DeleteSessionsForAdmin (ad_ID a);
      let* n := RevokeAPITokensForAdmin (ad_ID a) now in
      if n =? 0 then tret tt
      else InsertAudit (admin_audit email "api_token.revoked" (ad_ID a)
             [("count"%string, jint n); ("reason"%string, JStr "refused by single sign-on")])
  end.

Definition provision (new_id : option string) (now : time) (issuer subject email role : string) : atx auth_error Admin :=
  let* id := needed ErrRandom new_id in
  let admin := mkAdmin id email EmptyString EmptyString role now None None AuthOIDC issuer subject false in
  do* db (AuthStore.CreateAdmin admin);
  do* InsertAudit (admin_audit email "admin.provisioned" id [("role"%string, JStr role); ("issuer"%string, JStr issuer)]);
  tret admin.

Definition refresh (existing : Admin) (email role : string) : atx auth_error Admin :=
  let* admin := (if negb (String.eqb (ad_Email existing) email) || negb (String.eqb (ad_Role existing) role)
                 then do* db (UpdateOIDCAdmin (ad_ID existing) email role); tret (set_ad_identity email role existing)
                 else tret existing) in
  do* (if negb (String.eqb (ad_Role existing) role)
       then InsertAudit (admin_audit email "admin.role_changed" (ad_ID existing)
              [("from"%string, JStr (ad_Role existing)); ("to"%string, JStr role); ("method"%string, JStr AuthOIDC)])
       else tret tt);
  tret admin.

Definition sign_in_body (new_id : option string) (now : time) (issuer subject email role : string) (sc : ssoScope) : atx auth_error refusal :=
  let* existing := lookup_row (GetAdminByOIDC issuer subject) in
  let target := match existing with Some a => ad_ID a | None => EmptyString end in
  if String.eqb role EmptyString then
    do* cutOff now email existing;
    refused email subject target SSOUnauthorized "not in any group mapped to a Retune role"
  else if sc_managed sc && negb (sc_fleet sc) && bool_decide (sc_groups sc = []) then
    do* cutOff now email existing;
    refused email subject target SSOUnauthorized "not in any group mapped to devices"
  else if match existing with Some a => bool_decide (ad_DisabledAt a <> None) | None => false end then
    refused email subject target SSODisabled "the account is disabled in Retune"
  else
    let* other := lookup_row (GetAdminByEmail email) in
    if match other with
       | Some o => match existing with None => true | Some a => negb (String.eqb (ad_ID o) (ad_ID a)) end
       | None => false
       end
    then refused email subject target SSOEmailTaken ("another account already uses " ++ email)%string
    else
      let* admin := match existing with
                    | Some a => refresh a email role
                    | None => provision new_id now issuer subject email role
                    end in
      do* (if sc_managed sc then applySSOScope admin sc email else tret tt);
      do* RecordAdminLogin (ad_ID admin) now;
      do* InsertAudit (mkAudit email "admin.login" "admin" (ad_ID admin) [("method"%string, JStr AuthOIDC)]);
      tret (inr (set_ad_LastLoginAt now admin)).

Definition signIn (new_id : option string) (now : time) (issuer subject email role : string) (sc : ssoScope) : atx sso_error Admin := fun d =>
  match InTx (sign_in_body new_id now issuer subject email role sc) d with
  | (Ok (inr admin), d) => (Ok admin, d)
  | (Ok (inl code), d) => (Err (SSOError code), d)
  | (Err e, d) => (Err (OtherError e), d)
  end.

(** ** The browser's way there and back *)

Record loginState := mkLoginState { l_State : string; l_Nonce : string; l_Verifier : string; l_Expires : Z }.

Definition login_fields : list (field loginState) :=
  [string_field "s" (fun x l => mkLoginState x (l_Nonce l) (l_Verifier l) (l_Expires l));
   string_field "n" (fun x l => mkLoginState (l_State l) x (l_Verifier l) (l_Expires l));
   string_field "v" (fun x l => mkLoginState (l_State l) (l_Nonce l) x (l_Expires l));
   int_field "e" (fun x l => mkLoginState (l_State l) (l_Nonce l) (l_Verifier l) x)].

Definition login_json (l : loginState) : json :=
  JObj [("s"%string, JStr (l_State l)); ("n"%string, JStr (l_Nonce l)); ("v"%string, JStr (l_Verifier l)); ("e"%string, jint (l_Expires l))].

(** An ID token that verified; [None] for claims that cannot be read. *)
Record IDToken := mkIDToken { id_Issuer : string; id_Subject : string; id_Nonce : string; id_Claims : option (gmap string json) }.

Section Sso.
Variable marshal : json -> string.
Variable unmarshal : string -> option json.
Variable key : Key.
(** Whether the provider's configuration can be had: it is fetched once. *)
Variable discovered : bool.
(** [Exchange]: the code and the PKCE verifier; the ID token if there is one. *)
Variable exchange : string -> string -> option (option string).
(** [IDTokenVerifier.Verify], at an instant. *)
Variable verify : string -> time -> option IDToken.
(** [AuthCodeURL]: state, nonce, PKCE verifier. *)
Variable auth_url : string -> string -> string -> string.
Variable config : OIDCConfig.

Definition seal (rand : string) (ls : loginState) : option string :=
  match Seal key rand (marshal (login_json ls)) sealContext with
  | None => None
  | Some (ciphertext, nonce) => Some (EncodeToString URL nonce ++ "." ++ EncodeToString URL ciphertext)%string
  end.

Definition open (cookie : string) : option loginState :=
  match Cut "." cookie with
  | None => None
  | Some (n, c) =>
      match DecodeString URL n, DecodeString URL c with
      | Some nonce, Some ciphertext =>
          match Open_ key ciphertext nonce sealContext with
          | None => None
          | Some plain =>
              match unmarshal plain with
              | None => None
              | Some v => match decode_struct false login_fields v (mkLoginState EmptyString EmptyString EmptyString 0) with Ok ls => Some ls | Err _ => None end
              end
          end
      | _, _ => None
      end
  end.

(** [Start], given what is drawn: state, nonce, verifier, the seal's nonce. *)
Definition Start (state nonce : option string) (verifier rand : string) (now : time) : result sso_error (string * string) :=
  if negb discovered then Err (SSOError SSOUnavailable)
  else match state, nonce with
       | Some state, Some nonce =>
           let state := EncodeToString URL state in
           let nonce := EncodeToString URL nonce in
           match seal rand (mkLoginState state nonce verifier (Unix (Prelude.Add now LoginTTL))) with
           | None => Err (OtherError (ErrSecret SealFailed))
           | Some cookie => Ok (auth_url state nonce verifier, cookie)
           end
       | _, _ => Err (OtherError ErrRandom)
       end.

Record person := mkPerson { pe_Issuer : string; pe_Subject : string; pe_Email : string; pe_Groups : list string }.

(** [Finish], up to the account: who the provider says it is. *)
Definition identify (now : time) (cookie state code : string) : result sso_error person :=
  match open cookie with
  | None => Err (SSOError SSOBadState)
  | Some ls =>
      check! ensure (negb (Unix now >? l_Expires ls)) (SSOError SSOBadState);
      check! ensure (String.eqb state (l_State ls)) (SSOError SSOBadState);
      check! ensure discovered (SSOError SSOUnavailable);
      match exchange code (l_Verifier ls) with
      | None => Err (SSOError SSOExchange)
      | Some token =>
          match token with
          | None | Some EmptyString => Err (SSOError SSOBadToken)
          | Some raw =>
              match verify raw now with
              | None => Err (SSOError SSOBadToken)
              | Some idToken =>
                  check! ensure (String.eqb (id_Nonce idToken) (l_Nonce ls)) (SSOError SSOBadToken);
                  match id_Claims idToken with
                  | None => Err (SSOError SSOBadToken)
                  | Some claims =>
                      check! ensure (match claims !! "email_verified"%string with Some (JBool false) => false | _ => true end) (SSOError SSOUnverified);
                      let email := stringClaim claims "email" in
                      let email := if String.eqb email EmptyString then stringClaim claims "preferred_username" else email in
                      check! ensure (negb (String.eqb email EmptyString)) (SSOError SSONoEmail);
                      Ok (mkPerson (id_Issuer idToken) (id_Subject idToken) email (listClaim claims (oc_GroupsClaim config)))
                  end
              end
          end
      end
  end.

Definition Finish (new_id : option string) (now : time) (cookie state code : string) : atx sso_error Admin :=
  match identify now cookie state code with
  | Err e => tfail e
  | Ok p => signIn new_id now (pe_Issuer p) (pe_Subject p) (pe_Email p) (role config (pe_Groups p)) (scope config (pe_Groups p))
  end.
End Sso.
