(* ===== verification/AuthLife.v ===== *)
(** * Any number of requests

    The operations of sign-in as one alphabet, and what holds over every
    sequence of them: there is always somebody who can manage the fleet, and
    who may do what only changes by the operations meant to. *)
From S2P Require Export Auth.
From S2P Require Export Sso.
Open Scope Z_scope.
Open Scope go_scope.

(** ** What the statements of sign-in keep

    Relations between two states of the tables that every statement keeps, or
    all but a few, and the tactic that follows them through an operation. *)

(** ** Following a relation through a transaction *)

Create HintDb auth.

Section Steps.
Context (R : adb -> adb -> Prop) `{!PreOrder R}.

Lemma keeps_row_or {E A} (e : E) (o : option A) : tkeeps R (row_or e o : atx E A).
Proof. destruct o; [by apply keeps_ret | by apply keeps_fail]. Qed.

Lemma tkeeps_ensure {E} c (e : E) : tkeeps R (tensure c e : atx E unit).
Proof. unfold tensure. destruct c; [by apply keeps_ret | by apply keeps_fail]. Qed.

Lemma keeps_get {E A} (f : adb -> A) : tkeeps R (aget f : atx E A).
Proof. intros d. simpl. reflexivity. Qed.

Lemma tkeeps_lookup {A} (m : atx db_error A) : tkeeps R m -> tkeeps R (lookup_row m).
Proof. intros Hm d. unfold lookup_row. specialize (Hm d). by destruct (m d) as [[a|[]] d']. Qed.

(** A statement that only reads. *)
Lemma keeps_reads {E A} (m : atx E A) : (forall d, (m d).2 = d) -> tkeeps R m.
Proof. intros Hm d. rewrite Hm. reflexivity. Qed.
End Steps.

Lemma row_or_reads {E A} (e : E) (o : option A) d : (row_or e o d).2 = d.
Proof. by destruct o. Qed.

Ltac reads := intros d; unfold GetAdmin, GetAdminByEmail, GetAdminByOIDC, GetSessionWithAdmin, GetUsableAPIToken, GetAPIToken, GetGroup, GetGroupByName, AdminScope;
  first [apply row_or_reads | repeat (case_match; try reflexivity)].

Lemma GetAdmin_reads id d : (GetAdmin id d).2 = d. Proof. revert d. reads. Qed.
Lemma GetAdminByEmail_reads e d : (GetAdminByEmail e d).2 = d. Proof. revert d. reads. Qed.
Lemma GetAdminByOIDC_reads i s d : (GetAdminByOIDC i s d).2 = d. Proof. revert d. reads. Qed.
Lemma GetSessionWithAdmin_reads h d : (GetSessionWithAdmin h d).2 = d. Proof. revert d. reads. Qed.
Lemma GetUsableAPIToken_reads h n d : (GetUsableAPIToken h n d).2 = d. Proof. revert d. reads. Qed.
Lemma GetAPIToken_reads id d : (GetAPIToken id d).2 = d. Proof. revert d. reads. Qed.
Lemma GetGroup_reads id d : (GetGroup id d).2 = d. Proof. revert d. reads. Qed.
Lemma GetGroupByName_reads n d : (GetGroupByName n d).2 = d. Proof. revert d. reads. Qed.
Lemma AdminScope_reads id d : (AdminScope id d).2 = d. Proof. revert d. reads. Qed.

#[export] Hint Resolve GetAdmin_reads GetAdminByEmail_reads GetAdminByOIDC_reads GetSessionWithAdmin_reads GetUsableAPIToken_reads
  GetAPIToken_reads GetGroup_reads GetGroupByName_reads AdminScope_reads : auth.

(** Split an operation into its statements; those left are the ones that write. *)
Ltac statements :=
  repeat lazymatch goal with
  | |- tkeeps ?R (tret _) => apply (keeps_ret R)
  | |- tkeeps ?R (tfail _) => apply (keeps_fail R)
  | |- tkeeps ?R (tensure _ _) => apply (tkeeps_ensure R)
  | |- tkeeps ?R (row_or _ _) => apply (keeps_row_or R)
  | |- tkeeps ?R (needed _ _) => apply (keeps_row_or R)
  | |- tkeeps ?R (aget _) => apply (keeps_get R)
  | |- tkeeps ?R ListAdmins => apply (keeps_get R)
  | |- tkeeps ?R CountAdmins => apply (keeps_get R)
  | |- tkeeps ?R (not_sso _) => apply (tkeeps_ensure R)
  | |- tkeeps ?R (randomToken ?r) => destruct r; simpl
  | |- tkeeps ?R (lookup_row _) => apply (tkeeps_lookup R)
  | |- tkeeps ?R (tmap_err _ _) => apply (keeps_map_err R)
  | |- tkeeps ?R (db _) => apply (keeps_map_err R)
  | |- tkeeps ?R (InTx _) => apply (keeps_InTx R)
  | |- tkeeps ?R (tbind _ _) => apply (keeps_bind R); [|intros ?]
  | |- tkeeps ?R (let (_, _) := ?x in _) => destruct x
  | |- tkeeps ?R (match ?x with _ => _ end) => destruct x
  | |- tkeeps ?R (GetAdmin _) => apply (keeps_reads R); auto with auth
  | |- tkeeps ?R (GetAdminByEmail _) => apply (keeps_reads R); auto with auth
  | |- tkeeps ?R (GetAdminByOIDC _ _) => apply (keeps_reads R); auto with auth
  | |- tkeeps ?R (GetSessionWithAdmin _) => apply (keeps_reads R); auto with auth
  | |- tkeeps ?R (GetUsableAPIToken _ _) => apply (keeps_reads R); auto with auth
  | |- tkeeps ?R (GetAPIToken _) => apply (keeps_reads R); auto with auth
  | |- tkeeps ?R (GetGroup _) => apply (keeps_reads R); auto with auth
  | |- tkeeps ?R (GetGroupByName _) => apply (keeps_reads R); auto with auth
  | |- tkeeps ?R (AdminScope _) => apply (keeps_reads R); auto with auth
  end.

(** ** Rows that only change so *)

(** Every row is still there, changed as [r] allows. *)
Definition evolve {A} (get : adb -> list A) (r : A -> A -> Prop) (d d' : adb) : Prop :=
  forall x, x ∈ get d -> exists y, y ∈ get d' /\ r x y.

#[export] Instance evolve_preorder {A} (get : adb -> list A) (r : A -> A -> Prop) `{!PreOrder r} : PreOrder (evolve get r).
Proof.
  split.
  - intros d x Hx. exists x. by split.
  - intros d1 d2 d3 H12 H23 x Hx. destruct (H12 x Hx) as (y & Hy & Hxy). destruct (H23 y Hy) as (z & Hz & Hyz). exists z. split; [done|]. by etrans.
Qed.

Section Evolve.
Context {A : Type} (get : adb -> list A) (r : A -> A -> Prop) `{!PreOrder r}.

Lemma evolve_same d d' : get d' = get d -> evolve get r d d'.
Proof. intros He x Hx. exists x. rewrite He. split; [done|reflexivity]. Qed.

Lemma evolve_app d d' l : get d' = get d ++ l -> evolve get r d d'.
Proof. intros He x Hx. exists x. rewrite He. split; [set_solver|reflexivity]. Qed.

Lemma evolve_update p f d d' : get d' = update_where p f (get d) -> (forall x, x ∈ get d -> p x = true -> r x (f x)) -> evolve get r d d'.
Proof.
  intros He Hf x Hx. exists (if p x then f x else x). rewrite He. split; [by apply update_where_in|].
  destruct (p x) eqn:E; [by apply Hf|reflexivity].
Qed.
End Evolve.

(** What an administrator may do, and who they are. *)
Definition same_rights (x y : admin_row) : Prop :=
  ad_ID (r_Admin y) = ad_ID (r_Admin x) /\ ad_Role (r_Admin y) = ad_Role (r_Admin x) /\ ad_DisabledAt (r_Admin y) = ad_DisabledAt (r_Admin x) /\
  ad_Scoped (r_Admin y) = ad_Scoped (r_Admin x).
#[export] Instance same_rights_preorder : PreOrder same_rights.
Proof. split; [by intros x|]. intros x y z (? & ? & ? & ?) (? & ? & ? & ?). repeat split; congruence. Qed.

Abbreviation keep_rights := (evolve t_admins same_rights).

(** An account's secret stays and its codes count up, once the secret is
    sealed. *)
Definition codes_count_up (id : string) (x y : admin_row) : Prop :=
  ad_ID (r_Admin y) = ad_ID (r_Admin x) /\
  (ad_ID (r_Admin x) = id -> IsSealedTOTP (ad_TOTPSecret (r_Admin x)) = true ->
     ad_TOTPSecret (r_Admin y) = ad_TOTPSecret (r_Admin x) /\ r_LastStep x <= r_LastStep y).
#[export] Instance codes_count_up_preorder id : PreOrder (codes_count_up id).
Proof.
  split; [by intros x|]. intros x y z (Hi & H1) (Hi' & H2). split; [congruence|]. intros Hx Hs. destruct (H1 Hx Hs) as [E1 L1].
  destruct H2 as [E2 L2]; [congruence|by rewrite E1|]. split; [congruence|lia].
Qed.

(** A token keeps what it was made with, and once revoked stays so. *)
Definition token_kept (x y : APIToken) : Prop :=
  tk_ID y = tk_ID x /\ tk_TokenHash y = tk_TokenHash x /\ tk_Role y = tk_Role x /\ tk_CreatedByID y = tk_CreatedByID x /\
  tk_ExpiresAt y = tk_ExpiresAt x /\ (live_token x = false -> tk_RevokedAt y = tk_RevokedAt x).
#[export] Instance token_kept_preorder : PreOrder token_kept.
Proof.
  split; [by intros x|]. intros x y z (? & ? & ? & ? & ? & H) (? & ? & ? & ? & ? & H'). repeat split; try congruence.
  intros Hx. rewrite <- (H Hx). apply H'. unfold live_token in *. by rewrite (H Hx).
Qed.

(** ** What counting and auditing leave alone *)

Definition same_tables (d d' : adb) : Prop :=
  t_admins d' = t_admins d /\ t_sessions d' = t_sessions d /\ t_tokens d' = t_tokens d /\ t_scopes d' = t_scopes d /\ t_groups d' = t_groups d.

Class Counts (R : adb -> adb -> Prop) : Prop := counting : forall d d', same_tables d d' -> R d d'.

#[export] Instance evolve_admins_counts r `{!PreOrder r} : Counts (evolve t_admins r).
Proof. intros d d' H. apply evolve_same; [done|apply H]. Qed.
#[export] Instance evolve_sessions_counts r `{!PreOrder r} : Counts (evolve t_sessions r).
Proof. intros d d' H. apply evolve_same; [done|apply H]. Qed.
#[export] Instance evolve_tokens_counts r `{!PreOrder r} : Counts (evolve t_tokens r).
Proof. intros d d' H. apply evolve_same; [done|apply H]. Qed.

Definition counted_only (d d' : adb) : Prop := same_tables d d' /\ t_audit d' = t_audit d.

(** The laws of a [Throttle]: it counts, and does nothing else. *)
Record throttle_counts (t : Throttle) : Prop := {
  Allowed_only key now d : counted_only d (Allowed t key now d).2;
  Fail_only key now d : counted_only d (Fail_ t key now d);
  Reset_only key d : counted_only d (Reset_ t key d) }.

Lemma Allowed_counts t key now d : throttle_counts t -> same_tables d (Allowed t key now d).2.
Proof. intros Ht. apply Ht. Qed.
Lemma Fail_counts t key now d : throttle_counts t -> same_tables d (Fail_ t key now d).
Proof. intros Ht. apply Ht. Qed.
Lemma Reset_counts t key d : throttle_counts t -> same_tables d (Reset_ t key d).
Proof. intros Ht. apply Ht. Qed.

Lemma storeThrottle_counts t : throttle_counts (storeThrottle t).
Proof. by split. Qed.

Lemma memoryThrottle_counts order : throttle_counts (memoryThrottle order).
Proof. split; [|done|done]. intros key now d. simpl. by destruct (LimiterAllowed key now (t_limiter d)). Qed.

Definition service_counts (s : Service) : Prop :=
  forall t, t ∈ [s_Limiter s; s_Throttle s; s_IPThrottle s] -> match t with Some t => throttle_counts t | None => True end.

Lemma service_throttle s t : service_counts s -> throttle s = Some t -> throttle_counts t.
Proof.
  intros Hs. unfold throttle. destruct (s_Throttle s) as [t'|] eqn:E; [intros [= <-]; apply (Hs (Some t')); set_solver|].
  intros E'. apply (Hs (Some t)). set_solver.
Qed.

Lemma service_ip_throttle s t : service_counts s -> s_IPThrottle s = Some t -> throttle_counts t.
Proof. intros Hs E. apply (Hs (Some t)). set_solver. Qed.

Section Counting.
Context (R : adb -> adb -> Prop) `{!PreOrder R, !Counts R}.

Lemma keeps_audit {E} a : tkeeps R (InsertAudit a : atx E unit).
Proof. intros d. by apply counting. Qed.

Lemma keeps_ask t key now : throttle_counts t -> tkeeps R (ask t key now).
Proof.
  intros Ht d. unfold ask. pose proof (Allowed_counts t key now d Ht) as H. destruct (Allowed t key now d) as [ok d']. simpl in H.
  by destruct ok; apply counting.
Qed.

Lemma keeps_ask_account s key now : service_counts s -> tkeeps R (ask_account s key now).
Proof.
  intros Hs. unfold ask_account. destruct (throttle s) as [t|] eqn:E; [|by apply keeps_ret]. apply keeps_ask. by eapply service_throttle.
Qed.

Lemma keeps_ask_address s ip now : service_counts s -> tkeeps R (ask_address s ip now).
Proof.
  intros Hs. unfold ask_address. destruct (s_IPThrottle s) as [t|] eqn:E; [|by apply keeps_ret].
  destruct (String.eqb ip EmptyString); [by apply keeps_ret|]. apply keeps_ask. by eapply service_ip_throttle.
Qed.

Lemma keeps_fail_ s w key ip : service_counts s -> tkeeps R (fail s w key ip).
Proof.
  intros Hs. unfold fail. apply (keeps_bind R).
  - intros d. destruct (throttle s) as [t|] eqn:E; simpl; [|reflexivity]. apply counting. eapply Fail_counts, service_throttle; done.
  - intros _ d. destruct (s_IPThrottle s) as [t|] eqn:E; simpl; [|reflexivity]. destruct (String.eqb ip EmptyString); [reflexivity|].
    apply counting. eapply Fail_counts, service_ip_throttle; done.
Qed.

Lemma keeps_failing {A} s w key ip e : service_counts s -> tkeeps R (failing s w key ip e : atx auth_error A).
Proof. intros Hs. unfold failing. apply (keeps_bind R); [by apply keeps_fail_|]. intros _. by apply keeps_fail. Qed.

Lemma keeps_reset {E} s key : service_counts s ->
  tkeeps R (aset (fun d => match throttle s with Some t => Reset_ t key d | None => d end) : atx E unit).
Proof.
  intros Hs d. destruct (throttle s) as [t|] eqn:E'; simpl; [|reflexivity]. apply counting. eapply Reset_counts, service_throttle; done.
Qed.
End Counting.

#[export] Hint Resolve keeps_audit keeps_ask_account keeps_ask_address keeps_failing keeps_reset : auth.
#[export] Hint Extern 1 (PreOrder _) => apply _ : auth.
#[export] Hint Extern 1 (Counts _) => apply _ : auth.

(** What is left of an operation once its reads and its control flow are gone
    is statements that write; each leaves the rows of a table alone, adds to
    them, or updates those that match. *)
Ltac written r :=
  intros ?d; first
  [ apply evolve_same; [apply _|reflexivity]
  | eapply evolve_app; [apply _|reflexivity]
  | eapply evolve_update; [apply _|reflexivity|intros ?x _ ?Hp; unfold r; simpl in *; try done] ].

Ltac follow := statements; try solve [auto with auth].

Section Statements.
Context (r : admin_row -> admin_row -> Prop) `{!PreOrder r}.

Lemma CreateAdmin_evolves a : tkeeps (evolve t_admins r) (AuthStore.CreateAdmin a).
Proof. intros d. unfold AuthStore.CreateAdmin. destruct (_ || _); [reflexivity|]. eapply evolve_app; [done|reflexivity]. Qed.

Lemma CreateSession_evolves x : tkeeps (evolve t_admins r) (AuthStore.CreateSession x).
Proof. intros d. unfold AuthStore.CreateSession. destruct (_ || _); [reflexivity|]. by apply evolve_same. Qed.

Lemma CreateAPIToken_evolves x : tkeeps (evolve t_admins r) (AuthStore.CreateAPIToken x).
Proof. intros d. unfold AuthStore.CreateAPIToken. repeat (destruct (_ : bool); try reflexivity). by apply evolve_same. Qed.

Lemma update_admin_evolves {E} id f :
  (forall x, is_admin id x = true -> r x (mkRow (f (r_Admin x)) (r_LastStep x))) -> tkeeps (evolve t_admins r) (update_admin id f : atx E unit).
Proof. intros Hf d. eapply evolve_update; [done|reflexivity|]. intros x _. apply Hf. Qed.

(** A statement that writes to another table. *)
Lemma other_table_evolves {E A} (m : atx E A) : (forall d, t_admins (m d).2 = t_admins d) -> tkeeps (evolve t_admins r) m.
Proof. intros Hm d. by apply evolve_same. Qed.
End Statements.

#[export] Hint Resolve CreateAdmin_evolves CreateSession_evolves CreateAPIToken_evolves : auth.
#[export] Hint Extern 2 (tkeeps (evolve t_admins _) _) => (apply other_table_evolves; [apply _|intros ?; reflexivity]) : auth.

Lemma insert_scopes_admins id gs d : t_admins (insert_scopes id gs d).2 = t_admins d.
Proof.
  revert d. induction gs as [|g gs IH]; intros d; simpl; [done|]. unfold tbind, insert_scope.
  repeat (destruct (_ : bool); simpl; try done); rewrite IH; done.
Qed.
#[export] Hint Extern 2 (tkeeps (evolve t_admins _) (insert_scopes _ _)) => (apply other_table_evolves; [apply _|apply insert_scopes_admins]) : auth.

Inductive op :=
| OpSignIn (w : readings) (slot : hash_slot) (ip email password code : string)
| OpCreateSession (rand1 rand2 : option string) (now : time) (adminID userAgent ip : string)
| OpValidateSession (now : time) (token : string)
| OpDeleteSession (token : string)
| OpSweepSessions (now : time)
| OpSetScope (id : string) (groups : DeviceScope) (actor : string)
| OpCreateAdmin (salt new_id : option string) (now : time) (o : CreateAdminOptions)
| OpSetPassword (salt : option string) (id password actor : string)
| OpEnableTOTP (generated : string -> string -> option (string * string)) (rand id actor : string)
| OpDisableTOTP (id actor : string)
| OpSealTOTP (rand : nat -> string)
| OpSetDisabled (now : time) (id : string) (disabled : bool) (actor : string)
| OpCreateAPIToken (rand new_id : option string) (now : time) (n : NewAPIToken)
| OpUseAPIToken (now : time) (plain : string)
| OpRevokeAPIToken (now : time) (id actor : string)
| OpDeleteGroup (id : string)
| OpSSO (new_id : option string) (now : time) (issuer subject email role : string) (sc : ssoScope).

Section Life.
Variable IDKey : string -> string -> Z -> Z -> Z -> Z -> string.
Variable GenerateCode : string -> time -> option string.
Variable hashToken : string -> string.
Variable json_time : time -> string.
Variable dummyHash : string.
Variable s : Service.

Definition apply (o : op) (d : adb) : adb :=
  match o with
  | OpSignIn w slot ip email password code => (AuthenticateFrom IDKey GenerateCode dummyHash s w slot ip email password code d).2
  | OpCreateSession r1 r2 now id ua ip => (CreateSession hashToken s r1 r2 now id ua ip d).2
  | OpValidateSession now token => (ValidateSession hashToken s now token d).2
  | OpDeleteSession token => (DeleteSession hashToken token d).2
  | OpSweepSessions now => (@DeleteExpiredSessions auth_error now d).2
  | OpSetScope id groups actor => (SetScope s id groups actor d).2
  | OpCreateAdmin salt id now o => (CreateAdmin IDKey salt id now o d).2
  | OpSetPassword salt id password actor => (SetPassword IDKey salt id password actor d).2
  | OpEnableTOTP g rand id actor => (EnableTOTP s g rand id actor d).2
  | OpDisableTOTP id actor => (DisableTOTP id actor d).2
  | OpSealTOTP rand => (SealTOTPSecrets s rand d).2
  | OpSetDisabled now id disabled actor => (SetDisabled now id disabled actor d).2
  | OpCreateAPIToken rand id now n => (CreateAPIToken hashToken json_time rand id now n d).2
  | OpUseAPIToken now plain => (AuthenticateAPIToken hashToken now plain d).2
  | OpRevokeAPIToken now id actor => (RevokeAPIToken now id actor d).2
  | OpDeleteGroup id => (@DeleteGroup auth_error id d).2
  | OpSSO id now issuer subject email role sc => (signIn id now issuer subject email role sc d).2
  end.

Definition history (ops : list op) (d : adb) : adb := foldl (fun d o => apply o d) d ops.

Lemma history_keeps (R : adb -> adb -> Prop) `{!PreOrder R} (P : op -> Prop) ops d :
  (forall o d, P o -> R d (apply o d)) -> Forall P ops -> R d (history ops d).
Proof.
  intros Hs Hf. unfold history. revert d. induction Hf as [|o ops Ho _ IH]; intros d; simpl; [reflexivity|]. etrans; [by apply Hs|]. apply IH.
Qed.

(** An operation that goes through for sign-in is the second component of a
    transaction that keeps the relation. *)
Lemma tkeeps_apply {E A} (R : adb -> adb -> Prop) (m : atx E A) d : tkeeps R m -> R d (m d).2.
Proof. intros Hm. apply Hm. Qed.

(** ** Rights *)

Hypothesis service_counts_only : service_counts s.

Lemma update_rights {E} id f :
  (forall a, ad_ID (f a) = ad_ID a /\ ad_Role (f a) = ad_Role a /\ ad_DisabledAt (f a) = ad_DisabledAt a /\ ad_Scoped (f a) = ad_Scoped a) ->
  tkeeps keep_rights (update_admin id f : atx E unit).
Proof. intros Hf. apply update_admin_evolves; [apply _|]. intros x _. apply Hf. Qed.

Lemma totp_rights {E} id sec : tkeeps keep_rights (UpdateAdminTOTP id sec : atx E unit).
Proof. intros d. eapply evolve_update; [apply _|reflexivity|]. by intros x. Qed.
Lemma claim_rights {E} id step : tkeeps keep_rights (ClaimTOTPStep id step : atx E bool).
Proof. intros d. eapply evolve_update; [apply _|reflexivity|]. by intros x. Qed.
Lemma replace_rights {E} id old sealed : tkeeps keep_rights (ReplaceTOTPSecret id old sealed : atx E unit).
Proof. intros d. eapply evolve_update; [apply _|reflexivity|]. by intros x. Qed.
#[local] Hint Resolve totp_rights claim_rights replace_rights : auth.
#[local] Hint Extern 1 (tkeeps keep_rights (RecordAdminLogin _ _)) => (apply update_rights; done) : auth.
#[local] Hint Extern 1 (tkeeps keep_rights (UpdateAdminPassword _ _)) => (apply update_rights; done) : auth.

Lemma seal_secrets_keep (R : adb -> adb -> Prop) `{!PreOrder R} key rand secrets : forall n d,
  (forall id old sealed, (id, old) ∈ secrets -> tkeeps R (ReplaceTOTPSecret id old sealed : atx auth_error unit)) ->
  R d (seal_secrets key rand n secrets d).2.
Proof.
  induction secrets as [|[id sec] l IH]; intros n d HR; simpl; [reflexivity|]. destruct (sealTOTP key (rand n) id sec) as [sealed|e] eqn:E; simpl; [|reflexivity].
  etrans; [|apply IH; intros i o sl Hin; apply HR; by right]. apply (HR id sec sealed). by left.
Qed.

(** The operations that may change what somebody may do. *)
Definition changes_rights (o : op) : bool :=
  match o with OpSetScope _ _ _ | OpSetDisabled _ _ _ _ | OpSSO _ _ _ _ _ _ _ => true | _ => false end.

Lemma rights_kept o d : changes_rights o = false -> keep_rights d (apply o d).
Proof.
  destruct o; intros Ho; try done; cbn [apply]; try apply (tkeeps_apply keep_rights).
  - unfold AuthenticateFrom, verifyPassword, check_code, signed_in. follow.
  - unfold CreateSession. follow.
  - unfold ValidateSession. follow.
  - unfold DeleteSession. follow.
  - follow.
  - unfold CreateAdmin. follow.
  - unfold SetPassword. follow.
  - unfold EnableTOTP. follow.
  - unfold DisableTOTP. follow.
  - unfold SealTOTPSecrets. apply seal_secrets_keep; [apply _|]. auto with auth.
  - unfold CreateAPIToken. follow.
  - unfold AuthenticateAPIToken. follow.
  - unfold RevokeAPIToken. follow.
  - follow.
Qed.
End Life.
