(* ===== verification/AuthInv.v ===== *)
(** * The tables stay consistent

    What the constraints of the migrations and the statements together keep:
    nobody shares an id, an address or an identity at the provider; a row has a
    role and an identity exactly if it is the provider's; sessions, tokens and
    scopes belong to somebody. *)
From S2P Require Export AuthLife.

Open Scope Z_scope.
Open Scope go_scope.

(** What the constraints look at of a row. *)
Record row_key := mkRowKey { rk_ID : string; rk_Email : string; rk_Identity : option (string * string); rk_Allowed : bool; rk_Source : string }.

Definition identity_of (a : Admin) : option (string * string) :=
  if String.eqb (ad_OIDCSubject a) EmptyString then None else Some (ad_OIDCIssuer a, ad_OIDCSubject a).
Definition key_of (r : admin_row) : row_key :=
  mkRowKey (ad_ID (r_Admin r)) (ToLower (ad_Email (r_Admin r))) (identity_of (r_Admin r)) (row_allowed (r_Admin r)) (ad_AuthSource (r_Admin r)).

Record keys_ok (ks : list row_key) : Prop := {
  ko_ids : NoDup (map rk_ID ks);
  ko_emails : NoDup (map rk_Email ks);
  ko_identities : NoDup (omap rk_Identity ks);
  ko_rows : Forall (fun k => rk_Allowed k = true) ks }.

Definition known (ks : list row_key) (id : string) : Prop := id ∈ map rk_ID ks.

Record Inv (d : adb) : Prop := {
  inv_admins : keys_ok (map key_of (t_admins d));
  inv_hashes : NoDup (map sn_TokenHash (t_sessions d));
  inv_sessions : Forall (fun x => known (map key_of (t_admins d)) (sn_AdminID x)) (t_sessions d);
  inv_tokens : NoDup (map tk_ID (t_tokens d)) /\ NoDup (map tk_TokenHash (t_tokens d));
  inv_names : NoDup (map (fun t => ToLower (tk_Name t)) (List.filter live_token (t_tokens d)));
  inv_makers : Forall (fun t => ValidRole (tk_Role t) = true /\ known (map key_of (t_admins d)) (tk_CreatedByID t)) (t_tokens d);
  inv_scopes : NoDup (t_scopes d);
  inv_scoped : Forall (fun x => known (map key_of (t_admins d)) x.1 /\ x.2 ∈ map fst (t_groups d)) (t_scopes d) }.

Definition keeps_inv (d d' : adb) : Prop := Inv d -> Inv d'.
#[export] Instance keeps_inv_preorder : PreOrder keeps_inv.
Proof. split; unfold keeps_inv; [by intros d|]. intros a b c. auto. Qed.

Lemma same_tables_inv d d' : same_tables d d' -> Inv d -> Inv d'.
Proof. intros (Ea & Es & Et & Esc & Eg) [? ? ? ? ? ? ? ?]. by split; rewrite ?Ea, ?Es, ?Et, ?Esc, ?Eg. Qed.
#[export] Instance keeps_inv_counts : Counts keeps_inv.
Proof. intros d d' H. unfold keeps_inv. by apply same_tables_inv. Qed.

(** ** Statements on [admins] *)

(** An update that no constraint looks at. *)
Lemma inv_same_keys d d' :
  map key_of (t_admins d') = map key_of (t_admins d) -> t_sessions d' = t_sessions d -> t_tokens d' = t_tokens d -> t_scopes d' = t_scopes d ->
  t_groups d' = t_groups d -> Inv d -> Inv d'.
Proof. intros Ek Es Et Esc Eg [? ? ? ? ? ? ? ?]. by split; rewrite ?Ek, ?Es, ?Et, ?Esc, ?Eg. Qed.

Lemma update_keys_inv {E A} (m : atx E A) p f :
  (forall d, t_admins (m d).2 = update_where p f (t_admins d) /\ t_sessions (m d).2 = t_sessions d /\ t_tokens (m d).2 = t_tokens d /\
     t_scopes (m d).2 = t_scopes d /\ t_groups (m d).2 = t_groups d) ->
  (forall r, key_of (f r) = key_of r) -> tkeeps keeps_inv m.
Proof.
  intros Hm Hf d. destruct (Hm d) as (Ha & Es & Et & Esc & Eg). unfold keeps_inv. apply inv_same_keys; try done.
  rewrite Ha. by apply update_where_map.
Qed.

Lemma update_admin_inv {E} id f : (forall r, key_of (mkRow (f (r_Admin r)) (r_LastStep r)) = key_of r) -> tkeeps keeps_inv (update_admin id f : atx E unit).
Proof. intros Hf. by eapply update_keys_inv; [|exact Hf]. Qed.

Lemma totp_inv {E} id sec : tkeeps keeps_inv (UpdateAdminTOTP id sec : atx E unit).
Proof. by eapply update_keys_inv with (f := fun r => mkRow (set_ad_TOTPSecret sec (r_Admin r)) 0). Qed.
Lemma claim_inv {E} id step : tkeeps keeps_inv (ClaimTOTPStep id step : atx E bool).
Proof. by eapply update_keys_inv with (f := fun r => mkRow (r_Admin r) step). Qed.
Lemma replace_inv {E} id old sealed : tkeeps keeps_inv (ReplaceTOTPSecret id old sealed : atx E unit).
Proof. by eapply update_keys_inv with (f := fun r => mkRow (set_ad_TOTPSecret sealed (r_Admin r)) (r_LastStep r)). Qed.

#[export] Hint Extern 1 (tkeeps keeps_inv (RecordAdminLogin _ _)) => (apply update_admin_inv; done) : auth.
#[export] Hint Extern 1 (tkeeps keeps_inv (UpdateAdminPassword _ _)) => (apply update_admin_inv; done) : auth.
#[export] Hint Extern 1 (tkeeps keeps_inv (SetAdminDisabled _ _)) => (apply update_admin_inv; done) : auth.
#[export] Hint Extern 1 (tkeeps keeps_inv (update_admin _ (set_ad_Scoped _))) => (apply update_admin_inv; done) : auth.
#[export] Hint Resolve totp_inv claim_inv replace_inv : auth.

(** More rows make no reference dangle. *)
Lemma inv_more_admins d ks rows :
  t_admins d = rows -> keys_ok (map key_of ks) -> (forall id, known (map key_of rows) id -> known (map key_of ks) id) -> Inv d -> Inv (set_t_admins ks d).
Proof.
  intros <- Hk Hkn [? ? Hs ? ? Hm ? Hsc]. split; try done; simpl.
  - eapply Forall_impl; [exact Hs|]. auto.
  - eapply Forall_impl; [exact Hm|]. naive_solver.
  - eapply Forall_impl; [exact Hsc|]. naive_solver.
Qed.

Lemma elem_of_omap_keys (ks : list row_key) i : i ∈ omap rk_Identity ks <-> exists k, k ∈ ks /\ rk_Identity k = Some i.
Proof. apply list_elem_of_omap. Qed.

Lemma create_admin_inv a : tkeeps keeps_inv (AuthStore.CreateAdmin a).
Proof.
  intros d. unfold AuthStore.CreateAdmin, keeps_inv. destruct (negb _ || existsb _ _) eqn:E; [done|]. cbn [snd]. intros HI.
  apply orb_false_iff in E as [Hrow%negb_false_iff Hex]. rewrite existsb_none in Hex.
  assert (forall k, k ∈ map key_of (t_admins d) -> rk_ID k <> ad_ID a /\ rk_Email k <> ToLower (ad_Email a) /\
            (forall i, rk_Identity k = Some i -> identity_of (inserted a) = Some i -> False)) as Hnew.
  { intros k (r & -> & Hr)%list_elem_of_fmap. specialize (Hex r Hr). apply orb_false_iff in Hex as [[Hid Hem]%orb_false_iff Hident].
    unfold is_admin, has_email in *. rewrite String.eqb_neq in Hid, Hem. split; [done|]. split; [done|].
    unfold key_of, identity_of. simpl. unfold has_identity in Hident.
    destruct (String.eqb_spec (ad_OIDCSubject (r_Admin r)) EmptyString); [done|]. destruct (String.eqb_spec (ad_OIDCSubject a) EmptyString); [done|].
    intros i [= <-] [= He1 He2]. rewrite He1, He2, !String.eqb_refl in Hident. done. }
  eapply inv_more_admins; [done| |intros id; unfold known; rewrite !map_app; set_solver|done].
  destruct (inv_admins d HI) as [Hi He Hd Ha]. rewrite map_app. split.
  - rewrite map_app. apply NoDup_app. split; [done|]. split; [|apply NoDup_singleton].
    intros i (k & -> & Hk)%list_elem_of_fmap Hin. apply list_elem_of_singleton in Hin. destruct (Hnew k Hk) as (H1 & _). by apply H1.
  - rewrite map_app. apply NoDup_app. split; [done|]. split; [|apply NoDup_singleton].
    intros i (k & -> & Hk)%list_elem_of_fmap Hin. apply list_elem_of_singleton in Hin. destruct (Hnew k Hk) as (_ & H1 & _). by apply H1.
  - rewrite omap_app. apply NoDup_app. split; [done|]. cbn [omap list_omap map rk_Identity key_of r_Admin]. split.
    + intros i (k & Hk & Hki)%elem_of_omap_keys Hin. destruct (Hnew k Hk) as (_ & _ & H1). apply (H1 i Hki).
      destruct (identity_of (inserted a)); [|by apply elem_of_nil in Hin]. apply list_elem_of_singleton in Hin. by subst.
    + destruct (identity_of (inserted a)); [apply NoDup_singleton|constructor].
  - apply Forall_app. split; [done|]. by repeat constructor.
Qed.
#[export] Hint Resolve create_admin_inv : auth.

Lemma update_oidc_inv id email role : tkeeps keeps_inv (UpdateOIDCAdmin id email role).
Proof.
  intros d. unfold UpdateOIDCAdmin, keeps_inv. set (mine := fun r => is_admin id r && _). destruct (existsb mine _ && _) eqn:E; [done|]. cbn [snd].
  set (f := fun r => mkRow (set_ad_identity email role (r_Admin r)) (r_LastStep r)). intros HI.
  destruct (existsb mine (t_admins d)) eqn:Em; cycle 1.
  { rewrite existsb_none in Em. rewrite update_where_none by done. by destruct d. }
  apply orb_false_iff in E as [Hrole%negb_false_iff Hemail]. rewrite existsb_none in Hemail.
  destruct (inv_admins d HI) as [Hi He Hd Ha].
  assert (forall A (g : row_key -> A), (forall r, g (key_of (f r)) = g (key_of r)) -> map g (map key_of (update_where mine f (t_admins d))) = map g (map key_of (t_admins d))) as Hsame.
  { intros A g Hg. rewrite !map_map. by apply (update_where_map (fun r => g (key_of r))). }
  eapply inv_more_admins; [done| |intros i; unfold known; by rewrite (Hsame _ rk_ID)|done]. split.
  - by rewrite (Hsame _ rk_ID).
  - rewrite map_map in *. unfold update_where. rewrite map_map.
    apply (NoDup_map_by (fun r => ad_ID (r_Admin r))); [done|].
    assert (forall x, x ∈ t_admins d -> mine x = false -> mine x = true \/ ToLower (ad_Email (r_Admin x)) = ToLower email -> ad_ID (r_Admin x) = id) as Hother.
    { intros x Hx Hm [Hc|Hc]; [congruence|]. specialize (Hemail x Hx). unfold has_email in Hemail. rewrite Hc, String.eqb_refl, andb_true_r in Hemail.
      apply negb_false_iff in Hemail. by apply String.eqb_eq in Hemail. }
    assert (forall x, mine x = true -> ad_ID (r_Admin x) = id) as Hid.
    { intros x Hm. unfold mine in Hm. apply andb_true_iff in Hm as [Hm _]. by apply String.eqb_eq in Hm. }
    intros x y Hx Hy. destruct (mine x) eqn:Ex, (mine y) eqn:Ey; simpl; intros Heq.
    + by rewrite (Hid x), (Hid y).
    + rewrite (Hid x), (Hother y); auto.
    + rewrite (Hid y), (Hother x); auto.
    + rewrite (NoDup_map_inj (fun r => rk_Email (key_of r)) (t_admins d) x y He Hx Hy Heq). done.
  - assert (omap rk_Identity (map key_of (update_where mine f (t_admins d))) = omap rk_Identity (map key_of (t_admins d))) as ->; [|done].
    unfold update_where. clear. induction (t_admins d) as [|r l IH]; [done|]. cbn. rewrite IH. by destruct (mine r).
  - apply Forall_forall. intros k (r & -> & Hr)%list_elem_of_fmap. apply elem_of_update_where in Hr as (x & Hx & ->).
    rewrite Forall_forall in Ha. assert (rk_Allowed (key_of x) = true) as Hax by (apply Ha, list_elem_of_fmap; eauto).
    destruct (mine x); [|done]. unfold key_of in *. simpl in *. unfold row_allowed in *. simpl. apply andb_true_iff in Hax as [_ Hax]. by rewrite Hrole, Hax.
Qed.
#[export] Hint Resolve update_oidc_inv : auth.

(** ** Statements on the other tables *)

Lemma find_is_admin id d r : find (is_admin id) (t_admins d) = Some r -> known (map key_of (t_admins d)) id.
Proof.
  intros [Hr He]%find_some. apply String.eqb_eq in He as <-. unfold known. rewrite map_map. apply list_elem_of_fmap. exists r. split; [done|]. by apply list_elem_of_In.
Qed.

Lemma exists_known id d : existsb (is_admin id) (t_admins d) = true -> known (map key_of (t_admins d)) id.
Proof.
  intros (r & Hr & He)%existsb_elem. apply String.eqb_eq in He as <-. unfold known. rewrite map_map. apply list_elem_of_fmap. by exists r.
Qed.

Definition sessions_ok (d : adb) (l : list Session) : Prop :=
  NoDup (map sn_TokenHash l) /\ Forall (fun x => known (map key_of (t_admins d)) (sn_AdminID x)) l.

Lemma inv_set_sessions d l : sessions_ok d l -> Inv d -> Inv (set_t_sessions l d).
Proof. intros [H1 H2] [? ? ? ? ? ? ? ?]. by split. Qed.

Lemma sessions_inv {E A} (m : atx E A) (g : adb -> list Session) :
  (forall d, (m d).2 = set_t_sessions (g d) d) -> (forall d, Inv d -> sessions_ok d (g d)) -> tkeeps keeps_inv m.
Proof. intros Hm Hg d. unfold keeps_inv. rewrite Hm. intros HI. by apply inv_set_sessions; [apply Hg|]. Qed.

Lemma filter_sessions_inv {E A} (m : atx E A) p :
  (forall d, (m d).2 = set_t_sessions (List.filter p (t_sessions d)) d) -> tkeeps keeps_inv m.
Proof.
  intros Hm. eapply sessions_inv; [exact Hm|]. intros d [_ Hh Hs _ _ _ _ _]. split; [by apply NoDup_map_filter|].
  apply Forall_forall. intros x [Hx _]%elem_of_filterb. rewrite Forall_forall in Hs. by apply Hs.
Qed.

Lemma create_session_inv x : tkeeps keeps_inv (AuthStore.CreateSession x).
Proof.
  intros d. unfold AuthStore.CreateSession, keeps_inv. destruct (_ || _) eqn:E; [done|]. apply orb_false_iff in E as [Eh Ea%negb_false_iff].
  intros HI. apply inv_set_sessions; [|done]. destruct HI as [_ Hh Hs _ _ _ _ _]. split.
  - rewrite map_app. apply NoDup_app. split; [done|]. split; [|apply NoDup_singleton]. intros h (y & -> & Hy)%list_elem_of_fmap Hin.
    apply list_elem_of_singleton in Hin. rewrite existsb_none in Eh. specialize (Eh y Hy). unfold has_hash in Eh. by rewrite Hin, String.eqb_refl in Eh.
  - apply Forall_app. split; [done|]. repeat constructor. by apply exists_known.
Qed.

Lemma touch_session_inv {E} h seen expires : tkeeps keeps_inv (TouchSession h seen expires : atx E unit).
Proof.
  eapply sessions_inv; [done|]. intros d [_ Hh Hs _ _ _ _ _]. split; [by rewrite update_where_map|].
  apply Forall_forall. intros x (y & Hy & ->)%elem_of_update_where. rewrite Forall_forall in Hs. specialize (Hs y Hy). by destruct (has_hash h y).
Qed.

#[export] Hint Resolve create_session_inv touch_session_inv : auth.
#[export] Hint Extern 2 (tkeeps keeps_inv (AuthStore.DeleteSession _)) => (eapply filter_sessions_inv; done) : auth.
#[export] Hint Extern 2 (tkeeps keeps_inv (DeleteSessionsForAdmin _)) => (eapply filter_sessions_inv; done) : auth.
#[export] Hint Extern 2 (tkeeps keeps_inv (DeleteExpiredSessions _)) => (eapply filter_sessions_inv; done) : auth.

(** An update of tokens that takes none back to life. *)
Lemma update_tokens_inv {E A} (m : atx E A) p f :
  (forall d, (m d).2 = set_t_tokens (update_where (p d) f (t_tokens d)) d) ->
  (forall t, tk_ID (f t) = tk_ID t /\ tk_TokenHash (f t) = tk_TokenHash t /\ tk_Role (f t) = tk_Role t /\ tk_CreatedByID (f t) = tk_CreatedByID t /\
     tk_Name (f t) = tk_Name t /\ (live_token (f t) = true -> live_token t = true)) ->
  tkeeps keeps_inv m.
Proof.
  intros Hm Hf d. unfold keeps_inv. rewrite Hm. intros [? ? ? [Hi Hh] Hn Hmk ? ?]. split; try done; simpl.
  - split; rewrite update_where_map; try done; intros t; apply Hf.
  - revert Hn. clear - Hf. unfold update_where. induction (t_tokens d) as [|t l IH]; [done|]. cbn [map List.filter].
    assert (forall x : APIToken, tk_Name x = tk_Name t -> (live_token x = true -> live_token t = true) ->
      NoDup (map (fun t => ToLower (tk_Name t)) (if live_token t then t :: List.filter live_token l else List.filter live_token l)) ->
      NoDup (map (fun t => ToLower (tk_Name t)) (if live_token x then x :: List.filter live_token (map (fun t => if p d t then f t else t) l) else List.filter live_token (map (fun t => if p d t then f t else t) l)))) as Hgo.
    { intros x Hx Hl. assert (forall n, n ∈ map (fun t => ToLower (tk_Name t)) (List.filter live_token (map (fun t => if p d t then f t else t) l)) ->
          n ∈ map (fun t => ToLower (tk_Name t)) (List.filter live_token l)) as Hsub.
      { intros n (y & -> & Hy)%list_elem_of_fmap. apply elem_of_filterb in Hy as [(z & -> & Hz)%list_elem_of_fmap Hy]. apply list_elem_of_fmap.
        exists z. destruct (p d z); [|split; [done|by apply elem_of_filterb]]. destruct (Hf z) as (_ & _ & _ & _ & Hnm & Hlv). split; [by rewrite Hnm|].
        apply elem_of_filterb. auto. }
      destruct (live_token x) eqn:Ex; [rewrite (Hl eq_refl)|destruct (live_token t)]; simpl; intros Hn.
      - apply NoDup_cons in Hn as [Hn1 Hn2]. constructor; [rewrite Hx; auto|by apply IH].
      - apply NoDup_cons in Hn as [_ Hn2]. by apply IH.
      - by apply IH. }
    destruct (p d t); apply Hgo; try done; destruct (Hf t) as (_ & _ & _ & _ & ? & ?); auto.
  - apply Forall_forall. intros x (y & Hy & ->)%elem_of_update_where. rewrite Forall_forall in Hmk. specialize (Hmk y Hy).
    destruct (p d y); [|done]. destruct (Hf y) as (_ & _ & -> & -> & _). done.
Qed.

Lemma create_token_inv t : tkeeps keeps_inv (AuthStore.CreateAPIToken t).
Proof.
  intros d. unfold AuthStore.CreateAPIToken, keeps_inv. destruct (negb (ValidRole _)) eqn:Er; [done|]. destruct (existsb _ (t_tokens d)) eqn:E; [done|].
  destruct (negb (existsb (is_admin _) _)) eqn:Ea; [done|]. cbn [snd]. rewrite existsb_none in E. apply negb_false_iff in Er, Ea.
  assert (forall u, u ∈ t_tokens d -> tk_ID u <> tk_ID t /\ tk_TokenHash u <> tk_TokenHash t /\ (live_token u = true -> ToLower (tk_Name u) <> ToLower (tk_Name t))) as Hnew.
  { intros u Hu. specialize (E u Hu). apply orb_false_iff in E as [[E1 E2]%orb_false_iff E3]. rewrite String.eqb_neq in E1, E2. split; [done|]. split; [done|].
    intros Hl. rewrite Hl in E3. by apply String.eqb_neq in E3. }
  intros [? ? ? [Hi Hh] Hn Hmk ? ?]. split; try done; simpl.
  - split; rewrite map_app; apply NoDup_app; (split; [done|]; split; [|apply NoDup_singleton]); intros i (u & -> & Hu)%list_elem_of_fmap Hin;
      apply list_elem_of_singleton in Hin; destruct (Hnew u Hu) as (? & ? & _); done.
  - rewrite List.filter_app, map_app. apply NoDup_app. split; [done|]. split; [|apply NoDup_singleton]. intros i (u & -> & [Hu Hl]%elem_of_filterb)%list_elem_of_fmap Hin.
    apply list_elem_of_singleton in Hin. destruct (Hnew u Hu) as (_ & _ & H3). by apply H3.
  - apply Forall_app. split; [done|]. repeat constructor; [done|]. by apply exists_known.
Qed.
#[export] Hint Resolve create_token_inv : auth.
#[export] Hint Extern 2 (tkeeps keeps_inv (AuthStore.RevokeAPIToken _ _)) => (eapply (update_tokens_inv _ (fun _ => _)); [done|done]) : auth.
#[export] Hint Extern 2 (tkeeps keeps_inv (RevokeAPITokensForAdmin _ _)) => (eapply (update_tokens_inv _ (fun _ => _)); [done|done]) : auth.
#[export] Hint Extern 2 (tkeeps keeps_inv (TouchAPIToken _ _)) => (eapply (update_tokens_inv _ (fun _ => _)); [done|done]) : auth.

Definition scopes_ok (d : adb) (l : list (string * string)) : Prop :=
  NoDup l /\ Forall (fun x => known (map key_of (t_admins d)) x.1 /\ x.2 ∈ map fst (t_groups d)) l.

Lemma inv_set_scopes d l : scopes_ok d l -> Inv d -> Inv (set_t_scopes l d).
Proof. intros [H1 H2] [? ? ? ? ? ? ? ?]. by split. Qed.

Lemma clear_scopes_inv {E} id : tkeeps keeps_inv (aset (fun d => set_t_scopes (List.filter (fun s => negb (String.eqb s.1 id)) (t_scopes d)) d) : atx E unit).
Proof.
  intros d. unfold keeps_inv. simpl. intros HI. apply inv_set_scopes; [|done]. destruct HI as [_ _ _ _ _ _ Hn Hs]. split.
  - rewrite <- (map_id (List.filter _ _)). apply NoDup_map_filter. by rewrite map_id.
  - apply Forall_forall. intros x [Hx _]%elem_of_filterb. rewrite Forall_forall in Hs. by apply Hs.
Qed.

Lemma insert_scope_inv id g : tkeeps keeps_inv (insert_scope id g).
Proof.
  intros d. unfold insert_scope, keeps_inv. destruct (_ || _) eqn:E; [done|]. apply orb_false_iff in E as [Ea%negb_false_iff Eg%negb_false_iff].
  destruct (existsb _ (t_scopes d)) eqn:Ex; [done|]. cbn [snd]. intros HI. apply inv_set_scopes; [|done]. destruct HI as [_ _ _ _ _ _ Hn Hs]. split.
  - apply NoDup_app. split; [done|]. split; [|apply NoDup_singleton]. intros x Hx ->%list_elem_of_singleton.
    rewrite existsb_none in Ex. specialize (Ex _ Hx). simpl in Ex. by rewrite !String.eqb_refl in Ex.
  - apply Forall_app. split; [done|]. repeat constructor; [by apply exists_known|]. apply existsb_elem in Eg as (x & Hx & <-%String.eqb_eq).
    apply list_elem_of_fmap. by exists x.
Qed.

Lemma insert_scopes_inv id gs : tkeeps keeps_inv (insert_scopes id gs).
Proof. induction gs as [|g gs IH]; simpl; [by apply (keeps_ret _)|]. apply (keeps_bind _); [apply insert_scope_inv|intros _; exact IH]. Qed.

Lemma set_admin_scope_inv id sc : tkeeps keeps_inv (SetAdminScope id sc).
Proof.
  unfold SetAdminScope. apply (keeps_bind _); [apply clear_scopes_inv|intros _]. apply (keeps_bind _); [auto with auth|intros _]. apply insert_scopes_inv.
Qed.

Lemma delete_group_inv {E} id : tkeeps keeps_inv (DeleteGroup id : atx E unit).
Proof.
  intros d. unfold keeps_inv. simpl. intros [? ? ? ? ? ? Hn Hs]. split; try done; simpl.
  - rewrite <- (map_id (List.filter _ _)). apply NoDup_map_filter. by rewrite map_id.
  - apply Forall_forall. intros x [Hx Hid]%elem_of_filterb. rewrite Forall_forall in Hs. destruct (Hs x Hx) as [Hk Hg]. split; [done|].
    apply list_elem_of_fmap in Hg as (g & Hg1 & Hg). apply list_elem_of_fmap. exists g. split; [done|]. apply elem_of_filterb. split; [done|]. by rewrite <- Hg1.
Qed.
#[export] Hint Resolve set_admin_scope_inv delete_group_inv : auth.

(** ** Every operation *)

Lemma group_names_keep (R : adb -> adb -> Prop) `{!PreOrder R} gs : tkeeps R (group_names gs).
Proof. induction gs as [|g gs IH]; simpl; follow. Qed.
Lemma named_groups_keep (R : adb -> adb -> Prop) `{!PreOrder R} gs : tkeeps R (named_groups gs).
Proof. induction gs as [|g gs IH]; simpl; follow. Qed.
#[export] Hint Resolve group_names_keep named_groups_keep : auth.
#[export] Hint Extern 1 (PreOrder keeps_inv) => apply keeps_inv_preorder : auth.

Lemma sign_in_keeps (R : adb -> adb -> Prop) `{!PreOrder R} id now issuer subject email role sc :
  tkeeps R (sign_in_body id now issuer subject email role sc) -> tkeeps R (signIn id now issuer subject email role sc).
Proof.
  intros Hb d. unfold signIn. pose proof (keeps_InTx R _ Hb d) as H. destruct (InTx _ d) as [[[code|a]|e] d']; done.
Qed.

Section Everything.
Variable IDKey : string -> string -> Z -> Z -> Z -> Z -> string.
Variable GenerateCode : string -> time -> option string.
Variable hashToken : string -> string.
Variable json_time : time -> string.
Variable dummyHash : string.
Variable s : Service.
Hypothesis service_counts_only : service_counts s.

Lemma apply_inv o d : Inv d -> Inv (apply IDKey GenerateCode hashToken json_time dummyHash s o d).
Proof.
  revert d. assert (forall d, keeps_inv d (apply IDKey GenerateCode hashToken json_time dummyHash s o d)) as H; [|exact H]. intros d.
  destruct o; cbn [apply]; try apply (tkeeps_apply keeps_inv).
  - unfold AuthenticateFrom, verifyPassword, check_code, signed_in. follow.
  - unfold CreateSession. follow.
  - unfold ValidateSession. follow.
  - unfold DeleteSession. follow.
  - follow.
  - unfold SetScope. follow.
  - unfold CreateAdmin. follow.
  - unfold SetPassword. follow.
  - unfold EnableTOTP. follow.
  - unfold DisableTOTP. follow.
  - unfold SealTOTPSecrets. apply seal_secrets_keep; [apply _|]. auto with auth.
  - unfold SetDisabled. follow.
  - unfold CreateAPIToken. follow.
  - unfold AuthenticateAPIToken. follow.
  - unfold RevokeAPIToken. follow.
  - follow.
  - apply sign_in_keeps; [apply _|]. unfold sign_in_body, cutOff, refused, refresh, provision, applySSOScope. follow.
Qed.

Lemma history_inv ops d : Inv d -> Inv (history IDKey GenerateCode hashToken json_time dummyHash s ops d).
Proof.
  revert d. induction ops as [|o ops IH]; intros d HI; [done|]. simpl. apply IH. by apply apply_inv.
Qed.

(** The tables stay consistent whatever is asked: ids, addresses up to case,
    identities at the provider, token and session hashes and the names of live
    tokens are unique, every account has a known role and is either local or
    the provider's, and what points to an account or a group points to one
    there is. *)
Theorem tables_stay_consistent ops d : Inv d -> Inv (history IDKey GenerateCode hashToken json_time dummyHash s ops d).
Proof. apply history_inv. Qed.
End Everything.

(** ** Who may do what, over any number of requests

    There is always an administrator of the whole fleet; codes are used once;
    a revoked token stays revoked; an account that was signed out stays so. *)

(** Somebody can manage the whole fleet. *)
Definition has_fleet_admin (d : adb) : Prop := exists r, r ∈ t_admins d /\ isFleetAdmin (r_Admin r) = true.

Lemma same_rights_fleet x y : same_rights x y -> isFleetAdmin (r_Admin y) = isFleetAdmin (r_Admin x).
Proof. intros (_ & Hr & Hd & Hs). unfold isFleetAdmin. by rewrite Hr, Hd, Hs. Qed.

Lemma keep_rights_fleet d d' : keep_rights d d' -> has_fleet_admin d -> has_fleet_admin d'.
Proof. intros H (r & Hr & Hf). destruct (H r Hr) as (y & Hy & Hs). exists y. split; [done|]. by rewrite (same_rights_fleet _ _ Hs). Qed.

Lemma besides_pos d id : negb ((fleetAdminsBesides (order_by admin_order (map r_Admin (t_admins d))) id =? 0)%Z) = true ->
  exists r, r ∈ t_admins d /\ ad_ID (r_Admin r) <> id /\ isFleetAdmin (r_Admin r) = true.
Proof.
  intros H. assert ((0 <? fleetAdminsBesides (order_by admin_order (map r_Admin (t_admins d))) id)%Z = true) as Hp.
  { apply Z.ltb_lt. apply negb_true_iff, Z.eqb_neq in H. unfold fleetAdminsBesides, count_where in *. lia. }
  unfold fleetAdminsBesides in Hp. apply count_where_pos in Hp as (a & Ha & Hp). rewrite elem_of_order_by in Ha.
  apply list_elem_of_fmap in Ha as (r & -> & Hr). apply andb_true_iff in Hp as [Hi Hf]. apply negb_true_iff, String.eqb_neq in Hi. eauto.
Qed.

Lemma ids_inj d x y : Inv d -> x ∈ t_admins d -> y ∈ t_admins d -> ad_ID (r_Admin x) = ad_ID (r_Admin y) -> x = y.
Proof. intros HI. apply (NoDup_map_inj (fun r => ad_ID (r_Admin r))). pose proof (ko_ids _ (inv_admins d HI)) as H. by rewrite map_map in H. Qed.

(** An update of one account that takes nothing from a fleet administrator, or
    is of somebody besides whom there is another. *)
Lemma fleet_update d d' id f r :
  Inv d -> t_admins d' = update_where (is_admin id) (fun r => mkRow (f (r_Admin r)) (r_LastStep r)) (t_admins d) ->
  r ∈ t_admins d -> ad_ID (r_Admin r) = id ->
  (forall a, isFleetAdmin a = true -> isFleetAdmin (f a) = true) \/ isFleetAdmin (r_Admin r) = false \/
    (exists x, x ∈ t_admins d /\ ad_ID (r_Admin x) <> id /\ isFleetAdmin (r_Admin x) = true) ->
  has_fleet_admin d -> has_fleet_admin d'.
Proof.
  intros HI Ht Hr Hid Hcase (x & Hx & Hf).
  assert (forall x, x ∈ t_admins d -> ad_ID (r_Admin x) <> id -> isFleetAdmin (r_Admin x) = true -> has_fleet_admin d') as Hother.
  { intros y Hy Hn Hfy. exists y. split; [|done]. rewrite Ht. apply elem_of_update_where. exists y. split; [done|].
    unfold is_admin. by destruct (String.eqb_spec (ad_ID (r_Admin y)) id). }
  destruct Hcase as [Hup|[Hnot|(y & Hy & Hn & Hfy)]]; [|..|by apply (Hother y)].
  - exists (if is_admin id x then mkRow (f (r_Admin x)) (r_LastStep x) else x). split; [rewrite Ht; by apply (update_where_in (is_admin id) (fun r => mkRow (f (r_Admin r)) (r_LastStep r)))|].
    destruct (is_admin id x); simpl; auto.
  - destruct (String.eqb_spec (ad_ID (r_Admin x)) id) as [He|Hn]; [|by apply (Hother x)].
    rewrite (ids_inj d x r HI Hx Hr) in Hf by congruence. congruence.
Qed.

(** *** Successful steps, as equations *)

Lemma lookup_row_Ok {A} (m : atx db_error A) d o d' :
  lookup_row m d = (Ok o, d') -> match o with Some a => m d = (Ok a, d') | None => m d = (Err NoRow, d') end.
Proof. unfold lookup_row. destruct (m d) as [[a|[]] d1]; by intros [= <- <-]. Qed.

Lemma row_or_Ok {E A} (e : E) (o : option A) d a d' : row_or e o d = (Ok a, d') <-> o = Some a /\ d' = d.
Proof. destruct o; unfold row_or, tret, tfail; naive_solver. Qed.

Lemma find_row p (l : list admin_row) r : find p l = Some r -> r ∈ l /\ p r = true.
Proof. intros [H1 H2]%find_some. split; [by apply list_elem_of_In|done]. Qed.

(** [admin, err := q.GetAdmin(...)] answered. *)
Lemma with_admin_Ok {B} id (k : Admin -> atx auth_error B) d b d' :
  (let* found := lookup_row (GetAdmin id) in let* admin := needed ErrNotFound found in k admin) d = (Ok b, d') ->
  exists r, r ∈ t_admins d /\ ad_ID (r_Admin r) = id /\ k (r_Admin r) d = (Ok b, d').
Proof.
  intros (o & d2 & Hl & (a & d3 & [-> ->]%row_or_Ok & Hk)%tbind_Ok)%tbind_Ok. apply lookup_row_Ok in Hl. unfold GetAdmin in Hl.
  apply row_or_Ok in Hl as [Hf ->]. destruct (find (is_admin id) (t_admins d)) as [r|] eqn:E; [|done].
  injection Hf as <-. apply find_row in E as [Hr He%String.eqb_eq]. eauto.
Qed.

(** What the statements of an operation did, written into its result. *)
Ltac effects := unfold ListAdmins, SetAdminDisabled, update_admin, DeleteSessionsForAdmin, InsertAudit, aget, aset in *; simplify_eq/=.

Lemma group_names_reads gs d r d' : group_names gs d = (r, d') -> d' = d.
Proof.
  pose proof (group_names_keep (fun a b => b = a) (PreOrder0 := ltac:(split; [by intros x|by intros x y z -> ->])) gs d) as H. intros E. by rewrite E in H.
Qed.

Lemma set_admin_scope_admins id sc d u d' :
  SetAdminScope id sc d = (Ok u, d') ->
  t_admins d' = update_where (is_admin id) (fun r => mkRow (set_ad_Scoped (Limited sc) (r_Admin r)) (r_LastStep r)) (t_admins d).
Proof.
  unfold SetAdminScope. intros H. txs. effects. match goal with H : insert_scopes _ _ ?x = _ |- _ => pose proof (insert_scopes_admins id (default [] sc) x) as Ha; rewrite H in Ha end.
  simpl in Ha. by rewrite Ha.
Qed.

Section Rights.
Variable IDKey : string -> string -> Z -> Z -> Z -> Z -> string.
Variable GenerateCode : string -> time -> option string.
Variable hashToken : string -> string.
Variable json_time : time -> string.
Variable dummyHash : string.
Variable s : Service.
Hypothesis service_counts_only : service_counts s.

Abbreviation run := (history IDKey GenerateCode hashToken json_time dummyHash s).
Abbreviation step := (apply IDKey GenerateCode hashToken json_time dummyHash s).

Lemma set_disabled_fleet now id disabled actor d :
  Inv d -> has_fleet_admin d -> has_fleet_admin (SetDisabled now id disabled actor d).2.
Proof.
  intros HI Hf. destruct (SetDisabled now id disabled actor d) as [[[]|e] d'] eqn:E; [|by apply InTx_Err in E as ->].
  unfold SetDisabled in E. rewrite InTx_Ok in E. apply with_admin_Ok in E as (r & Hr & Hid & E). txs.
  destruct disabled; txs.
  - effects. eapply (fleet_update _ _ (ad_ID (r_Admin r)) (set_ad_DisabledAt (Some now)) r); try done.
    right. destruct (isFleetAdmin (r_Admin r)); [|by left]. right. by apply besides_pos.
  - effects. eapply (fleet_update _ _ (ad_ID (r_Admin r)) (set_ad_DisabledAt None) r); try done. left. intros a. unfold isFleetAdmin. simpl.
    intros [[Ha _]%andb_true_iff Hs]%andb_true_iff. by rewrite Ha, Hs.
Qed.

Lemma set_scope_fleet id groups actor d :
  Inv d -> has_fleet_admin d -> has_fleet_admin (SetScope s id groups actor d).2.
Proof.
  intros HI Hf. destruct (SetScope s id groups actor d) as [[[]|e] d'] eqn:E; [|by apply InTx_Err in E as ->].
  unfold SetScope in E. rewrite InTx_Ok in E. apply with_admin_Ok in E as (r & Hr & Hid & E). txs.
  assert (forall u d1, (if Limited groups && isFleetAdmin (r_Admin r) then let* all := ListAdmins in tensure (negb (fleetAdminsBesides all id =? 0)) ErrLastAdmin else tret tt) d
            = (Ok u, d1) -> d1 = d /\ (groups = None \/ isFleetAdmin (r_Admin r) = false \/
              (exists x, x ∈ t_admins d /\ ad_ID (r_Admin x) <> id /\ isFleetAdmin (r_Admin x) = true))) as Hguard.
  { intros u d1. destruct groups as [gs|]; simpl; [|intros Hg; txs; auto]. destruct (isFleetAdmin (r_Admin r)); [|intros Hg; txs; auto].
    intros Hg. txs. effects. split; [done|]. do 2 right. by apply besides_pos. }
  match goal with H : (if _ then _ else _) d = _ |- _ => apply Hguard in H as [-> Hcase] end.
  match goal with H : group_names _ _ = _ |- _ => apply group_names_reads in H as -> end.
  match goal with H : db _ _ = _ |- _ => unfold db in H; txs; apply set_admin_scope_admins in H end. effects.
  eapply (fleet_update d _ (ad_ID (r_Admin r)) (set_ad_Scoped (Limited groups)) r); try done.
  destruct Hcase as [->|Hcase]; [|by right]. left. intros a. unfold isFleetAdmin. simpl. intros [Ha _]%andb_true_iff. by rewrite Ha.
Qed.

Definition is_sso (o : op) : bool := match o with OpSSO _ _ _ _ _ _ _ => true | _ => false end.

(** C25. The guards of [SetScope] and [SetDisabled] do what they are for: over
    any requests but sign-ins through the identity provider, a server that has
    an administrator of the whole fleet keeps one. *)
Theorem somebody_manages_the_fleet ops d :
  Inv d -> has_fleet_admin d -> Forall (fun o => is_sso o = false) ops -> has_fleet_admin (run ops d).
Proof.
  intros HI Hf Hops. revert d HI Hf. induction Hops as [|o ops Ho _ IH]; intros d HI Hf; [done|]. simpl.
  apply IH; [by apply apply_inv|]. destruct (changes_rights o) eqn:E; [|eapply keep_rights_fleet; [by apply rights_kept|done]].
  destruct o; try done; cbn [apply]; [by apply set_scope_fleet|by apply set_disabled_fleet].
Qed.
End Rights.
