(* ===== verification/SignIn.v ===== *)
(** * A sign-in, and many of them

    Exactly who is signed in; what a wrong guess does, and that it does not say
    whose account there is; how many guesses an account allows; and that a code
    is used once. *)
From S2P Require Export AuthInv.

Open Scope Z_scope.
Open Scope go_scope.

Section SignIn.
Variable IDKey : string -> string -> Z -> Z -> Z -> Z -> string.
Variable GenerateCode : string -> time -> option string.
Variable dummyHash : string.

Abbreviation sign_in := (AuthenticateFrom IDKey GenerateCode dummyHash).

(** ** Exactly who is signed in *)

(** What is typed as an address, as it is looked up and counted. *)
Definition email_key (email : string) : string := ToLower (TrimSpace email).

(** Whether the throttles let somebody try. *)
Definition may_try (s : Service) (w : readings) (ip email : string) (d : adb) : bool :=
  match ask_account s (email_key email) (at_asked w) d with
  | (Err _, _) => false
  | (Ok _, d1) => is_ok (ask_address s ip (at_asked_ip w) d1).1
  end.

(** The state after they were asked. *)
Definition asked (s : Service) (w : readings) (ip email : string) (d : adb) : adb :=
  (ask_address s ip (at_asked_ip w) (ask_account s (email_key email) (at_asked w) d).2).2.

(** The authenticator's part: a code is needed if there is a secret, it is the
    one of a step near the reading, and that step is later than any used. *)
Definition code_ok (s : Service) (w : readings) (r : admin_row) (code : string) : Prop :=
  ad_TOTPSecret (r_Admin r) = EmptyString \/
  code <> EmptyString /\ exists secret step, openTOTP (s_Key s) (ad_ID (r_Admin r)) (ad_TOTPSecret (r_Admin r)) = Ok secret /\
    matchTOTP GenerateCode secret code (at_code w) = Some step /\ r_LastStep r < step.

Definition credentials_ok (s : Service) (w : readings) (email password code : string) (d : adb) (r : admin_row) : Prop :=
  r ∈ t_admins d /\ ToLower (ad_Email (r_Admin r)) = ToLower (email_key email) /\ ad_AuthSource (r_Admin r) <> AuthOIDC /\
  VerifyPassword IDKey (ad_PasswordHash (r_Admin r)) password = true /\ ad_DisabledAt (r_Admin r) = None /\ code_ok s w r code.

Lemma ask_tables t key now d : throttle_counts t -> same_tables d (ask t key now d).2.
Proof. intros Ht. unfold ask. pose proof (Allowed_counts t key now d Ht). destruct (Allowed t key now d) as [[] d']; done. Qed.

Lemma same_tables_trans a b c : same_tables a b -> same_tables b c -> same_tables a c.
Proof. intros (? & ? & ? & ? & ?) (? & ? & ? & ? & ?). repeat split; congruence. Qed.

#[local] Instance same_tables_preorder : PreOrder same_tables.
Proof. split; [by intros d|]. intros a b c. apply same_tables_trans. Qed.
#[local] Instance same_tables_counts : Counts same_tables.
Proof. by intros d d'. Qed.

Lemma asked_only s key now d : service_counts s -> counted_only d (ask_account s key now d).2.
Proof.
  intros Hs. unfold ask_account, ask. destruct (throttle s) as [t|] eqn:Et; [|done]. pose proof (Allowed_only t (service_throttle s t Hs Et) key now d) as H.
  by destruct (Allowed t key now d) as [[] d'].
Qed.
Lemma address_only s ip now d : service_counts s -> counted_only d (ask_address s ip now d).2.
Proof.
  intros Hs. unfold ask_address, ask. destruct (s_IPThrottle s) as [t|] eqn:Et; [|done]. destruct (String.eqb ip EmptyString); [done|].
  pose proof (Allowed_only t (service_ip_throttle s t Hs Et) (ipKey ip) now d) as H. by destruct (Allowed t (ipKey ip) now d) as [[] d'].
Qed.

(** The account an address names is the first with it, and the only one. *)
Lemma find_email d r key :
  Inv d -> r ∈ t_admins d -> ToLower (ad_Email (r_Admin r)) = ToLower key -> find (has_email key) (t_admins d) = Some r.
Proof.
  intros HI Hr He. destruct (find (has_email key) (t_admins d)) as [x|] eqn:E.
  - apply find_row in E as [Hx Hxe%String.eqb_eq]. f_equal.
    apply (NoDup_map_inj (fun r => ToLower (ad_Email (r_Admin r))) (t_admins d)); [|done|done|congruence].
    pose proof (ko_emails _ (inv_admins d HI)) as Hn. by rewrite map_map in Hn.
  - apply list_elem_of_In in Hr. pose proof (find_none _ _ E r Hr) as H. unfold has_email in H. by rewrite He, String.eqb_refl in H.
Qed.

Lemma claim_count d r step :
  Inv d -> r ∈ t_admins d -> (count_where (fun x => is_admin (ad_ID (r_Admin r)) x && (r_LastStep x <? step)) (t_admins d) =? 1) = (r_LastStep r <? step).
Proof.
  intros HI Hr. pose proof (ko_ids _ (inv_admins d HI)) as Hn. rewrite map_map in Hn. change (NoDup (map (fun r => ad_ID (r_Admin r)) (t_admins d))) in Hn.
  revert Hr Hn. unfold count_where, is_admin. induction (t_admins d) as [|x l IH]; intros Hr Hn; [by apply elem_of_nil in Hr|].
  apply NoDup_cons in Hn as [Hx Hn]. apply elem_of_cons in Hr as [->|Hr].
  - assert (List.filter (fun y => String.eqb (ad_ID (r_Admin y)) (ad_ID (r_Admin x)) && (r_LastStep y <? step)) l = []) as E.
    { clear -Hx. induction l as [|y l IH]; [done|]. simpl. simpl in Hx. destruct (String.eqb_spec (ad_ID (r_Admin y)) (ad_ID (r_Admin x))) as [He|]; simpl; [|apply IH; set_solver].
      exfalso. apply Hx. rewrite <- He. set_solver. }
    simpl. rewrite String.eqb_refl. simpl. destruct (r_LastStep x <? step); simpl; by rewrite E.
  - simpl. destruct (String.eqb_spec (ad_ID (r_Admin x)) (ad_ID (r_Admin r))) as [He|]; simpl; [|by apply IH].
    exfalso. apply Hx. rewrite He. apply list_elem_of_fmap. eauto.
Qed.

(** The authenticator's part, on every branch. *)
Lemma check_code_Ok s w key ip r code d d' :
  Inv d -> r ∈ t_admins d -> check_code GenerateCode s w key ip (r_Admin r) code d = (Ok tt, d') ->
  code_ok s w r code /\
  (ad_TOTPSecret (r_Admin r) = EmptyString /\ d' = d \/
   exists step, d' = set_t_admins (update_where (fun x => is_admin (ad_ID (r_Admin r)) x && (r_LastStep x <? step)) (fun x => mkRow (r_Admin x) step) (t_admins d)) d /\
     exists secret, openTOTP (s_Key s) (ad_ID (r_Admin r)) (ad_TOTPSecret (r_Admin r)) = Ok secret /\
       matchTOTP GenerateCode secret code (at_code w) = Some step /\ r_LastStep r < step).
Proof.
  intros HI Hr. unfold check_code, code_ok. destruct (String.eqb_spec (ad_TOTPSecret (r_Admin r)) EmptyString) as [He|He]; [intros [= <-]; auto|].
  destruct (String.eqb_spec code EmptyString) as [|Hc]; [done|]. destruct (openTOTP _ _ _) as [secret|] eqn:Eo; [|done].
  destruct (matchTOTP _ _ _ _) as [step|] eqn:Em; [|intros H; unfold failing in H; txs].
  unfold ClaimTOTPStep, tbind. cbn zeta. rewrite claim_count by done. destruct (Z.ltb_spec (r_LastStep r) step) as [Hl|Hl]; simpl.
  - intros [= <-]. split; [right; split; [done|]; by exists secret, step|]. right. exists step. split; [done|]. by exists secret.
  - unfold failing, tbind. destruct (fail s w key ip _) as [[]?]; [|done]. done.
Qed.

(** What a sign-in that worked has found, and what it wrote. *)
Lemma sign_in_Ok s w slot ip email password code d a d' :
  service_counts s -> Inv d -> sign_in s w slot ip email password code d = (Ok a, d') ->
  s_LocalLoginDisabled s = false /\ slen (email_key email) <= maxEmailLength /\ slen password <= maxPasswordLength /\ slot = Slot /\
  may_try s w ip email d = true /\
  exists r, credentials_ok s w email password code d r /\ a = set_ad_LastLoginAt (at_login w) (r_Admin r) /\
    t_audit d' = t_audit d ++ [login_audit (r_Admin r) AuthLocal] /\
    exists y, y ∈ t_admins d' /\ r_Admin y = a /\
      (ad_TOTPSecret (r_Admin r) = EmptyString \/ exists secret, openTOTP (s_Key s) (ad_ID (r_Admin r)) (ad_TOTPSecret (r_Admin r)) = Ok secret /\
         matchTOTP GenerateCode secret code (at_code w) = Some (r_LastStep y) /\ r_LastStep r < r_LastStep y).
Proof.
  intros Hs HI. unfold AuthenticateFrom, may_try. destruct (s_LocalLoginDisabled s); [done|]. cbv zeta. fold (email_key email).
  destruct (_ || _) eqn:El; [done|]. apply orb_false_iff in El as [El1 El2].
  intros ([] & d1 & E1 & H)%tbind_Ok. rewrite E1. apply tbind_Ok in H as ([] & d2 & E2 & H). rewrite E2.
  pose proof (asked_only s (email_key email) (at_asked w) d Hs) as Ha1. rewrite E1 in Ha1.
  pose proof (address_only s ip (at_asked_ip w) d1 Hs) as Ha2. rewrite E2 in Ha2. simpl in Ha1, Ha2.
  assert (same_tables d d2) as Hsame by (etrans; [apply Ha1|apply Ha2]). assert (Inv d2) as HI2 by (by eapply same_tables_inv).
  destruct Hsame as (Ht & _). apply tbind_Ok in H as (o & d3 & Hl & H). apply lookup_row_Ok in Hl.
  destruct o as [adm|]; [|by txs]. unfold GetAdminByEmail in Hl. apply row_or_Ok in Hl as [Hf ->].
  destruct (find _ (t_admins d2)) as [r|] eqn:Ef; [|done]. injection Hf as <-. apply find_row in Ef as [Hr He%String.eqb_eq].
  destruct (String.eqb_spec (ad_AuthSource (r_Admin r)) AuthOIDC) as [|Hsrc]; [by txs|].
  apply tbind_Ok in H as (ok & d3 & Hv & H). destruct slot; [|done..]. injection Hv as <- <-.
  destruct (VerifyPassword _ _ password) eqn:Ev; [|by txs]. simpl in H. destruct (bool_decide _) eqn:Ed; [done|]. apply bool_decide_eq_false in Ed.
  apply tbind_Ok in H as ([] & d4 & Hc & H). pose proof (check_code_Ok s w _ ip r code d2 d4 HI2 Hr Hc) as [Hcode Hrow]. rewrite Ht in Hr.
  split; [done|]. split; [lia|]. split; [lia|]. split; [done|]. split; [done|]. exists r.
  split; [split_and!; try done; by destruct (ad_DisabledAt (r_Admin r)); [destruct Ed|]|].
  assert (exists x, x ∈ t_admins d4 /\ r_Admin x = r_Admin r /\ t_audit d4 = t_audit d2 /\
    (ad_TOTPSecret (r_Admin r) = EmptyString \/ exists secret, openTOTP (s_Key s) (ad_ID (r_Admin r)) (ad_TOTPSecret (r_Admin r)) = Ok secret /\
       matchTOTP GenerateCode secret code (at_code w) = Some (r_LastStep x) /\ r_LastStep r < r_LastStep x)) as (x & Hx & Hxr & Hxa & Hxs).
  { destruct Hrow as [[Hn ->]|(step & -> & secret & Ho & Hm & Hlt)]; [exists r; rewrite Ht; auto|].
    exists (mkRow (r_Admin r) step). split; [|split; [done|split; [done|right; by exists secret]]]. simpl. rewrite Ht. apply elem_of_update_where.
    exists r. split; [done|]. unfold is_admin. by rewrite String.eqb_refl, (proj2 (Z.ltb_lt _ _) Hlt). }
  unfold signed_in in H. txs. unfold RecordAdminLogin in *. effects.
  match goal with |- context [match throttle s with Some t => Reset_ t ?k d4 | None => d4 end] =>
    assert (same_tables d4 (match throttle s with Some t => Reset_ t k d4 | None => d4 end) /\ t_audit (match throttle s with Some t => Reset_ t k d4 | None => d4 end) = t_audit d4) as [(Hta & _) Hau]
  end.
  { destruct (throttle s) as [t|] eqn:Et; [|done]. apply (service_throttle s t Hs Et). }
  split; [done|]. rewrite Hau, Hxa, (proj2 Ha2), (proj2 Ha1). split; [done|].
  exists (mkRow (set_ad_LastLoginAt (at_login w) (r_Admin x)) (r_LastStep x)). rewrite Hta. split; [|simpl; by rewrite Hxr].
  apply elem_of_update_where. exists x. split; [done|]. unfold is_admin. by rewrite Hxr, String.eqb_refl.
Qed.

Lemma may_try_Ok s w ip email d :
  may_try s w ip email d = true ->
  exists d1 d2, ask_account s (email_key email) (at_asked w) d = (Ok tt, d1) /\ ask_address s ip (at_asked_ip w) d1 = (Ok tt, d2).
Proof.
  unfold may_try. destruct (ask_account _ _ _ d) as [[[]|] d1]; [|done]. destruct (ask_address _ _ _ d1) as [[[]|] d2] eqn:E; [|done]. eauto.
Qed.

(** The tables a sign-in looks at are those before the throttles were asked. *)
Lemma asked_tables s w ip email d d1 d2 :
  service_counts s -> ask_account s (email_key email) (at_asked w) d = (Ok tt, d1) -> ask_address s ip (at_asked_ip w) d1 = (Ok tt, d2) -> counted_only d d2.
Proof.
  intros Hs E1 E2. pose proof (asked_only s (email_key email) (at_asked w) d Hs) as Ha1. rewrite E1 in Ha1.
  pose proof (address_only s ip (at_asked_ip w) d1 Hs) as Ha2. rewrite E2 in Ha2. simpl in *. destruct Ha1 as [Ha1 Hu1], Ha2 as [Ha2 Hu2].
  split; [by etrans|congruence].
Qed.

Lemma sign_in_starts s w slot ip email password code d :
  s_LocalLoginDisabled s = false -> slen (email_key email) <= maxEmailLength -> slen password <= maxPasswordLength -> service_counts s ->
  may_try s w ip email d = true ->
  let d2 := asked s w ip email d in counted_only d d2 /\ sign_in s w slot ip email password code d =
    match find (has_email (email_key email)) (t_admins d2) with
    | None => (do* verifyPassword IDKey slot dummyHash password; failing s w (email_key email) ip ErrInvalidCredentials) d2
    | Some r =>
        if String.eqb (ad_AuthSource (r_Admin r)) AuthOIDC
        then (do* verifyPassword IDKey slot dummyHash password; failing s w (email_key email) ip ErrInvalidCredentials) d2
        else (let* ok := verifyPassword IDKey slot (ad_PasswordHash (r_Admin r)) password in
              if negb ok then failing s w (email_key email) ip ErrInvalidCredentials
              else if bool_decide (ad_DisabledAt (r_Admin r) <> None) then tfail ErrAccountDisabled
              else do* check_code GenerateCode s w (email_key email) ip (r_Admin r) code; signed_in s w (email_key email) (r_Admin r)) d2
    end.
Proof.
  intros Hl Hk Hp Hs (d1 & d2 & E1 & E2)%may_try_Ok. unfold asked. rewrite E1. cbn [snd]. rewrite E2. cbn [snd]. split; [by eapply asked_tables|].
  unfold AuthenticateFrom. rewrite Hl. cbv zeta. fold (email_key email). destruct (orb _ _) eqn:El; [apply orb_true_iff in El as [|]; lia|].
  unfold tbind at 1. rewrite E1. unfold tbind at 1. rewrite E2. unfold tbind at 1, lookup_row, GetAdminByEmail, row_or.
  destruct (find _ _) as [r|]; simpl; [|done]. by destruct (String.eqb _ AuthOIDC).
Qed.

Lemma check_code_accepts s w key ip r code d :
  Inv d -> r ∈ t_admins d -> code_ok s w r code -> exists d', check_code GenerateCode s w key ip (r_Admin r) code d = (Ok tt, d').
Proof.
  intros HI Hr. unfold check_code. intros [->|(Hc & secret & step & Ho & Hm & Hlt)]; [rewrite String.eqb_refl; by eexists|].
  destruct (String.eqb _ EmptyString); [by eexists|]. rewrite (proj2 (String.eqb_neq _ _) Hc), Ho, Hm.
  unfold ClaimTOTPStep, tbind. cbn zeta. rewrite claim_count, (proj2 (Z.ltb_lt _ _) Hlt) by done. simpl. by eexists.
Qed.

(** C15. Password sign-in lets in exactly those it should: sign-in with passwords
    is on, neither throttle refuses, a slot for the check came free, and there
    is an enabled account, not the identity provider's, whose address it is up
    to case, whose hash the password verifies against and, where it has an
    authenticator, whose code it is, of a step later than every one used. Then
    the account's own row comes back, marked with the time, the step is used
    up, and the sign-in is on record. *)
Theorem signs_in_exactly_with_credentials s w slot ip email password code d :
  service_counts s -> Inv d ->
  (is_ok (sign_in s w slot ip email password code d).1 = true <->
     s_LocalLoginDisabled s = false /\ slen (email_key email) <= maxEmailLength /\ slen password <= maxPasswordLength /\ slot = Slot /\
     may_try s w ip email d = true /\ exists r, credentials_ok s w email password code d r) /\
  (forall a d', sign_in s w slot ip email password code d = (Ok a, d') ->
     exists r y, credentials_ok s w email password code d r /\ a = set_ad_LastLoginAt (at_login w) (r_Admin r) /\
       t_audit d' = t_audit d ++ [login_audit (r_Admin r) AuthLocal] /\ y ∈ t_admins d' /\ r_Admin y = a /\
       (ad_TOTPSecret (r_Admin r) <> EmptyString -> r_LastStep r < r_LastStep y)).
Proof.
  intros Hs HI. split.
  - split.
    + destruct (sign_in s w slot ip email password code d) as [[a|] d'] eqn:E; [|done]. intros _.
      apply (sign_in_Ok s w slot ip email password code d a d' Hs HI) in E as (? & ? & ? & ? & ? & r & ? & _). eauto 10.
    + intros (Hl & Hk & Hp & -> & Ht & r & Hr & He & Hsrc & Hv & Hd & Hc).
      destruct (sign_in_starts s w Slot ip email password code d Hl Hk Hp Hs Ht) as ([(Ha & Hrest) Hau] & ->).
      set (d2 := asked s w ip email d) in *.
      assert (Inv d2) as HI2 by (eapply same_tables_inv; [split; [exact Ha|exact Hrest]|done]). rewrite <- Ha in Hr.
      rewrite (find_email d2 r (email_key email) HI2 Hr He). rewrite (proj2 (String.eqb_neq _ _) Hsrc). unfold tbind at 1. simpl.
      rewrite Hv, Hd. simpl. destruct (check_code_accepts s w (email_key email) ip r code d2 HI2 Hr Hc) as [d3 E3]. unfold tbind at 1. by rewrite E3.
  - intros a d' E. apply (sign_in_Ok s w slot ip email password code d a d' Hs HI) in E as (_ & _ & _ & _ & _ & r & Hr & Ha & Hau & y & Hy & Hya & Hst).
    exists r, y. split_and!; try done. intros Hn. destruct Hst as [|(_ & _ & _ & Hlt)]; done.
Qed.

(** C37. A refusal does not say whose accounts there are: an address nobody has,
    one of an account at the identity provider, and a wrong password for an
    account here all end in the same error, after one check of a password, and
    leave the same state behind. *)
Theorem refusals_look_alike s w ip email password code d :
  s_LocalLoginDisabled s = false -> slen (email_key email) <= maxEmailLength -> slen password <= maxPasswordLength -> service_counts s ->
  may_try s w ip email d = true ->
  (forall r, r ∈ t_admins d -> ToLower (ad_Email (r_Admin r)) = ToLower (email_key email) ->
     ad_AuthSource (r_Admin r) = AuthOIDC \/ VerifyPassword IDKey (ad_PasswordHash (r_Admin r)) password = false) ->
  (forall slot, slot <> Slot -> (sign_in s w slot ip email password code d).1 = Err (match slot with SlotTimeout => ErrTooManyAttempts | _ => ErrCancelled end)) /\
  sign_in s w Slot ip email password code d =
    failing s w (email_key email) ip ErrInvalidCredentials (asked s w ip email d).
Proof.
  intros Hl Hk Hp Hs Ht Hno.
  assert (forall r, find (has_email (email_key email)) (t_admins (asked s w ip email d)) = Some r ->
    ad_AuthSource (r_Admin r) = AuthOIDC \/ VerifyPassword IDKey (ad_PasswordHash (r_Admin r)) password = false) as Hr.
  { intros r [Hr He%String.eqb_eq]%find_row. destruct (sign_in_starts s w Slot ip email password code d Hl Hk Hp Hs Ht) as ([(Ha & _) _] & _).
    rewrite Ha in Hr. by apply Hno. }
  split.
  - intros slot Hslot. destruct (sign_in_starts s w slot ip email password code d Hl Hk Hp Hs Ht) as (_ & ->).
    destruct (find _ _) as [r|]; [|by destruct slot]. destruct (String.eqb _ AuthOIDC); by destruct slot.
  - destruct (sign_in_starts s w Slot ip email password code d Hl Hk Hp Hs Ht) as (_ & ->).
    destruct (find _ _) as [r|] eqn:Ef; [|done]. destruct (Hr r eq_refl) as [->|Hv]; [by rewrite String.eqb_refl|].
    destruct (String.eqb _ AuthOIDC); [done|]. unfold tbind at 1. simpl. by rewrite Hv.
Qed.
End SignIn.

(** ** Guessing

    How many wrong guesses an account allows in any window, with the counts in
    the database as the server keeps them, and that a code once used is used up. *)

Record attempt := mkAttempt {
  t_readings : readings; t_slot : hash_slot; t_ip : string; t_email : string; t_password : string; t_code : string }.

Section Guesses.
Variable IDKey : string -> string -> Z -> Z -> Z -> Z -> string.
Variable GenerateCode : string -> time -> option string.
Variable dummyHash : string.
Variable s : Service.
(** The server's throttles: [max] per account and [most] per address, in one
    table and over one window. *)
Variable max most : Z.
Variable window : duration.
Hypothesis account_throttle : s_Throttle s = Some (storeThrottle (mkStoreThrottle max window)).
Hypothesis address_throttle : s_IPThrottle s = None \/ s_IPThrottle s = Some (storeThrottle (mkStoreThrottle most window)).

Definition attempted (a : attempt) (d : adb) : result auth_error Admin * adb :=
  AuthenticateFrom IDKey GenerateCode dummyHash s (t_readings a) (t_slot a) (t_ip a) (t_email a) (t_password a) (t_code a) d.

(** A password or a code that was checked and is wrong. What is too long is
    refused unchecked. *)
Definition wrong_guess (a : attempt) (r : result auth_error Admin) : bool :=
  (slen (email_key (t_email a)) <=? maxEmailLength) && (slen (t_password a) <=? maxPasswordLength) && negb (s_LocalLoginDisabled s) &&
  match r with Err ErrInvalidCredentials | Err ErrTOTPInvalid => true | _ => false end.

Lemma ask_account_store key now d :
  ask_account s key now d = (if StoreAllowed (mkStoreThrottle max window) key now (t_failures d) then Ok tt else Err ErrTooManyAttempts, d).
Proof. unfold ask_account, throttle, ask. rewrite account_throttle. simpl. by destruct (StoreAllowed _ _ _ _). Qed.

Lemma tbind_eq {A B} (m : atx auth_error A) (k : A -> atx auth_error B) d r d' :
  m d = (r, d') -> tbind m k d = match r with Ok a => k a d' | Err e => (Err e, d') end.
Proof. unfold tbind. by intros ->. Qed.

Lemma ask_account_bind {B} key now (k : unit -> atx auth_error B) d :
  tbind (ask_account s key now) k d = if StoreAllowed (mkStoreThrottle max window) key now (t_failures d) then k tt d else (Err ErrTooManyAttempts, d).
Proof. rewrite (tbind_eq _ _ _ _ _ (ask_account_store _ _ _)). by destruct (StoreAllowed _ _ _ _). Qed.

Lemma ask_address_store ip now d : exists r, ask_address s ip now d = (r, d) /\ (r = Ok tt \/ r = Err ErrTooManyAttempts).
Proof.
  unfold ask_address, ask. destruct address_throttle as [->| ->]; [eexists; split; [reflexivity|auto]|].
  destruct (String.eqb ip EmptyString); [eexists; split; [reflexivity|auto]|]. simpl. destruct (StoreAllowed _ _ _ _); eexists; split; try reflexivity; auto.
Qed.

(** What a failure does to the table: the account's is added, and the address's. *)
Definition after_failure (a : attempt) (l : login_failures) : login_failures :=
  let l := StoreFail (mkStoreThrottle max window) (email_key (t_email a)) (at_failed (t_readings a)) l in
  match s_IPThrottle s with
  | Some _ => if String.eqb (t_ip a) EmptyString then l else StoreFail (mkStoreThrottle most window) (ipKey (t_ip a)) (at_failed_ip (t_readings a)) l
  | None => l
  end.

Lemma failing_store {A} a e d :
  exists d', (failing s (t_readings a) (email_key (t_email a)) (t_ip a) e : atx auth_error A) d = (Err e, d') /\ t_failures d' = after_failure a (t_failures d).
Proof.
  unfold failing, fail, after_failure, throttle. rewrite account_throttle. destruct address_throttle as [->| ->]; simpl.
  - eexists. split; [reflexivity|done].
  - destruct (String.eqb (t_ip a) EmptyString); eexists; (split; [reflexivity|done]).
Qed.

(** Every attempt leaves the table of failures alone, or was a wrong guess that
    was allowed and is counted, or worked and forgets the account's. *)
Inductive effect_on (a : attempt) (l : login_failures) : result auth_error Admin -> login_failures -> Prop :=
| LeftAlone e : wrong_guess a (Err e) = false -> effect_on a l (Err e) l
| Counted e : wrong_guess a (Err e) = true ->
    StoreAllowed (mkStoreThrottle max window) (email_key (t_email a)) (at_asked (t_readings a)) l = true -> effect_on a l (Err e) (after_failure a l)
| Forgotten adm : effect_on a l (Ok adm) (ClearLoginFailures (email_key (t_email a)) l).

Lemma lookup_email key d : lookup_row (GetAdminByEmail key) d = (Ok (option_map r_Admin (find (has_email key) (t_admins d))), d).
Proof. unfold lookup_row, GetAdminByEmail, row_or. by destruct (find _ _). Qed.

Lemma check_code_effect a adm d :
  exists r d', check_code GenerateCode s (t_readings a) (email_key (t_email a)) (t_ip a) adm (t_code a) d = (r, d') /\
    match r with
    | Ok _ => t_failures d' = t_failures d
    | Err e => e = ErrTOTPInvalid /\ t_failures d' = after_failure a (t_failures d) \/
               match e with ErrInvalidCredentials | ErrTOTPInvalid => false | _ => true end = true /\ t_failures d' = t_failures d
    end.
Proof.
  unfold check_code. destruct (String.eqb (ad_TOTPSecret adm) EmptyString); [by do 2 eexists|].
  destruct (String.eqb (t_code a) EmptyString); [do 2 eexists; split; [reflexivity|by right]|].
  destruct (openTOTP _ _ _) as [secret|e]; [|do 2 eexists; split; [reflexivity|by right]].
  destruct (matchTOTP _ _ _ _) as [step|].
  - unfold ClaimTOTPStep, tbind at 1. cbn zeta. destruct (_ =? 1); simpl; [by do 2 eexists|].
    destruct (@failing_store unit a ErrTOTPInvalid (set_t_admins (update_where (fun r => is_admin (ad_ID adm) r && (r_LastStep r <? step)) (fun r => mkRow (r_Admin r) step) (t_admins d)) d)) as (d' & Ed & Ef).
    do 2 eexists. split; [exact Ed|by left].
  - destruct (@failing_store unit a ErrTOTPInvalid d) as (d' & Ed & Ef). do 2 eexists. split; [exact Ed|by left].
Qed.

Lemma attempt_effect a d : effect_on a (t_failures d) (attempted a d).1 (t_failures (attempted a d).2).
Proof.
  assert (forall e, match e with ErrInvalidCredentials | ErrTOTPInvalid => false | _ => true end = true -> wrong_guess a (Err e) = false) as Hother.
  { intros e He. unfold wrong_guess. rewrite andb_comm. by destruct e. }
  unfold attempted, AuthenticateFrom. destruct (s_LocalLoginDisabled s) eqn:Ell; [constructor; by apply Hother|]. cbv zeta. fold (email_key (t_email a)).
  destruct (_ || _) eqn:El.
  { constructor. unfold wrong_guess. destruct (Z.leb_spec (slen (email_key (t_email a))) maxEmailLength), (Z.leb_spec (slen (t_password a)) maxPasswordLength);
      simpl; try done. apply orb_true_iff in El as [|]; lia. }
  apply orb_false_iff in El as [El1 El2].
  assert (wrong_guess a (Err ErrInvalidCredentials) = true /\ wrong_guess a (Err ErrTOTPInvalid) = true) as [Hw1 Hw2].
  { unfold wrong_guess. rewrite Ell. destruct (Z.leb_spec (slen (email_key (t_email a))) maxEmailLength), (Z.leb_spec (slen (t_password a)) maxPasswordLength); try lia; done. }
  rewrite ask_account_bind. destruct (StoreAllowed _ _ _ _) eqn:Eal; [|constructor; by apply Hother].
  destruct (ask_address_store (t_ip a) (at_asked_ip (t_readings a)) d) as (r & Er & Hr). rewrite (tbind_eq _ _ _ _ _ Er).
  destruct Hr as [->| ->]; [|constructor; by apply Hother].
  assert (forall e, wrong_guess a (Err e) = true -> effect_on a (t_failures d)
    ((failing s (t_readings a) (email_key (t_email a)) (t_ip a) e : atx auth_error Admin) d).1 (t_failures ((failing s (t_readings a) (email_key (t_email a)) (t_ip a) e : atx auth_error Admin) d).2)) as Hfail.
  { intros e He. destruct (@failing_store Admin a e d) as (d' & Ed & Ef). rewrite Ed. simpl. rewrite Ef. by constructor. }
  assert (forall enc k, (forall b, effect_on a (t_failures d) (k b d).1 (t_failures (k b d).2)) ->
    effect_on a (t_failures d) ((tbind (verifyPassword IDKey (t_slot a) enc (t_password a)) k : atx auth_error Admin) d).1
      (t_failures ((tbind (verifyPassword IDKey (t_slot a) enc (t_password a)) k : atx auth_error Admin) d).2)) as Hverify.
  { intros enc k Hk. unfold tbind, verifyPassword. destruct (t_slot a); [apply Hk|constructor; by apply Hother..]. }
  rewrite (tbind_eq _ _ _ _ _ (lookup_email _ _)). destruct (find _ _) as [row|]; simpl; [|apply Hverify; intros _; by apply Hfail].
  destruct (String.eqb _ AuthOIDC); [apply Hverify; intros _; by apply Hfail|]. apply Hverify. intros ok. destruct ok; simpl; [|by apply Hfail].
  destruct (bool_decide _); [constructor; by apply Hother|].
  assert (forall d', t_failures d' = t_failures d ->
    effect_on a (t_failures d) (signed_in s (t_readings a) (email_key (t_email a)) (r_Admin row) d').1
      (t_failures (signed_in s (t_readings a) (email_key (t_email a)) (r_Admin row) d').2)) as Hin.
  { intros d' Hd'. unfold signed_in, throttle, tbind, InTx. rewrite account_throttle. simpl. rewrite Hd'. constructor. }
  destruct (check_code_effect a (r_Admin row) d) as (rc & d' & Ec & Hc). rewrite (tbind_eq _ _ _ _ _ Ec).
  destruct rc as [[]|e]; [by apply Hin|]. destruct Hc as [[-> Hd]|[He Hd]]; simpl; rewrite Hd; [by constructor|constructor; by apply Hother].
Qed.

(** ** Any number of attempts *)

(** One after the other, each with what came of it. *)
Fixpoint outcomes (l : list attempt) (d : adb) : list (attempt * result auth_error Admin) :=
  match l with [] => [] | a :: l => (a, (attempted a d).1) :: outcomes l (attempted a d).2 end.

(** The clock does not go back. *)
Fixpoint in_order (t : time) (l : list attempt) : Prop :=
  match l with
  | [] => True
  | a :: l => t <= at_asked (t_readings a) <= at_failed (t_readings a) /\ at_failed (t_readings a) <= at_failed_ip (t_readings a) /\ in_order (at_failed_ip (t_readings a)) l
  end.

Definition of_account (k : string) (a : attempt) : bool := String.eqb (email_key (t_email a)) k.

(** When there was a wrong guess at an account. *)
Definition guess_times (k : string) (l : list (attempt * result auth_error Admin)) : list time :=
  map (fun x => at_failed (t_readings x.1)) (List.filter (fun x => of_account k x.1 && wrong_guess x.1 x.2) l).

Definition within (u : time) (g : time) : bool := (u - window <? g) && (g <=? u).

Lemma counted_fail k v key now m l :
  now <= v -> counted k (v - window) (StoreFail (mkStoreThrottle m window) key now l)
    = counted k (v - window) l + (if String.eqb key k && (v - window <? now) then 1 else 0).
Proof.
  intros Hv. unfold StoreFail, RecordLoginFailure, counted. rewrite count_app, count_filter. f_equal; [|unfold count_where; simpl; by destruct (_ && _)].
  apply count_ext. intros f. simpl. destruct (Z.leb_spec f.2 (now - window)), (Z.ltb_spec (v - window) f.2); simpl; try lia; by rewrite ?andb_false_r.
Qed.

Lemma counted_clear k v key l : key <> k -> counted k v (ClearLoginFailures key l) = counted k v l.
Proof.
  intros Hk. unfold ClearLoginFailures, counted. rewrite count_filter. apply count_ext. intros f.
  destruct (String.eqb_spec f.1 key), (String.eqb_spec f.1 k); try congruence; done.
Qed.

Lemma ip_key_differs k ip : HasPrefix k "ip " = false -> String.eqb (ipKey ip) k = false.
Proof.
  intros Hk. apply String.eqb_neq. intros <-. assert (HasPrefix (ipKey ip) "ip " = true) as H; [|congruence]. apply HasPrefix_app. by eexists.
Qed.

Lemma counted_after k v a l :
  HasPrefix k "ip " = false -> at_failed (t_readings a) <= at_failed_ip (t_readings a) <= v ->
  counted k (v - window) (after_failure a l) = counted k (v - window) l + (if of_account k a && (v - window <? at_failed (t_readings a)) then 1 else 0).
Proof.
  intros Hk Hv. unfold after_failure, of_account. cbv zeta.
  destruct (s_IPThrottle s); [|apply counted_fail; lia]. destruct (String.eqb (t_ip a) EmptyString); [apply counted_fail; lia|].
  rewrite counted_fail, counted_fail by lia. rewrite ip_key_differs by done. simpl. lia.
Qed.

Lemma count_within_app u g f : count_where (within u) (g ++ [f]) = count_where (within u) g + (if within u f then 1 else 0).
Proof. rewrite count_app. f_equal. unfold count_where. simpl. by destruct (within u f). Qed.

Lemma count_mono {A} (p q : A -> bool) l : (forall x, x ∈ l -> p x = true -> q x = true) -> count_where p l <= count_where q l.
Proof.
  unfold count_where. induction l as [|x l IH]; intros H; [done|]. simpl. specialize (IH ltac:(intros y Hy; apply H; set_solver)).
  pose proof (H x ltac:(set_solver)) as Hx. destruct (p x), (q x); simpl; try lia; exfalso; by specialize (Hx eq_refl).
Qed.

Lemma guesses_bounded_from k l : forall t d past,
  HasPrefix k "ip " = false -> in_order t l ->
  (forall a adm, (a, Ok adm) ∈ outcomes l d -> email_key (t_email a) <> k) ->
  (forall g, g ∈ past -> g <= t) ->
  (forall v, t <= v -> counted k (v - window) (t_failures d) = count_where (fun g => v - window <? g) past) ->
  (forall u, count_where (within u) past <= Z.max 0 max) ->
  forall u, count_where (within u) (past ++ guess_times k (outcomes l d)) <= Z.max 0 max.
Proof.
  induction l as [|a l IH]; intros t d past Hk Ho Hno Hpast Hc Hb u; [rewrite app_nil_r; apply Hb|].
  destruct Ho as ((Hta & Haf) & Hfi & Ho). cbn [outcomes]. pose proof (attempt_effect a d) as He.
  set (res := (attempted a d).1) in *. set (d1 := (attempted a d).2) in *.
  assert (forall a' adm, (a', Ok adm) ∈ outcomes l d1 -> email_key (t_email a') <> k) as Hno1 by (intros a' adm Hin; apply (Hno a' adm); cbn [outcomes]; set_solver).
  assert (forall g, g ∈ past -> g <= at_failed_ip (t_readings a)) as Hpast1 by (intros g Hg; specialize (Hpast g Hg); lia).
  unfold guess_times in *. cbn [List.filter map fst snd]. destruct (of_account k a && wrong_guess a res) eqn:Eg.
  - apply andb_true_iff in Eg as [Ek Ew]. cbn [map fst]. rewrite cons_middle, app_assoc. inversion He as [e Hwe Heq1 Heq2|e Hwe Hal Heq1 Heq2|adm Heq1 Heq2]; [congruence| |].
    + apply (IH (at_failed_ip (t_readings a))); try done.
      * intros g [Hg| ->%list_elem_of_singleton]%elem_of_app; [auto|lia].
      * intros v Hv. rewrite <- Heq2, counted_after, count_app, (Hc v) by (done || lia). rewrite Ek. simpl. f_equal. unfold count_where. simpl. by destruct (_ <? _).
      * intros v. rewrite count_within_app. destruct (within v _) eqn:Ewv; [|specialize (Hb v); lia]. unfold within in Ewv.
        unfold StoreAllowed, CountLoginFailures in Hal. simpl in Hal. apply String.eqb_eq in Ek. rewrite Ek in Hal.
        fold (counted k (at_asked (t_readings a) - window) (t_failures d)) in Hal. rewrite Hc in Hal by done.
        assert (count_where (within v) past <= count_where (fun g => at_asked (t_readings a) - window <? g) past); [|lia].
        apply count_mono. unfold within. intros x _ Hx. lia.
    + exfalso. apply (Hno a adm); [cbn [outcomes]; fold res; rewrite <- Heq1; set_solver|]. by apply String.eqb_eq.
  - apply (IH (at_failed_ip (t_readings a))); try done. intros v Hv. rewrite <- (Hc v) by lia. inversion He as [e Hwe Heq1 Heq2|e Hwe Hal Heq1 Heq2|adm Heq1 Heq2]; [done| |].
    + rewrite <- Heq1, Hwe, andb_true_r in Eg. rewrite counted_after, Eg by (done || lia). simpl. lia.
    + apply counted_clear. apply (Hno a adm). cbn [outcomes]. fold res. rewrite <- Heq1. set_solver.
Qed.

(** C23. However sign-ins come, one after the other and from wherever, an account
    that does not sign in meanwhile answers at most [max] wrong guesses in any
    window: the others are refused before a password is looked at. *)
Theorem guesses_are_bounded k l t d :
  HasPrefix k "ip " = false -> in_order t l -> t_failures d = [] ->
  (forall a adm, (a, Ok adm) ∈ outcomes l d -> email_key (t_email a) <> k) ->
  forall u, count_where (within u) (guess_times k (outcomes l d)) <= Z.max 0 max.
Proof.
  intros Hk Ho Hd Hno u. apply (guesses_bounded_from k l t d [] Hk Ho Hno); try done; [set_solver| |unfold count_where; simpl; lia].
  intros v _. by rewrite Hd.
Qed.
End Guesses.

(** ** A code is used once *)

(** The operations that give an account another secret, or none. *)
Definition replaces_secret (id : string) (o : op) : bool :=
  match o with OpEnableTOTP _ _ i _ | OpDisableTOTP i _ => String.eqb i id | _ => false end.

Section Codes.
Variable IDKey : string -> string -> Z -> Z -> Z -> Z -> string.
Variable GenerateCode : string -> time -> option string.
Variable hashToken : string -> string.
Variable json_time : time -> string.
Variable dummyHash : string.
Variable s : Service.
Hypothesis service_counts_only : service_counts s.
Variable id : string.

Abbreviation run := (history IDKey GenerateCode hashToken json_time dummyHash s).
Abbreviation sign_in := (AuthenticateFrom IDKey GenerateCode dummyHash s).
Abbreviation keep_codes := (evolve t_admins (codes_count_up id)).

Lemma update_codes {E} i f :
  (forall a, ad_ID (f a) = ad_ID a /\ ad_TOTPSecret (f a) = ad_TOTPSecret a) -> tkeeps keep_codes (update_admin i f : atx E unit).
Proof.
  intros Hf. apply update_admin_evolves; [apply _|]. intros x _. split; [apply Hf|]. intros _ _. simpl. split; [apply Hf|lia].
Qed.
Lemma claim_codes {E} i step : tkeeps keep_codes (ClaimTOTPStep i step : atx E bool).
Proof. intros d. eapply evolve_update; [apply _|reflexivity|]. intros x _ [_ Hx]%andb_true_iff. split; [done|]. simpl. intros _ _. split; [done|lia]. Qed.
Lemma totp_codes {E} i sec : i <> id -> tkeeps keep_codes (UpdateAdminTOTP i sec : atx E unit).
Proof. intros Hi d. eapply evolve_update; [apply _|reflexivity|]. intros x _ Hx%String.eqb_eq. split; [done|]. intros Hx2. congruence. Qed.
Lemma replace_codes {E} i old sealed : IsSealedTOTP old = false -> tkeeps keep_codes (ReplaceTOTPSecret i old sealed : atx E unit).
Proof.
  intros Ho d. eapply evolve_update; [apply _|reflexivity|]. intros x _ [_ Hx%String.eqb_eq]%andb_true_iff. split; [done|]. intros _ Hs. congruence.
Qed.
Lemma set_scope_codes i sc : tkeeps keep_codes (SetAdminScope i sc).
Proof. unfold SetAdminScope. follow. by apply update_codes. Qed.
Lemma update_oidc_codes i email role : tkeeps keep_codes (UpdateOIDCAdmin i email role).
Proof.
  intros d. unfold UpdateOIDCAdmin. destruct (_ && _); [reflexivity|]. eapply evolve_update; [apply _|reflexivity|]. intros x _ _. split; [done|].
  intros _ _. simpl. split; [done|lia].
Qed.
#[local] Hint Resolve claim_codes set_scope_codes update_oidc_codes : auth.
#[local] Hint Extern 1 (tkeeps keep_codes (UpdateAdminTOTP _ _)) => (apply totp_codes; by apply String.eqb_neq) : auth.
#[local] Hint Extern 1 (tkeeps keep_codes (RecordAdminLogin _ _)) => (apply update_codes; done) : auth.
#[local] Hint Extern 1 (tkeeps keep_codes (UpdateAdminPassword _ _)) => (apply update_codes; done) : auth.
#[local] Hint Extern 1 (tkeeps keep_codes (SetAdminDisabled _ _)) => (apply update_codes; done) : auth.

Lemma codes_kept o d : replaces_secret id o = false -> keep_codes d (apply IDKey GenerateCode hashToken json_time dummyHash s o d).
Proof.
  destruct o; intros Ho; cbn [apply]; try apply (tkeeps_apply keep_codes).
  - unfold AuthenticateFrom, verifyPassword, check_code, signed_in. follow.
  - unfold CreateSession. follow.
  - unfold ValidateSession. follow.
  - unfold DeleteSession. follow.
  - follow.
  - unfold SetScope. follow.
  - unfold CreateAdmin. follow.
  - unfold SetPassword. follow.
  - unfold EnableTOTP. follow.
  - unfold DisableTOTP. follow.
  - unfold SealTOTPSecrets. apply seal_secrets_keep; [apply _|]. intros i old sealed (r & [= -> ->] & [_ Hp]%elem_of_filterb)%list_elem_of_fmap.
    apply replace_codes. unfold is_plain_secret in Hp. apply andb_true_iff in Hp as [_ Hp]. by apply negb_true_iff in Hp.
  - unfold SetDisabled. follow.
  - unfold CreateAPIToken. follow.
  - unfold AuthenticateAPIToken. follow.
  - unfold RevokeAPIToken. follow.
  - follow.
  - apply sign_in_keeps; [apply _|]. unfold sign_in_body, cutOff, refused, refresh, provision, applySSOScope. follow.
Qed.

Lemma opened_is_sealed k i stored secret : openTOTP k i stored = Ok secret -> IsSealedTOTP stored = true /\ stored <> EmptyString.
Proof.
  unfold openTOTP, IsSealedTOTP, HasPrefix. destruct k; [|done]. destruct (CutPrefix sealedPrefix stored) eqn:E; [|done]. intros _. split; [done|]. by intros ->.
Qed.

(** C28. A code is used once: after a sign-in with an authenticator's code, and
    whatever requests come in between unless one replaces the secret, the next
    sign-in to the account is with a code of a later time step. So the same
    code does not work again, for whoever saw it typed. *)
Theorem codes_are_used_once w1 slot1 ip1 email1 pw1 code1 d a d1 ops w2 slot2 ip2 email2 pw2 code2 b d2 :
  Inv d -> sign_in w1 slot1 ip1 email1 pw1 code1 d = (Ok a, d1) -> ad_ID a = id -> ad_TOTPSecret a <> EmptyString ->
  Forall (fun o => replaces_secret id o = false) ops ->
  sign_in w2 slot2 ip2 email2 pw2 code2 (run ops d1) = (Ok b, d2) -> ad_ID b = id ->
  exists secret step1 step2, matchTOTP GenerateCode secret code1 (at_code w1) = Some step1 /\
    matchTOTP GenerateCode secret code2 (at_code w2) = Some step2 /\ step1 < step2.
Proof.
  intros HI E1 Hid Hsec Hops E2 Hidb.
  assert (Inv d1) as HI1.
  { pose proof (apply_inv IDKey GenerateCode hashToken json_time dummyHash s service_counts_only (OpSignIn w1 slot1 ip1 email1 pw1 code1) d HI) as H.
    cbn [apply] in H. by rewrite E1 in H. }
  pose proof (history_inv IDKey GenerateCode hashToken json_time dummyHash s service_counts_only ops d1 HI1) as HI2.
  apply sign_in_Ok in E1 as (_ & _ & _ & _ & _ & r & _ & -> & _ & y & Hy & Hya & Hcode); [|done|done].
  destruct Hcode as [|(secret & Ho & Hm & _)]; [done|].
  pose proof (history_keeps IDKey GenerateCode hashToken json_time dummyHash s keep_codes _ ops d1 codes_kept Hops) as Hkeep.
  destruct (Hkeep y Hy) as (z & Hz & Hzi & Hzc). rewrite Hya in Hzc, Hzi. destruct (opened_is_sealed _ _ _ _ Ho) as [Hseal _].
  destruct (Hzc Hid Hseal) as [Hzs Hzl]. simpl in Hzs, Hid, Hidb.
  apply sign_in_Ok in E2 as (_ & _ & _ & _ & _ & r2 & (Hr2 & _) & -> & _ & y2 & _ & _ & Hcode2); [|done|done].
  assert (z = r2) as -> by (apply (ids_inj (run ops d1)); try done; simpl in *; by rewrite Hzi, Hid, Hidb).
  simpl in Hzi. destruct Hcode2 as [He|(secret2 & Ho2 & Hm2 & Hlt)]; [simpl in Hsec; by rewrite <- Hzs, He in Hsec|].
  rewrite Hzs, Hzi in Ho2. rewrite Ho in Ho2. injection Ho2 as <-. exists secret, (r_LastStep y), (r_LastStep y2). split; [done|]. split; [done|lia].
Qed.
End Codes.
