(* ===== verification/Sessions.v ===== *)
(** * Sessions and API tokens

    Which sessions and tokens are taken, what they allow, and that they end:
    with their time, with their owner, and when they are revoked. *)
From S2P Require Export AuthInv.

Open Scope Z_scope.
Open Scope go_scope.

(** ** Tokens that change only so *)

Section Tokens.
Context (r : APIToken -> APIToken -> Prop) `{!PreOrder r}.

Lemma tokens_alone {E A} (m : atx E A) : (forall d, t_tokens (m d).2 = t_tokens d) -> tkeeps (evolve t_tokens r) m.
Proof. intros Hm d. by apply evolve_same. Qed.

Lemma CreateAdmin_tokens a : tkeeps (evolve t_tokens r) (AuthStore.CreateAdmin a).
Proof. apply tokens_alone. intros d. unfold AuthStore.CreateAdmin. by destruct (_ || _). Qed.
Lemma UpdateOIDCAdmin_tokens id email role : tkeeps (evolve t_tokens r) (UpdateOIDCAdmin id email role).
Proof. apply tokens_alone. intros d. unfold UpdateOIDCAdmin. by destruct (_ && _). Qed.
Lemma CreateSession_tokens x : tkeeps (evolve t_tokens r) (AuthStore.CreateSession x).
Proof. apply tokens_alone. intros d. unfold AuthStore.CreateSession. by destruct (_ || _). Qed.
Lemma insert_scopes_tokens id gs : tkeeps (evolve t_tokens r) (insert_scopes id gs).
Proof.
  apply tokens_alone. induction gs as [|g gs IH]; intros d; simpl; [done|]. unfold tbind, insert_scope.
  repeat (destruct (_ : bool); simpl; try done); by rewrite IH.
Qed.
Lemma CreateAPIToken_tokens x : tkeeps (evolve t_tokens r) (AuthStore.CreateAPIToken x).
Proof. intros d. unfold AuthStore.CreateAPIToken. repeat (destruct (_ : bool); try reflexivity). eapply evolve_app; [done|reflexivity]. Qed.
End Tokens.

#[export] Hint Resolve CreateAdmin_tokens UpdateOIDCAdmin_tokens CreateSession_tokens insert_scopes_tokens CreateAPIToken_tokens : auth.
#[export] Hint Extern 2 (tkeeps (evolve t_tokens _) _) => (apply tokens_alone; [apply _|intros ?; reflexivity]) : auth.

Section Sessions.
Variable IDKey : string -> string -> Z -> Z -> Z -> Z -> string.
Variable GenerateCode : string -> time -> option string.
Variable hashToken : string -> string.
Variable json_time : time -> string.
Variable dummyHash : string.
Variable s : Service.
Hypothesis service_counts_only : service_counts s.

Abbreviation run := (history IDKey GenerateCode hashToken json_time dummyHash s).
Abbreviation step := (apply IDKey GenerateCode hashToken json_time dummyHash s).

Lemma revoke_kept {E} id at_ : tkeeps (evolve t_tokens token_kept) (AuthStore.RevokeAPIToken id at_ : atx E bool).
Proof. intros d. eapply evolve_update; [apply _|reflexivity|]. intros x _ [_ Hl]%andb_true_iff. repeat split. intros Hx. congruence. Qed.
Lemma revoke_all_kept {E} id at_ : tkeeps (evolve t_tokens token_kept) (RevokeAPITokensForAdmin id at_ : atx E Z).
Proof. intros d. eapply evolve_update; [apply _|reflexivity|]. intros x _ [_ Hl]%andb_true_iff. repeat split. intros Hx. congruence. Qed.
Lemma touch_kept {E} id at_ : tkeeps (evolve t_tokens token_kept) (TouchAPIToken id at_ : atx E unit).
Proof. intros d. eapply evolve_update; [apply _|reflexivity|]. by intros x _ _. Qed.
#[local] Hint Resolve revoke_kept revoke_all_kept touch_kept : auth.

Lemma tokens_kept o d : evolve t_tokens token_kept d (step o d).
Proof.
  destruct o; cbn [apply]; try apply (tkeeps_apply (evolve t_tokens token_kept)).
  - unfold AuthenticateFrom, verifyPassword, check_code, signed_in. follow.
  - unfold CreateSession. follow.
  - unfold ValidateSession. follow.
  - unfold DeleteSession. follow.
  - follow.
  - unfold SetScope, SetAdminScope. follow.
  - unfold CreateAdmin. follow.
  - unfold SetPassword. follow.
  - unfold EnableTOTP. follow.
  - unfold DisableTOTP. follow.
  - unfold SealTOTPSecrets. apply (seal_secrets_keep (evolve t_tokens token_kept)); auto with auth.
  - unfold SetDisabled. follow.
  - unfold CreateAPIToken. follow.
  - unfold AuthenticateAPIToken. follow.
  - unfold RevokeAPIToken. follow.
  - follow.
  - apply sign_in_keeps; [apply _|]. unfold sign_in_body, cutOff, refused, refresh, provision, applySSOScope, SetAdminScope. follow.
Qed.

(** ** API tokens *)

(** The token [plain] stands for, and whether it may be used at [now]. *)
Definition usable (d : adb) (now : time) (plain : string) (t : APIToken) (r : admin_row) : Prop :=
  HasPrefix plain APITokenPrefix = true /\ t ∈ t_tokens d /\ tk_TokenHash t = hashToken plain /\ tk_RevokedAt t = None /\ now < tk_ExpiresAt t /\
  r ∈ t_admins d /\ ad_ID (r_Admin r) = tk_CreatedByID t /\ ad_DisabledAt (r_Admin r) = None.

Definition lesser_role (a b : string) : string := if RoleRank a <? RoleRank b then a else b.

Lemma find_token d t :
  Inv d -> t ∈ t_tokens d -> forall p, (forall u, p u = true -> tk_TokenHash u = tk_TokenHash t) -> find p (t_tokens d) = if p t then Some t else None.
Proof.
  intros HI Ht p Hp. destruct (find p (t_tokens d)) as [u|] eqn:E.
  - apply find_some in E as [Hu%list_elem_of_In Hpu]. assert (u = t) as -> by (apply (NoDup_map_inj tk_TokenHash (t_tokens d)); [apply HI|done|done|by apply Hp]).
    by rewrite Hpu.
  - apply list_elem_of_In in Ht. by rewrite (find_none _ _ E t Ht).
Qed.

Lemma find_id d r : Inv d -> r ∈ t_admins d -> find (is_admin (ad_ID (r_Admin r))) (t_admins d) = Some r.
Proof.
  intros HI Hr. destruct (find _ _) as [x|] eqn:E.
  - apply find_row in E as [Hx Hxe%String.eqb_eq]. f_equal. by apply (ids_inj d).
  - apply list_elem_of_In in Hr. pose proof (find_none _ _ E r Hr) as H. unfold is_admin in H. by rewrite String.eqb_refl in H.
Qed.

Lemma usable_found d now plain t r :
  Inv d -> usable d now plain t r ->
  GetUsableAPIToken (hashToken plain) now d = (Ok (if RoleRank (ad_Role (r_Admin r)) <? RoleRank (tk_Role t) then set_tk_Role (ad_Role (r_Admin r)) t else t), d).
Proof.
  intros HI (_ & Ht & Hh & Hl & He & Hr & Hi & Hd). unfold GetUsableAPIToken. rewrite (find_token d t) by (try done; intros u [[Hu%String.eqb_eq _]%andb_true_iff _]%andb_true_iff; congruence).
  unfold live_token. rewrite Hh, String.eqb_refl, Hl, (proj2 (Z.ltb_lt _ _) He). simpl. rewrite <- Hi, find_id, Hd by done. simpl.
  assert (ValidRole (ad_Role (r_Admin r)) = true) as ->; [|by destruct (_ <? _)].
  pose proof (ko_rows _ (inv_admins d HI)) as Hrows. rewrite Forall_forall in Hrows.
  specialize (Hrows (key_of r) ltac:(apply list_elem_of_fmap; eauto)). simpl in Hrows. unfold row_allowed in Hrows. by apply andb_true_iff in Hrows as [? _].
Qed.

Lemma found_usable d now plain t : HasPrefix plain APITokenPrefix = true -> GetUsableAPIToken (hashToken plain) now d = (Ok t, d) -> exists u r, usable d now plain u r.
Proof.
  intros Hp. unfold GetUsableAPIToken. destruct (find _ (t_tokens d)) as [u|] eqn:E; [|done]. apply find_some in E as [Hu%list_elem_of_In Hb].
  apply andb_true_iff in Hb as [[Hh%String.eqb_eq Hl]%andb_true_iff He]. destruct (find _ (t_admins d)) as [r|] eqn:Er; [|done].
  apply find_row in Er as [Hr Hi%String.eqb_eq]. destruct (bool_decide _) eqn:Ed; [done|]. intros _. exists u, r.
  apply bool_decide_eq_false in Ed. unfold live_token in Hl. destruct (tk_RevokedAt u) eqn:Erv; [done|].
  split_and!; try done; [lia|]. destruct (ad_DisabledAt (r_Admin r)); [by destruct Ed|done].
Qed.

Lemma lookup_found {A} (m : atx db_error A) d a d' : m d = (Ok a, d') -> lookup_row m d = (Ok (Some a), d').
Proof. unfold lookup_row. by intros ->. Qed.

Lemma token_error now plain d :
  (forall u r, ~ usable d now plain u r) -> AuthenticateAPIToken hashToken now plain d = (Err ErrInvalidToken, d).
Proof.
  intros Hno. unfold AuthenticateAPIToken. destruct (HasPrefix plain APITokenPrefix) eqn:Hp; [|done]. simpl. unfold tbind at 1, lookup_row.
  pose proof (GetUsableAPIToken_reads (hashToken plain) now d) as Hd. destruct (GetUsableAPIToken _ _ d) as [[t|e] d'] eqn:E; simpl in Hd; subst d'.
  - destruct (found_usable d now plain t Hp E) as (u & r & Hu). by apply Hno in Hu.
  - assert (e = NoRow) as ->; [|done]. unfold GetUsableAPIToken in E. repeat (case_match; try congruence).
Qed.

Lemma usable_accepted now plain d u r :
  Inv d -> usable d now plain u r -> exists t d', AuthenticateAPIToken hashToken now plain d = (Ok t, d') /\
    tk_ID t = tk_ID u /\ tk_Role t = lesser_role (ad_Role (r_Admin r)) (tk_Role u) /\ tk_CreatedByID t = ad_ID (r_Admin r).
Proof.
  intros HI Hu. unfold AuthenticateAPIToken. rewrite (proj1 Hu). simpl. unfold tbind at 1.
  rewrite (lookup_found _ _ _ _ (usable_found d now plain u r HI Hu)). unfold needed, row_or, lesser_role.
  destruct Hu as (_ & _ & _ & _ & _ & _ & Hi & _). rewrite Hi. unfold tbind at 1, tret at 1.
  destruct (_ <? _); simpl; destruct (match tk_LastUsedAt u with Some _ => _ | None => _ end); do 2 eexists; (split; [reflexivity|]); done.
Qed.

(** A token is taken exactly while it should be - made here, neither revoked
    nor expired, its maker enabled - and with the lesser of its own role and
    the one its maker has now. Anything else ends in one error. *)
Theorem tokens_act_within_their_maker d now plain :
  Inv d ->
  (forall u r, usable d now plain u r -> exists t d', AuthenticateAPIToken hashToken now plain d = (Ok t, d') /\
     tk_ID t = tk_ID u /\ tk_Role t = lesser_role (ad_Role (r_Admin r)) (tk_Role u) /\ tk_CreatedByID t = ad_ID (r_Admin r)) /\
  ((forall u r, ~ usable d now plain u r) -> AuthenticateAPIToken hashToken now plain d = (Err ErrInvalidToken, d)).
Proof. intros HI. split; [by intros u r; apply usable_accepted|apply token_error]. Qed.

(** Neither does a revoked one come back. *)
Lemma revoked_now now id actor d d1 t :
  RevokeAPIToken now id actor d = (Ok tt, d1) -> t ∈ t_tokens d -> tk_ID t = id -> exists t1, t1 ∈ t_tokens d1 /\ tk_TokenHash t1 = tk_TokenHash t /\ live_token t1 = false.
Proof.
  unfold RevokeAPIToken. intros H Ht Hid. rewrite InTx_Ok in H. apply tbind_Ok in H as (o & d2 & Hl & (a & d3 & [-> ->]%row_or_Ok & H)%tbind_Ok).
  apply lookup_row_Ok in Hl. unfold GetAPIToken in Hl. apply row_or_Ok in Hl as [_ ->].
  apply tbind_Ok in H as (b & d3 & Hr & H). unfold AuthStore.RevokeAPIToken in Hr. cbn zeta in Hr. injection Hr as <- <-.
  set (d3 := set_t_tokens _ d) in *. assert (t_tokens d1 = t_tokens d3) as ->.
  { destruct (negb _); [by injection H as <-|]. unfold InsertAudit, aset in H. by injection H as <-. }
  exists (if is_token id t && live_token t then set_tk_RevokedAt now t else t). split; [simpl; by apply (update_where_in (fun t => is_token id t && live_token t))|].
  unfold is_token. rewrite Hid, String.eqb_refl. simpl. by destruct (live_token t) eqn:El.
Qed.

(** A revoked token stays revoked: whatever requests follow, it is refused. *)
Theorem revoked_tokens_are_refused now id actor d d1 t ops now' plain :
  Inv d -> RevokeAPIToken now id actor d = (Ok tt, d1) -> t ∈ t_tokens d -> tk_ID t = id -> hashToken plain = tk_TokenHash t ->
  (AuthenticateAPIToken hashToken now' plain (run ops d1)).1 = Err ErrInvalidToken.
Proof.
  intros HI Hr Ht Hid Hh. destruct (revoked_now now id actor d d1 t Hr Ht Hid) as (t1 & Ht1 & Hh1 & Hl1).
  assert (Inv d1) as HI1.
  { pose proof (apply_inv IDKey GenerateCode hashToken json_time dummyHash s service_counts_only (OpRevokeAPIToken now id actor) d HI) as H.
    cbn [apply] in H. by rewrite Hr in H. }
  pose proof (history_inv IDKey GenerateCode hashToken json_time dummyHash s service_counts_only ops d1 HI1) as HI2.
  pose proof (history_keeps IDKey GenerateCode hashToken json_time dummyHash s (evolve t_tokens token_kept) (fun _ => True) ops d1
    (fun o d _ => tokens_kept o d) ltac:(by apply Forall_true)) as Hk.
  destruct (Hk t1 Ht1) as (t2 & Ht2 & (_ & Hh2 & _ & _ & _ & Hl2)). rewrite token_error; [done|].
  intros u r (_ & Hu & Huh & Hul & _). assert (u = t2) as ->.
  { apply (NoDup_map_inj tk_TokenHash (t_tokens (run ops d1))); [apply HI2|done|done|congruence]. }
  rewrite (Hl2 Hl1) in Hul. unfold live_token in Hl1. by rewrite Hul in Hl1.
Qed.

(** ** Sessions *)

Definition owner_of (d : adb) (sn : Session) (r : admin_row) : Prop :=
  sn ∈ t_sessions d /\ r ∈ t_admins d /\ ad_ID (r_Admin r) = sn_AdminID sn.

Lemma session_found d sn r :
  Inv d -> owner_of d sn r -> GetSessionWithAdmin (sn_TokenHash sn) d = (Ok (sn, r_Admin r), d).
Proof.
  intros HI (Hs & Hr & Hi). unfold GetSessionWithAdmin. destruct (find (has_hash (sn_TokenHash sn)) (t_sessions d)) as [x|] eqn:E.
  - apply find_some in E as [Hx%list_elem_of_In He%String.eqb_eq].
    assert (x = sn) as -> by (apply (NoDup_map_inj sn_TokenHash (t_sessions d)); [apply HI|done..]). by rewrite <- Hi, (find_id d r HI Hr).
  - apply list_elem_of_In in Hs. pose proof (find_none _ _ E sn Hs) as H. unfold has_hash in H. by rewrite String.eqb_refl in H.
Qed.

Lemma sessions_validated d now token sn r :
  Inv d -> owner_of d sn r -> sn_TokenHash sn = hashToken token ->
  ValidateSession hashToken s now token d =
    if negb (now <? sn_ExpiresAt sn) then (Err ErrInvalidSession, (@AuthStore.DeleteSession auth_error (hashToken token) d).2)
    else if bool_decide (ad_DisabledAt (r_Admin r) <> None) then (Err ErrAccountDisabled, (@DeleteSessionsForAdmin auth_error (sn_AdminID sn) d).2)
    else if Sub now (sn_LastSeenAt sn) >=? touchInterval then
      let until := capped s (sn_CreatedAt sn) (Prelude.Add now (s_SessionTTL s)) in
      (Ok (r_Admin r, set_sn_seen now until sn), (@TouchSession auth_error (hashToken token) now until d).2)
    else (Ok (r_Admin r, sn), d).
Proof.
  intros HI Ho Hh. unfold ValidateSession. cbv zeta. unfold tbind at 1. rewrite <- Hh, (lookup_found _ _ _ _ (session_found d sn r HI Ho)).
  unfold Before. destruct (negb (now <? sn_ExpiresAt sn)); [done|]. destruct Ho as (_ & _ & Hi). rewrite <- Hi.
  destruct (bool_decide _); [done|]. by destruct (_ >=? _).
Qed.

(** A session is good for as long as it has not expired and its owner is
    enabled, and using it extends it, but never past what [MaxSessionLifetime]
    allows from its start. One that has expired is deleted; those of somebody
    disabled all are; a token nobody was given is not a session. *)
Theorem sessions_are_validated d now token sn r :
  Inv d -> owner_of d sn r -> sn_TokenHash sn = hashToken token ->
  ValidateSession hashToken s now token d =
    if negb (now <? sn_ExpiresAt sn) then (Err ErrInvalidSession, (@AuthStore.DeleteSession auth_error (hashToken token) d).2)
    else if bool_decide (ad_DisabledAt (r_Admin r) <> None) then (Err ErrAccountDisabled, (@DeleteSessionsForAdmin auth_error (sn_AdminID sn) d).2)
    else if Sub now (sn_LastSeenAt sn) >=? touchInterval then
      let until := capped s (sn_CreatedAt sn) (Prelude.Add now (s_SessionTTL s)) in
      (Ok (r_Admin r, set_sn_seen now until sn), (@TouchSession auth_error (hashToken token) now until d).2)
    else (Ok (r_Admin r, sn), d).
Proof. by apply sessions_validated. Qed.

Lemma unknown_session d now token :
  (forall sn, sn ∈ t_sessions d -> sn_TokenHash sn <> hashToken token) -> ValidateSession hashToken s now token d = (Err ErrInvalidSession, d).
Proof.
  intros Hno. unfold ValidateSession. cbv zeta. unfold tbind at 1, lookup_row, GetSessionWithAdmin.
  destruct (find _ _) as [sn|] eqn:E; [|done]. apply find_some in E as [Hs%list_elem_of_In He%String.eqb_eq]. by apply Hno in Hs.
Qed.

Lemma session_or_not d token :
  Inv d -> (exists sn r, owner_of d sn r /\ sn_TokenHash sn = hashToken token) \/ (forall sn, sn ∈ t_sessions d -> sn_TokenHash sn <> hashToken token).
Proof.
  intros HI. destruct (existsb (has_hash (hashToken token)) (t_sessions d)) eqn:E.
  - left. apply existsb_elem in E as (sn & Hs & Hh%String.eqb_eq). pose proof (inv_sessions d HI) as H. rewrite Forall_forall in H.
    specialize (H sn Hs). unfold known in H. rewrite map_map in H. apply list_elem_of_fmap in H as (r & Hr & Hin). by exists sn, r.
  - right. rewrite existsb_none in E. intros sn Hs Hh. specialize (E sn Hs). unfold has_hash in E. by rewrite Hh, String.eqb_refl in E.
Qed.
End Sessions.

(** ** Sessions end

    Over any number of requests: a session does not outlive its cap, and an
    account that was signed out everywhere has no session until it signs in. *)

(** What holds of every session goes on holding. *)
Definition all_sessions (P : Session -> Prop) (d d' : adb) : Prop :=
  (forall sn, sn ∈ t_sessions d -> P sn) -> forall sn, sn ∈ t_sessions d' -> P sn.

Section All.
Context (P : Session -> Prop).

#[export] Instance all_sessions_preorder : PreOrder (all_sessions P).
Proof. split; unfold all_sessions; [by intros d|]. intros a b c. auto. Qed.
#[export] Instance all_sessions_counts : Counts (all_sessions P).
Proof. intros d d' (_ & Hs & _). unfold all_sessions. by rewrite Hs. Qed.

Lemma sessions_alone {E A} (m : atx E A) : (forall d, t_sessions (m d).2 = t_sessions d) -> tkeeps (all_sessions P) m.
Proof. intros Hm d. unfold all_sessions. by rewrite Hm. Qed.

Lemma CreateAdmin_sessions a : tkeeps (all_sessions P) (AuthStore.CreateAdmin a).
Proof. apply sessions_alone. intros d. unfold AuthStore.CreateAdmin. by destruct (_ || _). Qed.
Lemma UpdateOIDCAdmin_sessions id email role : tkeeps (all_sessions P) (UpdateOIDCAdmin id email role).
Proof. apply sessions_alone. intros d. unfold UpdateOIDCAdmin. by destruct (_ && _). Qed.
Lemma CreateAPIToken_sessions x : tkeeps (all_sessions P) (AuthStore.CreateAPIToken x).
Proof. apply sessions_alone. intros d. unfold AuthStore.CreateAPIToken. by repeat (destruct (_ : bool); try reflexivity). Qed.
Lemma insert_scopes_sessions id gs : tkeeps (all_sessions P) (insert_scopes id gs).
Proof.
  apply sessions_alone. induction gs as [|g gs IH]; intros d; simpl; [done|]. unfold tbind, insert_scope.
  repeat (destruct (_ : bool); simpl; try done); by rewrite IH.
Qed.
Lemma filter_sessions {E A} (m : atx E A) (p : adb -> Session -> bool) :
  (forall d, t_sessions (m d).2 = List.filter (p d) (t_sessions d)) -> tkeeps (all_sessions P) m.
Proof. intros Hm d HP sn. rewrite Hm. intros [Hs _]%elem_of_filterb. auto. Qed.
Lemma touch_sessions {E} hash seen expires :
  (forall sn, P sn -> P (set_sn_seen seen expires sn)) -> tkeeps (all_sessions P) (TouchSession hash seen expires : atx E unit).
Proof. intros Ht d HP sn. simpl. intros (x & Hx & ->)%elem_of_update_where. destruct (has_hash hash x); auto. Qed.
Lemma create_sessions x : P x -> tkeeps (all_sessions P) (AuthStore.CreateSession x).
Proof.
  intros Hx d. unfold AuthStore.CreateSession. destruct (_ || _); [reflexivity|]. intros HP sn. simpl. intros [Hs| ->%list_elem_of_singleton]%elem_of_app; auto.
Qed.
End All.

#[export] Hint Resolve CreateAdmin_sessions UpdateOIDCAdmin_sessions CreateAPIToken_sessions insert_scopes_sessions : auth.
#[export] Hint Extern 2 (tkeeps (all_sessions _) _) => (apply sessions_alone; intros ?; reflexivity) : auth.
#[export] Hint Extern 3 (tkeeps (all_sessions _) _) => (eapply filter_sessions; intros ?; reflexivity) : auth.

Section Ends.
Variable IDKey : string -> string -> Z -> Z -> Z -> Z -> string.
Variable GenerateCode : string -> time -> option string.
Variable hashToken : string -> string.
Variable json_time : time -> string.
Variable dummyHash : string.
Variable s : Service.
Hypothesis service_counts_only : service_counts s.

Abbreviation run := (history IDKey GenerateCode hashToken json_time dummyHash s).
Abbreviation step := (apply IDKey GenerateCode hashToken json_time dummyHash s).

(** Every operation but those that open a session, or use one. *)
Lemma sessions_only (P : Session -> Prop) o d :
  match o with OpCreateSession _ _ _ _ _ _ | OpValidateSession _ _ => False | _ => True end -> all_sessions P d (step o d).
Proof.
  destruct o; intros Ho; try done; cbn [apply]; try apply (tkeeps_apply (all_sessions P)).
  - unfold AuthenticateFrom, verifyPassword, check_code, signed_in. follow.
  - unfold DeleteSession. follow.
  - follow.
  - unfold SetScope, SetAdminScope. follow.
  - unfold CreateAdmin. follow.
  - unfold SetPassword. follow.
  - unfold EnableTOTP. follow.
  - unfold DisableTOTP. follow.
  - unfold SealTOTPSecrets. apply (seal_secrets_keep (all_sessions P)); auto with auth.
  - unfold SetDisabled. follow.
  - unfold CreateAPIToken. follow.
  - unfold AuthenticateAPIToken. follow.
  - unfold RevokeAPIToken. follow.
  - follow.
  - apply sign_in_keeps; [apply _|]. unfold sign_in_body, cutOff, refused, refresh, provision, applySSOScope, SetAdminScope. follow.
Qed.

(** ** Signed out everywhere *)

Definition opens_session (id : string) (o : op) : bool := match o with OpCreateSession _ _ _ i _ _ => String.eqb i id | _ => false end.

Definition not_of (id : string) (sn : Session) : Prop := sn_AdminID sn <> id.

Lemma still_out id o d : opens_session id o = false -> all_sessions (not_of id) d (step o d).
Proof.
  intros Ho. destruct o; try (by apply sessions_only); cbn [apply]; apply (tkeeps_apply (all_sessions (not_of id))).
  - unfold CreateSession. follow. apply create_sessions. by apply String.eqb_neq.
  - unfold ValidateSession. follow. by apply touch_sessions.
Qed.

Lemma password_signs_out salt id password actor d d1 :
  SetPassword IDKey salt id password actor d = (Ok tt, d1) -> forall sn, sn ∈ t_sessions d1 -> not_of id sn.
Proof.
  unfold SetPassword. destruct (HashPassword _ _ _); [|done]. intros H. rewrite InTx_Ok in H. apply with_admin_Ok in H as (r & _ & _ & H).
  txs. unfold UpdateAdminPassword in *. effects. intros sn [_ Hn%negb_true_iff%String.eqb_neq]%elem_of_filterb. done.
Qed.

Lemma disabling_signs_out now id actor d d1 :
  SetDisabled now id true actor d = (Ok tt, d1) -> forall sn, sn ∈ t_sessions d1 -> not_of id sn.
Proof.
  unfold SetDisabled. intros H. rewrite InTx_Ok in H. apply with_admin_Ok in H as (r & _ & Hid & H).
  txs. effects. intros sn [_ Hn%negb_true_iff%String.eqb_neq]%elem_of_filterb. done.
Qed.

(** Changing an account's password and disabling it sign it out everywhere:
    until a session is opened for it again, no token of any kind makes a
    request as that account. *)
Theorem signed_out_everywhere id d d1 ops now token a sn d2 :
  (exists salt password actor, SetPassword IDKey salt id password actor d = (Ok tt, d1)) \/
  (exists at_ actor, SetDisabled at_ id true actor d = (Ok tt, d1)) ->
  Forall (fun o => opens_session id o = false) ops ->
  ValidateSession hashToken s now token (run ops d1) = (Ok (a, sn), d2) -> ad_ID a <> id.
Proof.
  intros Hout Hops HV.
  assert (forall sn, sn ∈ t_sessions d1 -> not_of id sn) as H1.
  { destruct Hout as [(salt & pw & actor & H)|(at_ & actor & H)]; [by eapply password_signs_out|by eapply disabling_signs_out]. }
  pose proof (history_keeps IDKey GenerateCode hashToken json_time dummyHash s (all_sessions (not_of id)) _ ops d1 (still_out id) Hops H1) as H2.
  unfold ValidateSession in HV. cbv zeta in HV. apply tbind_Ok in HV as (o & d3 & Hl & HV). apply lookup_row_Ok in Hl.
  destruct o as [[sn0 adm]|]; [|done]. unfold GetSessionWithAdmin in Hl. destruct (find _ (t_sessions _)) as [x|] eqn:E; [|done].
  destruct (find (is_admin _) _) as [r|] eqn:Er; [|done]. injection Hl as <- <- <-. apply find_some in E as [Hx%list_elem_of_In _].
  apply find_row in Er as [_ Hi%String.eqb_eq]. specialize (H2 x Hx). unfold not_of in H2.
  assert (a = r_Admin r) as ->; [|congruence]. destruct (negb _); [by txs|]. destruct (bool_decide _); [by txs|]. by destruct (_ >=? _); txs.
Qed.

(** ** The cap *)

Definition capped_session (sn : Session) : Prop := sn_ExpiresAt sn <= sn_CreatedAt sn + s_MaxSessionLifetime s.

Lemma capped_le created expires : 0 < s_MaxSessionLifetime s -> capped s created expires <= created + s_MaxSessionLifetime s.
Proof.
  intros Hm. unfold capped, After, Prelude.Add. destruct (Z.leb_spec (s_MaxSessionLifetime s) 0); [lia|]. destruct (Z.gtb_spec expires (created + s_MaxSessionLifetime s)); lia.
Qed.

Lemma capped_step o d :
  0 < s_MaxSessionLifetime s -> Inv d -> all_sessions capped_session d (step o d).
Proof.
  intros Hm HI. destruct o; try (by apply sessions_only); cbn [apply].
  - apply (tkeeps_apply (all_sessions capped_session)). unfold CreateSession. follow. apply create_sessions. by apply capped_le.
  - destruct (session_or_not hashToken d token HI) as [(sn & r & Ho & Hh)|Hno]; [|by rewrite unknown_session].
    rewrite (sessions_validated hashToken s d now token sn r HI Ho Hh). destruct (negb _); [intros HP x [Hx _]%elem_of_filterb; auto|].
    destruct (bool_decide _); [intros HP x [Hx _]%elem_of_filterb; auto|]. destruct (_ >=? _); [|done]. cbv zeta.
    intros HP x. simpl. intros (y & Hy & ->)%elem_of_update_where. destruct (has_hash (hashToken token) y) eqn:Ey; [|auto]. apply String.eqb_eq in Ey.
    assert (y = sn) as -> by (apply (NoDup_map_inj sn_TokenHash (t_sessions d)); [apply HI|done|apply Ho|congruence]).
    unfold capped_session. simpl. by apply capped_le.
Qed.

(** No session outlives [MaxSessionLifetime], however busy it is: a request
    made with one comes within that time of the sign-in, before its expiry, and
    from an account that is enabled. *)
Theorem sessions_end ops d now token a sn d2 :
  0 < s_MaxSessionLifetime s -> Inv d -> (forall sn, sn ∈ t_sessions d -> capped_session sn) ->
  ValidateSession hashToken s now token (run ops d) = (Ok (a, sn), d2) ->
  now < sn_CreatedAt sn + s_MaxSessionLifetime s /\ ad_DisabledAt a = None.
Proof.
  intros Hm HI Hcap HV.
  assert (Inv (run ops d) /\ forall sn, sn ∈ t_sessions (run ops d) -> capped_session sn) as [HI2 Hcap2].
  { clear HV. revert d HI Hcap. induction ops as [|o ops IH]; intros d HI Hcap; [done|]. simpl. apply IH; [by apply apply_inv|by apply capped_step]. }
  destruct (session_or_not hashToken _ token HI2) as [(sn0 & r & Ho & Hh)|Hno]; [|by rewrite unknown_session in HV].
  rewrite (sessions_validated hashToken s _ now token sn0 r HI2 Ho Hh) in HV. specialize (Hcap2 sn0 (proj1 Ho)). unfold capped_session in Hcap2.
  destruct (Z.ltb_spec now (sn_ExpiresAt sn0)); [simpl in HV|done]. destruct (bool_decide _) eqn:Ed; [done|]. apply bool_decide_eq_false in Ed.
  assert (ad_DisabledAt (r_Admin r) = None) as Hen by (destruct (ad_DisabledAt (r_Admin r)); [by destruct Ed|done]).
  destruct (_ >=? _); injection HV as <- <- _; simpl; split; try done; lia.
Qed.
End Ends.
