(* ===== verification/SsoProps.v ===== *)
(** * What the identity provider decides

    A sign-in through the provider gives the account of that subject the role
    and the devices its groups say, touches nobody else's account, and takes
    back what it gave when the groups say nothing. A sign-in ends in the
    browser that started it. *)
From S2P Require Export Sessions.
Open Scope Z_scope.
Open Scope go_scope.

(** ** Nobody else's account *)

(** The rows of other accounts are still there as they were. *)
Definition others_kept (id : string) (d d' : adb) : Prop :=
  (forall x, x ∈ t_admins d -> ad_ID (r_Admin x) <> id -> x ∈ t_admins d') /\ t_groups d' = t_groups d.
#[export] Instance others_kept_preorder id : PreOrder (others_kept id).
Proof. split; unfold others_kept; [by intros d|]. intros a b c [H1 E1] [H2 E2]. split; [auto|congruence]. Qed.
#[export] Instance others_kept_counts id : Counts (others_kept id).
Proof. intros d d' (Ha & _ & _ & _ & Hg). split; [by rewrite Ha|done]. Qed.

Lemma update_others {E A} id (m : atx E A) p f :
  (forall d, t_admins (m d).2 = update_where p f (t_admins d) /\ t_groups (m d).2 = t_groups d) ->
  (forall x, p x = true -> ad_ID (r_Admin x) = id) -> tkeeps (others_kept id) m.
Proof.
  intros Hm Hp d. destruct (Hm d) as [Ha Hg]. split; [|done]. intros x Hx Hn. rewrite Ha. apply elem_of_update_where. exists x. split; [done|].
  destruct (p x) eqn:Epx; [|done]. by apply Hp in Epx.
Qed.

Lemma login_others {E} id at_ : tkeeps (others_kept id) (RecordAdminLogin id at_ : atx E unit).
Proof. eapply (update_others id); [by intros d|]. by intros x ?%String.eqb_eq. Qed.
Lemma scoped_others {E} id b : tkeeps (others_kept id) (update_admin id (set_ad_Scoped b) : atx E unit).
Proof. eapply (update_others id); [by intros d|]. by intros x ?%String.eqb_eq. Qed.
Lemma oidc_others id email role : tkeeps (others_kept id) (UpdateOIDCAdmin id email role).
Proof.
  intros d. unfold UpdateOIDCAdmin. destruct (_ && _); [reflexivity|]. split; [|done]. intros x Hx Hn. simpl. apply elem_of_update_where. exists x. split; [done|].
  unfold is_admin. by rewrite (proj2 (String.eqb_neq _ _) Hn).
Qed.
Lemma create_others id a : tkeeps (others_kept id) (AuthStore.CreateAdmin a).
Proof. intros d. unfold AuthStore.CreateAdmin. destruct (_ || _); [reflexivity|]. split; [|done]. intros x Hx _. simpl. set_solver. Qed.
Lemma insert_scopes_frame id gs d : t_admins (insert_scopes id gs d).2 = t_admins d /\ t_groups (insert_scopes id gs d).2 = t_groups d.
Proof.
  revert d. induction gs as [|g gs IH]; intros d; simpl; [done|]. unfold tbind, insert_scope.
  repeat (destruct (_ : bool); simpl; try done); match goal with |- context [insert_scopes id gs ?x] => destruct (IH x) as [-> ->] end; done.
Qed.
Lemma insert_scopes_others id i gs : tkeeps (others_kept id) (insert_scopes i gs).
Proof. intros d. destruct (insert_scopes_frame i gs d) as [Ha Hg]. split; [by rewrite Ha|done]. Qed.
#[export] Hint Resolve login_others scoped_others oidc_others create_others insert_scopes_others : auth.
#[export] Hint Extern 2 (tkeeps (others_kept _) _) => (intros ?; split; [done|reflexivity]) : auth.

Lemma apply_scope_others admin sc actor : tkeeps (others_kept (ad_ID admin)) (applySSOScope admin sc actor).
Proof. unfold applySSOScope, SetAdminScope. follow. Qed.

(** ** The account *)

Lemma GetAdminByOIDC_Ok issuer subject d o d' :
  lookup_row (GetAdminByOIDC issuer subject) d = (Ok o, d') ->
  d' = d /\ match o with
            | Some a => exists r, r ∈ t_admins d /\ a = r_Admin r /\ ad_OIDCIssuer a = issuer /\ ad_OIDCSubject a = subject /\ subject <> EmptyString
            | None => forall r, r ∈ t_admins d -> has_identity issuer subject r = false
            end.
Proof.
  intros Hl. apply lookup_row_Ok in Hl. unfold GetAdminByOIDC in Hl. destruct (find (has_identity issuer subject) (t_admins d)) as [r|] eqn:E; simpl in Hl.
  - destruct o as [a|]; [|done]. injection Hl as <- <-. split; [done|]. apply find_row in E as [Hr He]. unfold has_identity in He.
    apply andb_true_iff in He as [[Hn%negb_true_iff%String.eqb_neq Hi%String.eqb_eq]%andb_true_iff Hs%String.eqb_eq]. exists r. by subst.
  - destruct o as [a|]; [done|]. injection Hl as <-. split; [done|]. intros r Hr. apply list_elem_of_In in Hr. by apply (find_none _ _ E).
Qed.

Lemma provider_row d r : Inv d -> r ∈ t_admins d -> ad_OIDCSubject (r_Admin r) <> EmptyString -> ad_AuthSource (r_Admin r) = AuthOIDC.
Proof.
  intros HI Hr Hs. pose proof (ko_rows _ (inv_admins d HI)) as H. rewrite Forall_forall in H. specialize (H (key_of r) ltac:(apply list_elem_of_fmap; eauto)).
  simpl in H. unfold row_allowed in H. apply andb_true_iff in H as [_ H]. apply orb_true_iff in H as [[[H _]%andb_true_iff _]%andb_true_iff|[_ H]%andb_true_iff].
  - by apply String.eqb_eq.
  - by apply String.eqb_eq in H.
Qed.

(** An account's row, and who it is for. *)
Definition account (d : adb) (id issuer subject email role : string) (y : admin_row) : Prop :=
  y ∈ t_admins d /\ ad_ID (r_Admin y) = id /\ ad_OIDCIssuer (r_Admin y) = issuer /\ ad_OIDCSubject (r_Admin y) = subject /\
  ad_Email (r_Admin y) = email /\ ad_Role (r_Admin y) = role /\ ad_AuthSource (r_Admin y) = AuthOIDC /\ ad_DisabledAt (r_Admin y) = None.

Lemma refresh_Ok d r email role a d' :
  Inv d -> r ∈ t_admins d -> ad_OIDCSubject (r_Admin r) <> EmptyString -> ad_DisabledAt (r_Admin r) = None ->
  refresh (r_Admin r) email role d = (Ok a, d') ->
  ad_ID a = ad_ID (r_Admin r) /\ others_kept (ad_ID a) d d' /\ t_scopes d' = t_scopes d /\
  exists y, account d' (ad_ID a) (ad_OIDCIssuer (r_Admin r)) (ad_OIDCSubject (r_Admin r)) email role y.
Proof.
  intros HI Hr Hs Hd. unfold refresh. intros H. apply tbind_Ok in H as (adm & d1 & H1 & H). apply tbind_Ok in H as ([] & d2 & H2 & [= <- <-]).
  pose proof (provider_row d r HI Hr Hs) as Hsrc.
  assert (t_admins d2 = t_admins d1 /\ t_groups d2 = t_groups d1 /\ t_scopes d2 = t_scopes d1) as (Ea & Eg & Es).
  { destruct (negb _) in H2; [unfold InsertAudit, aset in H2|]; by injection H2 as <-. }
  unfold account. rewrite Ea, Es. destruct (negb _ || negb _) eqn:Ec in H1.
  - apply tbind_Ok in H1 as ([] & d3 & H1 & [= <- <-]). apply tmap_err_Ok in H1.
    pose proof (oidc_others (ad_ID (r_Admin r)) email role d) as Ho. rewrite H1 in Ho. simpl in Ho. split; [done|].
    split; [split; [rewrite Ea; apply Ho|rewrite Eg; apply Ho]|].
    unfold UpdateOIDCAdmin in H1. destruct (_ && _); [done|]. injection H1 as <-. split; [done|].
    exists (mkRow (set_ad_identity email role (r_Admin r)) (r_LastStep r)). split; [|done]. simpl. apply elem_of_update_where. exists r. split; [done|].
    unfold is_admin. by rewrite String.eqb_refl, Hsrc.
  - txs. apply orb_false_iff in Ec as [Ee%negb_false_iff%String.eqb_eq Er%negb_false_iff%String.eqb_eq]. split; [done|].
    split; [split; [by rewrite Ea|done]|]. split; [done|]. exists r. by split_and!.
Qed.

Lemma provision_Ok new_id now issuer subject email role d a d' :
  provision new_id now issuer subject email role d = (Ok a, d') ->
  others_kept (ad_ID a) d d' /\ t_scopes d' = t_scopes d /\ exists y, account d' (ad_ID a) issuer subject email role y.
Proof.
  unfold provision. intros H. txs. unfold needed, row_or in H. destruct new_id as [id|]; [|done]. txs.
  match goal with H : db _ _ = _ |- _ => unfold db in H end. txs. match goal with H : AuthStore.CreateAdmin ?a ?d0 = (Ok ?u, ?d1) |- _ =>
    pose proof (create_others (ad_ID a) a d0) as Ho; rewrite H in Ho; unfold AuthStore.CreateAdmin in H; destruct (_ || _); [done|]; injection H as _ <- end.
  effects. split; [done|]. split; [done|]. eexists. split; [simpl; apply elem_of_app; right; by apply list_elem_of_singleton|]. by split_and!.
Qed.

(** ** Its devices *)

Definition group_named (d : adb) (name : string) : option (string * string) := find (fun g => String.eqb (ToLower g.2) (ToLower name)) (t_groups d).

(** The device groups there are of these names. *)
Definition named (d : adb) (names : list string) : list string := omap (fun n => option_map fst (group_named d n)) names.

Lemma named_groups_Ok names d r d' : named_groups names d = (Ok r, d') -> d' = d /\ map fst r.1 = named d names.
Proof.
  revert r d'. induction names as [|n names IH]; intros r d'; simpl; [by intros [= <- <-]|].
  intros H. apply tbind_Ok in H as (o & d1 & Hl & H). apply tbind_Ok in H as (rest & d2 & Hr & [= <- <-]).
  apply lookup_row_Ok in Hl. unfold GetGroupByName in Hl. fold (group_named d n) in Hl.
  assert (d1 = d /\ o = group_named d n) as [-> ->] by (destruct (group_named d n), o; simpl in Hl; try done; by injection Hl as <-; simplify_eq).
  apply IH in Hr as [-> Hm]. split; [done|]. destruct (group_named d n); simpl; by rewrite <- Hm.
Qed.

(** The groups an account is limited to, as the next request will read them. *)
Definition scope_is (d : adb) (id : string) (sc : ssoScope) : Prop :=
  if sc_fleet sc then AdminScope id d = (Ok None, d)
  else exists l, AdminScope id d = (Ok (Some l), d) /\ forall g, g ∈ l <-> g ∈ named d (sc_groups sc).

Lemma admin_scope_row d y :
  Inv d -> y ∈ t_admins d ->
  AdminScope (ad_ID (r_Admin y)) d = (Ok (if ad_Scoped (r_Admin y)
     then Some (order_by String.leb (map snd (List.filter (fun s => String.eqb s.1 (ad_ID (r_Admin y))) (t_scopes d)))) else None), d).
Proof. intros HI Hy. unfold AdminScope. rewrite (find_id d y HI Hy). by destruct (ad_Scoped (r_Admin y)). Qed.

Lemma elem_of_scopes id (l : list (string * string)) g :
  g ∈ order_by String.leb (map snd (List.filter (fun s => String.eqb s.1 id) l)) <-> (id, g) ∈ l.
Proof.
  rewrite elem_of_order_by, list_elem_of_fmap. split.
  - intros ([i h] & -> & [Hx He%String.eqb_eq]%elem_of_filterb). simpl in *. by subst.
  - intros H. exists (id, g). split; [done|]. apply elem_of_filterb. split; [done|]. by apply String.eqb_eq.
Qed.

Lemma insert_scopes_Ok id gs d u d' :
  insert_scopes id gs d = (Ok u, d') -> forall x, x ∈ t_scopes d' <-> x ∈ t_scopes d \/ x.1 = id /\ x.2 ∈ gs.
Proof.
  revert d. induction gs as [|g gs IH]; intros d; simpl; [intros [= _ <-]; set_solver|].
  intros H. apply tbind_Ok in H as ([] & d1 & H1 & H2). intros x. rewrite (IH _ H2 x). unfold insert_scope in H1.
  destruct (_ || _); [done|]. destruct (existsb _ (t_scopes d)) eqn:E; injection H1 as <-.
  - apply existsb_elem in E as (e & Hin & [He1%String.eqb_eq He2%String.eqb_eq]%andb_true_iff). rewrite elem_of_cons.
    split; [naive_solver|]. intros [?|[Hx1 [Hx2|?]]]; auto. left. assert (x = e) as ->; [|done]. destruct x, e. simpl in *. congruence.
  - cbn [t_scopes set_t_scopes]. rewrite elem_of_app, list_elem_of_singleton, elem_of_cons. destruct x as [i h]. simpl. naive_solver.
Qed.

Lemma set_scope_scopes id sc d u d' :
  SetAdminScope id sc d = (Ok u, d') -> (forall g, (id, g) ∈ t_scopes d' <-> g ∈ default [] sc) /\ t_groups d' = t_groups d.
Proof.
  unfold SetAdminScope. intros H. apply tbind_Ok in H as ([] & d1 & [= <-] & H). apply tbind_Ok in H as ([] & d2 & [= <-] & H).
  split.
  - intros g. rewrite (insert_scopes_Ok _ _ _ _ _ H). simpl. rewrite elem_of_filterb. simpl. rewrite String.eqb_refl. naive_solver.
  - match type of H with insert_scopes _ _ ?x = _ => pose proof (proj2 (insert_scopes_frame id (default [] sc) x)) as Hg; rewrite H in Hg; simpl in Hg; by rewrite Hg end.
Qed.

Lemma named_NoDup d names : NoDup (map fst (t_groups d)) -> NoDup (map ToLower names) -> NoDup (named d names).
Proof.
  intros Hg. induction names as [|n names IH]; simpl; [constructor|]. intros [Hn Hns]%NoDup_cons. specialize (IH Hns). unfold named. simpl.
  destruct (group_named d n) as [g|] eqn:E; simpl; [|done]. constructor; [|done]. intros Hin. apply list_elem_of_omap in Hin as (m & Hm & Hgm).
  destruct (group_named d m) as [h|] eqn:E2; [|done]. injection Hgm as Hid. unfold group_named in E, E2.
  apply find_some in E as [Hg1%list_elem_of_In Hl1%String.eqb_eq]. apply find_some in E2 as [Hg2%list_elem_of_In Hl2%String.eqb_eq].
  assert (h = g) as -> by (by apply (NoDup_map_inj fst (t_groups d))). apply Hn. rewrite <- Hl1, Hl2. apply list_elem_of_fmap. eauto.
Qed.

Lemma contains_elem l s : contains l s = true <-> s ∈ l.
Proof. apply existsb_eq_elem. Qed.

Lemma same_scope_elems a b : NoDup b -> sameScope (Some a) (Some b) = true -> forall g, g ∈ a <-> g ∈ b.
Proof.
  simpl. intros Hb [Hl%Nat.eqb_eq Hs]%andb_true_iff. rewrite forallb_forall in Hs.
  assert (b ⊆+ a) as Hsub. { apply NoDup_submseteq; [done|]. intros x Hx%list_elem_of_In. apply contains_elem. by apply Hs. }
  pose proof (submseteq_length_Permutation b a Hsub ltac:(lia)) as Hp. intros g. by rewrite Hp.
Qed.

(** What applying a scope leaves. *)
Lemma apply_scope_Ok admin sc actor d d' y issuer subject email role :
  Inv d -> Inv d' -> NoDup (map fst (t_groups d)) -> NoDup (map ToLower (sc_groups sc)) ->
  account d (ad_ID admin) issuer subject email role y -> applySSOScope admin sc actor d = (Ok tt, d') ->
  (exists y', account d' (ad_ID admin) issuer subject email role y') /\ scope_is d' (ad_ID admin) sc.
Proof.
  intros HI HI' Hgn Hnn (Hy & Hid & Hrest) H. unfold applySSOScope in H. apply tbind_Ok in H as (fnd & d1 & Hf & H).
  set (want := if sc_fleet sc then _ else _) in H.
  assert (d1 = d /\ want = if sc_fleet sc then None else Some (named d (sc_groups sc))) as [-> Hwant].
  { subst want. destruct (sc_fleet sc); [by injection Hf as <- <-|]. apply named_groups_Ok in Hf as [-> ->]. done. }
  apply tbind_Ok in H as (have & d1 & Hh & H). apply tmap_err_Ok in Hh. rewrite <- Hid, (admin_scope_row d y HI Hy) in Hh. injection Hh as <- <-.
  unfold scope_is. destruct (sameScope _ want) eqn:Es.
  - injection H as <-. split; [exists y; exact (conj Hy (conj Hid Hrest))|]. rewrite <- Hid, (admin_scope_row d y HI Hy). rewrite Hwant in Es.
    destruct (sc_fleet sc), (ad_Scoped (r_Admin y)); try done. eexists. split; [reflexivity|]. apply same_scope_elems; [by apply named_NoDup|done].
  - apply tbind_Ok in H as ([] & d1 & Hset & H). apply tmap_err_Ok in Hset. unfold InsertAudit, aset in H. injection H as <-.
    pose proof (set_admin_scope_admins _ _ _ _ _ Hset) as Ha. destruct (set_scope_scopes _ _ _ _ _ Hset) as [Hs Hgr].
    set (y' := mkRow (set_ad_Scoped (Limited want) (r_Admin y)) (r_LastStep y)).
    assert (y' ∈ t_admins d1) as Hy'. { rewrite Ha. apply elem_of_update_where. exists y. split; [done|]. unfold is_admin. by rewrite Hid, String.eqb_refl. }
    split; [exists y'; exact (conj Hy' (conj Hid Hrest))|].
    pose proof (admin_scope_row _ y' HI' Hy') as Hrow. simpl in Hrow. rewrite Hid in Hrow. rewrite Hrow, Hwant. destruct (sc_fleet sc); [done|]. simpl.
    eexists. split; [reflexivity|]. intros g. rewrite elem_of_scopes, Hs, Hwant. unfold named, group_named. simpl. by rewrite Hgr.
Qed.

(** One account at most has an identity. *)
Lemma identity_inj d x y : Inv d -> x ∈ t_admins d -> y ∈ t_admins d -> forall issuer subject,
  has_identity issuer subject x = true -> has_identity issuer subject y = true -> x = y.
Proof.
  intros HI Hx Hy i s Hxi Hyi. pose proof (ko_identities _ (inv_admins d HI)) as Hn.
  assert (forall r, has_identity i s r = true -> rk_Identity (key_of r) = Some (i, s)) as Hk.
  { intros r H. unfold has_identity in H. apply andb_true_iff in H as [[H1%negb_true_iff H2%String.eqb_eq]%andb_true_iff H3%String.eqb_eq].
    unfold key_of, identity_of. simpl. by rewrite H1, H2, H3. }
  specialize (Hk x Hxi) as Hkx. specialize (Hk y Hyi) as Hky. clear Hk Hxi Hyi HI.
  induction (t_admins d) as [|r l IH]; [by apply elem_of_nil in Hx|]. cbn [map] in Hn.
  apply elem_of_cons in Hx as [->|Hx], Hy as [->|Hy]; [done| | |].
  - cbn [omap list_omap] in Hn. rewrite Hkx in Hn. apply NoDup_cons in Hn as [Hn _]. exfalso. apply Hn. apply elem_of_omap_keys. exists (key_of y).
    split; [|done]. apply list_elem_of_fmap. eauto.
  - cbn [omap list_omap] in Hn. rewrite Hky in Hn. apply NoDup_cons in Hn as [Hn _]. exfalso. apply Hn. apply elem_of_omap_keys. exists (key_of x).
    split; [|done]. apply list_elem_of_fmap. eauto.
  - apply IH; try done. cbn [omap list_omap] in Hn. destruct (rk_Identity (key_of r)); [by apply NoDup_cons in Hn as [_ Hn]|done].
Qed.

(** ** A sign-in *)

(** An update that keeps ids finds the updated row. *)
Lemma find_update id p f (l : list admin_row) :
  (forall r, ad_ID (r_Admin (f r)) = ad_ID (r_Admin r)) ->
  find (is_admin id) (update_where p f l) = option_map (fun r => if p r then f r else r) (find (is_admin id) l).
Proof.
  intros Hf. unfold update_where. induction l as [|r l IH]; [done|]. simpl. unfold is_admin in *. destruct (p r) eqn:E; [rewrite Hf|];
    destruct (String.eqb (ad_ID (r_Admin r)) id); simpl; rewrite ?E; done.
Qed.

Lemma signIn_Ok new_id now issuer subject email role sc d a d' :
  signIn new_id now issuer subject email role sc d = (Ok a, d') ->
  sign_in_body new_id now issuer subject email role sc d = (Ok (inr a), d').
Proof. unfold signIn, InTx. destruct (sign_in_body _ _ _ _ _ _ _ d) as [[[code|b]|e] d1]; by intros [= <- <-]. Qed.

(** Who the account is for: the subject's own row, or a new one. *)
Lemma chosen_Ok new_id now issuer subject email role d existing admin d1 :
  Inv d ->
  match existing with
  | Some a => exists r, r ∈ t_admins d /\ a = r_Admin r /\ ad_OIDCIssuer a = issuer /\ ad_OIDCSubject a = subject /\ subject <> EmptyString
  | None => forall r, r ∈ t_admins d -> has_identity issuer subject r = false
  end ->
  match existing with Some a => bool_decide (ad_DisabledAt a <> None) | None => false end = false ->
  match existing with Some a => refresh a email role | None => provision new_id now issuer subject email role end d = (Ok admin, d1) ->
  Inv d1 /\ others_kept (ad_ID admin) d d1 /\ (exists y, account d1 (ad_ID admin) issuer subject email role y) /\
  (forall x, x ∈ t_admins d -> ad_ID (r_Admin x) = ad_ID admin -> ad_OIDCIssuer (r_Admin x) = issuer /\ ad_OIDCSubject (r_Admin x) = subject).
Proof.
  intros HI Hex Hdis H. split.
  { assert (keeps_inv d d1) as Hk; [|exact (Hk HI)]. destruct existing as [a|].
    - assert (tkeeps keeps_inv (refresh a email role)) as Hk by (unfold refresh; follow). specialize (Hk d). by rewrite H in Hk.
    - assert (tkeeps keeps_inv (provision new_id now issuer subject email role)) as Hk by (unfold provision; follow). specialize (Hk d). by rewrite H in Hk. }
  destruct existing as [a|].
  - destruct Hex as (r & Hr & -> & Hi & Hs & Hne). apply bool_decide_eq_false in Hdis.
    assert (ad_DisabledAt (r_Admin r) = None) as Hd by (destruct (ad_DisabledAt (r_Admin r)); [by destruct Hdis|done]). rewrite <- Hs in Hne.
    destruct (refresh_Ok d r email role admin d1 HI Hr Hne Hd H) as (Hid & Ho & _ & y & Hy). split; [done|]. split; [exists y; by rewrite <- Hi, <- Hs|].
    intros x Hx Hxi. by rewrite (ids_inj d x r HI Hx Hr ltac:(congruence)).
  - destruct (provision_Ok _ _ _ _ _ _ _ _ _ H) as (Ho & _ & y & Hy). split; [done|]. split; [by exists y|]. intros x Hx Hxi. exfalso.
    unfold provision in H. apply tbind_Ok in H as (i & d2 & Hn & H). apply row_or_Ok in Hn as [-> ->]. apply tbind_Ok in H as ([] & d2 & Hc & H).
    apply tmap_err_Ok in Hc. apply tbind_Ok in H as ([] & d3 & _ & [= <- <-]). unfold AuthStore.CreateAdmin in Hc. destruct (_ || existsb _ _) eqn:E; [done|].
    apply orb_false_iff in E as [_ E]. rewrite existsb_none in E. specialize (E x Hx). apply orb_false_iff in E as [[E _]%orb_false_iff _].
    simpl in Hxi, E. unfold is_admin in E. by rewrite Hxi, String.eqb_refl in E.
Qed.

Lemma sign_in_spec new_id now issuer subject email role sc d a d' :
  Inv d -> NoDup (map fst (t_groups d)) -> NoDup (map ToLower (sc_groups sc)) ->
  signIn new_id now issuer subject email role sc d = (Ok a, d') ->
  role <> EmptyString /\ (sc_managed sc = true -> sc_fleet sc = true \/ sc_groups sc <> []) /\
  (exists y, account d' (ad_ID a) issuer subject email role y /\ ad_LastLoginAt (r_Admin y) = Some now) /\
  (sc_managed sc = true -> scope_is d' (ad_ID a) sc) /\
  (forall x, x ∈ t_admins d ->
     if String.eqb (ad_ID (r_Admin x)) (ad_ID a) then ad_OIDCIssuer (r_Admin x) = issuer /\ ad_OIDCSubject (r_Admin x) = subject else x ∈ t_admins d').
Proof.
  intros HI Hgn Hnn H%signIn_Ok. unfold sign_in_body in H. apply tbind_Ok in H as (existing & d0 & Hex & H). apply GetAdminByOIDC_Ok in Hex as [-> Hex].
  cbv zeta in H. destruct (String.eqb_spec role EmptyString) as [|Hrole]; [unfold refused in H; txs; done|].
  destruct (sc_managed sc && negb (sc_fleet sc) && bool_decide (sc_groups sc = [])) eqn:Emap; [unfold refused in H; txs; done|].
  destruct (match existing with Some a => bool_decide (ad_DisabledAt a <> None) | None => false end) eqn:Edis; [unfold refused in H; txs; done|].
  apply tbind_Ok in H as (other & d0 & Hoth & H). assert (d0 = d) as -> by (unfold lookup_row in Hoth; pose proof (GetAdminByEmail_reads email d) as Hr;
    destruct (GetAdminByEmail email d) as [[?|[]] ?]; simpl in Hr; subst; by injection Hoth).
  destruct (match other with Some _ => _ | None => false end); [unfold refused in H; txs; done|].
  apply tbind_Ok in H as (admin & d1 & Hch & H). destruct (chosen_Ok _ _ _ _ _ _ d existing admin d1 HI Hex Edis Hch) as (HI1 & Ho1 & (y & Hy) & Hown).
  apply tbind_Ok in H as ([] & d2 & Hsc & H). apply tbind_Ok in H as ([] & d3 & Hlog & H). apply tbind_Ok in H as ([] & d4 & Haud & [= <- <-]).
  unfold RecordAdminLogin, update_admin, InsertAudit, aset in Hlog, Haud. injection Hlog as <-. injection Haud as <-.
  assert (Inv d2 /\ others_kept (ad_ID admin) d d2 /\ (exists y, account d2 (ad_ID admin) issuer subject email role y) /\ (sc_managed sc = true -> scope_is d2 (ad_ID admin) sc))
    as (HI2 & Ho2 & (z & Hz) & Hscope).
  { destruct (sc_managed sc); [|injection Hsc as <-; split_and!; eauto; done].
    assert (Inv d2) as HI2.
    { assert (tkeeps keeps_inv (applySSOScope admin sc email)) as Hk by (unfold applySSOScope; follow). specialize (Hk d1). rewrite Hsc in Hk. by apply Hk. }
    pose proof (apply_scope_others admin sc email d1) as Ho2. rewrite Hsc in Ho2. simpl in Ho2.
    destruct (apply_scope_Ok admin sc email d1 d2 y issuer subject email role HI1 HI2) as (Hz & Hscope); [by rewrite (proj2 Ho1)|done|done|done|].
    split_and!; auto. by etrans. }
  split; [done|]. split.
  { intros Hm. rewrite Hm in Emap. simpl in Emap. destruct (sc_fleet sc); [by left|right]. simpl in Emap. by apply bool_decide_eq_false in Emap. }
  set (login := fun r => mkRow (set_ad_LastLoginAt now (r_Admin r)) (r_LastStep r)). destruct Hz as (Hzin & Hzid & Hzrest).
  split; [|split].
  - exists (login z). split; [|done]. split; [|exact (conj Hzid Hzrest)]. simpl. apply elem_of_update_where. exists z. split; [done|].
    unfold is_admin. by rewrite Hzid, String.eqb_refl.
  - intros Hm. specialize (Hscope Hm). unfold scope_is in *. simpl. rewrite <- Hzid in Hscope |- *.
    pose proof (admin_scope_row d2 z HI2 Hzin) as Hrow.
    set (d3 := set_t_audit _ _). assert (AdminScope (ad_ID (r_Admin z)) d3 = ((AdminScope (ad_ID (r_Admin z)) d2).1, d3)) as E.
    { unfold AdminScope. subst d3. simpl. rewrite (find_id d2 z HI2 Hzin). rewrite find_update by done. rewrite (find_id d2 z HI2 Hzin). cbn [option_map]. destruct (is_admin _ z); simpl; by destruct (ad_Scoped (r_Admin z)). }
    rewrite E. destruct (sc_fleet sc); [by rewrite Hscope|]. destruct Hscope as (l & -> & Hl). by exists l.
  - intros x Hx. destruct (String.eqb_spec (ad_ID (r_Admin x)) (ad_ID admin)) as [He|Hn]; simpl.
    + rewrite (proj2 (String.eqb_eq _ _) He). by apply Hown.
    + rewrite (proj2 (String.eqb_neq _ _) Hn). apply elem_of_update_where. exists x. split; [by apply Ho2|]. unfold is_admin. by rewrite (proj2 (String.eqb_neq _ _) Hn).
Qed.

(** The names of a scope differ, even up to case. *)
Lemma unseen_spec seen names :
  NoDup (map ToLower (unseen seen names)) /\ forall n, n ∈ map ToLower (unseen seen names) <-> n ∈ map ToLower names /\ n ∉ seen.
Proof.
  revert seen. induction names as [|x names IH]; intros seen; simpl; [split; [constructor|set_solver]|].
  destruct (contains seen (ToLower x)) eqn:E.
  - apply contains_elem in E. destruct (IH seen) as [H1 H2]. split; [done|]. intros n. rewrite H2. set_solver.
  - assert (ToLower x ∉ seen) as Hx by (intros H%contains_elem; congruence). destruct (IH (ToLower x :: seen)) as [H1 H2]. simpl. split.
    + constructor; [|done]. rewrite H2. set_solver.
    + intros n. rewrite elem_of_cons, H2. destruct (decide (n = ToLower x)) as [->|]; set_solver.
Qed.

Lemma scope_NoDup c groups : NoDup (map ToLower (sc_groups (scope c groups))).
Proof.
  unfold scope. destruct (negb _); [constructor|]. destruct (existsb _ _); [constructor|]. simpl.
  rewrite (order_by_perm String.leb). apply unseen_spec.
Qed.

(** Losing one's sessions and tokens. *)
Definition cut_off (d : adb) (id : string) : Prop :=
  (forall sn, sn ∈ t_sessions d -> sn_AdminID sn <> id) /\ (forall t, t ∈ t_tokens d -> tk_CreatedByID t = id -> live_token t = false).

Lemma lookup_identity issuer subject d :
  lookup_row (GetAdminByOIDC issuer subject) d = (Ok (option_map r_Admin (find (has_identity issuer subject) (t_admins d))), d).
Proof. unfold lookup_row, GetAdminByOIDC, row_or. by destruct (find _ _). Qed.

Lemma cutOff_spec now email a d :
  exists d', cutOff now email (Some a) d = (Ok tt, d') /\ cut_off d' (ad_ID a) /\ t_admins d' = t_admins d /\ t_scopes d' = t_scopes d.
Proof.
  unfold cutOff, DeleteSessionsForAdmin, RevokeAPITokensForAdmin, tbind, aset. cbn zeta. simpl.
  set (d1 := set_t_tokens _ _). assert (cut_off d1 (ad_ID a)) as Hcut.
  { split; simpl.
    - intros sn [_ Hn%negb_true_iff%String.eqb_neq]%elem_of_filterb. done.
    - intros t (x & _ & ->)%elem_of_update_where Hid. destruct (String.eqb (tk_CreatedByID x) (ad_ID a) && live_token x) eqn:E; [done|].
      rewrite Hid, String.eqb_refl in E. by simpl in E. }
  destruct (_ =? 0); [by exists d1|]. eexists. split; [reflexivity|]. by split.
Qed.

Section Finish.
Variable marshal : json -> string.
Variable unmarshal : string -> option json.
Variable key : Key.
Variable discovered : bool.
Variable exchange : string -> string -> option (option string).
Variable verify : string -> time -> option IDToken.
Variable auth_url : string -> string -> string -> string.
Variable config : OIDCConfig.

Abbreviation finish := (Finish unmarshal key discovered exchange verify config).
Abbreviation identified := (identify unmarshal key discovered exchange verify config).

(** C27. What a sign-in through the provider gives is what the person's groups
    say: their account, found by subject and never by address, has the role,
    and where the provider decides that, the device groups of the mapped names
    or the whole fleet if a group says so; a disabled account is not let in;
    and every other account, each local one included, is left as it is. *)
Theorem provider_decides new_id now cookie state code d a d' :
  Inv d -> NoDup (map fst (t_groups d)) -> finish new_id now cookie state code d = (Ok a, d') ->
  exists p, identified now cookie state code = Ok p /\
    let sc := scope config (pe_Groups p) in
    role config (pe_Groups p) <> EmptyString /\ (sc_managed sc = true -> sc_fleet sc = true \/ sc_groups sc <> []) /\
    (exists y, account d' (ad_ID a) (pe_Issuer p) (pe_Subject p) (pe_Email p) (role config (pe_Groups p)) y /\ ad_LastLoginAt (r_Admin y) = Some now) /\
    (sc_managed sc = true -> scope_is d' (ad_ID a) sc) /\
    (forall x, x ∈ t_admins d ->
       if String.eqb (ad_ID (r_Admin x)) (ad_ID a) then ad_OIDCIssuer (r_Admin x) = pe_Issuer p /\ ad_OIDCSubject (r_Admin x) = pe_Subject p
       else x ∈ t_admins d').
Proof.
  intros HI Hg. unfold Finish. destruct (identified now cookie state code) as [p|]; [|done]. intros H. exists p. split; [done|].
  by apply (sign_in_spec _ _ _ _ _ _ _ d a d' HI Hg (scope_NoDup config (pe_Groups p)) H).
Qed.

(** Somebody in no mapped group is told no and loses what an earlier yes
    gave: every session of theirs is gone and every API token they made is
    revoked, whatever the groups said before. *)
Theorem unmapped_people_are_cut_off new_id now cookie state code d p :
  identified now cookie state code = Ok p ->
  role config (pe_Groups p) = EmptyString \/ (sc_managed (scope config (pe_Groups p)) = true /\ sc_fleet (scope config (pe_Groups p)) = false /\
    sc_groups (scope config (pe_Groups p)) = []) ->
  exists d', finish new_id now cookie state code d = (Err (SSOError SSOUnauthorized), d') /\ t_admins d' = t_admins d /\
    (forall r, r ∈ t_admins d -> has_identity (pe_Issuer p) (pe_Subject p) r = true -> Inv d -> cut_off d' (ad_ID (r_Admin r))).
Proof.
  intros Hp Hno. unfold Finish. rewrite Hp. unfold signIn, InTx, sign_in_body. unfold tbind at 1. rewrite lookup_identity.
  destruct (find _ (t_admins d)) as [r|] eqn:E; cbn [option_map]; cbv zeta.
  - assert (exists d', (do* cutOff now (pe_Email p) (Some (r_Admin r));
       refused (pe_Email p) (pe_Subject p) (ad_ID (r_Admin r)) SSOUnauthorized "not in any group mapped to a Retune role") d = (Ok (inl SSOUnauthorized), d') /\
       cut_off d' (ad_ID (r_Admin r)) /\ t_admins d' = t_admins d) as H1.
    { destruct (cutOff_spec now (pe_Email p) (r_Admin r) d) as (d1 & Hc & Hcut & Ha & _). eexists. unfold tbind at 1. rewrite Hc.
      split; [reflexivity|]. by split. }
    assert (exists d', (do* cutOff now (pe_Email p) (Some (r_Admin r));
       refused (pe_Email p) (pe_Subject p) (ad_ID (r_Admin r)) SSOUnauthorized "not in any group mapped to devices") d = (Ok (inl SSOUnauthorized), d') /\
       cut_off d' (ad_ID (r_Admin r)) /\ t_admins d' = t_admins d) as H2.
    { destruct (cutOff_spec now (pe_Email p) (r_Admin r) d) as (d1 & Hc & Hcut & Ha & _). eexists. unfold tbind at 1. rewrite Hc.
      split; [reflexivity|]. by split. }
    assert (forall d', cut_off d' (ad_ID (r_Admin r)) -> forall x, x ∈ t_admins d -> has_identity (pe_Issuer p) (pe_Subject p) x = true -> Inv d -> cut_off d' (ad_ID (r_Admin x))) as Hall.
    { intros d' Hcut x Hx Hxi HI. apply find_row in E as [Hr Hri]. assert (x = r) as ->; [|done].
      apply (identity_inj d x r HI Hx Hr (pe_Issuer p) (pe_Subject p) Hxi Hri). }
    destruct (String.eqb_spec (role config (pe_Groups p)) EmptyString) as [He|He].
    + destruct H1 as (d' & -> & Hcut & Ha). exists d'. split; [done|]. split; [done|]. by apply Hall.
    + destruct Hno as [|(-> & -> & ->)]; [done|]. cbn [negb andb]. rewrite bool_decide_true by done. destruct H2 as (d' & -> & Hcut & Ha). exists d'. split; [done|]. split; [done|]. by apply Hall.
  - assert (forall x, x ∈ t_admins d -> has_identity (pe_Issuer p) (pe_Subject p) x = false) as Hnone.
    { intros x Hx%list_elem_of_In. by apply (find_none _ _ E). }
    destruct (String.eqb_spec (role config (pe_Groups p)) EmptyString) as [He|He].
    + eexists. split; [reflexivity|]. split; [done|]. intros r Hr Hi. by rewrite Hnone in Hi.
    + destruct Hno as [|(-> & -> & ->)]; [done|]. cbn [negb andb]. rewrite bool_decide_true by done. eexists. split; [reflexivity|]. split; [done|]. intros r Hr Hi. by rewrite Hnone in Hi.
Qed.

(** ** There and back *)

Hypothesis key_opens_it : key_opens key.
Hypothesis text_is_read : forall ls, unmarshal (marshal (login_json ls)) = Some (login_json ls).

Lemma open_seal rand ls cookie : in_int64 (l_Expires ls) = true -> Sso.seal marshal key rand ls = Some cookie -> Sso.open unmarshal key cookie = Some ls.
Proof.
  unfold Sso.seal, Sso.open. intros Hr. destruct (Seal key rand _ sealContext) as [[ct nonce]|] eqn:E; [|done]. intros [= <-].
  change ("." ++ EncodeToString URL ct)%string with (String "." (EncodeToString URL ct)). rewrite Cut_app by (by apply encode_without).
  rewrite !decode_encode, (key_opens_it _ _ _ _ _ E), text_is_read. destruct ls as [st n v e]. cbn -[Atoi Itoa]. unfold jint. by rewrite Atoi_Itoa.
Qed.

(** Who a token's claims name: its own address, or the name people sign in
    with, unless the provider says the address is not verified. *)
Definition named_by (claims : gmap string json) (email : string) : Prop :=
  claims !! "email_verified"%string <> Some (JBool false) /\ email <> EmptyString /\
  (stringClaim claims "email" = email \/ stringClaim claims "email" = EmptyString /\ stringClaim claims "preferred_username" = email).

Lemma identify_claims (claims : gmap string json) (i su : string) p :
  (check! ensure (match claims !! "email_verified"%string with Some (JBool false) => false | _ => true end) (SSOError SSOUnverified);
   let email := stringClaim claims "email" in
   let email := if String.eqb email EmptyString then stringClaim claims "preferred_username" else email in
   check! ensure (negb (String.eqb email EmptyString)) (SSOError SSONoEmail);
   Ok (mkPerson i su email (listClaim claims (oc_GroupsClaim config)))) = Ok p <->
  exists email, named_by claims email /\ p = mkPerson i su email (listClaim claims (oc_GroupsClaim config)).
Proof.
  unfold named_by. split.
  - intros H. apply rbind_Ok in H as ([] & Hv%ensure_Ok & H). cbv zeta in H. apply rbind_Ok in H as ([] & He%ensure_Ok%negb_true_iff%String.eqb_neq & [= <-]).
    eexists. split; [|reflexivity]. split; [intros E; by rewrite E in Hv|]. split; [done|].
    destruct (String.eqb_spec (stringClaim claims "email") EmptyString); auto.
  - intros (email & (Hv & Hne & Hem) & ->). assert (match claims !! "email_verified"%string with Some (JBool false) => false | _ => true end = true) as ->.
    { destruct (claims !! _) as [[| [] | | | |]|]; try done. }
    simpl. destruct (String.eqb_spec (stringClaim claims "email") EmptyString) as [E|E].
    + destruct Hem as [He|[_ He]]; [congruence|]. rewrite He, (proj2 (String.eqb_neq _ _) Hne). done.
    + destruct Hem as [He|[He _]]; [|congruence]. rewrite He, (proj2 (String.eqb_neq _ _) Hne). done.
Qed.

(** A sign-in through the provider ends in the browser that started it: the
    cookie [Start] made is taken with the state it sent, within ten minutes, if
    the code is exchanged with the verifier behind the challenge it sent, and
    the ID token verifies, names the nonce it sent and somebody's address. *)
Theorem sign_in_ends_where_it_started state nonce verifier rand now url cookie :
  in_int64 (Unix (Prelude.Add now LoginTTL)) = true ->
  Start marshal key discovered auth_url (Some state) (Some nonce) verifier rand now = Ok (url, cookie) ->
  url = auth_url (EncodeToString URL state) (EncodeToString URL nonce) verifier /\
  forall now' st code p, identified now' cookie st code = Ok p <->
    Unix now' <= Unix (Prelude.Add now LoginTTL) /\ st = EncodeToString URL state /\
    exists raw tok claims email, exchange code verifier = Some (Some raw) /\ raw <> EmptyString /\ verify raw now' = Some tok /\
      id_Nonce tok = EncodeToString URL nonce /\ id_Claims tok = Some claims /\ named_by claims email /\
      p = mkPerson (id_Issuer tok) (id_Subject tok) email (listClaim claims (oc_GroupsClaim config)).
Proof.
  intros Hr. unfold Start. destruct discovered eqn:Hd; [|done]. simpl. destruct (Sso.seal _ _ _ _) as [c|] eqn:E; [|done]. intros [= <- <-]. split; [done|].
  intros now' st code p. unfold identify. rewrite (open_seal _ (mkLoginState _ _ _ _) _ Hr E). cbn [l_Expires l_State l_Verifier l_Nonce]. split.
  - intros H. apply rbind_Ok in H as ([] & He%ensure_Ok & H). apply rbind_Ok in H as ([] & Hs%ensure_Ok%String.eqb_eq & H). apply rbind_Ok in H as ([] & _ & H).
    destruct (exchange code verifier) as [[[|c0 r0]|]|] eqn:Ex; try done. destruct (verify _ now') as [tok|] eqn:Ev; [|done].
    apply rbind_Ok in H as ([] & Hn%ensure_Ok%String.eqb_eq & H). destruct (id_Claims tok) as [claims|] eqn:Ec; [|done].
    apply identify_claims in H as (email & Hem & ->). split; [lia|]. split; [done|]. by exists (String c0 r0), tok, claims, email.
  - intros (He & -> & raw & tok & claims & email & Hx & Hraw & Hv & Hn & Hc & Hem & ->).
    assert (negb (Unix now' >? Unix (Prelude.Add now LoginTTL)) = true) as -> by lia. rewrite String.eqb_refl. cbn [ensure rbind]. rewrite Hx.
    destruct raw as [|c0 r0]; [done|]. rewrite Hv, Hn, String.eqb_refl. cbn [ensure rbind]. rewrite Hc. apply identify_claims. by exists email.
Qed.
End Finish.
