(* ===== verification/Access.v ===== *)
(** * Who may ask for what

    [internal/server/adminapi/handler.go] and the routes of [resources.go]: who
    is asking, by session or by API token, whether they may, and what part of
    the fleet they see. HTTP itself and the handlers behind the guard are left
    out; a handler is only reached with a context. *)
From S2P Require Export Sessions.
Open Scope Z_scope.
Open Scope go_scope.

(** ** Access classes *)

Record access := mkAccess { ac_admin : bool; ac_operate : bool; ac_session : bool; ac_fleet : bool }.

(** [guarded], without its handler. *)
Record guarded := mkGuarded { g_access : access; g_open : bool }.

Definition protected (a : access) : guarded := mkGuarded a false.
Definition public : guarded := mkGuarded (mkAccess false false false false) true.
Definition read_ : guarded := protected (mkAccess false false false false).
Definition write_ : guarded := protected (mkAccess true false false false).
Definition operate : guarded := protected (mkAccess false true false false).
Definition operateSession : guarded := protected (mkAccess false true true false).
Definition readFleet : guarded := protected (mkAccess false false false true).
Definition writeFleet : guarded := protected (mkAccess true false false true).
Definition readSession : guarded := protected (mkAccess false false true false).
Definition writeSession : guarded := protected (mkAccess true false true false).
Definition readAdmin : guarded := protected (mkAccess false false true true).
Definition writeAdmin : guarded := protected (mkAccess true false true true).

(** Method, path below [/api/admin/v1], class. *)
Definition route : Type := string * string * guarded.

Local Open Scope string_scope.

Definition own_routes : list route :=
  [("GET", "/setup", public);
   ("POST", "/session", public);
   ("GET", "/oidc/start", public);
   ("GET", "/oidc/callback", public);
   ("GET", "/session", readSession);
   ("DELETE", "/session", readSession)].

Definition resource_routes : list route :=
  [("GET", "/devices", read_);
   ("GET", "/devices/export.csv", read_);
   ("GET", "/devices/{id}", read_);
   ("GET", "/devices/{id}/software", read_);
   ("POST", "/devices/{id}/retire", write_);
   ("POST", "/devices/{id}/unenroll", write_);
   ("GET", "/commands", read_);
   ("POST", "/commands", operate);
   ("GET", "/commands/{id}", read_);
   ("GET", "/commands/{id}/artifact", operate);
   ("GET", "/approvals", readAdmin);
   ("POST", "/approvals/{id}/approve", writeAdmin);
   ("POST", "/approvals/{id}/reject", writeAdmin);
   ("GET", "/tokens", readFleet);
   ("POST", "/tokens", writeFleet);
   ("POST", "/tokens/{id}/revoke", writeFleet);
   ("GET", "/admins", readAdmin);
   ("POST", "/admins", writeAdmin);
   ("POST", "/admins/{id}/password", writeAdmin);
   ("POST", "/admins/{id}/totp", writeAdmin);
   ("POST", "/admins/{id}/disabled", writeAdmin);
   ("PUT", "/admins/{id}/scope", writeAdmin);
   ("GET", "/api-tokens", readAdmin);
   ("POST", "/api-tokens", writeAdmin);
   ("POST", "/api-tokens/{id}/revoke", writeAdmin);
   ("GET", "/groups", read_);
   ("POST", "/groups", writeFleet);
   ("POST", "/groups/preview", writeFleet);
   ("GET", "/groups/{id}", read_);
   ("POST", "/groups/{id}", writeFleet);
   ("DELETE", "/groups/{id}", writeFleet);
   ("POST", "/groups/{id}/evaluate", writeFleet);
   ("GET", "/groups/{id}/members", read_);
   ("POST", "/groups/{id}/members", writeFleet);
   ("DELETE", "/groups/{id}/members/{deviceID}", writeFleet);
   ("GET", "/scripts", read_);
   ("POST", "/scripts", writeFleet);
   ("GET", "/scripts/{id}", read_);
   ("POST", "/scripts/{id}", writeFleet);
   ("DELETE", "/scripts/{id}", writeFleet);
   ("GET", "/scripts/{id}/versions", read_);
   ("GET", "/scripts/{id}/runs", read_);
   ("GET", "/devices/{id}/bitlocker-keys", read_);
   ("POST", "/bitlocker-keys/{id}/reveal", operateSession);
   ("GET", "/devices/{id}/admin-passwords", read_);
   ("POST", "/admin-passwords/{id}/reveal", operateSession);
   ("GET", "/profiles", read_);
   ("POST", "/profiles", writeFleet);
   ("GET", "/profiles/{id}", read_);
   ("POST", "/profiles/{id}", writeFleet);
   ("DELETE", "/profiles/{id}", writeFleet);
   ("GET", "/profiles/{id}/versions", read_);
   ("GET", "/profiles/{id}/settings", read_);
   ("GET", "/apps", read_);
   ("POST", "/apps", writeFleet);
   ("POST", "/app-packages", writeFleet);
   ("GET", "/apps/{id}", read_);
   ("POST", "/apps/{id}", writeFleet);
   ("DELETE", "/apps/{id}", writeFleet);
   ("GET", "/apps/{id}/versions", read_);
   ("GET", "/apps/{id}/installs", read_);
   ("GET", "/agent-versions", read_);
   ("POST", "/agent-versions", writeFleet);
   ("GET", "/agent-versions/{id}", read_);
   ("DELETE", "/agent-versions/{id}", writeFleet);
   ("GET", "/releases", read_);
   ("GET", "/server", read_);
   ("POST", "/server/update", writeAdmin);
   ("POST", "/releases/check", writeFleet);
   ("GET", "/agent-rollout", read_);
   ("POST", "/agent-rollout/policy", writeFleet);
   ("POST", "/agent-rollouts/{id}/resume", writeFleet);
   ("GET", "/notification-channels", readFleet);
   ("POST", "/notification-channels", writeFleet);
   ("GET", "/notification-channels/{id}", readFleet);
   ("POST", "/notification-channels/{id}", writeFleet);
   ("DELETE", "/notification-channels/{id}", writeFleet);
   ("POST", "/notification-channels/{id}/test", writeFleet);
   ("GET", "/alert-rules", readFleet);
   ("POST", "/alert-rules", writeFleet);
   ("GET", "/alert-rules/{id}", readFleet);
   ("POST", "/alert-rules/{id}", writeFleet);
   ("DELETE", "/alert-rules/{id}", writeFleet);
   ("GET", "/alerts", readFleet);
   ("GET", "/alert-deliveries", readFleet);
   ("GET", "/assignments", read_);
   ("POST", "/assignments", write_);
   ("DELETE", "/assignments/{id}", write_);
   ("GET", "/items/{kind}/{id}/status", read_);
   ("GET", "/device-registrations", readFleet);
   ("POST", "/device-registrations", writeFleet);
   ("POST", "/device-registrations/import", writeFleet);
   ("DELETE", "/device-registrations/{id}", writeFleet);
   ("GET", "/reports", readFleet);
   ("POST", "/reports", writeFleet);
   ("GET", "/reports/{id}", readFleet);
   ("POST", "/reports/{id}", writeFleet);
   ("DELETE", "/reports/{id}", writeFleet);
   ("POST", "/reports/{id}/send", writeFleet);
   ("GET", "/maintenance-windows", read_);
   ("POST", "/maintenance-windows", writeFleet);
   ("GET", "/maintenance-windows/{id}", read_);
   ("POST", "/maintenance-windows/{id}", writeFleet);
   ("DELETE", "/maintenance-windows/{id}", writeFleet);
   ("GET", "/compliance-policies", read_);
   ("POST", "/compliance-policies", writeFleet);
   ("GET", "/compliance-policies/{id}", read_);
   ("POST", "/compliance-policies/{id}", writeFleet);
   ("DELETE", "/compliance-policies/{id}", writeFleet);
   ("POST", "/compliance-policies/{id}/evaluate", writeFleet);
   ("GET", "/compliance-policies/{id}/devices", read_);
   ("GET", "/compliance-policies/{id}/devices/export.csv", read_);
   ("GET", "/devices/{id}/compliance", read_);
   ("GET", "/dashboard", read_);
   ("GET", "/compliance/devices", read_);
   ("POST", "/devices/{id}/remote-sessions", writeSession);
   ("GET", "/devices/{id}/remote-sessions", writeSession);
   ("GET", "/remote-sessions/{id}", writeSession);
   ("POST", "/remote-sessions/{id}/input", writeSession);
   ("POST", "/remote-sessions/{id}/end", writeSession);
   ("GET", "/compliance/jwks.json", public);
   ("GET", "/openapi.json", public);
   ("GET", "/audit", readFleet);
   ("GET", "/audit/export.csv", readFleet)].

Definition Routes : list route := own_routes ++ resource_routes.

Local Close Scope string_scope.

(** ** The guard *)

Record request := mkRequest {
  rq_Method : string; rq_Authorization : string; rq_Cookie : option string; rq_CSRF : string }.

(** Who is asking; a token's [Admin] stands in for one. *)
Record authContext := mkAuthContext { cx_Admin : Admin; cx_Session : option Session; cx_Token : option APIToken; cx_Scope : DeviceScope }.

Definition authSourceAPIToken : string := "api_token".

(** An error's status and code, and whether the session cookie is cleared; or
    the handler, with its context. *)
Inductive answer := Refused (status : Z) (code : string) (clear : bool) | Internal | Served (c : authContext).

Section Access.
Variable hashToken : string -> string.
Variable s : Service.

(** [withScope]. *)
Definition withScope (a : access) (c : DeviceScope -> authContext) (adminID : string) (d : adb) : answer * adb :=
  match AdminScope adminID d with
  | (Err _, d) => (Internal, d)
  | (Ok scope, d) => if ac_fleet a && Limited scope then (Refused 403 "scoped" false, d) else (Served (c scope), d)
  end.

Definition stand_in (t : APIToken) : Admin :=
  mkAdmin (tk_ID t) ("api-token:" ++ tk_Name t)%string EmptyString EmptyString (tk_Role t) 0 None None authSourceAPIToken EmptyString EmptyString false.

Definition withToken (now : time) (header : string) (a : access) (d : adb) : answer * adb :=
  match CutPrefix "Bearer " header with
  | None => (Refused 401 "unauthenticated" false, d)
  | Some plain =>
      match AuthenticateAPIToken hashToken now (TrimSpace plain) d with
      | (Err ErrInvalidToken, d) => (Refused 401 "invalid_token" false, d)
      | (Err _, d) => (Internal, d)
      | (Ok tok, d) =>
          if ac_session a then (Refused 403 "session_required" false, d)
          else if ac_admin a && negb (String.eqb (tk_Role tok) RoleAdmin) then (Refused 403 "forbidden" false, d)
          else if ac_operate a && (RoleRank (tk_Role tok) <? RoleRank RoleHelpdesk) then (Refused 403 "forbidden" false, d)
          else withScope a (mkAuthContext (stand_in tok) None (Some tok)) (tk_CreatedByID tok) d
      end
  end.

Definition protect (a : access) (now : time) (r : request) (d : adb) : answer * adb :=
  if negb (String.eqb (rq_Authorization r) EmptyString) then withToken now (rq_Authorization r) a d
  else match rq_Cookie r with
  | None | Some EmptyString => (Refused 401 "unauthenticated" false, d)
  | Some cookie =>
      match ValidateSession hashToken s now cookie d with
      | (Err ErrInvalidSession, d) => (Refused 401 "unauthenticated" true, d)
      | (Err ErrAccountDisabled, d) => (Refused 403 "account_disabled" true, d)
      | (Err _, d) => (Internal, d)
      | (Ok (admin, session), d) =>
          if negb (String.eqb (rq_Method r) "GET") && negb (String.eqb (rq_Method r) "HEAD") && negb (String.eqb (rq_CSRF r) (sn_CSRFToken session))
          then (Refused 403 "csrf_invalid" false, d)
          else if ac_admin a && negb (String.eqb (ad_Role admin) RoleAdmin) then (Refused 403 "forbidden" false, d)
          else if ac_operate a && (RoleRank (ad_Role admin) <? RoleRank RoleHelpdesk) then (Refused 403 "forbidden" false, d)
          else withScope a (mkAuthContext admin (Some session) None) (ad_ID admin) d
      end
  end.

(** ** What being served means *)

(** Who a context stands for, and that they may be here: the owner of a live
    session, whose unsafe requests carry its CSRF token, or a usable token. *)
Definition by_session (now : time) (r : request) (d : adb) (c : authContext) : Prop :=
  rq_Authorization r = EmptyString /\ exists cookie sn row, rq_Cookie r = Some cookie /\ owner_of d sn row /\ sn_TokenHash sn = hashToken cookie /\
    now < sn_ExpiresAt sn /\ ad_DisabledAt (r_Admin row) = None /\ cx_Admin c = r_Admin row /\ cx_Token c = None /\
    (rq_Method r = "GET"%string \/ rq_Method r = "HEAD"%string \/ rq_CSRF r = sn_CSRFToken sn) /\
    (AdminScope (ad_ID (r_Admin row)) d).1 = Ok (cx_Scope c).

Definition by_token (now : time) (r : request) (d : adb) (c : authContext) : Prop :=
  exists plain u row, rq_Authorization r = ("Bearer " ++ plain)%string /\ usable hashToken d now (TrimSpace plain) u row /\
    ad_Role (cx_Admin c) = lesser_role (ad_Role (r_Admin row)) (tk_Role u) /\ is_Some (cx_Token c) /\
    (AdminScope (ad_ID (r_Admin row)) d).1 = Ok (cx_Scope c).

Lemma scope_reads d d' id : t_admins d' = t_admins d -> t_scopes d' = t_scopes d -> (AdminScope id d').1 = (AdminScope id d).1.
Proof. intros Ha Hs. unfold AdminScope. rewrite Ha, Hs. destruct (find _ _) as [r|]; [|done]. by destruct (negb _). Qed.

Lemma withScope_Served a k id d c d' :
  withScope a k id d = (Served c, d') -> exists sc, c = k sc /\ (AdminScope id d).1 = Ok sc /\ (ac_fleet a = true -> sc = None).
Proof.
  unfold withScope. destruct (AdminScope id d) as [[sc|] d1]; [|done]. destruct (ac_fleet a) eqn:Ef; simpl.
  - destruct sc as [l|]; [done|]. intros [= <- _]. by exists None.
  - intros [= <- _]. by exists sc.
Qed.

Lemma usable_dec d now plain :
  Inv d -> (exists u r, usable hashToken d now plain u r) \/ (forall u r, ~ usable hashToken d now plain u r).
Proof.
  intros HI. destruct (AuthenticateAPIToken hashToken now plain d) as [[t|e] d'] eqn:E.
  - left. unfold AuthenticateAPIToken in E. destruct (HasPrefix plain APITokenPrefix) eqn:Hp; [|done]. simpl in E.
    apply tbind_Ok in E as (o & d1 & Hl & E). apply tbind_Ok in E as (tok & d2 & [-> ->]%row_or_Ok & _). apply lookup_row_Ok in Hl.
    apply (found_usable hashToken d now plain tok Hp). pose proof (GetUsableAPIToken_reads (hashToken plain) now d) as Hr. rewrite Hl in Hr. simpl in Hr. by subst.
  - right. intros u r Hu. destruct (usable_accepted hashToken now plain d u r HI Hu) as (t & d2 & E2 & _). by rewrite E in E2.
Qed.

Lemma token_tables now plain d t d' :
  AuthenticateAPIToken hashToken now plain d = (Ok t, d') -> t_admins d' = t_admins d /\ t_scopes d' = t_scopes d.
Proof.
  unfold AuthenticateAPIToken. destruct (negb _); [done|]. intros H. apply tbind_Ok in H as (o & d1 & Hl & H).
  apply tbind_Ok in H as (tok & d2 & [-> ->]%row_or_Ok & H). apply lookup_row_Ok in Hl.
  pose proof (GetUsableAPIToken_reads (hashToken plain) now d) as Hr. rewrite Hl in Hr. simpl in Hr. subst d1.
  destruct (match tk_LastUsedAt tok with Some _ => _ | None => _ end); [|by injection H as _ <-].
  unfold TouchAPIToken, tbind, aset in H. by injection H as _ <-.
Qed.

(** A request that reached its handler. *)
Lemma protect_Served a now r d c d' :
  Inv d -> protect a now r d = (Served c, d') ->
  (ac_admin a = true -> ad_Role (cx_Admin c) = RoleAdmin) /\ (ac_operate a = true -> RoleRank RoleHelpdesk <= RoleRank (ad_Role (cx_Admin c))) /\
  (ac_fleet a = true -> cx_Scope c = None) /\
  (by_session now r d c \/ ac_session a = false /\ by_token now r d c).
Proof.
  intros HI. unfold protect. destruct (String.eqb_spec (rq_Authorization r) EmptyString) as [Hau|Hau]; simpl.
  - destruct (rq_Cookie r) as [[|c0 cs]|] eqn:Eck; [done| |done]. set (cookie := String c0 cs) in *.
    destruct (session_or_not hashToken d cookie HI) as [(sn & row & Ho & Hh)|Hno]; [|by rewrite (unknown_session hashToken s d now cookie Hno)].
    rewrite (sessions_validated hashToken s d now cookie sn row HI Ho Hh). destruct (Z.ltb_spec now (sn_ExpiresAt sn)) as [Hlt|]; [simpl|done].
    destruct (bool_decide _) eqn:Ed; [done|]. apply bool_decide_eq_false in Ed.
    assert (ad_DisabledAt (r_Admin row) = None) as Hen by (destruct (ad_DisabledAt (r_Admin row)); [by destruct Ed|done]).
    assert (forall sn' d1, sn_CSRFToken sn' = sn_CSRFToken sn -> t_admins d1 = t_admins d -> t_scopes d1 = t_scopes d ->
      (if negb (String.eqb (rq_Method r) "GET") && negb (String.eqb (rq_Method r) "HEAD") && negb (String.eqb (rq_CSRF r) (sn_CSRFToken sn'))
       then (Refused 403 "csrf_invalid" false, d1)
       else if ac_admin a && negb (String.eqb (ad_Role (r_Admin row)) RoleAdmin) then (Refused 403 "forbidden" false, d1)
       else if ac_operate a && (RoleRank (ad_Role (r_Admin row)) <? RoleRank RoleHelpdesk) then (Refused 403 "forbidden" false, d1)
       else withScope a (mkAuthContext (r_Admin row) (Some sn') None) (ad_ID (r_Admin row)) d1) = (Served c, d') ->
      (ac_admin a = true -> ad_Role (cx_Admin c) = RoleAdmin) /\ (ac_operate a = true -> RoleRank RoleHelpdesk <= RoleRank (ad_Role (cx_Admin c))) /\
      (ac_fleet a = true -> cx_Scope c = None) /\ (by_session now r d c \/ ac_session a = false /\ by_token now r d c)) as Hserve.
    { intros sn' d1 Hcs Ha Hs. destruct (_ && _ && _) eqn:Ecsrf; [done|]. destruct (ac_admin a && _) eqn:Ead; [done|]. destruct (ac_operate a && _) eqn:Eop; [done|].
      intros (sc & -> & Hsc & Hfl)%withScope_Served. simpl. rewrite (scope_reads d d1) in Hsc by done.
      split; [intros E; rewrite E in Ead; simpl in Ead; by apply negb_false_iff, String.eqb_eq in Ead|].
      split; [intros E; rewrite E in Eop; simpl in Eop; lia|]. split; [done|]. left. split; [done|]. exists cookie, sn, row. split_and!; try done.
      rewrite Hcs in Ecsrf. destruct (String.eqb_spec (rq_Method r) "GET"), (String.eqb_spec (rq_Method r) "HEAD"), (String.eqb_spec (rq_CSRF r) (sn_CSRFToken sn)); auto; done. }
    destruct (_ >=? _); [by apply (Hserve (set_sn_seen _ _ sn))|by apply Hserve].
  - unfold withToken. destruct (CutPrefix "Bearer " (rq_Authorization r)) as [plain|] eqn:Ecut; [|done]. apply CutPrefix_Some in Ecut.
    destruct (usable_dec d now (TrimSpace plain) HI) as [(u & row & Hu)|Hno]; [|by rewrite (token_error hashToken now _ d Hno)].
    destruct (usable_accepted hashToken now _ d u row HI Hu) as (tok & d1 & Et & _ & Hrole & Hmaker). rewrite Et. destruct (token_tables _ _ _ _ _ Et) as [Ha Hs].
    destruct (ac_session a) eqn:Ess; [done|]. destruct (ac_admin a && _) eqn:Ead; [done|]. destruct (ac_operate a && _) eqn:Eop; [done|].
    intros (sc & -> & Hsc & Hfl)%withScope_Served. simpl. rewrite (scope_reads d d1), Hmaker in Hsc by done.
    split; [intros E; rewrite E in Ead; simpl in Ead; by apply negb_false_iff, String.eqb_eq in Ead|].
    split; [intros E; rewrite E in Eop; simpl in Eop; lia|]. split; [done|]. right. split; [done|]. exists plain, u, row. split_and!; try done; by eexists.
Qed.

(** ** The routes *)

(** What a helpdesk account may change: device actions, seeing a secret, and
    its own session. *)
Definition helpdesk_changes : list (string * string) :=
  [("POST", "/commands"); ("POST", "/bitlocker-keys/{id}/reveal"); ("POST", "/admin-passwords/{id}/reveal"); ("DELETE", "/session")]%string.

(** Routes only for a person in front of the console. *)
Definition personal : list string :=
  ["/admins"; "/api-tokens"; "/approvals"; "/bitlocker-keys"; "/admin-passwords"; "/remote-sessions"; "/server/update"]%string.

Definition route_ok (x : route) : bool :=
  let '(m, p, g) := x in
  if g_open g then String.eqb m "GET" || String.eqb p "/session"
  else (String.eqb m "GET" || existsb (fun h => String.eqb h.1 m && String.eqb h.2 p) helpdesk_changes || ac_admin (g_access g)) &&
       (negb (existsb (HasPrefix p) personal) || ac_session (g_access g)) &&
       (negb (HasPrefix p "/admins" || HasPrefix p "/api-tokens" || HasPrefix p "/approvals") || ac_fleet (g_access g)).

Lemma routes_ok : forallb route_ok Routes = true.
Proof. vm_compute. reflexivity. Qed.

(** C9. Every route is guarded. A request reaches its handler only from the
    owner of a live session, with the session's CSRF token unless it only
    reads, or with a usable API token, and sees no more than their devices;
    anything it changes, but for the few things a helpdesk does, an
    administrator changes; secrets, accounts, tokens and approvals are for a
    person at the console; and the last three for one who has the whole fleet.
    The only route anybody may change something through is the sign-in. *)
Theorem every_route_is_guarded m p g now r d c d' :
  Inv d -> (m, p, g) ∈ Routes ->
  if g_open g then m = "GET"%string \/ p = "/session"%string
  else protect (g_access g) now r d = (Served c, d') ->
    (by_session now r d c \/ by_token now r d c) /\
    (m <> "GET"%string -> (m, p) ∉ helpdesk_changes -> ad_Role (cx_Admin c) = RoleAdmin) /\
    (ac_operate (g_access g) = true -> RoleRank RoleHelpdesk <= RoleRank (ad_Role (cx_Admin c))) /\
    (existsb (HasPrefix p) personal = true -> by_session now r d c) /\
    (HasPrefix p "/admins" || HasPrefix p "/api-tokens" || HasPrefix p "/approvals" = true -> cx_Scope c = None).
Proof.
  intros HI Hin. pose proof routes_ok as Hok. rewrite forallb_forall in Hok. specialize (Hok (m, p, g) ltac:(by apply list_elem_of_In)).
  unfold route_ok in Hok. destruct (g_open g).
  { apply orb_true_iff in Hok as [H|H]; apply String.eqb_eq in H; auto. }
  intros Hs. apply protect_Served in Hs as (Had & Hop & Hfl & Hwho); [|done]. apply andb_true_iff in Hok as [[Hok1 Hok2]%andb_true_iff Hok3].
  split; [naive_solver|]. split; [|split; [done|split]].
  - intros Hm Hh. apply orb_true_iff in Hok1 as [[H|H]%orb_true_iff|H]; [by apply String.eqb_eq in H| |by apply Had].
    exfalso. apply Hh. apply existsb_elem in H as ([x y] & Hx & H). simpl in H. apply andb_true_iff in H as [->%String.eqb_eq ->%String.eqb_eq]. done.
  - intros Hp. rewrite Hp in Hok2. simpl in Hok2. destruct Hwho as [|[Hn _]]; [done|congruence].
  - intros Hp. rewrite Hp in Hok3. simpl in Hok3. by apply Hfl.
Qed.
End Access.
