(* ===== verification/AuthExamples.v ===== *)
(** * A small office

    Sign-in at concrete values: a key derivation, an authenticator and a seal
    simple enough to compute with, three accounts, and the theorems applied to
    them; then the two places where the code does not do what it says. *)
From S2P Require Import SignIn Sessions SsoProps Access.
Open Scope Z_scope.
Open Scope go_scope.

Definition kdf (password salt : string) (t m l n : Z) : string :=
  String.substring 0 (Z.to_nat n) (password ++ salt ++ "................................")%string.
(** The number of the half minute, in six digits. *)
Definition digits6 (n : Z) : string :=
  let s := ("000000" ++ Itoa n)%string in String.substring (String.length s - 6) 6 s.
Definition authenticator (secret : string) (t : time) : option string := Some (digits6 (Unix t / 30)).
Definition hashed (token : string) : string := ("h:" ++ token)%string.
Definition dummy : string := "$".

Definition office_key : Key :=
  mkKey (mkAEAD 1 (fun _ plain ctx => ((ctx ++ "|") ++ plain)%string) (fun _ ct ctx => CutPrefix (ctx ++ "|")%string ct)) "".
Definition per_account : StoreThrottle := mkStoreThrottle 3 (15 * Minute).
Definition per_address : StoreThrottle := mkStoreThrottle 50 (15 * Minute).
Definition office_service : Service :=
  mkService (12 * Hour) (20 * Hour) None "Retune" (Some (storeThrottle per_account)) (Some (storeThrottle per_address)) false true (Some office_key).

Definition noon : time := FromUnix 43200.
Definition after (seconds : Z) : time := FromUnix (43200 + seconds).
Definition reading (t : time) : readings := mkReadings t t t t t t.

Definition empty_office : adb := mkAdb [] [] [] [] [] [("g1", "Berlin"); ("g2", "Oslo")]%string [] (NewLimiter 10 (15 * Minute)).

(** Ann runs the fleet with a password and an authenticator, and has a session
    and an API token; Bob is at the help desk; Carol comes from the provider
    and has Berlin. *)
Definition opening : list op :=
  [OpCreateAdmin (Some "salt") (Some "a1") noon (mkCreateAdminOptions " Ann@x.org" "correct horse" RoleAdmin "setup");
   OpCreateAdmin (Some "salt") (Some "b1") noon (mkCreateAdminOptions "bob@x.org" "battery staple" RoleHelpdesk "setup");
   OpEnableTOTP (fun _ _ => Some ("JBSWY3DP", "otpauth:")%string) "n" "a1" "ann";
   OpSSO (Some "c1"%string) noon "https://idp" "sub-c" "carol@x.org" RoleAdmin (mkSsoScope true false ["Berlin"%string]);
   OpCreateSession (Some "s1") (Some "f1") noon "a1" "browser" "10.0.0.1";
   OpCreateAPIToken (Some "t1") (Some "k1") noon
     (mkNewAPIToken "backup" RoleHelpdesk 30 (mkAdmin "a1" "Ann@x.org" "" "" RoleAdmin noon None None AuthLocal "" "" false))]%string.

Abbreviation office_run := (history kdf authenticator hashed Itoa dummy office_service).
Definition office : adb := office_run opening empty_office.

Lemma office_counts : service_counts office_service.
Proof. intros t Ht. simpl in Ht. apply list_elem_of_In in Ht as [<-|[<-|[<-|[]]]]; [done|apply storeThrottle_counts..]. Qed.

Lemma empty_office_inv : Inv empty_office.
Proof. split; try (by constructor); by (split; constructor). Qed.

Lemma office_inv : Inv office.
Proof. apply history_inv; [apply office_counts|apply empty_office_inv]. Qed.

Example office_accounts :
  map (fun r => (ad_ID (r_Admin r), ad_Email (r_Admin r), ad_Role (r_Admin r), ad_Scoped (r_Admin r))) (t_admins office) =
    [("a1", "Ann@x.org", "admin", false); ("b1", "bob@x.org", "helpdesk", false); ("c1", "carol@x.org", "admin", true)]%string /\
  map sn_TokenHash (t_sessions office) = ["h:czE"%string] /\ map tk_TokenHash (t_tokens office) = ["h:rtk_dDE"%string] /\
  t_scopes office = [("c1", "g1")]%string.
Proof. vm_compute. auto. Qed.

Theorem tables_stay_consistent_witness : Inv office.
Proof. exact (tables_stay_consistent kdf authenticator hashed Itoa dummy office_service office_counts opening empty_office empty_office_inv). Defined.

(** ** The accounts, tokens and sessions *)

Lemma picked {A} (l : list A) n x : nth_error l n = Some x -> x ∈ l.
Proof. intros H. by eapply list_elem_of_In, nth_error_In. Qed.

Lemma ann_of_office : exists r, r ∈ t_admins office /\ ad_ID (r_Admin r) = "a1"%string /\ ad_DisabledAt (r_Admin r) = None /\
  ad_Role (r_Admin r) = RoleAdmin /\ ad_Scoped (r_Admin r) = false.
Proof. eexists. split; [apply (picked _ 0); vm_compute; reflexivity|]. vm_compute. auto. Qed.

Lemma token_of_office : exists t, t ∈ t_tokens office /\ tk_ID t = "k1"%string /\ tk_TokenHash t = hashed "rtk_dDE" /\ tk_RevokedAt t = None /\
  after 60 < tk_ExpiresAt t /\ tk_CreatedByID t = "a1"%string /\ tk_Role t = RoleHelpdesk.
Proof. eexists. split; [apply (picked _ 0); vm_compute; reflexivity|]. vm_compute. auto 10. Qed.

Lemma session_of_office : exists sn, sn ∈ t_sessions office /\ sn_AdminID sn = "a1"%string /\ sn_TokenHash sn = hashed "czE" /\
  sn_ExpiresAt sn = after 43200 /\ sn_CreatedAt sn = noon /\ sn_LastSeenAt sn = noon.
Proof. eexists. split; [apply (picked _ 0); vm_compute; reflexivity|]. vm_compute. auto 10. Qed.

Lemma office_has_ann : has_fleet_admin office.
Proof. destruct ann_of_office as (r & Hr & _ & Hd & Ho & Hs). exists r. split; [done|]. unfold isFleetAdmin. by rewrite Hd, Ho, Hs. Qed.

(** ** The theorems, there *)

(** Ann cannot be disabled, nor scoped. *)
Definition takeover : list op :=
  [OpSetDisabled (after 60) "a1" true "bob"; OpSetScope "a1" (Some ["g1"]) "bob"; OpDeleteGroup "g1"]%string.

Theorem somebody_manages_the_fleet_witness :
  (SetDisabled (after 60) "a1" true "bob" office).1 = Err ErrLastAdmin /\ has_fleet_admin (office_run takeover office).
Proof.
  split; [vm_compute; reflexivity|]. apply (somebody_manages_the_fleet kdf authenticator hashed Itoa dummy office_service office_counts takeover office).
  - apply office_inv.
  - apply office_has_ann.
  - by repeat constructor.
Defined.

Abbreviation at_the_door := (AuthenticateFrom kdf authenticator dummy office_service).
Definition code_at (t : time) : string := digits6 (Unix t / 30).

Theorem signs_in_exactly_with_credentials_witness :
  exists r, credentials_ok kdf authenticator office_service (reading (after 60)) " ANN@x.org" "correct horse" (code_at (after 60)) office r.
Proof.
  apply (signs_in_exactly_with_credentials kdf authenticator dummy office_service (reading (after 60)) Slot "10.0.0.1" " ANN@x.org" "correct horse"
    (code_at (after 60)) office office_counts office_inv). vm_compute. reflexivity.
Defined.

Theorem refusals_look_alike_witness :
  at_the_door (reading noon) Slot "10.0.0.1" "dan@x.org" "whatever" "" office =
    failing office_service (reading noon) "dan@x.org" "10.0.0.1" ErrInvalidCredentials (asked office_service (reading noon) "10.0.0.1" "dan@x.org" office).
Proof.
  apply (refusals_look_alike kdf authenticator dummy office_service (reading noon) "10.0.0.1" "dan@x.org" "whatever" "" office);
    [reflexivity|vm_compute; discriminate|vm_compute; discriminate|apply office_counts|vm_compute; reflexivity|].
  assert (forallb (fun r => negb (String.eqb (ToLower (ad_Email (r_Admin r))) (ToLower (email_key "dan@x.org")))) (t_admins office) = true) as H by (vm_compute; reflexivity).
  rewrite forallb_forall in H. intros r Hr%list_elem_of_In He. exfalso. specialize (H r Hr). cbv beta in H. rewrite He, String.eqb_refl in H. discriminate H.
Defined.

(** Five wrong passwords for Bob in as many seconds: the last two are not
    looked at. *)
Definition guess (n : Z) : attempt := mkAttempt (reading (after n)) Slot "10.0.0.9" "bob@x.org" "wrong password" "".
Definition guesses : list attempt := map guess [1; 2; 3; 4; 5].
Abbreviation answers_to := (outcomes kdf authenticator dummy office_service).

Theorem guesses_are_bounded_witness :
  map snd (answers_to guesses office) =
    [Err ErrInvalidCredentials; Err ErrInvalidCredentials; Err ErrInvalidCredentials; Err ErrTooManyAttempts; Err ErrTooManyAttempts] /\
  forall u, count_where (within (15 * Minute) u) (guess_times office_service "bob@x.org" (answers_to guesses office)) <= 3.
Proof.
  split; [vm_compute; reflexivity|].
  apply (guesses_are_bounded kdf authenticator dummy office_service 3 50 (15 * Minute) eq_refl (or_intror eq_refl) "bob@x.org" guesses noon office).
  - reflexivity.
  - vm_compute. intuition discriminate.
  - reflexivity.
  - assert (forallb (fun x => negb (is_ok x.2)) (answers_to guesses office) = true) as H by (vm_compute; reflexivity).
    rewrite forallb_forall in H. intros a adm Hin%list_elem_of_In. by specialize (H _ Hin).
Defined.

(** Ann signs in, a token is used, and she signs in again half a minute later. *)
Definition first_sign_in := at_the_door (reading (after 60)) Slot "10.0.0.1" "ann@x.org" "correct horse" (code_at (after 60)) office.
Definition between : list op := [OpUseAPIToken (after 61) "rtk_dDE"].
Definition second_sign_in :=
  at_the_door (reading (after 90)) Slot "10.0.0.2" "ann@x.org" "correct horse" (code_at (after 90)) (office_run between first_sign_in.2).

Lemma first_works : exists a, first_sign_in = (Ok a, first_sign_in.2) /\ ad_ID a = "a1"%string /\ ad_TOTPSecret a <> EmptyString.
Proof.
  assert (exists a, first_sign_in.1 = Ok a /\ ad_ID a = "a1"%string /\ ad_TOTPSecret a <> EmptyString) as (a & E & H)
    by (eexists; split; [vm_compute; reflexivity|]; by vm_compute).
  exists a. split; [|exact H]. rewrite <- E. apply surjective_pairing.
Qed.
Lemma second_works : exists b, second_sign_in = (Ok b, second_sign_in.2) /\ ad_ID b = "a1"%string.
Proof.
  assert (exists b, second_sign_in.1 = Ok b /\ ad_ID b = "a1"%string) as (b & E & H) by (eexists; split; [vm_compute; reflexivity|]; by vm_compute).
  exists b. split; [|exact H]. rewrite <- E. apply surjective_pairing.
Qed.

Lemma nothing_replaced : Forall (fun o => replaces_secret "a1" o = false) between.
Proof. by repeat constructor. Qed.

Theorem codes_are_used_once_witness :
  exists secret step1 step2, matchTOTP authenticator secret (code_at (after 60)) (after 60) = Some step1 /\
    matchTOTP authenticator secret (code_at (after 90)) (after 90) = Some step2 /\ step1 < step2.
Proof.
  destruct first_works as (a & Ea & Hia & Hsa), second_works as (b & Eb & Hib).
  exact (codes_are_used_once kdf authenticator hashed Itoa dummy office_service office_counts "a1" (reading (after 60)) Slot "10.0.0.1" "ann@x.org" "correct horse"
    (code_at (after 60)) office a first_sign_in.2 between (reading (after 90)) Slot "10.0.0.2" "ann@x.org" "correct horse" (code_at (after 90)) b second_sign_in.2
    office_inv Ea Hia Hsa nothing_replaced Eb Hib).
Defined.

Theorem tokens_act_within_their_maker_witness :
  exists t d', AuthenticateAPIToken hashed (after 60) "rtk_dDE" office = (Ok t, d') /\ tk_ID t = "k1"%string /\ tk_Role t = RoleHelpdesk /\ tk_CreatedByID t = "a1"%string.
Proof.
  destruct token_of_office as (t & Ht & Hi & Hh & Hr & He & Hm & Ho), ann_of_office as (r & Hra & Hri & Hrd & Hro & _).
  pose proof (proj1 (tokens_act_within_their_maker hashed office (after 60) "rtk_dDE" office_inv) t r) as H.
  rewrite Hi, Hri, Hro, Ho in H. apply H. repeat split; congruence || done.
Defined.

Definition revoked_office : adb := (RevokeAPIToken (after 60) "k1" "ann" office).2.
Lemma revoked_there : RevokeAPIToken (after 60) "k1" "ann" office = (Ok tt, revoked_office).
Proof. assert ((RevokeAPIToken (after 60) "k1" "ann" office).1 = Ok tt) as <- by (vm_compute; reflexivity). apply surjective_pairing. Qed.

(** Signing in again and turning the accounts off and on brings nothing back. *)
Theorem revoked_tokens_are_refused_witness :
  (AuthenticateAPIToken hashed (after 90) "rtk_dDE"
    (office_run [OpSetDisabled (after 61) "b1" true "ann"; OpSetDisabled (after 62) "b1" false "ann"] revoked_office)).1 = Err ErrInvalidToken.
Proof.
  destruct token_of_office as (t & Ht & Hi & Hh & _).
  exact (revoked_tokens_are_refused kdf authenticator hashed Itoa dummy office_service office_counts (after 60) "k1" "ann" office revoked_office t _ (after 90) "rtk_dDE"
    office_inv revoked_there Ht Hi (eq_sym Hh)).
Defined.

Theorem sessions_are_validated_witness :
  exists sn, sn ∈ t_sessions office /\ (ValidateSession hashed office_service (after 43199) "czE" office).2 =
    (@TouchSession auth_error (hashed "czE") (after 43199) (after 72000) office).2.
Proof.
  destruct session_of_office as (sn & Hs & Hi & Hh & He & Hc & Hl), ann_of_office as (r & Hr & Hri & Hd & _). exists sn. split; [exact Hs|].
  rewrite (sessions_are_validated hashed office_service office (after 43199) "czE" sn r office_inv (conj Hs (conj Hr (eq_trans Hri (eq_sym Hi)))) Hh).
  rewrite He, Hd, Hc, Hl. reflexivity.
Defined.

(** Ann's password is changed; Bob signs in. *)
Definition new_password : adb := (SetPassword kdf (Some "pepper"%string) "a1" "another password" "ann" office).2.
Lemma new_password_set : SetPassword kdf (Some "pepper"%string) "a1" "another password" "ann" office = (Ok tt, new_password).
Proof. assert ((SetPassword kdf (Some "pepper"%string) "a1" "another password" "ann" office).1 = Ok tt) as <- by (vm_compute; reflexivity). apply surjective_pairing. Qed.
Definition bobs_session : list op := [OpCreateSession (Some "s2") (Some "f2") (after 60) "b1" "browser" "10.0.0.2"]%string.
Definition bobs_request := ValidateSession hashed office_service (after 90) "czI" (office_run bobs_session new_password).

Theorem signed_out_everywhere_witness :
  (ValidateSession hashed office_service (after 90) "czE" (office_run bobs_session new_password)).1 = Err ErrInvalidSession /\
  exists a sn, bobs_request = (Ok (a, sn), bobs_request.2) /\ ad_ID a <> "a1"%string.
Proof.
  split; [vm_compute; reflexivity|].
  assert (exists a sn, bobs_request.1 = Ok (a, sn)) as (a & sn & E) by (do 2 eexists; vm_compute; reflexivity).
  assert (bobs_request = (Ok (a, sn), bobs_request.2)) as E2 by (rewrite <- E; apply surjective_pairing).
  exists a, sn. split; [exact E2|].
  refine (signed_out_everywhere kdf authenticator hashed Itoa dummy office_service office_counts "a1" office new_password bobs_session (after 90) "czI" a sn bobs_request.2 _ _ E2).
  - left. exists (Some "pepper"%string), "another password"%string, "ann"%string. exact new_password_set.
  - by repeat constructor.
Defined.

Definition anns_request := ValidateSession hashed office_service (after 43199) "czE" (office_run bobs_session office).

Theorem sessions_end_witness :
  exists a sn, anns_request = (Ok (a, sn), anns_request.2) /\ after 43199 < sn_CreatedAt sn + 20 * Hour /\ ad_DisabledAt a = None.
Proof.
  assert (exists a sn, anns_request.1 = Ok (a, sn)) as (a & sn & E) by (do 2 eexists; vm_compute; reflexivity).
  assert (anns_request = (Ok (a, sn), anns_request.2)) as E2 by (rewrite <- E; apply surjective_pairing).
  exists a, sn. split; [exact E2|].
  refine (sessions_end kdf authenticator hashed Itoa dummy office_service office_counts bobs_session office (after 43199) "czE" a sn anns_request.2 eq_refl office_inv _ E2).
  assert (forallb (fun x => sn_ExpiresAt x <=? sn_CreatedAt x + 20 * Hour) (t_sessions office) = true) as H by (vm_compute; reflexivity).
  rewrite forallb_forall in H. intros x Hx%list_elem_of_In. apply Z.leb_le. exact (H x Hx).
Defined.

(** ** Through the provider *)

(** The four members of the login's state, as text. *)
Definition to_text (v : json) : string :=
  match v with
  | JObj [(_, JStr a); (_, JStr b); (_, JStr c); (_, JNum n)] =>
      (EncodeToString URL a ++ String "." (EncodeToString URL b ++ String "." (EncodeToString URL c ++ String "." n)))%string
  | _ => EmptyString
  end.
Definition of_text (s : string) : option json :=
  match Cut "." s with
  | Some (a, s) => match Cut "." s with
    | Some (b, s) => match Cut "." s with
      | Some (c, n) => match DecodeString URL a, DecodeString URL b, DecodeString URL c with
        | Some a, Some b, Some c => Some (JObj [("s", JStr a); ("n", JStr b); ("v", JStr c); ("e", JNum n)]%string)
        | _, _, _ => None end
      | None => None end
    | None => None end
  | None => None
  end.
Lemma text_read ls : of_text (to_text (login_json ls)) = Some (login_json ls).
Proof.
  unfold to_text, of_text, login_json, jint. by rewrite !(Cut_app "." (EncodeToString URL _)), !decode_encode by (by apply encode_without).
Qed.
Lemma office_key_opens : key_opens office_key.
Proof. apply aead_key_opens. intros nonce plain ctx _. apply (CutPrefix_app (ctx ++ "|")%string). Qed.

Definition provider : OIDCConfig :=
  mkOIDCConfig "groups" ["it"%string] ["desk"%string] [] (<["berlin-it"%string := ["Berlin"%string]]> (<["oslo-it"%string := ["Oslo"%string]]> ∅)) ["hq"%string].
Definition exchanged (code verifier : string) : option (option string) :=
  if String.eqb verifier "v" then Some (Some code) else None.
(** The code is the list of the person's groups. *)
Definition checked (raw : string) (_ : time) : option IDToken :=
  Some (mkIDToken "https://idp" "sub-c" (EncodeToString URL "nonce")
    (Some (<["email"%string := JStr "carol@x.org"]> (<["groups"%string := JArr (map JStr (Split "," raw))]> ∅)))).
Definition sent (state nonce verifier : string) : string := ("https://idp/auth?state=" ++ state ++ "&nonce=" ++ nonce)%string.

Definition started := Start to_text office_key true sent (Some "state"%string) (Some "nonce"%string) "v" "n" noon.
Definition cookie : string := match started with Ok (_, c) => c | Err _ => EmptyString end.
Abbreviation back := (Finish of_text office_key true exchanged checked provider (Some "c2"%string) (after 60) cookie (EncodeToString URL "state")).
Abbreviation said := (identify of_text office_key true exchanged checked provider (after 60) cookie (EncodeToString URL "state")).
Definition carol (groups : list string) : person := mkPerson "https://idp" "sub-c" "carol@x.org" groups.

Theorem sign_in_ends_where_it_started_witness :
  said "it,oslo-it"%string = Ok (carol ["it"; "oslo-it"]%string).
Proof.
  assert (started = Ok (sent (EncodeToString URL "state") (EncodeToString URL "nonce") "v", cookie)) as E by (vm_compute; reflexivity).
  apply (proj2 (sign_in_ends_where_it_started to_text of_text office_key true exchanged checked sent provider office_key_opens text_read
    "state" "nonce" "v" "n" noon _ cookie eq_refl E)).
  split; [vm_compute; discriminate|]. split; [reflexivity|].
  eexists _, _, _, "carol@x.org"%string. split; [reflexivity|]. split; [discriminate|]. split; [reflexivity|]. split; [reflexivity|]. split; [reflexivity|].
  split; [|vm_compute; reflexivity]. split; [vm_compute; discriminate|]. split; [discriminate|]. left. vm_compute. reflexivity.
Defined.

(** Carol moved from Berlin to Oslo. *)
Definition carol_back := back "it,oslo-it"%string office.

Theorem provider_decides_witness :
  exists a, carol_back = (Ok a, carol_back.2) /\ ad_ID a = "c1"%string /\
    scope_is carol_back.2 "c1" (mkSsoScope true false ["Oslo"%string]).
Proof.
  assert (exists a, carol_back.1 = Ok a /\ ad_ID a = "c1"%string) as (a & E & Hi) by (eexists; split; [vm_compute; reflexivity|]; by vm_compute).
  assert (carol_back = (Ok a, carol_back.2)) as E2 by (rewrite <- E; apply surjective_pairing).
  exists a. split; [exact E2|]. split; [exact Hi|].
  destruct (provider_decides of_text office_key true exchanged checked provider (Some "c2"%string) (after 60) cookie (EncodeToString URL "state") "it,oslo-it"
    office a carol_back.2 office_inv) as (p & Hp & _ & _ & _ & Hsc & _).
  - apply (bool_decide_eq_true_1 (NoDup (map fst (t_groups office)))). vm_compute. reflexivity.
  - exact E2.
  - assert (said "it,oslo-it"%string = Ok (carol ["it"; "oslo-it"]%string)) as Hc by (vm_compute; reflexivity).
    rewrite Hc in Hp. injection Hp as <-. rewrite Hi in Hsc. exact (Hsc eq_refl).
Defined.

Theorem unmapped_people_are_cut_off_witness :
  exists d', back "it"%string office = (Err (SSOError SSOUnauthorized), d') /\ t_admins d' = t_admins office.
Proof.
  destruct (unmapped_people_are_cut_off of_text office_key true exchanged checked provider (Some "c2"%string) (after 60) cookie (EncodeToString URL "state") "it"
    office (carol ["it"%string])) as (d' & E & Ha & _).
  - vm_compute. reflexivity.
  - right. split; [reflexivity|]. split; [reflexivity|]. vm_compute. reflexivity.
  - exists d'. exact (conj E Ha).
Defined.

(** ** The guard *)

Definition send_command : request := mkRequest "POST" EmptyString (Some "czE"%string) (EncodeToString URL "f1").
Definition commanded := protect hashed office_service (g_access operate) (after 60) send_command office.

Theorem every_route_is_guarded_witness :
  (protect hashed office_service (g_access operate) (after 60) (mkRequest "POST" EmptyString (Some "czE"%string) "") office).1 = Refused 403 "csrf_invalid" false /\
  exists c, commanded = (Served c, commanded.2) /\ RoleRank RoleHelpdesk <= RoleRank (ad_Role (cx_Admin c)).
Proof.
  split; [vm_compute; reflexivity|].
  assert (exists c, commanded.1 = Served c) as (c & E) by (eexists; vm_compute; reflexivity).
  assert (commanded = (Served c, commanded.2)) as E2 by (rewrite <- E; apply surjective_pairing).
  exists c. split; [exact E2|].
  destruct (every_route_is_guarded hashed office_service "POST" "/commands" operate (after 60) send_command office c commanded.2 office_inv
    ltac:(by apply (picked _ 13)) E2) as (_ & _ & H & _).
  exact (H eq_refl).
Defined.

(** ** Where the code does not do what it says *)

(** "There must always be one": the provider's word for its only administrator
    takes the last one away. *)
Definition only_carol : list op :=
  [OpSSO (Some "c1"%string) noon "https://idp" "sub-c" "carol@x.org" RoleAdmin (mkSsoScope true true [])].
Definition carol_moves : op := OpSSO None (after 60) "https://idp" "sub-c" "carol@x.org" RoleAdmin (mkSsoScope true false ["Oslo"%string]).

Example the_last_one_is_taken_away :
  existsb (fun r => isFleetAdmin (r_Admin r)) (t_admins (office_run only_carol empty_office)) = true /\
  existsb (fun r => isFleetAdmin (r_Admin r)) (t_admins (office_run (only_carol ++ [carol_moves]) empty_office)) = false.
Proof. vm_compute. auto. Qed.

(** "Account keys never contain a space": what is typed is not checked to be an
    address, and counts against another's. *)
Example typed_as_an_address :
  let d := (at_the_door (reading noon) Slot "10.0.0.9" "ip 10.0.0.1" "whatever" "" office).2 in
  counted (ipKey "10.0.0.1") 0 (t_failures d) = 1.
Proof. vm_compute. reflexivity. Qed.
