(* ===== verification/FleetStore.v ===== *)
(** * The assignment, approval and rollout tables

    [internal/server/store/groups.go] (assignments and what is in effect for a
    device), [approvals.go] and the rollout half of [releases.go]: each SQL
    statement as an operation on tables held as lists of rows. One tenant, a
    database that answers. The supply of ids and the readings of the clock are
    counted in the state; no transaction body uses either, so a rollback gives
    none back. *)
From S2P Require Export Tx Phased Options.
Open Scope Z_scope.
Open Scope go_scope.

(** ** Rows *)

Definition ModeInclude : string := "include".
Definition ModeExclude : string := "exclude".
Definition GroupStatic : string := "static".
Definition GroupDynamic : string := "dynamic".
Definition GroupBuiltin : string := "builtin".
Definition BuiltinGroupID : string := "00000000-0000-0000-0000-000000000002".
Definition DeviceActive : string := "active".
Definition ItemPending : string := "pending".
Definition ItemSucceeded : string := "succeeded".
Definition ItemFailed : string := "failed".
Definition ItemConflict : string := "conflict".

(** A group with its rows of [group_members]; its id is the key it is under. *)
Record Group := mkGroupRow {
  g_Name : string; g_Description : string; g_Kind : string; g_Rule : string; g_CreatedAt : time; g_UpdatedAt : time;
  g_EvaluatedAt : option time; g_Members : list string }.

(** A group of which only these two matter. *)
Definition mkGroup (kind : string) (members : list string) : Group :=
  mkGroupRow EmptyString EmptyString kind EmptyString 0 0 None members.

Record FleetDevice := mkFleetDevice { fd_Hostname : string; fd_Status : string }.

Record ItemStatus := mkItemStatus {
  st_DeviceID : string; st_ItemKind : string; st_ItemID : string; st_Status : string; st_Detail : string;
  st_Version : Z; st_UpdatedAt : time }.

Record Assignment := mkAssignment {
  as_ID : string; as_ItemKind : string; as_ItemID : string; as_GroupID : string; as_Mode : string;
  as_CreatedAt : time; as_CreatedBy : string; as_Options : option json; as_Rollout : Rollout }.

Definition rolloutPercent (a : Assignment) : Z :=
  if Phased (as_Rollout a) then Percent (as_Rollout a) else 100.

Record EffectiveItem := mkEffectiveItem { ei_Kind : string; ei_ID : string; ei_Options : option json }.

Definition ApprovalAssignment : string := "assignment".
Definition ApprovalPending : string := "pending".
Definition ApprovalApproved : string := "approved".
Definition ApprovalRejected : string := "rejected".
Definition ApprovalExpired : string := "expired".
Definition ApprovalFailed : string := "failed".

Record Approval := mkApproval {
  ap_ID : string; ap_Kind : string; ap_Request : json; ap_Summary : string; ap_RequestedBy : string;
  ap_RequesterID : string; ap_CreatedAt : time; ap_ExpiresAt : time; ap_Status : string;
  ap_DecidedBy : string; ap_DecidedAt : option time; ap_Reason : string; ap_Result : option json }.

Definition RolloutPilot : string := "pilot".
Definition RolloutPromoting : string := "promoting".
Definition RolloutPromoted : string := "promoted".
Definition RolloutHalted : string := "halted".
Definition RolloutSuperseded : string := "superseded".

(** [ro_Version] is a join's and not a column. *)
Record AgentRollout := mkAgentRollout {
  ro_ID : string; ro_AgentVersionID : string; ro_State : string; ro_PilotGroupID : option string; ro_DelayHours : Z;
  ro_PilotAssignmentID : option string; ro_PilotApprovalID : option string; ro_PilotStartedAt : option time;
  ro_ExcludeAssignmentID : option string; ro_FleetAssignmentID : option string; ro_FleetApprovalID : option string;
  ro_PromotedAt : option time; ro_Detail : string; ro_CreatedAt : time; ro_UpdatedAt : time; ro_Version : string }.

Definition Active (r : AgentRollout) : bool :=
  String.eqb (ro_State r) RolloutPilot || String.eqb (ro_State r) RolloutPromoting.

Record AgentRolloutPolicy := mkPolicy { po_Enabled : bool; po_PilotGroupID : option string; po_DelayHours : Z }.

Definition DefaultRolloutDelayHours : Z := 24.

Record PilotHealth := mkHealth { Succeeded : Z; Failed : Z; Failures : list string }.

Record AgentVersion := mkAgentVersion { av_ID : string; av_Version : string }.

Record fdb := mkFdb {
  f_groups : gmap string Group;
  f_devices : gmap string FleetDevice;
  f_versions : gmap string string;
  f_assignments : list Assignment;
  f_approvals : list Approval;
  f_rollouts : list AgentRollout;
  f_policy : option AgentRolloutPolicy;
  f_statuses : list ItemStatus;
  f_audit : list AuditEntry;
  f_ids : nat;
  f_readings : nat }.

Definition set_f_groups (x : gmap string Group) (d : fdb) : fdb :=
  mkFdb x (f_devices d) (f_versions d) (f_assignments d) (f_approvals d) (f_rollouts d) (f_policy d) (f_statuses d) (f_audit d) (f_ids d) (f_readings d).
Definition set_f_assignments (x : list Assignment) (d : fdb) : fdb :=
  mkFdb (f_groups d) (f_devices d) (f_versions d) x (f_approvals d) (f_rollouts d) (f_policy d) (f_statuses d) (f_audit d) (f_ids d) (f_readings d).
Definition set_f_approvals (x : list Approval) (d : fdb) : fdb :=
  mkFdb (f_groups d) (f_devices d) (f_versions d) (f_assignments d) x (f_rollouts d) (f_policy d) (f_statuses d) (f_audit d) (f_ids d) (f_readings d).
Definition set_f_rollouts (x : list AgentRollout) (d : fdb) : fdb :=
  mkFdb (f_groups d) (f_devices d) (f_versions d) (f_assignments d) (f_approvals d) x (f_policy d) (f_statuses d) (f_audit d) (f_ids d) (f_readings d).
Definition set_f_policy (x : option AgentRolloutPolicy) (d : fdb) : fdb :=
  mkFdb (f_groups d) (f_devices d) (f_versions d) (f_assignments d) (f_approvals d) (f_rollouts d) x (f_statuses d) (f_audit d) (f_ids d) (f_readings d).
Definition set_f_statuses (x : list ItemStatus) (d : fdb) : fdb :=
  mkFdb (f_groups d) (f_devices d) (f_versions d) (f_assignments d) (f_approvals d) (f_rollouts d) (f_policy d) x (f_audit d) (f_ids d) (f_readings d).
Definition set_f_audit (x : list AuditEntry) (d : fdb) : fdb :=
  mkFdb (f_groups d) (f_devices d) (f_versions d) (f_assignments d) (f_approvals d) (f_rollouts d) (f_policy d) (f_statuses d) x (f_ids d) (f_readings d).
Definition set_f_ids (x : nat) (d : fdb) : fdb :=
  mkFdb (f_groups d) (f_devices d) (f_versions d) (f_assignments d) (f_approvals d) (f_rollouts d) (f_policy d) (f_statuses d) (f_audit d) x (f_readings d).
Definition set_f_readings (x : nat) (d : fdb) : fdb :=
  mkFdb (f_groups d) (f_devices d) (f_versions d) (f_assignments d) (f_approvals d) (f_rollouts d) (f_policy d) (f_statuses d) (f_audit d) (f_ids d) x.
Definition set_f_versions (x : gmap string string) (d : fdb) : fdb :=
  mkFdb (f_groups d) (f_devices d) x (f_assignments d) (f_approvals d) (f_rollouts d) (f_policy d) (f_statuses d) (f_audit d) (f_ids d) (f_readings d).

(** Go's assignments to one field of a rollout. *)
Definition set_State (x : string) (r : AgentRollout) : AgentRollout :=
  mkAgentRollout (ro_ID r) (ro_AgentVersionID r) x (ro_PilotGroupID r) (ro_DelayHours r) (ro_PilotAssignmentID r)
    (ro_PilotApprovalID r) (ro_PilotStartedAt r) (ro_ExcludeAssignmentID r) (ro_FleetAssignmentID r) (ro_FleetApprovalID r)
    (ro_PromotedAt r) (ro_Detail r) (ro_CreatedAt r) (ro_UpdatedAt r) (ro_Version r).
Definition set_PilotAssignmentID (x : option string) (r : AgentRollout) : AgentRollout :=
  mkAgentRollout (ro_ID r) (ro_AgentVersionID r) (ro_State r) (ro_PilotGroupID r) (ro_DelayHours r) x
    (ro_PilotApprovalID r) (ro_PilotStartedAt r) (ro_ExcludeAssignmentID r) (ro_FleetAssignmentID r) (ro_FleetApprovalID r)
    (ro_PromotedAt r) (ro_Detail r) (ro_CreatedAt r) (ro_UpdatedAt r) (ro_Version r).
Definition set_PilotApprovalID (x : option string) (r : AgentRollout) : AgentRollout :=
  mkAgentRollout (ro_ID r) (ro_AgentVersionID r) (ro_State r) (ro_PilotGroupID r) (ro_DelayHours r) (ro_PilotAssignmentID r)
    x (ro_PilotStartedAt r) (ro_ExcludeAssignmentID r) (ro_FleetAssignmentID r) (ro_FleetApprovalID r)
    (ro_PromotedAt r) (ro_Detail r) (ro_CreatedAt r) (ro_UpdatedAt r) (ro_Version r).
Definition set_PilotStartedAt (x : option time) (r : AgentRollout) : AgentRollout :=
  mkAgentRollout (ro_ID r) (ro_AgentVersionID r) (ro_State r) (ro_PilotGroupID r) (ro_DelayHours r) (ro_PilotAssignmentID r)
    (ro_PilotApprovalID r) x (ro_ExcludeAssignmentID r) (ro_FleetAssignmentID r) (ro_FleetApprovalID r)
    (ro_PromotedAt r) (ro_Detail r) (ro_CreatedAt r) (ro_UpdatedAt r) (ro_Version r).
Definition set_ExcludeAssignmentID (x : option string) (r : AgentRollout) : AgentRollout :=
  mkAgentRollout (ro_ID r) (ro_AgentVersionID r) (ro_State r) (ro_PilotGroupID r) (ro_DelayHours r) (ro_PilotAssignmentID r)
    (ro_PilotApprovalID r) (ro_PilotStartedAt r) x (ro_FleetAssignmentID r) (ro_FleetApprovalID r)
    (ro_PromotedAt r) (ro_Detail r) (ro_CreatedAt r) (ro_UpdatedAt r) (ro_Version r).
Definition set_FleetAssignmentID (x : option string) (r : AgentRollout) : AgentRollout :=
  mkAgentRollout (ro_ID r) (ro_AgentVersionID r) (ro_State r) (ro_PilotGroupID r) (ro_DelayHours r) (ro_PilotAssignmentID r)
    (ro_PilotApprovalID r) (ro_PilotStartedAt r) (ro_ExcludeAssignmentID r) x (ro_FleetApprovalID r)
    (ro_PromotedAt r) (ro_Detail r) (ro_CreatedAt r) (ro_UpdatedAt r) (ro_Version r).
Definition set_FleetApprovalID (x : option string) (r : AgentRollout) : AgentRollout :=
  mkAgentRollout (ro_ID r) (ro_AgentVersionID r) (ro_State r) (ro_PilotGroupID r) (ro_DelayHours r) (ro_PilotAssignmentID r)
    (ro_PilotApprovalID r) (ro_PilotStartedAt r) (ro_ExcludeAssignmentID r) (ro_FleetAssignmentID r) x
    (ro_PromotedAt r) (ro_Detail r) (ro_CreatedAt r) (ro_UpdatedAt r) (ro_Version r).
Definition set_PromotedAt (x : option time) (r : AgentRollout) : AgentRollout :=
  mkAgentRollout (ro_ID r) (ro_AgentVersionID r) (ro_State r) (ro_PilotGroupID r) (ro_DelayHours r) (ro_PilotAssignmentID r)
    (ro_PilotApprovalID r) (ro_PilotStartedAt r) (ro_ExcludeAssignmentID r) (ro_FleetAssignmentID r) (ro_FleetApprovalID r)
    x (ro_Detail r) (ro_CreatedAt r) (ro_UpdatedAt r) (ro_Version r).
Definition set_Detail (x : string) (r : AgentRollout) : AgentRollout :=
  mkAgentRollout (ro_ID r) (ro_AgentVersionID r) (ro_State r) (ro_PilotGroupID r) (ro_DelayHours r) (ro_PilotAssignmentID r)
    (ro_PilotApprovalID r) (ro_PilotStartedAt r) (ro_ExcludeAssignmentID r) (ro_FleetAssignmentID r) (ro_FleetApprovalID r)
    (ro_PromotedAt r) x (ro_CreatedAt r) (ro_UpdatedAt r) (ro_Version r).
Definition set_UpdatedAt (x : time) (r : AgentRollout) : AgentRollout :=
  mkAgentRollout (ro_ID r) (ro_AgentVersionID r) (ro_State r) (ro_PilotGroupID r) (ro_DelayHours r) (ro_PilotAssignmentID r)
    (ro_PilotApprovalID r) (ro_PilotStartedAt r) (ro_ExcludeAssignmentID r) (ro_FleetAssignmentID r) (ro_FleetApprovalID r)
    (ro_PromotedAt r) (ro_Detail r) (ro_CreatedAt r) x (ro_Version r).
Definition set_Version (x : string) (r : AgentRollout) : AgentRollout :=
  mkAgentRollout (ro_ID r) (ro_AgentVersionID r) (ro_State r) (ro_PilotGroupID r) (ro_DelayHours r) (ro_PilotAssignmentID r)
    (ro_PilotApprovalID r) (ro_PilotStartedAt r) (ro_ExcludeAssignmentID r) (ro_FleetAssignmentID r) (ro_FleetApprovalID r)
    (ro_PromotedAt r) (ro_Detail r) (ro_CreatedAt r) (ro_UpdatedAt r) x.
Definition set_PilotGroupID (x : option string) (r : AgentRollout) : AgentRollout :=
  mkAgentRollout (ro_ID r) (ro_AgentVersionID r) (ro_State r) x (ro_DelayHours r) (ro_PilotAssignmentID r)
    (ro_PilotApprovalID r) (ro_PilotStartedAt r) (ro_ExcludeAssignmentID r) (ro_FleetAssignmentID r) (ro_FleetApprovalID r)
    (ro_PromotedAt r) (ro_Detail r) (ro_CreatedAt r) (ro_UpdatedAt r) (ro_Version r).

Abbreviation ftx := (txn fdb).

Definition fget {E A} (f : fdb -> A) : ftx E A := fun d => (Ok (f d), d).
Definition fset {E} (f : fdb -> fdb) : ftx E unit := fun d => (Ok tt, f d).
Definition found {E A} (e : E) (o : option A) : ftx E A := match o with Some a => tret a | None => tfail e end.

Definition InsertAudit {E} (a : AuditEntry) : ftx E unit := fset (fun d => set_f_audit (f_audit d ++ [a]) d).

(** ** [store/groups.go] *)

Definition GetGroup (id : string) : ftx store_error Group :=
  let* g := fget (fun d => f_groups d !! id) in found ErrNotFound g.

Definition same_triple (a b : Assignment) : bool :=
  String.eqb (as_ItemKind a) (as_ItemKind b) && String.eqb (as_ItemID a) (as_ItemID b)
  && String.eqb (as_GroupID a) (as_GroupID b) && String.eqb (as_Mode a) (as_Mode b).

(** The row an insert of [a] stores. *)
Definition assignment_row (a : Assignment) : Assignment :=
  mkAssignment (as_ID a) (as_ItemKind a) (as_ItemID a) (as_GroupID a) (as_Mode a) (as_CreatedAt a) (as_CreatedBy a)
    (Some (default (JObj []) (as_Options a)))
    (mkRollout (rolloutPercent a) (StepPercent (as_Rollout a)) (StepHours (as_Rollout a))).

(** What a conflict replaces: everything but the id. *)
Definition replace_assignment (a old : Assignment) : Assignment :=
  mkAssignment (as_ID old) (as_ItemKind old) (as_ItemID old) (as_GroupID old) (as_Mode old) (as_CreatedAt a)
    (as_CreatedBy a) (as_Options (assignment_row a)) (as_Rollout (assignment_row a)).

Definition CreateAssignment (a : Assignment) : ftx store_error string := fun d =>
  match find (same_triple a) (f_assignments d) with
  | Some old => (Ok (as_ID old),
                 set_f_assignments (update_where (same_triple a) (replace_assignment a) (f_assignments d)) d)
  | None =>
      if existsb (fun b => String.eqb (as_ID b) (as_ID a)) (f_assignments d) then (Err ErrDuplicate, d)
      else match f_groups d !! as_GroupID a with
           | None => (Err ErrForeignKey, d)
           | Some _ => (Ok (as_ID a), set_f_assignments (f_assignments d ++ [assignment_row a]) d)
           end
  end.

Definition DeleteAssignment {E} (id : string) : ftx E unit :=
  fset (fun d => set_f_assignments (List.filter (fun a => negb (String.eqb (as_ID a) id)) (f_assignments d)) d).

Definition is_assignment_of (itemKind itemID groupID mode : string) (a : Assignment) : bool :=
  String.eqb (as_ItemKind a) itemKind && String.eqb (as_ItemID a) itemID
  && String.eqb (as_GroupID a) groupID && String.eqb (as_Mode a) mode.

Definition GetAssignmentFor (itemKind itemID groupID mode : string) : ftx store_error Assignment :=
  let* a := fget (fun d => find (is_assignment_of itemKind itemID groupID mode) (f_assignments d)) in
  found ErrNotFound a.

Definition GroupMemberCount (id : string) : ftx store_error Z :=
  fget (fun d => match f_groups d !! id with Some g => Z.of_nat (length (g_Members g)) | None => 0 end).

(** *** What is in effect for a device *)

Definition is_member (d : fdb) (groupID deviceID : string) : bool :=
  match f_groups d !! groupID with Some g => existsb (String.eqb deviceID) (g_Members g) | None => false end.

Definition reaches (d : fdb) (deviceID mode : string) (a : Assignment) : bool :=
  String.eqb (as_Mode a) mode && is_member d (as_GroupID a) deviceID.

Definition same_item (a b : Assignment) : bool :=
  String.eqb (as_ItemKind a) (as_ItemKind b) && String.eqb (as_ItemID a) (as_ItemID b).

(** The query: includes through one of the device's groups, without those an
    exclude takes away. *)
Definition candidates (deviceID : string) (d : fdb) : list Assignment :=
  List.filter (fun a => reaches d deviceID ModeInclude a
    && negb (existsb (fun x => reaches d deviceID ModeExclude x && same_item x a) (f_assignments d))) (f_assignments d).

(** [ORDER BY item_kind, item_id, created_at DESC]. *)
Definition item_order (a b : Assignment) : bool :=
  String.ltb (as_ItemKind a) (as_ItemKind b)
  || (String.eqb (as_ItemKind a) (as_ItemKind b)
      && (String.ltb (as_ItemID a) (as_ItemID b)
          || (String.eqb (as_ItemID a) (as_ItemID b) && (as_CreatedAt b <=? as_CreatedAt a)))).

Section Effective.
Context (uuid_bytes : string -> list Z).

(** The loop over the rows; [None] is a panic of [Current]. *)
Fixpoint effective_rows (deviceID : string) (now : time) (seen : list Assignment) (rows : list Assignment)
    : option (list EffectiveItem) :=
  match rows with
  | [] => Some []
  | a :: rest =>
      if existsb (same_item a) seen then effective_rows deviceID now seen rest
      else match Current (as_Rollout a) (as_CreatedAt a) now with
           | None => None
           | Some p =>
               if RolloutAdmits uuid_bytes (as_ItemID a) deviceID p
               then match effective_rows deviceID now (a :: seen) rest with
                    | Some out => Some (mkEffectiveItem (as_ItemKind a) (as_ItemID a) (as_Options a) :: out)
                    | None => None
                    end
               else effective_rows deviceID now seen rest
           end
  end.

Definition EffectiveItems (deviceID : string) (now : time) (d : fdb) : option (list EffectiveItem) :=
  effective_rows deviceID now [] (order_by item_order (candidates deviceID d)).
End Effective.

(** ** [store/approvals.go] *)

Definition CreateApproval (a : Approval) : ftx store_error unit := fun d =>
  if existsb (fun b => String.eqb (ap_ID b) (ap_ID a)) (f_approvals d) then (Err ErrDuplicate, d)
  else (Ok tt, set_f_approvals (f_approvals d ++
    [mkApproval (ap_ID a) (ap_Kind a) (ap_Request a) (ap_Summary a) (ap_RequestedBy a) (ap_RequesterID a)
       (ap_CreatedAt a) (ap_ExpiresAt a) ApprovalPending EmptyString None EmptyString None]) d).

Definition GetApproval (id : string) : ftx store_error Approval :=
  let* a := fget (fun d => find (fun a => String.eqb (ap_ID a) id) (f_approvals d)) in found ErrNotFound a.

Definition decided (status by_ reason : string) (at_ : option time) (a : Approval) : Approval :=
  mkApproval (ap_ID a) (ap_Kind a) (ap_Request a) (ap_Summary a) (ap_RequestedBy a) (ap_RequesterID a)
    (ap_CreatedAt a) (ap_ExpiresAt a) status by_ at_ reason (ap_Result a).

Definition lapsed (now : time) (a : Approval) : bool :=
  String.eqb (ap_Status a) ApprovalPending && (ap_ExpiresAt a <=? now).

Definition ExpireApprovals (now : time) : ftx store_error unit :=
  fset (fun d => set_f_approvals (update_where (lapsed now)
    (fun a => decided ApprovalExpired (ap_DecidedBy a) (ap_Reason a) (ap_DecidedAt a) a) (f_approvals d)) d).

Inductive approval_error := ErrNotPending | ErrStore (e : store_error).

Definition decidable (id : string) (now : time) (a : Approval) : bool :=
  String.eqb (ap_ID a) id && String.eqb (ap_Status a) ApprovalPending && (now <? ap_ExpiresAt a).

Definition DecideApproval (id status by_ reason : string) (now : time) : ftx approval_error Approval := fun d =>
  match find (decidable id now) (f_approvals d) with
  | Some a =>
      (Ok (decided status by_ reason (Some now) a),
       set_f_approvals (update_where (decidable id now) (decided status by_ reason (Some now)) (f_approvals d)) d)
  | None =>
      match GetApproval id d with (Ok _, d) => (Err ErrNotPending, d) | (Err e, d) => (Err (ErrStore e), d) end
  end.

Definition SetApprovalResult (id status : string) (result : json) : ftx store_error unit :=
  fset (fun d => set_f_approvals (update_where (fun a => String.eqb (ap_ID a) id)
    (fun a => mkApproval (ap_ID a) (ap_Kind a) (ap_Request a) (ap_Summary a) (ap_RequestedBy a) (ap_RequesterID a)
       (ap_CreatedAt a) (ap_ExpiresAt a) status (ap_DecidedBy a) (ap_DecidedAt a) (ap_Reason a) (Some result))
    (f_approvals d)) d).

(** ** [store/releases.go] *)

Definition GetAgentRolloutPolicy : ftx store_error AgentRolloutPolicy :=
  fget (fun d => default (mkPolicy false None DefaultRolloutDelayHours) (f_policy d)).

Definition SetAgentRolloutPolicy (p : AgentRolloutPolicy) : ftx store_error unit :=
  fset (set_f_policy (Some p)).

(** The join with [agent_versions]: a rollout whose build is gone is not read. *)
Definition join_version (d : fdb) (r : AgentRollout) : option AgentRollout :=
  match f_versions d !! ro_AgentVersionID r with Some v => Some (set_Version v r) | None => None end.

(** The insert names few columns; the rest start empty. *)
Definition CreateAgentRollout (r : AgentRollout) : ftx store_error bool := fun d =>
  if existsb (fun b => String.eqb (ro_AgentVersionID b) (ro_AgentVersionID r)) (f_rollouts d) then (Ok false, d)
  else if existsb (fun b => String.eqb (ro_ID b) (ro_ID r)) (f_rollouts d) then (Err ErrDuplicate, d)
  else match f_versions d !! ro_AgentVersionID r, match ro_PilotGroupID r with Some g => bool_decide (is_Some (f_groups d !! g)) | None => true end with
       | Some _, true =>
           (Ok true, set_f_rollouts (f_rollouts d ++
             [mkAgentRollout (ro_ID r) (ro_AgentVersionID r) (ro_State r) (ro_PilotGroupID r) (ro_DelayHours r)
                None None None None None None None (ro_Detail r) (ro_CreatedAt r) (ro_CreatedAt r) EmptyString]) d)
       | _, _ => (Err ErrForeignKey, d)
       end.

(** What an update writes over an old row. *)
Definition write_rollout (r old : AgentRollout) : AgentRollout :=
  mkAgentRollout (ro_ID old) (ro_AgentVersionID old) (ro_State r) (ro_PilotGroupID old) (ro_DelayHours old)
    (ro_PilotAssignmentID r) (ro_PilotApprovalID r) (ro_PilotStartedAt r) (ro_ExcludeAssignmentID r)
    (ro_FleetAssignmentID r) (ro_FleetApprovalID r) (ro_PromotedAt r) (ro_Detail r) (ro_CreatedAt old)
    (ro_UpdatedAt r) (ro_Version old).

Definition UpdateAgentRollout (r : AgentRollout) : ftx store_error unit :=
  fset (fun d => set_f_rollouts (update_where (fun old => String.eqb (ro_ID old) (ro_ID r)) (write_rollout r) (f_rollouts d)) d).

Definition GetAgentRollout (id : string) : ftx store_error AgentRollout :=
  let* r := fget (fun d => match find (fun r => String.eqb (ro_ID r) id) (f_rollouts d) with
                           | Some r => join_version d r | None => None end) in
  found ErrNotFound r.

(** [ORDER BY created_at, id]. *)
Definition rollout_order (a b : AgentRollout) : bool :=
  (ro_CreatedAt a <? ro_CreatedAt b) || ((ro_CreatedAt a =? ro_CreatedAt b) && String.leb (ro_ID a) (ro_ID b)).

Definition in_states (states : list string) (r : AgentRollout) : bool := existsb (String.eqb (ro_State r)) states.

Definition ListRolloutsInState (states : list string) : ftx store_error (list AgentRollout) :=
  fget (fun d => omap (join_version d) (order_by rollout_order (List.filter (in_states states) (f_rollouts d)))).

(** The statuses of a build on a group's active devices, in the order of their names. *)
Definition health_rows (groupID agentVersionID : string) (d : fdb) : list (string * string * ItemStatus) :=
  omap (fun s =>
    match f_devices d !! st_DeviceID s with
    | Some dev => if is_member d groupID (st_DeviceID s) && String.eqb (fd_Status dev) DeviceActive
                     && String.eqb (st_ItemKind s) ItemKindAgent && String.eqb (st_ItemID s) agentVersionID
                  then Some (ToLower (fd_Hostname dev), fd_Hostname dev, s) else None
    | None => None
    end) (f_statuses d).

Definition health_order (a b : string * string * ItemStatus) : bool :=
  String.ltb a.1.1 b.1.1 || (String.eqb a.1.1 b.1.1 && String.leb (st_DeviceID a.2) (st_DeviceID b.2)).

Definition count_health (h : PilotHealth) (row : string * string * ItemStatus) : PilotHealth :=
  let '(_, host, s) := row in
  if String.eqb (st_Status s) ItemSucceeded then mkHealth (Succeeded h + 1) (Failed h) (Failures h)
  else if String.eqb (st_Status s) ItemFailed then
    mkHealth (Succeeded h) (Failed h + 1)
      (if (length (Failures h) <? 5)%nat
       then Failures h ++ [if String.eqb (st_Detail s) EmptyString then host
                           else (host ++ " (" ++ st_Detail s ++ ")")%string]
       else Failures h)
  else h.

Definition AgentBuildHealth (groupID agentVersionID : string) : ftx store_error PilotHealth :=
  fget (fun d => fold_left count_health (order_by health_order (health_rows groupID agentVersionID d)) (mkHealth 0 0 [])).
