(* ===== verification/Effective.v ===== *)
(** * What is in effect for a device

    [Queries.EffectiveItems] against its contract: included through one of the
    device's groups whose rollout admits it, excluded through none, each item
    once, with the options of its newest admitting include. *)
From S2P Require Export FleetStore Version.
Open Scope Z_scope.
Open Scope go_scope.

(** ** The query's order *)

Lemma item_order_total a b : item_order a b = false -> item_order b a = true.
Proof.
  unfold item_order. intros [H1 H2]%orb_false_iff.
  destruct (String.eqb_spec (as_ItemKind a) (as_ItemKind b)) as [E|N].
  - rewrite E, ltb_irrefl, String.eqb_refl. simpl in *. apply orb_false_iff in H2 as [H2 H3].
    destruct (String.eqb_spec (as_ItemID a) (as_ItemID b)) as [E2|N2]; simpl in *.
    + rewrite E2, ltb_irrefl, String.eqb_refl. simpl. bools. lia.
    + by rewrite (ltb_total _ _ H2 N2).
  - by rewrite (ltb_total _ _ H1 N).
Qed.

Lemma item_order_trans a b c : item_order a b = true -> item_order b c = true -> item_order a c = true.
Proof.
  unfold item_order. rewrite !orb_true_iff, !andb_true_iff, !orb_true_iff, !andb_true_iff, !String.eqb_eq, !Z.leb_le.
  intros [H1|[E1 H1]] [H2|[E2 H2]].
  - left. by eapply ltb_trans.
  - left. by rewrite <- E2.
  - left. by rewrite E1.
  - right. split; [congruence|]. destruct H1 as [H1|[F1 H1]], H2 as [H2|[F2 H2]].
    + left. by eapply ltb_trans.
    + left. by rewrite <- F2.
    + left. by rewrite F1.
    + right. split; [congruence|lia].
Qed.

Lemma item_order_same a b : item_order a b = true -> same_item a b = true -> as_CreatedAt b <= as_CreatedAt a.
Proof.
  unfold item_order, same_item. intros H [E1%String.eqb_eq E2%String.eqb_eq]%andb_true_iff.
  rewrite E1, E2, !ltb_irrefl, !String.eqb_refl in H. simpl in H. bools. lia.
Qed.

Lemma same_item_spec a b : same_item a b = true <-> as_ItemKind a = as_ItemKind b /\ as_ItemID a = as_ItemID b.
Proof. unfold same_item. by rewrite andb_true_iff, !String.eqb_eq. Qed.

(** ** The contract *)

Section Contract.
Context (uuid_bytes : string -> list Z).

Definition item_of (a : Assignment) : EffectiveItem := mkEffectiveItem (as_ItemKind a) (as_ItemID a) (as_Options a).
Definition item_key (i : EffectiveItem) : string * string := (ei_Kind i, ei_ID i).
Definition assigned_key (a : Assignment) : string * string := (as_ItemKind a, as_ItemID a).

(** The device is inside the part of the group the assignment reaches now. *)
Definition admitted (deviceID : string) (now : time) (a : Assignment) : Prop :=
  exists p, Current (as_Rollout a) (as_CreatedAt a) now = Some p
            /\ RolloutAdmits uuid_bytes (as_ItemID a) deviceID p = true.

Definition taken (seen : list Assignment) (a : Assignment) : bool := existsb (same_item a) seen.

Lemma taken_key seen a : taken seen a = true <-> assigned_key a ∈ map assigned_key seen.
Proof.
  unfold taken. rewrite existsb_elem, list_elem_of_fmap. unfold assigned_key. split.
  - intros (x & Hx & [E F]%same_item_spec). exists x. split; [congruence|done].
  - intros (x & [= E F] & Hx). exists x. split; [done|]. by apply same_item_spec.
Qed.

Lemma effective_rows_spec deviceID now rows seen :
  StronglySorted (fun a b => item_order a b = true) rows ->
  (forall a, a ∈ rows -> stored_rollout (as_Rollout a)) ->
  exists out, effective_rows uuid_bytes deviceID now seen rows = Some out
    /\ (forall i, i ∈ out -> exists a, a ∈ rows /\ i = item_of a /\ admitted deviceID now a /\ taken seen a = false
          /\ forall b, b ∈ rows -> admitted deviceID now b -> same_item a b = true -> as_CreatedAt b <= as_CreatedAt a)
    /\ (forall a, a ∈ rows -> admitted deviceID now a -> taken seen a = false -> exists i, i ∈ out /\ item_key i = assigned_key a)
    /\ NoDup (map item_key out).
Proof.
  intros Hs Hst. revert seen. induction Hs as [|a rows Hs IH Hle]; intros seen.
  { exists []. split; [done|]. split; [intros i Hi; by apply elem_of_nil in Hi|].
    split; [intros a Ha; by apply elem_of_nil in Ha|constructor]. }
  assert (IH' := fun s => IH (fun b Hb => Hst b (list_elem_of_further _ _ _ Hb)) s). clear IH.
  assert (Hnew : forall b, b ∈ rows -> same_item a b = true -> as_CreatedAt b <= as_CreatedAt a).
  { intros b Hb. rewrite Forall_forall in Hle. by apply item_order_same, Hle. }
  (* skipping the row keeps the specification of the rest *)
  assert (Hskip : forall s (out : list EffectiveItem), (forall b, b ∈ rows -> admitted deviceID now b -> taken s b = false -> same_item a b = true ->
      admitted deviceID now a -> False) ->
    (forall i, i ∈ out -> exists c, c ∈ rows /\ i = item_of c /\ admitted deviceID now c /\ taken s c = false
          /\ forall b, b ∈ rows -> admitted deviceID now b -> same_item c b = true -> as_CreatedAt b <= as_CreatedAt c) ->
    forall i, i ∈ out -> exists c, c ∈ a :: rows /\ i = item_of c /\ admitted deviceID now c /\ taken s c = false
          /\ forall b, b ∈ a :: rows -> admitted deviceID now b -> same_item c b = true -> as_CreatedAt b <= as_CreatedAt c).
  { intros s out Ha H i Hi. destruct (H i Hi) as (c & Hc & E & Hadm & Ht & Hmax). exists c.
    split; [by constructor|]. do 3 (split; [done|]). intros b [->|Hb]%elem_of_cons Hb' Hsame; [|by apply Hmax].
    exfalso. apply (Ha c); try done. apply same_item_spec. by apply same_item_spec in Hsame as [-> ->]. }
  cbn [effective_rows]. fold (taken seen a). destruct (taken seen a) eqn:Et.
  { destruct (IH' seen) as (out & E & H1 & H2 & H3). exists out. split; [done|]. split; [|split; [|done]].
    - apply Hskip; [|done]. intros b Hb _ Htb [Ek Ei]%same_item_spec _.
      apply taken_key in Et. assert (taken seen b = true) by (apply taken_key; unfold assigned_key in *; congruence). congruence.
    - intros b [->|Hb]%elem_of_cons Hadm Htb; [congruence|by apply H2]. }
  destruct (Current (as_Rollout a) (as_CreatedAt a) now) as [p|] eqn:Ec; cycle 1.
  { exfalso. assert (Ha : stored_rollout (as_Rollout a)) by (apply Hst; constructor).
    destruct (Phased (as_Rollout a)) eqn:Hp; [by rewrite (Current_steps _ _ _ Ha Hp) in Ec|].
    unfold Current in Ec. by rewrite Hp in Ec. }
  destruct (RolloutAdmits uuid_bytes (as_ItemID a) deviceID p) eqn:Ea; cycle 1.
  { assert (Hna : ~ admitted deviceID now a) by (intros (q & Hq & ?); congruence).
    destruct (IH' seen) as (out & E & H1 & H2 & H3). exists out. split; [done|]. split; [|split; [|done]].
    - apply Hskip; [|done]. by intros.
    - intros b [->|Hb]%elem_of_cons Hadm Htb; [done|by apply H2]. }
  destruct (IH' (a :: seen)) as (out & E & H1 & H2 & H3). rewrite E. exists (item_of a :: out). split; [done|].
  assert (Htc : forall c, taken (a :: seen) c = false -> same_item c a = false /\ taken seen c = false).
  { intros c. unfold taken. simpl. by rewrite orb_false_iff. }
  split; [|split].
  - intros i [->|Hi]%elem_of_cons.
    + exists a. split; [constructor|]. split; [done|]. split; [by exists p|]. split; [done|].
      intros b [->|Hb]%elem_of_cons _ Hsame; [lia|by apply Hnew].
    + destruct (H1 i Hi) as (c & Hc & Ei & Hadm & Ht & Hmax). apply Htc in Ht as [Hca Ht].
      exists c. split; [by constructor|]. do 3 (split; [done|]). intros b [->|Hb]%elem_of_cons Hb' Hsame; [congruence|by apply Hmax].
  - intros b [->|Hb]%elem_of_cons Hadm Htb; [exists (item_of a); split; [constructor|done]|].
    destruct (same_item b a) eqn:Eba.
    + exists (item_of a). split; [constructor|]. apply same_item_spec in Eba as [? ?].
      unfold item_key, assigned_key, item_of. simpl. congruence.
    + destruct (H2 b Hb Hadm) as (i & Hi & Ek); [unfold taken; simpl; by rewrite Eba|].
      exists i. split; [by constructor|done].
  - simpl. apply NoDup_cons. split; [|done]. intros (i & Ek & Hi)%list_elem_of_fmap.
    destruct (H1 i Hi) as (c & _ & -> & _ & Ht & _). apply Htc in Ht as [Hca _].
    assert (same_item c a = true); [|congruence]. apply same_item_spec. unfold item_key, item_of in Ek. simpl in Ek. split; congruence.
Qed.

(** An include through one of the device's groups that admits it now. *)
Definition includes (d : fdb) (deviceID : string) (now : time) (a : Assignment) : Prop :=
  a ∈ f_assignments d /\ reaches d deviceID ModeInclude a = true /\ admitted deviceID now a.

Definition excluded (d : fdb) (deviceID : string) (a : Assignment) : Prop :=
  exists x, x ∈ f_assignments d /\ reaches d deviceID ModeExclude x = true /\ same_item x a = true.

Lemma elem_of_candidates deviceID d a :
  a ∈ candidates deviceID d <-> a ∈ f_assignments d /\ reaches d deviceID ModeInclude a = true /\ ~ excluded d deviceID a.
Proof.
  unfold candidates. rewrite elem_of_filterb, andb_true_iff, negb_true_iff, existsb_none. split.
  - intros (Ha & Hr & H). split; [done|]. split; [done|]. intros (x & Hx & Hxr & Hs).
    specialize (H x Hx). rewrite Hxr, Hs in H. done.
  - intros (Ha & Hr & H). split; [done|]. split; [done|]. intros x Hx.
    destruct (reaches d deviceID ModeExclude x) eqn:E1, (same_item x a) eqn:E2; try done. exfalso. apply H. by exists x.
Qed.

(** C38. The query and the loop give a device each item that some group includes
    for it and none excludes - exactly those, each once, carrying the options
    of an admitting include than which none is newer. An exclusion wins
    whatever group it comes from, and no stored rollout makes the loop panic. *)
Theorem effective_items_are_right d deviceID now :
  (forall a, a ∈ f_assignments d -> stored_rollout (as_Rollout a)) ->
  exists items, EffectiveItems uuid_bytes deviceID now d = Some items
    /\ NoDup (map item_key items)
    /\ (forall kind id,
          (exists i, i ∈ items /\ item_key i = (kind, id))
          <-> exists a, includes d deviceID now a /\ ~ excluded d deviceID a /\ assigned_key a = (kind, id))
    /\ (forall i, i ∈ items -> exists a, includes d deviceID now a /\ i = item_of a
          /\ forall b, includes d deviceID now b -> ~ excluded d deviceID b -> assigned_key b = assigned_key a ->
               as_CreatedAt b <= as_CreatedAt a).
Proof.
  intros Hst. unfold EffectiveItems.
  assert (Hin : forall a, a ∈ order_by item_order (candidates deviceID d) <-> a ∈ candidates deviceID d)
    by (intros a; apply elem_of_order_by).
  destruct (effective_rows_spec deviceID now (order_by item_order (candidates deviceID d)) []) as (out & E & H1 & H2 & H3).
  - apply Sorted_StronglySorted; [intros a b c; apply item_order_trans|apply order_by_sorted, item_order_total].
  - intros a Ha. rewrite Hin, elem_of_candidates in Ha. destruct Ha as [Ha _]. by apply Hst.
  - exists out. split; [done|]. split; [done|]. split.
    + intros kind id. split.
      * intros (i & Hi & Hk). destruct (H1 i Hi) as (a & Ha & -> & Hadm & _). exists a.
        rewrite Hin, elem_of_candidates in Ha. destruct Ha as (? & ? & ?). done.
      * intros (a & (Ha & Hr & Hadm) & Hex & Hk). rewrite <- Hk. apply H2; [|done|done].
        by rewrite Hin, elem_of_candidates.
    + intros i Hi. destruct (H1 i Hi) as (a & Ha & Ei & Hadm & _ & Hmax). exists a.
      rewrite Hin, elem_of_candidates in Ha. destruct Ha as (? & ? & Hex). split; [done|]. split; [done|].
      intros b (Hb & Hbr & Hbadm) Hbex Hbk. apply Hmax; [by rewrite Hin, elem_of_candidates|done|].
      apply same_item_spec. unfold assigned_key in Hbk. split; congruence.
Qed.
End Contract.

(** ** An office *)

Module Office.
Definition include_ (id item group : string) (at_ : time) (options : json) (r : Rollout) : Assignment :=
  mkAssignment id "script" item group ModeInclude at_ "ops" (Some options) r.
Definition whole : Rollout := mkRollout 100 0 0.

(** [s1] reaches everybody, and the lab with newer options; [s2] is kept off the lab. *)
Definition office : fdb :=
  mkFdb (<["lab" := mkGroup GroupStatic ["d1"]]> {[BuiltinGroupID := mkGroup "builtin" ["d1"; "d2"]]})%string
    ∅ ∅
    [include_ "a1" "s1" BuiltinGroupID 10 (JStr "old") whole; include_ "a2" "s1" "lab" 20 (JStr "new") whole;
     include_ "a3" "s2" BuiltinGroupID 10 (JStr "any") whole;
     mkAssignment "a4" "script" "s2" "lab" ModeExclude 5 "ops" None zero_rollout]
    [] [] None [] [] 0 0.
End Office.

Example office_items :
  EffectiveItems (fun _ => []) "d1" 100 Office.office = Some [mkEffectiveItem "script" "s1" (Some (JStr "new"))]
  /\ EffectiveItems (fun _ => []) "d2" 100 Office.office
     = Some [mkEffectiveItem "script" "s1" (Some (JStr "old")); mkEffectiveItem "script" "s2" (Some (JStr "any"))].
Proof. split; vm_compute; done. Qed.

Lemma effective_items_are_right_witness :
  (forall a, a ∈ f_assignments Office.office -> stored_rollout (as_Rollout a))
  /\ exists items, EffectiveItems (fun _ => []) "d1" 100 Office.office = Some items /\ NoDup (map item_key items).
Proof.
  assert (H : forall a, a ∈ f_assignments Office.office -> stored_rollout (as_Rollout a)).
  { intros a Ha. repeat (apply elem_of_cons in Ha as [->|Ha]; [by split; simpl; lia|]). by apply elem_of_nil in Ha. }
  split; [done|]. destruct (effective_items_are_right (fun _ => []) Office.office "d1" 100 H) as (items & E & Hn & _).
  by exists items.
Defined.
