(* ===== verification/Rollout.v ===== *)
(** * Automatic rollouts

    [internal/server/releasefeed/rollout.go]: an imported agent build goes to
    the pilot group, waits out its delay with healthy devices and, where they
    are required, approvals, and is then promoted to All devices. Every
    statement outside a transaction commits on its own, as it does there. *)
From S2P Require Export FleetStore Version.
Open Scope Z_scope.
Open Scope go_scope.

Definition RolloutActor : string := "system:agent-rollout".
Definition approvalTTL : duration := 24 * Hour.
Definition uuid_Nil : string := "00000000-0000-0000-0000-000000000000".

(** [NilPilotStartedAt] is the run-time panic of a rollout with a pilot
    assignment and no start of it. *)
Inductive rollout_error := ErrNotHalted | NilPilotStartedAt | StoreError (e : store_error).

Record RolloutConfig := mkConfig { ApprovalsRequired : bool; ApprovalThreshold : Z }.

(** What an include came to: an assignment, or an approval to wait for. *)
Inductive included := Assigned (id : string) | Held (id : string).

Definition eqID (a b : option string) : bool :=
  match a, b with
  | Some a, Some b => String.eqb a b
  | None, None => true
  | _, _ => false
  end.

Definition rolloutUnchanged (a b : AgentRollout) : bool :=
  String.eqb (ro_State a) (ro_State b) && String.eqb (ro_Detail a) (ro_Detail b)
  && eqID (ro_PilotAssignmentID a) (ro_PilotAssignmentID b)
  && eqID (ro_PilotApprovalID a) (ro_PilotApprovalID b) && eqID (ro_FleetApprovalID a) (ro_FleetApprovalID b)
  && eqID (ro_FleetAssignmentID a) (ro_FleetAssignmentID b)
  && eqID (ro_ExcludeAssignmentID a) (ro_ExcludeAssignmentID b).

Definition approvalOutcome (status : string) : string :=
  if String.eqb status ApprovalRejected then "rejected"
  else if String.eqb status ApprovalExpired then "not approved before it lapsed"
  else if String.eqb status ApprovalFailed then "approved, but could not be carried out"
  else status.

Definition st {A} (m : ftx store_error A) : ftx rollout_error A := tmap_err StoreError m.

Definition json_id (id : string) : json := JStr id.

Definition rollout_audit (actor action id : string) (details : list (string * json)) : AuditEntry :=
  mkAudit actor action "agent_rollout" id details.

(** [json.Marshal] of the details a save adds to. *)
Definition save_details (details : list (string * json)) (r : AgentRollout) : list (string * json) :=
  details ++ [("version", JStr (ro_Version r)); ("state", JStr (ro_State r))]%string.

Definition removeAssignment (id : option string) : ftx rollout_error unit :=
  match id with
  | None => tret tt
  | Some id =>
      do* DeleteAssignment id;
      InsertAudit (mkAudit RolloutActor "assignment.deleted" "assignment" id [])
  end.

Fixpoint removeAll (ids : list (option string)) : ftx rollout_error unit :=
  match ids with
  | [] => tret tt
  | id :: rest => do* removeAssignment id; removeAll rest
  end.

Section Rollout.
(** The clock's successive readings, the ids made one after another, and
    [time.Format(time.RFC3339)] in UTC. *)
Context (clock : nat -> time) (new_id : nat -> string) (rfc3339 : time -> string).
Context (r : RolloutConfig).

Definition now_ {E} : ftx E time :=
  fun d => (Ok (clock (f_readings d)), set_f_readings (S (f_readings d)) d).

Definition NewV7 {E} : ftx E string :=
  fun d => (Ok (new_id (f_ids d)), set_f_ids (S (f_ids d)) d).

Definition save (ro : AgentRollout) (actor action : string) (details : list (string * json)) : ftx rollout_error unit :=
  let* now := now_ in
  let ro := set_UpdatedAt now ro in
  InTx (do* st (UpdateAgentRollout ro);
        InsertAudit (rollout_audit actor action (ro_ID ro) (save_details details ro))).

Definition wait (ro : AgentRollout) (detail : string) : ftx rollout_error AgentRollout :=
  if String.eqb (ro_Detail ro) detail then tret ro
  else let* now := now_ in
       let ro := set_UpdatedAt now (set_Detail detail ro) in
       do* st (UpdateAgentRollout ro);
       tret ro.

Definition halt (ro : AgentRollout) (why : string) : ftx rollout_error AgentRollout :=
  let* ro :=
    match ro_PilotAssignmentID ro, ro_ExcludeAssignmentID ro with
    | None, Some ex => do* InTx (removeAssignment (Some ex)); tret (set_ExcludeAssignmentID None ro)
    | _, _ => tret ro
    end in
  let ro := set_Detail why (set_State RolloutHalted ro) in
  do* save ro RolloutActor "agent_rollout.halted" [("reason", JStr why)]%string;
  tret ro.

Definition assignment_audit (id : string) (a : Assignment) : AuditEntry :=
  mkAudit RolloutActor "assignment.created" "assignment" id
    [("item_kind", JStr (as_ItemKind a)); ("item_id", JStr (as_ItemID a));
     ("group_id", JStr (as_GroupID a)); ("mode", JStr (as_Mode a))]%string.

Definition saveAssignment (a : Assignment) : ftx rollout_error string :=
  InTx (let* id := st (CreateAssignment a) in
        do* InsertAudit (assignment_audit id a);
        tret id).

Definition assignExclude (buildID group : string) : ftx rollout_error string :=
  let* id := NewV7 in
  let* now := now_ in
  saveAssignment (mkAssignment id ItemKindAgent buildID group ModeExclude now RolloutActor None zero_rollout).

Definition needsApproval (group : string) : ftx rollout_error bool :=
  if negb (ApprovalsRequired r) then tret false
  else let* g := st (GetGroup group) in
       if negb (String.eqb (g_Kind g) GroupStatic) then tret true
       else let* n := st (GroupMemberCount group) in tret (ApprovalThreshold r <? n).

(** The request an administrator's approval replays. *)
Definition include_request (a : Assignment) (opts : json) : json :=
  JObj [("item_kind", JStr (as_ItemKind a)); ("item_id", JStr (as_ItemID a)); ("group_id", JStr (as_GroupID a));
        ("mode", JStr (as_Mode a)); ("options", opts)]%string.

Definition include (ro : AgentRollout) (group groupName : string) : ftx rollout_error included :=
  let opts := MarshalAgent DefaultAgentOptions in
  let* now := now_ in
  let* aid := NewV7 in
  let a := mkAssignment aid ItemKindAgent (ro_AgentVersionID ro) group ModeInclude now RolloutActor (Some opts) zero_rollout in
  let* held := needsApproval group in
  if held then
    let* apid := NewV7 in
    let summary := ("automatic rollout: assign agent " ++ ro_Version ro ++ " to " ++ groupName)%string in
    let ap := mkApproval apid ApprovalAssignment (include_request a opts) summary RolloutActor uuid_Nil
                now (Prelude.Add now approvalTTL) ApprovalPending EmptyString None EmptyString None in
    do* InTx (do* st (CreateApproval ap);
              InsertAudit (mkAudit RolloutActor "approval.requested" "approval" apid
                [("kind", JStr (ap_Kind ap)); ("summary", JStr summary)]%string));
    tret (Held apid)
  else
    let* id := saveAssignment a in
    tret (Assigned id).

(** The last of the promoted rollouts, oldest first. *)
Definition fleetBuild : ftx rollout_error (option AgentRollout) :=
  let* promoted := st (ListRolloutsInState [RolloutPromoted]) in
  tret (last promoted).

(** What promotion does to the builds it replaces. *)
Fixpoint replace_older (ro : AgentRollout) (now : time) (older : list AgentRollout) : ftx rollout_error unit :=
  match older with
  | [] => tret tt
  | old :: rest =>
      if String.eqb (ro_ID old) (ro_ID ro) then replace_older ro now rest
      else
        do* removeAll [ro_FleetAssignmentID old; ro_PilotAssignmentID old; ro_ExcludeAssignmentID old];
        let old := set_FleetAssignmentID None (set_PilotAssignmentID None (set_ExcludeAssignmentID None old)) in
        let old := set_State RolloutSuperseded (set_Detail ("replaced by " ++ ro_Version ro)%string (set_UpdatedAt now old)) in
        do* st (UpdateAgentRollout old);
        replace_older ro now rest
  end.

Definition promote (ro : AgentRollout) (fleetAssignment : string) : ftx rollout_error AgentRollout :=
  let* now := now_ in
  let ro := set_State RolloutPromoted (set_FleetAssignmentID (Some fleetAssignment)
              (set_PromotedAt (Some now) (set_Detail EmptyString ro))) in
  let* older := st (ListRolloutsInState [RolloutPromoted]) in
  do* InTx (do* removeAll [ro_PilotAssignmentID ro; ro_ExcludeAssignmentID ro];
            replace_older ro now older);
  let ro := set_PilotAssignmentID None (set_ExcludeAssignmentID None ro) in
  do* save ro RolloutActor "agent_rollout.promoted" [];
  tret ro.

(** Refuse what an overtaken rollout was waiting for; one already decided, or
    gone, is left. *)
Definition refuse_approval (by_ : string) (now : time) (id : option string) : ftx rollout_error unit :=
  match id with
  | None => tret tt
  | Some id =>
      let* x := tattempt (DecideApproval id ApprovalRejected RolloutActor ("superseded by agent " ++ by_)%string now) in
      match x with
      | Ok _ | Err ErrNotPending | Err (ErrStore ErrNotFound) => tret tt
      | Err (ErrStore e) => tfail (StoreError e)
      end
  end.

Definition supersede (ro : AgentRollout) (by_ : string) : ftx rollout_error unit :=
  let* now := now_ in
  InTx (do* removeAll [ro_PilotAssignmentID ro; ro_ExcludeAssignmentID ro];
        do* refuse_approval by_ now (ro_PilotApprovalID ro);
        do* refuse_approval by_ now (ro_FleetApprovalID ro);
        let ro := set_PilotAssignmentID None (set_ExcludeAssignmentID None
                    (set_PilotApprovalID None (set_FleetApprovalID None ro))) in
        let ro := set_State RolloutSuperseded (set_Detail ("replaced by " ++ by_)%string (set_UpdatedAt now ro)) in
        do* st (UpdateAgentRollout ro);
        InsertAudit (rollout_audit RolloutActor "agent_rollout.superseded" (ro_ID ro)
          [("version", JStr (ro_Version ro)); ("by", JStr by_)]%string)).
(** The status of the pilot's devices decides whether a step may go on. *)
Definition failed_pilot (health : PilotHealth) : string :=
  (Itoa (Failed health) ++ " pilot device(s) failed to run it: " ++ Join "; " (Failures health))%string.

Definition piloting (ro : AgentRollout) (assignment : string) : ftx rollout_error AgentRollout :=
  let* now := now_ in
  let ro := set_Detail EmptyString (set_PilotAssignmentID (Some assignment) (set_PilotStartedAt (Some now) ro)) in
  do* save ro RolloutActor "agent_rollout.piloting" [];
  tret ro.

(** The pilot has no assignment yet, but asked for one. *)
Definition pilot_approval (ro : AgentRollout) (pilot approval : string) : ftx rollout_error AgentRollout :=
  let* a := st (GetApproval approval) in
  if String.eqb (ap_Status a) ApprovalPending then
    let* now := now_ in
    if After (ap_ExpiresAt a) now then wait ro "waiting for a second administrator to approve the pilot"
    else halt ro "nobody approved the pilot assignment before it lapsed"
  else if String.eqb (ap_Status a) ApprovalApproved then
    let* as_ := tattempt (GetAssignmentFor ItemKindAgent (ro_AgentVersionID ro) pilot ModeInclude) in
    match as_ with
    | Err ErrNotFound => halt ro "the pilot assignment was approved but is not there"
    | Err e => tfail (StoreError e)
    | Ok as_ => piloting ro (as_ID as_)
    end
  else halt ro ("the pilot assignment was " ++ approvalOutcome (ap_Status a))%string.

(** Keep the pilot group off the build the rest of the fleet is on. *)
Definition exclude_pilot (ro : AgentRollout) (pilot : string) : ftx rollout_error AgentRollout :=
  match ro_ExcludeAssignmentID ro with
  | Some _ => tret ro
  | None =>
      let* current := fleetBuild in
      match current with
      | Some current =>
          if negb (String.eqb (ro_AgentVersionID current) (ro_AgentVersionID ro)) then
            let* id := assignExclude (ro_AgentVersionID current) pilot in
            tret (set_ExcludeAssignmentID (Some id) ro)
          else tret ro
      | None => tret ro
      end
  end.

Definition begin_pilot (ro : AgentRollout) (pilot : string) : ftx rollout_error AgentRollout :=
  let* ro := exclude_pilot ro pilot in
  let* got := include ro pilot "the pilot group" in
  match got with
  | Held approval =>
      let ro := set_PilotApprovalID (Some approval)
                  (set_Detail "waiting for a second administrator to approve the pilot" ro) in
      do* save ro RolloutActor "agent_rollout.approval_requested" [("step", JStr "pilot")]%string;
      tret ro
  | Assigned assignment => piloting ro assignment
  end.

Definition promoteAt (ro : AgentRollout) (started : time) : time :=
  Prelude.Add started (dmul (ro_DelayHours ro) Hour).

Definition offer_to_all (ro : AgentRollout) : ftx rollout_error AgentRollout :=
  let* got := include ro BuiltinGroupID "All devices" in
  match got with
  | Held approval =>
      let ro := set_State RolloutPromoting (set_FleetApprovalID (Some approval)
                  (set_Detail "the pilot passed; waiting for a second administrator to approve All devices" ro)) in
      do* save ro RolloutActor "agent_rollout.approval_requested" [("step", JStr "fleet")]%string;
      tret ro
  | Assigned assignment => promote ro assignment
  end.

Definition watch_pilot (ro : AgentRollout) (pilot : string) : ftx rollout_error AgentRollout :=
  let* health := st (AgentBuildHealth pilot (ro_AgentVersionID ro)) in
  if 0 <? Failed health then halt ro (failed_pilot health)
  else match ro_PilotStartedAt ro with
  | None => tfail NilPilotStartedAt
  | Some started =>
      let at_ := promoteAt ro started in
      let* now := now_ in
      if Before now at_ then
        wait ro ("piloting until " ++ rfc3339 at_ ++ "; " ++ Itoa (Succeeded health) ++ " pilot device(s) run it so far")%string
      else if Succeeded health =? 0 then
        wait ro "the pilot period is over, but no pilot device runs it yet"
      else offer_to_all ro
  end.

Definition stepPilot (ro : AgentRollout) : ftx rollout_error AgentRollout :=
  match ro_PilotGroupID ro with
  | None => halt ro "the pilot group was deleted"
  | Some pilot =>
      match ro_PilotAssignmentID ro, ro_PilotApprovalID ro with
      | None, Some approval => pilot_approval ro pilot approval
      | None, None => begin_pilot ro pilot
      | Some _, _ => watch_pilot ro pilot
      end
  end.

(** How the pilot's devices do while All devices waits: no group, no failures. *)
Definition pilot_health (ro : AgentRollout) : ftx rollout_error PilotHealth :=
  match ro_PilotGroupID ro with
  | Some g => st (AgentBuildHealth g (ro_AgentVersionID ro))
  | None => tret (mkHealth 0 0 [])
  end.

Definition stepPromoting (ro : AgentRollout) : ftx rollout_error AgentRollout :=
  let* health := pilot_health ro in
  if 0 <? Failed health then halt ro (failed_pilot health)
  else match ro_FleetApprovalID ro with
  | None => halt ro "promotion lost track of its approval"
  | Some approval =>
      let* a := st (GetApproval approval) in
      if String.eqb (ap_Status a) ApprovalPending then
        let* now := now_ in
        if After (ap_ExpiresAt a) now
        then wait ro "the pilot passed; waiting for a second administrator to approve All devices"
        else halt ro "nobody approved All devices before the request lapsed"
      else if String.eqb (ap_Status a) ApprovalApproved then
        let* as_ := tattempt (GetAssignmentFor ItemKindAgent (ro_AgentVersionID ro) BuiltinGroupID ModeInclude) in
        match as_ with
        | Err ErrNotFound => halt ro "All devices was approved but the assignment is not there"
        | Err e => tfail (StoreError e)
        | Ok as_ => promote ro (as_ID as_)
        end
      else halt ro ("All devices was " ++ approvalOutcome (ap_Status a))%string
  end.

Definition step (ro : AgentRollout) : ftx rollout_error bool :=
  if String.eqb (ro_State ro) RolloutPilot then
    let* after := stepPilot ro in tret (negb (rolloutUnchanged ro after))
  else if String.eqb (ro_State ro) RolloutPromoting then
    let* after := stepPromoting ro in tret (negb (rolloutUnchanged ro after))
  else tret false.

(** Whether a promoted build is as new as [v], or newer. *)
Definition overtaken (v : AgentVersion) (promoted : list AgentRollout) : bool :=
  existsb (fun old => negb (Newer (av_Version v) (ro_Version old))) promoted.

Definition start_audit (v : AgentVersion) (p : AgentRolloutPolicy) (id pilot : string) : AuditEntry :=
  rollout_audit RolloutActor "agent_rollout.started" id
    [("version", JStr (av_Version v)); ("pilot_group_id", JStr pilot); ("delay_hours", jint (po_DelayHours p))]%string.

(** Anything still in progress is overtaken by the new build. *)
Fixpoint supersede_all (id by_ : string) (active : list AgentRollout) : ftx rollout_error unit :=
  match active with
  | [] => tret tt
  | old :: rest =>
      do* (if negb (String.eqb (ro_ID old) id) then supersede old by_ else tret tt);
      supersede_all id by_ rest
  end.

Definition Start (v : AgentVersion) : ftx rollout_error unit :=
  let* p := st GetAgentRolloutPolicy in
  match po_PilotGroupID p with
  | None => tret tt
  | Some pilot =>
      if negb (po_Enabled p) then tret tt
      else
        let* promoted := st (ListRolloutsInState [RolloutPromoted]) in
        if overtaken v promoted then tret tt
        else
          let* now := now_ in
          let* id := NewV7 in
          let ro := mkAgentRollout id (av_ID v) RolloutPilot (Some pilot) (po_DelayHours p)
                      None None None None None None None EmptyString now 0 EmptyString in
          let* created := InTx (let* created := st (CreateAgentRollout ro) in
                                if created then do* InsertAudit (start_audit v p id pilot); tret true
                                else tret false) in
          if negb created then tret tt
          else
            let* active := st (ListRolloutsInState [RolloutPilot; RolloutPromoting]) in
            do* supersede_all id (av_Version v) active;
            let* started := st (GetAgentRollout id) in
            do* step started;
            tret tt
  end.

(** How many moved, and what went wrong with the others. *)
Fixpoint advance_all (active : list AgentRollout) : ftx rollout_error (Z * list (string * rollout_error)) :=
  match active with
  | [] => tret (0, [])
  | ro :: rest =>
      let* x := tattempt (step ro) in
      let* (moved, errs) := advance_all rest in
      tret (match x with
            | Ok changed => (if changed then moved + 1 else moved, errs)
            | Err e => (moved, (ro_Version ro, e) :: errs)
            end)
  end.

Definition Advance : ftx rollout_error (Z * list (string * rollout_error)) :=
  let* active := st (ListRolloutsInState [RolloutPilot; RolloutPromoting]) in
  advance_all active.

Definition Resume (id actor : string) : ftx rollout_error unit :=
  let* ro := st (GetAgentRollout id) in
  if negb (String.eqb (ro_State ro) RolloutHalted) then tfail ErrNotHalted
  else
    let ro := set_State RolloutPilot (set_PilotApprovalID None (set_FleetApprovalID None (set_Detail EmptyString ro))) in
    do* save ro actor "agent_rollout.resumed" [];
    do* step ro;
    tret tt.
End Rollout.
