(* ===== verification/RolloutSpec.v ===== *)
(** * What a rollout promises: its states

    The phases of a rollout as a machine of their own, with the guards that
    matter - a pilot that passed, an approval that was given - and the proof
    that [Start], [Advance] and [Resume] only ever take its steps. *)
From S2P Require Export Rollout.
Open Scope Z_scope.
Open Scope go_scope.

(** ** The machine *)

Definition phases (d : fdb) : gmap string string :=
  list_to_map (map (fun r => (ro_ID r, ro_State r)) (f_rollouts d)).

(** What the world says of each rollout when an operation begins. *)
Record guards := mkGuards {
  may_begin : Prop;               (** the operation is [Start] *)
  may_resume : string -> Prop;    (** the operation is [Resume] of this one *)
  passed : string -> Prop;        (** the pilot ran for the delay, on healthy devices *)
  unheld : Prop;                  (** All devices needs no approval *)
  approved : string -> Prop;      (** the fleet's approval was given and carried out *)
  healthy : string -> Prop }.     (** no pilot device failed *)

(** Promotion makes the promoted one superseded. *)
Definition promote_in (id : string) (m : gmap string string) : gmap string string :=
  <[id := RolloutPromoted]> ((fun s => if String.eqb s RolloutPromoted then RolloutSuperseded else s) <$> m).

Definition in_progress (s : string) : Prop := s = RolloutPilot \/ s = RolloutPromoting.

Inductive arrow (g : guards) (m : gmap string string) : gmap string string -> Prop :=
| arrow_begin id : may_begin g -> m !! id = None -> arrow g m (<[id := RolloutPilot]> m)
| arrow_hold id : m !! id = Some RolloutPilot -> passed g id -> arrow g m (<[id := RolloutPromoting]> m)
| arrow_pass id : m !! id = Some RolloutPilot -> passed g id -> unheld g -> arrow g m (promote_in id m)
| arrow_release id : m !! id = Some RolloutPromoting -> approved g id -> healthy g id -> arrow g m (promote_in id m)
| arrow_halt id s : m !! id = Some s -> in_progress s -> arrow g m (<[id := RolloutHalted]> m)
| arrow_resume id : may_resume g id -> m !! id = Some RolloutHalted -> arrow g m (<[id := RolloutPilot]> m)
| arrow_overtake id s : may_begin g -> m !! id = Some s -> in_progress s -> arrow g m (<[id := RolloutSuperseded]> m).

Abbreviation arrows g := (rtc (arrow g)).

(** *** Consequences of the machine *)

Definition one_promoted (m : gmap string string) : Prop :=
  forall i j, m !! i = Some RolloutPromoted -> m !! j = Some RolloutPromoted -> i = j.

Lemma promote_in_promoted id m i : promote_in id m !! i = Some RolloutPromoted <-> i = id.
Proof.
  unfold promote_in. rewrite lookup_insert_Some, lookup_fmap_Some. split; [|naive_solver].
  intros [[<- _]|[_ (s & Hs & _)]]; [done|]. by destruct (String.eqb_spec s RolloutPromoted).
Qed.

Lemma insert_one_promoted id s m : one_promoted m -> s <> RolloutPromoted -> one_promoted (<[id := s]> m).
Proof. intros Hm Hs i j Hi Hj. rewrite lookup_insert_Some in Hi, Hj. apply Hm; naive_solver. Qed.

Lemma arrow_one_promoted g m m' : arrow g m m' -> one_promoted m -> one_promoted m'.
Proof.
  intros H Hm. destruct H; try (by apply insert_one_promoted);
    intros i j Hi Hj; rewrite promote_in_promoted in Hi, Hj; congruence.
Qed.

Lemma arrows_one_promoted g m m' : arrows g m m' -> one_promoted m -> one_promoted m'.
Proof. induction 1; eauto using arrow_one_promoted. Qed.

(** Which states a rollout in [s] may be in after one step. *)
Definition next_states (resumed : Prop) (s s' : string) : Prop :=
  s' = s
  \/ (s = RolloutPilot /\ s' ∈ [RolloutPromoting; RolloutPromoted; RolloutHalted; RolloutSuperseded])
  \/ (s = RolloutPromoting /\ s' ∈ [RolloutPromoted; RolloutHalted; RolloutSuperseded])
  \/ (s = RolloutPromoted /\ s' = RolloutSuperseded)
  \/ (s = RolloutHalted /\ s' = RolloutPilot /\ resumed).

Lemma arrow_next g m m' i s : arrow g m m' -> m !! i = Some s ->
  exists s', m' !! i = Some s' /\ next_states (may_resume g i) s s'.
Proof.
  intros H Hi. unfold next_states, in_progress in *.
  assert (Hother : forall j (x : string), i <> j -> <[j := x]> m !! i = Some s)
    by (intros j x N; by rewrite lookup_insert_ne).
  assert (Hprom : forall j, i <> j -> exists s', promote_in j m !! i = Some s' /\
    (s' = s \/ s = RolloutPromoted /\ s' = RolloutSuperseded)).
  { intros j N. unfold promote_in. rewrite lookup_insert_ne, lookup_fmap, Hi by done. simpl.
    destruct (String.eqb_spec s RolloutPromoted); eauto. }
  destruct H as [j|j|j|j|j t|j|j t]; destruct (decide (i = j)) as [->|N];
    try (unfold promote_in; rewrite lookup_insert_eq; eexists; split; [done|];
         unfold in_progress in *; simplify_eq; set_unfold; naive_solver); eauto 10.
  all: destruct (Hprom j N) as (s' & ? & ?); exists s'; split; [done|]; tauto.
Qed.

(** Superseded is the end, and nothing leaves [halted] but a resumption. *)
Lemma arrows_superseded g m m' i : arrows g m m' -> m !! i = Some RolloutSuperseded -> m' !! i = Some RolloutSuperseded.
Proof.
  induction 1 as [|m m1 m' H H1 IH]; [done|]. intros Hi. apply IH.
  destruct (arrow_next _ _ _ _ _ H Hi) as (s' & -> & Hn). unfold next_states in Hn. naive_solver.
Qed.

(** ** Frames: what an operation leaves alone *)

Definition approval_at (d : fdb) (id : string) : option Approval :=
  find (fun a => String.eqb (ap_ID a) id) (f_approvals d).

(** Everything the guards look at, apart from the rollouts themselves. *)
Record world (d d' : fdb) : Prop := {
  w_groups : f_groups d' = f_groups d;
  w_devices : f_devices d' = f_devices d;
  w_versions : f_versions d' = f_versions d;
  w_statuses : f_statuses d' = f_statuses d;
  w_readings : (f_readings d <= f_readings d')%nat;
  w_approved : forall id a, approval_at d' id = Some a -> ap_Status a = ApprovalApproved -> approval_at d id = Some a }.

Definition quiet (d d' : fdb) : Prop := world d d' /\ f_rollouts d' = f_rollouts d.

#[export] Instance world_preorder : PreOrder world.
Proof.
  split; [by split|]. intros x y z [] []. split; try congruence; [lia|eauto].
Qed.

#[export] Instance quiet_preorder : PreOrder quiet.
Proof.
  split; [by split|]. intros x y z [H1 H2] [H3 H4]. split; [by etrans|congruence].
Qed.

Lemma quiet_same d d' :
  f_groups d' = f_groups d -> f_devices d' = f_devices d -> f_versions d' = f_versions d ->
  f_statuses d' = f_statuses d -> f_approvals d' = f_approvals d -> (f_readings d <= f_readings d')%nat ->
  f_rollouts d' = f_rollouts d -> quiet d d'.
Proof. intros. split; [|done]. split; try done. unfold approval_at. intros id a Ha _. congruence. Qed.

Abbreviation quietly := (tkeeps quiet).

Lemma fget_quiet {E A} (f : fdb -> A) : quietly (fget f : ftx E A).
Proof. intros d. simpl. reflexivity. Qed.
Lemma found_quiet {E A} (e : E) (o : option A) : quietly (found e o : ftx E A).
Proof. intros d. by destruct o. Qed.
Lemma now_quiet {E} clock : quietly (now_ clock : ftx E time).
Proof. intros d. apply quiet_same; simpl; auto. Qed.
Lemma NewV7_quiet {E} new_id : quietly (NewV7 new_id : ftx E string).
Proof. intros d. apply quiet_same; simpl; auto. Qed.
Lemma InsertAudit_quiet {E} a : quietly (InsertAudit a : ftx E unit).
Proof. intros d. apply quiet_same; simpl; auto. Qed.
Lemma DeleteAssignment_quiet {E} id : quietly (DeleteAssignment id : ftx E unit).
Proof. intros d. apply quiet_same; simpl; auto. Qed.
Lemma CreateAssignment_quiet a : quietly (CreateAssignment a).
Proof.
  intros d. unfold CreateAssignment. destruct (find _ _); [by apply quiet_same|].
  destruct (existsb _ _); [reflexivity|]. destruct (f_groups d !! _); [by apply quiet_same|reflexivity].
Qed.
Lemma tattempt_quiet {E F A} (m : ftx E A) : quietly m -> quietly (tattempt m : ftx F (result E A)).
Proof. intros H d. unfold tattempt. specialize (H d). by destruct (m d). Qed.
Lemma st_quiet {A} (m : ftx store_error A) : quietly m -> quietly (st m).
Proof. apply keeps_map_err. Qed.

Lemma CreateApproval_quiet a : quietly (CreateApproval a).
Proof.
  intros d. unfold CreateApproval. destruct (existsb _ _) eqn:E; simpl; [reflexivity|].
  split; [|done]. split; try done. unfold approval_at. simpl. intros id b Hb Hs.
  induction (f_approvals d) as [|x l IH]; simpl in *.
  - destruct (String.eqb _ _); [|done]. by injection Hb as <-.
  - apply orb_false_iff in E as [_ E]. destruct (String.eqb (ap_ID x) id); [done|]. by apply IH.
Qed.

Lemma DecideApproval_quiet id status by_ reason now :
  status <> ApprovalApproved -> quietly (DecideApproval id status by_ reason now).
Proof.
  intros Hs d. unfold DecideApproval. destruct (find (decidable id now) _) eqn:E; simpl.
  - split; [|done]. split; try done. unfold approval_at. simpl. intros i b Hb Hb'. clear E.
    induction (f_approvals d) as [|x l IH]; simpl in *; [done|].
    destruct (decidable id now x); simpl in *; destruct (String.eqb (ap_ID x) i); auto.
    by injection Hb as <-.
  - assert (quietly (GetApproval id)) as H.
    { apply keeps_bind; [apply _|apply fget_quiet|intros; apply found_quiet]. }
    specialize (H d). by destruct (GetApproval id d) as [[|] ?].
Qed.

Create HintDb quiet.
#[export] Hint Resolve fget_quiet found_quiet now_quiet NewV7_quiet InsertAudit_quiet DeleteAssignment_quiet
  CreateAssignment_quiet tattempt_quiet st_quiet CreateApproval_quiet keeps_ret keeps_fail keeps_map_err keeps_InTx : quiet.
#[export] Hint Extern 1 (tkeeps _ (tbind _ _)) => apply keeps_bind; [apply _ | | intros ?] : quiet.
#[export] Hint Extern 1 (tkeeps _ (if ?b then _ else _)) => destruct b : quiet.
#[export] Hint Extern 1 (PreOrder _) => apply _ : quiet.
#[export] Hint Extern 2 (tkeeps _ (match ?x with _ => _ end)) => destruct x : quiet.

Ltac quiets := intros; eauto 20 with quiet.

Lemma removeAssignment_quiet id : quietly (removeAssignment id).
Proof. unfold removeAssignment. quiets. Qed.
#[export] Hint Resolve removeAssignment_quiet : quiet.
Lemma removeAll_quiet l : quietly (removeAll l).
Proof. induction l; simpl; quiets. Qed.
Lemma refuse_approval_quiet by_ now id : quietly (refuse_approval by_ now id).
Proof.
  unfold refuse_approval. destruct id as [id|]; [|quiets].
  apply keeps_bind; [apply _|apply tattempt_quiet, DecideApproval_quiet; done|].
  intros [|[|[]]]; quiets.
Qed.
Lemma saveAssignment_quiet a : quietly (saveAssignment a).
Proof. unfold saveAssignment. quiets. Qed.
#[export] Hint Resolve removeAll_quiet refuse_approval_quiet saveAssignment_quiet : quiet.
Lemma assignExclude_quiet clock new_id b g : quietly (assignExclude clock new_id b g).
Proof. unfold assignExclude. quiets. Qed.
Lemma GetGroup_quiet g : quietly (GetGroup g).
Proof. unfold GetGroup. quiets. Qed.
Lemma needsApproval_quiet r g : quietly (needsApproval r g).
Proof.
  pose proof (GetGroup_quiet g). unfold needsApproval, GroupMemberCount. quiets.
Qed.
#[export] Hint Resolve assignExclude_quiet needsApproval_quiet : quiet.
Lemma include_quiet clock new_id r ro g n : quietly (include clock new_id r ro g n).
Proof. unfold include. quiets. Qed.
Lemma fleetBuild_quiet : quietly fleetBuild.
Proof. unfold fleetBuild, ListRolloutsInState. quiets. Qed.
#[export] Hint Resolve include_quiet fleetBuild_quiet : quiet.
Lemma exclude_pilot_quiet clock new_id ro p : quietly (exclude_pilot clock new_id ro p).
Proof. unfold exclude_pilot. quiets. Qed.
Lemma AgentBuildHealth_quiet g v : quietly (AgentBuildHealth g v).
Proof. unfold AgentBuildHealth. quiets. Qed.
Lemma GetApproval_quiet id : quietly (GetApproval id).
Proof. unfold GetApproval. quiets. Qed.
Lemma GetAssignmentFor_quiet k i g m : quietly (GetAssignmentFor k i g m).
Proof. unfold GetAssignmentFor. quiets. Qed.
Lemma ListRolloutsInState_quiet l : quietly (ListRolloutsInState l).
Proof. unfold ListRolloutsInState. quiets. Qed.
Lemma pilot_health_quiet ro : quietly (pilot_health ro).
Proof. unfold pilot_health. pose proof AgentBuildHealth_quiet. quiets. Qed.
#[export] Hint Resolve exclude_pilot_quiet AgentBuildHealth_quiet GetApproval_quiet GetAssignmentFor_quiet
  ListRolloutsInState_quiet pilot_health_quiet : quiet.

(** ** Rows *)

Definition row_keys (d : fdb) : list (string * string) := map (fun r => (ro_ID r, ro_AgentVersionID r)) (f_rollouts d).

(** The tables' constraints: ids are unique, builds exist. *)
Definition rows_ok (d : fdb) : Prop :=
  NoDup (row_keys d).*1 /\ Forall (fun k => is_Some (f_versions d !! k.2)) (row_keys d).

(** [ro] is a rollout as it is read now. *)
Definition current (d : fdb) (ro : AgentRollout) : Prop :=
  exists row, row ∈ f_rollouts d /\ join_version d row = Some ro.

Lemma row_keys_ids d : (row_keys d).*1 = map ro_ID (f_rollouts d).
Proof. unfold row_keys. change fmap with (@map (string * string) string). rewrite map_map. done. Qed.

Lemma phases_lookup d row : rows_ok d -> row ∈ f_rollouts d -> phases d !! ro_ID row = Some (ro_State row).
Proof.
  intros [Hn _] Hr. unfold phases. apply elem_of_list_to_map_1.
  - replace (_.*1) with (map ro_ID (f_rollouts d)); [by rewrite <- row_keys_ids|].
    change fmap with (@map (string * string) string). by rewrite map_map.
  - apply list_elem_of_In, in_map_iff. exists row. split; [done|by apply list_elem_of_In].
Qed.

Lemma phases_Some d i s : phases d !! i = Some s -> exists row, row ∈ f_rollouts d /\ ro_ID row = i /\ ro_State row = s.
Proof.
  unfold phases. intros H%elem_of_list_to_map_2. apply list_elem_of_In, in_map_iff in H as (row & [= <- <-] & H).
  exists row. split; [by apply list_elem_of_In|done].
Qed.

Lemma current_row d row ro : join_version d row = Some ro ->
  ro_ID ro = ro_ID row /\ ro_AgentVersionID ro = ro_AgentVersionID row /\ ro_State ro = ro_State row
  /\ exists v, ro = set_Version v row.
Proof. unfold join_version. destruct (f_versions d !! _); [|done]. intros [= <-]. eauto. Qed.

Lemma current_phase d ro : rows_ok d -> current d ro -> phases d !! ro_ID ro = Some (ro_State ro).
Proof.
  intros Hd (row & Hr & Hj). destruct (current_row _ _ _ Hj) as (-> & _ & -> & _). by apply phases_lookup.
Qed.

(** What an operation may rewrite: the rows in [T], and never their keys. *)
Record touches (T : string -> Prop) (d d' : fdb) : Prop := {
  t_world : world d d';
  t_keys : row_keys d' = row_keys d;
  t_rest : forall row, row ∈ f_rollouts d -> ~ T (ro_ID row) -> row ∈ f_rollouts d' }.

#[export] Instance touches_preorder T : PreOrder (touches T).
Proof.
  split; [by split|]. intros x y z [W1 K1 R1] [W2 K2 R2]. split; [by etrans|congruence|auto].
Qed.

Lemma touches_quiet T d d' : quiet d d' -> touches T d d'.
Proof. intros [Hw Hr]. split; [done|unfold row_keys; by rewrite Hr|by rewrite Hr]. Qed.

Lemma touches_mono (T T' : string -> Prop) d d' : (forall i, T i -> T' i) -> touches T d d' -> touches T' d d'.
Proof. intros H [W K R]. split; auto. Qed.

Lemma touches_ok T d d' : touches T d d' -> rows_ok d -> rows_ok d'.
Proof. intros [[] K _] [H1 H2]. unfold rows_ok. rewrite K. by rewrite w_versions0. Qed.

Lemma touches_current T d d' ro : touches T d d' -> current d ro -> ~ T (ro_ID ro) -> current d' ro.
Proof.
  intros [[] _ R] (row & Hr & Hj) HT. exists row. destruct (current_row _ _ _ Hj) as (Hi & _).
  split; [apply R; [done|congruence]|]. unfold join_version in *. by rewrite w_versions0.
Qed.

Lemma quiet_phases d d' : quiet d d' -> phases d' = phases d.
Proof. intros [_ H]. unfold phases. by rewrite H. Qed.

(** *** One update *)

Lemma update_phases r d : phases (UpdateAgentRollout r d).2 = alter (fun _ => ro_State r) (ro_ID r) (phases d).
Proof.
  unfold UpdateAgentRollout, phases. simpl. induction (f_rollouts d) as [|x l IH]; simpl; [by rewrite alter_empty|].
  rewrite IH. destruct (String.eqb_spec (ro_ID x) (ro_ID r)) as [E|N]; simpl.
  - rewrite E. apply map_eq. intros i. destruct (decide (i = ro_ID r)) as [->|].
    + by rewrite lookup_insert_eq, lookup_alter_eq, lookup_insert_eq.
    + by rewrite lookup_insert_ne, !lookup_alter_ne, lookup_insert_ne by done.
  - apply map_eq. intros i. destruct (decide (i = ro_ID r)) as [->|].
    + rewrite lookup_insert_ne by done. by rewrite !lookup_alter_eq, lookup_insert_ne by done.
    + rewrite lookup_alter_ne by done. destruct (decide (i = ro_ID x)) as [->|]; [by rewrite !lookup_insert_eq|].
      by rewrite !lookup_insert_ne, lookup_alter_ne by done.
Qed.

Lemma update_touches r d : touches (eq (ro_ID r)) d (UpdateAgentRollout r d).2.
Proof.
  split; simpl; [split; auto|..].
  - unfold row_keys, UpdateAgentRollout. simpl. apply update_where_map. done.
  - intros row Hr HT. pose proof (update_where_in (fun old => String.eqb (ro_ID old) (ro_ID r)) (write_rollout r) _ _ Hr) as H.
    simpl in H. by rewrite (proj2 (String.eqb_neq (ro_ID row) (ro_ID r))) in H by congruence.
Qed.

Lemma update_current r d s : phases d !! ro_ID r = Some s ->
  phases (UpdateAgentRollout r d).2 = <[ro_ID r := ro_State r]> (phases d).
Proof.
  intros H. rewrite update_phases. apply map_eq. intros i. destruct (decide (i = ro_ID r)) as [->|].
  - by rewrite lookup_alter_eq, H, lookup_insert_eq.
  - by rewrite lookup_alter_ne, lookup_insert_ne by done.
Qed.

(** Touching the rows of [T] leaves the other phases. *)
Lemma touches_phases T d d' i : rows_ok d -> touches T d d' -> ~ T i -> phases d' !! i = phases d !! i.
Proof.
  intros Hd Ht HT. pose proof (touches_ok _ _ _ Ht Hd) as Hd'. destruct Ht as [_ K R].
  destruct (phases d !! i) as [s|] eqn:E.
  - apply phases_Some in E as (row & Hr & <- & <-). apply (phases_lookup _ _ Hd'). auto.
  - destruct (phases d' !! i) as [s|] eqn:E'; [|done]. exfalso.
    apply phases_Some in E' as (row & Hr & <- & <-).
    assert ((ro_ID row, ro_AgentVersionID row) ∈ row_keys d) as H.
    { rewrite <- K. unfold row_keys. apply list_elem_of_fmap. eauto. }
    unfold row_keys in H. apply list_elem_of_fmap in H as (row' & [= He _] & Hr').
    rewrite He, (phases_lookup _ _ Hd Hr') in E. done.
Qed.

(** ** Writing one row *)

(** The operation ends with an update of [id] to state [s]. *)
Definition written (id s : string) (d d' : fdb) : Prop :=
  exists r d1, ro_ID r = id /\ ro_State r = s /\ quiet d d1 /\ quiet (UpdateAgentRollout r d1).2 d'.

(** One rollout was taken along the machine; only it and promoted ones changed. *)
Definition stepped (g : guards) (id : string) (d d' : fdb) : Prop :=
  touches (fun i => i = id \/ phases d !! i = Some RolloutPromoted) d d' /\ arrows g (phases d) (phases d').

Definition at_phase (d : fdb) (id s : string) : Prop := rows_ok d /\ phases d !! id = Some s.

Lemma at_phase_quiet d d' id s : quiet d d' -> at_phase d id s -> at_phase d' id s.
Proof.
  intros Hq [H1 H2]. split; [|by rewrite (quiet_phases _ _ Hq)].
  eapply touches_ok; [|done]. by apply (touches_quiet (fun _ => True)).
Qed.

Lemma stepped_quiet g id d d' : quiet d d' -> stepped g id d d'.
Proof. intros H. split; [by apply touches_quiet|]. by rewrite (quiet_phases _ _ H). Qed.

Lemma stepped_quiet_l g id d d1 d' : quiet d d1 -> stepped g id d1 d' -> stepped g id d d'.
Proof.
  intros Hq [Ht Ha]. rewrite (quiet_phases _ _ Hq) in Ht, Ha. split; [|done].
  etrans; [by apply touches_quiet|done].
Qed.

Lemma stepped_quiet_r g id d d1 d' : quiet d1 d' -> stepped g id d d1 -> stepped g id d d'.
Proof.
  intros Hq [Ht Ha]. rewrite <- (quiet_phases _ _ Hq) in Ha. split; [|done].
  etrans; [done|by apply touches_quiet].
Qed.

Lemma written_touches id s d d' : written id s d d' -> touches (eq id) d d'.
Proof.
  intros (r & d1 & <- & _ & Hq & Hq'). etrans; [by apply touches_quiet|].
  etrans; [apply update_touches|by apply touches_quiet].
Qed.

Lemma written_phases id s s0 d d' : written id s d d' -> phases d !! id = Some s0 ->
  phases d' = <[id := s]> (phases d).
Proof.
  intros (r & d1 & <- & <- & Hq & Hq') H. rewrite (quiet_phases _ _ Hq').
  rewrite <- (quiet_phases _ _ Hq) in *. by eapply update_current.
Qed.

Lemma written_stepped g id s s0 d d' : written id s d d' -> at_phase d id s0 ->
  s = s0 \/ arrow g (phases d) (<[id := s]> (phases d)) -> stepped g id d d'.
Proof.
  intros Hw [Hd Hp] H. split.
  - eapply touches_mono; [|by eapply written_touches]. auto.
  - rewrite (written_phases _ _ _ _ _ Hw Hp). destruct H as [->|H]; [by rewrite insert_id|by apply rtc_once].
Qed.

Section Steps.
Context (clock : nat -> time) (new_id : nat -> string) (rfc3339 : time -> string) (r : RolloutConfig).

Lemma save_written ro actor action details d :
  exists d', save clock ro actor action details d = (Ok tt, d') /\ written (ro_ID ro) (ro_State ro) d d'.
Proof.
  exists (save clock ro actor action details d).2. split; [reflexivity|].
  exists (set_UpdatedAt (clock (f_readings d)) ro), (set_f_readings (S (f_readings d)) d).
  split; [done|]. split; [done|]. split; [by apply quiet_same; simpl; auto|].
  apply quiet_same; simpl; auto.
Qed.

Lemma twp_save ro actor action details A (k : ftx rollout_error A) d Q :
  (forall d', written (ro_ID ro) (ro_State ro) d d' -> twp k d' Q) ->
  twp (tbind (save clock ro actor action details) (fun _ => k)) d Q.
Proof.
  intros H. apply twp_bind. destruct (save_written ro actor action details d) as (d' & E & Hw).
  unfold twp at 1. rewrite E. by apply H.
Qed.

(** A quiet statement does not get in the way of a step. *)
Lemma twp_quiet {E A B} (m : ftx E A) (f : A -> ftx E B) g id d :
  quietly m ->
  (forall a d1, m d = (Ok a, d1) -> quiet d d1 -> twp (f a) d1 (fun _ d' => stepped g id d1 d')) ->
  twp (tbind m f) d (fun _ d' => stepped g id d d').
Proof.
  intros Hm H. apply (twp_keeps_bind quiet); [done| |].
  - intros a d1 Ea Hq. eapply twp_mono; [by apply H|]. intros x d'. simpl. by apply stepped_quiet_l.
  - intros e d' Hq. by apply stepped_quiet.
Qed.

Lemma wait_stepped g ro detail d : at_phase d (ro_ID ro) (ro_State ro) ->
  twp (wait clock ro detail) d (fun _ d' => stepped g (ro_ID ro) d d').
Proof.
  intros Hp. unfold wait. destruct (String.eqb _ _).
  - apply stepped_quiet. reflexivity.
  - apply (written_stepped _ _ (ro_State ro) (ro_State ro)); [|done|by left]. simpl.
    exists (set_UpdatedAt (clock (f_readings d)) (set_Detail detail ro)), (set_f_readings (S (f_readings d)) d).
    split; [done|]. split; [done|]. split; [by apply quiet_same; simpl; auto|reflexivity].
Qed.

(** Save the rollout in its new state, and stop. *)
Lemma save_stepped g (ro ro0 : AgentRollout) actor action details d s0 :
  at_phase d (ro_ID ro) s0 ->
  ro_State ro = s0 \/ arrow g (phases d) (<[ro_ID ro := ro_State ro]> (phases d)) ->
  twp (do* save clock ro actor action details; tret ro) d (fun _ d' => stepped g (ro_ID ro) d d').
Proof.
  intros Hp Ha. apply twp_save. intros d' Hw. by eapply written_stepped.
Qed.

Lemma halt_stepped g ro why d : at_phase d (ro_ID ro) (ro_State ro) -> in_progress (ro_State ro) ->
  twp (halt clock ro why) d (fun _ d' => stepped g (ro_ID ro) d d').
Proof.
  intros Hp Hs. unfold halt. apply twp_quiet.
  { destruct (ro_PilotAssignmentID ro), (ro_ExcludeAssignmentID ro); quiets. }
  intros ro1 d1 E Hq.
  assert (ro_ID ro1 = ro_ID ro) as Hi.
  { destruct (ro_PilotAssignmentID ro), (ro_ExcludeAssignmentID ro); txs; done. }
  pose proof (at_phase_quiet _ _ _ _ Hq Hp) as Hp1. rewrite <- Hi in *.
  apply (save_stepped g (set_Detail why (set_State RolloutHalted ro1)) ro _ _ _ d1 (ro_State ro) Hp1).
  right. apply arrow_halt with (ro_State ro); [apply Hp1|done].
Qed.
End Steps.

(** ** Promotion *)

Lemma ListRolloutsInState_spec states d l d' : ListRolloutsInState states d = (Ok l, d') ->
  d' = d /\ forall ro, ro ∈ l <-> current d ro /\ in_states states ro = true.
Proof.
  unfold ListRolloutsInState, fget. intros [= <- <-]. split; [done|]. intros ro. rewrite list_elem_of_omap. split.
  - intros (row & Hr & Hj). rewrite elem_of_order_by, elem_of_filterb in Hr. destruct Hr as [Hr Hs].
    destruct (current_row _ _ _ Hj) as (_ & _ & He & _). split; [by exists row|].
    unfold in_states in *. by rewrite He.
  - intros [(row & Hr & Hj) Hs]. exists row. rewrite elem_of_order_by, elem_of_filterb. split; [|done].
    split; [done|]. destruct (current_row _ _ _ Hj) as (_ & _ & He & _). unfold in_states in *. by rewrite <- He.
Qed.

Lemma join_exists d row : rows_ok d -> row ∈ f_rollouts d -> exists ro, join_version d row = Some ro.
Proof.
  intros [_ H] Hr. rewrite Forall_forall in H.
  destruct (H (ro_ID row, ro_AgentVersionID row)) as [v Hv].
  { unfold row_keys. apply list_elem_of_fmap. eauto. }
  unfold join_version. simpl in Hv. rewrite Hv. eauto.
Qed.

(** The ids of the promoted rollouts are those the list names. *)
Lemma promoted_ids d l d' i : rows_ok d -> ListRolloutsInState [RolloutPromoted] d = (Ok l, d') ->
  i ∈ map ro_ID l <-> phases d !! i = Some RolloutPromoted.
Proof.
  intros Hd Hl. apply ListRolloutsInState_spec in Hl as [_ Hl]. split.
  - intros (ro & -> & Hr)%list_elem_of_fmap. apply Hl in Hr as [Hc Hs].
    rewrite (current_phase _ _ Hd Hc). unfold in_states in Hs. apply existsb_eq_elem in Hs.
    apply list_elem_of_singleton in Hs. by rewrite Hs.
  - intros (row & Hr & <- & Hs)%phases_Some. destruct (join_exists _ _ Hd Hr) as [ro Hj].
    destruct (current_row _ _ _ Hj) as (He & _ & Hs' & _). apply list_elem_of_fmap. exists ro. split; [done|].
    apply Hl. split; [by exists row|]. unfold in_states. apply existsb_eq_elem. rewrite Hs', Hs. constructor.
Qed.

Lemma removeAll_ok l d : exists d', removeAll l d = (Ok tt, d') /\ quiet d d'.
Proof.
  exists (removeAll l d).2. split; [|apply removeAll_quiet].
  assert (forall l d, (removeAll l d).1 = Ok tt) as H.
  { clear. induction l as [|[id|] l IH]; intros d; simpl; [done| |]; apply IH. }
  specialize (H l d). destruct (removeAll l d). simpl in *. by subst.
Qed.

Lemma replace_older_spec ro now older d :
  exists d', replace_older ro now older d = (Ok tt, d')
    /\ touches (fun i => i <> ro_ID ro /\ i ∈ map ro_ID older) d d'
    /\ forall i, phases d' !! i =
         if decide (i <> ro_ID ro /\ i ∈ map ro_ID older) then const RolloutSuperseded <$> phases d !! i else phases d !! i.
Proof.
  revert d. induction older as [|old l IH]; intros d; cbn [replace_older map].
  - exists d. split; [done|]. split; [reflexivity|]. intros i. rewrite decide_False by set_solver. done.
  - destruct (String.eqb_spec (ro_ID old) (ro_ID ro)) as [E|N].
    + destruct (IH d) as (d' & -> & Ht & Hp). exists d'. split; [done|]. split.
      * eapply touches_mono; [|done]. intros i [Hi Hl]. split; [done|by constructor].
      * intros i. rewrite Hp. apply decide_ext. rewrite elem_of_cons. naive_solver congruence.
    + destruct (removeAll_ok [ro_FleetAssignmentID old; ro_PilotAssignmentID old; ro_ExcludeAssignmentID old] d)
        as (d1 & E1 & Hq). unfold tbind at 1. rewrite E1.
      match goal with |- context [UpdateAgentRollout ?x] => set (u := x) end.
      unfold tbind at 1, st, tmap_err.
      destruct (UpdateAgentRollout u d1) as [x d2] eqn:E2. assert (x = Ok tt /\ d2 = (UpdateAgentRollout u d1).2) as [-> Hd2].
      { rewrite E2. split; [|done]. unfold UpdateAgentRollout, fset in E2. congruence. }
      destruct (IH d2) as (d' & -> & Ht & Hp). exists d'. split; [done|]. split.
      * etrans; [by apply touches_quiet|]. etrans; [|eapply touches_mono; [|done]; intros i [Hi Hl]; split; [done|by constructor]].
        rewrite Hd2. eapply touches_mono; [|apply update_touches]. simpl. intros i <-. split; [done|constructor].
      * intros i. rewrite Hp, Hd2, update_phases, (quiet_phases _ _ Hq). simpl.
        destruct (decide (i = ro_ID old)) as [->|Hi].
        -- rewrite lookup_alter_eq. rewrite (decide_True _ _ (P := ro_ID old <> ro_ID ro /\ ro_ID old ∈ ro_ID old :: map ro_ID l)) by (split; [done|constructor]).
           destruct (decide _); [|done]. by destruct (phases d !! ro_ID old).
        -- rewrite lookup_alter_ne by done. apply decide_ext. rewrite elem_of_cons. naive_solver.
Qed.

Lemma promote_stepped clock g ro fleet d s :
  at_phase d (ro_ID ro) s -> s <> RolloutPromoted ->
  arrow g (phases d) (promote_in (ro_ID ro) (phases d)) ->
  twp (promote clock ro fleet) d (fun _ d' => stepped g (ro_ID ro) d d').
Proof.
  intros Hp Hs Ha. unfold promote. apply twp_quiet; [apply now_quiet|]. intros now d1 _ Hq1.
  pose proof (at_phase_quiet _ _ _ _ Hq1 Hp) as Hp1. rewrite <- (quiet_phases _ _ Hq1) in Ha.
  apply twp_quiet; [apply st_quiet, ListRolloutsInState_quiet|]. intros older d2 El Hq2.
  assert (El' : ListRolloutsInState [RolloutPromoted] d1 = (Ok older, d2)) by (by apply tmap_err_Ok in El).
  pose proof (fun i => promoted_ids _ _ _ i (proj1 Hp1) El') as Hold.
  rewrite <- (quiet_phases _ _ Hq2) in Ha, Hold.
  pose proof (at_phase_quiet _ _ _ _ Hq2 Hp1) as [Hd2 Hp2].
  match goal with |- twp (tbind (InTx (tbind (removeAll ?l) (fun _ => replace_older ?x _ _))) _) _ _ =>
    destruct (removeAll_ok l d2) as (d3 & E3 & Hq3); set (ro1 := x) in * end.
  destruct (replace_older_spec ro1 now older d3) as (d4 & E4 & Ht & Hph).
  assert (E5 : InTx (tbind (removeAll [ro_PilotAssignmentID ro1; ro_ExcludeAssignmentID ro1])
                      (fun _ => replace_older ro1 now older)) d2 = (Ok tt, d4))
    by (unfold InTx, tbind; by rewrite E3, E4).
  apply twp_bind. unfold twp at 1. rewrite E5. cbn [fst snd]. simpl ro_ID in *.
  assert (Htd : touches (fun i => i = ro_ID ro \/ phases d2 !! i = Some RolloutPromoted) d2 d4).
  { etrans; [by apply touches_quiet|]. eapply touches_mono; [|done]. simpl. intros i [_ Hi]. right. by apply Hold. }
  apply twp_save. intros d5 Hw. change (stepped g (ro_ID ro) d2 d5).
  assert (Hp4 : phases d4 !! ro_ID ro = Some s).
  { rewrite Hph, (quiet_phases _ _ Hq3), decide_False; [exact Hp2|]. intros [N _]. by apply N. }
  split.
  - etrans; [done|]. eapply touches_mono; [|by eapply written_touches]. simpl. intros i <-. by left.
  - rewrite (written_phases _ _ _ _ _ Hw Hp4). eapply rtc_once. replace (<[_:=_]> _) with (promote_in (ro_ID ro) (phases d2)); [done|].
    unfold promote_in. apply map_eq. intros i. simpl. destruct (decide (i = ro_ID ro)) as [->|N].
    + by rewrite !lookup_insert_eq.
    + rewrite !lookup_insert_ne by done. rewrite lookup_fmap, Hph, (quiet_phases _ _ Hq3). simpl.
      destruct (decide _) as [[_ H]|H].
      * apply Hold in H. rewrite H. done.
      * destruct (phases d2 !! i) as [t|] eqn:Ei; simpl; [|done].
        destruct (String.eqb_spec t RolloutPromoted) as [->|]; [|done]. exfalso. apply H. split; [done|]. by apply Hold.
Qed.

(** ** What the world says *)

Definition health_of (d : fdb) (groupID versionID : string) : PilotHealth :=
  fold_left count_health (order_by health_order (health_rows groupID versionID d)) (mkHealth 0 0 []).

Lemma health_world d d' g v : world d d' -> health_of d' g v = health_of d g v.
Proof.
  intros []. unfold health_of, health_rows, is_member. by rewrite w_groups0, w_devices0, w_statuses0.
Qed.

Lemma count_health_nonneg l h : 0 <= Failed h -> 0 <= Succeeded h ->
  0 <= Failed (fold_left count_health l h) /\ 0 <= Succeeded (fold_left count_health l h).
Proof.
  revert h. induction l as [|[[x y] s] l IH]; intros h Hf Hs; [done|]. cbn [fold_left].
  apply IH; unfold count_health; destruct (String.eqb _ _); try (simpl; lia); destruct (String.eqb _ _); simpl; lia.
Qed.

Lemma health_nonneg d g v : 0 <= Failed (health_of d g v) /\ 0 <= Succeeded (health_of d g v).
Proof. apply count_health_nonneg; simpl; lia. Qed.

(** A group an include needs no approval for. *)
Definition group_unheld (r : RolloutConfig) (d : fdb) (g : string) : Prop :=
  ApprovalsRequired r = false
  \/ exists G, f_groups d !! g = Some G /\ g_Kind G = GroupStatic /\ Z.of_nat (length (g_Members G)) <= ApprovalThreshold r.

Lemma needsApproval_false r g d d' : needsApproval r g d = (Ok false, d') -> group_unheld r d g.
Proof.
  unfold needsApproval, group_unheld. destruct (ApprovalsRequired r); [|auto]. simpl. intros H. right.
  unfold GetGroup, GroupMemberCount, st, tbind, tmap_err, fget, found in H.
  destruct (f_groups d !! g) as [G|] eqn:EG; [|done]. simpl in H. exists G. split; [done|].
  destruct (String.eqb_spec (g_Kind G) GroupStatic) as [E|]; simpl in H; [|done]. split; [done|].
  rewrite EG in H. unfold tret in H. injection H as H _. lia.
Qed.

Lemma include_assigned clock new_id r ro g n d id d' :
  include clock new_id r ro g n d = (Ok (Assigned id), d') -> group_unheld r d g.
Proof.
  unfold include, now_, NewV7. intros H. do 3 (unfold tbind at 1 in H; simpl in H).
  match type of H with context [needsApproval r g ?d0] => destruct (needsApproval r g d0) as [[[]|e] d1] eqn:E end;
    [|by apply needsApproval_false in E|done].
  unfold tbind in H. by repeat case_match.
Qed.

(** What [ro], as an operation holds it in state [d], tells of the guards. *)
Record facts (clock : nat -> time) (r : RolloutConfig) (g : guards) (d : fdb) (ro : AgentRollout) : Prop := {
  fact_passed pilot started k :
    ro_PilotGroupID ro = Some pilot -> ro_PilotStartedAt ro = Some started -> (f_readings d <= k)%nat ->
    promoteAt ro started <= clock k ->
    Failed (health_of d pilot (ro_AgentVersionID ro)) = 0 -> 0 < Succeeded (health_of d pilot (ro_AgentVersionID ro)) ->
    passed g (ro_ID ro);
  fact_unheld : group_unheld r d BuiltinGroupID -> unheld g;
  fact_approved a ap : ro_FleetApprovalID ro = Some a -> approval_at d a = Some ap ->
    ap_Status ap = ApprovalApproved -> approved g (ro_ID ro);
  fact_healthy :
    (forall pilot, ro_PilotGroupID ro = Some pilot -> Failed (health_of d pilot (ro_AgentVersionID ro)) = 0) ->
    healthy g (ro_ID ro) }.

Lemma facts_world clock r g d d' ro : world d d' -> facts clock r g d ro -> facts clock r g d' ro.
Proof.
  intros Hw [F1 F2 F3 F4]. pose proof (fun p => health_world d d' p (ro_AgentVersionID ro) Hw) as Hh.
  destruct Hw. split.
  - intros pilot started k. rewrite Hh. intros Hp Hs Hk. eapply F1; [done..|lia].
  - unfold group_unheld. by rewrite w_groups0.
  - intros a ap Ha Hap Hst. eapply F3; [done| |done]. by apply w_approved0.
  - intros H. apply F4. intros p Hp. rewrite <- Hh. by apply H.
Qed.

Section Step.
Context (clock : nat -> time) (new_id : nat -> string) (rfc3339 : time -> string) (r : RolloutConfig).

Lemma piloting_stepped g ro as_ d : at_phase d (ro_ID ro) (ro_State ro) ->
  twp (piloting clock ro as_) d (fun _ d' => stepped g (ro_ID ro) d d').
Proof.
  intros Hp. unfold piloting. apply twp_quiet; [apply now_quiet|]. intros now d1 _ Hq.
  pose proof (at_phase_quiet _ _ _ _ Hq Hp) as Hp1.
  match goal with |- twp (tbind (save _ ?x _ _ _) _) _ _ => apply (save_stepped clock g x x _ _ _ d1 (ro_State ro) Hp1) end.
  by left.
Qed.

Lemma offer_to_all_stepped g ro d :
  at_phase d (ro_ID ro) RolloutPilot -> passed g (ro_ID ro) -> (group_unheld r d BuiltinGroupID -> unheld g) ->
  twp (offer_to_all clock new_id r ro) d (fun _ d' => stepped g (ro_ID ro) d d').
Proof.
  intros Hp Hg Hu. unfold offer_to_all. apply twp_quiet; [apply include_quiet|]. intros got d1 E Hq.
  pose proof (at_phase_quiet _ _ _ _ Hq Hp) as Hp1. destruct got as [id|id].
  - eapply promote_stepped; [done|done|]. apply arrow_pass; [apply Hp1|done|]. apply Hu.
    by apply include_assigned in E.
  - match goal with |- twp (tbind (save _ ?x _ _ _) _) _ _ => apply (save_stepped clock g x x _ _ _ d1 RolloutPilot Hp1) end.
    right. apply arrow_hold; [apply Hp1|done].
Qed.

Lemma watch_pilot_stepped g ro pilot d :
  at_phase d (ro_ID ro) (ro_State ro) -> ro_State ro = RolloutPilot -> ro_PilotGroupID ro = Some pilot ->
  facts clock r g d ro ->
  twp (watch_pilot clock new_id rfc3339 r ro pilot) d (fun _ d' => stepped g (ro_ID ro) d d').
Proof.
  intros Hp Hs Hg [F1 F2 _ _]. unfold watch_pilot. apply twp_quiet; [apply st_quiet, AgentBuildHealth_quiet|].
  intros health d1 E Hq. pose proof (at_phase_quiet _ _ _ _ Hq Hp) as Hp1.
  assert (health = health_of d pilot (ro_AgentVersionID ro) /\ d1 = d) as [-> ->] by (unfold st in E; txs; unfold AgentBuildHealth, fget in E; by simplify_eq).
  destruct (Z.ltb_spec 0 (Failed (health_of d pilot (ro_AgentVersionID ro)))) as [Hf|Hf].
  { apply halt_stepped; [done|by left]. }
  destruct (ro_PilotStartedAt ro) as [started|] eqn:Est; [|apply stepped_quiet; reflexivity].
  apply twp_quiet; [apply now_quiet|]. intros now d2 E2 Hq2. pose proof (at_phase_quiet _ _ _ _ Hq2 Hp1) as Hp2.
  unfold now_ in E2. assert (now = clock (f_readings d)) as -> by congruence.
  destruct (Before _ _) eqn:Eb; [by apply wait_stepped|].
  destruct (Z.eqb_spec (Succeeded (health_of d pilot (ro_AgentVersionID ro))) 0) as [|Hn]; [by apply wait_stepped|].
  rewrite Hs in Hp2. pose proof (health_nonneg d pilot (ro_AgentVersionID ro)).
  apply offer_to_all_stepped; [done| |].
  - unfold Before in Eb. bools. apply (F1 pilot started (f_readings d)); try done; lia.
  - intros Hu. apply F2. unfold group_unheld in *. destruct Hq2 as [[] _]. by rewrite <- w_groups0.
Qed.

Lemma pilot_approval_stepped g ro pilot approval d :
  at_phase d (ro_ID ro) (ro_State ro) -> in_progress (ro_State ro) ->
  twp (pilot_approval clock ro pilot approval) d (fun _ d' => stepped g (ro_ID ro) d d').
Proof.
  intros Hp Hs. unfold pilot_approval. apply twp_quiet; [apply st_quiet, GetApproval_quiet|]. intros a d1 _ Hq.
  pose proof (at_phase_quiet _ _ _ _ Hq Hp) as Hp1. destruct (String.eqb _ ApprovalPending).
  { apply twp_quiet; [apply now_quiet|]. intros now d2 _ Hq2. pose proof (at_phase_quiet _ _ _ _ Hq2 Hp1).
    destruct (After _ _); [by apply wait_stepped|by apply halt_stepped]. }
  destruct (String.eqb _ ApprovalApproved); [|by apply halt_stepped].
  apply twp_quiet; [apply tattempt_quiet, GetAssignmentFor_quiet|]. intros [as_|e] d2 _ Hq2;
    pose proof (at_phase_quiet _ _ _ _ Hq2 Hp1); [by apply piloting_stepped|].
  destruct e; [by apply halt_stepped|apply stepped_quiet; reflexivity..].
Qed.

Lemma exclude_pilot_same ro pilot d ro' d' :
  exclude_pilot clock new_id ro pilot d = (Ok ro', d') -> exists x, ro' = set_ExcludeAssignmentID x ro.
Proof.
  assert (ro = set_ExcludeAssignmentID (ro_ExcludeAssignmentID ro) ro) as He by (by destruct ro).
  unfold exclude_pilot. destruct (ro_ExcludeAssignmentID ro) eqn:E; intros H; [txs; eauto|].
  txs. destruct x as [cur|]; [|txs; eauto]. destruct (negb _); txs; eauto.
Qed.

Lemma begin_pilot_stepped g ro pilot d :
  at_phase d (ro_ID ro) (ro_State ro) ->
  twp (begin_pilot clock new_id r ro pilot) d (fun _ d' => stepped g (ro_ID ro) d d').
Proof.
  intros Hp. unfold begin_pilot. apply twp_quiet; [apply exclude_pilot_quiet|]. intros ro1 d1 E Hq.
  pose proof (at_phase_quiet _ _ _ _ Hq Hp) as Hp1. apply exclude_pilot_same in E as [x ->].
  apply twp_quiet; [apply include_quiet|]. intros got d2 _ Hq2. pose proof (at_phase_quiet _ _ _ _ Hq2 Hp1) as Hp2.
  destruct got as [id|id].
  - by apply (piloting_stepped g (set_ExcludeAssignmentID x ro)).
  - match goal with |- twp (tbind (save _ ?x _ _ _) _) _ _ => apply (save_stepped clock g x x _ _ _ d2 (ro_State ro) Hp2) end.
    by left.
Qed.

Lemma stepPilot_stepped g ro d :
  at_phase d (ro_ID ro) (ro_State ro) -> ro_State ro = RolloutPilot -> facts clock r g d ro ->
  twp (stepPilot clock new_id rfc3339 r ro) d (fun _ d' => stepped g (ro_ID ro) d d').
Proof.
  intros Hp Hs Hf. unfold stepPilot. destruct (ro_PilotGroupID ro) as [pilot|] eqn:Eg; [|apply halt_stepped; [done|by left]].
  destruct (ro_PilotAssignmentID ro); [by apply watch_pilot_stepped|].
  destruct (ro_PilotApprovalID ro); [apply pilot_approval_stepped; [done|by left]|by apply begin_pilot_stepped].
Qed.

Lemma stepPromoting_stepped g ro d :
  at_phase d (ro_ID ro) (ro_State ro) -> ro_State ro = RolloutPromoting -> facts clock r g d ro ->
  twp (stepPromoting clock ro) d (fun _ d' => stepped g (ro_ID ro) d d').
Proof.
  intros Hp Hs Hf. assert (Hi : in_progress (ro_State ro)) by (by right).
  unfold stepPromoting. apply twp_quiet; [apply pilot_health_quiet|]. intros health d1 E Hq.
  pose proof (at_phase_quiet _ _ _ _ Hq Hp) as Hp1.
  assert (Hh : forall p, ro_PilotGroupID ro = Some p -> health = health_of d p (ro_AgentVersionID ro)).
  { intros p Eg. unfold pilot_health, st in E. rewrite Eg in E. txs. unfold AgentBuildHealth, fget in E. by simplify_eq. }
  destruct (Z.ltb_spec 0 (Failed health)) as [Hfl|Hfl]; [by apply halt_stepped|].
  destruct (ro_FleetApprovalID ro) as [apid|] eqn:Ef; [|by apply halt_stepped].
  apply twp_quiet; [apply st_quiet, GetApproval_quiet|]. intros a d2 Ea Hq2.
  pose proof (at_phase_quiet _ _ _ _ Hq2 Hp1) as Hp2.
  destruct (String.eqb _ ApprovalPending).
  { apply twp_quiet; [apply now_quiet|]. intros now d3 _ Hq3. pose proof (at_phase_quiet _ _ _ _ Hq3 Hp2).
    destruct (After _ _); [by apply wait_stepped|by apply halt_stepped]. }
  destruct (String.eqb (ap_Status a) ApprovalApproved) eqn:Es; [|by apply halt_stepped]. bools.
  apply twp_quiet; [apply tattempt_quiet, GetAssignmentFor_quiet|]. intros [as_|e] d3 _ Hq3;
    pose proof (at_phase_quiet _ _ _ _ Hq3 Hp2) as Hp3; [|destruct e; [by apply halt_stepped|apply stepped_quiet; reflexivity..]].
  rewrite Hs in Hp3. eapply promote_stepped; [done|done|].
  destruct Hf as [_ _ F3 F4]. apply arrow_release; [apply Hp3| |].
  - assert (approval_at d1 apid = Some a).
    { unfold st, GetApproval, tmap_err, tbind, fget, found in Ea. unfold approval_at.
      destruct (find _ (f_approvals d1)) as [b|]; [|done]. unfold tret in Ea. congruence. }
    eapply F3; [done| |done]. destruct Hq as [[] _]. by apply w_approved0.
  - apply F4. intros p Eg. rewrite (Hh p Eg) in Hfl. pose proof (health_nonneg d p (ro_AgentVersionID ro)). lia.
Qed.

Lemma step_stepped g ro d :
  at_phase d (ro_ID ro) (ro_State ro) -> facts clock r g d ro ->
  twp (step clock new_id rfc3339 r ro) d (fun _ d' => stepped g (ro_ID ro) d d').
Proof.
  intros Hp Hf. unfold step. destruct (String.eqb_spec (ro_State ro) RolloutPilot) as [E|_].
  { apply twp_bind. eapply twp_mono; [by apply stepPilot_stepped|]. by intros [b|e] d'. }
  destruct (String.eqb_spec (ro_State ro) RolloutPromoting) as [E|_]; [|apply stepped_quiet; reflexivity].
  apply twp_bind. eapply twp_mono; [by apply stepPromoting_stepped|]. by intros [b|e] d'.
Qed.
End Step.

(** ** The operations take the machine's steps *)

Inductive rollout_op :=
| OpStart (v : AgentVersion)
| OpAdvance
| OpResume (id actor : string).

Definition op_begins (o : rollout_op) : Prop := match o with OpStart _ => True | _ => False end.
Definition op_resumes (o : rollout_op) (id : string) : Prop := match o with OpResume i _ => i = id | _ => False end.

Lemma current_unique d a b : rows_ok d -> current d a -> current d b -> ro_ID a = ro_ID b -> a = b.
Proof.
  intros [Hn _] (x & Hx & Ja) (y & Hy & Jb) He. rewrite row_keys_ids in Hn.
  destruct (current_row _ _ _ Ja) as (Ia & _), (current_row _ _ _ Jb) as (Ib & _).
  assert (x = y); [|congruence]. rewrite Ia, Ib in He. clear Ja Jb Ia Ib.
  induction (f_rollouts d) as [|z l IH]; [by apply elem_of_nil in Hx|].
  simpl in Hn. apply NoDup_cons in Hn as [Hz Hn].
  apply elem_of_cons in Hx as [->|Hx], Hy as [->|Hy]; [done|..|by apply IH].
  - exfalso. apply Hz. rewrite He. apply list_elem_of_fmap. eauto.
  - exfalso. apply Hz. rewrite <- He. apply list_elem_of_fmap. eauto.
Qed.

Lemma listed_nodup states d l d' : rows_ok d -> ListRolloutsInState states d = (Ok l, d') -> NoDup (map ro_ID l).
Proof.
  intros [Hn _] H. rewrite row_keys_ids in Hn. unfold ListRolloutsInState, fget in H. injection H as <- _.
  assert (Hs : forall rows, map ro_ID (omap (join_version d) rows) `sublist_of` map ro_ID rows).
  { induction rows as [|x rows IH]; simpl; [done|]. destruct (join_version d x) as [y|] eqn:E; simpl.
    - destruct (current_row _ _ _ E) as (-> & _). by constructor.
    - by constructor. }
  eapply sublist_NoDup; [|apply Hs]. rewrite order_by_perm. eapply sublist_NoDup; [exact Hn|].
  clear Hn Hs. induction (f_rollouts d) as [|x rows IH]; simpl; [done|].
  destruct (in_states states x); simpl; by constructor.
Qed.

Lemma GetAgentRollout_current id d ro d' : GetAgentRollout id d = (Ok ro, d') -> d' = d /\ current d ro /\ ro_ID ro = id.
Proof.
  unfold GetAgentRollout, tbind, fget, found. destruct (find _ _) as [row|] eqn:E; [|done].
  destruct (join_version d row) as [x|] eqn:J; [|done]. unfold tret. intros [= <- <-]. split; [done|].
  apply find_some in E as [Hr Hi]. bools. destruct (current_row _ _ _ J) as (He & _).
  split; [|congruence]. exists row. split; [by apply list_elem_of_In|done].
Qed.

Lemma GetAgentRollout_quiet id : quietly (GetAgentRollout id).
Proof. unfold GetAgentRollout. quiets. Qed.

Lemma twp_InTx {D E A} (m : txn D E A) (d : D) (Q : result E A -> D -> Prop) :
  twp m d (fun x d' => match x with Ok _ => Q x d' | Err _ => Q x d end) -> twp (InTx m) d Q.
Proof. unfold twp, InTx. by destruct (m d) as [[a|e] d']. Qed.

Section Refine.
Context (clock : nat -> time) (new_id : nat -> string) (rfc3339 : time -> string) (r : RolloutConfig).

Definition run (o : rollout_op) (d : fdb) : fdb :=
  match o with
  | OpStart v => (Start clock new_id rfc3339 r v d).2
  | OpAdvance => (Advance clock new_id rfc3339 r d).2
  | OpResume id actor => (Resume clock new_id rfc3339 r id actor d).2
  end.

Definition guards_at (o : rollout_op) (d : fdb) : guards := {|
  may_begin := op_begins o;
  may_resume := op_resumes o;
  passed id := exists ro pilot started k,
    current d ro /\ ro_ID ro = id /\ ro_PilotGroupID ro = Some pilot /\ ro_PilotStartedAt ro = Some started
    /\ (f_readings d <= k)%nat /\ promoteAt ro started <= clock k
    /\ Failed (health_of d pilot (ro_AgentVersionID ro)) = 0 /\ 0 < Succeeded (health_of d pilot (ro_AgentVersionID ro));
  unheld := group_unheld r d BuiltinGroupID;
  approved id := exists ro a ap,
    current d ro /\ ro_ID ro = id /\ ro_FleetApprovalID ro = Some a /\ approval_at d a = Some ap
    /\ ap_Status ap = ApprovalApproved;
  healthy id := forall ro pilot, current d ro -> ro_ID ro = id -> ro_PilotGroupID ro = Some pilot ->
    Failed (health_of d pilot (ro_AgentVersionID ro)) = 0 |}.

Lemma facts_at o d ro : rows_ok d -> current d ro -> facts clock r (guards_at o d) d ro.
Proof.
  intros Hd Hc. split; simpl; [eauto 12|done|eauto 10|].
  intros H ro' pilot Hc' Hi Hp. rewrite (current_unique d ro' ro Hd Hc' Hc Hi) in *. by apply H.
Qed.

(** What a whole operation may do. *)
Definition ran (g : guards) (d d' : fdb) : Prop := rows_ok d' /\ world d d' /\ arrows g (phases d) (phases d').

Lemma ran_quiet g d d' : rows_ok d -> quiet d d' -> ran g d d'.
Proof.
  intros Hd Hq. split; [|split].
  - eapply touches_ok; [by apply (touches_quiet (fun _ => True))|done].
  - apply Hq.
  - by rewrite (quiet_phases _ _ Hq).
Qed.

Lemma ran_stepped g id d d1 : rows_ok d -> stepped g id d d1 -> ran g d d1.
Proof. intros Hd [Ht Ha]. split; [by eapply touches_ok|]. split; [apply Ht|done]. Qed.

Lemma ran_trans g d d1 d2 : ran g d d1 -> ran g d1 d2 -> ran g d d2.
Proof. intros (? & ? & ?) (? & ? & ?). split; [done|]. split; [by etrans|by etrans]. Qed.

Lemma twp_ran {E A B} (m : ftx E A) (f : A -> ftx E B) g d :
  rows_ok d -> quietly m ->
  (forall a d1, m d = (Ok a, d1) -> quiet d d1 -> twp (f a) d1 (fun _ d' => ran g d1 d')) ->
  twp (tbind m f) d (fun _ d' => ran g d d').
Proof.
  intros Hd Hm H. apply (twp_keeps_bind quiet); [done| |].
  - intros a d1 Ea Hq. eapply twp_mono; [by apply H|]. intros x d'. apply ran_trans. by apply ran_quiet.
  - intros e d' Hq. by apply ran_quiet.
Qed.

(** A rollout in progress that another's step left alone. *)
Lemma stepped_current g id d d1 ro : rows_ok d -> stepped g id d d1 -> current d ro ->
  ro_ID ro <> id -> in_progress (ro_State ro) -> current d1 ro.
Proof.
  intros Hd [Ht _] Hc Hn Hs. eapply touches_current; [done|done|]. intros [?|Hp]; [done|].
  rewrite (current_phase _ _ Hd Hc) in Hp. injection Hp as Hp. unfold in_progress in Hs. rewrite Hp in Hs. by destruct Hs.
Qed.

Lemma advance_all_ran g l d :
  rows_ok d -> NoDup (map ro_ID l) ->
  (forall ro, ro ∈ l -> current d ro /\ in_progress (ro_State ro) /\ facts clock r g d ro) ->
  ran g d (advance_all clock new_id rfc3339 r l d).2.
Proof.
  revert d. induction l as [|ro l IH]; intros d Hd Hn Hl; [apply ran_quiet; done|].
  apply NoDup_cons in Hn as [Hro Hn]. destruct (Hl ro) as (Hc & Hi & Hf); [constructor|].
  pose proof (step_stepped clock new_id rfc3339 r g ro d (conj Hd (current_phase _ _ Hd Hc)) Hf) as Hs.
  unfold twp in Hs. cbn [advance_all]. unfold tbind at 1, tattempt.
  destruct (step clock new_id rfc3339 r ro d) as [x d1] eqn:E. simpl in Hs.
  pose proof (ran_stepped _ _ _ _ Hd Hs) as Hr. eapply ran_trans; [done|].
  enough (ran g d1 (advance_all clock new_id rfc3339 r l d1).2) as H.
  { unfold tbind. destruct (advance_all clock new_id rfc3339 r l d1) as [[[moved errs]|e] d2]; done. }
  destruct Hr as (Hd1 & Hw & _). apply IH; [done|done|]. intros ro2 H2.
  destruct (Hl ro2) as (Hc2 & Hi2 & Hf2); [by constructor|]. split; [|split; [done|by eapply facts_world]].
  apply (stepped_current g (ro_ID ro) d d1 ro2); [done|done|done| |done]. intros He. apply Hro. rewrite <- He. apply list_elem_of_fmap. eauto.
Qed.

Lemma listed_current states d l d1 ro : ListRolloutsInState states d = (Ok l, d1) -> ro ∈ l ->
  current d ro /\ ro_State ro ∈ states.
Proof.
  intros Hl Hr. apply ListRolloutsInState_spec in Hl as [_ Hl]. apply Hl in Hr as [Hc Hs].
  split; [done|]. by apply existsb_eq_elem.
Qed.

Lemma active_in_progress s : s ∈ [RolloutPilot; RolloutPromoting] -> in_progress s.
Proof. intros [->|[->|H]%elem_of_cons]%elem_of_cons; [by left|by right|by apply elem_of_nil in H]. Qed.

Lemma Advance_ran d : rows_ok d -> ran (guards_at OpAdvance d) d (run OpAdvance d).
Proof.
  intros Hd. change (twp (Advance clock new_id rfc3339 r) d (fun _ d' => ran (guards_at OpAdvance d) d d')).
  unfold Advance. apply twp_ran; [done|apply st_quiet, ListRolloutsInState_quiet|]. intros l d1 El Hq.
  apply tmap_err_Ok in El. pose proof (listed_nodup _ _ _ _ Hd El) as Hn.
  assert (d1 = d) as -> by (by apply ListRolloutsInState_spec in El as [? _]).
  apply advance_all_ran; [done|done|]. intros ro Hr. destruct (listed_current _ _ _ _ _ El Hr) as [Hc Hs].
  split; [done|]. split; [by apply active_in_progress|by apply facts_at].
Qed.

Lemma Resume_ran id actor d : rows_ok d -> ran (guards_at (OpResume id actor) d) d (run (OpResume id actor) d).
Proof.
  intros Hd. set (g := guards_at _ d).
  change (twp (Resume clock new_id rfc3339 r id actor) d (fun _ d' => ran g d d')).
  unfold Resume. apply twp_ran; [done|apply st_quiet, GetAgentRollout_quiet|]. intros ro d1 E _.
  apply tmap_err_Ok, GetAgentRollout_current in E as (-> & Hc & Hi).
  destruct (String.eqb_spec (ro_State ro) RolloutHalted) as [Hh|]; [|by apply ran_quiet].
  pose proof (facts_at (OpResume id actor) d ro Hd Hc) as Hf. pose proof (current_phase _ _ Hd Hc) as Hph.
  apply twp_save. intros d1 Hw. simpl in Hw.
  assert (Hst : stepped g (ro_ID ro) d d1).
  { eapply written_stepped; [done|done|]. right. rewrite Hh in Hph. apply arrow_resume; [by simpl|done]. }
  pose proof (ran_stepped _ _ _ _ Hd Hst) as Hr. destruct Hr as (Hd1 & Hwd & Ha).
  match goal with |- twp (tbind (step _ _ _ _ ?x) _) _ _ => set (ro1 := x) end.
  apply twp_bind. eapply twp_mono.
  { apply (step_stepped clock new_id rfc3339 r g ro1).
    - split; [done|]. rewrite (written_phases _ _ _ _ _ Hw Hph). apply lookup_insert_eq.
    - eapply facts_world; [done|]. destruct Hf as [F1 F2 F3 F4]. by split. }
  intros [b|e] d2 Hs; (eapply ran_trans; [split; [exact Hd1|split; [exact Hwd|exact Ha]]|by eapply ran_stepped]).
Qed.

(** *** Start *)

Lemma CreateAgentRollout_Ok ro b d d' : CreateAgentRollout ro d = (Ok b, d') ->
  d' = d /\ b = false
  \/ b = true /\ world d d' /\ exists row v, f_rollouts d' = f_rollouts d ++ [row]
      /\ ro_ID row = ro_ID ro /\ ro_State row = ro_State ro /\ ro_PilotStartedAt row = None /\ ro_FleetApprovalID row = None
      /\ f_versions d !! ro_AgentVersionID row = Some v
      /\ (forall x, x ∈ f_rollouts d -> ro_ID x <> ro_ID ro).
Proof.
  unfold CreateAgentRollout. destruct (existsb _ _); [by intros [= <- <-]; left|].
  destruct (existsb _ _) eqn:E2; [done|]. destruct (f_versions d !! _) as [v|] eqn:Ev; [|by destruct (match ro_PilotGroupID ro with _ => _ end)].
  destruct (match ro_PilotGroupID ro with Some _ => _ | None => _ end); [|done]. intros [= <- <-]. right. split; [done|]. split; [by split|].
  eexists _, v. split; [done|]. do 5 (split; [done|]). intros x Hx Hi.
  rewrite existsb_none in E2. specialize (E2 x Hx). bools. done.
Qed.

Lemma create_outcome ro audit d :
  let m := InTx (let* created := st (CreateAgentRollout ro) in
                 if created then do* InsertAudit audit; tret true else tret false) in
  (exists e, m d = (Err e, d)) \/ m d = (Ok false, d)
  \/ exists d3, CreateAgentRollout ro d = (Ok true, d3) /\ m d = (Ok true, set_f_audit (f_audit d3 ++ [audit]) d3).
Proof.
  simpl. unfold InTx, tbind, st, tmap_err. destruct (CreateAgentRollout ro d) as [[[]|e] d3] eqn:E; simpl; eauto.
  apply CreateAgentRollout_Ok in E as [[-> _]|[? _]]; [auto|done].
Qed.

Lemma created_row d d' row v :
  rows_ok d -> world d d' -> f_rollouts d' = f_rollouts d ++ [row] -> f_versions d !! ro_AgentVersionID row = Some v ->
  (forall x, x ∈ f_rollouts d -> ro_ID x <> ro_ID row) ->
  rows_ok d' /\ phases d !! ro_ID row = None /\ phases d' = <[ro_ID row := ro_State row]> (phases d)
  /\ current d' (set_Version v row) /\ (forall ro, current d ro -> current d' ro).
Proof.
  intros [Hn Hv] Hw Hr Hb Hfresh.
  assert (Hi : ro_ID row ∉ (row_keys d).*1).
  { rewrite row_keys_ids. intros (x & He & Hx)%list_elem_of_fmap. by apply (Hfresh x Hx). }
  assert (Hk : row_keys d' = row_keys d ++ [(ro_ID row, ro_AgentVersionID row)]).
  { unfold row_keys. rewrite Hr, map_app. done. }
  destruct Hw. split; [|split; [|split; [|split]]].
  - split; rewrite Hk.
    + rewrite fmap_app. apply NoDup_app. split; [done|]. split; [|by apply NoDup_singleton].
      intros x Hx ->%list_elem_of_singleton. done.
    + rewrite w_versions0. apply Forall_app. split; [done|]. apply Forall_singleton. simpl. by rewrite Hb.
  - apply not_elem_of_list_to_map_1. intros H. apply Hi. rewrite row_keys_ids.
    revert H. change fmap with (@map (string * string) string). by rewrite map_map.
  - unfold phases. rewrite Hr, map_app. apply list_to_map_snoc. simpl. intros H. apply Hi. rewrite row_keys_ids.
    revert H. change fmap with (@map (string * string) string). by rewrite map_map.
  - exists row. rewrite Hr. split; [apply elem_of_app; right; constructor|]. unfold join_version. by rewrite w_versions0, Hb.
  - intros ro (x & Hx & Hj). exists x. rewrite Hr. split; [apply elem_of_app; by left|].
    unfold join_version in *. by rewrite w_versions0.
Qed.

Lemma supersede_stepped g ro by_ d : may_begin g -> at_phase d (ro_ID ro) (ro_State ro) -> in_progress (ro_State ro) ->
  twp (supersede clock ro by_) d (fun _ d' => stepped g (ro_ID ro) d d').
Proof.
  intros Hb Hp Hi. unfold supersede. apply twp_quiet; [apply now_quiet|]. intros now d1 _ Hq.
  pose proof (at_phase_quiet _ _ _ _ Hq Hp) as Hp1. apply twp_InTx.
  assert (Hkeep : forall E A B (m : ftx E A) (f : A -> ftx E B) d2, quietly m -> quiet d1 d2 ->
    (forall a d3, quiet d1 d3 -> twp (f a) d3 (fun x d' => match x with Ok _ => stepped g (ro_ID ro) d1 d' | Err _ => stepped g (ro_ID ro) d1 d1 end)) ->
    twp (tbind m f) d2 (fun x d' => match x with Ok _ => stepped g (ro_ID ro) d1 d' | Err _ => stepped g (ro_ID ro) d1 d1 end)).
  { intros E A B m f d2 Hm Hq2 H. apply (twp_keeps_bind quiet); [done| |].
    - intros a d3 _ Hq3. apply H. by etrans.
    - intros e d3 _. by apply stepped_quiet. }
  apply Hkeep; [quiets|reflexivity|]. intros _ d2 Hq2. apply Hkeep; [quiets|done|]. intros _ d3 Hq3.
  apply Hkeep; [quiets|done|]. intros _ d4 Hq4.
  match goal with |- context [UpdateAgentRollout ?x] => set (ro1 := x) end.
  change (stepped g (ro_ID ro) d1 (set_f_audit (f_audit (UpdateAgentRollout ro1 d4).2 ++
    [rollout_audit RolloutActor "agent_rollout.superseded" (ro_ID ro1) [("version", JStr (ro_Version ro1)); ("by", JStr by_)]%string])
    (UpdateAgentRollout ro1 d4).2)).
  eapply (written_stepped g _ RolloutSuperseded); [|done|].
  - exists ro1, d4. split; [done|]. split; [done|]. split; [done|]. by apply quiet_same.
  - right. eapply arrow_overtake; [done|apply Hp1|done].
Qed.

Lemma supersede_all_ran g id by_ l d new :
  may_begin g -> rows_ok d -> NoDup (map ro_ID l) ->
  (forall ro, ro ∈ l -> current d ro /\ in_progress (ro_State ro)) ->
  current d new -> ro_ID new = id -> in_progress (ro_State new) ->
  let d' := (supersede_all clock id by_ l d).2 in ran g d d' /\ current d' new.
Proof.
  intros Hb. revert d. induction l as [|ro l IH]; intros d Hd Hn Hl Hc Hi Hs; [split; [by apply ran_quiet|done]|].
  apply NoDup_cons in Hn as [Hro Hn]. cbn [supersede_all]. destruct (Hl ro) as [Hcr Hir]; [constructor|].
  destruct (String.eqb_spec (ro_ID ro) id) as [He|He]; simpl.
  - unfold tbind at 1. simpl. apply IH; try done. intros x Hx. apply Hl. by constructor.
  - pose proof (supersede_stepped g ro by_ d Hb (conj Hd (current_phase _ _ Hd Hcr)) Hir) as Hst. unfold twp in Hst.
    unfold tbind. destruct (supersede clock ro by_ d) as [x d1]. simpl in Hst.
    pose proof (ran_stepped _ _ _ _ Hd Hst) as Hr.
    assert (Hc1 : current d1 new) by (apply (stepped_current g (ro_ID ro) d d1 new); try done; congruence).
    destruct x as [[]|e]; [|split; done]. destruct (IH d1) as [Hr2 Hc2]; [apply Hr|done| |done..|split; [by eapply ran_trans|done]].
    intros y Hy. destruct (Hl y) as [Hcy Hiy]; [by constructor|]. split; [|done].
    apply (stepped_current g (ro_ID ro) d d1 y); try done. intros E. apply Hro. rewrite <- E. apply list_elem_of_fmap. eauto.
Qed.

Lemma Start_ran v d : rows_ok d -> ran (guards_at (OpStart v) d) d (run (OpStart v) d).
Proof.
  intros Hd. set (g := guards_at _ d).
  change (twp (Start clock new_id rfc3339 r v) d (fun _ d' => ran g d d')).
  unfold Start. apply twp_ran; [done|unfold GetAgentRolloutPolicy; quiets|]. intros p d1 Ep _.
  assert (d1 = d) as -> by (apply tmap_err_Ok in Ep; unfold GetAgentRolloutPolicy, fget in Ep; by simplify_eq).
  destruct (po_PilotGroupID p) as [pilot|]; [|by apply ran_quiet]. destruct (negb _); [by apply ran_quiet|].
  apply twp_ran; [done|apply st_quiet, ListRolloutsInState_quiet|]. intros promoted d1 El _.
  assert (d1 = d) as -> by (apply tmap_err_Ok in El; by apply ListRolloutsInState_spec in El as [? _]).
  destruct (overtaken v promoted); [by apply ran_quiet|].
  apply twp_ran; [done|apply now_quiet|]. intros now d1 _ Hq1.
  pose proof (ran_quiet g _ _ Hd Hq1) as (Hd1 & Hw1 & _).
  apply twp_ran; [done|apply NewV7_quiet|]. intros id d2 _ Hq2.
  pose proof (ran_quiet g _ _ Hd1 Hq2) as (Hd2 & Hw2 & _).
  assert (Hw : world d d2) by (by etrans). assert (Hph : phases d2 = phases d) by (by rewrite (quiet_phases _ _ Hq2), (quiet_phases _ _ Hq1)).
  clear Hq1 Hq2 Hw1 Hw2 Hd1 El Ep.
  match goal with |- context [CreateAgentRollout ?x] => set (ro := x) end.
  match goal with |- context [InsertAudit ?x] => set (audit := x) end.
  apply twp_bind. unfold twp at 1.
  destruct (create_outcome ro audit d2) as [[e ->]|[->|(d3 & Ec & ->)]]; [by apply ran_quiet..|]. simpl.
  apply CreateAgentRollout_Ok in Ec as [[_ ?]|(_ & Hw3 & row & bv & Hr & Hi & Hs & Hst & Hfa & Hbv & Hfresh)]; [done|].
  destruct (created_row d2 d3 row bv Hd2 Hw3 Hr Hbv) as (Hd3 & Hnone & Hph3 & Hcnew & Hcold).
  { intros x Hx. rewrite Hi. by apply Hfresh. }
  set (d4 := set_f_audit _ d3). assert (Hq4 : quiet d3 d4) by (by apply quiet_same).
  assert (Hran : ran g d2 d4).
  { split; [eapply touches_ok; [by apply (touches_quiet (fun _ => True))|done]|]. split; [etrans; [done|apply Hq4]|].
    rewrite (quiet_phases _ _ Hq4), Hph3, Hs. apply rtc_once. apply arrow_begin; [done|done]. }
  assert (Hc4 : current d4 (set_Version bv row)).
  { eapply touches_current; [apply (touches_quiet (fun _ => False)); done|done|tauto]. }
  apply (twp_mono _ _ (fun _ d' => ran g d4 d')); [|intros x d' H; by eapply ran_trans].
  pose proof (proj1 Hran) as Hd4. clearbody d4.
  apply twp_ran; [done|apply st_quiet, ListRolloutsInState_quiet|]. intros active d5 El _.
  apply tmap_err_Ok in El. pose proof (listed_nodup _ _ _ _ Hd4 El) as Hn.
  assert (d5 = d4) as -> by (by apply ListRolloutsInState_spec in El as [? _]).
  destruct (supersede_all_ran g id (av_Version v) active d4 (set_Version bv row)) as [Hr5 Hc5]; try done.
  { intros y Hy. destruct (listed_current _ _ _ _ _ El Hy) as [? Hs']. split; [done|by apply active_in_progress]. }
  { simpl. rewrite Hs. by left. }
  apply twp_bind. unfold twp at 1. destruct (supersede_all clock id (av_Version v) active d4) as [[[]|e] d6]; [|done].
  simpl in Hr5, Hc5. apply (twp_mono _ _ (fun _ d' => ran g d6 d')); [|intros x d' H; by eapply ran_trans].
  pose proof (proj1 Hr5) as Hd6.
  apply twp_ran; [done|apply st_quiet, GetAgentRollout_quiet|]. intros started d7 Eg _.
  apply tmap_err_Ok, GetAgentRollout_current in Eg as (-> & Hcs & His).
  assert (started = set_Version bv row) as ->.
  { apply (current_unique d6); try done. rewrite His. symmetry. exact Hi. }
  apply twp_bind. apply (twp_mono _ _ (fun _ d' => stepped g (ro_ID (set_Version bv row)) d6 d'));
    [|intros [x|e] d' H; exact (ran_stepped _ _ _ _ Hd6 H)].
  apply step_stepped; [split; [done|by apply current_phase]|].
  assert (Hwall : world d d6).
  { destruct Hran as (_ & H1 & _), Hr5 as (_ & H2 & _). etrans; [done|]. by etrans. }
  split; simpl.
  - rewrite Hst. done.
  - unfold group_unheld. by rewrite (w_groups _ _ Hwall).
  - rewrite Hfa. done.
  - intros _ ro' pilot' Hc' Hi'. apply current_phase in Hc'; [|done]. rewrite Hi', <- Hph, Hnone in Hc'. done.
Qed.

(** C8. Refinement of the machine: whatever the tables hold, each operation moves
    the rollouts only along its arrows, under the guards as they were when it
    began; the tables' constraints survive, and so does everything a guard
    looks at. An operation that fails half way is no exception. *)
Theorem rollouts_follow_their_machine o d :
  rows_ok d ->
  rows_ok (run o d) /\ world d (run o d) /\ arrows (guards_at o d) (phases d) (phases (run o d)).
Proof. destruct o; [apply Start_ran|apply Advance_ran|apply Resume_ran]. Qed.
End Refine.
