(* ===== verification/RolloutLife.v ===== *)
(** * Rollouts over time

    Histories of rollout operations with anything else the server does in
    between, what they can and cannot reach, and a small fleet to try the
    operations on. *)
From S2P Require Export RolloutSpec.
Open Scope Z_scope.
Open Scope go_scope.

(** ** Along the machine *)

Definition past_pilot (s : string) : Prop := s = RolloutPromoting \/ s = RolloutPromoted.

Lemma arrow_earned g m m' id s : arrow g m m' -> m' !! id = Some s ->
  (past_pilot s -> passed g id \/ exists s0, m !! id = Some s0 /\ past_pilot s0)
  /\ (s = RolloutPromoted -> m !! id = Some RolloutPromoted \/ unheld g \/ approved g id /\ healthy g id).
Proof.
  assert (Hold : forall i m0, promote_in i m0 !! id = Some s -> id <> i ->
    m0 !! id = Some s \/ s = RolloutSuperseded).
  { intros i m0. unfold promote_in. intros H N. rewrite lookup_insert_ne in H by done.
    rewrite lookup_fmap in H. destruct (m0 !! id) as [t|]; simpl in H; [|done].
    destruct (String.eqb t RolloutPromoted); naive_solver. }
  unfold past_pilot. intros H Hs. destruct H as [i|i|i|i|i t|i|i t].
  all: destruct (decide (id = i)) as [->|N].
  all: try (unfold promote_in in Hs; rewrite lookup_insert_eq in Hs; injection Hs as <-; split; [naive_solver|];
            (intros ?; (discriminate || naive_solver))).
  all: try (rewrite lookup_insert_ne in Hs by done; naive_solver).
  all: destruct (Hold _ _ Hs N) as [?| ->]; [naive_solver|split; [intros [?|?]; discriminate|discriminate]].
Qed.

Lemma arrows_earned g m m' id s : arrows g m m' -> m' !! id = Some s ->
  (past_pilot s -> passed g id \/ exists s0, m !! id = Some s0 /\ past_pilot s0)
  /\ (s = RolloutPromoted -> m !! id = Some RolloutPromoted \/ unheld g \/ approved g id /\ healthy g id).
Proof.
  intros H. revert s. induction H as [m|m m1 m' H1 H IH]; intros s Hs; [naive_solver|].
  destruct (IH s Hs) as [IH1 IH2]. split.
  - intros Hp. destruct (IH1 Hp) as [?|(s0 & H0 & Hp0)]; [by left|]. by apply (arrow_earned _ _ _ _ _ H1 H0).
  - intros ->. destruct (IH2 eq_refl) as [H0|?]; [|by right]. by apply (arrow_earned _ _ _ _ _ H1 H0).
Qed.

(** ** Histories *)

Section Histories.
Context (clock : nat -> time) (new_id : nat -> string) (rfc3339 : time -> string) (r : RolloutConfig).

(** [past] holds each operation with the tables it began on, the latest first.
    Between operations the rest of the server may do anything to the tables
    but add rollouts or change their states; it may remove some. *)
Inductive history : list (rollout_op * fdb) -> fdb -> Prop :=
| history_start d : rows_ok d -> f_rollouts d = [] -> history [] d
| history_run past d o : history past d -> history ((o, d) :: past) (run clock new_id rfc3339 r o d)
| history_world past d d' : history past d -> rows_ok d' -> phases d' ⊆ phases d -> history past d'.

Lemma history_ok past d : history past d -> rows_ok d.
Proof. induction 1; [done| |done]. by apply rollouts_follow_their_machine. Qed.

(** C29. At every point of every history: at most one build is promoted, so the one
    the fleet is on is well defined; a rollout that is past its pilot earned
    it - an earlier operation found the delay over by its own reading of the
    clock, no failed device and at least one that runs the build; and a
    promoted one was let through, by an approval that was given or because
    none was needed. *)
Theorem promotion_is_earned past d :
  history past d ->
  one_promoted (phases d)
  /\ (forall id s, phases d !! id = Some s -> past_pilot s ->
        exists o d0, (o, d0) ∈ past /\ passed (guards_at clock r o d0) id)
  /\ (forall id, phases d !! id = Some RolloutPromoted ->
        exists o d0, (o, d0) ∈ past /\
          (unheld (guards_at clock r o d0)
           \/ approved (guards_at clock r o d0) id /\ healthy (guards_at clock r o d0) id)).
Proof.
  induction 1 as [d Hd H0|past d o H (IH1 & IH2 & IH3)|past d d' H (IH1 & IH2 & IH3) Hd Hsub].
  - unfold phases, one_promoted. rewrite H0. simpl. split; [|split]; intros *; by rewrite lookup_empty.
  - pose proof (rollouts_follow_their_machine clock new_id rfc3339 r o d (history_ok _ _ H)) as (_ & _ & Ha).
    split; [by eapply arrows_one_promoted|]. split.
    + intros id s Hs Hp. destruct (arrows_earned _ _ _ _ _ Ha Hs) as [He _].
      destruct (He Hp) as [He'|(s0 & Hs0 & Hp0)]; [exists o, d; split; [by left|done]|].
      destruct (IH2 _ _ Hs0 Hp0) as (o' & d0 & Hin & ?). exists o', d0. split; [by right|done].
    + intros id Hs. destruct (arrows_earned _ _ _ _ _ Ha Hs) as [_ He].
      destruct (He eq_refl) as [He'|He']; [|exists o, d; split; [by left|done]].
      destruct (IH3 _ He') as (o' & d0 & Hin & ?). exists o', d0. split; [by right|done].
  - split; [|split].
    + intros i j Hi Hj. apply IH1; by eapply lookup_weaken.
    + intros id s Hs Hp. eapply IH2; [by eapply lookup_weaken|done].
    + intros id Hs. apply IH3. by eapply lookup_weaken.
Qed.
End Histories.

(** ** A small fleet *)

Module Fleet.

Definition pilots : string := "11111111-0000-0000-0000-000000000001".
Definition fleet : fdb :=
  mkFdb
    (<[pilots := mkGroup GroupStatic ["d1"]]> {[BuiltinGroupID := mkGroup "builtin" ["d1"; "d2"]]})%string
    (<["d1" := mkFleetDevice "PC-1" DeviceActive]> {["d2" := mkFleetDevice "PC-2" DeviceActive]})%string
    (<["v1" := "1.0.0"]> (<["v2" := "1.1.0"]> {["v3" := "1.2.0"]}))%string
    [] [] [] (Some (mkPolicy true (Some pilots) 24)) [] [] 0 0.

(** Every reading of the clock is a quarter of a day after the one before. *)
Definition clock (n : nat) : time := 63000000000 * Second + Z.of_nat n * (6 * Hour).
Definition new_id (n : nat) : string := ("id-" ++ pretty n)%string.
Definition rfc3339 (t : time) : string := Itoa (t / Second).
Definition config : RolloutConfig := mkConfig false 0.
Definition uuid_bytes (s : string) : list Z := map code (list_ascii_of_string s).

Definition go_ (o : rollout_op) (d : fdb) : fdb := run clock new_id rfc3339 config o d.
Definition start (id version : string) : fdb -> fdb := go_ (OpStart (mkAgentVersion id version)).
Definition reported (device build status : string) (d : fdb) : fdb :=
  set_f_statuses (mkItemStatus device ItemKindAgent build status "" 1 0 ::
    List.filter (fun s => negb (String.eqb (st_DeviceID s) device && String.eqb (st_ItemID s) build)) (f_statuses d)) d.
(** A day goes by. *)
Definition later (d : fdb) : fdb := set_f_readings (f_readings d + 4) d.

Definition offered (device : string) (d : fdb) : option (list string) :=
  match EffectiveItems uuid_bytes device (clock (f_readings d)) d with
  | Some l => Some (map ei_ID l)
  | None => None
  end.

Definition day1 : fdb := go_ OpAdvance (later (reported "d1" "v1" ItemSucceeded (start "v1" "1.0.0" fleet))).
Definition day2 : fdb := start "v2" "1.1.0" day1.

(** The pilot fails on [v2], and [v3] is imported. *)
Definition day3 : fdb := go_ OpAdvance (reported "d1" "v2" ItemFailed day2).
Definition day4 : fdb := start "v3" "1.2.0" day3.
(** [v3] passes and reaches every device; then an administrator resumes [v2],
    which its devices report to run. *)
Definition day5 : fdb := go_ OpAdvance (later (reported "d1" "v3" ItemSucceeded day4)).
Definition day6 : fdb := go_ (OpResume "id-3" "ops") (later (reported "d1" "v2" ItemSucceeded day5)).

Definition states (d : fdb) : list (string * string) := map (fun r => (ro_AgentVersionID r, ro_State r)) (f_rollouts d).
End Fleet.

(** One build each, while nothing halts. *)
Example fleet_offers_one_build :
  Fleet.offered "d1" Fleet.day1 = Some ["v1"] /\ Fleet.offered "d2" Fleet.day1 = Some ["v1"]
  /\ Fleet.offered "d1" Fleet.day2 = Some ["v2"] /\ Fleet.offered "d2" Fleet.day2 = Some ["v1"].
Proof. vm_compute. done. Qed.

(** A halted rollout keeps its pilot assignment and a newer one does not take
    it over: the pilot's devices are offered two builds, and still are when
    the newer one has reached everybody. *)
Example halted_rollout_leaves_two_builds :
  Fleet.states Fleet.day4 = [("v1", RolloutPromoted); ("v2", RolloutHalted); ("v3", RolloutPilot)]
  /\ Fleet.offered "d1" Fleet.day4 = Some ["v2"; "v3"]
  /\ Fleet.states Fleet.day5 = [("v1", RolloutSuperseded); ("v2", RolloutHalted); ("v3", RolloutPromoted)]
  /\ Fleet.offered "d1" Fleet.day5 = Some ["v2"; "v3"].
Proof. vm_compute. done. Qed.

(** Resuming the halted one moves the whole fleet back to an older build. *)
Example resumed_rollout_goes_backwards :
  Fleet.states Fleet.day6 = [("v1", RolloutSuperseded); ("v2", RolloutPromoted); ("v3", RolloutSuperseded)]
  /\ Fleet.offered "d2" Fleet.day5 = Some ["v3"] /\ Fleet.offered "d2" Fleet.day6 = Some ["v2"]
  /\ Newer "1.1.0" "1.2.0" = false.
Proof. vm_compute. done. Qed.

Lemma fleet_ok : rows_ok Fleet.fleet.
Proof. split; constructor. Qed.

(** A report and a day's wait touch no rollout. *)
Lemma waited device build status d :
  let d' := Fleet.later (Fleet.reported device build status d) in
  (rows_ok d -> rows_ok d') /\ phases d' ⊆ phases d.
Proof. split; [intros [Hn Hv]; by split | reflexivity]. Qed.

(** The history of [Fleet.day1]: imported, reported healthy, a day later promoted. *)
Lemma promotion_is_earned_witness :
  exists past, history Fleet.clock Fleet.new_id Fleet.rfc3339 Fleet.config past Fleet.day1
    /\ (exists id, phases Fleet.day1 !! id = Some RolloutPromoted
        /\ exists o d0, (o, d0) ∈ past /\ passed (guards_at Fleet.clock Fleet.config o d0) id)
    /\ one_promoted (phases Fleet.day1).
Proof.
  set (d1 := Fleet.start "v1" "1.0.0" Fleet.fleet).
  set (d2 := Fleet.later (Fleet.reported "d1" "v1" ItemSucceeded d1)).
  assert (H1 : history Fleet.clock Fleet.new_id Fleet.rfc3339 Fleet.config
                 [(OpStart (mkAgentVersion "v1" "1.0.0"), Fleet.fleet)] d1)
    by (apply history_run, history_start; [apply fleet_ok|done]).
  assert (H2 : history Fleet.clock Fleet.new_id Fleet.rfc3339 Fleet.config
                 [(OpStart (mkAgentVersion "v1" "1.0.0"), Fleet.fleet)] d2).
  { destruct (waited "d1" "v1" ItemSucceeded d1) as [Hok Hsub].
    apply (history_world _ _ _ _ _ d1); [exact H1|exact (Hok (history_ok _ _ _ _ _ _ H1))|exact Hsub]. }
  assert (H3 : history Fleet.clock Fleet.new_id Fleet.rfc3339 Fleet.config
                 [(OpAdvance, d2); (OpStart (mkAgentVersion "v1" "1.0.0"), Fleet.fleet)] Fleet.day1)
    by exact (history_run _ _ _ _ _ d2 OpAdvance H2).
  eexists. split; [exact H3|].
  destruct (promotion_is_earned _ _ _ _ _ _ H3) as (Hone & Hearn & _). split; [|done].
  assert (Hp : phases Fleet.day1 !! "id-0" = Some RolloutPromoted) by (by vm_compute).
  exists "id-0"%string. split; [done|]. exact (Hearn _ _ Hp (or_intror eq_refl)).
Defined.

Lemma rollouts_follow_their_machine_witness :
  rows_ok Fleet.day1
  /\ arrows (guards_at Fleet.clock Fleet.config (OpStart (mkAgentVersion "v2" "1.1.0")) Fleet.day1)
       (phases Fleet.day1) (phases Fleet.day2)
  /\ phases Fleet.day2 = {["id-0" := RolloutPromoted; "id-3" := RolloutPilot]}.
Proof.
  assert (Hd : rows_ok Fleet.day1) by (split; vm_compute; repeat constructor; [set_solver|eexists; done]).
  split; [done|]. split; [|by vm_compute].
  apply (rollouts_follow_their_machine Fleet.clock Fleet.new_id Fleet.rfc3339 Fleet.config
           (OpStart (mkAgentVersion "v2" "1.1.0")) Fleet.day1 Hd).
Defined.
