(* ===== verification/CommandStore.v ===== *)
(** * The command tables

    [internal/server/store/commands.go], [adminpasswords.go] and the command
    part of [retention.go]: each SQL statement as an operation on tables held
    as lists of rows. One tenant, whose rows the tables are;
    transactions run one after another; a database that answers. A timestamp is
    stored exactly. *)
From S2P Require Export Tx.
Open Scope go_scope.

(** ** Rows *)

Definition CommandQueued : string := "queued".
Definition CommandDelivered : string := "delivered".
Definition CommandRunning : string := "running".
Definition CommandSucceeded : string := "succeeded".
Definition CommandFailed : string := "failed".
Definition CommandTimedOut : string := "timed_out".
Definition CommandExpired : string := "expired".

(** A row of [commands]; [Hostname] is a join's and not a column. *)
Record Command := mkCommand {
  c_ID : string; c_DeviceID : string; c_Type : string; c_Payload : json; c_Status : string;
  c_CreatedBy : string; c_CreatedAt : time;
  c_DeliveredAt : option time; c_StartedAt : option time; c_CompletedAt : option time;
  c_ExpiresAt : time }.

Record CommandResult := mkCommandResult {
  r_CommandID : string; r_ExitCode : Z; r_Stdout : string; r_Stderr : string;
  r_StdoutTruncated : bool; r_StderrTruncated : bool; r_Error : string;
  r_StartedAt : time; r_FinishedAt : time }.

Definition AdminPasswordPending : string := "pending".
Definition AdminPasswordActive : string := "active".
Definition AdminPasswordSuperseded : string := "superseded".
Definition AdminPasswordAbandoned : string := "abandoned".

Record AdminPassword := mkAdminPassword {
  p_ID : string; p_DeviceID : string; p_Account : string; p_Ciphertext : string; p_Nonce : string;
  p_State : string; p_CommandID : string; p_CreatedAt : time; p_ActivatedAt : option time }.

(** The columns of [devices] these components read. *)
Record Device := mkDevice { d_Hostname : string; d_Status : string }.

Definition DeviceActive : string := "active".

Record db := mkDB {
  t_devices : gmap string Device;
  t_commands : list Command;
  t_results : list CommandResult;
  t_passwords : list AdminPassword;
  t_audit : list AuditEntry;
  t_wakes : list string }.

Definition with_commands (l : list Command) (d : db) : db :=
  mkDB (t_devices d) l (t_results d) (t_passwords d) (t_audit d) (t_wakes d).
Definition with_results (l : list CommandResult) (d : db) : db :=
  mkDB (t_devices d) (t_commands d) l (t_passwords d) (t_audit d) (t_wakes d).
Definition with_passwords (l : list AdminPassword) (d : db) : db :=
  mkDB (t_devices d) (t_commands d) (t_results d) l (t_audit d) (t_wakes d).

Abbreviation tx := (txn db).

(** ** [store/commands.go] *)

Definition has_status (l : list string) (c : Command) : bool :=
  existsb (String.eqb (c_Status c)) l.

Definition HasQueuedCommand (deviceID : string) (d : db) : bool :=
  existsb (fun c => String.eqb (c_DeviceID c) deviceID && has_status [CommandQueued] c) (t_commands d).

Definition Wake (key : string) : tx store_error unit :=
  fun d => (Ok tt, mkDB (t_devices d) (t_commands d) (t_results d) (t_passwords d) (t_audit d)
                        (t_wakes d ++ [key])).

(** The insert names no lifecycle column but the status; the id is the primary
    key, the device a foreign key. *)
Definition CreateCommand (c : Command) : tx store_error unit :=
  fun d =>
    if existsb (fun c' => String.eqb (c_ID c') (c_ID c)) (t_commands d) then (Err ErrDuplicate, d)
    else match t_devices d !! c_DeviceID c with
         | None => (Err ErrForeignKey, d)
         | Some _ =>
             let row := mkCommand (c_ID c) (c_DeviceID c) (c_Type c) (c_Payload c) (c_Status c)
                          (c_CreatedBy c) (c_CreatedAt c) None None None (c_ExpiresAt c) in
             Wake ("device:" ++ c_DeviceID c) (with_commands (t_commands d ++ [row]) d)
         end.

Definition GetCommand (id : string) : tx store_error Command :=
  fun d => match find (fun c => String.eqb (c_ID c) id) (t_commands d) with
           | Some c => (Ok c, d)
           | None => (Err ErrNotFound, d)
           end.

Definition expired_at (now : time) (c : Command) : bool :=
  has_status [CommandQueued; CommandDelivered] c && (c_ExpiresAt c <=? now)%Z.

Definition set_status (status : string) (c : Command) : Command :=
  mkCommand (c_ID c) (c_DeviceID c) (c_Type c) (c_Payload c) status (c_CreatedBy c) (c_CreatedAt c)
    (c_DeliveredAt c) (c_StartedAt c) (c_CompletedAt c) (c_ExpiresAt c).
Definition set_delivered_at (at_ : time) (c : Command) : Command :=
  mkCommand (c_ID c) (c_DeviceID c) (c_Type c) (c_Payload c) (c_Status c) (c_CreatedBy c) (c_CreatedAt c)
    (Some at_) (c_StartedAt c) (c_CompletedAt c) (c_ExpiresAt c).
Definition set_started_at (at_ : time) (c : Command) : Command :=
  mkCommand (c_ID c) (c_DeviceID c) (c_Type c) (c_Payload c) (c_Status c) (c_CreatedBy c) (c_CreatedAt c)
    (c_DeliveredAt c) (Some at_) (c_CompletedAt c) (c_ExpiresAt c).
Definition set_completed_at (at_ : time) (c : Command) : Command :=
  mkCommand (c_ID c) (c_DeviceID c) (c_Type c) (c_Payload c) (c_Status c) (c_CreatedBy c) (c_CreatedAt c)
    (c_DeliveredAt c) (c_StartedAt c) (Some at_) (c_ExpiresAt c).

Definition ExpireCommands (now : time) : tx store_error Z :=
  fun d => (Ok (count_where (expired_at now) (t_commands d)),
            with_commands (update_where (expired_at now)
              (fun c => set_completed_at now (set_status CommandExpired c)) (t_commands d)) d).

(** [ORDER BY created_at, id], ids compared as their text is. *)
Definition older (a b : Command) : bool :=
  (c_CreatedAt a <? c_CreatedAt b)%Z
  || ((c_CreatedAt a =? c_CreatedAt b)%Z && String.leb (c_ID a) (c_ID b)).

Definition owed (c : Command) : bool := has_status [CommandQueued; CommandDelivered; CommandRunning] c.

Definition PendingCommands (deviceID : string) : tx store_error (list Command) :=
  fun d => (Ok (order_by older
    (List.filter (fun c => String.eqb (c_DeviceID c) deviceID && owed c) (t_commands d))), d).

Definition MarkCommandsDelivered (ids : list string) (at_ : time) : tx store_error unit :=
  fun d => match ids with
  | [] => (Ok tt, d)
  | _ => (Ok tt, with_commands (update_where
           (fun c => existsb (String.eqb (c_ID c)) ids && has_status [CommandQueued] c)
           (fun c => set_delivered_at at_ (set_status CommandDelivered c)) (t_commands d)) d)
  end.

Definition named (id deviceID : string) (c : Command) : bool :=
  String.eqb (c_ID c) id && String.eqb (c_DeviceID c) deviceID.

Definition MarkCommandRunning (id deviceID : string) (at_ : time) : tx store_error bool :=
  fun d =>
    let p c := named id deviceID c && has_status [CommandQueued; CommandDelivered] c in
    (Ok (0 <? count_where p (t_commands d))%Z,
     with_commands (update_where p (fun c => set_started_at at_ (set_status CommandRunning c)) (t_commands d)) d).

Definition CompleteCommand (id deviceID status : string) (at_ : time) : tx store_error bool :=
  fun d =>
    let p c := named id deviceID c && owed c in
    (Ok (0 <? count_where p (t_commands d))%Z,
     with_commands (update_where p (fun c => set_completed_at at_ (set_status status c)) (t_commands d)) d).

Definition InsertCommandResult (r : CommandResult) : tx store_error unit :=
  fun d =>
    if existsb (fun r' => String.eqb (r_CommandID r') (r_CommandID r)) (t_results d) then (Err ErrDuplicate, d)
    else if existsb (fun c => String.eqb (c_ID c) (r_CommandID r)) (t_commands d)
         then (Ok tt, with_results (t_results d ++ [r]) d)
         else (Err ErrForeignKey, d).

Definition GetCommandResult (id : string) : tx store_error CommandResult :=
  fun d => match find (fun r => String.eqb (r_CommandID r) id) (t_results d) with
           | Some r => (Ok r, d)
           | None => (Err ErrNotFound, d)
           end.

Definition ListCommands (deviceID : string) (limit : nat) : tx store_error (list Command) :=
  fun d => (Ok (take limit (order_by (fun a b => older b a)
    (List.filter (fun c => String.eqb (c_DeviceID c) deviceID) (t_commands d)))), d).

Definition InsertAudit {E} (a : AuditEntry) : tx E unit :=
  fun d => (Ok tt, mkDB (t_devices d) (t_commands d) (t_results d) (t_passwords d) (t_audit d ++ [a]) (t_wakes d)).

Definition GetDevice (id : string) : tx store_error Device :=
  fun d => match t_devices d !! id with
           | Some x => (Ok x, d)
           | None => (Err ErrNotFound, d)
           end.

(** ** [store/retention.go] *)

Definition finished_before (cutoff : time) (c : Command) : bool :=
  match c_CompletedAt c with
  | Some t => (t <? cutoff)%Z && has_status [CommandSucceeded; CommandFailed; CommandTimedOut; CommandExpired] c
  | None => false
  end.

(** A [LIMIT] without an order lets the database pick the rows: [batch] says
    which ids it picked, among those that match. *)
Definition DeleteFinishedCommandsBefore (cutoff : time) (limit : nat) (batch : list string) : tx store_error Z :=
  fun d =>
    let picked c := finished_before cutoff c && existsb (String.eqb (c_ID c)) (take limit batch) in
    let gone id := existsb (fun c => picked c && String.eqb (c_ID c) id) (t_commands d) in
    (Ok (count_where picked (t_commands d)),
     with_results (List.filter (fun r => negb (gone (r_CommandID r))) (t_results d))
       (with_commands (List.filter (fun c => negb (picked c)) (t_commands d)) d)).

(** ** [store/adminpasswords.go] *)

(** [INSERT ... ON CONFLICT (command_id) DO UPDATE ... WHERE]: a row that is no
    longer pending is left alone. *)
Definition UpsertPendingAdminPassword (p : AdminPassword) : tx store_error unit :=
  fun d =>
    if existsb (fun q => String.eqb (p_CommandID q) (p_CommandID p)) (t_passwords d) then
      (Ok tt, with_passwords (update_where
        (fun q => String.eqb (p_CommandID q) (p_CommandID p) && String.eqb (p_State q) AdminPasswordPending
                  && String.eqb (p_DeviceID q) (p_DeviceID p))
        (fun q => mkAdminPassword (p_ID q) (p_DeviceID q) (p_Account p) (p_Ciphertext p) (p_Nonce p)
                    (p_State q) (p_CommandID q) (p_CreatedAt p) (p_ActivatedAt q)) (t_passwords d)) d)
    else if existsb (fun q => String.eqb (p_ID q) (p_ID p)) (t_passwords d) then (Err ErrDuplicate, d)
    else match t_devices d !! p_DeviceID p with
         | None => (Err ErrForeignKey, d)
         | Some _ =>
             (Ok tt, with_passwords (t_passwords d ++
               [mkAdminPassword (p_ID p) (p_DeviceID p) (p_Account p) (p_Ciphertext p) (p_Nonce p)
                  AdminPasswordPending (p_CommandID p) (p_CreatedAt p) None]) d)
         end.

Definition set_password_state (state : string) (activated : option time) (p : AdminPassword) : AdminPassword :=
  mkAdminPassword (p_ID p) (p_DeviceID p) (p_Account p) (p_Ciphertext p) (p_Nonce p) state
    (p_CommandID p) (p_CreatedAt p) activated.

Definition pending_for (commandID : string) (p : AdminPassword) : bool :=
  String.eqb (p_CommandID p) commandID && String.eqb (p_State p) AdminPasswordPending.

(** An active row of the same device and account as one being settled. *)
Definition superseded_by (settled : list AdminPassword) (p : AdminPassword) : bool :=
  String.eqb (p_State p) AdminPasswordActive &&
  existsb (fun s => String.eqb (p_DeviceID p) (p_DeviceID s) && EqualFold (p_Account p) (p_Account s)
                    && negb (String.eqb (p_ID p) (p_ID s))) settled.

(** Both updates of the success branch read the rows as they were before. *)
Definition SettleAdminPassword (commandID : string) (succeeded : bool) (at_ : time) : tx store_error unit :=
  fun d =>
    if negb succeeded then
      (Ok tt, with_passwords (update_where (pending_for commandID)
        (fun p => set_password_state AdminPasswordAbandoned (p_ActivatedAt p) p) (t_passwords d)) d)
    else
      let settled := List.filter (pending_for commandID) (t_passwords d) in
      (Ok tt, with_passwords (map (fun p =>
        if pending_for commandID p then set_password_state AdminPasswordActive (Some at_) p
        else if superseded_by settled p then set_password_state AdminPasswordSuperseded (p_ActivatedAt p) p
        else p) (t_passwords d)) d).

(** With the hostname of the device the row is joined to. *)
Definition GetAdminPassword (id : string) : tx store_error (AdminPassword * string) :=
  fun d => match find (fun p => String.eqb (p_ID p) id) (t_passwords d) with
           | None => (Err ErrNotFound, d)
           | Some p => match t_devices d !! p_DeviceID p with
                       | None => (Err ErrNotFound, d)
                       | Some dev => (Ok (p, d_Hostname dev), d)
                       end
           end.

(** A device's newest first, without the secrets, at most fifty. *)
Definition ListAdminPasswords (deviceID : string) : tx store_error (list AdminPassword) :=
  fun d => (Ok (map (fun p => mkAdminPassword (p_ID p) (p_DeviceID p) (p_Account p) "" "" (p_State p)
                                (p_CommandID p) (p_CreatedAt p) (p_ActivatedAt p))
    (take 50 (order_by (fun a b => (p_CreatedAt b <=? p_CreatedAt a)%Z)
      (List.filter (fun p => String.eqb (p_DeviceID p) deviceID
                             && bool_decide (is_Some (t_devices d !! p_DeviceID p))) (t_passwords d))))), d).

(** ** Lemmas *)

Lemma has_status_spec l (c : Command) : has_status l c = true <-> c_Status c ∈ l.
Proof. apply existsb_eq_elem. Qed.

Lemma older_total (a b : Command) : older a b = false -> older b a = true.
Proof.
  unfold older. intros [H1 H2]%orb_false_iff. apply orb_true_iff. apply andb_false_iff in H2.
  destruct (Z.eqb_spec (c_CreatedAt a) (c_CreatedAt b)) as [He|].
  - right. rewrite He, Z.eqb_refl. destruct H2 as [|H2]; [done|].
    destruct (String.leb_total (c_ID a) (c_ID b)) as [|H3]; [congruence|]. by rewrite H3.
  - left. lia.
Qed.

(** *** Rows by id *)

Definition ids (d : db) : list string := map c_ID (t_commands d).

Lemma find_by_id l c :
  NoDup (map c_ID l) -> c ∈ l -> find (fun c' => String.eqb (c_ID c') (c_ID c)) l = Some c.
Proof.
  intros Hn Hc. induction l as [|x l IH]; [by apply elem_of_nil in Hc|].
  simpl in *. inversion Hn as [|? ? Hx Hn']; subst.
  apply elem_of_cons in Hc as [->|Hc]; [by rewrite String.eqb_refl|].
  destruct (String.eqb_spec (c_ID x) (c_ID c)) as [He|]; [|by apply IH].
  exfalso. apply Hx. rewrite He. apply list_elem_of_fmap. eauto.
Qed.

Lemma same_id_same_row l c c' : NoDup (map c_ID l) -> c ∈ l -> c' ∈ l -> c_ID c = c_ID c' -> c = c'.
Proof.
  intros Hn Hc Hc' He. pose proof (find_by_id l c Hn Hc) as H. rewrite He, (find_by_id l c') in H by done.
  congruence.
Qed.

Lemma GetCommand_Ok id d c d' :
  GetCommand id d = (Ok c, d') -> d' = d /\ c ∈ t_commands d /\ c_ID c = id.
Proof.
  unfold GetCommand. destruct (find _ _) as [x|] eqn:E; [|done]. intros [= -> <-].
  apply find_some in E as [E ->%String.eqb_eq]. split; [done|]. split; [by apply list_elem_of_In | done].
Qed.

Lemma GetCommand_row d c :
  NoDup (ids d) -> c ∈ t_commands d -> GetCommand (c_ID c) d = (Ok c, d).
Proof. intros Hn Hc. unfold GetCommand. by rewrite find_by_id. Qed.

Lemma GetCommand_Err id d e d' :
  GetCommand id d = (Err e, d') -> d' = d /\ forall c, c ∈ t_commands d -> c_ID c <> id.
Proof.
  unfold GetCommand. destruct (find _ _) as [x|] eqn:E; [done|]. intros [= _ <-]. split; [done|].
  intros c Hc%list_elem_of_In He. pose proof (find_none _ _ E c Hc) as Hf. simpl in Hf.
  by rewrite He, String.eqb_refl in Hf.
Qed.
