(* ===== verification/Commands.v ===== *)
(** * The command queue

    [internal/server/commands/service.go]: queueing an order for a device,
    handing it over, and recording how it ended. An id is its canonical text; [new_id] is what [uuid.NewV7] gave, if it gave one. *)
From S2P Require Export CommandStore Payload Utf8.
From S2P Require Export Secrets.
Open Scope go_scope.

Inductive cmd_error : Type :=
| BadRequest (why : bad_request)
| Undecodable (e : json_error)
| NotFound
| DeviceNotActive (hostname status : string)
| Conflict (typ status : string)
| NoKey
| SealFailed
| NoID
| DryRun
| Database (e : store_error).

Definition DefaultTTL : duration := 7 * 24 * Hour.
Definition WipeTTL : duration := 24 * Hour.
Definition maxWipeReason : Z := 500.

(** What an agent posts when a command ends. *)
Record Report := mkReport {
  rp_Status : string; rp_ExitCode : Z; rp_Stdout : string; rp_Stderr : string;
  rp_StdoutTruncated : bool; rp_StderrTruncated : bool; rp_Error : string;
  rp_StartedAt : time; rp_FinishedAt : time }.

(** What an agent is handed. *)
Record Order := mkOrder { o_ID : string; o_Type : string; o_Payload : json }.

Record QueueOptions := mkQueueOptions {
  q_DeviceID : string; q_Type : string; q_Payload : raw_payload; q_CreatedBy : string;
  q_TTL : duration; q_ConfirmHostname : string; q_Reason : string }.

(** The fields of [Service] that do not change. *)
Record Service := mkService {
  s_OperationsKeys : list PublicKey;
  s_OnComplete : option (Command -> string -> time -> tx cmd_error unit) }.

Section Commands.
Context `{CR : Crypto, JT : JsonTime}.

(** ** Queueing *)

(** How long a signed order has left to run; zero when the type is not signed. *)
Definition checkSignature (s : Service) (typ deviceID : string) (payload : json) (now : time)
    : result cmd_error duration :=
  if String.eqb typ CommandRunPowerShell then
    match decode_struct false run_powershell_fields payload zero_run_powershell with
    | Err e => Err (Undecodable e)
    | Ok p =>
        match VerifyOp (s_OperationsKeys s) (ScriptManifest (rp_Script p) "") (rp_Signature p) with
        | Err e => Err (BadRequest (SignatureRefused e))
        | Ok _ => Ok 0
        end
    end
  else if String.eqb typ CommandWipe then
    match decode_struct false wipe_fields payload zero_wipe with
    | Err e => Err (Undecodable e)
    | Ok p =>
        match wp_Expires p with
        | None => Err (BadRequest NeedsSignedOrder)
        | Some expires =>
            check! ensure (negb (After expires (Prelude.Add now MaxWipeValidity))) (BadRequest OrderTooLong);
            match VerifyWipe (s_OperationsKeys s) deviceID (wp_Protected p) expires now (wp_Signature p) with
            | Err e => Err (BadRequest (SignatureRefused e))
            | Ok _ => Ok (Sub expires now)
            end
        end
    end
  else Ok 0.

Definition is_wipe (o : QueueOptions) : bool := String.eqb (q_Type o) CommandWipe.

(** The part of [queue] before the transaction: the payload and how long the
    order is to wait. *)
Definition queue_checks (s : Service) (o : QueueOptions) (now : time) : result cmd_error (json * duration) :=
  match normalizePayload (q_Type o) (q_Payload o) with
  | Err e => Err (BadRequest e)
  | Ok payload =>
      let ttl := if q_TTL o <=? 0 then DefaultTTL else q_TTL o in
      let reason := TrimSpace (q_Reason o) in
      let! ttl :=
        (if is_wipe o then
           check! ensure (negb (String.eqb reason "")) (BadRequest NeedsReason);
           check! ensure (negb (slen reason >? maxWipeReason)) (BadRequest ReasonTooLong);
           Ok (if ttl >? WipeTTL then WipeTTL else ttl)
         else Ok ttl) in
      match s_OperationsKeys s with
      | [] => Ok (payload, ttl)
      | _ =>
          let! signedTTL := checkSignature s (q_Type o) (q_DeviceID o) payload now in
          Ok (payload, if (0 <? signedTTL) && (signedTTL <? ttl) then signedTTL else ttl)
      end
  end.

(** [details["protected"]]: the canonical payload, decoded again. *)
Definition wipe_protected (payload : json) : bool :=
  match decode_struct false wipe_fields payload zero_wipe with
  | Ok p => wp_Protected p
  | Err _ => false
  end.

Definition queued_audit (o : QueueOptions) (c : Command) (hostname : string) : AuditEntry :=
  let details := [("device_id", JStr (q_DeviceID o)); ("type", JStr (q_Type o))]%string in
  if is_wipe o then
    mkAudit (q_CreatedBy o) "command.wipe_queued" "command" (c_ID c)
      (details ++ [("hostname", JStr hostname); ("reason", JStr (TrimSpace (q_Reason o)));
                   ("protected", JBool (wipe_protected (c_Payload c)))]%string)
  else mkAudit (q_CreatedBy o) "command.queued" "command" (c_ID c) details.

Definition queue (s : Service) (new_id : option string) (now : time) (o : QueueOptions) (dry : bool)
    : tx cmd_error Command :=
  match queue_checks s o now with
  | Err e => tfail e
  | Ok (payload, ttl) =>
      match new_id with
      | None => tfail NoID
      | Some id =>
          let c := mkCommand id (q_DeviceID o) (q_Type o) payload CommandQueued (q_CreatedBy o) now
                     None None None (Prelude.Add now ttl) in
          InTx (
            let* d := tmap_err (fun _ => NotFound) (GetDevice (q_DeviceID o)) in
            do* tensure (String.eqb (d_Status d) DeviceActive) (DeviceNotActive (d_Hostname d) (d_Status d));
            do* tensure (negb (is_wipe o && negb (EqualFold (TrimSpace (q_ConfirmHostname o)) (d_Hostname d))))
                        (BadRequest (WrongHostname (d_Hostname d)));
            do* tensure (negb dry) DryRun;
            do* tmap_err Database (CreateCommand c);
            do* InsertAudit (queued_audit o c (d_Hostname d));
            tret c)
      end
  end.

Definition Queue (s : Service) (new_id : option string) (now : time) (o : QueueOptions) : tx cmd_error Command :=
  queue s new_id now o false.

Definition Check_ (s : Service) (new_id : option string) (now : time) (o : QueueOptions) : tx cmd_error unit :=
  fun d => match queue s new_id now o true d with
           | (Ok _, d') => (Ok tt, d')
           | (Err DryRun, d') => (Ok tt, d')
           | (Err e, d') => (Err e, d')
           end.

(** ** Handing over *)

Definition order_of (c : Command) : Order := mkOrder (c_ID c) (c_Type c) (c_Payload c).

Definition Deliver (now : time) (deviceID : string) : tx cmd_error (list Order) :=
  InTx (
    do* tmap_err Database (ExpireCommands now);
    let* pending := tmap_err Database (PendingCommands deviceID) in
    let fresh := map c_ID (List.filter (has_status [CommandQueued]) pending) in
    do* tmap_err Database (MarkCommandsDelivered fresh now);
    tret (map order_of pending)).

(** The check [Start] and [Complete] make when no row moved: the command must
    be the device's own. *)
Definition own_command (deviceID commandID : string) : tx cmd_error unit :=
  let* c := tmap_err (fun _ => NotFound) (GetCommand commandID) in
  tensure (String.eqb (c_DeviceID c) deviceID) NotFound.

Definition Start (now : time) (deviceID commandID : string) : tx cmd_error unit :=
  InTx (
    let* ok := tmap_err Database (MarkCommandRunning commandID deviceID now) in
    if ok : bool then tret tt else own_command deviceID commandID).

(** ** Recording the end *)

Definition NUL : ascii := "000".

Definition clampOutput (s : string) (truncated : bool) : string * bool :=
  let s := ReplaceAll s (String NUL EmptyString) EmptyString in
  let (s, truncated) := if slen s >? MaxOutputBytes then (take_str (Z.to_nat MaxOutputBytes) s, true)
                        else (s, truncated) in
  (ToValidUTF8 s RuneError, truncated).

Definition result_of (commandID : string) (r : Report) : CommandResult :=
  let (stdout, stdoutTruncated) := clampOutput (rp_Stdout r) (rp_StdoutTruncated r) in
  let (stderr, stderrTruncated) := clampOutput (rp_Stderr r) (rp_StderrTruncated r) in
  mkCommandResult commandID (rp_ExitCode r) stdout stderr stdoutTruncated stderrTruncated
    (fst (clampOutput (rp_Error r) false)) (rp_StartedAt r) (rp_FinishedAt r).

Definition reportable (status : string) : bool :=
  String.eqb status ResultSucceeded || String.eqb status ResultFailed || String.eqb status ResultTimedOut.

Definition Complete (s : Service) (now : time) (deviceID commandID : string) (r : Report) : tx cmd_error unit :=
  if negb (reportable (rp_Status r)) then tfail (BadRequest (UnsupportedResult (rp_Status r))) else
  InTx (
    let* ok := tmap_err Database (CompleteCommand commandID deviceID (rp_Status r) now) in
    if negb ok then own_command deviceID commandID else
    do* tmap_err Database (InsertCommandResult (result_of commandID r));
    match s_OnComplete s with
    | None => tret tt
    | Some hook =>
        let* c := tmap_err Database (GetCommand commandID) in
        hook c (rp_Status r) now
    end).

Definition Get (commandID : string) : tx cmd_error (Command * option CommandResult) :=
  let* c := tmap_err (fun _ => NotFound) (GetCommand commandID) in
  fun d => match GetCommandResult commandID d with
           | (Ok r, d') => (Ok (c, Some r), d')
           | (Err _, d') => (Ok (c, None), d')
           end.

End Commands.

(** ** Clamped output *)

Fixpoint drop_byte (c : ascii) (s : string) : string :=
  match s with
  | EmptyString => EmptyString
  | String b r => if Ascii.eqb c b then drop_byte c r else String b (drop_byte c r)
  end.

Lemma ReplaceAll_drop_byte c s : ReplaceAll s (String c EmptyString) EmptyString = drop_byte c s.
Proof.
  unfold ReplaceAll.
  assert (forall n s, (String.length s <= n)%nat ->
    ReplaceAll_fuel n (String c EmptyString) EmptyString s = drop_byte c s) as H; [|by apply H].
  clear s. induction n as [|n IH]; intros [|b s] Hn; simpl in *; try done; try lia.
  destruct (Ascii.eqb c b); simpl; rewrite IH, ?sapp_nil_l by lia; done.
Qed.

Lemma drop_byte_none c s : sall (fun b => negb (Ascii.eqb c b)) (drop_byte c s) = true.
Proof. induction s as [|b s IH]; simpl; [done|]. destruct (Ascii.eqb c b) eqn:E; [done|]. simpl. by rewrite E. Qed.

Lemma drop_byte_app c a b : drop_byte c (a ++ b)%string = (drop_byte c a ++ drop_byte c b)%string.
Proof.
  induction a as [|x a IH]; [done|]. rewrite String_app. simpl. rewrite IH.
  by destruct (Ascii.eqb c x).
Qed.

Lemma drop_byte_id c s : sall (fun b => negb (Ascii.eqb c b)) s = true -> drop_byte c s = s.
Proof.
  induction s as [|b s IH]; simpl; [done|]. intros [H1%negb_true_iff H2]%andb_true_iff.
  rewrite H1. by rewrite IH.
Qed.

(** A rune other than U+0000 has no zero byte. *)
Lemma rune_no_nul s w :
  rune_width s = Some w ->
  take_str w s = String NUL EmptyString \/
  sall (fun b => negb (Ascii.eqb NUL b)) (take_str w s) = true.
Proof.
  intros Hw. destruct (decide (take_str w s = String NUL EmptyString)) as [|Hne]; [by left|]. right.
  assert (forall k c, (1 <= k < w)%nat -> String.get k s = Some c -> Ascii.eqb NUL c = false) as Hc.
  { intros k c Hk Hg. pose proof (rune_width_cont s w k Hw Hk) as H. unfold cont, byte_in in H.
    rewrite Hg in H. apply andb_true_iff in H as [H _]. apply Z.leb_le in H.
    destruct (Ascii.eqb_spec NUL c) as [<-|]; [|done]. by vm_compute in H. }
  destruct s as [|c r]; [done|]. destruct w as [|w]; [done|]. cbn [take_str sall].
  apply andb_true_iff. split.
  - destruct (Ascii.eqb_spec NUL c) as [<-|]; [|done]. exfalso. apply Hne.
    assert (w = 0%nat) as -> by (vm_compute in Hw; congruence). by destruct r.
  - assert (forall k c', (k < w)%nat -> String.get k r = Some c' -> Ascii.eqb NUL c' = false) as Hr.
    { intros k c' Hk Hg. apply (Hc (S k)); [lia|done]. }
    clear -Hr. revert w Hr; induction r as [|b r IH]; intros [|w] Hr; cbn [take_str sall]; try done.
    rewrite (Hr 0%nat b) by (simpl; auto with lia). cbn [negb andb]. apply IH.
    intros k c' Hk. apply (Hr (S k)). lia.
Qed.

Lemma drop_nul_valid s : valid_utf8 s -> valid_utf8 (drop_byte NUL s).
Proof.
  induction 1 as [|s w Hw _ IH]; [apply valid_nil|].
  rewrite <- (take_drop_str w s), drop_byte_app.
  destruct (rune_no_nul s w Hw) as [->|H]; [done|].
  rewrite drop_byte_id by done. by apply valid_utf8_cons.
Qed.

Fixpoint srepeat (n : nat) (c : ascii) : string :=
  match n with O => EmptyString | S n => String c (srepeat n c) end.

Lemma slen_srepeat n c : slen (srepeat n c) = Z.of_nat n.
Proof. induction n as [|n IH]; [done|]. simpl srepeat. rewrite slen_String, IH. lia. Qed.

Lemma srepeat_valid n t : valid_utf8 t -> valid_utf8 (srepeat n "a" ++ t)%string.
Proof. induction n as [|n IH]; [done|]. intros H%IH. by apply (valid_utf8_cons "a"%string 1). Qed.

Lemma srepeat_no_nul n : sall (fun b => negb (Ascii.eqb NUL b)) (srepeat n "a") = true.
Proof. by induction n. Qed.

Lemma take_srepeat n t : take_str (S n) (srepeat n "a" ++ t)%string = (srepeat n "a" ++ take_str 1 t)%string.
Proof. induction n as [|n IH]; [done|]. simpl srepeat. rewrite !String_app, <- IH. done. Qed.

Lemma ToValidUTF8_srepeat n fuel t :
  ToValidUTF8_fuel (n + fuel) false RuneError (srepeat n "a" ++ t)%string
  = (srepeat n "a" ++ ToValidUTF8_fuel fuel false RuneError t)%string.
Proof. induction n as [|n IH]; [done|]. simpl srepeat. by rewrite !String_app, <- IH. Qed.

(** Text whose clamping is longer than the cap: the cap falls inside its last rune. *)
Definition overlong_of (n : nat) : string := (srepeat n "a" ++ bytes [195; 169])%string.
Definition overlong : string := overlong_of (Z.to_nat (MaxOutputBytes - 1)).

Lemma overlong_valid n : valid_utf8 (overlong_of n).
Proof. apply srepeat_valid. apply (valid_rune (bytes [195; 169]) 2 eq_refl). apply valid_nil. Qed.

Lemma overlong_of_clamped n :
  Z.to_nat MaxOutputBytes = S n -> slen (fst (clampOutput (overlong_of n) false)) = MaxOutputBytes + 2.
Proof.
  intros Hn. assert (Z.of_nat (S n) = MaxOutputBytes) as Hm by (unfold MaxOutputBytes in *; lia).
  unfold clampOutput, overlong_of. rewrite ReplaceAll_drop_byte, drop_byte_app, (drop_byte_id _ _ (srepeat_no_nul _)).
  change (drop_byte NUL (bytes [195; 169])) with (bytes [195; 169]).
  rewrite slen_app, slen_srepeat. change (slen (bytes [195; 169])) with 2.
  destruct (Z.gtb_spec (Z.of_nat n + 2) MaxOutputBytes); [|lia]. cbn [fst].
  rewrite Hn, take_srepeat. unfold ToValidUTF8. rewrite length_sapp.
  change (String.length (take_str 1 (bytes [195; 169]))) with 1%nat.
  assert (String.length (srepeat n "a") = n) as -> by (pose proof (slen_srepeat n "a"); unfold slen in *; lia).
  rewrite ToValidUTF8_srepeat, slen_app, slen_srepeat.
  change (slen (ToValidUTF8_fuel 1 false RuneError (take_str 1 (bytes [195; 169])))) with 3. lia.
Qed.

Lemma overlong_clamped : slen (fst (clampOutput overlong false)) = MaxOutputBytes + 2.
Proof.
  apply overlong_of_clamped. unfold MaxOutputBytes. rewrite <- Z2Nat.inj_succ by lia. f_equal.
Qed.

Lemma clamp_spec s truncated :
  let '(out, truncated') := clampOutput s truncated in
  valid_utf8 out /\
  sall (fun b => negb (Ascii.eqb NUL b)) out = true /\
  truncated' = truncated || (slen (drop_byte NUL s) >? MaxOutputBytes) /\
  (valid_utf8 s -> sall (fun b => negb (Ascii.eqb NUL b)) s = true -> slen s <= MaxOutputBytes -> out = s) /\
  (valid_utf8 s -> slen out <= MaxOutputBytes + 2) /\
  slen out <= 2 * MaxOutputBytes + 1.
Proof.
  unfold clampOutput. rewrite ReplaceAll_drop_byte.
  pose proof (drop_byte_none NUL s) as Hn. set (u := drop_byte NUL s) in *.
  assert (0 < MaxOutputBytes) by done. generalize dependent MaxOutputBytes. intros M HM.
  destruct (Z.gtb_spec (slen u) M) as [Hlong|Hshort].
  - assert (slen (take_str (Z.to_nat M) u) = M) as Hl.
    { unfold slen in *. rewrite length_take_str. lia. }
    split; [apply ToValidUTF8_valid|].
    split; [apply ToValidUTF8_fuel_sall; [done | by apply sall_take_str]|].
    split; [by rewrite orb_true_r|]. split; [|split].
    + intros _ Hs Hle. unfold u in Hlong. rewrite drop_byte_id in Hlong by done. lia.
    + intros Hv. apply drop_nul_valid in Hv. fold u in Hv. unfold slen, ToValidUTF8.
      pose proof (ToValidUTF8_cut (String.length (take_str (Z.to_nat M) u)) _ (Z.to_nat M) Hv). lia.
    + pose proof (ToValidUTF8_length (take_str (Z.to_nat M) u)). lia.
  - split; [apply ToValidUTF8_valid|]. split; [by apply ToValidUTF8_fuel_sall|].
    split; [by rewrite orb_false_r|]. split; [|split].
    + intros Hv Hs _. unfold u. rewrite drop_byte_id by done. by apply ToValidUTF8_id.
    + intros Hv. apply drop_nul_valid in Hv. fold u in Hv. rewrite ToValidUTF8_id by done. lia.
    + pose proof (ToValidUTF8_length u). lia.
Qed.

(** What is stored of a device's output is valid UTF-8 without a zero byte;
    an output already so and within the cap is stored as it is, and the
    truncation flag says when the cap cut it. The cap bounds what is kept of
    the input, not the result: mending a rune the cap cut through can add two
    bytes, and no more when the input is UTF-8. *)
Theorem clamped_output_is_storable s truncated :
  let '(out, truncated') := clampOutput s truncated in
  valid_utf8 out /\
  sall (fun b => negb (Ascii.eqb NUL b)) out = true /\
  truncated' = truncated || (slen (drop_byte NUL s) >? MaxOutputBytes) /\
  (valid_utf8 s -> sall (fun b => negb (Ascii.eqb NUL b)) s = true -> slen s <= MaxOutputBytes -> out = s) /\
  (valid_utf8 s -> slen out <= MaxOutputBytes + 2) /\
  slen out <= 2 * MaxOutputBytes + 1 /\
  (exists t, valid_utf8 t /\ slen (fst (clampOutput t false)) = MaxOutputBytes + 2).
Proof.
  pose proof (clamp_spec s truncated) as H. destruct (clampOutput s truncated) as [out truncated'].
  destruct H as (H1 & H2 & H3 & H4 & H5 & H6). split; [done|]. split; [done|]. split; [done|].
  split; [done|]. split; [done|]. split; [done|].
  exists overlong. split; [apply overlong_valid | apply overlong_clamped].
Qed.

(** ** Escrowed administrator passwords

    [internal/server/laps/service.go]: a device escrows the password it is
    about to set for a running [rotate_local_admin_password] command; the
    command's end settles it; an administrator may have it back on the record.
    [google/uuid]'s parser is an argument. *)

Definition maxReason : Z := 500.

Record EscrowRequest := mkEscrow { e_CommandID : string; e_Account : string; e_Password : string }.

Definition SealContext (deviceID account : string) : string :=
  ("admin-password:" ++ deviceID ++ "/" ++ ToUpper account)%string.

Definition escrow_audit (deviceID account commandID : string) : AuditEntry :=
  mkAudit ("device:" ++ deviceID) "local_admin_password.escrowed" "device" deviceID
    [("account", JStr account); ("command_id", JStr commandID)]%string.

Section Laps.
Variable parse_uuid : string -> option string.

Definition Escrow (key : option Key) (new_id rand : string) (now : time) (deviceID : string)
    (req : EscrowRequest) : tx cmd_error unit :=
  match parse_uuid (e_CommandID req) with
  | None => tfail NotFound
  | Some commandID =>
      let account := TrimSpace (e_Account req) in
      let n := RuneCountInString (e_Password req) in
      if String.eqb account "" || (slen account >? 256) then tfail (BadRequest AccountRequired)
      else if (n <? MinAdminPasswordLength) || (n >? MaxAdminPasswordLength) then tfail (BadRequest PasswordLength)
      else match key with
      | None => tfail NoKey
      | Some key =>
          let* c := tmap_err (fun _ => NotFound) (GetCommand commandID) in
          do* tensure (String.eqb (c_DeviceID c) deviceID) NotFound;
          do* tensure (String.eqb (c_Type c) CommandRotateAdminPassword) (Conflict (c_Type c) (c_Status c));
          do* tensure (String.eqb (c_Status c) CommandRunning) (Conflict (c_Type c) (c_Status c));
          match Seal key rand (e_Password req) (SealContext deviceID account) with
          | None => tfail SealFailed
          | Some (ciphertext, nonce) =>
              InTx (
                do* tmap_err Database (UpsertPendingAdminPassword
                  (mkAdminPassword new_id deviceID account ciphertext nonce EmptyString commandID now None));
                InsertAudit (escrow_audit deviceID account commandID))
          end
      end
  end.
End Laps.

(** The completion hook [app.go] installs in the command service. *)
Definition Settle : Command -> string -> time -> tx cmd_error unit := fun c status at_ =>
  if negb (String.eqb (c_Type c) CommandRotateAdminPassword) then tret tt
  else tmap_err Database (SettleAdminPassword (c_ID c) (String.eqb status ResultSucceeded) at_).

Definition reveal_audit (actor reason hostname : string) (p : AdminPassword) : AuditEntry :=
  mkAudit actor "local_admin_password.revealed" "device" (p_DeviceID p)
    [("account", JStr (p_Account p)); ("hostname", JStr hostname); ("state", JStr (p_State p));
     ("reason", JStr reason)]%string.

(** The password, after the reveal is on the record; the ciphertext stays behind. *)
Definition Reveal (key : option Key) (id actor reason : string) : tx cmd_error (AdminPassword * string) :=
  let reason := TrimSpace reason in
  if String.eqb reason "" then tfail (BadRequest NeedsReason)
  else if slen reason >? maxReason then tfail (BadRequest ReasonTooLong)
  else match key with
  | None => tfail NoKey
  | Some key =>
      let* (p, hostname) := tmap_err (fun _ => NotFound) (GetAdminPassword id) in
      match Open_ key (p_Ciphertext p) (p_Nonce p) (SealContext (p_DeviceID p) (p_Account p)) with
      | None => tfail SealFailed
      | Some plaintext =>
          do* InsertAudit (reveal_audit actor reason hostname p);
          tret (mkAdminPassword (p_ID p) (p_DeviceID p) (p_Account p) "" "" (p_State p) (p_CommandID p)
                  (p_CreatedAt p) (p_ActivatedAt p), plaintext)
      end
  end.
