(* ===== verification/CommandProps.v ===== *)
(** * What the command queue promises, operation by operation

    Queueing and its dry run, the authority an order needs, delivery, and the
    single recorded end of a command, for [Commands.v] over the tables of
    [CommandStore.v]. *)
From S2P Require Export Commands.
Open Scope go_scope.

(** The service as [app.go] assembles it. *)
Definition app_service (keys : list PublicKey) : Service := mkService keys (Some Settle).

Section Queueing.
Context `{CR : Crypto, JT : JsonTime}.
Implicit Types (o : QueueOptions) (d : db).

(** The row a queued order becomes, and the tables with it. *)
Definition queued_row o (id : string) (now : time) (payload : json) (ttl : duration) : Command :=
  mkCommand id (q_DeviceID o) (q_Type o) payload CommandQueued (q_CreatedBy o) now None None None
    (Prelude.Add now ttl).

Definition after_queue (c : Command) (a : AuditEntry) d : db :=
  mkDB (t_devices d) (t_commands d ++ [c]) (t_results d) (t_passwords d) (t_audit d ++ [a])
    (t_wakes d ++ ["device:" ++ c_DeviceID c]%string).

(** The device may be given this order. *)
Definition accepts o (dev : Device) : Prop :=
  d_Status dev = DeviceActive /\
  (q_Type o = CommandWipe -> EqualFold (TrimSpace (q_ConfirmHostname o)) (d_Hostname dev) = true).

Lemma accepts_check o dev :
  accepts o dev <->
  String.eqb (d_Status dev) DeviceActive = true /\
  negb (is_wipe o && negb (EqualFold (TrimSpace (q_ConfirmHostname o)) (d_Hostname dev))) = true.
Proof.
  unfold accepts, is_wipe. rewrite String.eqb_eq.
  destruct (String.eqb_spec (q_Type o) CommandWipe); destruct (EqualFold _ _); naive_solver.
Qed.

Lemma CreateCommand_Ok c d u d' :
  CreateCommand c d = (Ok u, d') ->
  (c_ID c ∉ ids d) /\ is_Some (t_devices d !! c_DeviceID c) /\
  d' = mkDB (t_devices d)
         (t_commands d ++ [mkCommand (c_ID c) (c_DeviceID c) (c_Type c) (c_Payload c) (c_Status c)
            (c_CreatedBy c) (c_CreatedAt c) None None None (c_ExpiresAt c)])
         (t_results d) (t_passwords d) (t_audit d) (t_wakes d ++ ["device:" ++ c_DeviceID c]%string).
Proof.
  unfold CreateCommand. destruct (existsb _ _) eqn:E; [done|].
  destruct (t_devices d !! c_DeviceID c) eqn:Ed; [|done]. intros [= _ <-]. split; [|by split].
  intros (x & Hx & Hin)%list_elem_of_fmap. rewrite existsb_none in E. specialize (E x Hin). simpl in E.
  rewrite <- Hx, String.eqb_refl in E. done.
Qed.

Lemma queue_Ok s id now o dry d c d' :
  queue s id now o dry d = (Ok c, d') ->
  dry = false /\ exists payload ttl i dev,
    queue_checks s o now = Ok (payload, ttl) /\ id = Some i /\ t_devices d !! q_DeviceID o = Some dev /\
    accepts o dev /\ (i ∉ ids d) /\ c = queued_row o i now payload ttl /\
    d' = after_queue c (queued_audit o c (d_Hostname dev)) d.
Proof.
  unfold queue. destruct (queue_checks s o now) as [[payload ttl]|e] eqn:Eq;
    [|done].
  destruct id as [i|]; [|done]. intros H. txs.
  unfold GetDevice in H. destruct (t_devices d !! q_DeviceID o) as [dev|] eqn:Ed; [|done].
  injection H as <- <-. apply CreateCommand_Ok in H3 as (Hid & _ & ->).
  unfold InsertAudit in H4. injection H4 as _ H4. subst. split; [by destruct dry|].
  exists payload, ttl, i, dev. split; [reflexivity|]. split; [reflexivity|]. split; [reflexivity|].
  split; [by apply accepts_check|]. split; [exact Hid|]. split; reflexivity.
Qed.

(** The checks before the transaction fail with the request's own faults. *)
Definition request_fault (e : cmd_error) : Prop :=
  match e with BadRequest _ | Undecodable _ => True | _ => False end.

Lemma checkSignature_Err s typ deviceID payload now e :
  checkSignature s typ deviceID payload now = Err e -> request_fault e.
Proof.
  unfold checkSignature. destruct (String.eqb typ CommandRunPowerShell).
  { destruct (decode_struct _ _ _ _); [|by intros [= <-]]. by destruct (VerifyOp _ _ _); [|intros [= <-]]. }
  destruct (String.eqb typ CommandWipe); [|done].
  destruct (decode_struct _ _ _ _) as [p|]; [|by intros [= <-]].
  destruct (wp_Expires p); [|by intros [= <-]].
  destruct (negb _); simpl; [|by intros [= <-]]. by destruct (VerifyWipe _ _ _ _ _ _); [|intros [= <-]].
Qed.

Lemma queue_checks_Err s o now e : queue_checks s o now = Err e -> request_fault e.
Proof.
  unfold queue_checks. destruct (normalizePayload _ _) as [payload|]; [|by intros [= <-]].
  assert (forall ttl, match s_OperationsKeys s with
    | [] => Ok (payload, ttl)
    | _ => let! signedTTL := checkSignature s (q_Type o) (q_DeviceID o) payload now in
           Ok (payload, if (0 <? signedTTL) && (signedTTL <? ttl) then signedTTL else ttl)
    end = Err e -> request_fault e) as Hs.
  { intros ttl. destruct (s_OperationsKeys s); [done|].
    destruct (checkSignature _ _ _ _ _) eqn:E; [done|]. intros [= <-]. by eapply checkSignature_Err. }
  destruct (is_wipe o); simpl; [|apply Hs].
  destruct (negb (String.eqb _ _)); simpl; [|by intros [= <-]].
  destruct (negb _); simpl; [apply Hs | by intros [= <-]].
Qed.

(** A dry run finds exactly what queueing would find, and changes nothing;
    only an id that is already in the table can make queueing fail where the
    dry run passed. *)
Theorem check_agrees_with_queue s id now o d :
  Check_ s id now o d =
    (match fst (Queue s id now o d) with
     | Ok _ => Ok tt
     | Err (Database _) => Ok tt
     | Err e => Err e
     end, d) /\
  (forall e, fst (Queue s id now o d) = Err (Database e) -> exists i, id = Some i /\ (i ∈ ids d)).
Proof.
  unfold Check_, Queue, queue.
  destruct (queue_checks s o now) as [[payload ttl]|e] eqn:Eq; simpl.
  2:{ apply queue_checks_Err in Eq. by destruct e. }
  destruct id as [i|]; simpl; [|by split].
  unfold InTx, tbind, tmap_err, GetDevice. destruct (t_devices d !! q_DeviceID o) as [dev|] eqn:Ed; [|by split].
  unfold tensure. destruct (String.eqb (d_Status dev) DeviceActive); [|by split].
  destruct (negb (is_wipe o && _)); [|by split]. unfold tret, tfail, CreateCommand. simpl.
  destruct (existsb _ _) eqn:Ex; simpl; [|rewrite Ed; by split].
  split; [done|]. intros e _. exists i. split; [done|].
  apply existsb_elem in Ex as (x & Hx & <-%String.eqb_eq). apply list_elem_of_fmap. eauto.
Qed.

(** *** The authority an order needs *)

(** The operations keys signed this order, for this device and, a wipe, with
    an expiry that has not passed and is at most a day away. *)
Definition signed_order (keys : list PublicKey) (now : time) (c : Command) : Prop :=
  (c_Type c = CommandRunPowerShell -> exists p,
     decode_struct false run_powershell_fields (c_Payload c) zero_run_powershell = Ok p /\
     VerifyOp keys (ScriptManifest (rp_Script p) "") (rp_Signature p) = Ok tt) /\
  (c_Type c = CommandWipe -> exists p expires,
     decode_struct false wipe_fields (c_Payload c) zero_wipe = Ok p /\ wp_Expires p = Some expires /\
     VerifyOp keys (WipeManifest (c_DeviceID c) (wp_Protected p) expires) (wp_Signature p) = Ok tt /\
     now < expires <= now + 24 * Hour /\ c_ExpiresAt c <= expires).

Lemma checkSignature_script s deviceID payload now t :
  checkSignature s CommandRunPowerShell deviceID payload now = Ok t ->
  t = 0 /\ exists p, decode_struct false run_powershell_fields payload zero_run_powershell = Ok p /\
    VerifyOp (s_OperationsKeys s) (ScriptManifest (rp_Script p) "") (rp_Signature p) = Ok tt.
Proof.
  unfold checkSignature. simpl. destruct (decode_struct _ _ _ _) as [p|]; [|done].
  destruct (VerifyOp _ _ _) as [[]|] eqn:E; [|done]. intros [= <-]. eauto.
Qed.

Lemma checkSignature_wipe s deviceID payload now t :
  checkSignature s CommandWipe deviceID payload now = Ok t ->
  exists p expires, decode_struct false wipe_fields payload zero_wipe = Ok p /\ wp_Expires p = Some expires /\
    VerifyOp (s_OperationsKeys s) (WipeManifest deviceID (wp_Protected p) expires) (wp_Signature p) = Ok tt /\
    now < expires <= now + 24 * Hour /\ t = expires - now.
Proof.
  unfold checkSignature. simpl. destruct (decode_struct _ _ _ _) as [p|]; [|done].
  destruct (wp_Expires p) as [expires|] eqn:Ee; [|done].
  intros (u & Ha%ensure_Ok & H)%rbind_Ok. unfold VerifyWipe in H.
  destruct (IsZero expires); [done|]. destruct (VerifyOp _ _ _) as [[]|] eqn:Ev; simpl in H; [|done].
  destruct (negb (Before now expires)) eqn:Eb; [done|]. injection H as <-.
  unfold Before, After, Prelude.Add, MaxWipeValidity, Hour, Minute, Second in *. bools.
  rewrite Z.gtb_ltb in Ha. bools. exists p, expires. split; [done|]. split; [done|]. split; [done|].
  split; [lia|]. unfold Sub. apply sat64_id. unfold in_int64, MinInt64, MaxInt64. apply andb_true_iff. lia.
Qed.

(** The time an order waits: at most what was asked (a week if nothing was),
    a day for a wipe, and never past a signed order's expiry. *)
Lemma queue_checks_Ok s o now payload ttl :
  queue_checks s o now = Ok (payload, ttl) ->
  normalizePayload (q_Type o) (q_Payload o) = Ok payload /\
  (q_Type o = CommandWipe -> TrimSpace (q_Reason o) <> EmptyString /\ slen (TrimSpace (q_Reason o)) <= 500 /\
     ttl <= 24 * Hour) /\
  0 < ttl <= (if q_TTL o <=? 0 then 7 * 24 * Hour else q_TTL o) /\
  (s_OperationsKeys s <> [] -> exists t,
     checkSignature s (q_Type o) (q_DeviceID o) payload now = Ok t /\ (0 < t -> ttl <= t)).
Proof.
  unfold queue_checks. destruct (normalizePayload _ _) as [pl|] eqn:En; [|done].
  set (asked := if q_TTL o <=? 0 then DefaultTTL else q_TTL o).
  assert (0 < asked) as Hasked by (unfold asked, DefaultTTL, Hour, Minute, Second; destruct (Z.leb_spec (q_TTL o) 0); lia).
  change (if q_TTL o <=? 0 then 7 * 24 * Hour else q_TTL o) with asked.
  intros (t1 & Hw & Hs)%rbind_Ok.
  assert (0 < t1 <= asked /\ (q_Type o = CommandWipe -> TrimSpace (q_Reason o) <> EmptyString /\
    slen (TrimSpace (q_Reason o)) <= 500 /\ t1 <= 24 * Hour)) as [Ht1 Hwipe].
  { unfold is_wipe in Hw. destruct (String.eqb_spec (q_Type o) CommandWipe); [|injection Hw as <-; split; [lia|done]].
    oks. unfold maxWipeReason, WipeTTL, Hour, Minute, Second in *.
    rewrite ?Z.gtb_ltb in *. bools. destruct (Z.ltb_spec (24 * (60 * (60 * 1000000000))) asked); split; try lia;
      intros _; (split; [done|lia]). }
  destruct (s_OperationsKeys s) as [|k ks] eqn:Ek.
  { injection Hs as <- <-. split; [done|]. split; [done|]. split; [lia|done]. }
  apply rbind_Ok in Hs as (t & Ht & [= <- <-]). split; [done|].
  assert ((if (0 <? t) && (t <? t1) then t else t1) <= t1 /\ 0 < (if (0 <? t) && (t <? t1) then t else t1) /\
          (0 < t -> (if (0 <? t) && (t <? t1) then t else t1) <= t)) as (H1 & H2 & H3).
  { destruct (Z.ltb_spec 0 t), (Z.ltb_spec t t1); simpl; lia. }
  split; [|split; [lia|intros _; by exists t]]. intros Hq. specialize (Hwipe Hq). split; [tauto|]. split; [tauto|lia].
Qed.

(** C17. An order that is queued is for an active device and expires within the
    time asked for; a wipe also has a reason, names the device and lasts a day
    at most; and where the server has operations keys, a script or a wipe is
    queued only with their signature, and not past the signed expiry. The queue
    itself is otherwise only added to, with an audit entry. *)
Theorem queued_orders_are_authorised s id now o d c d' :
  Queue s id now o d = (Ok c, d') ->
  (exists dev, t_devices d !! q_DeviceID o = Some dev /\ accepts o dev /\
     d' = after_queue c (queued_audit o c (d_Hostname dev)) d) /\
  c_DeviceID c = q_DeviceID o /\ c_Type c = q_Type o /\ c_Status c = CommandQueued /\ (c_ID c ∉ ids d) /\
  normalizePayload (q_Type o) (q_Payload o) = Ok (c_Payload c) /\
  now < c_ExpiresAt c <= now + (if q_TTL o <=? 0 then 7 * 24 * Hour else q_TTL o) /\
  (c_Type c = CommandWipe ->
     TrimSpace (q_Reason o) <> EmptyString /\ slen (TrimSpace (q_Reason o)) <= 500 /\
     c_ExpiresAt c <= now + 24 * Hour) /\
  (s_OperationsKeys s <> [] -> signed_order (s_OperationsKeys s) now c).
Proof.
  unfold Queue. intros (_ & payload & ttl & i & dev & Hq & -> & Hd & Hacc & Hid & -> & ->)%queue_Ok.
  apply queue_checks_Ok in Hq as (Hn & Hw & Ht & Hs). unfold queued_row, Prelude.Add. simpl.
  split; [by exists dev|]. split; [done|]. split; [done|]. split; [done|]. split; [done|]. split; [done|].
  split; [lia|]. split; [intros Hq; specialize (Hw Hq); split; [tauto|split; [tauto|lia]]|].
  intros Hk. destruct (Hs Hk) as (t & Hc & Hle). split; simpl.
  - intros E. rewrite E in Hc. apply checkSignature_script in Hc as (_ & Hp). done.
  - intros E. rewrite E in Hc. apply checkSignature_wipe in Hc as (p & e & Hp & He & Hv & Hr & ->).
    exists p, e. split; [done|]. split; [done|]. split; [done|]. split; [done|]. lia.
Qed.
End Queueing.

(** ** Delivery *)

Section Delivery.
Implicit Types (d : db) (c : Command).

(** What one delivery does to a row. *)
Definition after_delivery (now : time) (deviceID : string) (c : Command) : Command :=
  if expired_at now c then set_completed_at now (set_status CommandExpired c)
  else if String.eqb (c_DeviceID c) deviceID && has_status [CommandQueued] c
       then set_delivered_at now (set_status CommandDelivered c)
       else c.

(** A command the device is handed: its own, not finished, not out of time. *)
Definition due (now : time) (deviceID : string) (c : Command) : bool :=
  String.eqb (c_DeviceID c) deviceID && owed c && negb (expired_at now c).

Definition expire (now : time) (c : Command) : Command :=
  if expired_at now c then set_completed_at now (set_status CommandExpired c) else c.

Lemma expire_id now c : c_ID (expire now c) = c_ID c.
Proof. unfold expire. by destruct (expired_at now c). Qed.

Lemma expired_owed now c : expired_at now c = true -> owed c = true.
Proof.
  unfold expired_at, owed. rewrite andb_true_iff, !has_status_spec. intros [H _].
  rewrite !elem_of_cons in *. tauto.
Qed.

Lemma owed_expire now deviceID c :
  String.eqb (c_DeviceID (expire now c)) deviceID && owed (expire now c) = due now deviceID c.
Proof.
  unfold due, expire. destruct (expired_at now c) eqn:E; simpl; [|by rewrite andb_true_r].
  by rewrite !andb_false_r.
Qed.

Lemma pending_after_expiry now deviceID (l : list Command) :
  List.filter (fun c => String.eqb (c_DeviceID c) deviceID && owed c) (map (expire now) l)
  = List.filter (due now deviceID) l.
Proof.
  induction l as [|c l IH]; simpl; [done|]. rewrite owed_expire, IH.
  destruct (due now deviceID c) eqn:E; [|done]. unfold due in E.
  apply andb_true_iff in E as [_ E%negb_true_iff]. unfold expire. by rewrite E.
Qed.

Lemma mark_fresh now deviceID (l : list Command) :
  NoDup (map c_ID l) ->
  map (fun c => if existsb (String.eqb (c_ID c))
                     (map c_ID (List.filter (has_status [CommandQueued]) (order_by older (List.filter (due now deviceID) l))))
                   && has_status [CommandQueued] c
                then set_delivered_at now (set_status CommandDelivered c) else c) (map (expire now) l)
  = map (after_delivery now deviceID) l.
Proof.
  intros Hn. rewrite map_map. apply map_ext_in. intros c Hc%list_elem_of_In.
  rewrite expire_id. unfold after_delivery, expire at 1.
  destruct (expired_at now c) eqn:E.
  { assert (has_status [CommandQueued] (set_completed_at now (set_status CommandExpired c)) = false) as -> by done.
    rewrite andb_false_r. unfold expire. by rewrite E. }
  unfold expire. rewrite E. destruct (has_status [CommandQueued] c) eqn:Eq; [|by rewrite !andb_false_r].
  rewrite !andb_true_r. set (b := existsb _ _).
  assert (b = String.eqb (c_DeviceID c) deviceID) as ->; [|reflexivity]. unfold b. apply eq_true_iff_eq.
  rewrite existsb_eq_elem, list_elem_of_fmap. setoid_rewrite elem_of_filterb. setoid_rewrite elem_of_order_by.
  setoid_rewrite elem_of_filterb. split.
  - intros (x & Hid & (Hx & Hdue) & _). rewrite (same_id_same_row l c x) by done.
    unfold due in Hdue. apply andb_true_iff in Hdue as [[H _]%andb_true_iff _]. done.
  - intros Hdev. exists c. split; [done|]. split; [|done]. split; [done|]. unfold due. rewrite Hdev, E. simpl.
    rewrite andb_true_r. unfold owed. rewrite has_status_spec in *. set_solver.
Qed.

(** Delivery always succeeds. The device gets, oldest first, exactly its own
    unfinished commands that are not out of time; every command that is out of
    time is expired, the device's queued ones become delivered, and no other
    row and no other table changes. *)
Theorem deliver_hands_over_what_is_due now deviceID d :
  NoDup (ids d) ->
  exists l, Deliver now deviceID d =
      (Ok (map order_of l), with_commands (map (after_delivery now deviceID) (t_commands d)) d) /\
    Sorted (fun a b => older a b = true) l /\
    Permutation l (List.filter (due now deviceID) (t_commands d)).
Proof.
  intros Hn. exists (order_by older (List.filter (due now deviceID) (t_commands d))).
  split; [|split; [apply order_by_sorted, older_total | apply order_by_perm]].
  unfold Deliver, InTx, tbind, tmap_err, ExpireCommands, PendingCommands. simpl.
  change (update_where (expired_at now) (fun c => set_completed_at now (set_status CommandExpired c)) (t_commands d))
    with (map (expire now) (t_commands d)).
  rewrite pending_after_expiry. rewrite <- (mark_fresh now deviceID (t_commands d) Hn).
  set (fresh := map c_ID (List.filter (has_status [CommandQueued])
    (order_by older (List.filter (due now deviceID) (t_commands d))))).
  unfold MarkCommandsDelivered. destruct fresh as [|i r]; [|reflexivity].
  unfold tret. simpl. f_equal. unfold with_commands. simpl. f_equal. symmetry.
  etransitivity; [|apply map_id]. apply map_ext. done.
Qed.
End Delivery.

(** ** A concrete fleet *)

#[local] Existing Instance Toy.toy_crypto.
#[local] Existing Instance toy_time.

Module Fleet.

Definition devices : gmap string Device :=
  {[ "d1"%string := mkDevice "PC-1" "active"; "d2"%string := mkDevice "PC-2" "retired" ]}.
Definition empty : db := mkDB devices [] [] [] [] [].

Definition now : time := 1000 * Second.
Definition expires : time := now + Hour.
Definition signature : OpSignature :=
  SignOp (mkPrivateKey (Toy.key "A")) (WipeManifest "d1" true expires).
Definition wipe_order : QueueOptions := mkQueueOptions "d1" CommandWipe
  (Payload (JObj [("protected", JBool true); ("expires", JStr (Itoa expires));
                  ("signature", signature_json signature)])%string)
  "admin@example.com" 0 " pc-1 " "stolen".
Definition script_order : QueueOptions := mkQueueOptions "d1" CommandRunPowerShell
  (Payload (JObj [("script", JStr "Get-Date")])%string) "admin@example.com" Hour "" "".

Definition service : Service := app_service [Toy.keyA].
Definition after_wipe : db := snd (Queue service (Some "c1"%string) now wipe_order empty).
Definition wipe_row : Command := queued_row wipe_order "c1" now
  (wipe_json (mkWipe true (Some expires) (Some signature))) Hour.
End Fleet.

Lemma queued_orders_are_authorised_witness :
  Queue Fleet.service (Some "c1"%string) Fleet.now Fleet.wipe_order Fleet.empty
    = (Ok Fleet.wipe_row, Fleet.after_wipe) /\
  signed_order [Toy.keyA] Fleet.now Fleet.wipe_row.
Proof.
  assert (Queue Fleet.service (Some "c1"%string) Fleet.now Fleet.wipe_order Fleet.empty
    = (Ok Fleet.wipe_row, Fleet.after_wipe)) as H by (vm_compute; reflexivity).
  split; [exact H|].
  destruct (queued_orders_are_authorised _ _ _ _ _ _ _ H) as (_ & _ & _ & _ & _ & _ & _ & _ & Hs).
  apply Hs. discriminate.
Defined.

Lemma deliver_hands_over_what_is_due_witness :
  exists l, Deliver Fleet.now "d1" Fleet.after_wipe
      = (Ok (map order_of l),
         with_commands (map (after_delivery Fleet.now "d1") (t_commands Fleet.after_wipe)) Fleet.after_wipe) /\
    Sorted (fun a b => older a b = true) l /\
    Permutation l (List.filter (due Fleet.now "d1") (t_commands Fleet.after_wipe)).
Proof.
  apply (deliver_hands_over_what_is_due Fleet.now "d1" Fleet.after_wipe).
  vm_compute. repeat constructor. by intros ?%elem_of_nil.
Defined.

(** An unsigned script, a wrong hostname and a retired device are refused. *)
Example refusals :
  fst (Queue Fleet.service (Some "c1"%string) Fleet.now Fleet.script_order Fleet.empty)
    = Err (BadRequest (SignatureRefused ErrUnsigned)) /\
  fst (Queue Fleet.service (Some "c1"%string) (Fleet.expires + 1) Fleet.wipe_order Fleet.empty)
    = Err (BadRequest (SignatureRefused ErrExpired)) /\
  fst (Deliver (Fleet.now + 2 * Hour) "d1" Fleet.after_wipe) = Ok [].
Proof. vm_compute. split; [reflexivity|]. split; reflexivity. Qed.
