(* ===== verification/CommandLife.v ===== *)
(** * The life of a command

    Every operation that touches the command tables, as one step of a history:
    queueing, other services' inserts, the expiry sweep, delivery, start,
    completion, escrow, reveal and retention. The invariant of the tables, the
    order in which a command's status may move, and what no history changes. *)
From S2P Require Export CommandProps.
Open Scope go_scope.

(** ** Lifecycle of a row *)

Definition settled (c : Command) : bool :=
  has_status [CommandSucceeded; CommandFailed; CommandTimedOut; CommandExpired] c.

(** Ended by a report of the device's, rather than by its time running out. *)
Definition reported (c : Command) : bool :=
  has_status [CommandSucceeded; CommandFailed; CommandTimedOut] c.

Definition rank (c : Command) : nat :=
  if has_status [CommandQueued] c then 0
  else if has_status [CommandDelivered] c then 1
  else if has_status [CommandRunning] c then 2
  else 3.

(** The status is one the schema allows, and the timestamps are the ones a row
    of that status has. *)
Definition row_ok (c : Command) : Prop :=
  (c_Status c = CommandQueued /\ c_DeliveredAt c = None /\ c_StartedAt c = None /\ c_CompletedAt c = None) \/
  (c_Status c = CommandDelivered /\ is_Some (c_DeliveredAt c) /\ c_StartedAt c = None /\ c_CompletedAt c = None) \/
  (c_Status c = CommandRunning /\ is_Some (c_StartedAt c) /\ c_CompletedAt c = None) \/
  (settled c = true /\ is_Some (c_CompletedAt c)).

(** What never changes in a row. *)
Definition identity (c : Command) : string * string * string * json * string * time * time :=
  (c_ID c, c_DeviceID c, c_Type c, c_Payload c, c_CreatedBy c, c_CreatedAt c, c_ExpiresAt c).

(** A row is as it was, or further along. *)
Definition advances (c c' : Command) : Prop :=
  identity c' = identity c /\ (c' = c \/ (rank c < rank c')%nat).

#[global] Instance advances_preorder : PreOrder advances.
Proof.
  split.
  - intros c. split; auto.
  - intros a b c [Hi1 H1] [Hi2 H2]. split; [congruence|].
    destruct H1 as [->|H1], H2 as [->|H2]; auto. right. lia.
Qed.

(** Every command of [d] is in [d'], as it was or further along. *)
Definition follows (d d' : db) : Prop :=
  forall c, c ∈ t_commands d -> exists c', c' ∈ t_commands d' /\ advances c c'.

#[global] Instance follows_preorder : PreOrder follows.
Proof.
  split.
  - intros d c Hc. by exists c.
  - intros d1 d2 d3 H12 H23 c Hc. destruct (H12 c Hc) as (c' & Hc' & Ha).
    destruct (H23 c' Hc') as (c'' & Hc'' & Ha'). exists c''. split; [done | by etransitivity].
Qed.

Definition result_ids (d : db) : list string := map r_CommandID (t_results d).

(** The tables' invariant: one row an id, well-formed rows, and a result for
    exactly the commands a device reported on, one each. *)
Record Inv (d : db) : Prop := {
  inv_ids : NoDup (ids d);
  inv_rows : forall c, c ∈ t_commands d -> row_ok c;
  inv_results : NoDup (result_ids d);
  inv_reported : forall id, id ∈ result_ids d <-> exists c, c ∈ t_commands d /\ c_ID c = id /\ reported c = true }.

(** ** Histories *)

Section Life.
Context `{CR : Crypto, JT : JsonTime}.
Variable parse_uuid : string -> option string.
Variable key : option Key.

Inductive op :=
| OpQueue (id : option string) (now : time) (o : QueueOptions)
| OpCheck (id : option string) (now : time) (o : QueueOptions)
| OpCreate (id deviceID typ : string) (payload : json) (by_ : string) (now expires : time)
| OpExpire (now : time)
| OpDeliver (now : time) (deviceID : string)
| OpStart (now : time) (deviceID commandID : string)
| OpComplete (now : time) (deviceID commandID : string) (r : Report)
| OpEscrow (new_id rand : string) (now : time) (deviceID : string) (req : EscrowRequest)
| OpReveal (id actor reason : string)
| OpPrune (cutoff : time) (limit : nat) (batch : list string).

Definition apply (keys : list PublicKey) (a : op) (d : db) : db :=
  match a with
  | OpQueue id now o => snd (Queue (app_service keys) id now o d)
  | OpCheck id now o => snd (Check_ (app_service keys) id now o d)
  | OpCreate id dev typ payload by_ now expires =>
      snd (InTx (CreateCommand (mkCommand id dev typ payload CommandQueued by_ now None None None expires)) d)
  | OpExpire now => snd (ExpireCommands now d)
  | OpDeliver now dev => snd (Deliver now dev d)
  | OpStart now dev id => snd (Start now dev id d)
  | OpComplete now dev id r => snd (Complete (app_service keys) now dev id r d)
  | OpEscrow new_id rand now dev req => snd (Escrow parse_uuid key new_id rand now dev req d)
  | OpReveal id actor reason => snd (Reveal key id actor reason d)
  | OpPrune cutoff limit batch => snd (DeleteFinishedCommandsBefore cutoff limit batch d)
  end.

Definition history (keys : list PublicKey) (l : list op) (d : db) : db := fold_left (fun d a => apply keys a d) l d.

Definition prunes (a : op) : bool := match a with OpPrune _ _ _ => true | _ => false end.

(** *** Steps *)

Lemma row_status c : row_ok c ->
  c_Status c = CommandQueued \/ c_Status c = CommandDelivered \/ c_Status c = CommandRunning \/ settled c = true.
Proof. unfold row_ok. tauto. Qed.

Lemma settled_spec c :
  settled c = true <-> c_Status c = CommandSucceeded \/ c_Status c = CommandFailed \/
                       c_Status c = CommandTimedOut \/ c_Status c = CommandExpired.
Proof. unfold settled. rewrite has_status_spec, !elem_of_cons, elem_of_nil. tauto. Qed.

Lemma reported_spec c :
  reported c = true <-> c_Status c = CommandSucceeded \/ c_Status c = CommandFailed \/ c_Status c = CommandTimedOut.
Proof. unfold reported. rewrite has_status_spec, !elem_of_cons, elem_of_nil. tauto. Qed.

Lemma owed_spec c :
  owed c = true <-> c_Status c = CommandQueued \/ c_Status c = CommandDelivered \/ c_Status c = CommandRunning.
Proof. unfold owed. rewrite has_status_spec, !elem_of_cons, elem_of_nil. tauto. Qed.

Lemma owed_not_settled c : row_ok c -> owed c = negb (settled c).
Proof.
  intros H. apply eq_true_iff_eq. rewrite owed_spec, negb_true_iff, <- not_true_iff_false, settled_spec.
  apply row_status in H. rewrite settled_spec in H. split; [|tauto].
  intros [-> |[-> | ->]]; intros [?|[?|[?|?]]]; discriminate.
Qed.

Lemma settled_rank c : settled c = true -> rank c = 3%nat.
Proof. rewrite settled_spec. unfold rank, has_status. by intros [-> |[-> |[-> | ->]]]. Qed.

Lemma settled_final c c' : settled c = true -> advances c c' -> c' = c.
Proof.
  intros Hs%settled_rank [_ [->|Hr]]; [done|]. rewrite Hs in Hr. unfold rank in Hr.
  repeat case_match; lia.
Qed.

Lemma owed_rank c : owed c = true -> (rank c < 3)%nat.
Proof. rewrite owed_spec. unfold rank, has_status. intros [-> |[-> | ->]]; simpl; lia. Qed.

(** One update of the command table keeps the invariant when each row it
    changes moves forward, stays well-formed, and is reported on neither before
    nor after. *)
Lemma update_step d p f :
  Inv d ->
  (forall c, c ∈ t_commands d -> p c = true ->
     identity (f c) = identity c /\ (rank c < rank (f c))%nat /\ row_ok (f c) /\
     reported c = false /\ reported (f c) = false) ->
  Inv (with_commands (update_where p f (t_commands d)) d) /\
  follows d (with_commands (update_where p f (t_commands d)) d).
Proof.
  intros [Hi Hr Hri Hrep] Hf.
  assert (forall c, c ∈ t_commands d -> identity (if p c then f c else c) = identity c) as Hid.
  { intros c Hc. destruct (p c) eqn:E; [|done]. by apply Hf. }
  assert (ids (with_commands (update_where p f (t_commands d)) d) = ids d) as Hids.
  { unfold ids, with_commands, update_where. simpl. rewrite map_map. apply map_ext_in.
    intros c Hc%list_elem_of_In. specialize (Hid c Hc). unfold identity in Hid. congruence. }
  split; [split|].
  - by rewrite Hids.
  - intros c (x & Hx & ->)%elem_of_update_where. destruct (p x) eqn:E; [by apply Hf | by apply Hr].
  - done.
  - intros id. change (result_ids (with_commands _ d)) with (result_ids d). rewrite Hrep. simpl. split.
    + intros (c & Hc & <- & Hrc). destruct (p c) eqn:E; [apply Hf in E as (_ & _ & _ & E & _); [congruence|done]|].
      exists c. split; [|done]. apply elem_of_update_where. exists c. by rewrite E.
    + intros (c & (x & Hx & ->)%elem_of_update_where & <- & Hrc).
      destruct (p x) eqn:E; [apply Hf in E as (_ & _ & _ & _ & E); [congruence|done]|]. by exists x.
  - intros c Hc. exists (if p c then f c else c). split; [by apply update_where_in|].
    split; [by apply Hid|]. destruct (p c) eqn:E; [right; by apply Hf | by left].
Qed.

Lemma same_commands d d' :
  t_commands d' = t_commands d -> t_results d' = t_results d -> Inv d -> Inv d' /\ follows d d'.
Proof.
  intros Hc Hr [H1 H2 H3 H4]. split; [split; unfold ids, result_ids in *; rewrite ?Hc, ?Hr; done|].
  intros c. rewrite Hc. intros Hin. by exists c.
Qed.

Lemma nothing_changes d : Inv d -> Inv d /\ follows d d.
Proof. by split. Qed.

Lemma add_row_step d d' c :
  Inv d -> c_ID c ∉ ids d -> c_Status c = CommandQueued ->
  c_DeliveredAt c = None -> c_StartedAt c = None -> c_CompletedAt c = None ->
  t_commands d' = t_commands d ++ [c] -> t_results d' = t_results d ->
  Inv d' /\ follows d d'.
Proof.
  intros [Hi Hr Hri Hrep] Hid Hs HD HS HC Hc Hres. split; [split|].
  - unfold ids. rewrite Hc, map_app. apply NoDup_app. split; [done|]. split; [|apply NoDup_singleton].
    intros x Hx Hin. simpl in Hin. apply list_elem_of_singleton in Hin as ->. done.
  - intros x. rewrite Hc, elem_of_app, list_elem_of_singleton. intros [Hx| ->]; [by apply Hr|]. left. auto.
  - unfold result_ids. by rewrite Hres.
  - intros id. unfold result_ids. rewrite Hres. etransitivity; [apply Hrep|]. rewrite Hc.
    setoid_rewrite elem_of_app. setoid_rewrite list_elem_of_singleton. split.
    + intros (x & ? & ? & ?). eauto.
    + intros (x & [Hx| ->] & <- & Hrx); [eauto|]. apply reported_spec in Hrx. rewrite Hs in Hrx.
      by destruct Hrx as [|[]].
  - intros x Hx. exists x. split; [|done]. rewrite Hc. apply elem_of_app. by left.
Qed.

Lemma queue_Err s id now o dry d e d' : queue s id now o dry d = (Err e, d') -> d' = d.
Proof.
  unfold queue. destruct (queue_checks s o now) as [[payload ttl]|e']; [|by intros [= _ <-]].
  destruct id; [apply InTx_Err | by intros [= _ <-]].
Qed.

Lemma queue_step s id now o d : Inv d -> let d' := snd (Queue s id now o d) in Inv d' /\ follows d d'.
Proof.
  intros HI. unfold Queue. destruct (queue s id now o false d) as [[c|e] d'] eqn:E; simpl.
  - apply queue_Ok in E as (_ & payload & ttl & i & dev & _ & -> & _ & _ & Hid & -> & ->).
    by eapply (add_row_step d _ (queued_row o i now payload ttl)).
  - apply queue_Err in E as ->. by split.
Qed.

Lemma check_step s id now o d : snd (Check_ s id now o d) = d.
Proof.
  unfold Check_. destruct (queue s id now o true d) as [[c|e] d'] eqn:E.
  - apply queue_Ok in E as [E _]. done.
  - apply queue_Err in E as ->. by destruct e.
Qed.

Lemma create_step d c :
  Inv d -> c_Status c = CommandQueued ->
  let d' := snd (InTx (CreateCommand c) d) in Inv d' /\ follows d d'.
Proof.
  intros HI Hs. destruct (InTx (CreateCommand c) d) as [[u|e] d'] eqn:E; simpl.
  - apply (proj1 (InTx_Ok _ _ _ _)) in E. apply CreateCommand_Ok in E as (Hid & _ & ->).
    by eapply add_row_step; [exact HI|..|simpl; reflexivity|]; try done.
  - apply InTx_Err in E as ->. by split.
Qed.

Lemma expired_at_spec now c :
  expired_at now c = true -> c_Status c = CommandQueued \/ c_Status c = CommandDelivered.
Proof.
  unfold expired_at. intros [H _]%andb_true_iff. apply has_status_spec in H.
  rewrite !elem_of_cons, elem_of_nil in H. tauto.
Qed.

Lemma not_reported c : c_Status c = CommandQueued \/ c_Status c = CommandDelivered \/ c_Status c = CommandRunning ->
  reported c = false.
Proof. unfold reported, has_status. by intros [-> |[-> | ->]]. Qed.

Lemma rank_of c :
  (c_Status c = CommandQueued -> rank c = 0%nat) /\ (c_Status c = CommandDelivered -> rank c = 1%nat) /\
  (c_Status c = CommandRunning -> rank c = 2%nat).
Proof. unfold rank, has_status. split; [by intros ->|]. split; by intros ->. Qed.

Lemma expire_step now d : Inv d -> let d' := snd (ExpireCommands now d) in Inv d' /\ follows d d'.
Proof.
  intros HI. apply update_step; [done|]. intros c Hc He%expired_at_spec.
  split; [done|]. split; [|split; [|split; [|done]]].
  - destruct (rank_of c) as (H0 & H1 & _). destruct He as [H|H]; [rewrite (H0 H)|rewrite (H1 H)]; cbv; lia.
  - do 3 right. split; [done|]. by eexists.
  - apply not_reported. tauto.
Qed.

Lemma deliver_step now dev d : Inv d -> let d' := snd (Deliver now dev d) in Inv d' /\ follows d d'.
Proof.
  intros HI. unfold Deliver, InTx, tbind, tmap_err. simpl.
  pose proof (expire_step now d HI) as [HI1 HF1]. simpl in HI1, HF1.
  set (d1 := with_commands (update_where (expired_at now) _ (t_commands d)) d) in *.
  set (fresh := map c_ID _). destruct fresh as [|i r]; simpl; [done|].
  destruct (update_step d1 (fun c => existsb (String.eqb (c_ID c)) (i :: r) && has_status [CommandQueued] c)
    (fun c => set_delivered_at now (set_status CommandDelivered c)) HI1) as [HI2 HF2].
  - intros c Hc [_ Hq]%andb_true_iff. apply has_status_spec in Hq.
    apply list_elem_of_singleton in Hq. split; [done|]. split; [|split; [|split; [|done]]].
    + rewrite (proj1 (rank_of c) Hq). cbv. lia.
    + right. left. split; [done|]. split; [by eexists|].
      destruct (inv_rows d1 HI1 c Hc) as [(_&_&H1&H2)|[(H&_)|[(H&_)|[H _]]]]; [done|rewrite Hq in H; done..|].
      apply settled_spec in H. rewrite Hq in H. by destruct H as [|[|[|]]].
    + apply not_reported. tauto.
  - split; [exact HI2 | by etransitivity].
Qed.

Lemma MarkCommandRunning_step id dev at_ d :
  Inv d -> let d' := snd (MarkCommandRunning id dev at_ d) in Inv d' /\ follows d d'.
Proof.
  intros HI. apply update_step; [done|]. intros c Hc [_ Hq]%andb_true_iff.
  apply has_status_spec in Hq. rewrite !elem_of_cons, elem_of_nil in Hq.
  assert (c_Status c = CommandQueued \/ c_Status c = CommandDelivered) as Hq' by tauto. clear Hq.
  split; [done|]. split; [|split; [|split; [|done]]].
  - destruct (rank_of c) as (H0 & H1 & _). destruct Hq' as [H|H]; [rewrite (H0 H)|rewrite (H1 H)]; cbv; lia.
  - do 2 right. left. split; [done|]. split; [by eexists|].
    destruct (inv_rows d HI c Hc) as [(_&_&_&H2)|[(_&_&_&H2)|[(H&_)|[H _]]]]; [done|done|..].
    + rewrite H in Hq'. by destruct Hq'.
    + apply settled_spec in H. destruct Hq' as [Hq'|Hq']; rewrite Hq' in H; by destruct H as [|[|[|]]].
  - apply not_reported. tauto.
Qed.

Lemma own_command_pure dev id d : snd (own_command dev id d) = d.
Proof.
  unfold own_command, tbind, tmap_err, GetCommand. destruct (find _ _) as [c|]; [|done].
  unfold tensure. by destruct (String.eqb _ _).
Qed.

Lemma start_step now dev id d : Inv d -> let d' := snd (Start now dev id d) in Inv d' /\ follows d d'.
Proof.
  intros HI. unfold Start, InTx, tbind, tmap_err. simpl.
  pose proof (MarkCommandRunning_step id dev now d HI) as Hm. unfold MarkCommandRunning in *. simpl in *.
  set (d1 := with_commands _ d) in *. destruct (0 <? count_where _ _)%Z; simpl; [done|].
  pose proof (own_command_pure dev id d1). destruct (own_command dev id d1) as [[u|e] d2]; simpl in *; subst; done.
Qed.

(** *** Completion *)

Definition finish (now : time) (status : string) (c : Command) : Command :=
  set_completed_at now (set_status status c).

(** The tables after a completion is recorded. *)
Definition after_complete (now : time) (deviceID commandID : string) (r : Report) (c : Command) (d : db) : db :=
  mkDB (t_devices d)
    (update_where (fun x => named commandID deviceID x && owed x) (finish now (rp_Status r)) (t_commands d))
    (t_results d ++ [result_of commandID r])
    (t_passwords (snd (Settle (finish now (rp_Status r) c) (rp_Status r) now d)))
    (t_audit d) (t_wakes d).

Lemma Settle_total c status at_ d d0 :
  t_passwords d0 = t_passwords d ->
  Settle c status at_ d = (Ok tt, with_passwords (t_passwords (snd (Settle c status at_ d0))) d).
Proof.
  intros Hp. unfold Settle, tmap_err, SettleAdminPassword.
  destruct (negb (String.eqb (c_Type c) _)); simpl; [by destruct d; simpl in *; rewrite Hp|].
  destruct (negb _); simpl; by rewrite Hp.
Qed.

Lemma named_spec id dev c : named id dev c = true <-> c_ID c = id /\ c_DeviceID c = dev.
Proof. unfold named. by rewrite andb_true_iff, !String.eqb_eq. Qed.

Lemma own_command_own d c :
  NoDup (ids d) -> c ∈ t_commands d -> own_command (c_DeviceID c) (c_ID c) d = (Ok tt, d).
Proof.
  intros Hn Hc. unfold own_command, tbind, tmap_err. rewrite GetCommand_row by done.
  unfold tensure. by rewrite String.eqb_refl.
Qed.

Lemma own_command_other dev id d :
  NoDup (ids d) -> (forall c, c ∈ t_commands d -> c_ID c = id -> c_DeviceID c <> dev) ->
  own_command dev id d = (Err NotFound, d).
Proof.
  intros Hn Ho. unfold own_command, tbind, tmap_err.
  destruct (GetCommand id d) as [[c|e] d'] eqn:E.
  - apply GetCommand_Ok in E as (-> & Hc & Hid). unfold tensure.
    rewrite (proj2 (String.eqb_neq _ _)); [done | by apply Ho].
  - by apply GetCommand_Err in E as [-> _].
Qed.

Lemma complete_owed keys now r c d :
  Inv d -> c ∈ t_commands d -> owed c = true -> reportable (rp_Status r) = true ->
  Complete (app_service keys) now (c_DeviceID c) (c_ID c) r d
  = (Ok tt, after_complete now (c_DeviceID c) (c_ID c) r c d).
Proof.
  intros [Hi Hr Hri Hrep] Hc Ho Hst. unfold Complete. rewrite Hst. cbn [negb].
  assert (named (c_ID c) (c_DeviceID c) c && owed c = true) as Hp
    by (rewrite Ho, andb_true_r; by apply named_spec).
  unfold InTx, tbind, tmap_err at 1, CompleteCommand. cbn [snd fst].
  rewrite (proj2 (count_where_pos _ _)) by (by exists c). cbn [negb].
  set (d1 := with_commands _ d).
  assert (ids d1 = ids d) as Hids by (unfold ids, d1; apply update_where_map; done).
  assert (finish now (rp_Status r) c ∈ t_commands d1) as Hc1.
  { unfold d1. simpl. apply elem_of_update_where. exists c. by rewrite Hp. }
  assert (InsertCommandResult (result_of (c_ID c) r) d1
          = (Ok tt, with_results (t_results d ++ [result_of (c_ID c) r]) d1)) as Hins.
  { unfold InsertCommandResult. assert (r_CommandID (result_of (c_ID c) r) = c_ID c) as ->.
    { unfold result_of. by destruct (clampOutput _ _), (clampOutput _ _). }
    replace (existsb _ (t_results d1)) with false.
    - replace (existsb _ (t_commands d1)) with true; [done|]. symmetry. apply existsb_elem.
      eexists. split; [exact Hc1|]. simpl. apply String.eqb_refl.
    - symmetry. apply existsb_none. intros x Hx. apply String.eqb_neq. intros Hxid.
      assert (c_ID c ∈ result_ids d) as (c' & Hc' & Hid' & Hre)%Hrep
        by (unfold result_ids; apply list_elem_of_fmap; by exists x).
      rewrite (same_id_same_row _ c' c) in Hre by done. apply owed_spec in Ho.
      by rewrite not_reported in Hre. }
  unfold tmap_err at 1. rewrite Hins. unfold app_service. cbn [s_OnComplete].
  change (c_ID c) with (c_ID (finish now (rp_Status r) c)) at 1.
  unfold tmap_err. rewrite GetCommand_row; [|by rewrite <- Hids in Hi|done].
  by rewrite (Settle_total _ _ _ _ d).
Qed.

Lemma complete_unowed keys now dev id r d :
  Inv d -> reportable (rp_Status r) = true ->
  (forall c, c ∈ t_commands d -> named id dev c = true -> owed c = false) ->
  Complete (app_service keys) now dev id r d
  = (fst (own_command dev id d), d).
Proof.
  intros HI Hst Ho. unfold Complete. rewrite Hst. cbn [negb].
  assert (forall c, c ∈ t_commands d -> named id dev c && owed c = false) as Hp.
  { intros c Hc. destruct (named id dev c) eqn:E; [|done]. by rewrite Ho. }
  unfold InTx, tbind, tmap_err at 1, CompleteCommand. cbn [snd fst].
  rewrite update_where_none by done.
  destruct (0 <? count_where _ _)%Z eqn:E.
  { apply count_where_pos in E as (c & Hc & H). by rewrite Hp in H. }
  cbn [negb]. assert (with_commands (t_commands d) d = d) as -> by (by destruct d).
  pose proof (own_command_pure dev id d). destruct (own_command dev id d) as [[[]|e] d2]; simpl in *; by subst.
Qed.

Lemma reportable_spec s :
  reportable s = true <-> s = ResultSucceeded \/ s = ResultFailed \/ s = ResultTimedOut.
Proof. clear parse_uuid key. unfold reportable. rewrite !orb_true_iff, !String.eqb_eq. tauto. Qed.

Lemma finish_reported now s c : reportable s = true -> reported (finish now s c) = true /\ settled (finish now s c) = true.
Proof. clear parse_uuid key. rewrite reportable_spec. unfold reported, settled, has_status. by intros [-> |[-> | ->]]. Qed.

Lemma after_complete_step now r c d :
  Inv d -> c ∈ t_commands d -> owed c = true -> reportable (rp_Status r) = true ->
  let d' := after_complete now (c_DeviceID c) (c_ID c) r c d in Inv d' /\ follows d d'.
Proof.
  clear parse_uuid key.
  intros [Hi Hr Hri Hrep] Hc Ho Hst. simpl. pose proof (finish_reported now (rp_Status r) c Hst) as [Hre Hse].
  set (p := fun x => named (c_ID c) (c_DeviceID c) x && owed x).
  assert (forall x, x ∈ t_commands d -> p x = true -> x = c) as Hp.
  { intros x Hx [[Hid _]%named_spec _]%andb_true_iff. by apply (same_id_same_row (t_commands d)). }
  assert (p c = true) as Hpc by (unfold p; rewrite Ho, andb_true_r; by apply named_spec).
  set (d' := after_complete _ _ _ _ _ _). assert (ids d' = ids d) as Hids by (apply update_where_map; done).
  assert (result_ids d' = result_ids d ++ [c_ID c]) as Hrids.
  { unfold result_ids, d', after_complete. simpl. rewrite map_app. simpl. do 2 f_equal.
    unfold result_of. by destruct (clampOutput _ _), (clampOutput _ _). }
  assert (c_ID c ∉ result_ids d) as Hno.
  { intros (c' & Hc' & Hid' & Hrc)%Hrep. rewrite (same_id_same_row _ c' c) in Hrc by done.
    apply owed_spec in Ho. by rewrite not_reported in Hrc. }
  split; [split|].
  - by rewrite Hids.
  - intros x (y & Hy & ->)%elem_of_update_where. destruct (named _ _ y && owed y) eqn:E; [|by apply Hr].
    rewrite (Hp y Hy E). do 3 right. split; [done|]. by eexists.
  - rewrite Hrids. apply NoDup_app. split; [done|]. split; [|apply NoDup_singleton].
    intros x Hx ->%list_elem_of_singleton. done.
  - intros id. rewrite Hrids, elem_of_app, list_elem_of_singleton, Hrep. split.
    + intros [(x & Hx & <- & Hrx)| ->].
      * exists x. split; [|done]. apply elem_of_update_where. exists x. split; [done|].
        destruct (named _ _ x && owed x) eqn:E; [|done]. rewrite (Hp x Hx E) in Hrx.
        apply owed_spec in Ho. by rewrite not_reported in Hrx.
      * exists (finish now (rp_Status r) c). split; [|done]. apply elem_of_update_where. exists c.
        split; [done|]. by fold (p c); rewrite Hpc.
    + intros (x & (y & Hy & ->)%elem_of_update_where & <- & Hrx). fold (p y) in *.
      destruct (p y) eqn:E; [right; by rewrite (Hp y Hy E)|left]. by exists y.
  - intros x Hx. exists (if p x then finish now (rp_Status r) x else x). split; [by apply update_where_in|].
    destruct (p x) eqn:E; [|by split; [|left]]. rewrite (Hp x Hx E). split; [done|]. right.
    rewrite (settled_rank _ Hse). by apply owed_rank.
Qed.

Lemma complete_step keys now dev id r d :
  Inv d -> let d' := snd (Complete (app_service keys) now dev id r d) in Inv d' /\ follows d d'.
Proof.
  intros HI. destruct (reportable (rp_Status r)) eqn:Hst.
  2:{ unfold Complete. rewrite Hst. by split. }
  destruct (existsb (fun c => named id dev c && owed c) (t_commands d)) eqn:E.
  - apply existsb_elem in E as (c & Hc & [[<- <-]%named_spec Ho]%andb_true_iff).
    rewrite complete_owed by done. by apply after_complete_step.
  - rewrite complete_unowed; [by split|done|done|]. intros c Hc Hn.
    rewrite existsb_none in E. specialize (E c Hc). simpl in E. by rewrite Hn in E.
Qed.

(** *** Operations that leave commands alone *)

Definition leaves (d d' : db) : Prop := t_commands d' = t_commands d /\ t_results d' = t_results d.
#[local] Instance leaves_preorder : PreOrder leaves.
Proof. split; [done|]. intros d1 d2 d3 [A1 B1] [A2 B2]. split; congruence. Qed.
Abbreviation keeps := (tkeeps leaves).

Lemma keeps_ensure {E} c (e : E) : keeps (tensure c e). Proof. by destruct c. Qed.
Lemma keeps_GetCommand id : keeps (GetCommand id).
Proof. intros d. unfold GetCommand. by destruct (find _ _). Qed.
Lemma keeps_GetAdminPassword id : keeps (GetAdminPassword id).
Proof. intros d. unfold GetAdminPassword. destruct (find _ _); [|done]. by destruct (_ !! _). Qed.
Lemma keeps_InsertAudit {E} a : keeps (InsertAudit (E:=E) a). Proof. by split. Qed.
Lemma keeps_Upsert p : keeps (UpsertPendingAdminPassword p).
Proof.
  intros d. unfold UpsertPendingAdminPassword. destruct (existsb _ _); [done|].
  destruct (existsb _ _); [done|]. by destruct (_ !! _).
Qed.

Create HintDb keeps.
#[local] Hint Resolve keeps_ret keeps_fail keeps_ensure keeps_map_err keeps_InTx keeps_GetCommand
  keeps_GetAdminPassword keeps_InsertAudit keeps_Upsert leaves_preorder : keeps.
#[local] Hint Extern 1 (tkeeps _ (tbind _ _)) => apply keeps_bind; [apply _ | | intros ?] : keeps.

Lemma keeps_Escrow new_id rand now dev req : keeps (Escrow parse_uuid key new_id rand now dev req).
Proof.
  unfold Escrow. destruct (parse_uuid _); [|auto with keeps]. cbv zeta.
  destruct (_ || _); [auto with keeps|]. destruct (_ || _); [auto with keeps|].
  destruct key as [k|]; [|auto with keeps].
  apply keeps_bind; [apply _|auto with keeps|]. intros c.
  do 3 (apply keeps_bind; [apply _|auto with keeps|]; intros _). destruct (Seal _ _ _ _) as [[ct n]|]; auto with keeps.
Qed.

Lemma keeps_Reveal id actor reason : keeps (Reveal key id actor reason).
Proof.
  unfold Reveal. cbv zeta. destruct (String.eqb _ _); [auto with keeps|]. destruct (_ >? _)%Z; [auto with keeps|].
  destruct key as [k|]; [|auto with keeps]. apply keeps_bind; [apply _|auto with keeps|]. intros [p h].
  destruct (Open_ _ _ _ _); auto with keeps.
Qed.

Lemma keeps_step {E A} (m : tx E A) d : keeps m -> Inv d -> let d' := snd (m d) in Inv d' /\ follows d d'.
Proof. intros Hm HI. destruct (Hm d) as [H1 H2]. by apply same_commands. Qed.

(** *** Retention *)

Lemma finished_settled cutoff c : finished_before cutoff c = true -> settled c = true.
Proof. unfold finished_before, settled. destruct (c_CompletedAt c); [|done]. by intros [_ H]%andb_true_iff. Qed.

Lemma prune_inv cutoff limit batch d :
  Inv d -> Inv (snd (DeleteFinishedCommandsBefore cutoff limit batch d)).
Proof.
  intros [Hi Hr Hri Hrep]. unfold DeleteFinishedCommandsBefore. simpl.
  set (picked := fun c => finished_before cutoff c && existsb (String.eqb (c_ID c)) (take limit batch)).
  assert (forall {A} (g : A -> string) q (l : list A), NoDup (map g l) -> NoDup (map g (List.filter q l))) as Hsub.
  { intros A g q l. induction l as [|x l IH]; simpl; [done|]. intros [Hx Hl]%NoDup_cons.
    destruct (q x); [|by apply IH]. apply NoDup_cons. split; [|by apply IH].
    intros (y & Hy & [Hin _]%elem_of_filterb)%list_elem_of_fmap. apply Hx. apply list_elem_of_fmap. eauto. }
  split; simpl.
  - by apply Hsub.
  - intros c [Hc _]%elem_of_filterb. by apply Hr.
  - by apply Hsub.
  - intros id. unfold result_ids. simpl. rewrite list_elem_of_fmap. setoid_rewrite elem_of_filterb.
    setoid_rewrite negb_true_iff. split.
    + intros (x & -> & Hx & Hg). destruct (proj1 (Hrep (r_CommandID x))) as (c & Hc & Hid & Hrc).
      { apply list_elem_of_fmap. eauto. }
      exists c. split; [|done]. split; [done|].
      rewrite existsb_none in Hg. specialize (Hg c Hc). cbv beta in Hg.
      rewrite (proj2 (String.eqb_eq _ _) Hid), andb_true_r in Hg. exact Hg.
    + intros (c & [Hc Hp] & <- & Hrc).
      assert (c_ID c ∈ result_ids d) as (x & Hx & Hin)%list_elem_of_fmap by (apply Hrep; eauto).
      exists x. split; [done|]. split; [done|]. rewrite <- Hx. apply existsb_none. intros c' Hc'.
      destruct (String.eqb_spec (c_ID c') (c_ID c)) as [He|]; [|apply andb_false_r].
      rewrite (same_id_same_row _ c' c) by done. by rewrite Hp.
Qed.

(** Retention removes only commands that ended, before its cutoff. *)
Lemma prune_only_finished cutoff limit batch d c :
  c ∈ t_commands d -> finished_before cutoff c = false ->
  c ∈ t_commands (snd (DeleteFinishedCommandsBefore cutoff limit batch d)).
Proof.
  intros Hc Hf. simpl. apply elem_of_filterb. split; [done|]. by rewrite Hf.
Qed.

Lemma apply_step keys a d :
  Inv d -> Inv (apply keys a d) /\ (prunes a = false -> follows d (apply keys a d)).
Proof.
  intros HI. assert (forall d', Inv d' /\ follows d d' -> Inv d' /\ (prunes a = false -> follows d d')) as Hw
    by (intros d' []; auto).
  destruct a; simpl in *.
  - by apply Hw, queue_step.
  - rewrite check_step. by split.
  - by apply Hw, create_step.
  - by apply Hw, expire_step.
  - by apply Hw, deliver_step.
  - by apply Hw, start_step.
  - by apply Hw, complete_step.
  - apply Hw, keeps_step; [apply keeps_Escrow | done].
  - apply Hw, keeps_step; [apply keeps_Reveal | done].
  - split; [by apply prune_inv | done].
Qed.

Lemma history_step keys l d :
  Inv d -> Inv (history keys l d) /\ (forallb (fun a => negb (prunes a)) l = true -> follows d (history keys l d)).
Proof.
  revert d; induction l as [|a l IH]; intros d HI; simpl; [by split|].
  destruct (apply_step keys a d HI) as [HI1 HF1]. destruct (IH _ HI1) as [HI2 HF2]. split; [done|].
  intros [Hp%negb_true_iff Hl]%andb_true_iff. by etransitivity; [apply HF1 | apply HF2].
Qed.

(** C30. Whatever the servers, the sweeper and the devices do, in whatever order,
    the tables stay consistent: one row an id, timestamps that match each
    status, a result for exactly the commands a device reported on. And until
    retention removes it, a command only moves forward (queued, delivered,
    running, ended), keeps who it is for and what it says, and does not change
    again once it has ended. *)
Theorem commands_only_move_forward keys l d :
  Inv d ->
  Inv (history keys l d) /\
  (forallb (fun a => negb (prunes a)) l = true ->
   forall c, c ∈ t_commands d ->
     exists c', c' ∈ t_commands (history keys l d) /\ advances c c' /\ (settled c = true -> c' = c)).
Proof.
  intros HI. destruct (history_step keys l d HI) as [HI' HF]. split; [done|].
  intros Hl c Hc. destruct (HF Hl c Hc) as (c' & Hc' & Ha). exists c'. split; [done|]. split; [done|].
  intros Hs. by apply settled_final.
Qed.

(** A device's report on a command of its own that has not ended is
    recorded, once: the row ends with the reported status, one result is added,
    nothing else changes but the passwords the command was about. Repeating the
    report, or sending another, succeeds and changes nothing; a report on
    someone else's command, or none, is refused and changes nothing. *)
Theorem completion_is_recorded_once keys now dev id r d :
  Inv d -> reportable (rp_Status r) = true ->
  (exists c, c ∈ t_commands d /\ c_ID c = id /\ c_DeviceID c = dev /\ owed c = true /\
     let d' := after_complete now dev id r c d in
     Complete (app_service keys) now dev id r d = (Ok tt, d') /\
     forall now' r', reportable (rp_Status r') = true ->
       Complete (app_service keys) now' dev id r' d' = (Ok tt, d')) \/
  (exists c, c ∈ t_commands d /\ c_ID c = id /\ c_DeviceID c = dev /\ settled c = true /\
     Complete (app_service keys) now dev id r d = (Ok tt, d)) \/
  ((forall c, c ∈ t_commands d -> c_ID c = id -> c_DeviceID c <> dev) /\
   Complete (app_service keys) now dev id r d = (Err NotFound, d)).
Proof.
  intros HI Hst. pose proof (inv_ids d HI) as Hn.
  assert (forall d0 c0 now0 r0, Inv d0 -> c0 ∈ t_commands d0 -> settled c0 = true -> reportable (rp_Status r0) = true ->
    Complete (app_service keys) now0 (c_DeviceID c0) (c_ID c0) r0 d0 = (Ok tt, d0)) as Hdup.
  { intros d0 c0 now0 r0 HI0 Hc0 Hs0 Hst0. rewrite complete_unowed; [|done|done|].
    - by rewrite own_command_own by (apply HI0 || done).
    - intros x Hx [Hid _]%named_spec. rewrite (same_id_same_row _ x c0) by (apply HI0 || done).
      by rewrite owed_not_settled, Hs0 by (by apply (inv_rows d0)). }
  destruct (existsb (named id dev) (t_commands d)) eqn:E.
  - apply existsb_elem in E as (c & Hc & [<- <-]%named_spec).
    destruct (settled c) eqn:Hs; [right; left; exists c; by rewrite (Hdup d c)|]. left. exists c.
    assert (owed c = true) as Ho by (by rewrite owed_not_settled, Hs by (by apply (inv_rows d))).
    split; [done|]. split; [done|]. split; [done|]. split; [done|]. cbv zeta.
    split; [by apply complete_owed|]. intros now' r' Hst'.
    destruct (after_complete_step now r c d HI Hc Ho Hst) as [HI' _].
    apply (Hdup _ (finish now (rp_Status r) c)); [done| |by apply finish_reported|done].
    apply elem_of_update_where. exists c. split; [done|].
    by rewrite (proj2 (named_spec _ _ c)), Ho.
  - right. right. rewrite existsb_none in E.
    assert (forall c, c ∈ t_commands d -> c_ID c = id -> c_DeviceID c <> dev) as Ho.
    { intros c Hc Hid Hd. specialize (E c Hc). by rewrite (proj2 (named_spec id dev c)) in E. }
    split; [done|]. rewrite complete_unowed; [by rewrite own_command_other|done|done|].
    intros c Hc Hnm. by rewrite (E c Hc) in Hnm.
Qed.
End Life.

(** ** A concrete history *)

#[local] Existing Instance Toy.toy_crypto.
#[local] Existing Instance toy_time.

Lemma empty_inv devices : Inv (mkDB devices [] [] [] [] []).
Proof.
  split; try apply NoDup_nil_2; [by intros c ?%elem_of_nil|].
  intros id. split; [by intros ?%elem_of_nil | by intros (c & ?%elem_of_nil & _)].
Qed.

Module Day.
Definition report : Report := mkReport ResultSucceeded 0 "done" "" false false "" Fleet.now Fleet.now.
Definition run := history Some None [Toy.keyA].
Definition morning : db :=
  run [OpQueue (Some "c1"%string) Fleet.now Fleet.wipe_order; OpDeliver Fleet.now "d1";
       OpStart Fleet.now "d1" "c1"] Fleet.empty.
Definition evening : db :=
  run [OpExpire (Fleet.now + 48 * Hour); OpComplete Fleet.now "d1" "c1" report;
       OpStart Fleet.now "d1" "c1"] morning.
End Day.

Lemma morning_inv : Inv Day.morning.
Proof. apply history_step. apply empty_inv. Qed.

Lemma commands_only_move_forward_witness :
  map c_Status (t_commands Day.morning) = ["running"]%string /\
  map c_Status (t_commands Day.evening) = ["succeeded"]%string /\
  Inv Day.evening /\
  forall c, c ∈ t_commands Day.morning -> exists c', c' ∈ t_commands Day.evening /\ advances c c' /\
    (settled c = true -> c' = c).
Proof.
  split; [vm_compute; reflexivity|]. split; [vm_compute; reflexivity|].
  destruct (commands_only_move_forward Some None [Toy.keyA]
    [OpExpire (Fleet.now + 48 * Hour); OpComplete Fleet.now "d1" "c1" Day.report; OpStart Fleet.now "d1" "c1"]
    Day.morning morning_inv) as [H1 H2].
  split; [exact H1 | exact (H2 eq_refl)].
Defined.

Lemma completion_is_recorded_once_witness :
  (exists c, c ∈ t_commands Day.morning /\ c_ID c = "c1"%string /\ c_DeviceID c = "d1"%string /\ owed c = true /\
     let d' := after_complete Fleet.now "d1" "c1" Day.report c Day.morning in
     Complete (app_service [Toy.keyA]) Fleet.now "d1" "c1" Day.report Day.morning = (Ok tt, d') /\
     forall now' r', reportable (rp_Status r') = true ->
       Complete (app_service [Toy.keyA]) now' "d1" "c1" r' d' = (Ok tt, d')) \/
  (exists c, c ∈ t_commands Day.morning /\ c_ID c = "c1"%string /\ c_DeviceID c = "d1"%string /\ settled c = true /\
     Complete (app_service [Toy.keyA]) Fleet.now "d1" "c1" Day.report Day.morning = (Ok tt, Day.morning)) \/
  ((forall c, c ∈ t_commands Day.morning -> c_ID c = "c1"%string -> c_DeviceID c <> "d1"%string) /\
   Complete (app_service [Toy.keyA]) Fleet.now "d1" "c1" Day.report Day.morning = (Err NotFound, Day.morning)).
Proof. apply (completion_is_recorded_once [Toy.keyA]); [exact morning_inv | reflexivity]. Defined.
