(* ===== verification/LapsLife.v ===== *)
(** * What the escrow promises

    The administrator password in effect is always one of the escrowed rows:
    over every history of the command tables a pending row belongs to a running
    command, at most one row per device and account is active, and what was
    escrowed is what an administrator is shown. *)
From S2P Require Export CommandLife.
Open Scope go_scope.

Section LapsLife.
Context `{CR : Crypto, JT : JsonTime}.
Variable parse_uuid : string -> option string.
Variable key : option Key.

Definition running_rotation (p : AdminPassword) (c : Command) : Prop :=
  c_ID c = p_CommandID p /\ c_DeviceID c = p_DeviceID p /\
  c_Type c = CommandRotateAdminPassword /\ c_Status c = CommandRunning.

Definition same_account (p q : AdminPassword) : Prop :=
  p_DeviceID p = p_DeviceID q /\ EqualFold (p_Account p) (p_Account q) = true.

Record PwInv (d : db) : Prop := {
  pw_ids : NoDup (map p_ID (t_passwords d));
  pw_commands : NoDup (map p_CommandID (t_passwords d));
  pw_one_active : forall p q, p ∈ t_passwords d -> q ∈ t_passwords d ->
    p_State p = AdminPasswordActive -> p_State q = AdminPasswordActive -> same_account p q -> p = q;
  pw_pending : forall p, p ∈ t_passwords d -> p_State p = AdminPasswordPending ->
    exists c, c ∈ t_commands d /\ running_rotation p c }.

(** *** Running commands and the other operations *)

Definition keeps_running (d d' : db) : Prop :=
  t_passwords d' = t_passwords d /\
  forall c, c ∈ t_commands d -> c_Status c = CommandRunning -> c ∈ t_commands d'.

Lemma keeps_running_refl d : keeps_running d d.
Proof. by split. Qed.

Lemma keeps_running_trans d1 d2 d3 : keeps_running d1 d2 -> keeps_running d2 d3 -> keeps_running d1 d3.
Proof. intros [H1 H2] [H3 H4]. split; [congruence|]. auto. Qed.

Lemma keeps_running_PwInv d d' : keeps_running d d' -> PwInv d -> PwInv d'.
Proof.
  intros [Hp Hc] [H1 H2 H3 H4]. split; rewrite ?Hp; try done.
  intros p Hin Hs. destruct (H4 p Hin Hs) as (c & Hcin & Hr). exists c. split; [|done].
  apply Hc; [done|]. by destruct Hr as (_ & _ & _ & ?).
Qed.

Lemma update_keeps_running d p f :
  (forall c, p c = true -> c_Status c <> CommandRunning) ->
  keeps_running d (with_commands (update_where p f (t_commands d)) d).
Proof.
  intros Hp. split; [done|]. intros c Hc Hs. simpl. apply elem_of_update_where. exists c. split; [done|].
  destruct (p c) eqn:E; [|done]. by apply Hp in E.
Qed.

Lemma append_keeps_running d d' l :
  t_passwords d' = t_passwords d -> t_commands d' = t_commands d ++ l -> keeps_running d d'.
Proof. intros Hp Hc. split; [done|]. intros c. rewrite Hc, elem_of_app. auto. Qed.

Lemma waiting_not_running l c :
  has_status l c = true -> CommandRunning ∉ l -> c_Status c <> CommandRunning.
Proof. rewrite has_status_spec. intros H Hn He. by rewrite He in H. Qed.

Lemma expire_running now d : keeps_running d (snd (ExpireCommands now d)).
Proof.
  apply update_keeps_running. intros c [H _]%andb_true_iff. apply (waiting_not_running _ _ H). set_solver.
Qed.

Lemma start_running now dev id d : keeps_running d (snd (Start now dev id d)).
Proof.
  unfold Start, InTx, tbind, tmap_err, MarkCommandRunning. simpl.
  set (d1 := with_commands _ d). assert (keeps_running d d1) as H.
  { apply update_keeps_running. intros c [_ H]%andb_true_iff. apply (waiting_not_running [CommandQueued; CommandDelivered] c H). set_solver. }
  destruct (0 <? count_where _ _)%Z; simpl; [done|].
  pose proof (own_command_pure dev id d1) as Hp. destruct (own_command dev id d1) as [[u|e] d2]; simpl in *; subst;
    [done | apply keeps_running_refl].
Qed.

Lemma deliver_running now dev d : keeps_running d (snd (Deliver now dev d)).
Proof.
  unfold Deliver, InTx, tbind, tmap_err. simpl. pose proof (expire_running now d) as H1. simpl in H1.
  set (d1 := with_commands (update_where (expired_at now) _ (t_commands d)) d) in *.
  set (fresh := map c_ID _). destruct fresh as [|i r]; simpl; [done|].
  eapply keeps_running_trans; [exact H1|]. apply (update_keeps_running d1).
  intros c [_ H]%andb_true_iff. apply (waiting_not_running [CommandQueued] c H). set_solver.
Qed.

Lemma prune_running cutoff limit batch d :
  keeps_running d (snd (DeleteFinishedCommandsBefore cutoff limit batch d)).
Proof.
  split; [done|]. intros c Hc Hs. apply prune_only_finished; [done|]. unfold finished_before.
  destruct (c_CompletedAt c); [|done]. unfold has_status. rewrite Hs. apply andb_false_r.
Qed.

Lemma queue_running s id now o d : keeps_running d (snd (Queue s id now o d)).
Proof.
  unfold Queue. destruct (queue s id now o false d) as [[c|e] d'] eqn:E; simpl.
  - apply queue_Ok in E as (_ & payload & ttl & i & dev & _ & -> & _ & _ & _ & -> & ->).
    by eapply append_keeps_running.
  - apply queue_Err in E as ->. apply keeps_running_refl.
Qed.

Lemma create_running c d : keeps_running d (snd (InTx (CreateCommand c) d)).
Proof.
  destruct (InTx (CreateCommand c) d) as [[u|e] d'] eqn:E; simpl.
  - apply (proj1 (InTx_Ok _ _ _ _)) in E. apply CreateCommand_Ok in E as (_ & _ & ->).
    by eapply append_keeps_running.
  - apply InTx_Err in E as ->. apply keeps_running_refl.
Qed.

Lemma reveal_running id actor reason d : keeps_running d (snd (Reveal key id actor reason d)).
Proof.
  destruct (keeps_Reveal key id actor reason d) as [Hc _]. split; [|intros c; by rewrite Hc].
  unfold Reveal. cbv zeta. destruct (String.eqb _ _); [done|]. destruct (_ >? _)%Z; [done|].
  destruct key as [k|]; [|done]. unfold tbind, tmap_err, GetAdminPassword.
  destruct (find _ _) as [p|]; [|done]. destruct (_ !! _); [|done]. by destruct (Open_ _ _ _ _).
Qed.

(** *** Settling *)

Definition settle_row (commandID : string) (l : list AdminPassword) (at_ : time) (p : AdminPassword) : AdminPassword :=
  if pending_for commandID p then set_password_state AdminPasswordActive (Some at_) p
  else if superseded_by (List.filter (pending_for commandID) l) p
       then set_password_state AdminPasswordSuperseded (p_ActivatedAt p) p
       else p.

Lemma pending_for_spec id p : pending_for id p = true <-> p_CommandID p = id /\ p_State p = AdminPasswordPending.
Proof. unfold pending_for. by rewrite andb_true_iff, !String.eqb_eq. Qed.

Lemma settle_row_keys id l at_ p :
  p_ID (settle_row id l at_ p) = p_ID p /\ p_CommandID (settle_row id l at_ p) = p_CommandID p /\
  p_DeviceID (settle_row id l at_ p) = p_DeviceID p /\ p_Account (settle_row id l at_ p) = p_Account p.
Proof. unfold settle_row. destruct (pending_for id p); [done|]. by destruct (superseded_by _ _). Qed.

Lemma settle_row_active id l at_ p :
  p_State (settle_row id l at_ p) = AdminPasswordActive ->
  pending_for id p = true \/
  (p_State p = AdminPasswordActive /\ superseded_by (List.filter (pending_for id) l) p = false).
Proof. unfold settle_row. destruct (pending_for id p); [auto|]. destruct (superseded_by _ _) eqn:E; [done|auto]. Qed.

Lemma EqualFold_sym a b : EqualFold a b = EqualFold b a.
Proof. unfold EqualFold. apply String.eqb_sym. Qed.

(** An active row that survives a settling is not of the settled account. *)
Lemma survivor_differs id l p q :
  q ∈ l -> pending_for id q = true -> p_State p = AdminPasswordActive ->
  superseded_by (List.filter (pending_for id) l) p = false -> same_account p q -> p_ID p = p_ID q.
Proof.
  intros Hq Hpq Hp Hs [Hd He]. unfold superseded_by in Hs. rewrite Hp, String.eqb_refl in Hs. simpl in Hs.
  rewrite existsb_none in Hs. specialize (Hs q ltac:(by apply elem_of_filterb)).
  rewrite Hd, String.eqb_refl, He in Hs. simpl in Hs. by apply negb_false_iff, String.eqb_eq in Hs.
Qed.

Lemma settled_one_active id at_ l :
  NoDup (map p_ID l) -> NoDup (map p_CommandID l) ->
  (forall p q, p ∈ l -> q ∈ l -> p_State p = AdminPasswordActive -> p_State q = AdminPasswordActive ->
     same_account p q -> p = q) ->
  forall p q, p ∈ l -> q ∈ l -> p_State (settle_row id l at_ p) = AdminPasswordActive ->
    p_State (settle_row id l at_ q) = AdminPasswordActive -> same_account p q -> p = q.
Proof.
  intros Hi Hc Ho p q Hp Hq [Ep|[Ap Sp]]%settle_row_active [Eq|[Aq Sq]]%settle_row_active Hsame.
  - apply pending_for_spec in Ep as [Ep _], Eq as [Eq _].
    apply (NoDup_map_inj p_CommandID l); [done..|congruence].
  - apply (NoDup_map_inj p_ID l); [done..|]. symmetry. apply (survivor_differs id l); try done.
    destruct Hsame as [H1 H2]. split; [done|]. by rewrite EqualFold_sym.
  - apply (NoDup_map_inj p_ID l); [done..|]. by apply (survivor_differs id l).
  - by apply Ho.
Qed.

(** What settling does to the rows, whatever the command and its end. *)
Lemma settle_shape c status at_ d :
  PwInv d -> exists g : AdminPassword -> AdminPassword,
    t_passwords (snd (Settle c status at_ d)) = map g (t_passwords d) /\
    (forall p, p_ID (g p) = p_ID p /\ p_CommandID (g p) = p_CommandID p /\
       p_DeviceID (g p) = p_DeviceID p /\ p_Account (g p) = p_Account p) /\
    (forall p, p_State (g p) = AdminPasswordPending -> p_State p = AdminPasswordPending /\
       (c_Type c = CommandRotateAdminPassword -> p_CommandID p <> c_ID c)) /\
    (forall p q, p ∈ t_passwords d -> q ∈ t_passwords d -> p_State (g p) = AdminPasswordActive ->
       p_State (g q) = AdminPasswordActive -> same_account p q -> p = q).
Proof.
  intros [Hi Hc Ho _]. unfold Settle.
  destruct (String.eqb_spec (c_Type c) CommandRotateAdminPassword) as [Ht|Ht]; cbn [negb].
  2:{ exists (fun p => p). rewrite map_id. split; [done|]. split; [done|]. split; [done|]. by apply Ho. }
  unfold tmap_err, SettleAdminPassword. destruct (String.eqb status ResultSucceeded); cbn [negb snd].
  - exists (settle_row (c_ID c) (t_passwords d) at_). split; [done|]. split; [apply settle_row_keys|].
    split; [|by apply settled_one_active]. intros p. unfold settle_row.
    destruct (pending_for (c_ID c) p) eqn:E; [done|]. destruct (superseded_by _ _); [done|].
    intros Hp. split; [done|]. intros _ Hid. rewrite (proj2 (pending_for_spec _ p)) in E by done. done.
  - exists (fun p => if pending_for (c_ID c) p then set_password_state AdminPasswordAbandoned (p_ActivatedAt p) p else p).
    split; [done|]. split; [intros p; by destruct (pending_for _ p)|]. split.
    + intros p. destruct (pending_for (c_ID c) p) eqn:E; [done|].
      intros Hp. split; [done|]. intros _ Hid. rewrite (proj2 (pending_for_spec _ p)) in E by done. done.
    + intros p q Hp Hq. destruct (pending_for _ p); [done|]. destruct (pending_for _ q); [done|]. by apply Ho.
Qed.

Lemma complete_PwInv now r c d :
  Inv d -> PwInv d -> c ∈ t_commands d -> owed c = true ->
  PwInv (after_complete now (c_DeviceID c) (c_ID c) r c d).
Proof.
  intros HI HP Hc Ho.
  destruct (settle_shape (finish now (rp_Status r) c) (rp_Status r) now d HP) as (g & Hg & Hk & Hpend & Hact).
  assert (map p_ID (map g (t_passwords d)) = map p_ID (t_passwords d)) as Hids
    by (rewrite map_map; apply map_ext; intros p; apply Hk).
  assert (map p_CommandID (map g (t_passwords d)) = map p_CommandID (t_passwords d)) as Hcids
    by (rewrite map_map; apply map_ext; intros p; apply Hk).
  split; unfold after_complete; cbn [t_passwords t_commands]; rewrite Hg.
  - rewrite Hids. apply HP.
  - rewrite Hcids. apply HP.
  - intros p' q' (p & -> & Hp)%list_elem_of_fmap (q & -> & Hq)%list_elem_of_fmap Ap Aq [Hd He].
    destruct (Hk p) as (_ & _ & Hpd & Hpa), (Hk q) as (_ & _ & Hqd & Hqa).
    rewrite Hpd, Hqd, Hpa, Hqa in *. f_equal. by apply Hact.
  - intros p' (p & -> & Hp)%list_elem_of_fmap Hs. apply Hpend in Hs as [Hs Hne].
    destruct (pw_pending d HP p Hp Hs) as (c' & Hc' & Hid & Hdev & Ht & Hst).
    exists c'. split.
    + apply elem_of_update_where. exists c'. split; [done|].
      destruct (named (c_ID c) (c_DeviceID c) c') eqn:E; [|done]. apply named_spec in E as [E _].
      assert (c' = c) as -> by (apply (same_id_same_row (t_commands d)); [apply HI|done..]).
      exfalso. by apply Hne.
    + destruct (Hk p) as (_ & Hpc & Hpd & _). unfold running_rotation. by rewrite Hpc, Hpd.
Qed.

(** *** Escrowing *)

(** A successful escrow: the command it is for, and the tables after it. *)
Lemma Escrow_Ok new_id rand now dev req d u d' :
  Escrow parse_uuid key new_id rand now dev req d = (Ok u, d') ->
  exists commandID c k ct nonce d1,
    parse_uuid (e_CommandID req) = Some commandID /\ key = Some k /\
    c ∈ t_commands d /\ c_ID c = commandID /\ c_DeviceID c = dev /\
    c_Type c = CommandRotateAdminPassword /\ c_Status c = CommandRunning /\
    Seal k rand (e_Password req) (SealContext dev (TrimSpace (e_Account req))) = Some (ct, nonce) /\
    UpsertPendingAdminPassword (mkAdminPassword new_id dev (TrimSpace (e_Account req)) ct nonce "" commandID now None) d
      = (Ok tt, d1) /\
    d' = mkDB (t_devices d1) (t_commands d1) (t_results d1) (t_passwords d1)
           (t_audit d1 ++ [escrow_audit dev (TrimSpace (e_Account req)) commandID]) (t_wakes d1).
Proof.
  unfold Escrow. destruct (parse_uuid _) as [commandID|] eqn:Eu; [|done]. cbv zeta.
  destruct (_ || _); [done|]. destruct (_ || _); [done|]. destruct key as [k|]; [|done].
  intros H. txs. apply GetCommand_Ok in H as (-> & Hc & Hid).
  destruct (Seal _ _ _ _) as [[ct nonce]|] eqn:Es; [|done]. txs.
  repeat match goal with H : String.eqb _ _ = true |- _ => apply String.eqb_eq in H end.
  match goal with H : UpsertPendingAdminPassword _ _ = (Ok ?x, ?d1) |- _ => destruct x; rename d1 into d1' end.
  match goal with H : InsertAudit _ _ = _ |- _ => injection H as _ H end.
  eexists _, _, k, ct, nonce, d1'. split; [reflexivity|]. split; [reflexivity|]. split; [exact Hc|].
  split; [done|]. split; [done|]. split; [done|]. split; [done|]. split; [done|]. split; [eassumption|]. done.
Qed.

Lemma Escrow_Err new_id rand now dev req d e d' :
  Escrow parse_uuid key new_id rand now dev req d = (Err e, d') -> d' = d.
Proof.
  unfold Escrow. destruct (parse_uuid _); [|by intros [= _ <-]]. cbv zeta.
  destruct (_ || _); [by intros [= _ <-]|]. destruct (_ || _); [by intros [= _ <-]|].
  destruct key as [k|]; [|by intros [= _ <-]]. unfold tbind at 1, tmap_err at 1.
  destruct (GetCommand _ d) as [[c|e'] d1] eqn:E; [apply GetCommand_Ok in E as (-> & _ & _)|apply GetCommand_Err in E as [-> _]; by intros [= _ <-]].
  unfold tbind at 1, tensure at 1. destruct (String.eqb _ dev); [|by intros [= _ <-]].
  unfold tbind at 1, tensure at 1. destruct (String.eqb _ CommandRotateAdminPassword); [|by intros [= _ <-]].
  unfold tbind at 1, tensure at 1. destruct (String.eqb _ CommandRunning); [|by intros [= _ <-]].
  unfold tret. destruct (Seal _ _ _ _) as [[ct nonce]|]; [apply InTx_Err | by intros [= _ <-]].
Qed.

(** The row an upsert leaves for a command, and the rest of the table. *)
Definition same_escrow (p q : AdminPassword) : Prop :=
  p_DeviceID q = p_DeviceID p /\ p_Account q = p_Account p /\ p_Ciphertext q = p_Ciphertext p /\
  p_Nonce q = p_Nonce p /\ p_CommandID q = p_CommandID p.

Lemma upsert_PwInv p c d d1 :
  PwInv d -> c ∈ t_commands d -> running_rotation p c ->
  UpsertPendingAdminPassword p d = (Ok tt, d1) ->
  PwInv d1 /\ t_commands d1 = t_commands d /\ t_results d1 = t_results d /\ t_devices d1 = t_devices d.
Proof.
  intros [Hi Hc Ho Hpe] Hin Hrun. unfold UpsertPendingAdminPassword.
  destruct (existsb _ (t_passwords d)) eqn:E.
  - intros [= <-]. split; [|done]. set (u := fun q => String.eqb _ _ && _ && _).
    assert (forall q, u q = true -> p_State q = AdminPasswordPending) as Hu.
    { intros q [[_ H]%andb_true_iff _]%andb_true_iff. by apply String.eqb_eq. }
    split; simpl.
    + by rewrite update_where_map.
    + by rewrite update_where_map.
    + intros x y (p' & Hp' & ->)%elem_of_update_where (q' & Hq' & ->)%elem_of_update_where.
      destruct (u p') eqn:Ep; [simpl; rewrite (Hu _ Ep); discriminate|].
      destruct (u q') eqn:Eq; [simpl; rewrite (Hu _ Eq); discriminate|]. by apply Ho.
    + intros x (q & Hq & ->)%elem_of_update_where Hs.
      assert (p_State q = AdminPasswordPending) as Hsq by (destruct (u q) eqn:Eu; [by apply Hu|done]).
      destruct (Hpe q Hq Hsq) as (c' & Hc' & Hr). exists c'. split; [done|]. by destruct (u q).
  - destruct (existsb (fun q => String.eqb (p_ID q) (p_ID p)) (t_passwords d)) eqn:E2; [done|].
    destruct (t_devices d !! p_DeviceID p); [|done]. intros [= <-]. split; [|done].
    rewrite existsb_none in E. rewrite existsb_none in E2. split; simpl.
    + rewrite map_app. apply NoDup_app. split; [done|]. split; [|apply NoDup_singleton].
      intros x (q & -> & Hq)%list_elem_of_fmap Hx%list_elem_of_singleton.
      apply (proj1 (String.eqb_neq _ _) (E2 q Hq)). done.
    + rewrite map_app. apply NoDup_app. split; [done|]. split; [|apply NoDup_singleton].
      intros x (q & -> & Hq)%list_elem_of_fmap Hx%list_elem_of_singleton.
      apply (proj1 (String.eqb_neq _ _) (E q Hq)). done.
    + intros x y. rewrite !elem_of_app, !list_elem_of_singleton. intros [Hx| ->] [Hy| ->]; simpl; try done. by apply Ho.
    + intros x. rewrite elem_of_app, list_elem_of_singleton. intros [Hx| ->] Hs; [by apply Hpe|]. by exists c.
Qed.

Lemma apply_PwInv keys a d : Inv d -> PwInv d -> PwInv (apply parse_uuid key keys a d).
Proof.
  intros HI HP. destruct a; simpl.
  - by eapply keeps_running_PwInv; [apply queue_running|].
  - by rewrite check_step.
  - by eapply keeps_running_PwInv; [apply create_running|].
  - by eapply keeps_running_PwInv; [apply (expire_running now d)|].
  - by eapply keeps_running_PwInv; [apply deliver_running|].
  - by eapply keeps_running_PwInv; [apply start_running|].
  - destruct (reportable (rp_Status r)) eqn:Hst; [|by unfold Complete; rewrite Hst].
    destruct (existsb (fun c => named commandID deviceID c && owed c) (t_commands d)) eqn:E.
    + apply existsb_elem in E as (c & Hc & [[<- <-]%named_spec Ho]%andb_true_iff).
      rewrite complete_owed by done. by apply complete_PwInv.
    + rewrite complete_unowed; [done..|]. intros c Hc Hn.
      rewrite existsb_none in E. specialize (E c Hc). simpl in E. by rewrite Hn in E.
  - destruct (Escrow _ _ _ _ _ _ _ d) as [[u|e] d'] eqn:E; simpl.
    + apply Escrow_Ok in E as (cid & c & k & ct & nonce & d1 & _ & _ & Hc & <- & <- & Ht & Hs & _ & Hup & ->).
      pose proof (fun H => upsert_PwInv _ c d d1 HP Hc H Hup) as H.
      destruct H as ([H1 H2 H3 H4] & _); [by split|]. by split.
    + by apply Escrow_Err in E as ->.
  - by eapply keeps_running_PwInv; [apply reveal_running|].
  - by eapply keeps_running_PwInv; [apply (prune_running cutoff limit batch d)|].
Qed.

(** Over every history, an escrowed password is pending only while the
    command that sets it is running on its device, and a device's account has
    at most one active password: the password in effect is always one of these
    rows. *)
Theorem escrow_tracks_the_password_in_effect keys l d :
  Inv d -> PwInv d -> PwInv (history parse_uuid key keys l d).
Proof.
  revert d; induction l as [|a l IH]; intros d HI HP; [done|].
  apply IH; [by apply apply_step | by apply apply_PwInv].
Qed.

(** *** Revealing *)

Lemma upsert_row p d d1 :
  PwInv d -> (forall q, q ∈ t_passwords d -> p_CommandID q = p_CommandID p ->
                p_State q = AdminPasswordPending /\ p_DeviceID q = p_DeviceID p) ->
  UpsertPendingAdminPassword p d = (Ok tt, d1) ->
  is_Some (t_devices d !! p_DeviceID p) ->
  exists q, q ∈ t_passwords d1 /\ same_escrow p q /\ p_State q = AdminPasswordPending.
Proof.
  intros HP Hpend. unfold UpsertPendingAdminPassword. destruct (existsb _ (t_passwords d)) eqn:E.
  - intros [= <-] _. apply existsb_elem in E as (q & Hq & Hid%String.eqb_eq). destruct (Hpend q Hq Hid) as [Hs Hd].
    eexists. split; [apply elem_of_update_where; exists q; split; [exact Hq|reflexivity]|].
    rewrite Hid, Hs, Hd, !String.eqb_refl. simpl. by split.
  - destruct (existsb (fun q => String.eqb (p_ID q) (p_ID p)) (t_passwords d)) eqn:E2; [done|].
    destruct (t_devices d !! p_DeviceID p); [|done].
    intros [= <-] _. eexists. split; [apply elem_of_app; right; by apply list_elem_of_singleton|]. done.
Qed.

Lemma find_password l q : NoDup (map p_ID l) -> q ∈ l -> find (fun p => String.eqb (p_ID p) (p_ID q)) l = Some q.
Proof.
  intros Hn Hq. destruct (find _ l) as [x|] eqn:E.
  - apply find_some in E as [Hx%list_elem_of_In He%String.eqb_eq]. f_equal. by apply (NoDup_map_inj p_ID l).
  - apply list_elem_of_In in Hq. pose proof (find_none _ _ E q Hq) as H. simpl in H.
    by rewrite String.eqb_refl in H.
Qed.

(** A row without its secrets. *)
Definition without_secrets (p : AdminPassword) : AdminPassword :=
  mkAdminPassword (p_ID p) (p_DeviceID p) (p_Account p) "" "" (p_State p) (p_CommandID p)
    (p_CreatedAt p) (p_ActivatedAt p).

Lemma Reveal_row k q dev plain actor reason d :
  NoDup (map p_ID (t_passwords d)) -> q ∈ t_passwords d -> t_devices d !! p_DeviceID q = Some dev ->
  TrimSpace reason <> EmptyString -> slen (TrimSpace reason) <= maxReason ->
  Open_ k (p_Ciphertext q) (p_Nonce q) (SealContext (p_DeviceID q) (p_Account q)) = Some plain ->
  Reveal (Some k) (p_ID q) actor reason d
  = (Ok (without_secrets q, plain),
     mkDB (t_devices d) (t_commands d) (t_results d) (t_passwords d)
       (t_audit d ++ [reveal_audit actor (TrimSpace reason) (d_Hostname dev) q]) (t_wakes d)).
Proof.
  intros Hn Hq Hd Hne Hlen Ho. unfold Reveal. cbv zeta. rewrite (proj2 (String.eqb_neq _ _) Hne).
  destruct (Z.gtb_spec (slen (TrimSpace reason)) maxReason); [lia|].
  unfold tbind at 1, tmap_err, GetAdminPassword. by rewrite find_password, Hd, Ho.
Qed.

(** A password the server has accepted in escrow is the password an
    administrator is later shown for that row, once a reason is given; and the
    showing is on record, with who asked and why, when it happens. *)
Theorem escrowed_password_can_be_revealed k new_id rand now dev device req commandID d d' :
  key = Some k -> key_opens k -> PwInv d ->
  parse_uuid (e_CommandID req) = Some commandID -> t_devices d !! dev = Some device ->
  (forall q, q ∈ t_passwords d -> p_CommandID q = commandID ->
     p_State q = AdminPasswordPending /\ p_DeviceID q = dev) ->
  Escrow parse_uuid key new_id rand now dev req d = (Ok tt, d') ->
  exists q, q ∈ t_passwords d' /\ p_State q = AdminPasswordPending /\ p_CommandID q = commandID /\
    p_DeviceID q = dev /\ p_Account q = TrimSpace (e_Account req) /\
    forall actor reason, TrimSpace reason <> EmptyString -> slen (TrimSpace reason) <= maxReason ->
      Reveal key (p_ID q) actor reason d'
      = (Ok (without_secrets q, e_Password req),
         mkDB (t_devices d') (t_commands d') (t_results d') (t_passwords d')
           (t_audit d' ++ [reveal_audit actor (TrimSpace reason) (d_Hostname device) q]) (t_wakes d')).
Proof.
  intros Hk Hopen HP Hu Hdev Hrows HE.
  apply Escrow_Ok in HE as (cid & c & k' & ct & nonce & d1 & Hu' & Hk' & Hc & Hid & Hcd & Ht & Hs & Hseal & Hup & ->).
  rewrite Hu in Hu'. injection Hu' as <-. rewrite Hk in Hk'. injection Hk' as <-.
  set (p := mkAdminPassword new_id dev _ ct nonce _ commandID now None) in Hup.
  destruct (upsert_PwInv p c d d1 HP Hc) as (HP1 & _ & _ & Hd1); [by split|done|].
  destruct (upsert_row p d d1) as (q & Hq & (Hqd & Hqa & Hqc & Hqn & Hqi) & Hqs); [done..|by exists device|].
  simpl in *. exists q. split; [done|]. split; [done|]. split; [done|]. split; [done|]. split; [done|].
  intros actor reason Hne Hlen. rewrite Hk.
  rewrite (Reveal_row k q device (e_Password req)); simpl; try done.
  - apply HP1.
  - by rewrite Hd1, Hqd.
  - rewrite Hqc, Hqn, Hqd, Hqa. by eapply Hopen.
Qed.
End LapsLife.

(** ** A concrete rotation *)

#[local] Existing Instance Toy.toy_crypto.
#[local] Existing Instance toy_time.

Lemma empty_pw_inv devices : PwInv (mkDB devices [] [] [] [] []).
Proof.
  split; try apply NoDup_nil_2; [by intros p q ?%elem_of_nil | by intros p ?%elem_of_nil].
Qed.

Module Rotation.
Definition seal_key : Key :=
  mkKey (mkAEAD 1 (fun _ plain ctx => (ctx ++ "|" ++ plain)%string) (fun _ ct ctx => CutPrefix (ctx ++ "|")%string ct)) "".
Definition order : QueueOptions := mkQueueOptions "d1" CommandRotateAdminPassword NoPayload "admin" 0 "" "".
Definition request : EscrowRequest := mkEscrow "r1" " Administrator " "correct-horse-battery-staple".
Definition run := history Some (Some seal_key) [].
Definition started : db :=
  run [OpQueue (Some "r1"%string) Fleet.now order; OpDeliver Fleet.now "d1"; OpStart Fleet.now "d1" "r1"] Fleet.empty.
Definition escrowed : db := snd (Escrow Some (Some seal_key) "p1" "n" Fleet.now "d1" request started).
Definition ops : list op :=
  [OpEscrow "p1" "n" Fleet.now "d1" request; OpComplete Fleet.now "d1" "r1" Day.report].
End Rotation.

Lemma started_inv : Inv Rotation.started /\ PwInv Rotation.started.
Proof.
  split; [apply history_step, empty_inv|].
  set (l := [OpQueue (Some "r1"%string) Fleet.now Rotation.order; OpDeliver Fleet.now "d1"; OpStart Fleet.now "d1" "r1"]).
  change Rotation.started with (history Some (Some Rotation.seal_key) [] l Fleet.empty).
  assert (forall l d, Inv d -> PwInv d -> PwInv (history Some (Some Rotation.seal_key) [] l d)) as H.
  { clear l. intros l. induction l as [|a l IH]; intros d HI HP; [done|].
    apply IH; [by apply apply_step | by apply apply_PwInv]. }
  apply H; [apply empty_inv | apply empty_pw_inv].
Qed.

Lemma escrow_tracks_the_password_in_effect_witness :
  map p_State (t_passwords (Rotation.run Rotation.ops Rotation.started)) = ["active"]%string /\
  PwInv (Rotation.run Rotation.ops Rotation.started).
Proof.
  split; [vm_compute; reflexivity|].
  apply (escrow_tracks_the_password_in_effect Some (Some Rotation.seal_key) []); apply started_inv.
Defined.

Lemma rotation_key_opens : key_opens Rotation.seal_key.
Proof.
  apply aead_key_opens. intros nonce plain ctx _. simpl. rewrite <- sapp_assoc. apply CutPrefix_app.
Qed.

Lemma escrowed_password_can_be_revealed_witness :
  exists q, q ∈ t_passwords Rotation.escrowed /\
    fst (Reveal (Some Rotation.seal_key) (p_ID q) "admin" "lost access" Rotation.escrowed)
      = Ok (without_secrets q, "correct-horse-battery-staple"%string).
Proof.
  destruct (escrowed_password_can_be_revealed Some (Some Rotation.seal_key) Rotation.seal_key "p1" "n" Fleet.now
    "d1" (mkDevice "PC-1" "active") Rotation.request "r1" Rotation.started Rotation.escrowed)
    as (q & Hq & _ & _ & _ & _ & Hr).
  - reflexivity.
  - exact rotation_key_opens.
  - apply started_inv.
  - reflexivity.
  - vm_compute. reflexivity.
  - vm_compute. intros q Hq. by apply elem_of_nil in Hq.
  - vm_compute. reflexivity.
  - exists q. split; [exact Hq|].
    rewrite (Hr "admin"%string "lost access"%string) by (vm_compute; discriminate). reflexivity.
Defined.
