(* ===== verification/Compliance.v ===== *)
(** * Compliance rules

    [internal/server/compliance/rules.go]: parsing a policy's rules and
    evaluating them against a device's facts.

    Parameters: [uuid_parse] is the third-party parser of UUIDs, giving the
    canonical text of one; [to_lower] is Unicode [strings.ToLower]; [format_date]
    is the rendering of a day in a message. [Inventory] has the fields the
    evaluator reads. *)
From S2P Require Export Json.
From Stdlib Require Import SpecFloat.
Open Scope go_scope.

(** ** Rules *)

Definition RuleOSBuildMin : string := "os_build_min".
Definition RuleOSBuildMinPerRelease : string := "os_build_min_per_release".
Definition RuleAgentVersionMin : string := "agent_version_min".
Definition RuleBitLocker : string := "bitlocker".
Definition RuleTPM : string := "tpm".
Definition RuleCheckedInWithin : string := "checked_in_within".
Definition RuleInventoryWithin : string := "inventory_within".
Definition RuleUpdatesWithin : string := "updates_within".
Definition RuleNoPendingReboot : string := "no_pending_reboot".
Definition RuleMaxLocalAdmins : string := "max_local_admins".
Definition RuleForbiddenSoftware : string := "forbidden_software".
Definition RuleRequiredSoftware : string := "required_software".
Definition RuleProfileApplied : string := "profile_applied".
Definition RuleDefenderRealtime : string := "defender_realtime".
Definition RuleDefenderSignaturesWithin : string := "defender_signatures_within".
Definition RuleFirewallEnabled : string := "firewall_enabled".
Definition RuleMaxMissingSecurityUpdates : string := "max_missing_security_updates".

Definition updateScanStale : duration := 7 * 24 * Hour.
Definition MinSignatureDays : Z := 1.
Definition MaxSignatureDays : Z := 30.
Definition firewallProfiles : list string := ["domain"; "private"; "public"]%string.
Definition VolumesSystem : string := "system".
Definition VolumesAll : string := "all".
Definition MinHours : Z := 1.
Definition MaxHours : Z := 8760.
Definition MinDays : Z := 1.
Definition MaxDays : Z := 365.
Definition MinAdmins : Z := 0.
Definition MaxAdmins : Z := 100.
Definition MinNameLen : Z := 1.
Definition MaxNameLen : Z := 200.
Definition MinRules : Z := 1.
Definition MaxRules : Z := 50.

Definition StateCompliant : string := "compliant".
Definition StateNonCompliant : string := "non_compliant".
Definition StateUnknown : string := "unknown".

Record Rule := mkRule {
  ru_Type : string;
  ru_Build : string;
  ru_Minimums : gmap string string;
  ru_Version : string;
  ru_Volumes : string;
  ru_MinVersion : string;
  ru_Hours : Z;
  ru_Days : Z;
  ru_Count : Z;
  ru_Name : string;
  ru_ProfileID : string;
  ru_Profiles : list string }.

(** One constructor per kind of rule: the zero rule with the fields it uses. *)
Definition rule0 (t : string) : Rule :=
  mkRule t EmptyString ∅ EmptyString EmptyString EmptyString 0 0 0 EmptyString EmptyString [].
Definition ruleBuild (t b : string) : Rule :=
  mkRule t b ∅ EmptyString EmptyString EmptyString 0 0 0 EmptyString EmptyString [].
Definition ruleMinimums (t : string) (m : gmap string string) : Rule :=
  mkRule t EmptyString m EmptyString EmptyString EmptyString 0 0 0 EmptyString EmptyString [].
Definition ruleVersion (t v : string) : Rule :=
  mkRule t EmptyString ∅ v EmptyString EmptyString 0 0 0 EmptyString EmptyString [].
Definition ruleVolumes (t v : string) : Rule :=
  mkRule t EmptyString ∅ EmptyString v EmptyString 0 0 0 EmptyString EmptyString [].
Definition ruleMinVersion (t v : string) : Rule :=
  mkRule t EmptyString ∅ EmptyString EmptyString v 0 0 0 EmptyString EmptyString [].
Definition ruleHours (t : string) (n : Z) : Rule :=
  mkRule t EmptyString ∅ EmptyString EmptyString EmptyString n 0 0 EmptyString EmptyString [].
Definition ruleDays (t : string) (n : Z) : Rule :=
  mkRule t EmptyString ∅ EmptyString EmptyString EmptyString 0 n 0 EmptyString EmptyString [].
Definition ruleCount (t : string) (n : Z) : Rule :=
  mkRule t EmptyString ∅ EmptyString EmptyString EmptyString 0 0 n EmptyString EmptyString [].
Definition ruleName (t n : string) : Rule :=
  mkRule t EmptyString ∅ EmptyString EmptyString EmptyString 0 0 0 n EmptyString [].
Definition ruleProfile (t p : string) : Rule :=
  mkRule t EmptyString ∅ EmptyString EmptyString EmptyString 0 0 0 EmptyString p [].
Definition ruleProfiles (t : string) (l : list string) : Rule :=
  mkRule t EmptyString ∅ EmptyString EmptyString EmptyString 0 0 0 EmptyString EmptyString l.

(** ** Dotted versions *)

(** One component: digits only, and in range. *)
Definition dotted_part (p : string) : option Z :=
  if String.eqb p "" then None
  else if sall is_digit p then Atoi p else None.

Fixpoint dotted_parts (ps : list string) : option (list Z) :=
  match ps with
  | [] => Some []
  | p :: r => match dotted_part p, dotted_parts r with Some n, Some ns => Some (n :: ns) | _, _ => None end
  end.

Definition splitDotted (s : string) : option (list Z) :=
  if String.eqb s "" then None else dotted_parts (Split "." s).

Definition dottedNumeric (s : string) : bool :=
  match splitDotted s with Some _ => true | None => false end.

(** The loop of [CompareDotted]: a missing component counts as zero. *)
Fixpoint compare_parts (n : nat) (xs ys : list Z) : Z :=
  match n with
  | O => 0
  | S n => let x := hd 0 xs in let y := hd 0 ys in
           if x =? y then compare_parts n (tl xs) (tl ys) else if x <? y then -1 else 1
  end.

Definition CompareDotted (a b : string) : option Z :=
  match splitDotted a with
  | None => None
  | Some xs => match splitDotted b with
               | None => None
               | Some ys => Some (compare_parts (Nat.max (length xs) (length ys)) xs ys)
               end
  end.

(** ** Parsing *)

(** Every error wraps [ErrBadRules]. Which of several fields or entries an
    error names is left to the order Go ranges over a map in. *)
Inductive rules_error :=
| NotAList | BadRuleCount (n : Z) | NotAnObject | TypeNotAString | NoType | UnsupportedType (t : string)
| FieldNotAllowed (t : string) | FieldNotAString (key : string) | FieldNotAnInt (key : string)
| BadBuild (s : string) | MinimumsRequired | BadMinimums | MinimumsCount | BadMinimum
| BadVersion (s : string) | BadVolumes (s : string) | BadMinVersion (s : string)
| BadHours (n : Z) | BadDays (n : Z) | BadCount (n : Z) | BadNameLength (n : Z)
| ProfileIDRequired | BadProfileID | BadProfiles | NoProfiles | BadProfile (s : string)
| AtRule (i : Z) (e : rules_error).

Definition allowedFields (ruleType : string) : option (list string) :=
  let kind (t : string) := String.eqb ruleType t in
  if kind RuleOSBuildMin then Some ["build"]%string
  else if kind RuleOSBuildMinPerRelease then Some ["minimums"]%string
  else if kind RuleAgentVersionMin then Some ["version"]%string
  else if kind RuleBitLocker then Some ["volumes"]%string
  else if kind RuleTPM then Some ["min_version"]%string
  else if kind RuleCheckedInWithin || kind RuleInventoryWithin then Some ["hours"]%string
  else if kind RuleUpdatesWithin then Some ["days"]%string
  else if kind RuleNoPendingReboot then Some []
  else if kind RuleMaxLocalAdmins || kind RuleMaxMissingSecurityUpdates then Some ["count"]%string
  else if kind RuleForbiddenSoftware || kind RuleRequiredSoftware then Some ["name"]%string
  else if kind RuleProfileApplied then Some ["profile_id"]%string
  else if kind RuleDefenderRealtime then Some []
  else if kind RuleDefenderSignaturesWithin then Some ["days"]%string
  else if kind RuleFirewallEnabled then Some ["profiles"]%string
  else None.

Abbreviation raw_fields := (gmap string json) (only parsing).

(** [json.Unmarshal] into a map: the last of several equal keys wins. *)
Definition object_fields (l : list (string * json)) : raw_fields :=
  fold_left (fun m kv => <[fst kv := snd kv]> m) l ∅.

(** [json.Unmarshal] into a string or an int variable that holds its zero value. *)
Definition json_string (v : json) : option string :=
  match v with JStr s => Some s | JNull => Some EmptyString | _ => None end.
Definition json_int (v : json) : option Z :=
  match v with JNum l => Atoi l | JNull => Some 0 | _ => None end.

Definition stringField (m : raw_fields) (key : string) : result rules_error (string * bool) :=
  match m !! key with
  | None => Ok (EmptyString, false)
  | Some v => match json_string v with Some s => Ok (s, true) | None => Err (FieldNotAString key) end
  end.

Definition intField (m : raw_fields) (key : string) : result rules_error (Z * bool) :=
  match m !! key with
  | None => Ok (0, false)
  | Some v => match json_int v with Some n => Ok (n, true) | None => Err (FieldNotAnInt key) end
  end.

(** A bounded number that has to be given. *)
Definition boundedField (m : raw_fields) (key : string) (lo hi : Z) (bad : Z -> rules_error)
    : result rules_error Z :=
  let! (n, present) := intField m key in
  check! ensure (negb (negb present || (n <? lo) || (n >? hi))) (bad n);
  Ok n.

Definition minimum_ok (base min : string) : bool :=
  match splitDotted min with
  | Some parts => (Z.of_nat (length parts) =? 2) && dottedNumeric base
                  && negb (Contains base ".") && HasPrefix min (base ++ ".")
  | None => false
  end.

(** [json.Unmarshal] into a map of strings. *)
Definition add_string (acc : option (gmap string string)) (kv : string * json) : option (gmap string string) :=
  match acc, json_string (snd kv) with Some m, Some s => Some (<[fst kv := s]> m) | _, _ => None end.
Definition string_map (v : json) : option (gmap string string) :=
  match v with
  | JNull => Some ∅
  | JObj l => fold_left add_string l (Some ∅)
  | _ => None
  end.

(** [json.Unmarshal] into a slice of strings. *)
Definition string_list (v : json) : option (list string) :=
  match v with
  | JNull => Some []
  | JArr l => match rmap string_elem l with Ok ts => Some ts | Err _ => None end
  | _ => None
  end.

Definition add_new (out : list string) (name : string) : list string :=
  if bool_decide (name ∈ out) then out else out ++ [name].

(** The names checked one by one, each kept once. *)
Fixpoint checked_profiles (names out : list string) : result rules_error (list string) :=
  match names with
  | [] => Ok out
  | n :: r => if bool_decide (n ∈ firewallProfiles) then checked_profiles r (add_new out n)
              else Err (BadProfile n)
  end.

Section Parse.
Context (uuid_parse : string -> option string).

Definition parse_fields (t : string) (m : raw_fields) : result rules_error Rule :=
  let kind (u : string) := String.eqb t u in
  if kind RuleOSBuildMin then
    let! (build, _) := stringField m "build" in
    check! ensure (dottedNumeric build) (BadBuild build);
    Ok (ruleBuild t build)
  else if kind RuleOSBuildMinPerRelease then
    match m !! "minimums"%string with
    | None => Err MinimumsRequired
    | Some v =>
        match string_map v with
        | None => Err BadMinimums
        | Some mins =>
            check! ensure (negb ((Z.of_nat (size mins) <? 1) || (Z.of_nat (size mins) >? 20))) MinimumsCount;
            check! ensure (forallb (fun kv => minimum_ok (fst kv) (snd kv)) (map_to_list mins)) BadMinimum;
            Ok (ruleMinimums t mins)
        end
    end
  else if kind RuleAgentVersionMin then
    let! (version, _) := stringField m "version" in
    check! ensure (dottedNumeric version) (BadVersion version);
    Ok (ruleVersion t version)
  else if kind RuleBitLocker then
    let! (volumes, _) := stringField m "volumes" in
    check! ensure (String.eqb volumes VolumesSystem || String.eqb volumes VolumesAll) (BadVolumes volumes);
    Ok (ruleVolumes t volumes)
  else if kind RuleTPM then
    let! (minVersion, present) := stringField m "min_version" in
    check! ensure (negb (present && negb (String.eqb minVersion "") && negb (dottedNumeric minVersion)))
                  (BadMinVersion minVersion);
    Ok (ruleMinVersion t minVersion)
  else if kind RuleCheckedInWithin || kind RuleInventoryWithin then
    let! hours := boundedField m "hours" MinHours MaxHours BadHours in
    Ok (ruleHours t hours)
  else if kind RuleUpdatesWithin then
    let! days := boundedField m "days" MinDays MaxDays BadDays in
    Ok (ruleDays t days)
  else if kind RuleNoPendingReboot then Ok (rule0 t)
  else if kind RuleMaxLocalAdmins || kind RuleMaxMissingSecurityUpdates then
    let! count := boundedField m "count" MinAdmins MaxAdmins BadCount in
    Ok (ruleCount t count)
  else if kind RuleForbiddenSoftware || kind RuleRequiredSoftware then
    let! (name, _) := stringField m "name" in
    check! ensure (negb ((slen name <? MinNameLen) || (slen name >? MaxNameLen))) (BadNameLength (slen name));
    Ok (ruleName t name)
  else if kind RuleProfileApplied then
    let! (profileID, present) := stringField m "profile_id" in
    check! ensure present ProfileIDRequired;
    match uuid_parse profileID with
    | None => Err BadProfileID
    | Some id => Ok (ruleProfile t id)
    end
  else if kind RuleDefenderRealtime then Ok (rule0 t)
  else if kind RuleDefenderSignaturesWithin then
    let! days := boundedField m "days" MinSignatureDays MaxSignatureDays BadDays in
    Ok (ruleDays t days)
  else (* firewall_enabled *)
    match m !! "profiles"%string with
    | None => Ok (rule0 t)
    | Some v =>
        match string_list v with
        | None => Err BadProfiles
        | Some [] => Err NoProfiles
        | Some names => let! out := checked_profiles names [] in Ok (ruleProfiles t out)
        end
    end.

Definition parseRule (raw : json) : result rules_error Rule :=
  let! m := match raw with
            | JObj l => Ok (object_fields l)
            | JNull => Ok (∅ : raw_fields)
            | _ => Err NotAnObject
            end in
  let! (ruleType, m) :=
    match m !! "type"%string with
    | None => Ok (EmptyString, m)
    | Some v => match json_string v with
                | None => Err TypeNotAString
                | Some t => Ok (t, delete "type"%string m)
                end
    end in
  match allowedFields ruleType with
  | None => if String.eqb ruleType "" then Err NoType else Err (UnsupportedType ruleType)
  | Some allowed =>
      check! ensure (forallb (fun kv => bool_decide (fst kv ∈ allowed)) (map_to_list m)) (FieldNotAllowed ruleType);
      parse_fields ruleType m
  end.

Fixpoint parse_list (i : Z) (msgs : list json) : result rules_error (list Rule) :=
  match msgs with
  | [] => Ok []
  | m :: r =>
      match parseRule m with
      | Err e => Err (AtRule i e)
      | Ok rule => let! rules := parse_list (i + 1) r in Ok (rule :: rules)
      end
  end.

Definition ParseRules (raw : option json) : result rules_error (list Rule) :=
  let! msgs := match raw with
               | Some (JArr l) => Ok l
               | Some JNull => Ok []
               | _ => Err NotAList
               end in
  let n := Z.of_nat (length msgs) in
  check! ensure (negb ((n <? MinRules) || (n >? MaxRules))) (BadRuleCount n);
  parse_list 1 msgs.

(** ** Marshalling *)

Definition typed (r : Rule) (rest : list (string * json)) : json := JObj (("type"%string, JStr (ru_Type r)) :: rest).

(** A map is written with its keys in order; the order does not matter to a
    reader. *)
Definition MarshalRule (r : Rule) : option json :=
  let kind (u : string) := String.eqb (ru_Type r) u in
  if kind RuleOSBuildMin then Some (typed r [("build", JStr (ru_Build r))]%string)
  else if kind RuleOSBuildMinPerRelease then
    Some (typed r [("minimums", JObj (map (fun kv => (fst kv, JStr (snd kv))) (map_to_list (ru_Minimums r))))]%string)
  else if kind RuleAgentVersionMin then Some (typed r [("version", JStr (ru_Version r))]%string)
  else if kind RuleBitLocker then Some (typed r [("volumes", JStr (ru_Volumes r))]%string)
  else if kind RuleTPM then
    Some (typed r (if String.eqb (ru_MinVersion r) "" then [] else [("min_version", JStr (ru_MinVersion r))]%string))
  else if kind RuleCheckedInWithin || kind RuleInventoryWithin then Some (typed r [("hours"%string, jint (ru_Hours r))])
  else if kind RuleUpdatesWithin then Some (typed r [("days"%string, jint (ru_Days r))])
  else if kind RuleNoPendingReboot then Some (typed r [])
  else if kind RuleMaxLocalAdmins || kind RuleMaxMissingSecurityUpdates then
    Some (typed r [("count"%string, jint (ru_Count r))])
  else if kind RuleForbiddenSoftware || kind RuleRequiredSoftware then Some (typed r [("name", JStr (ru_Name r))]%string)
  else if kind RuleProfileApplied then Some (typed r [("profile_id", JStr (ru_ProfileID r))]%string)
  else if kind RuleDefenderRealtime then Some (typed r [])
  else if kind RuleDefenderSignaturesWithin then Some (typed r [("days"%string, jint (ru_Days r))])
  else if kind RuleFirewallEnabled then
    Some (typed r (match ru_Profiles r with [] => [] | l => [("profiles", JArr (map JStr l))]%string end))
  else None.

Fixpoint marshal_list (rules : list Rule) : option (list json) :=
  match rules with
  | [] => Some []
  | r :: rs => match MarshalRule r, marshal_list rs with Some v, Some vs => Some (v :: vs) | _, _ => None end
  end.

Definition MarshalRules (rules : list Rule) : option json := option_map JArr (marshal_list rules).
End Parse.

(** ** Facts *)

Record Device := mkDevice { dev_OSBuild : string; dev_AgentVersion : string; dev_LastSeenAt : option time }.

Record OSInfo := mkOSInfo { os_Build : string; os_UBR : option Z }.
Record Hardware := mkHardware { hw_TPMPresent : bool; hw_TPMVersion : string }.
Record Disk := mkDisk { di_Name : string; di_BitLocker : string }.
Record DefenderStatus := mkDefender {
  df_RunningMode : string; df_AntivirusEnabled : bool; df_RealtimeEnabled : bool;
  df_SignatureUpdatedAt : option time }.
Record FirewallProfileState := mkFirewall { fw_Profile : string; fw_Enabled : bool }.
Record PendingUpdate := mkPending { pu_Title : string; pu_KB : string; pu_Security : bool }.
Record UpdateStatus := mkUpdates { us_ScannedAt : time; us_Pending : list PendingUpdate; us_Error : string }.

Record Inventory := mkInventory {
  inv_OS : OSInfo;
  inv_Hardware : Hardware;
  inv_Disks : list Disk;
  inv_Software : list string;                        (* the packages' names *)
  inv_LocalAdmins : list string;
  inv_PendingReboot : bool;
  inv_LastUpdateInstalledAt : option time;
  inv_Defender : option DefenderStatus;
  inv_Firewall : option (list FirewallProfileState); (* nil when it could not be read *)
  inv_WindowsUpdates : option UpdateStatus }.

Record Facts := mkFacts {
  f_Device : Device;
  f_Inventory : option Inventory;
  f_InventoryReceivedAt : option time;
  f_ProfileStatus : gmap string string }.

Definition ItemPending : string := "pending".
Definition ItemSucceeded : string := "succeeded".
Definition DefenderNormalMode : string := "Normal".

Definition SecurityPending (s : UpdateStatus) : list PendingUpdate := List.filter pu_Security (us_Pending s).

(** ** Messages *)

(** [Duration.Hours()] and [int(float64)] in binary64. *)
Definition float_of (z : Z) : spec_float := binary_normalize 53 1024 z 0 false.
Definition float_trunc (x : spec_float) : Z :=
  match x with
  | S754_finite s m e =>
      let v := if 0 <=? e then Zpos m * 2 ^ e else Zpos m / 2 ^ (- e) in if s then - v else v
  | _ => 0
  end.
Definition duration_hours (d : duration) : spec_float :=
  SFadd 53 1024 (float_of (Z.quot d Hour)) (SFdiv 53 1024 (float_of (Z.rem d Hour)) (float_of Hour)).

Definition plural (n : Z) (unit : string) : string :=
  if n =? 1 then ("1 " ++ unit)%string else (Itoa n ++ " " ++ unit ++ "s")%string.

Definition humanizeSince (elapsed : duration) : string :=
  if elapsed <? 48 * Hour then plural (float_trunc (duration_hours elapsed)) "hour"
  else plural (float_trunc (SFdiv 53 1024 (duration_hours elapsed) (float_of 24))) "day".

Record Failure := mkFailure { fl_Rule : string; fl_State : string; fl_Detail : string }.

Definition unknownFailure (rule detail : string) : Failure := mkFailure rule StateUnknown detail.
Definition nonCompliant (rule detail : string) : Failure := mkFailure rule StateNonCompliant detail.

(** ** Evaluation: [None] when the rule is met *)

Section Evaluate.
Context (to_lower : string -> string) (format_date : time -> string).

Definition evalOSBuildMin (r : Rule) (f : Facts) : option Failure :=
  let build := dev_OSBuild (f_Device f) in
  if String.eqb build "" then Some (unknownFailure (ru_Type r) "the device has not reported an OS build") else
  match CompareDotted build (ru_Build r) with
  | None => Some (unknownFailure (ru_Type r)
      ("the OS build " ++ Quoted build ++ " could not be compared to " ++ Quoted (ru_Build r)))
  | Some c => if (c <? 0)%Z then Some (nonCompliant (ru_Type r)
                ("the OS build is " ++ build ++ ", below the required " ++ ru_Build r)) else None
  end%string.

Definition evalOSBuildMinPerRelease (r : Rule) (f : Facts) : option Failure :=
  match f_Inventory f with
  | None => Some (unknownFailure (ru_Type r) "the device has not reported an OS build")
  | Some inv =>
      let base := os_Build (inv_OS inv) in
      if String.eqb base "" then Some (unknownFailure (ru_Type r) "the device has not reported an OS build") else
      match os_UBR (inv_OS inv) with
      | None => Some (unknownFailure (ru_Type r)
          "the device has not reported its patch level; its agent may predate this rule")
      | Some ubr =>
          let full := (base ++ "." ++ Itoa ubr)%string in
          match ru_Minimums r !! base with
          | None => Some (unknownFailure (ru_Type r)
              ("no minimum is set for build " ++ base ++ " (the device is at " ++ full ++ ")"))
          | Some min =>
              match CompareDotted full min with
              | None => Some (unknownFailure (ru_Type r)
                  ("the build " ++ Quoted full ++ " could not be compared to " ++ Quoted min))
              | Some c => if (c <? 0)%Z then Some (nonCompliant (ru_Type r)
                            ("the OS build is " ++ full ++ ", below the required " ++ min)) else None
              end
          end
      end
  end%string.

Definition compared (a b : string) : Z := match CompareDotted a b with Some c => c | None => 0 end.

Definition evalAgentVersionMin (r : Rule) (f : Facts) : option Failure :=
  let v := dev_AgentVersion (f_Device f) in
  if negb (dottedNumeric v) then
    Some (unknownFailure (ru_Type r)
      (if String.eqb v "" then "the agent version is not reported"
       else "the agent version " ++ Quoted v ++ " is not a dotted version number"))
  else if (compared v (ru_Version r) <? 0)%Z then
    Some (nonCompliant (ru_Type r) ("the agent version is " ++ v ++ ", below the required " ++ ru_Version r))
  else None%string.

Definition bitlockerFailure (ruleType : string) (d : Disk) : option Failure :=
  if String.eqb (di_BitLocker d) "on" then None
  else if String.eqb (di_BitLocker d) "off" then Some (nonCompliant ruleType ("BitLocker is off on " ++ di_Name d))
  else Some (unknownFailure ruleType ("BitLocker status is unknown for " ++ di_Name d))%string.

Definition is_system_volume (d : Disk) : bool :=
  String.eqb (ToUpper (TrimSuffix (TrimSpace (di_Name d)) "\")) "C:".

Definition systemVolume (disks : list Disk) : option Disk := find is_system_volume disks.

Definition evalBitLocker (r : Rule) (f : Facts) : option Failure :=
  match f_Inventory f with
  | None => Some (unknownFailure (ru_Type r) "no inventory has been received")
  | Some inv =>
      if String.eqb (ru_Volumes r) VolumesSystem then
        match systemVolume (inv_Disks inv) with
        | None => Some (unknownFailure (ru_Type r) "no system volume was reported")
        | Some d => bitlockerFailure (ru_Type r) d
        end
      else match inv_Disks inv with
      | [] => Some (unknownFailure (ru_Type r) "the device reported no fixed volumes")
      | disks =>
          match find (fun d => String.eqb (di_BitLocker d) "unknown") disks with
          | Some d => Some (unknownFailure (ru_Type r) ("BitLocker status is unknown for " ++ di_Name d))
          | None =>
              match find (fun d => String.eqb (di_BitLocker d) "off") disks with
              | Some d => Some (nonCompliant (ru_Type r) ("BitLocker is off on " ++ di_Name d))
              | None => None
              end
          end
      end
  end%string.

Definition evalTPM (r : Rule) (f : Facts) : option Failure :=
  match f_Inventory f with
  | None => Some (unknownFailure (ru_Type r) "no inventory has been received")
  | Some inv =>
      let hw := inv_Hardware inv in
      if negb (hw_TPMPresent hw) then Some (nonCompliant (ru_Type r) "no TPM is present")
      else if String.eqb (ru_MinVersion r) "" then None
      else if negb (dottedNumeric (hw_TPMVersion hw))
      then Some (unknownFailure (ru_Type r) "the TPM version is not reported")
      else if (compared (hw_TPMVersion hw) (ru_MinVersion r) <? 0)%Z then
        Some (nonCompliant (ru_Type r)
          ("the TPM version is " ++ hw_TPMVersion hw ++ ", below the required " ++ ru_MinVersion r))
      else None
  end%string.

Definition hours_limit (n : Z) : duration := dmul n Hour.
(** [time.Duration(n) * 24 * time.Hour]. *)
Definition days_limit (n : Z) : duration := dmul (dmul n 24) Hour.

Definition evalCheckedInWithin (r : Rule) (f : Facts) (now : time) : option Failure :=
  match dev_LastSeenAt (f_Device f) with
  | None => Some (unknownFailure (ru_Type r) "the device has never checked in")
  | Some t =>
      let elapsed := Sub now t in
      if (elapsed >? hours_limit (ru_Hours r))%Z then
        Some (nonCompliant (ru_Type r) ("last check-in was " ++ humanizeSince elapsed ++ " ago (limit "
          ++ plural (ru_Hours r) "hour" ++ ")"))
      else None
  end%string.

Definition evalInventoryWithin (r : Rule) (f : Facts) (now : time) : option Failure :=
  match f_InventoryReceivedAt f with
  | None => Some (unknownFailure (ru_Type r) "inventory has never been received")
  | Some t =>
      let elapsed := Sub now t in
      if (elapsed >? hours_limit (ru_Hours r))%Z then
        Some (nonCompliant (ru_Type r) ("inventory was last received " ++ humanizeSince elapsed ++ " ago (limit "
          ++ plural (ru_Hours r) "hour" ++ ")"))
      else None
  end%string.

Definition evalUpdatesWithin (r : Rule) (f : Facts) (now : time) : option Failure :=
  match match f_Inventory f with Some inv => inv_LastUpdateInstalledAt inv | None => None end with
  | None => Some (unknownFailure (ru_Type r) "no update installation date has been reported")
  | Some t =>
      let elapsed := Sub now t in
      if (elapsed >? days_limit (ru_Days r))%Z then
        Some (nonCompliant (ru_Type r) ("the last update was installed " ++ humanizeSince elapsed ++ " ago (limit "
          ++ plural (ru_Days r) "day" ++ ")"))
      else None
  end%string.

Definition evalNoPendingReboot (r : Rule) (f : Facts) : option Failure :=
  match f_Inventory f with
  | None => Some (unknownFailure (ru_Type r) "no inventory has been received")
  | Some inv => if inv_PendingReboot inv then Some (nonCompliant (ru_Type r) "a reboot is pending") else None
  end.

Definition evalMaxLocalAdmins (r : Rule) (f : Facts) : option Failure :=
  match f_Inventory f with
  | None => Some (unknownFailure (ru_Type r) "no inventory has been received")
  | Some inv =>
      let n := Z.of_nat (length (inv_LocalAdmins inv)) in
      if (n =? 0)%Z then Some (unknownFailure (ru_Type r) "the device reported no local admins")
      else if (n >? ru_Count r)%Z then
        Some (nonCompliant (ru_Type r) ("there are " ++ Itoa n ++ " local admins, above the limit of "
          ++ Itoa (ru_Count r)))
      else None
  end%string.

Definition softwareGap (ruleType : string) (f : Facts) : option Failure :=
  match f_Inventory f with
  | None => Some (unknownFailure ruleType "no inventory has been received")
  | Some inv => match inv_Software inv with
                | [] => Some (unknownFailure ruleType "the device reported no installed software")
                | _ => None
                end
  end.

Fixpoint matchSoftware (installed : list string) (name : string) : string :=
  match installed with
  | [] => EmptyString
  | s :: r => if Contains (to_lower s) (to_lower name) then s else matchSoftware r name
  end.

Definition installed_software (f : Facts) : list string :=
  match f_Inventory f with Some inv => inv_Software inv | None => [] end.

Definition evalForbiddenSoftware (r : Rule) (f : Facts) : option Failure :=
  match softwareGap (ru_Type r) f with
  | Some gap => Some gap
  | None =>
      let found := matchSoftware (installed_software f) (ru_Name r) in
      if negb (String.eqb found "") then
        Some (nonCompliant (ru_Type r) ("forbidden software " ++ Quoted found ++ " is installed"))
      else None
  end%string.

Definition evalRequiredSoftware (r : Rule) (f : Facts) : option Failure :=
  match softwareGap (ru_Type r) f with
  | Some gap => Some gap
  | None =>
      if String.eqb (matchSoftware (installed_software f) (ru_Name r)) "" then
        Some (nonCompliant (ru_Type r)
          ("required software matching " ++ Quoted (ru_Name r) ++ " is not installed"))
      else None
  end%string.

Definition evalProfileApplied (r : Rule) (f : Facts) : option Failure :=
  match f_ProfileStatus f !! ru_ProfileID r with
  | None => Some (unknownFailure (ru_Type r) "the profile has not finished applying")
  | Some status =>
      if String.eqb status ItemPending
      then Some (unknownFailure (ru_Type r) "the profile has not finished applying")
      else if negb (String.eqb status ItemSucceeded)
      then Some (nonCompliant (ru_Type r) ("the profile's status is " ++ status ++ ", not succeeded"))
      else None
  end%string.

Definition defenderOf (f : Facts) : option DefenderStatus :=
  match f_Inventory f with Some inv => inv_Defender inv | None => None end.

Definition evalDefenderRealtime (r : Rule) (f : Facts) : option Failure :=
  match defenderOf f with
  | None => Some (unknownFailure (ru_Type r) "Defender status is not reported")
  | Some d =>
      if negb (String.eqb (df_RunningMode d) DefenderNormalMode) then
        Some (unknownFailure (ru_Type r)
          ("Defender is in " ++ Quoted (df_RunningMode d) ++ ", so another antivirus is primary"))
      else if negb (df_AntivirusEnabled d) then Some (nonCompliant (ru_Type r) "Defender Antivirus is turned off")
      else if negb (df_RealtimeEnabled d)
      then Some (nonCompliant (ru_Type r) "Defender real-time protection is off")
      else None
  end%string.

Definition evalDefenderSignaturesWithin (r : Rule) (f : Facts) (now : time) : option Failure :=
  match defenderOf f with
  | None => Some (unknownFailure (ru_Type r) "Defender status is not reported")
  | Some d =>
      match df_SignatureUpdatedAt d with
      | None => Some (unknownFailure (ru_Type r) "Defender has not reported when its signatures were updated")
      | Some t =>
          let elapsed := Sub now t in
          if (elapsed >? days_limit (ru_Days r))%Z then
            Some (nonCompliant (ru_Type r) ("Defender signatures were last updated " ++ humanizeSince elapsed
              ++ " ago (limit " ++ plural (ru_Days r) "day" ++ ")"))
          else None
      end
  end%string.

(** The state of each profile: the last report of one wins. *)
Definition firewall_state (l : list FirewallProfileState) : gmap string bool :=
  fold_left (fun m p => <[fw_Profile p := fw_Enabled p]> m) l ∅.

Definition evalFirewallEnabled (r : Rule) (f : Facts) : option Failure :=
  match match f_Inventory f with Some inv => inv_Firewall inv | None => None end with
  | None => Some (unknownFailure (ru_Type r) "firewall state is not reported")
  | Some l =>
      let state := firewall_state l in
      let names := match ru_Profiles r with [] => firewallProfiles | ns => ns end in
      let off := List.filter (fun n => bool_decide (state !! n = Some false)) names in
      let missing := List.filter (fun n => bool_decide (state !! n = None)) names in
      match off, missing with
      | _ :: _, _ => Some (nonCompliant (ru_Type r) ("the firewall is off for: " ++ Join ", " off))
      | [], _ :: _ => Some (unknownFailure (ru_Type r) ("firewall state is not reported for: " ++ Join ", " missing))
      | [], [] => None
      end
  end%string.

Definition update_name (u : PendingUpdate) : string :=
  if String.eqb (pu_KB u) "" then pu_Title u else pu_KB u.

Definition evalMaxMissingSecurityUpdates (r : Rule) (f : Facts) (now : time) : option Failure :=
  match match f_Inventory f with Some inv => inv_WindowsUpdates inv | None => None end with
  | None => Some (unknownFailure (ru_Type r)
      "the device has not reported a Windows Update search; its agent may predate this rule")
  | Some wu =>
      if negb (String.eqb (us_Error wu) "")
      then Some (unknownFailure (ru_Type r) ("the last Windows Update search failed: " ++ us_Error wu))
      else if (Sub now (us_ScannedAt wu) >? updateScanStale)%Z
      then Some (unknownFailure (ru_Type r) ("the last Windows Update search was on " ++ format_date (us_ScannedAt wu)))
      else
        let missing := SecurityPending wu in
        let n := Z.of_nat (length missing) in
        if (n <=? ru_Count r)%Z then None
        else Some (nonCompliant (ru_Type r) (Itoa n ++ " security updates are missing (at most "
               ++ Itoa (ru_Count r) ++ " allowed): " ++ Join ", " (map update_name missing)))
  end%string.

Definition evaluateRule (r : Rule) (f : Facts) (now : time) : option Failure :=
  let kind (u : string) := String.eqb (ru_Type r) u in
  if kind RuleOSBuildMin then evalOSBuildMin r f
  else if kind RuleOSBuildMinPerRelease then evalOSBuildMinPerRelease r f
  else if kind RuleAgentVersionMin then evalAgentVersionMin r f
  else if kind RuleBitLocker then evalBitLocker r f
  else if kind RuleTPM then evalTPM r f
  else if kind RuleCheckedInWithin then evalCheckedInWithin r f now
  else if kind RuleInventoryWithin then evalInventoryWithin r f now
  else if kind RuleUpdatesWithin then evalUpdatesWithin r f now
  else if kind RuleNoPendingReboot then evalNoPendingReboot r f
  else if kind RuleMaxLocalAdmins then evalMaxLocalAdmins r f
  else if kind RuleForbiddenSoftware then evalForbiddenSoftware r f
  else if kind RuleRequiredSoftware then evalRequiredSoftware r f
  else if kind RuleProfileApplied then evalProfileApplied r f
  else if kind RuleDefenderRealtime then evalDefenderRealtime r f
  else if kind RuleDefenderSignaturesWithin then evalDefenderSignaturesWithin r f now
  else if kind RuleFirewallEnabled then evalFirewallEnabled r f
  else if kind RuleMaxMissingSecurityUpdates then evalMaxMissingSecurityUpdates r f now
  else Some (unknownFailure (ru_Type r) ("unsupported rule type " ++ Quoted (ru_Type r))%string).

Record Result := mkPolicyResult { re_State : string; re_Failures : list Failure }.

Definition has_state (state : string) (fs : list Failure) : bool :=
  existsb (fun fl => String.eqb (fl_State fl) state) fs.

Definition Evaluate (rules : list Rule) (f : Facts) (now : time) : Result :=
  let failures := omap (fun r => evaluateRule r f now) rules in
  let state := if has_state StateNonCompliant failures then StateNonCompliant
               else if has_state StateUnknown failures then StateUnknown
               else StateCompliant in
  mkPolicyResult state failures.
End Evaluate.

(** ** Theorems *)

(** *** Round trip *)

Definition finish (uuid_parse : string -> option string) (t : string) (m : raw_fields) : result rules_error Rule :=
  match allowedFields t with
  | None => if String.eqb t "" then Err NoType else Err (UnsupportedType t)
  | Some allowed =>
      check! ensure (forallb (fun kv => bool_decide (fst kv ∈ allowed)) (map_to_list m)) (FieldNotAllowed t);
      parse_fields uuid_parse t m
  end.

Lemma parseRule_typed0 u t : parseRule u (JObj [("type"%string, JStr t)]) = finish u t ∅.
Proof.
  unfold parseRule, object_fields. cbn [fold_left fst snd rbind]. rewrite lookup_insert_eq.
  cbn [json_string rbind]. by rewrite delete_insert_id.
Qed.

Lemma parseRule_typed1 u t k v :
  k <> "type"%string -> parseRule u (JObj [("type"%string, JStr t); (k, v)]) = finish u t {[k := v]}.
Proof.
  intros Hk. unfold parseRule, object_fields. cbn [fold_left fst snd rbind].
  rewrite lookup_insert_ne, lookup_insert_eq by done. cbn [json_string rbind].
  rewrite delete_insert_ne, delete_insert_id by done. done.
Qed.

Lemma finish_one u t k v :
  allowedFields t = Some [k] -> finish u t {[k := v]} = parse_fields u t {[k := v]}.
Proof.
  intros Ht. unfold finish. rewrite Ht, map_to_list_singleton. simpl.
  by rewrite bool_decide_true by (by left).
Qed.

Lemma finish_none u t allowed : allowedFields t = Some allowed -> finish u t ∅ = parse_fields u t ∅.
Proof. intros Ht. unfold finish. by rewrite Ht, map_to_list_empty. Qed.

Lemma boundedField_Ok m k lo hi bad n :
  boundedField m k lo hi bad = Ok n -> lo <= n <= hi /\ exists v, m !! k = Some v /\ json_int v = Some n.
Proof.
  unfold boundedField, intField. destruct (m !! k) as [v|]; [|done].
  destruct (json_int v) as [i|] eqn:Hi; [|done]. intros H. simpl in H. oks. bools. split; [lia|]. eauto.
Qed.

Lemma boundedField_jint k lo hi bad n :
  lo <= n <= hi -> in_int64 n = true -> boundedField {[k := jint n]} k lo hi bad = Ok n.
Proof.
  intros Hn Hi. unfold boundedField, intField. rewrite lookup_singleton_eq. cbn [jint json_int].
  rewrite Atoi_Itoa by done. cbn [rbind negb orb].
  destruct (Z.ltb_spec n lo); [lia|]. by destruct (Z.gtb_spec n hi); [lia|].
Qed.

Lemma stringField_single k s : stringField {[k := JStr s]} k = Ok (s, true).
Proof. unfold stringField. by rewrite lookup_singleton_eq. Qed.

Lemma fold_add_string (l : list (string * string)) acc :
  NoDup l.*1 -> (forall k, k ∈ l.*1 -> acc !! k = None) ->
  fold_left add_string (map (fun kv => (fst kv, JStr (snd kv))) l) (Some acc) = Some (list_to_map l ∪ acc).
Proof.
  revert acc; induction l as [|[k s] l IH]; intros acc Hnd Hacc; simpl in *.
  - by rewrite map_empty_union.
  - apply NoDup_cons in Hnd as [Hk Hnd]. rewrite IH; [|done|].
    + f_equal. rewrite <- insert_union_r by (by apply not_elem_of_list_to_map_1). apply insert_union_l.
    + intros j Hj. rewrite lookup_insert_ne; [apply Hacc; by right | set_solver].
Qed.

Lemma string_map_marshalled m :
  string_map (JObj (map (fun kv => (fst kv, JStr (snd kv))) (map_to_list m))) = Some m.
Proof.
  unfold string_map. rewrite fold_add_string; [|apply NoDup_fst_map_to_list | done].
  by rewrite map_union_empty, list_to_map_to_list.
Qed.

Lemma string_list_marshalled l : string_list (JArr (map JStr l)) = Some l.
Proof.
  unfold string_list. assert (rmap string_elem (map JStr l) = Ok l) as ->; [|done].
  induction l as [|s l IH]; simpl; [done|]. by rewrite IH.
Qed.

Lemma checked_profiles_spec names out res :
  checked_profiles names out = Ok res -> NoDup out -> Forall (fun n => n ∈ firewallProfiles) out ->
  NoDup res /\ Forall (fun n => n ∈ firewallProfiles) res /\ (names <> [] \/ out <> [] -> res <> []).
Proof.
  revert out; induction names as [|n names IH]; intros out; simpl.
  { intros [= <-] Hnd Hin. split_and!; [done..|naive_solver]. }
  case_bool_decide as Hn; [|done]. intros H Hnd Hin. apply IH in H as (H1 & H2 & H3).
  - split_and!; [done..|]. intros _. apply H3. right. unfold add_new.
    case_bool_decide as Ho; [by destruct out; [apply not_elem_of_nil in Ho|] | by destruct out].
  - unfold add_new. case_bool_decide; [done|]. apply NoDup_app. split_and!; [done| |apply NoDup_singleton].
    set_solver.
  - unfold add_new. case_bool_decide; [done|]. apply Forall_app. split; [done | by apply Forall_singleton].
Qed.

Lemma checked_profiles_fixed names out :
  Forall (fun n => n ∈ firewallProfiles) names -> NoDup (out ++ names) ->
  checked_profiles names out = Ok (out ++ names).
Proof.
  intros Hn. revert out; induction Hn as [|n names Hn _ IH]; intros out Hnd; simpl; [by rewrite app_nil_r|].
  rewrite bool_decide_true by done. unfold add_new. rewrite bool_decide_false.
  - rewrite IH; rewrite <- app_assoc; done.
  - apply NoDup_app in Hnd as (_ & Hnd & _). intros Hin. apply (Hnd n Hin). by left.
Qed.

Lemma small_int64 n : 0 <= n <= 8760 -> in_int64 n = true.
Proof. intros H. unfold in_int64, MinInt64, MaxInt64. apply andb_true_iff; split; lia. Qed.

Section RoundTrip.
Context (uuid_parse : string -> option string)
  (uuid_canonical : forall s u, uuid_parse s = Some u -> uuid_parse u = Some u).

(** A rule is stored as a value it parses back from. *)
Definition stores (r : Rule) : Prop :=
  exists v, MarshalRule r = Some v /\ parseRule uuid_parse v = Ok r.

(** The three shapes of a stored rule. *)
Lemma stores_none r allowed :
  MarshalRule r = Some (typed r []) -> allowedFields (ru_Type r) = Some allowed ->
  parse_fields uuid_parse (ru_Type r) ∅ = Ok r -> stores r.
Proof. intros Hm Ha Hp. eexists. split; [exact Hm|]. unfold typed. by erewrite parseRule_typed0, finish_none. Qed.

Lemma stores_one r k v :
  MarshalRule r = Some (typed r [(k, v)]) -> k <> "type"%string -> allowedFields (ru_Type r) = Some [k] ->
  parse_fields uuid_parse (ru_Type r) {[k := v]} = Ok r -> stores r.
Proof. intros Hm Hk Ha Hp. eexists. split; [exact Hm|]. unfold typed. by rewrite parseRule_typed1, finish_one. Qed.

(** Evaluate the comparisons of two known strings. *)
Ltac eqb_consts :=
  repeat match goal with
  | |- context [String.eqb ?a ?b] =>
      let r := eval vm_compute in (String.eqb a b) in
      lazymatch r with
      | true => change (String.eqb a b) with true
      | false => change (String.eqb a b) with false
      end
  end.

Ltac reparse :=
  unfold parse_fields;
  cbn [ru_Type ru_Build ru_Minimums ru_Version ru_Volumes ru_MinVersion ru_Hours ru_Days ru_Count ru_Name
       ru_ProfileID ru_Profiles ruleBuild ruleMinimums ruleVersion ruleVolumes ruleMinVersion
       ruleHours ruleDays ruleCount ruleName ruleProfile ruleProfiles rule0];
  cbv zeta beta; eqb_consts; cbn [orb];
  rewrite ?stringField_single, ?lookup_singleton_eq; cbn [rbind].

Ltac stored_as_one :=
  eapply stores_one; [reflexivity | discriminate | reflexivity | reparse].

(** The rules with one string, checked by one condition. *)
Ltac string_rule :=
  let Hb := fresh in let H := fresh in
  intros ([? ?] & _ & H)%rbind_Ok; apply rbind_Ok in H as (? & Hb%ensure_Ok & [= <-]);
  stored_as_one; by rewrite Hb.

(** The rules with one bounded number. *)
Ltac number_rule :=
  let n := fresh in let Hn := fresh in
  intros (n & Hn & [= <-])%rbind_Ok; apply boundedField_Ok in Hn as (Hn & _);
  stored_as_one; rewrite boundedField_jint; [reflexivity | exact Hn |];
  apply small_int64;
  unfold MinHours, MaxHours, MinDays, MaxDays, MinAdmins, MaxAdmins, MinSignatureDays, MaxSignatureDays in Hn; lia.

Lemma tpm_stores m r : parse_fields uuid_parse RuleTPM m = Ok r -> stores r.
Proof.
  unfold parse_fields. cbv zeta. eqb_consts. intros ([v present] & Hv & H)%rbind_Ok.
  apply rbind_Ok in H as (? & Hb%ensure_Ok & [= <-]).
  destruct (String.eqb_spec v "") as [->|Hne].
  { eapply stores_none; [reflexivity | reflexivity | by reparse]. }
  apply String.eqb_neq in Hne as Hne'. eapply (stores_one _ "min_version"%string (JStr v)); [| discriminate | reflexivity |].
  - unfold MarshalRule. cbn [ru_Type ru_MinVersion ruleMinVersion]. cbv zeta. eqb_consts. by rewrite Hne'.
  - reparse. unfold stringField in Hv. destruct (m !! "min_version"%string) as [w|].
    + destruct (json_string w); [|done]. injection Hv as -> <-. cbn [andb] in *. rewrite Hne' in *. by rewrite Hb.
    + by injection Hv as <- <-.
Qed.

Lemma firewall_stores m r : parse_fields uuid_parse RuleFirewallEnabled m = Ok r -> stores r.
Proof.
  unfold parse_fields. cbv zeta. eqb_consts. cbn [orb]. destruct (m !! "profiles"%string) as [v|].
  2: { intros [= <-]. eapply stores_none; [reflexivity | reflexivity | by reparse]. }
  destruct (string_list v) as [[|n names]|]; [done| |done]. intros (out & Ho & [= <-])%rbind_Ok.
  destruct (checked_profiles_spec _ _ _ Ho (NoDup_nil_2) (Forall_nil_2 _)) as (Hnd & Hin & Hne).
  destruct out as [|o out]; [destruct Hne; [by left | done]|].
  stored_as_one. rewrite (string_list_marshalled (o :: out)).
  by rewrite (checked_profiles_fixed (o :: out) []).
Qed.

Lemma minimums_stores m r : parse_fields uuid_parse RuleOSBuildMinPerRelease m = Ok r -> stores r.
Proof.
  unfold parse_fields. cbv zeta. eqb_consts. destruct (m !! "minimums"%string) as [v|]; [|done].
  destruct (string_map v) as [mins|]; [|done].
  intros (? & Hs%ensure_Ok & H)%rbind_Ok. apply rbind_Ok in H as (? & Hm%ensure_Ok & [= <-]).
  stored_as_one. rewrite string_map_marshalled. unfold ensure. rewrite Hs. cbn [rbind]. by rewrite Hm.
Qed.

Lemma profile_stores m r : parse_fields uuid_parse RuleProfileApplied m = Ok r -> stores r.
Proof.
  unfold parse_fields. cbv zeta. eqb_consts. cbn [orb]. intros ([s present] & _ & H)%rbind_Ok.
  apply rbind_Ok in H as (? & _ & H). destruct (uuid_parse s) as [u|] eqn:Hu; [|done].
  injection H as <-. stored_as_one. cbn [ensure rbind]. by rewrite (uuid_canonical _ _ Hu).
Qed.

Lemma parse_fields_stores t m r allowed :
  allowedFields t = Some allowed -> parse_fields uuid_parse t m = Ok r -> stores r.
Proof.
  intros Ha. destruct (String.eqb_spec t RuleOSBuildMinPerRelease) as [->|H1]; [apply minimums_stores|].
  destruct (String.eqb_spec t RuleTPM) as [->|H2]; [apply tpm_stores|].
  destruct (String.eqb_spec t RuleProfileApplied) as [->|H3]; [apply profile_stores|].
  destruct (String.eqb_spec t RuleFirewallEnabled) as [->|H4]; [apply firewall_stores|].
  apply String.eqb_neq in H1, H2, H3, H4.
  unfold allowedFields in Ha. unfold parse_fields. cbv zeta in *. rewrite H1, H2, H3, H4 in *.
  destruct (String.eqb_spec t RuleOSBuildMin) as [->|_]; [string_rule|].
  destruct (String.eqb_spec t RuleAgentVersionMin) as [->|_]; [string_rule|].
  destruct (String.eqb_spec t RuleBitLocker) as [->|_]; [string_rule|].
  destruct (String.eqb_spec t RuleCheckedInWithin) as [->|_]; [number_rule|].
  destruct (String.eqb_spec t RuleInventoryWithin) as [->|_]; [number_rule|].
  destruct (String.eqb_spec t RuleUpdatesWithin) as [->|_]; [number_rule|].
  destruct (String.eqb_spec t RuleNoPendingReboot) as [->|_].
  { intros [= <-]. eapply stores_none; [reflexivity | reflexivity | by reparse]. }
  destruct (String.eqb_spec t RuleMaxLocalAdmins) as [->|_]; [number_rule|].
  destruct (String.eqb_spec t RuleMaxMissingSecurityUpdates) as [->|_]; [number_rule|].
  destruct (String.eqb_spec t RuleForbiddenSoftware) as [->|_]; [string_rule|].
  destruct (String.eqb_spec t RuleRequiredSoftware) as [->|_]; [string_rule|].
  destruct (String.eqb_spec t RuleDefenderRealtime) as [->|_].
  { intros [= <-]. eapply stores_none; [reflexivity | reflexivity | by reparse]. }
  destruct (String.eqb_spec t RuleDefenderSignaturesWithin) as [->|_]; [number_rule|done].
Qed.

Lemma parseRule_stores raw r : parseRule uuid_parse raw = Ok r -> stores r.
Proof.
  unfold parseRule. intros (m & _ & H)%rbind_Ok. apply rbind_Ok in H as ([t m'] & _ & H).
  destruct (allowedFields t) as [allowed|] eqn:Ha; [|by destruct (String.eqb t "")].
  apply rbind_Ok in H as (_ & _ & H). by eapply parse_fields_stores.
Qed.

Lemma parse_list_stores i msgs rules :
  parse_list uuid_parse i msgs = Ok rules ->
  length msgs = length rules /\
  exists vs, marshal_list rules = Some vs /\ forall j, parse_list uuid_parse j vs = Ok rules.
Proof.
  revert i rules; induction msgs as [|m msgs IH]; intros i rules; simpl.
  { intros [= <-]. split; [done|]. by exists []. }
  destruct (parseRule uuid_parse m) as [r|] eqn:Hr; [|done]. intros (rs & Hrs & [= <-])%rbind_Ok.
  apply IH in Hrs as (Hlen & vs & Hvs & Hp). apply parseRule_stores in Hr as (v & Hv & Hpv).
  split; [simpl; by f_equal|]. exists (v :: vs). simpl. rewrite Hv, Hvs. split; [done|].
  intros j. simpl. by rewrite Hpv, Hp.
Qed.

(** A policy that parses is stored in a form that parses back to the same
    rules: every bound, omitted field and map survives. *)
Theorem rules_survive_storage raw rules :
  ParseRules uuid_parse raw = Ok rules ->
  exists v, MarshalRules rules = Some v /\ ParseRules uuid_parse (Some v) = Ok rules.
Proof.
  unfold ParseRules. intros (msgs & _ & H)%rbind_Ok. cbv zeta in H.
  apply rbind_Ok in H as (u & Hn & Hp). apply parse_list_stores in Hp as (Hlen & vs & Hvs & Hps).
  exists (JArr vs). unfold MarshalRules. rewrite Hvs. split; [done|]. cbn [rbind]. cbv zeta.
  assert (length vs = length msgs) as ->.
  { rewrite Hlen. clear -Hvs. revert vs Hvs; induction rules as [|r rules IH]; intros vs; simpl; [by intros [= <-]|].
    destruct (MarshalRule r); [|done]. destruct (marshal_list rules); [|done]. intros [= <-]. simpl. f_equal. by apply IH. }
  rewrite Hn. cbn [rbind]. apply Hps.
Qed.
End RoundTrip.

Definition sample_policy : json := JArr [
  JObj [("hours", JNum "24"); ("type", JStr "checked_in_within")];
  JObj [("type", JStr "firewall_enabled"); ("profiles", JArr [JStr "public"; JStr "domain"; JStr "public"])];
  JObj [("type", JStr "os_build_min_per_release"); ("minimums", JObj [("26100", JStr "26100.2605")])];
  JObj [("type", JStr "tpm"); ("min_version", JStr "")];
  JObj [("type", JStr "profile_applied"); ("profile_id", JStr "p1")]]%string.

Lemma rules_survive_storage_witness :
  exists rules, ParseRules Some (Some sample_policy) = Ok rules /\ length rules = 5%nat /\
    exists v, MarshalRules rules = Some v /\ ParseRules Some (Some v) = Ok rules.
Proof.
  eexists. split; [vm_compute; reflexivity|]. split; [reflexivity|].
  apply (rules_survive_storage Some (fun s u _ => eq_refl) (Some sample_policy)). vm_compute. reflexivity.
Defined.

(** *** Dotted versions *)

(** Component [i] of a version, counting missing ones as zero. *)
Definition component (xs : list Z) (i : nat) : Z := nth i xs 0.

(** [xs] comes before [ys]: the first components that differ are in order. *)
Definition version_lt (xs ys : list Z) : Prop :=
  exists i, (forall j, (j < i)%nat -> component xs j = component ys j) /\ component xs i < component ys i.

Lemma component_0 xs : component xs 0 = hd 0 xs.
Proof. by destruct xs. Qed.
Lemma component_S xs i : component xs (S i) = component (tl xs) i.
Proof. destruct xs; [by destruct i|done]. Qed.

Lemma component_out xs i : (length xs <= i)%nat -> component xs i = 0.
Proof. intros H. by apply nth_overflow. Qed.

Lemma version_lt_tl xs ys : hd 0 xs = hd 0 ys -> version_lt (tl xs) (tl ys) <-> version_lt xs ys.
Proof.
  intros Hh. split; intros (i & He & Hl).
  - exists (S i). rewrite !component_S. split; [|done]. intros [|j] Hj; [by rewrite !component_0|].
    rewrite !component_S. apply He. lia.
  - destruct i as [|i]; [rewrite !component_0 in Hl; lia|]. rewrite !component_S in Hl. exists i. split; [|done].
    intros j Hj. rewrite <- !component_S. apply He. lia.
Qed.

Lemma version_lt_hd xs ys : hd 0 xs < hd 0 ys -> version_lt xs ys.
Proof. intros H. exists O. rewrite !component_0. split; [lia|done]. Qed.

Lemma version_lt_irrefl_hd xs ys : hd 0 ys < hd 0 xs -> ~ version_lt xs ys.
Proof.
  intros H (i & He & Hl). destruct i as [|i]; [rewrite !component_0 in Hl; lia|].
  specialize (He O ltac:(lia)). rewrite !component_0 in He. lia.
Qed.

Lemma compare_parts_spec n xs ys :
  (length xs <= n)%nat -> (length ys <= n)%nat ->
  (compare_parts n xs ys = -1 /\ version_lt xs ys) \/
  (compare_parts n xs ys = 1 /\ version_lt ys xs) \/
  (compare_parts n xs ys = 0 /\ forall i, component xs i = component ys i).
Proof.
  revert xs ys; induction n as [|n IH]; intros xs ys Hx Hy; simpl.
  { right; right. split; [done|]. intros i. rewrite !component_out by lia. done. }
  destruct (Z.eqb_spec (hd 0 xs) (hd 0 ys)) as [E|E].
  - destruct (IH (tl xs) (tl ys)) as [[-> H]|[[-> H]|[-> H]]]; [destruct xs; simpl in *; lia|destruct ys; simpl in *; lia|..].
    + left. split; [done|]. by apply version_lt_tl.
    + right; left. split; [done|]. by apply version_lt_tl.
    + right; right. split; [done|]. intros [|i]; [by rewrite !component_0 | by rewrite !component_S].
  - destruct (Z.ltb_spec (hd 0 xs) (hd 0 ys)).
    + left. split; [done|]. by apply version_lt_hd.
    + right; left. split; [done|]. apply version_lt_hd. lia.
Qed.

(** Dotted versions compare component by component as numbers, a missing
    component counting as zero, however the two are written; the comparison
    has an answer exactly when both are dotted numbers. *)
Theorem compare_dotted_spec a b :
  match CompareDotted a b with
  | None => dottedNumeric a = false \/ dottedNumeric b = false
  | Some c => exists xs ys, splitDotted a = Some xs /\ splitDotted b = Some ys /\
      ((c = -1 /\ version_lt xs ys) \/ (c = 1 /\ version_lt ys xs) \/
       (c = 0 /\ forall i, component xs i = component ys i))
  end.
Proof.
  unfold CompareDotted, dottedNumeric. destruct (splitDotted a) as [xs|]; [|by left].
  destruct (splitDotted b) as [ys|]; [|by right]. exists xs, ys. split_and!; [done..|].
  apply compare_parts_spec; lia.
Qed.

(** *** Evaluation *)

Section Evaluation.
Context (to_lower : string -> string) (format_date : time -> string).
Abbreviation eval := (evaluateRule to_lower format_date).
Abbreviation Evaluate := (Evaluate to_lower format_date).

Ltac verdict := intros; repeat case_match; simplify_eq; simpl; auto.

(** A failure is reported under the rule's own type, as one of two states. *)
Lemma failure_shape r f now fl :
  eval r f now = Some fl -> fl_Rule fl = ru_Type r /\ (fl_State fl = StateUnknown \/ fl_State fl = StateNonCompliant).
Proof.
  unfold evaluateRule. cbv zeta.
  destruct (String.eqb (ru_Type r) RuleOSBuildMin); [unfold evalOSBuildMin; verdict|].
  destruct (String.eqb (ru_Type r) RuleOSBuildMinPerRelease); [unfold evalOSBuildMinPerRelease; verdict|].
  destruct (String.eqb (ru_Type r) RuleAgentVersionMin); [unfold evalAgentVersionMin; verdict|].
  destruct (String.eqb (ru_Type r) RuleBitLocker); [unfold evalBitLocker, bitlockerFailure; verdict|].
  destruct (String.eqb (ru_Type r) RuleTPM); [unfold evalTPM; verdict|].
  destruct (String.eqb (ru_Type r) RuleCheckedInWithin); [unfold evalCheckedInWithin; verdict|].
  destruct (String.eqb (ru_Type r) RuleInventoryWithin); [unfold evalInventoryWithin; verdict|].
  destruct (String.eqb (ru_Type r) RuleUpdatesWithin); [unfold evalUpdatesWithin; verdict|].
  destruct (String.eqb (ru_Type r) RuleNoPendingReboot); [unfold evalNoPendingReboot; verdict|].
  destruct (String.eqb (ru_Type r) RuleMaxLocalAdmins); [unfold evalMaxLocalAdmins; verdict|].
  destruct (String.eqb (ru_Type r) RuleForbiddenSoftware); [unfold evalForbiddenSoftware, softwareGap; verdict|].
  destruct (String.eqb (ru_Type r) RuleRequiredSoftware); [unfold evalRequiredSoftware, softwareGap; verdict|].
  destruct (String.eqb (ru_Type r) RuleProfileApplied); [unfold evalProfileApplied; verdict|].
  destruct (String.eqb (ru_Type r) RuleDefenderRealtime); [unfold evalDefenderRealtime; verdict|].
  destruct (String.eqb (ru_Type r) RuleDefenderSignaturesWithin); [unfold evalDefenderSignaturesWithin; verdict|].
  destruct (String.eqb (ru_Type r) RuleFirewallEnabled); [unfold evalFirewallEnabled; verdict|].
  destruct (String.eqb (ru_Type r) RuleMaxMissingSecurityUpdates); [unfold evalMaxMissingSecurityUpdates; verdict|].
  verdict.
Qed.

(** A rule's own verdict. *)
Definition verdict_of (r : Rule) (f : Facts) (now : time) : string :=
  match eval r f now with None => StateCompliant | Some fl => fl_State fl end.

Lemma has_state_True state rules f now :
  has_state state (omap (fun r => eval r f now) rules) = true <->
  exists r fl, r ∈ rules /\ eval r f now = Some fl /\ fl_State fl = state.
Proof.
  unfold has_state. rewrite existsb_True. setoid_rewrite list_elem_of_omap. setoid_rewrite String.eqb_eq.
  naive_solver.
Qed.

(** One broken rule makes a policy non-compliant; failing that, one rule
    that cannot be answered makes it unknown; it is compliant exactly when
    every rule is met, and then it lists no failure. *)
Theorem policy_state_is_the_worst_rule rules f now :
  let res := Evaluate rules f now in
  (re_State res = StateNonCompliant <-> exists r, r ∈ rules /\ verdict_of r f now = StateNonCompliant) /\
  (re_State res = StateCompliant <-> forall r, r ∈ rules -> verdict_of r f now = StateCompliant) /\
  (re_State res = StateUnknown <->
     (exists r, r ∈ rules /\ verdict_of r f now = StateUnknown) /\
     forall r, r ∈ rules -> verdict_of r f now <> StateNonCompliant) /\
  (re_State res = StateCompliant -> re_Failures res = []).
Proof.
  cbv zeta. unfold Compliance.Evaluate. cbn [re_State re_Failures].
  set (fs := omap _ rules).
  pose proof (has_state_True StateNonCompliant rules f now) as Hn.
  pose proof (has_state_True StateUnknown rules f now) as Hu. fold fs in Hn, Hu.
  assert (forall s, s <> StateCompliant -> forall r, r ∈ rules -> verdict_of r f now = s ->
    exists r fl, r ∈ rules /\ eval r f now = Some fl /\ fl_State fl = s) as Hv.
  { intros s Hs r Hr. unfold verdict_of. destruct (eval r f now) as [fl|] eqn:E; [|naive_solver]. eauto. }
  assert (forall r, r ∈ rules -> verdict_of r f now = StateCompliant \/ verdict_of r f now = StateUnknown \/
    verdict_of r f now = StateNonCompliant) as Hall.
  { intros r Hr. unfold verdict_of. destruct (eval r f now) as [fl|] eqn:E; [|by left].
    apply failure_shape in E as [_ [->| ->]]; auto. }
  assert (forall r fl, eval r f now = Some fl -> verdict_of r f now = fl_State fl) as Hfl
    by (intros r fl E; unfold verdict_of; by rewrite E).
  destruct (has_state StateNonCompliant fs) eqn:En.
  - destruct (proj1 Hn eq_refl) as (r & fl & Hr & He & Hst). apply Hfl in He. rewrite Hst in He.
    split; [split; [intros _; by exists r | done]|]. split; [split; [done|]; intros H; apply H in Hr; congruence|].
    split; [|done]. split; [done|]. intros [_ H]. by apply H in Hr.
  - assert (forall r, r ∈ rules -> verdict_of r f now <> StateNonCompliant) as Hnn.
    { intros r Hr E. destruct (Hv StateNonCompliant ltac:(done) r Hr E) as (r' & fl & H').
      exfalso. apply Bool.diff_false_true, Hn. eauto. }
    assert (~ exists r, r ∈ rules /\ verdict_of r f now = StateNonCompliant) as Hnx.
    { intros (r & Hr & E). by apply (Hnn r Hr). }
    destruct (has_state StateUnknown fs) eqn:Eu.
    + destruct (proj1 Hu eq_refl) as (r & fl & Hr & He & Hst). apply Hfl in He. rewrite Hst in He.
      split; [split; [done | by intros ?%Hnx]|]. split; [split; [done|]; intros H; apply H in Hr; congruence|].
      split; [|done]. split; [intros _; split; [by exists r | done] | done].
    + assert (forall r, r ∈ rules -> verdict_of r f now = StateCompliant) as Hc.
      { intros r Hr. destruct (Hall r Hr) as [|[E|E]]; [done| |by apply Hnn in E].
        destruct (Hv StateUnknown ltac:(done) r Hr E) as (r' & fl & H').
        exfalso. apply Bool.diff_false_true, Hu. eauto. }
      split; [split; [done | by intros ?%Hnx]|]. split; [split; done|].
      split; [split; [done|]; intros [(r & Hr & E) _]; apply Hc in Hr; congruence|].
      intros _. subst fs. clear -Hc Hfl. induction rules as [|r rules IH]; [done|]. simpl.
      destruct (eval r f now) as [fl|] eqn:E; [|apply IH; intros; apply Hc; by right].
      exfalso. pose proof (Hc r ltac:(by left)) as H. rewrite (Hfl _ _ E) in H.
      apply failure_shape in E as [_ [E|E]]; by rewrite E in H.
Qed.

(** A device that has told the server nothing. *)
Definition silent : Facts := mkFacts (mkDevice EmptyString EmptyString None) None None ∅.

Lemma silent_unknown r now : exists d, eval r silent now = Some (unknownFailure (ru_Type r) d).
Proof.
  unfold evaluateRule. cbv zeta.
  repeat (match goal with |- exists _, (if ?b then _ else _) = _ => destruct b end;
    [first [by eexists | unfold evalProfileApplied; simpl; rewrite lookup_empty; by eexists]|]).
  by eexists.
Qed.

(** Silence is never taken for compliance, nor for a violation: whatever
    the rules, a device that has reported nothing is unknown on every one. *)
Theorem silence_is_unknown rules now :
  rules <> [] ->
  re_State (Evaluate rules silent now) = StateUnknown /\
  length (re_Failures (Evaluate rules silent now)) = length rules /\
  Forall (fun fl => fl_State fl = StateUnknown) (re_Failures (Evaluate rules silent now)).
Proof.
  intros Hne. unfold Compliance.Evaluate. cbn [re_State re_Failures].
  assert (Forall (fun fl => fl_State fl = StateUnknown) (omap (fun r => eval r silent now) rules) /\
    length (omap (fun r => eval r silent now) rules) = length rules) as [Hf Hl].
  { clear Hne. induction rules as [|r rules [IH1 IH2]]; [done|]. simpl.
    destruct (silent_unknown r now) as (d & ->). split; [by constructor | simpl; f_equal; exact IH2]. }
  split; [|done]. set (fs := omap _ rules) in *.
  destruct (has_state StateNonCompliant fs) eqn:E.
  - apply existsb_True in E as (fl & Hin & Hst). apply String.eqb_eq in Hst.
    rewrite Forall_forall in Hf. apply Hf in Hin. congruence.
  - destruct fs as [|fl fs]; [by destruct rules|]. inversion Hf; subst. simpl. by rewrite H1.
Qed.

End Evaluation.

(** The age limits of a parsed rule do not overflow. *)
Lemma hours_limit_exact n : 1 <= n <= MaxHours -> hours_limit n = n * Hour.
Proof.
  intros H. apply wrap64_id. unfold in_int64, MinInt64, MaxInt64, MaxHours, Hour, Minute, Second in *.
  apply andb_true_iff; split; lia.
Qed.
Lemma days_limit_exact n : 1 <= n <= MaxDays -> days_limit n = n * 24 * Hour.
Proof.
  intros H. unfold days_limit, dmul. unfold MaxDays in *.
  rewrite (wrap64_id (n * 24)) by (unfold in_int64, MinInt64, MaxInt64; apply andb_true_iff; split; lia).
  apply wrap64_id. unfold in_int64, MinInt64, MaxInt64, Hour, Minute, Second. apply andb_true_iff; split; lia.
Qed.

Lemma elapsed_gt now t d : 0 <= d < MaxInt64 -> (Sub now t >? d) = (now - t >? d).
Proof. intros H. apply Sub_gt. unfold MinInt64 in *. lia. Qed.

(** The four age rules are met exactly when the event is known and at most
    the limit in the past, down to the nanosecond and however far apart the
    instants are; an event not yet reported is unknown. *)
Theorem age_rules_spec r f now :
  1 <= ru_Hours r <= MaxHours -> 1 <= ru_Days r <= MaxDays ->
  (evalCheckedInWithin r f now = None <->
     exists t, dev_LastSeenAt (f_Device f) = Some t /\ now - t <= ru_Hours r * Hour) /\
  (evalInventoryWithin r f now = None <->
     exists t, f_InventoryReceivedAt f = Some t /\ now - t <= ru_Hours r * Hour) /\
  (evalUpdatesWithin r f now = None <->
     exists inv t, f_Inventory f = Some inv /\ inv_LastUpdateInstalledAt inv = Some t /\
       now - t <= ru_Days r * 24 * Hour) /\
  (evalDefenderSignaturesWithin r f now = None <->
     exists d t, defenderOf f = Some d /\ df_SignatureUpdatedAt d = Some t /\ now - t <= ru_Days r * 24 * Hour).
Proof.
  intros Hh Hd. unfold evalCheckedInWithin, evalInventoryWithin, evalUpdatesWithin, evalDefenderSignaturesWithin.
  rewrite hours_limit_exact, days_limit_exact by done. cbv zeta.
  assert (forall t, (Sub now t >? ru_Hours r * Hour) = (now - t >? ru_Hours r * Hour)) as Eh.
  { intros t. apply elapsed_gt. unfold MaxHours, MaxInt64, Hour, Minute, Second in *. lia. }
  assert (forall t, (Sub now t >? ru_Days r * 24 * Hour) = (now - t >? ru_Days r * 24 * Hour)) as Ed.
  { intros t. apply elapsed_gt. unfold MaxDays, MaxInt64, Hour, Minute, Second in *. lia. }
  split; [|split; [|split]].
  - destruct (dev_LastSeenAt (f_Device f)) as [t|]; [|naive_solver]. rewrite Eh.
    destruct (Z.gtb_spec (now - t) (ru_Hours r * Hour)); [|naive_solver]. split; [done|]. intros (? & [= <-] & ?). lia.
  - destruct (f_InventoryReceivedAt f) as [t|]; [|naive_solver]. rewrite Eh.
    destruct (Z.gtb_spec (now - t) (ru_Hours r * Hour)); [|naive_solver]. split; [done|]. intros (? & [= <-] & ?). lia.
  - destruct (f_Inventory f) as [inv|]; [|naive_solver].
    destruct (inv_LastUpdateInstalledAt inv) as [t|] eqn:Ht; [|naive_solver]. rewrite Ed.
    destruct (Z.gtb_spec (now - t) (ru_Days r * 24 * Hour)); [|naive_solver].
    split; [done|]. intros (? & ? & [= <-] & Ht' & ?). rewrite Ht in Ht'. injection Ht' as <-. lia.
  - destruct (defenderOf f) as [d|]; [|naive_solver].
    destruct (df_SignatureUpdatedAt d) as [t|] eqn:Ht; [|naive_solver]. rewrite Ed.
    destruct (Z.gtb_spec (now - t) (ru_Days r * 24 * Hour)); [|naive_solver].
    split; [done|]. intros (? & ? & [= <-] & Ht' & ?). rewrite Ht in Ht'. injection Ht' as <-. lia.
Qed.

Lemma silence_is_unknown_witness :
  re_State (Evaluate (fun s => s) Itoa [rule0 RuleNoPendingReboot; ruleCount RuleMaxLocalAdmins 3] silent 0) = StateUnknown.
Proof.
  refine (proj1 (silence_is_unknown (fun s => s) Itoa [rule0 RuleNoPendingReboot; ruleCount RuleMaxLocalAdmins 3] 0 _)).
  discriminate.
Defined.

Lemma age_rules_spec_witness :
  let f := mkFacts (mkDevice EmptyString EmptyString (Some 0)) None None ∅ in
  let r := mkRule RuleCheckedInWithin EmptyString ∅ EmptyString EmptyString EmptyString 6 1 0 EmptyString EmptyString [] in
  evalCheckedInWithin r f (6 * Hour) = None.
Proof.
  assert (1 <= 6 <= MaxHours) as Hh by (unfold MaxHours; lia).
  assert (1 <= 1 <= MaxDays) as Hd by (unfold MaxDays; lia).
  apply (age_rules_spec (mkRule RuleCheckedInWithin EmptyString ∅ EmptyString EmptyString EmptyString 6 1 0
    EmptyString EmptyString []) (mkFacts (mkDevice EmptyString EmptyString (Some 0)) None None ∅) (6 * Hour) Hh Hd).
  exists 0. split; [reflexivity|]. unfold Hour, Minute, Second. simpl. lia.
Defined.

(** A volume whose BitLocker state is none of the three documented words is
    unknown to a rule on the system volume, and passes a rule on all volumes. *)
Example bitlocker_all_accepts_an_unreported_state :
  let inv := mkInventory (mkOSInfo EmptyString None) (mkHardware false EmptyString)
    [mkDisk "C:" EmptyString] [] [] false None None None None in
  let f := mkFacts (mkDevice EmptyString EmptyString None) (Some inv) None ∅ in
  evalBitLocker (ruleVolumes RuleBitLocker VolumesAll) f = None /\
  evalBitLocker (ruleVolumes RuleBitLocker VolumesSystem) f
    = Some (unknownFailure RuleBitLocker "BitLocker status is unknown for C:").
Proof. split; reflexivity. Qed.
