(* ===== verification/RuleLexer.v ===== *)
(** * Device-group rules: syntax tree, allowlists and lexer

    Models [internal/server/groups/ast.go] and [lex.go]. A rule is a Go string;
    the lexer's position [i] is kept together with [rule\[i:\]], the part not
    read yet. Numbers are IEEE binary64 values ([SpecFloat]), which is what
    [strconv.ParseFloat] returns. Error messages are constructors of [errmsg],
    one per format string, holding the format's arguments. *)
From S2P Require Export GoString.
From Stdlib Require Export SpecFloat.

(** ** ast.go *)

Abbreviation float64 := spec_float (only parsing).

(** [And], [Or], [Not], [Compare] and [HasSoftware] implement [Node]. *)
Inductive Node : Type :=
| And (Left Right : Node)
| Or (Left Right : Node)
| Not (Operand : Node)
| Compare (Field Op Text : string) (Number : float64)
| HasSoftware (Name Op Version : string).

Inductive fieldKind := stringField | numberField.

Record fieldDef := mkFieldDef { fd_kind : fieldKind; fd_sql : string }.

Definition clockParam : string := "$CLOCK".

Definition fields : gmap string fieldDef := list_to_map [
  ("hostname", mkFieldDef stringField "d.hostname");
  ("os_version", mkFieldDef stringField "d.os_version");
  ("os_build", mkFieldDef stringField "d.os_build");
  ("manufacturer", mkFieldDef stringField "d.manufacturer");
  ("model", mkFieldDef stringField "d.model");
  ("serial", mkFieldDef stringField "d.serial");
  ("agent_version", mkFieldDef stringField "d.agent_version");
  ("ram_gb", mkFieldDef numberField "coalesce(i.ram_gb, 0)");
  ("last_seen_days", mkFieldDef numberField
    ("floor(extract(epoch from (" ++ clockParam ++ "::timestamptz - d.last_seen_at)) / 86400)"))
]%string.

Definition operators : gmap string string := list_to_map [
  ("=", "="); ("!=", "<>"); ("<", "<"); ("<=", "<="); (">", ">"); (">=", ">="); ("LIKE", "LIKE")
]%string.

Definition orderingOps (op : string) : bool := bool_decide (op ∈ ["<"; "<="; ">"; ">="]%string).

(** ** lex.go *)

Inductive tokenKind :=
| tokEOF | tokIdent | tokString | tokNumber | tokOp | tokLParen | tokRParen | tokComma.

#[export] Instance tokenKind_eq_dec : EqDecision tokenKind.
Proof. solve_decision. Defined.

Definition float_zero : float64 := S754_zero false.

Record token := mkToken {
  t_kind : tokenKind;
  t_text : string;
  t_number : float64;
  t_offset : Z
}.

Inductive errmsg : Type :=
(* lex.go *)
| UnexpectedChar (c : ascii)
| UnterminatedString
| ExpectedOperatorChar (c : ascii)
| ExpectedNumber
| NotANumber (text : string)
(* parse.go *)
| RuleTooLong
| RuleEmpty
| UnexpectedToken (what : string)
| TooDeep
| ExpectedCloseParen
| ExpectedCondition (what : string)
| UnknownField (name : string)
| TextNotOrdered (field op : string)
| NumberNotLike (field : string)
| NeedsQuotedValue (field : string)
| NeedsUnquotedNumber (field : string)
| ExpectedComparison (what : string)
| UnknownOperator (op : string)
| SoftwareNeedsParens
| SoftwareNeedsName
| SoftwareOpNotQuoted
| SoftwareBadOp (op : string)
| SoftwareNeedsVersion
| SoftwareVersionNotQuoted
| SoftwareCloseParen.

Record ParseError := errAt { pe_offset : Z; pe_message : errmsg }.

Definition isIdentStart (c : ascii) : bool := is_lower c || is_upper c || Ascii.eqb c "_".
Definition isIdentPart (c : ascii) : bool := isIdentStart c || is_digit c.

(** The value of a decimal literal [m / 10^k], correctly rounded to binary64. *)
Definition round_decimal (neg : bool) (m : Z) (k : Z) : float64 :=
  match m with
  | Zpos _ =>
      let '(q, e, l) := SFdiv_core_binary 53 1024 m 0 (10 ^ k) 0 in
      binary_round_aux 53 1024 neg q e l
  | _ => S754_zero neg
  end.

(** Digits around at most one dot: the value without the dot, and how many
    digits follow it. *)
Fixpoint decimal_parts (s : string) (acc frac : Z) (dot digit : bool) : option (Z * Z) :=
  match s with
  | EmptyString => if digit then Some (acc, frac) else None
  | String c r =>
      if Ascii.eqb c "." then if dot then None else decimal_parts r acc frac true digit
      else if is_digit c then
        decimal_parts r (acc * 10 + digit_value c) (if dot then frac + 1 else frac) dot true
      else None
  end.

(** [strconv.ParseFloat(text, 64)] on the strings [lexNumber] passes it: an
    optional minus, then digits and dots. [None] is a syntax or range error. *)
Definition ParseFloat (text : string) : option float64 :=
  let '(neg, body) :=
    match text with
    | String c r => if Ascii.eqb c "-" then (true, r) else (false, text)
    | EmptyString => (false, text)
    end in
  match decimal_parts body 0 0 false false with
  | None => None
  | Some (m, k) =>
      match round_decimal neg m k with
      | S754_infinity _ => None
      | x => Some x
      end
  end.

(** The longest prefix whose characters satisfy [p], and the rest. *)
Fixpoint span (p : ascii -> bool) (s : string) : string * string :=
  match s with
  | EmptyString => (EmptyString, EmptyString)
  | String c r => if p c then let '(a, b) := span p r in (String c a, b) else (EmptyString, s)
  end.

(** The loop of [lexString], from just after the opening quote: the literal's
    text and what follows the closing quote. *)
Fixpoint lexString_body (s : string) : option (string * string) :=
  match s with
  | EmptyString => None
  | String c r =>
      if negb (Ascii.eqb c "'") then
        match lexString_body r with Some (t, rest) => Some (String c t, rest) | None => None end
      else
        match r with
        | String d r' =>
            if Ascii.eqb d "'" then
              match lexString_body r' with Some (t, rest) => Some (String "'" t, rest) | None => None end
            else Some (EmptyString, r)
        | EmptyString => Some (EmptyString, r)
        end
  end.

(** [lexString(rule, start)], given [rule\[start+1:\]]. *)
Definition lexString (start : Z) (s : string) : result ParseError (string * string) :=
  match lexString_body s with
  | Some p => Ok p
  | None => Err (errAt start UnterminatedString)
  end.

(** [lexOperator(rule, start)], given [rule\[start\]] and [rule\[start+1:\]]. *)
Definition lexOperator (start : Z) (c : ascii) (r : string) : result ParseError (string * string) :=
  let single :=
    if Ascii.eqb c "=" || Ascii.eqb c "<" || Ascii.eqb c ">" then Ok (String c EmptyString, r)
    else Err (errAt start (ExpectedOperatorChar c)) in
  match r with
  | String d r' =>
      if Ascii.eqb d "=" && (Ascii.eqb c "!" || Ascii.eqb c "<" || Ascii.eqb c ">")
      then Ok (String c (String d EmptyString), r')
      else single
  | EmptyString => single
  end.

(** [lexNumber(rule, start)], given [rule\[start:\]]. *)
Definition lexNumber (start : Z) (s : string) : result ParseError (float64 * string * string) :=
  let '(sign, after) :=
    match s with
    | String c r => if Ascii.eqb c "-" then (String c EmptyString, r) else (EmptyString, s)
    | EmptyString => (EmptyString, s)
    end in
  let '(digits, rest) := span (fun c => is_digit c || Ascii.eqb c ".") after in
  match digits with
  | EmptyString => Err (errAt start ExpectedNumber)
  | _ =>
      let text := (sign ++ digits)%string in
      match ParseFloat text with
      | Some n => Ok (n, text, rest)
      | None => Err (errAt start (NotANumber text))
      end
  end.

(** The loop of [lex]: tokens of [rule\[i:\]], whose bytes are [s]. *)
Fixpoint lex_from (fuel : nat) (i : Z) (s : string) : outcome ParseError (list token) :=
  match fuel with
  | O => OutOfFuel
  | S f =>
      match s with
      | EmptyString => Ret [mkToken tokEOF "" float_zero i]
      | String c r =>
          let emit t rest :=
            obind (lex_from f (i + (slen s - slen rest)) rest) (fun ts => Ret (t :: ts)) in
          if is_space_byte c then lex_from f (i + 1) r
          else if Ascii.eqb c "(" then emit (mkToken tokLParen "(" float_zero i) r
          else if Ascii.eqb c ")" then emit (mkToken tokRParen ")" float_zero i) r
          else if Ascii.eqb c "," then emit (mkToken tokComma "," float_zero i) r
          else if Ascii.eqb c "'" then
            match lexString i r with
            | Ok (t, rest) => emit (mkToken tokString t float_zero i) rest
            | Err e => Fail e
            end
          else if Ascii.eqb c "=" || Ascii.eqb c "<" || Ascii.eqb c ">" || Ascii.eqb c "!" then
            match lexOperator i c r with
            | Ok (op, rest) => emit (mkToken tokOp op float_zero i) rest
            | Err e => Fail e
            end
          else if is_digit c || Ascii.eqb c "-" || Ascii.eqb c "." then
            match lexNumber i s with
            | Ok (n, t, rest) => emit (mkToken tokNumber t n i) rest
            | Err e => Fail e
            end
          else if isIdentStart c then
            let '(t, rest) := span isIdentPart s in
            emit (mkToken tokIdent t float_zero i) rest
          else Fail (errAt i (UnexpectedChar c))
      end
  end.

(** Every step but the last consumes a character, so [len(rule) + 1] is enough
    fuel ([lex_finishes]). *)
Definition lex (rule : string) : outcome ParseError (list token) :=
  lex_from (S (String.length rule)) 0 rule.

(** ** Facts *)

Lemma span_app p s a b : span p s = (a, b) -> s = (a ++ b)%string.
Proof.
  revert a b; induction s as [|c s IH]; intros a b; simpl; [by intros [= <- <-]|].
  destruct (p c); [|by intros [= <- <-]].
  destruct (span p s) as [a' b']. intros [= <- <-]. rewrite String_app. f_equal. by apply IH.
Qed.

Lemma span_len p s a b : span p s = (a, b) -> slen s = slen a + slen b.
Proof. intros ->%span_app. apply slen_app. Qed.

Lemma lexString_body_len s t rest :
  lexString_body s = Some (t, rest) -> slen rest < slen s.
Proof.
  revert t rest; induction s as [s IH] using (induction_ltof1 _ String.length); intros t rest.
  unfold ltof in IH. destruct s as [|c r]; simpl; [done|].
  rewrite slen_String. destruct (negb _).
  - destruct (lexString_body r) as [[t' r']|] eqn:E; [|done]. intros [= <- <-].
    apply IH in E; simpl; lia.
  - destruct r as [|d r']; [by intros [= <- <-]|]. destruct (Ascii.eqb d _).
    + destruct (lexString_body r') as [[t' q]|] eqn:E; [|done]. intros [= <- <-].
      apply IH in E; [rewrite slen_String; lia | simpl; lia].
    + intros [= <- <-]. lia.
Qed.

Lemma lexString_len i s t rest : lexString i s = Ok (t, rest) -> slen rest < slen s.
Proof.
  unfold lexString. destruct (lexString_body s) as [[]|] eqn:E; [|done].
  intros [= <- <-]. by eapply lexString_body_len.
Qed.

Lemma lexOperator_len i c r op rest :
  lexOperator i c r = Ok (op, rest) -> slen rest <= slen r.
Proof.
  unfold lexOperator. intros H.
  assert (slen rest <= slen r \/ rest = r) as [? | ->]; [| done | lia].
  destruct r as [|d r']; cbv zeta in H; split_ifs; simplify_eq; auto.
  left. rewrite slen_String. lia.
Qed.

Lemma lexNumber_len i s n t rest : lexNumber i s = Ok (n, t, rest) -> slen rest < slen s.
Proof.
  unfold lexNumber. intros H.
  destruct (match s with EmptyString => _ | _ => _ end) as [sign after] eqn:E1.
  assert (slen after <= slen s).
  { destruct s as [|c r]; [by simplify_eq|]. split_ifs; simplify_eq; rewrite ?slen_String; lia. }
  destruct (span _ after) as [digits rest'] eqn:E2. apply span_len in E2.
  destruct digits as [|d ds]; [done|]. rewrite slen_String in E2. pose proof (slen_nonneg ds).
  destruct (ParseFloat _); simplify_eq. lia.
Qed.

(** A token stream as the lexer leaves it: one end marker, at the end. *)
Definition no_eof (ts : list token) : Prop := Forall (fun t => t_kind t <> tokEOF) ts.
Definition lexed (ts : list token) : Prop :=
  exists body eof, ts = body ++ [eof] /\ no_eof body /\ t_kind eof = tokEOF.

Lemma lexed_cons t ts : t_kind t <> tokEOF -> lexed ts -> lexed (t :: ts).
Proof.
  intros Ht (body & eof & -> & Hb & He). exists (t :: body), eof.
  split; [done|]. split; [by constructor | done].
Qed.

(** The loop finishes within its fuel, and what it returns is well formed. *)
Lemma lex_from_spec fuel i s :
  (String.length s < fuel)%nat ->
  match lex_from fuel i s with
  | Ret ts => lexed ts
  | Fail _ => True
  | _ => False
  end.
Proof.
  revert i s; induction fuel as [|f IH]; intros i s Hlen; [lia|].
  destruct s as [|c r].
  { simpl. exists [], (mkToken tokEOF "" float_zero i). repeat split; constructor. }
  assert (forall t rest, t_kind t <> tokEOF -> slen rest < slen (String c r) ->
    match obind (lex_from f (i + (slen (String c r) - slen rest)) rest) (fun ts => Ret (t :: ts)) with
    | Ret ts => lexed ts | Fail _ => True | _ => False end) as Hemit.
  { intros t rest Ht Hrest.
    specialize (IH (i + (slen (String c r) - slen rest)) rest).
    unfold slen in *. destruct (lex_from f _ rest) as [ts| | |]; simpl;
      [apply lexed_cons; [done|]|done|..]; apply IH; lia. }
  cbn [lex_from].
  pose proof (slen_String c r) as Hs.
  repeat match goal with
  | |- context [if ?b then _ else _] => destruct b eqn:?; [first [apply Hemit; [done|lia] | idtac]|]
  end; [apply IH; simpl in Hlen; lia | .. | done].
  - destruct (lexString i r) as [[t rest]|] eqn:E; [|done].
    apply lexString_len in E. apply Hemit; [done|lia].
  - destruct (lexOperator i c r) as [[op rest]|] eqn:E; [|done].
    apply lexOperator_len in E. apply Hemit; [done|lia].
  - destruct (lexNumber i _) as [[[n t] rest]|] eqn:E; [|done].
    apply lexNumber_len in E. apply Hemit; [done|lia].
  - simpl. unfold isIdentPart at 1. rewrite Heqb6. simpl.
    destruct (span isIdentPart r) as [a b] eqn:E. apply span_len in E.
    apply Hemit; [done|]. pose proof (slen_nonneg a). lia.
Qed.

Lemma lex_spec rule :
  match lex rule with Ret ts => lexed ts | Fail _ => True | _ => False end.
Proof. apply lex_from_spec. lia. Qed.
