(* ===== verification/RuleParser.v ===== *)
(** * Device-group rules: the recursive-descent parser

    Models [internal/server/groups/parse.go]. The Go parser is an object with a
    token slice and a position; here each method is a function from the parser
    state to an [outcome] holding the new state. Indexing past the slice is
    [Panic]; the mutually recursive methods carry fuel. [RuleGrammar.v] proves
    that neither happens and which rules are accepted. *)
From S2P Require Export RuleLexer.

Definition MaxRuleLength : Z := 2000.
Definition MaxRuleDepth : Z := 20.

Record parser := mkParser { p_toks : list token; p_pos : nat }.

Definition P (A : Type) : Type := parser -> outcome ParseError (A * parser).

Definition pret {A} (a : A) : P A := fun p => Ret (a, p).
Definition pbind {A B} (m : P A) (f : A -> P B) : P B :=
  fun p => obind (m p) (fun '(a, p') => f a p').
Definition pfail {A} (offset : Z) (m : errmsg) : P A := fun _ => Fail (errAt offset m).

Declare Scope parser_scope.
Delimit Scope parser_scope with parser.
Notation "'do!' x ':=' e 'in' k" := (pbind e (fun x => k))
  (at level 10, x pattern, e at level 100, k at level 200) : parser_scope.
Local Open Scope parser_scope.

(** [p.toks\[n\]]. *)
Definition tok_at (n : nat) : P token :=
  fun p => match p_toks p !! n with Some t => Ret (t, p) | None => Panic end.

Definition peek : P token := fun p => tok_at (p_pos p) p.

Definition next : P token :=
  do! t := peek in
  fun p => Ret (t, if decide (t_kind t = tokEOF) then p else mkParser (p_toks p) (S (p_pos p))).

Definition kind_is (k : tokenKind) (t : token) : bool := bool_decide (t_kind t = k).

(** A token's text is only compared here when it is an identifier, which the
    lexer makes of ASCII letters, digits and underscores; so [EqualFold] and
    [ToLower] are the ASCII ones without loss. *)
Definition is_keyword (word : string) (t : token) : bool :=
  kind_is tokIdent t && EqualFold (t_text t) word.

Definition keywordIs (word : string) : P bool :=
  do! t := peek in pret (is_keyword word t).

Definition describe (t : token) : string :=
  match t_kind t with
  | tokEOF => "the end of the rule"
  | tokString => "a quoted value"
  | tokNumber => "a number"
  | _ => if String.eqb (t_text t) "" then "nothing"
         else String DQuote (t_text t ++ String DQuote EmptyString)
  end.

Definition parseOperator : P string :=
  do! t := peek in
  if is_keyword "LIKE" t then do! _ := next in pret "LIKE"%string
  else if negb (kind_is tokOp t) then pfail (t_offset t) (ExpectedComparison (describe t))
  else
    do! _ := next in
    match operators !! t_text t with
    | None => pfail (t_offset t) (UnknownOperator (t_text t))
    | Some _ => pret (t_text t)
    end.

(** [p.toks\[p.pos-1\]]. *)
Definition last_token : P token := fun p =>
  match p_pos p with O => Panic | S n => tok_at n p end.

Definition parseComparison : P Node :=
  do! nameTok := next in
  let name := ToLower (t_text nameTok) in
  match fields !! name with
  | None => pfail (t_offset nameTok) (UnknownField (t_text nameTok))
  | Some def =>
      do! op := parseOperator in
      do! opTok := last_token in
      do! _ :=
        match fd_kind def with
        | stringField => if orderingOps op then pfail (t_offset opTok) (TextNotOrdered name op) else pret tt
        | numberField => if String.eqb op "LIKE" then pfail (t_offset opTok) (NumberNotLike name) else pret tt
        end in
      do! lit := next in
      match fd_kind def with
      | stringField =>
          if negb (kind_is tokString lit) then pfail (t_offset lit) (NeedsQuotedValue name)
          else pret (Compare name op (t_text lit) float_zero)
      | numberField =>
          if negb (kind_is tokNumber lit) then pfail (t_offset lit) (NeedsUnquotedNumber name)
          else pret (Compare name op "" (t_number lit))
      end
  end.

(** The version operator is upper-cased and looked up; the only operator with
    letters is LIKE, which is refused, so no non-ASCII letter can turn the
    answer. *)
Definition parseSoftwareVersion : P (string * string) :=
  do! t := peek in
  if kind_is tokComma t then
    do! _ := next in
    do! opTok := next in
    if negb (kind_is tokString opTok) then pfail (t_offset opTok) SoftwareOpNotQuoted else
    let op := ToUpper (t_text opTok) in
    if negb (bool_decide (is_Some (operators !! op))) || String.eqb op "LIKE"
    then pfail (t_offset opTok) (SoftwareBadOp (t_text opTok)) else
    do! c := peek in
    if negb (kind_is tokComma c) then pfail (t_offset c) SoftwareNeedsVersion else
    do! _ := next in
    do! verTok := next in
    if negb (kind_is tokString verTok) then pfail (t_offset verTok) SoftwareVersionNotQuoted
    else pret (op, t_text verTok)
  else pret (EmptyString, EmptyString).

Definition parseHasSoftware : P Node :=
  do! fn := next in
  do! lp := peek in
  if negb (kind_is tokLParen lp) then pfail (t_offset lp) SoftwareNeedsParens else
  do! _ := next in
  do! nameTok := next in
  if negb (kind_is tokString nameTok) then pfail (t_offset nameTok) SoftwareNeedsName else
  do! ov := parseSoftwareVersion in
  do! rp := peek in
  if negb (kind_is tokRParen rp) then pfail (t_offset rp) SoftwareCloseParen else
  do! _ := next in
  pret (HasSoftware (t_text nameTok) (fst ov) (snd ov)).

(** [parseOr], [parseAnd], [parseNot] and [parsePrimary]; [orLoop] and
    [andLoop] are the [for] loops of the first two. *)
Fixpoint parseOr (fuel : nat) (depth : Z) {struct fuel} : P Node :=
  match fuel with
  | O => fun _ => OutOfFuel
  | S f =>
      if depth >? MaxRuleDepth then do! t := peek in pfail (t_offset t) TooDeep
      else do! lhs := parseAnd f depth in orLoop f depth lhs
  end
with orLoop (fuel : nat) (depth : Z) (lhs : Node) {struct fuel} : P Node :=
  match fuel with
  | O => fun _ => OutOfFuel
  | S f =>
      do! more := keywordIs "OR" in
      if more : bool then
        do! _ := next in
        do! rhs := parseAnd f depth in
        orLoop f depth (Or lhs rhs)
      else pret lhs
  end
with parseAnd (fuel : nat) (depth : Z) {struct fuel} : P Node :=
  match fuel with
  | O => fun _ => OutOfFuel
  | S f => do! lhs := parseNot f depth in andLoop f depth lhs
  end
with andLoop (fuel : nat) (depth : Z) (lhs : Node) {struct fuel} : P Node :=
  match fuel with
  | O => fun _ => OutOfFuel
  | S f =>
      do! more := keywordIs "AND" in
      if more : bool then
        do! _ := next in
        do! rhs := parseNot f depth in
        andLoop f depth (And lhs rhs)
      else pret lhs
  end
with parseNot (fuel : nat) (depth : Z) {struct fuel} : P Node :=
  match fuel with
  | O => fun _ => OutOfFuel
  | S f =>
      do! neg := keywordIs "NOT" in
      if neg : bool then
        do! _ := next in
        do! operand := parseNot f (depth + 1) in
        pret (Not operand)
      else parsePrimary f depth
  end
with parsePrimary (fuel : nat) (depth : Z) {struct fuel} : P Node :=
  match fuel with
  | O => fun _ => OutOfFuel
  | S f =>
      do! t := peek in
      if kind_is tokLParen t then
        do! _ := next in
        do! inner := parseOr f (depth + 1) in
        do! c := peek in
        if negb (kind_is tokRParen c) then pfail (t_offset c) ExpectedCloseParen
        else do! _ := next in pret inner
      else if is_keyword "has_software" t then parseHasSoftware
      else if kind_is tokIdent t then parseComparison
      else pfail (t_offset t) (ExpectedCondition (describe t))
  end.

(** Fuel for a stream of [n] tokens: each token read may be reached through
    all six methods. *)
Definition parse_fuel (n : nat) : nat := 6 * n + 6.

Definition parse_tokens (toks : list token) : outcome ParseError Node :=
  let go :=
    do! n := parseOr (parse_fuel (length toks)) 0 in
    do! t := peek in
    if negb (kind_is tokEOF t) then pfail (t_offset t) (UnexpectedToken (describe t)) else pret n in
  obind (go (mkParser toks 0)) (fun '(n, _) => Ret n).

Definition Parse (rule : string) : outcome ParseError Node :=
  if slen rule >? MaxRuleLength then Fail (errAt MaxRuleLength RuleTooLong)
  else if String.eqb (TrimSpace rule) "" then Fail (errAt 0 RuleEmpty)
  else obind (lex rule) parse_tokens.
