(* ===== verification/RuleGrammar.v ===== *)
(** * Device-group rules: the grammar and the parser's correctness

    The grammar of the rule language, as an inductive definition over tokens,
    and the proof that [RuleParser] accepts exactly it: soundness and
    completeness of every method, by a weakest-precondition calculus for the
    parser monad. The calculus excludes [Panic] and [OutOfFuel], so every
    specification below is also a proof of totality. *)
From S2P Require Export RuleParser.
Local Open Scope parser_scope.

(** ** The grammar *)

(** One operator token and the operator it stands for. *)
Definition operator_token (t : token) (op : string) : Prop :=
  (is_keyword "LIKE" t = true /\ op = "LIKE"%string) \/
  (t_kind t = tokOp /\ op = t_text t /\ is_Some (operators !! op)).

(** A literal fits a field's kind and operator: text has no ordering, a number
    no pattern. *)
Definition literal_fits (def : fieldDef) (op : string) (lit : token) : Prop :=
  match fd_kind def with
  | stringField => orderingOps op = false /\ t_kind lit = tokString
  | numberField => op <> "LIKE"%string /\ t_kind lit = tokNumber
  end.

Definition comparison_node (def : fieldDef) (name op : string) (lit : token) : Node :=
  match fd_kind def with
  | stringField => Compare name op (t_text lit) float_zero
  | numberField => Compare name op "" (t_number lit)
  end.

(** The operator and version arguments of [has_software], with their commas;
    none at all is the two empty strings. *)
Inductive version_tokens : list token -> string * string -> Prop :=
| vt_none : version_tokens [] (EmptyString, EmptyString)
| vt_some c1 op c2 ver :
    t_kind c1 = tokComma -> t_kind op = tokString -> t_kind c2 = tokComma -> t_kind ver = tokString ->
    is_Some (operators !! ToUpper (t_text op)) -> ToUpper (t_text op) <> "LIKE"%string ->
    version_tokens [c1; op; c2; ver] (ToUpper (t_text op), t_text ver).

(** A parenthesis and a [NOT] each begin a level. [nots] are the levels at
    which a [NOT] may: the documentation allows 20 of either, the parser looks
    at the limit where a parenthesis begins. *)
Section Grammar.
Context (nots : Z -> Prop).

Inductive gOr : Z -> list token -> Node -> Prop :=
| g_or d ts0 n0 ts1 n :
    d <= MaxRuleDepth -> gAnd d ts0 n0 -> gOrTail d n0 ts1 n -> gOr d (ts0 ++ ts1) n
with gOrTail : Z -> Node -> list token -> Node -> Prop :=
| g_or_end d acc : gOrTail d acc [] acc
| g_or_more d acc k ts0 n0 ts1 n :
    is_keyword "OR" k = true -> gAnd d ts0 n0 -> gOrTail d (Or acc n0) ts1 n ->
    gOrTail d acc (k :: ts0 ++ ts1) n
with gAnd : Z -> list token -> Node -> Prop :=
| g_and d ts0 n0 ts1 n : gNot d ts0 n0 -> gAndTail d n0 ts1 n -> gAnd d (ts0 ++ ts1) n
with gAndTail : Z -> Node -> list token -> Node -> Prop :=
| g_and_end d acc : gAndTail d acc [] acc
| g_and_more d acc k ts0 n0 ts1 n :
    is_keyword "AND" k = true -> gNot d ts0 n0 -> gAndTail d (And acc n0) ts1 n ->
    gAndTail d acc (k :: ts0 ++ ts1) n
with gNot : Z -> list token -> Node -> Prop :=
| g_not d k ts n : is_keyword "NOT" k = true -> nots (d + 1) -> gNot (d + 1) ts n -> gNot d (k :: ts) (Not n)
| g_primary d ts n : gPrimary d ts n -> gNot d ts n
with gPrimary : Z -> list token -> Node -> Prop :=
| g_paren d lp ts rp n :
    t_kind lp = tokLParen -> gOr (d + 1) ts n -> t_kind rp = tokRParen ->
    gPrimary d (lp :: ts ++ [rp]) n
| g_software d fn lp name vts ov rp :
    is_keyword "has_software" fn = true -> t_kind lp = tokLParen -> t_kind name = tokString ->
    version_tokens vts ov -> t_kind rp = tokRParen ->
    gPrimary d (fn :: lp :: name :: vts ++ [rp]) (HasSoftware (t_text name) (fst ov) (snd ov))
| g_comparison d name def optok op lit :
    t_kind name = tokIdent -> fields !! ToLower (t_text name) = Some def ->
    operator_token optok op -> literal_fits def op lit ->
    gPrimary d [name; optok; lit] (comparison_node def (ToLower (t_text name)) op lit).

End Grammar.

Scheme gOr_mind := Induction for gOr Sort Prop
  with gOrTail_mind := Induction for gOrTail Sort Prop
  with gAnd_mind := Induction for gAnd Sort Prop
  with gAndTail_mind := Induction for gAndTail Sort Prop
  with gNot_mind := Induction for gNot Sort Prop
  with gPrimary_mind := Induction for gPrimary Sort Prop.
Combined Scheme grammar_ind from gOr_mind, gOrTail_mind, gAnd_mind, gAndTail_mind, gNot_mind, gPrimary_mind.

Definition within_limit (d : Z) : Prop := d <= MaxRuleDepth.
Definition any_level (_ : Z) : Prop := True.

(** What may be derived with fewer levels may be with more. *)
Lemma grammar_mono (P Q : Z -> Prop) : (forall d, P d -> Q d) ->
  (forall d ts n, gOr P d ts n -> gOr Q d ts n) /\ (forall d acc ts n, gOrTail P d acc ts n -> gOrTail Q d acc ts n) /\
  (forall d ts n, gAnd P d ts n -> gAnd Q d ts n) /\ (forall d acc ts n, gAndTail P d acc ts n -> gAndTail Q d acc ts n) /\
  (forall d ts n, gNot P d ts n -> gNot Q d ts n) /\ (forall d ts n, gPrimary P d ts n -> gPrimary Q d ts n).
Proof. intros HPQ. apply grammar_ind; intros; by econstructor; eauto. Qed.

(** ** The parser state as the tokens left *)

Definition rest (p : parser) : list token := drop (p_pos p) (p_toks p).
Definition advance (n : nat) (p : parser) : parser := mkParser (p_toks p) (p_pos p + n).

Lemma rest_advance n p : rest (advance n p) = drop n (rest p).
Proof. unfold rest, advance. simpl. by rewrite drop_drop. Qed.

Lemma advance_0 p : advance 0 p = p.
Proof. destruct p. unfold advance. simpl. by rewrite Nat.add_0_r. Qed.

Lemma advance_advance m n p : advance m (advance n p) = advance (n + m) p.
Proof. unfold advance. simpl. by rewrite Nat.add_assoc. Qed.

Lemma peek_rest p t ts : rest p = t :: ts -> peek p = Ret (t, p).
Proof.
  unfold rest, peek, tok_at. intros H.
  assert (p_toks p !! p_pos p = Some t) as ->; [|done].
  by rewrite <- (Nat.add_0_r (p_pos p)), <- lookup_drop, H.
Qed.

Lemma next_rest p t ts : rest p = t :: ts -> t_kind t <> tokEOF -> next p = Ret (t, advance 1 p).
Proof.
  intros H Ht. unfold next, pbind. rewrite (peek_rest _ _ _ H). simpl.
  rewrite decide_False by done. unfold advance. by rewrite Nat.add_1_r.
Qed.

Lemma next_eof p t ts : rest p = t :: ts -> t_kind t = tokEOF -> next p = Ret (t, p).
Proof.
  intros H Ht. unfold next, pbind. rewrite (peek_rest _ _ _ H). simpl. by rewrite decide_True.
Qed.

Lemma lexed_cases ts :
  lexed ts -> exists t r, ts = t :: r /\ (t_kind t = tokEOF /\ r = [] \/ t_kind t <> tokEOF /\ lexed r).
Proof.
  intros (body & eof & -> & Hb & He). destruct body as [|t body]; [by exists eof, []; auto|].
  exists t, (body ++ [eof]). split; [done|]. right. inversion Hb; subst.
  split; [done|]. by exists body, eof.
Qed.

(** ** Weakest preconditions *)

Definition wp {A} (m : P A) (p : parser) (Q : A -> parser -> Prop) : Prop :=
  match m p with
  | Ret (a, p') => Q a p'
  | Fail _ => True
  | Panic | OutOfFuel => False
  end.

Lemma wp_ret {A} (a : A) p (Q : A -> parser -> Prop) : Q a p -> wp (pret a) p Q.
Proof. done. Qed.

Lemma wp_fail {A} o m p (Q : A -> parser -> Prop) : wp (pfail o m) p Q.
Proof. done. Qed.

Lemma wp_bind {A B} (m : P A) (f : A -> P B) p Q :
  wp m p (fun a p' => wp (f a) p' Q) -> wp (pbind m f) p Q.
Proof. unfold wp, pbind. by destruct (m p) as [[]| | |]. Qed.

Lemma wp_mono {A} (m : P A) p (Q R : A -> parser -> Prop) :
  wp m p Q -> (forall a p', Q a p' -> R a p') -> wp m p R.
Proof. unfold wp. intros H HQ. destruct (m p) as [[]| | |]; auto. Qed.

(** Reading is only ever done while tokens are left. *)
Lemma wp_peek p (Q : token -> parser -> Prop) :
  lexed (rest p) -> (forall t r, rest p = t :: r -> Q t p) -> wp peek p Q.
Proof.
  intros (t & r & Hr & _)%lexed_cases HQ. unfold wp. rewrite (peek_rest _ _ _ Hr). eauto.
Qed.

Lemma wp_next p (Q : token -> parser -> Prop) :
  lexed (rest p) ->
  (forall t r, rest p = t :: r -> t_kind t = tokEOF -> Q t p) ->
  (forall t, rest p = t :: rest (advance 1 p) -> t_kind t <> tokEOF -> lexed (rest (advance 1 p)) ->
     Q t (advance 1 p)) ->
  wp next p Q.
Proof.
  intros (t & r & Hr & Hcase)%lexed_cases H0 H1. unfold wp.
  destruct Hcase as [[Ht _]|[Ht Hl]].
  - rewrite (next_eof _ _ _ Hr) by done. eauto.
  - rewrite (next_rest _ _ _ Hr) by done.
    assert (rest (advance 1 p) = r) as Hr' by (by rewrite rest_advance, Hr).
    apply H1; rewrite ?Hr'; done.
Qed.

(** [next] after a [peek] that showed a token other than the end marker. *)
Lemma wp_next_seen p t r (Q : token -> parser -> Prop) :
  rest p = t :: r -> t_kind t <> tokEOF -> lexed (rest p) ->
  (rest p = t :: rest (advance 1 p) -> lexed (rest (advance 1 p)) -> Q t (advance 1 p)) ->
  wp next p Q.
Proof.
  intros Hr Ht Hl HQ. apply wp_next; [done| |].
  - intros t' r' Hr' Ht'. congruence.
  - intros t' Hr' Ht' Hl'. assert (t' = t) as -> by congruence. auto.
Qed.

Lemma kind_is_true k t : kind_is k t = true <-> t_kind t = k.
Proof. apply bool_decide_eq_true. Qed.

Lemma is_keyword_kind w t : is_keyword w t = true -> t_kind t = tokIdent.
Proof. intros [H _]%andb_true_iff. by apply kind_is_true. Qed.

#[export] Hint Resolve is_keyword_kind : go.

(** What a method that parsed a [G] from [p] leaves behind. *)
Definition parsed (G : list token -> Node -> Prop) (p : parser) (n : Node) (p' : parser) : Prop :=
  exists seg, rest p = seg ++ rest p' /\ p' = advance (length seg) p /\ lexed (rest p') /\ G seg n.

Lemma parsed_weaken (G H : list token -> Node -> Prop) p n p' :
  (forall seg, G seg n -> H seg n) -> parsed G p n p' -> parsed H p n p'.
Proof. intros HGH (seg & ? & ? & ? & ?). exists seg. auto. Qed.

Lemma parsed_length G p n p' : parsed G p n p' -> (length (rest p') <= length (rest p))%nat.
Proof. intros (seg & -> & _). rewrite length_app. lia. Qed.

(** ** Soundness and totality of the leaf methods *)

(** [t := p.next(); if t.kind != k { return error }]. *)
Lemma wp_expect {A} k (o : token -> Z) (m : token -> errmsg) (K : token -> P A) p Q :
  k <> tokEOF -> lexed (rest p) ->
  (forall t, t_kind t = k -> rest p = t :: rest (advance 1 p) -> lexed (rest (advance 1 p)) ->
     wp (K t) (advance 1 p) Q) ->
  wp (pbind next (fun t => if negb (kind_is k t) then pfail (o t) (m t) else K t)) p Q.
Proof.
  intros Hk Hl HK. apply wp_bind, wp_next; [done | |].
  - intros t r _ Ht. unfold kind_is. rewrite bool_decide_false by congruence. apply wp_fail.
  - intros t Hr _ Hl'. destruct (kind_is k t) eqn:E; [|apply wp_fail].
    apply kind_is_true in E. by apply HK.
Qed.

(** [if p.peek().kind != k { return error }; p.next()]. *)
Lemma wp_expect_peek {A} k (o : token -> Z) (m : token -> errmsg) (K : P A) p Q :
  k <> tokEOF -> lexed (rest p) ->
  (forall t, t_kind t = k -> rest p = t :: rest (advance 1 p) -> lexed (rest (advance 1 p)) ->
     wp K (advance 1 p) Q) ->
  wp (pbind peek (fun t => if negb (kind_is k t) then pfail (o t) (m t)
                           else pbind next (fun _ => K))) p Q.
Proof.
  intros Hk Hl HK. apply wp_bind, wp_peek; [done|]. intros t r Hr.
  destruct (kind_is k t) eqn:E; [|apply wp_fail]. apply kind_is_true in E.
  apply wp_bind. eapply wp_next_seen; [done | congruence | done |]. intros ? ?. by apply (HK t).
Qed.

Lemma operator_wp p :
  lexed (rest p) ->
  wp parseOperator p (fun op p' =>
    exists t, rest p = t :: rest p' /\ p' = advance 1 p /\ lexed (rest p') /\ operator_token t op).
Proof.
  intros Hl. unfold parseOperator. apply wp_bind, wp_peek; [done|]. intros t r Hr.
  destruct (is_keyword "LIKE" t) eqn:Hk.
  - apply wp_bind. eapply wp_next_seen; [done | | done |].
    { by rewrite (is_keyword_kind _ _ Hk). }
    intros ? ?. apply wp_ret. exists t. split_and!; [done..|]. by left.
  - destruct (kind_is tokOp t) eqn:Hop; [|apply wp_fail].
    apply kind_is_true in Hop. apply wp_bind. eapply wp_next_seen; [done | by rewrite Hop | done |].
    intros ? ?. destruct (operators !! t_text t) eqn:E; [|apply wp_fail].
    apply wp_ret. exists t. split_and!; [done..|]. right. by rewrite E.
Qed.

(** The token just read is still there to name in an error. *)
Lemma last_token_rest p t r : rest p = t :: r -> last_token (advance 1 p) = Ret (t, advance 1 p).
Proof.
  intros Hr. unfold last_token. simpl. rewrite Nat.add_1_r. unfold tok_at. simpl.
  assert (p_toks p !! p_pos p = Some t) as ->; [|done].
  rewrite <- (Nat.add_0_r (p_pos p)), <- lookup_drop. fold (rest p). by rewrite Hr.
Qed.

Lemma wp_last_token p t (Q : token -> parser -> Prop) :
  rest p = t :: rest (advance 1 p) -> Q t (advance 1 p) -> wp last_token (advance 1 p) Q.
Proof. intros Hr HQ. unfold wp. by rewrite (last_token_rest _ _ _ Hr). Qed.

Lemma comparison_wp d p t r :
  rest p = t :: r -> t_kind t = tokIdent -> lexed (rest p) ->
  wp parseComparison p (parsed (gPrimary any_level d) p).
Proof.
  intros Hr Ht Hl. unfold parseComparison. apply wp_bind.
  eapply wp_next_seen; [done | by rewrite Ht | done |]. intros Hr1 Hl1.
  destruct (fields !! ToLower (t_text t)) as [def|] eqn:Hf; [|apply wp_fail].
  apply wp_bind. eapply wp_mono; [by apply operator_wp|].
  intros op p' (o & Hr2 & -> & Hl2 & Ho).
  apply wp_bind. eapply wp_last_token; [done|]. rewrite !advance_advance in *. simpl in *.
  assert (forall lit, rest (advance 2 p) = lit :: rest (advance 3 p) -> lexed (rest (advance 3 p)) ->
    literal_fits def op lit ->
    parsed (gPrimary any_level d) p (comparison_node def (ToLower (t_text t)) op lit) (advance 3 p)) as Hdone.
  { intros lit Hr3 Hl3 Hfit. exists [t; o; lit].
    split_and!; [by rewrite Hr1, Hr2, Hr3 | done | done |]. by econstructor. }
  unfold comparison_node, literal_fits in Hdone. destruct (fd_kind def).
  - destruct (orderingOps op); [apply wp_bind, wp_fail|].
    apply wp_bind, wp_ret, wp_expect; [done | done |]. intros lit Hlit Hr3 Hl3.
    apply wp_ret. rewrite advance_advance in *. by apply Hdone.
  - destruct (String.eqb_spec op "LIKE"); [apply wp_bind, wp_fail|].
    apply wp_bind, wp_ret, wp_expect; [done | done |]. intros lit Hlit Hr3 Hl3.
    apply wp_ret. rewrite advance_advance in *. by apply Hdone.
Qed.

Lemma software_version_wp p :
  lexed (rest p) ->
  wp parseSoftwareVersion p (fun ov p' => exists seg,
    rest p = seg ++ rest p' /\ p' = advance (length seg) p /\ lexed (rest p') /\ version_tokens seg ov).
Proof.
  intros Hl. unfold parseSoftwareVersion. apply wp_bind, wp_peek; [done|]. intros c1 r Hr.
  destruct (kind_is tokComma c1) eqn:Hc1.
  2:{ apply wp_ret. exists []. rewrite advance_0. split_and!; [done..|]. constructor. }
  apply kind_is_true in Hc1. apply wp_bind.
  eapply wp_next_seen; [done | congruence | done |]. intros Hr1 Hl1.
  apply wp_expect; [done..|]. intros op Hop Hr2 Hl2.
  destruct (_ || _) eqn:E; [apply wp_fail|]. bools.
  apply wp_expect_peek; [done..|]. intros c2 Hc2 Hr3 Hl3.
  apply wp_expect; [done..|]. intros ver Hver Hr4 Hl4.
  apply wp_ret. rewrite !advance_advance in *. simpl in *. exists [c1; op; c2; ver].
  split_and!; [by rewrite Hr1, Hr2, Hr3, Hr4 | done | done |]. by constructor.
Qed.

Lemma software_wp d p t r :
  rest p = t :: r -> is_keyword "has_software" t = true -> lexed (rest p) ->
  wp parseHasSoftware p (parsed (gPrimary any_level d) p).
Proof.
  intros Hr Ht Hl. unfold parseHasSoftware. apply wp_bind.
  eapply wp_next_seen; [done | by rewrite (is_keyword_kind _ _ Ht) | done |]. intros Hr1 Hl1.
  apply wp_expect_peek; [done..|]. intros lp Hlp Hr2 Hl2.
  apply wp_expect; [done..|]. intros name Hname Hr3 Hl3.
  apply wp_bind. eapply wp_mono; [by apply software_version_wp|].
  intros ov p' (vts & Hr4 & -> & Hl4 & Hv).
  apply wp_expect_peek; [done..|]. intros rp Hrp Hr5 Hl5.
  apply wp_ret. rewrite !advance_advance in *. simpl in *.
  exists (t :: lp :: name :: vts ++ [rp]). split_and!.
  - by rewrite Hr1, Hr2, Hr3, Hr4, Hr5, !app_comm_cons, <- app_assoc.
  - f_equal. simpl. rewrite length_app. simpl. lia.
  - done.
  - by apply g_software.
Qed.

(** ** Soundness and totality of the recursive methods *)

(** The step both loops share: a keyword, an operand, and the loop again. *)
Lemma loop_step (G1 : list token -> Node -> Prop) (G2 : Node -> list token -> Node -> Prop)
    (G : list token -> Node -> Prop) (m : P Node) (K : Node -> P Node) (k : token) p :
  rest p = k :: rest (advance 1 p) ->
  wp m (advance 1 p) (parsed G1 (advance 1 p)) ->
  (forall n p', parsed G1 (advance 1 p) n p' -> wp (K n) p' (parsed (G2 n) p')) ->
  (forall s0 n0 s1 n, G1 s0 n0 -> G2 n0 s1 n -> G (k :: s0 ++ s1) n) ->
  wp (pbind m K) (advance 1 p) (parsed G p).
Proof.
  intros Hr Hm HK HG. apply wp_bind. eapply wp_mono; [done|]. intros n0 p1 Hp1.
  eapply wp_mono; [by apply HK|]. intros n p2 (s1 & Hr2 & -> & Hl2 & HG2).
  destruct Hp1 as (s0 & Hr1 & -> & Hl1 & HG1). rewrite !advance_advance in *.
  exists (k :: s0 ++ s1). split_and!.
  - by rewrite Hr, Hr1, Hr2, <- app_comm_cons, <- app_assoc.
  - f_equal. simpl. rewrite length_app. lia.
  - done.
  - by eapply HG.
Qed.

Lemma parsed_seq (G1 G : list token -> Node -> Prop) (G2 : Node -> list token -> Node -> Prop)
    (m : P Node) (K : Node -> P Node) p :
  wp m p (parsed G1 p) ->
  (forall n p', parsed G1 p n p' -> wp (K n) p' (parsed (G2 n) p')) ->
  (forall s0 n0 s1 n, G1 s0 n0 -> G2 n0 s1 n -> G (s0 ++ s1) n) ->
  wp (pbind m K) p (parsed G p).
Proof.
  intros Hm HK HG. apply wp_bind. eapply wp_mono; [done|]. intros n0 p1 Hp1.
  eapply wp_mono; [by apply HK|]. intros n p2 (s1 & Hr2 & -> & Hl2 & HG2).
  destruct Hp1 as (s0 & Hr1 & -> & Hl1 & HG1). rewrite !advance_advance in *.
  exists (s0 ++ s1). split_and!.
  - by rewrite Hr1, Hr2, <- app_assoc.
  - by rewrite length_app.
  - done.
  - by eapply HG.
Qed.

Lemma parsed_nil (G : list token -> Node -> Prop) p n :
  lexed (rest p) -> G [] n -> parsed G p n p.
Proof. intros Hl HG. exists []. by rewrite advance_0. Qed.

Lemma parsed_lexed G p n p' : parsed G p n p' -> lexed (rest p').
Proof. by intros (? & ? & ? & ? & ?). Qed.

(** Every method, on enough fuel for the tokens left, finishes and parses only
    what its nonterminal derives. *)
Lemma parser_sound f :
  (forall d p, lexed (rest p) -> (6 * length (rest p) + 4 <= f)%nat ->
     wp (parseOr f d) p (parsed (gOr any_level d) p)) /\
  (forall d acc p, lexed (rest p) -> (6 * length (rest p) + 1 <= f)%nat ->
     wp (orLoop f d acc) p (parsed (gOrTail any_level d acc) p)) /\
  (forall d p, lexed (rest p) -> (6 * length (rest p) + 3 <= f)%nat ->
     wp (parseAnd f d) p (parsed (gAnd any_level d) p)) /\
  (forall d acc p, lexed (rest p) -> (6 * length (rest p) + 1 <= f)%nat ->
     wp (andLoop f d acc) p (parsed (gAndTail any_level d acc) p)) /\
  (forall d p, lexed (rest p) -> (6 * length (rest p) + 2 <= f)%nat ->
     wp (parseNot f d) p (parsed (gNot any_level d) p)) /\
  (forall d p, lexed (rest p) -> (6 * length (rest p) + 1 <= f)%nat ->
     wp (parsePrimary f d) p (parsed (gPrimary any_level d) p)).
Proof.
  induction f as [|f (IHor & IHorl & IHand & IHandl & IHnot & IHprim)]; [by split_and!; intros; lia|].
  assert (forall p t, rest p = t :: rest (advance 1 p) ->
            length (rest p) = S (length (rest (advance 1 p)))) as Hlen by (intros p t ->; done).
  split_and!; intros d; cbn [parseOr orLoop parseAnd andLoop parseNot parsePrimary].
  - intros p Hl Hf. destruct (Z.gtb_spec d MaxRuleDepth) as [_|Hd].
    { apply wp_bind, wp_peek; [done|]. intros. apply wp_fail. }
    eapply parsed_seq with (G2 := gOrTail any_level d); [apply IHand; [done|lia] | |].
    + intros n p' Hp. pose proof (parsed_length _ _ _ _ Hp). apply IHorl; [by eapply parsed_lexed|lia].
    + intros. by econstructor.
  - intros acc p Hl Hf. apply wp_bind. unfold keywordIs.
    apply wp_bind, wp_peek; [done|]. intros k r Hr. apply wp_ret.
    destruct (is_keyword "OR" k) eqn:Hk; [|apply wp_ret, parsed_nil; [done|constructor]].
    apply wp_bind. eapply wp_next_seen; [done | by rewrite (is_keyword_kind _ _ Hk) | done |].
    intros Hr1 Hl1. specialize (Hlen _ _ Hr1).
    eapply (loop_step _ (fun n => gOrTail any_level d (Or acc n))); [done | apply IHand; [done|lia] | |].
    + intros n p' Hp. pose proof (parsed_length _ _ _ _ Hp). apply IHorl; [by eapply parsed_lexed|lia].
    + intros. by eapply g_or_more.
  - intros p Hl Hf. eapply parsed_seq with (G2 := gAndTail any_level d); [apply IHnot; [done|lia] | |].
    + intros n p' Hp. pose proof (parsed_length _ _ _ _ Hp). apply IHandl; [by eapply parsed_lexed|lia].
    + intros. by econstructor.
  - intros acc p Hl Hf. apply wp_bind. unfold keywordIs.
    apply wp_bind, wp_peek; [done|]. intros k r Hr. apply wp_ret.
    destruct (is_keyword "AND" k) eqn:Hk; [|apply wp_ret, parsed_nil; [done|constructor]].
    apply wp_bind. eapply wp_next_seen; [done | by rewrite (is_keyword_kind _ _ Hk) | done |].
    intros Hr1 Hl1. specialize (Hlen _ _ Hr1).
    eapply (loop_step _ (fun n => gAndTail any_level d (And acc n))); [done | apply IHnot; [done|lia] | |].
    + intros n p' Hp. pose proof (parsed_length _ _ _ _ Hp). apply IHandl; [by eapply parsed_lexed|lia].
    + intros. by eapply g_and_more.
  - intros p Hl Hf. apply wp_bind. unfold keywordIs.
    apply wp_bind, wp_peek; [done|]. intros k r Hr. apply wp_ret.
    destruct (is_keyword "NOT" k) eqn:Hk.
    + apply wp_bind. eapply wp_next_seen; [done | by rewrite (is_keyword_kind _ _ Hk) | done |].
      intros Hr1 Hl1. specialize (Hlen _ _ Hr1). apply wp_bind.
      eapply wp_mono; [apply IHnot; [done|lia]|]. intros n p' (seg & Hs & -> & Hl' & HG).
      apply wp_ret. rewrite advance_advance in *. exists (k :: seg).
      split_and!; [by rewrite Hr1, Hs | done | done | by constructor].
    + eapply wp_mono; [apply IHprim; [done|lia]|]. intros n p'. apply parsed_weaken. by constructor.
  - intros p Hl Hf. apply wp_bind, wp_peek; [done|]. intros t r Hr.
    destruct (kind_is tokLParen t) eqn:Hlp.
    + apply kind_is_true in Hlp. apply wp_bind.
      eapply wp_next_seen; [done | by rewrite Hlp | done |]. intros Hr1 Hl1. specialize (Hlen _ _ Hr1).
      apply wp_bind. eapply wp_mono; [apply IHor; [done|lia]|].
      intros n p' (seg & Hs & -> & Hl' & HG). apply wp_expect_peek; [done..|].
      intros rp Hrp Hr2 Hl2. apply wp_ret. rewrite !advance_advance in *.
      exists (t :: seg ++ [rp]). split_and!.
      * by rewrite Hr1, Hs, Hr2, <- app_comm_cons, <- app_assoc.
      * f_equal. simpl. rewrite length_app. simpl. lia.
      * done.
      * by constructor.
    + destruct (is_keyword "has_software" t) eqn:Hsw; [by eapply software_wp|].
      destruct (kind_is tokIdent t) eqn:Hid; [|apply wp_fail].
      apply kind_is_true in Hid. by eapply comparison_wp.
Qed.

(** ** Completeness *)

Lemma run_peek {A} (K : token -> P A) p t r :
  rest p = t :: r -> pbind peek K p = K t p.
Proof. intros Hr. unfold pbind. by rewrite (peek_rest _ _ _ Hr). Qed.

Lemma run_next {A} (K : token -> P A) p t r :
  rest p = t :: r -> t_kind t <> tokEOF -> pbind next K p = K t (advance 1 p).
Proof. intros Hr Ht. unfold pbind. by rewrite (next_rest _ _ _ Hr Ht). Qed.

Lemma run_ret {A B} (m : P A) (K : A -> P B) p a p' :
  m p = Ret (a, p') -> pbind m K p = K a p'.
Proof. intros H. unfold pbind. by rewrite H. Qed.

Lemma kind_is_eq k t : t_kind t = k -> kind_is k t = true.
Proof. apply kind_is_true. Qed.

Lemma rest_next p t r : rest p = t :: r -> rest (advance 1 p) = r.
Proof. intros Hr. by rewrite rest_advance, Hr. Qed.

Lemma rest_next_app p t s r : rest p = (t :: s) ++ r -> rest (advance 1 p) = s ++ r.
Proof. intros Hr. by rewrite rest_advance, Hr. Qed.

Lemma rest_skip p s r : rest p = s ++ r -> rest (advance (length s) p) = r.
Proof. intros Hr. by rewrite rest_advance, Hr, drop_app_length. Qed.

Lemma keyword_fold w t : is_keyword w t = true -> ToLower (t_text t) = ToLower w.
Proof. intros [_ H]%andb_true_iff. by apply String.eqb_eq. Qed.

(** Two different keywords are never the same token. *)
Lemma keyword_exclusive w w' t :
  ToLower w <> ToLower w' -> is_keyword w t = true -> is_keyword w' t = false.
Proof.
  intros Hne H1. apply not_true_is_false. intros H2.
  apply Hne. by rewrite <- (keyword_fold _ _ H1), <- (keyword_fold _ _ H2).
Qed.

Lemma not_keyword_kind w t : t_kind t <> tokIdent -> is_keyword w t = false.
Proof. intros H. apply not_true_is_false. intros ?%is_keyword_kind. done. Qed.

(** A field's name is no keyword. *)
Lemma field_not_keyword w t def :
  fields !! ToLower (t_text t) = Some def -> fields !! ToLower w = None -> is_keyword w t = false.
Proof.
  intros Hf Hw. apply not_true_is_false. intros H%keyword_fold. congruence.
Qed.

(** What follows does not continue a conjunction, or any expression. *)
Definition stops_and (r : list token) : Prop :=
  exists t r', r = t :: r' /\ is_keyword "AND" t = false.
Definition stops_or (r : list token) : Prop :=
  exists t r', r = t :: r' /\ is_keyword "AND" t = false /\ is_keyword "OR" t = false.

Lemma or_tail_stops nots d acc ts n r : gOrTail nots d acc ts n -> stops_or r -> stops_and (ts ++ r).
Proof.
  intros [|? ? k] (t & r' & -> & Ha & Ho); [by exists t, r'|].
  exists k, ((ts0 ++ ts1) ++ t :: r'). split; [done|]. by apply (keyword_exclusive "OR").
Qed.

Lemma primary_not_negated nots d ts n :
  gPrimary nots d ts n -> exists t r, ts = t :: r /\ is_keyword "NOT" t = false.
Proof.
  intros [? lp ? ? ? Hlp|? fn ? ? ? ? ? Hfn|? name ? ? ? ? Hk Hf]; eexists _, _; (split; [done|]).
  - apply not_keyword_kind. congruence.
  - by apply (keyword_exclusive "has_software").
  - by eapply field_not_keyword.
Qed.

Lemma operator_complete p t op r :
  rest p = t :: r -> operator_token t op -> parseOperator p = Ret (op, advance 1 p).
Proof.
  intros Hr Ho. unfold parseOperator. rewrite (run_peek _ _ _ _ Hr).
  destruct Ho as [[Hk ->]|(Hk & -> & Hs)].
  - rewrite Hk, (run_next _ _ _ _ Hr); [done|]. by rewrite (is_keyword_kind _ _ Hk).
  - rewrite not_keyword_kind, (kind_is_eq _ _ Hk) by congruence. simpl.
    rewrite (run_next _ _ _ _ Hr) by congruence. by destruct Hs as [? ->].
Qed.

Lemma comparison_complete p name optok op lit def r :
  rest p = name :: optok :: lit :: r ->
  t_kind name = tokIdent -> fields !! ToLower (t_text name) = Some def ->
  operator_token optok op -> literal_fits def op lit ->
  parseComparison p = Ret (comparison_node def (ToLower (t_text name)) op lit, advance 3 p).
Proof.
  intros Hr Hk Hf Ho Hfit. unfold parseComparison.
  rewrite (run_next _ _ _ _ Hr) by congruence. apply rest_next in Hr as Hr1. rewrite Hf.
  rewrite (run_ret _ _ _ _ _ (operator_complete _ _ _ _ Hr1 Ho)).
  pose proof (rest_next _ _ _ Hr1) as Hr2.
  rewrite (run_ret _ _ _ _ _ (last_token_rest _ _ _ Hr1)). unfold literal_fits, comparison_node in *.
  destruct (fd_kind def); destruct Hfit as [Hop Hlit].
  - rewrite Hop. rewrite (run_ret _ _ _ tt _ eq_refl).
    rewrite (run_next _ _ _ _ Hr2) by congruence.
    rewrite (kind_is_eq _ _ Hlit). simpl.
    by rewrite !advance_advance.
  - rewrite (proj2 (String.eqb_neq _ _) Hop). rewrite (run_ret _ _ _ tt _ eq_refl).
    rewrite (run_next _ _ _ _ Hr2) by congruence.
    rewrite (kind_is_eq _ _ Hlit). simpl.
    by rewrite !advance_advance.
Qed.

Lemma version_complete p vts ov rp r :
  rest p = vts ++ rp :: r -> version_tokens vts ov -> t_kind rp = tokRParen ->
  parseSoftwareVersion p = Ret (ov, advance (length vts) p).
Proof.
  intros Hr Hv Hrp. unfold parseSoftwareVersion. destruct Hv as [|c1 op c2 ver Hc1 Hop Hc2 Hver Hs Hl].
  - rewrite (run_peek _ _ _ _ Hr). unfold kind_is. rewrite bool_decide_false by congruence.
    by rewrite advance_0.
  - simpl in Hr. rewrite (run_peek _ _ _ _ Hr), (kind_is_eq _ _ Hc1).
    rewrite (run_next _ _ _ _ Hr) by congruence. apply rest_next in Hr as Hr1.
    rewrite (run_next _ _ _ _ Hr1), (kind_is_eq _ _ Hop) by congruence. apply rest_next in Hr1 as Hr2.
    rewrite bool_decide_true, (proj2 (String.eqb_neq _ _) Hl) by done. simpl.
    rewrite (run_peek _ _ _ _ Hr2), (kind_is_eq _ _ Hc2). simpl.
    rewrite (run_next _ _ _ _ Hr2) by congruence. apply rest_next in Hr2 as Hr3.
    rewrite (run_next _ _ _ _ Hr3), (kind_is_eq _ _ Hver) by congruence. simpl.
    by rewrite !advance_advance.
Qed.

Lemma software_complete p fn lp name vts ov rp r :
  rest p = fn :: lp :: name :: vts ++ rp :: r ->
  t_kind fn = tokIdent -> t_kind lp = tokLParen -> t_kind name = tokString ->
  version_tokens vts ov -> t_kind rp = tokRParen ->
  parseHasSoftware p =
    Ret (HasSoftware (t_text name) (fst ov) (snd ov), advance (4 + length vts) p).
Proof.
  intros Hr Hfn Hlp Hname Hv Hrp. unfold parseHasSoftware.
  rewrite (run_next _ _ _ _ Hr) by congruence. apply rest_next in Hr as Hr1.
  rewrite (run_peek _ _ _ _ Hr1), (kind_is_eq _ _ Hlp). simpl.
  rewrite (run_next _ _ _ _ Hr1) by congruence. apply rest_next in Hr1 as Hr2.
  rewrite (run_next _ _ _ _ Hr2), (kind_is_eq _ _ Hname) by congruence. simpl.
  apply rest_next in Hr2 as Hr3.
  rewrite (run_ret _ _ _ _ _ (version_complete _ _ _ _ _ Hr3 Hv Hrp)).
  apply rest_skip in Hr3 as Hr4.
  rewrite (run_peek _ _ _ _ Hr4), (kind_is_eq _ _ Hrp). simpl.
  rewrite (run_next _ _ _ _ Hr4) by congruence. rewrite !advance_advance.
  unfold pret. do 3 f_equal. lia.
Qed.

Lemma run_keyword {A} w (K : token -> P A) p t r :
  rest p = t :: r -> is_keyword w t = true -> pbind next K p = K t (advance 1 p).
Proof. intros Hr Hk%is_keyword_kind. apply (run_next _ _ _ _ Hr). by rewrite Hk. Qed.

Lemma run_keywordIs {B} w (K : bool -> P B) p t r :
  rest p = t :: r -> pbind (keywordIs w) K p = K (is_keyword w t) p.
Proof. intros Hr. unfold keywordIs. unfold pbind at 1. by rewrite (run_peek _ _ _ _ Hr). Qed.

Lemma rest_split p a b r : rest p = (a ++ b) ++ r -> rest p = a ++ (b ++ r).
Proof. by rewrite <- app_assoc. Qed.

(** One operand and the loop after it, in sequence. *)
Lemma run_seq (m : P Node) (K : Node -> P Node) p n0 n (s0 s1 : list token) :
  m p = Ret (n0, advance (length s0) p) ->
  K n0 (advance (length s0) p) = Ret (n, advance (length s1) (advance (length s0) p)) ->
  pbind m K p = Ret (n, advance (length (s0 ++ s1)) p).
Proof.
  intros Hm HK. rewrite (run_ret _ _ _ _ _ Hm), HK.
  by rewrite advance_advance, length_app.
Qed.

Lemma run_loop w (m : P Node) (K : Node -> P Node) (stop : P Node) p k n0 n (s0 s1 r : list token) :
  rest p = k :: r -> is_keyword w k = true ->
  m (advance 1 p) = Ret (n0, advance (length s0) (advance 1 p)) ->
  K n0 (advance (length s0) (advance 1 p)) =
    Ret (n, advance (length s1) (advance (length s0) (advance 1 p))) ->
  (do! more := keywordIs w in
   if more : bool then do! _ := next in do! rhs := m in K rhs else stop) p =
    Ret (n, advance (length (k :: s0 ++ s1)) p).
Proof.
  intros Hr Hk Hm HK. rewrite (run_keywordIs _ _ _ _ _ Hr), Hk.
  rewrite (run_keyword _ _ _ _ _ Hr Hk), (run_ret _ _ _ _ _ Hm), HK.
  by rewrite !advance_advance, length_cons, length_app.
Qed.

(** Tokens left after a segment: their number, for the fuel. *)
Lemma rest_length p s r : rest p = s ++ r -> (length (rest p) = length s + length r)%nat.
Proof. intros ->. apply length_app. Qed.

(** Every method, on enough fuel, parses whatever its nonterminal derives, as
    long as what follows does not continue it. *)
Lemma parser_complete (nots : Z -> Prop) :
  (forall d ts n, gOr nots d ts n -> forall f p r, rest p = ts ++ r -> stops_or r ->
     (6 * length (rest p) + 4 <= f)%nat -> parseOr f d p = Ret (n, advance (length ts) p)) /\
  (forall d acc ts n, gOrTail nots d acc ts n -> forall f p r, rest p = ts ++ r -> stops_or r ->
     (6 * length (rest p) + 1 <= f)%nat -> orLoop f d acc p = Ret (n, advance (length ts) p)) /\
  (forall d ts n, gAnd nots d ts n -> forall f p r, rest p = ts ++ r -> stops_and r ->
     (6 * length (rest p) + 3 <= f)%nat -> parseAnd f d p = Ret (n, advance (length ts) p)) /\
  (forall d acc ts n, gAndTail nots d acc ts n -> forall f p r, rest p = ts ++ r -> stops_and r ->
     (6 * length (rest p) + 1 <= f)%nat -> andLoop f d acc p = Ret (n, advance (length ts) p)) /\
  (forall d ts n, gNot nots d ts n -> forall f p r, rest p = ts ++ r ->
     (6 * length (rest p) + 2 <= f)%nat -> parseNot f d p = Ret (n, advance (length ts) p)) /\
  (forall d ts n, gPrimary nots d ts n -> forall f p r, rest p = ts ++ r ->
     (6 * length (rest p) + 1 <= f)%nat -> parsePrimary f d p = Ret (n, advance (length ts) p)).
Proof.
  apply grammar_ind.
  - intros d ts0 n0 ts1 n Hd H0 IH0 H1 IH1 [|f] p r Hr Hs Hf; [lia|]. cbn [parseOr].
    destruct (Z.gtb_spec d MaxRuleDepth); [lia|]. apply rest_split in Hr.
    pose proof (rest_length _ _ _ Hr). pose proof (rest_skip _ _ _ Hr) as Hr1.
    eapply run_seq; [eapply IH0; [done | by eapply or_tail_stops | lia]|].
    eapply IH1; [done | done | rewrite Hr1; lia].
  - intros d acc [|f] p r Hr (t & r' & -> & Ha & Ho) Hf; [lia|]. cbn [orLoop].
    by rewrite (run_keywordIs _ _ _ _ _ Hr), Ho, advance_0.
  - intros d acc k ts0 n0 ts1 n Hk H0 IH0 H1 IH1 [|f] p r Hr Hs Hf; [lia|]. cbn [orLoop].
    pose proof (rest_next_app _ _ _ _ Hr) as Hr1. apply rest_split in Hr1.
    pose proof (rest_length _ _ _ Hr1). pose proof (rest_skip _ _ _ Hr1) as Hr2.
    rewrite Hr in Hf. simpl in Hf. rewrite !length_app in Hf.
    eapply run_loop; [done | done | eapply IH0; [done | by eapply or_tail_stops | rewrite Hr1, !length_app; lia]|].
    eapply IH1; [done | done | rewrite Hr2, !length_app; lia].
  - intros d ts0 n0 ts1 n H0 IH0 H1 IH1 [|f] p r Hr Hs Hf; [lia|]. cbn [parseAnd].
    apply rest_split in Hr. pose proof (rest_length _ _ _ Hr). pose proof (rest_skip _ _ _ Hr) as Hr1.
    eapply run_seq; [eapply IH0; [done | lia]|].
    eapply IH1; [done | done | rewrite Hr1; lia].
  - intros d acc [|f] p r Hr (t & r' & -> & Ha) Hf; [lia|]. cbn [andLoop].
    by rewrite (run_keywordIs _ _ _ _ _ Hr), Ha, advance_0.
  - intros d acc k ts0 n0 ts1 n Hk H0 IH0 H1 IH1 [|f] p r Hr Hs Hf; [lia|]. cbn [andLoop].
    pose proof (rest_next_app _ _ _ _ Hr) as Hr1. apply rest_split in Hr1.
    pose proof (rest_length _ _ _ Hr1). pose proof (rest_skip _ _ _ Hr1) as Hr2.
    rewrite Hr in Hf. simpl in Hf. rewrite !length_app in Hf.
    eapply run_loop; [done | done | eapply IH0; [done | rewrite Hr1, !length_app; lia]|].
    eapply IH1; [done | done | rewrite Hr2, !length_app; lia].
  - intros d k ts n Hk _ H IH [|f] p r Hr Hf; [lia|]. cbn [parseNot].
    rewrite (run_keywordIs _ _ _ _ _ Hr), Hk, (run_keyword _ _ _ _ _ Hr Hk).
    pose proof (rest_next_app _ _ _ _ Hr) as Hr1. rewrite Hr in Hf. simpl in Hf.
    assert (6 * length (rest (advance 1 p)) + 2 <= f)%nat as Hf1 by (rewrite Hr1; lia).
    rewrite (run_ret _ _ _ _ _ (IH f (advance 1 p) r Hr1 Hf1)).
    by rewrite advance_advance.
  - intros d ts n H IH [|f] p r Hr Hf; [lia|]. cbn [parseNot].
    destruct (primary_not_negated _ _ _ _ H) as (t & r' & -> & Ht).
    rewrite (run_keywordIs _ _ _ _ _ Hr), Ht. eapply IH; [done|lia].
  - intros d lp ts rp n Hlp H IH Hrp [|f] p r Hr Hf; [lia|]. cbn [parsePrimary].
    pose proof Hr as Hr'. rewrite <- app_comm_cons in Hr'.
    rewrite (run_peek _ _ _ _ Hr'), (kind_is_eq _ _ Hlp), (run_next _ _ _ _ Hr') by congruence.
    pose proof (rest_next_app _ _ _ _ Hr) as Hr1. apply rest_split in Hr1. rewrite Hr in Hf. simpl in Hf.
    assert (stops_or ([rp] ++ r)) as Hst
      by (exists rp, r; rewrite !not_keyword_kind by congruence; done).
    assert (6 * length (rest (advance 1 p)) + 4 <= f)%nat as Hf1
      by (rewrite Hr1; rewrite !length_app in *; simpl in *; lia).
    rewrite (run_ret _ _ _ _ _ (IH f (advance 1 p) _ Hr1 Hst Hf1)).
    pose proof (rest_skip _ _ _ Hr1) as Hr2. simpl in Hr2.
    rewrite (run_peek _ _ _ _ Hr2), (kind_is_eq _ _ Hrp). simpl.
    rewrite (run_next _ _ _ _ Hr2) by congruence.
    rewrite !advance_advance, length_app. unfold pret. do 3 f_equal; simpl; lia.
  - intros d fn lp name vts ov rp Hfn Hlp Hname Hv Hrp [|f] p r Hr Hf; [lia|]. cbn [parsePrimary].
    simpl in Hr. rewrite <- app_assoc in Hr. simpl in Hr.
    pose proof (is_keyword_kind _ _ Hfn) as Hk.
    rewrite (run_peek _ _ _ _ Hr). unfold kind_is at 1. rewrite bool_decide_false by congruence.
    rewrite Hfn, (software_complete _ _ _ _ _ _ _ _ Hr) by done.
    do 3 f_equal; simpl; rewrite ?length_app; simpl; lia.
  - intros d name def optok op lit Hk Hf Ho Hfit [|f] p r Hr Hfu; [lia|]. cbn [parsePrimary].
    simpl in Hr. rewrite (run_peek _ _ _ _ Hr). unfold kind_is at 1. rewrite bool_decide_false by congruence.
    rewrite (field_not_keyword _ _ _ Hf), (kind_is_eq _ _ Hk) by done.
    by rewrite (comparison_complete _ _ _ _ _ _ _ Hr) by done.
Qed.

(** ** The parser as a whole *)

Lemma rest_start toks : rest (mkParser toks 0) = toks.
Proof. unfold rest. simpl. by rewrite drop_0. Qed.

Lemma parse_tokens_sound toks :
  lexed toks ->
  match parse_tokens toks with
  | Ret n => exists body eof, toks = body ++ [eof] /\ t_kind eof = tokEOF /\ gOr any_level 0 body n
  | Fail _ => True
  | _ => False
  end.
Proof.
  intros Hl. unfold parse_tokens.
  set (go := pbind _ _).
  assert (wp go (mkParser toks 0) (fun n p' =>
    exists body eof, toks = body ++ [eof] /\ t_kind eof = tokEOF /\ gOr any_level 0 body n)) as H.
  { apply wp_bind. eapply wp_mono.
    { apply (parser_sound (parse_fuel (length toks))).
      - by rewrite rest_start.
      - rewrite rest_start. unfold parse_fuel. lia. }
    intros n p' (seg & Hs & _ & Hl' & HG). rewrite rest_start in Hs.
    apply wp_bind, wp_peek; [done|]. intros t r Hr.
    destruct (kind_is tokEOF t) eqn:E; [|apply wp_fail]. apply kind_is_true in E.
    apply wp_ret. destruct (lexed_cases _ Hl') as (t' & r' & Hr' & Hc).
    assert (t' = t /\ r' = r) as [-> ->] by (split; congruence).
    destruct Hc as [[_ ->]|[]]; [|done]. exists seg, t. by rewrite Hs, Hr'. }
  unfold wp in H. destruct (go _) as [[n p']| | |]; simpl; done.
Qed.

Lemma parse_tokens_complete nots body eof n :
  t_kind eof = tokEOF -> gOr nots 0 body n -> parse_tokens (body ++ [eof]) = Ret n.
Proof.
  intros He HG. unfold parse_tokens. set (p := mkParser (body ++ [eof]) 0).
  pose proof (rest_start (body ++ [eof])) as Hr. fold p in Hr.
  assert (stops_or [eof]) as Hs by (exists eof, []; rewrite !not_keyword_kind by congruence; done).
  assert (6 * length (rest p) + 4 <= parse_fuel (length (body ++ [eof])))%nat as Hf
    by (rewrite Hr; unfold parse_fuel; lia).
  rewrite (run_ret _ _ _ _ _ (proj1 (parser_complete nots) _ _ _ HG _ p _ Hr Hs Hf)).
  rewrite (run_peek _ _ _ _ (rest_skip _ _ _ Hr)), (kind_is_eq _ _ He). done.
Qed.

(** The rules of the grammar: at most 2000 bytes that are not blank and lex, and
    whose tokens before the end marker derive from [gOr] at level 0. *)
Definition derives (nots : Z -> Prop) (rule : string) (n : Node) : Prop :=
  slen rule <= MaxRuleLength /\ TrimSpace rule <> ""%string /\
  exists body eof, lex rule = Ret (body ++ [eof]) /\ t_kind eof = tokEOF /\ gOr nots 0 body n.

Lemma derives_mono (P Q : Z -> Prop) rule n : (forall d, P d -> Q d) -> derives P rule n -> derives Q rule n.
Proof. intros HPQ (H1 & H2 & body & eof & H3 & H4 & HG). split_and!; [done..|]. exists body, eof. split_and!; [done..|]. by eapply (grammar_mono P Q). Qed.

(** [Parse] gives what the grammar derives, however deep a [NOT] may be ... *)
Lemma Parse_complete nots rule n : derives nots rule n -> Parse rule = Ret n.
Proof.
  intros (H1 & H2 & body & eof & Hl & He & HG). unfold Parse. destruct (Z.gtb_spec (slen rule) MaxRuleLength); [lia|].
  destruct (String.eqb_spec (TrimSpace rule) ""); [done|]. rewrite Hl. simpl. by eapply parse_tokens_complete.
Qed.

(** ... and nothing else. *)
Lemma Parse_derives rule n : Parse rule = Ret n -> derives any_level rule n.
Proof.
  unfold Parse. destruct (Z.gtb_spec (slen rule) MaxRuleLength); [done|].
  destruct (String.eqb_spec (TrimSpace rule) "") as [|Hne]; [done|].
  pose proof (lex_spec rule) as Hlex. unfold derives. destruct (lex rule) as [toks| | |]; simpl; [|done..].
  pose proof (parse_tokens_sound toks Hlex) as Hs. intros E. rewrite E in Hs. destruct Hs as (body & eof & -> & ? & ?). eauto 10.
Qed.

Lemma Parse_finishes rule : finished (Parse rule) = true.
Proof.
  unfold Parse. destruct (slen rule >? MaxRuleLength); [done|].
  destruct (String.eqb _ _); [done|].
  pose proof (lex_spec rule) as Hlex. destruct (lex rule) as [toks| | |]; try done. simpl.
  pose proof (parse_tokens_sound toks Hlex) as Hs. by destruct (parse_tokens toks).
Qed.

(** C35. Every rule of the documented grammar, of at most 2000 bytes and 20 levels, is
    parsed to the tree the grammar gives it. Whatever else is given a tree has
    it by the same grammar, except that a [NOT] in it may begin a level past
    the 20th, which the documentation does not allow; so among the rules whose
    [NOT]s keep to the limit, exactly those of the documented grammar are
    accepted. The parser always ends, with a tree or an error. *)
Theorem parse_follows_grammar rule n :
  (derives within_limit rule n -> Parse rule = Ret n) /\
  (Parse rule = Ret n -> derives any_level rule n) /\
  ((forall m, derives any_level rule m -> derives within_limit rule m) -> (Parse rule = Ret n <-> derives within_limit rule n)) /\
  finished (Parse rule) = true.
Proof.
  split; [apply Parse_complete|]. split; [apply Parse_derives|]. split.
  - intros Hlim. split; [|apply Parse_complete]. intros H. by apply Hlim, Parse_derives.
  - apply Parse_finishes.
Qed.

(** [Parse] always returns, with a tree or an error: it never indexes past
    the token slice, and the fuel of the model is always enough. *)
Theorem parse_total rule : finished (Parse rule) = true.
Proof. apply Parse_finishes. Qed.

Lemma parse_follows_grammar_witness :
  derives any_level "NOT (model = 'x' OR ram_gb < 4)" (Not (Or (Compare "model" "=" "x" float_zero)
    (Compare "ram_gb" "<" "" (S754_finite false 4503599627370496 (-50))))).
Proof. apply (parse_follows_grammar "NOT (model = 'x' OR ram_gb < 4)"). vm_compute. reflexivity. Defined.

(** The limit of 20 levels is checked where a parenthesis or a rule begins, so
    a chain of [NOT]s is not bounded by it. *)
Fixpoint not_chain (k : nat) : string :=
  match k with O => "model = 'x'" | S k => ("NOT " ++ not_chain k)%string end.

Fixpoint not_depth (n : Node) : Z :=
  match n with Not m => 1 + not_depth m | _ => 0 end.

Theorem not_chain_escapes_depth_limit :
  exists n, Parse (not_chain 400) = Ret n /\ not_depth n = 400 /\ MaxRuleDepth < not_depth n.
Proof. eexists. split; [vm_compute; reflexivity | split; reflexivity]. Qed.
