(* ===== verification/RuleCompile.v ===== *)
(** * Device-group rules: compilation to parameterized SQL

    Models [internal/server/groups/compile.go]. The query is the string the Go
    code builds, and the arguments are the values it binds, in order. The
    theorems: every parsed rule compiles; the text of the query depends on no
    literal of the rule, only on its shape, fields and operators, so nothing an
    administrator types reaches the SQL; and the placeholders in the text are
    exactly [$1 .. $n] for [n] bound arguments. *)
From S2P Require Export RuleGrammar.

(** The values bound to placeholders: the tenant's id, the evaluation time,
    and the rule's literals. *)
Inductive arg : Type :=
| ArgTenant (id : string)
| ArgTime (t : time)
| ArgText (s : string)
| ArgNumber (n : float64).

Inductive compile_error : Type :=
| CompileUnknownField (name : string)
| CompileUnknownOperator (op : string).

Record compiler := mkCompiler {
  c_args : list arg;
  c_now : time;
  c_clock : string
}.

Definition bind (v : arg) (c : compiler) : string * compiler :=
  let args := c_args c ++ [v] in
  (("$" ++ Itoa (Z.of_nat (length args)))%string, mkCompiler args (c_now c) (c_clock c)).

#[global] Arguments bind : simpl never.

Definition clockPlaceholder (c : compiler) : string * compiler :=
  if String.eqb (c_clock c) "" then
    let '(p, c') := bind (ArgTime (c_now c)) c in
    (p, mkCompiler (c_args c') (c_now c') p)
  else (c_clock c, c).

Definition C (A : Type) : Type := compiler -> result compile_error (A * compiler).
Definition cret {A} (a : A) : C A := fun c => Ok (a, c).
Definition cerr {A} (e : compile_error) : C A := fun _ => Err e.
Definition cbind {A B} (m : C A) (f : A -> C B) : C B :=
  fun c => rbind (m c) (fun '(a, c') => f a c').
Definition clift {A} (f : compiler -> A * compiler) : C A := fun c => Ok (f c).

Declare Scope compiler_scope.
Delimit Scope compiler_scope with compiler.
Notation "'do!' x ':=' e 'in' k" := (cbind e (fun x => k))
  (at level 10, x pattern, e at level 100, k at level 200) : compiler_scope.
Local Open Scope compiler_scope.

(** The [column] computation of [compare]: the clock is bound on first use. *)
Definition column_of (def : fieldDef) : C string :=
  if Contains (fd_sql def) clockParam then
    do! p := clift clockPlaceholder in cret (ReplaceAll (fd_sql def) clockParam p)
  else cret (fd_sql def).

(** A field or operator missing from its table is an error. *)
Definition lookup_operator (op : string) : C string :=
  match operators !! op with
  | Some s => cret s
  | None => cerr (CompileUnknownOperator op)
  end.

Definition compare (field op text : string) (number : float64) : C string :=
  match fields !! field with
  | None => cerr (CompileUnknownField field)
  | Some def =>
      do! sqlOp := lookup_operator op in
      do! column := column_of def in
      match fd_kind def with
      | numberField =>
          do! p := clift (bind (ArgNumber number)) in
          cret ("(" ++ column ++ " " ++ sqlOp ++ " " ++ p ++ ")")%string
      | stringField =>
          do! p := clift (bind (ArgText text)) in
          cret ("(" ++ column ++ " " ++ sqlOp ++ " " ++ p ++ ")")%string
      end
  end.

Definition dottedArray (expr : string) : string :=
  ("(CASE WHEN " ++ expr ++ " ~ '^[0-9]+(\.[0-9]+)*$' THEN string_to_array(" ++ expr
   ++ ", '.')::numeric[] END)")%string.

(** The version clause of [hasSoftware], empty when there is no operator. *)
Definition version_clause (op version : string) : C string :=
  if String.eqb op "" then cret EmptyString
  else
    do! sqlOp := lookup_operator op in
    if orderingOps op then
      do! ver := clift (bind (ArgText version)) in
      cret (" AND " ++ dottedArray "s.version" ++ " " ++ sqlOp ++ " " ++ dottedArray ver)%string
    else
      do! ver := clift (bind (ArgText version)) in
      cret (" AND s.version " ++ sqlOp ++ " " ++ ver)%string.

Definition hasSoftware (name op version : string) : C string :=
  do! p := clift (bind (ArgText name)) in
  do! v := version_clause op version in
  cret ("EXISTS (SELECT 1 FROM device_software s WHERE s.device_id = d.id AND lower(s.name) = lower("
        ++ p ++ ")" ++ v ++ ")")%string.

Definition binary (l r : C string) (op : string) : C string :=
  do! a := l in
  do! b := r in
  cret ("(" ++ a ++ " " ++ op ++ " " ++ b ++ ")")%string.

Fixpoint compile (n : Node) : C string :=
  match n with
  | And l r => binary (compile l) (compile r) "AND"
  | Or l r => binary (compile l) (compile r) "OR"
  | Not o => do! inner := compile o in cret ("(NOT COALESCE(" ++ inner ++ ", false))")%string
  | Compare field op text number => compare field op text number
  | HasSoftware name op version => hasSoftware name op version
  end.

Definition sql_newline : string := String "010" (String "009" (String "009" EmptyString)).

Definition Compile (n : Node) (tenantID : string) (now : time)
    : result compile_error (string * list arg) :=
  match compile n (mkCompiler [ArgTenant tenantID] now "") with
  | Err e => Err e
  | Ok (where_, c) =>
      Ok ((sql_newline ++ "SELECT d.id FROM devices d"
           ++ sql_newline ++ "LEFT JOIN device_inventory i ON i.device_id = d.id"
           ++ sql_newline ++ "WHERE d.tenant_id = $1 AND d.status = 'active' AND (" ++ where_ ++ ")")%string,
          c_args c)
  end.

(** ** Every parsed rule compiles *)

(** Fields and operators from the allowlists, as the grammar leaves them. *)
Fixpoint allowed (n : Node) : Prop :=
  match n with
  | And l r | Or l r => allowed l /\ allowed r
  | Not o => allowed o
  | Compare field op _ _ => is_Some (fields !! field) /\ is_Some (operators !! op)
  | HasSoftware _ op _ => op = ""%string \/ is_Some (operators !! op)
  end.

Lemma grammar_allowed (nots : Z -> Prop) :
  (forall d ts n, gOr nots d ts n -> allowed n) /\
  (forall d acc ts n, gOrTail nots d acc ts n -> allowed acc -> allowed n) /\
  (forall d ts n, gAnd nots d ts n -> allowed n) /\
  (forall d acc ts n, gAndTail nots d acc ts n -> allowed acc -> allowed n) /\
  (forall d ts n, gNot nots d ts n -> allowed n) /\
  (forall d ts n, gPrimary nots d ts n -> allowed n).
Proof.
  apply grammar_ind; simpl; auto.
  - intros d fn lp name vts ov rp _ _ _ Hv _. destruct Hv; simpl; auto.
  - intros d name def optok op lit _ Hf Ho _. unfold comparison_node.
    assert (is_Some (operators !! op)) by (destruct Ho as [[_ ->]|(_ & _ & ?)]; done).
    destruct (fd_kind def); simpl; eauto.
Qed.

Lemma column_of_ok def c : exists s c', column_of def c = Ok (s, c').
Proof.
  unfold column_of, cbind, clift, cret. destruct (Contains _ _); simpl; [|by eauto].
  destruct (clockPlaceholder c). by eauto.
Qed.

Lemma compile_ok n c : allowed n -> exists s c', compile n c = Ok (s, c').
Proof.
  revert c; induction n; intros c; simpl.
  - intros [[s1 [c1 H1]]%(IHn1 c) Ha]. unfold binary, cbind. rewrite H1. simpl.
    destruct (IHn2 c1 Ha) as (s2 & c2 & ->). simpl. unfold cret. by eauto.
  - intros [[s1 [c1 H1]]%(IHn1 c) Ha]. unfold binary, cbind. rewrite H1. simpl.
    destruct (IHn2 c1 Ha) as (s2 & c2 & ->). simpl. unfold cret. by eauto.
  - intros [s1 [c1 H1]]%(IHn c). unfold cbind. rewrite H1. simpl. unfold cret. by eauto.
  - intros [[def Hf] [o Ho]]. unfold compare. rewrite Hf. unfold lookup_operator. rewrite Ho.
    unfold cbind, cret at 1. simpl. destruct (column_of_ok def c) as (s & c' & ->). simpl.
    destruct (fd_kind def); unfold clift, cret; simpl; by eauto.
  - intros Ha. unfold hasSoftware, version_clause, cbind, clift, cret. simpl.
    destruct (String.eqb_spec Op "") as [|Hne]; [by eauto|].
    destruct Ha as [|[o Ho]]; [done|]. unfold lookup_operator. rewrite Ho. simpl.
    destruct (orderingOps Op); simpl; by eauto.
Qed.

(** Every rule [Parse] accepts compiles: the parser's tables and the
    compiler's agree. *)
Theorem parsed_rule_compiles rule n tenant now :
  Parse rule = Ret n -> exists query args, Compile n tenant now = Ok (query, args).
Proof.
  intros (_ & _ & body & eof & _ & _ & HG)%Parse_derives.
  apply grammar_allowed in HG. unfold Compile.
  destruct (compile_ok n (mkCompiler [ArgTenant tenant] now "") HG) as (s & c & ->). by eauto.
Qed.

Lemma parsed_rule_compiles_witness :
  exists query args,
    Compile (Compare "ram_gb" "<" "" (S754_finite false 4503599627370496 (-50))) "t" 0 = Ok (query, args).
Proof. apply (parsed_rule_compiles "ram_gb < 4"). vm_compute. reflexivity. Defined.

(** ** No literal reaches the SQL text *)

(** A rule with its literals erased: what is left is its shape, its fields and
    its operators. *)
Fixpoint skeleton (n : Node) : Node :=
  match n with
  | And l r => And (skeleton l) (skeleton r)
  | Or l r => Or (skeleton l) (skeleton r)
  | Not o => Not (skeleton o)
  | Compare field op _ _ => Compare field op "" float_zero
  | HasSoftware _ op _ => HasSoftware "" op ""
  end.

(** The state of two compilations that have bound equally many values. *)
Definition aligned (c1 c2 : compiler) : Prop :=
  length (c_args c1) = length (c_args c2) /\ c_clock c1 = c_clock c2.

Definition aligned_results {A} (r1 r2 : result compile_error (A * compiler)) : Prop :=
  match r1, r2 with
  | Ok (a1, c1), Ok (a2, c2) => a1 = a2 /\ aligned c1 c2
  | Err e1, Err e2 => e1 = e2
  | _, _ => False
  end.

(** A computation whose result does not depend on the values bound. *)
Definition blind {A} (m1 m2 : C A) : Prop :=
  forall c1 c2, aligned c1 c2 -> aligned_results (m1 c1) (m2 c2).

Lemma blind_ret {A} (a : A) : blind (cret a) (cret a).
Proof. intros c1 c2 Hc. done. Qed.

Lemma blind_err {A} e : blind (@cerr A e) (cerr e).
Proof. intros c1 c2 Hc. done. Qed.

Lemma blind_bind {A B} (m1 m2 : C A) (f1 f2 : A -> C B) :
  blind m1 m2 -> (forall a, blind (f1 a) (f2 a)) -> blind (cbind m1 f1) (cbind m2 f2).
Proof.
  intros Hm Hf c1 c2 Hc. unfold cbind. specialize (Hm c1 c2 Hc).
  destruct (m1 c1) as [[a1 d1]|], (m2 c2) as [[a2 d2]|]; simpl in *; try done.
  destruct Hm as [-> Hd]. by apply Hf.
Qed.

Lemma blind_value v1 v2 : blind (clift (bind v1)) (clift (bind v2)).
Proof.
  intros c1 c2 [Hl Hk]. unfold clift, bind, aligned_results, aligned. simpl.
  by rewrite !length_app, Hl.
Qed.

Lemma blind_clock : blind (clift clockPlaceholder) (clift clockPlaceholder).
Proof.
  intros c1 c2 [Hl Hk]. unfold clift, clockPlaceholder, bind. rewrite Hk.
  destruct (String.eqb _ _); simpl; unfold aligned; simpl; by rewrite ?length_app, ?Hl.
Qed.

Lemma blind_refl_operator op : blind (lookup_operator op) (lookup_operator op).
Proof. unfold lookup_operator. destruct (operators !! op); [apply blind_ret | apply blind_err]. Qed.

Create HintDb blind.
#[export] Hint Resolve blind_ret blind_err blind_bind blind_value blind_clock blind_refl_operator : blind.

Lemma blind_column def : blind (column_of def) (column_of def).
Proof. unfold column_of. destruct (Contains _ _); auto with blind. Qed.
#[export] Hint Resolve blind_column : blind.

Lemma compile_blind n1 n2 : skeleton n1 = skeleton n2 -> blind (compile n1) (compile n2).
Proof.
  revert n2; induction n1; intros n2 H; destruct n2; simplify_eq/=.
  - unfold binary. auto 10 with blind.
  - unfold binary. auto 10 with blind.
  - auto 10 with blind.
  - unfold compare. destruct (fields !! _) as [def|]; [|auto with blind].
    destruct (fd_kind def); auto 10 with blind.
  - unfold hasSoftware, version_clause.
    repeat (apply blind_bind; [auto with blind | intros ?]); [|auto with blind].
    destruct (String.eqb _ _); [auto with blind|]. apply blind_bind; [auto with blind|]. intros ?.
    destruct (orderingOps _); auto 10 with blind.
Qed.

(** C26. The SQL depends on a rule's shape, fields and operators only. Two rules
    that differ in their literals, compiled for any tenants at any times, give
    the same query text and bind equally many values - or fail alike: nothing
    an administrator types is ever concatenated into SQL. *)
Theorem query_text_ignores_literals n1 n2 t1 t2 now1 now2 :
  skeleton n1 = skeleton n2 ->
  match Compile n1 t1 now1, Compile n2 t2 now2 with
  | Ok (q1, a1), Ok (q2, a2) => q1 = q2 /\ length a1 = length a2
  | Err e1, Err e2 => e1 = e2
  | _, _ => False
  end.
Proof.
  intros H. unfold Compile.
  pose proof (compile_blind n1 n2 H (mkCompiler [ArgTenant t1] now1 "") (mkCompiler [ArgTenant t2] now2 "")
    (conj eq_refl eq_refl)) as Hb.
  destruct (compile n1 _) as [[w1 c1]|], (compile n2 _) as [[w2 c2]|]; simpl in *; try done.
  destruct Hb as [-> [Hl _]]. done.
Qed.

Definition injection_text : string := "x'); DROP TABLE devices; --".

Lemma query_text_ignores_literals_witness :
  match Compile (Compare "hostname" "=" "pc-1" float_zero) "t" 0,
        Compile (Compare "hostname" "=" injection_text float_zero) "t" 0 with
  | Ok (q1, a1), Ok (q2, a2) => q1 = q2 /\ length a1 = length a2
  | Err e1, Err e2 => e1 = e2
  | _, _ => False
  end.
Proof. apply query_text_ignores_literals. reflexivity. Defined.

(** ** Placeholders *)

(** Reading [$k] placeholders out of a query text. *)
Inductive scan_state := SOut | SDollar | SNum (k : Z).

Definition scan_char (st : scan_state) (c : ascii) : list Z * scan_state :=
  match st with
  | SOut => ([], if Ascii.eqb c "$" then SDollar else SOut)
  | SDollar =>
      ([], if is_digit c then SNum (digit_value c) else if Ascii.eqb c "$" then SDollar else SOut)
  | SNum k =>
      if is_digit c then ([], SNum (k * 10 + digit_value c))
      else ([k], if Ascii.eqb c "$" then SDollar else SOut)
  end.

Fixpoint scan (st : scan_state) (s : string) : list Z * scan_state :=
  match s with
  | EmptyString => ([], st)
  | String c r =>
      let '(l1, st1) := scan_char st c in
      let '(l2, st2) := scan st1 r in (l1 ++ l2, st2)
  end.

Definition placeholders (q : string) : list Z :=
  let '(l, st) := scan SOut q in
  l ++ match st with SNum k => [k] | _ => [] end.

Lemma scan_app st a b :
  scan st (a ++ b) =
    (fst (scan st a) ++ fst (scan (snd (scan st a)) b), snd (scan (snd (scan st a)) b)).
Proof.
  revert st; induction a as [|c a IH]; intros st; [change (EmptyString ++ b)%string with b; simpl; by destruct (scan st b)|].
  rewrite String_app. simpl. destruct (scan_char st c) as [l1 st1].
  rewrite IH. destruct (scan st1 a). simpl. by rewrite app_assoc.
Qed.

Lemma scan_digits k s v : digits_value k s = Some v -> scan (SNum k) s = ([], SNum v).
Proof.
  revert k; induction s as [|c s IH]; intros k; simpl; [by intros [= ->]|].
  destruct (is_digit c); [|done]. intros H. by rewrite (IH _ H).
Qed.

Lemma scan_placeholder k : 0 < k -> scan SOut ("$" ++ Itoa k) = ([], SNum k).
Proof.
  intros (d & r & -> & Hd & Hv)%Itoa_pos.
  change ("$" ++ String d r)%string with (String "$" (String d r)).
  simpl in *. rewrite Hd in *. change (digits_value (digit_value d) r = Some k) in Hv.
  by rewrite (scan_digits _ _ _ Hv).
Qed.

(** [mentions s L]: the text [s], read from outside any placeholder, mentions
    the placeholders [L] in order and ends outside one. *)
Definition mentions (s : string) (L : list Z) : Prop := scan SOut s = (L, SOut).

Lemma mentions_app a b L M : mentions a L -> mentions b M -> mentions (a ++ b) (L ++ M).
Proof. unfold mentions. intros Ha Hb. by rewrite scan_app, Ha; simpl; rewrite Hb. Qed.

(** A placeholder ends where a character that is no digit follows. *)
Lemma mentions_hole k c r M :
  0 < k -> is_digit c = false -> mentions (String c r) M ->
  mentions (("$" ++ Itoa k) ++ String c r) (k :: M).
Proof.
  unfold mentions. intros Hk Hc HM. rewrite scan_app, scan_placeholder by done.
  simpl in *. rewrite Hc. destruct (scan _ r) as [l st] eqn:E. simpl in *. congruence.
Qed.

Lemma operator_mentions op s : operators !! op = Some s -> mentions s [].
Proof.
  intros H%elem_of_list_to_map_2.
  repeat (apply elem_of_cons in H as [[= -> ->]|H]; [reflexivity|]). by apply elem_of_nil in H.
Qed.

Lemma field_column f def :
  fields !! f = Some def ->
  (Contains (fd_sql def) clockParam = false /\ mentions (fd_sql def) []) \/
  (Contains (fd_sql def) clockParam = true /\
   forall p, ReplaceAll (fd_sql def) clockParam p =
     ("floor(extract(epoch from (" ++ p ++ "::timestamptz - d.last_seen_at)) / 86400)")%string).
Proof.
  intros H%elem_of_list_to_map_2.
  repeat (apply elem_of_cons in H as [[= -> ->]|H]; [first [by left | by right]|]).
  by apply elem_of_nil in H.
Qed.

Definition nargs (c : compiler) : Z := Z.of_nat (length (c_args c)).

Definition compiler_wf (c : compiler) : Prop :=
  1 <= nargs c /\
  (c_clock c = ""%string \/ exists k, 1 <= k <= nargs c /\ c_clock c = ("$" ++ Itoa k)%string).

(** From [c] to [c'] the text [s] was emitted: it mentions only bound values,
    and every value bound on the way. *)
Definition emitted (c : compiler) (s : string) (c' : compiler) : Prop :=
  compiler_wf c' /\ nargs c <= nargs c' /\
  exists L, mentions s L /\ (forall k, k ∈ L -> 1 <= k <= nargs c') /\
    (forall k, nargs c < k <= nargs c' -> k ∈ L).

Lemma bind_spec v c p c' :
  compiler_wf c -> bind v c = (p, c') ->
  compiler_wf c' /\ nargs c' = nargs c + 1 /\ p = ("$" ++ Itoa (nargs c + 1))%string /\ c_clock c' = c_clock c.
Proof.
  unfold bind, compiler_wf, nargs. intros [H1 H2] [= <- <-]. simpl. rewrite !length_app. simpl.
  rewrite Nat2Z.inj_add. split_and!; [lia | | done..].
  destruct H2 as [->|(k & ? & ->)]; [by left | right; exists k; split; [lia|done]].
Qed.

Lemma column_spec f def c s c' :
  fields !! f = Some def -> compiler_wf c -> column_of def c = Ok (s, c') -> emitted c s c'.
Proof.
  intros Hf Hwf. unfold column_of, cbind, clift, cret.
  destruct (field_column _ _ Hf) as [[-> Hm]|[-> Hr]]; simpl.
  - intros [= <- <-]. split_and!; [done | lia |]. exists []. split_and!; [done | set_solver | lia].
  - destruct (clockPlaceholder c) as [p c1] eqn:Hc. rewrite Hr. intros [= <- <-].
    assert (exists k, 1 <= k <= nargs c1 /\ p = ("$" ++ Itoa k)%string /\ compiler_wf c1 /\
      nargs c <= nargs c1 /\ forall j, nargs c < j <= nargs c1 -> j = k)
      as (k & Hk & -> & Hwf1 & Hle & Honly).
    { unfold clockPlaceholder in Hc. destruct (String.eqb_spec (c_clock c) "") as [He|Hne].
      - destruct (bind (ArgTime (c_now c)) c) as [q c2] eqn:Hb. injection Hc as <- <-.
        destruct (bind_spec _ _ _ _ Hwf Hb) as (Hw & Hn & -> & _).
        pose proof (proj1 Hwf). exists (nargs c + 1).
        set (c1 := mkCompiler (c_args c2) _ _). assert (nargs c1 = nargs c2) as Hn1 by done.
        unfold compiler_wf. rewrite Hn1. repeat split; [lia.. | | lia | intros; lia].
        right. exists (nargs c + 1). split; [lia|done].
      - injection Hc as <- <-. destruct (proj2 Hwf) as [?|(k & Hk & ?)]; [done|].
        exists k. split; [lia|]. split; [done|]. split; [done|]. split; [lia | intros; lia]. }
    split_and!; [done | done |]. exists [k]. split_and!.
    + apply (mentions_app _ _ []); [reflexivity|]. apply mentions_hole; [lia | done | reflexivity].
    + intros j ->%list_elem_of_singleton. done.
    + intros j Hj. apply list_elem_of_singleton. auto.
Qed.

Lemma emitted_lit c s : compiler_wf c -> mentions s [] -> emitted c s c.
Proof. intros. split; [done|]. split; [lia|]. exists []. split_and!; [done | set_solver | lia]. Qed.

Lemma emitted_then c a c1 b c2 : emitted c a c1 -> emitted c1 b c2 -> emitted c (a ++ b) c2.
Proof.
  intros (Hw1 & Hn1 & L & HL & HL1 & HL2) (Hw2 & Hn2 & M & HM & HM1 & HM2).
  split; [done|]. split; [lia|]. exists (L ++ M). split; [by apply mentions_app|].
  setoid_rewrite elem_of_app. split.
  - intros k [Hk|Hk]; [apply HL1 in Hk; lia | by apply HM1].
  - intros k Hk. destruct (decide (k <= nargs c1)); [left; apply HL2; lia | right; apply HM2; lia].
Qed.

(** The text after a placeholder must not continue its number. *)
Definition no_digit_head (r : string) : Prop := exists c t, r = String c t /\ is_digit c = false.

(** A placeholder bound earlier may be mentioned again. *)
Lemma emitted_again c k r c' :
  compiler_wf c -> 1 <= k <= nargs c -> no_digit_head r -> emitted c r c' ->
  emitted c (("$" ++ Itoa k) ++ r) c'.
Proof.
  intros Hw Hk (ch & t & -> & Hd) (Hw' & Hn & L & HL & HL1 & HL2).
  split; [done|]. split; [done|]. exists (k :: L). split; [apply mentions_hole; [lia|done|done]|].
  setoid_rewrite elem_of_cons. split.
  - intros j [->|Hj]; [lia | by apply HL1].
  - intros j Hj. right. by apply HL2.
Qed.

Lemma emitted_bind v c p c1 r c2 :
  compiler_wf c -> bind v c = (p, c1) -> no_digit_head r -> emitted c1 r c2 ->
  emitted c (p ++ r) c2.
Proof.
  intros Hw Hb (ch & t & -> & Hd) (Hw' & Hn & L & HL & HL1 & HL2).
  destruct (bind_spec _ _ _ _ Hw Hb) as (Hw1 & Hn1 & -> & _). pose proof (proj1 Hw).
  split; [done|]. split; [lia|]. exists ((nargs c + 1) :: L).
  split; [apply mentions_hole; [lia|done|done]|]. setoid_rewrite elem_of_cons. split.
  - intros j [->|Hj]; [lia | by apply HL1].
  - intros j Hj. destruct (decide (j = nargs c + 1)); [by left | right; apply HL2; lia].
Qed.

Lemma no_digit_head_app a b : no_digit_head a -> no_digit_head (a ++ b).
Proof. intros (c & t & -> & Hd). exists c, (t ++ b)%string. by rewrite String_app. Qed.

Ltac head := by (repeat apply no_digit_head_app; eexists _, _; split; [reflexivity|]; reflexivity).
Ltac lit := (apply emitted_lit; [done | first [reflexivity | by eapply operator_mentions]]).
Ltac lit_then := (eapply emitted_then; [lit|]).

Lemma compare_emitted c field op text number s c' :
  compiler_wf c -> compare field op text number c = Ok (s, c') -> emitted c s c'.
Proof.
  intros Hw. unfold compare. destruct (fields !! field) as [def|] eqn:Hf; [|done].
  unfold lookup_operator. destruct (operators !! op) as [sqlOp|] eqn:Ho; [|done].
  unfold cbind at 1, cret at 1. simpl. unfold cbind at 1.
  destruct (column_of def c) as [[col c1]|] eqn:Hc; [|done]. simpl.
  pose proof (column_spec _ _ _ _ _ Hf Hw Hc) as Hcol. pose proof (proj1 Hcol) as Hw1.
  assert (forall v, cbind (clift (bind v))
      (fun p => cret ("(" ++ col ++ " " ++ sqlOp ++ " " ++ p ++ ")")%string) c1 = Ok (s, c') ->
    emitted c s c') as Hgoal; [|by destruct (fd_kind def); apply Hgoal].
  intros v. unfold cbind, clift, cret. destruct (bind v c1) as [p c2] eqn:Hb. intros [= <- <-].
  destruct (bind_spec _ _ _ _ Hw1 Hb) as (Hw2 & _).
  lit_then. eapply emitted_then; [done|]. do 3 lit_then.
  eapply emitted_bind; [done | done | head | lit].
Qed.

(** The version clause may end in a placeholder, so it is described together
    with the text [r] that follows it. *)
Lemma version_emitted c op version s c1 r c2 :
  compiler_wf c -> version_clause op version c = Ok (s, c1) ->
  compiler_wf c1 /\ (no_digit_head r -> emitted c1 r c2 -> emitted c (s ++ r) c2).
Proof.
  intros Hw. unfold version_clause. destruct (String.eqb op "").
  { intros [= <- <-]. split; [done|]. by rewrite sapp_nil_l. }
  unfold lookup_operator. destruct (operators !! op) as [sqlOp|] eqn:Ho; [|done].
  destruct (bind (ArgText version) c) as [p c3] eqn:Hb.
  destruct (bind_spec _ _ _ _ Hw Hb) as (Hw1 & Hn1 & Hp & _). pose proof (proj1 Hw).
  destruct (orderingOps op); unfold cbind, clift, cret, rbind; rewrite Hb;
    intros [= <- <-]; (split; [done|]); intros Hhead Hr.
  - unfold dottedArray. rewrite !sapp_assoc. do 10 lit_then.
    eapply emitted_bind; [done | done | head |].
    lit_then. rewrite Hp. apply emitted_again; [done | lia | head |]. by lit_then.
  - rewrite !sapp_assoc. do 3 lit_then. by eapply emitted_bind.
Qed.

Lemma software_emitted c name op version s c' :
  compiler_wf c -> hasSoftware name op version c = Ok (s, c') -> emitted c s c'.
Proof.
  intros Hw. unfold hasSoftware.
  destruct (bind (ArgText name) c) as [p c1] eqn:Hb.
  destruct (bind_spec _ _ _ _ Hw Hb) as (Hw1 & _).
  unfold cbind, clift, cret. rewrite Hb. cbn [rbind].
  destruct (version_clause op version c1) as [[v c2]|] eqn:Hv; [|done].
  cbn [rbind]. intros [= <- <-].
  destruct (version_emitted _ _ _ _ _ ")" c2 Hw1 Hv) as [Hw2 Hve].
  lit_then. eapply emitted_bind; [done | done | head |]. lit_then.
  apply Hve; [head | lit].
Qed.

Lemma binary_emitted (l r : C string) op :
  (forall c s c', compiler_wf c -> l c = Ok (s, c') -> emitted c s c') ->
  (forall c s c', compiler_wf c -> r c = Ok (s, c') -> emitted c s c') ->
  mentions op [] ->
  forall c s c', compiler_wf c -> binary l r op c = Ok (s, c') -> emitted c s c'.
Proof.
  intros Hl Hr Hop c s c' Hw. unfold binary, cbind.
  destruct (l c) as [[a c1]|] eqn:Ha; [|done]. simpl. specialize (Hl _ _ _ Hw Ha).
  pose proof (proj1 Hl) as Hw1.
  destruct (r c1) as [[b c2]|] eqn:Hb; [|done]. simpl. specialize (Hr _ _ _ Hw1 Hb).
  unfold cret. intros [= <- <-]. pose proof (proj1 Hr) as Hw2.
  lit_then. eapply emitted_then; [done|]. lit_then.
  eapply emitted_then; [by apply emitted_lit|]. lit_then. eapply emitted_then; [done | lit].
Qed.

Lemma compile_emitted n c s c' : compiler_wf c -> compile n c = Ok (s, c') -> emitted c s c'.
Proof.
  revert c s c'; induction n; intros c s c' Hw; cbn [compile].
  - by apply binary_emitted.
  - by apply binary_emitted.
  - unfold cbind. destruct (compile n c) as [[a c1]|] eqn:Ha; [|done]. simpl.
    unfold cret. intros [= <- <-]. specialize (IHn _ _ _ Hw Ha). pose proof (proj1 IHn).
    lit_then. eapply emitted_then; [done | lit].
  - by apply compare_emitted.
  - by apply software_emitted.
Qed.

(** The placeholders in a compiled query are exactly [$1 .. $n], for the
    [n] values bound: it mentions no value that is not bound, and binds none
    the text does not mention (Postgres could not give that one a type). *)
Theorem placeholders_are_the_arguments n tenant now query args :
  Compile n tenant now = Ok (query, args) ->
  forall k, k ∈ placeholders query <-> 1 <= k <= Z.of_nat (length args).
Proof.
  unfold Compile. set (c := mkCompiler [ArgTenant tenant] now "").
  assert (compiler_wf c) as Hw by (split; [done | by left]).
  destruct (compile n c) as [[w c']|] eqn:E; [|done]. intros [= <- <-] k.
  destruct (compile_emitted _ _ _ _ Hw E) as (Hw' & Hn & L & HL & HL1 & HL2).
  unfold placeholders. set (pre := (_ ++ "SELECT d.id FROM devices d" ++ _)%string).
  assert (scan SOut pre = (1 :: L, SOut)) as ->.
  { subst pre. unfold sql_newline. rewrite !scan_app. simpl. rewrite HL. simpl. by rewrite app_nil_r. }
  rewrite app_nil_r, elem_of_cons. fold (nargs c'). split.
  - intros [->|Hk]; [destruct Hw'; lia | by apply HL1].
  - intros Hk. destruct (decide (k = 1)); [by left|]. right. apply HL2.
    change (nargs c) with 1. lia.
Qed.

Lemma placeholders_are_the_arguments_witness :
  exists query args,
    Compile (Compare "last_seen_days" ">" "" (S754_finite false 4503599627370496 (-50))) "t" 0 = Ok (query, args) /\
    forall k, k ∈ placeholders query <-> 1 <= k <= Z.of_nat (length args).
Proof.
  eexists _, _. split; [vm_compute; reflexivity|].
  exact (placeholders_are_the_arguments
    (Compare "last_seen_days" ">" "" (S754_finite false 4503599627370496 (-50))) "t" 0 _ _ eq_refl).
Defined.
