(* ===== verification/GroupService.v ===== *)
(** * The group service

    [internal/server/groups/service.go]: groups as administrators make and
    change them, and the membership of those whose members follow from a rule.
    Running a compiled rule is the database's part: [run_query] is given the
    text and the arguments [RuleCompile] made of it. A call reads the clock
    once. *)
From S2P Require Import RuleCompile.

From S2P Require Export FleetStore.
Open Scope Z_scope.
Open Scope go_scope.

(** ** Groups, their members and what they are given

    The rest of [internal/server/store/groups.go] and the group queries of
    [approvals.go], [scope.go], [scripts.go] and [itemstatus.go], on the tables
    of [FleetStore]. A group's members are kept in its row; deleting the group
    deletes them with it, as the foreign key does. *)

(** ** Groups *)

Definition group_list (d : fdb) : list (string * Group) := map_to_list (f_groups d).

(** Another group of that name: the unique index is on [lower(name)]. *)
Definition named (name : string) (g : string * Group) : bool := String.eqb (ToLower (g_Name g.2)) (ToLower name).

Definition CreateGroup (id : string) (g : Group) : ftx store_error unit := fun d =>
  if bool_decide (is_Some (f_groups d !! id)) || existsb (named (g_Name g)) (group_list d) then (Err ErrDuplicate, d)
  else (Ok tt, set_f_groups (<[id := mkGroupRow (g_Name g) (g_Description g) (g_Kind g) (g_Rule g) (g_CreatedAt g)
                                       (g_CreatedAt g) None []]> (f_groups d)) d).

Definition GetGroupByName (name : string) : ftx store_error (string * Group) :=
  let* g := fget (fun d => find (named name) (group_list d)) in found ErrNotFound g.

(** [ORDER BY (g.kind = 'builtin') DESC, lower(g.name)]. *)
Definition group_order (a b : string * Group) : bool :=
  let (x, y) := (String.eqb (g_Kind a.2) GroupBuiltin, String.eqb (g_Kind b.2) GroupBuiltin) in
  (x && negb y) || (Bool.eqb x y && String.leb (ToLower (g_Name a.2)) (ToLower (g_Name b.2))).

Definition ListGroups : ftx store_error (list (string * Group * Z)) :=
  fget (fun d => map (fun g => (g, Z.of_nat (length (g_Members g.2)))) (order_by group_order (group_list d))).

Definition name_order (a b : string * Group) : bool := String.leb (ToLower (g_Name a.2)) (ToLower (g_Name b.2)).

Definition DynamicGroups : ftx store_error (list (string * Group)) :=
  fget (fun d => order_by name_order
    (List.filter (fun g => String.eqb (g_Kind g.2) GroupDynamic || String.eqb (g_Kind g.2) GroupBuiltin) (group_list d))).

Definition ListGroupsForDevice (deviceID : string) : ftx store_error (list (string * Group)) :=
  fget (fun d => order_by name_order (List.filter (fun g => existsb (String.eqb deviceID) (g_Members g.2)) (group_list d))).

(** What an update writes over the old row. *)
Definition rewrite_group (g old : Group) : Group :=
  mkGroupRow (g_Name g) (g_Description g) (g_Kind old) (g_Rule g) (g_CreatedAt old) (g_UpdatedAt g) (g_EvaluatedAt old) (g_Members old).

Definition UpdateGroup (id : string) (g : Group) : ftx store_error unit := fun d =>
  match f_groups d !! id with
  | None => (Ok tt, d)
  | Some old =>
      if existsb (fun o => negb (String.eqb o.1 id) && named (g_Name g) o) (group_list d) then (Err ErrDuplicate, d)
      else (Ok tt, set_f_groups (<[id := rewrite_group g old]> (f_groups d)) d)
  end.

Definition forget_pilot (id : string) (r : AgentRollout) : AgentRollout :=
  mkAgentRollout (ro_ID r) (ro_AgentVersionID r) (ro_State r) None (ro_DelayHours r) (ro_PilotAssignmentID r)
    (ro_PilotApprovalID r) (ro_PilotStartedAt r) (ro_ExcludeAssignmentID r) (ro_FleetAssignmentID r) (ro_FleetApprovalID r)
    (ro_PromotedAt r) (ro_Detail r) (ro_CreatedAt r) (ro_UpdatedAt r) (ro_Version r).

Definition is_pilot (id : string) (p : option string) : bool := match p with Some g => String.eqb g id | None => false end.

(** The foreign keys: members and assignments go, a rollout and the policy
    lose their pilot group. An administrator's scope is in [AuthStore]. *)
Definition DeleteGroup (id : string) : ftx store_error unit := fset (fun d =>
  set_f_groups (delete id (f_groups d))
    (set_f_assignments (List.filter (fun a => negb (String.eqb (as_GroupID a) id)) (f_assignments d))
      (set_f_rollouts (update_where (fun r => is_pilot id (ro_PilotGroupID r)) (forget_pilot id) (f_rollouts d))
        (set_f_policy (option_map (fun p => if is_pilot id (po_PilotGroupID p) then mkPolicy (po_Enabled p) None (po_DelayHours p) else p)
                         (f_policy d)) d)))).

(** ** Members *)

Definition set_g_Members (x : list string) (g : Group) : Group :=
  mkGroupRow (g_Name g) (g_Description g) (g_Kind g) (g_Rule g) (g_CreatedAt g) (g_UpdatedAt g) (g_EvaluatedAt g) x.
Definition set_g_EvaluatedAt (x : time) (g : Group) : Group :=
  mkGroupRow (g_Name g) (g_Description g) (g_Kind g) (g_Rule g) (g_CreatedAt g) (g_UpdatedAt g) (Some x) (g_Members g).

Definition on_group {E} (id : string) (f : Group -> Group) : ftx E unit :=
  fset (fun d => set_f_groups (alter f id (f_groups d)) d).

Definition add_members (ids members : list string) : list string :=
  fold_left (fun l x => if existsb (String.eqb x) l then l else l ++ [x]) ids members.

(** The insert: its group and its devices are foreign keys. *)
Definition insert_members (id : string) (ids : list string) : ftx store_error unit := fun d =>
  if bool_decide (is_Some (f_groups d !! id)) && forallb (fun x => bool_decide (is_Some (f_devices d !! x))) ids
  then on_group id (fun g => set_g_Members (add_members ids (g_Members g)) g) d
  else (Err ErrForeignKey, d).

Definition markGroupEvaluated (id : string) (now : time) : ftx store_error unit := on_group id (set_g_EvaluatedAt now).

Definition SetGroupMembers (id : string) (ids : list string) (now : time) : ftx store_error unit :=
  do* on_group id (fun g => set_g_Members (List.filter (fun x => existsb (String.eqb x) ids) (g_Members g)) g);
  match ids with
  | [] => markGroupEvaluated id now
  | _ => do* insert_members id ids; markGroupEvaluated id now
  end.

Definition SetDeviceGroupMembership (id deviceID : string) (member : bool) : ftx store_error unit :=
  if negb member then on_group id (fun g => set_g_Members (List.filter (fun x => negb (String.eqb x deviceID)) (g_Members g)) g)
  else insert_members id [deviceID].

Definition AddGroupMember (id deviceID : string) : ftx store_error unit := SetDeviceGroupMembership id deviceID true.
Definition RemoveGroupMember (id deviceID : string) : ftx store_error unit := SetDeviceGroupMembership id deviceID false.

Definition IsGroupMember (id deviceID : string) : ftx store_error bool := fget (fun d => is_member d id deviceID).

(** ** Devices *)

Definition GetDevice (id : string) : ftx store_error FleetDevice :=
  let* x := fget (fun d => f_devices d !! id) in found ErrNotFound x.

Definition ActiveDeviceIDs : ftx store_error (list string) :=
  fget (fun d => map fst (List.filter (fun x => String.eqb (fd_Status x.2) DeviceActive) (map_to_list (f_devices d)))).

(** [None] is the whole fleet. *)
Definition DeviceInScope (deviceID : string) (scope : option (list string)) : ftx store_error bool :=
  fget (fun d => match scope with None => true | Some l => existsb (fun g => is_member d g deviceID) l end).

(** ** Assignments *)

Definition is_item (kind id : string) (a : Assignment) : bool := String.eqb (as_ItemKind a) kind && String.eqb (as_ItemID a) id.

Definition DeleteAssignmentsForItem (kind id : string) : ftx store_error unit :=
  fset (fun d => set_f_assignments (List.filter (fun a => negb (is_item kind id a)) (f_assignments d)) d).

Definition GetAssignment (id : string) : ftx store_error Assignment :=
  let* a := fget (fun d => find (fun a => String.eqb (as_ID a) id) (f_assignments d)) in found ErrNotFound a.

Definition assignment_order (a b : Assignment) : bool :=
  String.ltb (as_Mode a) (as_Mode b) || (String.eqb (as_Mode a) (as_Mode b) && (as_CreatedAt a <=? as_CreatedAt b)).

Definition ListAssignments (kind id : string) : ftx store_error (list Assignment) :=
  fget (fun d => order_by assignment_order (List.filter (is_item kind id) (f_assignments d))).

Definition DeviceHasItem (deviceID kind id : string) : ftx store_error bool := fget (fun d =>
  existsb (fun a => is_item kind id a && reaches d deviceID ModeInclude a
    && negb (existsb (fun x => is_item kind id x && reaches d deviceID ModeExclude x) (f_assignments d))) (f_assignments d)).

Definition ActiveDevicesForItem (kind id : string) : ftx store_error (list string) := fget (fun d =>
  order_by String.leb (map fst (List.filter (fun x => String.eqb (fd_Status x.2) DeviceActive &&
    existsb (fun a => is_item kind id a && reaches d x.1 ModeInclude a) (f_assignments d) &&
    negb (existsb (fun a => is_item kind id a && reaches d x.1 ModeExclude a) (f_assignments d))) (map_to_list (f_devices d))))).

Definition members_of (d : fdb) (id : string) : list string := match f_groups d !! id with Some g => g_Members g | None => [] end.
Definition kind_of (d : fdb) (id : string) : option string := option_map g_Kind (f_groups d !! id).

(** The include assignments of an item. *)
Definition includes (d : fdb) (kind id : string) : list Assignment :=
  List.filter (fun a => is_item kind id a && String.eqb (as_Mode a) ModeInclude) (f_assignments d).

(** [SELECT DISTINCT]. *)
Fixpoint distinct (l : list string) : list string :=
  match l with [] => [] | x :: r => if existsb (String.eqb x) r then distinct r else x :: distinct r end.

Definition reached_devices (d : fdb) (kind id : string) : list string :=
  distinct (concat (map (fun a => members_of d (as_GroupID a)) (includes d kind id))).

Definition unbounded (d : fdb) (kind id : string) : bool :=
  existsb (fun a => match kind_of d (as_GroupID a) with Some k => negb (String.eqb k GroupStatic) | None => false end) (includes d kind id).

Definition ItemReach (kind id : string) : ftx store_error (Z * bool) :=
  fget (fun d => (Z.of_nat (length (reached_devices d kind id)), unbounded d kind id)).

Definition GroupIncludesAnyOf (id : string) (exceptKinds : list string) : ftx store_error bool := fget (fun d =>
  existsb (fun a => String.eqb (as_GroupID a) id && String.eqb (as_Mode a) ModeInclude
    && negb (existsb (String.eqb (as_ItemKind a)) exceptKinds)) (f_assignments d)).

(** ** Statuses *)

Definition same_status (a b : ItemStatus) : bool :=
  String.eqb (st_DeviceID a) (st_DeviceID b) && String.eqb (st_ItemKind a) (st_ItemKind b) && String.eqb (st_ItemID a) (st_ItemID b).

Definition put_status (s : ItemStatus) (replace : ItemStatus -> bool) : ftx store_error unit := fun d =>
  if existsb (same_status s) (f_statuses d)
  then (Ok tt, set_f_statuses (update_where (fun o => same_status s o && replace o) (fun _ => s) (f_statuses d)) d)
  else if bool_decide (is_Some (f_devices d !! st_DeviceID s)) then (Ok tt, set_f_statuses (f_statuses d ++ [s]) d)
  else (Err ErrForeignKey, d).

Definition SetItemStatus (s : ItemStatus) : ftx store_error unit := put_status s (fun _ => true).

Definition MarkItemSucceededOnce (s : ItemStatus) : ftx store_error unit :=
  put_status (mkItemStatus (st_DeviceID s) (st_ItemKind s) (st_ItemID s) ItemSucceeded (st_Detail s) (st_Version s) (st_UpdatedAt s))
    (fun o => negb (String.eqb (st_Status o) ItemSucceeded)).

(** How many devices of the scope are in a status. *)
Definition ItemStatusRollup (kind id : string) (scope : option (list string)) (status : string) : ftx store_error Z :=
  fget (fun d => count_where (fun s => String.eqb (st_ItemKind s) kind && String.eqb (st_ItemID s) id
    && match scope with None => true | Some l => existsb (fun g => is_member d g (st_DeviceID s)) l end
    && String.eqb (st_Status s) status) (f_statuses d)).

Definition DeleteItemStatusForItem (kind id : string) : ftx store_error unit :=
  fset (fun d => set_f_statuses (List.filter (fun s => negb (String.eqb (st_ItemKind s) kind && String.eqb (st_ItemID s) id)) (f_statuses d)) d).

Definition DeleteItemStatusExcept (deviceID kind : string) (keep : list string) : ftx store_error unit :=
  fset (fun d => set_f_statuses (List.filter (fun s => negb (String.eqb (st_DeviceID s) deviceID && String.eqb (st_ItemKind s) kind
    && negb (existsb (String.eqb (st_ItemID s)) keep))) (f_statuses d)) d).

Definition ListDeviceItemStatus (deviceID kind : string) : ftx store_error (list (string * string)) :=
  fget (fun d => map (fun s => (st_ItemID s, st_Status s))
    (List.filter (fun s => String.eqb (st_DeviceID s) deviceID && String.eqb (st_ItemKind s) kind) (f_statuses d))).

(** [ErrRulePanic]: the parser stopped otherwise than with an answer, which
    [RuleGrammar.parse_total] shows it never does. *)
Inductive group_error :=
| ErrBadGroup | ErrNameTaken | ErrBuiltinGroup | ErrDerivedMembership
| InvalidRule (e : ParseError) | BadCompile (e : compile_error) | ErrRulePanic
| GroupStoreError (e : store_error).

Record NewGroup := mkNewGroup { ng_Name : string; ng_Description : string; ng_Kind : string; ng_Rule : string; ng_Actor : string }.

Definition gs {A} (m : ftx store_error A) : ftx group_error A := tmap_err GroupStoreError m.

Definition parse_rule (rule : string) : result group_error Node :=
  match Parse rule with Ret n => Ok n | Fail e => Err (InvalidRule e) | _ => Err ErrRulePanic end.

Definition DefaultTenantID : string := "00000000-0000-0000-0000-000000000001".

Definition group_audit (actor action id : string) (details : list (string * json)) : AuditEntry :=
  mkAudit actor action "group" id details.

Section Groups.
Context (run_query : string -> list arg -> fdb -> result store_error (list string)).

Definition MatchDevices (sql : string) (args : list arg) : ftx store_error (list string) := fun d => (run_query sql args d, d).

Definition Get (id : string) : ftx group_error Group := gs (GetGroup id).

Definition match_ (rule : string) (now : time) : ftx group_error (list string) :=
  let* n := lift_result (parse_rule rule) in
  match Compile n DefaultTenantID now with
  | Err e => tfail (BadCompile e)
  | Ok (sql, args) => gs (MatchDevices sql args)
  end.

(** The devices a derived group should hold. *)
Definition derived_members (g : Group) (now : time) : ftx group_error (list string) :=
  if String.eqb (g_Kind g) GroupBuiltin then gs ActiveDeviceIDs else match_ (g_Rule g) now.

Definition EvaluateGroup (id : string) (g : Group) (now : time) : ftx group_error Z :=
  if negb (String.eqb (g_Kind g) GroupBuiltin) && negb (String.eqb (g_Kind g) GroupDynamic) then tret 0 else
  let* ids := derived_members g now in
  do* InTx (gs (SetGroupMembers id ids now));
  tret (Z.of_nat (length ids)).

Definition kind_and_rule (g : NewGroup) : result group_error string :=
  if String.eqb (ng_Kind g) GroupStatic then Ok EmptyString
  else if String.eqb (ng_Kind g) GroupDynamic then let! _ := parse_rule (ng_Rule g) in Ok (ng_Rule g)
  else Err ErrBadGroup.

Definition Create (new_id : string) (now : time) (g : NewGroup) : ftx group_error Group :=
  let name := TrimSpace (ng_Name g) in
  do* tensure (negb (String.eqb name EmptyString)) ErrBadGroup;
  let* rule := lift_result (kind_and_rule g) in
  let row := mkGroupRow name (ng_Description g) (ng_Kind g) rule now now None [] in
  do* InTx (
    let* other := tattempt (GetGroupByName name) in
    match other with
    | Ok _ => tfail ErrNameTaken
    | Err ErrNotFound =>
        do* gs (CreateGroup new_id row);
        InsertAudit (group_audit (ng_Actor g) "group.created" new_id [("name", JStr name); ("kind", JStr (ng_Kind g))]%string)
    | Err e => tfail (GroupStoreError e)
    end);
  if String.eqb (ng_Kind g) GroupDynamic then do* EvaluateGroup new_id row now; Get new_id else Get new_id.

(** The row an update writes, and whether the rule changed. *)
Definition changed_group (g : Group) (name : string) (now : time) (i : NewGroup) : result group_error (Group * bool) :=
  if String.eqb (g_Kind g) GroupDynamic then
    let! _ := parse_rule (ng_Rule i) in
    Ok (mkGroupRow name (ng_Description i) (g_Kind g) (ng_Rule i) (g_CreatedAt g) now (g_EvaluatedAt g) (g_Members g),
        negb (String.eqb (ng_Rule i) (g_Rule g)))
  else Ok (mkGroupRow name (ng_Description i) (g_Kind g) (g_Rule g) (g_CreatedAt g) now (g_EvaluatedAt g) (g_Members g), false).

Definition Update (id : string) (now : time) (i : NewGroup) : ftx group_error Group :=
  let* g := Get id in
  do* tensure (negb (String.eqb (g_Kind g) GroupBuiltin)) ErrBuiltinGroup;
  let name := TrimSpace (ng_Name i) in
  do* tensure (negb (String.eqb name EmptyString)) ErrBadGroup;
  let* (row, ruleChanged) := lift_result (changed_group g name now i) in
  do* InTx (
    let* other := tattempt (GetGroupByName name) in
    do* match other with
        | Ok (oid, _) => tensure (String.eqb oid id) ErrNameTaken
        | Err ErrNotFound => tret tt
        | Err e => tfail (GroupStoreError e)
        end;
    do* gs (UpdateGroup id row);
    InsertAudit (group_audit (ng_Actor i) "group.updated" id [("name", JStr name); ("rule_changed", JBool ruleChanged)]%string));
  if ruleChanged : bool then do* EvaluateGroup id row now; Get id else Get id.

Definition Delete (id actor : string) : ftx group_error unit :=
  let* g := Get id in
  do* tensure (negb (String.eqb (g_Kind g) GroupBuiltin)) ErrBuiltinGroup;
  InTx (do* gs (DeleteGroup id);
        InsertAudit (group_audit actor "group.deleted" id [("name", JStr (g_Name g))]%string)).

Definition AddMember (id deviceID actor : string) : ftx group_error unit :=
  let* g := Get id in
  do* tensure (String.eqb (g_Kind g) GroupStatic) ErrDerivedMembership;
  InTx (do* gs (GetDevice deviceID);
        do* gs (AddGroupMember id deviceID);
        InsertAudit (group_audit actor "group.member_added" id [("device_id", JStr deviceID)]%string)).

Definition RemoveMember (id deviceID actor : string) : ftx group_error unit :=
  let* g := Get id in
  do* tensure (String.eqb (g_Kind g) GroupStatic) ErrDerivedMembership;
  InTx (do* gs (RemoveGroupMember id deviceID);
        InsertAudit (group_audit actor "group.member_removed" id [("device_id", JStr deviceID)]%string)).

(** How many a rule would match; the page of them is a listing. *)
Definition Preview (rule : string) (now : time) : ftx group_error Z :=
  let* ids := match_ rule now in tret (Z.of_nat (length ids)).

(** A group that cannot be evaluated is left as it was. *)
Fixpoint evaluate_all (now : time) (groups : list (string * Group)) : ftx group_error Z :=
  match groups with
  | [] => tret 0
  | (id, g) :: rest =>
      fun d => match EvaluateGroup id g now d with
               | (Ok n, d) => (let* m := evaluate_all now rest in tret (n + m)) d
               | (Err _, d) => evaluate_all now rest d
               end
  end.

Definition EvaluateAll (now : time) : ftx group_error Z :=
  let* groups := gs DynamicGroups in evaluate_all now groups.

Definition deviceMatches (g : Group) (deviceID : string) (now : time) : ftx group_error bool :=
  if String.eqb (g_Kind g) GroupBuiltin then
    let* d := gs (GetDevice deviceID) in tret (String.eqb (fd_Status d) DeviceActive)
  else let* ids := match_ (g_Rule g) now in tret (existsb (String.eqb deviceID) ids).

Fixpoint evaluate_device (deviceID : string) (now : time) (groups : list (string * Group)) : ftx group_error unit :=
  match groups with
  | [] => tret tt
  | (id, g) :: rest =>
      fun d => match deviceMatches g deviceID now d with
               | (Ok member, d) => (do* gs (SetDeviceGroupMembership id deviceID member); evaluate_device deviceID now rest) d
               | (Err _, d) => evaluate_device deviceID now rest d
               end
  end.

Definition EvaluateDevice (deviceID : string) (now : time) : ftx group_error unit :=
  let* groups := gs DynamicGroups in evaluate_device deviceID now groups.
End Groups.
