(* ===== verification/Library.v ===== *)
(** * The library of things to assign

    What [internal/server/store/scripts.go], [profiles.go] and [apps.go] have in
    common, and with them the three services: items with a current version, and
    versions that are never changed. The code writes it three times; here it is
    written once, against an interface that says where an item's tables are and
    what its audit entries are called. *)
From S2P Require Export GroupService Payload.
Open Scope Z_scope.
Open Scope go_scope.

(** ** Tables *)

(** [Script], [Profile] and [App]. *)
Record Item := mkItem {
  i_ID : string; i_Name : string; i_Description : string; i_CurrentVersion : Z; i_CreatedAt : time; i_UpdatedAt : time;
  i_CreatedBy : string }.

(** [ScriptVersion], [ProfileVersion] and [AppVersion]: [v_Content] is what
    only that kind has. *)
Record Version (V : Type) := mkVersion {
  v_Item : string; v_Number : Z; v_Content : V; v_Hash : string; v_CreatedAt : time; v_CreatedBy : string; v_Signature : option json }.
Arguments mkVersion {V} _ _ _ _ _ _ _.
Arguments v_Item {V} _.
Arguments v_Number {V} _.
Arguments v_Content {V} _.
Arguments v_Hash {V} _.
Arguments v_CreatedAt {V} _.
Arguments v_CreatedBy {V} _.
Arguments v_Signature {V} _.

Record shelf (V : Type) := mkShelf { sh_items : list Item; sh_versions : list (Version V) }.
Arguments mkShelf {V} _ _.
Arguments sh_items {V} _.
Arguments sh_versions {V} _.

Definition set_sh_items {V} (x : list Item) (s : shelf V) : shelf V := mkShelf x (sh_versions s).
Definition set_sh_versions {V} (x : list (Version V)) (s : shelf V) : shelf V := mkShelf (sh_items s) x.

Definition stx V := (txn (shelf V)).

Section Tables.
Context {V : Type}.

Definition sget {E A} (f : shelf V -> A) : stx V E A := fun s => (Ok (f s), s).
Definition sset {E} (f : shelf V -> shelf V) : stx V E unit := fun s => (Ok tt, f s).
Definition sfound {E A} (e : E) (o : option A) : stx V E A := match o with Some a => tret a | None => tfail e end.

Definition has_id (id : string) (i : Item) : bool := String.eqb (i_ID i) id.
Definition has_name (name : string) (i : Item) : bool := String.eqb (ToLower (i_Name i)) (ToLower name).

Definition CreateItem (i : Item) : stx V store_error unit := fun s =>
  if existsb (has_id (i_ID i)) (sh_items s) || existsb (has_name (i_Name i)) (sh_items s) then (Err ErrDuplicate, s)
  else (Ok tt, set_sh_items (sh_items s ++
         [mkItem (i_ID i) (i_Name i) (i_Description i) (i_CurrentVersion i) (i_CreatedAt i) (i_CreatedAt i) (i_CreatedBy i)]) s).

Definition GetItem (id : string) : stx V store_error Item :=
  let* i := sget (fun s => find (has_id id) (sh_items s)) in sfound ErrNotFound i.

Definition GetItemByName (name : string) : stx V store_error Item :=
  let* i := sget (fun s => find (has_name name) (sh_items s)) in sfound ErrNotFound i.

(** What an update writes over the old row. *)
Definition rewrite_item (i old : Item) : Item :=
  mkItem (i_ID old) (i_Name i) (i_Description i) (i_CurrentVersion i) (i_CreatedAt old) (i_UpdatedAt i) (i_CreatedBy old).

Definition UpdateItem (i : Item) : stx V store_error unit := fun s =>
  if existsb (has_id (i_ID i)) (sh_items s) && existsb (fun o => negb (has_id (i_ID i) o) && has_name (i_Name i) o) (sh_items s)
  then (Err ErrDuplicate, s)
  else (Ok tt, set_sh_items (update_where (has_id (i_ID i)) (rewrite_item i) (sh_items s)) s).

(** The versions go with the item. *)
Definition DeleteItem (id : string) : stx V store_error unit :=
  sset (fun s => mkShelf (List.filter (fun i => negb (has_id id i)) (sh_items s))
                   (List.filter (fun v => negb (String.eqb (v_Item v) id)) (sh_versions s))).

Definition is_version (id : string) (n : Z) (v : Version V) : bool := String.eqb (v_Item v) id && (v_Number v =? n).

Definition CreateVersion (v : Version V) : stx V store_error unit := fun s =>
  if existsb (is_version (v_Item v) (v_Number v)) (sh_versions s) then (Err ErrDuplicate, s)
  else if existsb (has_id (v_Item v)) (sh_items s) then (Ok tt, set_sh_versions (sh_versions s ++ [v]) s)
  else (Err ErrForeignKey, s).

Definition GetVersion (id : string) (n : Z) : stx V store_error (Version V) :=
  let* v := sget (fun s => find (is_version id n) (sh_versions s)) in sfound ErrNotFound v.

(** [COALESCE(max(version), 0)]. *)
Definition LatestVersion (id : string) : stx V store_error Z :=
  sget (fun s => fold_right Z.max 0 (map v_Number (List.filter (fun v => String.eqb (v_Item v) id) (sh_versions s)))).

Definition newest_first (a b : Version V) : bool := v_Number b <=? v_Number a.

Definition ListVersions (id : string) : stx V store_error (list (Version V)) :=
  sget (fun s => order_by newest_first (List.filter (fun v => String.eqb (v_Item v) id) (sh_versions s))).
End Tables.

(** ** One service, three kinds *)

(** [ErrBadRequest], by what is wrong; [Undecodable] is stored JSON that does
    not decode. *)
Inductive library_error (B : Type) :=
| BadItem (why : B) | NoItem | ItemNameTaken | ErrSuperseded | Undecodable | NoSecretKey | CannotSeal | CannotOpen | LibraryStore (e : store_error).
Arguments BadItem {B} _.
Arguments NoItem {B}.
Arguments ItemNameTaken {B}.
Arguments ErrSuperseded {B}.
Arguments Undecodable {B}.
Arguments NoSecretKey {B}.
Arguments CannotSeal {B}.
Arguments CannotOpen {B}.
Arguments LibraryStore {B} _.

(** A stored signature is JSON, or there is none; one that does not decode is
    none. *)
Definition encode_signature (sig : option OpSignature) : option json := option_map signature_json sig.

Definition decode_signature (raw : option json) : option OpSignature :=
  match raw with
  | None => None
  | Some v => match decode_struct false op_signature_fields v no_signature with Ok g => Some g | Err _ => None end
  end.

Definition same_signature (a b : option json) : bool :=
  match decode_signature a, decode_signature b with
  | None, None => true
  | Some a, Some b => String.eqb (op_KeyID a) (op_KeyID b) && String.eqb (op_Signature a) (op_Signature b)
  | _, _ => false
  end.

(** What of the current version an update compares with, when there is one. *)
Definition current_hash {V} (current : option (Version V)) : string := match current with Some v => v_Hash v | None => EmptyString end.
Definition stored_signature {V} (current : option (Version V)) : option json := match current with Some v => v_Signature v | None => None end.

(** Where a kind's tables are in a state [D], and what it is called. *)
Class Kind (D V : Type) := {
  kind_name : string;
  kind_shelf : lens D (shelf V);
  kind_fleet : lens D fdb
}.

Section Service.
Context {D V B : Type} `{K : !Kind D V}.
Local Abbreviation ltx := (txn D (library_error B)).

Definition on_shelf {A} (m : stx V store_error A) : ltx A := tmap_err LibraryStore (zoom kind_shelf m).
Definition on_fleet {E A} (m : ftx E A) : txn D E A := zoom kind_fleet m.

(** A read whose [store.ErrNotFound] is the service's own. *)
Definition read_item {A} (m : stx V store_error A) : ltx A :=
  tmap_err (fun e => match e with ErrNotFound => NoItem | e => LibraryStore e end) (zoom kind_shelf m).

Definition item_audit (actor what id : string) (details : list (string * json)) : AuditEntry :=
  mkAudit actor (kind_name ++ what)%string kind_name id details.

Definition Get (id : string) : ltx Item := read_item (GetItem id).
Definition Version_ (id : string) (n : Z) : ltx (Version V) := read_item (GetVersion id n).

(** The name is free, or the item's own. *)
Definition name_free (name : string) (id : option string) : ltx unit :=
  let* other := tattempt (zoom kind_shelf (GetItemByName name)) in
  match other, id with
  | Ok o, Some id => tensure (String.eqb (i_ID o) id) ItemNameTaken
  | Ok _, None => tfail ItemNameTaken
  | Err ErrNotFound, _ => tret tt
  | Err e, _ => tfail (LibraryStore e)
  end.

Definition create (i : Item) (first : Version V) (details : list (string * json)) : ltx Item :=
  do* InTx (
    do* name_free (i_Name i) None;
    do* on_shelf (CreateItem i);
    do* on_shelf (CreateVersion first);
    on_fleet (InsertAudit (item_audit (i_CreatedBy i) ".created" (i_ID i) details)));
  tret i.

Definition Promote (now : time) (id : string) (version : Z) (actor : string) : ltx Item :=
  InTx (
    let* i := Get id in
    do* Version_ id version;
    do* tensure (negb (version <=? i_CurrentVersion i)) ErrSuperseded;
    let out := mkItem (i_ID i) (i_Name i) (i_Description i) version (i_CreatedAt i) now (i_CreatedBy i) in
    do* on_shelf (UpdateItem out);
    do* on_fleet (InsertAudit (item_audit actor ".version_promoted" id
          [("name", JStr (i_Name i)); ("version", jint version); ("previous_version", jint (i_CurrentVersion i))]%string));
    tret out).

(** What an update asks for: a version to write if anything changed. *)
Record change := mkChange { ch_Content : V; ch_Hash : string; ch_Signature : option json; ch_New : bool }.

(** A new version is numbered after every one there is, and is the current one
    unless it is held. The number held, or 0. *)
Definition write_version (now : time) (hold : bool) (actor : string) (i : Item) (c : change) : ltx (Z * Z) :=
  if ch_New c then
    let* latest := on_shelf (LatestVersion (i_ID i)) in
    do* on_shelf (CreateVersion (mkVersion (i_ID i) (latest + 1) (ch_Content c) (ch_Hash c) now actor (ch_Signature c)));
    tret (if hold then (i_CurrentVersion i, latest + 1) else (latest + 1, 0))
  else tret (i_CurrentVersion i, 0).

Definition held_details (held : Z) : list (string * json) := if 0 <? held then [("held_version", jint held)]%string else [].

(** [prepare] is the kind's part: what the new contents are, given the current
    version. *)
Definition update (prepare : option (Version V) -> result (library_error B) change)
    (now : time) (id name description actor : string) (hold : bool) : ltx (Item * Z) :=
  InTx (
    let* i := Get id in
    do* name_free (TrimSpace name) (Some id);
    let* current := tattempt (zoom kind_shelf (GetVersion id (i_CurrentVersion i))) in
    let* current := match current with
                    | Ok v => tret (Some v)
                    | Err ErrNotFound => tret None
                    | Err e => tfail (LibraryStore e)
                    end in
    let* c := lift_result (prepare current) in
    let* (version, held) := write_version now hold actor i c in
    let out := mkItem (i_ID i) (TrimSpace name) description version (i_CreatedAt i) now (i_CreatedBy i) in
    do* on_shelf (UpdateItem out);
    do* on_fleet (InsertAudit (item_audit actor ".updated" id
          ([("name", JStr (TrimSpace name)); ("new_version", JBool (ch_New c)); ("version", jint version)]%string ++ held_details held)));
    tret (out, held)).

Definition Delete (id actor : string) : ltx unit :=
  InTx (
    let* i := Get id in
    do* tmap_err LibraryStore (on_fleet (DeleteAssignmentsForItem kind_name id));
    do* on_shelf (DeleteItem id);
    on_fleet (InsertAudit (item_audit actor ".deleted" id [("name", JStr (i_Name i))]%string))).
End Service.
