(* ===== verification/ScriptLibrary.v ===== *)
(** * The script library

    [internal/server/scripts/service.go] on [Library]: what a script may be,
    when it changed, and the runs devices report. *)
From S2P Require Import Scripts Commands.
From S2P Require Export Library.
Open Scope Z_scope.
Open Scope go_scope.

Record ScriptBody := mkScriptBody { sb_Body : string; sb_DetectionBody : string }.

Inductive bad_script := ScriptNeedsName | ScriptNeedsBody | ScriptTooLong | ScriptSignature (e : opsign_error) | BadRunStatus | BadRunPhase.

Record NewScript := mkNewScript {
  ns_Name : string; ns_Description : string; ns_Body : string; ns_DetectionBody : string; ns_Actor : string;
  ns_Signature : option OpSignature }.

Definition MaxBodyBytes : Z := 262144.

(** A row of [script_runs]. *)
Record ScriptRunRow := mkScriptRunRow { rr_ID : string; rr_ScriptID : string; rr_DeviceID : string; rr_Run : ScriptRun }.

Section Scripts.
Context `{CR : Crypto} (json_text : json -> string) (OperationsKeys : list PublicKey).
Context {D : Type} `{K : !Kind D ScriptBody} (script_runs : lens D (list ScriptRunRow)).
Local Abbreviation error := (library_error bad_script).

Definition zero_byte : string := String "000" EmptyString.

Definition Hash (body detection : string) : string := sha256_hex (body ++ zero_byte ++ detection)%string.

Definition versionHash (i : NewScript) : string * option json :=
  let h := Hash (ns_Body i) (ns_DetectionBody i) in
  match ns_Signature i with
  | None => (h, None)
  | Some g => (sha256_hex (h ++ zero_byte ++ json_text (signature_json g))%string, encode_signature (Some g))
  end.

Definition checkSignature (i : NewScript) : result error unit :=
  match OperationsKeys with
  | [] => Ok tt
  | keys => match VerifyOp keys (ScriptManifest (ns_Body i) (ns_DetectionBody i)) (ns_Signature i) with
            | Ok _ => Ok tt
            | Err e => Err (BadItem (ScriptSignature e))
            end
  end.

Definition validate (i : NewScript) : result error unit :=
  check! ensure (negb (String.eqb (TrimSpace (ns_Name i)) EmptyString)) (BadItem ScriptNeedsName);
  check! ensure (negb (String.eqb (TrimSpace (ns_Body i)) EmptyString)) (BadItem ScriptNeedsBody);
  ensure (negb ((slen (ns_Body i) >? MaxBodyBytes) || (slen (ns_DetectionBody i) >? MaxBodyBytes))) (BadItem ScriptTooLong).

Definition content (i : NewScript) : ScriptBody := mkScriptBody (ns_Body i) (ns_DetectionBody i).

Definition CreateScript (new_id : string) (now : time) (i : NewScript) : txn D error Item :=
  do* lift_result (validate i);
  do* lift_result (checkSignature i);
  let (hash, sig) := versionHash i in
  let name := TrimSpace (ns_Name i) in
  create (mkItem new_id name (ns_Description i) 1 now now (ns_Actor i))
    (mkVersion new_id 1 (content i) hash now (ns_Actor i) sig) [("name", JStr name)]%string.

(** Code that did not change keeps the signature it has. *)
Definition keep_signature (i : NewScript) (current : option (Version ScriptBody)) : NewScript :=
  match ns_Signature i, current with
  | None, Some v =>
      if String.eqb (sb_Body (v_Content v)) (ns_Body i) && String.eqb (sb_DetectionBody (v_Content v)) (ns_DetectionBody i)
      then mkNewScript (ns_Name i) (ns_Description i) (ns_Body i) (ns_DetectionBody i) (ns_Actor i) (decode_signature (v_Signature v))
      else i
  | _, _ => i
  end.

Definition prepare (i : NewScript) (current : option (Version ScriptBody)) : result error (change (V := ScriptBody)) :=
  let i := keep_signature i current in
  check! checkSignature i;
  let (hash, sig) := versionHash i in
  Ok (mkChange (content i) hash sig (negb (String.eqb (current_hash current) hash))).

Definition update_script (now : time) (id : string) (i : NewScript) (hold : bool) : txn D error (Item * Z) :=
  do* lift_result (validate i);
  update (prepare i) now id (ns_Name i) (ns_Description i) (ns_Actor i) hold.

Definition UpdateScript (now : time) (id : string) (i : NewScript) : txn D error Item :=
  let* (sc, _) := update_script now id i false in tret sc.
Definition UpdateScriptHeld (now : time) (id : string) (i : NewScript) : txn D error (Item * Z) := update_script now id i true.
Definition PromoteScript (now : time) (id : string) (version : Z) (actor : string) : txn D error Item := Promote now id version actor.
Definition DeleteScript (id actor : string) : txn D error unit := Delete id actor.

(** ** Runs *)

Definition run_status (r : ScriptRun) (errText : string) : string * string :=
  let ok := String.eqb (sr_Status r) ResultSucceeded in
  (if ok then ItemSucceeded else ItemFailed,
   if negb (String.eqb errText EmptyString) then errText
   else if negb ok then (sr_Phase r ++ " exited " ++ Itoa (sr_ExitCode r))%string
   else if sr_Remediated r then "remediated"%string else EmptyString).

(** The run as it is stored: its output clamped. *)
Definition clamped_run (r : ScriptRun) : ScriptRun :=
  let (out, outCut) := clampOutput (sr_Stdout r) (sr_StdoutTruncated r) in
  let (err, errCut) := clampOutput (sr_Stderr r) (sr_StderrTruncated r) in
  mkScriptRun (sr_Version r) (sr_Status r) (sr_Phase r) (sr_Remediated r) (sr_ExitCode r) out err outCut errCut
    (fst (clampOutput (sr_Error r) false)) (sr_StartedAt r) (sr_FinishedAt r).

(** The device is a foreign key, the script is not. *)
Definition InsertScriptRun (row : ScriptRunRow) : txn D store_error unit := fun d =>
  if existsb (fun o => String.eqb (rr_ID o) (rr_ID row)) (look script_runs d) then (Err ErrDuplicate, d)
  else if bool_decide (is_Some (f_devices (look kind_fleet d) !! rr_DeviceID row))
  then (Ok tt, put script_runs (look script_runs d ++ [row]) d)
  else (Err ErrForeignKey, d).

Definition RecordRun (new_id : string) (now : time) (deviceID scriptID : string) (r : ScriptRun) : txn D error unit :=
  do* tensure (reportable (sr_Status r)) (BadItem BadRunStatus);
  do* tensure (existsb (String.eqb (sr_Phase r)) [PhaseScript; PhaseDetection; PhaseRemediation]) (BadItem BadRunPhase);
  let row := clamped_run r in
  let (status, detail) := run_status r (sr_Error row) in
  InTx (do* tmap_err LibraryStore (InsertScriptRun (mkScriptRunRow new_id scriptID deviceID row));
        tmap_err LibraryStore (on_fleet (SetItemStatus
          (mkItemStatus deviceID ItemKindScript scriptID status detail (sr_Version r) now)))).

Definition SetItemPending (now : time) (deviceID scriptID : string) (version : Z) (reason : string) : txn D error unit :=
  tmap_err LibraryStore (on_fleet (SetItemStatus (mkItemStatus deviceID ItemKindScript scriptID ItemPending reason version now))).
End Scripts.
