(* ===== verification/ProfileLibrary.v ===== *)
(** * The profile library

    [internal/server/profiles/service.go] and [signing.go] on [Library]:
    settings are checked, their secrets sealed before they are stored, opened
    for the device alone, and never shown; what devices report is kept per
    setting and summed up. *)
From S2P Require Import Payload PolicyEngine Secrets.
From S2P Require Export Library.
Open Scope Z_scope.
Open Scope go_scope.

Inductive bad_profile := ProfileNeedsName | TooManySettings | BadSettings (why : string) | ProfileSignature (e : opsign_error)
| NoResults | BadSettingStatus | NeedsIdentity.

Record NewProfile := mkNewProfile {
  np_Name : string; np_Description : string; np_Settings : list Setting; np_Actor : string; np_Signature : option OpSignature }.

Definition MaxSettings : Z := 200.

(** What a version stores: the settings as JSON. *)
Record ProfileBody := mkProfileBody { pb_Settings : json }.

(** A row of [profile_setting_status]. *)
Record SettingStatus := mkSettingStatus {
  ss_DeviceID : string; ss_ProfileID : string; ss_Identity : string; ss_Version : Z; ss_Status : string; ss_Detail : string;
  ss_UpdatedAt : time }.

Definition HasSecret (s : Setting) : bool := String.eqb (se_Kind s) KindWiFi.
Definition NeedsSecret (s : Setting) : bool :=
  String.eqb (se_Kind s) KindWiFi && (String.eqb (se_Security s) "wpa2_personal" || String.eqb (se_Security s) "wpa3_personal").

Definition settings_json (l : list Setting) : json := JArr (map setting_json l).

Section Profiles.
Context `{CR : Crypto, CT : Certificates} (json_text : json -> string) (hmac_sha256 : string -> string -> string).
Context (OperationsKeys : list PublicKey) (ServerKey : option Key).
Context {D : Type} `{K : !Kind D ProfileBody} (setting_statuses : lens D (list SettingStatus)).
Local Abbreviation error := (library_error bad_profile).
Local Abbreviation server_key := (option Key).

(** [json.Unmarshal] of stored settings. *)
Definition decode_settings (v : json) : result error (list Setting) :=
  match v with
  | JNull => Ok []
  | JArr l => match rmap decode_setting l with Ok s => Ok s | Err _ => Err Undecodable end
  | _ => Err Undecodable
  end.

(** ** Secrets *)

Definition secretContext (profileID identity : string) : string := ("profile-secret:" ++ profileID ++ "/" ++ identity)%string.

(** [rand] is what sealing draws; it fails when that is too little. *)
Definition seal (key : server_key) (rand profileID : string) (s : Setting) : result error SealedSecret_ :=
  match key with
  | None => Err NoSecretKey
  | Some k =>
      let ctx := secretContext profileID (Identity s) in
      match Seal k rand (se_Passphrase s) ctx with
      | None => Err CannotSeal
      | Some (ct, nonce) => Ok (mkSealedSecret (EncodeToString Std ct) (EncodeToString Std nonce)
                                  (EncodeToString Std (MAC hmac_sha256 k (se_Passphrase s) ctx)))
      end
  end.

(** One setting as a device receives it. *)
Definition open_setting (key : server_key) (profileID : string) (s : Setting) : result error Setting :=
  match se_SealedSecret s with
  | None => Ok s
  | Some x =>
      match key with
      | None => Err CannotOpen
      | Some k =>
          match DecodeString Std (ss_Ciphertext x), DecodeString Std (ss_Nonce x) with
          | Some ct, Some nonce =>
              match Open_ k ct nonce (secretContext profileID (Identity s)) with
              | Some plain => Ok (set_SealedSecret None (set_Passphrase plain s))
              | None => Err CannotOpen
              end
          | _, _ => Err CannotOpen
          end
      end
  end.

Definition ForAgent (key : server_key) (profileID : string) (l : list Setting) : result error (list Setting) :=
  rmap (open_setting key profileID) l.

Definition redact_setting (s : Setting) : Setting :=
  if HasSecret s then
    set_SealedSecret None (set_Passphrase EmptyString
      (set_SecretSet (match se_SealedSecret s with Some _ => true | None => negb (String.eqb (se_Passphrase s) EmptyString) end) s))
  else s.

Definition Redact (l : list Setting) : list Setting := map redact_setting l.

(** The last secret of an identity: a Go map filled in order. *)
Fixpoint kept_secret (current : list Setting) (identity : string) : option SealedSecret_ :=
  match current with
  | [] => None
  | c :: rest =>
      match kept_secret rest identity, se_SealedSecret c with
      | Some x, _ => Some x
      | None, Some x => if String.eqb (Identity c) identity then Some x else None
      | None, None => None
      end
  end.

(** A secret in a request is not the server's; one left blank is carried over. *)
Definition carry_secret (current : list Setting) (s : Setting) : Setting :=
  let s := set_SecretSet false (set_SealedSecret None s) in
  if HasSecret s && String.eqb (se_Passphrase s) EmptyString && NeedsSecret s
  then set_SealedSecret (kept_secret current (Identity s)) s else s.

Definition seal_setting (rand profileID : string) (s : Setting) : result error Setting :=
  if String.eqb (se_Passphrase s) EmptyString then Ok s
  else let! x := seal ServerKey rand profileID s in Ok (set_SealedSecret (Some x) (set_Passphrase EmptyString s)).

Fixpoint seal_all (rand : nat -> string) (i : nat) (profileID : string) (l : list Setting) : result error (list Setting) :=
  match l with
  | [] => Ok []
  | s :: rest => let! x := seal_setting (rand i) profileID s in let! r := seal_all rand (S i) profileID rest in Ok (x :: r)
  end.

Definition validate_settings (l : list Setting) : result error unit :=
  match ValidateSettings l with Ok _ => Ok tt | Err why => Err (BadItem (BadSettings why)) end.

Definition prepare (rand : nat -> string) (i : NewProfile) (profileID : string) (current : list Setting) : result error json :=
  check! ensure (negb (String.eqb (TrimSpace (np_Name i)) EmptyString)) (BadItem ProfileNeedsName);
  check! ensure (negb (Z.of_nat (length (np_Settings i)) >? MaxSettings)) (BadItem TooManySettings);
  let settings := map (carry_secret current) (np_Settings i) in
  check! validate_settings settings;
  let! sealed := seal_all rand 0 profileID settings in
  Ok (settings_json sealed).

(** What a version is known by: a sealed secret counts by its MAC. *)
Definition mac_only (s : Setting) : Setting :=
  match se_SealedSecret s with
  | Some x => set_SealedSecret (Some (mkSealedSecret EmptyString EmptyString (ss_MAC x))) s
  | None => s
  end.

(** No settings at all are a nil slice, which is written as [null]. *)
Definition versionHash (stored : json) : result error string :=
  let! l := decode_settings stored in
  Ok (sha256_hex (json_text (match stored with JNull => JNull | _ => settings_json (map mac_only l) end))).

Definition checkSignature (profileID : string) (stored : json) (sig : option OpSignature) : result error unit :=
  match OperationsKeys with
  | [] => Ok tt
  | keys =>
      let! settings := decode_settings stored in
      let! opened := ForAgent ServerKey profileID settings in
      match VerifyOp keys (ProfileManifest json_text opened) sig with
      | Ok _ => Ok tt
      | Err e => Err (BadItem (ProfileSignature e))
      end
  end.

Definition encodeSignature : option OpSignature -> option json := encode_signature.
Definition DecodeSignature : option json -> option OpSignature := decode_signature.
Definition sameSignature : option json -> option json -> bool := same_signature.

(** ** The service *)

Definition CreateProfile (rand : nat -> string) (new_id : string) (now : time) (i : NewProfile) : txn D error Library.Item :=
  let* settings := lift_result (prepare rand i new_id []) in
  let* hash := lift_result (versionHash settings) in
  do* lift_result (checkSignature new_id settings (np_Signature i));
  let name := TrimSpace (np_Name i) in
  create (mkItem new_id name (np_Description i) 1 now now (np_Actor i))
    (mkVersion new_id 1 (mkProfileBody settings) hash now (np_Actor i) (encodeSignature (np_Signature i)))
    [("name", JStr name); ("settings", jint (Z.of_nat (length (np_Settings i))))]%string.

Definition current_settings (current : option (Version ProfileBody)) : result error (list Setting) :=
  match current with Some v => decode_settings (pb_Settings (v_Content v)) | None => Ok [] end.

Definition prepare_change (rand : nat -> string) (id : string) (i : NewProfile) (current : option (Version ProfileBody))
    : result error (change (V := ProfileBody)) :=
  let! old := current_settings current in
  let! settings := prepare rand i id old in
  let! currentHash := versionHash (match current with Some v => pb_Settings (v_Content v) | None => JNull end) in
  let! hash := versionHash settings in
  let sig := match np_Signature i with
             | None => if String.eqb currentHash hash then DecodeSignature (stored_signature current) else None
             | g => g
             end in
  check! checkSignature id settings sig;
  let stored := encodeSignature sig in
  Ok (mkChange (mkProfileBody settings) hash stored
        (negb (String.eqb currentHash hash) || negb (sameSignature (stored_signature current) stored))).

Definition update_profile (rand : nat -> string) (now : time) (id : string) (i : NewProfile) (hold : bool) : txn D error (Library.Item * Z) :=
  do* tensure (negb (String.eqb (TrimSpace (np_Name i)) EmptyString)) (BadItem ProfileNeedsName);
  update (prepare_change rand id i) now id (np_Name i) (np_Description i) (np_Actor i) hold.

Definition UpdateProfile (rand : nat -> string) (now : time) (id : string) (i : NewProfile) : txn D error Library.Item :=
  let* (p, _) := update_profile rand now id i false in tret p.
Definition UpdateProfileHeld (rand : nat -> string) (now : time) (id : string) (i : NewProfile) : txn D error (Library.Item * Z) :=
  update_profile rand now id i true.
Definition PromoteProfile (now : time) (id : string) (version : Z) (actor : string) : txn D error Library.Item := Promote now id version actor.
Definition DeleteProfile (id actor : string) : txn D error unit := Delete id actor.

(** ** Reports *)

Definition setting_status_ok (s : string) : bool :=
  existsb (String.eqb s) [SettingCompliant; SettingRemediated; SettingError; SettingConflict; SettingNotApplicable].

Fixpoint check_results (l : list SettingResult) : result error unit :=
  match l with
  | [] => Ok tt
  | r :: rest =>
      check! ensure (setting_status_ok (sr_Status r)) (BadItem BadSettingStatus);
      check! ensure (negb (String.eqb (TrimSpace (sr_Identity r)) EmptyString)) (BadItem NeedsIdentity);
      check_results rest
  end.

Definition summarize (what : string) (ids : list string) : string :=
  match ids with
  | [id] => (id ++ " is " ++ what)%string
  | _ => (Itoa (Z.of_nat (length ids)) ++ " settings are " ++ what ++ ", including " ++ default EmptyString (head ids))%string
  end.

Definition with_result (status : string) (l : list SettingResult) : list string :=
  map sr_Identity (List.filter (fun r => String.eqb (sr_Status r) status) l).

Definition rollUp (l : list SettingResult) : string * string :=
  match with_result SettingConflict l, with_result SettingError l with
  | (_ :: _) as ids, _ => (ItemConflict, summarize "conflicting" ids)
  | [], (_ :: _) as ids => (ItemFailed, summarize "failed" ids)
  | [], [] => (ItemSucceeded, EmptyString)
  end.

Definition is_hex (c : ascii) : bool := is_digit c || in_range "a" "f" c || in_range "A" "F" c.

(** [uuidPattern]: 8-4-4-4-12 hexadecimal digits. *)
Definition uuid_at (s : string) : bool :=
  (String.length (take_str 36 s) =? 36)%nat &&
  forallb (fun i => match String.get i s with
                    | Some c => if existsb (Nat.eqb i) [8; 13; 18; 23]%nat then Ascii.eqb c "-" else is_hex c
                    | None => false
                    end) (seq 0 36).

(** [ReplaceAllStringFunc]: [skip] characters belong to the last match. *)
Fixpoint replace_ids (name : string -> string) (skip : nat) (s : string) : string :=
  match s, skip with
  | EmptyString, _ => EmptyString
  | String _ r, S k => replace_ids name k r
  | String c r, O => if uuid_at s then (name (take_str 36 s) ++ replace_ids name 35 r)%string else String c (replace_ids name 0 r)
  end.

Context (parse_uuid : string -> option string).

Definition profile_name (d : D) (raw : string) : string :=
  match parse_uuid raw with
  | Some id => match find (has_id id) (sh_items (look kind_shelf d)) with Some p => i_Name p | None => raw end
  | None => raw
  end.

Definition nameProfiles (d : D) (detail : string) : string := replace_ids (profile_name d) 0 detail.

Definition same_setting (a b : SettingStatus) : bool :=
  String.eqb (ss_DeviceID a) (ss_DeviceID b) && String.eqb (ss_ProfileID a) (ss_ProfileID b) && String.eqb (ss_Identity a) (ss_Identity b).

Definition SetSettingStatus (s : SettingStatus) : txn D store_error unit := fun d =>
  let rows := look setting_statuses d in
  if existsb (same_setting s) rows then (Ok tt, put setting_statuses (update_where (same_setting s) (fun _ => s) rows) d)
  else if bool_decide (is_Some (f_devices (look kind_fleet d) !! ss_DeviceID s)) then (Ok tt, put setting_statuses (rows ++ [s]) d)
  else (Err ErrForeignKey, d).

Definition of_profile (deviceID profileID : string) (s : SettingStatus) : bool :=
  String.eqb (ss_DeviceID s) deviceID && String.eqb (ss_ProfileID s) profileID.

Definition ClearSettingStatus {E} (deviceID profileID : string) (keep : list string) : txn D E unit := fun d =>
  (Ok tt, put setting_statuses (List.filter (fun s => negb (of_profile deviceID profileID s && negb (existsb (String.eqb (ss_Identity s)) keep)))
            (look setting_statuses d)) d).

Fixpoint set_results (now : time) (deviceID profileID : string) (version : Z) (l : list SettingResult) : txn D error unit :=
  match l with
  | [] => tret tt
  | r :: rest =>
      do* (fun d => tmap_err LibraryStore (SetSettingStatus
             (mkSettingStatus deviceID profileID (sr_Identity r) version (sr_Status r) (nameProfiles d (sr_Detail r)) now)) d);
      set_results now deviceID profileID version rest
  end.

Definition RecordStatus (now : time) (deviceID profileID : string) (report : ProfileStatus) : txn D error unit :=
  do* tensure (negb (Nat.eqb (length (ps_Settings report)) 0)) (BadItem NoResults);
  do* lift_result (check_results (ps_Settings report));
  let (status, detail) := rollUp (ps_Settings report) in
  InTx (do* set_results now deviceID profileID (ps_Version report) (ps_Settings report);
        do* ClearSettingStatus deviceID profileID (map sr_Identity (ps_Settings report));
        tmap_err LibraryStore (on_fleet (SetItemStatus
          (mkItemStatus deviceID ItemKindProfile profileID status detail (ps_Version report) now)))).

Definition ClearForDevice {E} (deviceID profileID : string) : txn D E unit := fun d =>
  (Ok tt, put setting_statuses (List.filter (fun s => negb (of_profile deviceID profileID s)) (look setting_statuses d)) d).

(** ** Another server key *)

Definition reseal_setting (from to : Key) (rand profileID : string) (s : Setting) : result error (Setting * bool) :=
  match se_SealedSecret s with
  | None => Ok (s, false)
  | Some _ =>
      let! opened := open_setting (Some from) profileID s in
      let! x := seal (Some to) rand profileID opened in
      Ok (set_SealedSecret (Some x) s, true)
  end.

Fixpoint reseal_all (from to : Key) (rand : nat -> string) (i : nat) (profileID : string) (l : list Setting) : result error (list Setting * bool) :=
  match l with
  | [] => Ok ([], false)
  | s :: rest =>
      let! x := reseal_setting from to (rand i) profileID s in
      let! r := reseal_all from to rand (S i) profileID rest in
      Ok (x.1 :: r.1, x.2 || r.2)
  end.

(** The settings and the hash to store, or [None] when there is no secret. *)
Definition ResealSettings (from to : Key) (rand : nat -> string) (profileID : string) (stored : json) : result error (option (json * string)) :=
  let! l := decode_settings stored in
  let! r := reseal_all from to rand 0 profileID l in
  if negb r.2 then Ok None
  else let settings := settings_json r.1 in
       let! hash := versionHash settings in Ok (Some (settings, hash)).
End Profiles.
