(* ===== verification/AppLibrary.v ===== *)
(** * The app library

    [internal/server/apps] ([service.go], [packages.go], [signing.go]) and
    [internal/server/artifacts/blobs.go] on [Library]: what an app may be,
    uploaded installers and when they are removed, and the installs devices
    report. The disk answers: a file is its size and when it was last touched. *)
From S2P Require Import Payload AppSync Commands.
From S2P Require Export Library.
Open Scope Z_scope.
Open Scope go_scope.

(** ** Uploaded files *)

(** One directory of [Blobs]: every entry, partial uploads included. *)
Record blob := mkBlob { bl_Size : Z; bl_ModTime : time }.
Definition blobs : Type := gmap string blob.

Inductive blob_error := ErrBadHash | ErrTooLarge | ErrNoFile.

Definition MaxPackageBytes : Z := 2147483648.
Definition PackageGrace : duration := 24 * Hour.
Definition maxCommandLine : Z := 2048.

Section Blobs.
Context `{CR : Crypto}.

(** An existing copy is kept as it is, its time of change included. *)
Definition Put (body : string) (limit : Z) (now : time) (b : blobs) : result blob_error (string * Z) * blobs :=
  if limit <? slen body then (Err ErrTooLarge, b)
  else let sha := sha256_hex body in
       match b !! sha with
       | Some _ => (Ok (sha, slen body), b)
       | None => (Ok (sha, slen body), <[sha := mkBlob (slen body) now]> b)
       end.
End Blobs.

Definition Exists_ (sha : string) (b : blobs) : result blob_error (option Z) :=
  if shaHex sha then Ok (option_map bl_Size (b !! sha)) else Err ErrBadHash.

Definition OpenBlob (sha : string) (b : blobs) : result blob_error Z :=
  if shaHex sha then match b !! sha with Some x => Ok (bl_Size x) | None => Err ErrNoFile end else Err ErrBadHash.

(** [os.Chtimes] fails on a file that is not there. *)
Definition Touch (sha : string) (at_ : time) (b : blobs) : result blob_error unit * blobs :=
  if negb (shaHex sha) then (Err ErrBadHash, b)
  else match b !! sha with
       | Some x => (Ok tt, <[sha := mkBlob (bl_Size x) at_]> b)
       | None => (Err ErrNoFile, b)
       end.

Definition is_part (name : string) : bool := HasPrefix (srev name) (srev ".part").

Definition RemoveBlob (sha : string) (b : blobs) : result blob_error unit * blobs :=
  if shaHex sha then (Ok tt, delete sha b) else (Err ErrBadHash, b).

Definition RemovePart (name : string) (b : blobs) : result blob_error unit * blobs :=
  if negb (is_part name) || sany (fun c => Ascii.eqb c "/" || Ascii.eqb c "\") name then (Err ErrBadHash, b)
  else (Ok tt, delete name b).

Definition ListBlobs (b : blobs) : list (string * blob) :=
  List.filter (fun x => shaHex x.1 || is_part x.1) (map_to_list b).

(** ** Apps *)

Record AppBody := mkAppBody {
  ab_PackageID : string; ab_PinnedVersion : string; ab_Scope : string; ab_InstallArgs : string; ab_Source : string;
  ab_InstallerType : string; ab_FileName : string; ab_FileSHA256 : string; ab_FileSize : Z; ab_UninstallCommand : string;
  ab_SuccessExitCodes : list Z; ab_Detection : option json; ab_UninstallPrevious : bool }.

Record NewApp := mkNewApp {
  na_Name : string; na_Description : string; na_PackageID : string; na_PinnedVersion : string; na_Scope : string;
  na_InstallArgs : string; na_Actor : string; na_Source : string; na_InstallerType : string; na_FileSHA256 : string;
  na_FileName : string; na_UninstallCommand : string; na_SuccessExitCodes : list Z; na_Detection : option DetectionRule;
  na_UninstallPrevious : bool; na_Signature : option OpSignature }.

Inductive bad_app :=
| AppNeedsName | BadSource | PackageSettings | NeedsPackageID | BadAppScope | NotForPackages | BadInstallerType | BadFileName
| WrongExtension | BadCommandLine | NeedsDetection | BadDetectionRule (e : bad_detection) | TooManyCodes | CodeOutOfRange
| NowhereToKeep | BadFileHash | NoPackage | AppSignature (e : opsign_error) | UploadTooLarge | UploadEmpty
| BadInstallStatus | BadIntent | DiskFailed (e : blob_error).

(** A row of [app_installs]. *)
Record AppInstallRow := mkAppInstallRow { in_ID : string; in_AppID : string; in_DeviceID : string; in_Result : AppResult }.

Definition rule_fields : list (field DetectionRule) := [
  string_field "type" (fun x r => mkRule x (dr_ProductCode r) (dr_Key r) (dr_Value r) (dr_Equals r) (dr_Path r) (dr_VersionAtLeast r));
  string_field "product_code" (fun x r => mkRule (dr_Type r) x (dr_Key r) (dr_Value r) (dr_Equals r) (dr_Path r) (dr_VersionAtLeast r));
  string_field "key" (fun x r => mkRule (dr_Type r) (dr_ProductCode r) x (dr_Value r) (dr_Equals r) (dr_Path r) (dr_VersionAtLeast r));
  string_field "value" (fun x r => mkRule (dr_Type r) (dr_ProductCode r) (dr_Key r) x (dr_Equals r) (dr_Path r) (dr_VersionAtLeast r));
  string_field "equals" (fun x r => mkRule (dr_Type r) (dr_ProductCode r) (dr_Key r) (dr_Value r) x (dr_Path r) (dr_VersionAtLeast r));
  string_field "path" (fun x r => mkRule (dr_Type r) (dr_ProductCode r) (dr_Key r) (dr_Value r) (dr_Equals r) x (dr_VersionAtLeast r));
  string_field "version_at_least" (fun x r => mkRule (dr_Type r) (dr_ProductCode r) (dr_Key r) (dr_Value r) (dr_Equals r) (dr_Path r) x)].

Definition zero_rule : DetectionRule := mkRule EmptyString EmptyString EmptyString EmptyString EmptyString EmptyString EmptyString.

(** [filepath.Ext]: from the last dot on; the name has no separator. *)
Definition Ext (name : string) : string :=
  match before "." (srev name) with Some e => String "." (srev e) | None => EmptyString end.

(** Equal to its own base name, and without what Windows keeps for itself. *)
Definition plain_file_name (name : string) : bool :=
  is_set name && negb (sany (fun c => sany (Ascii.eqb c) ("/\:*?<>|" ++ String DQuote EmptyString)%string) name).

Definition one_line (s : string) : bool :=
  (slen s <=? maxCommandLine) && negb (sany (fun c => existsb (Ascii.eqb c) ["013"; "010"; "000"]%char) s).

Definition in_int32 (c : Z) : bool := (- 2 ^ 31 <=? c) && (c <=? 2 ^ 31 - 1).

Section Apps.
Context `{CR : Crypto} (json_text : json -> string) (OperationsKeys : list PublicKey) (PackagesDir : bool).
Context {D : Type} `{K : !Kind D AppBody} (packages : lens D blobs) (app_installs : lens D (list AppInstallRow)).
Local Abbreviation error := (library_error bad_app).

Definition zero_byte : string := String "000" EmptyString.

Definition Hash (packageID pinned scope args : string) : string :=
  sha256_hex (packageID ++ zero_byte ++ pinned ++ zero_byte ++ scope ++ zero_byte ++ args)%string.

Definition packageHash (v : AppBody) : string :=
  sha256_hex ("package" ++ zero_byte ++ json_text (JArr [JStr (ab_InstallerType v); JStr (ab_FileName v); JStr (ab_FileSHA256 v);
    JStr (ab_InstallArgs v); JStr (ab_UninstallCommand v); JArr (map jint (ab_SuccessExitCodes v));
    default JNull (ab_Detection v); JBool (ab_UninstallPrevious v)]))%string.

Definition validate (i : NewApp) : result error unit :=
  check! ensure (is_set (TrimSpace (na_Name i))) (BadItem AppNeedsName);
  if String.eqb (na_Source i) AppSourcePackage then Ok tt else
  check! ensure (negb (is_set (na_Source i)) || String.eqb (na_Source i) AppSourceWinget) (BadItem BadSource);
  check! ensure (negb (is_set (na_InstallerType i) || is_set (na_FileSHA256 i) || is_set (na_FileName i) || is_set (na_UninstallCommand i)
      || (0 <? Z.of_nat (length (na_SuccessExitCodes i))) || match na_Detection i with Some _ => true | None => false end || na_UninstallPrevious i)) (BadItem PackageSettings);
  check! ensure (is_set (TrimSpace (na_PackageID i))) (BadItem NeedsPackageID);
  ensure (negb (is_set (na_Scope i)) || String.eqb (na_Scope i) ScopeMachine) (BadItem BadAppScope).

(** What [validatePackage] fills in. *)
Definition filled (i : NewApp) : NewApp :=
  mkNewApp (na_Name i) (na_Description i) (na_PackageID i) (na_PinnedVersion i) (na_Scope i) (na_InstallArgs i) (na_Actor i) (na_Source i)
    (na_InstallerType i) (ToLower (TrimSpace (na_FileSHA256 i))) (TrimSpace (na_FileName i)) (na_UninstallCommand i)
    (match na_SuccessExitCodes i with [] => DefaultSuccessExitCodes | l => l end) (na_Detection i) (na_UninstallPrevious i) (na_Signature i).

Definition check_package (i : NewApp) : result error unit :=
  check! ensure (negb (is_set (na_PackageID i) || is_set (na_PinnedVersion i))) (BadItem NotForPackages);
  check! ensure (String.eqb (na_InstallerType i) InstallerMSI || String.eqb (na_InstallerType i) InstallerEXE) (BadItem BadInstallerType);
  let name := TrimSpace (na_FileName i) in
  check! ensure (plain_file_name name && (slen name <=? 255)) (BadItem BadFileName);
  check! ensure (EqualFold (Ext name) ("." ++ na_InstallerType i)) (BadItem WrongExtension);
  check! ensure (one_line (na_InstallArgs i)) (BadItem BadCommandLine);
  check! ensure (one_line (na_UninstallCommand i)) (BadItem BadCommandLine);
  check! (match na_Detection i with
          | None => Err (BadItem NeedsDetection)
          | Some r => match ValidateRule r with Ok _ => Ok tt | Err e => Err (BadItem (BadDetectionRule e)) end
          end);
  let codes := na_SuccessExitCodes (filled i) in
  check! ensure (negb (20 <? Z.of_nat (length codes))) (BadItem TooManyCodes);
  check! ensure (forallb in_int32 codes) (BadItem CodeOutOfRange);
  ensure PackagesDir (BadItem NowhereToKeep).

(** The size of the upload, which is marked as just used. *)
Definition validatePackage (now : time) (i : NewApp) : txn D error Z :=
  do* lift_result (check_package i);
  let sha := na_FileSHA256 (filled i) in
  fun d => match Exists_ sha (look packages d) with
           | Err _ => (Err (BadItem BadFileHash), d)
           | Ok None => (Err (BadItem NoPackage), d)
           | Ok (Some size) =>
               match Touch sha now (look packages d) with
               | (Ok _, b) => (Ok size, put packages b d)
               | (Err e, b) => (Err (BadItem (DiskFailed e)), put packages b d)
               end
           end.

Definition body_hash (v : AppBody) : string :=
  if String.eqb (ab_Source v) AppSourcePackage then packageHash v
  else Hash (ab_PackageID v) (ab_PinnedVersion v) (ab_Scope v) (ab_InstallArgs v).

(** The version a request describes; its number is given later. *)
Definition version (now : time) (i : NewApp) : txn D error AppBody :=
  let scope := if is_set (na_Scope i) then na_Scope i else ScopeMachine in
  if negb (String.eqb (na_Source i) AppSourcePackage) then
    tret (mkAppBody (na_PackageID i) (na_PinnedVersion i) scope (na_InstallArgs i) AppSourceWinget
            EmptyString EmptyString EmptyString 0 EmptyString [] None false)
  else
    let* size := validatePackage now i in
    let i := filled i in
    tret (mkAppBody (na_PackageID i) (na_PinnedVersion i) scope (na_InstallArgs i) AppSourcePackage (na_InstallerType i) (na_FileName i)
            (na_FileSHA256 i) size (na_UninstallCommand i) (na_SuccessExitCodes i)
            (Some (match na_Detection i with Some r => rule_json r | None => JNull end)) (na_UninstallPrevious i)).

(** ** Signatures *)

Definition Definition_ (v : AppBody) : result error AppDefinition :=
  let! rule := match ab_Detection v with
               | None | Some JNull => Ok None
               | Some j => match decode_struct false rule_fields j zero_rule with Ok r => Ok (Some r) | Err _ => Err Undecodable end
               end in
  Ok (mkAppDefinition (ab_Source v) (ab_PackageID v) (ab_PinnedVersion v) (ab_Scope v) (ab_InstallArgs v) (ab_InstallerType v)
        (ab_FileName v) (ab_FileSHA256 v) (ab_UninstallCommand v) (ab_SuccessExitCodes v) rule (ab_UninstallPrevious v)).

Definition checkSignature (v : AppBody) (sig : option OpSignature) : result error unit :=
  match OperationsKeys with
  | [] => Ok tt
  | keys => let! d := Definition_ v in
            match VerifyOp keys (AppManifest json_text d) sig with Ok _ => Ok tt | Err e => Err (BadItem (AppSignature e)) end
  end.

Definition encodeSignature : option OpSignature -> option json := encode_signature.
Definition decodeSignature : option json -> option OpSignature := decode_signature.
Definition sameSignature : option json -> option json -> bool := same_signature.

(** ** The service *)

Definition created_details (name : string) (v : AppBody) : list (string * json) :=
  [("name", JStr name); ("source", JStr (ab_Source v))]%string ++
  (if String.eqb (ab_Source v) AppSourcePackage then [("file_name", JStr (ab_FileName v)); ("file_sha256", JStr (ab_FileSHA256 v))]%string else []).

Definition CreateApp (new_id : string) (now : time) (i : NewApp) : txn D error Item :=
  do* lift_result (validate i);
  let* v := version now i in
  do* lift_result (checkSignature v (na_Signature i));
  let name := TrimSpace (na_Name i) in
  create (mkItem new_id name (na_Description i) 1 now now (na_Actor i))
    (mkVersion new_id 1 v (body_hash v) now (na_Actor i) (encodeSignature (na_Signature i))) (created_details name v).

Definition prepare (candidate : AppBody) (sig : option OpSignature) (current : option (Version AppBody)) : result error (change (V := AppBody)) :=
  let hash := body_hash candidate in
  let same := String.eqb (current_hash current) hash in
  let sig := match sig with None => if same then decodeSignature (stored_signature current) else None | g => g end in
  check! checkSignature candidate sig;
  let stored := encodeSignature sig in
  Ok (mkChange candidate hash stored (negb same || negb (sameSignature (stored_signature current) stored))).

Definition update_app (now : time) (id : string) (i : NewApp) (hold : bool) : txn D error (Item * Z) :=
  do* lift_result (validate i);
  let* candidate := version now i in
  update (prepare candidate (na_Signature i)) now id (na_Name i) (na_Description i) (na_Actor i) hold.

Definition UpdateApp (now : time) (id : string) (i : NewApp) : txn D error Item := let* (a, _) := update_app now id i false in tret a.
Definition UpdateAppHeld (now : time) (id : string) (i : NewApp) : txn D error (Item * Z) := update_app now id i true.
Definition PromoteApp (now : time) (id : string) (n : Z) (actor : string) : txn D error Item := Promote now id n actor.
Definition DeleteApp (id actor : string) : txn D error unit := Delete id actor.

(** ** Packages *)

Definition UploadPackage (now : time) (body fileName actor : string) : txn D error (string * Z) :=
  do* tensure PackagesDir (BadItem NowhereToKeep);
  let* (sha, size) := (fun d => match Put body MaxPackageBytes now (look packages d) with
                                | (Ok x, b) => (Ok x, put packages b d)
                                | (Err _, b) => (Err (BadItem UploadTooLarge), put packages b d)
                                end) in
  do* tensure (negb (size =? 0)) (BadItem UploadEmpty);
  do* on_fleet (InsertAudit (mkAudit actor "app_package.uploaded" "app_package" sha
        [("file_name", JStr fileName); ("size_bytes", jint size)]%string));
  tret (sha, size).

Definition OpenPackage (id : string) (n : Z) : txn D error Z :=
  let* v := Version_ id n in
  if negb (String.eqb (ab_Source (v_Content v)) AppSourcePackage) then tfail NoItem
  else fun d => match OpenBlob (ab_FileSHA256 (v_Content v)) (look packages d) with
                | Ok size => (Ok size, d)
                | Err ErrNoFile => (Err (BadItem NoPackage), d)
                | Err e => (Err (BadItem (DiskFailed e)), d)
                end.

Definition AppPackageInUse (sha : string) (d : D) : bool :=
  existsb (fun v => String.eqb (ab_FileSHA256 (v_Content v)) sha) (sh_versions (look (kind_shelf (V := AppBody)) d)).

(** How many were removed, and the error that stopped it. *)
Fixpoint prune (now : time) (l : list (string * blob)) (d : D) : Z * option blob_error * D :=
  match l with
  | [] => (0, None, d)
  | (name, b) :: rest =>
      if Sub now (bl_ModTime b) <? PackageGrace then prune now rest d
      else
        let remove r := match r with
                        | (Err e, _) => (0, Some e, d)
                        | (Ok _, bs) => let '(n, e, d) := prune now rest (put packages bs d) in (n + 1, e, d)
                        end in
        if is_part name then remove (RemovePart name (look packages d))
        else if AppPackageInUse name d then prune now rest d
        else remove (RemoveBlob name (look packages d))
  end.

Definition PrunePackages (now : time) (d : D) : Z * option blob_error * D :=
  if PackagesDir then prune now (ListBlobs (look packages d)) d else (0, None, d).

(** ** Installs *)

Definition packageVersion (id : string) (n : Z) : txn D error (option (Version AppBody)) :=
  let* v := tattempt (zoom kind_shelf (GetVersion id n)) in
  tret (match v with Ok v => Some v | Err _ => None end).

Definition install_detail (v : option (Version AppBody)) (r : AppResult) (errText detail : string) : string :=
  let ok := String.eqb (ar_Status r) ResultSucceeded in
  if negb (is_set detail) && ok then
    if String.eqb (ar_Intent r) IntentUninstall then "removed"
    else if is_set (ar_InstalledVersion r) then ("installed " ++ ar_InstalledVersion r)%string
    else detail
  else if negb (is_set detail) then
    let '(packageID, runner) := match v with
      | None => ("?", "winget")%string
      | Some v => if String.eqb (ab_Source (v_Content v)) AppSourcePackage then (ab_FileName (v_Content v), "the installer"%string)
                  else (ab_PackageID (v_Content v), "winget"%string)
      end in
    if HasPrefix errText "timed out after" then (packageID ++ ": " ++ errText ++ ", and the install may still be running")%string
    else if is_set errText then (packageID ++ ": " ++ errText)%string
    else (packageID ++ ": " ++ runner ++ " exited " ++ Itoa (ar_ExitCode r))%string
  else detail.

Definition InsertAppInstall (row : AppInstallRow) : txn D store_error unit := fun d =>
  if existsb (fun o => String.eqb (in_ID o) (in_ID row)) (look app_installs d) then (Err ErrDuplicate, d)
  else if bool_decide (is_Some (f_devices (look kind_fleet d) !! in_DeviceID row))
  then (Ok tt, put app_installs (look app_installs d ++ [row]) d)
  else (Err ErrForeignKey, d).

(** The result as it is stored: what was written clamped. *)
Definition clamped_install (r : AppResult) (detail : string) : AppResult :=
  let (out, outCut) := clampOutput (ar_Stdout r) (ar_StdoutTruncated r) in
  let (err, errCut) := clampOutput (ar_Stderr r) (ar_StderrTruncated r) in
  mkAppResult (ar_Version r) (ar_Intent r) (ar_Status r) (ar_InstalledVersion r) (ar_ExitCode r) out err outCut errCut
    (fst (clampOutput (ar_Error r) false)) detail (ar_StartedAt r) (ar_FinishedAt r).

Definition RecordInstall (new_id : string) (now : time) (deviceID appID : string) (r : AppResult) : txn D error unit :=
  do* tensure (String.eqb (ar_Status r) ResultSucceeded || String.eqb (ar_Status r) ResultFailed) (BadItem BadInstallStatus);
  do* tensure (String.eqb (ar_Intent r) IntentInstall || String.eqb (ar_Intent r) IntentUninstall) (BadItem BadIntent);
  let* v := packageVersion appID (ar_Version r) in
  let detail := install_detail v r (fst (clampOutput (ar_Error r) false)) (fst (clampOutput (ar_Detail r) false)) in
  let status := if String.eqb (ar_Status r) ResultSucceeded then ItemSucceeded else ItemFailed in
  InTx (do* tmap_err LibraryStore (InsertAppInstall (mkAppInstallRow new_id appID deviceID (clamped_install r detail)));
        tmap_err LibraryStore (on_fleet (SetItemStatus
          (mkItemStatus deviceID ItemKindApp appID status detail (ar_Version r) now)))).
End Apps.
