(* ===== verification/AdminRequests.v ===== *)
(** * What administrators ask for

    The requests of [internal/server/adminapi] ([commands.go], [groups.go],
    [approvalholds.go], [itemkinds.go]): their JSON, because a held request is
    stored as it was made, and the checks made of them before anything is
    looked up. Reading a UUID is the package's business. *)
From S2P Require Import Access Compliance Window Settings Scripts AppSync.
From S2P Require Import Settings Scripts AppSync SettingsProps.
From S2P Require Export Commands ScriptLibrary ProfileLibrary AppLibrary GroupService.

From S2P Require Export FleetStore.
Open Scope Z_scope.
Open Scope go_scope.

(** ** Commands *)

Record queueRequest := mkQueueRequest {
  qr_DeviceIDs : list string; qr_Type : string; qr_Script : string; qr_TimeoutSeconds : Z; qr_DelaySeconds : Z;
  qr_Message : string; qr_TTLHours : Z; qr_Hours : Z; qr_Protected : bool; qr_ConfirmHostname : string; qr_Reason : string;
  qr_Expires : option time; qr_Signature : option OpSignature; qr_Account : string; qr_Length : Z; qr_Name : string;
  qr_Restart : bool; qr_Scope : string; qr_RestartPolicy : string }.

Definition zero_queueRequest : queueRequest :=
  mkQueueRequest [] EmptyString EmptyString 0 0 EmptyString 0 0 false EmptyString EmptyString None None EmptyString 0 EmptyString
    false EmptyString EmptyString.

(** [UnknownCommandType]: the one error of [payloadFor]. *)
Definition payloadFor `{JsonTime} (r : queueRequest) : option raw_payload :=
  let t := qr_Type r in
  if String.eqb t CommandRunPowerShell then Some (Payload (run_powershell_json (mkRunPowerShell (qr_Script r) (qr_TimeoutSeconds r) (qr_Signature r))))
  else if String.eqb t CommandRestart then Some (Payload (restart_json (mkRestart (qr_DelaySeconds r) (qr_Message r))))
  else if String.eqb t CommandRefreshInventory || String.eqb t CommandLock then Some NoPayload
  else if String.eqb t CommandCollectLogs then Some (Payload (collect_logs_json (mkCollectLogs (qr_Hours r))))
  else if String.eqb t CommandWipe then Some (Payload (wipe_json (mkWipe (qr_Protected r) (qr_Expires r) (qr_Signature r))))
  else if String.eqb t CommandRotateAdminPassword then Some (Payload (rotate_json (mkRotate (qr_Account r) (qr_Length r))))
  else if String.eqb t CommandRenameComputer then Some (Payload (rename_json (mkRename (qr_Name r) (qr_Restart r))))
  else if String.eqb t CommandInstallUpdates then Some (Payload (install_updates_json (mkInstallUpdates (qr_Scope r) (qr_RestartPolicy r))))
  else None.

Definition queueOptions (r : queueRequest) (payload : raw_payload) (deviceID actor : string) : QueueOptions :=
  mkQueueOptions deviceID (qr_Type r) payload actor (dmul (qr_TTLHours r) Hour) (qr_ConfirmHostname r) (qr_Reason r).

Definition helpdeskCommands : list string :=
  [CommandLock; CommandRestart; CommandRefreshInventory; CommandCollectLogs; CommandRotateAdminPassword; CommandInstallUpdates].

Definition on_devices (typ : string) (devices : Z) : string :=
  if devices =? 1 then (typ ++ " on 1 device")%string else (typ ++ " on " ++ Itoa devices ++ " devices")%string.

Definition commandSummary (r : queueRequest) (devices reach : Z) : string :=
  if String.eqb (qr_Type r) CommandWipe then ("wipe " ++ qr_ConfirmHostname r ++ ": " ++ qr_Reason r)%string
  else (on_devices (qr_Type r) devices ++ (if (devices <? reach)%Z then " (" ++ Itoa reach ++ " in the last hour)" else EmptyString))%string.

Section CommandJson.
Context `{JT : JsonTime}.

Definition queue_json (r : queueRequest) : json :=
  JObj ([("device_ids", JArr (map JStr (qr_DeviceIDs r))); ("type", JStr (qr_Type r)); ("script", JStr (qr_Script r));
         ("timeout_seconds", jint (qr_TimeoutSeconds r)); ("delay_seconds", jint (qr_DelaySeconds r)); ("message", JStr (qr_Message r));
         ("ttl_hours", jint (qr_TTLHours r)); ("hours", jint (qr_Hours r)); ("protected", JBool (qr_Protected r));
         ("confirm_hostname", JStr (qr_ConfirmHostname r)); ("reason", JStr (qr_Reason r))]%string
        ++ omit_none "expires" (fun t => JStr (time_text t)) (qr_Expires r)
        ++ omit_none "signature" signature_json (qr_Signature r)
        ++ [("account", JStr (qr_Account r)); ("length", jint (qr_Length r))]%string
        ++ omit "name" (qr_Name r) ++ (if qr_Restart r then [("restart", JBool true)]%string else [])
        ++ omit "scope" (qr_Scope r) ++ omit "restart_policy" (qr_RestartPolicy r)).

Definition queue_fields : list (field queueRequest) := [
  strings_field "device_ids"
    (fun v r => mkQueueRequest v (qr_Type r) (qr_Script r) (qr_TimeoutSeconds r) (qr_DelaySeconds r) (qr_Message r) (qr_TTLHours r) (qr_Hours r) (qr_Protected r) (qr_ConfirmHostname r) (qr_Reason r) (qr_Expires r) (qr_Signature r) (qr_Account r) (qr_Length r) (qr_Name r) (qr_Restart r) (qr_Scope r) (qr_RestartPolicy r));
  string_field "type"
    (fun v r => mkQueueRequest (qr_DeviceIDs r) v (qr_Script r) (qr_TimeoutSeconds r) (qr_DelaySeconds r) (qr_Message r) (qr_TTLHours r) (qr_Hours r) (qr_Protected r) (qr_ConfirmHostname r) (qr_Reason r) (qr_Expires r) (qr_Signature r) (qr_Account r) (qr_Length r) (qr_Name r) (qr_Restart r) (qr_Scope r) (qr_RestartPolicy r));
  string_field "script"
    (fun v r => mkQueueRequest (qr_DeviceIDs r) (qr_Type r) v (qr_TimeoutSeconds r) (qr_DelaySeconds r) (qr_Message r) (qr_TTLHours r) (qr_Hours r) (qr_Protected r) (qr_ConfirmHostname r) (qr_Reason r) (qr_Expires r) (qr_Signature r) (qr_Account r) (qr_Length r) (qr_Name r) (qr_Restart r) (qr_Scope r) (qr_RestartPolicy r));
  int_field "timeout_seconds"
    (fun v r => mkQueueRequest (qr_DeviceIDs r) (qr_Type r) (qr_Script r) v (qr_DelaySeconds r) (qr_Message r) (qr_TTLHours r) (qr_Hours r) (qr_Protected r) (qr_ConfirmHostname r) (qr_Reason r) (qr_Expires r) (qr_Signature r) (qr_Account r) (qr_Length r) (qr_Name r) (qr_Restart r) (qr_Scope r) (qr_RestartPolicy r));
  int_field "delay_seconds"
    (fun v r => mkQueueRequest (qr_DeviceIDs r) (qr_Type r) (qr_Script r) (qr_TimeoutSeconds r) v (qr_Message r) (qr_TTLHours r) (qr_Hours r) (qr_Protected r) (qr_ConfirmHostname r) (qr_Reason r) (qr_Expires r) (qr_Signature r) (qr_Account r) (qr_Length r) (qr_Name r) (qr_Restart r) (qr_Scope r) (qr_RestartPolicy r));
  string_field "message"
    (fun v r => mkQueueRequest (qr_DeviceIDs r) (qr_Type r) (qr_Script r) (qr_TimeoutSeconds r) (qr_DelaySeconds r) v (qr_TTLHours r) (qr_Hours r) (qr_Protected r) (qr_ConfirmHostname r) (qr_Reason r) (qr_Expires r) (qr_Signature r) (qr_Account r) (qr_Length r) (qr_Name r) (qr_Restart r) (qr_Scope r) (qr_RestartPolicy r));
  int_field "ttl_hours"
    (fun v r => mkQueueRequest (qr_DeviceIDs r) (qr_Type r) (qr_Script r) (qr_TimeoutSeconds r) (qr_DelaySeconds r) (qr_Message r) v (qr_Hours r) (qr_Protected r) (qr_ConfirmHostname r) (qr_Reason r) (qr_Expires r) (qr_Signature r) (qr_Account r) (qr_Length r) (qr_Name r) (qr_Restart r) (qr_Scope r) (qr_RestartPolicy r));
  int_field "hours"
    (fun v r => mkQueueRequest (qr_DeviceIDs r) (qr_Type r) (qr_Script r) (qr_TimeoutSeconds r) (qr_DelaySeconds r) (qr_Message r) (qr_TTLHours r) v (qr_Protected r) (qr_ConfirmHostname r) (qr_Reason r) (qr_Expires r) (qr_Signature r) (qr_Account r) (qr_Length r) (qr_Name r) (qr_Restart r) (qr_Scope r) (qr_RestartPolicy r));
  bool_field "protected"
    (fun v r => mkQueueRequest (qr_DeviceIDs r) (qr_Type r) (qr_Script r) (qr_TimeoutSeconds r) (qr_DelaySeconds r) (qr_Message r) (qr_TTLHours r) (qr_Hours r) v (qr_ConfirmHostname r) (qr_Reason r) (qr_Expires r) (qr_Signature r) (qr_Account r) (qr_Length r) (qr_Name r) (qr_Restart r) (qr_Scope r) (qr_RestartPolicy r));
  string_field "confirm_hostname"
    (fun v r => mkQueueRequest (qr_DeviceIDs r) (qr_Type r) (qr_Script r) (qr_TimeoutSeconds r) (qr_DelaySeconds r) (qr_Message r) (qr_TTLHours r) (qr_Hours r) (qr_Protected r) v (qr_Reason r) (qr_Expires r) (qr_Signature r) (qr_Account r) (qr_Length r) (qr_Name r) (qr_Restart r) (qr_Scope r) (qr_RestartPolicy r));
  string_field "reason"
    (fun v r => mkQueueRequest (qr_DeviceIDs r) (qr_Type r) (qr_Script r) (qr_TimeoutSeconds r) (qr_DelaySeconds r) (qr_Message r) (qr_TTLHours r) (qr_Hours r) (qr_Protected r) (qr_ConfirmHostname r) v (qr_Expires r) (qr_Signature r) (qr_Account r) (qr_Length r) (qr_Name r) (qr_Restart r) (qr_Scope r) (qr_RestartPolicy r));
  time_field "expires"
    (fun v r => mkQueueRequest (qr_DeviceIDs r) (qr_Type r) (qr_Script r) (qr_TimeoutSeconds r) (qr_DelaySeconds r) (qr_Message r) (qr_TTLHours r) (qr_Hours r) (qr_Protected r) (qr_ConfirmHostname r) (qr_Reason r) v (qr_Signature r) (qr_Account r) (qr_Length r) (qr_Name r) (qr_Restart r) (qr_Scope r) (qr_RestartPolicy r));
  pointer_field "signature" op_signature_fields no_signature qr_Signature
    (fun v r => mkQueueRequest (qr_DeviceIDs r) (qr_Type r) (qr_Script r) (qr_TimeoutSeconds r) (qr_DelaySeconds r) (qr_Message r) (qr_TTLHours r) (qr_Hours r) (qr_Protected r) (qr_ConfirmHostname r) (qr_Reason r) (qr_Expires r) v (qr_Account r) (qr_Length r) (qr_Name r) (qr_Restart r) (qr_Scope r) (qr_RestartPolicy r));
  string_field "account"
    (fun v r => mkQueueRequest (qr_DeviceIDs r) (qr_Type r) (qr_Script r) (qr_TimeoutSeconds r) (qr_DelaySeconds r) (qr_Message r) (qr_TTLHours r) (qr_Hours r) (qr_Protected r) (qr_ConfirmHostname r) (qr_Reason r) (qr_Expires r) (qr_Signature r) v (qr_Length r) (qr_Name r) (qr_Restart r) (qr_Scope r) (qr_RestartPolicy r));
  int_field "length"
    (fun v r => mkQueueRequest (qr_DeviceIDs r) (qr_Type r) (qr_Script r) (qr_TimeoutSeconds r) (qr_DelaySeconds r) (qr_Message r) (qr_TTLHours r) (qr_Hours r) (qr_Protected r) (qr_ConfirmHostname r) (qr_Reason r) (qr_Expires r) (qr_Signature r) (qr_Account r) v (qr_Name r) (qr_Restart r) (qr_Scope r) (qr_RestartPolicy r));
  string_field "name"
    (fun v r => mkQueueRequest (qr_DeviceIDs r) (qr_Type r) (qr_Script r) (qr_TimeoutSeconds r) (qr_DelaySeconds r) (qr_Message r) (qr_TTLHours r) (qr_Hours r) (qr_Protected r) (qr_ConfirmHostname r) (qr_Reason r) (qr_Expires r) (qr_Signature r) (qr_Account r) (qr_Length r) v (qr_Restart r) (qr_Scope r) (qr_RestartPolicy r));
  bool_field "restart"
    (fun v r => mkQueueRequest (qr_DeviceIDs r) (qr_Type r) (qr_Script r) (qr_TimeoutSeconds r) (qr_DelaySeconds r) (qr_Message r) (qr_TTLHours r) (qr_Hours r) (qr_Protected r) (qr_ConfirmHostname r) (qr_Reason r) (qr_Expires r) (qr_Signature r) (qr_Account r) (qr_Length r) (qr_Name r) v (qr_Scope r) (qr_RestartPolicy r));
  string_field "scope"
    (fun v r => mkQueueRequest (qr_DeviceIDs r) (qr_Type r) (qr_Script r) (qr_TimeoutSeconds r) (qr_DelaySeconds r) (qr_Message r) (qr_TTLHours r) (qr_Hours r) (qr_Protected r) (qr_ConfirmHostname r) (qr_Reason r) (qr_Expires r) (qr_Signature r) (qr_Account r) (qr_Length r) (qr_Name r) (qr_Restart r) v (qr_RestartPolicy r));
  string_field "restart_policy"
    (fun v r => mkQueueRequest (qr_DeviceIDs r) (qr_Type r) (qr_Script r) (qr_TimeoutSeconds r) (qr_DelaySeconds r) (qr_Message r) (qr_TTLHours r) (qr_Hours r) (qr_Protected r) (qr_ConfirmHostname r) (qr_Reason r) (qr_Expires r) (qr_Signature r) (qr_Account r) (qr_Length r) (qr_Name r) (qr_Restart r) (qr_Scope r) v)].
End CommandJson.

(** ** Assignments *)

(** [ar_Options] is the raw value, when the request has one. *)
Record assignmentRequest := mkAssignmentRequest {
  ar_ItemKind : string; ar_ItemID : string; ar_GroupID : string; ar_Mode : string; ar_Options : option json;
  ar_Rollout : option Rollout }.

Definition zero_assignmentRequest : assignmentRequest := mkAssignmentRequest EmptyString EmptyString EmptyString EmptyString None None.

Definition omit_zero (k : string) (n : Z) : list (string * json) := if n =? 0 then [] else [(k, jint n)].

Definition rollout_json (r : Rollout) : json :=
  JObj (("percent"%string, jint (Percent r)) :: omit_zero "step_percent" (StepPercent r) ++ omit_zero "step_hours" (StepHours r)).

(** A [json.RawMessage] that is nil is written [null]. *)
Definition assignment_json (r : assignmentRequest) : json :=
  JObj ([("item_kind", JStr (ar_ItemKind r)); ("item_id", JStr (ar_ItemID r)); ("group_id", JStr (ar_GroupID r));
         ("mode", JStr (ar_Mode r)); ("options", default JNull (ar_Options r))]%string ++ omit_none "rollout" rollout_json (ar_Rollout r)).

Definition rollout_fields : list (field Rollout) := [
  int_field "percent" (fun v r => mkRollout v (StepPercent r) (StepHours r));
  int_field "step_percent" (fun v r => mkRollout (Percent r) v (StepHours r));
  int_field "step_hours" (fun v r => mkRollout (Percent r) (StepPercent r) v)].

Definition assignment_fields : list (field assignmentRequest) := [
  string_field "item_kind" (fun v r => mkAssignmentRequest v (ar_ItemID r) (ar_GroupID r) (ar_Mode r) (ar_Options r) (ar_Rollout r));
  string_field "item_id" (fun v r => mkAssignmentRequest (ar_ItemKind r) v (ar_GroupID r) (ar_Mode r) (ar_Options r) (ar_Rollout r));
  string_field "group_id" (fun v r => mkAssignmentRequest (ar_ItemKind r) (ar_ItemID r) v (ar_Mode r) (ar_Options r) (ar_Rollout r));
  string_field "mode" (fun v r => mkAssignmentRequest (ar_ItemKind r) (ar_ItemID r) (ar_GroupID r) v (ar_Options r) (ar_Rollout r));
  ("options"%string, fun v r => Ok (mkAssignmentRequest (ar_ItemKind r) (ar_ItemID r) (ar_GroupID r) (ar_Mode r) (Some v) (ar_Rollout r)));
  pointer_field "rollout" rollout_fields zero_rollout ar_Rollout
    (fun v r => mkAssignmentRequest (ar_ItemKind r) (ar_ItemID r) (ar_GroupID r) (ar_Mode r) (ar_Options r) v)].

(** Why a request is refused for what it says. *)
Inductive request_error := NeedsItem | NeedsGroup | BadMode | NoSuchKind | BadAssignmentOptions | BadRollout (e : rollout_problem).

Definition raw_of (o : option json) : raw_options := match o with Some v => RawValue v | None => RawBlank end.

(** [noOptions]: nothing, [null] or an empty object. *)
Definition noOptions (raw : option json) : option (option json) :=
  match raw with
  | None | Some JNull | Some (JObj []) => Some None
  | _ => None
  end.

Definition profile_options (raw : option json) : option (option json) :=
  match decode_struct false [bool_field "revert_on_removal" (fun v _ => v)] (default JNull raw) false with
  | Ok b => Some (Some (JObj [("revert_on_removal"%string, JBool b)]))
  | Err _ => None
  end.

Definition ItemKindCompliance : string := "compliance".

(** [optionsParsers]: the canonical options, if these are any. *)
Definition optionsParsers (kind : string) (raw : option json) : result request_error (option json) :=
  let or_bad (o : option (option json)) := match o with Some x => Ok x | None => Err BadAssignmentOptions end in
  if String.eqb kind ItemKindScript then or_bad (match ParseDeploymentOptions (raw_of raw) with Ok o => Some (Some (MarshalDeployment o)) | Err _ => None end)
  else if String.eqb kind ItemKindProfile then or_bad (profile_options raw)
  else if String.eqb kind ItemKindApp then or_bad (match ParseAppOptions (raw_of raw) with Ok o => Some (Some (MarshalApp o)) | Err _ => None end)
  else if String.eqb kind ItemKindAgent then or_bad (match ParseAgentOptions (raw_of raw) with Ok o => Some (Some (MarshalAgent o)) | Err _ => None end)
  else if String.eqb kind ItemKindCompliance || String.eqb kind ItemKindWindow then or_bad (noOptions raw)
  else Err NoSuchKind.

Definition unheldKinds : list string := [ItemKindCompliance; ItemKindWindow].
Definition unheld (kind : string) : bool := existsb (String.eqb kind) unheldKinds.

Definition parse_rollout (r : assignmentRequest) : result request_error Rollout :=
  match parseRollout (String.eqb (ar_Mode r) ModeInclude) (negb (unheld (ar_ItemKind r))) (ar_Rollout r) with
  | Ok x => Ok x
  | Err e => Err (BadRollout e)
  end.

Section Parse.
Context (uuid_Parse : string -> option string).

Definition parseAssignment (r : assignmentRequest) (new_id actor : string) (now : time) : result request_error Assignment :=
  match uuid_Parse (ar_ItemID r) with
  | None => Err NeedsItem
  | Some itemID =>
      check! ensure (negb (String.eqb (ar_ItemKind r) EmptyString)) NeedsItem;
      match uuid_Parse (ar_GroupID r) with
      | None => Err NeedsGroup
      | Some groupID =>
          check! ensure (String.eqb (ar_Mode r) ModeInclude || String.eqb (ar_Mode r) ModeExclude) BadMode;
          let! options := if String.eqb (ar_Mode r) ModeInclude then optionsParsers (ar_ItemKind r) (ar_Options r) else Ok None in
          let! rollout := parse_rollout r in
          Ok (mkAssignment new_id (ar_ItemKind r) itemID groupID (ar_Mode r) now actor options rollout)
      end
  end.

(** The ids of a request, all of them or none. *)
Fixpoint parse_ids (l : list string) : option (list string) :=
  match l with
  | [] => Some []
  | raw :: rest => match uuid_Parse raw, parse_ids rest with Some id, Some ids => Some (id :: ids) | _, _ => None end
  end.
End Parse.

(** ** Groups *)

Record groupRequest := mkGroupRequest { gr_Name : string; gr_Description : string; gr_Kind : string; gr_Rule : string }.

Record versionApproval := mkVersionApproval { va_ItemKind : string; va_ItemID : string; va_Version : Z }.
Record groupMemberApproval := mkMemberApproval { ma_GroupID : string; ma_DeviceID : string }.
Record groupRuleApproval := mkRuleApproval { ra_GroupID : string; ra_Request : groupRequest }.

Definition version_json (r : versionApproval) : json :=
  JObj [("item_kind", JStr (va_ItemKind r)); ("item_id", JStr (va_ItemID r)); ("version", jint (va_Version r))]%string.
Definition member_json (r : groupMemberApproval) : json :=
  JObj [("group_id", JStr (ma_GroupID r)); ("device_id", JStr (ma_DeviceID r))]%string.
Definition rule_request_json (r : groupRuleApproval) : json :=
  JObj [("group_id", JStr (ra_GroupID r)); ("name", JStr (gr_Name (ra_Request r))); ("description", JStr (gr_Description (ra_Request r)));
        ("kind", JStr (gr_Kind (ra_Request r))); ("rule", JStr (gr_Rule (ra_Request r)))]%string.

Definition version_fields : list (field versionApproval) := [
  string_field "item_kind" (fun v r => mkVersionApproval v (va_ItemID r) (va_Version r));
  string_field "item_id" (fun v r => mkVersionApproval (va_ItemKind r) v (va_Version r));
  int_field "version" (fun v r => mkVersionApproval (va_ItemKind r) (va_ItemID r) v)].
Definition member_fields : list (field groupMemberApproval) := [
  string_field "group_id" (fun v r => mkMemberApproval v (ma_DeviceID r));
  string_field "device_id" (fun v r => mkMemberApproval (ma_GroupID r) v)].
Definition rule_request_fields : list (field groupRuleApproval) := [
  string_field "group_id" (fun v r => mkRuleApproval v (ra_Request r));
  string_field "name" (fun v r => mkRuleApproval (ra_GroupID r) (mkGroupRequest v (gr_Description (ra_Request r)) (gr_Kind (ra_Request r)) (gr_Rule (ra_Request r))));
  string_field "description" (fun v r => mkRuleApproval (ra_GroupID r) (mkGroupRequest (gr_Name (ra_Request r)) v (gr_Kind (ra_Request r)) (gr_Rule (ra_Request r))));
  string_field "kind" (fun v r => mkRuleApproval (ra_GroupID r) (mkGroupRequest (gr_Name (ra_Request r)) (gr_Description (ra_Request r)) v (gr_Rule (ra_Request r))));
  string_field "rule" (fun v r => mkRuleApproval (ra_GroupID r) (mkGroupRequest (gr_Name (ra_Request r)) (gr_Description (ra_Request r)) (gr_Kind (ra_Request r)) v))].

(** ** A held request is stored as it was made

    Each request that may wait is written as JSON when it is held and read when
    it is approved ([json.Marshal] and [json.Unmarshal] in
    [internal/server/adminapi/approvals.go]): what is read is what was asked. *)

(** What a request that was read off the wire is like: its numbers are Go ints,
    and its instant is one that was parsed. *)
Definition wire `{JsonTime} (q : queueRequest) : Prop :=
  in_int64 (qr_TimeoutSeconds q) = true /\ in_int64 (qr_DelaySeconds q) = true /\ in_int64 (qr_TTLHours q) = true /\
  in_int64 (qr_Hours q) = true /\ in_int64 (qr_Length q) = true /\
  (forall t, qr_Expires q = Some t -> exists s, parse_time s = Some t).

Lemma decode_int {S} (fs : list (field S)) k set n s : find_field fs k = Some (int_field k set) -> in_int64 n = true ->
  decode_members false fs [(k, jint n)] s = Ok (set n s).
Proof. intros Hf Hn. rewrite (decode_one _ _ _ _ _ Hf). cbn [snd int_field jint]. by rewrite Atoi_Itoa. Qed.

Lemma decode_omitted {S} (fs : list (field S)) k set v s : find_field fs k = Some (string_field k set) -> (v = EmptyString -> set v s = s) ->
  decode_members false fs (omit k v) s = Ok (set v s).
Proof.
  intros Hf Hz. unfold omit. destruct (String.eqb_spec v EmptyString) as [->|]; [by rewrite Hz|].
  by rewrite (decode_one _ _ _ _ _ Hf).
Qed.

Lemma signature_decodes g z : decode_struct false op_signature_fields (signature_json g) z = Ok g.
Proof. by destruct g. Qed.

Lemma decode_pointer {S T} (fs : list (field S)) k (sub : list (field T)) zero get set v t s :
  find_field fs k = Some (pointer_field k sub zero get set) -> v <> JNull ->
  decode_struct false sub v (default zero (get s)) = Ok t -> decode_members false fs [(k, v)] s = Ok (set (Some t) s).
Proof. intros Hf Hv Hd. rewrite (decode_one _ _ _ _ _ Hf). cbn [snd pointer_field]. rewrite Hd. by destruct v. Qed.

Lemma decode_signature_field {S} (fs : list (field S)) k get set g s :
  find_field fs k = Some (pointer_field k op_signature_fields no_signature get set) -> (g = None -> set g s = s) ->
  decode_members false fs (omit_none k signature_json g) s = Ok (set g s).
Proof.
  intros Hf Hz. destruct g as [g|]; [|by rewrite Hz]. eapply decode_pointer; [done|done|apply signature_decodes].
Qed.

Lemma decode_strings_field {S} (fs : list (field S)) k set l s : find_field fs k = Some (strings_field k set) ->
  decode_members false fs [(k, JArr (map JStr l))] s = Ok (set l s).
Proof. intros Hf. rewrite (decode_one _ _ _ _ _ Hf). cbn [snd strings_field]. by rewrite strings_decode. Qed.

Lemma members_cons {S} (fs : list (field S)) kv l s s' : decode_members false fs [kv] s = Ok s' ->
  decode_members false fs (kv :: l) s = decode_members false fs l s'.
Proof. change (kv :: l) with ([kv] ++ l). rewrite decode_members_app. by intros ->. Qed.

Lemma members_app {S} (fs : list (field S)) a l s s' : decode_members false fs a s = Ok s' ->
  decode_members false fs (a ++ l) s = decode_members false fs l s'.
Proof. rewrite decode_members_app. by intros ->. Qed.

(** The [n]th of the fields. *)
Ltac field_no n := apply (find_field_at _ n); [reflexivity|reflexivity|vm_compute; reflexivity].

(** Read a member that is always there, or one that may be left out. *)
Ltac fields_of := cbn [qr_DeviceIDs qr_Type qr_Script qr_TimeoutSeconds qr_DelaySeconds qr_Message qr_TTLHours qr_Hours qr_Protected
  qr_ConfirmHostname qr_Reason qr_Expires qr_Signature qr_Account qr_Length qr_Name qr_Restart qr_Scope qr_RestartPolicy].
Ltac member n := erewrite members_cons; [|etransitivity; [apply decode_one; field_no n|reflexivity]]; fields_of.
Ltac strings_member n := erewrite members_cons; [|apply decode_strings_field; field_no n]; fields_of.
Ltac int_member n := erewrite members_cons; [|apply decode_int; [field_no n|assumption]]; fields_of.
Ltac omitted n := erewrite members_app; [|apply decode_omitted; [field_no n|by intros ->]]; fields_of.
Ltac signature_member n := erewrite members_app; [|eapply decode_signature_field; [field_no n|by intros ->]]; fields_of.

Section Held.
Context `{JT : JsonTime, TL : !JsonTimeLaws}.

Lemma queue_decodes q : wire q -> decode_struct false queue_fields (queue_json q) zero_queueRequest = Ok q.
Proof.
  intros (H1 & H2 & H3 & H4 & H5 & H6). destruct q as [ids typ script to delay msg ttl hrs prot host why exp sig acc len name rs sc pol].
  cbn in H1, H2, H3, H4, H5, H6. unfold decode_struct, queue_json, zero_queueRequest.
  cbn [qr_DeviceIDs qr_Type qr_Script qr_TimeoutSeconds qr_DelaySeconds qr_Message qr_TTLHours qr_Hours qr_Protected
    qr_ConfirmHostname qr_Reason qr_Expires qr_Signature qr_Account qr_Length qr_Name qr_Restart qr_Scope qr_RestartPolicy app].
  strings_member 0%nat. member 1%nat. member 2%nat. int_member 3%nat. int_member 4%nat. member 5%nat.
  int_member 6%nat. int_member 7%nat. member 8%nat. member 9%nat. member 10%nat.
  erewrite members_app with (s' := mkQueueRequest ids typ script to delay msg ttl hrs prot host why exp None EmptyString 0 EmptyString false EmptyString EmptyString).
  2: { destruct exp as [t|]; [|done]. destruct (H6 t eq_refl) as (txt & Ht). cbn [omit_none].
       rewrite (decode_one _ _ _ _ (nth 11 queue_fields (string_field EmptyString (fun _ r => r)))) by field_no 11%nat.
       cbn. by rewrite (parse_time_text _ _ Ht). }
  signature_member 12%nat. member 13%nat. int_member 14%nat. omitted 15%nat.
  erewrite members_app with (s' := mkQueueRequest ids typ script to delay msg ttl hrs prot host why exp sig acc len name rs EmptyString EmptyString).
  2: { by destruct rs. }
  omitted 17%nat. rewrite <- (app_nil_r (omit "restart_policy" pol)). omitted 18%nat. done.
Qed.

Lemma version_decodes r z : in_int64 (va_Version r) = true -> decode_struct false version_fields (version_json r) z = Ok r.
Proof.
  intros H. destruct r as [k i n]. cbn in H. unfold decode_struct, version_json. cbn [va_ItemKind va_ItemID va_Version].
  erewrite members_cons; [|reflexivity]. erewrite members_cons; [|reflexivity].
  erewrite members_cons; [|apply decode_int; [field_no 2%nat|done]]. done.
Qed.

Lemma member_decodes r z : decode_struct false member_fields (member_json r) z = Ok r.
Proof. by destruct r. Qed.

Lemma rule_request_decodes r z : decode_struct false rule_request_fields (rule_request_json r) z = Ok r.
Proof. by destruct r as [i [n d k t]]. Qed.

(** A phasing that was read off the wire. *)
Definition wire_rollout (r : Rollout) : Prop :=
  in_int64 (Percent r) = true /\ in_int64 (StepPercent r) = true /\ in_int64 (StepHours r) = true.

Lemma omitted_int {S} (fs : list (field S)) k set n s : find_field fs k = Some (int_field k set) -> in_int64 n = true ->
  (n = 0 -> set n s = s) -> decode_members false fs (omit_zero k n) s = Ok (set n s).
Proof.
  intros Hf Hn Hz. unfold omit_zero. destruct (Z.eqb_spec n 0) as [->|]; [by rewrite Hz|]. by apply decode_int.
Qed.

Lemma rollout_decodes r : wire_rollout r -> decode_struct false rollout_fields (rollout_json r) zero_rollout = Ok r.
Proof.
  intros (H1 & H2 & H3). destruct r as [p s t]. cbn in H1, H2, H3. unfold decode_struct, rollout_json. cbn [Percent StepPercent StepHours].
  erewrite members_cons; [|apply decode_int; [field_no 0%nat|done]].
  erewrite members_app; [|apply omitted_int; [field_no 1%nat|done|by intros ->]].
  rewrite <- (app_nil_r (omit_zero "step_hours" t)).
  erewrite members_app; [|apply omitted_int; [field_no 2%nat|done|by intros ->]]. done.
Qed.

(** A request without options is stored with [null] ones. *)
Definition as_stored (r : assignmentRequest) : assignmentRequest :=
  mkAssignmentRequest (ar_ItemKind r) (ar_ItemID r) (ar_GroupID r) (ar_Mode r) (Some (default JNull (ar_Options r))) (ar_Rollout r).

Lemma assignment_decodes r : (forall x, ar_Rollout r = Some x -> wire_rollout x) ->
  decode_struct false assignment_fields (assignment_json r) zero_assignmentRequest = Ok (as_stored r).
Proof.
  intros H. destruct r as [k i g m o x]. cbn in H. unfold decode_struct, assignment_json, as_stored.
  cbn [ar_ItemKind ar_ItemID ar_GroupID ar_Mode ar_Options ar_Rollout app].
  do 5 (erewrite members_cons; [|reflexivity]). destruct x as [x|]; [|done]. cbn [omit_none].
  erewrite members_cons; [|eapply decode_pointer; [field_no 5%nat|done|cbn; by apply rollout_decodes, H]]. done.
Qed.

Lemma optionsParsers_stored kind o : optionsParsers kind (Some (default JNull o)) = optionsParsers kind o.
Proof. destruct o; [done|]. unfold optionsParsers. repeat (destruct (String.eqb kind _); [done|]). done. Qed.

Lemma stored_parses uuid_Parse r id actor now : parseAssignment uuid_Parse (as_stored r) id actor now = parseAssignment uuid_Parse r id actor now.
Proof. unfold parseAssignment, as_stored, parse_rollout. cbn. by rewrite optionsParsers_stored. Qed.
End Held.
