(* ===== verification/Admin.v ===== *)
(** * The admin API's changes, and those that wait

    [internal/server/adminapi]: what an administrator may change ([commands.go],
    [groups.go], the changing halves of [scripts.go], [profiles.go] and
    [apps.go]), which of it waits for a second administrator
    ([approvalholds.go]) and what approving it does ([approvals.go]). A request
    is a step of the whole server's tables; it reads the clock once and takes
    the ids it makes from a supply of its own. *)
From S2P Require Import Settings Scripts AppSync AuthStore Access.
From S2P Require Export AdminRequests.
From S2P Require Export FleetStore.
Open Scope Z_scope.
Open Scope go_scope.

(** ** The tables together *)

Record world := mkWorld {
  w_commands : db; w_fleet : fdb; w_scripts : shelf ScriptBody; w_runs : list ScriptRunRow;
  w_profiles : shelf ProfileBody; w_settings : list SettingStatus;
  w_apps : shelf AppBody; w_installs : list AppInstallRow; w_packages : blobs }.

Definition set_w_commands (x : db) (w : world) : world :=
  mkWorld x (w_fleet w) (w_scripts w) (w_runs w) (w_profiles w) (w_settings w) (w_apps w) (w_installs w) (w_packages w).
Definition set_w_fleet (x : fdb) (w : world) : world :=
  mkWorld (w_commands w) x (w_scripts w) (w_runs w) (w_profiles w) (w_settings w) (w_apps w) (w_installs w) (w_packages w).
Definition set_w_scripts (x : shelf ScriptBody) (w : world) : world :=
  mkWorld (w_commands w) (w_fleet w) x (w_runs w) (w_profiles w) (w_settings w) (w_apps w) (w_installs w) (w_packages w).
Definition set_w_profiles (x : shelf ProfileBody) (w : world) : world :=
  mkWorld (w_commands w) (w_fleet w) (w_scripts w) (w_runs w) x (w_settings w) (w_apps w) (w_installs w) (w_packages w).
Definition set_w_apps (x : shelf AppBody) (w : world) : world :=
  mkWorld (w_commands w) (w_fleet w) (w_scripts w) (w_runs w) (w_profiles w) (w_settings w) x (w_installs w) (w_packages w).
Definition set_w_packages (x : blobs) (w : world) : world :=
  mkWorld (w_commands w) (w_fleet w) (w_scripts w) (w_runs w) (w_profiles w) (w_settings w) (w_apps w) (w_installs w) x.

Definition commands_part : lens world db := mkLens w_commands set_w_commands.
Definition fleet_part : lens world fdb := mkLens w_fleet set_w_fleet.
Definition packages_part : lens world blobs := mkLens w_packages set_w_packages.

#[export] Instance script_kind : Kind world ScriptBody := {|
  kind_name := ItemKindScript; kind_shelf := mkLens w_scripts set_w_scripts; kind_fleet := fleet_part |}.
#[export] Instance profile_kind : Kind world ProfileBody := {|
  kind_name := ItemKindProfile; kind_shelf := mkLens w_profiles set_w_profiles; kind_fleet := fleet_part |}.
#[export] Instance app_kind : Kind world AppBody := {|
  kind_name := ItemKindApp; kind_shelf := mkLens w_apps set_w_apps; kind_fleet := fleet_part |}.

(** ** Requests *)

Inductive request :=
| QueueCommand (r : queueRequest)
| CreateAssignmentReq (r : assignmentRequest)
| DeleteAssignmentReq (id : string)
| CreateGroupReq (r : groupRequest)
| UpdateGroupReq (id : string) (r : groupRequest)
| DeleteGroupReq (id : string)
| AddGroupMemberReq (id deviceID : string)
| RemoveGroupMemberReq (id deviceID : string)
| EvaluateGroupReq (id : string)
| CreateScriptReq (i : NewScript)
| UpdateScriptReq (id : string) (i : NewScript)
| DeleteScriptReq (id : string)
| CreateProfileReq (i : NewProfile)
| UpdateProfileReq (id : string) (i : NewProfile)
| DeleteProfileReq (id : string)
| CreateAppReq (i : NewApp)
| UpdateAppReq (id : string) (i : NewApp)
| DeleteAppReq (id : string)
| UploadPackageReq (body fileName : string)
| ServerUpdateReq (version : string)
| ListApprovalsReq
| DecideReq (approve : bool) (id reason : string).

(** The route a request comes in by. *)
Definition route_of (r : request) : access :=
  g_access (match r with
  | QueueCommand _ => operate
  | CreateAssignmentReq _ | DeleteAssignmentReq _ => write_
  | ServerUpdateReq _ => writeAdmin
  | ListApprovalsReq => readAdmin
  | DecideReq _ _ _ => writeAdmin
  | _ => writeFleet
  end).

(** What the guard lets through, by [Access.protect_Served]. *)
Definition may (a : access) (c : authContext) : bool :=
  (negb (ac_admin a) || String.eqb (ad_Role (cx_Admin c)) RoleAdmin)
  && (negb (ac_operate a) || (RoleRank RoleHelpdesk <=? RoleRank (ad_Role (cx_Admin c))))
  && (negb (ac_session a) || match cx_Token c with None => true | Some _ => false end)
  && (negb (ac_fleet a) || negb (Limited (cx_Scope c))).

(** An answer: a refusal's status and code, a held request, or success. *)
Inductive response := Rejected (status : Z) (code : string) | HeldBy (approval : string) | Done (status : Z).

Definition not_found {D A} : txn D response A := tfail (Rejected 404 "not_found").
Definition bad_request_ {D A} : txn D response A := tfail (Rejected 400 "bad_request").
Definition internal {D A} : txn D response A := tfail (Rejected 500 "internal").

Record Handler := mkHandler { ApprovalsRequired : bool; ApprovalThreshold : Z }.

Definition approvalTTL : duration := 24 * Hour.
Definition powerShellWindow : duration := Hour.
Definition ApprovalCommand : string := "command".
Definition ApprovalVersion : string := "version".
Definition ApprovalGroupMember : string := "group_member".
Definition ApprovalGroupRule : string := "group_rule".
Definition ApprovalServerUpdate : string := "server_update".

(** The person behind a request: for a token, who made it. *)
Definition person (c : authContext) : string :=
  match cx_Token c with Some t => tk_CreatedByID t | None => ad_ID (cx_Admin c) end.
Definition email (c : authContext) : string := ad_Email (cx_Admin c).

(** ** What a command reached *)

Definition json_member (k : string) (v : json) : option json :=
  match v with JObj l => option_map snd (find (fun kv => String.eqb kv.1 k) l) | _ => None end.

(** The ids under [commands] in an approval's result. *)
Definition result_commands (v : option json) : list string :=
  match v with
  | Some v => match json_member "commands" v with
              | Some (JArr l) => omap (fun e => match json_member "id" e with Some (JStr s) => Some s | _ => None end) l
              | _ => []
              end
  | None => []
  end.

Definition decided_since (since : time) (a : Approval) : bool := match ap_DecidedAt a with Some t => since <=? t | None => false end.

(** Queued by an approval that second person decided since. *)
Definition approved_since (since : time) (f : fdb) (id : string) : bool :=
  existsb (fun a => String.eqb (ap_Kind a) ApprovalCommand && decided_since since a && existsb (String.eqb id) (result_commands (ap_Result a)))
    (f_approvals f).

Definition counts (actor typ : string) (since : time) (f : fdb) (c : Command) : bool :=
  String.eqb (c_CreatedBy c) actor && String.eqb (c_Type c) typ && (since <=? c_CreatedAt c) && negb (approved_since since f (c_ID c)).

Definition RecentCommandReach (actor typ : string) (since : time) (adding : list string) (w : world) : Z :=
  Z.of_nat (length (distinct (map c_DeviceID (List.filter (counts actor typ since (w_fleet w)) (t_commands (w_commands w))) ++ adding))).

(** A pager's row of an assignment ([newAssignmentJSON]); a rollout that was
    parsed has a current percentage. *)
Definition assignment_row_json `{JsonTime} (a : Assignment) (groupName : string) (now : time) : json :=
  let r := as_Rollout a in
  JObj ([("id", JStr (as_ID a)); ("item_kind", JStr (as_ItemKind a)); ("item_id", JStr (as_ItemID a)); ("group_id", JStr (as_GroupID a));
         ("group_name", JStr groupName); ("mode", JStr (as_Mode a))]%string
        ++ omit_none "options" id (as_Options a)
        ++ [("created_at", JStr (time_text (as_CreatedAt a))); ("created_by", JStr (as_CreatedBy a))]%string
        ++ (if Phased r then
              [("rollout"%string, JObj (("percent"%string, jint (Percent r)) :: omit_zero "step_percent" (StepPercent r)
                 ++ omit_zero "step_hours" (StepHours r) ++ omit_zero "current_percent" (default 0 (Current r (as_CreatedAt a) now))
                 ++ (if IsZero (FullAt r (as_CreatedAt a)) then [] else [("full_at"%string, JStr (time_text (FullAt r (as_CreatedAt a))))])))]
            else [])).

(** What stopped a replay. *)
Inductive failure :=
| FailedJSON (e : json_error) | FailedPayload | FailedID | FailedCommand (e : cmd_error) | FailedAssignment (e : request_error)
| FailedStore (e : store_error) | NoSuchGroupLeft | NoSuchMemberLeft | FailedGroup (e : group_error)
| FailedScript (e : library_error bad_script) | FailedProfile (e : library_error bad_profile) | FailedApp (e : library_error bad_app)
| NoSuchItemKind (kind : string) | FailedUpdate (e : string) | UnknownApproval (kind : string).

(** One request: when, what ids and randomness it is given, and who asks. *)
Record Ctx := mkCtx { cx_Now : time; cx_Ids : nat -> string; cx_Rand : nat -> string; cx_Caller : authContext }.

Section Admin.
Context `{CR : Crypto, JT : JsonTime, CT : Certificates}.
Context (uuid_Parse : string -> option string) (json_text : json -> string) (hmac_sha256 : string -> string -> string).
Context (OperationsKeys : list PublicKey) (ServerKey : option Key) (PackagesDir : bool).
Context (run_query : string -> list RuleCompile.arg -> fdb -> result store_error (list string)).
(** Updating the server is another program's business: whether it may be done,
    and what starting it came to. [error_text] is the text of an error. *)
Context (checkServerUpdate : string -> result string string) (startServerUpdate : string -> string -> result string json).
Context (running_version : string) (error_text : failure -> string).
Context (cs : Commands.Service) (h : Handler).
Local Abbreviation htx := (txn world response).

Definition commands_ {E A} (m : tx E A) : txn world E A := zoom commands_part m.
Definition fleet {E A} (m : ftx E A) : txn world E A := zoom fleet_part m.
(** A store call whose failure is an internal error. *)
Definition stored {A} (m : ftx store_error A) : htx A := tmap_err (fun _ => Rejected 500 "internal") (fleet m).

Definition path_id (raw : string) : htx string := match uuid_Parse raw with Some id => tret id | None => not_found end.
Definition body_id (raw : string) : htx string := match uuid_Parse raw with Some id => tret id | None => bad_request_ end.

Definition groupVisible (scope : DeviceScope) (id : string) : bool :=
  match scope with None => true | Some l => existsb (String.eqb id) l end.

Definition deviceVisible (x : Ctx) (id : string) : htx unit :=
  let* ok := stored (DeviceInScope id (cx_Scope (cx_Caller x))) in
  if ok : bool then tret tt else not_found.

(** ** Holding *)

Definition requested_audit (a : Approval) : AuditEntry :=
  mkAudit (ap_RequestedBy a) "approval.requested" "approval" (ap_ID a) [("kind", JStr (ap_Kind a)); ("summary", JStr (ap_Summary a))]%string.

Definition holdForApproval (x : Ctx) (id kind : string) (body : json) (summary : string) : htx response :=
  let a := mkApproval id kind body summary (email (cx_Caller x)) (person (cx_Caller x)) (cx_Now x) (Prelude.Add (cx_Now x) approvalTTL)
             ApprovalPending EmptyString None EmptyString None in
  do* stored (InTx (do* CreateApproval a; InsertAudit (requested_audit a)));
  tret (HeldBy id).

Definition commandNeedsApproval (now : time) (actor typ : string) (ids : list string) (w : world) : bool * Z :=
  let n := Z.of_nat (length ids) in
  if negb (ApprovalsRequired h) then (false, n)
  else if String.eqb typ CommandWipe then (true, n)
  else if String.eqb typ CommandRunPowerShell then
    let reach := RecentCommandReach actor typ (Prelude.Add now (- powerShellWindow)) ids w in (ApprovalThreshold h <? reach, reach)
  else (false, n).

Definition itemNeedsApproval (kind id : string) : ftx store_error bool :=
  if negb (ApprovalsRequired h) then tret false
  else let* (devices, free) := ItemReach kind id in tret (free || (ApprovalThreshold h <? devices)).

Definition groupHasCode (id : string) : ftx store_error bool := GroupIncludesAnyOf id unheldKinds.

Definition memberNeedsApproval (id : string) (g : Group) (deviceID : string) : ftx store_error (bool * Z) :=
  if negb (ApprovalsRequired h) || negb (String.eqb (g_Kind g) GroupStatic) then tret (false, 0) else
  let* code := groupHasCode id in
  if negb code then tret (false, 0) else
  let* in_ := IsGroupMember id deviceID in
  if in_ : bool then tret (false, 0) else
  let* n := GroupMemberCount id in
  tret (ApprovalThreshold h <? n + 1, n + 1).

Definition ruleNeedsApproval (id : string) (g : Group) (rule : string) : ftx store_error bool :=
  if negb (ApprovalsRequired h) || negb (String.eqb (g_Kind g) GroupDynamic) || String.eqb rule (g_Rule g) then tret false
  else groupHasCode id.

Definition assignmentNeedsApproval (a : Assignment) : ftx store_error bool :=
  if negb (ApprovalsRequired h) || negb (String.eqb (as_Mode a) ModeInclude) || unheld (as_ItemKind a) then tret false else
  let* g := GetGroup (as_GroupID a) in
  if negb (String.eqb (g_Kind g) GroupStatic) then tret true else
  let* n := GroupMemberCount (as_GroupID a) in tret (ApprovalThreshold h <? n).

(** ** Commands *)

Definition queue_error (e : cmd_error) : response :=
  match e with
  | BadRequest _ => Rejected 400 "bad_request"
  | NotFound => Rejected 404 "not_found"
  | DeviceNotActive _ _ => Rejected 409 "device_not_active"
  | _ => Rejected 500 "internal"
  end.

(** Queued one after another, up to the first that fails; what was queued. *)
Fixpoint queueCommands (x : Ctx) (r : queueRequest) (payload : raw_payload) (actor : string) (i : nat) (ids : list string)
    : world -> list (string * string) * option cmd_error * world := fun w =>
  match ids with
  | [] => ([], None, w)
  | dev :: rest =>
      match commands_ (Queue cs (Some (cx_Ids x i)) (cx_Now x) (queueOptions r payload dev actor)) w with
      | (Err e, w) => ([], Some e, w)
      | (Ok c, w) => let '(out, e, w) := queueCommands x r payload actor (S i) rest w in ((c_ID c, dev) :: out, e, w)
      end
  end.

Fixpoint check_all (x : Ctx) (r : queueRequest) (payload : raw_payload) (actor : string) (i : nat) (ids : list string) : htx unit :=
  match ids with
  | [] => tret tt
  | dev :: rest =>
      do* tmap_err queue_error (commands_ (Check_ cs (Some (cx_Ids x i)) (cx_Now x) (queueOptions r payload dev actor)));
      check_all x r payload actor (S i) rest
  end.

Fixpoint visible_ids (x : Ctx) (raw : list string) : htx (list string) :=
  match raw with
  | [] => tret []
  | s :: rest => let* id := body_id s in do* deviceVisible x id; let* ids := visible_ids x rest in tret (id :: ids)
  end.

Definition is_admin (c : authContext) : bool := String.eqb (ad_Role (cx_Admin c)) RoleAdmin.

(** What a person of that role may send at all. *)
Definition command_allowed (c : authContext) (r : queueRequest) : htx unit :=
  do* tensure (is_admin c || existsb (String.eqb (qr_Type r)) helpdeskCommands) (Rejected 403 "forbidden");
  do* tensure (negb (String.eqb (qr_Type r) CommandRotateAdminPassword && negb (String.eqb (TrimSpace (qr_Account r)) EmptyString) && negb (is_admin c)))
        (Rejected 403 "forbidden");
  if String.eqb (qr_Type r) CommandWipe then
    do* tensure (match cx_Token c with None => true | Some _ => false end) (Rejected 403 "forbidden");
    tensure (Nat.eqb (length (qr_DeviceIDs r)) 1) (Rejected 400 "bad_request")
  else tret tt.

Definition queueCommand (x : Ctx) (r : queueRequest) : htx response :=
  let c := cx_Caller x in
  do* tensure (negb (Nat.eqb (length (qr_DeviceIDs r)) 0)) (Rejected 400 "bad_request");
  match payloadFor r with
  | None => bad_request_
  | Some payload =>
      do* command_allowed c r;
      let* ids := visible_ids x (qr_DeviceIDs r) in
      fun w =>
        let '(hold, reach) := commandNeedsApproval (cx_Now x) (email c) (qr_Type r) ids w in
        if hold : bool then
          (do* check_all x r payload (email c) 1 ids;
           holdForApproval x (cx_Ids x 0) ApprovalCommand (queue_json r) (commandSummary r (Z.of_nat (length ids)) reach)) w
        else
          match queueCommands x r payload (email c) 1 ids w with
          | (_, Some e, w) => (Err (queue_error e), w)
          | (_, None, w) => (Ok (Done 201), w)
          end
  end.

(** ** Assignments *)

Definition saved_audit (a : Assignment) (id : string) : AuditEntry :=
  mkAudit (as_CreatedBy a) (if String.eqb id (as_ID a) then "assignment.created" else "assignment.replaced") "assignment" id
    [("item_kind", JStr (as_ItemKind a)); ("item_id", JStr (as_ItemID a)); ("group_id", JStr (as_GroupID a)); ("mode", JStr (as_Mode a))]%string.

(** The id of the row there is, and the group's name. *)
Definition saveAssignment (a : Assignment) : ftx store_error (string * string) :=
  InTx (let* g := GetGroup (as_GroupID a) in
        let* id := CreateAssignment a in
        do* InsertAudit (saved_audit a id);
        tret (id, g_Name g)).

(** [store.ErrNotFound] is a group that is not there; any other error is not
    the caller's. *)
Definition group_or_internal {A} (m : ftx store_error A) : htx A :=
  tmap_err (fun e => match e with ErrNotFound => Rejected 404 "not_found" | _ => Rejected 500 "internal" end) (fleet m).

Definition createAssignment (x : Ctx) (r : assignmentRequest) : htx response :=
  match parseAssignment uuid_Parse r (cx_Ids x 1) (email (cx_Caller x)) (cx_Now x) with
  | Err _ => bad_request_
  | Ok a =>
      do* tensure (groupVisible (cx_Scope (cx_Caller x)) (as_GroupID a)) (Rejected 404 "not_found");
      let* held := group_or_internal (assignmentNeedsApproval a) in
      if held : bool then
        holdForApproval x (cx_Ids x 0) ApprovalAssignment (assignment_json r)
          ("assign " ++ as_ItemKind a ++ " " ++ as_ItemID a ++ " to group " ++ as_GroupID a)%string
      else do* group_or_internal (saveAssignment a); tret (Done 201)
  end.

Definition deleteAssignment (x : Ctx) (raw : string) : htx response :=
  let* id := path_id raw in
  do* group_or_internal (InTx (
    let* a := GetAssignment id in
    do* tensure (groupVisible (cx_Scope (cx_Caller x)) (as_GroupID a)) ErrNotFound;
    do* DeleteAssignment id;
    InsertAudit (mkAudit (email (cx_Caller x)) "assignment.deleted" "assignment" id
      [("item_kind", JStr (as_ItemKind a)); ("item_id", JStr (as_ItemID a))]%string)));
  tret (Done 204).

(** ** Groups *)

Definition group_response (e : group_error) : response :=
  match e with
  | InvalidRule _ => Rejected 400 "invalid_rule"
  | ErrBadGroup => Rejected 400 "bad_request"
  | GroupStoreError ErrNotFound => Rejected 404 "not_found"
  | ErrNameTaken => Rejected 409 "name_taken"
  | ErrDerivedMembership => Rejected 409 "derived_membership"
  | ErrBuiltinGroup => Rejected 409 "builtin_group"
  | _ => Rejected 500 "internal"
  end.

Definition group {A} (m : ftx group_error A) : htx A := tmap_err group_response (fleet m).

Definition new_group (c : authContext) (r : groupRequest) : NewGroup :=
  mkNewGroup (gr_Name r) (gr_Description r) (gr_Kind r) (gr_Rule r) (email c).

Definition createGroup (x : Ctx) (r : groupRequest) : htx response :=
  do* group (GroupService.Create run_query (cx_Ids x 0) (cx_Now x) (new_group (cx_Caller x) r)); tret (Done 201).

(** Whether the change waits, and what is checked of it then. *)
Definition rule_hold (x : Ctx) (id : string) (r : groupRequest) : htx (option string) :=
  if negb (ApprovalsRequired h) then tret None else
  let* g := group (GroupService.Get id) in
  let* hold := stored (ruleNeedsApproval id g (gr_Rule r)) in
  if negb hold then tret None else
  do* tensure (negb (String.eqb (TrimSpace (gr_Name r)) EmptyString)) (Rejected 400 "bad_request");
  do* group (lift_result (parse_rule (gr_Rule r)));
  tret (Some ("change the rule of group " ++ Quoted (g_Name g) ++ " to: " ++ gr_Rule r)%string).

Definition updateGroup (x : Ctx) (raw : string) (r : groupRequest) : htx response :=
  let* id := path_id raw in
  let* hold := rule_hold x id r in
  match hold with
  | Some summary => holdForApproval x (cx_Ids x 0) ApprovalGroupRule (rule_request_json (mkRuleApproval id r)) summary
  | None => do* group (GroupService.Update run_query id (cx_Now x) (new_group (cx_Caller x) r)); tret (Done 200)
  end.

Definition deleteGroup (x : Ctx) (raw : string) : htx response :=
  let* id := path_id raw in
  do* group (GroupService.Delete id (email (cx_Caller x))); tret (Done 204).

Definition member_hold (x : Ctx) (id deviceID : string) : htx (option string) :=
  if negb (ApprovalsRequired h) then tret None else
  let* g := group (GroupService.Get id) in
  let* d := group_or_internal (GetDevice deviceID) in
  let* (hold, size) := stored (memberNeedsApproval id g deviceID) in
  tret (if hold : bool then Some ("add " ++ fd_Hostname d ++ " to group " ++ Quoted (g_Name g) ++ ", making it " ++ Itoa size ++ " devices")%string else None).

Definition addGroupMember (x : Ctx) (raw rawDevice : string) : htx response :=
  let* id := path_id raw in
  let* deviceID := body_id rawDevice in
  let* hold := member_hold x id deviceID in
  match hold with
  | Some summary => holdForApproval x (cx_Ids x 0) ApprovalGroupMember (member_json (mkMemberApproval id deviceID)) summary
  | None => do* group (AddMember id deviceID (email (cx_Caller x))); tret (Done 204)
  end.

Definition removeGroupMember (x : Ctx) (raw rawDevice : string) : htx response :=
  let* id := path_id raw in
  let* deviceID := body_id rawDevice in
  do* group (RemoveMember id deviceID (email (cx_Caller x))); tret (Done 204).

Definition evaluateGroup (x : Ctx) (raw : string) : htx response :=
  let* id := path_id raw in
  let* g := group (GroupService.Get id) in
  do* group (EvaluateGroup run_query id g (cx_Now x)); tret (Done 200).

(** ** Scripts, profiles and apps *)

Definition library_response {B} (bad : B -> response) (e : library_error B) : response :=
  match e with
  | NoItem | LibraryStore ErrNotFound => Rejected 404 "not_found"
  | ItemNameTaken => Rejected 409 "name_taken"
  | BadItem why => bad why
  | NoSecretKey => Rejected 400 "bad_request"
  | _ => Rejected 500 "internal"
  end.

Definition is_bad {B} (_ : B) : response := Rejected 400 "bad_request".
(** A disk that fails is not the caller's fault. *)
Definition app_is_bad (why : bad_app) : response := match why with DiskFailed _ => Rejected 500 "internal" | _ => Rejected 400 "bad_request" end.

(** What a request describes, on behalf of who sent it. *)
Definition script_by (c : authContext) (i : NewScript) : NewScript :=
  mkNewScript (ns_Name i) (ns_Description i) (ns_Body i) (ns_DetectionBody i) (email c) (ns_Signature i).
Definition profile_by (c : authContext) (i : NewProfile) : NewProfile :=
  mkNewProfile (np_Name i) (np_Description i) (np_Settings i) (email c) (np_Signature i).
Definition app_by (c : authContext) (i : NewApp) : NewApp :=
  mkNewApp (na_Name i) (na_Description i) (na_PackageID i) (na_PinnedVersion i) (na_Scope i) (na_InstallArgs i) (email c) (na_Source i)
    (na_InstallerType i) (na_FileSHA256 i) (na_FileName i) (na_UninstallCommand i) (na_SuccessExitCodes i) (na_Detection i)
    (na_UninstallPrevious i) (na_Signature i).

Definition script {A} (m : txn world (library_error bad_script) A) : htx A := tmap_err (library_response is_bad) m.
Definition profile {A} (m : txn world (library_error bad_profile) A) : htx A := tmap_err (library_response is_bad) m.
Definition app {A} (m : txn world (library_error bad_app) A) : htx A := tmap_err (library_response app_is_bad) m.

Definition holdVersion (x : Ctx) (kind id name : string) (version : Z) : htx response :=
  holdForApproval x (cx_Ids x 0) ApprovalVersion (version_json (mkVersionApproval kind id version))
    ("make version " ++ Itoa version ++ " of " ++ kind ++ " " ++ Quoted name ++ " current")%string.

(** The shape the three updates share: held when the item reaches too far, and
    then waiting only if a version was written. *)
Definition update_item (x : Ctx) (kind id : string) (held_update : htx (Item * Z)) (plain_update : htx Item) : htx response :=
  let* hold := stored (itemNeedsApproval kind id) in
  if hold : bool then
    let* (i, held) := held_update in
    if 0 <? held then holdVersion x kind id (i_Name i) held else tret (Done 200)
  else do* plain_update; tret (Done 200).

Definition createScript (x : Ctx) (i : NewScript) : htx response :=
  do* script (CreateScript json_text OperationsKeys (cx_Ids x 0) (cx_Now x) (script_by (cx_Caller x) i)); tret (Done 201).
Definition updateScript (x : Ctx) (raw : string) (i : NewScript) : htx response :=
  let* id := path_id raw in
  let i := script_by (cx_Caller x) i in
  update_item x ItemKindScript id (script (UpdateScriptHeld json_text OperationsKeys (cx_Now x) id i))
    (script (UpdateScript json_text OperationsKeys (cx_Now x) id i)).
Definition deleteScript (x : Ctx) (raw : string) : htx response :=
  let* id := path_id raw in do* script (DeleteScript id (email (cx_Caller x))); tret (Done 204).

Definition createProfile (x : Ctx) (i : NewProfile) : htx response :=
  do* profile (CreateProfile json_text hmac_sha256 OperationsKeys ServerKey (cx_Rand x) (cx_Ids x 0) (cx_Now x) (profile_by (cx_Caller x) i)); tret (Done 201).
Definition updateProfile (x : Ctx) (raw : string) (i : NewProfile) : htx response :=
  let* id := path_id raw in
  let i := profile_by (cx_Caller x) i in
  update_item x ItemKindProfile id (profile (UpdateProfileHeld json_text hmac_sha256 OperationsKeys ServerKey (cx_Rand x) (cx_Now x) id i))
    (profile (UpdateProfile json_text hmac_sha256 OperationsKeys ServerKey (cx_Rand x) (cx_Now x) id i)).
Definition deleteProfile (x : Ctx) (raw : string) : htx response :=
  let* id := path_id raw in do* profile (DeleteProfile id (email (cx_Caller x))); tret (Done 204).

Definition createApp (x : Ctx) (i : NewApp) : htx response :=
  do* app (CreateApp json_text OperationsKeys PackagesDir packages_part (cx_Ids x 0) (cx_Now x) (app_by (cx_Caller x) i)); tret (Done 201).
Definition updateApp (x : Ctx) (raw : string) (i : NewApp) : htx response :=
  let* id := path_id raw in
  let i := app_by (cx_Caller x) i in
  update_item x ItemKindApp id (app (UpdateAppHeld json_text OperationsKeys PackagesDir packages_part (cx_Now x) id i))
    (app (UpdateApp json_text OperationsKeys PackagesDir packages_part (cx_Now x) id i)).
Definition deleteApp (x : Ctx) (raw : string) : htx response :=
  let* id := path_id raw in do* app (DeleteApp id (email (cx_Caller x))); tret (Done 204).

(** The reader of the body stops one over the limit, with its own answer. *)
Definition uploadAppPackage (x : Ctx) (body fileName : string) : htx response :=
  if PackagesDir && (MaxPackageBytes <? slen body) then tfail (Rejected 413 "too_large") else
  do* app (UploadPackage PackagesDir packages_part (cx_Now x) body fileName (email (cx_Caller x))); tret (Done 201).

(** ** The server itself *)

Definition server_update_json (version : string) : json := JObj [("version"%string, JStr version)].
Definition refusal_ {A} (r : result string A) : htx A := match r with Ok a => tret a | Err code => tfail (Rejected 409 code) end.

Definition requestServerUpdate (x : Ctx) (version : string) : htx response :=
  let* latest := refusal_ (checkServerUpdate version) in
  if ApprovalsRequired h then
    holdForApproval x (cx_Ids x 0) ApprovalServerUpdate (server_update_json latest) ("Update the Retune server from " ++ running_version ++ " to " ++ latest)%string
  else do* refusal_ (startServerUpdate version (email (cx_Caller x))); tret (Done 202).

(** ** Approving *)

Definition queued_json (q : string * string) : json := JObj [("id", JStr q.1); ("device_id", JStr q.2)]%string.

Definition failed (done : list (string * json)) (e : failure) : json * bool :=
  (JObj (done ++ [("error"%string, JStr (error_text e))]), true).

(** A step of a replay that changes tables: its failure is the result. *)
Definition attempt {E A} (m : txn world E A) (err : E -> failure) (ok : A -> list (string * json)) : world -> (json * bool) * world :=
  fun w => match m w with
           | (Ok a, w) => ((JObj (ok a), false), w)
           | (Err e, w) => (failed [] (err e), w)
           end.

Definition replayVersion (x : Ctx) (a : Approval) (r : versionApproval) : world -> (json * bool) * world :=
  match uuid_Parse (va_ItemID r) with
  | None => fun w => (failed [] FailedID, w)
  | Some id =>
      let done (i : Item) := [("version"%string, JObj [("item_kind", JStr (va_ItemKind r)); ("item_id", JStr (va_ItemID r));
                                               ("current_version", jint (i_CurrentVersion i))]%string)] in
      if String.eqb (va_ItemKind r) ItemKindScript then attempt (PromoteScript (cx_Now x) id (va_Version r) (ap_RequestedBy a)) FailedScript done
      else if String.eqb (va_ItemKind r) ItemKindProfile then attempt (PromoteProfile (cx_Now x) id (va_Version r) (ap_RequestedBy a)) FailedProfile done
      else if String.eqb (va_ItemKind r) ItemKindApp then attempt (PromoteApp (cx_Now x) id (va_Version r) (ap_RequestedBy a)) FailedApp done
      else fun w => (failed [] (NoSuchItemKind (va_ItemKind r)), w)
  end.

Definition replayGroupMember (a : Approval) (r : groupMemberApproval) : world -> (json * bool) * world :=
  match uuid_Parse (ma_GroupID r), uuid_Parse (ma_DeviceID r) with
  | Some groupID, Some deviceID =>
      attempt (fleet (AddMember groupID deviceID (ap_RequestedBy a)))
        (fun e => match e with GroupStoreError ErrNotFound => NoSuchMemberLeft | e => FailedGroup e end)
        (fun _ => [("group_member"%string, member_json r)])
  | _, _ => fun w => (failed [] FailedID, w)
  end.

Definition replayGroupRule (x : Ctx) (a : Approval) (r : groupRuleApproval) : world -> (json * bool) * world :=
  match uuid_Parse (ra_GroupID r) with
  | None => fun w => (failed [] FailedID, w)
  | Some id =>
      let i := ra_Request r in
      attempt (fleet (GroupService.Update run_query id (cx_Now x) (mkNewGroup (gr_Name i) (gr_Description i) EmptyString (gr_Rule i) (ap_RequestedBy a))))
        (fun e => match e with GroupStoreError ErrNotFound => NoSuchGroupLeft | e => FailedGroup e end)
        (fun g => [("group"%string, JObj [("id", JStr id); ("name", JStr (g_Name g)); ("rule", JStr (g_Rule g))]%string)])
  end.

Definition replayCommand (x : Ctx) (a : Approval) (r : queueRequest) : world -> (json * bool) * world :=
  match payloadFor r, parse_ids uuid_Parse (qr_DeviceIDs r) with
  | None, _ => fun w => (failed [] FailedPayload, w)
  | Some _, None => fun w => (failed [] FailedID, w)
  | Some payload, Some ids => fun w =>
      let '(out, e, w) := queueCommands x r payload (ap_RequestedBy a) 1 ids w in
      let done := [("commands"%string, JArr (map queued_json out))] in
      (match e with None => (JObj done, false) | Some e => failed done (FailedCommand e) end, w)
  end.

Definition replayAssignment (x : Ctx) (a : Approval) (r : assignmentRequest) : world -> (json * bool) * world :=
  match parseAssignment uuid_Parse r (cx_Ids x 1) (ap_RequestedBy a) (cx_Now x) with
  | Err e => fun w => (failed [] (FailedAssignment e), w)
  | Ok as_ =>
      attempt (fleet (saveAssignment as_)) (fun e => match e with ErrNotFound => NoSuchGroupLeft | e => FailedStore e end)
        (fun saved => [("assignment"%string,
           assignment_row_json (mkAssignment saved.1 (as_ItemKind as_) (as_ItemID as_) (as_GroupID as_) (as_Mode as_)
              (as_CreatedAt as_) (as_CreatedBy as_) (as_Options as_) (as_Rollout as_)) saved.2 (cx_Now x))])
  end.

Definition replayServerUpdate (a : Approval) (version : string) : world -> (json * bool) * world := fun w =>
  match startServerUpdate version (ap_RequestedBy a) with
  | Ok st => ((JObj [("version", JStr version); ("state", st)]%string, false), w)
  | Err e => (failed [("version"%string, JStr version)] (FailedUpdate e), w)
  end.

(** The stored request, decoded, or the failure to. *)
Definition decoded {S} (fs : list (field S)) (zero : S) (a : Approval) (k : S -> world -> (json * bool) * world) : world -> (json * bool) * world :=
  match decode_struct false fs (ap_Request a) zero with
  | Ok r => k r
  | Err e => fun w => (failed [] (FailedJSON e), w)
  end.

Definition replayApproval (x : Ctx) (a : Approval) : world -> (json * bool) * world :=
  if String.eqb (ap_Kind a) ApprovalCommand then decoded queue_fields zero_queueRequest a (replayCommand x a)
  else if String.eqb (ap_Kind a) ApprovalAssignment then decoded assignment_fields zero_assignmentRequest a (replayAssignment x a)
  else if String.eqb (ap_Kind a) ApprovalVersion then decoded version_fields (mkVersionApproval EmptyString EmptyString 0) a (replayVersion x a)
  else if String.eqb (ap_Kind a) ApprovalGroupMember then decoded member_fields (mkMemberApproval EmptyString EmptyString) a (replayGroupMember a)
  else if String.eqb (ap_Kind a) ApprovalGroupRule then
    decoded rule_request_fields (mkRuleApproval EmptyString (mkGroupRequest EmptyString EmptyString EmptyString EmptyString)) a (replayGroupRule x a)
  else if String.eqb (ap_Kind a) ApprovalServerUpdate then
    decoded [string_field "version" (fun v (_ : string) => v)] EmptyString a (replayServerUpdate a)
  else fun w => (failed [] (UnknownApproval (ap_Kind a)), w).

Definition decided_audit (approve : bool) (actor reason : string) (a : Approval) : AuditEntry :=
  mkAudit actor (if approve then "approval.approved" else "approval.rejected") "approval" (ap_ID a)
    [("kind", JStr (ap_Kind a)); ("summary", JStr (ap_Summary a)); ("requested_by", JStr (ap_RequestedBy a)); ("reason", JStr reason)]%string.

Definition decision_error (e : approval_error) : response :=
  match e with ErrNotPending => Rejected 409 "not_pending" | ErrStore _ => Rejected 500 "internal" end.

(** The decision itself: who may make it, and its record. *)
Definition settleApproval (x : Ctx) (approve : bool) (id reason : string) : htx Approval :=
  do* tensure (slen reason <=? 500) (Rejected 400 "bad_request");
  do* stored (ExpireApprovals (cx_Now x));
  let* a := group_or_internal (GetApproval id) in
  let actor := cx_Admin (cx_Caller x) in
  do* tensure (negb (approve && String.eqb (ap_RequesterID a) (ad_ID actor))) (Rejected 403 "forbidden");
  tmap_err decision_error (fleet (InTx (
    let* a := DecideApproval id (if approve then ApprovalApproved else ApprovalRejected) (ad_Email actor) reason (cx_Now x) in
    do* InsertAudit (decided_audit approve (ad_Email actor) reason a);
    tret a))).

(** Doing what was approved, and how it went. *)
Definition replay (x : Ctx) (a : Approval) : htx (json * bool) := fun w => let (r, w) := replayApproval x a w in (Ok r, w).

Definition decideApproval (x : Ctx) (approve : bool) (raw reason : string) : htx response :=
  let* id := path_id raw in
  let* a := settleApproval x approve id reason in
  if negb approve then tret (Done 200)
  else
    let* (result, failed) := replay x a in
    do* stored (SetApprovalResult id (if failed : bool then ApprovalFailed else ApprovalApproved) result);
    tret (Done 200).

(** Listing marks what has lapsed; the page is not a change. *)
Definition listApprovals (x : Ctx) : htx response := do* stored (ExpireApprovals (cx_Now x)); tret (Done 200).

(** ** Serving *)

Definition handle (x : Ctx) (r : request) : htx response :=
  match r with
  | QueueCommand q => queueCommand x q
  | CreateAssignmentReq q => createAssignment x q
  | DeleteAssignmentReq id => deleteAssignment x id
  | CreateGroupReq q => createGroup x q
  | UpdateGroupReq id q => updateGroup x id q
  | DeleteGroupReq id => deleteGroup x id
  | AddGroupMemberReq id dev => addGroupMember x id dev
  | RemoveGroupMemberReq id dev => removeGroupMember x id dev
  | EvaluateGroupReq id => evaluateGroup x id
  | CreateScriptReq i => createScript x i
  | UpdateScriptReq id i => updateScript x id i
  | DeleteScriptReq id => deleteScript x id
  | CreateProfileReq i => createProfile x i
  | UpdateProfileReq id i => updateProfile x id i
  | DeleteProfileReq id => deleteProfile x id
  | CreateAppReq i => createApp x i
  | UpdateAppReq id i => updateApp x id i
  | DeleteAppReq id => deleteApp x id
  | UploadPackageReq body name => uploadAppPackage x body name
  | ServerUpdateReq v => requestServerUpdate x v
  | ListApprovalsReq => listApprovals x
  | DecideReq approve id reason => decideApproval x approve id reason
  end.

(** The guard, and behind it the handler. *)
Definition serve (x : Ctx) (r : request) (w : world) : response * world :=
  if may (route_of r) (cx_Caller x) then
    match handle x r w with (Ok a, w) => (a, w) | (Err a, w) => (a, w) end
  else (Rejected 403 "forbidden", w).

(** Requests one after another. *)
Fixpoint serve_all (l : list (Ctx * request)) (w : world) : world :=
  match l with
  | [] => w
  | (x, r) :: rest => serve_all rest (serve x r w).2
  end.
End Admin.
