(* ===== verification/AdminFrames.v ===== *)
(** * What the parts of a request leave alone

    The tables each operation of the stores and services keeps as they are, and
    with them every request that neither holds, nor queues, nor decides. *)
From S2P Require Import Settings Scripts AppSync AuthStore Access CommandProps CommandLife.
From S2P Require Export Admin.
From S2P Require Export AdminRequests.
From S2P Require Export FleetStore.
Open Scope Z_scope.
Open Scope go_scope.

(** ** Statements *)

Section Get.
Context (R : relation fdb) `{!PreOrder R}.

Lemma keeps_fget {E A} (f : fdb -> A) : tkeeps R (fget f : ftx E A).
Proof. intros d. simpl. reflexivity. Qed.

Lemma keeps_found {E A} (e : E) (o : option A) : tkeeps R (found e o).
Proof. destruct o; [apply keeps_ret|apply keeps_fail]; done. Qed.

Lemma keeps_fset {E} (f : fdb -> fdb) : (forall d, R d (f d)) -> tkeeps R (fset f : ftx E unit).
Proof. intros H d. apply H. Qed.
End Get.

(** A statement that writes one table, by computation. *)
Ltac statement := intros d; cbv beta delta [same fset fget tret tfail]; repeat case_match; reflexivity.

#[export] Hint Resolve keeps_fget keeps_found : frames.
#[export] Hint Extern 1 (tkeeps (same _) (fset _)) => statement : frames.
#[export] Hint Extern 1 (tkeeps (same _) (InsertAudit _)) => (unfold InsertAudit; statement) : frames.
#[export] Hint Extern 1 (tkeeps (same _) (GetGroup _)) => (unfold GetGroup; frames) : frames.

Section Statements.
Context {X : Type} (p : fdb -> X).
Context (audit : forall x d, p (set_f_audit x d) = p d).

Lemma keeps_audit_row {E} a : tkeeps (same p) (InsertAudit a : ftx E unit).
Proof. intros d. apply audit. Qed.

Section Groups.
Context (groups : forall x d, p (set_f_groups x d) = p d).

Lemma keeps_on_group {E} id f : tkeeps (same p) (on_group id f : ftx E unit).
Proof. intros d. apply groups. Qed.

Lemma keeps_insert_members id ids : tkeeps (same p) (insert_members id ids).
Proof. intros d. unfold insert_members. case_match; [apply groups|reflexivity]. Qed.

Lemma keeps_SetGroupMembers id ids now : tkeeps (same p) (SetGroupMembers id ids now).
Proof.
  unfold SetGroupMembers, markGroupEvaluated. pose proof @keeps_on_group. pose proof keeps_insert_members. frames.
Qed.

Lemma keeps_CreateGroup id g : tkeeps (same p) (CreateGroup id g).
Proof. intros d. unfold CreateGroup. case_match; [reflexivity|apply groups]. Qed.

Lemma keeps_UpdateGroup id g : tkeeps (same p) (UpdateGroup id g).
Proof. intros d. unfold UpdateGroup. repeat case_match; try reflexivity. apply groups. Qed.

Context (run_query : string -> list RuleCompile.arg -> fdb -> result store_error (list string)).

Lemma keeps_match rule now : tkeeps (same p) (match_ run_query rule now).
Proof. unfold match_, gs, MatchDevices. frames; intros d; reflexivity. Qed.

Lemma keeps_EvaluateGroup id g now : tkeeps (same p) (EvaluateGroup run_query id g now).
Proof.
  unfold EvaluateGroup, derived_members, gs, ActiveDeviceIDs. pose proof keeps_match. pose proof keeps_SetGroupMembers. frames.
Qed.

Lemma keeps_Get id : tkeeps (same p) (GroupService.Get id).
Proof. unfold GroupService.Get, gs, GetGroup. frames. Qed.

Lemma keeps_GetGroupByName name : tkeeps (same p) (GetGroupByName name).
Proof. unfold GetGroupByName. frames. Qed.

Hint Resolve keeps_audit_row keeps_on_group keeps_insert_members keeps_CreateGroup keeps_UpdateGroup keeps_EvaluateGroup keeps_Get keeps_GetGroupByName : frames.

Lemma keeps_Create new_id now g : tkeeps (same p) (GroupService.Create run_query new_id now g).
Proof. unfold GroupService.Create, gs. frames. Qed.

Lemma keeps_Update id now i : tkeeps (same p) (GroupService.Update run_query id now i).
Proof. unfold GroupService.Update, gs. frames. Qed.

Lemma keeps_AddMember id dev actor : tkeeps (same p) (AddMember id dev actor).
Proof. unfold AddMember, gs, GetDevice, AddGroupMember, SetDeviceGroupMembership. simpl negb. cbv iota. frames. Qed.

Lemma keeps_RemoveMember id dev actor : tkeeps (same p) (RemoveMember id dev actor).
Proof. unfold RemoveMember, gs, RemoveGroupMember, SetDeviceGroupMembership. simpl negb. cbv iota. frames. Qed.

Context (assignments : forall x d, p (set_f_assignments x d) = p d) (rollouts : forall x d, p (set_f_rollouts x d) = p d)
  (policy : forall x d, p (set_f_policy x d) = p d).

Lemma keeps_Delete id actor : tkeeps (same p) (GroupService.Delete id actor).
Proof.
  unfold GroupService.Delete, gs, DeleteGroup. frames. intros d. unfold same, fset. simpl. by rewrite groups, assignments, rollouts, policy.
Qed.
End Groups.

Section Assignments.
Context (assignments : forall x d, p (set_f_assignments x d) = p d).

Lemma keeps_CreateAssignment a : tkeeps (same p) (CreateAssignment a).
Proof. intros d. unfold CreateAssignment. repeat case_match; try reflexivity; apply assignments. Qed.

Lemma keeps_DeleteAssignment {E} id : tkeeps (same p) (DeleteAssignment id : ftx E unit).
Proof. intros d. apply assignments. Qed.

Lemma keeps_DeleteAssignmentsForItem kind id : tkeeps (same p) (DeleteAssignmentsForItem kind id).
Proof. intros d. apply assignments. Qed.

Hint Resolve keeps_audit_row keeps_CreateAssignment : frames.

Lemma keeps_saveAssignment a : tkeeps (same p) (saveAssignment a).
Proof. unfold saveAssignment, GetGroup. frames. Qed.
End Assignments.

Section Approvals.
Context (approvals : forall x d, p (set_f_approvals x d) = p d).

Lemma keeps_CreateApproval a : tkeeps (same p) (CreateApproval a).
Proof. intros d. unfold CreateApproval. case_match; [reflexivity|apply approvals]. Qed.
Lemma keeps_ExpireApprovals now : tkeeps (same p) (ExpireApprovals now).
Proof. intros d. apply approvals. Qed.
Lemma keeps_SetApprovalResult id status result : tkeeps (same p) (SetApprovalResult id status result).
Proof. intros d. apply approvals. Qed.
Lemma keeps_DecideApproval id status by_ reason now : tkeeps (same p) (DecideApproval id status by_ reason now).
Proof.
  intros d. unfold DecideApproval, GetApproval, tbind, fget, found, tret, tfail. repeat case_match; simplify_eq; try reflexivity.
  apply approvals.
Qed.
End Approvals.
End Statements.

#[export] Hint Extern 1 (tkeeps (same _) _) => first
  [ apply keeps_audit_row | apply keeps_CreateAssignment | apply keeps_DeleteAssignment | apply keeps_DeleteAssignmentsForItem
  | apply keeps_saveAssignment | apply keeps_CreateApproval | apply keeps_ExpireApprovals | apply keeps_SetApprovalResult
  | apply keeps_DecideApproval | apply keeps_EvaluateGroup | apply keeps_Get | apply keeps_Create | apply keeps_Update
  | apply keeps_AddMember | apply keeps_RemoveMember | apply keeps_Delete ]; reflexivity : frames.

(** ** The library *)

Section Library.
Context {D V B : Type} `{K : !Kind D V} (R : relation D) `{!PreOrder R}.
Context (shelves : forall E A (m : stx V E A), tkeeps R (zoom kind_shelf m)).
Context (audits : forall E a, tkeeps R (on_fleet (InsertAudit a) : txn D E unit)).

Lemma keeps_read_item {A} (m : stx V store_error A) : tkeeps R (read_item m : txn D (library_error B) A).
Proof. unfold read_item. frames. Qed.

Lemma keeps_name_free name id : tkeeps R (name_free name id : txn D (library_error B) unit).
Proof. unfold name_free. frames. Qed.

Hint Resolve keeps_read_item keeps_name_free : frames.

Lemma keeps_create i first details : tkeeps R (create i first details : txn D (library_error B) Item).
Proof. unfold create, on_shelf. frames. Qed.

Lemma keeps_Promote now id n actor : tkeeps R (Promote now id n actor : txn D (library_error B) Item).
Proof. unfold Promote, on_shelf, Library.Get, Version_. frames. Qed.

Lemma keeps_update prepare now id name description actor hold :
  tkeeps R (update prepare now id name description actor hold : txn D (library_error B) (Item * Z)).
Proof. unfold update, write_version, on_shelf, Library.Get. frames. Qed.

Lemma keeps_DeleteItem id actor :
  tkeeps R (on_fleet (DeleteAssignmentsForItem kind_name id) : txn D store_error unit) ->
  tkeeps R (Library.Delete id actor : txn D (library_error B) unit).
Proof. unfold Library.Delete, on_shelf, Library.Get. frames. Qed.
End Library.

(** ** The world *)

Section World.
Context {X : Type} (p : world -> X).

(** A table of the fleet's. *)
Lemma keeps_fleet {Y E A} (q : fdb -> Y) (m : ftx E A) :
  (forall f w, q f = q (w_fleet w) -> p (set_w_fleet f w) = p w) -> tkeeps (same q) m -> tkeeps (same p) (zoom fleet_part m).
Proof. intros H. apply keeps_zoom. intros w f Hf. by apply H. Qed.

(** A part of the world the reading does not look at. *)
Lemma keeps_elsewhere {F E A} (l : lens world F) (m : txn F E A) :
  (forall f w, p (put l f w) = p w) -> tkeeps (same p) (zoom l m).
Proof. intros H w. unfold zoom. destruct (m (look l w)) as [r f]. apply H. Qed.
End World.

Lemma set_same_fleet w : set_w_fleet (w_fleet w) w = w.
Proof. by destruct w. Qed.

(** The commands there are, and the approvals. *)
Definition calm_view (w : world) : list Command * list Approval := (t_commands (w_commands w), f_approvals (w_fleet w)).
Abbreviation calm := (same calm_view).

Lemma calm_fleet {E A} (m : ftx E A) : tkeeps (same f_approvals) m -> tkeeps calm (zoom fleet_part m).
Proof. apply keeps_fleet. intros f w Hf. unfold calm_view. simpl. by rewrite Hf. Qed.

#[export] Hint Extern 1 (tkeeps calm (fleet _)) => (unfold fleet; apply calm_fleet) : frames.
#[export] Hint Extern 1 (tkeeps calm (zoom fleet_part _)) => apply calm_fleet : frames.

Lemma calm_elsewhere {F E A} (l : lens world F) (m : txn F E A) :
  (forall f w, calm_view (put l f w) = calm_view w) -> tkeeps calm (zoom l m).
Proof. apply keeps_elsewhere. Qed.

(** ** What a request does to the approvals and the commands

    A request that decides nothing leaves what was asked before as it was, may
    ask for one thing more, and sends only what needs nobody else. A decision
    sends what one held request describes, and that request was another
    person's. *)

(** ** How the tables change *)

(** What was asked, by whom and when: never changed. *)
Definition asked_part (a : Approval) : string * string * json * string * string * string * time * time :=
  (ap_ID a, ap_Kind a, ap_Request a, ap_Summary a, ap_RequestedBy a, ap_RequesterID a, ap_CreatedAt a, ap_ExpiresAt a).

(** Every approval was there before, or is [ok]; an id is one approval's. *)
Definition asks (ok : Approval -> Prop) (l l' : list Approval) : Prop :=
  (forall a', a' ∈ l' -> exists a, asked_part a' = asked_part a /\ (a ∈ l \/ ok a)) /\
  (NoDup (map ap_ID l) -> NoDup (map ap_ID l')).

#[export] Instance asks_preorder ok : PreOrder (asks ok).
Proof.
  split; [intros l; split; [intros a Ha; by eauto|done]|]. intros l m n [H1 N1] [H2 N2]. split; [|by auto].
  intros a (b & E & [Hb|Hb])%H2; [|by eauto]. apply H1 in Hb as (c & E' & Hc). exists c. split; [congruence|done].
Qed.

(** Commands are added, each [ok]. *)
Definition extends {A} (ok : A -> Prop) (l l' : list A) : Prop := exists new, l' = l ++ new /\ Forall ok new.

#[export] Instance extends_preorder {A} (ok : A -> Prop) : PreOrder (extends ok).
Proof.
  split; [intros l; exists []; by rewrite app_nil_r|]. intros l m n (x & -> & Hx) (y & -> & Hy).
  exists (x ++ y). rewrite app_assoc. split; [done|by apply Forall_app].
Qed.

Lemma extends_mono {A} (ok ok' : A -> Prop) l l' : (forall x, ok x -> ok' x) -> extends ok l l' -> extends ok' l l'.
Proof. intros H (n & -> & Hn). exists n. split; [done|]. by eapply Forall_impl. Qed.

Lemma extends_elem {A} (ok : A -> Prop) l l' x : extends ok l l' -> x ∈ l' -> x ∈ l \/ ok x.
Proof. intros (n & -> & Hn) [H|H]%elem_of_app; [by left|right]. by eapply Forall_forall. Qed.

(** What a request does. *)
Definition acts (okA : Approval -> Prop) (okC : Command -> Prop) (w w' : world) : Prop :=
  asks okA (f_approvals (w_fleet w)) (f_approvals (w_fleet w')) /\ extends okC (t_commands (w_commands w)) (t_commands (w_commands w')).

#[export] Instance acts_preorder okA okC : PreOrder (acts okA okC).
Proof. split; [by split|]. intros a b c [H1 H2] [H3 H4]. split; etrans; done. Qed.

Lemma calm_acts okA okC w w' : calm w w' -> acts okA okC w w'.
Proof. intros H. unfold same, calm_view in H. injection H as E1 E2. unfold acts. rewrite E1, E2. split; reflexivity. Qed.

Lemma keeps_calm_acts {E A} okA okC (m : txn world E A) : tkeeps calm m -> tkeeps (acts okA okC) m.
Proof. intros H w. apply calm_acts, H. Qed.

(** A statement on the fleet's tables, by what it does to the approvals. *)
Definition asks_in (ok : Approval -> Prop) (d d' : fdb) : Prop := asks ok (f_approvals d) (f_approvals d').

#[export] Instance asks_in_preorder ok : PreOrder (asks_in ok).
Proof. unfold asks_in. split; [intros d; reflexivity|]. intros a b c Hab Hbc. by etrans. Qed.

Lemma keeps_acts_fleet {E A} okA okC (m : ftx E A) : tkeeps (asks_in okA) m -> tkeeps (acts okA okC) (zoom fleet_part m).
Proof. intros H w. unfold zoom. specialize (H (w_fleet w)). simpl. destruct (m (w_fleet w)) as [r f]. split; [done|reflexivity]. Qed.

Lemma asks_same ok l l' : map asked_part l' = map asked_part l -> asks ok l l'.
Proof.
  intros E. split.
  - intros a Ha. assert (asked_part a ∈ map asked_part l) as (b & Hb & Hi)%list_elem_of_fmap; [|by eauto].
    rewrite <- E. apply list_elem_of_fmap. by exists a.
  - assert (map ap_ID l' = map ap_ID l) as ->; [|done]. transitivity (map (fun t => t.1.1.1.1.1.1.1) (map asked_part l')).
    + by rewrite map_map.
    + by rewrite E, map_map.
Qed.

Lemma expire_asks ok now d : asks ok (f_approvals d) (f_approvals ((ExpireApprovals now d).2)).
Proof. apply asks_same. simpl. by apply update_where_map. Qed.

Lemma result_asks ok id st r d : asks ok (f_approvals d) (f_approvals ((SetApprovalResult id st r d).2)).
Proof. apply asks_same. simpl. by apply update_where_map. Qed.

Lemma decide_asks ok id st by_ why now d : asks ok (f_approvals d) (f_approvals ((DecideApproval id st by_ why now d).2)).
Proof.
  unfold DecideApproval. destruct (find _ _); simpl; [|unfold GetApproval, tbind, fget, found; destruct (find _ _); simpl; reflexivity].
  apply asks_same. by apply update_where_map.
Qed.

Lemma create_asks (ok : Approval -> Prop) a d : (forall b, asked_part b = asked_part a -> ok b) ->
  asks ok (f_approvals d) (f_approvals ((CreateApproval a d).2)).
Proof.
  intros H. unfold CreateApproval. destruct (existsb _ _) eqn:E; simpl; [reflexivity|].
  split; [intros a' [Ha|Ha%list_elem_of_singleton]%elem_of_app; exists a'; [by auto|]; split; [done|right]; subst; by apply H|].
  intros Hn. rewrite map_app. apply NoDup_app. split; [done|]. split; [|by apply NoDup_singleton].
  intros i Hi ->%list_elem_of_singleton. apply list_elem_of_fmap in Hi as (b & Hb & Hin).
  rewrite existsb_none in E. specialize (E b Hin). simpl in Hb. by rewrite Hb, String.eqb_refl in E.
Qed.

(** ** What a step that succeeded says *)

Lemma fleet_Ok {E A} (m : ftx E A) w a w' : fleet m w = (Ok a, w') -> exists f, m (w_fleet w) = (Ok a, f) /\ w' = set_w_fleet f w.
Proof. unfold fleet, zoom. simpl. destruct (m (w_fleet w)) as [[?|?] f]; naive_solver. Qed.

Lemma find_in {A} (p : A -> bool) l a : find p l = Some a -> a ∈ l /\ p a = true.
Proof. intros [H%list_elem_of_In ?]%find_some. done. Qed.

Lemma GetApproval_Ok id d a d' : GetApproval id d = (Ok a, d') -> a ∈ f_approvals d /\ ap_ID a = id /\ d' = d.
Proof.
  unfold GetApproval, tbind, fget, found. destruct (find _ _) as [b|] eqn:E; [|done]. intros [= <- <-].
  apply find_in in E as [E Hi%String.eqb_eq]. done.
Qed.

Lemma DecideApproval_Ok id st by_ why now d a d' : DecideApproval id st by_ why now d = (Ok a, d') ->
  exists b, b ∈ f_approvals d /\ ap_ID b = id /\ ap_Status b = ApprovalPending /\ now < ap_ExpiresAt b /\ a = decided st by_ why (Some now) b.
Proof.
  unfold DecideApproval. destruct (find _ _) as [b|] eqn:E; [|by destruct (GetApproval id d) as [[]]].
  intros [= <- _]. apply find_in in E as [E Hi]. unfold decidable in Hi. apply andb_true_iff in Hi as [[Hi Hs]%andb_true_iff Ht].
  apply String.eqb_eq in Hi, Hs. apply Z.ltb_lt in Ht. eauto 10.
Qed.

Lemma path_id_Ok uuid_Parse raw (w : world) id w' : path_id uuid_Parse raw w = (Ok id, w') -> uuid_Parse raw = Some id.
Proof. unfold path_id, not_found. destruct (uuid_Parse raw); unfold tret, tfail; congruence. Qed.

Lemma body_id_Ok uuid_Parse raw (w : world) id w' : body_id uuid_Parse raw w = (Ok id, w') -> uuid_Parse raw = Some id.
Proof. unfold body_id, bad_request_. destruct (uuid_Parse raw); unfold tret, tfail; congruence. Qed.

Lemma visible_ids_Ok uuid_Parse x raw w ids w' : visible_ids uuid_Parse x raw w = (Ok ids, w') -> parse_ids uuid_Parse raw = Some ids.
Proof.
  revert w ids w'. induction raw as [|s raw IH]; intros w ids w' H; simpl in *; [unfold tret in H; by injection H as <- <-|].
  txs. unfold body_id in H. destruct (uuid_Parse s) as [id|]; [|done]. txs. by rewrite (IH _ _ _ H1).
Qed.

(** ** Requests that neither ask nor send *)

(** A shelf of the world's, beside the approvals and the commands. *)
Class BesideApprovals {V} (K : Kind world V) : Prop := {
  shelf_calm E A (m : stx V E A) : tkeeps calm (zoom kind_shelf m);
  kind_fleet_is : kind_fleet = fleet_part }.

#[export] Instance scripts_beside : BesideApprovals script_kind.
Proof. split; [intros; by apply calm_elsewhere|done]. Qed.
#[export] Instance profiles_beside : BesideApprovals profile_kind.
Proof. split; [intros; by apply calm_elsewhere|done]. Qed.
#[export] Instance apps_beside : BesideApprovals app_kind.
Proof. split; [intros; by apply calm_elsewhere|done]. Qed.

Section Library.
Context {V B : Type} {K : Kind world V} `{!BesideApprovals K}.

Lemma calm_on_fleet {E A} (m : ftx E A) : tkeeps (same f_approvals) m -> tkeeps calm (on_fleet m).
Proof. intros H. unfold on_fleet. rewrite kind_fleet_is. by apply calm_fleet. Qed.

Lemma calm_audit E a : tkeeps calm (on_fleet (InsertAudit a) : txn world E unit).
Proof. apply calm_on_fleet. frames. Qed.

Lemma calm_create i first details : tkeeps calm (create i first details : txn world (library_error B) Item).
Proof. apply keeps_create; [typeclasses eauto|apply shelf_calm|apply calm_audit]. Qed.
Lemma calm_update prepare now id name description actor hold :
  tkeeps calm (update prepare now id name description actor hold : txn world (library_error B) (Item * Z)).
Proof. apply keeps_update; [typeclasses eauto|apply shelf_calm|apply calm_audit]. Qed.
Lemma calm_Promote now id n actor : tkeeps calm (Promote now id n actor : txn world (library_error B) Item).
Proof. apply keeps_Promote; [typeclasses eauto|apply shelf_calm|apply calm_audit]. Qed.
Lemma calm_Delete id actor : tkeeps calm (Library.Delete id actor : txn world (library_error B) unit).
Proof. apply keeps_DeleteItem; [typeclasses eauto|apply shelf_calm|apply calm_audit|]. apply calm_on_fleet. frames. Qed.
End Library.

#[export] Hint Extern 1 (tkeeps calm (create _ _ _)) => (apply calm_create; typeclasses eauto) : frames.
#[export] Hint Extern 1 (tkeeps calm (update _ _ _ _ _ _ _)) => (apply calm_update; typeclasses eauto) : frames.
#[export] Hint Extern 1 (tkeeps calm (Promote _ _ _ _)) => (apply calm_Promote; typeclasses eauto) : frames.
#[export] Hint Extern 1 (tkeeps calm (Library.Delete _ _)) => (apply calm_Delete; typeclasses eauto) : frames.
#[export] Hint Extern 1 (tkeeps calm (on_fleet _)) => (apply calm_on_fleet; frames) : frames.

Section Calm.
Context `{CR : Crypto, JT : JsonTime, CT : Certificates}.
Context (uuid_Parse : string -> option string) (json_text : json -> string) (hmac_sha256 : string -> string -> string).
Context (OperationsKeys : list PublicKey) (ServerKey : option Key) (PackagesDir : bool).
Context (run_query : string -> list RuleCompile.arg -> fdb -> result store_error (list string)).

Lemma calm_path_id raw : tkeeps calm (path_id uuid_Parse raw).
Proof. unfold path_id, not_found. frames. Qed.
Lemma calm_body_id raw : tkeeps calm (body_id uuid_Parse raw).
Proof. unfold body_id, bad_request_. frames. Qed.
Lemma calm_stored {A} (m : ftx store_error A) : tkeeps (same f_approvals) m -> tkeeps calm (stored m).
Proof. intros H. unfold stored. frames. Qed.
Lemma calm_group {A} (m : ftx group_error A) : tkeeps (same f_approvals) m -> tkeeps calm (group m).
Proof. intros H. unfold group. frames. Qed.
Lemma calm_group_or_internal {A} (m : ftx store_error A) : tkeeps (same f_approvals) m -> tkeeps calm (group_or_internal m).
Proof. intros H. unfold group_or_internal. frames. Qed.
Hint Resolve calm_path_id calm_body_id : frames.
(** Through a handler, one part after another. *)
Ltac calmly := repeat first [progress frames | apply calm_stored | apply calm_group | apply calm_group_or_internal | progress cbv zeta].

Lemma calm_createGroup x r : tkeeps calm (createGroup run_query x r).
Proof. unfold createGroup. calmly. Qed.
Lemma calm_deleteGroup x raw : tkeeps calm (deleteGroup uuid_Parse x raw).
Proof. unfold deleteGroup. calmly. Qed.
Lemma calm_removeGroupMember x raw dev : tkeeps calm (removeGroupMember uuid_Parse x raw dev).
Proof. unfold removeGroupMember. calmly. Qed.
Lemma calm_evaluateGroup x raw : tkeeps calm (evaluateGroup uuid_Parse run_query x raw).
Proof. unfold evaluateGroup. calmly. Qed.
Lemma calm_deleteAssignment x raw : tkeeps calm (deleteAssignment uuid_Parse x raw).
Proof. unfold deleteAssignment, GetAssignment. calmly. Qed.

Lemma calm_createScript x i : tkeeps calm (createScript json_text OperationsKeys x i).
Proof. unfold createScript, script, CreateScript. calmly. Qed.
Lemma calm_deleteScript x raw : tkeeps calm (deleteScript uuid_Parse x raw).
Proof. unfold deleteScript, script, DeleteScript. calmly. Qed.
Lemma calm_createProfile x i : tkeeps calm (createProfile json_text hmac_sha256 OperationsKeys ServerKey x i).
Proof. unfold createProfile, profile, CreateProfile. calmly. Qed.
Lemma calm_deleteProfile x raw : tkeeps calm (deleteProfile uuid_Parse x raw).
Proof. unfold deleteProfile, profile, DeleteProfile. calmly. Qed.
Lemma calm_validatePackage now i : tkeeps calm (validatePackage PackagesDir packages_part now i).
Proof. unfold validatePackage. calmly. intros w. unfold same. repeat case_match; reflexivity. Qed.
Lemma calm_version now i : tkeeps calm (version PackagesDir packages_part now i).
Proof. unfold version. pose proof calm_validatePackage. calmly. Qed.
Hint Resolve calm_version : frames.
Lemma calm_createApp x i : tkeeps calm (createApp json_text OperationsKeys PackagesDir x i).
Proof. unfold createApp, Admin.app, CreateApp. calmly. Qed.
Lemma calm_deleteApp x raw : tkeeps calm (deleteApp uuid_Parse x raw).
Proof. unfold deleteApp, Admin.app, DeleteApp. calmly. Qed.
Lemma calm_uploadAppPackage x body name : tkeeps calm (uploadAppPackage PackagesDir x body name).
Proof. unfold uploadAppPackage, Admin.app, UploadPackage. calmly. intros w. unfold same. repeat case_match; reflexivity. Qed.

(** ** Asking *)

(** What is held for a request, of which kind. *)
Definition asks_for (r : request) (kind : string) (body : json) : Prop :=
  match r with
  | QueueCommand q => kind = ApprovalCommand /\ body = queue_json q
  | CreateAssignmentReq q => kind = ApprovalAssignment /\ body = assignment_json q
  | UpdateGroupReq raw q => kind = ApprovalGroupRule /\ exists id, uuid_Parse raw = Some id /\ body = rule_request_json (mkRuleApproval id q)
  | AddGroupMemberReq raw dev => kind = ApprovalGroupMember /\
      exists id d, uuid_Parse raw = Some id /\ uuid_Parse dev = Some d /\ body = member_json (mkMemberApproval id d)
  | UpdateScriptReq raw _ => kind = ApprovalVersion /\ exists id n, uuid_Parse raw = Some id /\ body = version_json (mkVersionApproval ItemKindScript id n)
  | UpdateProfileReq raw _ => kind = ApprovalVersion /\ exists id n, uuid_Parse raw = Some id /\ body = version_json (mkVersionApproval ItemKindProfile id n)
  | UpdateAppReq raw _ => kind = ApprovalVersion /\ exists id n, uuid_Parse raw = Some id /\ body = version_json (mkVersionApproval ItemKindApp id n)
  | ServerUpdateReq _ => kind = ApprovalServerUpdate
  | _ => False
  end.

Definition asked_by (x : Ctx) (r : request) (a : Approval) : Prop :=
  ap_RequesterID a = person (cx_Caller x) /\ ap_RequestedBy a = email (cx_Caller x) /\ ap_CreatedAt a = cx_Now x /\
  ap_ExpiresAt a = Prelude.Add (cx_Now x) approvalTTL /\ asks_for r (ap_Kind a) (ap_Request a).

(** A command as one of a request's. *)
Definition sent (x : Ctx) (q : queueRequest) (actor : string) (ids : list string) (c : Command) : Prop :=
  c_Type c = qr_Type q /\ c_CreatedBy c = actor /\ c_CreatedAt c = cx_Now x /\ c_DeviceID c ∈ ids /\
  exists payload, payloadFor q = Some payload /\ normalizePayload (qr_Type q) payload = Ok (c_Payload c).

(** What a request may send on its own. *)
Definition sends_alone (x : Ctx) (r : request) (c : Command) : Prop :=
  exists q ids, r = QueueCommand q /\ parse_ids uuid_Parse (qr_DeviceIDs q) = Some ids /\ sent x q (email (cx_Caller x)) ids c /\ c_Type c <> CommandWipe.

Lemma holds_acts x okC id kind body summary (okA : Approval -> Prop) :
  (forall a, asked_part a = (id, kind, body, summary, email (cx_Caller x), person (cx_Caller x), cx_Now x, Prelude.Add (cx_Now x) approvalTTL) -> okA a) ->
  tkeeps (acts okA okC) (holdForApproval x id kind body summary).
Proof.
  intros H. unfold holdForApproval, stored, fleet. frames. unfold zoom. apply keeps_acts_fleet. intros d.
  pose proof (create_asks okA (mkApproval id kind body summary (email (cx_Caller x)) (person (cx_Caller x)) (cx_Now x)
    (Prelude.Add (cx_Now x) approvalTTL) ApprovalPending EmptyString None EmptyString None) d H) as Hc.
  unfold InTx, tbind. destruct (CreateApproval _ d) as [[[]|e] d']; [|reflexivity]. exact Hc.
Qed.

Lemma queueCommands_sends cs x q payload actor ids : payloadFor q = Some payload -> forall i w out e w',
  queueCommands cs x q payload actor i ids w = (out, e, w') ->
  w' = set_w_commands (w_commands w') w /\
  exists new, t_commands (w_commands w') = t_commands (w_commands w) ++ new /\ Forall (sent x q actor ids) new /\
    out = map (fun c => (c_ID c, c_DeviceID c)) new /\ (e = None -> map c_DeviceID new = ids).
Proof.
  intros Hp. induction ids as [|dev ids IH]; intros i w out e w' H; simpl in H.
  { injection H as <- <- <-. split; [by destruct w|]. exists []. by rewrite app_nil_r. }
  unfold commands_, zoom in H. simpl in H.
  destruct (Queue cs (Some (cx_Ids x i)) (cx_Now x) (queueOptions q payload dev actor) (w_commands w)) as [[c|er] d] eqn:E.
  - destruct (queueCommands cs x q payload actor (S i) ids (set_w_commands d w)) as [[out1 e1] w1] eqn:E1.
    injection H as <- <- <-. apply IH in E1 as (Hw & new & Hn & Hs & Hout & He). split; [by rewrite Hw|].
    pose proof E as (_ & payload' & ttl & j & device & Hq & _ & _ & _ & _ & -> & ->)%queue_Ok.
    exists (queued_row (queueOptions q payload dev actor) j (cx_Now x) payload' ttl :: new). simpl in Hn |- *.
    rewrite Hn, <- app_assoc. split; [done|]. split; [|split; [by rewrite Hout|intros Hnone; by rewrite He]].
    apply queue_checks_Ok in Hq as (Hpl & _). constructor.
    + unfold sent, queued_row, queueOptions in *. simpl in *. split_and!; try done; [by left|by eauto].
    + eapply Forall_impl; [exact Hs|]. intros c (?&?&?&?&?). unfold sent. split_and!; try done. by right.
  - apply queue_Err in E as ->. injection H as <- <- <-. split; [by destruct w|]. exists []. by rewrite app_nil_r.
Qed.

Section Served.
Context (checkServerUpdate : string -> result string string) (startServerUpdate : string -> string -> result string json).
Context (running_version : string) (error_text : failure -> string) (cs : Commands.Service) (h : Handler).
Hypothesis required : ApprovalsRequired h = true.

Lemma calm_check_all x q payload actor i ids : tkeeps calm (check_all cs x q payload actor i ids).
Proof.
  revert i. induction ids as [|dev ids IH]; intros i; simpl; frames.
  intros w. unfold commands_, zoom, commands_part. simpl.
  pose proof (check_step cs (Some (cx_Ids x i)) (cx_Now x) (queueOptions q payload dev actor) (w_commands w)) as Hc.
  destruct (Check_ _ _ _ _ _) as [r d]. simpl in *. by subst.
Qed.

Lemma calm_visible_ids x raw : tkeeps calm (visible_ids uuid_Parse x raw).
Proof. induction raw as [|s raw IH]; simpl; [frames|]. unfold deviceVisible, not_found, DeviceInScope. calmly. Qed.

Lemma queueCommand_acts x q : tkeeps (acts (asked_by x (QueueCommand q)) (sends_alone x (QueueCommand q))) (queueCommand uuid_Parse cs h x q).
Proof.
  unfold queueCommand. eapply keeps_bind; [typeclasses eauto|apply keeps_calm_acts; frames|intros []].
  destruct (payloadFor q) as [payload|] eqn:Hp; [|unfold bad_request_; frames].
  eapply keeps_bind; [typeclasses eauto|apply keeps_calm_acts; unfold command_allowed; frames|intros []].
  eapply (keeps_bind_with _ (fun ids => parse_ids uuid_Parse (qr_DeviceIDs q) = Some ids));
    [apply keeps_calm_acts, calm_visible_ids|by intros ? ? ?; apply visible_ids_Ok|]. intros ids Hids w.
  destruct (commandNeedsApproval h (cx_Now x) (email (cx_Caller x)) (qr_Type q) ids w) as [hold reach] eqn:Eh. destruct hold.
  - revert w Eh. intros w _. revert w. eapply keeps_bind; [typeclasses eauto|apply keeps_calm_acts, calm_check_all|intros []].
    apply holds_acts. intros a [= ? ? ? ? ? ? ? ?]. repeat split; congruence.
  - destruct (queueCommands cs x q payload (email (cx_Caller x)) 1 ids w) as [[out e] w'] eqn:Eq.
    apply (queueCommands_sends cs x q payload _ ids Hp) in Eq as (Hw & new & Hn & Hs & _).
    assert (acts (asked_by x (QueueCommand q)) (sends_alone x (QueueCommand q)) w w'); [|by destruct e].
    rewrite Hw. split; [reflexivity|]. simpl. rewrite Hn. exists new. split; [done|]. eapply Forall_impl; [exact Hs|].
    intros c Hc. exists q, ids. split_and!; try done. destruct Hc as (-> & _). intros Ht.
    unfold commandNeedsApproval in Eh. rewrite required, Ht in Eh. by vm_compute in Eh.
Qed.
(** The id a request names, or a refusal. *)
Lemma acts_path {A} okA okC raw (k : string -> txn world response A) :
  (forall id, uuid_Parse raw = Some id -> tkeeps (acts okA okC) (k id)) -> tkeeps (acts okA okC) (let* id := path_id uuid_Parse raw in k id).
Proof.
  intros H. eapply (keeps_bind_with _ (fun id => uuid_Parse raw = Some id)); [apply keeps_calm_acts, calm_path_id|by intros ? ? ?; apply path_id_Ok|done].
Qed.
Lemma acts_body {A} okA okC raw (k : string -> txn world response A) :
  (forall id, uuid_Parse raw = Some id -> tkeeps (acts okA okC) (k id)) -> tkeeps (acts okA okC) (let* id := body_id uuid_Parse raw in k id).
Proof.
  intros H. eapply (keeps_bind_with _ (fun id => uuid_Parse raw = Some id)); [apply keeps_calm_acts, calm_body_id|by intros ? ? ?; apply body_id_Ok|done].
Qed.

(** A step that changes nothing here, then another. *)
Ltac calm_step := eapply keeps_bind; [typeclasses eauto|apply keeps_calm_acts; calmly|].
Ltac held := apply holds_acts; let b := fresh "b" in intros b [= ? ? ? ? ? ? ? ?]; repeat split; eauto; congruence.

Lemma createAssignment_acts x q okC : tkeeps (acts (asked_by x (CreateAssignmentReq q)) okC) (createAssignment uuid_Parse h x q).
Proof.
  unfold createAssignment. destruct (parseAssignment _ _ _ _ _) as [a|e]; [|apply keeps_calm_acts; unfold bad_request_; frames].
  calm_step. intros []. eapply keeps_bind; [typeclasses eauto|apply keeps_calm_acts; unfold assignmentNeedsApproval, GetGroup, GroupMemberCount; calmly|].
  intros []; [held|]. apply keeps_calm_acts. calmly.
Qed.

Lemma rule_hold_calm x id q : tkeeps calm (rule_hold h x id q).
Proof. unfold rule_hold, ruleNeedsApproval, groupHasCode, GroupIncludesAnyOf. calmly. Qed.

Lemma updateGroup_acts x raw q okC : tkeeps (acts (asked_by x (UpdateGroupReq raw q)) okC) (updateGroup uuid_Parse run_query h x raw q).
Proof.
  unfold updateGroup. apply acts_path. intros id Hid.
  eapply keeps_bind; [typeclasses eauto|apply keeps_calm_acts, rule_hold_calm|]. intros [summary|]; [held|].
  apply keeps_calm_acts. calmly.
Qed.

Lemma member_hold_calm x id dev : tkeeps calm (member_hold h x id dev).
Proof. unfold member_hold, memberNeedsApproval, groupHasCode, GroupIncludesAnyOf, IsGroupMember, GroupMemberCount, GetDevice. calmly. Qed.

Lemma addGroupMember_acts x raw dev okC : tkeeps (acts (asked_by x (AddGroupMemberReq raw dev)) okC) (addGroupMember uuid_Parse h x raw dev).
Proof.
  unfold addGroupMember. apply acts_path. intros id Hid. apply acts_body. intros d Hd.
  eapply keeps_bind; [typeclasses eauto|apply keeps_calm_acts, member_hold_calm|]. intros [summary|].
  - apply holds_acts; intros a [= ? ? ? ? ? ? ? ?]. repeat split; try congruence. exists id, d. by split_and!.
  - apply keeps_calm_acts. calmly.
Qed.

Lemma update_item_acts x r kind id (held_update : txn world response (Item * Z)) (plain_update : txn world response Item) okC :
  (forall n, asks_for r ApprovalVersion (version_json (mkVersionApproval kind id n))) ->
  tkeeps calm held_update -> tkeeps calm plain_update -> tkeeps (acts (asked_by x r) okC) (update_item h x kind id held_update plain_update).
Proof.
  intros Hr Hh Hp. unfold update_item. eapply keeps_bind; [typeclasses eauto|apply keeps_calm_acts; unfold itemNeedsApproval, ItemReach; calmly|].
  intros []; [|by apply keeps_calm_acts; calmly].
  eapply keeps_bind; [typeclasses eauto|by apply keeps_calm_acts|]. intros [i n]. destruct (0 <? n); [|apply keeps_calm_acts; frames].
  unfold holdVersion. apply holds_acts. intros a [= E1 E2 E3 E4 E5 E6 E7 E8]. unfold asked_by. rewrite E2, E3. split_and!; done.
Qed.

Lemma updateScript_acts x raw i okC : tkeeps (acts (asked_by x (UpdateScriptReq raw i)) okC) (updateScript uuid_Parse json_text OperationsKeys h x raw i).
Proof.
  unfold updateScript. apply acts_path. intros id Hid. apply update_item_acts; [by simpl; eauto|..];
    unfold script, UpdateScriptHeld, UpdateScript, update_script; calmly.
Qed.

Lemma updateProfile_acts x raw i okC :
  tkeeps (acts (asked_by x (UpdateProfileReq raw i)) okC) (updateProfile uuid_Parse json_text hmac_sha256 OperationsKeys ServerKey h x raw i).
Proof.
  unfold updateProfile. apply acts_path. intros id Hid. apply update_item_acts; [by simpl; eauto|..];
    unfold profile, UpdateProfileHeld, UpdateProfile, update_profile; calmly.
Qed.

Lemma updateApp_acts x raw i okC : tkeeps (acts (asked_by x (UpdateAppReq raw i)) okC) (updateApp uuid_Parse json_text OperationsKeys PackagesDir h x raw i).
Proof.
  unfold updateApp. apply acts_path. intros id Hid. apply update_item_acts; [by simpl; eauto|..];
    unfold Admin.app, UpdateAppHeld, UpdateApp, update_app; calmly.
Qed.

Lemma requestServerUpdate_acts x v okC :
  tkeeps (acts (asked_by x (ServerUpdateReq v)) okC) (requestServerUpdate checkServerUpdate startServerUpdate running_version h x v).
Proof.
  unfold requestServerUpdate, refusal_. rewrite required. eapply keeps_bind; [typeclasses eauto|apply keeps_calm_acts; frames|]. intros latest. held.
Qed.

Lemma listApprovals_acts x okA okC : tkeeps (acts okA okC) (listApprovals x).
Proof.
  unfold listApprovals, stored, fleet. frames. unfold zoom. apply keeps_acts_fleet. intros d. apply expire_asks.
Qed.

(** ** Deciding *)

(** The request that is decided: one that was pending, and for an approval
    another person's. *)
Lemma settle_Ok x approve id reason w a w' : NoDup (map ap_ID (f_approvals (w_fleet w))) -> settleApproval x approve id reason w = (Ok a, w') ->
  exists a0, a0 ∈ f_approvals (w_fleet w) /\ asked_part a = asked_part a0 /\ ap_ID a = id /\ ap_Status a0 = ApprovalPending /\
    cx_Now x < ap_ExpiresAt a /\ (approve = true -> ap_RequesterID a <> ad_ID (cx_Admin (cx_Caller x))).
Proof.
  unfold settleApproval, stored, group_or_internal. intros Hn H. txs.
  repeat match goal with H : fleet _ _ = (Ok _, _) |- _ => apply fleet_Ok in H as (? & ? & ->) end.
  unfold ExpireApprovals, fset in H0. injection H0 as <- <-. cbn [set_w_fleet w_fleet] in *. txs.
  apply GetApproval_Ok in H1 as (Hx & Hi & ->). apply DecideApproval_Ok in H0 as (b & Hb & Hid & Hs & He & ->).
  cbn [set_f_approvals f_approvals] in *.
  assert (x4 = b) as ->.
  { eapply (NoDup_map_inj ap_ID); [|done|done|congruence]. by rewrite (update_where_map ap_ID). }
  apply elem_of_update_where in Hb as (a0 & Ha0 & E).
  destruct (lapsed (cx_Now x) a0) eqn:El; [subst b; by vm_compute in Hs|]. subst b.
  exists a0. split_and!; try done. intros ->. simpl in H2. apply negb_true_iff, String.eqb_neq in H2. done.
Qed.

(** What carrying out an approval sends. *)
Definition carries_out (x : Ctx) (a : Approval) (c : Command) : Prop :=
  ap_Kind a = ApprovalCommand /\ exists q ids, decode_struct false queue_fields (ap_Request a) zero_queueRequest = Ok q /\
    parse_ids uuid_Parse (qr_DeviceIDs q) = Some ids /\ sent x q (ap_RequestedBy a) ids c.

Abbreviation replay_ x a w := (replayApproval uuid_Parse run_query startServerUpdate error_text cs x a w).

(** A replay that changes tables as a transaction does. *)
Lemma attempt_calm {E A} (m : txn world E A) err ok w : tkeeps calm m -> calm w (attempt error_text m err ok w).2.
Proof. intros H. specialize (H w). unfold attempt. by destruct (m w) as [[?|?] ?]. Qed.

Lemma decoded_calm {S} (fs : list (field S)) z a k w : (forall r, calm w (k r w).2) -> calm w (decoded error_text fs z a k w).2.
Proof. intros H. unfold decoded. destruct (decode_struct _ _ _ _); [apply H|done]. Qed.

Lemma fleet_calm {E A} (m : ftx E A) : tkeeps (same f_approvals) m -> tkeeps calm (fleet m).
Proof. apply calm_fleet. Qed.

Lemma replayVersion_calm x a r w : calm w (replayVersion uuid_Parse error_text x a r w).2.
Proof.
  unfold replayVersion. destruct (uuid_Parse _); [|done].
  repeat (destruct (String.eqb _ _); [apply attempt_calm; unfold PromoteScript, PromoteProfile, PromoteApp; calmly|]). done.
Qed.
Lemma replayGroupMember_calm a r w : calm w (replayGroupMember uuid_Parse error_text a r w).2.
Proof. unfold replayGroupMember. destruct (uuid_Parse _); [|done]. destruct (uuid_Parse _); [|done]. apply attempt_calm, fleet_calm. frames. Qed.
Lemma replayGroupRule_calm x a r w : calm w (replayGroupRule uuid_Parse run_query error_text x a r w).2.
Proof. unfold replayGroupRule. destruct (uuid_Parse _); [|done]. apply attempt_calm, fleet_calm. frames. Qed.
Lemma replayAssignment_calm x a r w : calm w (replayAssignment uuid_Parse error_text x a r w).2.
Proof. unfold replayAssignment. destruct (parseAssignment _ _ _ _ _); [|done]. apply attempt_calm, fleet_calm. frames. Qed.
Lemma replayServerUpdate_calm a v w : calm w (replayServerUpdate startServerUpdate error_text a v w).2.
Proof. unfold replayServerUpdate. by destruct (startServerUpdate _ _). Qed.

Lemma replay_acts x a w : acts (fun _ => False) (carries_out x a) w (replay_ x a w).2.
Proof.
  unfold replayApproval. destruct (String.eqb_spec (ap_Kind a) ApprovalCommand) as [Hk|_].
  2: { apply calm_acts. repeat (destruct (String.eqb _ _); [apply decoded_calm; intros r;
         first [apply replayAssignment_calm|apply replayVersion_calm|apply replayGroupMember_calm|apply replayGroupRule_calm|apply replayServerUpdate_calm]|]). done. }
  unfold decoded. destruct (decode_struct _ _ _ _) as [q|] eqn:Hd; [|by apply calm_acts].
  unfold replayCommand. destruct (payloadFor q) as [payload|] eqn:Hp; [|by apply calm_acts].
  destruct (parse_ids _ _) as [ids|] eqn:Hi; [|by apply calm_acts].
  destruct (queueCommands _ _ _ _ _ _ _ w) as [[out e] w'] eqn:Eq.
  apply queueCommands_sends in Eq as (Hw & new & Hn & Hs & _); [|done]. simpl. rewrite Hw. split; [reflexivity|]. simpl.
  rewrite Hn. exists new. split; [done|]. eapply Forall_impl; [exact Hs|]. intros c Hc. split; [done|]. by exists q, ids.
Qed.

(** What a decision sends. *)
Definition sends_decided (x : Ctx) (approve : bool) (w : world) (c : Command) : Prop :=
  approve = true /\ exists a0 a, a0 ∈ f_approvals (w_fleet w) /\ asked_part a = asked_part a0 /\
    cx_Now x < ap_ExpiresAt a /\ ap_RequesterID a <> ad_ID (cx_Admin (cx_Caller x)) /\ carries_out x a c.

Abbreviation decide_ x approve raw reason := (decideApproval uuid_Parse run_query startServerUpdate error_text cs x approve raw reason).

Lemma settle_asks x approve id reason okA okC : tkeeps (acts okA okC) (settleApproval x approve id reason).
Proof.
  unfold settleApproval, stored, fleet.
  eapply keeps_bind; [typeclasses eauto|frames|intros []].
  eapply keeps_bind; [typeclasses eauto|apply keeps_map_err, keeps_acts_fleet; intros d; apply expire_asks|intros []].
  eapply keeps_bind; [typeclasses eauto|apply keeps_calm_acts; unfold GetApproval; calmly|intros a].
  eapply keeps_bind; [typeclasses eauto|frames|intros []].
  apply keeps_map_err, keeps_acts_fleet, keeps_InTx; [typeclasses eauto|].
  eapply keeps_bind; [typeclasses eauto|intros d; apply decide_asks|intros b].
  eapply keeps_bind; [typeclasses eauto|intros d; unfold asks_in; cbn; reflexivity|intros []]. frames.
Qed.

Lemma result_acts okA okC id status result : tkeeps (acts okA okC) (do* stored (SetApprovalResult id status result); tret (Done 200)).
Proof.
  eapply keeps_bind; [typeclasses eauto| |frames]. unfold stored, fleet. apply keeps_map_err, keeps_acts_fleet.
  intros d. apply result_asks.
Qed.

Lemma replay_then_acts x a id : tkeeps (acts (fun _ => False) (carries_out x a))
  (let* (result, failed) := replay uuid_Parse run_query startServerUpdate error_text cs x a in
   do* stored (SetApprovalResult id (if failed : bool then ApprovalFailed else ApprovalApproved) result); tret (Done 200)).
Proof.
  eapply keeps_bind; [typeclasses eauto| |intros [result bad]; apply result_acts].
  intros w. unfold replay. pose proof (replay_acts x a w) as H. by destruct (replay_ x a w).
Qed.

(** A decision: nothing is asked for, and what is sent was another's request. *)
Lemma decideApproval_acts x approve raw reason w : NoDup (map ap_ID (f_approvals (w_fleet w))) ->
  acts (fun _ => False) (sends_decided x approve w) w (decide_ x approve raw reason w).2.
Proof.
  intros Hn. unfold decideApproval, tbind.
  pose proof (calm_acts (fun _ => False) (sends_decided x approve w) _ _ (calm_path_id raw w)) as H1.
  destruct (path_id uuid_Parse raw w) as [[id|e] w1] eqn:E1; [|exact H1].
  assert (w1 = w) as -> by (unfold path_id, not_found in E1; destruct (uuid_Parse raw); unfold tret, tfail in E1; congruence). clear H1.
  pose proof (settle_asks x approve id reason (fun _ => False) (sends_decided x approve w) w) as H2.
  destruct (settleApproval x approve id reason w) as [[a|e] w2] eqn:E2; [|exact H2]. simpl in H2.
  destruct approve; [|exact H2]. etrans; [exact H2|].
  apply settle_Ok in E2 as (a0 & Ha0 & Ea & _ & _ & Hlive & Hne); [|done]. specialize (Hne eq_refl).
  destruct (replay_then_acts x a id w2) as [H3 H4]. split; [exact H3|]. eapply extends_mono; [|exact H4].
  intros c Hc. split; [done|]. by exists a0, a.
Qed.

(** *** Any request *)

Abbreviation serve_ x r w :=
  (serve uuid_Parse json_text hmac_sha256 OperationsKeys ServerKey PackagesDir run_query checkServerUpdate startServerUpdate running_version error_text cs h x r w).

Definition sends (x : Ctx) (r : request) (w : world) (c : Command) : Prop :=
  match r with DecideReq approve _ _ => may (route_of r) (cx_Caller x) = true /\ sends_decided x approve w c | _ => sends_alone x r c end.

Lemma serve_acts x r w : NoDup (map ap_ID (f_approvals (w_fleet w))) -> acts (asked_by x r) (sends x r w) w (serve_ x r w).2.
Proof.
  intros Hn. unfold serve. destruct (may (route_of r) (cx_Caller x)) eqn:Hm; [|by apply calm_acts].
  assert (acts (asked_by x r) (sends x r w) w (handle uuid_Parse json_text hmac_sha256 OperationsKeys ServerKey PackagesDir run_query
    checkServerUpdate startServerUpdate running_version error_text cs h x r w).2) as H; [|by destruct (handle _ _ _ _ _ _ _ _ _ _ _ _ _ _ _ _)  as [[|] ?]].
  destruct r; simpl handle; first
    [ apply queueCommand_acts | apply createAssignment_acts | apply updateGroup_acts | apply addGroupMember_acts | apply updateScript_acts
    | apply updateProfile_acts | apply updateApp_acts | apply requestServerUpdate_acts | apply listApprovals_acts
    | apply calm_acts; first [ apply calm_deleteAssignment | apply calm_createGroup | apply calm_deleteGroup | apply calm_removeGroupMember
        | apply calm_evaluateGroup | apply calm_createScript | apply calm_deleteScript | apply calm_createProfile | apply calm_deleteProfile
        | apply calm_createApp | apply calm_deleteApp | apply calm_uploadAppPackage ]
    | idtac ].
  destruct (decideApproval_acts x approve id reason w Hn) as [[H1 H1'] H2]. split.
  - split; [|done]. intros a' (b & E & [Hb|[]])%H1. by eauto.
  - eapply extends_mono; [|done]. by intros c Hc.
Qed.
End Served.
End Calm.
