(* ===== verification/LibraryLife.v ===== *)
(** * What happens to a thing in the library

    Scripts, profiles and apps alike: versions are numbered upwards and never
    changed, the current one is always there and only moves forward, and an
    update that is held leaves it where it is. *)
From S2P Require Import Settings Scripts AppSync AuthStore Access CommandProps CommandLife.
From S2P Require Export AdminFrames.
From S2P Require Export Library.
From S2P Require Export FleetStore.
Open Scope Z_scope.
Open Scope go_scope.

Section Shelf.
Context {V : Type}.
Implicit Types s : shelf V.

Definition key (v : Version V) : string * Z := (v_Item v, v_Number v).

(** The tables are consistent: keys are unique, names too, a version is its
    item's and the current version is there. *)
Record kept_well s : Prop := {
  kw_ids : NoDup (map i_ID (sh_items s));
  kw_names : NoDup (map (fun i => ToLower (i_Name i)) (sh_items s));
  kw_keys : NoDup (map key (sh_versions s));
  kw_current i : i ∈ sh_items s -> exists v, v ∈ sh_versions s /\ key v = (i_ID i, i_CurrentVersion i);
  kw_version v : v ∈ sh_versions s -> 1 <= v_Number v /\ exists i, i ∈ sh_items s /\ i_ID i = v_Item v }.

(** What stays of an item, as long as it is not deleted. *)
Definition goes_on (id : string) s s' : Prop :=
  forall i, i ∈ sh_items s -> i_ID i = id ->
    (exists i', i' ∈ sh_items s' /\ i_ID i' = id /\ i_CreatedAt i' = i_CreatedAt i /\ i_CreatedBy i' = i_CreatedBy i /\
       i_CurrentVersion i <= i_CurrentVersion i') /\
    (forall v, v ∈ sh_versions s -> v_Item v = id -> v ∈ sh_versions s').

#[export] Instance goes_on_preorder id : PreOrder (goes_on id).
Proof.
  split; [intros s i Hi Hid; split; [exists i; by split_and!|done]|]. intros a b c H1 H2 i Hi Hid.
  destruct (H1 i Hi Hid) as [(i1 & Hi1 & Hid1 & Ha & Hb & Hc) Hv1]. destruct (H2 i1 Hi1 Hid1) as [(i2 & Hi2 & Hid2 & Ha2 & Hb2 & Hc2) Hv2].
  split; [exists i2; split_and!; try done; [congruence|congruence|lia]|auto].
Qed.

Lemma CreateItem_Ok i s u s' : CreateItem i s = (Ok u, s') ->
  (forall o, o ∈ sh_items s -> i_ID o <> i_ID i /\ ToLower (i_Name o) <> ToLower (i_Name i)) /\
  exists row, s' = set_sh_items (sh_items s ++ [row]) s /\ i_ID row = i_ID i /\ i_Name row = i_Name i /\ i_CurrentVersion row = i_CurrentVersion i.
Proof.
  unfold CreateItem. destruct (existsb _ _) eqn:E1; simpl; [done|]. destruct (existsb (has_name _) _) eqn:E2; [done|]. intros [= _ <-].
  rewrite existsb_none in E1, E2. split; [|by eexists].
  intros o Ho. specialize (E1 o Ho). specialize (E2 o Ho). unfold has_id, has_name in *. apply String.eqb_neq in E1, E2. done.
Qed.

Lemma CreateVersion_Ok (v : Version V) s u s' : CreateVersion v s = (Ok u, s') ->
  s' = set_sh_versions (sh_versions s ++ [v]) s /\ (exists i, i ∈ sh_items s /\ i_ID i = v_Item v) /\
  (forall w, w ∈ sh_versions s -> key w <> key v).
Proof.
  unfold CreateVersion. destruct (existsb _ _) eqn:E1; [done|]. destruct (existsb (has_id _) _) eqn:E2; [|done]. intros [= _ <-].
  split; [done|]. apply existsb_elem in E2 as (i & Hi & E%String.eqb_eq). split; [by exists i|].
  intros w Hw [= Ea Eb]. rewrite existsb_none in E1. specialize (E1 w Hw). unfold is_version in E1.
  by rewrite Ea, Eb, String.eqb_refl, Z.eqb_refl in E1.
Qed.

Lemma UpdateItem_Ok i s u s' : UpdateItem i s = (Ok u, s') ->
  s' = set_sh_items (update_where (has_id (i_ID i)) (rewrite_item i) (sh_items s)) s /\
  ((exists o, o ∈ sh_items s /\ i_ID o = i_ID i) -> forall o, o ∈ sh_items s -> i_ID o <> i_ID i -> ToLower (i_Name o) <> ToLower (i_Name i)).
Proof.
  unfold UpdateItem. destruct (_ && _) eqn:E; [done|]. intros [= _ <-]. split; [done|]. intros (x & Hx & Ex) o Ho Hne.
  apply andb_false_iff in E as [E|E]; rewrite existsb_none in E.
  - specialize (E x Hx). unfold has_id in E. by rewrite Ex, String.eqb_refl in E.
  - specialize (E o Ho). unfold has_id, has_name in E. apply String.eqb_neq in Hne. rewrite Hne in E. by apply String.eqb_neq in E.
Qed.

Lemma GetItem_Ok id s i s' : (GetItem id : stx V _ _) s = (Ok i, s') -> s' = s /\ i ∈ sh_items s /\ i_ID i = id.
Proof.
  unfold GetItem, tbind, sget, sfound. destruct (find _ _) as [x|] eqn:E; [|done]. intros [= <- <-].
  apply find_some in E as [E Ei]. split; [done|]. split; [by apply list_elem_of_In|by apply String.eqb_eq].
Qed.

Lemma GetVersion_Ok id n s (v : Version V) s' : GetVersion id n s = (Ok v, s') -> s' = s /\ v ∈ sh_versions s /\ key v = (id, n).
Proof.
  unfold GetVersion, tbind, sget, sfound. destruct (find _ _) as [x|] eqn:E; [|done]. intros [= <- <-].
  apply find_some in E as [E Ei]. split; [done|]. split; [by apply list_elem_of_In|]. unfold is_version in Ei.
  apply andb_true_iff in Ei as [E1%String.eqb_eq E2%Z.eqb_eq]. unfold key. congruence.
Qed.

Lemma latest_le l (v : Version V) : v ∈ l -> v_Number v <= fold_right Z.max 0 (map v_Number l).
Proof. induction l as [|x l IH]; simpl; [by intros ?%elem_of_nil|]. intros [->|H]%elem_of_cons; [lia|]. specialize (IH H). lia. Qed.

Lemma LatestVersion_Ok id s n s' : LatestVersion id s = (Ok n : result store_error Z, s') -> s' = s /\ 0 <= n /\
  forall v, v ∈ sh_versions s -> v_Item v = id -> v_Number v <= n.
Proof.
  unfold LatestVersion, sget. intros [= <- <-]. split; [done|]. split.
  - induction (List.filter _ _) as [|x l IH]; simpl; lia.
  - intros v Hv He. apply latest_le, elem_of_filterb. split; [done|]. by apply String.eqb_eq.
Qed.

(** *** The three ways the tables change *)

Lemma new_item_kept s i (v : Version V) : kept_well s ->
  (forall o, o ∈ sh_items s -> i_ID o <> i_ID i /\ ToLower (i_Name o) <> ToLower (i_Name i)) ->
  key v = (i_ID i, i_CurrentVersion i) -> 1 <= v_Number v -> (forall w, w ∈ sh_versions s -> key w <> key v) ->
  kept_well (mkShelf (sh_items s ++ [i]) (sh_versions s ++ [v])).
Proof.
  intros [H1 H2 H3 H4 H5] Hnew Hk Hn Hv. split; simpl.
  - rewrite map_app. apply NoDup_app. split; [done|]. split; [|by apply NoDup_singleton].
    intros x (o & -> & Ho)%list_elem_of_fmap Hx%list_elem_of_singleton. by destruct (Hnew o Ho).
  - rewrite map_app. apply NoDup_app. split; [done|]. split; [|by apply NoDup_singleton].
    intros x (o & -> & Ho)%list_elem_of_fmap Hx%list_elem_of_singleton. by destruct (Hnew o Ho).
  - rewrite map_app. apply NoDup_app. split; [done|]. split; [|by apply NoDup_singleton].
    intros x (w & -> & Hw)%list_elem_of_fmap Hx%list_elem_of_singleton. by apply (Hv w).
  - intros j [Hj|Hj%list_elem_of_singleton]%elem_of_app.
    + destruct (H4 j Hj) as (w & Hw & E). exists w. split; [apply elem_of_app; by left|done].
    + subst. exists v. split; [apply elem_of_app; right; by apply list_elem_of_singleton|done].
  - intros w [Hw|Hw%list_elem_of_singleton]%elem_of_app.
    + destruct (H5 w Hw) as (? & j & Hj & E). split; [done|]. exists j. split; [apply elem_of_app; by left|done].
    + subst. split; [done|]. exists i. split; [apply elem_of_app; right; by apply list_elem_of_singleton|]. unfold key in Hk. congruence.
Qed.

Lemma new_version_kept s (v : Version V) : kept_well s -> 1 <= v_Number v -> (exists i, i ∈ sh_items s /\ i_ID i = v_Item v) ->
  (forall w, w ∈ sh_versions s -> key w <> key v) -> kept_well (set_sh_versions (sh_versions s ++ [v]) s).
Proof.
  intros [H1 H2 H3 H4 H5] Hn Hi Hv. split; simpl; try done.
  - rewrite map_app. apply NoDup_app. split; [done|]. split; [|by apply NoDup_singleton].
    intros x (w & -> & Hw)%list_elem_of_fmap Hx%list_elem_of_singleton. by apply (Hv w).
  - intros j Hj. destruct (H4 j Hj) as (w & Hw & E). exists w. split; [apply elem_of_app; by left|done].
  - intros w [Hw|Hw%list_elem_of_singleton]%elem_of_app; [by apply H5|by subst].
Qed.

Lemma new_version_goes_on id s (v : Version V) : goes_on id s (set_sh_versions (sh_versions s ++ [v]) s).
Proof.
  intros i Hi Hid. split; [exists i; by split_and!|]. intros w Hw _. simpl. apply elem_of_app. by left.
Qed.

Lemma rewritten_kept s i : kept_well s -> (exists v, v ∈ sh_versions s /\ key v = (i_ID i, i_CurrentVersion i)) ->
  (forall o, o ∈ sh_items s -> i_ID o <> i_ID i -> ToLower (i_Name o) <> ToLower (i_Name i)) ->
  kept_well (set_sh_items (update_where (has_id (i_ID i)) (rewrite_item i) (sh_items s)) s).
Proof.
  intros [H1 H2 H3 H4 H5] Hv Hname. split; simpl; try done.
  - by rewrite (update_where_map i_ID).
  - apply (NoDup_map_by (fun o => i_ID o)); [by rewrite (update_where_map i_ID)|].
    intros x y (a & Ha & ->)%elem_of_update_where (b & Hb & ->)%elem_of_update_where.
    unfold has_id. destruct (String.eqb_spec (i_ID a) (i_ID i)) as [Ea|Na], (String.eqb_spec (i_ID b) (i_ID i)) as [Eb|Nb]; simpl.
    + congruence.
    + intros E. exfalso. by apply (Hname b Hb Nb).
    + intros E. exfalso. by apply (Hname a Ha Na).
    + intros E. assert (a = b) as ->; [|done]. eapply (NoDup_map_inj (fun i => ToLower (i_Name i))); done.
  - intros j (o & Ho & ->)%elem_of_update_where. unfold has_id. destruct (String.eqb_spec (i_ID o) (i_ID i)) as [E|N]; simpl.
    + rewrite E. apply Hv.
    + by apply H4.
  - intros w Hw. destruct (H5 w Hw) as (? & o & Ho & E). split; [done|].
    eexists. split; [by apply update_where_in|]. by destruct (has_id _ _).
Qed.

Lemma rewritten_goes_on id s i : (forall o, o ∈ sh_items s -> i_ID o = i_ID i -> i_CurrentVersion o <= i_CurrentVersion i) ->
  goes_on id s (set_sh_items (update_where (has_id (i_ID i)) (rewrite_item i) (sh_items s)) s).
Proof.
  intros H o Ho Hid. split; [|done]. eexists. split; [by apply update_where_in|]. unfold has_id.
  destruct (String.eqb_spec (i_ID o) (i_ID i)) as [E|N]; simpl; [|by split_and!]. split_and!; try done. by apply H.
Qed.

Lemma deleted_kept s id : kept_well s ->
  kept_well (mkShelf (List.filter (fun i => negb (has_id id i)) (sh_items s)) (List.filter (fun v => negb (String.eqb (v_Item v) id)) (sh_versions s))).
Proof.
  intros [H1 H2 H3 H4 H5]. split; simpl; try (by apply NoDup_map_filter).
  - intros i [Hi Hn%negb_true_iff]%elem_of_filterb. destruct (H4 i Hi) as (v & Hv & E). exists v. split; [|done].
    apply elem_of_filterb. split; [done|]. unfold key in E. injection E as -> _. unfold has_id in Hn. by rewrite Hn.
  - intros v [Hv Hn%negb_true_iff]%elem_of_filterb. destruct (H5 v Hv) as (? & i & Hi & E). split; [done|]. exists i. split; [|done].
    apply elem_of_filterb. split; [done|]. unfold has_id. by rewrite E, Hn.
Qed.

Lemma deleted_goes_on id id' s : id <> id' ->
  goes_on id s (mkShelf (List.filter (fun i => negb (has_id id' i)) (sh_items s)) (List.filter (fun v => negb (String.eqb (v_Item v) id')) (sh_versions s))).
Proof.
  intros Hne i Hi Hid. split.
  - exists i. split_and!; try done. apply elem_of_filterb. split; [done|]. unfold has_id. rewrite Hid. by apply String.eqb_neq in Hne as ->.
  - intros v Hv E. apply elem_of_filterb. split; [done|]. rewrite E. by apply String.eqb_neq in Hne as ->.
Qed.
End Shelf.

(** What a step may do to a shelf, deleting only what [gone] says. *)
Definition moves {V} (gone : string -> Prop) (s s' : shelf V) : Prop :=
  kept_well s -> kept_well s' /\ forall id, ~ gone id -> goes_on id s s'.

#[export] Instance moves_preorder {V} gone : PreOrder (moves (V := V) gone).
Proof.
  split; [by intros s Hs; split|]. intros a b c H1 H2 Ha. destruct (H1 Ha) as [Hb G1]. destruct (H2 Hb) as [Hc G2].
  split; [done|]. intros id Hid. etrans; [by apply G1|by apply G2].
Qed.

(** ** The operations of a service *)

(** A kind's tables are where it says, apart from the fleet's. *)
Class KindLaws {D V} (K : Kind D V) : Prop := {
  shelf_there s d : look kind_shelf (put kind_shelf s d) = s;
  shelf_over s s' d : put kind_shelf s' (put kind_shelf s d) = put kind_shelf s' d;
  shelf_same d : put kind_shelf (look kind_shelf d) d = d }.

Section Operations.
Context {D V B : Type} `{L : !KindLaws (D := D) (V := V) K} (gone : string -> Prop) (R : relation D) `{!PreOrder R}.
Context (shelf_step : forall d s, moves gone (look kind_shelf d) s -> R d (put kind_shelf s d)).
Context (fleet_step : forall d f, R d (put kind_fleet f d)).
Local Abbreviation ltx := (txn D (library_error B)).

Lemma on_shelf_Ok {A} (m : stx V store_error A) d a d' : (on_shelf m : ltx A) d = (Ok a, d') ->
  exists s, m (look kind_shelf d) = (Ok a, s) /\ d' = put kind_shelf s d.
Proof. unfold on_shelf, tmap_err, zoom. destruct (m (look kind_shelf d)) as [[x|e] s]; [|done]. intros [= <- <-]. by exists s. Qed.

Lemma read_Ok {A} (m : stx V store_error A) d a d' : (read_item m : ltx A) d = (Ok a, d') ->
  exists s, m (look kind_shelf d) = (Ok a, s) /\ d' = put kind_shelf s d.
Proof. unfold read_item, tmap_err, zoom. destruct (m (look kind_shelf d)) as [[x|e] s]; [|done]. intros [= <- <-]. by exists s. Qed.

(** A statement that leaves the shelf as it is. *)
Lemma reads_keep {A} (m : stx V store_error A) : (forall s, (m s).2 = s) -> tkeeps R (read_item m : ltx A).
Proof.
  intros Hm. unfold read_item. apply keeps_map_err. intros d. unfold zoom. pose proof (Hm (look kind_shelf d)) as E.
  destruct (m (look kind_shelf d)) as [r s]. simpl in *. apply shelf_step. by rewrite E.
Qed.

Lemma looks_keep {E F A} (m : stx V E A) : (forall s, (m s).2 = s) -> tkeeps R (tattempt (zoom kind_shelf m) : txn D F _).
Proof.
  intros Hm. apply keeps_attempt. intros d. unfold zoom. pose proof (Hm (look kind_shelf d)) as E1.
  destruct (m (look kind_shelf d)) as [r s]. simpl in *. apply shelf_step. by rewrite E1.
Qed.

Lemma GetItem_reads id (s : shelf V) : (GetItem id s : result store_error _ * _).2 = s.
Proof. unfold GetItem, tbind, sget, sfound. by destruct (find _ _). Qed.
Lemma GetItemByName_reads name (s : shelf V) : (GetItemByName name s : result store_error _ * _).2 = s.
Proof. unfold GetItemByName, tbind, sget, sfound. by destruct (find _ _). Qed.
Lemma GetVersion_reads id n (s : shelf V) : (GetVersion id n s : result store_error _ * _).2 = s.
Proof. unfold GetVersion, tbind, sget, sfound. by destruct (find _ _). Qed.

Lemma on_fleet_keeps {E A} (m : ftx E A) : tkeeps R (on_fleet m).
Proof. intros d. unfold on_fleet, zoom. destruct (m _) as [r f]. apply fleet_step. Qed.

Lemma name_free_keeps name id : tkeeps R (name_free name id : ltx unit).
Proof.
  unfold name_free. eapply keeps_bind; [typeclasses eauto|apply looks_keep, GetItemByName_reads|]. intros o. frames.
Qed.

Lemma shelf_Get_Ok id d i d' : (Library.Get id : ltx Item) d = (Ok i, d') ->
  look kind_shelf d' = look kind_shelf d /\ i ∈ sh_items (look kind_shelf d') /\ i_ID i = id.
Proof.
  unfold Library.Get. intros (s & Hs & ->)%read_Ok. apply GetItem_Ok in Hs as (-> & Hi & He). rewrite shelf_there. by split_and!.
Qed.

Lemma name_free_looks name id d u d' : (name_free name id : ltx unit) d = (Ok u, d') -> look kind_shelf d' = look kind_shelf d.
Proof.
  unfold name_free, tbind, tattempt, zoom. pose proof (GetItemByName_reads name (look kind_shelf d)) as E.
  destruct (GetItemByName name (look kind_shelf d)) as [r s]. simpl in E. subst s.
  intros H. destruct r as [o|[]], id; simpl in H; unfold tensure, tret, tfail in H; repeat case_match; simplify_eq; apply shelf_there.
Qed.

(** The row of an item written over, forward. *)
Lemma UpdateItem_moves i s u s' : UpdateItem i s = (Ok u, s') -> (kept_well s ->
    (exists o, o ∈ sh_items s /\ i_ID o = i_ID i) /\
    (exists v, v ∈ sh_versions s /\ key v = (i_ID i, i_CurrentVersion i)) /\
    (forall o, o ∈ sh_items s -> i_ID o = i_ID i -> i_CurrentVersion o <= i_CurrentVersion i)) -> moves (V := V) gone s s'.
Proof.
  intros [-> Hname]%UpdateItem_Ok H Hk. destruct (H Hk) as (Ho & Hv & Hc).
  split; [by apply rewritten_kept; auto|]. intros id _. by apply rewritten_goes_on.
Qed.

(** Nothing written, by a transaction that fails. *)
Lemma keeps_InTx_Ok {A} (m : ltx A) d : (forall a d', m d = (Ok a, d') -> R d d') -> R d (InTx m d).2.
Proof. intros H. unfold InTx. destruct (m d) as [[a|e] d'] eqn:E; simpl; [by eapply H|reflexivity]. Qed.

Lemma keeps_Ok {E A} (m : txn D E A) d a d' : tkeeps R m -> m d = (Ok a, d') -> R d d'.
Proof. intros Hm E1. specialize (Hm d). by rewrite E1 in Hm. Qed.

Lemma create_keeps i first details : key first = (i_ID i, i_CurrentVersion i) -> 1 <= v_Number first ->
  tkeeps R (create i first details : ltx Item).
Proof.
  intros Hk Hn. unfold create. eapply keeps_bind; [typeclasses eauto| |frames]. intros d. apply keeps_InTx_Ok. intros u d' H. txs.
  rename H into Hname. apply on_shelf_Ok in H0 as (s1 & H0 & ->). apply on_shelf_Ok in H1 as (s2 & H1 & ->).
  etrans; [by eapply keeps_Ok; [apply name_free_keeps|exact Hname]|]. apply name_free_looks in Hname.
  etrans; [|by eapply keeps_Ok; [apply on_fleet_keeps|exact H2]]. rewrite shelf_over. apply shelf_step.
  rewrite shelf_there in H1. apply CreateItem_Ok in H0 as (Hfree & row & -> & Er & Ea & Ec).
  apply CreateVersion_Ok in H1 as (-> & _ & Hv). simpl. intros Hw. split.
  - apply (new_item_kept _ row first); try done; [|congruence]. by rewrite Er, Ea.
  - intros id _ o Ho Hid. split; [exists o; split_and!; try done; simpl; apply elem_of_app; by left|].
    intros v Hv' _. simpl. apply elem_of_app. by left.
Qed.

Lemma Promote_keeps now id n actor : tkeeps R (Promote now id n actor : ltx Item).
Proof.
  intros d. unfold Promote. apply keeps_InTx_Ok. intros i d' H. txs.
  match goal with H : Library.Get _ _ = _ |- _ => rename H into Hget end.
  match goal with H : Version_ _ _ _ = _ |- _ => rename H into Hver end.
  match goal with H : on_shelf _ _ = _ |- _ => rename H into Hup end.
  match goal with H : on_fleet _ _ = _ |- _ => rename H into Hau end.
  match goal with H : negb _ = true |- _ => apply negb_true_iff, Z.leb_gt in H end.
  etrans; [eapply keeps_Ok; [apply reads_keep, GetItem_reads|exact Hget]|]. apply shelf_Get_Ok in Hget as (_ & Hi & Hid).
  etrans; [eapply keeps_Ok; [apply reads_keep, GetVersion_reads|exact Hver]|]. unfold Version_ in Hver.
  apply read_Ok in Hver as (s & Hs & ->). apply GetVersion_Ok in Hs as (-> & Hv & Hk).
  etrans; [|by eapply keeps_Ok; [apply on_fleet_keeps|exact Hau]].
  apply on_shelf_Ok in Hup as (s & Hup & ->). apply shelf_step. eapply UpdateItem_moves; [exact Hup|]. rewrite shelf_there. intros Hw. split_and!.
  - by eexists.
  - eexists. split; [exact Hv|]. simpl. by rewrite Hk, Hid.
  - intros o Ho Ee. assert (o = x) as ->; [|simpl; lia]. destruct Hw as [Hn _ _ _ _]. by eapply (NoDup_map_inj i_ID).
Qed.

Lemma Delete_keeps id actor : (gone id) -> tkeeps R (Library.Delete id actor : ltx unit).
Proof.
  intros Hg. unfold Library.Delete. apply keeps_InTx; [done|]. eapply keeps_bind; [done|apply reads_keep, GetItem_reads|intros i].
  eapply keeps_bind; [done|apply keeps_map_err, on_fleet_keeps|intros _]. eapply keeps_bind; [done| |intros _; apply on_fleet_keeps].
  intros d. unfold on_shelf, tmap_err, zoom, DeleteItem, sset. simpl. apply shelf_step. intros Hw. split; [by apply deleted_kept|].
  intros id' Hne. apply deleted_goes_on. intros ->. done.
Qed.

Lemma write_version_Ok now hold actor i c d n held d' : (write_version now hold actor i c : ltx (Z * Z)) d = (Ok (n, held), d') ->
  i ∈ sh_items (look kind_shelf d) -> exists s, d' = put kind_shelf s d /\ i ∈ sh_items s /\ moves gone (look kind_shelf d) s /\
  sh_items s = sh_items (look kind_shelf d) /\
  (kept_well (look kind_shelf d) -> i_CurrentVersion i <= n /\ exists v, v ∈ sh_versions s /\ key v = (i_ID i, n)).
Proof.
  unfold write_version. intros H Hi. destruct (ch_New c).
  - txs. apply on_shelf_Ok in H as (s1 & H & ->). apply LatestVersion_Ok in H as (-> & Hx & Hlast).
    apply on_shelf_Ok in H0 as (s2 & H0 & ->). rewrite shelf_there in H0. apply CreateVersion_Ok in H0 as (-> & Hit & Hfresh). rewrite shelf_over in H1.
    set (v := mkVersion _ _ _ _ _ _ _) in *. exists (set_sh_versions (sh_versions (look kind_shelf d) ++ [v]) (look kind_shelf d)).
    split; [by destruct hold; unfold tret in H1; simplify_eq|]. split; [done|]. split; [|split; [done|]].
    { intros Hw. split; [apply new_version_kept; [done|simpl; lia|done|done]|]. intros id _. apply new_version_goes_on. }
    intros Hw. destruct Hw as [_ _ _ Hc _]. destruct (Hc i Hi) as (w & Hwv & Hwk). destruct hold; unfold tret in H1; simplify_eq.
    + split; [lia|]. exists w. split; [|done]. simpl. apply elem_of_app. by left.
    + split; [unfold key in Hwk; specialize (Hlast w Hwv); injection Hwk as Ea Eb; specialize (Hlast Ea); lia|].
      exists v. split; [simpl; apply elem_of_app; right; by apply list_elem_of_singleton|done].
  - unfold tret in H. simplify_eq. exists (look kind_shelf d'). rewrite shelf_same. split_and!; try done.
    intros Hw. split; [lia|]. by apply Hw.
Qed.

Lemma looks_Ok {E F A} (m : stx V E A) d (r : result E A) d' : (forall s, (m s).2 = s) ->
  (tattempt (zoom kind_shelf m) : txn D F _) d = (Ok r, d') -> look kind_shelf d' = look kind_shelf d.
Proof.
  intros Hm. unfold tattempt, zoom. pose proof (Hm (look kind_shelf d)) as E1. destruct (m (look kind_shelf d)) as [x s]. simpl in E1. subst s.
  intros [= _ <-]. apply shelf_there.
Qed.

Lemma lift_Ok {E A} (r : result E A) (d : D) a d' : lift_result r d = (Ok a, d') -> d' = d.
Proof. destruct r; [by intros [= _ <-]|done]. Qed.

Lemma update_keeps prepare now id name description actor hold : tkeeps R (update prepare now id name description actor hold : ltx (Item * Z)).
Proof.
  intros d. unfold update. apply keeps_InTx_Ok. intros [i0 h0] d' H. txs. destruct x9 as [n held]. txs.
  etrans; [eapply keeps_Ok; [apply reads_keep, GetItem_reads|exact H]|]. apply shelf_Get_Ok in H as (_ & Hi & Hid).
  etrans; [eapply keeps_Ok; [apply name_free_keeps|exact H0]|]. apply name_free_looks in H0.
  etrans; [eapply keeps_Ok; [|exact H1]; apply looks_keep, GetVersion_reads|]. apply looks_Ok in H1; [|apply GetVersion_reads].
  assert (x6 = x4) as -> by (destruct x3 as [|[]]; unfold tret, tfail in H2; by simplify_eq).
  apply lift_Ok in H3 as ->. rewrite <- H0, <- H1 in Hi.
  apply write_version_Ok in H4 as (s & -> & Hi' & Hm & Eit & Hn); [|done]. apply on_shelf_Ok in H5 as (s' & H5 & ->).
  rewrite shelf_there in H5. rewrite shelf_over in H6. subst. etrans; [|by eapply keeps_Ok; [apply on_fleet_keeps|exact H6]].
  apply shelf_step. intros Hw. destruct (Hn Hw) as [Hle Hst]. destruct (Hm Hw) as [Hw' G1].
  eapply (UpdateItem_moves _ _ _ _ H5) in Hw' as [Hw'' G2].
  - split; [done|]. intros id' Hid'. etrans; [by apply G1|by apply G2].
  - intros _. split_and!; [by eexists|done|]. intros o Ho Eo. simpl. assert (o = x) as ->; [|done]. rewrite Eit in Ho, Hi'.
    destruct Hw as [Hnd _ _ _ _]. by eapply (NoDup_map_inj i_ID).
Qed.
End Operations.

(** ** The server's three shelves *)

#[export] Instance script_kind_laws : KindLaws script_kind.
Proof. split; [by intros|by intros|by intros []]. Qed.
#[export] Instance profile_kind_laws : KindLaws profile_kind.
Proof. split; [by intros|by intros|by intros []]. Qed.
#[export] Instance app_kind_laws : KindLaws app_kind.
Proof. split; [by intros|by intros|by intros []]. Qed.

Definition library_well (w : world) : Prop := kept_well (w_scripts w) /\ kept_well (w_profiles w) /\ kept_well (w_apps w).

(** [gone kind id] is what may be deleted. *)
Definition library_moves (gone : string -> string -> Prop) (w w' : world) : Prop :=
  moves (gone ItemKindScript) (w_scripts w) (w_scripts w') /\ moves (gone ItemKindProfile) (w_profiles w) (w_profiles w') /\
  moves (gone ItemKindApp) (w_apps w) (w_apps w').

#[export] Instance library_moves_preorder gone : PreOrder (library_moves gone).
Proof.
  split; [intros w; split_and!; reflexivity|]. intros a b c (A1 & A2 & A3) (B1 & B2 & B3).
  split_and!; etrans; first [exact A1|exact A2|exact A3|exact B1|exact B2|exact B3].
Qed.

Lemma still_moves gone w w' : w_scripts w' = w_scripts w -> w_profiles w' = w_profiles w -> w_apps w' = w_apps w -> library_moves gone w w'.
Proof. intros E1 E2 E3. unfold library_moves. rewrite E1, E2, E3. split_and!; reflexivity. Qed.

(** A part of the server beside the shelves. *)
Lemma beside_keeps {F E A} gone (l : lens world F) (m : txn F E A) :
  (forall f w, w_scripts (put l f w) = w_scripts w /\ w_profiles (put l f w) = w_profiles w /\ w_apps (put l f w) = w_apps w) ->
  tkeeps (library_moves gone) (zoom l m).
Proof. intros H w. unfold zoom. destruct (m (look l w)) as [r f]. destruct (H f w) as (? & ? & ?). by apply still_moves. Qed.

Ltac beside := apply beside_keeps; by intros.
#[export] Hint Extern 1 (tkeeps (library_moves _) (fleet _)) => (unfold fleet; beside) : frames.
#[export] Hint Extern 1 (tkeeps (library_moves _) (zoom fleet_part _)) => beside : frames.
#[export] Hint Extern 1 (tkeeps (library_moves _) (on_fleet _)) => (unfold on_fleet; beside) : frames.
#[export] Hint Extern 1 (tkeeps (library_moves _) (commands_ _)) => (unfold commands_; beside) : frames.
#[export] Hint Extern 1 (tkeeps (library_moves _) (stored _)) => (unfold stored, fleet; apply keeps_map_err; beside) : frames.
#[export] Hint Extern 1 (tkeeps (library_moves _) (group _)) => (unfold group, fleet; apply keeps_map_err; beside) : frames.
#[export] Hint Extern 1 (tkeeps (library_moves _) (group_or_internal _)) => (unfold group_or_internal, fleet; apply keeps_map_err; beside) : frames.

(** A kind's operations on one of the three. *)
Class Shelved {V} (K : Kind world V) : Prop := {
  shelved_laws :: KindLaws K;
  shelved_step gone w s : moves (gone (kind_name (Kind := K))) (look (kind_shelf (Kind := K)) w) s -> library_moves gone w (put kind_shelf s w);
  shelved_fleet gone w f : library_moves gone w (put (kind_fleet (Kind := K)) f w) }.

Ltac shelve_it := split; [typeclasses eauto|by intros gone w s H; unfold library_moves; split_and!; try reflexivity; exact H|by intros gone w f; apply still_moves].
#[export] Instance scripts_shelved : Shelved script_kind.
Proof. shelve_it. Qed.
#[export] Instance profiles_shelved : Shelved profile_kind.
Proof. shelve_it. Qed.
#[export] Instance apps_shelved : Shelved app_kind.
Proof. shelve_it. Qed.

Section Kinds.
Context {V B : Type} {K : Kind world V} `{!Shelved K} (gone : string -> string -> Prop).
Local Abbreviation R := (library_moves gone).

Lemma create_moves i (first : Version V) details : key first = (i_ID i, i_CurrentVersion i) -> 1 <= v_Number first ->
  tkeeps R (create i first details : txn world (library_error B) Item).
Proof. intros. eapply (create_keeps (gone kind_name)); [typeclasses eauto|intros; by apply shelved_step|intros; apply shelved_fleet|done|done]. Qed.
Lemma update_moves prepare now id name description actor hold :
  tkeeps R (update prepare now id name description actor hold : txn world (library_error B) (Item * Z)).
Proof. eapply (update_keeps (gone kind_name)); [typeclasses eauto|intros; by apply shelved_step|intros; apply shelved_fleet]. Qed.
Lemma Promote_moves now id n actor : tkeeps R (Promote now id n actor : txn world (library_error B) Item).
Proof. eapply (Promote_keeps (gone kind_name)); [typeclasses eauto|intros; by apply shelved_step|intros; apply shelved_fleet]. Qed.
Lemma Delete_moves id actor : gone kind_name id -> tkeeps R (Library.Delete id actor : txn world (library_error B) unit).
Proof. intros Hg. eapply (Delete_keeps (gone kind_name)); [typeclasses eauto|intros; by apply shelved_step|intros; apply shelved_fleet|done]. Qed.
End Kinds.

#[export] Hint Extern 1 (tkeeps (library_moves _) (create _ _ _)) => (apply create_moves; [reflexivity|simpl; lia]) : frames.
#[export] Hint Extern 1 (tkeeps (library_moves _) (update _ _ _ _ _ _ _)) => (apply update_moves; typeclasses eauto) : frames.
#[export] Hint Extern 1 (tkeeps (library_moves _) (Promote _ _ _ _)) => (apply Promote_moves; typeclasses eauto) : frames.

(** What a request deletes, by kind and id. *)
Definition deletes (uuid_Parse : string -> option string) (r : request) (kind id : string) : Prop :=
  match r with
  | DeleteScriptReq raw => kind = ItemKindScript /\ uuid_Parse raw = Some id
  | DeleteProfileReq raw => kind = ItemKindProfile /\ uuid_Parse raw = Some id
  | DeleteAppReq raw => kind = ItemKindApp /\ uuid_Parse raw = Some id
  | _ => False
  end.

Section Requests.
Context `{CR : Crypto, JT : JsonTime, CT : Certificates}.
Context (uuid_Parse : string -> option string) (json_text : json -> string) (hmac_sha256 : string -> string -> string).
Context (OperationsKeys : list PublicKey) (ServerKey : option Key) (PackagesDir : bool).
Context (run_query : string -> list RuleCompile.arg -> fdb -> result store_error (list string)).
Context (checkServerUpdate : string -> result string string) (startServerUpdate : string -> string -> result string json).
Context (running_version : string) (error_text : failure -> string) (cs : Commands.Service) (h : Handler).
Context (gone : string -> string -> Prop).
Local Abbreviation R := (library_moves gone).

Lemma path_keeps {A} raw (k : string -> txn world response A) :
  (forall id, uuid_Parse raw = Some id -> tkeeps R (k id)) -> tkeeps R (let* id := path_id uuid_Parse raw in k id).
Proof.
  intros H. eapply (keeps_bind_with _ (fun id => uuid_Parse raw = Some id)); [unfold path_id, not_found; frames|by intros ? ? ?; apply path_id_Ok|done].
Qed.

Lemma validatePackage_keeps now i : tkeeps R (validatePackage PackagesDir packages_part now i).
Proof. unfold validatePackage. frames. intros w. repeat case_match; by apply still_moves. Qed.

Lemma version_keeps now i : tkeeps R (version PackagesDir packages_part now i).
Proof. unfold version. pose proof validatePackage_keeps. frames. Qed.
Hint Resolve version_keeps : frames.

Lemma update_item_keeps x kind id held_update plain_update :
  tkeeps R held_update -> tkeeps R plain_update -> tkeeps R (update_item h x kind id held_update plain_update).
Proof. intros H1 H2. unfold update_item, holdVersion, holdForApproval. frames. Qed.

Lemma queueCommands_keep x q payload actor i ids w w' r : queueCommands cs x q payload actor i ids w = (r, w') -> R w w'.
Proof.
  revert i w w' r. induction ids as [|dev ids IH]; intros i w w' r; simpl; [by intros [= _ <-]|].
  pose proof (beside_keeps gone commands_part (Queue cs (Some (cx_Ids x i)) (cx_Now x) (queueOptions q payload dev actor)) ltac:(by intros) w) as Hw.
  unfold commands_. destruct (zoom _ _ w) as [[c|e] w1]; simpl in Hw; [|by intros [= _ <-]].
  destruct (queueCommands cs x q payload actor (S i) ids w1) as [[out e] w2] eqn:E. intros [= _ <-]. etrans; [exact Hw|]. by eapply IH.
Qed.

Lemma queueCommand_keeps x q : tkeeps R (queueCommand uuid_Parse cs h x q).
Proof.
  assert (forall raw, tkeeps R (visible_ids uuid_Parse x raw)) as Hv.
  { induction raw as [|s raw IH]; simpl; [frames|]. unfold body_id, bad_request_, deviceVisible, not_found. frames. }
  assert (forall payload actor i ids, tkeeps R (check_all cs x q payload actor i ids)) as Hc.
  { intros payload actor i ids. revert i. induction ids as [|dev ids IH]; intros i; simpl; frames. }
  unfold queueCommand. eapply keeps_bind; [typeclasses eauto|frames|intros []].
  destruct (payloadFor q) as [payload|]; [|unfold bad_request_; frames].
  eapply keeps_bind; [typeclasses eauto|unfold command_allowed; frames|intros []]. eapply keeps_bind; [typeclasses eauto|apply Hv|].
  intros ids w. destruct (commandNeedsApproval _ _ _ _ _ w) as [[] reach].
  - revert w. eapply keeps_bind; [typeclasses eauto|apply Hc|intros []]. unfold holdForApproval. frames.
  - destruct (queueCommands _ _ _ _ _ _ _ w) as [[out e] w'] eqn:E. apply queueCommands_keep in E. by destruct e.
Qed.

Lemma attempt_keeps {E A} (m : txn world E A) err ok w : tkeeps R m -> R w (attempt error_text m err ok w).2.
Proof. intros H. specialize (H w). unfold attempt. by destruct (m w) as [[?|?] ?]. Qed.

Lemma replay_keeps x a w : R w (replayApproval uuid_Parse run_query startServerUpdate error_text cs x a w).2.
Proof.
  assert (forall S (fs : list (field S)) z k, (forall r, R w (k r w).2) -> R w (decoded error_text fs z a k w).2) as Hd.
  { intros S fs z k Hk. unfold decoded. destruct (decode_struct _ _ _ _); [apply Hk|reflexivity]. }
  unfold replayApproval. repeat (destruct (String.eqb _ _); [apply Hd; intros r|]); [..|reflexivity].
  - unfold replayCommand. repeat case_match; try reflexivity; by eapply queueCommands_keep.
  - unfold replayAssignment. case_match; [|reflexivity]. apply attempt_keeps. frames.
  - unfold replayVersion. case_match; [|reflexivity].
    repeat (destruct (String.eqb _ _); [apply attempt_keeps; unfold PromoteScript, PromoteProfile, PromoteApp; frames|]). reflexivity.
  - unfold replayGroupMember. repeat case_match; try reflexivity. apply attempt_keeps. frames.
  - unfold replayGroupRule. case_match; [|reflexivity]. apply attempt_keeps. frames.
  - unfold replayServerUpdate. case_match; reflexivity.
Qed.

Lemma replay_step x a : tkeeps R (replay uuid_Parse run_query startServerUpdate error_text cs x a).
Proof. intros w. unfold replay. pose proof (replay_keeps x a w) as H. by destruct (replayApproval _ _ _ _ _ _ _ w). Qed.

Lemma decideApproval_keeps x approve raw reason :
  tkeeps R (decideApproval uuid_Parse run_query startServerUpdate error_text cs x approve raw reason).
Proof. unfold decideApproval. apply path_keeps. intros id _. unfold settleApproval. pose proof replay_step. frames. Qed.

Ltac library_handler := intros; unfold body_id, bad_request_, not_found, holdForApproval, refusal_; frames.

Lemma update_handlers x raw (upd held : string -> txn world response _) kind :
  (forall id, tkeeps R (held id)) -> (forall id, tkeeps R (upd id)) ->
  tkeeps R (let* id := path_id uuid_Parse raw in update_item h x kind id (held id) (upd id)).
Proof. intros H1 H2. apply path_keeps. intros id _. by apply update_item_keeps. Qed.

Lemma handle_keeps x r : (forall kind id, deletes uuid_Parse r kind id -> gone kind id) ->
  tkeeps R (handle uuid_Parse json_text hmac_sha256 OperationsKeys ServerKey PackagesDir run_query checkServerUpdate startServerUpdate
    running_version error_text cs h x r).
Proof.
  intros Hg. pose proof version_keeps. destruct r; simpl handle.
  - apply queueCommand_keeps.
  - unfold createAssignment. library_handler.
  - unfold deleteAssignment. apply path_keeps. library_handler.
  - unfold createGroup. library_handler.
  - unfold updateGroup. apply path_keeps. unfold rule_hold. library_handler.
  - unfold deleteGroup. apply path_keeps. library_handler.
  - unfold addGroupMember. apply path_keeps. unfold member_hold. library_handler.
  - unfold removeGroupMember. apply path_keeps. library_handler.
  - unfold evaluateGroup. apply path_keeps. library_handler.
  - unfold createScript, script, CreateScript. library_handler.
  - apply update_handlers; intros; unfold script, UpdateScriptHeld, UpdateScript, update_script; library_handler.
  - unfold deleteScript, script, DeleteScript. apply path_keeps. intros i Hi. frames. apply Delete_moves, Hg. by split.
  - unfold createProfile, profile, CreateProfile. library_handler.
  - apply update_handlers; intros; unfold profile, UpdateProfileHeld, UpdateProfile, update_profile; library_handler.
  - unfold deleteProfile, profile, DeleteProfile. apply path_keeps. intros i Hi. frames. apply Delete_moves, Hg. by split.
  - unfold createApp, Admin.app, CreateApp. library_handler.
  - apply update_handlers; intros; unfold Admin.app, UpdateAppHeld, UpdateApp, update_app; library_handler.
  - unfold deleteApp, Admin.app, DeleteApp. apply path_keeps. intros i Hi. frames. apply Delete_moves, Hg. by split.
  - unfold uploadAppPackage, Admin.app, UploadPackage. library_handler. intros w. repeat case_match; by apply still_moves.
  - unfold requestServerUpdate. library_handler.
  - unfold listApprovals. library_handler.
  - apply decideApproval_keeps.
Qed.
End Requests.

Section Histories.
Context `{CR : Crypto, JT : JsonTime, CT : Certificates}.
Context (uuid_Parse : string -> option string) (json_text : json -> string) (hmac_sha256 : string -> string -> string).
Context (OperationsKeys : list PublicKey) (ServerKey : option Key) (PackagesDir : bool).
Context (run_query : string -> list RuleCompile.arg -> fdb -> result store_error (list string)).
Context (checkServerUpdate : string -> result string string) (startServerUpdate : string -> string -> result string json).
Context (running_version : string) (error_text : failure -> string) (cs : Commands.Service) (h : Handler).

Local Abbreviation after hist w :=
  (serve_all uuid_Parse json_text hmac_sha256 OperationsKeys ServerKey PackagesDir run_query checkServerUpdate startServerUpdate running_version error_text cs h hist w).

Lemma after_moves gone hist : (forall s kind id, s ∈ hist -> deletes uuid_Parse s.2 kind id -> gone kind id) ->
  forall w, library_moves gone w (after hist w).
Proof.
  induction hist as [|[x r] hist IH]; intros Hg w; [reflexivity|]. simpl. etrans; [|apply IH; set_solver].
  unfold serve. destruct (may _ _); [|reflexivity].
  pose proof (handle_keeps uuid_Parse json_text hmac_sha256 OperationsKeys ServerKey PackagesDir run_query checkServerUpdate startServerUpdate
    running_version error_text cs h gone x r ltac:(intros; eapply (Hg (x, r)); [by left|done]) w) as H.
  by destruct (handle _ _ _ _ _ _ _ _ _ _ _ _ _ _ _ _) as [[a|a] w'].
Qed.

(** C12. Whatever administrators ask for, in any order, approvals included, the
    libraries of scripts, profiles and apps stay consistent: ids, names and
    version numbers are unique, every version is its item's, and the current
    version of every item is there. An item nobody deletes stays, its current
    version only moves forward, and none of its versions changes or goes away,
    so what a device was told to run is never something else later. *)
Theorem versions_are_kept hist w : library_well w ->
  library_well (after hist w) /\
  forall kind id, (forall s, s ∈ hist -> ~ deletes uuid_Parse s.2 kind id) ->
    (kind = ItemKindScript -> goes_on id (w_scripts w) (w_scripts (after hist w))) /\
    (kind = ItemKindProfile -> goes_on id (w_profiles w) (w_profiles (after hist w))) /\
    (kind = ItemKindApp -> goes_on id (w_apps w) (w_apps (after hist w))).
Proof.
  intros (H1 & H2 & H3).
  destruct (after_moves (fun kind id => exists s, s ∈ hist /\ deletes uuid_Parse s.2 kind id) hist ltac:(intros s kind id ? ?; by exists s) w) as (M1 & M2 & M3).
  destruct (M1 H1) as [K1 G1]. destruct (M2 H2) as [K2 G2]. destruct (M3 H3) as [K3 G3]. split; [by split_and!|].
  intros kind id Hn. split_and!; intros ->; [apply G1|apply G2|apply G3]; intros (s & Hs & Hd); by eapply Hn.
Qed.
End Histories.
