(* ===== verification/Approvals.v ===== *)
(** * What happened to come to this

    Histories of requests, from a server where nothing waits: where an approval
    came from, and who it takes to erase a machine. *)
From S2P Require Import AuthStore Access.
From S2P Require Import Settings Scripts AppSync AuthStore Access.
From S2P Require Export AdminFrames.
From S2P Require Export FleetStore.
Open Scope Z_scope.
Open Scope go_scope.

Section Histories.
Context `{CR : Crypto, JT : JsonTime, TL : !JsonTimeLaws, CT : Settings.Certificates}.
Context (uuid_Parse : string -> option string) (json_text : json -> string) (hmac_sha256 : string -> string -> string).
Context (OperationsKeys : list PublicKey) (ServerKey : option Key) (PackagesDir : bool).
Context (run_query : string -> list RuleCompile.arg -> fdb -> result store_error (list string)).
Context (checkServerUpdate : string -> result string string) (startServerUpdate : string -> string -> result string json).
Context (running_version : string) (error_text : failure -> string) (cs : Commands.Service) (h : Handler).

Abbreviation serve_ x r w :=
  (serve uuid_Parse json_text hmac_sha256 OperationsKeys ServerKey PackagesDir run_query checkServerUpdate startServerUpdate running_version error_text cs h x r w).
Abbreviation after hist w :=
  (serve_all uuid_Parse json_text hmac_sha256 OperationsKeys ServerKey PackagesDir run_query checkServerUpdate startServerUpdate running_version error_text cs h hist w).

Lemma serve_all_snoc hist x r w : after (hist ++ [(x, r)]) w = (serve_ x r (after hist w)).2.
Proof. revert w. induction hist as [|[y s] hist IH]; intros w; simpl; [done|apply IH]. Qed.

(** A request read off the wire. *)
Definition wire_request (r : request) : Prop := match r with QueueCommand q => wire q | _ => True end.

(** The approval was asked for by a request of the history. *)
Definition asked_in (hist : list (Ctx * request)) (a : Approval) : Prop := exists s, s ∈ hist /\ asked_by uuid_Parse s.1 s.2 a.

(** Somebody asked for this, and somebody else approved it while it could be. *)
Definition two_asked (hist : list (Ctx * request)) (c : Command) : Prop :=
  exists before rest x x' q raw reason ids,
    hist = before ++ (x', DecideReq true raw reason) :: rest /\ (x, QueueCommand q) ∈ before /\
    parse_ids uuid_Parse (qr_DeviceIDs q) = Some ids /\ sent x' q (email (cx_Caller x)) ids c /\
    ad_Role (cx_Admin (cx_Caller x')) = RoleAdmin /\ cx_Token (cx_Caller x') = None /\ Limited (cx_Scope (cx_Caller x')) = false /\
    ad_ID (cx_Admin (cx_Caller x')) <> person (cx_Caller x) /\ cx_Now x' < Prelude.Add (cx_Now x) approvalTTL.

Record traced (hist : list (Ctx * request)) (w : world) : Prop := {
  tr_ids : NoDup (map ap_ID (f_approvals (w_fleet w)));
  tr_asked a : a ∈ f_approvals (w_fleet w) -> asked_in hist a;
  tr_wipes c : c ∈ t_commands (w_commands w) -> c_Type c = CommandWipe -> two_asked hist c }.

Lemma asked_part_inj x r a b : asked_part a = asked_part b -> asked_by uuid_Parse x r b -> asked_by uuid_Parse x r a.
Proof. intros [= E1 E2 E3 E4 E5 E6 E7 E8]. unfold asked_by. by rewrite E2, E3, E5, E6, E7, E8. Qed.

Lemma two_asked_more hist s c : two_asked hist c -> two_asked (hist ++ [s]) c.
Proof.
  intros (before & rest & x & x' & q & raw & reason & ids & -> & H). exists before, (rest ++ [s]), x, x', q, raw, reason, ids.
  by rewrite <- app_assoc.
Qed.

(** Who may decide. *)
Lemma may_decide approve raw reason c : may (route_of (DecideReq approve raw reason)) c = true ->
  ad_Role (cx_Admin c) = RoleAdmin /\ cx_Token c = None /\ Limited (cx_Scope c) = false.
Proof.
  unfold may. simpl. rewrite andb_true_r. intros [[Hr%String.eqb_eq Ht]%andb_true_iff Hl%negb_true_iff]%andb_true_iff. by destruct (cx_Token c).
Qed.

(** A command that an approval asked for in a history is what was asked. *)
Lemma carried_out hist x' raw reason a c : Forall (fun s => wire_request s.2) hist -> asked_in hist a ->
  may (route_of (DecideReq true raw reason)) (cx_Caller x') = true -> cx_Now x' < ap_ExpiresAt a ->
  ap_RequesterID a <> ad_ID (cx_Admin (cx_Caller x')) -> carries_out uuid_Parse x' a c ->
  two_asked (hist ++ [(x', DecideReq true raw reason)]) c.
Proof.
  intros Hw ([x r] & Hin & Hid & Hby & _ & Hex & Hasks) Hmay Hlive Hne (Hk & q & ids & Hd & Hp & Hs). simpl in *.
  assert (exists q0, r = QueueCommand q0 /\ ap_Request a = queue_json q0) as (q0 & -> & Hq).
  { rewrite Hk in Hasks. destruct r; simpl in Hasks;
      first [done | by (vm_compute in Hasks) | destruct Hasks as [Hasks Hb]; first [by (vm_compute in Hasks) | by eauto]]. }
  assert (q0 = q) as ->.
  { eapply Forall_forall in Hw; [|exact Hin]. simpl in Hw. rewrite Hq, (queue_decodes _ Hw) in Hd. congruence. }
  apply may_decide in Hmay as (Hr & Ht & Hl). exists hist, [], x, x', q, raw, reason, ids. split_and!; try done; [by rewrite <- Hby|congruence|by rewrite <- Hex].
Qed.

Hypothesis required : ApprovalsRequired h = true.

Lemma traced_serve hist x r w : Forall (fun s => wire_request s.2) hist -> traced hist w -> traced (hist ++ [(x, r)]) (serve_ x r w).2.
Proof.
  intros Hw [Hn Ha Hc].
  destruct (serve_acts uuid_Parse json_text hmac_sha256 OperationsKeys ServerKey PackagesDir run_query checkServerUpdate startServerUpdate
    running_version error_text cs h required x r w Hn) as [[H1 H2] H3]. split; [by auto|..].
  - intros a (b & E & [Hb|Hb])%H1.
    + apply Ha in Hb as (s & Hs & Hb). exists s. split; [apply elem_of_app; by left|by eapply asked_part_inj].
    + exists (x, r). split; [apply elem_of_app; right; by apply list_elem_of_singleton|by eapply asked_part_inj].
  - intros c Hin Ht. destruct (extends_elem _ _ _ _ H3 Hin) as [Hold|Hnew]; [by apply two_asked_more, Hc|].
    destruct r as [| | | | | | | | | | | | | | | | | | | | |approve raw reason]; simpl in Hnew; try (by destruct Hnew as (? & ? & _ & _ & _ & Hnew)).
    destruct Hnew as (Hmay & -> & a0 & a & Ha0 & E & Hlive & Hne & Hcar).
    eapply carried_out; try done. apply Ha in Ha0 as (s & Hs & Hb). exists s. split; [done|by eapply asked_part_inj].
Qed.

Lemma traced_after hist w : Forall (fun s => wire_request s.2) hist -> traced [] w -> traced hist (after hist w).
Proof.
  intros Hw H0. induction hist as [|[x r] hist IH] using rev_ind; [done|]. apply Forall_app in Hw as [Hw _].
  rewrite serve_all_snoc. by apply traced_serve; [|apply IH].
Qed.

(** Nothing waits, and nothing is to be erased. *)
Definition fresh (w : world) : Prop :=
  f_approvals (w_fleet w) = [] /\ forall c, c ∈ t_commands (w_commands w) -> c_Type c <> CommandWipe.

Lemma fresh_traced w : fresh w -> traced [] w.
Proof. intros [E H]. split; rewrite ?E; [constructor|by intros a ?%elem_of_nil|]. intros c Hc Ht. by destruct (H c). Qed.

(** C2. With approvals required, an order to erase a machine exists only because
    one person asked for it, for that machine and as it is queued, and then,
    within a day, an administrator who manages the whole fleet, signed in as
    themselves, and is not the person who asked, approved it. A token counts
    as the person who made it. *)
Theorem wipes_take_two_people hist w c : fresh w -> Forall (fun s => wire_request s.2) hist ->
  c ∈ t_commands (w_commands (after hist w)) -> c_Type c = CommandWipe -> two_asked hist c.
Proof. intros H0 Hw. eapply tr_wipes, traced_after; [done|]. by apply fresh_traced. Qed.
End Histories.

(** ** Approving does what was asked

    Carrying out a held request has the effect the request itself would have
    had, made by the person who asked, at the time it is approved and on a
    server that holds nothing. A held version becomes the current one. *)

(** The same moment and the same ids, another caller. *)
Definition on_behalf (x : Ctx) (c : authContext) : Ctx := mkCtx (cx_Now x) (cx_Ids x) (cx_Rand x) c.

Section Approving.
Context `{CR : Crypto, JT : JsonTime, TL : !JsonTimeLaws, CT : Settings.Certificates}.
Context (uuid_Parse : string -> option string) (json_text : json -> string) (hmac_sha256 : string -> string -> string).
Context (OperationsKeys : list PublicKey) (ServerKey : option Key) (PackagesDir : bool).
Context (run_query : string -> list RuleCompile.arg -> fdb -> result store_error (list string)).
Context (checkServerUpdate : string -> result string string) (startServerUpdate : string -> string -> result string json).
Context (running_version : string) (error_text : failure -> string) (cs : Commands.Service) (threshold : Z).
(** A parsed id is written so that it is read back. *)
Hypothesis uuid_stable : forall s id, uuid_Parse s = Some id -> uuid_Parse id = Some id.

Abbreviation unheld := (mkHandler false threshold).
Abbreviation replay_ x a w := (replayApproval uuid_Parse run_query startServerUpdate error_text cs x a w).
Abbreviation handle_ x r w :=
  (handle uuid_Parse json_text hmac_sha256 OperationsKeys ServerKey PackagesDir run_query checkServerUpdate startServerUpdate running_version error_text cs unheld x r w).

Lemma visible_ids_reads x raw w ids w' : visible_ids uuid_Parse x raw w = (Ok ids, w') -> w' = w.
Proof.
  revert w ids w'. induction raw as [|s raw IH]; intros w ids w' H; simpl in *; [unfold tret in H; by injection H as _ <-|]. txs.
  unfold body_id, bad_request_ in H. destruct (uuid_Parse s); [|done]. txs. unfold deviceVisible, stored in H0. txs.
  match goal with H : fleet _ _ = _ |- _ => apply fleet_Ok in H as (f & Hf & ->) end.
  unfold DeviceInScope, fget in Hf. injection Hf as <- <-. rewrite set_same_fleet in *.
  match goal with H : (if ?b then _ else _) _ = _ |- _ => destruct b; [|done] end. txs. by eapply IH.
Qed.

Lemma command_allowed_reads c q w u w' : command_allowed c q w = (Ok u, w') -> w' = w.
Proof. unfold command_allowed. intros H. txs. destruct (String.eqb (qr_Type q) CommandWipe); txs; done. Qed.

(** Queueing reads the moment and the ids, not the caller. *)
Lemma queueCommands_on_behalf x c q payload actor i ids w :
  queueCommands cs (on_behalf x c) q payload actor i ids w = queueCommands cs x q payload actor i ids w.
Proof.
  revert i w. induction ids as [|dev ids IH]; intros i w; simpl; [done|].
  change (cx_Ids (on_behalf x c) i) with (cx_Ids x i). change (cx_Now (on_behalf x c)) with (cx_Now x).
  destruct (commands_ _ w) as [[?|?] ?]; [by rewrite IH|done].
Qed.

(** The effect of an approved request, [r], of [c]'s. *)
Definition comes_to (x : Ctx) (c : authContext) (r : request) (a : Approval) : Prop :=
  forall w n w', handle_ (on_behalf x c) r w = (Ok (Done n), w') -> exists result, replay_ x a w = ((result, false), w').

Lemma approved_command x c q a : ap_Kind a = ApprovalCommand -> ap_Request a = queue_json q -> ap_RequestedBy a = email c -> wire q ->
  comes_to x c (QueueCommand q) a.
Proof.
  intros Hk Hr Hby Hw w n w' H. simpl in H. unfold replayApproval. rewrite Hk. simpl. unfold decoded. rewrite Hr, (queue_decodes q Hw).
  unfold queueCommand in H. txs. unfold replayCommand. destruct (payloadFor q) as [payload|]; [|done]. txs.
  apply command_allowed_reads in H0 as ->. pose proof (visible_ids_Ok _ _ _ _ _ _ H1) as ->. apply visible_ids_reads in H1 as ->.
  simpl in H2. rewrite Hby. rewrite queueCommands_on_behalf in H2. change (email (cx_Caller (on_behalf x c))) with (email c) in H2.
  destruct (queueCommands cs x q payload (email c) 1 _ w) as [[out [e|]] w1]; [done|]. injection H2 as _ <-. by eexists.
Qed.

Lemma approved_assignment x c q a : ap_Kind a = ApprovalAssignment -> ap_Request a = assignment_json q -> ap_RequestedBy a = email c ->
  (forall r, ar_Rollout q = Some r -> wire_rollout r) -> comes_to x c (CreateAssignmentReq q) a.
Proof.
  intros Hk Hr Hby Hw w n w' H. simpl in H. unfold replayApproval. rewrite Hk. simpl. unfold decoded. rewrite Hr, (assignment_decodes q Hw).
  unfold replayAssignment. rewrite stored_parses, Hby. unfold createAssignment in H. simpl in H.
  destruct (parseAssignment _ _ _ _ _) as [as_|]; [|done]. txs. unfold assignmentNeedsApproval in H0. simpl in H0.
  unfold group_or_internal in H0. txs. match goal with H : fleet _ _ = _ |- _ => apply fleet_Ok in H as (f & Hf & ->) end.
  unfold tret in Hf. injection Hf as <- <-. rewrite set_same_fleet in *. txs. unfold group_or_internal in *. txs.
  unfold attempt. match goal with H : fleet (saveAssignment _) _ = _ |- _ => rewrite H end. by eexists.
Qed.

Lemma approved_member x c raw dev id d a : uuid_Parse raw = Some id -> uuid_Parse dev = Some d -> ap_Kind a = ApprovalGroupMember ->
  ap_Request a = member_json (mkMemberApproval id d) -> ap_RequestedBy a = email c -> comes_to x c (AddGroupMemberReq raw dev) a.
Proof.
  intros Hid Hd Hk Hr Hby w n w' H. simpl in H. unfold replayApproval. rewrite Hk. simpl. unfold decoded. rewrite Hr, member_decodes.
  unfold replayGroupMember. simpl. rewrite (uuid_stable _ _ Hid), (uuid_stable _ _ Hd), Hby.
  unfold addGroupMember, path_id, body_id, member_hold in H. rewrite Hid, Hd in H. simpl in H. txs. unfold group in *. txs.
  unfold attempt. match goal with H : fleet (AddMember _ _ _) _ = _ |- _ => change (email (cx_Caller (on_behalf x c))) with (email c) in H; rewrite H end. by eexists.
Qed.

Lemma approved_rule x c raw q id a : uuid_Parse raw = Some id -> ap_Kind a = ApprovalGroupRule ->
  ap_Request a = rule_request_json (mkRuleApproval id q) -> ap_RequestedBy a = email c -> comes_to x c (UpdateGroupReq raw q) a.
Proof.
  intros Hid Hk Hr Hby w n w' H. simpl in H. unfold replayApproval. rewrite Hk. simpl. unfold decoded. rewrite Hr, rule_request_decodes.
  unfold replayGroupRule. simpl. rewrite (uuid_stable _ _ Hid), Hby.
  unfold updateGroup, path_id, rule_hold in H. rewrite Hid in H. simpl in H. unfold group in H. txs.
  unfold attempt. match goal with H : fleet (GroupService.Update _ _ _ _) _ = _ |- context [fleet ?m w] => change (fleet m w = (Ok x2, x3)) in H; rewrite H end.
  by eexists.
Qed.

(** *** The rest of what may be held *)

(** A held version becomes the current one on behalf of who wrote it. *)
Lemma approved_version x kind id0 id n a (w : world) : uuid_Parse id0 = Some id -> in_int64 n = true -> ap_Kind a = ApprovalVersion ->
  ap_Request a = version_json (mkVersionApproval kind id n) ->
  (replay_ x a w).2 =
    (if String.eqb kind ItemKindScript then (PromoteScript (cx_Now x) id n (ap_RequestedBy a) w).2
     else if String.eqb kind ItemKindProfile then (PromoteProfile (cx_Now x) id n (ap_RequestedBy a) w).2
     else if String.eqb kind ItemKindApp then (PromoteApp (cx_Now x) id n (ap_RequestedBy a) w).2 else w).
Proof.
  intros Hid Hn Hk Hr. unfold replayApproval. rewrite Hk. simpl. unfold decoded. rewrite Hr, version_decodes by done.
  unfold replayVersion. simpl. rewrite (uuid_stable _ _ Hid). unfold attempt.
  repeat (destruct (String.eqb kind _); [repeat case_match; simplify_eq; done|]). done.
Qed.

(** Read off the wire. *)
Definition on_the_wire (r : request) : Prop :=
  match r with
  | QueueCommand q => wire q
  | CreateAssignmentReq q => forall o, ar_Rollout q = Some o -> wire_rollout o
  | _ => True
  end.

(** A request that is held as it was made. *)
Definition held_whole (r : request) : bool :=
  match r with QueueCommand _ | CreateAssignmentReq _ | AddGroupMemberReq _ _ | UpdateGroupReq _ _ => true | _ => false end.

(** C7. What was asked is what is done: approving a held command, assignment, group
    member or group rule has exactly the effect that serving the request would
    have had, made then by the person who asked, had nothing been held - with
    no failure recorded whenever that would have succeeded. A held version is
    made current, and that very version. *)
Theorem approving_does_what_was_asked x0 r a : asked_by uuid_Parse x0 r a -> on_the_wire r ->
  (held_whole r = true -> forall x w n w',
     handle_ (on_behalf x (cx_Caller x0)) r w = (Ok (Done n), w') -> exists result, replay_ x a w = ((result, false), w')) /\
  (forall x w raw i, r = UpdateScriptReq raw i -> exists id n, uuid_Parse raw = Some id /\
     (in_int64 n = true -> (replay_ x a w).2 = (PromoteScript (cx_Now x) id n (email (cx_Caller x0)) w).2)) /\
  (forall x w raw i, r = UpdateProfileReq raw i -> exists id n, uuid_Parse raw = Some id /\
     (in_int64 n = true -> (replay_ x a w).2 = (PromoteProfile (cx_Now x) id n (email (cx_Caller x0)) w).2)) /\
  (forall x w raw i, r = UpdateAppReq raw i -> exists id n, uuid_Parse raw = Some id /\
     (in_int64 n = true -> (replay_ x a w).2 = (PromoteApp (cx_Now x) id n (email (cx_Caller x0)) w).2)).
Proof.
  intros (_ & Hby & _ & _ & Hasks) Hw. split_and!.
  - intros Hh x. change (comes_to x (cx_Caller x0) r a). destruct r; try done; simpl in Hasks.
    all: first [ destruct Hasks as [Hk Hr]; by apply approved_command | destruct Hasks as [Hk Hr]; by apply approved_assignment
               | destruct Hasks as (Hk & i & Hi & Hr); by eapply approved_rule
               | destruct Hasks as (Hk & i & d & Hi & Hd & Hr); by eapply approved_member ].
  - intros x w raw i ->. destruct Hasks as (Hk & id & n & Hid & Hr). exists id, n. split; [done|]. intros Hn.
    by rewrite (approved_version x ItemKindScript id id n a w (uuid_stable _ _ Hid) Hn Hk Hr), Hby.
  - intros x w raw i ->. destruct Hasks as (Hk & id & n & Hid & Hr). exists id, n. split; [done|]. intros Hn.
    by rewrite (approved_version x ItemKindProfile id id n a w (uuid_stable _ _ Hid) Hn Hk Hr), Hby.
  - intros x w raw i ->. destruct Hasks as (Hk & id & n & Hid & Hr). exists id, n. split; [done|]. intros Hn.
    by rewrite (approved_version x ItemKindApp id id n a w (uuid_stable _ _ Hid) Hn Hk Hr), Hby.
Qed.
End Approving.
