(* ===== verification/Reach.v ===== *)
(** * How far one person's changes reach

    Without a second person, code comes to groups of at most the threshold's
    size: any number of requests that approve nothing leave every include
    assignment of a kind that is held either in a static group that small, or
    as it was, in a group that has not grown and whose rule has not changed. *)
From S2P Require Import Settings Scripts AppSync AuthStore Access.
From S2P Require Export AdminFrames.
From S2P Require Export FleetStore.
Open Scope Z_scope.
Open Scope go_scope.

(** An include assignment of what is held for: code, and what configures. *)
Definition code (a : Assignment) : Prop := as_Mode a = ModeInclude /\ unheld (as_ItemKind a) = false.

(** What [GroupIncludesAnyOf] answers of a group. *)
Definition has_code (id : string) (d : fdb) : bool :=
  existsb (fun a => String.eqb (as_GroupID a) id && String.eqb (as_Mode a) ModeInclude && negb (unheld (as_ItemKind a))) (f_assignments d).

Lemma has_code_spec id d : has_code id d = true <-> exists a, a ∈ f_assignments d /\ code a /\ as_GroupID a = id.
Proof.
  unfold has_code. rewrite existsb_elem. unfold code. split.
  - intros (a & Ha & [[Hg%String.eqb_eq Hm%String.eqb_eq]%andb_true_iff Hu%negb_true_iff]%andb_true_iff). by exists a.
  - intros (a & Ha & [Hm Hu] & <-). exists a. split; [done|]. by rewrite Hm, Hu, String.eqb_refl.
Qed.

Lemma no_code id d : has_code id d = false -> forall a, a ∈ f_assignments d -> code a -> as_GroupID a <> id.
Proof. intros H a Ha Hc E. assert (has_code id d = true) by (apply has_code_spec; by exists a). congruence. Qed.

Definition anchored (d : fdb) : Prop := forall a, a ∈ f_assignments d -> is_Some (f_groups d !! as_GroupID a).

(** A group that has not grown: in members if it is static, in rule if not. *)
Definition within (g g' : Group) : Prop :=
  g_Kind g' = g_Kind g /\
  if String.eqb (g_Kind g) GroupStatic then g_Members g' ⊆ g_Members g /\ (length (g_Members g') <= length (g_Members g))%nat
  else g_Rule g' = g_Rule g.

#[export] Instance within_preorder : PreOrder within.
Proof.
  split; [intros g; split; [done|]; by destruct (String.eqb _ _)|]. intros a b c [K1 H1] [K2 H2]. split; [congruence|].
  rewrite K1 in H2. destruct (String.eqb _ _); [|congruence]. destruct H1, H2. split; [by etrans|lia].
Qed.

Lemma alter_found {A} (f : A -> A) id (m : gmap string A) g : m !! id = Some g -> alter f id m = <[id := f g]> m.
Proof.
  intros H. apply map_eq. intros j. destruct (decide (id = j)) as [->|]; [|by rewrite lookup_alter_ne, lookup_insert_ne].
  by rewrite lookup_alter_eq, lookup_insert_eq, H.
Qed.

Lemma alter_missing {A} (f : A -> A) id (m : gmap string A) : m !! id = None -> alter f id m = m.
Proof.
  intros H. apply map_eq. intros j. destruct (decide (id = j)) as [->|]; [|by rewrite lookup_alter_ne].
  by rewrite lookup_alter_eq, H.
Qed.

Lemma Get_Ok id d g d' : GroupService.Get id d = (Ok g, d') -> f_groups d !! id = Some g /\ d' = d.
Proof.
  unfold GroupService.Get, gs, GetGroup, tmap_err, tbind, fget, found. destruct (f_groups d !! id); unfold tret, tfail; naive_solver.
Qed.

Lemma Get_reads id d : (GroupService.Get id d).2 = d.
Proof. unfold GroupService.Get, gs, GetGroup, tmap_err, tbind, fget, found. by destruct (f_groups d !! id). Qed.

Lemma GetDevice_Ok id d x d' : GetDevice id d = (Ok x, d') -> d' = d.
Proof. unfold GetDevice, tbind, fget, found. destruct (f_devices d !! id); unfold tret, tfail; congruence. Qed.
Lemma CreateGroup_Ok id g d u d' : CreateGroup id g d = (Ok u, d') -> f_groups d !! id = None /\
  d' = set_f_groups (<[id := mkGroupRow (g_Name g) (g_Description g) (g_Kind g) (g_Rule g) (g_CreatedAt g) (g_CreatedAt g) None []]> (f_groups d)) d.
Proof.
  unfold CreateGroup. destruct (bool_decide _) eqn:E; simpl; [done|]. apply bool_decide_eq_false, eq_None_not_Some in E.
  destruct (existsb _ _); [done|]. by intros [= _ <-].
Qed.

Lemma UpdateGroup_Ok id g d u d' : UpdateGroup id g d = (Ok u, d') ->
  d' = d \/ exists old, f_groups d !! id = Some old /\ d' = set_f_groups (<[id := rewrite_group g old]> (f_groups d)) d.
Proof.
  unfold UpdateGroup. destruct (f_groups d !! id) as [old|]; [|by intros [= _ <-]; left].
  destruct (existsb _ _); [done|]. intros [= _ <-]. right. eauto.
Qed.

Lemma group_by_name_reads name d r d' : (tattempt (GetGroupByName name) : ftx group_error _) d = (Ok r, d') -> d' = d.
Proof. unfold tattempt, GetGroupByName, tbind, fget, found. destruct (find _ _); intros [= _ <-]; done. Qed.

Section Reach.
Context (T : Z).

Definition small (g : Group) : Prop := g_Kind g = GroupStatic /\ Z.of_nat (length (g_Members g)) <= T.

Definition contained (d d' : fdb) : Prop := anchored d -> anchored d' /\
  forall a g', a ∈ f_assignments d' -> code a -> f_groups d' !! as_GroupID a = Some g' ->
    small g' \/ (a ∈ f_assignments d /\ exists g, f_groups d !! as_GroupID a = Some g /\ within g g').

Lemma small_within g g' : small g -> within g g' -> small g'.
Proof. intros [K L] [K' H]. rewrite K in *. simpl in H. destruct H. split; [congruence|lia]. Qed.

#[export] Instance contained_preorder : PreOrder contained.
Proof.
  split.
  - intros d Hd. split; [done|]. intros a g Ha _ Hg. right. split; [done|]. by exists g.
  - intros a b c Hab Hbc Ha. destruct (Hab Ha) as [Hb H1]. destruct (Hbc Hb) as [Hc H2]. split; [done|].
    intros x g'' Hx Hcode Hg''. destruct (H2 x g'' Hx Hcode Hg'') as [?|(Hx' & g' & Hg' & W')]; [by left|].
    destruct (H1 x g' Hx' Hcode Hg') as [Hs|(Hx0 & g & Hg & W)]; [left; by eapply small_within|right].
    split; [done|]. exists g. split; [done|by etrans].
Qed.

Definition reach_view (d : fdb) : list Assignment * gmap string Group := (f_assignments d, f_groups d).

Lemma same_contained d d' : same reach_view d d' -> contained d d'.
Proof.
  intros [= E1 E2] Hd. unfold anchored in *. rewrite E1, E2. split; [done|]. intros a g Ha _ Hg. right. split; [done|]. by exists g.
Qed.

Lemma keeps_same_contained {E A} (m : ftx E A) : tkeeps (same reach_view) m -> tkeeps contained m.
Proof. intros H d. apply same_contained, H. Qed.

(** Assignments are taken away. *)
Lemma fewer_contained d l : (forall a, a ∈ l -> a ∈ f_assignments d) -> contained d (set_f_assignments l d).
Proof. intros H Hd. split; [intros a Ha; by apply Hd, H|]. simpl. intros a g Ha _ Hg. right. split; [by apply H|]. by exists g. Qed.

(** One group is changed. *)
Lemma group_contained d id g g' : f_groups d !! id = Some g ->
  ((forall a, a ∈ f_assignments d -> code a -> as_GroupID a <> id) \/ small g' \/ within g g') ->
  contained d (set_f_groups (<[id := g']> (f_groups d)) d).
Proof.
  intros Hg H Hd. split.
  - intros a Ha. simpl in *. destruct (decide (id = as_GroupID a)) as [->|]; [rewrite lookup_insert_eq; by eexists|].
    rewrite lookup_insert_ne by done. by apply Hd.
  - simpl. intros a x Ha Hc Hx. destruct (decide (id = as_GroupID a)) as [->|Hne].
    + rewrite lookup_insert_eq in Hx. injection Hx as <-. destruct H as [H|[H|H]]; [by destruct (H a)|by left|right].
      split; [done|]. by exists g.
    + rewrite lookup_insert_ne in Hx by done. right. split; [done|]. by exists x.
Qed.

Lemma on_group_contained {E} d id f : (forall g, f_groups d !! id = Some g ->
    (forall a, a ∈ f_assignments d -> code a -> as_GroupID a <> id) \/ small (f g) \/ within g (f g)) ->
  contained d ((on_group id f d : result E unit * fdb).2).
Proof.
  intros H. unfold on_group, fset. cbn [snd]. destruct (f_groups d !! id) as [g|] eqn:E1.
  - rewrite (alter_found _ _ _ _ E1). by eapply group_contained, H.
  - rewrite alter_missing by done. by apply same_contained.
Qed.

(** ** Statements *)

(** The group there is, if any, has that kind. *)
Definition kind_is (id k : string) (d : fdb) : Prop := forall g, f_groups d !! id = Some g -> g_Kind g = k.

Lemma within_same_rule g g' : g_Kind g <> GroupStatic -> g_Kind g' = g_Kind g -> g_Rule g' = g_Rule g -> within g g'.
Proof. intros Hk E1 E2. split; [done|]. by apply String.eqb_neq in Hk as ->. Qed.

(** Membership that follows from a rule. *)
Lemma SetGroupMembers_contained id ids now d k : k <> GroupStatic -> kind_is id k d -> contained d ((SetGroupMembers id ids now d).2).
Proof.
  intros Hk Hd. pose (keep := fun d d' : fdb => kind_is id k d -> kind_is id k d' /\ contained d d').
  assert (PreOrder keep) as Hp.
  { split; [by split|]. intros a b c H1 H2 Ha. destruct (H1 Ha) as [Hb C1]. destruct (H2 Hb) as [Hc C2]. split; [done|by etrans]. }
  assert (forall E f, (forall g, g_Kind (f g) = g_Kind g /\ g_Rule (f g) = g_Rule g) -> tkeeps keep (on_group id f : ftx E unit)) as Hon.
  { intros E f Hf e He. split.
    - intros g Hg. unfold on_group, fset in Hg. simpl in Hg. rewrite lookup_alter_eq in Hg. apply fmap_Some in Hg as (g0 & Hg0 & ->).
      destruct (Hf g0) as [-> _]. by apply He.
    - apply on_group_contained. intros g Hg. right. right. destruct (Hf g). apply within_same_rule; [by rewrite (He g Hg)|done..]. }
  assert (tkeeps keep (SetGroupMembers id ids now)) as H; [|by apply H].
  unfold SetGroupMembers, markGroupEvaluated, insert_members. frames; try (by apply Hon).
  intros e. destruct (_ && _); [by apply Hon|reflexivity].
Qed.

Context (run_query : string -> list RuleCompile.arg -> fdb -> result store_error (list string)).

Lemma EvaluateGroup_contained id g now d : kind_is id (g_Kind g) d -> contained d ((EvaluateGroup run_query id g now d).2).
Proof.
  intros Hd. unfold EvaluateGroup. destruct (negb _ && negb _) eqn:Ek; [reflexivity|].
  assert (g_Kind g <> GroupStatic) as Hk.
  { intros E. rewrite E in Ek. by vm_compute in Ek. }
  assert (tkeeps (same (fun e : fdb => e)) (derived_members run_query g now)) as Hread.
  { unfold derived_members, match_, MatchDevices, ActiveDeviceIDs, gs. frames; intros e; reflexivity. }
  specialize (Hread d). unfold tbind at 1. destruct (derived_members run_query g now d) as [[ids|e] d1]; unfold same in Hread; simpl in *; subst; [|reflexivity].
  unfold tbind, InTx, gs, tmap_err. pose proof (SetGroupMembers_contained id ids now d _ Hk Hd) as H.
  destruct (SetGroupMembers id ids now d) as [[?|?] d1]; [done|reflexivity].
Qed.

(** ** The group service *)

(** An operation that starts with the group, by what follows. *)
Lemma from_group {A} id (k : Group -> ftx group_error A) d :
  (forall g, f_groups d !! id = Some g -> contained d ((k g d).2)) -> contained d ((let* g := GroupService.Get id in k g) d).2.
Proof.
  intros H. unfold tbind. pose proof (Get_reads id d) as E. destruct (GroupService.Get id d) as [[g|e] d'] eqn:Eg; simpl in E; subst; [|reflexivity].
  apply H. by apply Get_Ok in Eg as [? _].
Qed.

Lemma contained_tensure {A} c e (m : ftx group_error A) d : (c = true -> contained d (m d).2) -> contained d ((do* tensure c e; m) d).2.
Proof. intros H. unfold tensure, tbind. destruct c; [by apply H|reflexivity]. Qed.

Lemma reach_audit {E} a : tkeeps (same reach_view) (InsertAudit a : ftx E unit).
Proof. by apply keeps_audit_row. Qed.

(** A new group is given nothing yet. *)
Lemma new_contained d id g : f_groups d !! id = None -> contained d (set_f_groups (<[id := g]> (f_groups d)) d).
Proof.
  intros Hn Hd. assert (forall a, a ∈ f_assignments d -> as_GroupID a <> id) as Hne.
  { intros a Ha <-. destruct (Hd a Ha) as [x Hx]. congruence. }
  split.
  - intros a Ha. simpl in *. specialize (Hne a Ha). rewrite lookup_insert_ne by done. by apply Hd.
  - simpl. intros a x Ha Hc Hx. specialize (Hne a Ha). rewrite lookup_insert_ne in Hx by done. right. split; [done|]. by exists x.
Qed.

Lemma then_read {A B} (m : ftx group_error A) (k : A -> ftx group_error B) d : contained d (m d).2 -> (forall a e, (k a e).2 = e) -> contained d ((tbind m k) d).2.
Proof. intros H Hk. unfold tbind. destruct (m d) as [[a|e] d1]; [by rewrite Hk|done]. Qed.

(** What is evaluated and then read. *)
Lemma evaluated d1 id row now : kind_is id (g_Kind row) d1 ->
  contained d1 ((do* EvaluateGroup run_query id row now; GroupService.Get id) d1).2.
Proof. intros H. apply then_read; [by apply EvaluateGroup_contained|]. intros _ e. apply Get_reads. Qed.

Lemma Create_contained new_id now g d : contained d ((GroupService.Create run_query new_id now g d).2).
Proof.
  unfold GroupService.Create. apply contained_tensure. intros _. destruct (kind_and_rule g) as [rule|e]; [|reflexivity].
  unfold lift_result, tret at 1. unfold tbind at 1. cbv zeta. set (row := mkGroupRow _ _ _ rule now now None []). unfold tbind at 1.
  destruct (InTx _ d) as [[[]|e] d1] eqn:E; [|by apply InTx_Err in E as ->].
  txs. apply group_by_name_reads in H as ->. destruct x as [?|[]]; try done. txs. unfold gs in H. txs.
  apply CreateGroup_Ok in H as (Hn & ->). unfold InsertAudit, fset in H0. injection H0 as <-.
  match goal with |- contained d (_ ?e).2 => assert (contained d e) as Hc; [|etrans; [exact Hc|]] end.
  { etrans; [by apply (new_contained d new_id)|]. by apply same_contained. }
  destruct (String.eqb (ng_Kind g) GroupDynamic); [|rewrite Get_reads; reflexivity].
  apply evaluated. intros z Hz. simpl in Hz. rewrite lookup_insert_eq in Hz. by injection Hz as <-.
Qed.

(** A rule may only change where no code is. *)
Definition rule_free (id rule : string) (d : fdb) : Prop := forall g, f_groups d !! id = Some g -> g_Kind g = GroupDynamic -> rule <> g_Rule g ->
  has_code id d = false.

Lemma Update_contained id now i d : rule_free id (ng_Rule i) d -> contained d ((GroupService.Update run_query id now i d).2).
Proof.
  intros Hfree. unfold GroupService.Update. apply from_group. intros g Hg. apply contained_tensure. intros _. cbv zeta.
  apply contained_tensure. intros _.
  destruct (changed_group g _ now i) as [[row changed]|e] eqn:Ech; [|reflexivity].
  unfold lift_result, tret at 1. unfold tbind at 1. unfold tbind at 1.
  assert (g_Kind row = g_Kind g /\ (g_Rule row = g_Rule g \/ g_Kind g = GroupDynamic /\ g_Rule row = ng_Rule i)) as [Hk Hr].
  { unfold changed_group in Ech. destruct (String.eqb_spec (g_Kind g) GroupDynamic) as [Hdyn|]; [|injection Ech as <- _; by auto].
    destruct (parse_rule _); simpl in Ech; [|done]. injection Ech as <- _. by auto. }
  destruct (InTx _ d) as [[[]|e] d1] eqn:E; [|by apply InTx_Err in E as ->].
  assert (contained d d1 /\ kind_is id (g_Kind row) d1) as [Hc Hkind].
  { txs. apply group_by_name_reads in H as ->.
    assert (x2 = d) as -> by (destruct x as [[??]|[]]; txs; done). unfold gs in *. txs. unfold InsertAudit, fset in H2. injection H2 as <-.
    assert (contained d x4 /\ kind_is id (g_Kind row) x4) as [H3 H4].
    - apply UpdateGroup_Ok in H1 as [->|(old & Hold & ->)].
      + split; [reflexivity|]. intros z Hz. congruence.
      + assert (old = g) as -> by congruence. split.
        * eapply group_contained; [done|]. destruct Hr as [Hr|[Hdyn Hr]].
          -- right. right. unfold rewrite_group, within. simpl. split; [done|]. destruct (String.eqb _ _); [split; [done|lia]|done].
          -- destruct (decide (ng_Rule i = g_Rule g)) as [Hsame|Hne]; [|left; by eapply no_code, Hfree].
             right. right. apply within_same_rule; [rewrite Hdyn; done|done|]. simpl. congruence.
        * intros z Hz. simpl in Hz. rewrite lookup_insert_eq in Hz. by injection Hz as <-.
    - split; [|done]. etrans; [exact H3|]. by apply same_contained. }
  etrans; [exact Hc|]. destruct changed; [by apply evaluated|rewrite Get_reads; reflexivity].
Qed.

Lemma RemoveMember_contained id dev actor d : contained d ((GroupService.RemoveMember id dev actor d).2).
Proof.
  unfold RemoveMember. apply from_group. intros g Hg. apply contained_tensure. intros _.
  unfold RemoveGroupMember, SetDeviceGroupMembership. simpl negb. cbv iota.
  apply (keeps_InTx contained). eapply keeps_bind; [typeclasses eauto| |intros _; apply keeps_same_contained, reach_audit].
  apply keeps_map_err. intros e. apply on_group_contained. intros x Hx. right. right. split; [done|].
  destruct (String.eqb _ _); [|done]. simpl. split; [intros y Hy; by apply elem_of_filterb in Hy as [Hy _]|].
  apply filter_length_le.
Qed.

Lemma GroupDelete_contained id actor d : contained d ((GroupService.Delete id actor d).2).
Proof.
  unfold GroupService.Delete. apply from_group. intros g Hg. apply contained_tensure. intros _.
  apply (keeps_InTx contained). eapply keeps_bind; [typeclasses eauto| |intros _; apply keeps_same_contained, reach_audit].
  apply keeps_map_err. intros e He. unfold DeleteGroup, fset. simpl.
  assert (forall a, a ∈ List.filter (fun a => negb (String.eqb (as_GroupID a) id)) (f_assignments e) -> a ∈ f_assignments e /\ as_GroupID a <> id) as Hf.
  { intros a [Ha Hn%negb_true_iff%String.eqb_neq]%elem_of_filterb. done. }
  split.
  - intros a [Ha Hn]%Hf. simpl. rewrite lookup_delete_ne by done. by apply He.
  - simpl. intros a x [Ha Hn]%Hf Hc Hx. rewrite lookup_delete_ne in Hx by done. right. split; [done|]. by exists x.
Qed.

Lemma AddMember_contained id dev actor d :
  (forall g, f_groups d !! id = Some g -> g_Kind g = GroupStatic -> has_code id d = true ->
     dev ∉ g_Members g -> Z.of_nat (length (g_Members g)) + 1 <= T) ->
  contained d ((AddMember id dev actor d).2).
Proof.
  intros H. unfold AddMember. apply from_group. intros g Hg. apply contained_tensure. intros Hs%String.eqb_eq.
  destruct (InTx _ d) as [[[]|e] d1] eqn:E; [|by apply InTx_Err in E as ->]. cbn [snd]. txs. unfold gs, GetDevice in *. txs.
  unfold fget in H0. injection H0 as <- <-. unfold found in H3. destruct (f_devices d !! dev); [|done]. txs.
  unfold InsertAudit, fset in H2. injection H2 as <-. etrans; [|by apply same_contained].
  unfold AddGroupMember, SetDeviceGroupMembership, insert_members in H1. simpl in H1. destruct (bool_decide _ && _); [|done].
  unfold on_group, fset in H1. injection H1 as _ <-. apply (on_group_contained (E := unit)). intros g' Hg'. assert (g' = g) as -> by congruence.
  unfold add_members. simpl. destruct (existsb (String.eqb dev) (g_Members g)) eqn:Ein.
  { right. right. by destruct g. }
  destruct (has_code id d) eqn:Ec; [|left; by apply no_code].
  right. left. split; [done|]. simpl. rewrite length_app. simpl.
  assert (dev ∉ g_Members g) as Hnot. { intros Hin%existsb_eq_elem. congruence. } specialize (H g Hg Hs eq_refl Hnot). lia.
Qed.

Lemma same_triple_code a b : same_triple a b = true -> (code b <-> code a) /\ as_GroupID b = as_GroupID a.
Proof.
  unfold same_triple, code. intros [[[H1%String.eqb_eq _]%andb_true_iff H3%String.eqb_eq]%andb_true_iff H4%String.eqb_eq]%andb_true_iff.
  by rewrite H1, H3, H4.
Qed.

Lemma CreateAssignment_contained a d : (code a -> forall g, f_groups d !! as_GroupID a = Some g -> small g) ->
  contained d ((CreateAssignment a d).2).
Proof.
  intros Hs. unfold CreateAssignment. destruct (find _ _) as [old|] eqn:Ef; cbn [snd].
  - intros Hd. split.
    + intros b (x & Hx & ->)%elem_of_update_where. simpl. destruct (same_triple a x); by apply (Hd x).
    + simpl. intros b g' (x & Hx & ->)%elem_of_update_where Hc Hg'. destruct (same_triple a x) eqn:E.
      * left. simpl in Hc, Hg'. apply same_triple_code in E as [Hcode E]. rewrite E in Hg'. apply Hs; [|done]. by apply Hcode.
      * right. split; [done|]. by exists g'.
  - destruct (existsb _ _); [reflexivity|]. destruct (f_groups d !! as_GroupID a) as [g|] eqn:Eg; [|reflexivity]. cbn [snd]. intros Hd. split.
    + intros b [Hb|Hb%list_elem_of_singleton]%elem_of_app; simpl; [by apply Hd|]. subst. by exists g.
    + simpl. intros b g' [Hb|Hb%list_elem_of_singleton]%elem_of_app Hc Hg'; [right; split; [done|by exists g']|left].
      subst b. simpl in Hg'. apply Hs; [done|congruence].
Qed.

Lemma saveAssignment_contained a d : (code a -> forall g, f_groups d !! as_GroupID a = Some g -> small g) ->
  contained d ((saveAssignment a d).2).
Proof.
  intros Hs. pose proof (CreateAssignment_contained a d Hs) as Hc. clear Hs.
  unfold saveAssignment. destruct (InTx _ d) as [[x|e] d1] eqn:E; [|by apply InTx_Err in E as ->]. cbn [snd]. txs.
  unfold GetGroup in H. txs. unfold fget in H. injection H as <- <-. unfold found in H2. destruct (f_groups d !! as_GroupID a); [|done]. txs.
  unfold InsertAudit, fset in H1. injection H1 as _ <-. etrans; [|by apply same_contained]. by rewrite H0 in Hc.
Qed.
End Reach.

(** ** Requests *)

(** A request that touches neither groups nor assignments. *)
Definition reach_of (w : world) : list Assignment * gmap string Group := reach_view (w_fleet w).
Abbreviation aside := (same reach_of).

Lemma aside_fleet {E A} (m : ftx E A) : tkeeps (same reach_view) m -> tkeeps aside (zoom fleet_part m).
Proof. apply keeps_fleet. intros f w Hf. unfold reach_of. simpl. done. Qed.

Lemma aside_shelf {V E A} (K : Kind world V) (m : stx V E A) : K = K -> (forall s w, w_fleet (put kind_shelf s w) = w_fleet w) -> tkeeps aside (zoom kind_shelf m).
Proof. intros _ H. apply keeps_elsewhere. intros f w. unfold reach_of. by rewrite H. Qed.

#[export] Hint Extern 1 (tkeeps aside (zoom (@kind_shelf world _ _) _)) => (apply aside_shelf; reflexivity) : frames.
#[export] Hint Extern 1 (tkeeps aside (zoom fleet_part _)) => (apply aside_fleet; frames) : frames.
#[export] Hint Extern 1 (tkeeps aside (fleet _)) => (unfold fleet; apply aside_fleet; frames) : frames.
#[export] Hint Extern 1 (tkeeps aside (on_fleet _)) => (unfold on_fleet; apply aside_fleet; frames) : frames.

Section Requests.
Context `{CR : Crypto, JT : JsonTime, CT : Settings.Certificates}.
Context (uuid_Parse : string -> option string) (json_text : json -> string) (hmac_sha256 : string -> string -> string).
Context (OperationsKeys : list PublicKey) (ServerKey : option Key) (PackagesDir : bool).
Context (run_query : string -> list RuleCompile.arg -> fdb -> result store_error (list string)).
Context (checkServerUpdate : string -> result string string) (startServerUpdate : string -> string -> result string json).
Context (running_version : string) (error_text : failure -> string) (cs : Commands.Service).

Ltac asides := repeat first [progress frames | progress cbv zeta].

Lemma aside_holds x id kind body summary : tkeeps aside (holdForApproval x id kind body summary).
Proof. unfold holdForApproval, stored. asides. Qed.

Lemma aside_create {V B} (K : Kind world V) i first details :
  (forall s w, w_fleet (put kind_shelf s w) = w_fleet w) -> kind_fleet = fleet_part ->
  tkeeps aside (create i first details : txn world (library_error B) Item).
Proof.
  intros Hs Hf. apply keeps_create; [typeclasses eauto|intros; by apply aside_shelf|].
  intros E a. unfold on_fleet. rewrite Hf. apply aside_fleet. frames.
Qed.
Lemma aside_update {V B} (K : Kind world V) prepare now id name description actor hold :
  (forall s w, w_fleet (put kind_shelf s w) = w_fleet w) -> kind_fleet = fleet_part ->
  tkeeps aside (update prepare now id name description actor hold : txn world (library_error B) (Item * Z)).
Proof.
  intros Hs Hf. apply keeps_update; [typeclasses eauto|intros; by apply aside_shelf|].
  intros E a. unfold on_fleet. rewrite Hf. apply aside_fleet. frames.
Qed.

Hint Extern 1 (tkeeps aside (create _ _ _)) => (apply aside_create; reflexivity) : frames.
Hint Extern 1 (tkeeps aside (update _ _ _ _ _ _ _)) => (apply aside_update; reflexivity) : frames.
Hint Resolve aside_holds : frames.

Lemma aside_version now i : tkeeps aside (version PackagesDir packages_part now i).
Proof. unfold version, validatePackage. asides. intros w. unfold same. repeat case_match; reflexivity. Qed.
Hint Resolve aside_version : frames.

Lemma aside_createScript x i : tkeeps aside (createScript json_text OperationsKeys x i).
Proof. unfold createScript, script, CreateScript. asides. Qed.
Lemma aside_createProfile x i : tkeeps aside (createProfile json_text hmac_sha256 OperationsKeys ServerKey x i).
Proof. unfold createProfile, profile, CreateProfile. asides. Qed.
Lemma aside_createApp x i : tkeeps aside (createApp json_text OperationsKeys PackagesDir x i).
Proof. unfold createApp, Admin.app, CreateApp. asides. Qed.
Lemma aside_uploadAppPackage x body name : tkeeps aside (uploadAppPackage PackagesDir x body name).
Proof. unfold uploadAppPackage, Admin.app, UploadPackage. asides. intros w. unfold same. repeat case_match; reflexivity. Qed.
Lemma aside_path_id raw : tkeeps aside (path_id uuid_Parse raw).
Proof. unfold path_id, not_found. asides. Qed.
Lemma aside_body_id raw : tkeeps aside (body_id uuid_Parse raw).
Proof. unfold body_id, bad_request_. asides. Qed.
Hint Resolve aside_path_id aside_body_id : frames.

Section Held.
Context (h : Handler).

Lemma aside_path {A} raw (k : string -> txn world response A) : (forall id, tkeeps aside (k id)) -> tkeeps aside (let* id := path_id uuid_Parse raw in k id).
Proof. intros H. eapply keeps_bind; [typeclasses eauto|apply aside_path_id|done]. Qed.

Lemma aside_update_item x kind id (held_update : txn world response (Item * Z)) (plain_update : txn world response Item) :
  tkeeps aside held_update -> tkeeps aside plain_update -> tkeeps aside (update_item h x kind id held_update plain_update).
Proof. intros H1 H2. unfold update_item, holdVersion, stored, itemNeedsApproval, ItemReach. asides. Qed.

Lemma aside_updateScript x raw i : tkeeps aside (updateScript uuid_Parse json_text OperationsKeys h x raw i).
Proof. unfold updateScript. apply aside_path. intros id. cbv zeta. apply aside_update_item; unfold script, UpdateScriptHeld, UpdateScript, update_script; asides. Qed.
Lemma aside_updateProfile x raw i : tkeeps aside (updateProfile uuid_Parse json_text hmac_sha256 OperationsKeys ServerKey h x raw i).
Proof. unfold updateProfile. apply aside_path. intros id. cbv zeta. apply aside_update_item; unfold profile, UpdateProfileHeld, UpdateProfile, update_profile; asides. Qed.
Lemma aside_updateApp x raw i : tkeeps aside (updateApp uuid_Parse json_text OperationsKeys PackagesDir h x raw i).
Proof. unfold updateApp. apply aside_path. intros id. cbv zeta. apply aside_update_item; unfold Admin.app, UpdateAppHeld, UpdateApp, update_app; asides. Qed.
Lemma aside_requestServerUpdate x v : tkeeps aside (requestServerUpdate checkServerUpdate startServerUpdate running_version h x v).
Proof. unfold requestServerUpdate, refusal_. asides. Qed.
Lemma aside_listApprovals x : tkeeps aside (listApprovals x).
Proof. unfold listApprovals, stored. asides. Qed.

Lemma aside_visible_ids x raw : tkeeps aside (visible_ids uuid_Parse x raw).
Proof. induction raw as [|s raw IH]; simpl; [asides|]. unfold deviceVisible, not_found, DeviceInScope, stored. asides. Qed.

Lemma aside_check_all x q payload actor i ids : tkeeps aside (check_all cs x q payload actor i ids).
Proof.
  revert i. induction ids as [|dev ids IH]; intros i; simpl; [asides|]. eapply keeps_bind; [typeclasses eauto| |intros _; apply IH].
  apply keeps_map_err. by apply keeps_elsewhere.
Qed.

Lemma aside_queueCommand x q : tkeeps aside (queueCommand uuid_Parse cs h x q).
Proof.
  unfold queueCommand. eapply keeps_bind; [typeclasses eauto|frames|intros []].
  destruct (payloadFor q) as [payload|] eqn:Hp; [|unfold bad_request_; frames].
  eapply keeps_bind; [typeclasses eauto|unfold command_allowed; frames|intros []].
  eapply keeps_bind; [typeclasses eauto|apply aside_visible_ids|intros ids]. intros w.
  destruct (commandNeedsApproval h (cx_Now x) (email (cx_Caller x)) (qr_Type q) ids w) as [[] reach].
  - revert w. eapply keeps_bind; [typeclasses eauto|apply aside_check_all|intros _; apply aside_holds].
  - destruct (queueCommands cs x q payload (email (cx_Caller x)) 1 ids w) as [[out e] w'] eqn:Eq.
    apply queueCommands_sends in Eq as (Hw & _); [|done]. assert (same reach_of w w'); [by rewrite Hw|by destruct e].
Qed.

Lemma aside_settle x approve id reason : tkeeps aside (settleApproval x approve id reason).
Proof. unfold settleApproval, stored, group_or_internal, GetApproval. asides. Qed.

(** *** What is left as it was, or small *)

Hypothesis required : ApprovalsRequired h = true.
Abbreviation T := (ApprovalThreshold h).
Definition contained_w (w w' : world) : Prop := contained T (w_fleet w) (w_fleet w').

#[local] Instance contained_w_preorder : PreOrder contained_w.
Proof. unfold contained_w. split; [intros w; reflexivity|]. intros a b c H1 H2. by etrans. Qed.

Lemma keeps_aside {E A} (m : txn world E A) : tkeeps aside m -> tkeeps contained_w m.
Proof. intros H w. apply same_contained. exact (H w). Qed.

Lemma keeps_fleet_contained {E A} (m : ftx E A) : tkeeps (contained T) m -> tkeeps contained_w (fleet m).
Proof. apply keeps_zoom. by intros w f. Qed.

(** Where a request looks before it decides: at the tables as they are. *)
Lemma look_then {A B} (m : ftx store_error A) (f : store_error -> response) (k : A -> txn world response B) w :
  (forall e, (m e).2 = e) -> (forall a, (m (w_fleet w)).1 = Ok a -> contained_w w (k a w).2) -> contained_w w ((let* a := tmap_err f (fleet m) in k a) w).2.
Proof.
  intros Hm Hk. specialize (Hm (w_fleet w)). unfold tbind, tmap_err, fleet, zoom. simpl.
  destruct (m (w_fleet w)) as [[a|e] f'] eqn:E; simpl in *; subst; rewrite set_same_fleet; [by apply Hk|reflexivity].
Qed.

Lemma assignmentNeeds_reads a d : (assignmentNeedsApproval h a d).2 = d.
Proof. unfold assignmentNeedsApproval, GetGroup, GroupMemberCount, tbind, fget, found, tret, tfail. repeat case_match; simplify_eq; done. Qed.

Lemma unheld_small a d : (assignmentNeedsApproval h a d).1 = Ok false -> code a -> forall g, f_groups d !! as_GroupID a = Some g -> small T g.
Proof.
  unfold assignmentNeedsApproval. rewrite required. intros H [Hm Hu] g Hg. rewrite Hm, Hu in H. simpl in H.
  unfold GetGroup, tbind, fget, found in H. rewrite Hg in H. simpl in H. destruct (String.eqb_spec (g_Kind g) GroupStatic) as [Hs|]; [|done].
  unfold GroupMemberCount, fget in H. simpl in H. rewrite Hg in H. injection H as H. split; [done|]. lia.
Qed.

Lemma last_step {A B} (m : txn world response A) (b : B) w : contained_w w (m w).2 -> contained_w w ((do* m; tret b) w).2.
Proof. unfold tbind. by destruct (m w) as [[?|?] ?]. Qed.

Lemma fleet_step {E A} (f : E -> response) (m : ftx E A) w : contained T (w_fleet w) (m (w_fleet w)).2 -> contained_w w ((tmap_err f (fleet m) w).2).
Proof. unfold tmap_err, fleet, zoom, contained_w. simpl. by destruct (m (w_fleet w)) as [[?|?] ?]. Qed.

Lemma createAssignment_contained x q : tkeeps contained_w (createAssignment uuid_Parse h x q).
Proof.
  unfold createAssignment. destruct (parseAssignment _ _ _ _ _) as [a|e]; [|apply keeps_aside; unfold bad_request_; asides].
  eapply keeps_bind; [typeclasses eauto|apply keeps_aside; asides|intros [] w]. unfold group_or_internal at 1.
  apply look_then; [apply assignmentNeeds_reads|]. intros [] Ha; [apply keeps_aside, aside_holds|].
  apply last_step, fleet_step, saveAssignment_contained. by apply unheld_small.
Qed.

(** The group and whether it may change, both read before anything is done. *)
Lemma group_then {B} id (k : Group -> txn world response B) w :
  (forall g, f_groups (w_fleet w) !! id = Some g -> contained_w w (k g w).2) -> contained_w w ((let* g := group (GroupService.Get id) in k g) w).2.
Proof.
  intros Hk. unfold tbind, group, tmap_err, fleet, zoom. simpl. pose proof (Get_reads id (w_fleet w)) as Hr.
  destruct (GroupService.Get id (w_fleet w)) as [[g|e] f] eqn:E; simpl in *; subst; rewrite set_same_fleet; [|reflexivity].
  apply Hk. by apply Get_Ok in E as [? _].
Qed.

Lemma ruleNeeds_free id g rule d : (ruleNeedsApproval h id g rule d).1 = Ok false -> f_groups d !! id = Some g -> rule_free id rule d.
Proof.
  unfold ruleNeedsApproval. rewrite required. intros H Hg g' Hg' Hdyn Hne. assert (g' = g) as -> by congruence.
  rewrite Hdyn in H. simpl in H. apply String.eqb_neq in Hne. rewrite Hne in H. simpl in H.
  unfold groupHasCode, GroupIncludesAnyOf, fget in H. simpl in H. by injection H.
Qed.

Lemma rule_hold_None x id r w w' : rule_hold h x id r w = (Ok None, w') -> w' = w /\ rule_free id (gr_Rule r) (w_fleet w).
Proof.
  unfold rule_hold. rewrite required. change (negb true) with false. cbv iota. intros H. unfold group, stored in H. txs.
  match goal with H : fleet (GroupService.Get _) _ = _ |- _ => apply fleet_Ok in H as (f & Hf & ->) end.
  apply Get_Ok in Hf as [Hg ->]. rewrite set_same_fleet in *.
  match goal with H : fleet (ruleNeedsApproval _ _ _ _) _ = _ |- _ => apply fleet_Ok in H as (f & Hf & ->) end.
  assert (f = w_fleet w) as ->. { unfold ruleNeedsApproval, groupHasCode, GroupIncludesAnyOf, tret, fget in Hf. destruct (_ || _); by injection Hf. }
  rewrite set_same_fleet in *. match goal with H : (if negb ?b then _ else _) _ = _ |- _ => destruct b end; simpl in *; txs; [unfold tret in *; congruence|].
  split; [unfold tret in *; congruence|]. eapply ruleNeeds_free; [by rewrite Hf|done].
Qed.

Lemma aside_rule_hold x id r : tkeeps aside (rule_hold h x id r).
Proof. unfold rule_hold, group, stored, ruleNeedsApproval, groupHasCode, GroupIncludesAnyOf. asides. Qed.

Lemma updateGroup_contained x raw r : tkeeps contained_w (updateGroup uuid_Parse run_query h x raw r).
Proof.
  unfold updateGroup. eapply keeps_bind; [typeclasses eauto|apply keeps_aside, aside_path_id|intros id w]. unfold tbind at 1.
  pose proof (keeps_aside _ (aside_rule_hold x id r) w) as Hw.
  destruct (rule_hold h x id r w) as [[[summary|]|e] w1] eqn:E; [|..|exact Hw].
  - etrans; [exact Hw|]. apply keeps_aside, aside_holds.
  - apply rule_hold_None in E as [-> Hfree]. apply last_step, fleet_step. by apply Update_contained.
Qed.

Lemma memberNeeds_Ok id g dev d n f : memberNeedsApproval h id g dev d = (Ok (false, n), f) -> f = d /\
  (f_groups d !! id = Some g -> g_Kind g = GroupStatic -> has_code id d = true -> dev ∉ g_Members g -> Z.of_nat (length (g_Members g)) + 1 <= T).
Proof.
  unfold memberNeedsApproval, groupHasCode, GroupIncludesAnyOf, IsGroupMember, GroupMemberCount. rewrite required. cbn [negb orb].
  intros H. destruct (String.eqb_spec (g_Kind g) GroupStatic) as [Hs|Hs]; cbn [negb] in H; [|unfold tret in H; split; [congruence|done]].
  unfold tbind, fget, tret in H. change (existsb _ (f_assignments d)) with (has_code id d) in H.
  destruct (has_code id d) eqn:Ec; cbn [negb] in H; [|split; [congruence|done]].
  destruct (is_member d id dev) eqn:Em; [split; [congruence|]|].
  - intros Hg _ _ Hnot. unfold is_member in Em. rewrite Hg in Em. by apply existsb_eq_elem in Em.
  - injection H as H _ <-. split; [done|]. intros Hg _ _ _. rewrite Hg in H. lia.
Qed.

Lemma member_hold_None x id dev w w' : member_hold h x id dev w = (Ok None, w') -> w' = w /\
  forall g, f_groups (w_fleet w) !! id = Some g -> g_Kind g = GroupStatic -> has_code id (w_fleet w) = true ->
    dev ∉ g_Members g -> Z.of_nat (length (g_Members g)) + 1 <= T.
Proof.
  unfold member_hold. rewrite required. change (negb true) with false. cbv iota. intros H. unfold group, stored, group_or_internal in H. txs.
  match goal with H : fleet (GroupService.Get _) _ = _ |- _ => apply fleet_Ok in H as (f & Hf & ->) end.
  apply Get_Ok in Hf as [Hg ->]. rewrite set_same_fleet in *.
  match goal with H : fleet (GetDevice _) _ = _ |- _ => apply fleet_Ok in H as (f & Hf & ->) end.
  apply GetDevice_Ok in Hf as ->. rewrite set_same_fleet in *.
  match goal with H : fleet (memberNeedsApproval _ _ _ _) _ = _ |- _ => apply fleet_Ok in H as (f & Hf & ->) end.
  match goal with H : (let '(_, _) := ?y in _) _ = _ |- _ => destruct y as [[] n]; unfold tret in H; [congruence|injection H as <-] end.
  apply memberNeeds_Ok in Hf as [-> Hsmall]. rewrite set_same_fleet. split; [done|]. intros g Hg'. assert (g = x0) as -> by congruence. by apply Hsmall.
Qed.

Lemma aside_member_hold x id dev : tkeeps aside (member_hold h x id dev).
Proof. unfold member_hold, group, stored, group_or_internal, memberNeedsApproval, groupHasCode, GroupIncludesAnyOf, IsGroupMember, GroupMemberCount, GetDevice. asides. Qed.

Lemma addGroupMember_contained x raw dev : tkeeps contained_w (addGroupMember uuid_Parse h x raw dev).
Proof.
  unfold addGroupMember. eapply keeps_bind; [typeclasses eauto|apply keeps_aside, aside_path_id|intros id].
  eapply keeps_bind; [typeclasses eauto|apply keeps_aside, aside_body_id|intros d w]. unfold tbind at 1.
  pose proof (keeps_aside _ (aside_member_hold x id d) w) as Hw.
  destruct (member_hold h x id d w) as [[[summary|]|e] w1] eqn:E; [|..|exact Hw].
  - etrans; [exact Hw|]. apply keeps_aside, aside_holds.
  - apply member_hold_None in E as [-> Hs]. apply last_step, fleet_step. by apply AddMember_contained.
Qed.

(** *** The others *)

Lemma contained_group_op {A} raw (m : string -> ftx group_error A) (b : response) :
  (forall id, tkeeps (contained T) (m id)) -> tkeeps contained_w (let* id := path_id uuid_Parse raw in do* group (m id); tret b).
Proof.
  intros H. eapply keeps_bind; [typeclasses eauto|apply keeps_aside, aside_path_id|intros id w]. apply last_step, fleet_step, H.
Qed.

Lemma removeGroupMember_contained x raw dev : tkeeps contained_w (removeGroupMember uuid_Parse x raw dev).
Proof.
  unfold removeGroupMember. eapply keeps_bind; [typeclasses eauto|apply keeps_aside, aside_path_id|intros id].
  eapply keeps_bind; [typeclasses eauto|apply keeps_aside, aside_body_id|intros d w]. apply last_step, fleet_step, RemoveMember_contained.
Qed.

Lemma evaluateGroup_contained x raw : tkeeps contained_w (evaluateGroup uuid_Parse run_query x raw).
Proof.
  unfold evaluateGroup. eapply keeps_bind; [typeclasses eauto|apply keeps_aside, aside_path_id|intros id w].
  apply group_then. intros g Hg. apply last_step, fleet_step, EvaluateGroup_contained. intros g' Hg'. congruence.
Qed.

Lemma deleteAssignment_contained x raw : tkeeps contained_w (deleteAssignment uuid_Parse x raw).
Proof.
  unfold deleteAssignment. eapply keeps_bind; [typeclasses eauto|apply keeps_aside, aside_path_id|intros id w]. apply last_step, fleet_step.
  revert w. cut (tkeeps (contained T) (InTx (
    let* a := GetAssignment id in
    do* tensure (groupVisible (cx_Scope (cx_Caller x)) (as_GroupID a)) ErrNotFound;
    do* DeleteAssignment id;
    InsertAudit (mkAudit (email (cx_Caller x)) "assignment.deleted" "assignment" id
      [("item_kind", JStr (as_ItemKind a)); ("item_id", JStr (as_ItemID a))]%string)))); [intros H w; apply H|].
  apply keeps_InTx; [typeclasses eauto|]. eapply keeps_bind; [typeclasses eauto|apply keeps_same_contained; unfold GetAssignment; frames|intros a].
  eapply keeps_bind; [typeclasses eauto|apply keeps_same_contained; frames|intros []].
  eapply keeps_bind; [typeclasses eauto| |intros []; apply keeps_same_contained, reach_audit].
  intros d. apply fewer_contained. by intros b [? _]%elem_of_filterb.
Qed.

Lemma deleted_contained {V B} (K : Kind world V) id actor : (forall s w, w_fleet (put kind_shelf s w) = w_fleet w) -> kind_fleet = fleet_part ->
  tkeeps contained_w (Library.Delete id actor : txn world (library_error B) unit).
Proof.
  intros Hs Hf. apply keeps_DeleteItem; [typeclasses eauto|intros; by apply keeps_aside, aside_shelf|..].
  - intros E a. apply keeps_aside. unfold on_fleet. rewrite Hf. apply aside_fleet. frames.
  - unfold on_fleet. rewrite Hf. apply keeps_fleet_contained. intros d. apply fewer_contained. by intros b [? _]%elem_of_filterb.
Qed.

Lemma delete_item_contained {A B} raw (m : string -> txn world (library_error B) A) (f : library_error B -> response) (b : response) :
  (forall id, tkeeps contained_w (m id)) -> tkeeps contained_w (let* id := path_id uuid_Parse raw in do* tmap_err f (m id); tret b).
Proof.
  intros H. eapply keeps_bind; [typeclasses eauto|apply keeps_aside, aside_path_id|intros id w]. apply last_step. by apply keeps_map_err.
Qed.

(** *** Any request that approves nothing *)

Definition approves (r : request) : bool := match r with DecideReq true _ _ => true | _ => false end.

Abbreviation serve_ x r w :=
  (serve uuid_Parse json_text hmac_sha256 OperationsKeys ServerKey PackagesDir run_query checkServerUpdate startServerUpdate running_version error_text cs h x r w).
Abbreviation after hist w :=
  (serve_all uuid_Parse json_text hmac_sha256 OperationsKeys ServerKey PackagesDir run_query checkServerUpdate startServerUpdate running_version error_text cs h hist w).

Lemma reject_contained x raw reason :
  tkeeps contained_w (decideApproval uuid_Parse run_query startServerUpdate error_text cs x false raw reason).
Proof.
  apply keeps_aside. unfold decideApproval. eapply keeps_bind; [typeclasses eauto|apply aside_path_id|intros id].
  eapply keeps_bind; [typeclasses eauto|apply aside_settle|intros a]. change (negb false) with true. cbv iota. frames.
Qed.

Lemma serve_contained x r w : approves r = false -> contained_w w (serve_ x r w).2.
Proof.
  intros Hr. unfold serve. destruct (may (route_of r) (cx_Caller x)); [|reflexivity].
  assert (tkeeps contained_w (handle uuid_Parse json_text hmac_sha256 OperationsKeys ServerKey PackagesDir run_query
    checkServerUpdate startServerUpdate running_version error_text cs h x r)) as H.
  { destruct r; simpl handle; first
    [ apply createAssignment_contained | apply deleteAssignment_contained | apply updateGroup_contained | apply addGroupMember_contained
    | apply removeGroupMember_contained | apply evaluateGroup_contained
    | apply contained_group_op; intros i d; apply GroupDelete_contained
    | apply delete_item_contained; intros i; by apply deleted_contained
    | apply keeps_aside; first [ apply aside_queueCommand | apply aside_createScript | apply aside_updateScript | apply aside_createProfile
        | apply aside_updateProfile | apply aside_createApp | apply aside_updateApp | apply aside_uploadAppPackage
        | apply aside_requestServerUpdate | apply aside_listApprovals ]
    | idtac ].
    - intros w1. unfold createGroup. apply last_step, fleet_step, Create_contained.
    - destruct approve; [done|]. apply reject_contained. }
  specialize (H w). by destruct (handle _ _ _ _ _ _ _ _ _ _ _ _ _ _ _ w) as [[|] ?].
Qed.

(** C3. However many requests are made, and by whom: as long as none approves
    anything, code and settings are included only in static groups of at most
    the threshold's size, or by the very assignments that were there, in groups
    that have not grown - whose rules have not changed, if they have one. *)
Theorem nobody_reaches_far_alone hist w : Forall (fun s => approves s.2 = false) hist -> anchored (w_fleet w) ->
  let d := w_fleet (after hist w) in
  anchored d /\ forall a g', a ∈ f_assignments d -> code a -> f_groups d !! as_GroupID a = Some g' ->
    (g_Kind g' = GroupStatic /\ Z.of_nat (length (g_Members g')) <= ApprovalThreshold h) \/
    (a ∈ f_assignments (w_fleet w) /\ exists g, f_groups (w_fleet w) !! as_GroupID a = Some g /\ g_Kind g' = g_Kind g /\
       (g_Kind g = GroupStatic -> g_Members g' ⊆ g_Members g) /\ (g_Kind g <> GroupStatic -> g_Rule g' = g_Rule g)).
Proof.
  intros Hh Ha. assert (contained_w w (after hist w)) as H.
  { revert w Ha. induction hist as [|[x r] hist IH]; intros w Ha; simpl; [reflexivity|]. apply Forall_cons in Hh as [Hr Hh].
    pose proof (serve_contained x r w Hr) as Hc. etrans; [exact Hc|]. apply IH; [done|]. by apply Hc. }
  destruct (H Ha) as [Ha' Hc]. split; [done|]. intros a g' Hin Hcode Hg'.
  destruct (Hc a g' Hin Hcode Hg') as [?|(Hin0 & g & Hg & Hk & Hw)]; [by left|right].
  split; [done|]. exists g. split; [done|]. split; [done|]. destruct (String.eqb_spec (g_Kind g) GroupStatic); split; try done. by intros _; apply Hw.
Qed.
End Held.
End Requests.
