(* ===== verification/AdminExamples.v ===== *)
(** * An office, and what its administrators do

    One concrete server, on which the theorems about the admin API are
    applied. *)
From S2P Require Import Settings Scripts AppSync SettingsProps AuthStore Access CommandProps.
From S2P Require Export Approvals Reach LibraryLife.
From S2P Require Export FleetStore.
Open Scope Z_scope.
Open Scope go_scope.

Module Office.
#[export] Existing Instance Toy.toy_crypto.
#[export] Existing Instance toy_time.
#[export] Existing Instance toy_time_laws.
#[export] Existing Instance SettingsProps.Sample.certificates.

Definition admin (id : string) : Admin :=
  mkAdmin id (id ++ "@example.com")%string EmptyString EmptyString RoleAdmin 0 None None EmptyString EmptyString EmptyString false.
Definition console_of (id : string) : authContext := mkAuthContext (admin id) None None Unscoped.

Definition at_ (now : time) (id prefix : string) : Ctx :=
  mkCtx now (fun n => (prefix ++ Itoa (Z.of_nat n))%string) (fun n => Itoa (Z.of_nat n)) (console_of id).

Definition uuid_Parse (s : string) : option string := if String.eqb s EmptyString then None else Some s.
Definition json_text (j : json) : string := "json".
Definition hmac (key text : string) : string := (key ++ text)%string.
Definition run_query (sql : string) (args : list RuleCompile.arg) (d : fdb) : result store_error (list string) := Ok ["d1"; "d2"]%string.
Definition check_update (v : string) : result string string := Ok v.
Definition start_update (v actor : string) : result string json := Ok JNull.
Definition error_text (f : failure) : string := "failed".
Definition queueing : Commands.Service := app_service [].
Definition handler : Handler := mkHandler true 2.

Definition tables : db := mkDB {[ "d1"%string := mkDevice "PC-1" "active"; "d2"%string := mkDevice "PC-2" "active"; "d3"%string := mkDevice "PC-3" "active" ]} [] [] [] [] [].
Definition fleet_tables : fdb :=
  mkFdb {[ "g1"%string := mkGroupRow "Staff" EmptyString GroupStatic EmptyString 0 0 None ["d1"; "d2"]%string;
           "g2"%string := mkGroupRow "Everyone" EmptyString GroupDynamic "hostname = 'y'" 0 0 None [] ]}
    {[ "d1"%string := mkFleetDevice "PC-1" DeviceActive; "d2"%string := mkFleetDevice "PC-2" DeviceActive; "d3"%string := mkFleetDevice "PC-3" DeviceActive ]}
    ∅ [] [] [] None [] [] 0 0.
Definition start : world := mkWorld tables fleet_tables (mkShelf [] []) [] (mkShelf [] []) [] (mkShelf [] []) [] ∅.

Abbreviation after hist w :=
  (serve_all uuid_Parse json_text hmac [] None true run_query check_update start_update "1.0" error_text queueing handler hist w).

Definition wipe_request : queueRequest :=
  mkQueueRequest ["d1"%string] CommandWipe EmptyString 0 0 EmptyString 0 0 true "pc-1" "stolen" None None EmptyString 0 EmptyString false EmptyString EmptyString.
Definition wiping : list (Ctx * request) :=
  [(at_ 100 "alice" "a", QueueCommand wipe_request); (at_ 200 "bob" "b", DecideReq true "a0" "agreed")].
End Office.
Import Office.

(** Alice's request waits; Bob's approval sends it; hers would not have. *)
Example alice_asks_bob_agrees :
  map c_Type (t_commands (w_commands (after [(at_ 100 "alice" "a", QueueCommand wipe_request)] start))) = [] /\
  map (fun c => (c_DeviceID c, c_Type c, c_CreatedBy c)) (t_commands (w_commands (after wiping start))) = [("d1", CommandWipe, "alice@example.com")]%string /\
  map c_Type (t_commands (w_commands (after [(at_ 100 "alice" "a", QueueCommand wipe_request); (at_ 200 "alice" "b", DecideReq true "a0" "me")] start))) = [].
Proof. split_and!; vm_compute; reflexivity. Qed.

Lemma wiping_on_the_wire : Forall (fun s => wire_request s.2) wiping.
Proof. repeat constructor. by intros t [=]. Qed.

Lemma wipes_take_two_people_witness :
  let c := List.hd (mkCommand EmptyString EmptyString EmptyString JNull EmptyString EmptyString 0 None None None 0)
             (t_commands (w_commands (after wiping start))) in
  c_Type c = CommandWipe /\ c_DeviceID c = "d1"%string /\ two_asked uuid_Parse wiping c.
Proof.
  split_and!; [vm_compute; reflexivity|vm_compute; reflexivity|].
  apply (wipes_take_two_people uuid_Parse json_text hmac [] None true run_query check_update start_update "1.0" error_text queueing handler eq_refl wiping start);
    [split; [reflexivity|by intros c ?%elem_of_nil]|exact wiping_on_the_wire|..|vm_compute; reflexivity].
  apply list_elem_of_In. vm_compute. left. reflexivity.
Defined.

(** ** Approving *)

Module Assigning.
Definition ask : assignmentRequest := mkAssignmentRequest ItemKindScript "s1" "g2" ModeInclude None None.
Definition asked : world := after [(at_ 100 "alice" "a", CreateAssignmentReq ask)] start.
Definition held : Approval := List.hd (mkApproval EmptyString EmptyString JNull EmptyString EmptyString EmptyString 0 0 EmptyString EmptyString None EmptyString None)
  (f_approvals (w_fleet asked)).
Definition done_at (now : time) : Ctx := at_ now "bob" "b".
End Assigning.

Lemma approving_does_what_was_asked_witness :
  f_approvals (w_fleet Assigning.asked) = [Assigning.held] /\ ap_Kind Assigning.held = ApprovalAssignment /\
  exists w' result, f_assignments (w_fleet w') <> [] /\
    replayApproval uuid_Parse run_query start_update error_text queueing (Assigning.done_at 200) Assigning.held Assigning.asked = ((result, false), w').
Proof.
  split_and!; [vm_compute; reflexivity|vm_compute; reflexivity|].
  destruct (approving_does_what_was_asked uuid_Parse json_text hmac [] None true run_query check_update start_update "1.0" error_text queueing 2
    ltac:(intros ? ?; unfold uuid_Parse; destruct (String.eqb _ _) eqn:?; [done|intros [= <-]; by destruct (String.eqb _ _)])
    (at_ 100 "alice" "a") (CreateAssignmentReq Assigning.ask) Assigning.held
    ltac:(repeat split; vm_compute; reflexivity) ltac:(done)) as [H _].
  specialize (H eq_refl (Assigning.done_at 200) Assigning.asked 201).
  edestruct H as [result Hr]; [vm_compute; reflexivity|]. eexists _, result. split; [|exact Hr]. done.
Defined.

(** ** Reaching *)

Module Reaching.
(** Carol's script is in the small group; growing it and the rule wait. *)
Definition groups : world := set_w_fleet (set_f_assignments
  [mkAssignment "x1" ItemKindScript "s1" "g1" ModeInclude 0 "alice" None zero_rollout;
   mkAssignment "x2" ItemKindScript "s2" "g2" ModeInclude 0 "alice" None zero_rollout] fleet_tables) start.
Definition alone : list (Ctx * request) :=
  [(at_ 100 "carol" "c", AddGroupMemberReq "g1" "d3"); (at_ 101 "carol" "e", UpdateGroupReq "g2" (mkGroupRequest "Everyone" EmptyString EmptyString "hostname = 'x'"));
   (at_ 102 "carol" "f", CreateAssignmentReq (mkAssignmentRequest ItemKindScript "s3" "g2" ModeInclude None None));
   (at_ 103 "carol" "i", CreateAssignmentReq (mkAssignmentRequest ItemKindScript "s3" "g1" ModeInclude None None))].
End Reaching.

Lemma nobody_reaches_far_alone_witness :
  map ap_Kind (f_approvals (w_fleet (after Reaching.alone Reaching.groups))) = [ApprovalGroupMember; ApprovalGroupRule; ApprovalAssignment] /\
  map as_GroupID (f_assignments (w_fleet (after Reaching.alone Reaching.groups))) = ["g1"; "g2"; "g1"]%string /\
  anchored (w_fleet (after Reaching.alone Reaching.groups)).
Proof.
  split_and!; [vm_compute; reflexivity|vm_compute; reflexivity|].
  apply (nobody_reaches_far_alone uuid_Parse json_text hmac [] None true run_query check_update start_update "1.0" error_text queueing handler eq_refl
    Reaching.alone Reaching.groups); [by repeat constructor|].
  intros a Ha. apply list_elem_of_In in Ha. destruct Ha as [<-|[<-|[]]]; vm_compute; by eexists.
Defined.

(** Groups are counted one at a time: two of the threshold's size take an item
    to twice as many devices, and nothing waits. *)
Module AddingUp.
Definition groups : world := set_w_fleet (set_f_groups
  {[ "g1"%string := mkGroupRow "A" EmptyString GroupStatic EmptyString 0 0 None ["d1"; "d2"]%string;
     "g3"%string := mkGroupRow "B" EmptyString GroupStatic EmptyString 0 0 None ["d3"; "d4"]%string ]} fleet_tables) start.
Definition history : list (Ctx * request) :=
  [(at_ 100 "carol" "c", CreateAssignmentReq (mkAssignmentRequest ItemKindScript "s1" "g1" ModeInclude None None));
   (at_ 101 "carol" "e", CreateAssignmentReq (mkAssignmentRequest ItemKindScript "s1" "g3" ModeInclude None None))].
End AddingUp.

Example small_groups_add_up :
  ApprovalThreshold handler = 2 /\ f_approvals (w_fleet (after AddingUp.history AddingUp.groups)) = [] /\
  (ItemReach ItemKindScript "s1" (w_fleet (after AddingUp.history AddingUp.groups))).1 = Ok (4, false).
Proof. split_and!; vm_compute; reflexivity. Qed.

(** A token's commands are counted under the token's name and not its maker's:
    with one, a person sends scripts to twice the threshold in an hour. *)
Module Tokens.
Definition script_to (devices : list string) : request := QueueCommand
  (mkQueueRequest devices CommandRunPowerShell "Get-Date" 60 0 EmptyString 0 0 false EmptyString EmptyString None None EmptyString 0 EmptyString false EmptyString EmptyString).
Definition ci_token : APIToken := mkAPIToken "t1" "ci" EmptyString RoleAdmin "carol" "carol@example.com" 0 1000000 None None.
Definition by_token (now : time) (prefix : string) : Ctx :=
  mkCtx now (fun n => (prefix ++ Itoa (Z.of_nat n))%string) (fun n => Itoa (Z.of_nat n)) (mkAuthContext (stand_in ci_token) None (Some ci_token) Unscoped).
Definition tables : db := mkDB {[ "d1"%string := mkDevice "PC-1" "active"; "d2"%string := mkDevice "PC-2" "active";
  "d3"%string := mkDevice "PC-3" "active"; "d4"%string := mkDevice "PC-4" "active" ]} [] [] [] [] [].
Definition history : list (Ctx * request) :=
  [(at_ 100 "carol" "c", script_to ["d1"; "d2"]%string); (by_token 101 "e", script_to ["d3"; "d4"]%string)].
End Tokens.

Example a_token_doubles_the_allowance :
  ApprovalThreshold handler = 2 /\ person (cx_Caller (Tokens.by_token 101 "e")) = "carol"%string /\
  f_approvals (w_fleet (after Tokens.history (set_w_commands Tokens.tables start))) = [] /\
  map c_DeviceID (t_commands (w_commands (after Tokens.history (set_w_commands Tokens.tables start)))) = ["d1"; "d2"; "d3"; "d4"]%string.
Proof. split_and!; vm_compute; reflexivity. Qed.

(** ** The library *)

Module Writing.
Definition body (n : Z) : NewScript := mkNewScript "Clean up" EmptyString ("Remove-Item " ++ Itoa n)%string EmptyString EmptyString None.
Definition written : world := after [(at_ 100 "alice" "s", CreateScriptReq (body 1))] start.
(** Two machines have the script, so nothing waits: it is rewritten and put
    back, while somebody deletes a profile of that id, if there is one. *)
Definition rewriting : list (Ctx * request) :=
  [(at_ 101 "alice" "t", CreateAssignmentReq (mkAssignmentRequest ItemKindScript "s0" "g1" ModeInclude None None));
   (at_ 102 "alice" "u", UpdateScriptReq "s0" (body 2)); (at_ 103 "alice" "v", DeleteProfileReq "s0"); (at_ 104 "alice" "w", UpdateScriptReq "s0" (body 1))].
End Writing.

Lemma written_well : library_well Writing.written.
Proof.
  assert (forall V, kept_well (mkShelf [] [] : shelf V)) as Hnil by (intros V; split; simpl; try apply NoDup_nil_2; by intros ? ?%elem_of_nil).
  split; [|split; [exact (Hnil _)|exact (Hnil _)]].
  split; vm_compute; [apply NoDup_singleton|apply NoDup_singleton|apply NoDup_singleton|..].
  - intros i ->%list_elem_of_singleton. eexists. split; [by apply list_elem_of_singleton|reflexivity].
  - intros v ->%list_elem_of_singleton. split; [done|]. eexists. split; [by apply list_elem_of_singleton|reflexivity].
Qed.

Lemma versions_are_kept_witness :
  map (fun v => (v_Number v, sb_Body (v_Content v))) (sh_versions (w_scripts (after Writing.rewriting Writing.written))) =
    [(1, "Remove-Item 1"); (2, "Remove-Item 2"); (3, "Remove-Item 1")]%string /\
  map i_CurrentVersion (sh_items (w_scripts (after Writing.rewriting Writing.written))) = [3] /\
  goes_on "s0" (w_scripts Writing.written) (w_scripts (after Writing.rewriting Writing.written)).
Proof.
  split_and!; [vm_compute; reflexivity|vm_compute; reflexivity|].
  destruct (versions_are_kept uuid_Parse json_text hmac [] None true run_query check_update start_update "1.0" error_text queueing handler
    Writing.rewriting Writing.written written_well) as [_ H].
  destruct (H ItemKindScript "s0"%string) as (Hs & _ & _); [|by apply Hs].
  intros s Hs. unfold Writing.rewriting in Hs. rewrite !elem_of_cons in Hs.
  destruct Hs as [->|[->|[->|[->|[]%elem_of_nil]]]]; simpl; try tauto. by intros [? _].
Defined.
