(* ===== verification/Devices.v ===== *)
(** * Devices, and what lets them in

    [internal/server/store/devices.go], [tokens.go], [registrations.go] and the
    device part of [agentbuilds.go]: the whole row of a device, the enrollment
    tokens and the registrations by serial number, beside the server's other
    tables. There is one [devices] table; the columns that groups and commands
    read are kept in their own tables too, and every statement here writes all
    of them. Also [internal/server/devices/service.go], which ends a device. *)
From S2P Require Import Settings Scripts AppSync AuthStore Access.
From S2P Require Export Admin.
From S2P Require Export FleetStore.
Open Scope Z_scope.
Open Scope go_scope.

(** ** Rows *)

Definition DeviceRetired : string := "retired".
Definition DeviceUnenrolled : string := "unenrolled".
Definition DeviceReplaced : string := "replaced".

Record DeviceRow := mkDeviceRow {
  dv_Hostname : string; dv_Serial : string; dv_SMBIOSUUID : string; dv_OSVersion : string; dv_Status : string;
  dv_CertSerial : string; dv_CertExpiresAt : time; dv_LastSeenAt : option time; dv_AgentVersion : string; dv_EnrolledAt : time;
  dv_ReplacedBy : option string; dv_PrevCertSerial : string; dv_OSBuild : string; dv_Manufacturer : string; dv_Model : string;
  dv_Platform : string }.

Record EnrollmentToken := mkEnrollmentToken {
  et_ID : string; et_TokenHash : string; et_Label : string; et_ExpiresAt : option time; et_MaxUses : option Z; et_UseCount : Z;
  et_RevokedAt : option time; et_CreatedBy : string; et_CreatedAt : time; et_RegisteredOnly : bool }.

Record DeviceRegistration := mkRegistration {
  rg_ID : string; rg_Serial : string; rg_DeviceName : string; rg_GroupIDs : list string; rg_Notes : string;
  rg_DeviceID : option string; rg_EnrolledAt : option time; rg_CreatedAt : time; rg_CreatedBy : string }.

(** What [UpdateDeviceHardware] is given. *)
Record HardwareInfo := mkHardware {
  hw_Hostname : string; hw_Serial : string; hw_SMBIOSUUID : string; hw_OSVersion : string; hw_OSBuild : string;
  hw_Manufacturer : string; hw_Model : string }.

Record server := mkServer {
  sv_devices : gmap string DeviceRow; sv_tokens : list EnrollmentToken; sv_registrations : list DeviceRegistration; sv_world : world }.

Definition set_sv_devices (x : gmap string DeviceRow) (s : server) : server := mkServer x (sv_tokens s) (sv_registrations s) (sv_world s).
Definition set_sv_tokens (x : list EnrollmentToken) (s : server) : server := mkServer (sv_devices s) x (sv_registrations s) (sv_world s).
Definition set_sv_registrations (x : list DeviceRegistration) (s : server) : server := mkServer (sv_devices s) (sv_tokens s) x (sv_world s).
Definition set_sv_world (x : world) (s : server) : server := mkServer (sv_devices s) (sv_tokens s) (sv_registrations s) x.

Definition world_part : lens server world := mkLens sv_world set_sv_world.
Abbreviation vtx := (txn server).

Definition vget {E A} (f : server -> A) : vtx E A := fun s => (Ok (f s), s).
Definition vset {E} (f : server -> server) : vtx E unit := fun s => (Ok tt, f s).
Definition vfound {E A} (e : E) (o : option A) : vtx E A := match o with Some a => tret a | None => tfail e end.

(** A statement on the groups' tables or the commands'. *)
Definition on_groups {E A} (m : ftx E A) : vtx E A := zoom world_part (zoom fleet_part m).
Definition on_commands {E A} (m : tx E A) : vtx E A := zoom world_part (zoom commands_part m).

(** ** [store/devices.go] *)

(** The columns the groups and the commands see. *)
Definition set_f_devices (x : gmap string FleetDevice) (d : fdb) : fdb :=
  mkFdb (f_groups d) x (f_versions d) (f_assignments d) (f_approvals d) (f_rollouts d) (f_policy d) (f_statuses d) (f_audit d) (f_ids d) (f_readings d).
Definition set_t_devices (x : gmap string Device) (d : db) : db :=
  mkDB x (t_commands d) (t_results d) (t_passwords d) (t_audit d) (t_wakes d).

Definition fleet_columns (r : DeviceRow) : FleetDevice := mkFleetDevice (dv_Hostname r) (dv_Status r).
Definition command_columns (r : DeviceRow) : Device := mkDevice (dv_Hostname r) (dv_Status r).

Definition copy_device (id : string) (r : DeviceRow) (w : world) : world :=
  set_w_fleet (set_f_devices (<[id := fleet_columns r]> (f_devices (w_fleet w))) (w_fleet w))
    (set_w_commands (set_t_devices (<[id := command_columns r]> (t_devices (w_commands w))) (w_commands w)) w).

Definition put_device (id : string) (r : DeviceRow) (s : server) : server :=
  set_sv_world (copy_device id r (sv_world s)) (set_sv_devices (<[id := r]> (sv_devices s)) s).

(** [UPDATE devices ... WHERE id]. *)
Definition on_device {E} (id : string) (f : DeviceRow -> DeviceRow) : vtx E unit :=
  vset (fun s => match sv_devices s !! id with Some r => put_device id (f r) s | None => s end).

Definition CreateDevice (id : string) (r : DeviceRow) : vtx store_error unit := fun s =>
  if bool_decide (is_Some (sv_devices s !! id)) then (Err ErrDuplicate, s) else (Ok tt, put_device id r s).

Definition GetDevice (id : string) : vtx store_error DeviceRow :=
  let* r := vget (fun s => sv_devices s !! id) in vfound ErrNotFound r.

Definition same_hardware (serial smbios : string) (r : DeviceRow) : bool :=
  String.eqb (dv_Status r) DeviceActive
  && (negb (String.eqb (dv_SMBIOSUUID r) EmptyString) && String.eqb (dv_SMBIOSUUID r) smbios
      || negb (String.eqb (dv_Serial r) EmptyString) && String.eqb (dv_Serial r) serial).

Definition newest_enrolled (a b : string * DeviceRow) : bool := dv_EnrolledAt b.2 <=? dv_EnrolledAt a.2.

Definition FindActiveDeviceByHardware (serial smbios : string) : vtx store_error (string * DeviceRow) :=
  if String.eqb serial EmptyString && String.eqb smbios EmptyString then tfail ErrNotFound else
  let* l := vget (fun s => order_by newest_enrolled (List.filter (fun x => same_hardware serial smbios x.2) (map_to_list (sv_devices s)))) in
  vfound ErrNotFound (head l).

Definition set_dv_Status (x : string) (r : DeviceRow) : DeviceRow :=
  mkDeviceRow (dv_Hostname r) (dv_Serial r) (dv_SMBIOSUUID r) (dv_OSVersion r) x (dv_CertSerial r) (dv_CertExpiresAt r) (dv_LastSeenAt r)
    (dv_AgentVersion r) (dv_EnrolledAt r) (dv_ReplacedBy r) (dv_PrevCertSerial r) (dv_OSBuild r) (dv_Manufacturer r) (dv_Model r) (dv_Platform r).
Definition set_dv_cert (prev serial : string) (expires : time) (r : DeviceRow) : DeviceRow :=
  mkDeviceRow (dv_Hostname r) (dv_Serial r) (dv_SMBIOSUUID r) (dv_OSVersion r) (dv_Status r) serial expires (dv_LastSeenAt r)
    (dv_AgentVersion r) (dv_EnrolledAt r) (dv_ReplacedBy r) prev (dv_OSBuild r) (dv_Manufacturer r) (dv_Model r) (dv_Platform r).
Definition set_dv_seen (at_ : time) (version platform : string) (r : DeviceRow) : DeviceRow :=
  mkDeviceRow (dv_Hostname r) (dv_Serial r) (dv_SMBIOSUUID r) (dv_OSVersion r) (dv_Status r) (dv_CertSerial r) (dv_CertExpiresAt r) (Some at_)
    version (dv_EnrolledAt r) (dv_ReplacedBy r) (dv_PrevCertSerial r) (dv_OSBuild r) (dv_Manufacturer r) (dv_Model r) platform.

(** [COALESCE(NULLIF(new, ''), old)]. *)
Definition kept (new old : string) : string := if String.eqb new EmptyString then old else new.

Definition MarkDeviceReplaced (oldID newID : string) : vtx store_error unit := on_device oldID (fun r =>
  mkDeviceRow (dv_Hostname r) (dv_Serial r) (dv_SMBIOSUUID r) (dv_OSVersion r) DeviceReplaced (dv_CertSerial r) (dv_CertExpiresAt r) (dv_LastSeenAt r)
    (dv_AgentVersion r) (dv_EnrolledAt r) (Some newID) (dv_PrevCertSerial r) (dv_OSBuild r) (dv_Manufacturer r) (dv_Model r) (dv_Platform r)).
Definition SetDeviceStatus (id status : string) : vtx store_error unit := on_device id (set_dv_Status status).
Definition UpdateDeviceCert (id prevSerial newSerial : string) (expiresAt : time) : vtx store_error unit :=
  on_device id (set_dv_cert prevSerial newSerial expiresAt).
Definition ClearPrevCertSerial (id : string) : vtx store_error unit :=
  on_device id (fun r => set_dv_cert EmptyString (dv_CertSerial r) (dv_CertExpiresAt r) r).
Definition RecordCheckinPlatform (id agentVersion platform : string) (at_ : time) : vtx store_error unit :=
  on_device id (fun r => set_dv_seen at_ agentVersion (kept platform (dv_Platform r)) r).
Definition RecordCheckin (id agentVersion : string) (at_ : time) : vtx store_error unit := RecordCheckinPlatform id agentVersion EmptyString at_.
Definition GetDevicePlatform (id : string) : vtx store_error string := let* r := GetDevice id in tret (dv_Platform r).

Definition UpdateDeviceHardware (id : string) (h : HardwareInfo) : vtx store_error unit := on_device id (fun r =>
  mkDeviceRow (kept (hw_Hostname h) (dv_Hostname r)) (kept (hw_Serial h) (dv_Serial r)) (kept (hw_SMBIOSUUID h) (dv_SMBIOSUUID r))
    (kept (hw_OSVersion h) (dv_OSVersion r)) (dv_Status r) (dv_CertSerial r) (dv_CertExpiresAt r) (dv_LastSeenAt r) (dv_AgentVersion r)
    (dv_EnrolledAt r) (dv_ReplacedBy r) (dv_PrevCertSerial r) (kept (hw_OSBuild h) (dv_OSBuild r)) (kept (hw_Manufacturer h) (dv_Manufacturer r))
    (kept (hw_Model h) (dv_Model r)) (dv_Platform r)).

(** ** [store/tokens.go] *)

Definition token_id (id : string) (t : EnrollmentToken) : bool := String.eqb (et_ID t) id.
Definition token_hash (h : string) (t : EnrollmentToken) : bool := String.eqb (et_TokenHash t) h.

(** The id and the hash are unique; the row's counters start from nothing. *)
Definition CreateEnrollmentToken (t : EnrollmentToken) : vtx store_error unit := fun s =>
  if existsb (token_id (et_ID t)) (sv_tokens s) || existsb (token_hash (et_TokenHash t)) (sv_tokens s) then (Err ErrDuplicate, s)
  else (Ok tt, set_sv_tokens (sv_tokens s ++
    [mkEnrollmentToken (et_ID t) (et_TokenHash t) (et_Label t) (et_ExpiresAt t) (et_MaxUses t) 0 None (et_CreatedBy t) (et_CreatedAt t)
       (et_RegisteredOnly t)]) s).

Definition GetEnrollmentToken (id : string) : vtx store_error EnrollmentToken :=
  let* t := vget (fun s => find (token_id id) (sv_tokens s)) in vfound ErrNotFound t.
Definition GetEnrollmentTokenByHashForUpdate (h : string) : vtx store_error EnrollmentToken :=
  let* t := vget (fun s => find (token_hash h) (sv_tokens s)) in vfound ErrNotFound t.

Definition used_once_more (t : EnrollmentToken) : EnrollmentToken :=
  mkEnrollmentToken (et_ID t) (et_TokenHash t) (et_Label t) (et_ExpiresAt t) (et_MaxUses t) (et_UseCount t + 1) (et_RevokedAt t) (et_CreatedBy t)
    (et_CreatedAt t) (et_RegisteredOnly t).
Definition revoked_at (at_ : time) (t : EnrollmentToken) : EnrollmentToken :=
  mkEnrollmentToken (et_ID t) (et_TokenHash t) (et_Label t) (et_ExpiresAt t) (et_MaxUses t) (et_UseCount t) (Some at_) (et_CreatedBy t)
    (et_CreatedAt t) (et_RegisteredOnly t).

Definition IncrementTokenUse (id : string) : vtx store_error unit :=
  vset (fun s => set_sv_tokens (update_where (token_id id) used_once_more (sv_tokens s)) s).
Definition not_revoked (t : EnrollmentToken) : bool := match et_RevokedAt t with None => true | Some _ => false end.
Definition RevokeEnrollmentToken (id : string) (at_ : time) : vtx store_error unit :=
  vset (fun s => set_sv_tokens (update_where (fun t => token_id id t && not_revoked t) (revoked_at at_) (sv_tokens s)) s).

(** ** [store/registrations.go] *)

Definition registration_id (id : string) (r : DeviceRegistration) : bool := String.eqb (rg_ID r) id.
Definition registers (serial : string) (r : DeviceRegistration) : bool := String.eqb (ToUpper (rg_Serial r)) (ToUpper serial).

Definition CreateRegistration (r : DeviceRegistration) : vtx store_error unit := fun s =>
  if existsb (registration_id (rg_ID r)) (sv_registrations s) || existsb (registers (rg_Serial r)) (sv_registrations s) then (Err ErrDuplicate, s)
  else (Ok tt, set_sv_registrations (sv_registrations s ++
    [mkRegistration (rg_ID r) (rg_Serial r) (rg_DeviceName r) (rg_GroupIDs r) (rg_Notes r) None None (rg_CreatedAt r) (rg_CreatedBy r)]) s).

Definition GetRegistration (id : string) : vtx store_error DeviceRegistration :=
  let* r := vget (fun s => find (registration_id id) (sv_registrations s)) in vfound ErrNotFound r.

(** The device it became is still active. *)
Definition spent (s : server) (r : DeviceRegistration) : bool :=
  match rg_DeviceID r with
  | None => false
  | Some id => match sv_devices s !! id with Some d => String.eqb (dv_Status d) DeviceActive | None => false end
  end.

Definition RegistrationForSerial (serial : string) : vtx store_error DeviceRegistration :=
  let* r := vget (fun s => find (fun r => registers serial r && negb (spent s r)) (sv_registrations s)) in vfound ErrNotFound r.

Definition MarkRegistrationEnrolled (id deviceID : string) (at_ : time) : vtx store_error unit :=
  vset (fun s => set_sv_registrations (update_where (registration_id id) (fun r =>
    mkRegistration (rg_ID r) (rg_Serial r) (rg_DeviceName r) (rg_GroupIDs r) (rg_Notes r) (Some deviceID) (Some at_) (rg_CreatedAt r) (rg_CreatedBy r))
    (sv_registrations s)) s).

Definition DeleteRegistration (id : string) : vtx store_error unit := fun s =>
  if existsb (registration_id id) (sv_registrations s)
  then (Ok tt, set_sv_registrations (List.filter (fun r => negb (registration_id id r)) (sv_registrations s)) s)
  else (Err ErrNotFound, s).

(** ** [devices/service.go] *)

Inductive device_error := NoSuchDevice | ErrInvalidTransition | DeviceStoreError (e : store_error).

Definition transition (id actor to action : string) (from : list string) : vtx device_error unit :=
  InTx (
    let* d := tmap_err (fun e => match e with ErrNotFound => NoSuchDevice | e => DeviceStoreError e end) (GetDevice id) in
    do* tensure (existsb (String.eqb (dv_Status d)) from) ErrInvalidTransition;
    do* tmap_err DeviceStoreError (SetDeviceStatus id to);
    on_groups (InsertAudit (mkAudit actor action "device" id [("from", JStr (dv_Status d))]%string))).

Definition Retire (id actor : string) : vtx device_error unit := transition id actor DeviceRetired "device.retired" [DeviceActive].
Definition Unenroll (id actor : string) : vtx device_error unit :=
  transition id actor DeviceUnenrolled "device.unenrolled" [DeviceActive; DeviceRetired].
