(* ===== verification/Enroll.v ===== *)
(** * Enrolling, and proving to be a device

    [internal/server/ca/ca.go] (the certificates it signs for devices),
    [internal/server/enroll] (tokens, enrollment, renewal), the authentication
    in [internal/server/agentapi] ([requireDevice], [clientcert.go]) and the
    registrations of [adminapi/registrations.go]. X.509, PEM, IP addresses and
    the CSV reader are arguments. *)
From S2P Require Import Settings Secrets Payload AuthStore Access.
From S2P Require Export Devices.
From S2P Require Export FleetStore.
Open Scope Z_scope.
Open Scope go_scope.

(** ** Certificates *)

(** [big.Int.Text(16)] of a number that is not negative. *)
Fixpoint text16 (fuel : nat) (n : Z) : string :=
  match fuel with
  | O => EmptyString
  | S fuel => if n <? 16 then String (hex_digit n) EmptyString else (text16 fuel (n / 16) ++ String (hex_digit (n mod 16)) EmptyString)%string
  end.
Definition Text16 (n : Z) : string := text16 (S (Z.to_nat (Z.log2 n))) n.

(** A parsed request for a certificate: whether it is signed by the key it
    names, and whether that is an ECDSA key on P-256. *)
Record CSR := mkCSR { csr_PublicKey : string; csr_Signed : bool; csr_P256 : bool }.

Record Template := mkTemplate { tm_SerialNumber : Z; tm_CommonName : string; tm_NotBefore : time; tm_NotAfter : time }.

(** A certificate, as a server reads it. *)
Record Certificate := mkCertificate { ct_SerialNumber : Z; ct_CommonName : string; ct_Raw : string }.

(** The key of the authority and what the standard library does with it. *)
Class Authority := {
  ParseCertificateRequest : string -> option CSR;
  CreateCertificate : Template -> string -> option string;
  pem_Encode : string -> string -> string;
  ca_Raw : string }.

Record IssuedCert := mkIssued { is_PEM : string; is_Serial : string; is_NotAfter : time }.

Inductive enroll_error := ErrTokenNotFound | ErrTokenRevoked | ErrTokenExpired | ErrTokenExhausted | ErrNotRegistered | BadEnrollment
  | ErrBadCSR | CannotSign | NoRandomness | EnrollStore (e : store_error).

Definition Truncate (t : time) (unit : duration) : time := t - t mod unit.

Section CA.
Context `{CT : Certificates, AU : Authority}.

Definition SignClientCSR (serial : Z) (csrPEM deviceID : string) (now : time) (validity : duration) : result enroll_error IssuedCert :=
  match pem_Decode csrPEM with
  | Some (typ, bytes, _) =>
      check! ensure (String.eqb typ "CERTIFICATE REQUEST") ErrBadCSR;
      match ParseCertificateRequest bytes with
      | None => Err ErrBadCSR
      | Some csr =>
          check! ensure (csr_Signed csr) ErrBadCSR;
          check! ensure (csr_P256 csr) ErrBadCSR;
          let notAfter := Truncate (Prelude.Add now validity) Second in
          match CreateCertificate (mkTemplate serial deviceID (Prelude.Add now (- (5 * Minute))) notAfter) (csr_PublicKey csr) with
          | None => Err CannotSign
          | Some der => Ok (mkIssued (pem_Encode "CERTIFICATE" der) (Text16 serial) notAfter)
          end
      end
  | None => Err ErrBadCSR
  end.

Definition CertPEM : string := pem_Encode "CERTIFICATE" ca_Raw.
End CA.

(** ** Tokens *)

Definition tokenPrefix : string := "rt_".

Section Tokens.
Context `{CR : Crypto}.

Definition HashToken (plain : string) : string := sha256_hex (TrimSpace plain).

(** [rand] is what [rand.Read] gave. *)
Definition GenerateToken (rand : option string) : result enroll_error (string * string) :=
  match rand with
  | None => Err NoRandomness
  | Some b => let plain := (tokenPrefix ++ EncodeToString URL b)%string in Ok (plain, HashToken plain)
  end.
End Tokens.

Definition CheckUsable (t : EnrollmentToken) (now : time) : result enroll_error unit :=
  match et_RevokedAt t with
  | Some _ => Err ErrTokenRevoked
  | None =>
      if match et_ExpiresAt t with Some e => negb (Before now e) | None => false end then Err ErrTokenExpired
      else if match et_MaxUses t with Some m => m <=? et_UseCount t | None => false end then Err ErrTokenExhausted
      else Ok tt
  end.

Record TokenOptions := mkTokenOptions {
  to_Label : string; to_MaxUses : option Z; to_ExpiresAt : option time; to_CreatedBy : string; to_RegisteredOnly : bool }.

Record DeviceFacts := mkFacts { df_Hostname : string; df_Serial : string; df_SMBIOSUUID : string; df_OSVersion : string }.
Record EnrollRequest := mkEnrollRequest { en_Token : string; en_CSRPEM : string; en_Device : DeviceFacts }.
Record EnrollResponse := mkEnrollResponse { er_DeviceID : string; er_CertPEM : string; er_CAPEM : string }.

(** One request: the clock, the ids, serial number and bytes it is given. *)
Record Env := mkEnv { ev_Now : time; ev_Ids : nat -> string; ev_Serial : Z; ev_Rand : option string }.

Definition renameTTL : duration := 7 * 24 * Hour.

Definition es {A} (m : vtx store_error A) : vtx enroll_error A := tmap_err EnrollStore m.

Definition token_audit (actor action id label : string) (more : list (string * json)) : AuditEntry :=
  mkAudit actor action "enrollment_token" id (("label"%string, JStr label) :: more).

Section Enroll.
Context `{CR : Crypto, CT : Certificates, AU : Authority, JT : JsonTime}.
Context (CertValidity : duration).

Definition CreateToken (v : Env) (o : TokenOptions) : vtx enroll_error (string * EnrollmentToken) :=
  do* tensure (match to_MaxUses o with Some m => negb (m <=? 0) | None => true end) BadEnrollment;
  let* (plain, hash) := lift_result (GenerateToken (ev_Rand v)) in
  let id := ev_Ids v 0 in
  let tok := mkEnrollmentToken id hash (to_Label o) (to_ExpiresAt o) (to_MaxUses o) 0 None (to_CreatedBy o) (ev_Now v) (to_RegisteredOnly o) in
  do* InTx (
    do* es (CreateEnrollmentToken tok);
    on_groups (InsertAudit (token_audit (to_CreatedBy o) "enrollment_token.created" id (to_Label o)
      [("registered_only", JBool (to_RegisteredOnly o))]%string)));
  tret (plain, tok).

Definition RevokeToken (now : time) (id actor : string) : vtx enroll_error unit :=
  InTx (
    let* tok := tmap_err (fun e => match e with ErrNotFound => ErrTokenNotFound | e => EnrollStore e end) (GetEnrollmentToken id) in
    do* es (RevokeEnrollmentToken id now);
    on_groups (InsertAudit (token_audit actor "enrollment_token.revoked" id (et_Label tok) []))).

(** The registration for the serial number a device claims, if there is one. *)
Definition registration_for (serial : string) : vtx enroll_error (option DeviceRegistration) :=
  let serial := TrimSpace serial in
  if String.eqb serial EmptyString then tret None else
  let* r := tattempt (RegistrationForSerial serial) in
  match r with
  | Ok r => tret (Some r)
  | Err ErrNotFound => tret None
  | Err e => tfail (EnrollStore e)
  end.

(** The static groups of a registration; the names of those joined. *)
Fixpoint join_groups (deviceID : string) (ids : list string) : vtx enroll_error (list string) :=
  match ids with
  | [] => tret []
  | gid :: rest =>
      let* g := tattempt (on_groups (GetGroup gid)) in
      match g with
      | Err ErrNotFound => join_groups deviceID rest
      | Err e => tfail (EnrollStore e)
      | Ok g =>
          if negb (String.eqb (g_Kind g) GroupStatic) then join_groups deviceID rest else
          do* es (on_groups (AddGroupMember gid deviceID));
          let* joined := join_groups deviceID rest in
          tret (g_Name g :: joined)
      end
  end.

Definition rename_command (v : Env) (reg : DeviceRegistration) (deviceID : string) : Command :=
  mkCommand (ev_Ids v 1) deviceID CommandRenameComputer (rename_json (mkRename (rg_DeviceName reg) false)) CommandQueued
    ("registration:" ++ rg_ID reg)%string (ev_Now v) None None None (Prelude.Add (ev_Now v) renameTTL).

Definition to_rename (reg : DeviceRegistration) (hostname : string) : bool :=
  negb (String.eqb (rg_DeviceName reg) EmptyString) && negb (EqualFold (rg_DeviceName reg) hostname).

Definition joined_json (l : list string) : json := match l with [] => JNull | l => JArr (map JStr l) end.

Definition provision (v : Env) (reg : DeviceRegistration) (deviceID hostname : string) : vtx enroll_error (list (string * json)) :=
  let* joined := join_groups deviceID (rg_GroupIDs reg) in
  let details := [("registration_id", JStr (rg_ID reg)); ("groups", joined_json joined)]%string in
  let* details :=
    if to_rename reg hostname then
      do* es (on_commands (CreateCommand (rename_command v reg deviceID)));
      tret (details ++ [("rename_to"%string, JStr (rg_DeviceName reg))])
    else tret details in
  do* es (MarkRegistrationEnrolled (rg_ID reg) deviceID (ev_Now v));
  tret details.

Definition new_device (f : DeviceFacts) (issued : IssuedCert) (now : time) : DeviceRow :=
  mkDeviceRow (df_Hostname f) (df_Serial f) (df_SMBIOSUUID f) (df_OSVersion f) DeviceActive (is_Serial issued) (is_NotAfter issued) None
    EmptyString now None EmptyString EmptyString EmptyString EmptyString EmptyString.

Definition enrolled_audit (tokenID deviceID : string) (details : list (string * json)) : AuditEntry :=
  mkAudit ("token:" ++ tokenID)%string "device.enrolled" "device" deviceID details.

(** An older record that claims the same hardware, for the audit log. *)
Definition hardware_details (f : DeviceFacts) : vtx enroll_error (list (string * json)) :=
  let* prev := tattempt (FindActiveDeviceByHardware (df_Serial f) (df_SMBIOSUUID f)) in
  match prev with
  | Ok (id, r) => tret [("same_hardware_as", JStr id); ("same_hardware_hostname", JStr (dv_Hostname r))]%string
  | Err ErrNotFound => tret []
  | Err e => tfail (EnrollStore e)
  end.

Definition Enroll (v : Env) (req : EnrollRequest) : vtx enroll_error EnrollResponse :=
  let f := en_Device req in
  do* tensure (negb (String.eqb (TrimSpace (df_Hostname f)) EmptyString)) BadEnrollment;
  let now := ev_Now v in
  InTx (
    let* tok := tmap_err (fun e => match e with ErrNotFound => ErrTokenNotFound | e => EnrollStore e end)
                  (GetEnrollmentTokenByHashForUpdate (HashToken (en_Token req))) in
    do* lift_result (CheckUsable tok now);
    let* reg := registration_for (df_Serial f) in
    do* tensure (negb (et_RegisteredOnly tok && match reg with None => true | Some _ => false end)) ErrNotRegistered;
    let deviceID := ev_Ids v 0 in
    let* issued := lift_result (SignClientCSR (ev_Serial v) (en_CSRPEM req) deviceID now CertValidity) in
    let* same := hardware_details f in
    do* es (CreateDevice deviceID (new_device f issued now));
    do* es (IncrementTokenUse (et_ID tok));
    do* es (on_groups (AddGroupMember BuiltinGroupID deviceID));
    let* more := match reg with Some reg => provision v reg deviceID (df_Hostname f) | None => tret [] end in
    do* on_groups (InsertAudit (enrolled_audit (et_ID tok) deviceID
          ([("token_id", JStr (et_ID tok)); ("hostname", JStr (df_Hostname f))]%string ++ same ++ more)));
    tret (mkEnrollResponse deviceID (is_PEM issued) CertPEM)).

(** [presentedSerial] is the certificate's that asked. *)
Definition Renew (v : Env) (deviceID presentedSerial csrPEM : string) : vtx enroll_error string :=
  let* issued := lift_result (SignClientCSR (ev_Serial v) csrPEM deviceID (ev_Now v) CertValidity) in
  do* InTx (
    do* es (UpdateDeviceCert deviceID presentedSerial (is_Serial issued) (is_NotAfter issued));
    on_groups (InsertAudit (mkAudit ("device:" ++ deviceID)%string "device.cert_renewed" "device" deviceID
      [("serial", JStr (is_Serial issued)); ("not_after", JStr (rfc3339 (is_NotAfter issued)))]%string)));
  tret (is_PEM issued).
End Enroll.

(** ** The certificate of a request *)

(** [CertError], or any other. *)
Inductive cert_failure := CertError (status : Z) (code : string) | BadCertRead.

(** What is read of a request: where it comes from, the headers, and the chains
    its TLS handshake verified, if there was one. A verified chain is never
    empty. *)
Record WebRequest := mkWebRequest {
  wr_RemoteAddr : string; wr_Header : string -> string; wr_TLS : option (list (list Certificate)) }.

Definition TLSClientCert (r : WebRequest) : result cert_failure (option Certificate) :=
  match wr_TLS r with
  | Some ((leaf :: _) :: _) => Ok (Some leaf)
  | _ => Ok None
  end.

Section HeaderCert.
Context `{CT : Certificates, CR : Crypto} {addr prefix : Type}.
(** [net.SplitHostPort]'s host, [netip.ParseAddr] with 4-in-6 unwrapped,
    [Prefix.Contains], [url.QueryUnescape], [x509.ParseCertificate] and
    [Certificate.Verify] against the pool for client authentication. *)
Context (SplitHost : string -> option string) (ParseAddr : string -> option addr) (PrefixContains : prefix -> addr -> bool).
Context (QueryUnescape : string -> option string) (ParseCertificate : string -> option Certificate) (Verify : Certificate -> bool).

Definition peerTrusted (remoteAddr : string) (trusted : list prefix) : bool :=
  let host := match SplitHost remoteAddr with Some h => h | None => remoteAddr end in
  match ParseAddr host with
  | None => false
  | Some a => existsb (fun p => PrefixContains p a) trusted
  end.

Definition parseDERHeader (raw : string) : option Certificate :=
  match base64_decode (TrimSpace raw) with None => None | Some der => ParseCertificate der end.

Definition begins_certificate (s : string) : bool := GoString.Contains s "BEGIN CERTIFICATE".

Definition parse_pem (raw : string) : option Certificate :=
  match pem_Decode raw with
  | Some (typ, bytes, _) => if String.eqb typ "CERTIFICATE" then ParseCertificate bytes else None
  | None => None
  end.

Definition parseCertHeader (raw : string) : option Certificate :=
  if begins_certificate raw then parse_pem raw
  else match QueryUnescape raw with
       | Some decoded => if begins_certificate decoded then parse_pem decoded else parseDERHeader raw
       | None => parseDERHeader raw
       end.

Definition HeaderClientCert (header : string) (trusted : list prefix) (r : WebRequest) : result cert_failure (option Certificate) :=
  let raw := wr_Header r header in
  if negb (peerTrusted (wr_RemoteAddr r) trusted) then
    if String.eqb raw EmptyString then Ok None else Err (CertError 403 "untrusted_proxy")
  else if String.eqb raw EmptyString then Ok None
  else match parseCertHeader raw with
       | None => Err (CertError 401 "client_cert_invalid")
       | Some cert => if Verify cert then Ok (Some cert) else Err (CertError 401 "client_cert_invalid")
       end.
End HeaderCert.

(** ** Being a device *)

Definition is_known (serial : string) (d : DeviceRow) : bool :=
  String.eqb serial (dv_CertSerial d) || negb (String.eqb (dv_PrevCertSerial d) EmptyString) && String.eqb serial (dv_PrevCertSerial d).

(** [authInfo]: the device, and the serial number it came with. *)
Record authInfo := mkAuthInfo { ai_ID : string; ai_Device : DeviceRow; ai_CertSerial : string }.

Section Requests.
Context `{CR : Crypto, CT : Certificates, AU : Authority, JT : JsonTime}.
Context (uuid_Parse : string -> option string) (CertValidity : duration).
Local Abbreviation htx := (txn server response).

Definition stored_ {A} (m : vtx store_error A) : htx A := tmap_err (fun _ => Rejected 500 "internal") m.

(** Up to where the device's row has been read and nothing is written: who it
    is, and whether the serial number its certificate replaced is to go. *)
Definition let_in (leaf : result cert_failure (option Certificate)) : htx (authInfo * bool) :=
  match leaf with
  | Err (CertError status code) => tfail (Rejected status code)
  | Err BadCertRead => tfail (Rejected 500 "internal")
  | Ok None => tfail (Rejected 401 "client_cert_required")
  | Ok (Some leaf) =>
      let serial := Text16 (ct_SerialNumber leaf) in
      match uuid_Parse (ct_CommonName leaf) with
      | None => tfail (Rejected 401 "device_not_active")
      | Some id =>
          let* d := tattempt (GetDevice id) in
          match d with
          | Err ErrNotFound => tfail (Rejected 401 "device_not_active")
          | Err _ => tfail (Rejected 500 "internal")
          | Ok d =>
              do* tensure (is_known serial d) (Rejected 401 "device_not_active");
              do* tensure (negb (String.eqb (dv_Status d) DeviceUnenrolled)) (Rejected 410 "device_unenrolled");
              do* tensure (String.eqb (dv_Status d) DeviceActive) (Rejected 401 "device_not_active");
              tret (mkAuthInfo id d serial, String.eqb serial (dv_CertSerial d) && negb (String.eqb (dv_PrevCertSerial d) EmptyString))
          end
      end
  end.

(** A statement of its own: the row may have changed since. *)
Definition clear_superseded (a : authInfo) : htx authInfo :=
  let* cleared := tattempt (ClearPrevCertSerial (ai_ID a)) in
  let d := ai_Device a in
  tret (mkAuthInfo (ai_ID a) (match cleared with Ok _ => set_dv_cert EmptyString (dv_CertSerial d) (dv_CertExpiresAt d) d | Err _ => d end)
    (ai_CertSerial a)).

(** With nothing between the two. *)
Definition requireDevice (leaf : result cert_failure (option Certificate)) : htx authInfo :=
  let* (a, clears) := let_in leaf in if clears : bool then clear_superseded a else tret a.

Definition enroll_response (e : enroll_error) : response :=
  match e with
  | ErrTokenNotFound | ErrTokenRevoked | ErrTokenExpired | ErrTokenExhausted | ErrNotRegistered => Rejected 403 "enrollment_token_invalid"
  | ErrBadCSR | BadEnrollment => Rejected 400 "bad_request"
  | _ => Rejected 500 "internal"
  end.

Definition enroll (v : Env) (req : EnrollRequest) : htx response :=
  do* tmap_err enroll_response (Enroll CertValidity v req); tret (Done 200).

Definition renew_response (e : enroll_error) : response := match e with ErrBadCSR => Rejected 400 "bad_request" | _ => Rejected 500 "internal" end.

Definition renew (v : Env) (a : authInfo) (csrPEM : string) : htx response :=
  do* tmap_err renew_response (Renew CertValidity v (ai_ID a) (ai_CertSerial a) csrPEM); tret (Done 200).

(** A renewal that nothing overtakes. *)
Definition renew_alone (v : Env) (leaf : result cert_failure (option Certificate)) (csrPEM : string) : htx response :=
  let* a := requireDevice leaf in renew v a csrPEM.

(** ** [adminapi/registrations.go] *)

Record registrationRequest := mkRegistrationRequest {
  rr_Serial : string; rr_DeviceName : string; rr_GroupIDs : list string; rr_Notes : string }.

(** [unicode.IsControl] below U+0080; a two-byte control is C2 80 to C2 9F. *)
Fixpoint has_control (s : string) : bool :=
  match s with
  | EmptyString => false
  | String c r =>
      (code c <? 32) || (code c =? 127)
      || (match r with String d _ => (code c =? 194) && (128 <=? code d) && (code d <? 160) | EmptyString => false end)
      || has_control r
  end.

Inductive registration_problem := BadSerial | BadComputerName (name : string) | NotesTooLong | NotStatic (group : string).

Definition group_ids (groups : list (string * Group)) : result registration_problem (list string) :=
  fold_right (fun g r => check! ensure (String.eqb (g_Kind g.2) GroupStatic) (NotStatic (g_Name g.2)); let! l := r in Ok (g.1 :: l)) (Ok []) groups.

Definition buildRegistration (id serial name notes : string) (groups : list (string * Group)) : result registration_problem DeviceRegistration :=
  let serial := TrimSpace serial in
  check! ensure (negb (String.eqb serial EmptyString || (64 <? slen serial) || has_control serial)) BadSerial;
  let name := TrimSpace name in
  check! ensure (String.eqb name EmptyString || ValidComputerName name) (BadComputerName name);
  check! ensure (slen notes <=? 500) NotesTooLong;
  let! ids := group_ids groups in
  Ok (mkRegistration id serial name ids notes None None 0 EmptyString).

Definition registered_by (now : time) (actor : string) (r : DeviceRegistration) : DeviceRegistration :=
  mkRegistration (rg_ID r) (rg_Serial r) (rg_DeviceName r) (rg_GroupIDs r) (rg_Notes r) None None now actor.

Fixpoint create_all (regs : list DeviceRegistration) : vtx store_error unit :=
  match regs with
  | [] => tret tt
  | r :: rest => do* CreateRegistration r; create_all rest
  end.

Definition saveRegistrations (regs : list DeviceRegistration) (actor : string) : vtx store_error unit :=
  do* create_all regs;
  let serials := map rg_Serial regs in
  on_groups (InsertAudit (mkAudit actor "device_registration.created" "device_registration"
    (match regs with [r] => rg_ID r | _ => EmptyString end)
    (("count"%string, jint (Z.of_nat (length regs)))
      :: (if Z.of_nat (length serials) <=? 20 then [("serials"%string, JArr (map JStr serials))] else [])))).

Definition duplicate_response (e : store_error) : response :=
  match e with ErrDuplicate => Rejected 409 "duplicate" | _ => Rejected 500 "internal" end.

Fixpoint find_groups (raw : list string) : htx (list (string * Group)) :=
  match raw with
  | [] => tret []
  | s :: rest =>
      match uuid_Parse s with
      | None => tfail (Rejected 400 "bad_request")
      | Some id =>
          let* g := tmap_err (fun e => match e with ErrNotFound => Rejected 400 "bad_request" | _ => Rejected 500 "internal" end) (on_groups (GetGroup id)) in
          let* l := find_groups rest in tret ((id, g) :: l)
      end
  end.

Definition createRegistration (v : Env) (actor : string) (req : registrationRequest) : htx response :=
  let* groups := find_groups (rr_GroupIDs req) in
  let* reg := lift_result (match buildRegistration (ev_Ids v 0) (rr_Serial req) (rr_DeviceName req) (rr_Notes req) groups with
                           | Ok r => Ok (registered_by (ev_Now v) actor r) | Err _ => Err (Rejected 400 "bad_request") end) in
  do* tmap_err duplicate_response (InTx (saveRegistrations [reg] actor));
  tret (Done 201).

Definition maxImportRows : Z := 5000.

(** A row of the file, or what the CSV reader says is wrong with it: it stops there. *)
Definition csv_row : Type := result string (list string).

Inductive import_problem := BadRow (message : string) | TooManyRows | NoGroupCalled (name : string) | BadRegistration (p : registration_problem)
  | SerialOnLine (serial : string) (line : Z).

(** The groups a field names, or the first that is not there. *)
Definition named_groups (all : list (string * Group)) (field : string) : result import_problem (list (string * Group)) :=
  fold_right (fun name r =>
    let name := TrimSpace name in
    if String.eqb name EmptyString then r
    else match find (fun g => String.eqb (ToLower (g_Name g.2)) (ToLower name)) all with
         | None => Err (NoGroupCalled name)
         | Some g => let! l := r in Ok (g :: l)
         end) (Ok []) (Split ";" field).

Definition csv_field (rec : list string) (i : nat) : string := TrimSpace (nth i rec EmptyString).

Definition blank_row (rec : list string) : bool :=
  match rec with [] => true | [s] => String.eqb (TrimSpace s) EmptyString | _ => false end.

(** The loop over the rows: what is registered, the serials seen with their
    lines, and the problems; [used] numbers the ids. *)
Fixpoint import_rows (all : list (string * Group)) (v : Env) (actor : string) (line : Z) (rows : list csv_row)
    (regs : list DeviceRegistration) (seen : list (string * Z)) (problems : list (Z * import_problem))
    : list DeviceRegistration * list (Z * import_problem) :=
  match rows with
  | [] => (regs, problems)
  | Err m :: _ => (regs, problems ++ [(line, BadRow m)])
  | Ok rec :: rest =>
      let go := import_rows all v actor (line + 1) rest in
      if blank_row rec then go regs seen problems
      else if (line =? 1) && EqualFold (csv_field rec 0) "serial" then go regs seen problems
      else if maxImportRows <=? Z.of_nat (length regs + length problems) then (regs, problems ++ [(line, TooManyRows)])
      else match named_groups all (csv_field rec 2) with
           | Err p => go regs seen (problems ++ [(line, p)])
           | Ok groups =>
               match buildRegistration (ev_Ids v (length regs)) (csv_field rec 0) (csv_field rec 1) (csv_field rec 3) groups with
               | Err p => go regs seen (problems ++ [(line, BadRegistration p)])
               | Ok r =>
                   let key := ToUpper (rg_Serial r) in
                   match find (fun x => String.eqb x.1 key) seen with
                   | Some (_, first) => go regs seen (problems ++ [(line, SerialOnLine (rg_Serial r) first)])
                   | None => go (regs ++ [registered_by (ev_Now v) actor r]) (seen ++ [(key, line)]) problems
                   end
               end
           end
  end.

Definition importRegistrations (v : Env) (actor : string) (rows : list csv_row) : htx response :=
  let* all := stored_ (on_groups (fget (fun d => group_list d))) in
  let (regs, problems) := import_rows all v actor 1 rows [] [] [] in
  match problems, regs with
  | _ :: _, _ => tret (Rejected 400 "problems")
  | [], [] => tfail (Rejected 400 "bad_request")
  | [], regs => do* tmap_err duplicate_response (InTx (saveRegistrations regs actor)); tret (Done 201)
  end.

Definition deleteRegistration (actor raw : string) : htx response :=
  match uuid_Parse raw with
  | None => tfail (Rejected 404 "not_found")
  | Some id =>
      do* tmap_err (fun e => match e with ErrNotFound => Rejected 404 "not_found" | _ => Rejected 500 "internal" end) (InTx (
        let* reg := GetRegistration id in
        do* DeleteRegistration id;
        on_groups (InsertAudit (mkAudit actor "device_registration.deleted" "device_registration" id [("serial", JStr (rg_Serial reg))]%string))));
      tret (Done 204)
  end.

(** ** [adminapi/tokens.go] and [adminapi/devices.go] *)

Record createTokenRequest := mkCreateToken { tr_Label : string; tr_MaxUses : option Z; tr_ExpiresInH : Z; tr_RegisteredOnly : bool }.

Definition token_options (now : time) (actor : string) (r : createTokenRequest) : TokenOptions :=
  mkTokenOptions (tr_Label r) (tr_MaxUses r) (if 0 <? tr_ExpiresInH r then Some (Prelude.Add now (dmul (tr_ExpiresInH r) Hour)) else None)
    actor (tr_RegisteredOnly r).

Definition createToken (v : Env) (actor : string) (r : createTokenRequest) : htx response :=
  do* tmap_err (fun e => match e with BadEnrollment => Rejected 400 "bad_request" | _ => Rejected 500 "internal" end)
        (CreateToken v (token_options (ev_Now v) actor r));
  tret (Done 201).

Definition path_uuid {A} (raw : string) (k : string -> htx A) : htx A :=
  match uuid_Parse raw with Some id => k id | None => tfail (Rejected 404 "not_found") end.

Definition revokeToken (v : Env) (actor raw : string) : htx response :=
  path_uuid raw (fun id =>
    do* tmap_err (fun e => match e with ErrTokenNotFound => Rejected 404 "not_found" | _ => Rejected 500 "internal" end) (RevokeToken (ev_Now v) id actor);
    tret (Done 204)).

Definition device_response (e : device_error) : response :=
  match e with NoSuchDevice => Rejected 404 "not_found" | ErrInvalidTransition => Rejected 409 "invalid_transition" | _ => Rejected 500 "internal" end.

(** Both changes of a device's status, for who may see it. *)
Definition changeDeviceStatus (unenroll : bool) (scope : DeviceScope) (actor raw : string) : htx response :=
  path_uuid raw (fun id =>
    let* ok := stored_ (on_groups (DeviceInScope id scope)) in
    do* tensure ok (Rejected 404 "not_found");
    do* tmap_err device_response (if unenroll then Unenroll id actor else Retire id actor);
    tret (Done 204)).

(** ** What comes in *)

(** A request of a device that was let in and goes on; it may still have to
    clear what its certificate replaced. *)
Record waiting := mkWaiting { wt_Auth : authInfo; wt_Clears : bool }.

Record entrance := mkEntrance { en_server : server; en_waiting : list waiting }.

(** A device's request comes in steps, each a statement or a transaction of
    its own, between which others come: it is let in, clears, and is a renewal
    or something else that leaves who the device is as it was. The [n]th of
    those that wait takes the step. What an administrator or an enrolling
    machine asks for is one step. *)
Inductive entry_request :=
| EnrollReq (r : EnrollRequest)
| AdmitReq (leaf : result cert_failure (option Certificate))
| ClearReq (n : nat)
| RenewReq (n : nat) (csrPEM : string)
| LeaveReq (n : nat)
| CreateTokenReq (actor : string) (r : createTokenRequest)
| RevokeTokenReq (actor raw : string)
| RegisterReq (actor : string) (r : registrationRequest)
| ImportReq (actor : string) (rows : list csv_row)
| UnregisterReq (actor raw : string)
| StatusReq (unenroll : bool) (scope : DeviceScope) (actor raw : string).

(** Run to its answer. *)
Definition answered (m : htx response) (s : server) : option response * server :=
  match m s with (Ok r, s') => (Some r, s') | (Err r, s') => (Some r, s') end.

Definition at_once (m : htx response) (e : entrance) : option response * entrance :=
  let (r, s) := answered m (en_server e) in (r, mkEntrance s (en_waiting e)).

(** [None] is a request that goes on. *)
Definition entered (v : Env) (r : entry_request) (e : entrance) : option response * entrance :=
  let s := en_server e in
  let q := en_waiting e in
  match r with
  | EnrollReq r => at_once (enroll v r) e
  | AdmitReq leaf =>
      match let_in leaf s with
      | (Ok (a, clears), s') => (None, mkEntrance s' (q ++ [mkWaiting a clears]))
      | (Err r, s') => (Some r, mkEntrance s' q)
      end
  | ClearReq n =>
      match q !! n with
      | Some (mkWaiting a true) =>
          match clear_superseded a s with
          | (Ok a', s') => (None, mkEntrance s' (<[n := mkWaiting a' false]> q))
          | (Err r, s') => (Some r, mkEntrance s' (delete n q))
          end
      | _ => (None, e)
      end
  | RenewReq n csr =>
      match q !! n with
      | Some (mkWaiting a false) => let (r, s') := answered (renew v a csr) s in (r, mkEntrance s' (delete n q))
      | _ => (None, e)
      end
  | LeaveReq n =>
      match q !! n with
      | Some (mkWaiting _ false) => (Some (Done 200), mkEntrance s (delete n q))
      | _ => (None, e)
      end
  | CreateTokenReq actor r => at_once (createToken v actor r) e
  | RevokeTokenReq actor raw => at_once (revokeToken v actor raw) e
  | RegisterReq actor r => at_once (createRegistration v actor r) e
  | ImportReq actor rows => at_once (importRegistrations v actor rows) e
  | UnregisterReq actor raw => at_once (deleteRegistration actor raw) e
  | StatusReq unenroll scope actor raw => at_once (changeDeviceStatus unenroll scope actor raw) e
  end.

Fixpoint enter_all (l : list (Env * entry_request)) (e : entrance) : entrance :=
  match l with
  | [] => e
  | (v, r) :: rest => enter_all rest (entered v r e).2
  end.
End Requests.
