(* ===== verification/EnrollLife.v ===== *)
(** * Who gets in, and with which certificate

    Histories of enrollments, renewals and requests of devices, and of what
    administrators do to tokens, registrations and devices meanwhile. *)
From S2P Require Import Settings Secrets Payload AuthStore Access AdminFrames.
From S2P Require Export Enroll.
From S2P Require Export FleetStore.
Open Scope Z_scope.
Open Scope go_scope.

(** ** Serial numbers as text *)

Definition hex_val (c : ascii) : Z := default 0 (hex_value c).
Fixpoint value16 (acc : Z) (s : string) : Z := match s with EmptyString => acc | String c r => value16 (acc * 16 + hex_val c) r end.

Lemma value16_app acc a b : value16 acc (a ++ b)%string = value16 (value16 acc a) b.
Proof. revert acc. induction a as [|c a IH]; intros acc; [done|]. apply IH. Qed.

Lemma hex_digit_val n : 0 <= n < 16 -> hex_val (hex_digit n) = n.
Proof. intros Hn. unfold hex_val. by rewrite (proj1 (hex_digit_ok n Hn)). Qed.

Lemma text16_value fuel n : 0 <= n < 16 ^ Z.of_nat fuel -> value16 0 (text16 fuel n) = n.
Proof.
  revert n. induction fuel as [|fuel IH]; intros n Hn; [simpl in *; lia|]. simpl. destruct (Z.ltb_spec n 16).
  - simpl. rewrite hex_digit_val; lia.
  - rewrite value16_app, IH; [simpl; rewrite hex_digit_val by (pose proof (Z.mod_pos_bound n 16); lia); pose proof (Z.div_mod n 16); lia|].
    rewrite Nat2Z.inj_succ, Z.pow_succ_r in Hn by lia. split; [apply Z.div_pos; lia|]. apply Z.div_lt_upper_bound; lia.
Qed.

Lemma Text16_inj a b : 0 <= a -> 0 <= b -> Text16 a = Text16 b -> a = b.
Proof.
  intros Ha Hb E. assert (forall n, 0 <= n -> value16 0 (Text16 n) = n) as Hv.
  { intros n Hn. apply text16_value. split; [done|]. rewrite Nat2Z.inj_succ, Z2Nat.id by apply Z.log2_nonneg.
    destruct (decide (n = 0)) as [->|Hz]; [simpl; lia|]. pose proof (Z.log2_spec n ltac:(lia)) as [_ H].
    eapply Z.lt_le_trans; [exact H|]. change 16 with (2 ^ 4). rewrite <- Z.pow_mul_r by (pose proof (Z.log2_nonneg n); lia).
    apply Z.pow_le_mono_r; [lia|]. pose proof (Z.log2_nonneg n). lia. }
  by rewrite <- (Hv a Ha), <- (Hv b Hb), E.
Qed.

Lemma Text16_nonempty n : Text16 n <> EmptyString.
Proof. unfold Text16. simpl. case_match; [done|]. by destruct (text16 _ _). Qed.

(** ** What the statements leave alone *)

Definition audit_of (s : server) : list AuditEntry := f_audit (w_fleet (sv_world s)).
Definition register (s : server) : gmap string DeviceRow * list EnrollmentToken * list AuditEntry := (sv_devices s, sv_tokens s, audit_of s).

Lemma on_groups_keeps {X E A} (p : server -> X) (q : fdb -> list AuditEntry) (m : ftx E A) :
  (forall f s, q f = q (w_fleet (sv_world s)) -> p (set_sv_world (set_w_fleet f (sv_world s)) s) = p s) -> tkeeps (same q) m -> tkeeps (same p) (on_groups m).
Proof.
  intros Hp Hm s. unfold on_groups, zoom. simpl. specialize (Hm (w_fleet (sv_world s))). destruct (m _) as [r f]. simpl in *. by apply Hp.
Qed.

Lemma on_groups_register {E A} (m : ftx E A) : tkeeps (same f_audit) m -> tkeeps (same register) (on_groups m).
Proof. apply on_groups_keeps. intros f s Hf. unfold register, audit_of. simpl. by rewrite Hf. Qed.

Lemma on_groups_devices {E A} (m : ftx E A) : tkeeps (same sv_devices) (on_groups m).
Proof. intros s. unfold on_groups, zoom. by destruct (m _). Qed.
Lemma on_commands_register {E A} (m : tx E A) : tkeeps (same register) (on_commands m).
Proof. intros s. unfold on_commands, zoom. by destruct (m _). Qed.
Lemma on_commands_devices {E A} (m : tx E A) : tkeeps (same sv_devices) (on_commands m).
Proof. intros s. unfold on_commands, zoom. by destruct (m _). Qed.
Lemma vget_keeps {X E A} (p : server -> X) (f : server -> A) : tkeeps (same p) (vget f : vtx E A).
Proof. by intros s. Qed.
Lemma vfound_keeps {X E A} (p : server -> X) (e : E) (o : option A) : tkeeps (same p) (vfound e o).
Proof. by destruct o. Qed.

Lemma AddGroupMember_audit gid id : tkeeps (same f_audit) (AddGroupMember gid id).
Proof. unfold AddGroupMember, SetDeviceGroupMembership. simpl. by apply keeps_insert_members. Qed.
Lemma GetGroup_audit gid : tkeeps (same f_audit) (GetGroup gid).
Proof. frames. Qed.

#[export] Hint Resolve vget_keeps vfound_keeps on_groups_devices on_commands_register on_commands_devices on_groups_register
  AddGroupMember_audit GetGroup_audit : frames.

(** What the provisioning of a device does is elsewhere. *)
Lemma join_groups_devices deviceID ids : tkeeps (same sv_devices) (join_groups deviceID ids).
Proof. induction ids as [|gid rest IH]; simpl; unfold es; frames. Qed.
Lemma join_groups_register deviceID ids : tkeeps (same register) (join_groups deviceID ids).
Proof. induction ids as [|gid rest IH]; simpl; unfold es; frames. Qed.
#[export] Hint Resolve join_groups_devices join_groups_register : frames.

Lemma registration_for_same {X} (p : server -> X) serial : tkeeps (same p) (registration_for serial).
Proof. unfold registration_for, RegistrationForSerial. frames. Qed.
Lemma hardware_details_same {X} (p : server -> X) f : tkeeps (same p) (hardware_details f).
Proof. unfold hardware_details, FindActiveDeviceByHardware. frames. Qed.
#[export] Hint Resolve registration_for_same hardware_details_same : frames.

(** A step that leaves something as it was, and the rest. *)
Lemma same_bind {D X E A B} (p : D -> X) (m : txn D E A) (f : A -> txn D E B) d b d' :
  tbind m f d = (Ok b, d') -> tkeeps (same p) m -> exists a d1, p d1 = p d /\ f a d1 = (Ok b, d').
Proof. intros (a & d1 & E1 & E2)%tbind_Ok H. exists a, d1. split; [|done]. specialize (H d). by rewrite E1 in H. Qed.

Section Devices.
Context `{CR : Crypto, CT : Certificates, AU : Authority, JT : JsonTime} (uuid_Parse : string -> option string) (CertValidity : duration).

Lemma provision_register v reg id host : tkeeps (same register) (provision v reg id host).
Proof.
  unfold provision, es. eapply keeps_bind; [typeclasses eauto|apply join_groups_register|]. intros joined.
  eapply keeps_bind; [typeclasses eauto|destruct (to_rename _ _); frames|]. intros details.
  eapply keeps_bind; [typeclasses eauto|by apply keeps_map_err|]. intros ?. frames.
Qed.

Lemma provision_details v reg id host s details s' :
  provision v reg id host s = (Ok details, s') -> "registration_id"%string ∈ map fst details.
Proof.
  unfold provision. intros (joined & s1 & _ & H)%tbind_Ok. apply tbind_Ok in H as (l & s2 & H & (u & s3 & _ & [= <- _])%tbind_Ok).
  destruct (to_rename reg host).
  - apply tbind_Ok in H as (u' & s4 & _ & [= <- _]). simpl. set_solver.
  - injection H as <- _. simpl. set_solver.
Qed.

(** ** The [devices] table, one request at a time *)

(** A certificate that is let in for a device. *)
Definition accepts (m : gmap string DeviceRow) (id serial : string) : Prop :=
  exists d, m !! id = Some d /\ dv_Status d = DeviceActive /\ is_known serial d = true.

(** The certificate a request shows: whose it is, and its serial number. *)
Definition shows (leaf : result cert_failure (option Certificate)) (id serial : string) : Prop :=
  exists c, leaf = Ok (Some c) /\ uuid_Parse (ct_CommonName c) = Some id /\ serial = Text16 (ct_SerialNumber c).

(** Once the newest certificate is seen, the one before it is over. *)
Definition seen (serial : string) (d : DeviceRow) : DeviceRow :=
  if String.eqb serial (dv_CertSerial d) then set_dv_cert EmptyString (dv_CertSerial d) (dv_CertExpiresAt d) d else d.

(** What a step of a request does to the table, [q] being what is under way:
    a renewal and the clearing before it go by what was read when they were
    let in. *)
Inductive device_step (v : Env) (r : entry_request) (q : list waiting) (m : gmap string DeviceRow) : gmap string DeviceRow -> Prop :=
| step_unchanged : device_step v r q m m
| step_enrolled d :
    (exists e, r = EnrollReq e) -> m !! ev_Ids v 0 = None -> dv_Status d = DeviceActive -> dv_CertSerial d = Text16 (ev_Serial v) ->
    dv_PrevCertSerial d = EmptyString -> device_step v r q m (<[ev_Ids v 0 := d]> m)
| step_cleared n w d :
    r = ClearReq n -> q !! n = Some w -> m !! ai_ID (wt_Auth w) = Some d ->
    device_step v r q m (<[ai_ID (wt_Auth w) := set_dv_cert EmptyString (dv_CertSerial d) (dv_CertExpiresAt d) d]> m)
| step_renewed w d expires :
    w ∈ q -> m !! ai_ID (wt_Auth w) = Some d ->
    device_step v r q m (<[ai_ID (wt_Auth w) := set_dv_cert (ai_CertSerial (wt_Auth w)) (Text16 (ev_Serial v)) expires d]> m)
| step_ended id d to :
    (exists u scope actor raw, r = StatusReq u scope actor raw /\ uuid_Parse raw = Some id) ->
    m !! id = Some d -> to <> DeviceActive -> device_step v r q m (<[id := set_dv_Status to d]> m).

Lemma let_in_read leaf s :
  match let_in uuid_Parse leaf s with
  | (Ok (a, clears), s') => s' = s /\ shows leaf (ai_ID a) (ai_CertSerial a) /\
      sv_devices s !! ai_ID a = Some (ai_Device a) /\ dv_Status (ai_Device a) = DeviceActive /\ is_known (ai_CertSerial a) (ai_Device a) = true /\
      clears = String.eqb (ai_CertSerial a) (dv_CertSerial (ai_Device a)) && negb (String.eqb (dv_PrevCertSerial (ai_Device a)) EmptyString)
  | (Err _, s') => s' = s
  end.
Proof.
  destruct leaf as [[c|]|[]]; try reflexivity. simpl. destruct (uuid_Parse (ct_CommonName c)) as [id|] eqn:Eid; [|reflexivity].
  unfold tattempt, GetDevice, tbind at 1, tbind at 1, vget, vfound. destruct (sv_devices s !! id) as [d|] eqn:Ed; [|reflexivity]. simpl.
  unfold tensure, tbind at 1. destruct (is_known _ d) eqn:Ek; [|reflexivity]. simpl.
  unfold tbind at 1. destruct (negb _); [|reflexivity]. simpl. unfold tbind at 1.
  destruct (String.eqb_spec (dv_Status d) DeviceActive) as [Ea|]; [|reflexivity]. simpl.
  split; [done|]. split; [by exists c|]. done.
Qed.

Lemma clear_superseded_writes a s :
  exists a', (clear_superseded a s).1 = Ok a' /\ ai_ID a' = ai_ID a /\ ai_CertSerial a' = ai_CertSerial a /\
    sv_devices (clear_superseded a s).2 = match sv_devices s !! ai_ID a with
      | Some d => <[ai_ID a := set_dv_cert EmptyString (dv_CertSerial d) (dv_CertExpiresAt d) d]> (sv_devices s)
      | None => sv_devices s end.
Proof.
  unfold clear_superseded, tattempt, ClearPrevCertSerial, on_device, vset, tbind. destruct (sv_devices s !! ai_ID a); by eexists.
Qed.

Lemma requireDevice_step leaf s :
  match requireDevice uuid_Parse leaf s with
  | (Ok a, s') => shows leaf (ai_ID a) (ai_CertSerial a) /\
      exists d, sv_devices s !! ai_ID a = Some d /\ dv_Status d = DeviceActive /\ is_known (ai_CertSerial a) d = true /\
        ai_Device a = seen (ai_CertSerial a) d /\ sv_devices s' = <[ai_ID a := seen (ai_CertSerial a) d]> (sv_devices s)
  | (Err _, s') => s' = s
  end.
Proof.
  unfold requireDevice, tbind at 1. pose proof (let_in_read leaf s) as H. destruct (let_in _ leaf s) as [[[a clears]|e] s']; [|done].
  destruct H as (-> & Hl & Hd & Ha & Hk & ->). destruct a as [id d x]. cbn [ai_ID ai_Device ai_CertSerial] in *. unfold seen.
  destruct (String.eqb_spec x (dv_CertSerial d)) as [->|Ex]; cbn [andb].
  - destruct (String.eqb_spec (dv_PrevCertSerial d) EmptyString) as [Ep|Ep]; cbn [negb].
    + assert (set_dv_cert EmptyString (dv_CertSerial d) (dv_CertExpiresAt d) d = d) as Es by (destruct d; simpl in *; by subst).
      split; [done|]. exists d. cbn [ai_ID ai_Device ai_CertSerial]. by rewrite String.eqb_refl, Es, insert_id.
    + unfold clear_superseded, tattempt, ClearPrevCertSerial, on_device, vset, tbind. cbn [ai_ID ai_Device ai_CertSerial]. rewrite Hd.
      cbn. split; [done|]. exists d. by rewrite String.eqb_refl.
  - split; [done|]. exists d. cbn [ai_ID ai_Device ai_CertSerial]. apply String.eqb_neq in Ex. by rewrite Ex, insert_id.
Qed.

Lemma SignClientCSR_serial serial csr id now validity issued :
  SignClientCSR serial csr id now validity = Ok issued -> is_Serial issued = Text16 serial.
Proof.
  unfold SignClientCSR. destruct (pem_Decode csr) as [[[typ bytes] ?]|]; [|done]. intros (? & _ & H)%rbind_Ok.
  destruct (ParseCertificateRequest bytes); [|done]. apply rbind_Ok in H as (? & _ & H). apply rbind_Ok in H as (? & _ & H).
  destruct (CreateCertificate _ _); [|done]. by injection H as <-.
Qed.

Lemma Renew_devices v id x csr s d :
  sv_devices s !! id = Some d ->
  match Renew CertValidity v id x csr s with
  | (Ok _, s') => exists e, sv_devices s' = <[id := set_dv_cert x (Text16 (ev_Serial v)) e d]> (sv_devices s)
  | (Err _, s') => s' = s
  end.
Proof.
  intros Ed. unfold Renew. destruct (SignClientCSR _ _ _ _ _) as [issued|e] eqn:Ei; [|reflexivity]. simpl.
  unfold InTx, es, tmap_err, tbind, UpdateDeviceCert, on_device, vset, lift_result, tret. simpl. rewrite Ed. simpl.
  exists (is_NotAfter issued). by rewrite (SignClientCSR_serial _ _ _ _ _ _ Ei).
Qed.

(** What an enrollment does to the register. *)
Lemma Enroll_Ok v req s a s' :
  Enroll CertValidity v req s = (Ok a, s') ->
  exists tok d details,
    find (token_hash (HashToken (en_Token req))) (sv_tokens s) = Some tok /\ CheckUsable tok (ev_Now v) = Ok tt /\
    sv_devices s !! ev_Ids v 0 = None /\ dv_Status d = DeviceActive /\ dv_CertSerial d = Text16 (ev_Serial v) /\ dv_PrevCertSerial d = EmptyString /\
    (et_RegisteredOnly tok = true -> "registration_id"%string ∈ map fst details) /\
    register s' = (<[ev_Ids v 0 := d]> (sv_devices s), update_where (token_id (et_ID tok)) used_once_more (sv_tokens s),
                   audit_of s ++ [enrolled_audit (et_ID tok) (ev_Ids v 0) details]).
Proof.
  unfold Enroll. intros E. apply tbind_Ok in E as (? & s0 & [_ ->]%tensure_Ok & E). apply (proj1 (InTx_Ok _ _ _ _)) in E.
  apply tbind_Ok in E as (tok & s1 & E1 & E). apply tmap_err_Ok, tbind_Ok in E1 as (o & s1' & [= <- <-] & E1).
  unfold vfound in E1. destruct (find _ _) as [t|] eqn:Ef; [|done]. injection E1 as -> <-.
  apply tbind_Ok in E as ([] & s2 & E2 & E). unfold lift_result in E2. destruct (CheckUsable tok _) as [[]|] eqn:Eu; [|done]. injection E2 as <-.
  apply (same_bind register) in E as (reg & s3 & E3 & E); [|frames].
  apply tbind_Ok in E as (? & s4 & [Er ->]%tensure_Ok & E).
  apply tbind_Ok in E as (issued & s5 & E5 & E). unfold lift_result in E5. destruct (SignClientCSR _ _ _ _ _) eqn:Ei; [|done]. injection E5 as -> <-.
  apply (same_bind register) in E as (same_ & s6 & E6 & E); [|frames].
  apply tbind_Ok in E as ([] & s7 & E7%tmap_err_Ok & E). unfold CreateDevice in E7. case_bool_decide; [done|]. injection E7 as <-.
  apply tbind_Ok in E as ([] & s8 & [= <-] & E).
  apply (same_bind register) in E as ([] & s9 & E9 & E); [|unfold es; frames].
  apply tbind_Ok in E as (more & s10 & E10 & E). apply tbind_Ok in E as (? & s11 & [= <- <-] & [= <- <-]).
  assert (register s10 = register s9) as Ep.
  { destruct reg as [reg|]; [|by injection E10 as _ <-]. pose proof (provision_register v reg (ev_Ids v 0) (df_Hostname (en_Device req)) s9) as Hp.
    by rewrite E10 in Hp. }
  rewrite E9 in Ep. rewrite E3 in E6. unfold register in Ep, E6. injection E6 as Ed Et Ea. injection Ep as Ed' Et' Ea'. simpl in *.
  exists tok, (new_device (en_Device req) issued (ev_Now v)), ([("token_id", JStr (et_ID tok)); ("hostname", JStr (df_Hostname (en_Device req)))]%string ++ same_ ++ more).
  rewrite <- Ed, <- Et. split; [done|]. split; [done|]. split; [by apply eq_None_not_Some|]. split; [done|].
  split; [by apply (SignClientCSR_serial _ _ _ _ _ _ Ei)|]. split; [done|]. split.
  - intros Hr. rewrite Hr in Er. destruct reg as [reg|]; [|done]. apply provision_details in E10. rewrite map_app, map_app. set_solver.
  - unfold register. simpl. unfold audit_of in *. simpl in *. rewrite Ed', Et', Ea', Ea. done.
Qed.

Lemma Enroll_Err v req s e s' : Enroll CertValidity v req s = (Err e, s') -> s' = s.
Proof.
  unfold Enroll, tbind at 1, tensure. destruct (negb _); simpl; [by intros E%InTx_Err|by intros [= _ <-]].
Qed.

(** *** The other requests *)

#[local] Hint Extern 1 (tkeeps (same sv_devices) (RevokeEnrollmentToken _ _)) => by intros ? : frames.

Lemma createToken_devices v actor r : tkeeps (same sv_devices) (createToken v actor r).
Proof.
  unfold createToken, CreateToken, es. frames. intros st. unfold CreateEnrollmentToken. by case_match.
Qed.
Lemma revokeToken_devices v actor raw : tkeeps (same sv_devices) (revokeToken uuid_Parse v actor raw).
Proof. unfold revokeToken, path_uuid, RevokeToken, GetEnrollmentToken, es. frames. Qed.
Lemma find_groups_devices raw : tkeeps (same sv_devices) (find_groups uuid_Parse raw).
Proof. induction raw as [|x raw IH]; simpl; [frames|]. destruct (uuid_Parse x); [|frames]. frames. Qed.
Lemma create_all_devices regs : tkeeps (same sv_devices) (create_all regs).
Proof.
  induction regs as [|r regs IH]; simpl; [frames|]. eapply keeps_bind; [typeclasses eauto| |by intros ?].
  intros st. unfold CreateRegistration. by case_match.
Qed.
Lemma saveRegistrations_devices regs actor : tkeeps (same sv_devices) (saveRegistrations regs actor).
Proof. pose proof create_all_devices. unfold saveRegistrations. frames. Qed.
Lemma createRegistration_devices v actor r : tkeeps (same sv_devices) (createRegistration uuid_Parse v actor r).
Proof.
  pose proof find_groups_devices. pose proof saveRegistrations_devices. unfold createRegistration.
  eapply keeps_bind; [typeclasses eauto|done|]. intros groups. frames.
Qed.
Lemma importRegistrations_devices v actor rows : tkeeps (same sv_devices) (importRegistrations v actor rows).
Proof.
  pose proof saveRegistrations_devices. unfold importRegistrations.
  eapply keeps_bind; [typeclasses eauto|unfold stored_; frames|]. intros all. destruct (import_rows _ _ _ _ _ _ _ _) as [regs problems]. frames.
Qed.
Lemma deleteRegistration_devices actor raw : tkeeps (same sv_devices) (deleteRegistration uuid_Parse actor raw).
Proof.
  unfold deleteRegistration, GetRegistration. destruct (uuid_Parse raw) as [id|]; [|frames]. frames. intros st. unfold DeleteRegistration. by case_match.
Qed.

Lemma transition_devices id actor to action from s :
  match transition id actor to action from s with
  | (Ok _, s') => exists d, sv_devices s !! id = Some d /\ sv_devices s' = <[id := set_dv_Status to d]> (sv_devices s)
  | (Err _, s') => s' = s
  end.
Proof.
  destruct (transition _ _ _ _ _ s) as [[u|e] s'] eqn:E; [|by eapply InTx_Err]. unfold transition in E. apply (proj1 (InTx_Ok _ _ _ _)) in E.
  apply tbind_Ok in E as (d & s1 & E1 & E). apply tmap_err_Ok, tbind_Ok in E1 as (o & s1' & [= <- <-] & E1).
  unfold vfound in E1. destruct (sv_devices s !! id) as [d'|] eqn:Ed; [|done]. injection E1 as -> <-.
  apply tbind_Ok in E as (? & ? & [_ ->]%tensure_Ok & E). apply tbind_Ok in E as ([] & s2 & E2%tmap_err_Ok & E).
  unfold SetDeviceStatus, on_device, vset in E2. rewrite Ed in E2. injection E2 as <-. injection E as _ <-. by exists d.
Qed.

Lemma changeDeviceStatus_devices unenroll scope actor raw s s' :
  (changeDeviceStatus uuid_Parse unenroll scope actor raw s).2 = s' ->
  sv_devices s' = sv_devices s \/
  exists id d to, uuid_Parse raw = Some id /\ sv_devices s !! id = Some d /\ to <> DeviceActive /\ sv_devices s' = <[id := set_dv_Status to d]> (sv_devices s).
Proof.
  unfold changeDeviceStatus, path_uuid. destruct (uuid_Parse raw) as [id|] eqn:Er; [|by intros <-; left].
  pose proof (keeps_map_err (same sv_devices) (fun _ : store_error => Rejected 500 "internal") _ (on_groups_devices (DeviceInScope id scope)) s) as Hs.
  unfold tbind at 1. change (tmap_err _ (on_groups (DeviceInScope id scope))) with (@stored_ bool (on_groups (DeviceInScope id scope))) in Hs.
  destruct (stored_ _ s) as [[ok|e] s1]; [|by intros <-; left]. unfold same in Hs. simpl in Hs. unfold tensure, tbind at 1. destruct ok; [|by intros <-; left]. simpl.
  assert (exists to action from, (if unenroll then Unenroll id actor else Retire id actor) = transition id actor to action from /\ to <> DeviceActive)
    as (to & action & from & -> & Hto) by (destruct unenroll; unfold Unenroll, Retire; eauto 10).
  pose proof (transition_devices id actor to action from s1) as H. unfold tbind, tmap_err. destruct (transition _ _ _ _ _ s1) as [[u|e] s2]; simpl; intros <-.
  - destruct H as (d & Hd & H). right. exists id, d, to. rewrite H, Hs. by rewrite Hs in Hd.
  - left. congruence.
Qed.

Lemma answered_state (m : txn server response response) s : (answered m s).2 = (m s).2.
Proof. unfold answered. by destruct (m s) as [[]]. Qed.

Lemma at_once_state (m : txn server response response) e : (at_once m e).2 = mkEntrance (m (en_server e)).2 (en_waiting e).
Proof. unfold at_once. pose proof (answered_state m (en_server e)) as H. destruct (answered m (en_server e)). simpl in *. by subst. Qed.

Lemma renew_devices v a csr s :
  sv_devices (renew CertValidity v a csr s).2 = sv_devices s \/
  exists d e, sv_devices s !! ai_ID a = Some d /\
    sv_devices (renew CertValidity v a csr s).2 = <[ai_ID a := set_dv_cert (ai_CertSerial a) (Text16 (ev_Serial v)) e d]> (sv_devices s).
Proof.
  unfold renew, tbind, tmap_err. destruct (sv_devices s !! ai_ID a) as [d|] eqn:Ed.
  - pose proof (Renew_devices v (ai_ID a) (ai_CertSerial a) csr s d Ed) as H. destruct (Renew _ v _ _ csr s) as [[pem|e] s']; simpl.
    + destruct H as [x H]. right. by exists d, x.
    + left. by subst.
  - left. unfold Renew. destruct (SignClientCSR _ _ _ _ _) as [issued|e]; [|reflexivity]. simpl.
    unfold InTx, es, tmap_err, tbind, UpdateDeviceCert, on_device, vset, lift_result, tret. simpl. rewrite Ed. reflexivity.
Qed.

(** The devices table only takes such steps. *)
Lemma enter_step v r e : device_step v r (en_waiting e) (sv_devices (en_server e)) (sv_devices (en_server (entered uuid_Parse CertValidity v r e).2)).
Proof.
  assert (forall m : txn server response response, tkeeps (same sv_devices) m ->
    device_step v r (en_waiting e) (sv_devices (en_server e)) (sv_devices (en_server (at_once m e).2))) as Hsame.
  { intros m Hm. rewrite at_once_state. simpl. rewrite (Hm (en_server e)). constructor. }
  destruct e as [s q]. destruct r as [req|leaf|n|n csr|n|actor r|actor raw|actor r|actor rows|actor raw|unenroll scope actor raw]; unfold entered; cbn [en_server en_waiting].
  - rewrite at_once_state. simpl. unfold enroll, tbind, tmap_err. destruct (Enroll _ v req s) as [[a|x] s'] eqn:E; simpl.
    + apply Enroll_Ok in E as (tok & d & details & _ & _ & Hn & Ha & Hc & Hp & _ & H). unfold register in H. injection H as -> _ _.
      apply step_enrolled; eauto.
    + apply Enroll_Err in E as ->. constructor.
  - pose proof (let_in_read leaf s) as H. destruct (let_in _ leaf s) as [[[a clears]|x] s']; simpl; [destruct H as [-> _]|subst]; constructor.
  - destruct (q !! n) as [[a []]|] eqn:Eq; [|constructor..]. destruct (clear_superseded_writes a s) as (a' & Hr & _ & _ & Hs).
    destruct (clear_superseded a s) as [r s']. simpl in Hr, Hs. subst r. simpl. rewrite Hs. destruct (sv_devices s !! ai_ID a) as [d|] eqn:Ed; [|constructor].
    by eapply (step_cleared v _ q _ n (mkWaiting a true)).
  - destruct (q !! n) as [[a []]|] eqn:Eq; [constructor| |constructor]. pose proof (answered_state (renew CertValidity v a csr) s) as Ha.
    destruct (answered _ s) as [r s']. simpl in *. subst s'. destruct (renew_devices v a csr s) as [->|(d & x & Hd & ->)]; [constructor|].
    eapply (step_renewed v _ q _ (mkWaiting a false)); [by eapply list_elem_of_lookup_2|done].
  - destruct (q !! n) as [[a []]|] eqn:Eq; constructor.
  - apply Hsame, createToken_devices.
  - apply Hsame, revokeToken_devices.
  - apply Hsame, createRegistration_devices.
  - apply Hsame, importRegistrations_devices.
  - apply Hsame, deleteRegistration_devices.
  - rewrite at_once_state. simpl.
    destruct (changeDeviceStatus_devices unenroll scope actor raw s _ eq_refl) as [->|(id & d & to & Hr & Hd & Hto & ->)]; [constructor|].
    eapply step_ended; [by eauto 10|done|done].
Qed.

(** Whoever waits was waiting, or was let in just now. *)
Lemma enter_waiting v r e w :
  w ∈ en_waiting (entered uuid_Parse CertValidity v r e).2 ->
  (exists w', w' ∈ en_waiting e /\ ai_ID (wt_Auth w) = ai_ID (wt_Auth w') /\ ai_CertSerial (wt_Auth w) = ai_CertSerial (wt_Auth w')) \/
  exists leaf, r = AdmitReq leaf /\ shows leaf (ai_ID (wt_Auth w)) (ai_CertSerial (wt_Auth w)) /\
    accepts (sv_devices (en_server e)) (ai_ID (wt_Auth w)) (ai_CertSerial (wt_Auth w)).
Proof.
  assert (forall m : txn server response response, w ∈ en_waiting (at_once m e).2 -> w ∈ en_waiting e) as Hat.
  { intros m. by rewrite at_once_state. }
  intros Hw. destruct e as [s q]. destruct r as [req|leaf|n|n csr|n|actor r|actor raw|actor r|actor rows|actor raw|unenroll scope actor raw]; unfold entered in Hw; cbn [en_server en_waiting] in *.
  2: { pose proof (let_in_read leaf s) as H. destruct (let_in _ leaf s) as [[[a clears]|x] s']; simpl in *; [|left; by exists w].
       destruct H as (_ & Hl & Hd & Ha & Hk & _). apply elem_of_app in Hw as [Hw| ->%list_elem_of_singleton]; [left; by exists w|right].
       exists leaf. split; [done|]. split; [done|]. by eexists. }
  2: { left. destruct (q !! n) as [[a []]|] eqn:Eq; [|by exists w..]. destruct (clear_superseded_writes a s) as (a' & Hr & H1 & H2 & _).
       destruct (clear_superseded a s) as [r s']. simpl in Hr. subst r. simpl in Hw. apply list_elem_of_lookup_1 in Hw as (k & Hk).
       destruct (decide (k = n)) as [->|Hne].
       - rewrite list_lookup_insert_eq in Hk by (by eapply lookup_lt_Some). injection Hk as <-. simpl. exists (mkWaiting a true). split; [by eapply list_elem_of_lookup_2|done].
       - rewrite list_lookup_insert_ne in Hk by done. exists w. split; [by eapply list_elem_of_lookup_2|done]. }
  2: { left. destruct (q !! n) as [[a []]|] eqn:Eq; [by exists w| |by exists w]. destruct (answered _ s) as [r s']. simpl in Hw.
       exists w. split; [|done]. rewrite delete_take_drop in Hw. rewrite <- (take_drop_middle _ _ _ Eq). set_solver. }
  2: { left. destruct (q !! n) as [[a []]|] eqn:Eq; [by exists w| |by exists w]. simpl in Hw.
       exists w. split; [|done]. rewrite delete_take_drop in Hw. rewrite <- (take_drop_middle _ _ _ Eq). set_solver. }
  all: left; exists w; split; [exact (Hat _ Hw)|done].
Qed.

Lemma is_known_seen x y d : is_known y (seen x d) = true <-> is_known y d = true /\ (x = dv_CertSerial d -> y = x).
Proof.
  unfold seen. destruct (String.eqb_spec x (dv_CertSerial d)) as [->|Hx]; [|naive_solver]. unfold is_known. simpl.
  rewrite orb_false_r, String.eqb_eq, orb_true_iff, String.eqb_eq. naive_solver.
Qed.

Lemma accepts_insert m id d id' x :
  accepts (<[id := d]> m) id' x <-> (id' = id /\ dv_Status d = DeviceActive /\ is_known x d = true) \/ (id' <> id /\ accepts m id' x).
Proof.
  unfold accepts. destruct (decide (id' = id)) as [->|Hi].
  - rewrite lookup_insert_eq. naive_solver.
  - rewrite lookup_insert_ne by done. naive_solver.
Qed.

Lemma is_known_renewed x n e y d : x <> EmptyString -> is_known y (set_dv_cert x n e d) = true <-> y = x \/ y = n.
Proof. intros Hx. unfold is_known. simpl. apply String.eqb_neq in Hx. rewrite Hx. simpl. rewrite orb_true_iff, !String.eqb_eq. naive_solver. Qed.

(** Nothing under way was let in with this certificate of this device. *)
Definition unused (q : list waiting) (id x : string) : Prop := forall w, w ∈ q -> ai_ID (wt_Auth w) = id -> ai_CertSerial (wt_Auth w) <> x.

(** What is not accepted stays so, unless it is the certificate just signed or
    a request that came with it is still under way. *)
Lemma step_accepts v r q m m' id x :
  device_step v r q m m' -> unused q id x -> accepts m' id x -> accepts m id x \/ x = Text16 (ev_Serial v).
Proof.
  intros Hs Hq. destruct Hs as [|d _ Hn Ha Hc Hp|n w d _ Hw Hd|w d e Hw Hd|i d to Hr Hd Hto]; [by left| | | |];
    intros [(-> & Hst & Hx)|[_ Hm]]%accepts_insert; try by left.
  - right. unfold is_known in Hx. rewrite Hp in Hx. simpl in Hx. rewrite orb_false_r in Hx. apply String.eqb_eq in Hx. congruence.
  - left. exists d. split; [done|]. split; [done|]. unfold is_known in *. simpl in Hx. rewrite orb_false_r in Hx. by rewrite Hx.
  - unfold is_known in Hx. simpl in Hx. apply orb_prop in Hx as [->%String.eqb_eq|[_ Hx%String.eqb_eq]%andb_prop]; [by right|].
    by destruct (Hq w Hw eq_refl).
Qed.

(** A request that is about to clear what its certificate replaced, though the
    device has been given another certificate since. *)
Definition clears_late (r : entry_request) (e : entrance) : bool :=
  match r with
  | ClearReq n => match en_waiting e !! n with
      | Some w => match sv_devices (en_server e) !! ai_ID (wt_Auth w) with
          | Some d => negb (String.eqb (ai_CertSerial (wt_Auth w)) (dv_CertSerial d))
          | None => false end
      | None => false end
  | _ => false
  end.

Fixpoint in_time (hist : list (Env * entry_request)) (e : entrance) : bool :=
  match hist with
  | [] => true
  | (v, r) :: rest => negb (clears_late r e) && in_time rest (entered uuid_Parse CertValidity v r e).2
  end.

(** Everything of the device that is under way came with this certificate. *)
Definition only_with (q : list waiting) (id x : string) : Prop := forall w, w ∈ q -> ai_ID (wt_Auth w) = id -> ai_CertSerial (wt_Auth w) = x.

(** What is accepted stays so while its device shows no other. *)
Lemma step_keeps v r e m' id x :
  device_step v r (en_waiting e) (sv_devices (en_server e)) m' -> x <> EmptyString -> accepts (sv_devices (en_server e)) id x ->
  only_with (en_waiting e) id x -> clears_late r e = false ->
  (forall u scope actor raw, r = StatusReq u scope actor raw -> uuid_Parse raw <> Some id) -> accepts m' id x.
Proof.
  destruct e as [s q]. cbn [en_server en_waiting]. intros Hs Hx (d' & Hd' & Ha' & Hk') Hq Hl He.
  destruct Hs as [|d _ Hn Ha Hc Hpr|n w d -> Hw Hd|w d e Hw Hd|i d to (u & sc & ac & raw & -> & Hr) Hd Hto]; [by exists d'| | | |]; apply accepts_insert.
  all: match goal with |- (?a = ?b /\ _) \/ _ => destruct (decide (a = b)) as [E|Hi]; [|right; split; [done|by exists d']] end.
  all: left; split; [done|].
  - congruence.
  - assert (d' = d) as -> by congruence. simpl in Hl. rewrite Hw in Hl. simpl in Hl. rewrite Hd in Hl.
    apply negb_false_iff, String.eqb_eq in Hl. rewrite (Hq w) in Hl by (done || by eapply list_elem_of_lookup_2). split; [done|].
    unfold is_known. simpl. by rewrite Hl, String.eqb_refl.
  - assert (d' = d) as -> by congruence. rewrite (Hq w Hw (eq_sym E)). split; [done|]. apply is_known_renewed; [done|by left].
  - subst. by destruct (He _ _ _ _ eq_refl).
Qed.

(** A device that has been ended stays so. *)
Lemma step_ended_stays v r q m m' id :
  device_step v r q m m' -> (exists d, m !! id = Some d /\ dv_Status d <> DeviceActive) -> exists d, m' !! id = Some d /\ dv_Status d <> DeviceActive.
Proof.
  intros Hs (d' & Hd' & Ha').
  destruct Hs as [|d _ Hn Ha Hc Hp|n w d _ Hw Hd|w d e Hw Hd|i d to Hr Hd Hto]; [by exists d'| | | |].
  all: match goal with |- exists d, <[?b := _]> _ !! ?a = _ /\ _ => destruct (decide (a = b)) as [E|Hi] end.
  all: try (rewrite lookup_insert_ne by done; by exists d').
  all: rewrite E in *; rewrite lookup_insert_eq; try congruence.
  - assert (d' = d) as -> by congruence. by eexists.
  - assert (d' = d) as -> by congruence. by eexists.
  - by exists (set_dv_Status to d).
Qed.

Lemma shows_fun leaf id x id' x' : shows leaf id x -> shows leaf id' x' -> id = id' /\ x = x'.
Proof. unfold shows. naive_solver. Qed.

Lemma requireDevice_refused leaf s id x :
  shows leaf id x ->
  match requireDevice uuid_Parse leaf s with
  | (Ok _, _) => True
  | (Err e, _) => ~ accepts (sv_devices s) id x /\
      e = (if match sv_devices s !! id with Some d => is_known x d && String.eqb (dv_Status d) DeviceUnenrolled | None => false end
           then Rejected 410 "device_unenrolled" else Rejected 401 "device_not_active")
  end.
Proof.
  intros (c & -> & Hid & ->). unfold requireDevice, tbind at 1. simpl. rewrite Hid. unfold tattempt, GetDevice, tbind at 1, tbind at 1, vget, vfound, accepts.
  destruct (sv_devices s !! id) as [d|] eqn:Ed; [|split; [|done]; by intros (? & ? & _)]. simpl. unfold tensure, tbind at 1.
  destruct (is_known _ d) eqn:Ek; simpl; [|split; [|done]; intros (? & [= <-] & _ & Hk); congruence]. unfold tbind at 1.
  destruct (String.eqb_spec (dv_Status d) DeviceUnenrolled) as [Eu|Eu]; simpl; [split; [|done]; intros (? & [= <-] & Ha & _); by rewrite Eu in Ha|]. unfold tbind at 1.
  destruct (String.eqb_spec (dv_Status d) DeviceActive) as [Ea|Ea]; simpl; [|split; [|done]; intros (? & [= <-] & Hk & _); congruence].
  destruct (_ && _); [|done]. unfold clear_superseded, tattempt, ClearPrevCertSerial, on_device, vset, tbind. done.
Qed.

(** C18. A certificate speaks for its device exactly while it is accepted: a request
    with any other is refused and changes nothing. Once the newest has been
    seen, no other is accepted; and right after a renewal that nothing
    overtakes the one that asked and the one that was signed are, so an answer
    that is lost on the way locks no device out. *)
Theorem devices_speak_with_their_certificate v leaf csr s id x :
  shows leaf id x ->
  match requireDevice uuid_Parse leaf s with
  | (Ok a, s') => accepts (sv_devices s) id x /\ ai_ID a = id /\ ai_CertSerial a = x /\
      (forall y, accepts (sv_devices s') id y <-> accepts (sv_devices s) id y /\ (x = dv_CertSerial (ai_Device a) -> y = x))
  | (Err e, s') => ~ accepts (sv_devices s) id x /\ s' = s /\
      e = (if match sv_devices s !! id with Some d => is_known x d && String.eqb (dv_Status d) DeviceUnenrolled | None => false end
           then Rejected 410 "device_unenrolled" else Rejected 401 "device_not_active")
  end /\
  match answered (renew_alone uuid_Parse CertValidity v leaf csr) s with
  | (Some (Done _), s') => accepts (sv_devices s) id x /\ forall y, accepts (sv_devices s') id y <-> y = x \/ y = Text16 (ev_Serial v)
  | (_, s') => forall y, accepts (sv_devices s') id y -> accepts (sv_devices s) id y
  end.
Proof.
  intros Hl. pose proof (requireDevice_step leaf s) as H. pose proof (requireDevice_refused leaf s id x Hl) as Hr.
  destruct (requireDevice uuid_Parse leaf s) as [[a|e] s'] eqn:Er.
  - destruct H as (Hl' & d & Hd & Ha & Hk & Hai & H). destruct (shows_fun _ _ _ _ _ Hl Hl') as [-> ->]. split.
    + split; [by exists d|]. split; [done|]. split; [done|]. intros y. rewrite H, accepts_insert, Hai, is_known_seen.
      assert (dv_CertSerial (seen (ai_CertSerial a) d) = dv_CertSerial d) as -> by (unfold seen; by case_match). unfold accepts. rewrite Hd.
      assert (dv_Status (seen (ai_CertSerial a) d) = dv_Status d) as -> by (unfold seen; by case_match). split.
      * intros [(_ & _ & Hy & Hx)|[[] _]]; [|done]. split; [by exists d|done].
      * intros [(? & [= <-] & _ & Hy) Hx]. by left.
    + unfold answered, renew_alone, tbind. rewrite Er. unfold renew, tbind, tmap_err.
      pose proof (Renew_devices v (ai_ID a) (ai_CertSerial a) csr s' (seen (ai_CertSerial a) d)) as HR.
      rewrite H, lookup_insert_eq in HR. specialize (HR eq_refl). destruct (Renew _ v _ _ csr s') as [[pem|e] s2]; simpl.
      * destruct HR as [ex HR]. split; [by exists d|]. intros y. rewrite HR, insert_insert_eq, accepts_insert, is_known_renewed by (by destruct Hl as (? & _ & _ & ->); apply Text16_nonempty).
        simpl. assert (dv_Status (seen (ai_CertSerial a) d) = DeviceActive) as -> by (unfold seen; by case_match). naive_solver.
      * assert (forall y, accepts (sv_devices s2) (ai_ID a) y -> accepts (sv_devices s) (ai_ID a) y) as Hle.
        { intros y. rewrite HR, H, accepts_insert, is_known_seen. intros [(_ & _ & Hy & _)|[[] _]]; [|done]. by exists d. }
        by destruct e.
  - destruct Hr as [Hn ->]. subst s'. split; [done|]. unfold answered, renew_alone, tbind. rewrite Er. by destruct (match sv_devices s !! id with Some _ => _ | None => _ end).
Qed.

(** C6. The steps of requests may come in any order: one that was let in clears
    what its certificate replaced, or renews, after others have done so. All
    the same, a device that has been retired, unenrolled or replaced is never
    let in again; a certificate that is not accepted, and that no request still
    under way came with, never comes back, unless the authority signs the same
    serial number again; and one that is accepted stays so while its device
    shows no other and is not ended, and no request of it is so late to clear
    that the device has been given another certificate meanwhile. *)
Theorem certificates_follow_their_device hist e id x :
  let m := sv_devices (en_server e) in
  let e' := enter_all uuid_Parse CertValidity hist e in
  let m' := sv_devices (en_server e') in
  ((exists d, m !! id = Some d /\ dv_Status d <> DeviceActive) -> ~ accepts m' id x) /\
  (~ accepts m id x -> unused (en_waiting e) id x -> (forall v r, (v, r) ∈ hist -> x <> Text16 (ev_Serial v)) ->
   ~ accepts m' id x /\ unused (en_waiting e') id x) /\
  (accepts m id x -> x <> EmptyString -> only_with (en_waiting e) id x -> in_time hist e = true ->
   (forall v r, (v, r) ∈ hist -> (forall leaf y, r = AdmitReq leaf -> shows leaf id y -> y = x) /\
      (forall u scope actor raw, r = StatusReq u scope actor raw -> uuid_Parse raw <> Some id)) ->
   accepts m' id x).
Proof.
  cbv zeta. revert e. induction hist as [|[v r] hist IH]; intros e; simpl.
  - split; [|naive_solver]. intros (d & Hd & Ha) (d' & Hd' & Ha' & _). congruence.
  - destruct (IH (entered uuid_Parse CertValidity v r e).2) as (H1 & H2 & H3). pose proof (enter_step v r e) as Hs.
    pose proof (enter_waiting v r e) as Hw. split_and!.
    + intros Hd. by eapply H1, step_ended_stays.
    + intros Hn Hq Hx. apply H2; [| |set_solver].
      * intros Ha. destruct (step_accepts _ _ _ _ _ _ _ Hs Hq Ha) as [|He]; [done|]. by apply (Hx v r); [left|].
      * intros w Hin Hid Hser. destruct (Hw w Hin) as [(w' & Hin' & Hi & Hse)|(leaf & _ & _ & Ha)]; [apply (Hq w' Hin'); congruence|].
        rewrite Hid, Hser in Ha. done.
    + intros Ha Hne Hq [Hl Ht]%andb_prop Hx. destruct (Hx v r) as [Hp He]; [left|]. apply H3; [| | |done|set_solver]; [|done|].
      * eapply step_keeps; try done. by apply negb_true_iff.
      * intros w Hin Hid. destruct (Hw w Hin) as [(w' & Hin' & Hi & Hse)|(leaf & Hr & Hsh & _)]; [rewrite Hse; apply (Hq w' Hin'); congruence|].
        rewrite Hid in Hsh. by apply (Hp leaf).
Qed.

(** ** The books of the tokens *)

Definition is_enrolment (a : AuditEntry) : bool := String.eqb (a_Action a) "device.enrolled".
Definition token_actor (id : string) : string := ("token:" ++ id)%string.
Definition enrolled_by (id : string) (a : AuditEntry) : bool := is_enrolment a && String.eqb (a_Actor a) (token_actor id).
Definition enrolments (s : server) : list AuditEntry := List.filter is_enrolment (audit_of s).

(** What the tables of devices and tokens and the audit log say of each other. *)
Record booked (s : server) : Prop := {
  bk_ids : NoDup (map et_ID (sv_tokens s));
  bk_uses : forall t, t ∈ sv_tokens s -> et_UseCount t = count_where (enrolled_by (et_ID t)) (audit_of s);
  bk_limit : forall t m, t ∈ sv_tokens s -> et_MaxUses t = Some m -> et_UseCount t <= m;
  bk_entries : forall e, e ∈ enrolments s ->
    exists t, t ∈ sv_tokens s /\ a_Actor e = token_actor (et_ID t) /\ (et_RegisteredOnly t = true -> "registration_id"%string ∈ map fst (a_Details e));
  bk_devices : forall id, is_Some (sv_devices s !! id) -> exists e, e ∈ enrolments s /\ a_TargetID e = id }.

(** What of the server [booked] looks at. *)
Definition ledger (s : server) : gset string * list EnrollmentToken * list AuditEntry := (dom (sv_devices s), sv_tokens s, enrolments s).

Lemma count_enrolled id s : count_where (enrolled_by id) (audit_of s) = count_where (enrolled_by id) (enrolments s).
Proof.
  unfold count_where, enrolments. f_equal. induction (audit_of s) as [|a l IH]; [done|]. unfold enrolled_by in *. simpl.
  destruct (is_enrolment a) eqn:Ea; simpl; [|done]. rewrite Ea. simpl. case_match; simpl; by rewrite IH.
Qed.

Lemma booked_ledger s s' : ledger s' = ledger s -> booked s -> booked s'.
Proof.
  unfold ledger. intros [= Hd Ht Ha] [H1 H2 H3 H4 H5]. split; rewrite ?Ht, ?Ha; try done.
  - intros t Hin. rewrite (H2 t Hin), !count_enrolled. by rewrite Ha.
  - intros id Hi. apply H5. apply elem_of_dom. rewrite <- Hd. by apply elem_of_dom.
Qed.

(** A revoked token stays revoked, and lets nobody in any more. *)
Definition stays_closed (s s' : server) : Prop :=
  forall t, t ∈ sv_tokens s -> not_revoked t = false ->
  exists t', t' ∈ sv_tokens s' /\ et_ID t' = et_ID t /\ et_UseCount t' = et_UseCount t /\ not_revoked t' = false.

Definition onward : relation server := fun s s' => booked s -> booked s' /\ stays_closed s s'.

#[local] Instance onward_preorder : PreOrder onward.
Proof.
  split; [intros s Hs; split; [done|]; intros t; by eauto|]. intros a b c Hab Hbc Ha. destruct (Hab Ha) as [Hb H1]. destruct (Hbc Hb) as [Hc H2].
  split; [done|]. intros t Ht Hr. destruct (H1 t Ht Hr) as (t' & Ht' & Hi & Hu & Hr'). destruct (H2 t' Ht' Hr') as (t'' & Ht'' & Hi' & Hu' & Hr'').
  exists t''. split_and!; [done|congruence..|done].
Qed.

Lemma onward_ledger {E A} (m : vtx E A) : tkeeps (same ledger) m -> tkeeps onward m.
Proof.
  intros H s Hs. specialize (H s). split; [by eapply booked_ledger|]. unfold same, ledger in H. injection H as _ Ht _. unfold stays_closed. rewrite Ht. eauto.
Qed.

Lemma on_groups_ledger {E A} (m : ftx E A) : tkeeps (same (fun f => List.filter is_enrolment (f_audit f))) m -> tkeeps (same ledger) (on_groups m).
Proof.
  intros Hm s. unfold on_groups, zoom. specialize (Hm (w_fleet (sv_world s))). simpl in *. destruct (m _) as [r f]. simpl in *.
  unfold same, ledger, enrolments, audit_of in *. simpl. by rewrite Hm.
Qed.

Lemma audit_ledger {E} a : is_enrolment a = false -> tkeeps (same ledger) (on_groups (InsertAudit a) : vtx E unit).
Proof.
  intros Ha. apply on_groups_ledger. intros f. unfold InsertAudit, fset, same. simpl. rewrite List.filter_app. simpl. by rewrite Ha, app_nil_r.
Qed.

Lemma fget_ledger {E A} f : tkeeps (same ledger) (on_groups (fget f) : vtx E A).
Proof. by apply on_groups_ledger. Qed.

Lemma GetGroup_ledger id : tkeeps (same ledger) (on_groups (GetGroup id)).
Proof. apply on_groups_ledger. unfold GetGroup. frames. Qed.

Lemma on_device_ledger {E} id f : tkeeps (same ledger) (on_device id f : vtx E unit).
Proof.
  intros s. unfold on_device, vset. simpl. destruct (sv_devices s !! id) as [d|] eqn:Ed; [|done]. unfold same, ledger, enrolments, audit_of. simpl.
  f_equal. f_equal. rewrite dom_insert_L. assert (id ∈ dom (sv_devices s)) by (by apply elem_of_dom). set_solver.
Qed.

Lemma CreateEnrollmentToken_onward t :
  (forall m, et_MaxUses t = Some m -> 0 <= m) -> tkeeps onward (CreateEnrollmentToken t).
Proof.
  intros Hm s. unfold CreateEnrollmentToken. case_match eqn:Ec; [reflexivity|]. apply orb_false_iff in Ec as [Hid _]. simpl.
  set (t0 := mkEnrollmentToken _ _ _ _ _ 0 None _ _ _). intros [H1 H2 H3 H4 H5].
  assert (forall x, x ∈ sv_tokens s -> et_ID x <> et_ID t) as Hnew.
  { intros x Hx He. apply existsb_none with (x := x) in Hid; [|done]. unfold token_id in Hid. apply String.eqb_neq in Hid. done. }
  assert (count_where (enrolled_by (et_ID t)) (audit_of s) = 0) as Hc.
  { destruct (count_where_pos (enrolled_by (et_ID t)) (audit_of s)) as [Hp _]. assert (0 <= count_where (enrolled_by (et_ID t)) (audit_of s)) by (unfold count_where; lia).
    destruct (Z.ltb_spec 0 (count_where (enrolled_by (et_ID t)) (audit_of s))); [|lia]. destruct Hp as (e & He & Hb); [done|].
    unfold enrolled_by in Hb. apply andb_prop in Hb as [Hb Ha%String.eqb_eq]. destruct (H4 e) as (x & Hx & Hax & _); [by apply elem_of_filterb|].
    exfalso. apply (Hnew x Hx). rewrite Ha in Hax. injection Hax as Hax. exact (eq_sym Hax). }
  split.
  - split; simpl; try done.
    + rewrite map_app. apply NoDup_app. split; [done|]. split; [|repeat constructor; set_solver]. intros x (y & -> & Hy)%list_elem_of_fmap.
      simpl. intros Hin. apply list_elem_of_singleton in Hin. by apply (Hnew y).
    + intros x [Hx| ->%list_elem_of_singleton]%elem_of_app; [by apply H2|]. simpl. done.
    + intros x m [Hx| ->%list_elem_of_singleton]%elem_of_app; [by apply H3|]. simpl. apply Hm.
    + intros e He. destruct (H4 e He) as (x & Hx & ?). exists x. split; [|done]. apply elem_of_app. by left.
  - intros x Hx Hr. exists x. simpl. split; [|done]. apply elem_of_app. by left.
Qed.

Lemma RevokeEnrollmentToken_onward id at_ : tkeeps onward (RevokeEnrollmentToken id at_).
Proof.
  intros s [H1 H2 H3 H4 H5]. unfold RevokeEnrollmentToken, vset. simpl.
  assert (forall x, x ∈ update_where (fun t => token_id id t && not_revoked t) (revoked_at at_) (sv_tokens s) ->
    exists y, y ∈ sv_tokens s /\ et_ID x = et_ID y /\ et_UseCount x = et_UseCount y /\ et_MaxUses x = et_MaxUses y) as Hx.
  { intros x (y & Hy & ->)%elem_of_update_where. exists y. by case_match. }
  split.
  - split; simpl; try done.
    + rewrite update_where_map; [done|]. by intros.
    + intros x (y & Hy & -> & -> & _)%Hx. by apply H2.
    + intros x m (y & Hy & _ & -> & ->)%Hx. by apply H3.
    + intros e He. destruct (H4 e He) as (x & Hin & Ha & Hr). eexists. split; [by eapply update_where_in|]. by case_match.
  - intros t Ht Hr. exists t. simpl. split; [|done]. apply elem_of_update_where. exists t. split; [done|]. by rewrite Hr, andb_false_r.
Qed.

Lemma enrolled_audit_by id tok dev details : enrolled_by id (enrolled_audit tok dev details) = String.eqb tok id.
Proof.
  unfold enrolled_by, enrolled_audit, is_enrolment, token_actor. simpl. apply eq_true_iff_eq. rewrite !String.eqb_eq. done.
Qed.

Lemma count_where_app {A} p (l k : list A) : count_where p (l ++ k) = count_where p l + count_where p k.
Proof. unfold count_where. rewrite List.filter_app, length_app. lia. Qed.

(** One more use of a token that may be used, and the entry that says so. *)
Lemma enrolled_onward s s' tok d details id now :
  tok ∈ sv_tokens s -> CheckUsable tok now = Ok tt -> (et_RegisteredOnly tok = true -> "registration_id"%string ∈ map fst details) ->
  register s' = (<[id := d]> (sv_devices s), update_where (token_id (et_ID tok)) used_once_more (sv_tokens s),
                 audit_of s ++ [enrolled_audit (et_ID tok) id details]) -> onward s s'.
Proof.
  intros Htok Hu Hreg Hs [H1 H2 H3 H4 H5]. unfold register in Hs. injection Hs as Hd Ht Ha.
  assert (not_revoked tok = true /\ forall m, et_MaxUses tok = Some m -> et_UseCount tok < m) as [Hr Hm].
  { unfold CheckUsable in Hu. unfold not_revoked. destruct (et_RevokedAt tok); [done|]. split; [done|]. intros m Em. rewrite Em in Hu.
    destruct (match et_ExpiresAt tok with Some _ => _ | None => _ end); [done|]. destruct (Z.leb_spec m (et_UseCount tok)); [done|lia]. }
  assert (forall t, t ∈ sv_tokens s -> token_id (et_ID tok) t = true -> t = tok) as Hone.
  { intros t Hin He%String.eqb_eq. by eapply (NoDup_map_inj et_ID). }
  assert (enrolments s' = enrolments s ++ [enrolled_audit (et_ID tok) id details]) as He by (unfold enrolments; by rewrite Ha, List.filter_app).
  split; [split|]; rewrite ?Ht, ?Hd, ?He.
  - rewrite update_where_map; [done|]. by intros.
  - intros t' (t & Hin & ->)%elem_of_update_where. rewrite Ha, count_where_app. destruct (token_id (et_ID tok) t) eqn:Ei; simpl.
    + rewrite (Hone t Hin Ei) in *. rewrite (H2 tok Htok). f_equal. unfold count_where. simpl. by rewrite enrolled_audit_by, String.eqb_refl.
    + rewrite (H2 t Hin). assert (count_where (enrolled_by (et_ID t)) [enrolled_audit (et_ID tok) id details] = 0) as ->; [|lia].
      unfold count_where. simpl. rewrite enrolled_audit_by, String.eqb_sym. unfold token_id in Ei. by rewrite Ei.
  - intros t' m (t & Hin & ->)%elem_of_update_where. destruct (token_id (et_ID tok) t) eqn:Ei; simpl; [|by apply H3].
    rewrite (Hone t Hin Ei) in *. intros Em%Hm. lia.
  - intros e [Hin| ->%list_elem_of_singleton]%elem_of_app.
    + destruct (H4 e Hin) as (t & Htin & Hac & Hre). eexists. split; [by eapply update_where_in|]. by case_match.
    + eexists. split; [apply update_where_in, Htok|]. unfold token_id. rewrite !String.eqb_refl. split; done.
  - intros x. destruct (decide (x = id)) as [->|Hx].
    + intros _. eexists. split; [apply elem_of_app; right; by apply list_elem_of_singleton|done].
    + rewrite lookup_insert_ne by done. intros (e & Hin & Hid)%H5. exists e. split; [|done]. apply elem_of_app. by left.
  - intros t Hin Hrev. exists t. split; [|done]. rewrite Ht. apply elem_of_update_where. exists t. split; [done|].
    destruct (token_id (et_ID tok) t) eqn:Ei; [|done]. rewrite (Hone t Hin Ei) in Hrev. congruence.
Qed.

Lemma enroll_onward v req : tkeeps onward (enroll CertValidity v req).
Proof.
  intros s. unfold enroll, tbind, tmap_err. destruct (Enroll _ v req s) as [[a|e] s'] eqn:E; simpl.
  - apply Enroll_Ok in E as (tok & d & details & Hf & Hu & _ & _ & _ & _ & Hr & H). apply find_some in Hf as [Hin%list_elem_of_In _].
    by eapply enrolled_onward.
  - apply Enroll_Err in E as ->. reflexivity.
Qed.

#[local] Hint Resolve on_device_ledger fget_ledger GetGroup_ledger : frames.

Lemma let_in_ledger leaf : tkeeps (same ledger) (let_in uuid_Parse leaf).
Proof. intros s. pose proof (let_in_read leaf s) as H. destruct (let_in _ leaf s) as [[[a clears]|e] s']; simpl; [by destruct H as [-> _]|by subst]. Qed.
Lemma clear_superseded_ledger a : tkeeps (same ledger) (clear_superseded a).
Proof. unfold clear_superseded, ClearPrevCertSerial. frames. Qed.
Lemma requireDevice_ledger leaf : tkeeps (same ledger) (requireDevice uuid_Parse leaf).
Proof. pose proof let_in_ledger. pose proof clear_superseded_ledger. unfold requireDevice. eapply keeps_bind; [typeclasses eauto|done|]. intros [a []]; [done|frames]. Qed.

Lemma renew_ledger v a csr : tkeeps (same ledger) (renew CertValidity v a csr).
Proof. pose proof @audit_ledger. unfold renew, Renew, es, UpdateDeviceCert. frames. Qed.

Lemma changeDeviceStatus_ledger u scope actor raw : tkeeps (same ledger) (changeDeviceStatus uuid_Parse u scope actor raw).
Proof.
  pose proof @audit_ledger. unfold changeDeviceStatus, path_uuid, stored_, DeviceInScope, Unenroll, Retire, transition, GetDevice, SetDeviceStatus. frames.
Qed.

Lemma find_groups_ledger raw : tkeeps (same ledger) (find_groups uuid_Parse raw).
Proof. induction raw as [|x raw IH]; simpl; [frames|]. destruct (uuid_Parse x); [|frames]. frames. Qed.
Lemma create_all_ledger regs : tkeeps (same ledger) (create_all regs).
Proof.
  induction regs as [|r regs IH]; simpl; [frames|]. eapply keeps_bind; [typeclasses eauto| |by intros ?].
  intros st. unfold CreateRegistration. by case_match.
Qed.
Lemma saveRegistrations_ledger regs actor : tkeeps (same ledger) (saveRegistrations regs actor).
Proof. pose proof create_all_ledger. pose proof @audit_ledger. unfold saveRegistrations. frames. Qed.
Lemma createRegistration_ledger v actor r : tkeeps (same ledger) (createRegistration uuid_Parse v actor r).
Proof.
  pose proof find_groups_ledger. pose proof saveRegistrations_ledger. unfold createRegistration.
  eapply keeps_bind; [typeclasses eauto|done|]. intros groups. frames.
Qed.
Lemma importRegistrations_ledger v actor rows : tkeeps (same ledger) (importRegistrations v actor rows).
Proof.
  pose proof saveRegistrations_ledger. unfold importRegistrations.
  eapply keeps_bind; [typeclasses eauto|unfold stored_; frames|]. intros all. destruct (import_rows _ _ _ _ _ _ _ _) as [regs problems]. frames.
Qed.
Lemma deleteRegistration_ledger actor raw : tkeeps (same ledger) (deleteRegistration uuid_Parse actor raw).
Proof.
  pose proof @audit_ledger. unfold deleteRegistration, GetRegistration. destruct (uuid_Parse raw) as [id|]; [|frames]. frames.
  intros st. unfold DeleteRegistration. by case_match.
Qed.

Lemma createToken_onward v actor r : tkeeps onward (createToken v actor r).
Proof.
  unfold createToken. eapply keeps_bind; [typeclasses eauto| |by intros ?; frames]. apply keeps_map_err. unfold CreateToken, es.
  eapply (keeps_bind_with _ (fun _ => forall m, to_MaxUses (token_options (ev_Now v) actor r) = Some m -> 0 < m)); [frames|..].
  { intros s [] s' [Hc _]%tensure_Ok m Em. rewrite Em in Hc. apply negb_true_iff, Z.leb_gt in Hc. lia. }
  intros _ Hm. eapply keeps_bind; [typeclasses eauto|frames|]. intros [plain hash].
  eapply keeps_bind; [typeclasses eauto| |by intros ?; frames]. eapply keeps_InTx; [typeclasses eauto|].
  eapply keeps_bind; [typeclasses eauto| |intros ?; by apply onward_ledger, audit_ledger].
  apply keeps_map_err, CreateEnrollmentToken_onward. simpl. intros m Em. specialize (Hm m Em). lia.
Qed.

Lemma revokeToken_onward v actor raw : tkeeps onward (revokeToken uuid_Parse v actor raw).
Proof.
  unfold revokeToken, path_uuid. destruct (uuid_Parse raw) as [id|]; [|frames].
  eapply keeps_bind; [typeclasses eauto| |by intros ?; frames]. apply keeps_map_err. unfold RevokeToken, es.
  eapply keeps_InTx; [typeclasses eauto|]. eapply keeps_bind; [typeclasses eauto| |intros tok].
  { apply onward_ledger. unfold GetEnrollmentToken. frames. }
  eapply keeps_bind; [typeclasses eauto| |intros ?; by apply onward_ledger, audit_ledger]. apply keeps_map_err, RevokeEnrollmentToken_onward.
Qed.

Lemma at_once_onward (m : txn server response response) e : tkeeps onward m -> onward (en_server e) (en_server (at_once m e).2).
Proof. intros H. rewrite at_once_state. apply H. Qed.

Lemma enter_onward v r e : onward (en_server e) (en_server (entered uuid_Parse CertValidity v r e).2).
Proof.
  destruct r as [req|leaf|n|n csr|n|actor r|actor raw|actor r|actor rows|actor raw|unenroll scope actor raw]; unfold entered.
  - apply at_once_onward, enroll_onward.
  - pose proof (onward_ledger _ (let_in_ledger leaf) (en_server e)) as H. by destruct (let_in _ _ _) as [[[]|] s'].
  - destruct (_ !! n) as [[a []]|]; [|reflexivity..]. pose proof (onward_ledger _ (clear_superseded_ledger a) (en_server e)) as H.
    by destruct (clear_superseded _ _) as [[] s'].
  - destruct (_ !! n) as [[a []]|]; [reflexivity| |reflexivity]. pose proof (onward_ledger _ (renew_ledger v a csr) (en_server e)) as H.
    pose proof (answered_state (renew CertValidity v a csr) (en_server e)) as Ha. destruct (answered _ _) as [r s']. simpl in *. by subst s'.
  - by destruct (_ !! n) as [[a []]|].
  - apply at_once_onward, createToken_onward.
  - apply at_once_onward, revokeToken_onward.
  - apply at_once_onward, onward_ledger, createRegistration_ledger.
  - apply at_once_onward, onward_ledger, importRegistrations_ledger.
  - apply at_once_onward, onward_ledger, deleteRegistration_ledger.
  - apply at_once_onward, onward_ledger, changeDeviceStatus_ledger.
Qed.

(** C11. Nobody gets in without an invitation: over any requests, whatever order
    their steps come in, every device has an entry in the audit log that names
    the token it came with; a token's counter is the number of those entries
    and never passes the token's limit; a token for registered devices only
    admits registered ones; and a token that was revoked admits nobody any
    more. *)
Theorem enrolment_is_by_invitation hist e :
  booked (en_server e) ->
  let s' := en_server (enter_all uuid_Parse CertValidity hist e) in booked s' /\ stays_closed (en_server e) s'.
Proof.
  cbv zeta. revert e. induction hist as [|[v r] hist IH]; intros e Hs; simpl; [split; [done|]; intros t; eauto|].
  pose proof (enter_onward v r e) as Ho.
  assert (onward (en_server (entered uuid_Parse CertValidity v r e).2) (en_server (enter_all uuid_Parse CertValidity hist (entered uuid_Parse CertValidity v r e).2))) as Ho'.
  { intros Hb. by apply IH. }
  destruct (transitivity Ho Ho' Hs) as [? ?]. done.
Qed.
End Devices.
