(* ===== verification/Builds.v ===== *)
(** * Agent builds on the server

    [internal/server/agentversions/service.go], [store/agentversions.go],
    [store/agentbuilds.go], the builds of [artifacts/artifacts.go] and
    [protocol/platform.go]: the versions an administrator or the release feed
    brought, a build of each for every platform, and the bytes on disk. The
    disk answers. The part of [agent_versions] that assignments and rollouts
    read, ids and version strings, is the fleet's [f_versions]. *)
From S2P Require Import Settings AuthStore Payload AppSync.
From S2P Require Export Library.
From S2P Require Export FleetStore.
Open Scope Z_scope.
Open Scope go_scope.

(** ** Platforms *)

Definition PlatformWindowsAMD64 : string := "windows-amd64".
Definition PlatformDarwinARM64 : string := "darwin-arm64".
Definition PlatformDarwinAMD64 : string := "darwin-amd64".
Definition PlatformDarwinUniversal : string := "darwin-universal".
Definition PlatformLinuxAMD64 : string := "linux-amd64".
Definition PlatformLinuxARM64 : string := "linux-arm64".

Definition Platforms : list string :=
  [PlatformWindowsAMD64; PlatformDarwinARM64; PlatformDarwinAMD64; PlatformDarwinUniversal; PlatformLinuxAMD64; PlatformLinuxARM64].

Definition ValidPlatform (p : string) : bool := existsb (String.eqb p) Platforms.

Definition DevicePlatform (reported osVersion : string) : string :=
  if negb (String.eqb reported EmptyString) then reported
  else if GoString.Contains osVersion "Windows" then PlatformWindowsAMD64 else EmptyString.

Definition BuildCandidates (p : string) : list string :=
  if String.eqb p EmptyString then []
  else if String.eqb p PlatformDarwinARM64 || String.eqb p PlatformDarwinAMD64 then [p; PlatformDarwinUniversal]
  else [p].

(** ** Rows and files *)

Definition SourceUpload : string := "upload".
Definition SourceReleaseFeed : string := "release_feed".

(** A row of [agent_versions]; its id is its key. *)
Record AgentVersionRow := mkVersionRow {
  vr_Version : string; vr_SHA256 : string; vr_SizeBytes : Z; vr_Notes : string; vr_CreatedAt : time; vr_CreatedBy : string;
  vr_KeyID : string; vr_Signature : string; vr_Source : string }.

Record AgentVersionBuild := mkBuild {
  bd_AgentVersionID : string; bd_Platform : string; bd_SHA256 : string; bd_SizeBytes : Z; bd_KeyID : string; bd_Signature : string;
  bd_CreatedAt : time; bd_CreatedBy : string }.

(** [dp_files]: by version and platform; [dp_old]: the Windows builds of before
    platforms, by version. *)
Record depot := mkDepot {
  dp_rows : gmap string AgentVersionRow; dp_builds : list AgentVersionBuild; dp_files : gmap (string * string) string;
  dp_old : gmap string string; dp_fleet : fdb }.

Definition set_dp_files (x : gmap (string * string) string) (d : depot) : depot := mkDepot (dp_rows d) (dp_builds d) x (dp_old d) (dp_fleet d).
Definition set_dp_fleet (x : fdb) (d : depot) : depot := mkDepot (dp_rows d) (dp_builds d) (dp_files d) (dp_old d) x.
Definition set_dp_builds (x : list AgentVersionBuild) (d : depot) : depot := mkDepot (dp_rows d) x (dp_files d) (dp_old d) (dp_fleet d).
Definition set_versions (x : gmap string string) (d : fdb) : fdb :=
  mkFdb (f_groups d) (f_devices d) x (f_assignments d) (f_approvals d) (f_rollouts d) (f_policy d) (f_statuses d) (f_audit d) (f_ids d) (f_readings d).

Definition depot_fleet : lens depot fdb := mkLens dp_fleet set_dp_fleet.
Abbreviation dtx := (txn depot).

Definition on_depot_fleet {E A} (m : ftx E A) : dtx E A := zoom depot_fleet m.
Definition dget {E A} (f : depot -> A) : dtx E A := fun d => (Ok (f d), d).
Definition dfound {E A} (e : E) (o : option A) : dtx E A := match o with Some a => tret a | None => tfail e end.

(** ** [store/agentversions.go] and [store/agentbuilds.go] *)

Definition has_version (version : string) (x : string * AgentVersionRow) : bool := String.eqb (vr_Version x.2) version.

Definition source (v : AgentVersionRow) : string := if String.eqb (vr_Source v) EmptyString then SourceUpload else vr_Source v.

Definition stored_row (v : AgentVersionRow) : AgentVersionRow :=
  mkVersionRow (vr_Version v) (vr_SHA256 v) (vr_SizeBytes v) (vr_Notes v) (vr_CreatedAt v) (vr_CreatedBy v) (vr_KeyID v) (vr_Signature v) (source v).

Definition CreateAgentVersion (id : string) (v : AgentVersionRow) : dtx store_error unit := fun d =>
  if bool_decide (is_Some (dp_rows d !! id)) || existsb (has_version (vr_Version v)) (map_to_list (dp_rows d)) then (Err ErrDuplicate, d)
  else (Ok tt, mkDepot (<[id := stored_row v]> (dp_rows d)) (dp_builds d) (dp_files d) (dp_old d)
                 (set_versions (<[id := vr_Version v]> (f_versions (dp_fleet d))) (dp_fleet d))).

Definition GetAgentVersion (id : string) : dtx store_error AgentVersionRow := let* v := dget (fun d => dp_rows d !! id) in dfound ErrNotFound v.
Definition GetAgentVersionByVersion (version : string) : dtx store_error (string * AgentVersionRow) :=
  let* v := dget (fun d => find (has_version version) (map_to_list (dp_rows d))) in dfound ErrNotFound v.

(** The builds go with their version, and so do its rollouts. *)
Definition DeleteAgentVersion {E} (id : string) : dtx E unit := fun d =>
  (Ok tt, mkDepot (delete id (dp_rows d)) (List.filter (fun b => negb (String.eqb (bd_AgentVersionID b) id)) (dp_builds d)) (dp_files d) (dp_old d)
            (set_f_rollouts (List.filter (fun r => negb (String.eqb (ro_AgentVersionID r) id)) (f_rollouts (dp_fleet d)))
              (set_versions (delete id (f_versions (dp_fleet d))) (dp_fleet d)))).

Definition is_build (id platform : string) (b : AgentVersionBuild) : bool :=
  String.eqb (bd_AgentVersionID b) id && String.eqb (bd_Platform b) platform.

Definition CreateAgentVersionBuild (b : AgentVersionBuild) : dtx store_error unit := fun d =>
  if existsb (is_build (bd_AgentVersionID b) (bd_Platform b)) (dp_builds d) then (Err ErrDuplicate, d)
  else if bool_decide (is_Some (dp_rows d !! bd_AgentVersionID b)) then (Ok tt, set_dp_builds (dp_builds d ++ [b]) d)
  else (Err ErrForeignKey, d).

Definition GetAgentVersionBuild (id platform : string) : dtx store_error AgentVersionBuild :=
  let* b := dget (fun d => find (is_build id platform) (dp_builds d)) in dfound ErrNotFound b.

(** ** [artifacts.go] *)

Inductive artifact_error := ArtifactNotFound | ArtifactExists | BadVersion (message : string) | OverLimit (limit : Z).

Definition version_char (c : ascii) : bool :=
  is_upper c || is_lower c || is_digit c || existsb (Ascii.eqb c) ["."; "_"; "+"; "-"]%char.
Definition all_chars (p : ascii -> bool) (s : string) : bool := negb (sany (fun c => negb (p c)) s).

Definition validateVersion (version : string) : result artifact_error unit :=
  ensure (negb (String.eqb version EmptyString || String.eqb version "." || String.eqb version ".." || negb (all_chars version_char version)))
    (BadVersion ("invalid version: " ++ Quoted version)%string).

Definition platform_char (c : ascii) : bool := is_lower c || is_digit c.
(** [^[a-z0-9]+-[a-z0-9]+$]. *)
Definition platform_shape (p : string) : bool :=
  match Split "-" p with
  | [a; b] => negb (String.eqb a EmptyString) && negb (String.eqb b EmptyString) && all_chars platform_char a && all_chars platform_char b
  | _ => false
  end.

Definition validateBuild (version platform : string) : result artifact_error unit :=
  check! validateVersion version;
  ensure (platform_shape platform) (BadVersion ("invalid version: platform " ++ Quoted platform)%string).

Section Builds.
Context `{CR : Crypto}.

(** A copy that fails leaves nothing behind. *)
Definition PutBuild (version platform body : string) (limit : Z) : dtx artifact_error (string * Z) := fun d =>
  match validateBuild version platform with
  | Err e => (Err e, d)
  | Ok _ =>
      if bool_decide (is_Some (dp_files d !! (version, platform))) then (Err ArtifactExists, d)
      else if limit <? slen body then (Err (OverLimit limit), d)
      else (Ok (sha256_hex body, slen body), set_dp_files (<[(version, platform) := body]> (dp_files d)) d)
  end.

Definition Open (version : string) : dtx artifact_error string :=
  do* lift_result (validateVersion version); let* f := dget (fun d => dp_old d !! version) in dfound ArtifactNotFound f.

Definition OpenArtifact (version platform : string) : dtx artifact_error string :=
  do* lift_result (validateBuild version platform);
  let* f := dget (fun d => dp_files d !! (version, platform)) in
  match f with
  | Some b => tret b
  | None => if String.eqb platform PlatformWindowsAMD64 then Open version else tfail ArtifactNotFound
  end.

(** Its error is not looked at. *)
Definition RemoveBuild {E} (version platform : string) : dtx E unit := fun d =>
  (Ok tt, match validateBuild version platform with Ok _ => set_dp_files (delete (version, platform) (dp_files d)) d | Err _ => d end).

Definition Remove (version : string) : dtx artifact_error unit := fun d =>
  match validateVersion version with
  | Err e => (Err e, d)
  | Ok _ => (Ok tt, mkDepot (dp_rows d) (dp_builds d) (filter (fun x => x.1.1 <> version) (dp_files d)) (delete version (dp_old d)) (dp_fleet d))
  end.

(** ** Signatures on the wire *)

Inductive sidecar_problem := SidecarNotJSON | SidecarBadMember (e : json_error) | SidecarNotBase64 | SidecarLength (n : Z).

Definition sidecar_fields : list (field Release.Signature) := [
  string_field "version" (fun v s => mkSignature v (sig_SHA256 s) (sig_KeyID s) (sig_Signature s));
  string_field "sha256" (fun v s => mkSignature (sig_Version s) v (sig_KeyID s) (sig_Signature s));
  string_field "key_id" (fun v s => mkSignature (sig_Version s) (sig_SHA256 s) v (sig_Signature s));
  string_field "signature" (fun v s => mkSignature (sig_Version s) (sig_SHA256 s) (sig_KeyID s) v)].

Context (json_parse : string -> option json) (json_text : json -> string) (problem_text : sidecar_problem -> string).

Definition sidecar_json (s : Release.Signature) : json :=
  JObj [("version", JStr (sig_Version s)); ("sha256", JStr (sig_SHA256 s)); ("key_id", JStr (sig_KeyID s));
        ("signature", JStr (base64_encode (sig_Signature s)))]%string.

Definition DecodeSidecar (b : string) : result sidecar_problem Release.Signature :=
  match json_parse b with
  | None => Err SidecarNotJSON
  | Some v =>
      match decode_struct false sidecar_fields v (mkSignature EmptyString EmptyString EmptyString EmptyString) with
      | Err e => Err (SidecarBadMember e)
      | Ok w =>
          match base64_decode (sig_Signature w) with
          | None => Err SidecarNotBase64
          | Some raw => check! ensure (slen raw =? 64) (SidecarLength (slen raw));
                        Ok (mkSignature (sig_Version w) (sig_SHA256 w) (sig_KeyID w) raw)
          end
      end
  end.

(** ** [agentversions/service.go] *)

Context (ReleaseKeys : list PublicKey).

Definition MaxUploadBytes : Z := 134217728.
Definition MaxNotesLength : Z := 2000.
Definition SignatureHeader : string := "X-Retune-Signature".

Inductive build_problem :=
| NeedsVersion | NotPlatform (platform : string) | NotesTooLong | NoSignatureHeader | HeaderNotBase64 | BadSidecar (p : sidecar_problem)
| UnknownKey (key : string) | BadArtifactVersion (message : string) | WrongHash (sum signed : string) | WrongVersion (declared signed : string)
| NotVerified.

Inductive build_error :=
| NoVersion | PlatformTaken (platform : string) | VersionTaken | OtherBytes (platform version sum signed : string) | NoBuild
| BadBuild (p : build_problem) | BadUpdateStatus (status : string) | NoReleaseKeys | UploadLimit (limit : Z) | NoArtifact
| BuildStore (e : store_error).

Definition build_reason (e : build_error) : string :=
  match e with
  | BadBuild NeedsVersion => "a build needs a version"
  | BadBuild (NotPlatform p) => Quoted p ++ " is not a platform; use one of " ++ Join ", " Platforms
  | BadBuild NotesTooLong => "notes may be at most " ++ Itoa MaxNotesLength ++ " characters"
  | BadBuild NoSignatureHeader => "the upload carried no " ++ SignatureHeader ++ " header"
  | BadBuild HeaderNotBase64 => SignatureHeader ++ " is not base64"
  | BadBuild (BadSidecar p) => SignatureHeader ++ ": " ++ problem_text p
  | BadBuild (UnknownKey k) => "the signature names key " ++ k ++ ", which is not a configured release key"
  | BadBuild (BadArtifactVersion m) => m
  | BadBuild (WrongHash sum signed) => "the uploaded bytes hash to " ++ sum ++ " but the signature is over " ++ signed
  | BadBuild (WrongVersion v w) => "declared version " ++ Quoted v ++ " does not match the signed version " ++ Quoted w
  | BadBuild NotVerified => "the signature did not verify"
  | PlatformTaken p => "a " ++ p ++ " build of this version already exists"
  | VersionTaken => "that version has already been uploaded"
  | NoReleaseKeys => "no release keys are configured to verify against"
  | _ => EmptyString
  end%string.

Record NewVersion := mkNewVersion {
  nv_Version : string; nv_Platform : string; nv_Notes : string; nv_Actor : string; nv_SignatureHeader : string; nv_Source : string }.

(** A refusal is on the record. *)
Definition rejectKey {A} (i : NewVersion) (keyID : string) (e : build_error) : dtx build_error A :=
  do* on_depot_fleet (InsertAudit (mkAudit (nv_Actor i) "agent_version.rejected" "agent_version" EmptyString
        [("version", JStr (nv_Version i)); ("platform", JStr (nv_Platform i)); ("reason", JStr (build_reason e)); ("key_id", JStr keyID)]%string));
  tfail e.
Definition reject {A} (i : NewVersion) (e : build_error) : dtx build_error A := rejectKey i EmptyString e.
Definition rejectSig {A} (i : NewVersion) (sig : Release.Signature) (e : build_error) : dtx build_error A := rejectKey i (sig_KeyID sig) e.

Definition check_ (c : bool) (refuse : dtx build_error unit) : dtx build_error unit := if c then tret tt else refuse.

(** The version that is there, with no build for the platform yet. *)
Definition find_existing (i : NewVersion) (version platform : string) : dtx build_error (option (string * AgentVersionRow)) :=
  let* existing := tattempt (GetAgentVersionByVersion version) in
  match existing with
  | Ok (id, v) =>
      let* b := tattempt (GetAgentVersionBuild id platform) in
      match b with
      | Ok _ => reject i (PlatformTaken platform)
      | Err ErrNotFound => tret (Some (id, v))
      | Err e => tfail (BuildStore e)
      end
  | Err ErrNotFound => tret None
  | Err e => tfail (BuildStore e)
  end.

Definition read_header (i : NewVersion) : dtx build_error Release.Signature :=
  do* check_ (negb (String.eqb (nv_SignatureHeader i) EmptyString)) (reject i (BadBuild NoSignatureHeader));
  match base64_decode (nv_SignatureHeader i) with
  | None => reject i (BadBuild HeaderNotBase64)
  | Some raw => match DecodeSidecar raw with Ok sig => tret sig | Err p => reject i (BadBuild (BadSidecar p)) end
  end.

Definition key_known (sig : Release.Signature) : bool := existsb (fun k => String.eqb (ID k) (sig_KeyID sig)) ReleaseKeys.

Definition put_upload (i : NewVersion) (version platform body : string) : dtx build_error (string * Z) :=
  let* r := tattempt (PutBuild version platform body MaxUploadBytes) in
  match r with
  | Ok x => tret x
  | Err ArtifactExists => reject i VersionTaken
  | Err (BadVersion m) => reject i (BadBuild (BadArtifactVersion m))
  | Err (OverLimit n) => tfail (UploadLimit n)
  | Err ArtifactNotFound => tfail NoArtifact
  end.

(** What is wrong with the bytes on disk. *)
Definition refused_bytes (version sum : string) (sig : Release.Signature) : option build_problem :=
  if negb (EqualFold sum (sig_SHA256 sig)) then Some (WrongHash sum (sig_SHA256 sig))
  else if negb (String.eqb version (sig_Version sig)) then Some (WrongVersion version (sig_Version sig))
  else match Verify ReleaseKeys (mkManifest version sum) sig with Ok _ => None | Err _ => Some NotVerified end.

Definition uploaded_row (i : NewVersion) (version sum : string) (size : Z) (sig : Release.Signature) (now : time) : AgentVersionRow :=
  mkVersionRow version sum size (nv_Notes i) now (nv_Actor i) (sig_KeyID sig) (base64_encode (sig_Signature sig))
    (if String.eqb (nv_Source i) EmptyString then SourceUpload else nv_Source i).

Definition uploaded_build (i : NewVersion) (id platform sum : string) (size : Z) (sig : Release.Signature) (now : time) : AgentVersionBuild :=
  mkBuild id platform sum size (sig_KeyID sig) (base64_encode (sig_Signature sig)) now (nv_Actor i).

Definition record_build (i : NewVersion) (existing : option (string * AgentVersionRow)) (id : string) (v : AgentVersionRow) (b : AgentVersionBuild)
    : dtx store_error unit :=
  InTx (
    do* match existing with None => CreateAgentVersion id v | Some _ => tret tt end;
    do* CreateAgentVersionBuild b;
    on_depot_fleet (InsertAudit (mkAudit (nv_Actor i) "agent_version.uploaded" "agent_version" id
      [("version", JStr (vr_Version v)); ("platform", JStr (bd_Platform b)); ("sha256", JStr (bd_SHA256 b)); ("size_bytes", jint (bd_SizeBytes b));
       ("key_id", JStr (bd_KeyID b)); ("source", JStr (nv_Source i))]%string))).

(** [new_id] is the uuid it would take; the clock is read once. *)
Definition Upload (new_id : string) (now : time) (i : NewVersion) (body : string) : dtx build_error (string * AgentVersionRow) :=
  let version := TrimSpace (nv_Version i) in
  do* check_ (negb (String.eqb version EmptyString)) (reject i (BadBuild NeedsVersion));
  let platform := if String.eqb (TrimSpace (nv_Platform i)) EmptyString then PlatformWindowsAMD64 else TrimSpace (nv_Platform i) in
  let i := mkNewVersion (nv_Version i) platform (nv_Notes i) (nv_Actor i) (nv_SignatureHeader i) (nv_Source i) in
  do* check_ (ValidPlatform platform) (reject i (BadBuild (NotPlatform platform)));
  do* check_ (RuneCountInString (nv_Notes i) <=? MaxNotesLength) (reject i (BadBuild NotesTooLong));
  let* existing := find_existing i version platform in
  do* check_ (match ReleaseKeys with [] => false | _ => true end) (reject i NoReleaseKeys);
  let* sig := read_header i in
  do* check_ (key_known sig) (rejectSig i sig (BadBuild (UnknownKey (sig_KeyID sig))));
  let* (sum, size) := put_upload i version platform body in
  match refused_bytes version sum sig with
  | Some p => do* RemoveBuild version platform; rejectSig i sig (BadBuild p)
  | None =>
      let (id, v) := match existing with Some x => x | None => (new_id, uploaded_row i version sum size sig now) end in
      let* r := tattempt (record_build i existing id v (uploaded_build i id platform sum size sig now)) in
      match r with
      | Ok _ => tret (id, v)
      | Err e =>
          do* RemoveBuild version platform;
          match e with ErrDuplicate => reject i VersionTaken | e => tfail (BuildStore e) end
      end
  end.

(** [[]rune(notes)[:n]]. *)
Fixpoint take_runes (n fuel : nat) (s : string) : string :=
  match n, fuel, s with
  | S n, S fuel, String c r =>
      match rune_width s with
      | Some w => (take_str w s ++ take_runes n fuel (drop_str w s))%string
      | None => (RuneError ++ take_runes n fuel r)%string
      end
  | _, _, _ => EmptyString
  end.

Definition short_notes (notes : string) : string :=
  if MaxNotesLength <? RuneCountInString notes
  then (take_runes (Z.to_nat (MaxNotesLength - 3)) (String.length notes) notes ++ "...")%string else notes.

Definition Import (new_id : string) (now : time) (platform : string) (sig : Release.Signature) (notes actor body : string)
    : dtx build_error (string * AgentVersionRow * bool) :=
  let upload :=
    let* v := Upload new_id now (mkNewVersion (sig_Version sig) platform (short_notes notes) actor (base64_encode (json_text (sidecar_json sig)))
                SourceReleaseFeed) body in tret (v, true) in
  let* existing := tattempt (GetAgentVersionByVersion (sig_Version sig)) in
  match existing with
  | Ok (id, v) =>
      let* b := tattempt (GetAgentVersionBuild id platform) in
      match b with
      | Ok b => if negb (EqualFold (bd_SHA256 b) (sig_SHA256 sig))
                then tfail (OtherBytes platform (sig_Version sig) (bd_SHA256 b) (sig_SHA256 sig)) else tret ((id, v), false)
      | Err ErrNotFound => upload
      | Err e => tfail (BuildStore e)
      end
  | Err ErrNotFound => upload
  | Err e => tfail (BuildStore e)
  end.

Definition GetVersionRow (id : string) : dtx build_error AgentVersionRow :=
  tmap_err (fun e => match e with ErrNotFound => NoVersion | e => BuildStore e end) (GetAgentVersion id).

(** The bytes go last, by the version's name. *)
Definition DeleteVersion (id actor : string) : dtx build_error unit :=
  let* v := InTx (
    let* v := GetVersionRow id in
    do* tmap_err BuildStore (on_depot_fleet (DeleteAssignmentsForItem ItemKindAgent id));
    do* DeleteAgentVersion id;
    do* on_depot_fleet (InsertAudit (mkAudit actor "agent_version.deleted" "agent_version" id [("version", JStr (vr_Version v))]%string));
    tret v) in
  tmap_err (fun e => match e with BadVersion m => BadBuild (BadArtifactVersion m) | _ => NoArtifact end) (Remove (vr_Version v)).

Fixpoint first_build (id : string) (candidates : list string) : dtx build_error AgentVersionBuild :=
  match candidates with
  | [] => tfail NoBuild
  | p :: rest =>
      let* b := tattempt (GetAgentVersionBuild id p) in
      match b with
      | Ok b => tret b
      | Err ErrNotFound => first_build id rest
      | Err e => tfail (BuildStore e)
      end
  end.

Definition BuildFor (id platform : string) : dtx build_error (AgentVersionRow * AgentVersionBuild) :=
  let* v := GetVersionRow id in let* b := first_build id (BuildCandidates platform) in tret (v, b).

Definition OpenBuild (id platform : string) : dtx build_error string :=
  let* (v, b) := BuildFor id platform in
  tmap_err (fun e => match e with BadVersion m => BadBuild (BadArtifactVersion m) | _ => NoArtifact end) (OpenArtifact (vr_Version v) (bd_Platform b)).

Record AgentUpdateResult := mkAgentUpdateResult { ur_Version : string; ur_Status : string; ur_Detail : string; ur_RolledBackFrom : string }.

Definition update_detail (r : AgentUpdateResult) : string :=
  if String.eqb (ur_Detail r) EmptyString && negb (String.eqb (ur_RolledBackFrom r) EmptyString)
  then ("rolled back from " ++ ur_RolledBackFrom r ++ " to " ++ ur_Version r)%string else ur_Detail r.

Definition RecordResult (now : time) (deviceID id : string) (r : AgentUpdateResult) : dtx build_error unit :=
  do* tensure (String.eqb (ur_Status r) ResultSucceeded || String.eqb (ur_Status r) ResultFailed) (BadUpdateStatus (ur_Status r));
  tmap_err BuildStore (on_depot_fleet (SetItemStatus
    (mkItemStatus deviceID ItemKindAgent id (if String.eqb (ur_Status r) ResultSucceeded then ItemSucceeded else ItemFailed) (update_detail r) 1 now))).
End Builds.

(** ** Every build was signed *)

(** What of the depot is not the audit log or a status. *)
Definition stock (d : depot) : gmap string AgentVersionRow * list AgentVersionBuild * gmap (string * string) string * gmap string string * gmap string string :=
  (dp_rows d, dp_builds d, dp_files d, dp_old d, f_versions (dp_fleet d)).

Section Signed.
Context `{CR : Crypto} (json_parse : string -> option json) (json_text : json -> string) (problem_text : sidecar_problem -> string).
Context (ReleaseKeys : list PublicKey).

(** The bytes a build is read from. *)
Definition stored (d : depot) (version platform : string) : option string :=
  match dp_files d !! (version, platform) with
  | Some b => Some b
  | None => if String.eqb platform PlatformWindowsAMD64 then dp_old d !! version else None
  end.

(** A release key signed these bytes as this version. *)
Definition signed_build (version : string) (body : string) (b : AgentVersionBuild) : Prop :=
  bd_SHA256 b = sha256_hex body /\ bd_SizeBytes b = slen body /\
  exists sig, base64_encode (sig_Signature sig) = bd_Signature b /\ sig_KeyID sig = bd_KeyID b /\
    Verify ReleaseKeys (mkManifest version (sha256_hex body)) sig = Ok tt.

Record well_stocked (d : depot) : Prop := {
  ws_index : f_versions (dp_fleet d) = vr_Version <$> dp_rows d;
  ws_names : forall i j v w, dp_rows d !! i = Some v -> dp_rows d !! j = Some w -> vr_Version v = vr_Version w -> i = j;
  ws_once : NoDup (map (fun b => (bd_AgentVersionID b, bd_Platform b)) (dp_builds d));
  ws_signed : forall b, b ∈ dp_builds d -> exists v body,
    dp_rows d !! bd_AgentVersionID b = Some v /\ validateBuild (vr_Version v) (bd_Platform b) = Ok tt /\
    stored d (vr_Version v) (bd_Platform b) = Some body /\ signed_build (vr_Version v) body b }.

Lemma well_stock d d' : stock d' = stock d -> well_stocked d -> well_stocked d'.
Proof. unfold stock. intros [= H1 H2 H3 H4 H5] [A B C D]. split; unfold stored; rewrite ?H1, ?H2, ?H3, ?H4, ?H5; done. Qed.

(** No build of this version for this platform is recorded. *)
Definition vacant (d : depot) (version platform : string) : Prop :=
  forall b v, b ∈ dp_builds d -> dp_rows d !! bd_AgentVersionID b = Some v -> vr_Version v = version -> bd_Platform b <> platform.

Lemma audit_stock {E} a : tkeeps (same stock) (on_depot_fleet (InsertAudit a) : dtx E unit).
Proof. by intros d. Qed.
Lemma reject_stock {A} i e : tkeeps (same stock) (reject problem_text i e : dtx build_error A).
Proof. by intros d. Qed.
Lemma rejectSig_stock {A} i s e : tkeeps (same stock) (rejectSig problem_text i s e : dtx build_error A).
Proof. by intros d. Qed.
Lemma dget_stock {E A} (f : depot -> A) : tkeeps (same stock) (dget f : dtx E A).
Proof. by intros d. Qed.
Lemma dfound_stock {E A} (e : E) (o : option A) : tkeeps (same stock) (dfound e o).
Proof. by destruct o. Qed.
Hint Resolve audit_stock reject_stock rejectSig_stock dget_stock dfound_stock : frames.

Lemma check_stock c m : tkeeps (same stock) m -> tkeeps (same stock) (check_ c m).
Proof. unfold check_. intros. frames. Qed.
Lemma find_existing_stock i version platform : tkeeps (same stock) (find_existing problem_text i version platform).
Proof. unfold find_existing, GetAgentVersionByVersion, GetAgentVersionBuild. frames. Qed.
Lemma read_header_stock i : tkeeps (same stock) (read_header json_parse problem_text i).
Proof. unfold read_header, check_. frames. Qed.

(** What [find_existing] found. *)
Definition found_existing (d : depot) (version platform : string) (e : option (string * AgentVersionRow)) : Prop :=
  match e with
  | Some (id, v) => dp_rows d !! id = Some v /\ vr_Version v = version /\ existsb (is_build id platform) (dp_builds d) = false
  | None => forall id v, dp_rows d !! id = Some v -> vr_Version v <> version
  end.

Lemma find_existing_Ok i version platform d e d' :
  find_existing problem_text i version platform d = (Ok e, d') -> found_existing d version platform e.
Proof.
  unfold find_existing. intros H. apply tbind_Ok in H as (r & d1 & H1 & H). unfold tattempt, GetAgentVersionByVersion, tbind, dget, dfound in H1.
  destruct (find (has_version version) _) as [[id v]|] eqn:Ef; simpl in H1; injection H1 as <- <-.
  - apply find_some in Ef as [Hin%list_elem_of_In Hv%String.eqb_eq]. apply elem_of_map_to_list in Hin.
    apply tbind_Ok in H as (r & d1 & H1 & H). unfold tattempt, GetAgentVersionBuild, tbind, dget, dfound in H1.
    destruct (find (is_build id platform) _) as [b|] eqn:Eb; simpl in H1; injection H1 as <- <-; [done|]. injection H as <- <-.
    split; [done|]. split; [done|]. apply existsb_none. intros b Hb. apply (find_none _ _ Eb). by apply list_elem_of_In.
  - injection H as <- <-. intros id v Hv He. assert (In (id, v) (map_to_list (dp_rows d))) as Hin by (by apply list_elem_of_In, elem_of_map_to_list).
    pose proof (find_none _ _ Ef _ Hin) as Hn. unfold has_version in Hn. simpl in Hn. by apply String.eqb_neq in Hn.
Qed.

Lemma found_vacant d version platform e : well_stocked d -> found_existing d version platform e -> vacant d version platform.
Proof.
  intros Hw He b v Hb Hv Hver Hp. destruct e as [[id w]|]; [|by apply (He (bd_AgentVersionID b) v)].
  destruct He as (Hid & Hw' & Hn). assert (bd_AgentVersionID b = id) as Hi by (eapply (ws_names d Hw); [done|done|congruence]).
  apply existsb_none with (x := b) in Hn; [|done]. unfold is_build in Hn. rewrite Hi, Hp, !String.eqb_refl in Hn. done.
Qed.

(** Another file changes nothing for the builds there are. *)
Lemma stored_insert d version platform body v p :
  (v, p) <> (version, platform) -> stored (set_dp_files (<[(version, platform) := body]> (dp_files d)) d) v p = stored d v p.
Proof. intros Hne. unfold stored. simpl. by rewrite lookup_insert_ne. Qed.

Lemma stored_delete d version platform v p :
  (v, p) <> (version, platform) -> stored (set_dp_files (delete (version, platform) (dp_files d)) d) v p = stored d v p.
Proof. intros Hne. unfold stored. simpl. by rewrite lookup_delete_ne. Qed.

Lemma well_files d fs version platform :
  well_stocked d -> vacant d version platform ->
  (forall v p, (v, p) <> (version, platform) -> stored (set_dp_files fs d) v p = stored d v p) ->
  well_stocked (set_dp_files fs d) /\ vacant (set_dp_files fs d) version platform.
Proof.
  intros [A B C D] Hva Hs. split; [|done]. split; try done. intros b Hb. destruct (D b Hb) as (v & body & Hv & Hval & Hst & Hsig).
  exists v, body. split; [done|]. split; [done|]. split; [|done]. rewrite Hs; [done|]. intros [= Hver Hp]. by apply (Hva b v Hb Hv).
Qed.

Lemma put_upload_Ok i version platform body d sum size d' :
  put_upload problem_text i version platform body d = (Ok (sum, size), d') ->
  validateBuild version platform = Ok tt /\ dp_files d !! (version, platform) = None /\ sum = sha256_hex body /\ size = slen body /\
  d' = set_dp_files (<[(version, platform) := body]> (dp_files d)) d.
Proof.
  unfold put_upload. intros H. apply tbind_Ok in H as (r & d1 & H1 & H). unfold tattempt, PutBuild in H1.
  destruct (validateBuild version platform) as [[]|e].
  - case_bool_decide as Hf; [injection H1 as <- <-; discriminate H|]. destruct (MaxUploadBytes <? slen body); injection H1 as <- <-; [done|].
    injection H as <- <- <-. split_and!; try done. by apply eq_None_not_Some.
  - injection H1 as <- <-. destruct e; discriminate H.
Qed.

Lemma put_upload_Err i version platform body d e d' :
  put_upload problem_text i version platform body d = (Err e, d') -> stock d' = stock d.
Proof.
  unfold put_upload, tattempt, tbind, PutBuild. destruct (validateBuild version platform) as [[]|x].
  - case_bool_decide; [by intros [= _ <-]|]. destruct (MaxUploadBytes <? slen body); by intros [= _ <-].
  - destruct x; by intros [= _ <-].
Qed.

Lemma RemoveBuild_well {E} version platform d d' (r : result E unit) :
  well_stocked d -> vacant d version platform -> RemoveBuild version platform d = (r, d') -> well_stocked d'.
Proof.
  intros Hw Hv. unfold RemoveBuild. destruct (validateBuild version platform); intros [= _ <-]; [|done].
  apply (well_files d _ version platform Hw Hv). intros v p. apply stored_delete.
Qed.

Lemma CreateAgentVersion_Ok id v d u d' :
  CreateAgentVersion id v d = (Ok u, d') -> well_stocked d ->
  well_stocked d' /\ dp_rows d !! id = None /\ dp_rows d' = <[id := stored_row v]> (dp_rows d) /\ dp_files d' = dp_files d /\ dp_old d' = dp_old d.
Proof.
  unfold CreateAgentVersion. case_match eqn:Ec; [done|]. apply orb_false_iff in Ec as [Hid%bool_decide_eq_false Hn]. apply eq_None_not_Some in Hid.
  intros [= _ <-] [A B C D]. split; [|done]. assert (forall j w, dp_rows d !! j = Some w -> vr_Version w <> vr_Version v) as Hfresh.
  { intros j w Hj. apply existsb_none with (x := (j, w)) in Hn; [|by apply elem_of_map_to_list]. by apply String.eqb_neq in Hn. }
  split; simpl.
  - rewrite fmap_insert. by rewrite A.
  - intros i j x y. destruct (decide (i = id)) as [->|Hi], (decide (j = id)) as [->|Hj]; rewrite ?lookup_insert_eq, ?lookup_insert_ne by done; [done|..].
    + intros [= <-] Hy. simpl. intros He. by apply Hfresh in Hy.
    + intros Hx [= <-]. simpl. intros He. by apply Hfresh in Hx.
    + apply B.
  - done.
  - intros b Hb. destruct (D b Hb) as (w & body & Hw & ?). exists w, body. rewrite lookup_insert_ne; [done|]. intros He. congruence.
Qed.

Lemma CreateAgentVersionBuild_Ok b v body d u d' :
  CreateAgentVersionBuild b d = (Ok u, d') -> well_stocked d ->
  dp_rows d !! bd_AgentVersionID b = Some v -> validateBuild (vr_Version v) (bd_Platform b) = Ok tt ->
  stored d (vr_Version v) (bd_Platform b) = Some body -> signed_build (vr_Version v) body b -> well_stocked d'.
Proof.
  unfold CreateAgentVersionBuild. case_match eqn:Ec; [done|]. case_bool_decide; [|done]. intros [= _ <-] [A B C D] Hv Hval Hst Hsig. split; try done; simpl.
  - rewrite map_app. apply NoDup_app. split; [done|]. split; [|repeat constructor; set_solver]. intros x (c & -> & Hc)%list_elem_of_fmap.
    intros [= Hi Hp]%list_elem_of_singleton. apply existsb_none with (x := c) in Ec; [|done]. unfold is_build in Ec. rewrite Hi, Hp, !String.eqb_refl in Ec. done.
  - intros c [Hc| ->%list_elem_of_singleton]%elem_of_app; [by apply D|]. by exists v, body.
Qed.

Lemma record_build_Ok i existing id v b version platform body d u d' :
  record_build i existing id v b d = (Ok u, d') -> well_stocked d -> found_existing d version platform existing ->
  match existing with Some x => (id, v) = x | None => vr_Version v = version end ->
  bd_AgentVersionID b = id -> bd_Platform b = platform -> validateBuild version platform = Ok tt -> stored d version platform = Some body ->
  signed_build version body b -> well_stocked d'.
Proof.
  intros H Hw He Hid Hb Hp Hval Hst Hsig. apply (proj1 (InTx_Ok _ _ _ _)) in H. apply tbind_Ok in H as (u1 & d1 & H1 & H).
  apply tbind_Ok in H as (u2 & d2 & H2 & H). assert (d' = set_dp_fleet (dp_fleet d') d2 /\ f_versions (dp_fleet d') = f_versions (dp_fleet d2)) as [Hd Hf]
    by (by injection H as _ <-). apply (well_stock d2); [rewrite Hd; unfold stock; simpl; by rewrite Hf|].
  destruct existing as [x|]; simpl in Hid.
  - subst x. injection H1 as _ <-. destruct He as (Hrow & Hver & _). subst platform. subst version.
    eapply (CreateAgentVersionBuild_Ok b v body d); [done|done|by rewrite Hb|done..].
  - destruct (CreateAgentVersion_Ok _ _ _ _ _ H1 Hw) as (Hw1 & Hnone & Hrows & Hfiles & Hold).
    eapply (CreateAgentVersionBuild_Ok b (stored_row v) body d1); [done|done|by rewrite Hrows, Hb, lookup_insert_eq|..]; simpl; rewrite Hid, ?Hp; try done.
    unfold stored. by rewrite Hfiles, Hold.
Qed.

Lemma refused_none version sum sig : refused_bytes ReleaseKeys version sum sig = None -> Verify ReleaseKeys (mkManifest version sum) sig = Ok tt.
Proof. unfold refused_bytes. destruct (negb _); [done|]. destruct (negb _); [done|]. by destruct (Verify _ _ _) as [[]|]. Qed.

(** What an upload keeps: the depot stays well stocked. *)
Definition keeps_stocked : relation depot := fun d d' => well_stocked d -> well_stocked d'.
Instance keeps_stocked_preorder : PreOrder keeps_stocked.
Proof. split; [intros d Hd; exact Hd|]. intros a b c H1 H2 H. exact (H2 (H1 H)). Qed.

Lemma stocked_same {E A} (m : dtx E A) : tkeeps (same stock) m -> tkeeps keeps_stocked m.
Proof. intros H d Hw. apply (well_stock d); [exact (H d)|done]. Qed.

(** From where the bytes are put. *)
Lemma upload_tail new_id now i version platform existing sig body d :
  well_stocked d -> found_existing d version platform existing ->
  well_stocked ((let* (sum, size) := put_upload problem_text i version platform body in
  match refused_bytes ReleaseKeys version sum sig with
  | Some p => do* RemoveBuild version platform; rejectSig problem_text i sig (BadBuild p)
  | None =>
      let (id, v) := match existing with Some x => x | None => (new_id, uploaded_row i version sum size sig now) end in
      let* r := tattempt (record_build i existing id v (uploaded_build i id platform sum size sig now)) in
      match r with
      | Ok _ => tret (id, v)
      | Err e =>
          do* RemoveBuild version platform;
          match e with ErrDuplicate => reject problem_text i VersionTaken | e => tfail (BuildStore e) end
      end
  end) d).2.
Proof.
  intros Hw He. unfold tbind at 1. destruct (put_upload _ i version platform body d) as [[[sum size]|e] d1] eqn:E1.
  2: { simpl. apply put_upload_Err in E1. by apply (well_stock d). }
  apply put_upload_Ok in E1 as (Hval & Hfree & -> & -> & ->). pose proof (found_vacant _ _ _ _ Hw He) as Hva.
  destruct (well_files d (<[(version, platform) := body]> (dp_files d)) version platform Hw Hva) as [Hw1 Hva1].
  { intros v p. apply stored_insert. }
  set (d1 := set_dp_files _ d) in *.
  assert (forall A (m : dtx build_error A), tkeeps (same stock) m -> well_stocked ((do* RemoveBuild version platform; m) d1).2) as Hrem.
  { intros A m Hm. unfold tbind. destruct (RemoveBuild version platform d1) as [[u|e] d2] eqn:Er; simpl.
    - apply (well_stock d2); [apply Hm|]. by eapply RemoveBuild_well.
    - by eapply RemoveBuild_well. }
  destruct (refused_bytes _ _ _ _) as [p|] eqn:Erf; [apply Hrem, rejectSig_stock|].
  destruct (match existing with Some x => x | None => _ end) as [id v] eqn:Eid. unfold tbind at 1, tattempt.
  destruct (record_build i existing id v _ d1) as [[u|e] d2] eqn:Eb.
  - simpl. eapply (record_build_Ok _ _ _ _ _ version platform body _ _ _ Eb Hw1); try done.
    + destruct existing as [x|]; [done|]. by injection Eid as _ <-.
    + unfold stored, d1. simpl. by rewrite lookup_insert_eq.
    + split; [done|]. split; [done|]. exists sig. split; [done|]. split; [done|]. by apply refused_none.
  - apply InTx_Err in Eb as ->. apply Hrem. destruct e; [intros ?; done|apply reject_stock|intros ?; done].
Qed.

Lemma Upload_well new_id now i body : tkeeps keeps_stocked (Upload json_parse problem_text ReleaseKeys new_id now i body).
Proof.
  pose proof (fun c m H => stocked_same _ (check_stock c m H)) as Hcheck. unfold Upload. cbv zeta.
  eapply keeps_bind; [typeclasses eauto|apply Hcheck, reject_stock|]. intros _.
  set (platform := if String.eqb _ _ then _ else _). set (i' := mkNewVersion _ platform _ _ _ _). set (version := TrimSpace (nv_Version i)).
  eapply keeps_bind; [typeclasses eauto|apply Hcheck, reject_stock|]. intros _.
  eapply keeps_bind; [typeclasses eauto|apply Hcheck, reject_stock|]. intros _. intros d Hw. unfold tbind at 1.
  pose proof (find_existing_stock i' version platform d) as Hs. destruct (find_existing _ i' version platform d) as [[existing|e] d1] eqn:Ee.
  2: { by apply (well_stock d). }
  apply find_existing_Ok in Ee. unfold same in Hs. simpl in Hs.
  assert (forall d2, stock d2 = stock d -> found_existing d2 version platform existing) as He.
  { unfold stock. intros d2 [= H1 H2 _ _ _]. unfold found_existing. by rewrite H1, H2. }
  unfold tbind at 1. pose proof (check_stock (match ReleaseKeys with [] => false | _ => true end) _ (reject_stock i' NoReleaseKeys) d1) as Hs2.
  destruct (check_ _ _ d1) as [[u|e] d2]; unfold same in Hs2; simpl in Hs2; [|by simpl; apply (well_stock d); [congruence|]].
  unfold tbind at 1. pose proof (read_header_stock i' d2) as Hs3. destruct (read_header _ _ i' d2) as [[sig|e] d3]; unfold same in Hs3; simpl in Hs3; [|by simpl; apply (well_stock d); [congruence|]].
  unfold tbind at 1. pose proof (check_stock (key_known ReleaseKeys sig) _ (rejectSig_stock i' sig (BadBuild (UnknownKey (sig_KeyID sig)))) d3) as Hs4.
  destruct (check_ _ _ d3) as [[u'|e] d4]; unfold same in Hs4; simpl in Hs4; [|by simpl; apply (well_stock d); [congruence|]].
  apply upload_tail; [apply (well_stock d); [|done]|apply He]; congruence.
Qed.

Lemma Import_well new_id now platform sig notes actor body :
  tkeeps keeps_stocked (Import json_parse json_text problem_text ReleaseKeys new_id now platform sig notes actor body).
Proof.
  pose proof Upload_well as HU. unfold Import. cbv zeta.
  eapply keeps_bind; [typeclasses eauto|apply stocked_same; unfold GetAgentVersionByVersion; frames|]. intros [[id v]|[]]; [|frames..].
  eapply keeps_bind; [typeclasses eauto|apply stocked_same; unfold GetAgentVersionBuild; frames|]. intros [b|[]]; frames.
Qed.

Lemma DeleteAgentVersion_well {E} id v d :
  well_stocked d -> dp_rows d !! id = Some v ->
  well_stocked ((DeleteAgentVersion id : dtx E unit) d).2 /\
  (forall j w, dp_rows ((DeleteAgentVersion id : dtx E unit) d).2 !! j = Some w -> vr_Version w <> vr_Version v).
Proof.
  intros [A B C D] Hv. simpl. split.
  - split; simpl.
    + by rewrite fmap_delete, A.
    + intros i j x y [_ Hx]%lookup_delete_Some [_ Hy]%lookup_delete_Some. by apply B.
    + by apply NoDup_map_filter.
    + intros b [Hb Hi]%elem_of_filterb. apply negb_true_iff, String.eqb_neq in Hi. destruct (D b Hb) as (w & body & Hw & ?). exists w, body.
      rewrite lookup_delete_ne; [done|]. congruence.
  - intros j w [Hj Hw]%lookup_delete_Some He. apply Hj. by apply (B id j v w).
Qed.

Lemma Remove_well version d :
  well_stocked d -> (forall j w, dp_rows d !! j = Some w -> vr_Version w <> version) -> well_stocked (Remove version d).2.
Proof.
  intros [A B C D] Hn. unfold Remove. destruct (validateVersion version); [|done]. split; try done; simpl.
  intros b Hb. destruct (D b Hb) as (w & body & Hw & Hval & Hst & Hsig). exists w, body. split; [done|]. split; [done|]. split; [|done].
  rewrite <- Hst. pose proof (Hn _ _ Hw) as Hne. unfold stored. simpl. rewrite map_lookup_filter.
  destruct (dp_files d !! (vr_Version w, bd_Platform b)) as [x|]; simpl; [by rewrite option_guard_True|]. by rewrite lookup_delete_ne.
Qed.

Lemma DeleteVersion_well id actor : tkeeps keeps_stocked (DeleteVersion id actor).
Proof.
  intros d Hw. unfold DeleteVersion, tbind at 1. destruct (InTx _ d) as [[v|e] d1] eqn:E; [|by apply InTx_Err in E as ->].
  apply (proj1 (InTx_Ok _ _ _ _)) in E. apply tbind_Ok in E as (v' & d2 & E1 & E). unfold GetVersionRow, GetAgentVersion in E1.
  apply tmap_err_Ok, tbind_Ok in E1 as (o & d2' & [= <- <-] & E1). unfold dfound in E1. destruct (dp_rows d !! id) as [w|] eqn:Ew; [|done].
  injection E1 as -> <-. apply tbind_Ok in E as ([] & d3 & E3 & E). apply tbind_Ok in E as ([] & d4 & [= <-] & E).
  apply tbind_Ok in E as ([] & d5 & [= <-] & [= <- <-]). assert (stock d3 = stock d) as Hs by (by injection E3 as <-).
  apply (well_stock _ d3 Hs) in Hw as [A B C D]. 
  pose proof Hs as Hr. unfold stock in Hr. injection Hr as Hr _ _ _ _. rewrite <- Hr in Ew. clear Hr Hs E3.
  destruct (DeleteAgentVersion_well (E := build_error) id v' d3 (Build_well_stocked _ A B C D) Ew) as [Hw Hn].
  assert (forall m d, stock d = stock m -> well_stocked m -> (forall j w, dp_rows m !! j = Some w -> vr_Version w <> vr_Version v') ->
    well_stocked ((tmap_err (fun e => match e with BadVersion m => BadBuild (BadArtifactVersion m) | _ => NoArtifact end) (Remove (vr_Version v')) d).2)) as Hrem.
  { intros m d6 Hst Hm Hnm. assert ((tmap_err (fun e => match e with BadVersion m => BadBuild (BadArtifactVersion m) | _ => NoArtifact end)
      (Remove (vr_Version v')) d6).2 = (Remove (vr_Version v') d6).2) as -> by (unfold tmap_err; by destruct (Remove _ d6) as [[]]).
    apply Remove_well; [by apply (well_stock m)|]. unfold stock in Hst. injection Hst as -> _ _ _ _. done. }
  refine (Hrem _ _ _ Hw Hn). reflexivity.
Qed.

Lemma RecordResult_stock now dev id r : tkeeps (same stock) (RecordResult now dev id r).
Proof.
  unfold RecordResult. frames. intros d. unfold on_depot_fleet, zoom, SetItemStatus, put_status, same, stock. simpl. repeat case_match; simplify_eq; reflexivity.
Qed.

Inductive build_op :=
| UploadOp (new_id : string) (now : time) (i : NewVersion) (body : string)
| ImportOp (new_id : string) (now : time) (platform : string) (sig : Release.Signature) (notes actor body : string)
| DeleteOp (id actor : string)
| ResultOp (now : time) (deviceID id : string) (r : AgentUpdateResult).

Definition run_op (o : build_op) (d : depot) : depot :=
  match o with
  | UploadOp new_id now i body => (Upload json_parse problem_text ReleaseKeys new_id now i body d).2
  | ImportOp new_id now platform sig notes actor body =>
      (Import json_parse json_text problem_text ReleaseKeys new_id now platform sig notes actor body d).2
  | DeleteOp id actor => (DeleteVersion id actor d).2
  | ResultOp now dev id r => (RecordResult now dev id r d).2
  end.

Definition run_ops (l : list build_op) (d : depot) : depot := fold_left (fun d o => run_op o d) l d.

Lemma run_ops_well l d : well_stocked d -> well_stocked (run_ops l d).
Proof.
  revert d. induction l as [|o l IH]; intros d Hw; [done|]. apply IH. destruct o; simpl.
  - by apply Upload_well.
  - by apply Import_well.
  - by apply DeleteVersion_well.
  - by apply (stocked_same _ (RecordResult_stock _ _ _ _)).
Qed.

Lemma first_build_Ok id candidates d b d' :
  first_build id candidates d = (Ok b, d') -> d' = d /\ b ∈ dp_builds d /\ bd_AgentVersionID b = id /\ bd_Platform b ∈ candidates.
Proof.
  induction candidates as [|p rest IH]; [done|]. simpl. intros H. apply tbind_Ok in H as (r & d1 & H1 & H).
  unfold tattempt, GetAgentVersionBuild, tbind, dget, dfound in H1. destruct (find (is_build id p) _) as [b'|] eqn:Eb; simpl in H1; injection H1 as <- <-.
  - injection H as <- <-. apply find_some in Eb as [Hb%list_elem_of_In [Hi%String.eqb_eq Hp%String.eqb_eq]%andb_prop]. subst.
    split; [done|]. split; [done|]. split; [done|left].
  - destruct (IH H) as (-> & ? & ? & ?). split; [done|]. split; [done|]. split; [done|by right].
Qed.

Lemma BuildFor_Ok id platform d v b d' :
  BuildFor id platform d = (Ok (v, b), d') ->
  d' = d /\ dp_rows d !! id = Some v /\ b ∈ dp_builds d /\ bd_AgentVersionID b = id /\ bd_Platform b ∈ BuildCandidates platform.
Proof.
  unfold BuildFor. intros H. apply tbind_Ok in H as (v' & d1 & H1 & H). unfold GetVersionRow, GetAgentVersion in H1.
  apply tmap_err_Ok, tbind_Ok in H1 as (o & d1' & [= <- <-] & H1). unfold dfound in H1. destruct (dp_rows d !! id) as [w|] eqn:Ew; [|done].
  injection H1 as -> <-. apply tbind_Ok in H as (b' & d2 & H2 & [= -> -> <-]). apply first_build_Ok in H2 as (-> & ?). done.
Qed.

(** C5. Whatever was uploaded, imported or deleted: a build a device is offered is
    for its platform (or for every Mac), its bytes can be read, they hash to
    what the device is told, and a release key has signed that hash as this
    version of the agent. *)
Theorem served_builds_are_signed ops d id platform v b d' :
  well_stocked d -> BuildFor id platform (run_ops ops d) = (Ok (v, b), d') ->
  bd_Platform b ∈ BuildCandidates platform /\
  exists body sig, OpenBuild id platform (run_ops ops d) = (Ok body, run_ops ops d) /\
    bd_SHA256 b = sha256_hex body /\ bd_SizeBytes b = slen body /\
    base64_encode (sig_Signature sig) = bd_Signature b /\ sig_KeyID sig = bd_KeyID b /\
    Verify ReleaseKeys (mkManifest (vr_Version v) (bd_SHA256 b)) sig = Ok tt.
Proof.
  intros Hw%(run_ops_well ops) HB. set (s := run_ops ops d) in *. pose proof HB as HB'. apply BuildFor_Ok in HB as (-> & Hv & Hb & Hid & Hp).
  split; [done|]. destruct (ws_signed s Hw b Hb) as (w & body & Hw' & Hval & Hst & Hsha & Hsize & sig & Hsig & Hkey & Hver).
  assert (w = v) as -> by congruence. exists body, sig. rewrite Hsha. split; [|done].
  unfold OpenBuild, tbind at 1. rewrite HB'. unfold tmap_err, OpenArtifact, tbind, lift_result. rewrite Hval. simpl.
  unfold stored in Hst. destruct (dp_files s !! (vr_Version v, bd_Platform b)) as [x|]; [by injection Hst as ->|].
  destruct (String.eqb (bd_Platform b) PlatformWindowsAMD64); [|done]. unfold Open, tbind, lift_result, dget, dfound.
  unfold validateBuild in Hval. destruct (validateVersion (vr_Version v)) as [[]|]; [|done]. simpl. by rewrite Hst.
Qed.
End Signed.
