(* ===== verification/AgentApi.v ===== *)
(** * What a device may ask for

    [internal/server/agentapi/handler.go] behind [requireDevice]: check-ins,
    the contents of what is assigned, the reports on it, commands, and the
    recovery keys of [internal/server/bitlocker]. A request reads the clock
    once; bodies are decoded, and a store that answers logs no error. Remote
    sessions, waiting, files of commands, inventory uploads and compliance
    statements are not here. *)
From S2P Require Import Settings Secrets Scripts AppSync Payload PolicyEngine AuthStore Access Window.
From S2P Require Import Commands.
From S2P Require Export Builds EnrollLife LibraryLife.
From S2P Require Export FleetStore.
Open Scope Z_scope.
Open Scope go_scope.

(** ** The tables *)

(** A row of [bitlocker_keys]. *)
Record BitLockerKey := mkBitLockerKey {
  bk_ID : string; bk_DeviceID : string; bk_VolumeID : string; bk_Method : string; bk_Ciphertext : string; bk_Nonce : string;
  bk_CreatedAt : time; bk_UpdatedAt : time }.

(** Of [device_inventory], what decides whether more is due. *)
Record DeviceInventory := mkInventory { iv_Hash : string; iv_ReceivedAt : time }.

Record hub := mkHub {
  hb_server : server; hb_rows : gmap string AgentVersionRow; hb_builds : list AgentVersionBuild; hb_files : gmap (string * string) string;
  hb_old : gmap string string; hb_keys : list BitLockerKey; hb_inventory : gmap string DeviceInventory; hb_windows : gmap string json }.

Definition set_hb_server (x : server) (h : hub) : hub :=
  mkHub x (hb_rows h) (hb_builds h) (hb_files h) (hb_old h) (hb_keys h) (hb_inventory h) (hb_windows h).
Definition set_hb_keys (x : list BitLockerKey) (h : hub) : hub :=
  mkHub (hb_server h) (hb_rows h) (hb_builds h) (hb_files h) (hb_old h) x (hb_inventory h) (hb_windows h).

Definition hub_world (h : hub) : world := sv_world (hb_server h).
Definition set_hub_world (w : world) (h : hub) : hub := set_hb_server (set_sv_world w (hb_server h)) h.

Definition hub_depot (h : hub) : depot := mkDepot (hb_rows h) (hb_builds h) (hb_files h) (hb_old h) (w_fleet (hub_world h)).
Definition set_hub_depot (d : depot) (h : hub) : hub :=
  mkHub (set_sv_world (set_w_fleet (dp_fleet d) (hub_world h)) (hb_server h)) (dp_rows d) (dp_builds d) (dp_files d) (dp_old d)
    (hb_keys h) (hb_inventory h) (hb_windows h).

Definition server_part : lens hub server := mkLens hb_server set_hb_server.
Definition hub_world_part : lens hub world := mkLens hub_world set_hub_world.
Definition depot_part : lens hub depot := mkLens hub_depot set_hub_depot.
Definition runs_part : lens world (list ScriptRunRow) := mkLens w_runs (fun x w =>
  mkWorld (w_commands w) (w_fleet w) (w_scripts w) x (w_profiles w) (w_settings w) (w_apps w) (w_installs w) (w_packages w)).
Definition settings_part : lens world (list SettingStatus) := mkLens w_settings (fun x w =>
  mkWorld (w_commands w) (w_fleet w) (w_scripts w) (w_runs w) (w_profiles w) x (w_apps w) (w_installs w) (w_packages w)).
Definition installs_part : lens world (list AppInstallRow) := mkLens w_installs (fun x w =>
  mkWorld (w_commands w) (w_fleet w) (w_scripts w) (w_runs w) (w_profiles w) (w_settings w) (w_apps w) x (w_packages w)).

Abbreviation hub_tx := (txn hub).

Definition hget {E A} (f : hub -> A) : hub_tx E A := fun h => (Ok (f h), h).
Definition at_server {E A} (m : vtx E A) : hub_tx E A := zoom server_part m.
Definition at_world {E A} (m : txn world E A) : hub_tx E A := zoom hub_world_part m.
Definition at_fleet {E A} (m : ftx E A) : hub_tx E A := at_world (zoom fleet_part m).
Definition at_commands {E A} (m : tx E A) : hub_tx E A := at_world (zoom commands_part m).
Definition at_depot {E A} (m : dtx E A) : hub_tx E A := zoom depot_part m.

(** ** Recovery keys *)

Inductive bitlocker_error := NoRecoveryKey | NeedsVolume | EmptyRecoveryKey | LongRecoveryKey | NoServerKey | SealTrouble | KeyStore (e : store_error).

Definition MaxRecoveryPasswordBytes : Z := 256.

Definition EscrowContext (deviceID volumeID : string) : string := (deviceID ++ "/" ++ ToUpper volumeID)%string.

Definition same_volume (deviceID volumeID : string) (k : BitLockerKey) : bool :=
  String.eqb (bk_DeviceID k) deviceID && String.eqb (bk_VolumeID k) volumeID.

Definition replace_key (new old : BitLockerKey) : BitLockerKey :=
  mkBitLockerKey (bk_ID old) (bk_DeviceID old) (bk_VolumeID old) (bk_Method new) (bk_Ciphertext new) (bk_Nonce new) (bk_CreatedAt old) (bk_CreatedAt new).

Definition UpsertBitLockerKey (k : BitLockerKey) : hub_tx store_error unit := fun h =>
  if existsb (same_volume (bk_DeviceID k) (bk_VolumeID k)) (hb_keys h)
  then (Ok tt, set_hb_keys (update_where (same_volume (bk_DeviceID k) (bk_VolumeID k)) (replace_key k) (hb_keys h)) h)
  else if existsb (fun o => String.eqb (bk_ID o) (bk_ID k)) (hb_keys h) then (Err ErrDuplicate, h)
  else if bool_decide (is_Some (sv_devices (hb_server h) !! bk_DeviceID k))
  then (Ok tt, set_hb_keys (hb_keys h ++ [mkBitLockerKey (bk_ID k) (bk_DeviceID k) (bk_VolumeID k) (bk_Method k) (bk_Ciphertext k) (bk_Nonce k)
                                            (bk_CreatedAt k) (bk_CreatedAt k)]) h)
  else (Err ErrForeignKey, h).

(** With the name of its device. *)
Definition GetBitLockerKey (id : string) : hub_tx store_error (BitLockerKey * string) :=
  let* k := hget (fun h => match find (fun k => String.eqb (bk_ID k) id) (hb_keys h) with
                           | Some k => match sv_devices (hb_server h) !! bk_DeviceID k with Some d => Some (k, dv_Hostname d) | None => None end
                           | None => None end) in
  match k with Some k => tret k | None => tfail ErrNotFound end.

Definition HasBitLockerKey (deviceID volumeID : string) : hub_tx store_error bool :=
  hget (fun h => existsb (same_volume deviceID volumeID) (hb_keys h)).

Definition EscrowKey (key : option Key) (new_id rand : string) (now : time) (deviceID volumeID method password : string) : hub_tx bitlocker_error unit :=
  let volumeID := TrimSpace volumeID in
  let password := TrimSpace password in
  do* tensure (negb (String.eqb volumeID EmptyString)) NeedsVolume;
  do* tensure (negb (String.eqb password EmptyString)) EmptyRecoveryKey;
  do* tensure (slen password <=? MaxRecoveryPasswordBytes) LongRecoveryKey;
  match key with
  | None => tfail NoServerKey
  | Some key =>
      match Seal key rand password (EscrowContext deviceID volumeID) with
      | None => tfail SealTrouble
      | Some (ciphertext, nonce) =>
          InTx (
            do* tmap_err KeyStore (UpsertBitLockerKey (mkBitLockerKey new_id deviceID volumeID method ciphertext nonce now now));
            at_fleet (InsertAudit (mkAudit ("device:" ++ deviceID)%string "bitlocker_key.escrowed" "device" deviceID
              [("volume_id", JStr volumeID); ("method", JStr method)]%string)))
      end
  end.

Definition Has (deviceID volumeID : string) : hub_tx store_error bool := HasBitLockerKey deviceID (TrimSpace volumeID).

(** The password, once who asked for it is on the record. *)
Definition RevealKey (key : option Key) (id actor reason : string) : hub_tx bitlocker_error (BitLockerKey * string) :=
  match key with
  | None => tfail NoServerKey
  | Some key =>
      let* (k, hostname) := tmap_err (fun e => match e with ErrNotFound => NoRecoveryKey | e => KeyStore e end) (GetBitLockerKey id) in
      match Open_ key (bk_Ciphertext k) (bk_Nonce k) (EscrowContext (bk_DeviceID k) (bk_VolumeID k)) with
      | None => tfail SealTrouble
      | Some plaintext =>
          do* at_fleet (InsertAudit (mkAudit actor "bitlocker_key.viewed" "device" (bk_DeviceID k)
                ([("volume_id", JStr (bk_VolumeID k)); ("hostname", JStr hostname)]%string
                 ++ (if String.eqb (TrimSpace reason) EmptyString then [] else [("reason"%string, JStr (TrimSpace reason))]))));
          tret (k, plaintext)
      end
  end.

(** ** [inventory.Due] *)

Definition RefreshAfter : duration := 24 * Hour.

Definition Due (now : time) (deviceID agentHash : string) : hub_tx store_error bool :=
  let* inv := hget (fun h => hb_inventory h !! deviceID) in
  tret (match inv with
        | None => true
        | Some inv => negb (String.eqb agentHash (iv_Hash inv)) || (RefreshAfter <=? Sub now (iv_ReceivedAt inv))
        end).

(** ** Answers *)

Record Offer := mkOffer { of_Kind : string; of_ID : string; of_Version : Z; of_Options : option json }.

Inductive reply :=
| NoContent
| CheckinReply (inventoryDue : bool) (commands : list Order) (items : list Offer)
| ScriptReply (v : Version ScriptBody) (sig : option OpSignature)
| ProfileReply (v : Version ProfileBody) (settings : list Setting) (sig : option OpSignature)
| AppReply (v : Version AppBody) (sig : option OpSignature) (detection : option DetectionRule)
| PackageReply (size : Z)
| AgentVersionReply (version : string) (b : AgentVersionBuild)
| BinaryReply (body : string)
| EscrowedReply (escrowed : bool).

Record CheckinRequest := mkCheckin { ck_AgentVersion : string; ck_Platform : string; ck_InventoryHash : string; ck_LoggedInUser : string }.

Abbreviation agent_tx := (txn hub response).

Definition or_internal {E A} (m : hub_tx E A) : agent_tx A := tmap_err (fun _ => Rejected 500 "internal") m.

(** Logged, and that is all. *)
Definition logged {E A} (m : hub_tx E A) : agent_tx unit := do* tattempt m; tret tt.

Section AgentApi.
Context `{CR : Crypto, CT : Certificates, JT : JsonTime} (uuid_Parse : string -> option string) (uuid_bytes : string -> list Z).
Context (service : Commands.Service) (ServerKey : option Key).

Definition get_item {V} `{K : !Kind world V} (id : string) : agent_tx (result (library_error Empty_set) Item) := tattempt (at_world (Library.Get id)).

(** The current version of an item and, of an agent build, its name; [None]
    when there is none to offer. *)
Definition itemVersion (kind id : string) : agent_tx (option (Z * string)) :=
  let of_item (r : result (library_error Empty_set) Item) : option (Z * string) :=
    match r with Ok i => Some (i_CurrentVersion i, EmptyString) | Err _ => None end in
  if String.eqb kind ItemKindScript then let* r := get_item (K := script_kind) id in tret (of_item r)
  else if String.eqb kind ItemKindProfile then let* r := get_item (K := profile_kind) id in tret (of_item r)
  else if String.eqb kind ItemKindApp then let* r := get_item (K := app_kind) id in tret (of_item r)
  else if String.eqb kind ItemKindAgent then
    let* v := tattempt (at_depot (GetVersionRow id)) in
    tret (match v with Ok v => Some (1, vr_Version v) | Err _ => None end)
  else tret None.

(** ** Checking in *)

Definition markAgentCurrent (v : Env) (deviceID versionID : string) : agent_tx unit :=
  logged (at_fleet (MarkItemSucceededOnce
    (mkItemStatus deviceID ItemKindAgent versionID EmptyString "running this version" 1 (ev_Now v)))).

Definition noBuildFor (v : Env) (deviceID versionID version platform : string) (e : build_error) : agent_tx unit :=
  match e with
  | NoBuild =>
      let platform := if String.eqb platform EmptyString then "this device's platform, which its agent is too old to report"%string else platform in
      logged (at_depot (RecordResult (ev_Now v) deviceID versionID
        (mkAgentUpdateResult version ResultFailed ("version " ++ version ++ " has no build for " ++ platform)%string EmptyString)))
  | _ => tret tt
  end.

(** A script for a signed-in user waits for one. *)
Definition record_pending (v : Env) (deviceID id : string) (version : Z) (options : option json) : agent_tx unit :=
  match ParseDeploymentOptions (raw_of options) with
  | Err _ => tret tt
  | Ok o =>
      if NeedsUserSession o
      then logged (at_world (SetItemPending (K := script_kind) (ev_Now v) deviceID id version "waiting for somebody to sign in"))
      else tret tt
  end.

(** Whether an agent build is offered to this device; [agentVersion] is the
    build's. *)
Definition offer_build (v : Env) (deviceID osVersion : string) (req : CheckinRequest) (id agentVersion : string) : agent_tx bool :=
  let platform := DevicePlatform (ck_Platform req) osVersion in
  let* b := tattempt (at_depot (BuildFor id platform)) in
  match b with
  | Ok _ => tret true
  | Err e =>
      do* (if String.eqb agentVersion (ck_AgentVersion req) then markAgentCurrent v deviceID id
           else noBuildFor v deviceID id agentVersion platform e);
      tret false
  end.

(** One assigned item, as it is offered. *)
Definition offer_item (v : Env) (deviceID osVersion : string) (req : CheckinRequest) (it : EffectiveItem) : agent_tx (option Offer) :=
  if String.eqb (ei_Kind it) ItemKindWindow then
    let* w := hget (fun h => hb_windows h !! ei_ID it) in
    tret (match w with Some schedule => Some (mkOffer (ei_Kind it) (ei_ID it) 1 (Some schedule)) | None => None end)
  else
  let* x := itemVersion (ei_Kind it) (ei_ID it) in
  match x with
  | None => tret None
  | Some (version, agentVersion) =>
      let agent := String.eqb (ei_Kind it) ItemKindAgent in
      let* ok := if agent then offer_build v deviceID osVersion req (ei_ID it) agentVersion else tret true in
      if negb ok then tret None else
      do* (if agent && String.eqb agentVersion (ck_AgentVersion req) then markAgentCurrent v deviceID (ei_ID it) else tret tt);
      do* (if String.eqb (ei_Kind it) ItemKindScript && String.eqb (TrimSpace (ck_LoggedInUser req)) EmptyString
           then record_pending v deviceID (ei_ID it) version (ei_Options it) else tret tt);
      tret (Some (mkOffer (ei_Kind it) (ei_ID it) version (ei_Options it)))
  end.

Fixpoint offer_items (v : Env) (deviceID osVersion : string) (req : CheckinRequest) (l : list EffectiveItem) : agent_tx (list Offer) :=
  match l with
  | [] => tret []
  | it :: rest =>
      let* o := offer_item v deviceID osVersion req it in
      let* os := offer_items v deviceID osVersion req rest in
      tret (match o with Some o => o :: os | None => os end)
  end.

(** A panic of [EffectiveItems] ends the request. *)
Definition checkin (v : Env) (a : authInfo) (req : CheckinRequest) : agent_tx reply :=
  do* or_internal (at_server (RecordCheckinPlatform (ai_ID a) (ck_AgentVersion req) (ck_Platform req) (ev_Now v)));
  let* due := or_internal (Due (ev_Now v) (ai_ID a) (ck_InventoryHash req)) in
  let* cmds := or_internal (at_commands (Deliver (ev_Now v) (ai_ID a))) in
  let* assigned := at_fleet (fget (EffectiveItems uuid_bytes (ai_ID a) (ev_Now v))) in
  match assigned with
  | None => tfail (Rejected 500 "internal")
  | Some assigned =>
      let* items := offer_items v (ai_ID a) (dv_OSVersion (ai_Device a)) req assigned in
      tret (CheckinReply due cmds items)
  end.

(** ** Contents of what is assigned *)

Definition uuid_or {A} (code raw : string) (k : string -> agent_tx A) : agent_tx A :=
  match uuid_Parse raw with Some id => k id | None => tfail (Rejected 404 code) end.

Definition version_or {A} (code raw : string) (k : Z -> agent_tx A) : agent_tx A :=
  match Atoi raw with
  | Some n => if n <? 1 then tfail (Rejected 404 code) else k n
  | None => tfail (Rejected 404 code)
  end.

Definition has_item (deviceID kind id : string) : agent_tx bool := or_internal (at_fleet (DeviceHasItem deviceID kind id)).

Definition notYetCurrent (kind id : string) (version : Z) : agent_tx bool :=
  let* x := itemVersion kind id in
  tret (match x with None => true | Some (current, _) => current <? version end).

(** The gate of every content: assigned, and no newer than the current version. *)
Definition may_read (code deviceID kind id : string) (version : Z) : agent_tx unit :=
  let* allowed := has_item deviceID kind id in
  if negb allowed then tfail (Rejected 404 code) else
  let* held := notYetCurrent kind id version in
  tensure (negb held) (Rejected 404 code).

Definition item_response {B} (code : string) (e : library_error B) : response :=
  match e with NoItem => Rejected 404 code | _ => Rejected 500 "internal" end.

Definition scriptVersion (a : authInfo) (rawID rawVersion : string) : agent_tx reply :=
  uuid_or "script_not_found" rawID (fun id => version_or "script_not_found" rawVersion (fun version =>
    do* may_read "script_not_found" (ai_ID a) ItemKindScript id version;
    let* x := tmap_err (item_response (B := Empty_set) "script_not_found") (at_world (Version_ (K := script_kind) id version)) in
    tret (ScriptReply x (decode_signature (v_Signature x))))).

Definition profileVersion (a : authInfo) (rawID rawVersion : string) : agent_tx reply :=
  uuid_or "profile_not_found" rawID (fun id => version_or "profile_not_found" rawVersion (fun version =>
    do* may_read "profile_not_found" (ai_ID a) ItemKindProfile id version;
    let* x := tmap_err (item_response (B := Empty_set) "profile_not_found") (at_world (Version_ (K := profile_kind) id version)) in
    let* settings := or_internal (lift_result (decode_settings (pb_Settings (v_Content x)))) in
    let* settings := or_internal (lift_result (ForAgent ServerKey id settings)) in
    tret (ProfileReply x settings (DecodeSignature (v_Signature x))))).

Definition assignedAppVersion {A} (a : authInfo) (rawID rawVersion : string) (k : string -> Z -> agent_tx A) : agent_tx A :=
  uuid_or "app_not_found" rawID (fun id => version_or "app_not_found" rawVersion (fun version =>
    do* may_read "app_not_found" (ai_ID a) ItemKindApp id version; k id version)).

Definition appVersion (a : authInfo) (rawID rawVersion : string) : agent_tx reply :=
  assignedAppVersion a rawID rawVersion (fun id version =>
    let* x := tmap_err (item_response (B := Empty_set) "app_not_found") (at_world (Version_ (K := app_kind) id version)) in
    let sig := decode_signature (v_Signature x) in
    if negb (String.eqb (ab_Source (v_Content x)) AppSourcePackage) then tret (AppReply x sig None) else
    match ab_Detection (v_Content x) with
    | None => tfail (Rejected 500 "internal")
    | Some d => match decode_struct false rule_fields d zero_rule with
                | Ok r => tret (AppReply x sig (Some r))
                | Err _ => tfail (Rejected 500 "internal")
                end
    end).

Definition package_response (e : library_error bad_app) : response :=
  match e with
  | NoItem => Rejected 404 "app_not_found"
  | BadItem NoPackage => Rejected 404 "package_missing"
  | _ => Rejected 500 "internal"
  end.

Definition appPackage (a : authInfo) (rawID rawVersion : string) : agent_tx reply :=
  assignedAppVersion a rawID rawVersion (fun id version =>
    let* size := tmap_err package_response (at_world (OpenPackage packages_part id version)) in tret (PackageReply size)).

Definition devicePlatform (a : authInfo) : agent_tx string :=
  let* reported := or_internal (at_server (GetDevicePlatform (ai_ID a))) in
  tret (DevicePlatform reported (dv_OSVersion (ai_Device a))).

(** An agent build must be assigned, whichever part of it is asked for. *)
Definition assigned_build {A} (a : authInfo) (rawID : string) (k : string -> agent_tx A) : agent_tx A :=
  uuid_or "agent_version_not_found" rawID (fun id =>
    let* allowed := has_item (ai_ID a) ItemKindAgent id in
    if negb allowed then tfail (Rejected 404 "agent_version_not_found") else k id).

Definition build_response (e : build_error) : response :=
  match e with NoVersion | NoBuild | NoArtifact => Rejected 404 "agent_version_not_found" | _ => Rejected 500 "internal" end.

Definition agentVersion (a : authInfo) (rawID : string) : agent_tx reply :=
  assigned_build a rawID (fun id =>
    let* platform := devicePlatform a in
    let* (v, b) := tmap_err build_response (at_depot (BuildFor id platform)) in
    tret (AgentVersionReply (vr_Version v) b)).

Definition agentVersionBinary (a : authInfo) (rawID : string) : agent_tx reply :=
  assigned_build a rawID (fun id =>
    let* platform := devicePlatform a in
    let* body := tmap_err build_response (at_depot (OpenBuild id platform)) in
    tret (BinaryReply body)).

(** ** Reports *)

(** A device may only report on what it has been given. *)
Definition may_report {A} (code kind : string) (a : authInfo) (rawID : string) (k : string -> agent_tx A) : agent_tx A :=
  uuid_or code rawID (fun id =>
    let* allowed := has_item (ai_ID a) kind id in
    if negb allowed then tfail (Rejected 404 code) else k id).

Definition report_response {B} (e : library_error B) : response :=
  match e with BadItem _ => Rejected 400 "bad_request" | _ => Rejected 500 "internal" end.

Definition scriptRun (v : Env) (a : authInfo) (rawID : string) (run : ScriptRun) : agent_tx reply :=
  may_report "script_not_found" ItemKindScript a rawID (fun id =>
    do* tmap_err report_response (at_world (RecordRun (K := script_kind) runs_part (ev_Ids v 0) (ev_Now v) (ai_ID a) id run));
    tret NoContent).

Definition profileStatus (v : Env) (a : authInfo) (rawID : string) (report : ProfileStatus) : agent_tx reply :=
  may_report "profile_not_found" ItemKindProfile a rawID (fun id =>
    do* tmap_err report_response (at_world (RecordStatus (K := profile_kind) settings_part uuid_Parse (ev_Now v) (ai_ID a) id report));
    tret NoContent).

Definition appResult (v : Env) (a : authInfo) (rawID : string) (r : AppResult) : agent_tx reply :=
  may_report "app_not_found" ItemKindApp a rawID (fun id =>
    do* tmap_err report_response (at_world (RecordInstall (K := app_kind) installs_part (ev_Ids v 0) (ev_Now v) (ai_ID a) id r));
    tret NoContent).

Definition agentVersionResult (v : Env) (a : authInfo) (rawID : string) (r : AgentUpdateResult) : agent_tx reply :=
  assigned_build a rawID (fun id =>
    do* tmap_err (fun e => match e with BadUpdateStatus _ => Rejected 400 "bad_request" | _ => Rejected 500 "internal" end)
          (at_depot (RecordResult (ev_Now v) (ai_ID a) id r));
    tret NoContent).

(** ** Commands and keys *)

Definition command_response (e : cmd_error) : response :=
  match e with NotFound => Rejected 404 "command_not_found" | BadRequest _ => Rejected 400 "bad_request" | _ => Rejected 500 "internal" end.

Definition startCommand (v : Env) (a : authInfo) (rawID : string) : agent_tx reply :=
  uuid_or "command_not_found" rawID (fun id =>
    do* tmap_err command_response (at_commands (Commands.Start (ev_Now v) (ai_ID a) id)); tret NoContent).

Definition commandResult (v : Env) (a : authInfo) (rawID : string) (r : Report) : agent_tx reply :=
  uuid_or "command_not_found" rawID (fun id =>
    do* tmap_err command_response (at_commands (Commands.Complete service (ev_Now v) (ai_ID a) id r)); tret NoContent).

Definition laps_response (e : cmd_error) : response :=
  match e with
  | BadRequest _ => Rejected 400 "bad_request" | NotFound => Rejected 404 "command_not_found" | Conflict _ _ => Rejected 409 "conflict"
  | _ => Rejected 500 "internal"
  end.

Definition escrowAdminPassword (v : Env) (a : authInfo) (req : EscrowRequest) : agent_tx reply :=
  do* tmap_err laps_response (at_commands (Commands.Escrow uuid_Parse ServerKey (ev_Ids v 0) (default EmptyString (ev_Rand v)) (ev_Now v) (ai_ID a) req));
  tret NoContent.

Definition bitlockerStatus (a : authInfo) (volumeID : string) : agent_tx reply :=
  do* tensure (negb (String.eqb (TrimSpace volumeID) EmptyString)) (Rejected 400 "bad_request");
  let* has := or_internal (Has (ai_ID a) volumeID) in tret (EscrowedReply has).

Definition escrow_response (e : bitlocker_error) : response :=
  match e with NeedsVolume | EmptyRecoveryKey | LongRecoveryKey => Rejected 400 "bad_request" | _ => Rejected 500 "internal" end.

Definition escrowBitLocker (v : Env) (a : authInfo) (volumeID method password : string) : agent_tx reply :=
  do* tmap_err escrow_response (EscrowKey ServerKey (ev_Ids v 0) (default EmptyString (ev_Rand v)) (ev_Now v) (ai_ID a) volumeID method password);
  tret NoContent.

(** ** The routes *)

Inductive agent_request :=
| Checkin (req : CheckinRequest)
| StartCommand (id : string) | CommandResultReq (id : string) (r : Report)
| ScriptVersion (id version : string) | ScriptRunReq (id : string) (run : ScriptRun)
| ProfileVersion (id version : string) | ProfileStatusReq (id : string) (report : ProfileStatus)
| AppVersion (id version : string) | AppPackage (id version : string) | AppResultReq (id : string) (r : AppResult)
| AgentVersion_ (id : string) | AgentVersionBinary (id : string) | AgentVersionResult (id : string) (r : AgentUpdateResult)
| BitLockerStatus (volumeID : string) | EscrowBitLocker (volumeID method password : string) | EscrowAdminPassword (req : EscrowRequest).

Definition handle (v : Env) (a : authInfo) (r : agent_request) : agent_tx reply :=
  match r with
  | Checkin req => checkin v a req
  | StartCommand id => startCommand v a id
  | CommandResultReq id r => commandResult v a id r
  | ScriptVersion id n => scriptVersion a id n
  | ScriptRunReq id run => scriptRun v a id run
  | ProfileVersion id n => profileVersion a id n
  | ProfileStatusReq id report => profileStatus v a id report
  | AppVersion id n => appVersion a id n
  | AppPackage id n => appPackage a id n
  | AppResultReq id r => appResult v a id r
  | AgentVersion_ id => agentVersion a id
  | AgentVersionBinary id => agentVersionBinary a id
  | AgentVersionResult id r => agentVersionResult v a id r
  | BitLockerStatus volumeID => bitlockerStatus a volumeID
  | EscrowBitLocker volumeID method password => escrowBitLocker v a volumeID method password
  | EscrowAdminPassword req => escrowAdminPassword v a req
  end.

Definition agent_serve (v : Env) (leaf : result cert_failure (option Certificate)) (r : agent_request) : agent_tx reply :=
  let* a := at_server (requireDevice uuid_Parse leaf) in handle v a r.
End AgentApi.

(** * What the answers are worth *)

(** ** What each part leaves alone *)

(** What a device's requests leave as it is: the library, the assignments and
    groups, the builds and the windows. *)
Definition catalog (h : hub) :=
  let w := hub_world h in
  (w_scripts w, w_profiles w, w_apps w, w_packages w, (f_assignments (w_fleet w), f_groups (w_fleet w)),
   (hb_rows h, hb_builds h, hb_files h, hb_old h), hb_windows h).

(** The statuses that changed are [dev]'s, of items that [P] holds of. *)
Definition honest_rows (P : string -> string -> Prop) (dev : string) (f f' : fdb) : Prop :=
  f_assignments f' = f_assignments f /\ f_groups f' = f_groups f /\
  forall s, s ∈ f_statuses f' -> s ∈ f_statuses f \/ st_DeviceID s = dev /\ P (st_ItemKind s) (st_ItemID s).

#[export] Instance honest_rows_preorder P dev : PreOrder (honest_rows P dev).
Proof.
  split; [intros f; split_and!; auto|]. intros a b c (H1 & H2 & H3) (K1 & K2 & K3). split_and!; [congruence|congruence|].
  intros s [Hs|]%K3; [|by right]. by apply H3.
Qed.

Lemma put_status_honest (P : string -> string -> Prop) s replace :
  P (st_ItemKind s) (st_ItemID s) -> tkeeps (honest_rows P (st_DeviceID s)) (put_status s replace).
Proof.
  intros HP f. unfold put_status. destruct (existsb _ _); [|case_bool_decide]; simpl; [split_and!; try done; simpl..|].
  - intros x (y & Hy & ->)%elem_of_update_where. case_match; [by right|by left].
  - intros x [Hx| ->%list_elem_of_singleton]%elem_of_app; [by left|by right].
  - split_and!; auto.
Qed.

Definition honest (P : string -> string -> Prop) (dev : string) (h h' : hub) : Prop :=
  catalog h' = catalog h /\ honest_rows P dev (w_fleet (hub_world h)) (w_fleet (hub_world h')).

#[export] Instance honest_preorder P dev : PreOrder (honest P dev).
Proof.
  split; [by split|]. intros a b c [H1 H2] [K1 K2]. split; [congruence|by transitivity (w_fleet (hub_world b))].
Qed.

Section Honest.
Context (P : string -> string -> Prop) (dev : string).

Lemma at_fleet_honest {E A} (m : ftx E A) : tkeeps (honest_rows P dev) m -> tkeeps (honest P dev) (at_fleet m).
Proof.
  intros Hm h. unfold at_fleet, at_world, zoom. simpl. specialize (Hm (w_fleet (hub_world h))). destruct (m _) as [r f]. simpl in *.
  split; [|done]. destruct Hm as (Ha & Hg & _). unfold catalog, hub_world in *. simpl in *. by rewrite Ha, Hg.
Qed.

Lemma at_commands_honest {E A} (m : tx E A) : tkeeps (honest P dev) (at_commands m).
Proof. intros h. unfold at_commands, at_world, zoom. simpl. by destruct (m _). Qed.

(** Parts of the world beside the library. *)
Definition beside (w w' : world) : Prop :=
  w_scripts w' = w_scripts w /\ w_profiles w' = w_profiles w /\ w_apps w' = w_apps w /\ w_packages w' = w_packages w /\
  honest_rows P dev (w_fleet w) (w_fleet w').

#[export] Instance beside_preorder : PreOrder beside.
Proof.
  split; [intros a; do 4 (split; [done|]); reflexivity|]. intros a b c (H1 & H2 & H3 & H4 & H5) (K1 & K2 & K3 & K4 & K5).
  do 4 (split; [congruence|]). by transitivity (w_fleet b).
Qed.

Lemma at_world_honest {E A} (m : txn world E A) : tkeeps beside m -> tkeeps (honest P dev) (at_world m).
Proof.
  intros Hm h. unfold at_world, zoom. simpl. specialize (Hm (hub_world h)). destruct (m _) as [r w]. simpl in *.
  destruct Hm as (H1 & H2 & H3 & H4 & H5). split; [|done]. destruct H5 as (Ha & Hg & _). unfold catalog, hub_world in *. simpl. by rewrite Ha, Hg, H1, H2, H3, H4.
Qed.

Lemma on_fleet_beside {V E A} `{K : !Kind world V} (m : ftx E A) :
  kind_fleet = fleet_part -> tkeeps (honest_rows P dev) m -> tkeeps beside (Library.on_fleet m).
Proof. intros HK Hm w. unfold Library.on_fleet, zoom. rewrite HK. simpl. specialize (Hm (w_fleet w)). by destruct (m _). Qed.

Lemma at_depot_honest {E A} (m : dtx E A) :
  tkeeps (same stock) m -> tkeeps (fun d d' => honest_rows P dev (dp_fleet d) (dp_fleet d')) m -> tkeeps (honest P dev) (at_depot m).
Proof.
  intros Hs Hm h. unfold at_depot, zoom. simpl. specialize (Hm (hub_depot h)). specialize (Hs (hub_depot h)). destruct (m _) as [r d]. simpl in *.
  split; [|done]. destruct Hm as (Ha & Hg & _). unfold same, stock in Hs. simpl in Hs. injection Hs as H1 H2 H3 H4 _. unfold catalog, hub_world in *. simpl in *.
  by rewrite Ha, Hg, H1, H2, H3, H4.
Qed.

Lemma hget_honest {E A} (f : hub -> A) : tkeeps (honest P dev) (hget f : hub_tx E A).
Proof. intros h. simpl. reflexivity. Qed.

Lemma logged_honest {E A} (m : hub_tx E A) : tkeeps (honest P dev) m -> tkeeps (honest P dev) (logged m).
Proof. intros H. unfold logged. frames. Qed.

Lemma on_device_honest {E} id f : tkeeps (honest P dev) (at_server (on_device id f : vtx E unit)).
Proof.
  intros h. unfold at_server, zoom, on_device, vset. simpl. destruct (sv_devices _ !! id); (split; [done|]); (split; [done|]); (split; [done|]); intros s; by left.
Qed.
End Honest.

Create HintDb honest.
#[export] Hint Resolve hget_honest on_device_honest at_commands_honest logged_honest at_fleet_honest : honest.

(** *** Reads *)

Lemma set_hub_world_same h : set_hub_world (hub_world h) h = h.
Proof. by destruct h as [[? ? ? ?] ? ? ? ? ? ? ?]. Qed.
Lemma set_hub_server_same h : set_hb_server (hb_server h) h = h.
Proof. by destruct h. Qed.
Lemma set_hub_depot_same h : set_hub_depot (hub_depot h) h = h.
Proof. by destruct h as [[? ? ? []] ? ? ? ? ? ? ?]. Qed.
Lemma set_w_fleet_same w : set_w_fleet (w_fleet w) w = w.
Proof. by destruct w. Qed.

Lemma at_fleet_get {E A} (f : fdb -> A) h : (at_fleet (fget f) : hub_tx E A) h = (Ok (f (w_fleet (hub_world h))), h).
Proof. unfold at_fleet, at_world, zoom, fget. simpl. by rewrite set_w_fleet_same, set_hub_world_same. Qed.

Lemma at_world_read {E A} (m : txn world E A) h : (m (hub_world h)).2 = hub_world h -> at_world m h = ((m (hub_world h)).1, h).
Proof. intros Hm. unfold at_world, zoom. simpl. destruct (m (hub_world h)) as [r w]. simpl in *. subst w. by rewrite set_hub_world_same. Qed.

Lemma at_depot_read {E A} (m : dtx E A) h : (m (hub_depot h)).2 = hub_depot h -> at_depot m h = ((m (hub_depot h)).1, h).
Proof. intros Hm. unfold at_depot, zoom. simpl. destruct (m (hub_depot h)) as [r d]. simpl in *. subst d. by rewrite set_hub_depot_same. Qed.

(** A kind's shelf can be read without touching the world. *)
Class Readable {V} (K : Kind world V) : Prop := put_same : forall w, put kind_shelf (look kind_shelf w) w = w.
#[export] Instance scripts_readable : Readable script_kind.
Proof. by intros []. Qed.
#[export] Instance profiles_readable : Readable profile_kind.
Proof. by intros []. Qed.
#[export] Instance apps_readable : Readable app_kind.
Proof. by intros []. Qed.

Section Shelves.
Context {V B : Type} {K : Kind world V} `{!Readable K}.

Lemma Get_read id w : (Library.Get id : txn world (library_error B) Item) w =
  (match find (has_id id) (sh_items (look kind_shelf w)) with Some i => Ok i | None => Err NoItem end, w).
Proof.
  unfold Library.Get, read_item, tmap_err, zoom, GetItem, tbind, sget, sfound. destruct (find _ _); simpl; by rewrite put_same.
Qed.

Lemma Version_read id n w : (Version_ id n : txn world (library_error B) (Version V)) w =
  (match find (is_version id n) (sh_versions (look kind_shelf w)) with Some v => Ok v | None => Err NoItem end, w).
Proof.
  unfold Version_, read_item, tmap_err, zoom, GetVersion, tbind, sget, sfound. destruct (find _ _); simpl; by rewrite put_same.
Qed.
End Shelves.

(** The current version of an item of the library. *)
Definition current_of {V} (s : shelf V) (id : string) : option (Z * string) :=
  match find (has_id id) (sh_items s) with Some i => Some (i_CurrentVersion i, EmptyString) | None => None end.

Definition version_of (h : hub) (kind id : string) : option (Z * string) :=
  if String.eqb kind ItemKindScript then current_of (w_scripts (hub_world h)) id
  else if String.eqb kind ItemKindProfile then current_of (w_profiles (hub_world h)) id
  else if String.eqb kind ItemKindApp then current_of (w_apps (hub_world h)) id
  else if String.eqb kind ItemKindAgent then match hb_rows h !! id with Some v => Some (1, vr_Version v) | None => None end
  else None.

Lemma get_item_read {V} {K : Kind world V} `{!Readable K} id h :
  (get_item (K := K) id) h = (Ok (match find (has_id id) (sh_items (look kind_shelf (hub_world h))) with Some i => Ok i | None => Err NoItem end), h).
Proof. unfold get_item, tattempt. rewrite at_world_read by (by rewrite Get_read). by rewrite Get_read. Qed.

Lemma GetVersionRow_read id d : GetVersionRow id d = (match dp_rows d !! id with Some v => Ok v | None => Err NoVersion end, d).
Proof. unfold GetVersionRow, GetAgentVersion, tmap_err, tbind, dget, dfound. by destruct (dp_rows d !! id). Qed.

Lemma itemVersion_read kind id h : itemVersion kind id h = (Ok (version_of h kind id), h).
Proof.
  unfold itemVersion, version_of, current_of. cbv zeta.
  destruct (String.eqb kind ItemKindScript); [unfold tbind; rewrite get_item_read; simpl; by destruct (find _ _)|].
  destruct (String.eqb kind ItemKindProfile); [unfold tbind; rewrite get_item_read; simpl; by destruct (find _ _)|].
  destruct (String.eqb kind ItemKindApp); [unfold tbind; rewrite get_item_read; simpl; by destruct (find _ _)|].
  destruct (String.eqb kind ItemKindAgent); [|done].
  unfold tbind, tattempt. rewrite at_depot_read by (by rewrite GetVersionRow_read). rewrite GetVersionRow_read. simpl. by destruct (hb_rows h !! id).
Qed.


Lemma first_build_read id l d : (first_build id l d).2 = d.
Proof.
  induction l as [|p l IH]; [done|]. simpl. unfold tbind, tattempt, GetAgentVersionBuild, tbind, dget, dfound.
  by destruct (find (is_build id p) (dp_builds d)).
Qed.

Lemma BuildFor_read id platform d : (BuildFor id platform d).2 = d.
Proof.
  unfold BuildFor, tbind at 1. rewrite GetVersionRow_read. destruct (dp_rows d !! id); [|done]. unfold tbind.
  pose proof (first_build_read id (BuildCandidates platform) d). by destruct (first_build _ _ d) as [[]].
Qed.

Lemma has_item_read dev kind id h :
  has_item dev kind id h = (Ok (existsb (fun a => is_item kind id a && reaches (w_fleet (hub_world h)) dev ModeInclude a
    && negb (existsb (fun x => is_item kind id x && reaches (w_fleet (hub_world h)) dev ModeExclude x) (f_assignments (w_fleet (hub_world h)))))
    (f_assignments (w_fleet (hub_world h)))), h).
Proof. unfold has_item, or_internal, tmap_err, DeviceHasItem. by rewrite at_fleet_get. Qed.

(** *** Offers *)

Section Offers.
Context (P : string -> string -> Prop) (dev : string).

Lemma at_depot_read_honest {E A} (m : dtx E A) : (forall d, (m d).2 = d) -> tkeeps (honest P dev) (at_depot m).
Proof. intros Hm h. rewrite at_depot_read by apply Hm. simpl. reflexivity. Qed.

Lemma RecordResult_rows now id r :
  P ItemKindAgent id -> tkeeps (fun d d' => honest_rows P dev (dp_fleet d) (dp_fleet d')) (RecordResult now dev id r).
Proof.
  intros HP d. unfold RecordResult, tbind, tensure. destruct (_ || _); [|simpl; reflexivity]. simpl. unfold tmap_err, on_depot_fleet, zoom. simpl.
  pose proof (put_status_honest P (mkItemStatus dev ItemKindAgent id (if String.eqb (ur_Status r) ResultSucceeded then ItemSucceeded else ItemFailed)
    (update_detail r) 1 now) (fun _ => true) HP (dp_fleet d)) as H. unfold SetItemStatus. destruct (put_status _ _ _) as [[u|e] f]; simpl in *; exact H.
Qed.

Lemma RecordResult_honest now id r : P ItemKindAgent id -> tkeeps (honest P dev) (at_depot (RecordResult now dev id r)).
Proof. intros HP. apply at_depot_honest; [apply RecordResult_stock|by apply RecordResult_rows]. Qed.

Lemma markAgentCurrent_honest v id : P ItemKindAgent id -> tkeeps (honest P dev) (markAgentCurrent v dev id).
Proof. intros HP. apply logged_honest, at_fleet_honest. unfold MarkItemSucceededOnce. by apply (put_status_honest P). Qed.

Lemma noBuildFor_honest v id version platform e : P ItemKindAgent id -> tkeeps (honest P dev) (noBuildFor v dev id version platform e).
Proof. intros HP. unfold noBuildFor. pose proof (fun n r => RecordResult_honest n id r HP). destruct e; try frames. by apply logged_honest. Qed.

Lemma SetItemPending_beside now id version reason :
  P ItemKindScript id -> tkeeps (beside P dev) (SetItemPending (K := script_kind) now dev id version reason).
Proof. intros HP. apply keeps_map_err. apply (on_fleet_beside P dev (K := script_kind)); [done|]. unfold SetItemStatus. by apply (put_status_honest P). Qed.

Lemma record_pending_honest v id version options : P ItemKindScript id -> tkeeps (honest P dev) (record_pending v dev id version options).
Proof.
  intros HP. unfold record_pending. destruct (ParseDeploymentOptions _); [|frames]. destruct (NeedsUserSession _); [|frames].
  by apply logged_honest, at_world_honest, SetItemPending_beside.
Qed.

Lemma itemVersion_honest kind id : tkeeps (honest P dev) (itemVersion kind id).
Proof. intros h. rewrite itemVersion_read. simpl. reflexivity. Qed.

Lemma offer_build_honest v os req id av : P ItemKindAgent id -> tkeeps (honest P dev) (offer_build v dev os req id av).
Proof.
  intros HP. unfold offer_build. eapply keeps_bind; [typeclasses eauto|apply keeps_attempt, at_depot_read_honest, BuildFor_read|].
  intros [x|e]; [frames|]. eapply keeps_bind; [typeclasses eauto| |intros ?; frames].
  destruct (String.eqb _ _); [by apply markAgentCurrent_honest|by apply noBuildFor_honest].
Qed.

Lemma offer_item_honest v os req it : P (ei_Kind it) (ei_ID it) -> tkeeps (honest P dev) (offer_item v dev os req it).
Proof.
  intros HP. unfold offer_item. destruct (String.eqb (ei_Kind it) ItemKindWindow).
  { eapply keeps_bind; [typeclasses eauto|apply hget_honest|]. intros ?. frames. }
  eapply keeps_bind; [typeclasses eauto|apply itemVersion_honest|]. intros [[version av]|]; [|frames].
  destruct (String.eqb_spec (ei_Kind it) ItemKindAgent) as [Ea|Ea]; cbv zeta.
  - eapply keeps_bind; [typeclasses eauto|apply offer_build_honest; congruence|]. intros [|]; simpl; [|frames].
    eapply keeps_bind; [typeclasses eauto|destruct (String.eqb av _); [apply markAgentCurrent_honest; congruence|frames]|]. intros ?.
    eapply keeps_bind; [typeclasses eauto| |intros ?; frames]. destruct (String.eqb_spec (ei_Kind it) ItemKindScript) as [Es|Es]; simpl; [by rewrite Ea in Es|frames].
  - eapply keeps_bind; [typeclasses eauto|frames|]. intros [|]; simpl; [|frames].
    eapply keeps_bind; [typeclasses eauto|frames|]. intros ?. eapply keeps_bind; [typeclasses eauto| |intros ?; frames].
    destruct (String.eqb_spec (ei_Kind it) ItemKindScript) as [Es|]; simpl; [|frames]. destruct (String.eqb _ _); [apply record_pending_honest; congruence|frames].
Qed.

Lemma offer_items_honest v os req l : (forall it, it ∈ l -> P (ei_Kind it) (ei_ID it)) -> tkeeps (honest P dev) (offer_items v dev os req l).
Proof.
  induction l as [|it l IH]; intros HP; [frames|]. simpl.
  eapply keeps_bind; [typeclasses eauto|apply offer_item_honest, HP; left|]. intros o.
  eapply keeps_bind; [typeclasses eauto|apply IH; intros; apply HP; by right|]. intros os'. frames.
Qed.
End Offers.

(** The build chosen, from the tables. *)
Fixpoint first_of (builds : list AgentVersionBuild) (id : string) (candidates : list string) : result build_error AgentVersionBuild :=
  match candidates with
  | [] => Err NoBuild
  | p :: rest => match find (is_build id p) builds with Some b => Ok b | None => first_of builds id rest end
  end.

Definition build_of (rows : gmap string AgentVersionRow) (builds : list AgentVersionBuild) (id platform : string)
    : result build_error (AgentVersionRow * AgentVersionBuild) :=
  match rows !! id with
  | None => Err NoVersion
  | Some v => match first_of builds id (BuildCandidates platform) with Ok b => Ok (v, b) | Err e => Err e end
  end.

Lemma BuildFor_of id platform d : BuildFor id platform d = (build_of (dp_rows d) (dp_builds d) id platform, d).
Proof.
  assert (forall l, first_build id l d = (first_of (dp_builds d) id l, d)) as Hf.
  { induction l as [|p l IH]; [done|]. simpl. unfold tbind, tattempt, GetAgentVersionBuild, tbind, dget, dfound. by destruct (find _ _). }
  unfold BuildFor, build_of, tbind at 1. rewrite GetVersionRow_read. destruct (dp_rows d !! id); [|done]. unfold tbind. rewrite Hf.
  by destruct (first_of _ _ _).
Qed.





(** ** Assigned *)

Definition assigned_to (h : hub) (dev kind id : string) : Prop :=
  let f := w_fleet (hub_world h) in
  (exists a, a ∈ f_assignments f /\ is_item kind id a = true /\ reaches f dev ModeInclude a = true) /\
  forall x, x ∈ f_assignments f -> is_item kind id x = true -> reaches f dev ModeExclude x = false.

Lemma assigned_to_catalog h h' dev kind id : catalog h' = catalog h -> assigned_to h' dev kind id -> assigned_to h dev kind id.
Proof.
  unfold catalog. intros [= _ _ _ _ Ha Hg _ _ _ _ _]. unfold assigned_to, reaches, is_member. by rewrite Ha, Hg.
Qed.

Lemma has_item_spec dev kind id h : exists b, has_item dev kind id h = (Ok b, h) /\ (b = true <-> assigned_to h dev kind id).
Proof.
  rewrite has_item_read. eexists. split; [done|]. rewrite existsb_elem. unfold assigned_to. cbv zeta. set (f := w_fleet (hub_world h)). split.
  - intros (a & Ha & Hp). apply andb_prop in Hp as [Hp Hn]. apply andb_prop in Hp as [Hi Hr]. split; [by exists a|].
    intros x Hx Hxi. rewrite negb_true_iff, existsb_none in Hn. specialize (Hn x Hx).
    by rewrite Hxi in Hn.
  - intros [(a & Ha & Hi & Hr) Hx]. exists a. split; [done|]. rewrite Hi, Hr. simpl. apply negb_true_iff, existsb_none. intros x Hin.
    destruct (is_item kind id x) eqn:E; [|done]. by apply Hx.
Qed.

Section Effect.
Context (uuid_bytes : string -> list Z).

Lemma effective_rows_in dev now seen rows out it :
  effective_rows uuid_bytes dev now seen rows = Some out -> it ∈ out -> exists a, a ∈ rows /\ it = mkEffectiveItem (as_ItemKind a) (as_ItemID a) (as_Options a).
Proof.
  revert seen out. induction rows as [|a rows IH]; intros seen out; simpl; [intros [= <-] Hin; by apply elem_of_nil in Hin|].
  assert (forall s o, effective_rows uuid_bytes dev now s rows = Some o -> it ∈ o ->
    exists a0, a0 ∈ a :: rows /\ it = mkEffectiveItem (as_ItemKind a0) (as_ItemID a0) (as_Options a0)) as IH'.
  { intros s o H Hin. destruct (IH s o H Hin) as (a0 & ? & ?). exists a0. split; [by right|done]. }
  destruct (existsb _ seen); [apply IH'|]. destruct (Current _ _ _); [|done]. destruct (RolloutAdmits _ _ _ _); [|apply IH'].
  destruct (effective_rows _ _ _ (a :: seen) rows) as [o|] eqn:E; [|done]. intros [= <-] [->|Hin]%elem_of_cons; [|by eapply IH'].
  exists a. split; [left|done].
Qed.

Lemma effective_assigned dev now h items it :
  EffectiveItems uuid_bytes dev now (w_fleet (hub_world h)) = Some items -> it ∈ items -> assigned_to h dev (ei_Kind it) (ei_ID it).
Proof.
  intros H Hin. destruct (effective_rows_in _ _ _ _ _ _ H Hin) as (a & Ha & ->). apply elem_of_order_by, elem_of_filterb in Ha as [Ha Hp].
  apply andb_prop in Hp as [Hr Hn]. simpl. split.
  - exists a. split; [done|]. split; [|done]. unfold is_item. by rewrite !String.eqb_refl.
  - intros x Hx Hi. rewrite negb_true_iff, existsb_none in Hn. specialize (Hn x Hx). unfold same_item in Hn. unfold is_item in Hi. rewrite Hi in Hn.
    by destruct (reaches _ _ _ x).
Qed.
End Effect.

(** ** Reports *)

Section Reports.
Context `{CR : Crypto, CT : Certificates, JT : JsonTime} (uuid_Parse : string -> option string) (uuid_bytes : string -> list Z).
Context (service : Commands.Service) (ServerKey : option Key).
Context (P : string -> string -> Prop) (dev : string).

Lemma status_beside {V B} {K : Kind world V} kind id status detail version now :
  kind_fleet = fleet_part -> P kind id ->
  tkeeps (beside P dev) (tmap_err LibraryStore (Library.on_fleet (SetItemStatus (mkItemStatus dev kind id status detail version now)))
    : txn world (library_error B) unit).
Proof. intros HK HP. apply keeps_map_err, on_fleet_beside; [done|]. unfold SetItemStatus. by apply (put_status_honest P). Qed.

Lemma InsertScriptRun_beside row : tkeeps (beside P dev) (InsertScriptRun (K := script_kind) runs_part row).
Proof. intros w. unfold InsertScriptRun. repeat case_match; simpl; try reflexivity. do 4 (split; [done|]). reflexivity. Qed.

Lemma RecordRun_beside new_id now id r : P ItemKindScript id -> tkeeps (beside P dev) (RecordRun (K := script_kind) runs_part new_id now dev id r).
Proof.
  intros HP. unfold RecordRun. eapply keeps_bind; [typeclasses eauto|frames|]. intros ?. eapply keeps_bind; [typeclasses eauto|frames|]. intros ?.
  cbv zeta. destruct (run_status _ _) as [status detail]. eapply keeps_InTx; [typeclasses eauto|].
  eapply keeps_bind; [typeclasses eauto|apply keeps_map_err, InsertScriptRun_beside|]. intros ?. by apply status_beside.
Qed.

Lemma SetSettingStatus_beside s : tkeeps (beside P dev) (SetSettingStatus (K := profile_kind) settings_part s).
Proof. intros w. unfold SetSettingStatus. repeat case_match; simpl; try reflexivity; do 4 (split; [done|]); reflexivity. Qed.

Lemma set_results_beside now id version l : tkeeps (beside P dev) (set_results (K := profile_kind) settings_part uuid_Parse now dev id version l).
Proof.
  induction l as [|r l IH]; simpl; [frames|]. eapply keeps_bind; [typeclasses eauto| |intros ?; apply IH].
  intros w. apply (keeps_map_err _ _ _ (SetSettingStatus_beside _)).
Qed.

Lemma ClearSettingStatus_beside {E} id keep : tkeeps (beside P dev) (ClearSettingStatus settings_part dev id keep : txn world E unit).
Proof. intros w. simpl. do 4 (split; [done|]). reflexivity. Qed.

Lemma RecordStatus_beside now id report : P ItemKindProfile id -> tkeeps (beside P dev) (RecordStatus (K := profile_kind) settings_part uuid_Parse now dev id report).
Proof.
  intros HP. unfold RecordStatus. eapply keeps_bind; [typeclasses eauto|frames|]. intros ?. eapply keeps_bind; [typeclasses eauto|frames|]. intros ?.
  destruct (rollUp _) as [status detail]. eapply keeps_InTx; [typeclasses eauto|].
  eapply keeps_bind; [typeclasses eauto|apply set_results_beside|]. intros ?.
  eapply keeps_bind; [typeclasses eauto|apply ClearSettingStatus_beside|]. intros ?. by apply status_beside.
Qed.

Lemma packageVersion_beside id n : tkeeps (beside P dev) (packageVersion (K := app_kind) id n).
Proof.
  unfold packageVersion. eapply keeps_bind; [typeclasses eauto|apply keeps_attempt|intros [?|?]; frames].
  intros w. unfold zoom, GetVersion, tbind, sget, sfound. destruct (find _ _); simpl; (do 4 (split; [done|])); reflexivity.
Qed.

Lemma InsertAppInstall_beside row : tkeeps (beside P dev) (InsertAppInstall (K := app_kind) installs_part row).
Proof. intros w. unfold InsertAppInstall. repeat case_match; simpl; try reflexivity. do 4 (split; [done|]). reflexivity. Qed.

Lemma RecordInstall_beside new_id now id r : P ItemKindApp id -> tkeeps (beside P dev) (RecordInstall (K := app_kind) installs_part new_id now dev id r).
Proof.
  intros HP. unfold RecordInstall. eapply keeps_bind; [typeclasses eauto|frames|]. intros ?. eapply keeps_bind; [typeclasses eauto|frames|]. intros ?.
  eapply keeps_bind; [typeclasses eauto|apply packageVersion_beside|]. intros ?. cbv zeta. eapply keeps_InTx; [typeclasses eauto|].
  eapply keeps_bind; [typeclasses eauto|apply keeps_map_err, InsertAppInstall_beside|]. intros ?. by apply status_beside.
Qed.
End Reports.

Section Answers.
Context `{CR : Crypto, CT : Certificates, JT : JsonTime} (uuid_Parse : string -> option string) (uuid_bytes : string -> list Z).
Context (service : Commands.Service) (ServerKey : option Key).

Lemma or_internal_read {E A} (m : hub_tx E A) h : (m h).2 = h -> (or_internal m h).2 = h.
Proof. unfold or_internal, tmap_err. by destruct (m h) as [[]]. Qed.

Lemma gate_honest {A} code kind dev raw (k : string -> agent_tx A) h :
  (forall id, assigned_to h dev kind id -> honest (assigned_to h dev) dev h (k id h).2) ->
  honest (assigned_to h dev) dev h
    (uuid_or uuid_Parse code raw (fun id => let* allowed := has_item dev kind id in if negb allowed then tfail (Rejected 404 code) else k id) h).2.
Proof.
  intros Hk. unfold uuid_or. destruct (uuid_Parse raw) as [id|]; [|simpl; reflexivity]. unfold tbind.
  destruct (has_item_spec dev kind id h) as (b & -> & Hb). destruct b; simpl; [by apply Hk, Hb|reflexivity].
Qed.

Lemma version_gate_honest {A} (P : string -> string -> Prop) dev code raw (k : Z -> agent_tx A) h :
  (forall n, honest P dev h (k n h).2) -> honest P dev h (version_or code raw k h).2.
Proof. intros Hk. unfold version_or. destruct (Atoi raw) as [n|]; [|simpl; reflexivity]. destruct (n <? 1); [simpl; reflexivity|apply Hk]. Qed.

Lemma may_read_spec code dev kind id n h :
  (may_read code dev kind id n h).2 = h /\
  ((may_read code dev kind id n h).1 = Ok tt <-> assigned_to h dev kind id /\ exists cur av, version_of h kind id = Some (cur, av) /\ n <= cur).
Proof.
  unfold may_read, tbind at 1. unfold tbind at 2. destruct (has_item_spec dev kind id h) as (b & -> & Hb). destruct b; simpl; [|naive_solver].
  unfold tbind, notYetCurrent, tbind. rewrite itemVersion_read. simpl. destruct (version_of h kind id) as [[cur av]|]; simpl; [|naive_solver].
  destruct (Z.ltb_spec cur n); simpl; (split; [done|]); split; [done|intros (_ & ? & ? & [= <- <-] & ?); lia| |done].
  intros _. split; [by apply Hb|]. by exists cur, av.
Qed.


















(** Letting a device in changes none of this. *)
Definition shared (s : server) :=
  let w := sv_world s in
  (w_scripts w, w_profiles w, w_apps w, w_packages w, (f_assignments (w_fleet w), f_groups (w_fleet w)), f_statuses (w_fleet w), t_commands (w_commands w)).

Lemma requireDevice_shared leaf : tkeeps (same shared) (requireDevice uuid_Parse leaf).
Proof.
  assert (forall E id f, tkeeps (same shared) (on_device id f : vtx E unit)) as Hd.
  { intros E id f s. unfold on_device, vset. simpl. by destruct (sv_devices s !! id). }
  unfold requireDevice, let_in, clear_superseded, Devices.GetDevice, ClearPrevCertSerial. frames.
Qed.

Definition seen_by (h : hub) := (catalog h, f_statuses (w_fleet (hub_world h)), t_commands (w_commands (hub_world h))).

Lemma at_server_seen {E A} (m : vtx E A) : tkeeps (same shared) m -> tkeeps (same seen_by) (at_server m).
Proof.
  intros Hm h. unfold at_server, zoom. simpl. specialize (Hm (hb_server h)). destruct (m _) as [r s]. unfold same, shared in Hm. simpl in Hm.
  injection Hm as H1 H2 H3 H4 H5 H6 H7 H8. unfold same, seen_by, catalog, hub_world. simpl. by rewrite H1, H2, H3, H4, H5, H6, H7, H8.
Qed.






Lemma checkin_honest v a req h : honest (assigned_to h (ai_ID a)) (ai_ID a) h (checkin uuid_bytes v a req h).2.
Proof.
  set (P := assigned_to h (ai_ID a)). unfold checkin, tbind at 1.
  pose proof (keeps_map_err (honest P (ai_ID a)) (fun _ : store_error => Rejected 500 "internal") _
    (on_device_honest P (ai_ID a) (ai_ID a) (fun r => set_dv_seen (ev_Now v) (ck_AgentVersion req) (kept (ck_Platform req) (dv_Platform r)) r)) h) as H1.
  unfold or_internal at 1, RecordCheckinPlatform. destruct (tmap_err _ _ h) as [[u|e] h1]; [|exact H1]. simpl in H1.
  unfold tbind at 1. simpl. set (due := match hb_inventory h1 !! ai_ID a with Some _ => _ | None => _ end).
  unfold tbind at 1. pose proof (keeps_map_err (honest P (ai_ID a)) (fun _ : cmd_error => Rejected 500 "internal") _
    (at_commands_honest P (ai_ID a) (Deliver (ev_Now v) (ai_ID a))) h1) as H3. unfold or_internal.
  destruct (tmap_err _ (at_commands _) h1) as [[cmds|e] h3]; simpl in H3; [|by transitivity h1].
  unfold tbind at 1. rewrite at_fleet_get. assert (honest P (ai_ID a) h h3) as H03 by (by transitivity h1).
  destruct (EffectiveItems _ _ _ _) as [assigned|] eqn:Ee; [|done]. unfold tbind.
  pose proof (offer_items_honest P (ai_ID a) v (dv_OSVersion (ai_Device a)) req assigned) as H5.
  assert (forall it, it ∈ assigned -> P (ei_Kind it) (ei_ID it)) as HP.
  { intros it Hit. apply (assigned_to_catalog h h3); [by destruct H03|]. by eapply effective_assigned. }
  specialize (H5 HP h3). destruct (offer_items _ _ _ _ _ h3) as [[items|e] h5]; simpl in *; by transitivity h3.
Qed.

Lemma logged_report {A E} (P : string -> string -> Prop) dev (g : E -> response) (m : hub_tx E A) (r : reply) :
  tkeeps (honest P dev) m -> tkeeps (honest P dev) (do* tmap_err g m; tret r).
Proof. intros Hm. eapply keeps_bind; [typeclasses eauto|by apply keeps_map_err|]. intros ?. frames. Qed.

Lemma UpsertBitLockerKey_honest P dev k : tkeeps (honest P dev) (UpsertBitLockerKey k).
Proof.
  intros h. unfold UpsertBitLockerKey. repeat case_match; simpl; try reflexivity; (split; [done|]); reflexivity.
Qed.

Lemma EscrowKey_honest P dev new_id rand now volume method pw :
  tkeeps (honest P dev) (EscrowKey ServerKey new_id rand now dev volume method pw).
Proof.
  unfold EscrowKey. cbv zeta. do 3 (eapply keeps_bind; [typeclasses eauto|frames|]; intros ?).
  destruct ServerKey as [key|]; [|frames]. destruct (Seal _ _ _ _) as [[ct nonce]|]; [|frames]. eapply keeps_InTx; [typeclasses eauto|].
  eapply keeps_bind; [typeclasses eauto|apply keeps_map_err, UpsertBitLockerKey_honest|]. intros ?. apply at_fleet_honest.
  intros f. split; [done|]. split; [done|]. intros s; by left.
Qed.

Section Reading.
Context (P : string -> string -> Prop) (dev : string).

Lemma unread {A E} (m : hub_tx E A) : (forall h, (m h).2 = h) -> tkeeps (honest P dev) m.
Proof. intros Hm h. rewrite Hm. reflexivity. Qed.

Lemma may_read_honest code d kind id n : tkeeps (honest P dev) (may_read code d kind id n).
Proof. apply unread. intros h. apply may_read_spec. Qed.

Lemma Version_honest {V B} {K : Kind world V} `{!Readable K} id n : tkeeps (honest P dev) (at_world (Version_ id n : txn world (library_error B) (Version V))).
Proof. apply unread. intros h. by rewrite at_world_read by (by rewrite Version_read). Qed.

Lemma OpenPackage_honest id n : tkeeps (honest P dev) (at_world (OpenPackage (K := app_kind) packages_part id n)).
Proof.
  apply unread. intros h. rewrite at_world_read; [done|]. unfold OpenPackage, tbind. rewrite Version_read. destruct (find _ _); simpl; [|done].
  destruct (negb _); [done|]. by destruct (OpenBlob _ _) as [|[]].
Qed.

Lemma devicePlatform_honest a : tkeeps (honest P dev) (devicePlatform a).
Proof.
  apply unread. intros h. unfold devicePlatform, or_internal, tmap_err, at_server, zoom, GetDevicePlatform, Devices.GetDevice, tbind, vget, vfound. simpl.
  destruct (sv_devices _ !! _); simpl; apply set_hub_server_same.
Qed.

Lemma OpenBuild_honest id p : tkeeps (honest P dev) (at_depot (OpenBuild id p)).
Proof.
  apply unread. intros h. rewrite at_depot_read; [done|]. unfold OpenBuild, tbind. rewrite BuildFor_of. destruct (build_of _ _ _ _) as [[v b]|]; [|done].
  unfold tmap_err. assert (forall d, (OpenArtifact (vr_Version v) (bd_Platform b) d).2 = d) as H.
  { intros d. unfold OpenArtifact, Open, tbind, lift_result, dget, dfound. destruct (validateBuild _ _); simpl; [|done].
    destruct (dp_files d !! _); [done|]. destruct (String.eqb _ _); [|done]. destruct (validateVersion _); [|done]. simpl. by destruct (dp_old d !! _). }
  specialize (H (hub_depot h)). by destruct (OpenArtifact _ _ _) as [[]].
Qed.

Hint Resolve may_read_honest Version_honest OpenPackage_honest devicePlatform_honest OpenBuild_honest : frames.

Lemma contents_honest a h r :
  match r with ScriptVersion _ _ | ProfileVersion _ _ | AppVersion _ _ | AppPackage _ _ => True | _ => False end ->
  forall v, honest P dev h (handle uuid_Parse uuid_bytes service ServerKey v a r h).2.
Proof.
  intros Hr v. destruct r; try done; simpl.
  all: unfold scriptVersion, profileVersion, appVersion, appPackage, assignedAppVersion, uuid_or; destruct (uuid_Parse id) as [i|]; [|simpl; reflexivity].
  all: apply version_gate_honest; intros n; revert h; match goal with |- forall h, honest _ _ h (?m h).2 => change (tkeeps (honest P dev) m) end.
  all: eapply keeps_bind; [typeclasses eauto|apply may_read_honest|]; intros ?.
  all: eapply keeps_bind; [typeclasses eauto|apply keeps_map_err; first [apply Version_honest; typeclasses eauto|apply OpenPackage_honest]|]; intros x.
  - frames.
  - unfold or_internal. eapply keeps_bind; [typeclasses eauto|frames|]. intros l. eapply keeps_bind; [typeclasses eauto|frames|]. intros l'. frames.
  - cbv zeta. frames.
  - frames.
Qed.
End Reading.

Lemma handle_honest v a r h :
  honest (assigned_to h (ai_ID a)) (ai_ID a) h (handle uuid_Parse uuid_bytes service ServerKey v a r h).2.
Proof.
  set (P := assigned_to h (ai_ID a)).
  assert (forall A (x : reply) (m : hub_tx A unit) (g : A -> response), tkeeps (honest P (ai_ID a)) m ->
    honest P (ai_ID a) h ((do* tmap_err g m; tret x) h).2) as Hdo by (intros A x m g Hm; by apply logged_report).
  destruct r as [req|id|id r|id n|id run|id n|id report|id n|id n|id r|id|id|id r|vol|vol method pw|req].
  - apply checkin_honest.
  - simpl. unfold startCommand, uuid_or. destruct (uuid_Parse id); [|simpl; reflexivity]. apply Hdo, at_commands_honest.
  - simpl. unfold commandResult, uuid_or. destruct (uuid_Parse id); [|simpl; reflexivity]. apply Hdo, at_commands_honest.
  - by apply contents_honest.
  - apply gate_honest. intros i Hi. by apply Hdo, at_world_honest, RecordRun_beside.
  - by apply contents_honest.
  - apply gate_honest. intros i Hi. by apply Hdo, at_world_honest, RecordStatus_beside.
  - by apply contents_honest.
  - by apply contents_honest.
  - apply gate_honest. intros i Hi. by apply Hdo, at_world_honest, RecordInstall_beside.
  - apply gate_honest. intros i Hi. refine ((_ : tkeeps (honest P (ai_ID a)) _) h).
    eapply keeps_bind; [typeclasses eauto|apply devicePlatform_honest|]. intros p.
    eapply keeps_bind; [typeclasses eauto|apply keeps_map_err, at_depot_read_honest, BuildFor_read|]. intros [w b]. frames.
  - apply gate_honest. intros i Hi. refine ((_ : tkeeps (honest P (ai_ID a)) _) h).
    eapply keeps_bind; [typeclasses eauto|apply devicePlatform_honest|]. intros p.
    eapply keeps_bind; [typeclasses eauto|apply keeps_map_err, OpenBuild_honest|]. intros b. frames.
  - apply gate_honest. intros i Hi. by apply Hdo, RecordResult_honest.
  - simpl. unfold bitlockerStatus, tbind. destruct (negb _); simpl; reflexivity.
  - apply Hdo, EscrowKey_honest.
  - apply Hdo, at_commands_honest.
Qed.

(** C10. A device's statuses change by its own reports only, and only on what is
    assigned to it; no request of a device changes the library, the builds, the
    groups or who is assigned what. *)
Theorem devices_report_only_on_what_is_theirs v leaf r h :
  let h' := (agent_serve uuid_Parse uuid_bytes service ServerKey v leaf r h).2 in
  catalog h' = catalog h /\
  forall s, s ∈ f_statuses (w_fleet (hub_world h')) -> s ∈ f_statuses (w_fleet (hub_world h)) \/
    ((exists serial, shows uuid_Parse leaf (st_DeviceID s) serial /\ accepts (sv_devices (hb_server h)) (st_DeviceID s) serial) /\
     assigned_to h (st_DeviceID s) (st_ItemKind s) (st_ItemID s)).
Proof.
  cbv zeta. unfold agent_serve, tbind. pose proof (at_server_seen _ (requireDevice_shared leaf) h) as Hs.
  unfold at_server, zoom in *. simpl in *. pose proof (requireDevice_step uuid_Parse leaf (hb_server h)) as Hstep.
  destruct (requireDevice uuid_Parse leaf (hb_server h)) as [[a|e] s1] eqn:Er.
  2: { subst s1. simpl. rewrite set_hub_server_same. split; [done|]. intros s; by left. }
  simpl in Hs. set (h1 := set_hb_server s1 h) in *. unfold same in Hs. pose proof (f_equal (fun x => x.1.1) Hs) as Hc. pose proof (f_equal (fun x => x.1.2) Hs) as Hst.
  simpl in Hc, Hst. destruct Hstep as (Hshow & d & Hd & Ha & Hk & _). clearbody h1.
  assert (honest (assigned_to h1 (ai_ID a)) (ai_ID a) h1 (handle uuid_Parse uuid_bytes service ServerKey v a r h1).2) as [Hc2 (_ & _ & Hr)].
  { apply handle_honest. }
  split; [congruence|]. intros s Hin. destruct (Hr s Hin) as [Hold|[Hdev Has]]; [left; by rewrite <- Hst|]. right. rewrite Hdev. split.
  - exists (ai_CertSerial a). split; [done|]. by exists d.
  - by apply (assigned_to_catalog h h1).
Qed.

(** ** What is offered is there *)







End Answers.

(** ** Recovery keys *)

(** One row a volume, and ids are not shared. *)
Definition one_each (h : hub) : Prop :=
  NoDup (map bk_ID (hb_keys h)) /\ NoDup (map (fun k => (bk_DeviceID k, bk_VolumeID k)) (hb_keys h)).

Lemma same_volume_spec dev vol k : same_volume dev vol k = true <-> (bk_DeviceID k, bk_VolumeID k) = (dev, vol).
Proof. unfold same_volume. rewrite andb_true_iff, !String.eqb_eq. split; [by intros [-> ->]|by intros [= -> ->]]. Qed.

Lemma Upsert_Ok k h u h' :
  UpsertBitLockerKey k h = (Ok u, h') -> one_each h ->
  one_each h' /\ hb_server h' = hb_server h /\
  (exists x, x ∈ hb_keys h' /\ bk_DeviceID x = bk_DeviceID k /\ bk_VolumeID x = bk_VolumeID k /\ bk_Ciphertext x = bk_Ciphertext k /\ bk_Nonce x = bk_Nonce k) /\
  forall x, x ∈ hb_keys h -> same_volume (bk_DeviceID k) (bk_VolumeID k) x = false -> x ∈ hb_keys h'.
Proof.
  unfold UpsertBitLockerKey. intros H [Hid Hvol]. destruct (existsb (same_volume _ _) _) eqn:Ev.
  - injection H as _ <-. simpl. split; [split; simpl; by rewrite update_where_map|]. split; [done|]. split.
    + apply existsb_elem in Ev as (x & Hx & Hs). exists (replace_key k x). split.
      * apply elem_of_update_where. exists x. by rewrite Hs.
      * apply same_volume_spec in Hs as [= Hd Hv]. done.
    + intros x Hx Hn. apply elem_of_update_where. exists x. by rewrite Hn.
  - destruct (existsb _ _) eqn:Ei in H; [done|]. case_bool_decide; [|done]. injection H as _ <-. simpl. rewrite existsb_none in Ev, Ei.
    split; [|split; [done|split]].
    + split; simpl; rewrite map_app; apply NoDup_app; (split; [done|]); (split; [|repeat constructor; set_solver]); intros y (x & -> & Hx)%list_elem_of_fmap Hy%list_elem_of_singleton.
      * specialize (Ei x Hx). apply String.eqb_neq in Ei. done.
      * specialize (Ev x Hx). apply same_volume_spec in Hy. simpl in Hy. congruence.
    + eexists. split; [apply elem_of_app; right; by apply list_elem_of_singleton|done].
    + intros x Hx _. apply elem_of_app. by left.
Qed.

Lemma GetBitLockerKey_found h k d :
  one_each h -> k ∈ hb_keys h -> sv_devices (hb_server h) !! bk_DeviceID k = Some d -> GetBitLockerKey (bk_ID k) h = (Ok (k, dv_Hostname d), h).
Proof.
  intros [Hid _] Hk Hd. unfold GetBitLockerKey, tbind, hget. destruct (find _ (hb_keys h)) as [x|] eqn:Ef.
  - apply find_some in Ef as [Hx%list_elem_of_In He%String.eqb_eq]. assert (x = k) as -> by (by eapply (NoDup_map_inj bk_ID)). by rewrite Hd.
  - apply list_elem_of_In in Hk. apply (find_none _ _ Ef) in Hk. by rewrite String.eqb_refl in Hk.
Qed.

(** C20. What a device escrowed for a volume is what an administrator who asks for
    it gets, and no other volume's key changes. Asking is on the record, with
    who asked, before the answer. *)
Theorem an_escrowed_key_is_the_one_revealed key new_id rand now dev vol method pw h h' d :
  EscrowKey (Some key) new_id rand now dev vol method pw h = (Ok tt, h') -> key_opens key -> one_each h ->
  sv_devices (hb_server h) !! dev = Some d ->
  one_each h' /\
  (exists k, k ∈ hb_keys h' /\ bk_DeviceID k = dev /\ bk_VolumeID k = TrimSpace vol /\
     forall actor reason, exists h'', RevealKey (Some key) (bk_ID k) actor reason h' = (Ok (k, TrimSpace pw), h'') /\
       exists details, f_audit (w_fleet (hub_world h'')) = f_audit (w_fleet (hub_world h')) ++ [mkAudit actor "bitlocker_key.viewed" "device" dev details]) /\
  forall k, k ∈ hb_keys h -> same_volume dev (TrimSpace vol) k = false -> k ∈ hb_keys h'.
Proof.
  unfold EscrowKey. intros H Hopen Hone Hd. cbv zeta in H. do 3 (apply tbind_Ok in H as (? & ? & [_ ->]%tensure_Ok & H)).
  destruct (Seal key rand (TrimSpace pw) (EscrowContext dev (TrimSpace vol))) as [[ct nonce]|] eqn:Es; [|done].
  apply (proj1 (InTx_Ok _ _ _ _)) in H. apply tbind_Ok in H as (u & h1 & H1%tmap_err_Ok & H).
  destruct (Upsert_Ok _ _ _ _ H1 Hone) as (Hone1 & Hsrv & (k & Hk & Hkd & Hkv & Hkc & Hkn) & Hkeep). simpl in *.
  assert (hb_keys h' = hb_keys h1 /\ sv_devices (hb_server h') = sv_devices (hb_server h1)) as [Hkeys Hdev] by (by injection H as <-).
  split; [unfold one_each; by rewrite Hkeys|]. split; [|by rewrite Hkeys].
  exists k. rewrite Hkeys. split; [done|]. split; [done|]. split; [done|]. intros actor reason. unfold RevealKey, tbind, tmap_err.
  rewrite (GetBitLockerKey_found h' k d); [|unfold one_each; by rewrite Hkeys|by rewrite Hkeys|by rewrite Hdev, Hsrv, Hkd].
  rewrite Hkc, Hkn, Hkd, Hkv, (Hopen _ _ _ _ _ Es). simpl. eexists. split; [done|]. by eexists.
Qed.
