(* ===== verification/ComplianceService.v ===== *)
(** * Compliance policies, and what devices make of them

    [internal/server/compliance/service.go], [store/compliance.go], reading an
    inventory ([protocol/inventory.go]) and the requests of
    [adminapi/compliance.go]: policies, the verdict on every device they are
    assigned to, and the overview the console shows. The rules themselves are
    [Compliance]'s. A row of JSON that is stored and read again is the same
    value. A pass over a policy's devices ([evaluating]) is one step. *)
From S2P Require Import Settings Payload AuthStore Access.
From S2P Require Export Compliance.
From S2P Require Export Devices.
From S2P Require Export FleetStore.
Open Scope Z_scope.
Open Scope go_scope.

(** ** [protocol/inventory.go] *)

(** Fields that nothing here reads: their values must fit all the same. *)
Definition unread_string {S} (name : string) : field S := string_field name (fun _ s => s).
Definition unread_bool {S} (name : string) : field S := bool_field name (fun _ s => s).
Definition unread_int {S} (name : string) : field S := int_field name (fun _ s => s).
Definition unread_uint {S} (name : string) : field S :=
  (name, fun v s => match v with
    | JNull => Ok s
    | JNum lit => match digits_value 0 lit with Some n => if n <? 2 ^ 64 then Ok s else Err TypeMismatch | None => Err TypeMismatch end
    | _ => Err TypeMismatch
    end).

(** A struct inside a struct, and a slice of structs. *)
Definition struct_field {S T} (name : string) (fs : list (field T)) (get : S -> T) (set : T -> S -> S) : field S :=
  (name, fun v s => rbind (decode_struct false fs v (get s)) (fun t => Ok (set t s))).
Definition slice_field {S T} (name : string) (fs : list (field T)) (zero : T) (set : option (list T) -> S -> S) : field S :=
  (name, fun v s => match v with
    | JNull => Ok (set None s)
    | JArr l => rbind (rmap (fun x => decode_struct false fs x zero) l) (fun ts => Ok (set (Some ts) s))
    | _ => Err TypeMismatch
    end).

Section Inventory.
Context `{JT : JsonTime}.

Definition time_value_field {S} (name : string) (set : time -> S -> S) : field S :=
  (name, fun v s => match v with
    | JNull => Ok s
    | JStr t => match parse_time t with Some i => Ok (set i s) | None => Err TypeMismatch end
    | _ => Err TypeMismatch
    end).
Definition unread_time {S} (name : string) : field S := time_field name (fun _ s => s).

Definition os_fields : list (field OSInfo) := [
  unread_string "name"; unread_string "version"; string_field "build" (fun v o => mkOSInfo v (os_UBR o));
  pint_field "ubr" (fun v o => mkOSInfo (os_Build o) v); unread_time "install_date"; unread_time "last_boot"].

Definition hardware_fields : list (field Compliance.Hardware) := [
  unread_string "manufacturer"; unread_string "model"; unread_string "serial"; unread_string "smbios_uuid"; unread_string "cpu";
  unread_int "cpu_cores"; unread_int "cpu_logical"; unread_uint "ram_bytes";
  bool_field "tpm_present" (fun v h => Compliance.mkHardware v (hw_TPMVersion h));
  string_field "tpm_version" (fun v h => Compliance.mkHardware (hw_TPMPresent h) v)].

Definition disk_fields : list (field Disk) := [
  string_field "name" (fun v d => mkDisk v (di_BitLocker d)); unread_string "file_system"; unread_uint "size_bytes"; unread_uint "free_bytes";
  string_field "bitlocker" (fun v d => mkDisk (di_Name d) v)].

Definition adapter_fields : list (field unit) := [unread_string "name"; unread_string "mac"; strings_field "ips" (fun _ s => s)].
Definition software_fields : list (field string) := [
  string_field "name" (fun v _ => v); unread_string "version"; unread_string "publisher"; unread_string "install_date"; unread_string "scope"].
Definition user_fields : list (field unit) := [unread_string "name"; unread_bool "disabled"].

Definition defender_fields : list (field DefenderStatus) := [
  string_field "running_mode" (fun v d => mkDefender v (df_AntivirusEnabled d) (df_RealtimeEnabled d) (df_SignatureUpdatedAt d));
  bool_field "antivirus_enabled" (fun v d => mkDefender (df_RunningMode d) v (df_RealtimeEnabled d) (df_SignatureUpdatedAt d));
  bool_field "realtime_enabled" (fun v d => mkDefender (df_RunningMode d) (df_AntivirusEnabled d) v (df_SignatureUpdatedAt d));
  unread_bool "tamper_protected"; unread_string "signature_version";
  time_field "signature_updated_at" (fun v d => mkDefender (df_RunningMode d) (df_AntivirusEnabled d) (df_RealtimeEnabled d) v);
  unread_time "last_quick_scan_at"; unread_time "last_full_scan_at"].

Definition firewall_fields : list (field FirewallProfileState) := [
  string_field "profile" (fun v f => mkFirewall v (fw_Enabled f)); bool_field "enabled" (fun v f => mkFirewall (fw_Profile f) v)].

Definition pending_fields : list (field PendingUpdate) := [
  string_field "title" (fun v p => mkPending v (pu_KB p) (pu_Security p)); string_field "kb" (fun v p => mkPending (pu_Title p) v (pu_Security p));
  unread_string "severity"; strings_field "categories" (fun _ s => s);
  bool_field "security" (fun v p => mkPending (pu_Title p) (pu_KB p) v); unread_int "size_bytes"; unread_bool "reboot_required"].

Definition updates_fields : list (field UpdateStatus) := [
  time_value_field "scanned_at" (fun v u => mkUpdates v (us_Pending u) (us_Error u));
  slice_field "pending" pending_fields (mkPending EmptyString EmptyString false) (fun v u => mkUpdates (us_ScannedAt u) (default [] v) (us_Error u));
  string_field "error" (fun v u => mkUpdates (us_ScannedAt u) (us_Pending u) v)].

Definition set_inv_OS v i := mkInventory v (inv_Hardware i) (inv_Disks i) (inv_Software i) (inv_LocalAdmins i) (inv_PendingReboot i)
  (inv_LastUpdateInstalledAt i) (inv_Defender i) (inv_Firewall i) (inv_WindowsUpdates i).
Definition set_inv_Hardware v i := mkInventory (inv_OS i) v (inv_Disks i) (inv_Software i) (inv_LocalAdmins i) (inv_PendingReboot i)
  (inv_LastUpdateInstalledAt i) (inv_Defender i) (inv_Firewall i) (inv_WindowsUpdates i).
Definition set_inv_Disks v i := mkInventory (inv_OS i) (inv_Hardware i) v (inv_Software i) (inv_LocalAdmins i) (inv_PendingReboot i)
  (inv_LastUpdateInstalledAt i) (inv_Defender i) (inv_Firewall i) (inv_WindowsUpdates i).
Definition set_inv_Software v i := mkInventory (inv_OS i) (inv_Hardware i) (inv_Disks i) v (inv_LocalAdmins i) (inv_PendingReboot i)
  (inv_LastUpdateInstalledAt i) (inv_Defender i) (inv_Firewall i) (inv_WindowsUpdates i).
Definition set_inv_LocalAdmins v i := mkInventory (inv_OS i) (inv_Hardware i) (inv_Disks i) (inv_Software i) v (inv_PendingReboot i)
  (inv_LastUpdateInstalledAt i) (inv_Defender i) (inv_Firewall i) (inv_WindowsUpdates i).
Definition set_inv_PendingReboot v i := mkInventory (inv_OS i) (inv_Hardware i) (inv_Disks i) (inv_Software i) (inv_LocalAdmins i) v
  (inv_LastUpdateInstalledAt i) (inv_Defender i) (inv_Firewall i) (inv_WindowsUpdates i).
Definition set_inv_LastUpdateInstalledAt v i := mkInventory (inv_OS i) (inv_Hardware i) (inv_Disks i) (inv_Software i) (inv_LocalAdmins i)
  (inv_PendingReboot i) v (inv_Defender i) (inv_Firewall i) (inv_WindowsUpdates i).
Definition set_inv_Defender v i := mkInventory (inv_OS i) (inv_Hardware i) (inv_Disks i) (inv_Software i) (inv_LocalAdmins i) (inv_PendingReboot i)
  (inv_LastUpdateInstalledAt i) v (inv_Firewall i) (inv_WindowsUpdates i).
Definition set_inv_Firewall v i := mkInventory (inv_OS i) (inv_Hardware i) (inv_Disks i) (inv_Software i) (inv_LocalAdmins i) (inv_PendingReboot i)
  (inv_LastUpdateInstalledAt i) (inv_Defender i) v (inv_WindowsUpdates i).
Definition set_inv_WindowsUpdates v i := mkInventory (inv_OS i) (inv_Hardware i) (inv_Disks i) (inv_Software i) (inv_LocalAdmins i)
  (inv_PendingReboot i) (inv_LastUpdateInstalledAt i) (inv_Defender i) (inv_Firewall i) v.

Definition zero_inventory : Inventory :=
  mkInventory (mkOSInfo EmptyString None) (Compliance.mkHardware false EmptyString) [] [] [] false None None None None.

(** The zero instant of Go, where an instant is not a pointer. *)
Definition zero_updates : UpdateStatus := mkUpdates 0 [] EmptyString.

Definition inventory_fields : list (field Inventory) := [
  time_value_field "collected_at" (fun _ i => i); unread_string "hostname";
  struct_field "os" os_fields inv_OS set_inv_OS; struct_field "hardware" hardware_fields inv_Hardware set_inv_Hardware;
  slice_field "disks" disk_fields (mkDisk EmptyString EmptyString) (fun v => set_inv_Disks (default [] v));
  slice_field "network_adapters" adapter_fields tt (fun _ i => i);
  slice_field "software" software_fields EmptyString (fun v => set_inv_Software (default [] v));
  slice_field "local_users" user_fields tt (fun _ i => i);
  strings_field "local_admins" set_inv_LocalAdmins; bool_field "pending_reboot" set_inv_PendingReboot;
  time_field "last_update_installed_at" set_inv_LastUpdateInstalledAt;
  pointer_field "defender" defender_fields (mkDefender EmptyString false false None) inv_Defender set_inv_Defender;
  slice_field "firewall" firewall_fields (mkFirewall EmptyString false) set_inv_Firewall;
  pointer_field "windows_updates" updates_fields zero_updates inv_WindowsUpdates set_inv_WindowsUpdates].

Definition decode_inventory (data : json) : result json_error Inventory := decode_struct false inventory_fields data zero_inventory.
End Inventory.

(** ** [store/compliance.go] *)

Definition ComplianceCompliant : string := "compliant".
Definition ComplianceNonCompliant : string := "non_compliant".
Definition ComplianceUnknown : string := "unknown".
Definition ComplianceNotEvaluated : string := "not_evaluated".

(** What is in no map has rank 0. *)
Definition complianceRank (state : string) : Z :=
  if String.eqb state ComplianceNonCompliant then 2 else if String.eqb state ComplianceUnknown then 1 else 0.

Record CompliancePolicy := mkCompliancePolicy {
  cp_ID : string; cp_Name : string; cp_Description : string; cp_Rules : json; cp_CreatedAt : time; cp_UpdatedAt : time; cp_CreatedBy : string }.

Record DeviceCompliance := mkDeviceCompliance {
  dc_DeviceID : string; dc_PolicyID : string; dc_State : string; dc_Failures : json; dc_EvaluatedAt : time }.

(** Of [device_inventory], what a verdict reads. *)
Record InventoryRow := mkInventoryRow { in_Data : json; in_ReceivedAt : time }.

(** [vd_evaluating]: the policies with a pass running. *)
Record verdicts := mkVerdicts {
  vd_server : server; vd_policies : list CompliancePolicy; vd_results : list DeviceCompliance; vd_inventory : gmap string InventoryRow;
  vd_evaluating : list string }.

Definition set_vd_server x s := mkVerdicts x (vd_policies s) (vd_results s) (vd_inventory s) (vd_evaluating s).
Definition set_vd_policies x s := mkVerdicts (vd_server s) x (vd_results s) (vd_inventory s) (vd_evaluating s).
Definition set_vd_results x s := mkVerdicts (vd_server s) (vd_policies s) x (vd_inventory s) (vd_evaluating s).
Definition set_vd_evaluating x s := mkVerdicts (vd_server s) (vd_policies s) (vd_results s) (vd_inventory s) x.

Definition vd_fleet (s : verdicts) : fdb := w_fleet (sv_world (vd_server s)).
Definition set_vd_fleet (x : fdb) (s : verdicts) : verdicts := set_vd_server (set_sv_world (set_w_fleet x (sv_world (vd_server s))) (vd_server s)) s.
Definition verdict_server : lens verdicts server := mkLens vd_server set_vd_server.
Definition verdict_fleet : lens verdicts fdb := mkLens vd_fleet set_vd_fleet.
Abbreviation ptx := (txn verdicts).

Definition pget {E A} (f : verdicts -> A) : ptx E A := fun s => (Ok (f s), s).
Definition pset {E} (f : verdicts -> verdicts) : ptx E unit := fun s => (Ok tt, f s).
Definition pfound {E A} (e : E) (o : option A) : ptx E A := match o with Some a => tret a | None => tfail e end.
Definition of_server {E A} (m : vtx E A) : ptx E A := zoom verdict_server m.
Definition of_fleet {E A} (m : ftx E A) : ptx E A := zoom verdict_fleet m.

Definition policy_id (id : string) (p : CompliancePolicy) : bool := String.eqb (cp_ID p) id.
Definition policy_name (name : string) (p : CompliancePolicy) : bool := String.eqb (cp_Name p) name.

(** Names are unique, case and all. *)
Definition CreateCompliancePolicy (p : CompliancePolicy) : ptx store_error unit := fun s =>
  if existsb (policy_id (cp_ID p)) (vd_policies s) || existsb (policy_name (cp_Name p)) (vd_policies s) then (Err ErrDuplicate, s)
  else (Ok tt, set_vd_policies (vd_policies s ++ [p]) s).

Definition GetCompliancePolicy (id : string) : ptx store_error CompliancePolicy :=
  let* p := pget (fun s => find (policy_id id) (vd_policies s)) in pfound ErrNotFound p.

Definition edited (p o : CompliancePolicy) : CompliancePolicy :=
  mkCompliancePolicy (cp_ID o) (cp_Name p) (cp_Description p) (cp_Rules p) (cp_CreatedAt o) (cp_UpdatedAt p) (cp_CreatedBy o).

Definition UpdateCompliancePolicy (p : CompliancePolicy) : ptx store_error unit := fun s =>
  if existsb (policy_id (cp_ID p)) (vd_policies s) && existsb (fun o => policy_name (cp_Name p) o && negb (policy_id (cp_ID p) o)) (vd_policies s)
  then (Err ErrDuplicate, s)
  else (Ok tt, set_vd_policies (update_where (policy_id (cp_ID p)) (edited p) (vd_policies s)) s).

Definition of_policy_ (id : string) (r : DeviceCompliance) : bool := String.eqb (dc_PolicyID r) id.

Definition DeleteComplianceForPolicy (id : string) : ptx store_error unit :=
  pset (fun s => set_vd_results (List.filter (fun r => negb (of_policy_ id r)) (vd_results s)) s).

(** Its results go with it. *)
Definition DeleteCompliancePolicy (id : string) : ptx store_error unit :=
  pset (fun s => set_vd_policies (List.filter (fun p => negb (policy_id id p)) (vd_policies s))
                   (set_vd_results (List.filter (fun r => negb (of_policy_ id r)) (vd_results s)) s)).

Definition same_result (a b : DeviceCompliance) : bool := String.eqb (dc_DeviceID a) (dc_DeviceID b) && String.eqb (dc_PolicyID a) (dc_PolicyID b).

(** The state is one of three, as the table checks. *)
Definition UpsertDeviceCompliance (r : DeviceCompliance) : ptx store_error unit := fun s =>
  if existsb (same_result r) (vd_results s)
  then (Ok tt, set_vd_results (update_where (same_result r) (fun _ => r) (vd_results s)) s)
  else if bool_decide (is_Some (sv_devices (vd_server s) !! dc_DeviceID r)) && existsb (policy_id (dc_PolicyID r)) (vd_policies s)
  then (Ok tt, set_vd_results (vd_results s ++ [r]) s)
  else (Err ErrForeignKey, s).

Definition DeleteDeviceComplianceExcept (deviceID : string) (keep : list string) : ptx store_error unit :=
  pset (fun s => set_vd_results (List.filter (fun r => negb (String.eqb (dc_DeviceID r) deviceID && negb (existsb (String.eqb (dc_PolicyID r)) keep)))
                                   (vd_results s)) s).

(** One device's state so far, and one more row of its. *)
Definition worse_of (cur state : string) : string :=
  if String.eqb cur ComplianceNotEvaluated || (complianceRank cur <? complianceRank state) then state else cur.

Definition put_state (out : gmap string string) (r : DeviceCompliance) : gmap string string :=
  <[dc_DeviceID r := worse_of (default EmptyString (out !! dc_DeviceID r)) (dc_State r)]> out.

Definition ComplianceOverall (ids : list string) (s : verdicts) : gmap string string :=
  fold_left put_state
    (List.filter (fun r => existsb (String.eqb (dc_DeviceID r)) ids) (vd_results s))
    (list_to_map (map (fun id => (id, ComplianceNotEvaluated)) ids)).

(** The two ladders of [ComplianceCounts], and [max], which passes over NULL. *)
Definition sql_rank (state : string) : option Z :=
  if String.eqb state "compliant" then Some 0 else if String.eqb state "unknown" then Some 1
  else if String.eqb state "non_compliant" then Some 2 else None.
Definition sql_max (l : list (option Z)) : option Z :=
  fold_right (fun x m => match x, m with Some a, Some b => Some (Z.max a b) | Some a, None => Some a | None, m => m end) None l.
Definition sql_state (rank : option Z) : string :=
  match rank with
  | Some r => if (r =? 0)%Z then "compliant" else if (r =? 1)%Z then "unknown" else if (r =? 2)%Z then "non_compliant" else "not_evaluated"
  | None => "not_evaluated"
  end%string.

Definition sql_overall (rows : list DeviceCompliance) (deviceID : string) : string :=
  sql_state (sql_max (map (fun r => sql_rank (dc_State r)) (List.filter (fun r => String.eqb (dc_DeviceID r) deviceID) rows))).

(** The active devices the caller may see. *)
Definition active_in (scope : DeviceScope) (s : verdicts) : list string :=
  map fst (List.filter (fun x => String.eqb (dv_Status x.2) DeviceActive
    && match scope with None => true | Some l => existsb (fun g => is_member (vd_fleet s) g x.1) l end) (map_to_list (sv_devices (vd_server s)))).

(** [GROUP BY overall] over four zeros. *)
Definition grouped (l : list string) : gmap string Z := list_to_map (map (fun x => (x, count_where (String.eqb x) l)) l).
Definition no_counts : gmap string Z :=
  list_to_map (map (fun x => (x, 0)) [ComplianceCompliant; ComplianceNonCompliant; ComplianceUnknown; ComplianceNotEvaluated]).

Definition ComplianceCounts (scope : DeviceScope) (s : verdicts) : gmap string Z :=
  grouped (map (sql_overall (vd_results s)) (active_in scope s)) ∪ no_counts.

(** ** [compliance/service.go] *)

Inductive compliance_error := NoPolicy | PolicyNameTaken | NeedsPolicyName | BadRules (e : rules_error) | CannotMarshal | UnreadableInventory (e : json_error)
  | EvaluationPanic | ComplianceStore (e : store_error).

Record NewPolicy := mkNewPolicy { np_Name : string; np_Description : string; np_Rules : option json; np_Actor : string }.

Definition compliance_audit (actor what id : string) (details : list (string * json)) : AuditEntry :=
  mkAudit actor ("compliance_policy." ++ what)%string "compliance_policy" id details.

Definition name_taken (e : store_error) : compliance_error := match e with ErrDuplicate => PolicyNameTaken | e => ComplianceStore e end.
Definition no_policy (e : store_error) : compliance_error := match e with ErrNotFound => NoPolicy | e => ComplianceStore e end.

Definition failures_json (l : list Failure) : json :=
  JArr (map (fun f => JObj [("rule", JStr (fl_Rule f)); ("state", JStr (fl_State f)); ("detail", JStr (fl_Detail f))]%string) l).

Definition mirrorItemStatus (r : Compliance.Result) : string * string :=
  (if String.eqb (re_State r) StateNonCompliant then FleetStore.ItemFailed
   else if String.eqb (re_State r) StateUnknown then FleetStore.ItemPending else FleetStore.ItemSucceeded,
   Join "; " (map fl_Detail (re_Failures r))).

Section Service.
Context `{JT : JsonTime} (uuid_Parse : string -> option string) (uuid_bytes : string -> list Z).
Context (to_lower : string -> string) (format_date : time -> string).

Definition validate (i : NewPolicy) : result compliance_error json :=
  check! ensure (negb (String.eqb (TrimSpace (np_Name i)) EmptyString)) NeedsPolicyName;
  match ParseRules uuid_Parse (np_Rules i) with
  | Err e => Err (BadRules e)
  | Ok rules => match MarshalRules rules with Some raw => Ok raw | None => Err CannotMarshal end
  end.

Definition CreatePolicy (new_id : string) (now : time) (i : NewPolicy) : ptx compliance_error CompliancePolicy :=
  let* rules := lift_result (validate i) in
  let p := mkCompliancePolicy new_id (TrimSpace (np_Name i)) (np_Description i) rules now now (np_Actor i) in
  do* InTx (
    do* tmap_err name_taken (CreateCompliancePolicy p);
    of_fleet (InsertAudit (compliance_audit (np_Actor i) "created" (cp_ID p) [("name", JStr (cp_Name p))]%string)));
  tret p.

Definition UpdatePolicy (now : time) (id : string) (i : NewPolicy) : ptx compliance_error CompliancePolicy :=
  let* rules := lift_result (validate i) in
  InTx (
    let* p := tmap_err no_policy (GetCompliancePolicy id) in
    let p := mkCompliancePolicy (cp_ID p) (TrimSpace (np_Name i)) (np_Description i) rules (cp_CreatedAt p) now (cp_CreatedBy p) in
    do* tmap_err name_taken (UpdateCompliancePolicy p);
    do* of_fleet (InsertAudit (compliance_audit (np_Actor i) "updated" id [("name", JStr (cp_Name p))]%string));
    tret p).

Definition DeletePolicy (id actor : string) : ptx compliance_error unit :=
  InTx (
    let* p := tmap_err no_policy (GetCompliancePolicy id) in
    do* tmap_err ComplianceStore (of_fleet (DeleteAssignmentsForItem ItemKindCompliance id));
    do* tmap_err ComplianceStore (DeleteComplianceForPolicy id);
    do* tmap_err ComplianceStore (of_fleet (DeleteItemStatusForItem ItemKindCompliance id));
    do* tmap_err ComplianceStore (DeleteCompliancePolicy id);
    of_fleet (InsertAudit (compliance_audit actor "deleted" id [("name", JStr (cp_Name p))]%string))).

Definition GetPolicy (id : string) : ptx compliance_error CompliancePolicy := tmap_err no_policy (GetCompliancePolicy id).

(** [to_facts] of a device: what the rules read of its row. *)
Definition device_facts (d : DeviceRow) : Compliance.Device := Compliance.mkDevice (dv_OSBuild d) (dv_AgentVersion d) (dv_LastSeenAt d).

Definition buildFacts (deviceID : string) (d : DeviceRow) : ptx compliance_error Facts :=
  let* inv := pget (fun s => vd_inventory s !! deviceID) in
  let* (parsed, received) := lift_result (match inv with
    | None => Ok (None, None)
    | Some row => match decode_inventory (in_Data row) with
                  | Ok i => Ok (Some i, Some (in_ReceivedAt row))
                  | Err e => Err (UnreadableInventory e)
                  end
    end) in
  let* statuses := tmap_err ComplianceStore (of_fleet (ListDeviceItemStatus deviceID ItemKindProfile)) in
  tret (mkFacts (device_facts d) parsed received (list_to_map statuses)).

Definition score (rules : json) (f : Facts) (now : time) : Compliance.Result :=
  match ParseRules uuid_Parse (Some rules) with
  | Err _ => mkPolicyResult StateUnknown [mkFailure "rules" StateUnknown "this policy's rules could not be read"]
  | Ok rules => Evaluate to_lower format_date rules f now
  end.

Definition evaluateOne (id : string) (f : Facts) (now : time) : ptx store_error (Compliance.Result * json) :=
  let* p := GetCompliancePolicy id in
  let r := score (cp_Rules p) f now in
  tret (r, failures_json (re_Failures r)).

Definition verdict_row (now : time) (deviceID id : string) (r : Compliance.Result) : DeviceCompliance :=
  mkDeviceCompliance deviceID id (re_State r) (failures_json (re_Failures r)) now.
Definition verdict_status (now : time) (deviceID id : string) (r : Compliance.Result) : ItemStatus :=
  mkItemStatus deviceID ItemKindCompliance id (mirrorItemStatus r).1 (mirrorItemStatus r).2 1 now.

(** The loop over a device's policies; the ids of those that are there. *)
Fixpoint score_each (now : time) (deviceID : string) (f : Facts) (ids : list string) : ptx compliance_error (list string) :=
  match ids with
  | [] => tret []
  | id :: rest =>
      let* r := tattempt (evaluateOne id f now) in
      match r with
      | Err ErrNotFound => score_each now deviceID f rest
      | Err e => tfail (ComplianceStore e)
      | Ok (r, failures) =>
          do* tmap_err ComplianceStore (UpsertDeviceCompliance (mkDeviceCompliance deviceID id (re_State r) failures now));
          do* tmap_err ComplianceStore (of_fleet (SetItemStatus (verdict_status now deviceID id r)));
          let* scored := score_each now deviceID f rest in
          tret (id :: scored)
      end
  end.

Definition forget_others (deviceID : string) (keep : list string) : ptx compliance_error unit :=
  do* tmap_err ComplianceStore (DeleteDeviceComplianceExcept deviceID keep);
  tmap_err ComplianceStore (of_fleet (DeleteItemStatusExcept deviceID ItemKindCompliance keep)).

Definition policy_ids (items : list EffectiveItem) : list string :=
  map ei_ID (List.filter (fun it => String.eqb (ei_Kind it) ItemKindCompliance) items).

Definition EvaluateDevice (now : time) (deviceID : string) : ptx compliance_error unit :=
  InTx (
    let* d := tmap_err ComplianceStore (of_server (Devices.GetDevice deviceID)) in
    let* items := of_fleet (fget (EffectiveItems uuid_bytes deviceID now)) in
    match items with
    | None => tfail EvaluationPanic
    | Some items =>
        match policy_ids items with
        | [] => forget_others deviceID []
        | ids =>
            let* facts := buildFacts deviceID d in
            let* scored := score_each now deviceID facts ids in
            forget_others deviceID scored
        end
    end).

(** How many devices a pass would cover, and whether one was started. *)
Definition StartPolicyEvaluation (id : string) : ptx store_error (Z * bool) :=
  let* ids := of_fleet (ActiveDevicesForItem ItemKindCompliance id) in
  let* running := pget (fun s => existsb (String.eqb id) (vd_evaluating s)) in
  if running then tret (Z.of_nat (length ids), false)
  else do* pset (fun s => set_vd_evaluating (id :: vd_evaluating s) s); tret (Z.of_nat (length ids), true).

(** Device after device, as long as the server lives; [i] counts the readings
    of the clock. How many were evaluated and how many failed. *)
Fixpoint evaluate_each (clock : nat -> time) (alive : nat -> bool) (i : nat) (ids : list string) (done_ failed : Z) : ptx compliance_error (Z * Z) :=
  match ids with
  | [] => tret (done_, failed)
  | id :: rest =>
      if negb (alive i) then tret (done_, failed) else
      let* r := tattempt (EvaluateDevice (clock i) id) in
      match r with
      | Ok _ => evaluate_each clock alive (S i) rest (done_ + 1) failed
      | Err _ => evaluate_each clock alive (S i) rest done_ (failed + 1)
      end
  end.

(** [duration] is the text of how long it took. *)
Definition runPolicyEvaluation (clock : nat -> time) (alive : nat -> bool) (duration id actor : string) (ids : list string) : ptx compliance_error unit :=
  let* (done_, failed) := evaluate_each clock alive 0 ids 0 0 in
  do* of_fleet (InsertAudit (compliance_audit actor "evaluated" id
    [("devices", jint (Z.of_nat (length ids))); ("evaluated", jint done_); ("failed", jint failed); ("duration", JStr duration)]%string));
  pset (fun s => set_vd_evaluating (List.filter (fun x => negb (String.eqb x id)) (vd_evaluating s)) s).

Definition EvaluateActive (clock : nat -> time) : ptx compliance_error Z :=
  let* ids := tmap_err ComplianceStore (of_fleet ActiveDeviceIDs) in
  let* (done_, _) := evaluate_each clock (fun _ => true) 0 ids 0 0 in tret done_.

(** ** [adminapi/compliance.go] *)

Definition compliance_response (e : compliance_error) : response :=
  match e with
  | NoPolicy => Rejected 404 "not_found"
  | PolicyNameTaken => Rejected 409 "name_taken"
  | NeedsPolicyName | BadRules _ => Rejected 400 "bad_request"
  | _ => Rejected 500 "internal"
  end.

Definition policy_path {A} (raw : string) (k : string -> ptx response A) : ptx response A :=
  match uuid_Parse raw with Some id => k id | None => tfail (Rejected 404 "not_found") end.

Definition createCompliancePolicy (new_id : string) (now : time) (i : NewPolicy) : ptx response response :=
  do* tmap_err compliance_response (CreatePolicy new_id now i); tret (Done 201).
Definition updateCompliancePolicy (now : time) (raw : string) (i : NewPolicy) : ptx response response :=
  policy_path raw (fun id => do* tmap_err compliance_response (UpdatePolicy now id i); tret (Done 200)).
Definition deleteCompliancePolicy (raw actor : string) : ptx response response :=
  policy_path raw (fun id => do* tmap_err compliance_response (DeletePolicy id actor); tret (Done 204)).
Definition evaluateCompliancePolicy (raw : string) : ptx response response :=
  policy_path raw (fun id =>
    do* tmap_err compliance_response (GetPolicy id);
    do* tmap_err (fun e => compliance_response (ComplianceStore e)) (StartPolicyEvaluation id);
    tret (Done 202)).
End Service.

(** * What the verdicts are worth *)

(** ** The overview *)

(** The three states of a row. *)
Definition row_state (st : string) : Prop := st = StateCompliant \/ st = StateNonCompliant \/ st = StateUnknown.

(** The worst of several, if there are any. *)
Definition worst (l : list string) : string :=
  if existsb (String.eqb ComplianceNonCompliant) l then ComplianceNonCompliant
  else if existsb (String.eqb ComplianceUnknown) l then ComplianceUnknown
  else if existsb (String.eqb ComplianceCompliant) l then ComplianceCompliant else ComplianceNotEvaluated.

Definition states_of (dev : string) (rows : list DeviceCompliance) : list string :=
  map dc_State (List.filter (fun r => String.eqb (dc_DeviceID r) dev) rows).

Lemma fold_worse l cur : Forall row_state l -> row_state cur \/ cur = ComplianceNotEvaluated -> fold_left worse_of l cur = worst (cur :: l).
Proof.
  intros Hl. revert cur. induction Hl as [|x l Hx Hl IH]; intros cur Hc.
  - by destruct Hc as [[->|[->| ->]]| ->].
  - simpl fold_left. rewrite IH.
    + destruct Hc as [[->|[->| ->]]| ->], Hx as [->|[->| ->]]; unfold worst; simpl; repeat case_match; done.
    + destruct Hc as [[->|[->| ->]]| ->], Hx as [->|[->| ->]]; vm_compute; auto 6.
Qed.

Lemma worst_states l : row_state (worst l) \/ worst l = ComplianceNotEvaluated.
Proof. unfold worst, row_state. repeat case_match; auto 6. Qed.

Lemma worst_cons x l : row_state x -> worst (x :: l) = worse_of (worst l) x.
Proof.
  intros Hx. unfold worst. cbn [existsb]. generalize (existsb (String.eqb ComplianceNonCompliant) l) (existsb (String.eqb ComplianceUnknown) l)
    (existsb (String.eqb ComplianceCompliant) l). intros b1 b2 b3. by destruct Hx as [->|[->| ->]], b1, b2, b3.
Qed.

Lemma sql_worst l : Forall row_state l -> sql_state (sql_max (map sql_rank l)) = worst l.
Proof.
  intros Hl. assert (sql_max (map sql_rank l) = sql_rank (worst l)) as ->; [|by destruct (worst_states l) as [[->|[->| ->]]| ->]].
  induction Hl as [|x l Hx Hl IH]; [done|]. rewrite worst_cons by done.
  change (sql_max (map sql_rank (x :: l))) with (sql_max (sql_rank x :: map sql_rank l)). unfold sql_max in *. cbn [fold_right]. rewrite IH.
  by destruct (worst_states l) as [[->|[->| ->]]| ->], Hx as [->|[->| ->]].
Qed.

Lemma fold_overall rows out dev :
  default EmptyString (fold_left put_state rows out !! dev) =
  fold_left worse_of (states_of dev rows) (default EmptyString (out !! dev)).
Proof.
  revert out. induction rows as [|r rows IH]; intros out; [done|]. simpl. rewrite IH. unfold states_of, put_state. simpl.
  destruct (String.eqb_spec (dc_DeviceID r) dev) as [->|Hn]; simpl; [by rewrite lookup_insert_eq|by rewrite lookup_insert_ne].
Qed.

Lemma fold_overall_dom rows (out : gmap string string) dev :
  is_Some (out !! dev) ->
  is_Some (fold_left put_state rows out !! dev).
Proof.
  revert out. induction rows as [|r rows IH]; intros out H; [done|]. simpl. apply IH. unfold put_state. destruct (decide (dc_DeviceID r = dev)) as [->|].
  - rewrite lookup_insert_eq. by eexists.
  - by rewrite lookup_insert_ne.
Qed.

Lemma seed_lookup ids dev : dev ∈ ids -> (list_to_map (map (fun id => (id, ComplianceNotEvaluated)) ids) : gmap string string) !! dev = Some ComplianceNotEvaluated.
Proof.
  induction ids as [|id ids IH]; [by intros ?%elem_of_nil|]. simpl. intros Hin. destruct (decide (id = dev)) as [->|]; [by rewrite lookup_insert_eq|].
  rewrite lookup_insert_ne by done. apply IH. by apply elem_of_cons in Hin as [->|].
Qed.

Lemma states_filter ids dev rows : dev ∈ ids -> states_of dev (List.filter (fun r => existsb (String.eqb (dc_DeviceID r)) ids) rows) = states_of dev rows.
Proof.
  intros Hin. unfold states_of. f_equal. induction rows as [|r rows IH]; [done|]. simpl.
  destruct (String.eqb_spec (dc_DeviceID r) dev) as [E|E]; destruct (existsb _ ids) eqn:Ex; simpl; rewrite IH.
  - destruct (String.eqb_spec (dc_DeviceID r) dev); [done|congruence].
  - exfalso. apply existsb_none with (x := dev) in Ex; [|done]. by rewrite E, String.eqb_refl in Ex.
  - by destruct (String.eqb_spec (dc_DeviceID r) dev).
  - done.
Qed.

Lemma overall_worst ids dev s : Forall (fun r => row_state (dc_State r)) (vd_results s) -> dev ∈ ids ->
  ComplianceOverall ids s !! dev = Some (worst (states_of dev (vd_results s))).
Proof.
  intros Hs Hin. unfold ComplianceOverall. set (rows := List.filter _ (vd_results s)).
  pose proof (fold_overall rows (list_to_map (map (fun id => (id, ComplianceNotEvaluated)) ids)) dev) as H.
  destruct (fold_overall_dom rows (list_to_map (map (fun id => (id, ComplianceNotEvaluated)) ids)) dev) as [x Hx].
  { rewrite seed_lookup by done. by eexists. }
  rewrite Hx in *. rewrite seed_lookup in H by done. simpl in H. rewrite H. unfold rows. rewrite states_filter by done. rewrite fold_worse.
  - unfold worst. simpl. done.
  - unfold states_of. apply Forall_forall. intros y (r & -> & [Hr _]%elem_of_filterb)%list_elem_of_fmap. rewrite Forall_forall in Hs. by apply Hs.
  - by right.
Qed.

Lemma sql_overall_worst s dev : Forall (fun r => row_state (dc_State r)) (vd_results s) ->
  sql_overall (vd_results s) dev = worst (states_of dev (vd_results s)).
Proof.
  intros Hs. unfold sql_overall, states_of. rewrite <- sql_worst, map_map; [done|]. apply Forall_forall.
  intros y (r & -> & [Hr _]%elem_of_filterb)%list_elem_of_fmap. rewrite Forall_forall in Hs. by apply Hs.
Qed.

Lemma grouped_lookup l st : grouped l !! st = if existsb (String.eqb st) l then Some (count_where (String.eqb st) l) else None.
Proof.
  unfold grouped. assert (forall k, (list_to_map (map (fun x => (x, count_where (String.eqb x) l)) k) : gmap string Z) !! st =
    if existsb (String.eqb st) k then Some (count_where (String.eqb st) l) else None) as H; [|by apply H].
  induction k as [|x k IH]; [done|]. simpl. destruct (String.eqb_spec st x) as [<-|Hn]; [by rewrite lookup_insert_eq|].
  rewrite lookup_insert_ne by done. exact IH.
Qed.

Lemma no_counts_lookup st : row_state st \/ st = ComplianceNotEvaluated -> no_counts !! st = Some 0.
Proof. by intros [[->|[->| ->]]| ->]. Qed.

Lemma counts_worst scope s st : Forall (fun r => row_state (dc_State r)) (vd_results s) -> row_state st \/ st = ComplianceNotEvaluated ->
  ComplianceCounts scope s !! st = Some (count_where (fun dev => String.eqb st (worst (states_of dev (vd_results s)))) (active_in scope s)).
Proof.
  intros Hs Hst. unfold ComplianceCounts. rewrite lookup_union, grouped_lookup, no_counts_lookup by done.
  assert (forall l, count_where (String.eqb st) (map (sql_overall (vd_results s)) l) =
    count_where (fun dev => String.eqb st (worst (states_of dev (vd_results s)))) l) as Hc.
  { unfold count_where. induction l as [|x l IH]; [done|]. simpl. rewrite sql_overall_worst by done. destruct (String.eqb st _); simpl; lia. }
  rewrite Hc. destruct (existsb (String.eqb st) _) eqn:E; [done|]. simpl. rewrite <- Hc. f_equal.
  unfold count_where. replace (List.filter _ _) with (@nil string); [done|]. symmetry. 
  rewrite existsb_none in E. induction (map (sql_overall (vd_results s)) (active_in scope s)) as [|x l IH]; [done|]. simpl.
  rewrite E by left. apply IH. intros y Hy. apply E. by right.
Qed.

(** ** One device's verdicts *)

(** What a device's evaluation may change. *)
Definition with_rows (rows : list DeviceCompliance) (statuses : list ItemStatus) (s : verdicts) : verdicts :=
  set_vd_results rows (set_vd_fleet (set_f_statuses statuses (vd_fleet s)) s).

Lemma with_rows_twice r1 t1 r2 t2 s : with_rows r2 t2 (with_rows r1 t1 s) = with_rows r2 t2 s.
Proof. done. Qed.
Lemma with_own_rows s : with_rows (vd_results s) (f_statuses (vd_fleet s)) s = s.
Proof. by destruct s as [[? ? ? [? [] ? ? ? ? ? ? ?]] ? ? ? ?]. Qed.

(** [Upsert]s and [put_status]s, by what is there afterwards. *)
Lemma put_over {A} (same : A -> A -> bool) x l :
  existsb (same x) l = true -> forall y, y ∈ update_where (same x) (fun _ => x) l <-> y = x \/ y ∈ l /\ same x y = false.
Proof.
  intros He%existsb_elem y. destruct He as (z & Hz & Hs). rewrite elem_of_update_where. split.
  - intros (w & Hw & ->). destruct (same x w) eqn:E; [by left|by right].
  - intros [->|[Hy Hn]]; [exists z; by rewrite Hs|exists y; by rewrite Hn].
Qed.

Lemma put_new {A} (same : A -> A -> bool) x l :
  existsb (same x) l = false -> forall y, y ∈ l ++ [x] <-> y = x \/ y ∈ l /\ same x y = false.
Proof.
  intros He y. rewrite existsb_none in He. rewrite elem_of_app, list_elem_of_singleton. split; [|tauto].
  intros [Hy|Hy]; [right; split; [done|by apply He]|by left].
Qed.

Lemma Upsert_rows r s :
  is_Some (sv_devices (vd_server s) !! dc_DeviceID r) -> existsb (policy_id (dc_PolicyID r)) (vd_policies s) = true ->
  exists rows, UpsertDeviceCompliance r s = (Ok tt, set_vd_results rows s) /\ forall y, y ∈ rows <-> y = r \/ y ∈ vd_results s /\ same_result r y = false.
Proof.
  intros Hd Hp. unfold UpsertDeviceCompliance. destruct (existsb (same_result r) _) eqn:E.
  - eexists. split; [done|]. by apply put_over.
  - rewrite bool_decide_eq_true_2, Hp by done. eexists. split; [done|]. by apply put_new.
Qed.

Lemma Status_rows (x : ItemStatus) d : is_Some (f_devices d !! st_DeviceID x) ->
  exists l, SetItemStatus x d = (Ok tt, set_f_statuses l d) /\ forall y, y ∈ l <-> y = x \/ y ∈ f_statuses d /\ same_status x y = false.
Proof.
  intros Hd. unfold SetItemStatus, put_status. destruct (existsb (same_status x) _) eqn:E.
  - eexists. split; [done|]. intros y. rewrite <- (put_over same_status x _ E). unfold update_where.
    rewrite (map_ext (fun o => if same_status x o && true then x else o) (fun o => if same_status x o then x else o)); [done|].
    intros o. by rewrite andb_true_r.
  - rewrite bool_decide_eq_true_2 by done. eexists. split; [done|]. by apply put_new.
Qed.

Lemma same_result_false a b : same_result a b = false <-> ~ (dc_DeviceID b = dc_DeviceID a /\ dc_PolicyID b = dc_PolicyID a).
Proof.
  unfold same_result. rewrite <- not_true_iff_false, andb_true_iff, !String.eqb_eq. split; intros H [E1 E2]; apply H; by split.
Qed.

Lemma same_status_false a b : same_status a b = false <->
  ~ (st_DeviceID b = st_DeviceID a /\ st_ItemKind b = st_ItemKind a /\ st_ItemID b = st_ItemID a).
Proof.
  unfold same_status. rewrite <- not_true_iff_false, !andb_true_iff, !String.eqb_eq. split; [intros H (E1 & E2 & E3)|intros H [[E1 E2] E3]]; apply H; by split_and!.
Qed.

Section Verdicts.
Context `{JT : JsonTime} (uuid_Parse : string -> option string) (uuid_bytes : string -> list Z).
Context (to_lower : string -> string) (format_date : time -> string).
Abbreviation score := (score uuid_Parse to_lower format_date).
Abbreviation score_each := (score_each uuid_Parse to_lower format_date).
Abbreviation EvaluateDevice := (EvaluateDevice uuid_Parse uuid_bytes to_lower format_date).

Definition policy_at (s : verdicts) (id : string) : option CompliancePolicy := find (policy_id id) (vd_policies s).

Lemma policy_at_exists s id p : policy_at s id = Some p -> existsb (policy_id id) (vd_policies s) = true.
Proof. intros [Hp Hi]%find_some. apply existsb_exists. by exists p. Qed.

(** What is judged, of some policies. *)
Definition judged (s : verdicts) (ids : list string) (id : string) (p : CompliancePolicy) : Prop := id ∈ ids /\ policy_at s id = Some p.

Lemma evaluateOne_at id f now s : evaluateOne uuid_Parse to_lower format_date id f now s =
  (match policy_at s id with Some p => Ok (score (cp_Rules p) f now, failures_json (re_Failures (score (cp_Rules p) f now))) | None => Err ErrNotFound end, s).
Proof. unfold evaluateOne, GetCompliancePolicy, tbind, pget, pfound. fold (policy_at s id). by destruct (policy_at s id). Qed.

(** A row or a status of the device that the loop has put or will put. *)
Definition touched (s : verdicts) (ids : list string) (id : string) : Prop := id ∈ ids /\ is_Some (policy_at s id).

Lemma score_each_rows now dev f ids s :
  is_Some (sv_devices (vd_server s) !! dev) -> is_Some (f_devices (vd_fleet s) !! dev) ->
  exists scored rows statuses, score_each now dev f ids s = (Ok scored, with_rows rows statuses s) /\
    (forall id, id ∈ scored <-> touched s ids id) /\
    (forall r, r ∈ rows <-> (exists id p, judged s ids id p /\ r = verdict_row now dev id (score (cp_Rules p) f now)) \/
       r ∈ vd_results s /\ ~ (dc_DeviceID r = dev /\ touched s ids (dc_PolicyID r))) /\
    (forall x, x ∈ statuses <-> (exists id p, judged s ids id p /\ x = verdict_status now dev id (score (cp_Rules p) f now)) \/
       x ∈ f_statuses (vd_fleet s) /\ ~ (st_DeviceID x = dev /\ st_ItemKind x = ItemKindCompliance /\ touched s ids (st_ItemID x))).
Proof.
  revert s. induction ids as [|id ids IH]; intros s Hd Hf; simpl.
  { exists [], (vd_results s), (f_statuses (vd_fleet s)). rewrite with_own_rows. split; [done|]. unfold touched, judged. split_and!.
    - intros i. split; [by intros ?%elem_of_nil|by intros [?%elem_of_nil _]].
    - intros r. split; [intros Hr; right; split; [done|by intros [_ [?%elem_of_nil _]]]|]. by intros [(? & ? & [?%elem_of_nil _] & _)|[? _]].
    - intros r. split; [intros Hr; right; split; [done|by intros (_ & _ & [?%elem_of_nil _])]|]. by intros [(? & ? & [?%elem_of_nil _] & _)|[? _]]. }
  unfold tbind at 1, tattempt. rewrite evaluateOne_at. destruct (policy_at s id) as [p|] eqn:Ep.
  2: { destruct (IH s Hd Hf) as (scored & rows & sts & -> & H1 & H2 & H3). exists scored, rows, sts. split; [done|].
    assert (forall i, touched s (id :: ids) i <-> touched s ids i) as Ht.
    { intros i. unfold touched. rewrite elem_of_cons. split; [|tauto]. intros [[->|?] [q Hq]]; [congruence|split; [done|by exists q]]. }
    assert (forall i q, judged s (id :: ids) i q <-> judged s ids i q) as Hj.
    { intros i q. unfold judged. rewrite elem_of_cons. split; [|tauto]. intros [[->|?] Hq]; [congruence|done]. }
    setoid_rewrite Ht. setoid_rewrite Hj. done. }
  set (v := score (cp_Rules p) f now).
  destruct (Upsert_rows (verdict_row now dev id v) s Hd (policy_at_exists _ _ _ Ep)) as (rows1 & Hu & Hrows1).
  set (s1 := set_vd_results rows1 s) in *.
  destruct (Status_rows (verdict_status now dev id v) (vd_fleet s1) Hf) as (sts1 & Hs & Hsts1).
  assert (exists s2, s2 = with_rows rows1 sts1 s /\ of_fleet (SetItemStatus (verdict_status now dev id v)) s1 = (Ok tt, s2)) as (s2 & Es2 & Hof).
  { eexists. split; [reflexivity|]. unfold of_fleet, zoom. simpl look. by rewrite Hs. }
  destruct (IH s2) as (scored & rows & sts & Hsc & H1 & H2 & H3); [by rewrite Es2|by rewrite Es2|].
  exists (id :: scored), rows, sts. split.
  { unfold tbind at 1, tmap_err. unfold verdict_row in Hu. rewrite Hu. unfold tbind at 1. fold v. rewrite Hof. unfold tbind. rewrite Hsc, Es2. done. }
  assert (forall i, policy_at s2 i = policy_at s i) as Hpol by (by rewrite Es2).
  assert (forall i, touched s2 ids i <-> touched s ids i) as Ht by (intros i; unfold touched; by rewrite Hpol).
  assert (forall i q, judged s2 ids i q <-> judged s ids i q) as Hj by (intros i q; unfold judged; by rewrite Hpol).
  assert (vd_results s2 = rows1 /\ f_statuses (vd_fleet s2) = sts1) as [Er Est] by (by rewrite Es2). rewrite Er in H2. rewrite Est in H3.
  setoid_rewrite Ht in H1. setoid_rewrite Ht in H2. setoid_rewrite Hj in H2. setoid_rewrite Ht in H3. setoid_rewrite Hj in H3.
  assert (forall i, touched s (id :: ids) i <-> i = id \/ touched s ids i) as Htc.
  { intros i. unfold touched. rewrite elem_of_cons. split; [intros [[->|?] ?]; [by left|by right]|]. intros [->|[? ?]]; [split; [by left|by eexists]|tauto]. }
  assert (forall i q, judged s (id :: ids) i q <-> (i = id /\ q = p) \/ judged s ids i q) as Hjc.
  { intros i q. unfold judged. rewrite elem_of_cons. split; [intros [[->|?] ?]; [left; split; congruence|by right]|]. intros [[-> ->]|[? ?]]; tauto. }
  split; [|split].
  - intros i. rewrite elem_of_cons, H1, Htc. done.
  - intros r. rewrite H2, Hrows1, Htc. setoid_rewrite Hjc. fold v.
    assert (same_result (verdict_row now dev id v) r = false <-> ~ (dc_DeviceID r = dev /\ dc_PolicyID r = id)) as Hsame.
    { apply same_result_false. }
    rewrite Hsame. split.
    + intros [(i & q & Hq & ->)|[[->|[Hr Hn]] Hnt]]; [left; exists i, q; tauto|left; exists id, p; tauto|right; tauto].
    + intros [(i & q & [[-> ->]|Hq] & ->)|[Hr Hn]]; [|left; by exists i, q|right; tauto].
      destruct (decide (touched s ids id)) as [[Hin [q Hq]]|Hnt]; [left; exists id, p; done|]. right. split; [by left|]. simpl. by intros [_ ?].
  - intros x. rewrite H3, Hsts1, Htc. setoid_rewrite Hjc. fold v.
    assert (same_status (verdict_status now dev id v) x = false <-> ~ (st_DeviceID x = dev /\ st_ItemKind x = ItemKindCompliance /\ st_ItemID x = id)) as Hsame.
    { apply same_status_false. }
    rewrite Hsame. split.
    + intros [(i & q & Hq & ->)|[[->|[Hr Hn]] Hnt]]; [left; exists i, q; tauto|left; exists id, p; tauto|right; tauto].
    + intros [(i & q & [[-> ->]|Hq] & ->)|[Hr Hn]]; [|left; by exists i, q|right; tauto].
      destruct (decide (touched s ids id)) as [[Hin [q Hq]]|Hnt]; [left; exists id, p; done|]. right. split; [by left|]. simpl. by intros (_ & _ & ?).
Qed.

Lemma policy_ids_in items id : id ∈ policy_ids items <-> exists it, it ∈ items /\ ei_Kind it = ItemKindCompliance /\ ei_ID it = id.
Proof.
  unfold policy_ids. rewrite list_elem_of_fmap. setoid_rewrite elem_of_filterb. setoid_rewrite String.eqb_eq. naive_solver.
Qed.

(** Forgetting the rest leaves the rows of the others and of what is kept. *)
Lemma forget_others_rows dev keep s :
  exists rows statuses, forget_others dev keep s = (Ok tt, with_rows rows statuses s) /\
    (forall r, r ∈ rows <-> r ∈ vd_results s /\ ~ (dc_DeviceID r = dev /\ dc_PolicyID r ∉ keep)) /\
    (forall x, x ∈ statuses <-> x ∈ f_statuses (vd_fleet s) /\ ~ (st_DeviceID x = dev /\ st_ItemKind x = ItemKindCompliance /\ st_ItemID x ∉ keep)).
Proof.
  eexists (List.filter _ _), (List.filter _ _). split; [reflexivity|]. split.
  - intros r. rewrite elem_of_filterb, negb_true_iff, <- not_true_iff_false, andb_true_iff, String.eqb_eq, negb_true_iff, <- not_true_iff_false, existsb_eq_elem. done.
  - intros x. simpl. rewrite elem_of_filterb, negb_true_iff, <- not_true_iff_false, !andb_true_iff, !String.eqb_eq, negb_true_iff, <- not_true_iff_false, existsb_eq_elem.
    naive_solver.
Qed.

Lemma fleet_read {E A} (f : fdb -> A) s : (of_fleet (fget f) : ptx E A) s = (Ok (f (vd_fleet s)), s).
Proof. by destruct s as [[? ? ? [? [] ? ? ? ? ? ? ?]] ? ? ? ?]. Qed.

Lemma GetDevice_at dev s d : sv_devices (vd_server s) !! dev = Some d ->
  tmap_err ComplianceStore (of_server (Devices.GetDevice dev)) s = (Ok d, s).
Proof.
  intros Hd. unfold tmap_err, of_server, zoom, Devices.GetDevice, tbind, vget, vfound. simpl. rewrite Hd. by destruct s.
Qed.

Lemma buildFacts_read dev d s : (buildFacts dev d s).2 = s.
Proof.
  unfold buildFacts, tbind at 1, pget. unfold tbind at 1, lift_result.
  destruct (vd_inventory s !! dev) as [row|]; [destruct (decode_inventory (in_Data row))|]; simpl; try done; by destruct s as [[? ? ? [? [] ? ? ? ? ? ? ?]] ? ? ? ?].
Qed.

(** C13. Evaluating a device that is there and whose inventory can be read always
    succeeds, whatever its policies say. Afterwards it has exactly one verdict
    for every policy that is in effect for it and exists, which is what the
    policy's rules say of its facts, or unknown where they can not be read;
    the status of the item says the same; what there was of other policies is
    gone, and nothing else has changed. *)
Theorem devices_are_judged_by_their_policies now dev s d items facts :
  sv_devices (vd_server s) !! dev = Some d -> is_Some (f_devices (vd_fleet s) !! dev) ->
  EffectiveItems uuid_bytes dev now (vd_fleet s) = Some items -> buildFacts dev d s = (Ok facts, s) ->
  let in_effect id p := (exists it, it ∈ items /\ ei_Kind it = ItemKindCompliance /\ ei_ID it = id) /\ policy_at s id = Some p in
  exists rows statuses, EvaluateDevice now dev s = (Ok tt, with_rows rows statuses s) /\
    (forall r, r ∈ rows <-> (exists id p, in_effect id p /\ r = verdict_row now dev id (score (cp_Rules p) facts now)) \/
       r ∈ vd_results s /\ dc_DeviceID r <> dev) /\
    (forall x, x ∈ statuses <-> (exists id p, in_effect id p /\ x = verdict_status now dev id (score (cp_Rules p) facts now)) \/
       x ∈ f_statuses (vd_fleet s) /\ ~ (st_DeviceID x = dev /\ st_ItemKind x = ItemKindCompliance)).
Proof.
  intros Hd Hf Hi Hfacts in_effect.
  assert (forall id p, in_effect id p <-> judged s (policy_ids items) id p) as Hj by (intros; unfold in_effect, judged; by rewrite policy_ids_in).
  assert (exists rows statuses, (match policy_ids items with [] => forget_others dev []
    | ids => let* facts := buildFacts dev d in let* scored := score_each now dev facts ids in forget_others dev scored end) s = (Ok tt, with_rows rows statuses s) /\
    (forall r, r ∈ rows <-> (exists id p, judged s (policy_ids items) id p /\ r = verdict_row now dev id (score (cp_Rules p) facts now)) \/
       r ∈ vd_results s /\ dc_DeviceID r <> dev) /\
    (forall x, x ∈ statuses <-> (exists id p, judged s (policy_ids items) id p /\ x = verdict_status now dev id (score (cp_Rules p) facts now)) \/
       x ∈ f_statuses (vd_fleet s) /\ ~ (st_DeviceID x = dev /\ st_ItemKind x = ItemKindCompliance))) as (rows & sts & He & Hr & Hs).
  2: { exists rows, sts. setoid_rewrite Hj. split; [|done]. unfold ComplianceService.EvaluateDevice. apply InTx_Ok.
    unfold tbind at 1. rewrite (GetDevice_at _ _ _ Hd). unfold tbind at 1. rewrite fleet_read, Hi. exact He. }
  clear Hi. assert ((exists ids, ids = policy_ids items /\ ids = []) \/ policy_ids items <> []) as [(ids & <- & ->)|Hne] by (destruct (policy_ids items); [left; by eexists|by right]).
  - destruct (forget_others_rows dev [] s) as (rows & sts & E & Hr & Hs). exists rows, sts. split; [exact E|]. split.
    + intros r. rewrite Hr. split; [intros [? Hn]; right; split; [done|intros E1; apply Hn; split; [done|by intros ?%elem_of_nil]]|].
      intros [(? & ? & [?%elem_of_nil _] & _)|[? Hn]]; [done|]. split; [done|by intros [? _]].
    + intros x. rewrite Hs. split; [intros [? Hn]; right; split; [done|intros [E1 E2]; apply Hn; split_and!; [done|done|by intros ?%elem_of_nil]]|].
      intros [(? & ? & [?%elem_of_nil _] & _)|[? Hn]]; [done|]. split; [done|intros (? & ? & _); by apply Hn].
  - destruct (score_each_rows now dev facts (policy_ids items) s) as (scored & rows & sts & Hsc & H1 & H2 & H3); [by eexists|done|].
    destruct (forget_others_rows dev scored (with_rows rows sts s)) as (rows' & sts' & E & Hr & Hs). exists rows', sts'. split.
    + destruct (policy_ids items) as [|id ids]; [done|]. unfold tbind at 1. rewrite Hfacts. unfold tbind. rewrite Hsc, E. by rewrite with_rows_twice.
    + assert (forall id p, judged s (policy_ids items) id p -> id ∈ scored) as Hin by (intros id p [? ?]; apply H1; split; [done|by eexists]).
      assert (forall id, id ∉ scored <-> ~ touched s (policy_ids items) id) as Hnot by (intros id; by rewrite H1).
      split.
      * intros r. rewrite Hr. simpl vd_results. rewrite H2, Hnot. split.
        -- intros [[Hx|[Hx Hn]] Hk]; [by left|]. right. split; [done|]. intros Edev. apply Hk. split; [done|]. intros Ht. by apply Hn.
        -- intros [(id & p & Hx & ->)|[Hx Hn]]; [|split; [right; split; [done|by intros [? _]]|by intros [? _]]].
           split; [left; by exists id, p|]. simpl. intros [_ Hk]. apply Hk. apply H1. by eapply Hin.
      * intros x. rewrite Hs. change (f_statuses (vd_fleet (with_rows rows sts s))) with sts. rewrite H3, Hnot. split.
        -- intros [[Hx|[Hx Hn]] Hk]; [by left|]. right. split; [done|]. intros [Edev Ek]. apply Hk. split; [done|]. split; [done|]. intros Ht. by apply Hn.
        -- intros [(id & p & Hx & ->)|[Hx Hn]]; [|split; [right; split; [done|intros (? & ? & _); by apply Hn]|intros (? & ? & _); by apply Hn]].
           split; [left; by exists id, p|]. simpl. intros (_ & _ & Hk). apply Hk. apply H1. by eapply Hin.
Qed.
End Verdicts.

(** ** Histories *)

Lemma filter_same {A} (p q : A -> bool) l : (forall x, x ∈ l -> p x = q x) -> List.filter p l = List.filter q l.
Proof.
  intros H. induction l as [|x l IH]; [done|]. simpl. rewrite (H x) by left. rewrite IH; [done|]. intros y Hy. apply H. by right.
Qed.

(** Policies and verdicts are consistent. *)
Record judged_well (s : verdicts) : Prop := {
  jw_ids : NoDup (map cp_ID (vd_policies s));
  jw_names : NoDup (map cp_Name (vd_policies s));
  jw_once : NoDup (map (fun r => (dc_DeviceID r, dc_PolicyID r)) (vd_results s));
  jw_states : Forall (fun r => row_state (dc_State r)) (vd_results s);
  jw_policy r : r ∈ vd_results s -> exists p, p ∈ vd_policies s /\ cp_ID p = dc_PolicyID r }.

Definition keeps_judged : relation verdicts := fun s s' => judged_well s -> judged_well s'.
#[export] Instance keeps_judged_preorder : PreOrder keeps_judged.
Proof. split; [intros s Hs; exact Hs|]. intros a b c H1 H2 H. exact (H2 (H1 H)). Qed.

Definition judgements (s : verdicts) : list CompliancePolicy * list DeviceCompliance := (vd_policies s, vd_results s).

Lemma judged_same s s' : judgements s' = judgements s -> keeps_judged s s'.
Proof. unfold judgements. intros [= H1 H2] [A B C D E]. split; rewrite ?H1, ?H2; done. Qed.

Lemma of_fleet_judged {E A} (m : ftx E A) : tkeeps keeps_judged (of_fleet m).
Proof. intros s. apply judged_same. unfold of_fleet, zoom. by destruct (m _). Qed.
Lemma of_server_judged {E A} (m : vtx E A) : tkeeps keeps_judged (of_server m).
Proof. intros s. apply judged_same. unfold of_server, zoom. by destruct (m _). Qed.
Lemma pget_judged {E A} (f : verdicts -> A) : tkeeps keeps_judged (pget f : ptx E A).
Proof. intros s. by apply judged_same. Qed.
Lemma pfound_judged {E A} (e : E) (o : option A) : tkeeps keeps_judged (pfound e o).
Proof. intros s. by destruct o. Qed.
#[export] Hint Resolve of_fleet_judged of_server_judged pget_judged pfound_judged : frames.

Lemma GetCompliancePolicy_judged id : tkeeps keeps_judged (GetCompliancePolicy id).
Proof. unfold GetCompliancePolicy. frames. Qed.
#[export] Hint Resolve GetCompliancePolicy_judged : frames.

Lemma CreateCompliancePolicy_judged p : tkeeps keeps_judged (CreateCompliancePolicy p).
Proof.
  intros s. unfold CreateCompliancePolicy. destruct (existsb _ _ || _) eqn:E; [by intros ?|]. apply orb_false_iff in E as [E1 E2].
  rewrite existsb_none in E1, E2. intros [A B C D F]. split; simpl; try done.
  - rewrite map_app. apply NoDup_app. split; [done|]. split; [|by apply NoDup_singleton]. intros x (q & -> & Hq)%list_elem_of_fmap Hx%list_elem_of_singleton.
    specialize (E1 q Hq). by apply String.eqb_neq in E1.
  - rewrite map_app. apply NoDup_app. split; [done|]. split; [|by apply NoDup_singleton]. intros x (q & -> & Hq)%list_elem_of_fmap Hx%list_elem_of_singleton.
    specialize (E2 q Hq). by apply String.eqb_neq in E2.
  - intros r Hr. destruct (F r Hr) as (q & Hq & Ei). exists q. split; [apply elem_of_app; by left|done].
Qed.

Lemma edited_names p l : NoDup (map cp_ID l) -> NoDup (map cp_Name l) ->
  (forall o, o ∈ l -> policy_id (cp_ID p) o = false -> cp_Name o <> cp_Name p) -> NoDup (map cp_Name (update_where (policy_id (cp_ID p)) (edited p) l)).
Proof.
  intros Hi Hn Ho. induction l as [|o l IH]; [constructor|]. simpl in *. apply NoDup_cons in Hi as [Hi1 Hi2]. apply NoDup_cons in Hn as [Hn1 Hn2].
  apply NoDup_cons. split; [|apply IH; [done|done|intros q Hq; apply Ho; by right]].
  intros (q & Eq & (w & Hw & ->)%elem_of_update_where)%list_elem_of_fmap. destruct (policy_id (cp_ID p) o) eqn:Eo.
  - simpl in Eq. destruct (policy_id (cp_ID p) w) eqn:Ew.
    + apply String.eqb_eq in Eo, Ew. apply Hi1. apply list_elem_of_fmap. exists w. split; [congruence|done].
    + by apply (Ho w); [right|..].
  - destruct (policy_id (cp_ID p) w) eqn:Ew.
    + simpl in Eq. by apply (Ho o); [left|..].
    + apply Hn1. apply list_elem_of_fmap. by exists w.
Qed.

Lemma UpdateCompliancePolicy_judged p : tkeeps keeps_judged (UpdateCompliancePolicy p).
Proof.
  intros s. unfold UpdateCompliancePolicy. destruct (existsb _ _ && _) eqn:E; [by intros ?|]. intros [A B C D F].
  assert (forall o, o ∈ vd_policies s -> o ∈ vd_policies s /\ cp_ID (if policy_id (cp_ID p) o then edited p o else o) = cp_ID o) as Hid by (intros o ?; by case_match).
  split; simpl; try done.
  - rewrite update_where_map; [done|]. done.
  - apply andb_false_iff in E as [E|E]; rewrite existsb_none in E.
    + rewrite update_where_none; [done|]. exact E.
    + apply edited_names; [done|done|]. intros o Ho Hne Heq. specialize (E o Ho). unfold policy_name in E. rewrite Heq, String.eqb_refl, Hne in E. done.
  - intros r Hr. destruct (F r Hr) as (q & Hq & Ei). eexists. split; [by apply (update_where_in (policy_id (cp_ID p)) (edited p))|].
    by rewrite (proj2 (Hid q Hq)).
Qed.

Lemma DeleteComplianceForPolicy_judged id : tkeeps keeps_judged (DeleteComplianceForPolicy id).
Proof.
  intros s [A B C D F]. split; simpl; try done.
  - by apply NoDup_map_filter.
  - rewrite Forall_forall in *. intros r [Hr _]%elem_of_filterb. by apply D.
  - intros r [Hr _]%elem_of_filterb. by apply F.
Qed.

Lemma DeleteCompliancePolicy_judged id : tkeeps keeps_judged (DeleteCompliancePolicy id).
Proof.
  intros s [A B C D F]. split; simpl.
  - by apply NoDup_map_filter.
  - by apply NoDup_map_filter.
  - by apply NoDup_map_filter.
  - rewrite Forall_forall in *. intros r [Hr _]%elem_of_filterb. by apply D.
  - intros r [Hr Hn]%elem_of_filterb. destruct (F r Hr) as (p & Hp & Ei). exists p. split; [|done]. apply elem_of_filterb. split; [done|].
    unfold of_policy_, policy_id in *. by rewrite Ei.
Qed.

Lemma UpsertDeviceCompliance_judged r : row_state (dc_State r) -> tkeeps keeps_judged (UpsertDeviceCompliance r).
Proof.
  intros Hst s. unfold UpsertDeviceCompliance. destruct (existsb (same_result r) _) eqn:E; [|destruct (bool_decide _ && _) eqn:Ep; [|by intros ?]].
  - intros [A B C D F]. rewrite Forall_forall in D. split; simpl; try done.
    + replace (map _ (update_where _ _ _)) with (map (fun x => (dc_DeviceID x, dc_PolicyID x)) (vd_results s)); [done|].
      unfold update_where. rewrite map_map. apply map_ext. intros x. destruct (same_result r x) eqn:Ex; [|done].
      apply andb_prop in Ex as [->%String.eqb_eq ->%String.eqb_eq]. done.
    + apply Forall_forall. intros x (y & Hy & ->)%elem_of_update_where. case_match; [done|by apply D].
    + intros x (y & Hy & ->)%elem_of_update_where. destruct (F y Hy) as (p & Hp & Ei). exists p. split; [done|].
      destruct (same_result r y) eqn:Ex; [|done]. apply andb_prop in Ex as [_ Ex%String.eqb_eq]. congruence.
  - apply andb_prop in Ep as [_ Hp]. intros [A B C D F]. rewrite existsb_none in E. split; simpl; try done.
    + rewrite map_app. apply NoDup_app. split; [done|]. split; [|by apply NoDup_singleton]. intros x (y & -> & Hy)%list_elem_of_fmap [= Hd Hpo]%list_elem_of_singleton.
      specialize (E y Hy). unfold same_result in E. by rewrite Hd, Hpo, !String.eqb_refl in E.
    + apply Forall_app. split; [done|]. by constructor.
    + intros x [Hx| ->%list_elem_of_singleton]%elem_of_app; [by apply F|]. apply existsb_exists in Hp as (p & Hp%list_elem_of_In & Ei%String.eqb_eq). by exists p.
Qed.

Lemma DeleteDeviceComplianceExcept_judged dev keep : tkeeps keeps_judged (DeleteDeviceComplianceExcept dev keep).
Proof.
  intros s [A B C D F]. split; simpl; try done.
  - by apply NoDup_map_filter.
  - rewrite Forall_forall in *. intros r [Hr _]%elem_of_filterb. by apply D.
  - intros r [Hr _]%elem_of_filterb. by apply F.
Qed.
#[export] Hint Resolve CreateCompliancePolicy_judged UpdateCompliancePolicy_judged DeleteComplianceForPolicy_judged DeleteCompliancePolicy_judged
  DeleteDeviceComplianceExcept_judged : frames.

Section Histories.
Context `{JT : JsonTime} (uuid_Parse : string -> option string) (uuid_bytes : string -> list Z).
Context (to_lower : string -> string) (format_date : time -> string).

Lemma score_state rules f now : row_state (re_State (score uuid_Parse to_lower format_date rules f now)).
Proof. unfold score, row_state. destruct (ParseRules _ _); [|simpl; auto]. unfold Evaluate. simpl. repeat case_match; auto. Qed.

Lemma score_each_judged now dev f ids : tkeeps keeps_judged (score_each uuid_Parse to_lower format_date now dev f ids).
Proof.
  induction ids as [|id ids IH]; simpl; [frames|].
  eapply (keeps_bind_with keeps_judged (fun r : result store_error (Compliance.Result * json) => match r with Ok x => row_state (re_State x.1) | Err _ => True end)).
  - apply keeps_attempt. unfold evaluateOne. frames.
  - intros s r s' H. unfold tattempt in H. rewrite evaluateOne_at in H. destruct (policy_at s id); injection H as <- _; [|done]. apply score_state.
  - intros [[r failures]|[]] Hr; [|frames..]. eapply keeps_bind; [typeclasses eauto| |intros _].
    + apply keeps_map_err. by apply UpsertDeviceCompliance_judged.
    + frames.
Qed.

Lemma EvaluateDevice_judged now dev : tkeeps keeps_judged (EvaluateDevice uuid_Parse uuid_bytes to_lower format_date now dev).
Proof.
  unfold EvaluateDevice, forget_others, buildFacts. eapply keeps_InTx; [typeclasses eauto|]. eapply keeps_bind; [typeclasses eauto| |intros d]; [frames|].
  eapply keeps_bind; [typeclasses eauto| |intros [items|]]; [frames| |frames]. destruct (policy_ids items) as [|id ids]; [frames|].
  eapply keeps_bind; [typeclasses eauto| |intros facts]; [frames|]. eapply keeps_bind; [typeclasses eauto| |intros scored; frames]. apply score_each_judged.
Qed.

Lemma evaluate_each_judged clock alive i ids d f : tkeeps keeps_judged (evaluate_each uuid_Parse uuid_bytes to_lower format_date clock alive i ids d f).
Proof.
  revert i d f. induction ids as [|id ids IH]; intros i d f; simpl; [frames|]. destruct (negb _); [frames|].
  eapply keeps_bind; [typeclasses eauto| |intros [?|?]; apply IH]. apply keeps_attempt, EvaluateDevice_judged.
Qed.

Inductive compliance_op :=
| CreatePolicyOp (new_id : string) (now : time) (i : NewPolicy)
| UpdatePolicyOp (now : time) (id : string) (i : NewPolicy)
| DeletePolicyOp (id actor : string)
| EvaluateOp (now : time) (deviceID : string)
| StartPassOp (id : string)
| RunPassOp (clock : nat -> time) (alive : nat -> bool) (duration id actor : string) (ids : list string)
| SweepOp (clock : nat -> time).

Definition judge (o : compliance_op) (s : verdicts) : verdicts :=
  match o with
  | CreatePolicyOp new_id now i => (CreatePolicy uuid_Parse new_id now i s).2
  | UpdatePolicyOp now id i => (UpdatePolicy uuid_Parse now id i s).2
  | DeletePolicyOp id actor => (DeletePolicy id actor s).2
  | EvaluateOp now dev => (EvaluateDevice uuid_Parse uuid_bytes to_lower format_date now dev s).2
  | StartPassOp id => (StartPolicyEvaluation id s).2
  | RunPassOp clock alive duration id actor ids =>
      (runPolicyEvaluation uuid_Parse uuid_bytes to_lower format_date clock alive duration id actor ids s).2
  | SweepOp clock => (EvaluateActive uuid_Parse uuid_bytes to_lower format_date clock s).2
  end.

Definition judge_all (l : list compliance_op) (s : verdicts) : verdicts := fold_left (fun s o => judge o s) l s.

Lemma judge_well o s : judged_well s -> judged_well (judge o s).
Proof.
  assert (forall E (f : verdicts -> verdicts), (forall x, judgements (f x) = judgements x) -> tkeeps keeps_judged (pset f : ptx E unit)) as Hset
    by (intros E f Hf x; apply judged_same, Hf).
  destruct o; simpl.
  - apply (fun H : tkeeps keeps_judged _ => H s). unfold CreatePolicy. frames.
  - apply (fun H : tkeeps keeps_judged _ => H s). unfold UpdatePolicy. frames.
  - apply (fun H : tkeeps keeps_judged _ => H s). unfold DeletePolicy. frames.
  - by apply EvaluateDevice_judged.
  - apply (fun H : tkeeps keeps_judged _ => H s). unfold StartPolicyEvaluation. frames.
  - apply (fun H : tkeeps keeps_judged _ => H s). unfold runPolicyEvaluation. eapply keeps_bind; [typeclasses eauto|apply evaluate_each_judged|intros [d f]].
    eapply keeps_bind; [typeclasses eauto|frames|intros _; by apply Hset].
  - apply (fun H : tkeeps keeps_judged _ => H s). unfold EvaluateActive. eapply keeps_bind; [typeclasses eauto|frames|intros ids].
    eapply keeps_bind; [typeclasses eauto|apply evaluate_each_judged|intros [d f]; frames].
Qed.

(** C24. Whatever is done with policies and however often devices are evaluated,
    names, ids and verdicts stay unique and every verdict is of a policy that is
    there; a device's overall state is the worst of its verdicts, and the counts
    of the dashboard, which the database adds up by itself, are how many active
    devices the caller may see are in each overall state. *)
Theorem overview_tells_the_verdicts ops s scope :
  judged_well s ->
  let s' := judge_all ops s in
  judged_well s' /\
  (forall ids dev, dev ∈ ids -> ComplianceOverall ids s' !! dev = Some (worst (states_of dev (vd_results s')))) /\
  forall st, row_state st \/ st = ComplianceNotEvaluated ->
    ComplianceCounts scope s' !! st =
      Some (count_where (fun dev => bool_decide (ComplianceOverall (active_in scope s') s' !! dev = Some st)) (active_in scope s')).
Proof.
  intros Hw. assert (forall l x, judged_well x -> judged_well (judge_all l x)) as Hall.
  { induction l as [|o l IH]; intros x Hx; [done|]. by apply IH, judge_well. }
  specialize (Hall ops s Hw). cbv zeta. set (s' := judge_all ops s) in *. split; [done|]. pose proof (jw_states _ Hall) as Hs.
  split; [intros ids dev Hin; by apply overall_worst|]. intros st Hst. rewrite counts_worst by done. f_equal. unfold count_where. do 2 f_equal.
  apply filter_same. intros dev Hin. rewrite overall_worst by done.
  destruct (String.eqb_spec st (worst (states_of dev (vd_results s')))) as [->|Hn]; symmetry; [by apply bool_decide_eq_true|].
  apply bool_decide_eq_false. congruence.
Qed.
End Histories.
