(* ===== verification/EntryExamples.v ===== *)
(** * One server, and devices that come to it

    The theorems on who gets in, on agent builds and on what devices are
    answered, on a concrete history: an invitation for registered devices only,
    good for one use; then a build and a script for the machine that came; and
    what the code does that it does not mean to. At the end, two compliance
    policies and the verdicts on two machines. *)
From S2P Require Import Settings Secrets SettingsProps Payload AuthStore Access.
From S2P Require Import Scripts AppSync.
From S2P Require Export ComplianceService.
From S2P Require Export EnrollLife AgentApi AdminExamples.
From S2P Require Export FleetStore.
Open Scope Z_scope.
Open Scope go_scope.

Module Gate.
Export Office.

#[export] Instance authority : Authority := {|
  ParseCertificateRequest bytes := if HasPrefix bytes "key" then Some (mkCSR bytes true true) else None;
  CreateCertificate t key := Some (tm_CommonName t ++ "/" ++ Itoa (tm_SerialNumber t))%string;
  pem_Encode typ bytes := (typ ++ ":" ++ bytes ++ String LF EmptyString)%string;
  ca_Raw := "ca" |}.

Definition csr_pem : string := pem_Encode "CERTIFICATE REQUEST" "key1".
Definition rand1 : string := "0123456789abcdef0123456789abcdef".

Definition env (now : time) (prefix : string) (serial : Z) : Env :=
  mkEnv now (fun n => (prefix ++ Itoa (Z.of_nat n))%string) serial (Some rand1).
Definition cert (id : string) (serial : Z) : result cert_failure (option Certificate) := Ok (Some (mkCertificate serial id "der")).

Definition invite : createTokenRequest := mkCreateToken "desk" (Some 1) 24 true.
Definition plain : string := (tokenPrefix ++ EncodeToString URL rand1)%string.
Definition arrives (serial : string) : EnrollRequest := mkEnrollRequest plain csr_pem (mkFacts "PC-1" serial EmptyString "10").
Definition known_pc : registrationRequest := mkRegistrationRequest "sn-1" "DESK-1" ["g1"%string] EmptyString.

Definition staff_and_all : fdb :=
  mkFdb {[ BuiltinGroupID := mkGroupRow "All devices" EmptyString GroupBuiltin EmptyString 0 0 None [];
           "g1"%string := mkGroupRow "Staff" EmptyString GroupStatic EmptyString 0 0 None [] ]} ∅ ∅ [] [] [] None [] [] 0 0.
Definition empty : server := mkServer ∅ [] [] (set_w_fleet staff_and_all (set_w_commands (mkDB ∅ [] [] [] [] []) start)).
Definition validity : duration := 90 * 24 * Hour.

Definition setup : list (Env * entry_request) :=
  [(env 100 "t" 0, CreateTokenReq "alice" invite); (env 110 "r" 0, RegisterReq "alice" known_pc)].
Definition enrolling : list (Env * entry_request) :=
  setup ++ [(env 120 "x" 500, EnrollReq (arrives "SN-9")); (env 130 "d" 1000, EnrollReq (arrives "SN-1")); (env 140 "e" 1001, EnrollReq (arrives "SN-1"))].
Definition alone (s : server) : entrance := mkEntrance s [].
Definition run (hist : list (Env * entry_request)) (s : server) : entrance := enter_all uuid_Parse validity hist (alone s).
Definition enrolled : server := en_server (run enrolling empty).

(** A device's requests that nothing overtakes. *)
Definition contact (v : Env) (leaf : result cert_failure (option Certificate)) : list (Env * entry_request) :=
  [(v, AdmitReq leaf); (v, ClearReq 0); (v, LeaveReq 0)].
Definition renewal (v : Env) (leaf : result cert_failure (option Certificate)) : list (Env * entry_request) :=
  [(v, AdmitReq leaf); (v, ClearReq 0); (v, RenewReq 0 csr_pem)].
(** What somebody who comes with this certificate is told. *)
Definition told (leaf : result cert_failure (option Certificate)) (s : server) : option response :=
  (entered uuid_Parse validity (env 240 "w" 0) (AdmitReq leaf) (alone s)).1.
End Gate.
Import Gate.

(** An unknown machine is turned away, the known one joins its group and is
    told its name, and the second use of the token is one too many. *)
Example enrolling_works :
  map fst (map_to_list (sv_devices enrolled)) = ["d0"%string] /\
  map et_UseCount (sv_tokens enrolled) = [1] /\
  (g_Members <$> f_groups (w_fleet (sv_world enrolled)) !! "g1"%string) = Some ["d0"%string] /\
  map (fun c => (c_DeviceID c, c_Type c)) (t_commands (w_commands (sv_world enrolled))) = [("d0"%string, CommandRenameComputer)] /\
  (entered uuid_Parse validity (env 120 "x" 500) (EnrollReq (arrives "SN-9")) (run setup empty)).1 = Some (Rejected 403 "enrollment_token_invalid").
Proof. split_and!; vm_compute; reflexivity. Qed.

Lemma empty_booked : booked empty.
Proof.
  split; simpl; try (intros; set_solver).
  - constructor.
  - intros id [d Hd]. by rewrite lookup_empty in Hd.
Qed.

Lemma enrolment_is_by_invitation_witness :
  booked empty /\ booked enrolled /\ map et_UseCount (sv_tokens enrolled) = [1] /\ length (enrolments enrolled) = 1%nat.
Proof.
  split; [exact empty_booked|]. split; [|split; vm_compute; reflexivity].
  exact (proj1 (enrolment_is_by_invitation uuid_Parse validity enrolling (alone empty) empty_booked)).
Defined.

(** ** Renewals *)

Definition renewing : list (Env * entry_request) := renewal (env 200 "w" 1002) (cert "d0" 1000) ++ renewal (env 210 "w" 1003) (cert "d0" 1000).
Definition renewed : server := en_server (run renewing enrolled).
Definition used (n : Z) (s : server) : server := en_server (run (contact (env 220 "w" 0) (cert "d0" n)) s).

(** The first answer was lost; the device asks again with what it has, and
    then uses what it got. *)
Example a_lost_answer_costs_nothing :
  (dv_CertSerial <$> sv_devices renewed !! "d0"%string) = Some "3eb"%string /\ (dv_PrevCertSerial <$> sv_devices renewed !! "d0"%string) = Some "3e8"%string /\
  told (cert "d0" 1003) renewed = None /\ told (cert "d0" 1002) renewed = Some (Rejected 401 "device_not_active") /\
  told (cert "d0" 1000) (used 1003 renewed) = Some (Rejected 401 "device_not_active").
Proof. split_and!; vm_compute; reflexivity. Qed.

Lemma devices_speak_with_their_certificate_witness :
  shows uuid_Parse (cert "d0" 1000) "d0" "3e8" /\
  forall y, accepts (sv_devices (answered (renew_alone uuid_Parse validity (env 200 "w" 1002) (cert "d0" 1000) csr_pem) enrolled).2) "d0" y
    <-> y = "3e8"%string \/ y = Text16 1002.
Proof.
  assert (shows uuid_Parse (cert "d0" 1000) "d0" "3e8") as Hs by (eexists; split_and!; reflexivity).
  split; [exact Hs|]. intros y.
  destruct (devices_speak_with_their_certificate uuid_Parse validity (env 200 "w" 1002) (cert "d0" 1000) csr_pem enrolled "d0" "3e8" Hs) as [_ H].
  destruct (answered (renew_alone uuid_Parse validity (env 200 "w" 1002) (cert "d0" 1000) csr_pem) enrolled) as [[[status code|a|st]|] s'] eqn:E;
    [vm_compute in E; discriminate E..| |vm_compute in E; discriminate E]. exact (proj2 H y).
Defined.

(** Two renewals with one certificate, the steps of the second between those
    of the first. *)
Definition crossing : list (Env * entry_request) :=
  let ask v := (v, AdmitReq (cert "d0" 1000)) in
  [ask (env 200 "w" 1002); ask (env 201 "w" 1003); (env 202 "w" 1003, RenewReq 1 csr_pem); (env 203 "w" 1002, RenewReq 0 csr_pem)].

Lemma certificates_follow_their_device_witness :
  (dv_CertSerial <$> sv_devices (en_server (run crossing enrolled)) !! "d0"%string) = Some "3ea"%string /\
  accepts (sv_devices enrolled) "d0" "3e8" /\ accepts (sv_devices (en_server (run crossing enrolled))) "d0" "3e8".
Proof.
  assert (accepts (sv_devices enrolled) "d0" "3e8") as Ha by (eexists; split_and!; vm_compute; reflexivity).
  split; [vm_compute; reflexivity|]. split; [exact Ha|].
  apply (proj2 (proj2 (certificates_follow_their_device uuid_Parse validity crossing (alone enrolled) "d0" "3e8")));
    [exact Ha|discriminate|intros w Hw; by apply elem_of_nil in Hw|vm_compute; reflexivity|].
  intros v r Hin. apply list_elem_of_In in Hin. destruct Hin as [[= <- <-]|[[= <- <-]|[[= <- <-]|[[= <- <-]|[]]]]]; (split; [|by intros]).
  all: intros leaf y [=]; subst; intros (c & [= <-] & _ & ->); reflexivity.
Defined.

(** A renewal and another request at once: the first is let in with the old
    certificate, then the new one is used, which ends the old; the renewal goes
    on all the same, brings the old one back and ends the one in use. *)
Definition overtaking : list (Env * entry_request) :=
  [(env 215 "w" 0, AdmitReq (cert "d0" 1000)); (env 220 "w" 0, AdmitReq (cert "d0" 1003)); (env 220 "w" 0, ClearReq 1); (env 221 "w" 0, LeaveReq 1);
   (env 230 "w" 1004, RenewReq 0 csr_pem)].

Example an_overtaken_renewal_revives_a_certificate :
  told (cert "d0" 1000) (en_server (run (take 4 overtaking) renewed)) = Some (Rejected 401 "device_not_active") /\
  told (cert "d0" 1000) (en_server (run overtaking renewed)) = None /\
  told (cert "d0" 1003) (en_server (run overtaking renewed)) = Some (Rejected 401 "device_not_active").
Proof. split_and!; vm_compute; reflexivity. Qed.

(** Two requests with the newest certificate are let in at once, and both are
    to end the one before. The second is a renewal, and is done first; then the
    first ends the very certificate that asked. If the answer to the renewal is
    lost, the device is locked out. *)
Definition late : list (Env * entry_request) :=
  [(env 220 "w" 0, AdmitReq (cert "d0" 1003)); (env 221 "w" 0, AdmitReq (cert "d0" 1003)); (env 221 "w" 0, ClearReq 1);
   (env 222 "w" 1004, RenewReq 1 csr_pem); (env 223 "w" 0, ClearReq 0)].

Example a_late_clear_locks_a_device_out :
  told (cert "d0" 1003) (en_server (run (take 4 late) renewed)) = None /\
  told (cert "d0" 1003) (en_server (run late renewed)) = Some (Rejected 401 "device_not_active") /\
  in_time uuid_Parse validity late (alone renewed) = false.
Proof. split_and!; vm_compute; reflexivity. Qed.

(** A token asked to expire in minus one hours never does. *)
Example a_negative_lifetime_is_none : to_ExpiresAt (token_options 100 "alice" (mkCreateToken "desk" None (-1) false)) = None.
Proof. reflexivity. Qed.

(** ** A build, and a script, for the machine that came *)

Module Stock.
(** Signatures of sixty-four bytes: the key and the end of what is signed. *)
Definition last32 (s : string) : string := String.substring (String.length s - 32) 32 s.
Definition short_crypto : Crypto := {|
  sha256_hex s := s;
  key_digest k := String.substring 0 4 k;
  ed25519_public k := k;
  ed25519_from_seed s := s;
  ed25519_seed k := k;
  ed25519_sign k m := (k ++ last32 m)%string;
  ed25519_verify k m s := String.eqb s (k ++ last32 m)%string;
  base64_encode := Toy.encode;
  base64_decode := Toy.decode;
  rfc3339 t := Itoa t |}.
#[export] Existing Instance short_crypto.

(** The server's own key: a sealed value starts with what it is for. *)
Definition vault : Key :=
  mkKey (mkAEAD 32 (fun _ plain ctx => ((ctx ++ "|") ++ plain)%string) (fun _ ct ctx => CutPrefix (ctx ++ "|")%string ct)) EmptyString.

Definition vendor : PublicKey := Toy.keyA.
Definition by_vendor (version body : string) : Release.Signature := Release.Sign (mkPrivateKey (pk_Raw vendor)) (mkManifest version (sha256_hex body)).
Definition sealed (version body : string) : json := sidecar_json (by_vendor version body).
Definition read_json (s : string) : option json :=
  if String.eqb s "1.2.0 abc" then Some (sealed "1.2.0" "abc") else if String.eqb s "1.2.0 other" then Some (sealed "1.2.0" "other") else None.
Definition json_text (j : json) : string := "1.2.0 other".
Definition problem_text (p : sidecar_problem) : string := "bad".

Definition upload (platform header : string) : NewVersion := mkNewVersion "1.2.0" platform "notes" "alice" (base64_encode header) EmptyString.
Definition shelf_empty : depot := mkDepot ∅ [] ∅ ∅ (w_fleet (sv_world enrolled)).
Definition uploads : list build_op :=
  [UploadOp "v1" 300 (upload PlatformWindowsAMD64 "1.2.0 other") "abc"; UploadOp "v1" 301 (upload PlatformWindowsAMD64 "1.2.0 abc") "abc";
   UploadOp "v2" 302 (upload PlatformDarwinUniversal "1.2.0 other") "other"; UploadOp "v3" 303 (upload PlatformWindowsAMD64 "1.2.0 other") "other"].
Definition full : depot := run_ops read_json json_text problem_text [vendor] uploads shelf_empty.

Definition script : Item := mkItem "s1" "Tidy" EmptyString 2 100 120 "alice".
Definition version_of_script (n : Z) (body : string) : Version ScriptBody := mkVersion "s1" n (mkScriptBody body EmptyString) "hash" 100 "alice" None.
Definition scripts : shelf ScriptBody := mkShelf [script] [version_of_script 1 "one"; version_of_script 2 "two"; version_of_script 3 "three"].
Definition given (kind id : string) : Assignment := mkAssignment (kind ++ id)%string kind id "g1" ModeInclude 310 "alice" None zero_rollout.
Definition office : hub :=
  let s := sv_world enrolled in
  let f := set_f_assignments [given ItemKindScript "s1"; given ItemKindAgent "v1"] (dp_fleet full) in
  mkHub (set_sv_world (mkWorld (w_commands s) f scripts [] (mkShelf [] []) [] (mkShelf [] []) [] ∅) enrolled)
    (dp_rows full) (dp_builds full) (dp_files full) (dp_old full) [] ∅ ∅.

Definition bytes_of (s : string) : list Z := map GoString.code (list_ascii_of_string s).
Definition asks (r : agent_request) (h : hub) := agent_serve uuid_Parse bytes_of queueing (Some vault) (env 400 "q" 0) (cert "d0" 1000) r h.
End Stock.
Import Stock.

Lemma shelf_empty_stocked : well_stocked [vendor] shelf_empty.
Proof.
  split.
  - change (f_versions (w_fleet (sv_world enrolled)) = vr_Version <$> (∅ : gmap string AgentVersionRow)). rewrite fmap_empty. vm_compute. reflexivity.
  - intros i j v w Hi. change ((∅ : gmap string AgentVersionRow) !! i = Some v) in Hi. by rewrite lookup_empty in Hi.
  - constructor.
  - intros b Hb. by apply elem_of_nil in Hb.
Qed.

(** The wrong bytes and the build that is there already are turned away; a Mac
    gets the one for every Mac. *)
Lemma served_builds_are_signed_witness :
  well_stocked [vendor] shelf_empty /\
  map a_Action (f_audit (dp_fleet full)) = ["enrollment_token.created"; "device_registration.created"; "device.enrolled"; "agent_version.rejected";
    "agent_version.uploaded"; "agent_version.uploaded"; "agent_version.rejected"]%string /\
  exists body, (OpenBuild "v1" PlatformDarwinARM64 full).1 = Ok body /\ body = "other"%string /\
    Verify [vendor] (mkManifest "1.2.0" (sha256_hex body)) (by_vendor "1.2.0" body) = Ok tt.
Proof.
  split; [exact shelf_empty_stocked|]. split; [vm_compute; reflexivity|].
  destruct (BuildFor "v1" PlatformDarwinARM64 full) as [[[v b]|e] d'] eqn:E; [|vm_compute in E; discriminate E].
  destruct (served_builds_are_signed read_json json_text problem_text [vendor] uploads shelf_empty "v1" PlatformDarwinARM64 v b d' shelf_empty_stocked E)
    as [_ (body & sig & Ho & _)].
  exists body. split; [exact (f_equal fst Ho)|]. assert (body = "other"%string) as -> by (vm_compute in Ho; by injection Ho).
  split; [reflexivity|]. vm_compute. reflexivity.
Defined.

(** The comment at the upload says an orphaned file is wasted disk. It also
    takes the name: nobody can upload that build again. *)
Example an_orphan_takes_the_name :
  let orphan := set_dp_files {[ ("1.2.0", PlatformWindowsAMD64) := "abc" ]}%string shelf_empty in
  (Upload read_json problem_text [vendor] "v1" 300 (upload PlatformWindowsAMD64 "1.2.0 abc") "abc" shelf_empty).1 <> Err VersionTaken /\
  (Upload read_json problem_text [vendor] "v1" 300 (upload PlatformWindowsAMD64 "1.2.0 abc") "abc" orphan).1 = Err VersionTaken /\
  dp_builds orphan = [].
Proof. split; [vm_compute; discriminate|]. split; vm_compute; reflexivity. Qed.


(** Two new versions of a script for all devices wait, and the later one is
    approved. The earlier still waits, and is handed out: it is not newer than
    the current one. *)
Module Skipping.
Definition writing : list (Ctx * request) :=
  [(at_ 300 "alice" "s", CreateScriptReq (Writing.body 1));
   (at_ 301 "alice" "t", CreateAssignmentReq (mkAssignmentRequest ItemKindScript "s0" BuiltinGroupID ModeInclude None None));
   (at_ 302 "bob" "y", DecideReq true "t0" "agreed");
   (at_ 303 "alice" "u", UpdateScriptReq "s0" (Writing.body 2)); (at_ 304 "alice" "v", UpdateScriptReq "s0" (Writing.body 3))].
Definition both_wait : world := after writing (sv_world enrolled).
Definition one_waits : world := after [(at_ 305 "bob" "z", DecideReq true "v0" "agreed")] both_wait.
Definition hub_of (w : world) : hub := mkHub (set_sv_world w enrolled) ∅ [] ∅ ∅ [] ∅ ∅.
Definition waiting_ids (w : world) : list string := map ap_ID (List.filter (fun a => String.eqb (ap_Status a) ApprovalPending) (f_approvals (w_fleet w))).
End Skipping.

Example a_waiting_version_is_handed_out :
  Skipping.waiting_ids Skipping.both_wait = ["u0"; "v0"]%string /\ Skipping.waiting_ids Skipping.one_waits = ["u0"%string] /\
  (asks (ScriptVersion "s0" "2") (Skipping.hub_of Skipping.both_wait)).1 = Err (Rejected 404 "script_not_found") /\
  match (asks (ScriptVersion "s0" "2") (Skipping.hub_of Skipping.one_waits)).1 with
  | Ok (ScriptReply x _) => v_Number x = 2 /\ sb_Body (v_Content x) = "Remove-Item 2"%string
  | _ => False
  end.
Proof. split_and!; vm_compute; try reflexivity. by split. Qed.




Lemma vault_opens : key_opens vault.
Proof. apply aead_key_opens. intros nonce plain ctx _. apply (CutPrefix_app (ctx ++ "|")%string). Qed.

(** The second key of a volume takes the place of the first. *)
Definition escrowed : hub := (asks (EscrowBitLocker "{v1}" "tpm" " 111111-222222 ") office).2.

Lemma an_escrowed_key_is_the_one_revealed_witness :
  exists h' k h'', EscrowKey (Some vault) "k2" rand1 500 "d0" "{v1}" "tpm" "333333-444444" escrowed = (Ok tt, h') /\
    length (hb_keys h') = 1%nat /\ k ∈ hb_keys h' /\
    RevealKey (Some vault) (bk_ID k) "alice" "a visit" h' = (Ok (k, "333333-444444"%string), h'').
Proof.
  destruct (EscrowKey (Some vault) "k2" rand1 500 "d0" "{v1}" "tpm" "333333-444444" escrowed) as [[[]|e] h'] eqn:E;
    [|vm_compute in E; discriminate E].
  assert (one_each escrowed) as Hone by (split; vm_compute; apply NoDup_singleton).
  assert (exists d, sv_devices (hb_server escrowed) !! "d0"%string = Some d) as [d Hd] by (eexists; vm_compute; reflexivity).
  destruct (an_escrowed_key_is_the_one_revealed vault "k2" rand1 500 "d0" "{v1}" "tpm" "333333-444444" escrowed h' d
    E vault_opens Hone Hd) as (_ & (k & Hk & _ & _ & Hr) & _).
  destruct (Hr "alice"%string "a visit"%string) as (h'' & Hreveal & _). exists h', k, h''. split; [reflexivity|].
  split; [vm_compute in E; injection E as <-; reflexivity|]. split; [exact Hk|exact Hreveal].
Defined.

(** ** What its policies make of it *)

Module Health.
Definition rule (t : string) : json := JObj [("type", JStr t)]%string.
Definition policy (id : string) (rules : json) : CompliancePolicy := mkCompliancePolicy id ("Policy " ++ id)%string EmptyString rules 100 100 "alice".
Definition inventory : json := JObj [("hostname", JStr "DESK-1"); ("pending_reboot", JBool true); ("disks", JArr [])]%string.

(** One policy that is broken, one that can not be read, one that is assigned
    but gone, and a verdict of a policy that is no longer assigned. *)
Definition clinic : verdicts :=
  let w := sv_world enrolled in
  let f := set_f_assignments [given ItemKindCompliance "p1"; given ItemKindCompliance "p2"; given ItemKindCompliance "p3"] (w_fleet w) in
  mkVerdicts (set_sv_world (set_w_fleet f w) enrolled)
    [policy "p0" (JArr [rule RuleNoPendingReboot]); policy "p1" (JArr [rule RuleNoPendingReboot]); policy "p2" (JStr "?")]
    [mkDeviceCompliance "d0" "p0" StateCompliant (JArr []) 90] {[ "d0"%string := mkInventoryRow inventory 400 ]} [].

Definition lower (s : string) : string := ToLower s.
Definition day (t : time) : string := Itoa t.
Definition examined : verdicts := (ComplianceService.EvaluateDevice uuid_Parse bytes_of lower day 500 "d0" clinic).2.
End Health.
Import Health.

Lemma devices_are_judged_by_their_policies_witness :
  map (fun r => (dc_PolicyID r, dc_State r)) (vd_results examined) = [("p1", StateNonCompliant); ("p2", StateUnknown)]%string /\
  exists rows statuses, ComplianceService.EvaluateDevice uuid_Parse bytes_of lower day 500 "d0" clinic = (Ok tt, with_rows rows statuses clinic) /\
    forall r, r ∈ rows -> dc_PolicyID r <> "p0"%string \/ dc_DeviceID r <> "d0"%string.
Proof.
  split; [vm_compute; reflexivity|].
  assert (exists d, sv_devices (vd_server clinic) !! "d0"%string = Some d) as [d Hd] by (eexists; vm_compute; reflexivity).
  assert (is_Some (f_devices (vd_fleet clinic) !! "d0"%string)) as Hf by (eexists; vm_compute; reflexivity).
  assert (exists items, EffectiveItems bytes_of "d0" 500 (vd_fleet clinic) = Some items /\ forallb (fun it => negb (String.eqb (ei_ID it) "p0")) items = true)
    as (items & Hi & Hno) by (eexists; split; vm_compute; reflexivity).
  pose proof (buildFacts_read "d0" d clinic) as Hread. destruct (buildFacts "d0" d clinic) as [[facts|e] s'] eqn:Eb; [|vm_compute in Eb; discriminate Eb].
  simpl in Hread. subst s'.
  destruct (devices_are_judged_by_their_policies uuid_Parse bytes_of lower day 500 "d0" clinic d items facts Hd Hf Hi Eb) as (rows & sts & He & Hr & _).
  exists rows, sts. split; [exact He|]. intros r [(id & p & ((it & Hit & _ & <-) & _) & ->)|[_ Hn]]%Hr; [left|by right].
  simpl. intros E. rewrite forallb_forall in Hno. specialize (Hno it (proj1 (list_elem_of_In _ _) Hit)). rewrite E in Hno. discriminate Hno.
Defined.

Lemma clinic_judged_well : judged_well clinic.
Proof.
  split; [repeat (apply NoDup_cons; split; [intros Hin; vm_compute in Hin; set_solver|]); apply NoDup_nil_2..| |].
  - apply Forall_cons. split; [by left|constructor].
  - intros r ->%list_elem_of_singleton. exists (policy "p0" (JArr [rule RuleNoPendingReboot])). split; [left|reflexivity].
Qed.

Lemma overview_tells_the_verdicts_witness :
  ComplianceCounts None (judge_all uuid_Parse bytes_of lower day [EvaluateOp 500 "d0"; DeletePolicyOp "p1" "alice"] clinic) !! ComplianceUnknown = Some 1 /\
  judged_well (judge_all uuid_Parse bytes_of lower day [EvaluateOp 500 "d0"; DeletePolicyOp "p1" "alice"] clinic).
Proof.
  split; [vm_compute; reflexivity|].
  apply (overview_tells_the_verdicts uuid_Parse bytes_of lower day [EvaluateOp 500 "d0"; DeletePolicyOp "p1" "alice"] clinic None clinic_judged_well).
Defined.
